(* ===== verification/_CoqProject ===== *)
-Q . S2P
Prelude.v
Buffers.v
CState.v
Frame.v
Domain.v
Manifest.v
Ipc.v
FfmTypes.v
FfmCore.v
FfmClient.v
FfmService.v
FfmWf.v
FfmQueue.v
FfmSlots.v
FfmServiceWf.v
FfmClientWf.v
FfmTerm.v
FfmInit.v
FfmSteps.v
FfmExample.v
FfmHandles.v
FfmData.v
FfmProps.v
FfmFrame.v
SecureDomain.v
SpmGate.v
SpmGateSteps.v
VnetTables.v
VnetSwitch.v
VnetInv.v
VnetDeliver.v
VnetTx.v
VnetRx.v
VnetExpiry.v
VnetProps.v
Coroutine.v
Mutex.v
SchedRep.v
SchedRun.v
SchedSpec.v
SchedOps.v
SchedLife.v
SchedMutex.v
SchedSys.v
SchedProps.v
Policies.v
GuestVerify.v
Monitor.v
MonitorProps.v
SpmCore.v
SpmGateProps.v
SpmDispatch.v
SpmFault.v
SpmRecover.v
Service.v
Fwu.v
FwuProps.v
FwuStage.v
FlashStm32.v
FlashProps.v
FwuStm32Props.v
FwuExample.v
XspiNor.v
XspiProps.v
NorProps.v
FlashRt700.v
FwuRt700Props.v
Rt700Example.v
VaultStore.v
VaultSpec.v
VaultFacts.v
VaultRun.v
VaultSet.v
VaultOps.v
VaultProps.v
VaultDoorProps.v
VaultExample.v
Vault.v
VaultServiceProps.v
Storage.v
