(* ===== verification/Prelude.v ===== *)
(** * Verification of the wolfTrust Secure Partition Manager

    wolfTrust runs Secure Partitions and Non-secure guests side by side on an
    Armv8-M system. This library models its core in Rocq and proves the
    properties its isolation and its services rest on. Paths below are
    relative to the repository root, which holds the sources as [src/...],
    [include/...] and [port/...].

    ** The program and its parts

    - The boot code validates a system manifest ([src/manifest.c]) and the
      memory domains it declares ([src/domain.c]), resolves each partition's
      region table from them and checks that the tables are isolated
      ([src/ffm_domain.c], [src/periph.c], [wt_spm_sched_validate]).
    - The FF-M runtime ([src/ffm.c], with [src/ipc.c]) carries connections and
      messages between clients and partitions.
    - A Secure Partition reaches the runtime through one privileged entry, the
      gate ([src/spm_gate.c]). It runs as a coroutine ([src/sched/coroutine.c]);
      the store lock of the services is a mutex over coroutines
      ([src/sync/mutex.c]). A faulted partition is recovered under a restart
      budget ([src/sp_recovery.c], [src/restart_policy.c]).
    - The monitor ([src/monitor.c]) schedules the guests, measures their images
      before they run ([src/guest_verify.c]) and restarts or quarantines them.
    - Guests exchange Ethernet frames through a virtual switch ([src/vnet/]).
    - Services run as partitions. The firmware update service
      ([src/services/fwu_service.c]) stages an image in flash through a backend
      of the port ([port/stm32h563/hsm_flash.c], or [port/mimxrt700/hsm_flash.c]
      on the NOR driver [xspi_nor.c]) and arms the boot loader. The vault
      ([src/services/vault_service.c]) keeps the objects of all clients in
      non-volatile memory, sealed ones encrypted
      ([src/services/wolfhsm/wt_hsm_vault.c]); internal trusted storage and
      protected storage ([src/services/storage_service.c]) are front ends that
      forward each client's requests to it.

    ** Files

    Shared: [Prelude] (C integers, notations, record update, error loops,
    tactics), [Buffers] (arrays, byte buffers, flat memory), [CState] (state
    passing for C functions: [prog] and [func] with early return, and the
    weakest preconditions [wp] and [fwp]), [Frame] (parts of the state a
    function leaves alone, and linked queues with a head and a tail pointer).
    [Buffers] also has the little-endian fields of wire structures.

    Domains and manifest: [Domain] is [src/domain.c], [Manifest] is
    [src/manifest.c], [SecureDomain] is [src/ffm_domain.c], [src/periph.c] and
    [wt_spm_sched_validate]. Each [wt_..._validate] function is the definition
    of the same name.

    FF-M runtime: [Ipc] is [src/ipc.c]. [FfmTypes] holds the runtime structure
    ([wt_ffm_runtime] and the [world] around it), [FfmCore] slots, handles,
    queues, vectors and start-up, [FfmClient] connect, call, close and
    termination, [FfmService] what partitions call. [FfmWf] states the
    invariant [wf]; [FfmQueue], [FfmSlots], [FfmServiceWf], [FfmClientWf],
    [FfmTerm] and [FfmInit] prove a specification of each operation;
    [FfmSteps] makes them a transition system. [FfmExample] is a concrete
    system used by the witnesses; [FfmHandles], [FfmData] and
    [FfmProps] hold the theorems; [FfmFrame] shows which operations write
    client memory.

    Gate: [SpmGate] is [src/spm_gate.c], one definition per case of its switch;
    [SpmCore] the table of scheduled partitions and the trap dispatcher of
    [src/arch/common/spm_gate_core.c] and the memory checks of [src/ffm_boot.c];
    [SpmGateSteps] relates each request to the transition system,
    [SpmGateProps] and [SpmDispatch] hold the theorems on the gate and the
    dispatcher. [SpmFault] is the recovery of faulted partitions
    ([wt_spm_recover_faulted] and the steps it runs, with the memory scrubbing
    of [src/arch/armv8m/]), [SpmRecover] its theorems; both work on the
    composition [spm] of scheduler, FF-M runtime and memory.

    Scheduler: [Coroutine] is [src/sched/coroutine.c], [Mutex] is
    [src/sync/mutex.c] with the lock recovery of [src/services/nvm_boot.c].
    [SchedRep] and [SchedSpec] are the abstract scheduler (states, a FIFO run
    queue, FIFO wait queues) and its representation; [SchedRun], [SchedOps],
    [SchedLife] and [SchedMutex] prove the refinement of each operation,
    [SchedSys] gives the initial stack frame of the Armv8-M port, an instance of
    its interface and the combined machine, [SchedProps] the theorems.

    Virtual network: [VnetTables] and [VnetSwitch] are the sources of
    [src/vnet/]; [VnetInv] is the invariant, [VnetDeliver], [VnetTx], [VnetRx]
    and [VnetExpiry] its preservation, [VnetProps] the theorems.

    Policies: [Policies] is [src/restart_policy.c], [src/sp_recovery.c],
    [src/rollback.c], [src/irq_claim.c], [src/fabric_windows.c] and
    [src/partition.c].

    Monitor: [GuestVerify] is [src/guest_verify.c] with its theorems, [Monitor] is
    [src/monitor.c] (the build without the HSM engine and the virtual network),
    with everything it does to the machine as operations of one port;
    [MonitorProps] observes those operations, states when a guest may be entered
    and holds the theorems.

    Services: [Service] is the part all services share (waiting for a signal,
    copying vectors). [Fwu] is [src/services/fwu_service.c] and the update part
    of [src/spm_partitions.c]; [FwuProps] its protocol, [FwuStage] the interface
    of a staging backend and what an update leaves there.

    Vault: [VaultStore] is [src/services/wolfhsm/wt_hsm_vault.c], on an NVM
    library [WhNvm] and a cipher [wt_vault_sealer]. [VaultSpec] states what the
    store holds ([content], a map from owner, client and uid to flags and bytes)
    and the invariant [vinv]; [VaultFacts] relates updates of the NVM to it;
    [VaultRun], [VaultSet] and [VaultOps] run table loading, recovery and the
    operations, keeping for each write what a power failure after it would leave;
    [VaultProps] and [VaultDoorProps] hold the theorems on the store and the
    keystore door, [VaultExample] a concrete store. [Vault] is
    [src/services/vault_service.c], [VaultServiceProps] its theorem on top of the
    store. [Storage] is [src/services/storage_service.c] with the storage part of
    [src/spm_partitions.c], the automaton of its conversation and its theorems.

    Ports: [Service] also holds what the flash drivers share. [FlashStm32] is
    [port/stm32h563/hsm_flash.c], [FlashProps] and [FwuStm32Props]
    its theorems and [FwuExample] a concrete update.
    [XspiNor] is [port/mimxrt700/xspi_nor.c] and [FlashRt700]
    [port/mimxrt700/hsm_flash.c]; [XspiProps] specifies the register protocol,
    [NorProps] and [FwuRt700Props] hold the theorems, [Rt700Example] a concrete
    device.

    ** Conventions

    An integer is a [Z] in the range of its C type, with wrap-around written
    out ([u32], [u16]); [size_t] and [uintptr_t] are 32 bits wide. An index
    field is a [nat], and its "none" value is [None]. A function that can read
    out of bounds or through a null pointer returns [None] there, so that a
    theorem which gives a result also shows the absence of such accesses. A
    null pointer guard on an argument that is never null in the model (the
    runtime, the switch) is left out. Enumerations are inductive types. An
    out-parameter is part of the result.

    Code outside the sources, and hardware, is an interface: [PortOps] (memory
    checks and partition dispatch of the FF-M port) with the law [Dispatched]
    (a dispatched partition runs operations of the runtime, none of them in
    the name of the suspended client) and [TableChecked] (the write check of a
    partition is its table, which the boot code's check satisfies); [CoArch]
    with the law [CoArchSpec] (context switch and stack preparation);
    [transport_fn] with [TransportOk] (a read returns no more than it was
    asked for), [MessagesOk] (the ranges of a message's fields) and
    [VaultReplies] (the outputs of a call fit its vectors); [WhNvm] with
    [NvmOk] (wolfHSM's object store: a call that changes objects has its whole
    effect or none, and a success had it); [works_at] says that in one state
    this store does not fail and has room for the vault's next write, and only
    the progress part of [VaultProps.vault_roundtrip] assumes it, of the states
    the store went through ([smooth]); [wt_vault_sealer] with [SealerOk] (one relation of label,
    counter and ciphertext to plaintext governs sealing and opening);
    [port_fn] with [HashOk] (what the monitor asks of its port; a digest has
    its size); [StagingFlash] (a staging backend), which both ports implement;
    [FlashHw] with [FlashHwOk] (the internal flash controller), [XspiDevice]
    with [NorDevice] (what the NOR flash does, in terms of the history of
    register accesses), [RtPlatform], and [WhErrors] (error codes of wolfHSM,
    which is an external library). Every theorem that assumes a law has a
    witness with a concrete instance.

    [wt_platform_panic] sets a flag and the code after it is translated as it
    stands; the scheduler theorems show the flag is never set.
    [wt_mutex_acquire] is split at the point where it blocks.

    ** Loops and fuel

    Loops over arrays are folds. The walks over linked queues carry fuel: the
    dequeue loop of the FF-M runtime [WT_FFM_MAX_MESSAGES] steps, the walks
    over the run and wait queues [WT_CO_MAX + 1], the stale-frame loop one
    more than the queue's count. Running out is undefined ([None]), and the
    theorems show it does not happen, because a queue holds a slot at most
    once. The dependency elimination of the manifest runs one pass more than
    there are partitions and [Manifest.validate_dependencies_iff] shows that
    is enough. The loop of [wt_co_tick] is bounded by its argument, and that
    of the direct transport by its own guard of eight. The loop that drains an
    input vector makes progress on every read, so one step more than its
    capacity is enough; the scans of the vault cover its window of
    identifiers; the polls of the NOR driver carry the limits of the source,
    and its range loops the size of the range, since every turn advances.

    ** What the theorems show

    - [FfmProps]: in every state reachable from start-up the runtime is
      well-formed and its operations are defined; queues are FIFO and signals
      match them; quotas hold; a waiting client is not disturbed by permitted
      operations and synchronous calls of the others; termination of
      a client or a partition leaves nothing of it behind; replies, admission
      and start-up behave as specified. [FfmHandles]: a handle gives access
      exactly to the live object it was made for. [FfmData]: a call delivers
      the client's bytes, and its completion writes only approved output
      ranges, all or nothing, the last vector standing where a client's output
      vectors overlap. A close whose partition cannot be run leaks its
      connection.
    - [SpmGateProps]: whatever a partition puts in its call block, the gate
      performs at most one operation, in that partition's own name, and writes
      only memory the partition may write. The operation is one of the
      transition system if the partition starts no call or close while an
      earlier request is unanswered ([in_sequence]), which the gate does not
      enforce; a resumed close of an answered message drops the connection of
      whichever client its slot was given to since.
    - [SpmDispatch]: a trap acts for the partition that made it, whatever its
      call block says. [SpmRecover]: recovering a faulted partition is contained
      in its own stack, data band and slot, and a restarted partition begins on
      a zeroed stack with its data band reset.
    - [FwuProps]: the update service follows the update protocol (an image is
      armed only after verification at a version not below the floor) and only
      the owner of an update drives it. [FwuStage], [FwuStm32Props] and
      [FwuRt700Props]: on both ports a completed update has left exactly its
      bytes in flash, armed; on the second, images of an unaligned size cannot
      be completed. [FlashProps], [NorProps]: the flash primitives stay inside
      their partitions and windows, whatever the hardware answers, and
      the image check finds the version of every well-formed header.
    - [VaultProps]: over any sequence of storage operations and power failures the
      store refines an atomic map from owner, client and uid to objects; no nonce
      is used twice; write-once objects and keys stay; every sealed object is
      authentic under its counter; what is stored is read back.
      [VaultDoorProps]: the keystore's door reaches keystore objects only; the
      space counts it reports are those of the whole store.
      [VaultServiceProps]: the service acts for the client that the gate named.
      [Storage]: the front ends follow their protocol with the gate and the vault,
      and every call to the vault is in the name of the client they serve.
    - [Domain], [Manifest], [SecureDomain]: an accepted domain set, manifest or
      set of region tables is isolated (no address reached by two domains but
      declared shared regions, no writable code, no way to the manager's RAM);
      the dependency check accepts exactly the resolved acyclic graphs.
    - [SchedProps]: the linked run and wait queues implement the abstract
      scheduler, state and results of every call; no permitted sequence panics; a released mutex goes to its
      longest waiter, a faulted holder's mutex to the next one; a tick ends.
    - [VnetProps]: frame accounting is exact in every reachable state; a guest
      reads only frames with the assigned address of their sender; a unicast
      frame reaches its port unchanged; the descriptor ring is a bounded queue.
    - [MonitorProps]: guests with a launch policy run only after their image was
      measured, whatever the order of events; a quarantined guest stays out.
      [GuestVerify]: the flash protection checks accept exactly the protected
      windows.
    - [Policies]: a partition in a crash loop is restarted as often as its limit
      allows and then escalates, also when the tick counter wraps.

    ** Not modelled

    The rest of the register-level code and the assembly of [src/arch/armv8m/]
    and [port/], which drive hardware the sources do not describe; the
    compile-time conformance and fault-injection variants; the attestation,
    crypto and relay services, whose work is calls to external libraries, and the
    key backend of the vault service, which is a parameter there; the client
    libraries, which marshal arguments; the trampoline of the scheduling loop
    and the registration of slots in [spm_gate_core.c]; the
    tasklets of the monitor's HSM engine build; the boot sequence
    ([src/boot.c]), a list of calls to the initialisers. *)

From Stdlib Require Import ZArith Lia.
From stdpp Require Import base list numbers gmap option sorting.

(** ** Notations for C integer expressions

    A C integer is a [Z] kept in the range of its type; the operations that
    can leave the range wrap explicitly. [a & ~b] is [Z.ldiff a b]. *)

Declare Scope wt_scope.
Delimit Scope wt_scope with wt.
Notation "a .& b" := (Z.land a b) (at level 40, left associativity) : wt_scope.
Notation "a .| b" := (Z.lor a b) (at level 50, left associativity) : wt_scope.
Notation "a .&~ b" := (Z.ldiff a b) (at level 40, left associativity) : wt_scope.
Notation "a .<< b" := (Z.shiftl a b) (at level 34, left associativity) : wt_scope.
Notation "a .>> b" := (Z.shiftr a b) (at level 34, left associativity) : wt_scope.
Open Scope wt_scope.
Open Scope Z_scope.

Definition UINT32_MAX : Z := 0xFFFFFFFF.
Definition INT32_MAX : Z := 0x7FFFFFFF.
Definition UINT16_MAX : Z := 0xFFFF.
(** [size_t] and [uintptr_t] are 32 bits wide on the Cortex-M33 targets. *)
Definition SIZE_MAX : Z := 0xFFFFFFFF.
Definition UINTPTR_MAX : Z := 0xFFFFFFFF.

Definition u32 (z : Z) : Z := z mod 2 ^ 32.
Definition u16 (z : Z) : Z := z mod 2 ^ 16.

(** The conversion to [int32_t] of a [uint32_t] value. *)
Definition i32_of_u32 (z : Z) : Z := if z <=? INT32_MAX then z else z - 2 ^ 32.

Lemma u32_range z : 0 ≤ u32 z < 2 ^ 32.
Proof. unfold u32. apply Z.mod_pos_bound. lia. Qed.

Lemma u32_small z : 0 ≤ z < 2 ^ 32 → u32 z = z.
Proof. apply Z.mod_small. Qed.

Lemma u16_small z : 0 ≤ z < 2 ^ 16 → u16 z = z.
Proof. apply Z.mod_small. Qed.

(** ** Bit sets

    Attribute, capability and signal words are sets of single bits. *)

(** [(a & bits) != 0U] *)
Definition has_any (a bits : Z) : bool := negb (a .& bits =? 0).

Lemma land_bit (a n : Z) :
  0 ≤ n → a .& (1 .<< n) = if Z.testbit a n then 1 .<< n else 0.
Proof.
  intros Hn. apply Z.bits_inj'. intros k Hk.
  rewrite Z.land_spec, Z.shiftl_spec by done.
  destruct (decide (k = n)) as [->|Hne].
  - replace (n - n) with 0 by lia. simpl Z.testbit at 2. rewrite andb_true_r.
    destruct (Z.testbit a n); [|by rewrite Z.testbit_0_l].
    rewrite Z.shiftl_spec by done. by replace (n - n) with 0 by lia.
  - assert (Z.testbit 1 (k - n) = false) as E.
    { destruct (decide (k - n < 0)); [by apply Z.testbit_neg_r|].
      apply Z.bits_above_log2; simpl; lia. }
    rewrite E, andb_false_r. destruct (Z.testbit a n); [|by rewrite Z.testbit_0_l].
    by rewrite Z.shiftl_spec, E.
Qed.

Lemma shiftl_one_pos (n : Z) : 0 ≤ n → 0 < 1 .<< n.
Proof. intros Hn. rewrite Z.shiftl_1_l. lia. Qed.

Lemma has_any_bit (a n : Z) : 0 ≤ n → has_any a (1 .<< n) = Z.testbit a n.
Proof.
  intros Hn. unfold has_any. rewrite land_bit by done.
  destruct (Z.testbit a n); [|done].
  apply negb_true_iff, Z.eqb_neq. pose proof (shiftl_one_pos n Hn). lia.
Qed.

Lemma land_shiftl_low a n x : 0 ≤ n → 0 ≤ x < 2 ^ n → (a .<< n) .& x = 0.
Proof.
  intros Hn Hx. apply Z.bits_inj'. intros k Hk. rewrite Z.land_spec, Z.testbit_0_l.
  destruct (decide (k < n)) as [Hlt|Hge].
  - by rewrite Z.shiftl_spec_low.
  - rewrite (Z.testbit_eqb x k) by lia. rewrite Z.div_small; [by rewrite andb_false_r|].
    split; [lia|]. eapply Z.lt_le_trans; [apply Hx|]. apply Z.pow_le_mono_r; lia.
Qed.

Lemma lor_shiftl_add a n x : 0 ≤ n → 0 ≤ x < 2 ^ n → (a .<< n) .| x = a * 2 ^ n + x.
Proof.
  intros Hn Hx. rewrite <-Z.lxor_lor by by apply land_shiftl_low.
  rewrite <-Z.add_nocarry_lxor by by apply land_shiftl_low. by rewrite Z.shiftl_mul_pow2.
Qed.

Lemma land_lor_full (a p q : Z) : a .& (p .| q) = p .| q ↔ a .& p = p ∧ a .& q = q.
Proof.
  split.
  - intros H. assert (∀ k, 0 ≤ k → Z.testbit (a .& (p .| q)) k = Z.testbit (p .| q) k) as Hb
      by (intros; by rewrite H).
    split; apply Z.bits_inj'; intros k Hk; specialize (Hb k Hk);
      revert Hb; rewrite !Z.land_spec, Z.lor_spec;
      destruct (Z.testbit a k), (Z.testbit p k), (Z.testbit q k); done.
  - intros [Hp Hq]. by rewrite Z.land_lor_distr_r, Hp, Hq.
Qed.

Lemma land_lor_zero (a p q : Z) : a .& (p .| q) = 0 ↔ a .& p = 0 ∧ a .& q = 0.
Proof. rewrite Z.land_lor_distr_r. apply Z.lor_eq_0_iff. Qed.

Lemma land_bit_full (a n : Z) : 0 ≤ n → a .& (1 .<< n) = 1 .<< n ↔ Z.testbit a n = true.
Proof.
  intros Hn. rewrite land_bit by done. pose proof (shiftl_one_pos n Hn).
  destruct (Z.testbit a n); split; intros; try done; lia.
Qed.

Lemma land_bit_zero (a n : Z) : 0 ≤ n → a .& (1 .<< n) = 0 ↔ Z.testbit a n = false.
Proof.
  intros Hn. rewrite land_bit by done. pose proof (shiftl_one_pos n Hn).
  destruct (Z.testbit a n); split; intros; try done; lia.
Qed.

(** [(s & (s - 1)) == 0] with [s != 0]: exactly one bit is set. *)
Lemma land_pred_zero (s : Z) : 0 < s → s .& (s - 1) = 0 → s = 1 .<< Z.log2 s.
Proof.
  intros Hs H. rewrite Z.shiftl_1_l. pose proof (Z.log2_spec s Hs) as [Hlo Hhi].
  pose proof (Z.log2_nonneg s) as Hk. set (k := Z.log2 s) in *.
  destruct (decide (s = 2 ^ k)) as [|Hne]; [done|exfalso].
  rewrite Z.pow_succ_r in Hhi by done.
  assert (Z.testbit (s .& (s - 1)) k = true) as Hb; [|by rewrite H, Z.testbit_0_l in Hb].
  assert (∀ x, 2 ^ k ≤ x < 2 * 2 ^ k → Z.testbit x k = true) as Hbit.
  { intros x Hx. apply Z.testbit_true; [done|].
    replace (x / 2 ^ k) with 1; [done|]. apply Z.div_unique with (x - 2 ^ k); lia. }
  rewrite Z.land_spec, !Hbit; [done|lia..].
Qed.

(** Distinct single bits do not meet. *)
Lemma land_shiftl_ne (i j : Z) : 0 ≤ i → 0 ≤ j → i ≠ j → (1 .<< i) .& (1 .<< j) = 0.
Proof.
  intros Hi Hj Hne. apply land_bit_zero; [done|].
  rewrite Z.shiftl_1_l. by apply Z.pow2_bits_false.
Qed.

(** ** Record update

    [r <| f := v |>] is [r] with field [f] set to [v]; a structure gives its
    eta-expansion once ([Settable]) and one [Setter] instance per field. *)

Class Settable (R : Type) := eta : R → R.
Class Setter {R T : Type} (proj : R → T) := set_field : (T → T) → R → R.
Arguments set_field {R T} proj {Setter} f r : simpl nomatch.
Ltac derive_setter :=
  lazymatch goal with
  | |- @Setter ?R ?T ?proj =>
    let inst := constr:(_ : Settable R) in
    let e := eval hnf in inst in
    lazymatch eval pattern proj in e with
    | ?s _ => exact (fun (f : T → T) => s (fun r => f (proj r)))
    end
  end.
#[warnings="-postfix-notation-not-level-1"]
Notation "r <| p := v |>" := (set_field p (fun _ => v) r)
  (at level 12, left associativity, only parsing) : wt_scope.

(** ** Pointer-and-count arrays

    A C pair [(const T* p, size_t n)]: a null pointer with any count, or an
    array whose count is its length. *)

Inductive carray (A : Type) : Type :=
| Null (count : nat)
| Arr (items : list A).
Arguments Null {A} count.
Arguments Arr {A} items.

Definition count {A} (a : carray A) : nat :=
  match a with Null n => n | Arr l => length l end.
Definition items {A} (a : carray A) : list A :=
  match a with Null _ => [] | Arr l => l end.
Definition is_null {A} (a : carray A) : bool :=
  match a with Null _ => true | Arr _ => false end.

(** ** Validation loops

    The validators return [0] for "valid" and stop at the first other code. *)

Notation "'ensure' e ;; k" := (let r := e in if r =? 0 then k else r)
  (at level 10, e at level 99, k at level 200, only parsing) : wt_scope.

(** [if (c) return code; k] *)
Notation "'reject' c 'with' e ;; k" := (if c then e else k)
  (at level 10, c at level 99, e at level 99, k at level 200, only parsing) : wt_scope.

(** [for (i = 0; i < n; i++) { ret = f(a[i]); if (ret != 0) return ret; }] *)
Fixpoint first_error {A} (f : A → Z) (l : list A) : Z :=
  match l with
  | [] => 0
  | x :: l' => let r := f x in if r =? 0 then first_error f l' else r
  end.

(** The same loop with a body that also ranges over the elements before the
    current one ([for (j = 0; j < i; j++)]). *)
Fixpoint scan_error {A} (f : list A → A → Z) (before l : list A) : Z :=
  match l with
  | [] => 0
  | x :: l' => let r := f before x in
               if r =? 0 then scan_error f (before ++ [x]) l' else r
  end.

Lemma first_error_zero {A} (f : A → Z) l :
  first_error f l = 0 ↔ Forall (λ x, f x = 0) l.
Proof.
  induction l as [|x l IH]; simpl; [split; auto|].
  rewrite Forall_cons. destruct (Z.eqb_spec (f x) 0); naive_solver.
Qed.

Lemma first_error_elem {A} (f : A → Z) l x : first_error f l = 0 → x ∈ l → f x = 0.
Proof. rewrite first_error_zero, Forall_forall. auto. Qed.

Lemma scan_error_zero {A} (f : list A → A → Z) before l :
  scan_error f before l = 0 ↔
  ∀ l1 x l2, l = l1 ++ x :: l2 → f (before ++ l1) x = 0.
Proof.
  revert before; induction l as [|x l IH]; intros before; simpl.
  - split; [|done]. intros _ [|? l1] ? ? ?; discriminate.
  - destruct (Z.eqb_spec (f before x) 0) as [E|E].
    + rewrite IH. split.
      * intros H [|y l1] z l2 Heq; simplify_eq/=; [by rewrite app_nil_r|].
        specialize (H l1 z l2 eq_refl). by rewrite <-app_assoc in H.
      * intros H l1 z l2 ->. rewrite <-app_assoc. apply (H (x :: l1) z l2). done.
    + split; [done|]. intros H. specialize (H [] x l eq_refl).
      by rewrite app_nil_r in H.
Qed.

Lemma scan_error_lookup {A} (f : list A → A → Z) l i x :
  scan_error f [] l = 0 → l !! i = Some x → f (take i l) x = 0.
Proof.
  intros H Hi. rewrite (scan_error_zero f) in H.
  apply (H (take i l) x (drop (S i) l)). by rewrite take_drop_middle.
Qed.

(** A scan whose body compares a key with the keys before it rejects
    duplicates. *)
Lemma scan_error_NoDup {A B} (f : list A → A → Z) (g : A → B) l :
  (∀ before x, f before x = 0 → g x ∉ g <$> before) →
  scan_error f [] l = 0 → NoDup (g <$> l).
Proof.
  intros Hf. assert (∀ before, NoDup (g <$> before) → scan_error f before l = 0 →
    NoDup (g <$> before ++ l)) as H; [|apply (H []); constructor].
  induction l as [|x l IH]; intros before Hb; simpl; [by rewrite app_nil_r|].
  destruct (Z.eqb_spec (f before x) 0) as [E|]; [|done].
  intros Hs. specialize (IH (before ++ [x])). rewrite <-app_assoc in IH. simpl in IH.
  apply IH; [|done]. rewrite fmap_app. apply NoDup_app. split_and!; [done| |simpl; apply NoDup_singleton].
  intros y Hy Hx. simpl in Hx. apply list_elem_of_singleton in Hx as ->. by apply (Hf before x).
Qed.

(** ** Automation *)

Create HintDb wt.

(** Split the boolean connectives and comparisons of the hypotheses. *)
Ltac bool_hyps :=
  repeat match goal with
  | H : _ && _ = true |- _ => apply andb_true_iff in H; destruct H
  | H : _ || _ = false |- _ => apply orb_false_iff in H; destruct H
  | H : negb _ = true |- _ => apply negb_true_iff in H
  | H : negb _ = false |- _ => apply negb_false_iff in H
  | H : (_ =? _) = true |- _ => apply Z.eqb_eq in H
  | H : (_ =? _) = false |- _ => apply Z.eqb_neq in H
  | H : (_ <? _) = true |- _ => apply Z.ltb_lt in H
  | H : (_ <? _) = false |- _ => apply Z.ltb_ge in H
  | H : (_ <=? _) = true |- _ => apply Z.leb_le in H
  | H : (_ <=? _) = false |- _ => apply Z.leb_gt in H
  | H : (_ =? _)%nat = true |- _ => apply Nat.eqb_eq in H
  | H : (_ =? _)%nat = false |- _ => apply Nat.eqb_neq in H
  | H : (_ <? _)%nat = true |- _ => apply Nat.ltb_lt in H
  | H : (_ <? _)%nat = false |- _ => apply Nat.ltb_ge in H
  | H : (_ <=? _)%nat = true |- _ => apply Nat.leb_le in H
  | H : (_ <=? _)%nat = false |- _ => apply Nat.leb_gt in H
  end.

(** Turn [if c then code else k = 0], with [code] a non-zero constant, into
    [c = false] and [k = 0], repeatedly: the inversion of a validator that
    accepted. *)
Ltac accepted H :=
  repeat match type of H with
  | (if ?c then ?e else ?k) = _ =>
    let E := fresh "Hc" in destruct c eqn:E; [discriminate H|]
  end.

(** The same for [ensure e ;; k]: [e] returned zero and [k] accepted. *)
Tactic Notation "ensured" hyp(H) "as" ident(E) :=
  cbv beta zeta in H;
  lazymatch type of H with
  | (if ?e =? 0 then _ else ?e) = _ => destruct (Z.eqb_spec e 0) as [E|E]; [|exfalso; exact (E H)]
  end.
