(* ===== verification/Buffers.v ===== *)
(** * Byte buffers and memory

    Fixed arrays and byte buffers with the accesses the C code makes to them,
    [None] outside their bounds, and a flat memory as a function of the
    address. *)

From Stdlib Require Import ZArith Lia.
From stdpp Require Import base list numbers option sets.
From S2P Require Import Prelude.

Definition zeros (n : nat) : list Z := replicate n 0.
Definition arr_get (l : list Z) (i : nat) : option Z := l !! i.
(** [l[i] = v] *)
Definition arr_set (l : list Z) (i : nat) (v : Z) : option (list Z) :=
  if decide (i < length l)%nat then Some (<[i := v]> l) else None.

(** [memcpy(&buf[off], bytes, length bytes)] *)
Definition buf_write (buf : list Z) (off : Z) (bytes : list Z) : option (list Z) :=
  if bool_decide (0 ≤ off) && (off + Z.of_nat (length bytes) <=? Z.of_nat (length buf)) then
    Some (take (Z.to_nat off) buf ++ bytes ++ drop (Z.to_nat off + length bytes) buf)
  else None.
(** The [n] bytes at [&buf[off]]. *)
Definition buf_read (buf : list Z) (off n : Z) : option (list Z) :=
  if bool_decide (0 ≤ off ∧ 0 ≤ n) && (off + n <=? Z.of_nat (length buf)) then
    Some (take (Z.to_nat n) (drop (Z.to_nat off) buf))
  else None.

Definition mem_read (mem : Z → Z) (base n : Z) : list Z :=
  (λ k, mem (base + Z.of_nat k)) <$> seq 0 (Z.to_nat n).
Definition mem_write (mem : Z → Z) (base : Z) (bytes : list Z) : Z → Z := λ a,
  if (base <=? a) && (a <? base + Z.of_nat (length bytes)) then
    default 0 (bytes !! Z.to_nat (a - base))
  else mem a.

(** A 32-bit word in memory, little endian. *)
Definition le32 (v : Z) : list Z :=
  [v .& 0xFF; (v .>> 8) .& 0xFF; (v .>> 16) .& 0xFF; (v .>> 24) .& 0xFF].
Definition store32 (mem : Z → Z) (p v : Z) : Z → Z := mem_write mem p (le32 v).
Definition load32 (mem : Z → Z) (p : Z) : Z :=
  mem p .| (mem (p + 1) .<< 8) .| (mem (p + 2) .<< 16) .| (mem (p + 3) .<< 24).

Lemma arr_set_spec l i v : (i < length l)%nat → arr_set l i v = Some (<[i := v]> l).
Proof. intros Hi. unfold arr_set. by rewrite decide_True. Qed.

Lemma buf_read_spec buf off n :
  0 ≤ off → 0 ≤ n → off + n ≤ Z.of_nat (length buf) →
  ∃ bytes, buf_read buf off n = Some bytes ∧ Z.of_nat (length bytes) = n.
Proof.
  intros Ho Hn Hle. unfold buf_read. rewrite bool_decide_true by done.
  destruct (Z.leb_spec (off + n) (Z.of_nat (length buf))); [|lia]. simpl. eexists. split; [done|].
  rewrite length_take, length_drop. lia.
Qed.

Lemma buf_write_spec buf off bytes :
  0 ≤ off → off + Z.of_nat (length bytes) ≤ Z.of_nat (length buf) →
  ∃ buf', buf_write buf off bytes = Some buf' ∧ length buf' = length buf.
Proof.
  intros Ho Hle. unfold buf_write. rewrite bool_decide_true by done.
  destruct (Z.leb_spec (off + Z.of_nat (length bytes)) (Z.of_nat (length buf))); [|lia]. simpl.
  eexists. split; [done|]. rewrite !length_app, length_take, length_drop. lia.
Qed.

Lemma buf_write_length buf off bytes buf' : buf_write buf off bytes = Some buf' → length buf' = length buf.
Proof.
  unfold buf_write. destruct (bool_decide_reflect (0 ≤ off)); [|done]. simpl.
  destruct (Z.leb_spec (off + Z.of_nat (length bytes)) (Z.of_nat (length buf))); [|done]. intros [= <-].
  rewrite !length_app, length_take, length_drop. lia.
Qed.

Lemma buf_write_nil buf off : 0 ≤ off ≤ Z.of_nat (length buf) → buf_write buf off [] = Some buf.
Proof.
  intros Ho. unfold buf_write. rewrite bool_decide_true by lia. cbn [length andb].
  rewrite Z.add_0_r, (proj2 (Z.leb_le _ _)) by lia. by rewrite Nat.add_0_r, app_nil_l, take_drop.
Qed.

Lemma length_mem_read mem base n : 0 ≤ n → Z.of_nat (length (mem_read mem base n)) = n.
Proof. intros Hn. unfold mem_read. rewrite length_fmap, length_seq. lia. Qed.

(** ** Reading back what was written *)

Lemma buf_read_write buf off bytes buf' :
  0 ≤ off → buf_write buf off bytes = Some buf' →
  buf_read buf' off (Z.of_nat (length bytes)) = Some bytes.
Proof.
  unfold buf_write, buf_read. intros Ho. rewrite bool_decide_true by done. simpl.
  destruct (Z.leb_spec (off + Z.of_nat (length bytes)) (Z.of_nat (length buf))); [|done]. intros [= <-].
  rewrite bool_decide_true by lia. simpl. rewrite !length_app, length_take, length_drop.
  destruct (Z.leb_spec (off + Z.of_nat (length bytes)) (Z.of_nat
    (Z.to_nat off `min` length buf + (length bytes + (length buf - (Z.to_nat off + length bytes)))))); [|lia].
  f_equal. rewrite drop_app_length' by (rewrite length_take; lia).
  rewrite Nat2Z.id. by rewrite take_app_length.
Qed.

(** A write above a range leaves the range as it was. *)
Lemma buf_write_take buf off bytes buf' n :
  buf_write buf off bytes = Some buf' → (n ≤ Z.to_nat off)%nat → take n buf' = take n buf.
Proof.
  unfold buf_write. destruct (_ && _) eqn:E; [|done]. intros [= <-] Hn. bool_hyps.
  apply bool_decide_eq_true in H. rewrite take_app_le; [|rewrite length_take; lia].
  rewrite take_take. f_equal. lia.
Qed.

Lemma buf_read_take buf buf' off n :
  0 ≤ off → 0 ≤ n → length buf' = length buf → off + n ≤ Z.of_nat (length buf) →
  take (Z.to_nat (off + n)) buf' = take (Z.to_nat (off + n)) buf →
  buf_read buf' off n = buf_read buf off n.
Proof.
  intros Ho Hn Hl Hle Ht. unfold buf_read. rewrite Hl.
  destruct (bool_decide _ && _); [|done]. f_equal.
  rewrite Z2Nat.inj_add in Ht by done. rewrite !take_drop_commute. by rewrite Ht.
Qed.

Lemma buf_read_lookup buf off n bytes k :
  buf_read buf off n = Some bytes → (k < Z.to_nat n)%nat → bytes !! k = buf !! (Z.to_nat off + k)%nat.
Proof.
  unfold buf_read. destruct (_ && _); [|done]. intros [= <-] Hk. by rewrite lookup_take_lt, lookup_drop.
Qed.

(** Reading a slice in two pieces. *)
Lemma buf_read_app buf off n1 n2 b1 b2 :
  buf_read buf off n1 = Some b1 → buf_read buf (off + n1) n2 = Some b2 →
  buf_read buf off (n1 + n2) = Some (b1 ++ b2).
Proof.
  unfold buf_read. intros H1 H2.
  destruct (bool_decide_reflect (0 ≤ off ∧ 0 ≤ n1)) as [[Ho Hn1]|]; [|done]. simpl in H1.
  destruct (Z.leb_spec (off + n1) (Z.of_nat (length buf))); [|done]. injection H1 as <-.
  destruct (bool_decide_reflect (0 ≤ off + n1 ∧ 0 ≤ n2)) as [[_ Hn2]|]; [|done]. simpl in H2.
  destruct (Z.leb_spec (off + n1 + n2) (Z.of_nat (length buf))); [|done]. injection H2 as <-.
  rewrite bool_decide_true by lia. cbn [andb]. rewrite (proj2 (Z.leb_le _ _)) by lia. f_equal.
  rewrite Z2Nat.inj_add, (Z2Nat.inj_add off) by lia. rewrite <-drop_drop. symmetry. apply take_take_drop.
Qed.

(** A write leaves the bytes outside its range. *)
Lemma buf_write_other buf off bytes buf' j :
  buf_write buf off bytes = Some buf' →
  (j < Z.to_nat off)%nat ∨ (Z.to_nat off + length bytes ≤ j)%nat → buf' !! j = buf !! j.
Proof.
  unfold buf_write. destruct (bool_decide_reflect (0 ≤ off)); [|done]. simpl.
  destruct (Z.leb_spec (off + Z.of_nat (length bytes)) (Z.of_nat (length buf))); [|done]. intros [= <-] Hj.
  destruct Hj as [Hj|Hj].
  - rewrite lookup_app_l by (rewrite length_take; lia). by rewrite lookup_take_lt.
  - rewrite lookup_app_r by (rewrite length_take; lia). rewrite lookup_app_r by (rewrite length_take; lia).
    rewrite lookup_drop. f_equal. rewrite length_take. lia.
Qed.

(** Appending to a prefix of a slice. *)
Lemma buf_write_append buf off p bytes old buf' :
  0 ≤ p → buf_read buf off p = Some old → buf_write buf (off + p) bytes = Some buf' →
  buf_read buf' off (p + Z.of_nat (length bytes)) = Some (old ++ bytes).
Proof.
  intros Hp Hr Hw. assert (0 ≤ off ∧ off + p ≤ Z.of_nat (length buf)) as [Ho Hle].
  { unfold buf_read in Hr. destruct (bool_decide_reflect (0 ≤ off ∧ 0 ≤ p)); [|done]. simpl in Hr.
    destruct (Z.leb_spec (off + p) (Z.of_nat (length buf))); [lia|done]. }
  apply buf_read_app; [|eapply buf_read_write; [lia|done]].
  rewrite <-Hr. apply buf_read_take; [done..|by eapply buf_write_length|done|].
  eapply buf_write_take; [done|lia].
Qed.

Lemma buf_read_length buf off n bytes : buf_read buf off n = Some bytes → Z.of_nat (length bytes) = n ∧ 0 ≤ off.
Proof.
  unfold buf_read. destruct (bool_decide_reflect (0 ≤ off ∧ 0 ≤ n)); [|done]. simpl.
  destruct (Z.leb_spec (off + n) (Z.of_nat (length buf))); [|done]. intros [= <-].
  rewrite length_take, length_drop. lia.
Qed.

(** ** Consecutive writes *)

Lemma mem_read_at mem base n i : (i < Z.to_nat n)%nat → mem_read mem base n !! i = Some (mem (base + Z.of_nat i)).
Proof. intros Hi. unfold mem_read. by rewrite list_lookup_fmap, lookup_seq_lt by done. Qed.
Lemma mem_write_nil mem base a : mem_write mem base [] a = mem a.
Proof.
  unfold mem_write. cbn [length Z.of_nat]. rewrite Z.add_0_r.
  destruct (Z.leb_spec base a), (Z.ltb_spec a base); simpl; try done. lia.
Qed.
Lemma mem_write_ext mem mem' base bytes a : (∀ x, mem x = mem' x) → mem_write mem base bytes a = mem_write mem' base bytes a.
Proof. intros Hm. unfold mem_write. by destruct (_ && _). Qed.
Lemma mem_write_app mem base l1 l2 a :
  mem_write (mem_write mem base l1) (base + Z.of_nat (length l1)) l2 a = mem_write mem base (l1 ++ l2) a.
Proof.
  unfold mem_write. rewrite length_app.
  destruct (Z.leb_spec base a), (Z.leb_spec (base + Z.of_nat (length l1)) a), (Z.ltb_spec a (base + Z.of_nat (length l1))),
    (Z.ltb_spec a (base + Z.of_nat (length l1) + Z.of_nat (length l2))),
    (Z.ltb_spec a (base + Z.of_nat (length l1 + length l2))); simpl; try done; try lia.
  - rewrite lookup_app_r by lia. do 2 f_equal. lia.
  - by rewrite lookup_app_l by lia.
Qed.

(** * Fields of wire structures

    The services copy fixed structures out of and into byte buffers with
    [memcpy]; a field of such a structure is a little-endian number at a fixed
    offset. *)

Definition is_byte (x : Z) : Prop := 0 ≤ x < 256.

Fixpoint of_le (l : list Z) : Z :=
  match l with [] => 0 | x :: l' => x + 256 * of_le l' end.
Fixpoint to_le (n : nat) (v : Z) : list Z :=
  match n with O => [] | S n' => v mod 256 :: to_le n' (v / 256) end.
(** The field of [n] bytes at offset [off]. *)
Definition field (buf : list Z) (off n : nat) : Z := of_le (take n (drop off buf)).

Lemma length_to_le n v : length (to_le n v) = n.
Proof. revert v. induction n as [|n IH]; intros v; simpl; [done|]. by rewrite IH. Qed.
Lemma to_le_bytes n v : Forall is_byte (to_le n v).
Proof. revert v. induction n as [|n IH]; intros v; constructor; [|done]. by apply Z.mod_pos_bound. Qed.

Lemma of_le_range l : Forall is_byte l → 0 ≤ of_le l < 256 ^ Z.of_nat (length l).
Proof.
  induction 1 as [|x l Hx Hl IH]; [simpl; lia|]. cbn [of_le length]. rewrite Nat2Z.inj_succ, Z.pow_succ_r by lia.
  unfold is_byte in Hx. lia.
Qed.
Lemma of_to_le n v : 0 ≤ v < 256 ^ Z.of_nat n → of_le (to_le n v) = v.
Proof.
  revert v. induction n as [|n IH]; intros v Hv; [simpl in *; lia|].
  rewrite Nat2Z.inj_succ, Z.pow_succ_r in Hv by lia. cbn [of_le to_le]. rewrite IH; [|split].
  - pose proof (Z.div_mod v 256). lia.
  - apply Z.div_pos; lia.
  - apply Z.div_lt_upper_bound; lia.
Qed.
Lemma to_of_le l : Forall is_byte l → to_le (length l) (of_le l) = l.
Proof.
  induction 1 as [|x l Hx Hl IH]; [done|]. cbn [of_le to_le length]. unfold is_byte in Hx.
  replace (x + 256 * of_le l) with (of_le l * 256 + x) by lia.
  rewrite Z.add_comm, Z.mod_add, Z.div_add by lia. rewrite Z.mod_small, Z.div_small, Z.add_0_l by lia. by rewrite IH.
Qed.
Lemma field_range buf off n : Forall is_byte buf → 0 ≤ field buf off n < 256 ^ Z.of_nat n.
Proof.
  intros Hb. unfold field. pose proof (of_le_range (take n (drop off buf))) as Hr.
  destruct Hr as [Hr1 Hr2]; [by apply Forall_take, Forall_drop|]. split; [done|].
  eapply Z.lt_le_trans; [done|]. apply Z.pow_le_mono_r; [lia|]. rewrite length_take. lia.
Qed.
(** Reading back a field of a buffer built from fields. *)
Lemma field_app pre v n post : 0 ≤ v < 256 ^ Z.of_nat n → field (pre ++ to_le n v ++ post) (length pre) n = v.
Proof.
  intros Hv. unfold field. rewrite drop_app_length, take_app_le by (by rewrite length_to_le).
  rewrite take_ge by (by rewrite length_to_le). by apply of_to_le.
Qed.
