(* ===== verification/CState.v ===== *)
(** * State passing for C functions

    A C function body is a [prog]: it transforms the state, and ends in
    undefined behaviour ([None]: an out-of-range index or a null pointer
    dereference), in an early [return] or with the value of its last
    statement. [wp] is the weakest precondition of a body and [fwp] that of a
    whole function; both exclude undefined behaviour, so a triple proved with
    them states safety as well as its postcondition. *)

From Stdlib Require Import ZArith Lia.
From stdpp Require Import base list numbers option sets.
From S2P Require Import Prelude.

Definition prog (S R A : Type) : Type := S → option (S * (R + A)).
(** A function called from a body: its early returns are its results. *)
Definition func (S A : Type) : Type := S → option (S * A).

#[export] Instance prog_ret {S R} : MRet (prog S R) := λ A a s, Some (s, inr a).
#[export] Instance prog_bind {S R} : MBind (prog S R) := λ A B k m s,
  match m s with
  | None => None
  | Some (s', inl r) => Some (s', inl r)
  | Some (s', inr a) => k a s'
  end.

Section operations.
Context {S R : Type}.

(** [return r;] *)
Definition early {A} (r : R) : prog S R A := λ s, Some (s, inl r).
Definition gets {A} (f : S → A) : prog S R A := λ s, Some (s, inr (f s)).
Definition modify (f : S → S) : prog S R unit := λ s, Some (f s, inr tt).
(** A value that exists unless the program is undefined here. *)
Definition defined {A} (o : option A) : prog S R A := λ s, (λ a, (s, inr a)) <$> o.
Definition call {A} (f : func S A) : prog S R A := λ s, '(s', a) ← f s; Some (s', inr a).
Definition fn {A} (m : prog S A A) : func S A := λ s,
  match m s with
  | None => None
  | Some (s', inl a) => Some (s', a)
  | Some (s', inr a) => Some (s', a)
  end.
(** [for (i in l) body(i);] *)
Fixpoint for_each {I} (l : list I) (body : I → prog S R unit) : prog S R unit :=
  match l with
  | [] => mret tt
  | i :: l' => body i;; for_each l' body
  end.
(** The same loop with an accumulator. *)
Fixpoint for_acc {I A} (l : list I) (body : I → A → prog S R A) (a : A) : prog S R A :=
  match l with
  | [] => mret a
  | i :: l' => a' ← body i a; for_acc l' body a'
  end.
(** [if (c) m;] *)
Definition when (c : bool) (m : prog S R unit) : prog S R unit := if c then m else mret tt.

Definition wp {A} (m : prog S R A) (E : R → S → Prop) (Q : A → S → Prop) (s : S) : Prop :=
  match m s with
  | None => False
  | Some (s', inl r) => E r s'
  | Some (s', inr a) => Q a s'
  end.
Definition fwp {A} (f : func S A) (Q : A → S → Prop) (s : S) : Prop :=
  match f s with
  | None => False
  | Some (s', a) => Q a s'
  end.

Lemma wp_ret {A} (a : A) E (Q : A → S → Prop) s : Q a s → wp (mret a) E Q s.
Proof. done. Qed.
Lemma wp_bind {A B} (m : prog S R A) (k : A → prog S R B) E Q s :
  wp m E (λ a, wp (k a) E Q) s → wp (m ≫= k) E Q s.
Proof. unfold wp, mbind, prog_bind. destruct (m s) as [[s' [r|a]]|]; done. Qed.
Lemma wp_assoc {A B C} (m : prog S R A) (k1 : A → prog S R B) (k2 : B → prog S R C) E Q s :
  wp ((m ≫= k1) ≫= k2) E Q s → wp (m ≫= λ a, k1 a ≫= k2) E Q s.
Proof. unfold wp, mbind, prog_bind. destruct (m s) as [[s' [r|a]]|]; done. Qed.
Lemma wp_early {A} r (E : R → S → Prop) (Q : A → S → Prop) s : E r s → wp (early r) E Q s.
Proof. done. Qed.
Lemma wp_gets {A} (f : S → A) E (Q : A → S → Prop) s : Q (f s) s → wp (gets f) E Q s.
Proof. done. Qed.
Lemma wp_modify f E (Q : unit → S → Prop) s : Q tt (f s) → wp (modify f) E Q s.
Proof. done. Qed.
Lemma wp_defined {A} (o : option A) a E (Q : A → S → Prop) s : o = Some a → Q a s → wp (defined o) E Q s.
Proof. by intros ->. Qed.
Lemma wp_call {A} (f : func S A) E (Q : A → S → Prop) s : fwp f Q s → wp (call f) E Q s.
Proof. unfold fwp, wp, call. destruct (f s) as [[s' a]|]; done. Qed.
Lemma wp_mono {A} (m : prog S R A) (E E' : R → S → Prop) (Q Q' : A → S → Prop) s :
  wp m E Q s → (∀ r s', E r s' → E' r s') → (∀ a s', Q a s' → Q' a s') → wp m E' Q' s.
Proof. unfold wp. destruct (m s) as [[s' [?|?]]|]; auto. Qed.
Lemma wp_when c m E (Q : unit → S → Prop) s :
  (c = true → wp m E Q s) → (c = false → Q tt s) → wp (when c m) E Q s.
Proof. unfold when. intros Ht Hf. destruct c; [by apply Ht|by apply wp_ret, Hf]. Qed.
Lemma wp_if {A} (c : bool) (m1 m2 : prog S R A) E Q s :
  (c = true → wp m1 E Q s) → (c = false → wp m2 E Q s) → wp (if c then m1 else m2) E Q s.
Proof. destruct c; auto. Qed.

(** A loop keeps an invariant indexed by the iterations done. *)
Lemma wp_for_each {I} (l : list I) (body : I → prog S R unit) (Inv : list I → S → Prop) E Q s :
  Inv [] s →
  (∀ l1 i l2 s', l = l1 ++ i :: l2 → Inv l1 s' → wp (body i) E (λ _, Inv (l1 ++ [i])) s') →
  (∀ s', Inv l s' → Q tt s') →
  wp (for_each l body) E Q s.
Proof.
  intros H0 Hstep HQ. assert (∀ l2 l1 s', l = l1 ++ l2 → Inv l1 s' → wp (for_each l2 body) E Q s') as Hgen.
  { induction l2 as [|i l2 IH]; intros l1 s' Hl Hi; simpl.
    - apply wp_ret, HQ. by rewrite Hl, app_nil_r.
    - apply wp_bind. eapply wp_mono; [by eapply Hstep| done |].
      intros [] s'' Hi'. apply (IH (l1 ++ [i])); [|done]. by rewrite Hl, <-app_assoc. }
  by apply (Hgen l []).
Qed.

(** The form with an invariant that does not depend on the iteration. *)
Lemma wp_for_inv {I} (l : list I) (body : I → prog S R unit) (Inv : S → Prop) E Q s :
  Inv s → (∀ i s', i ∈ l → Inv s' → wp (body i) E (λ _, Inv) s') →
  (∀ s', Inv s' → Q tt s') → wp (for_each l body) E Q s.
Proof.
  intros H0 Hstep HQ. apply (wp_for_each l body (λ _, Inv)); [done| |done].
  intros l1 i l2 s' -> Hi. apply Hstep; [|done]. set_solver.
Qed.

Lemma wp_for_acc {I A} (l : list I) (body : I → A → prog S R A) (Inv : list I → A → S → Prop) a E Q s :
  Inv [] a s →
  (∀ l1 i l2 a' s', l = l1 ++ i :: l2 → Inv l1 a' s' → wp (body i a') E (Inv (l1 ++ [i])) s') →
  (∀ a' s', Inv l a' s' → Q a' s') →
  wp (for_acc l body a) E Q s.
Proof.
  intros H0 Hstep HQ.
  assert (∀ l2 l1 a' s', l = l1 ++ l2 → Inv l1 a' s' → wp (for_acc l2 body a') E Q s') as Hgen.
  { induction l2 as [|i l2 IH]; intros l1 a' s' Hl Hi; simpl.
    - apply wp_ret, HQ. by rewrite Hl, app_nil_r.
    - apply wp_bind. eapply wp_mono; [by eapply Hstep| done |].
      intros a'' s'' Hi'. apply (IH (l1 ++ [i])); [|done]. by rewrite Hl, <-app_assoc. }
  by apply (Hgen l []).
Qed.

Lemma fwp_mono {A} (f : func S A) (Q Q' : A → S → Prop) s :
  fwp f Q s → (∀ a s', Q a s' → Q' a s') → fwp f Q' s.
Proof. unfold fwp. destruct (f s) as [[s' a]|]; auto. Qed.
Lemma fwp_elim {A} (f : func S A) Q s s' a : fwp f Q s → f s = Some (s', a) → Q a s'.
Proof. unfold fwp. intros H Hf. by rewrite Hf in H. Qed.
Lemma fwp_run {A} (f : func S A) Q s : fwp f Q s → ∃ s' a, f s = Some (s', a) ∧ Q a s'.
Proof. unfold fwp. destruct (f s) as [[s' a]|]; [eauto|done]. Qed.
Lemma fwp_conj {A} (f : func S A) (P Q : A → S → Prop) s :
  fwp f P s → fwp f Q s → fwp f (λ a s', P a s' ∧ Q a s') s.
Proof. unfold fwp. destruct (f s) as [[s' a]|]; auto. Qed.
End operations.

Lemma fwp_fn {S A} (m : prog S A A) Q s : wp m Q Q s → fwp (fn m) Q s.
Proof. unfold fwp, wp, fn. destruct (m s) as [[s' [?|?]]|]; done. Qed.

(** One symbolic execution step of a body. *)
Ltac wp_step :=
  lazymatch goal with
  | |- wp (mbind _ _) _ _ _ => apply wp_bind
  | |- wp (_ ≫= _) _ _ _ => apply wp_bind
  | |- wp (mret _) _ _ _ => apply wp_ret
  | |- wp (early _) _ _ _ => apply wp_early
  | |- wp (gets _) _ _ _ => apply wp_gets
  | |- wp (modify _) _ _ _ => apply wp_modify
  | |- wp (call _) _ _ _ => apply wp_call
  | |- fwp (fn _) _ _ => apply fwp_fn
  end.
Ltac wp_steps := repeat (wp_step; cbv beta).
