(* ===== verification/Frame.v ===== *)
(** * What a C function leaves alone

    [frames obs m]: wherever [m] is defined it keeps the part [obs] of the
    state. The tactic [frame] descends through a function body. *)

From Stdlib Require Import ZArith Lia.
From stdpp Require Import base list numbers option sets.
From S2P Require Import Prelude CState.

Definition frames {S T R A} (obs : S → T) (m : prog S R A) : Prop :=
  ∀ s, match m s with Some (s', _) => obs s' = obs s | None => True end.
Definition fframes {S T A} (obs : S → T) (f : func S A) : Prop :=
  ∀ s, match f s with Some (s', _) => obs s' = obs s | None => True end.

Section frame.
Context {S T R : Type} (obs : S → T).

Lemma frames_ret {A} (a : A) : frames (R := R) obs (mret a).
Proof. done. Qed.
Lemma frames_early {A} (r : R) : frames (A := A) obs (early r).
Proof. done. Qed.
Lemma frames_gets {A} (f : S → A) : frames (R := R) obs (gets f).
Proof. done. Qed.
Lemma frames_defined {A} (o : option A) : frames (R := R) obs (defined o).
Proof. intros s. by destruct o. Qed.
Lemma frames_modify f : (∀ s, obs (f s) = obs s) → frames (R := R) obs (modify f).
Proof. intros Hf s. apply Hf. Qed.
Lemma frames_bind {A B} (m : prog S R A) (k : A → prog S R B) :
  frames obs m → (∀ a, frames obs (k a)) → frames obs (m ≫= k).
Proof.
  intros Hm Hk s. specialize (Hm s). unfold mbind, prog_bind. destruct (m s) as [[s1 [r|a]]|]; [done| |done].
  specialize (Hk a s1). destruct (k a s1) as [[s2 ?]|]; [congruence|done].
Qed.
Lemma frames_call {A} (f : func S A) : fframes obs f → frames (R := R) obs (call f).
Proof. intros Hf s. specialize (Hf s). unfold call. simpl. by destruct (f s) as [[s1 a]|]. Qed.
Lemma frames_when c (m : prog S R unit) : frames obs m → frames obs (when c m).
Proof. by destruct c. Qed.
Lemma frames_for_each {I} (l : list I) (body : I → prog S R unit) :
  (∀ i, frames obs (body i)) → frames obs (for_each l body).
Proof. intros Hb. induction l; [done|]. by apply frames_bind. Qed.
Lemma frames_for_acc {I A} (l : list I) (body : I → A → prog S R A) a :
  (∀ i a, frames obs (body i a)) → frames obs (for_acc l body a).
Proof. intros Hb. revert a. induction l; intros a0; [done|]. by apply frames_bind. Qed.
End frame.

Lemma fframes_fn {S T A} (obs : S → T) (m : prog S A A) : frames obs m → fframes obs (fn m).
Proof. intros Hm s. specialize (Hm s). unfold fn. by destruct (m s) as [[s1 [a|a]]|]. Qed.
Lemma fframes_elim {S T A} (obs : S → T) (f : func S A) s s' a : fframes obs f → f s = Some (s', a) → obs s' = obs s.
Proof. intros Hf E. specialize (Hf s). by rewrite E in Hf. Qed.
Lemma fframes_conj {S T A} (obs : S → T) (f : func S A) (Q : A → S → Prop) s :
  fframes obs f → fwp f Q s → fwp f (λ a s', Q a s' ∧ obs s' = obs s) s.
Proof. intros Hf. specialize (Hf s). unfold fwp. by destruct (f s) as [[s' a]|]. Qed.

Create HintDb frame.
#[export] Hint Resolve frames_ret frames_early frames_gets frames_defined : frame.

Ltac frame_step :=
  match goal with
  | |- ∀ _, _ => intro
  | |- fframes _ (fn _) => apply fframes_fn
  | |- fframes _ _ => solve [eauto with frame]
  | |- frames _ (_ ≫= _) => apply frames_bind
  | |- frames _ (call _) => apply frames_call
  | |- frames _ (when _ _) => apply frames_when
  | |- frames _ (for_each _ _) => apply frames_for_each
  | |- frames _ (for_acc _ _ _) => apply frames_for_acc
  | |- frames _ (modify _) => apply frames_modify; done
  | |- frames _ (match ?x with _ => _ end) => destruct x
  | |- frames _ _ => first [done | solve [eauto with frame]]
  end.
Ltac frame := repeat (frame_step; cbv beta zeta).

(** * Singly linked lists

    List segments over an arbitrary link function, and the FIFO queue with a
    head and a tail pointer that the coroutine scheduler uses for its run
    queue and the mutexes for their waiters. A store to one link field is
    [link_upd]. *)

Section chain.
Context {P : Type} `{!EqDecision P}.
Implicit Types (nxt : P → option P) (x y : P) (l : list P).

Definition link_upd nxt x (v : option P) : P → option P := λ y, if decide (y = x) then v else nxt y.

(** The nodes [l] lead from [p] to [q]. *)
Fixpoint lseg nxt (p : option P) l (q : option P) : Prop :=
  match l with
  | [] => p = q
  | x :: l' => p = Some x ∧ lseg nxt (nxt x) l' q
  end.

(** A null-terminated list with a pointer to its last node. *)
Record queue_rep nxt (head tail : option P) l : Prop := {
  qr_seg : lseg nxt head l None;
  qr_tail : tail = last l;
  qr_nodup : NoDup l;
}.

Lemma link_upd_eq nxt x v : link_upd nxt x v x = v.
Proof. unfold link_upd. by rewrite decide_True. Qed.
Lemma link_upd_ne nxt x v y : y ≠ x → link_upd nxt x v y = nxt y.
Proof. intros Hne. unfold link_upd. by rewrite decide_False. Qed.

Lemma lseg_ext nxt nxt' p l q : (∀ x, x ∈ l → nxt' x = nxt x) → lseg nxt p l q → lseg nxt' p l q.
Proof.
  revert p. induction l as [|x l IH]; intros p Hext; simpl; [done|]. intros [-> Hs]. split; [done|].
  rewrite Hext by set_solver. apply IH; [|done]. set_solver.
Qed.
Lemma lseg_upd nxt x v p l q : x ∉ l → lseg nxt p l q → lseg (link_upd nxt x v) p l q.
Proof. intros Hx. apply lseg_ext. intros y Hy. apply link_upd_ne. set_solver. Qed.

Lemma lseg_app nxt p l1 l2 q : lseg nxt p (l1 ++ l2) q ↔ ∃ r, lseg nxt p l1 r ∧ lseg nxt r l2 q.
Proof.
  revert p. induction l1 as [|x l1 IH]; intros p; simpl; [naive_solver|]. rewrite IH. naive_solver.
Qed.
Lemma lseg_snoc nxt p l x q : lseg nxt p (l ++ [x]) q ↔ lseg nxt p l (Some x) ∧ nxt x = q.
Proof. rewrite lseg_app. simpl. naive_solver. Qed.

Lemma queue_nil nxt : queue_rep nxt None None [].
Proof. constructor; [done|done|constructor]. Qed.
Lemma queue_head nxt h t l : queue_rep nxt h t l → h = head l.
Proof. intros [Hs _ _]. destruct l; simpl in *; naive_solver. Qed.
Lemma queue_ext nxt nxt' h t l : (∀ x, x ∈ l → nxt' x = nxt x) → queue_rep nxt h t l → queue_rep nxt' h t l.
Proof. intros Hext [Hs Ht Hn]. constructor; [by eapply lseg_ext|done|done]. Qed.

(** Appending behind the tail, or to an empty queue. *)
Lemma queue_push nxt h t l x :
  queue_rep nxt h t l → x ∉ l →
  queue_rep (match t with Some y => link_upd (link_upd nxt x None) y (Some x) | None => link_upd nxt x None end)
    (match t with Some _ => h | None => Some x end) (Some x) (l ++ [x]).
Proof.
  intros [Hs -> Hn] Hx. constructor.
  - destruct l as [|y l _] using rev_ind; [simpl; by rewrite link_upd_eq|].
    rewrite last_snoc. rewrite lseg_snoc in Hs. destruct Hs as [Hs Hy]. apply NoDup_app in Hn as (Hn & Hd & _).
    assert (y ≠ x) by set_solver. assert (y ∉ l) by set_solver.
    rewrite lseg_snoc, lseg_snoc. rewrite link_upd_eq. split_and!; [|done|].
    + apply lseg_upd; [done|]. apply lseg_upd; [set_solver|done].
    + rewrite link_upd_ne by done. by rewrite link_upd_eq.
  - by rewrite last_snoc.
  - apply NoDup_app. split_and!; [done|set_solver|apply NoDup_singleton].
Qed.

(** Removing the head, whose link is cleared. *)
Lemma queue_pop nxt h t x l :
  queue_rep nxt h t (x :: l) →
  h = Some x ∧ queue_rep (link_upd nxt x None) (nxt x) (match nxt x with Some _ => t | None => None end) l.
Proof.
  intros [[-> Hs] -> Hn]. split; [done|]. apply NoDup_cons in Hn as [Hx Hn]. constructor; [by apply lseg_upd| |done].
  destruct l as [|y l]; simpl in Hs; [by rewrite Hs|]. destruct Hs as [-> _]. by rewrite last_cons_cons.
Qed.

(** The link that leads to [x] : the head ([None]) or the link field of the
    node before it. *)
Definition set_link nxt (link : option P) (v : option P) : P → option P :=
  match link with Some y => link_upd nxt y v | None => nxt end.
Definition set_head (h : option P) (link v : option P) : option P :=
  match link with Some _ => h | None => v end.

Lemma queue_unlink nxt h t l1 x l2 :
  queue_rep nxt h t (l1 ++ x :: l2) →
  queue_rep (link_upd (set_link nxt (last l1) (nxt x)) x None) (set_head h (last l1) (nxt x))
    (if decide (t = Some x) then last l1 else t) (l1 ++ l2).
Proof.
  intros [Hs -> Hn]. apply lseg_app in Hs as (r & H1 & -> & H2).
  apply NoDup_app in Hn as (Hn1 & Hd & Hn2). apply NoDup_cons in Hn2 as [Hx Hn2].
  assert (x ∉ l1) by set_solver. assert (∀ y, y ∈ l1 → y ∉ l2) as Hd' by set_solver.
  constructor.
  - apply lseg_app. exists (nxt x). split.
    + destruct l1 as [|y l1 _] using rev_ind; [done|]. rewrite last_snoc. simpl. apply lseg_snoc in H1 as [H1 H1y].
      apply NoDup_app in Hn1 as (_ & Hd1 & _). apply lseg_snoc. split.
      * apply lseg_upd; [set_solver|]. apply lseg_upd; [set_solver|done].
      * rewrite link_upd_ne by set_solver. by rewrite link_upd_eq.
    + apply lseg_upd; [done|]. destruct (last l1) as [y|] eqn:Hl; [|done]. simpl. apply lseg_upd; [|done].
      apply Hd'. by apply last_Some_elem_of.
  - rewrite !last_app. destruct l2 as [|y l2].
    + simpl. rewrite decide_True by done. by destruct (last l1).
    + rewrite (last_cons_cons x). destruct (last (y :: l2)) as [z|] eqn:Hz; [|by apply last_None in Hz].
      rewrite decide_False; [done|]. intros [= ->]. apply Hx. by apply last_Some_elem_of.
  - apply NoDup_app. split_and!; [done|set_solver|done].
Qed.

(** The end of a chain. *)
Lemma queue_last_link nxt h t l x : queue_rep nxt h t (l ++ [x]) → nxt x = None.
Proof. intros [Hs _ _]. by apply lseg_snoc in Hs as [_ ?]. Qed.
Lemma queue_link nxt h t l1 x y l2 : queue_rep nxt h t (l1 ++ x :: y :: l2) → nxt x = Some y.
Proof. intros [Hs _ _]. apply lseg_app in Hs as (r & _ & _ & Hs). by destruct Hs. Qed.
End chain.
