(* ===== verification/Domain.v ===== *)
(** * Protection domains: [include/wolftrust/domain.h], [src/domain.c]

    A domain descriptor names a protection domain (the SPM, a Secure
    Partition or a Non-secure application), its memory and interrupt
    resources, its entry point and stack. [wt_domain_validate_set] decides
    whether a set of descriptors may be scheduled at an isolation profile.
    Enumeration fields are [Z]: the validator itself rejects values outside
    the enumerations. *)

From Stdlib Require Import ZArith Lia.
From stdpp Require Import base list numbers option.
From S2P Require Import Prelude.

Definition WT_DOMAIN_ID_INVALID : Z := UINT32_MAX.
Definition WT_RESOURCE_SHARE_NONE : Z := 0.

Definition WT_MEMORY_ATTR_READ : Z := 1 .<< 0.
Definition WT_MEMORY_ATTR_WRITE : Z := 1 .<< 1.
Definition WT_MEMORY_ATTR_EXECUTE : Z := 1 .<< 2.
Definition WT_MEMORY_ATTR_DEVICE : Z := 1 .<< 3.
Definition WT_MEMORY_ATTR_RESTART_CLEAR : Z := 1 .<< 4.
Definition WT_MEMORY_ATTR_SHARED : Z := 1 .<< 5.
Definition WT_INTERRUPT_ATTR_SHARED : Z := 1 .<< 0.

Definition WT_CAPABILITY_SECURITY_STATE : Z := 1 .<< 0.
Definition WT_CAPABILITY_PRIVILEGE_STATE : Z := 1 .<< 1.
Definition WT_CAPABILITY_ROT_ISOLATION : Z := 1 .<< 2.
Definition WT_CAPABILITY_DOMAIN_ISOLATION : Z := 1 .<< 3.
Definition WT_CAPABILITY_MEMORY_PROTECTION : Z := 1 .<< 4.
Definition WT_CAPABILITY_INTERRUPT_ISOLATION : Z := 1 .<< 5.
Definition WT_CAPABILITY_RESTART : Z := 1 .<< 6.

Definition WT_DOMAIN_CLASS_SPM : Z := 0.
Definition WT_DOMAIN_CLASS_SECURE_PARTITION : Z := 1.
Definition WT_DOMAIN_CLASS_NONSECURE_APPLICATION : Z := 2.

Definition WT_ROT_ROLE_NONE : Z := 0.
Definition WT_ROT_ROLE_SPM : Z := 1.
Definition WT_ROT_ROLE_PROT : Z := 2.
Definition WT_ROT_ROLE_AROT : Z := 3.

Definition WT_SECURITY_STATE_SECURE : Z := 0.
Definition WT_SECURITY_STATE_NONSECURE : Z := 1.
Definition WT_PRIVILEGE_STATE_PRIVILEGED : Z := 0.
Definition WT_PRIVILEGE_STATE_UNPRIVILEGED : Z := 1.
Definition WT_DOMAIN_LIFECYCLE_READY : Z := 1.

Definition WT_RESTART_ACTION_DOMAIN : Z := 1.
Definition WT_RESTART_ACTION_PLATFORM : Z := 2.

Definition WT_ISOLATION_PROFILE_SERVICE_ONLY : Z := 0.
Definition WT_ISOLATION_PROFILE_LEVEL_3 : Z := 3.

Definition WT_DOMAIN_VALID : Z := 0.
Definition WT_DOMAIN_ERROR_ARGUMENT : Z := -1.
Definition WT_DOMAIN_ERROR_COUNT : Z := -2.
Definition WT_DOMAIN_ERROR_PROFILE : Z := -3.
Definition WT_DOMAIN_ERROR_CAPABILITY : Z := -4.
Definition WT_DOMAIN_ERROR_ID : Z := -5.
Definition WT_DOMAIN_ERROR_CLASS : Z := -6.
Definition WT_DOMAIN_ERROR_ROT_ROLE : Z := -7.
Definition WT_DOMAIN_ERROR_SECURITY_STATE : Z := -8.
Definition WT_DOMAIN_ERROR_PRIVILEGE_STATE : Z := -9.
Definition WT_DOMAIN_ERROR_LIFECYCLE : Z := -10.
Definition WT_DOMAIN_ERROR_RESTART_POLICY : Z := -11.
Definition WT_DOMAIN_ERROR_MEMORY_COUNT : Z := -12.
Definition WT_DOMAIN_ERROR_EMPTY_REGION : Z := -13.
Definition WT_DOMAIN_ERROR_ADDRESS_OVERFLOW : Z := -14.
Definition WT_DOMAIN_ERROR_MEMORY_ATTRIBUTES : Z := -15.
Definition WT_DOMAIN_ERROR_WRITE_EXECUTE : Z := -16.
Definition WT_DOMAIN_ERROR_ENTRY_POINT : Z := -17.
Definition WT_DOMAIN_ERROR_STACK : Z := -18.
Definition WT_DOMAIN_ERROR_OVERLAP : Z := -19.
Definition WT_DOMAIN_ERROR_SHARING : Z := -20.
Definition WT_DOMAIN_ERROR_INTERRUPT_COUNT : Z := -21.
Definition WT_DOMAIN_ERROR_INTERRUPT : Z := -22.
Definition WT_DOMAIN_ERROR_INTERRUPT_OWNERSHIP : Z := -23.
Definition WT_DOMAIN_ERROR_SPM_COUNT : Z := -24.
Definition WT_DOMAIN_ERROR_LAUNCH_POLICY : Z := -25.
Definition WT_DOMAIN_ERROR_ISOLATION : Z := -26.

Record wt_memory_resource := {
  mr_base : Z;
  mr_size : Z;
  mr_attributes : Z;
  mr_share_id : Z;
}.

Record wt_interrupt_resource := {
  ir_interrupt : Z;
  ir_attributes : Z;
  ir_share_id : Z;
}.

Record wt_domain_restart_policy := {
  rp_action : Z;
  rp_restart_limit : Z;
  rp_restart_window_ticks : Z;
  rp_initial_delay_ticks : Z;
}.

Record wt_domain_descriptor := {
  d_id : Z;
  d_class : Z;
  d_rot_role : Z;
  d_security_state : Z;
  d_privilege_state : Z;
  d_initial_lifecycle : Z;
  d_entry_point : Z;
  d_stack_base : Z;
  d_stack_size : Z;
  d_memory_resources : carray wt_memory_resource;
  d_interrupt_resources : carray wt_interrupt_resource;
  d_restart_policy : wt_domain_restart_policy;
  d_required_capabilities : Z;
  d_launch_required : Z;
  d_launch_min_version : Z;
}.

Record wt_profile_capabilities := {
  pc_capabilities : Z;
  pc_max_domains : Z;
  pc_max_memory_resources_per_domain : Z;
  pc_max_interrupts_per_domain : Z;
}.

Definition WT_MEMORY_ATTR_MASK : Z :=
  WT_MEMORY_ATTR_READ .| WT_MEMORY_ATTR_WRITE .| WT_MEMORY_ATTR_EXECUTE .|
  WT_MEMORY_ATTR_DEVICE .| WT_MEMORY_ATTR_RESTART_CLEAR .| WT_MEMORY_ATTR_SHARED.
Definition WT_INTERRUPT_ATTR_MASK : Z := WT_INTERRUPT_ATTR_SHARED.
Definition WT_CAPABILITY_MASK : Z :=
  WT_CAPABILITY_SECURITY_STATE .| WT_CAPABILITY_PRIVILEGE_STATE .|
  WT_CAPABILITY_ROT_ISOLATION .| WT_CAPABILITY_DOMAIN_ISOLATION .|
  WT_CAPABILITY_MEMORY_PROTECTION .| WT_CAPABILITY_INTERRUPT_ISOLATION .|
  WT_CAPABILITY_RESTART.

(** An error code, or the end address stored through the out parameter. *)
Definition wt_range_end (base size : Z) : Z + Z :=
  if size =? 0 then inl WT_DOMAIN_ERROR_EMPTY_REGION
  else if UINTPTR_MAX - base <? size then inl WT_DOMAIN_ERROR_ADDRESS_OVERFLOW
  else inr (u32 (base + size)).

Definition wt_profile_required_capabilities (profile : Z) : Z + Z :=
  if profile =? WT_ISOLATION_PROFILE_SERVICE_ONLY then inr 0
  else if profile =? WT_ISOLATION_PROFILE_LEVEL_3 then
    inr (WT_CAPABILITY_SECURITY_STATE .| WT_CAPABILITY_PRIVILEGE_STATE .|
         WT_CAPABILITY_ROT_ISOLATION .| WT_CAPABILITY_DOMAIN_ISOLATION .|
         WT_CAPABILITY_MEMORY_PROTECTION .| WT_CAPABILITY_INTERRUPT_ISOLATION)
  else inl WT_DOMAIN_ERROR_PROFILE.

Definition wt_domain_validate_identity (d : wt_domain_descriptor) : Z :=
  reject d_id d =? WT_DOMAIN_ID_INVALID with WT_DOMAIN_ERROR_ID;;
  reject u32 (d_class d) >? WT_DOMAIN_CLASS_NONSECURE_APPLICATION with WT_DOMAIN_ERROR_CLASS;;
  reject u32 (d_rot_role d) >? WT_ROT_ROLE_AROT with WT_DOMAIN_ERROR_ROT_ROLE;;
  reject u32 (d_security_state d) >? WT_SECURITY_STATE_NONSECURE with WT_DOMAIN_ERROR_SECURITY_STATE;;
  reject u32 (d_privilege_state d) >? WT_PRIVILEGE_STATE_UNPRIVILEGED with WT_DOMAIN_ERROR_PRIVILEGE_STATE;;
  reject u32 (d_initial_lifecycle d) >? WT_DOMAIN_LIFECYCLE_READY with WT_DOMAIN_ERROR_LIFECYCLE;;
  if d_class d =? WT_DOMAIN_CLASS_SPM then
    reject negb (d_rot_role d =? WT_ROT_ROLE_SPM) with WT_DOMAIN_ERROR_ROT_ROLE;;
    reject negb (d_security_state d =? WT_SECURITY_STATE_SECURE) with WT_DOMAIN_ERROR_SECURITY_STATE;;
    reject negb (d_privilege_state d =? WT_PRIVILEGE_STATE_PRIVILEGED) with WT_DOMAIN_ERROR_PRIVILEGE_STATE;;
    WT_DOMAIN_VALID
  else if d_class d =? WT_DOMAIN_CLASS_SECURE_PARTITION then
    reject negb (d_rot_role d =? WT_ROT_ROLE_PROT) && negb (d_rot_role d =? WT_ROT_ROLE_AROT)
      with WT_DOMAIN_ERROR_ROT_ROLE;;
    reject negb (d_security_state d =? WT_SECURITY_STATE_SECURE) with WT_DOMAIN_ERROR_SECURITY_STATE;;
    reject negb (d_privilege_state d =? WT_PRIVILEGE_STATE_UNPRIVILEGED) with WT_DOMAIN_ERROR_PRIVILEGE_STATE;;
    WT_DOMAIN_VALID
  else
    reject negb (d_rot_role d =? WT_ROT_ROLE_NONE) with WT_DOMAIN_ERROR_ROT_ROLE;;
    reject negb (d_security_state d =? WT_SECURITY_STATE_NONSECURE) with WT_DOMAIN_ERROR_SECURITY_STATE;;
    WT_DOMAIN_VALID.

Definition wt_domain_validate_launch (d : wt_domain_descriptor) : Z :=
  reject d_launch_required d >? 1 with WT_DOMAIN_ERROR_LAUNCH_POLICY;;
  reject (d_launch_required d =? 1) &&
         negb (d_class d =? WT_DOMAIN_CLASS_NONSECURE_APPLICATION)
    with WT_DOMAIN_ERROR_LAUNCH_POLICY;;
  WT_DOMAIN_VALID.

Definition wt_domain_validate_restart (d : wt_domain_descriptor) : Z :=
  let policy := d_restart_policy d in
  reject u32 (rp_action policy) >? WT_RESTART_ACTION_PLATFORM with WT_DOMAIN_ERROR_RESTART_POLICY;;
  if rp_action policy =? WT_RESTART_ACTION_DOMAIN then
    reject (rp_restart_limit policy =? 0) || (rp_restart_window_ticks policy =? 0)
      with WT_DOMAIN_ERROR_RESTART_POLICY;;
    WT_DOMAIN_VALID
  else
    reject negb (rp_restart_limit policy =? 0) || negb (rp_restart_window_ticks policy =? 0) ||
           negb (rp_initial_delay_ticks policy =? 0)
      with WT_DOMAIN_ERROR_RESTART_POLICY;;
    WT_DOMAIN_VALID.

Definition WT_MPU_GRANULE : Z := 32.

Definition wt_memory_resource_validate (r : wt_memory_resource) : Z :=
  match wt_range_end (mr_base r) (mr_size r) with
  | inl ret => ret
  | inr _ =>
    reject negb (mr_base r mod WT_MPU_GRANULE =? 0) || negb (mr_size r mod WT_MPU_GRANULE =? 0)
      with WT_DOMAIN_ERROR_MEMORY_ATTRIBUTES;;
    reject negb (mr_attributes r .&~ WT_MEMORY_ATTR_MASK =? 0)
      with WT_DOMAIN_ERROR_MEMORY_ATTRIBUTES;;
    reject mr_attributes r .& (WT_MEMORY_ATTR_READ .| WT_MEMORY_ATTR_WRITE .| WT_MEMORY_ATTR_EXECUTE) =? 0
      with WT_DOMAIN_ERROR_MEMORY_ATTRIBUTES;;
    reject has_any (mr_attributes r) WT_MEMORY_ATTR_DEVICE &&
           has_any (mr_attributes r) WT_MEMORY_ATTR_EXECUTE
      with WT_DOMAIN_ERROR_MEMORY_ATTRIBUTES;;
    reject has_any (mr_attributes r) WT_MEMORY_ATTR_RESTART_CLEAR &&
           (mr_attributes r .& WT_MEMORY_ATTR_WRITE =? 0)
      with WT_DOMAIN_ERROR_MEMORY_ATTRIBUTES;;
    reject mr_attributes r .& (WT_MEMORY_ATTR_WRITE .| WT_MEMORY_ATTR_EXECUTE) =?
           WT_MEMORY_ATTR_WRITE .| WT_MEMORY_ATTR_EXECUTE
      with WT_DOMAIN_ERROR_WRITE_EXECUTE;;
    if has_any (mr_attributes r) WT_MEMORY_ATTR_SHARED then
      reject mr_share_id r =? WT_RESOURCE_SHARE_NONE with WT_DOMAIN_ERROR_SHARING;;
      WT_DOMAIN_VALID
    else
      reject negb (mr_share_id r =? WT_RESOURCE_SHARE_NONE) with WT_DOMAIN_ERROR_SHARING;;
      WT_DOMAIN_VALID
  end.

(** [resource->base + (uintptr_t)resource->size] *)
Definition mr_end (r : wt_memory_resource) : Z := u32 (mr_base r + mr_size r).

(** The loop sets [entry_found] and [stack_found] and never clears them. *)
Definition entry_in (d : wt_domain_descriptor) (r : wt_memory_resource) : bool :=
  has_any (mr_attributes r) WT_MEMORY_ATTR_EXECUTE &&
  (mr_base r <=? d_entry_point d) && (d_entry_point d <? mr_end r).

Definition stack_in (d : wt_domain_descriptor) (stack_end : Z) (r : wt_memory_resource) : bool :=
  (mr_attributes r .& (WT_MEMORY_ATTR_READ .| WT_MEMORY_ATTR_WRITE) =?
     WT_MEMORY_ATTR_READ .| WT_MEMORY_ATTR_WRITE) &&
  (mr_attributes r .& (WT_MEMORY_ATTR_EXECUTE .| WT_MEMORY_ATTR_DEVICE .| WT_MEMORY_ATTR_SHARED) =? 0) &&
  (mr_base r <=? d_stack_base d) && (stack_end <=? mr_end r).

Definition wt_domain_validate_entry_and_stack (d : wt_domain_descriptor) : Z :=
  match wt_range_end (d_stack_base d) (d_stack_size d) with
  | inl ret => if ret =? WT_DOMAIN_ERROR_EMPTY_REGION then WT_DOMAIN_ERROR_STACK else ret
  | inr stack_end =>
    reject negb (existsb (entry_in d) (items (d_memory_resources d)))
      with WT_DOMAIN_ERROR_ENTRY_POINT;;
    reject negb (existsb (stack_in d stack_end) (items (d_memory_resources d)))
      with WT_DOMAIN_ERROR_STACK;;
    WT_DOMAIN_VALID
  end.

Definition wt_memory_resources_overlap (first second : wt_memory_resource) : bool :=
  (mr_base first <? mr_end second) && (mr_base second <? mr_end first).

Definition wt_memory_resources_shared (first second : wt_memory_resource) : bool :=
  has_any (mr_attributes first) WT_MEMORY_ATTR_SHARED &&
  has_any (mr_attributes second) WT_MEMORY_ATTR_SHARED &&
  (mr_share_id first =? mr_share_id second) &&
  negb (mr_share_id first =? WT_RESOURCE_SHARE_NONE) &&
  (mr_base first =? mr_base second) && (mr_size first =? mr_size second) &&
  (mr_attributes first =? mr_attributes second).

Definition wt_interrupt_resource_validate (before : list wt_interrupt_resource)
    (i : wt_interrupt_resource) : Z :=
  reject (ir_interrupt i =? UINT32_MAX) || negb (ir_attributes i .&~ WT_INTERRUPT_ATTR_MASK =? 0)
    with WT_DOMAIN_ERROR_INTERRUPT;;
  reject (if has_any (ir_attributes i) WT_INTERRUPT_ATTR_SHARED
          then ir_share_id i =? WT_RESOURCE_SHARE_NONE
          else negb (ir_share_id i =? WT_RESOURCE_SHARE_NONE))
    with WT_DOMAIN_ERROR_INTERRUPT_OWNERSHIP;;
  reject existsb (λ j, ir_interrupt i =? ir_interrupt j) before
    with WT_DOMAIN_ERROR_INTERRUPT_OWNERSHIP;;
  WT_DOMAIN_VALID.

Definition wt_domain_validate_resources (d : wt_domain_descriptor)
    (caps : wt_profile_capabilities) : Z :=
  reject (count (d_memory_resources d) =? 0)%nat || is_null (d_memory_resources d) ||
         (Z.of_nat (count (d_memory_resources d)) >? pc_max_memory_resources_per_domain caps)
    with WT_DOMAIN_ERROR_MEMORY_COUNT;;
  reject (Z.of_nat (count (d_interrupt_resources d)) >? pc_max_interrupts_per_domain caps) ||
         (negb (count (d_interrupt_resources d) =? 0)%nat && is_null (d_interrupt_resources d))
    with WT_DOMAIN_ERROR_INTERRUPT_COUNT;;
  ensure scan_error (λ before r,
           ensure wt_memory_resource_validate r;;
           reject existsb (wt_memory_resources_overlap r) before with WT_DOMAIN_ERROR_OVERLAP;;
           WT_DOMAIN_VALID) [] (items (d_memory_resources d));;
  ensure scan_error wt_interrupt_resource_validate [] (items (d_interrupt_resources d));;
  wt_domain_validate_entry_and_stack d.

Definition wt_domain_pair_isolated (first second : wt_domain_descriptor)
    (resource : wt_memory_resource) (profile : Z) : bool :=
  if negb (profile =? WT_ISOLATION_PROFILE_LEVEL_3) then true
  else if mr_attributes resource .& WT_MEMORY_ATTR_WRITE =? 0 then true
  else if has_any (mr_attributes resource) WT_MEMORY_ATTR_DEVICE then true
  else if (d_class first =? WT_DOMAIN_CLASS_SPM) || (d_class second =? WT_DOMAIN_CLASS_SPM) then true
  else if negb (d_class first =? WT_DOMAIN_CLASS_SECURE_PARTITION) &&
          negb (d_class second =? WT_DOMAIN_CLASS_SECURE_PARTITION) then true
  else false.

Definition wt_domain_validate_pair (first second : wt_domain_descriptor) (profile : Z) : Z :=
  reject d_id first =? d_id second with WT_DOMAIN_ERROR_ID;;
  ensure first_error (λ r1, first_error (λ r2,
           if negb (wt_memory_resources_overlap r1 r2) then WT_DOMAIN_VALID
           else if negb (wt_memory_resources_shared r1 r2) then
             if has_any (mr_attributes r1) WT_MEMORY_ATTR_SHARED ||
                has_any (mr_attributes r2) WT_MEMORY_ATTR_SHARED
             then WT_DOMAIN_ERROR_SHARING else WT_DOMAIN_ERROR_OVERLAP
           else if negb (wt_domain_pair_isolated first second r1 profile)
           then WT_DOMAIN_ERROR_ISOLATION
           else WT_DOMAIN_VALID)
         (items (d_memory_resources second))) (items (d_memory_resources first));;
  first_error (λ i1, first_error (λ i2,
    if (ir_interrupt i1 =? ir_interrupt i2) &&
       negb (has_any (ir_attributes i1) WT_INTERRUPT_ATTR_SHARED &&
             has_any (ir_attributes i2) WT_INTERRUPT_ATTR_SHARED &&
             (ir_share_id i1 =? ir_share_id i2) &&
             negb (ir_share_id i1 =? WT_RESOURCE_SHARE_NONE))
    then WT_DOMAIN_ERROR_INTERRUPT_OWNERSHIP
    else WT_DOMAIN_VALID)
    (items (d_interrupt_resources second))) (items (d_interrupt_resources first)).

(** The body of the second loop of [wt_domain_validate_set]. *)
Definition wt_domain_validate_member (profile : Z) (caps : wt_profile_capabilities)
    (before : list wt_domain_descriptor) (d : wt_domain_descriptor) : Z :=
  ensure wt_domain_validate_restart d;;
  ensure wt_domain_validate_launch d;;
  reject negb (d_required_capabilities d .&~ WT_CAPABILITY_MASK =? 0) ||
         negb (pc_capabilities caps .& d_required_capabilities d =? d_required_capabilities d)
    with WT_DOMAIN_ERROR_CAPABILITY;;
  reject (rp_action (d_restart_policy d) =? WT_RESTART_ACTION_DOMAIN) &&
         (pc_capabilities caps .& WT_CAPABILITY_RESTART =? 0)
    with WT_DOMAIN_ERROR_CAPABILITY;;
  reject negb (count (d_memory_resources d) =? 0)%nat &&
         (pc_capabilities caps .& WT_CAPABILITY_MEMORY_PROTECTION =? 0)
    with WT_DOMAIN_ERROR_CAPABILITY;;
  reject negb (count (d_interrupt_resources d) =? 0)%nat &&
         (pc_capabilities caps .& WT_CAPABILITY_INTERRUPT_ISOLATION =? 0)
    with WT_DOMAIN_ERROR_CAPABILITY;;
  ensure wt_domain_validate_resources d caps;;
  first_error (λ other, wt_domain_validate_pair d other profile) before.

Definition is_spm (d : wt_domain_descriptor) : bool := d_class d =? WT_DOMAIN_CLASS_SPM.

(** A null [capabilities] pointer is [None]. *)
Definition wt_domain_validate_set (domains : carray wt_domain_descriptor) (profile : Z)
    (capabilities : option wt_profile_capabilities) : Z :=
  match capabilities with
  | None => WT_DOMAIN_ERROR_ARGUMENT
  | Some caps =>
    reject is_null domains with WT_DOMAIN_ERROR_ARGUMENT;;
    reject (count domains =? 0)%nat || (Z.of_nat (count domains) >? pc_max_domains caps)
      with WT_DOMAIN_ERROR_COUNT;;
    reject negb (pc_capabilities caps .&~ WT_CAPABILITY_MASK =? 0) with WT_DOMAIN_ERROR_CAPABILITY;;
    match wt_profile_required_capabilities profile with
    | inl ret => ret
    | inr profile_required =>
      reject negb (pc_capabilities caps .& profile_required =? profile_required)
        with WT_DOMAIN_ERROR_CAPABILITY;;
      ensure first_error wt_domain_validate_identity (items domains);;
      reject negb (profile =? WT_ISOLATION_PROFILE_SERVICE_ONLY) &&
             negb (length (filter (λ d, is_spm d = true) (items domains)) =? 1)%nat
        with WT_DOMAIN_ERROR_SPM_COUNT;;
      scan_error (wt_domain_validate_member profile caps) [] (items domains)
    end
  end.

(** ** What an accepted set guarantees *)

(** [a] is an address of resource [r], as mathematical intervals. *)
Definition covers (r : wt_memory_resource) (a : Z) : Prop :=
  mr_base r ≤ a < mr_base r + mr_size r.

(** The ranges the fields of a descriptor have by their C types. *)
Definition resource_typed (r : wt_memory_resource) : Prop :=
  0 ≤ mr_base r ≤ UINTPTR_MAX ∧ 0 ≤ mr_size r ≤ SIZE_MAX.

Lemma range_end_inv base size e :
  0 ≤ base → 0 ≤ size → wt_range_end base size = inr e →
  e = base + size ∧ 0 < size ∧ base + size ≤ UINTPTR_MAX.
Proof.
  unfold wt_range_end, UINTPTR_MAX. intros Hb Hs.
  repeat case_match; intros [= <-]; bool_hyps.
  rewrite u32_small; lia.
Qed.

(** The attribute bits of a resource. *)
Definition readable (r : wt_memory_resource) : Prop := Z.testbit (mr_attributes r) 0 = true.
Definition writable (r : wt_memory_resource) : Prop := Z.testbit (mr_attributes r) 1 = true.
Definition executable (r : wt_memory_resource) : Prop := Z.testbit (mr_attributes r) 2 = true.
Definition device (r : wt_memory_resource) : Prop := Z.testbit (mr_attributes r) 3 = true.
Definition shared (r : wt_memory_resource) : Prop := Z.testbit (mr_attributes r) 5 = true.

Lemma memory_resource_accepted r :
  resource_typed r → wt_memory_resource_validate r = WT_DOMAIN_VALID →
  mr_end r = mr_base r + mr_size r ∧ 0 < mr_size r ∧ mr_end r ≤ UINTPTR_MAX ∧
  mr_base r mod WT_MPU_GRANULE = 0 ∧ mr_size r mod WT_MPU_GRANULE = 0 ∧
  ¬ (writable r ∧ executable r) ∧
  (shared r ↔ mr_share_id r ≠ WT_RESOURCE_SHARE_NONE).
Proof.
  intros [[Hb _] [Hs _]]. unfold wt_memory_resource_validate.
  destruct (wt_range_end _ _) as [c|e] eqn:E.
  { intros ->. unfold wt_range_end in E. repeat case_match; discriminate. }
  destruct (range_end_inv _ _ _ Hb Hs E) as (-> & Hpos & Hmax).
  assert (mr_end r = mr_base r + mr_size r) as ->
    by (unfold mr_end; apply u32_small; unfold UINTPTR_MAX in *; lia).
  intros H. accepted H. bool_hyps.
  unfold WT_DOMAIN_VALID, WT_MEMORY_ATTR_WRITE, WT_MEMORY_ATTR_EXECUTE, WT_MEMORY_ATTR_SHARED in *.
  repeat split; try done.
  - intros [Hw Hx]. apply Hc4. rewrite land_lor_full, !land_bit_full; done.
  - intros Hsh. unfold shared in Hsh. rewrite has_any_bit, Hsh in H by done. accepted H. by bool_hyps.
  - intros Hsh. unfold shared. rewrite has_any_bit in H by done.
    destruct (Z.testbit _ 5); [done|]. accepted H. by bool_hyps.
Qed.

Lemma overlap_iff r1 r2 :
  mr_end r1 = mr_base r1 + mr_size r1 → mr_end r2 = mr_base r2 + mr_size r2 →
  0 < mr_size r1 → 0 < mr_size r2 →
  wt_memory_resources_overlap r1 r2 = true ↔ ∃ a, covers r1 a ∧ covers r2 a.
Proof.
  intros E1 E2 H1 H2. unfold wt_memory_resources_overlap, covers. rewrite E1, E2.
  rewrite andb_true_iff, !Z.ltb_lt. split.
  - intros [Ha Hb]. exists (Z.max (mr_base r1) (mr_base r2)). lia.
  - intros (a & ? & ?). lia.
Qed.

Definition domain_typed (d : wt_domain_descriptor) : Prop :=
  0 ≤ d_stack_base d ≤ UINTPTR_MAX ∧ 0 ≤ d_stack_size d ≤ SIZE_MAX ∧
  Forall resource_typed (items (d_memory_resources d)).

(** What [wt_domain_validate_resources] establishes of one domain. *)
Record domain_ok (d : wt_domain_descriptor) : Prop := {
  ok_resources : ∀ r, r ∈ items (d_memory_resources d) → wt_memory_resource_validate r = WT_DOMAIN_VALID;
  ok_disjoint : ∀ i j r1 r2, items (d_memory_resources d) !! i = Some r1 →
    items (d_memory_resources d) !! j = Some r2 → (j < i)%nat →
    wt_memory_resources_overlap r1 r2 = false;
  ok_entry : ∃ r, r ∈ items (d_memory_resources d) ∧ entry_in d r = true;
  ok_stack : ∃ e r, wt_range_end (d_stack_base d) (d_stack_size d) = inr e ∧
    r ∈ items (d_memory_resources d) ∧ stack_in d e r = true;
}.

Lemma existsb_elem {A} (f : A → bool) l : existsb f l = true → ∃ x, x ∈ l ∧ f x = true.
Proof.
  intros (x & Hx & Hf)%existsb_exists. exists x. by rewrite list_elem_of_In.
Qed.

Lemma existsb_elem_false {A} (f : A → bool) l x : existsb f l = false → x ∈ l → f x = false.
Proof.
  intros H Hx. apply not_true_iff_false. intros Hf.
  apply not_true_iff_false in H. apply H, existsb_exists. exists x. by rewrite <-list_elem_of_In.
Qed.

Lemma entry_and_stack_accepted d :
  wt_domain_validate_entry_and_stack d = WT_DOMAIN_VALID →
  (∃ r, r ∈ items (d_memory_resources d) ∧ entry_in d r = true) ∧
  (∃ e r, wt_range_end (d_stack_base d) (d_stack_size d) = inr e ∧
    r ∈ items (d_memory_resources d) ∧ stack_in d e r = true).
Proof.
  unfold wt_domain_validate_entry_and_stack.
  destruct (wt_range_end _ _) as [c|e] eqn:E.
  { unfold wt_range_end in E. intros H. repeat case_match; simplify_eq. }
  intros H. accepted H. bool_hyps. apply existsb_elem in Hc, Hc0.
  split; [done|]. destruct Hc0 as (r & ? & ?). eauto.
Qed.

Lemma resources_accepted d caps :
  wt_domain_validate_resources d caps = WT_DOMAIN_VALID → domain_ok d.
Proof.
  unfold wt_domain_validate_resources. intros H. accepted H.
  ensured H as Hs. ensured H as Hi.
  destruct (entry_and_stack_accepted d H) as [He Hst]. split; [..|done|done].
  - intros r [i Hr]%list_elem_of_lookup. pose proof (scan_error_lookup _ _ _ _ Hs Hr) as Hv.
    simpl in Hv. case_match; bool_hyps; done.
  - intros i j r1 r2 H1 H2 Hij. pose proof (scan_error_lookup _ _ _ _ Hs H1) as Hv.
    simpl in Hv. case_match; [|bool_hyps; done].
    destruct (existsb _ _) eqn:Ex; [done|].
    eapply existsb_elem_false; [exact Ex|]. apply list_elem_of_lookup. exists j.
    by rewrite lookup_take_lt.
Qed.

(** Two resources describe the same shared region. *)
Record same_shared_region (r1 r2 : wt_memory_resource) : Prop := {
  ssr_base : mr_base r1 = mr_base r2;
  ssr_size : mr_size r1 = mr_size r2;
  ssr_attributes : mr_attributes r1 = mr_attributes r2;
  ssr_share_id : mr_share_id r1 = mr_share_id r2;
  ssr_share_some : mr_share_id r1 ≠ WT_RESOURCE_SHARE_NONE;
  ssr_shared : shared r1;
}.

(** Level 3: a writable, non-device region is shared only with the SPM or
    among domains that are not Secure Partitions. *)
Definition level3_sharing (profile : Z) (d1 d2 : wt_domain_descriptor) (r : wt_memory_resource) : Prop :=
  profile = WT_ISOLATION_PROFILE_LEVEL_3 → writable r → ¬ device r →
  d_class d1 = WT_DOMAIN_CLASS_SPM ∨ d_class d2 = WT_DOMAIN_CLASS_SPM ∨
  (d_class d1 ≠ WT_DOMAIN_CLASS_SECURE_PARTITION ∧ d_class d2 ≠ WT_DOMAIN_CLASS_SECURE_PARTITION).

Lemma resources_shared_inv r1 r2 :
  wt_memory_resources_shared r1 r2 = true → same_shared_region r1 r2.
Proof.
  unfold wt_memory_resources_shared, WT_MEMORY_ATTR_SHARED. rewrite !has_any_bit by done.
  intros H. bool_hyps. by split.
Qed.

Lemma pair_isolated_inv d1 d2 r profile :
  wt_domain_pair_isolated d1 d2 r profile = true → level3_sharing profile d1 d2 r.
Proof.
  unfold wt_domain_pair_isolated, level3_sharing, writable, device,
    WT_MEMORY_ATTR_WRITE, WT_MEMORY_ATTR_DEVICE.
  intros H -> Hw Hd. simpl in H. rewrite has_any_bit in H by done.
  destruct (_ =? 0) eqn:Ew; [bool_hyps; apply land_bit_zero in Ew; [congruence|done]|].
  destruct (Z.testbit _ 3); [done|].
  destruct (_ || _) eqn:Ec; [apply orb_true_iff in Ec as [Ec|Ec]; bool_hyps; auto|].
  destruct (_ && _) eqn:Es; [bool_hyps; auto|done].
Qed.

Record pair_ok (profile : Z) (d1 d2 : wt_domain_descriptor) : Prop := {
  pair_id : d_id d1 ≠ d_id d2;
  pair_memory : ∀ r1 r2, r1 ∈ items (d_memory_resources d1) → r2 ∈ items (d_memory_resources d2) →
    wt_memory_resources_overlap r1 r2 = true →
    same_shared_region r1 r2 ∧ level3_sharing profile d1 d2 r1;
}.

Lemma pair_accepted d1 d2 profile :
  wt_domain_validate_pair d1 d2 profile = WT_DOMAIN_VALID → pair_ok profile d1 d2.
Proof.
  unfold wt_domain_validate_pair. intros H. accepted H. ensured H as Hm. bool_hyps.
  split; [done|]. intros r1 r2 H1 H2 Ho.
  apply first_error_elem with (x := r1) in Hm; [|done].
  apply first_error_elem with (x := r2) in Hm; [|done].
  rewrite Ho in Hm. simpl in Hm.
  destruct (wt_memory_resources_shared r1 r2) eqn:Es; simpl in Hm; [|repeat case_match; done].
  destruct (wt_domain_pair_isolated _ _ _ _) eqn:Ei; [|done].
  auto using resources_shared_inv, pair_isolated_inv.
Qed.

Lemma pair_ok_sym profile d1 d2 : pair_ok profile d1 d2 → pair_ok profile d2 d1.
Proof.
  intros [Hid Hm]. split; [done|]. intros r1 r2 H1 H2 Ho.
  destruct (Hm r2 r1 H2 H1) as [[] Hl].
  { unfold wt_memory_resources_overlap in *. by rewrite andb_comm. }
  unfold shared, level3_sharing, writable, device in *.
  split; [split; unfold shared; congruence|].
  intros Hp Hw Hd. destruct Hl as [?|[?|[??]]]; try done; [by congruence..|auto|auto|auto].
Qed.

(** Every accepted set satisfies, for each member and each pair of members, *)
Record set_ok (profile : Z) (ds : list wt_domain_descriptor) : Prop := {
  set_identity : ∀ d, d ∈ ds → wt_domain_validate_identity d = WT_DOMAIN_VALID;
  set_domain : ∀ i d, ds !! i = Some d → domain_ok d;
  set_pair : ∀ i j d1 d2, ds !! i = Some d1 → ds !! j = Some d2 → i ≠ j → pair_ok profile d1 d2;
}.

Lemma member_accepted profile caps before d :
  wt_domain_validate_member profile caps before d = WT_DOMAIN_VALID →
  domain_ok d ∧ ∀ d', d' ∈ before → pair_ok profile d d'.
Proof.
  unfold wt_domain_validate_member. intros H.
  ensured H as Hr. ensured H as Hl. accepted H. ensured H as Hd.
  split; [by eapply resources_accepted|]. intros d' Hd'.
  by apply pair_accepted, (first_error_elem _ _ _ H).
Qed.

Lemma set_accepted domains profile caps :
  wt_domain_validate_set domains profile caps = WT_DOMAIN_VALID →
  set_ok profile (items domains).
Proof.
  unfold wt_domain_validate_set. destruct caps as [caps|]; [|done].
  intros H. accepted H. destruct (wt_profile_required_capabilities profile) as [c|req] eqn:E.
  { unfold wt_profile_required_capabilities in E. repeat case_match; simplify_eq. }
  accepted H. ensured H as Hid. accepted H.
  assert (∀ i j d1 d2, items domains !! i = Some d1 → items domains !! j = Some d2 →
            (j < i)%nat → pair_ok profile d1 d2) as Hpair.
  { intros i j d1 d2 H1 H2 Hij. pose proof (scan_error_lookup _ _ _ _ H H1) as Hm.
    apply member_accepted in Hm as [_ Hm]. apply Hm. apply list_elem_of_lookup.
    exists j. by rewrite lookup_take_lt. }
  split; [intros d Hd; by apply (first_error_elem _ _ _ Hid)|..].
  - intros i d Hi. pose proof (scan_error_lookup _ _ _ _ H Hi) as Hm. by apply member_accepted in Hm as [? _].
  - intros i j d1 d2 H1 H2 Hij. destruct (decide (j < i)%nat); [eauto|].
    apply pair_ok_sym. eapply Hpair; [done..|lia].
Qed.

(** ** Properties of accepted sets *)

Lemma set_resource profile ds i d r :
  Forall domain_typed ds → set_ok profile ds → ds !! i = Some d →
  r ∈ items (d_memory_resources d) →
  mr_end r = mr_base r + mr_size r ∧ 0 < mr_size r ∧ mr_end r ≤ UINTPTR_MAX ∧
  mr_base r mod WT_MPU_GRANULE = 0 ∧ mr_size r mod WT_MPU_GRANULE = 0 ∧
  ¬ (writable r ∧ executable r) ∧
  (shared r ↔ mr_share_id r ≠ WT_RESOURCE_SHARE_NONE).
Proof.
  intros Ht Hok Hd Hr. destruct (set_domain _ _ Hok i d Hd) as [Hres _ _ _].
  apply memory_resource_accepted; [|by apply Hres].
  pose proof (Forall_lookup_1 _ _ _ _ Ht Hd) as (_ & _ & Hty).
  by eapply (proj1 (list.Forall_forall _ _)).
Qed.

(** Overlapping resources of two different members are one shared region. *)
Lemma set_overlap profile ds i j di dj ri rj a :
  Forall domain_typed ds → set_ok profile ds →
  ds !! i = Some di → ds !! j = Some dj → i ≠ j →
  ri ∈ items (d_memory_resources di) → rj ∈ items (d_memory_resources dj) →
  covers ri a → covers rj a →
  same_shared_region ri rj ∧ level3_sharing profile di dj ri.
Proof.
  intros Ht Hok Hi Hj Hij Hri Hrj Hci Hcj.
  destruct (set_pair _ _ Hok i j di dj Hi Hj Hij) as [_ Hm]. apply Hm; [done..|].
  destruct (set_resource _ _ _ _ _ Ht Hok Hi Hri) as (? & ? & _).
  destruct (set_resource _ _ _ _ _ Ht Hok Hj Hrj) as (? & ? & _).
  apply overlap_iff; [done..|]. by exists a.
Qed.

(** Within one member, an address belongs to one resource only. *)
Lemma set_own_unique profile ds i d r1 r2 a :
  Forall domain_typed ds → set_ok profile ds → ds !! i = Some d →
  r1 ∈ items (d_memory_resources d) → r2 ∈ items (d_memory_resources d) →
  covers r1 a → covers r2 a → r1 = r2.
Proof.
  intros Ht Hok Hd Hr1 Hr2 Hc1 Hc2.
  destruct (set_resource _ _ _ _ _ Ht Hok Hd Hr1) as (E1 & P1 & _).
  destruct (set_resource _ _ _ _ _ Ht Hok Hd Hr2) as (E2 & P2 & _).
  apply list_elem_of_lookup in Hr1 as [k1 Hk1]. apply list_elem_of_lookup in Hr2 as [k2 Hk2].
  destruct (set_domain _ _ Hok i d Hd) as [_ Hdis _ _].
  assert (∃ a, covers r1 a ∧ covers r2 a) as Hov by eauto.
  destruct (lt_eq_lt_dec k1 k2) as [[Hlt|<-]|Hlt].
  - apply (overlap_iff r1 r2) in Hov; [|done..]. unfold wt_memory_resources_overlap in Hov.
    rewrite andb_comm in Hov. specialize (Hdis k2 k1 r2 r1 Hk2 Hk1 Hlt).
    unfold wt_memory_resources_overlap in Hdis. congruence.
  - congruence.
  - apply (overlap_iff r1 r2) in Hov; [|done..].
    specialize (Hdis k1 k2 r1 r2 Hk1 Hk2 Hlt). congruence.
Qed.

(** C34: Spatial isolation. In a set the validator accepts, an address that
    two different domains can both reach lies in one region that both declare
    as the same shared resource (same base, size, attributes and share id);
    at isolation level 3 such a region, if it is writable memory, is shared
    with the SPM or involves no Secure Partition. *)
Theorem validate_set_isolation domains profile caps i j di dj ri rj a :
  Forall domain_typed (items domains) →
  wt_domain_validate_set domains profile caps = WT_DOMAIN_VALID →
  items domains !! i = Some di → items domains !! j = Some dj → i ≠ j →
  ri ∈ items (d_memory_resources di) → rj ∈ items (d_memory_resources dj) →
  covers ri a → covers rj a →
  same_shared_region ri rj ∧ level3_sharing profile di dj ri.
Proof. intros Ht H%set_accepted. by apply set_overlap. Qed.

Lemma stack_in_inv d e r :
  stack_in d e r = true →
  readable r ∧ writable r ∧ ¬ executable r ∧ ¬ device r ∧ ¬ shared r ∧
  mr_base r ≤ d_stack_base d ∧ e ≤ mr_end r.
Proof.
  unfold stack_in, readable, writable, executable, device, shared,
    WT_MEMORY_ATTR_READ, WT_MEMORY_ATTR_WRITE, WT_MEMORY_ATTR_EXECUTE, WT_MEMORY_ATTR_DEVICE, WT_MEMORY_ATTR_SHARED.
  intros H. bool_hyps.
  match goal with H : _ .& _ = _ .| _ |- _ => apply land_lor_full in H as [Hr Hw] end.
  match goal with H : _ .& _ = 0 |- _ => apply land_lor_zero in H as [H Hs]; apply land_lor_zero in H as [Hx Hd] end.
  rewrite land_bit_full in Hr, Hw by done. rewrite land_bit_zero in Hx, Hd, Hs by done.
  repeat split; try done; congruence.
Qed.

(** Stack confidentiality and integrity. In an accepted set every address
    of a domain's stack lies in a readable, writable, non-executable region of
    that domain which no other domain's resources reach at all. *)
Theorem validate_set_stack_private domains profile caps i di a :
  Forall domain_typed (items domains) →
  wt_domain_validate_set domains profile caps = WT_DOMAIN_VALID →
  items domains !! i = Some di →
  d_stack_base di ≤ a < d_stack_base di + d_stack_size di →
  (∃ r, r ∈ items (d_memory_resources di) ∧ covers r a ∧
        readable r ∧ writable r ∧ ¬ executable r) ∧
  (∀ j dj rj, items domains !! j = Some dj → i ≠ j →
     rj ∈ items (d_memory_resources dj) → ¬ covers rj a).
Proof.
  intros Ht Hok%set_accepted Hi Ha.
  destruct (set_domain _ _ Hok i di Hi) as [_ _ _ (e & r & He & Hr & Hst)].
  pose proof (Forall_lookup_1 _ _ _ _ Ht Hi) as (Hsb & Hss & _).
  destruct (range_end_inv _ _ _ (proj1 Hsb) (proj1 Hss) He) as (-> & _ & _).
  destruct (set_resource _ _ _ _ _ Ht Hok Hi Hr) as (Hend & _).
  apply stack_in_inv in Hst as (Hrd & Hw & Hx & Hd & Hs & Hb & He').
  assert (covers r a) as Hc by (unfold covers; lia).
  split; [by exists r|]. intros j dj rj Hj Hij Hrj Hcj.
  destruct (set_overlap _ _ _ _ _ _ _ _ _ Ht Hok Hi Hj Hij Hr Hrj Hc Hcj) as [[] _]. done.
Qed.

(** System-wide W^X. In an accepted set, no address that some domain may
    execute is writable through any resource of any domain. *)
Theorem validate_set_write_xor_execute domains profile caps i j di dj ri rj a :
  Forall domain_typed (items domains) →
  wt_domain_validate_set domains profile caps = WT_DOMAIN_VALID →
  items domains !! i = Some di → items domains !! j = Some dj →
  ri ∈ items (d_memory_resources di) → rj ∈ items (d_memory_resources dj) →
  covers ri a → covers rj a → executable ri → ¬ writable rj.
Proof.
  intros Ht Hok%set_accepted Hi Hj Hri Hrj Hci Hcj Hx Hw.
  assert (mr_attributes rj = mr_attributes ri) as Hattr.
  { destruct (decide (i = j)) as [->|Hij].
    - simplify_eq. by rewrite (set_own_unique _ _ _ _ ri rj a Ht Hok Hi).
    - by destruct (set_overlap _ _ _ _ _ _ _ _ _ Ht Hok Hi Hj Hij Hri Hrj Hci Hcj) as [[] _]. }
  destruct (set_resource _ _ _ _ _ Ht Hok Hi Hri) as (_ & _ & _ & _ & _ & Hwx & _).
  apply Hwx. unfold writable in *. by rewrite <-Hattr.
Qed.

(** ** Witnesses: an SPM, a Secure Partition and a Non-secure guest, with one
    code region shared read-execute and one writable region shared with the SPM *)

Module Example.

Definition code : wt_memory_resource :=
  {| mr_base := 0x0C000000; mr_size := 0x10000; mr_attributes := 0x25; mr_share_id := 1 |}.
Definition mailbox : wt_memory_resource :=
  {| mr_base := 0x30010000; mr_size := 0x400; mr_attributes := 0x23; mr_share_id := 2 |}.
Definition ram (base : Z) : wt_memory_resource :=
  {| mr_base := base; mr_size := 0x1000; mr_attributes := 0x3; mr_share_id := 0 |}.
Definition guest_code : wt_memory_resource :=
  {| mr_base := 0x08040000; mr_size := 0x10000; mr_attributes := 0x5; mr_share_id := 0 |}.
Definition retry : wt_domain_restart_policy :=
  {| rp_action := 1; rp_restart_limit := 3; rp_restart_window_ticks := 1000; rp_initial_delay_ticks := 0 |}.

Definition domain (id cls role sec priv entry stack : Z) (mem : list wt_memory_resource) : wt_domain_descriptor :=
  {| d_id := id; d_class := cls; d_rot_role := role; d_security_state := sec;
     d_privilege_state := priv; d_initial_lifecycle := 1; d_entry_point := entry;
     d_stack_base := stack; d_stack_size := 0x400; d_memory_resources := Arr mem;
     d_interrupt_resources := Null 0; d_restart_policy := retry;
     d_required_capabilities := 0; d_launch_required := 0; d_launch_min_version := 0 |}.

Definition domains : list wt_domain_descriptor :=
  [ domain 0 0 1 0 0 0x0C000100 0x30000000 [code; ram 0x30000000; mailbox];
    domain 1 1 2 0 1 0x0C000200 0x30001000 [code; ram 0x30001000; mailbox];
    domain 2 2 0 1 0 0x08040000 0x20000000 [guest_code; ram 0x20000000] ].
Definition caps : wt_profile_capabilities :=
  {| pc_capabilities := 0x7F; pc_max_domains := 8;
     pc_max_memory_resources_per_domain := 8; pc_max_interrupts_per_domain := 4 |}.

Lemma domains_typed : Forall domain_typed domains.
Proof.
  repeat constructor; vm_compute; try (intros; discriminate).
Qed.

Lemma domains_valid : wt_domain_validate_set (Arr domains) 3 (Some caps) = WT_DOMAIN_VALID.
Proof. vm_compute. reflexivity. Qed.

Lemma validate_set_isolation_witness :
  same_shared_region mailbox mailbox ∧
  level3_sharing 3 (domain 0 0 1 0 0 0x0C000100 0x30000000 [code; ram 0x30000000; mailbox])
    (domain 1 1 2 0 1 0x0C000200 0x30001000 [code; ram 0x30001000; mailbox]) mailbox.
Proof.
  apply (validate_set_isolation (Arr domains) 3 (Some caps) 0 1 _ _ mailbox mailbox 0x30010010).
  - exact domains_typed.
  - exact domains_valid.
  - reflexivity.
  - reflexivity.
  - lia.
  - right. right. left.
  - right. right. left.
  - unfold covers; simpl; lia.
  - unfold covers; simpl; lia.
Defined.

Lemma validate_set_stack_private_witness :
  (∃ r, r ∈ [code; ram 0x30001000; mailbox] ∧ covers r 0x30001004 ∧
        readable r ∧ writable r ∧ ¬ executable r) ∧
  (∀ j dj rj, domains !! j = Some dj → 1%nat ≠ j →
     rj ∈ items (d_memory_resources dj) → ¬ covers rj 0x30001004).
Proof.
  apply (validate_set_stack_private (Arr domains) 3 (Some caps) 1
    (domain 1 1 2 0 1 0x0C000200 0x30001000 [code; ram 0x30001000; mailbox]) 0x30001004).
  - exact domains_typed.
  - exact domains_valid.
  - reflexivity.
  - simpl; lia.
Defined.

Lemma validate_set_write_xor_execute_witness : ¬ writable code.
Proof.
  apply (validate_set_write_xor_execute (Arr domains) 3 (Some caps) 0 1
    (domain 0 0 1 0 0 0x0C000100 0x30000000 [code; ram 0x30000000; mailbox])
    (domain 1 1 2 0 1 0x0C000200 0x30001000 [code; ram 0x30001000; mailbox]) code code 0x0C000100).
  - exact domains_typed.
  - exact domains_valid.
  - reflexivity.
  - reflexivity.
  - left.
  - left.
  - unfold covers; simpl; lia.
  - unfold covers; simpl; lia.
  - reflexivity.
Defined.

End Example.
