(* ===== verification/Manifest.v ===== *)
(** * System manifest: [include/wolftrust/manifest.h], [src/manifest.c]

    The generated manifest lists the domains and, for every Secure Partition,
    its services, dependencies and interrupts. [wt_manifest_validate] decides
    whether the SPM may run it. A C string is the list of its bytes before
    the terminator; a null [char*] is [None]. *)

From Stdlib Require Import ZArith Lia String Ascii.
From stdpp Require Import base list numbers gmap option relations.
From S2P Require Import Prelude Domain.

(** ** C strings *)

Definition cstring : Type := list Z.

(** [name[i]]: the byte at [i], the terminator at the end. *)
Definition char_at (s : cstring) (i : nat) : Z := default 0 (s !! i).

Fixpoint lit (s : string) : cstring :=
  match s with
  | EmptyString => []
  | String c s' => Z.of_nat (nat_of_ascii c) :: lit s'
  end.

(** A pointer the validator has already checked for null. *)
Definition deref (p : option cstring) : cstring := default [] p.

(** ** Data *)

Definition WT_MANIFEST_FORMAT_VERSION : Z := 1.
Definition WT_MANIFEST_DIGEST_SIZE : nat := 32.
Definition WT_MANIFEST_NAME_MAX : nat := 63.
Definition WT_MANIFEST_MAX_PARTITIONS : Z := 32.
Definition WT_MANIFEST_MAX_SERVICES : Z := 28.
Definition WT_MANIFEST_MAX_DEPENDENCIES : Z := 32.
Definition WT_MANIFEST_MAX_SIGNALS : Z := 28.
Definition WT_MANIFEST_RESERVED_SIGNALS : Z := 0xF.

Definition WT_FFM_VERSION_1_0 : Z := 0x0100.
Definition WT_FFM_VERSION_1_1 : Z := 0x0101.

Definition WT_MANIFEST_FEATURE_IPC : Z := 1 .<< 0.
Definition WT_MANIFEST_FEATURE_SFN : Z := 1 .<< 1.
Definition WT_MANIFEST_FEATURE_STATELESS : Z := 1 .<< 2.
Definition WT_MANIFEST_FEATURE_MM_IOVEC : Z := 1 .<< 3.

Definition WT_PARTITION_MODEL_IPC : Z := 0.
Definition WT_PARTITION_MODEL_SFN : Z := 1.
Definition WT_PARTITION_PRIORITY_HIGH : Z := 2.
Definition WT_SERVICE_VERSION_STRICT : Z := 0.
Definition WT_SERVICE_VERSION_RELAXED : Z := 1.
Definition WT_SERVICE_VERSION_UNSPECIFIED : Z := 2.

Record wt_service_descriptor := {
  sd_name : option cstring;
  sd_sid : Z;
  sd_version : Z;
  sd_version_policy : Z;
  sd_signal : Z;
  sd_stateless_handle_index : Z;
  sd_nonsecure_clients : Z;
  sd_connection_based : Z;
}.

Record wt_manifest_interrupt := {
  mi_signal_name : option cstring;
  mi_interrupt : Z;
  mi_signal : Z;
}.

Record wt_partition_manifest := {
  pm_name : option cstring;
  pm_domain_id : Z;
  pm_framework_version : Z;
  pm_model : Z;
  pm_priority : Z;
  pm_services : carray wt_service_descriptor;
  pm_dependencies : carray Z;
  pm_interrupts : carray wt_manifest_interrupt;
}.

Record wt_manifest_limits := {
  ml_max_partitions : Z;
  ml_max_services_per_partition : Z;
  ml_max_dependencies_per_partition : Z;
  ml_max_stateless_handles : Z;
}.

Record wt_system_manifest := {
  sm_format_version : Z;
  sm_generator_version : option cstring;
  sm_input_digest : carray Z;
  sm_features : Z;
  sm_isolation_profile : Z;
  sm_profile_capabilities : option wt_profile_capabilities;
  sm_domains : carray wt_domain_descriptor;
  sm_partitions : carray wt_partition_manifest;
  sm_limits : wt_manifest_limits;
}.

Definition WT_MANIFEST_VALID : Z := 0.
Definition WT_MANIFEST_ERROR_ARGUMENT : Z := -100.
Definition WT_MANIFEST_ERROR_FORMAT : Z := -101.
Definition WT_MANIFEST_ERROR_GENERATOR : Z := -102.
Definition WT_MANIFEST_ERROR_DIGEST : Z := -103.
Definition WT_MANIFEST_ERROR_FEATURE : Z := -104.
Definition WT_MANIFEST_ERROR_LIMIT : Z := -105.
Definition WT_MANIFEST_ERROR_DOMAIN : Z := -106.
Definition WT_MANIFEST_ERROR_NAME : Z := -107.
Definition WT_MANIFEST_ERROR_PARTITION_ID : Z := -108.
Definition WT_MANIFEST_ERROR_FRAMEWORK_VERSION : Z := -109.
Definition WT_MANIFEST_ERROR_MODEL : Z := -110.
Definition WT_MANIFEST_ERROR_PRIORITY : Z := -111.
Definition WT_MANIFEST_ERROR_SERVICE : Z := -112.
Definition WT_MANIFEST_ERROR_SERVICE_ID : Z := -113.
Definition WT_MANIFEST_ERROR_SERVICE_VERSION : Z := -114.
Definition WT_MANIFEST_ERROR_SIGNAL : Z := -115.
Definition WT_MANIFEST_ERROR_STATELESS_HANDLE : Z := -116.
Definition WT_MANIFEST_ERROR_DEPENDENCY : Z := -117.
Definition WT_MANIFEST_ERROR_DEPENDENCY_CYCLE : Z := -118.
Definition WT_MANIFEST_ERROR_INTERRUPT : Z := -119.
Definition WT_MANIFEST_ERROR_RESOURCE_OWNERSHIP : Z := -120.
Definition WT_MANIFEST_ERROR_SYMBOL : Z := -121.

Definition WT_MANIFEST_FEATURE_MASK : Z :=
  WT_MANIFEST_FEATURE_IPC .| WT_MANIFEST_FEATURE_SFN .|
  WT_MANIFEST_FEATURE_STATELESS .| WT_MANIFEST_FEATURE_MM_IOVEC.

(** ** Names and generated symbols *)

Definition is_upper (v : Z) : bool := (65 <=? v) && (v <=? 90).
Definition is_digit (v : Z) : bool := (48 <=? v) && (v <=? 57).
Definition underscore : Z := 95.

(** The loop from index [i], with [fuel] iterations left before
    [WT_MANIFEST_NAME_MAX] is passed. *)
Fixpoint name_valid_from (fuel i : nat) (name : cstring) : bool :=
  match fuel with
  | O => false
  | S fuel' =>
    let value := char_at name i in
    if value =? 0 then negb (i =? 0)%nat
    else if (i =? 0)%nat then
      if is_upper value || (value =? underscore) then name_valid_from fuel' (S i) name else false
    else
      if is_upper value || is_digit value || (value =? underscore)
      then name_valid_from fuel' (S i) name else false
  end.

Definition wt_manifest_name_valid (name : option cstring) : bool :=
  match name with
  | None => false
  | Some name => name_valid_from (S WT_MANIFEST_NAME_MAX) 0 name
  end.

Fixpoint string_equal_from (fuel i : nat) (first second : cstring) : bool :=
  match fuel with
  | O => false
  | S fuel' =>
    if negb (char_at first i =? char_at second i) then false
    else if char_at first i =? 0 then true
    else string_equal_from fuel' (S i) first second
  end.

Definition wt_manifest_string_equal (first second : cstring) : bool :=
  string_equal_from (S WT_MANIFEST_NAME_MAX) 0 first second.

Fixpoint wt_manifest_name_length (name : cstring) : nat :=
  match name with
  | [] => 0
  | c :: name' => if c =? 0 then 0 else S (wt_manifest_name_length name')
  end.

Definition wt_manifest_name_equals_generated (name base suffix : cstring) : bool :=
  let name_length := wt_manifest_name_length name in
  let base_length := wt_manifest_name_length base in
  let suffix_length := wt_manifest_name_length suffix in
  if negb (name_length =? base_length + suffix_length)%nat then false
  else if negb (forallb (λ i, char_at name i =? char_at base i) (seq 0 base_length)) then false
  else if negb (forallb (λ i, char_at name (base_length + i) =? char_at suffix i) (seq 0 suffix_length))
  then false else true.

Definition wt_manifest_generated_char (base : cstring) (base_length : nat) (suffix : cstring) (index : nat) : Z :=
  if (index <? base_length)%nat then char_at base index
  else char_at suffix (index - base_length).

Definition wt_manifest_generated_names_equal (first_base first_suffix second_base second_suffix : cstring) : bool :=
  let first_base_length := wt_manifest_name_length first_base in
  let first_suffix_length := wt_manifest_name_length first_suffix in
  let second_base_length := wt_manifest_name_length second_base in
  let second_suffix_length := wt_manifest_name_length second_suffix in
  let total_length := (first_base_length + first_suffix_length)%nat in
  if negb (total_length =? second_base_length + second_suffix_length)%nat then false
  else forallb (λ i, wt_manifest_generated_char first_base first_base_length first_suffix i =?
                     wt_manifest_generated_char second_base second_base_length second_suffix i)
         (seq 0 total_length).

Definition wt_manifest_partition_symbol_collision (name : cstring) (partition : wt_partition_manifest) : bool :=
  if negb (pm_framework_version partition =? WT_FFM_VERSION_1_1) then false
  else wt_manifest_name_equals_generated name (deref (pm_name partition)) (lit "_MODEL_IPC") ||
       wt_manifest_name_equals_generated name (deref (pm_name partition)) (lit "_MODEL_SFN").

Definition wt_manifest_service_symbol_collision (name : cstring) (partition : wt_partition_manifest)
    (service : wt_service_descriptor) : bool :=
  let sname := deref (sd_name service) in
  if wt_manifest_name_equals_generated name sname (lit "_SID") ||
     wt_manifest_name_equals_generated name sname (lit "_VERSION") then true
  else if (pm_model partition =? WT_PARTITION_MODEL_IPC) &&
          wt_manifest_name_equals_generated name sname (lit "_SIGNAL") then true
  else if (sd_connection_based service =? 0) &&
          wt_manifest_name_equals_generated name sname (lit "_HANDLE") then true
  else false.

Definition wt_manifest_service_model_symbol_collision (model_partition service_partition : wt_partition_manifest)
    (service : wt_service_descriptor) : bool :=
  let mname := deref (pm_name model_partition) in
  let sname := deref (sd_name service) in
  let eq m s := wt_manifest_generated_names_equal mname (lit m) sname (lit s) in
  if negb (pm_framework_version model_partition =? WT_FFM_VERSION_1_1) then false
  else if eq "_MODEL_IPC"%string "_SID"%string || eq "_MODEL_IPC"%string "_VERSION"%string ||
          eq "_MODEL_SFN"%string "_SID"%string || eq "_MODEL_SFN"%string "_VERSION"%string then true
  else if (pm_model service_partition =? WT_PARTITION_MODEL_IPC) &&
          (eq "_MODEL_IPC"%string "_SIGNAL"%string || eq "_MODEL_SFN"%string "_SIGNAL"%string) then true
  else if (sd_connection_based service =? 0) &&
          (eq "_MODEL_IPC"%string "_HANDLE"%string || eq "_MODEL_SFN"%string "_HANDLE"%string) then true
  else false.

Definition wt_manifest_signal_valid (signal : Z) : bool :=
  if (signal =? 0) || negb (signal .& WT_MANIFEST_RESERVED_SIGNALS =? 0) then false
  else signal .& u32 (signal - 1) =? 0.

Definition wt_manifest_digest_valid (digest : carray Z) : bool :=
  if is_null digest || negb (count digest =? WT_MANIFEST_DIGEST_SIZE)%nat then false
  else negb (foldl Z.lor 0 (items digest) =? 0).

Definition wt_manifest_find_domain (manifest : wt_system_manifest) (id : Z) : option wt_domain_descriptor :=
  List.find (λ d, d_id d =? id) (items (sm_domains manifest)).

(** ** The validator *)

Definition wt_manifest_validate_ffm_resources (manifest : wt_system_manifest) : Z :=
  first_error (λ d,
    reject (d_class d =? WT_DOMAIN_CLASS_NONSECURE_APPLICATION) &&
           negb (count (d_interrupt_resources d) =? 0)%nat
      with WT_MANIFEST_ERROR_INTERRUPT;;
    if negb (d_class d =? WT_DOMAIN_CLASS_SECURE_PARTITION) then WT_MANIFEST_VALID else
    reject existsb (λ r, has_any (mr_attributes r) WT_MEMORY_ATTR_DEVICE &&
                         has_any (mr_attributes r) WT_MEMORY_ATTR_SHARED) (items (d_memory_resources d))
      with WT_MANIFEST_ERROR_RESOURCE_OWNERSHIP;;
    reject existsb (λ r, has_any (ir_attributes r) WT_INTERRUPT_ATTR_SHARED) (items (d_interrupt_resources d))
      with WT_MANIFEST_ERROR_RESOURCE_OWNERSHIP;;
    WT_MANIFEST_VALID) (items (sm_domains manifest)).

Definition wt_manifest_validate_header (manifest : wt_system_manifest) (supported_features : Z)
    (platform : option wt_profile_capabilities) : Z :=
  reject negb (sm_format_version manifest =? WT_MANIFEST_FORMAT_VERSION) with WT_MANIFEST_ERROR_FORMAT;;
  reject negb (wt_manifest_name_valid (sm_generator_version manifest)) with WT_MANIFEST_ERROR_GENERATOR;;
  reject negb (wt_manifest_digest_valid (sm_input_digest manifest)) with WT_MANIFEST_ERROR_DIGEST;;
  reject negb (supported_features .&~ WT_MANIFEST_FEATURE_MASK =? 0) ||
         (supported_features .& WT_MANIFEST_FEATURE_IPC =? 0) ||
         negb (sm_features manifest .&~ supported_features =? 0) ||
         (sm_features manifest .& WT_MANIFEST_FEATURE_IPC =? 0)
    with WT_MANIFEST_ERROR_FEATURE;;
  let limits := sm_limits manifest in
  reject (ml_max_partitions limits =? 0) || (ml_max_partitions limits >? WT_MANIFEST_MAX_PARTITIONS) ||
         (ml_max_services_per_partition limits =? 0) ||
         (ml_max_services_per_partition limits >? WT_MANIFEST_MAX_SERVICES) ||
         (ml_max_dependencies_per_partition limits =? 0) ||
         (ml_max_dependencies_per_partition limits >? WT_MANIFEST_MAX_DEPENDENCIES) ||
         (ml_max_stateless_handles limits <? 32)
    with WT_MANIFEST_ERROR_LIMIT;;
  reject (count (sm_partitions manifest) =? 0)%nat ||
         (Z.of_nat (count (sm_partitions manifest)) >? ml_max_partitions limits) ||
         is_null (sm_partitions manifest)
    with WT_MANIFEST_ERROR_LIMIT;;
  match sm_profile_capabilities manifest, platform with
  | Some caps, Some plat =>
    reject is_null (sm_domains manifest) with WT_MANIFEST_ERROR_ARGUMENT;;
    reject negb (pc_capabilities caps .&~ pc_capabilities plat =? 0) ||
           (pc_max_domains caps >? pc_max_domains plat) ||
           (pc_max_memory_resources_per_domain caps >? pc_max_memory_resources_per_domain plat) ||
           (pc_max_interrupts_per_domain caps >? pc_max_interrupts_per_domain plat)
      with WT_MANIFEST_ERROR_DOMAIN;;
    reject negb (wt_domain_validate_set (sm_domains manifest) (sm_isolation_profile manifest) platform
                 =? WT_DOMAIN_VALID)
      with WT_MANIFEST_ERROR_DOMAIN;;
    ensure wt_manifest_validate_ffm_resources manifest;;
    WT_MANIFEST_VALID
  | _, _ => WT_MANIFEST_ERROR_ARGUMENT
  end.

Definition wt_manifest_validate_partition_header (manifest : wt_system_manifest)
    (partition : wt_partition_manifest) : Z :=
  reject negb (wt_manifest_name_valid (pm_name partition)) with WT_MANIFEST_ERROR_NAME;;
  match wt_manifest_find_domain manifest (pm_domain_id partition) with
  | None => WT_MANIFEST_ERROR_PARTITION_ID
  | Some domain =>
    reject (pm_domain_id partition =? 0) || (pm_domain_id partition >? INT32_MAX) ||
           negb (d_class domain =? WT_DOMAIN_CLASS_SECURE_PARTITION)
      with WT_MANIFEST_ERROR_PARTITION_ID;;
    reject negb (pm_framework_version partition =? WT_FFM_VERSION_1_0) &&
           negb (pm_framework_version partition =? WT_FFM_VERSION_1_1)
      with WT_MANIFEST_ERROR_FRAMEWORK_VERSION;;
    reject u32 (pm_model partition) >? WT_PARTITION_MODEL_SFN with WT_MANIFEST_ERROR_MODEL;;
    reject (pm_framework_version partition =? WT_FFM_VERSION_1_0) &&
           negb (pm_model partition =? WT_PARTITION_MODEL_IPC)
      with WT_MANIFEST_ERROR_MODEL;;
    reject (pm_model partition =? WT_PARTITION_MODEL_IPC) &&
             (sm_features manifest .& WT_MANIFEST_FEATURE_IPC =? 0) ||
           (pm_model partition =? WT_PARTITION_MODEL_SFN) &&
             (sm_features manifest .& WT_MANIFEST_FEATURE_SFN =? 0)
      with WT_MANIFEST_ERROR_FEATURE;;
    reject u32 (pm_priority partition) >? WT_PARTITION_PRIORITY_HIGH with WT_MANIFEST_ERROR_PRIORITY;;
    reject (count (pm_services partition) =? 0)%nat && (count (pm_interrupts partition) =? 0)%nat
      with WT_MANIFEST_ERROR_SERVICE;;
    reject (Z.of_nat (count (pm_services partition)) >? ml_max_services_per_partition (sm_limits manifest)) ||
           (negb (count (pm_services partition) =? 0)%nat && is_null (pm_services partition))
      with WT_MANIFEST_ERROR_SERVICE;;
    reject (Z.of_nat (count (pm_dependencies partition)) >?
              ml_max_dependencies_per_partition (sm_limits manifest)) ||
           (negb (count (pm_dependencies partition) =? 0)%nat && is_null (pm_dependencies partition))
      with WT_MANIFEST_ERROR_DEPENDENCY;;
    reject negb (count (pm_interrupts partition) =? count (d_interrupt_resources domain))%nat ||
           (negb (count (pm_interrupts partition) =? 0)%nat && is_null (pm_interrupts partition))
      with WT_MANIFEST_ERROR_INTERRUPT;;
    let signal_count := Z.of_nat (count (pm_interrupts partition)) +
      (if pm_model partition =? WT_PARTITION_MODEL_IPC
       then Z.of_nat (count (pm_services partition)) else 0) in
    reject signal_count >? WT_MANIFEST_MAX_SIGNALS with WT_MANIFEST_ERROR_SIGNAL;;
    WT_MANIFEST_VALID
  end.

Definition wt_manifest_validate_service (manifest : wt_system_manifest) (partition : wt_partition_manifest)
    (service : wt_service_descriptor) : Z :=
  reject negb (wt_manifest_name_valid (sd_name service)) with WT_MANIFEST_ERROR_NAME;;
  reject sd_sid service =? 0 with WT_MANIFEST_ERROR_SERVICE_ID;;
  reject (sd_version service =? 0) || (u32 (sd_version_policy service) >? WT_SERVICE_VERSION_RELAXED)
    with WT_MANIFEST_ERROR_SERVICE_VERSION;;
  reject (sd_nonsecure_clients service >? 1) || (sd_connection_based service >? 1)
    with WT_MANIFEST_ERROR_SERVICE;;
  reject (pm_framework_version partition =? WT_FFM_VERSION_1_0) && (sd_connection_based service =? 0)
    with WT_MANIFEST_ERROR_SERVICE;;
  ensure (if negb (sd_connection_based service =? 0) then
            reject negb (sd_stateless_handle_index service =? 0) with WT_MANIFEST_ERROR_STATELESS_HANDLE;;
            WT_MANIFEST_VALID
          else
            reject sm_features manifest .& WT_MANIFEST_FEATURE_STATELESS =? 0 with WT_MANIFEST_ERROR_FEATURE;;
            reject (sd_stateless_handle_index service =? 0) ||
                   (sd_stateless_handle_index service >? ml_max_stateless_handles (sm_limits manifest))
              with WT_MANIFEST_ERROR_STATELESS_HANDLE;;
            WT_MANIFEST_VALID);;
  if pm_model partition =? WT_PARTITION_MODEL_IPC then
    reject negb (wt_manifest_signal_valid (sd_signal service)) with WT_MANIFEST_ERROR_SIGNAL;;
    WT_MANIFEST_VALID
  else
    reject negb (sd_signal service =? 0) with WT_MANIFEST_ERROR_SIGNAL;;
    WT_MANIFEST_VALID.

(** [services] and [interrupts] are the first [service_limit] and
    [interrupt_limit] entries of the partition's tables. *)
Definition wt_manifest_signal_used (services : list wt_service_descriptor)
    (interrupts : list wt_manifest_interrupt) (signal : Z) : bool :=
  if existsb (λ s, sd_signal s =? signal) services then true
  else if existsb (λ i, mi_signal i =? signal) interrupts then true
  else false.

(** [before] holds the interrupts of smaller index. *)
Definition wt_manifest_validate_interrupt (domain : wt_domain_descriptor) (partition : wt_partition_manifest)
    (before : list wt_manifest_interrupt) (interrupt : wt_manifest_interrupt) : Z :=
  reject negb (wt_manifest_name_valid (mi_signal_name interrupt)) ||
         negb (wt_manifest_signal_valid (mi_signal interrupt))
    with WT_MANIFEST_ERROR_SIGNAL;;
  reject negb (existsb (λ r, ir_interrupt r =? mi_interrupt interrupt) (items (d_interrupt_resources domain)))
    with WT_MANIFEST_ERROR_INTERRUPT;;
  ensure first_error (λ i,
    reject mi_interrupt i =? mi_interrupt interrupt with WT_MANIFEST_ERROR_INTERRUPT;;
    reject wt_manifest_string_equal (deref (mi_signal_name i)) (deref (mi_signal_name interrupt))
      with WT_MANIFEST_ERROR_SIGNAL;;
    WT_MANIFEST_VALID) before;;
  reject wt_manifest_signal_used (items (pm_services partition)) before (mi_signal interrupt)
    with WT_MANIFEST_ERROR_SIGNAL;;
  WT_MANIFEST_VALID.

Definition wt_manifest_validate_partition (manifest : wt_system_manifest) (partition : wt_partition_manifest) : Z :=
  ensure wt_manifest_validate_partition_header manifest partition;;
  match wt_manifest_find_domain manifest (pm_domain_id partition) with
  | None => WT_MANIFEST_ERROR_PARTITION_ID (* the header check returned already *)
  | Some domain =>
    ensure scan_error (λ before service,
      ensure wt_manifest_validate_service manifest partition service;;
      reject negb (sd_signal service =? 0) && wt_manifest_signal_used before [] (sd_signal service)
        with WT_MANIFEST_ERROR_SIGNAL;;
      WT_MANIFEST_VALID) [] (items (pm_services partition));;
    ensure scan_error (wt_manifest_validate_interrupt domain partition) [] (items (pm_interrupts partition));;
    scan_error (λ before dependency,
      reject dependency =? 0 with WT_MANIFEST_ERROR_DEPENDENCY;;
      reject existsb (λ d, dependency =? d) before with WT_MANIFEST_ERROR_DEPENDENCY;;
      WT_MANIFEST_VALID) [] (items (pm_dependencies partition))
  end.

(** The index of the first partition that provides [sid]. *)
Fixpoint find_service_from (i : nat) (partitions : list wt_partition_manifest) (sid : Z) : option nat :=
  match partitions with
  | [] => None
  | p :: rest =>
    if existsb (λ s, sd_sid s =? sid) (items (pm_services p)) then Some i
    else find_service_from (S i) rest sid
  end.

Definition wt_manifest_find_service (manifest : wt_system_manifest) (sid : Z) : option nat :=
  find_service_from 0 (items (sm_partitions manifest)) sid.

Definition wt_manifest_validate_partition_uniqueness (manifest : wt_system_manifest) : Z :=
  scan_error (λ before p,
    reject existsb (λ q, wt_manifest_string_equal (deref (pm_name p)) (deref (pm_name q)) ||
                         (pm_domain_id p =? pm_domain_id q)) before
      with WT_MANIFEST_ERROR_PARTITION_ID;;
    WT_MANIFEST_VALID) [] (items (sm_partitions manifest)).

Definition wt_manifest_validate_domain_coverage (manifest : wt_system_manifest) : Z :=
  first_error (λ d,
    if negb (d_class d =? WT_DOMAIN_CLASS_SECURE_PARTITION) then WT_MANIFEST_VALID else
    reject negb (existsb (λ p, pm_domain_id p =? d_id d) (items (sm_partitions manifest)))
      with WT_MANIFEST_ERROR_PARTITION_ID;;
    WT_MANIFEST_VALID) (items (sm_domains manifest)).

(** All services, partition by partition: the pairs [(i, service_i)] of the
    source in the order of its loops, so that "every [(j, service_j)] with
    [j < i], or [j = i] and [service_j < service_i]" is the prefix. *)
Definition all_services (manifest : wt_system_manifest) : list wt_service_descriptor :=
  concat (map (λ p, items (pm_services p)) (items (sm_partitions manifest))).

Definition wt_manifest_validate_service_uniqueness (manifest : wt_system_manifest) : Z :=
  scan_error (λ before first, first_error (λ second,
    reject (sd_sid first =? sd_sid second) ||
           wt_manifest_string_equal (deref (sd_name first)) (deref (sd_name second))
      with WT_MANIFEST_ERROR_SERVICE_ID;;
    reject negb (sd_stateless_handle_index first =? 0) &&
           (sd_stateless_handle_index first =? sd_stateless_handle_index second)
      with WT_MANIFEST_ERROR_STATELESS_HANDLE;;
    WT_MANIFEST_VALID) before) [] (all_services manifest).

Definition wt_manifest_validate_symbol_uniqueness (manifest : wt_system_manifest) : Z :=
  let partitions := items (sm_partitions manifest) in
  scan_error (λ before p,
    let pname := deref (pm_name p) in
    ensure first_error (λ other,
      reject wt_manifest_partition_symbol_collision pname other with WT_MANIFEST_ERROR_SYMBOL;;
      reject existsb (λ s, wt_manifest_service_symbol_collision pname other s ||
                           wt_manifest_service_model_symbol_collision p other s) (items (pm_services other))
        with WT_MANIFEST_ERROR_SYMBOL;;
      reject existsb (λ i, wt_manifest_string_equal pname (deref (mi_signal_name i))) (items (pm_interrupts other))
        with WT_MANIFEST_ERROR_SYMBOL;;
      WT_MANIFEST_VALID) partitions;;
    scan_error (λ before_interrupts interrupt,
      let name := deref (mi_signal_name interrupt) in
      ensure first_error (λ other,
        reject wt_manifest_partition_symbol_collision name other with WT_MANIFEST_ERROR_SYMBOL;;
        reject existsb (wt_manifest_service_symbol_collision name other) (items (pm_services other))
          with WT_MANIFEST_ERROR_SYMBOL;;
        WT_MANIFEST_VALID) partitions;;
      reject existsb (λ i, wt_manifest_string_equal name (deref (mi_signal_name i)))
               (concat (map (λ q, items (pm_interrupts q)) before) ++ before_interrupts)
        with WT_MANIFEST_ERROR_SYMBOL;;
      WT_MANIFEST_VALID) [] (items (pm_interrupts p))) [] partitions.

(** *** The dependency graph

    [edges[i][j] = 1U] is [(i, j) ∈ edges], [removed[i] = 1U] is
    [i ∈ removed]. *)

Record dep_state := {
  dep_edges : gset (nat * nat);
  dep_removed : gset nat;
  dep_removed_count : nat;
  dep_progress : bool;
}.

(** The loops that resolve every dependency to the partition providing it. *)
Fixpoint add_dependencies (manifest : wt_system_manifest) (i : nat) (deps : list Z)
    (edges : gset (nat * nat)) : option (gset (nat * nat)) :=
  match deps with
  | [] => Some edges
  | sid :: rest =>
    match wt_manifest_find_service manifest sid with
    | None => None
    | Some target =>
      if (target =? i)%nat then None
      else add_dependencies manifest i rest ({[(i, target)]} ∪ edges)
    end
  end.

Fixpoint dependency_edges (manifest : wt_system_manifest) (i : nat)
    (partitions : list wt_partition_manifest) (edges : gset (nat * nat)) : option (gset (nat * nat)) :=
  match partitions with
  | [] => Some edges
  | p :: rest =>
    match add_dependencies manifest i (items (pm_dependencies p)) edges with
    | None => None
    | Some edges' => dependency_edges manifest (S i) rest edges'
    end
  end.

(** One iteration of the inner [for] over the [n] partitions. *)
Definition dep_visit (n : nat) (st : dep_state) (i : nat) : dep_state :=
  if bool_decide (i ∈ dep_removed st) then st
  else if existsb (λ j, bool_decide (j ∉ dep_removed st) && bool_decide ((i, j) ∈ dep_edges st)) (seq 0 n)
  then st
  else {| dep_edges := filter (λ e, e.2 ≠ i ∨ (n ≤ e.1)%nat) (dep_edges st);
          dep_removed := {[i]} ∪ dep_removed st;
          dep_removed_count := S (dep_removed_count st);
          dep_progress := true |}.

Definition dep_pass (n : nat) (st : dep_state) : dep_state :=
  foldl (dep_visit n)
    {| dep_edges := dep_edges st; dep_removed := dep_removed st;
       dep_removed_count := dep_removed_count st; dep_progress := false |} (seq 0 n).

(** [do ... while (progress != 0)], with [None] when [fuel] passes do not
    suffice; [wt_manifest_validate_total] shows that they do. *)
Fixpoint dep_loop (fuel n : nat) (st : dep_state) : option dep_state :=
  match fuel with
  | O => None
  | S fuel' => let st' := dep_pass n st in
               if dep_progress st' then dep_loop fuel' n st' else Some st'
  end.

Definition wt_manifest_validate_dependencies (manifest : wt_system_manifest) : option Z :=
  let n := count (sm_partitions manifest) in
  match dependency_edges manifest 0 (items (sm_partitions manifest)) ∅ with
  | None => Some WT_MANIFEST_ERROR_DEPENDENCY
  | Some edges =>
    st ← dep_loop (S n) n {| dep_edges := edges; dep_removed := ∅;
                             dep_removed_count := 0; dep_progress := false |};
    Some (if negb (dep_removed_count st =? n)%nat then WT_MANIFEST_ERROR_DEPENDENCY_CYCLE
          else WT_MANIFEST_VALID)
  end.

(** A null manifest pointer is [None]. *)
Definition wt_manifest_validate (manifest : option wt_system_manifest) (supported_features : Z)
    (platform : option wt_profile_capabilities) : option Z :=
  match manifest with
  | None => Some WT_MANIFEST_ERROR_ARGUMENT
  | Some manifest =>
    let checked :=
      ensure wt_manifest_validate_header manifest supported_features platform;;
      ensure first_error (wt_manifest_validate_partition_header manifest) (items (sm_partitions manifest));;
      ensure wt_manifest_validate_partition_uniqueness manifest;;
      ensure wt_manifest_validate_domain_coverage manifest;;
      ensure first_error (wt_manifest_validate_partition manifest) (items (sm_partitions manifest));;
      ensure wt_manifest_validate_service_uniqueness manifest;;
      ensure wt_manifest_validate_symbol_uniqueness manifest;;
      WT_MANIFEST_VALID in
    if checked =? WT_MANIFEST_VALID then wt_manifest_validate_dependencies manifest
    else Some checked
  end.

(** ** The dependency check is acyclicity *)

Section dependency_graph.
Context (n : nat) (E : gset (nat * nat)).
Hypothesis E_bounded : ∀ i j, (i, j) ∈ E → (i < n)%nat ∧ (j < n)%nat.

Definition edge (i j : nat) : Prop := (i, j) ∈ E.

  (** Every removed partition depends, transitively, on removed ones only, and
      the dependency relation is well founded below it. *)
Record dep_inv (st : dep_state) : Prop := {
    dep_inv_bound : ∀ i, i ∈ dep_removed st → (i < n)%nat;
    dep_inv_count : dep_removed_count st = size (dep_removed st);
    dep_inv_edges : ∀ i j, (i, j) ∈ dep_edges st ↔ edge i j ∧ j ∉ dep_removed st;
    dep_inv_acc : ∀ i, i ∈ dep_removed st → Acc (flip edge) i;
  }.

Lemma dep_visit_inv st i : (i < n)%nat → dep_inv st → dep_inv (dep_visit n st i).
  Proof.
    intros Hi [Hb Hc He Ha]. unfold dep_visit.
    case_bool_decide as Hr; [by split|].
    destruct (existsb _ _) eqn:Ex; [by split|].
    assert (∀ j, edge i j → j ∈ dep_removed st) as Hsucc.
    { intros j Hj. destruct (decide (j ∈ dep_removed st)) as [|Hnj]; [done|].
      destruct (E_bounded i j Hj) as [_ Hjn].
      eapply existsb_elem_false with (x := j) in Ex; [|apply elem_of_seq; lia].
      rewrite !bool_decide_true in Ex; [done| |done]. by apply He. }
    split; simpl.
    - set_solver.
    - rewrite size_union, size_singleton by set_solver. lia.
    - intros a b. rewrite elem_of_filter, He. simpl. split.
      + intros [[?|Hn] [Hab ?]]; [set_solver|]. destruct (E_bounded a b Hab). lia.
      + set_solver.
    - intros a [->%elem_of_singleton|Hin]%elem_of_union; [|by apply Ha].
      constructor. intros b Hb'. apply Ha, Hsucc, Hb'.
  Qed.

Lemma dep_visit_mono st i :
    (dep_removed_count st ≤ dep_removed_count (dep_visit n st i))%nat ∧
    (dep_progress (dep_visit n st i) = dep_progress st ∧ dep_visit n st i = st ∨
     dep_progress (dep_visit n st i) = true ∧
     (dep_removed_count st < dep_removed_count (dep_visit n st i))%nat).
  Proof. unfold dep_visit. repeat case_match; simpl; split; auto with lia. Qed.

Lemma dep_fold_inv l st :
    (∀ i, i ∈ l → (i < n)%nat) → dep_inv st → dep_inv (foldl (dep_visit n) st l).
  Proof.
    revert st; induction l as [|i l IH]; intros st Hl Hst; simpl; [done|].
    apply IH; [set_solver|]. apply dep_visit_inv; [apply Hl; set_solver|done].
  Qed.

Lemma dep_fold_progress l st :
    let st' := foldl (dep_visit n) st l in
    (dep_removed_count st ≤ dep_removed_count st')%nat ∧
    (dep_progress st' = false → st' = st ∧ ∀ i, i ∈ l → dep_visit n st i = st) ∧
    (dep_progress st = false → dep_progress st' = true →
      (dep_removed_count st < dep_removed_count st')%nat).
  Proof.
    revert st; induction l as [|i l IH]; intros st; simpl.
    { split_and!; [lia| |congruence]. intros _. split; [done|set_solver]. }
    destruct (IH (dep_visit n st i)) as (Hle & Hf & Ht).
    destruct (dep_visit_mono st i) as (Hle' & [[Hp Heq]|[Hp Hlt]]).
    - rewrite Heq in *. split_and!; [lia| |auto].
      intros Hpf. destruct (Hf Hpf) as [-> Hall]. split; [done|]. set_solver.
    - split_and!; [lia| |lia]. intros Hpf. exfalso.
      destruct (Hf Hpf) as [Heq _]. congruence.
  Qed.

Lemma dep_inv_count_le st : dep_inv st → (dep_removed_count st ≤ n)%nat.
  Proof.
    intros [Hb Hc _ _]. rewrite Hc. rewrite <-(size_set_seq (C := gset nat) 0 n).
    apply subseteq_size. intros i Hi. apply elem_of_set_seq. specialize (Hb i Hi). lia.
  Qed.

Lemma dep_pass_inv st : dep_inv st → dep_inv (dep_pass n st).
  Proof.
    intros Hst. unfold dep_pass. apply dep_fold_inv; [intros i; rewrite elem_of_seq; lia|].
    by destruct Hst.
  Qed.

  (** The loop ends within one pass per partition, in a state where every
      remaining partition depends on a remaining one. *)
Lemma dep_loop_total fuel st :
    dep_inv st → (n - dep_removed_count st < fuel)%nat →
    ∃ st', dep_loop fuel n st = Some st' ∧ dep_inv st' ∧
      ∀ i, (i < n)%nat → i ∉ dep_removed st' → ∃ j, edge i j ∧ j ∉ dep_removed st'.
  Proof.
    revert st; induction fuel as [|fuel IH]; intros st Hst Hf; [lia|]. simpl.
    pose proof (dep_pass_inv st Hst) as Hst'.
    set (st0 := {| dep_edges := dep_edges st; dep_removed := dep_removed st;
                   dep_removed_count := dep_removed_count st; dep_progress := false |}).
    destruct (dep_fold_progress (seq 0 n) st0) as (Hle & Hstop & Hgo).
    change (foldl (dep_visit n) st0 (seq 0 n)) with (dep_pass n st) in Hle, Hstop, Hgo.
    destruct (dep_progress (dep_pass n st)) eqn:Hp.
    - specialize (Hgo eq_refl eq_refl). apply IH; [done|].
      pose proof (dep_inv_count_le _ Hst'). simpl in *. lia.
    - destruct (Hstop eq_refl) as [Heq Hall]. eexists; split; [done|]. split; [done|].
      rewrite Heq. intros i Hi Hni. specialize (Hall i ltac:(apply elem_of_seq; lia)).
      unfold dep_visit in Hall. rewrite bool_decide_false in Hall by done.
      destruct (existsb _ _) eqn:Ex.
      + apply existsb_elem in Ex as (j & Hj & Hb). apply andb_true_iff in Hb as [Hb1 Hb2].
        apply bool_decide_eq_true in Hb1, Hb2. exists j. split; [|done].
        by apply (dep_inv_edges st Hst i j).
      + exfalso. apply (f_equal dep_progress) in Hall. simpl in Hall. done.
  Qed.

Lemma acc_no_cycle i : Acc (flip edge) i → ¬ tc edge i i.
  Proof.
    induction 1 as [x _ IH]. intros Hx. inversion Hx as [? ? He|? z ? He Hz]; subst.
    - exact (IH x He Hx).
    - apply (IH z He). by eapply tc_r.
  Qed.

Lemma acyclic_acc i : (∀ j, ¬ tc edge j j) → Acc (flip edge) i.
  Proof.
    intros Hirr. apply (tc_finite_sn (R := edge)); [exact Hirr|].
    exists (seq 0 n). intros y Hy. apply elem_of_seq. split; [lia|].
    clear Hirr. induction Hy as [x y He|x y z He _ IH]; [|done].
    by destruct (E_bounded x y He).
  Qed.

  (** The loop removes every partition exactly when the graph is acyclic. *)
Lemma dep_loop_acyclic fuel st :
    dep_inv st → (n - dep_removed_count st < fuel)%nat →
    ∃ st', dep_loop fuel n st = Some st' ∧ (dep_removed_count st' = n ↔ ∀ i, ¬ tc edge i i).
  Proof.
    intros Hst Hf. destruct (dep_loop_total fuel st Hst Hf) as (st' & Hl & Hst' & Hrest).
    exists st'. split; [done|]. pose proof Hst' as [Hb Hc _ Ha]. rewrite Hc. split.
    - intros Hsize i Hcyc. apply (acc_no_cycle i); [|done]. apply Ha.
      assert (dep_removed st' = set_seq 0 n) as ->.
      { apply set_subseteq_size_eq; [|rewrite size_set_seq; lia].
        intros j Hj. apply elem_of_set_seq. specialize (Hb j Hj). lia. }
      apply elem_of_set_seq. split; [lia|].
      inversion Hcyc; subst; match goal with H : edge i _ |- _ => by destruct (E_bounded _ _ H) end.
    - intros Hacyc. apply Nat.le_antisymm.
      { rewrite <-Hc. by apply dep_inv_count_le. }
      rewrite <-(size_set_seq (C := gset nat) 0 n) at 1. apply subseteq_size.
      intros i [_ Hi]%elem_of_set_seq. simpl in Hi.
      pose proof (acyclic_acc i Hacyc) as Hacc. revert Hi.
      induction Hacc as [x _ IH]. intros Hx.
      destruct (decide (x ∈ dep_removed st')) as [|Hn]; [done|].
      destruct (Hrest x Hx Hn) as (j & Hj & Hnj). exfalso. apply Hnj.
      apply IH; [done|]. by destruct (E_bounded x j Hj).
  Qed.
End dependency_graph.

(** Partition [i] calls a service that partition [j] provides. *)
Definition depends (manifest : wt_system_manifest) (i j : nat) : Prop :=
  ∃ p sid, items (sm_partitions manifest) !! i = Some p ∧
           sid ∈ items (pm_dependencies p) ∧ wt_manifest_find_service manifest sid = Some j.

(** Every dependency names a service of another partition. *)
Definition dependencies_resolved (manifest : wt_system_manifest) : Prop :=
  ∀ i p sid, items (sm_partitions manifest) !! i = Some p → sid ∈ items (pm_dependencies p) →
    ∃ j, wt_manifest_find_service manifest sid = Some j ∧ j ≠ i.

Lemma find_service_from_bound k ps sid j :
  find_service_from k ps sid = Some j → (k ≤ j < k + length ps)%nat.
Proof.
  revert k; induction ps as [|p ps IH]; intros k; simpl; [done|].
  case_match; [intros [= <-]; lia|]. intros ?%IH. lia.
Qed.

Lemma find_service_bound manifest sid j :
  wt_manifest_find_service manifest sid = Some j → (j < length (items (sm_partitions manifest)))%nat.
Proof. intros ?%find_service_from_bound. lia. Qed.

Lemma items_count {A} (a : carray A) : (length (items a) ≤ count a)%nat.
Proof. destruct a; simpl; lia. Qed.

Lemma add_dependencies_spec manifest i deps edges :
  match add_dependencies manifest i deps edges with
  | Some edges' =>
    (∀ sid, sid ∈ deps → ∃ j, wt_manifest_find_service manifest sid = Some j ∧ j ≠ i) ∧
    (∀ a b, (a, b) ∈ edges' ↔
      (a, b) ∈ edges ∨ a = i ∧ ∃ sid, sid ∈ deps ∧ wt_manifest_find_service manifest sid = Some b)
  | None => ∃ sid, sid ∈ deps ∧
      (wt_manifest_find_service manifest sid = None ∨ wt_manifest_find_service manifest sid = Some i)
  end.
Proof.
  revert edges; induction deps as [|sid deps IH]; intros edges; simpl.
  { split; set_solver. }
  destruct (wt_manifest_find_service manifest sid) as [t|] eqn:Hf; [|set_solver].
  destruct (Nat.eqb_spec t i) as [->|Hti]; [set_solver|].
  specialize (IH ({[(i, t)]} ∪ edges)). destruct (add_dependencies _ _ _ _) as [edges'|].
  - destruct IH as [Hr He]. split.
    + intros s [->|Hs]%elem_of_cons; eauto.
    + intros a b. rewrite He. set_solver.
  - set_solver.
Qed.

Lemma dependency_edges_spec manifest k ps edges :
  match dependency_edges manifest k ps edges with
  | Some edges' =>
    (∀ i p sid, ps !! i = Some p → sid ∈ items (pm_dependencies p) →
       ∃ j, wt_manifest_find_service manifest sid = Some j ∧ j ≠ (k + i)%nat) ∧
    (∀ a b, (a, b) ∈ edges' ↔
      (a, b) ∈ edges ∨ ∃ i p sid, a = (k + i)%nat ∧ ps !! i = Some p ∧
        sid ∈ items (pm_dependencies p) ∧ wt_manifest_find_service manifest sid = Some b)
  | None => ∃ i p sid, ps !! i = Some p ∧ sid ∈ items (pm_dependencies p) ∧
      (wt_manifest_find_service manifest sid = None ∨ wt_manifest_find_service manifest sid = Some (k + i)%nat)
  end.
Proof.
  revert k edges; induction ps as [|p ps IH]; intros k edges; simpl.
  { split; [done|]. intros a b. split; [auto|]. by intros [?|(?&?&?&?&?&?)]. }
  pose proof (add_dependencies_spec manifest k (items (pm_dependencies p)) edges) as Ha.
  destruct (add_dependencies _ _ _ _) as [edges1|].
  - destruct Ha as [Hr1 He1]. specialize (IH (S k) edges1).
    destruct (dependency_edges _ _ _ _) as [edges'|].
    + destruct IH as [Hr He]. split.
      * intros [|i] q sid Hi Hsid; simplify_eq/=; [rewrite Nat.add_0_r; auto|].
        destruct (Hr i q sid Hi Hsid) as (j & ? & ?). exists j. split; [done|lia].
      * intros a b. rewrite He, He1. split.
        -- intros [[?|(-> & sid & ? & ?)]|(i & q & sid & -> & ? & ? & ?)]; [auto|..].
           ++ right. exists 0%nat, p, sid. split_and!; [lia|done..].
           ++ right. exists (S i), q, sid. split_and!; [lia|done..].
        -- intros [?|([|i] & q & sid & -> & Hi & ? & ?)]; [auto|..]; simplify_eq/=.
           ++ left. right. split; [lia|]. eauto.
           ++ right. exists i, q, sid. split_and!; [lia|done..].
    + destruct IH as (i & q & sid & ? & ? & Hn). exists (S i), q, sid.
      split_and!; [done..|]. by replace (k + S i)%nat with (S k + i)%nat by lia.
  - destruct Ha as (sid & ? & Hn). exists 0%nat, p, sid. by rewrite Nat.add_0_r.
Qed.

(** C35: Deadlock freedom of the declared dependencies. The iterative edge
    removal of [wt_manifest_validate_dependencies] always terminates within
    its bound and accepts exactly the manifests in which every dependency is
    provided by another partition and no partition depends on itself through
    any chain of dependencies. *)
Theorem validate_dependencies_iff manifest :
  ∃ ret, wt_manifest_validate_dependencies manifest = Some ret ∧
    (ret = WT_MANIFEST_VALID ↔
     dependencies_resolved manifest ∧ ∀ i, ¬ tc (depends manifest) i i).
Proof.
  unfold wt_manifest_validate_dependencies.
  pose proof (dependency_edges_spec manifest 0 (items (sm_partitions manifest)) ∅) as Hspec.
  destruct (dependency_edges _ _ _ _) as [E|].
  - destruct Hspec as [Hr He]. set (n := count (sm_partitions manifest)).
    assert (∀ i j, edge E i j ↔ depends manifest i j) as Hed.
    { intros i j. unfold edge, depends. rewrite He. set_solver. }
    assert (∀ i j, (i, j) ∈ E → (i < n)%nat ∧ (j < n)%nat) as Hb.
    { intros i j Hij. apply Hed in Hij as (p & sid & Hp & _ & Hf).
      apply lookup_lt_Some in Hp. apply find_service_bound in Hf.
      pose proof (items_count (sm_partitions manifest)). unfold n. lia. }
    destruct (dep_loop_acyclic n E Hb (S n) {| dep_edges := E; dep_removed := ∅; dep_removed_count := 0;
      dep_progress := false |}) as (st' & Hl & Hiff); [|simpl; lia|].
    { split; simpl; [set_solver|done|set_solver|set_solver]. }
    rewrite Hl. eexists; split; [done|].
    assert ((∀ i, ¬ tc (edge E) i i) ↔ ∀ i, ¬ tc (depends manifest) i i) as Hac.
    { split; intros Hx i Hc; apply (Hx i); revert Hc; apply tc_congruence with (f := id);
        intros ? ?; by apply Hed. }
    rewrite <-Hac, <-Hiff. destruct (Nat.eqb_spec (dep_removed_count st') n); simpl; split; try done.
    + intros [_ Heq]. by destruct (n0 Heq).
  - eexists; split; [done|]. split; [done|]. intros [Hres _].
    destruct Hspec as (i & p & sid & Hi & Hsid & Hn).
    destruct (Hres i p sid Hi Hsid) as (j & Hj & Hji). simpl in Hn. destruct Hn; congruence.
Qed.

(** ** What an accepted manifest guarantees *)

(** The checks of [wt_manifest_validate], all passed. *)
Record validated (manifest : wt_system_manifest) (supported_features : Z)
    (platform : option wt_profile_capabilities) : Prop := {
  val_header : wt_manifest_validate_header manifest supported_features platform = WT_MANIFEST_VALID;
  val_partition_header : ∀ p, p ∈ items (sm_partitions manifest) →
    wt_manifest_validate_partition_header manifest p = WT_MANIFEST_VALID;
  val_partition_uniqueness : wt_manifest_validate_partition_uniqueness manifest = WT_MANIFEST_VALID;
  val_coverage : wt_manifest_validate_domain_coverage manifest = WT_MANIFEST_VALID;
  val_partition : ∀ p, p ∈ items (sm_partitions manifest) →
    wt_manifest_validate_partition manifest p = WT_MANIFEST_VALID;
  val_service_uniqueness : wt_manifest_validate_service_uniqueness manifest = WT_MANIFEST_VALID;
  val_symbols : wt_manifest_validate_symbol_uniqueness manifest = WT_MANIFEST_VALID;
  val_dependencies : wt_manifest_validate_dependencies manifest = Some WT_MANIFEST_VALID;
}.

Lemma validate_accepted manifest features platform :
  wt_manifest_validate (Some manifest) features platform = Some WT_MANIFEST_VALID →
  validated manifest features platform.
Proof.
  unfold wt_manifest_validate. destruct (_ =? WT_MANIFEST_VALID) eqn:E.
  - intros Hd. apply Z.eqb_eq in E.
    ensured E as Eh. ensured E as Ep. ensured E as Eu. ensured E as Ec.
    ensured E as Ev. ensured E as Es. ensured E as Ey.
    split; eauto using first_error_elem.
  - intros [= Hv]. rewrite Hv in E. done.
Qed.

Lemma signal_valid_bit s :
  0 ≤ s < 2 ^ 32 → wt_manifest_signal_valid s = true → ∃ k, 4 ≤ k < 32 ∧ s = 1 .<< k.
Proof.
  intros Hs. unfold wt_manifest_signal_valid, WT_MANIFEST_RESERVED_SIGNALS.
  destruct (_ || _) eqn:E; [done|]. apply orb_false_iff in E as [E0 Er]. bool_hyps.
  intros H%Z.eqb_eq. rewrite u32_small in H by lia.
  pose proof (land_pred_zero s ltac:(lia) H) as Hk. exists (Z.log2 s).
  pose proof (Z.log2_nonneg s). split; [|done]. split.
  - destruct (decide (4 ≤ Z.log2 s)) as [|Hn]; [done|exfalso].
    assert (Z.log2 s = 0 ∨ Z.log2 s = 1 ∨ Z.log2 s = 2 ∨ Z.log2 s = 3) as Hc by lia.
    rewrite Hk in Er. destruct Hc as [Hc|[Hc|[Hc|Hc]]]; rewrite Hc in Er; done.
  - apply Z.log2_lt_pow2; lia.
Qed.

(** The signals of an accepted IPC partition: its services', then its
    interrupts'. *)
Definition partition_signals (p : wt_partition_manifest) : list Z :=
  (sd_signal <$> items (pm_services p)) ++ (mi_signal <$> items (pm_interrupts p)).

Lemma existsb_key_fresh {A} (g : A → Z) (k : Z) (l : list A) :
  existsb (λ x, g x =? k) l = false → k ∉ g <$> l.
Proof.
  intros H (x & -> & Hx)%list_elem_of_fmap. eapply existsb_elem_false in H; [|done].
  by rewrite Z.eqb_refl in H.
Qed.

Lemma signal_used_fresh ss ints sig :
  wt_manifest_signal_used ss ints sig = false → sig ∉ (sd_signal <$> ss) ++ (mi_signal <$> ints).
Proof.
  unfold wt_manifest_signal_used. destruct (existsb _ ss) eqn:E1; [done|].
  destruct (existsb _ ints) eqn:E2; [done|]. intros _.
  apply existsb_key_fresh in E1, E2. rewrite elem_of_app. tauto.
Qed.

Lemma partition_parts manifest p :
  wt_manifest_validate_partition manifest p = WT_MANIFEST_VALID →
  ∃ d, wt_manifest_find_domain manifest (pm_domain_id p) = Some d ∧
  scan_error (λ before service,
      ensure wt_manifest_validate_service manifest p service;;
      reject negb (sd_signal service =? 0) && wt_manifest_signal_used before [] (sd_signal service)
        with WT_MANIFEST_ERROR_SIGNAL;;
      WT_MANIFEST_VALID) [] (items (pm_services p)) = 0 ∧
  scan_error (wt_manifest_validate_interrupt d p) [] (items (pm_interrupts p)) = 0.
Proof.
  unfold wt_manifest_validate_partition. intros H. ensured H as Hh.
  destruct (wt_manifest_find_domain _ _) as [d|]; [|done].
  ensured H as Hs. ensured H as Hi. eauto.
Qed.

Lemma validated_service manifest p s :
  wt_manifest_validate_partition manifest p = WT_MANIFEST_VALID → s ∈ items (pm_services p) →
  wt_manifest_validate_service manifest p s = WT_MANIFEST_VALID.
Proof.
  intros (d & _ & Hs & _)%partition_parts [i Hi]%list_elem_of_lookup.
  pose proof (scan_error_lookup _ _ _ _ Hs Hi) as H. simpl in H.
  case_match; [by bool_hyps|by bool_hyps].
Qed.

Lemma validated_service_signal manifest p s :
  wt_manifest_validate_service manifest p s = WT_MANIFEST_VALID → pm_model p = WT_PARTITION_MODEL_IPC →
  wt_manifest_signal_valid (sd_signal s) = true.
Proof.
  unfold wt_manifest_validate_service. intros H Hm. accepted H. ensured H as Hst.
  rewrite Hm in H. simpl in H. by destruct (wt_manifest_signal_valid _).
Qed.

Lemma partition_signals_NoDup manifest p :
  wt_manifest_validate_partition manifest p = WT_MANIFEST_VALID →
  pm_model p = WT_PARTITION_MODEL_IPC →
  (∀ s, s ∈ partition_signals p → wt_manifest_signal_valid s = true) ∧ NoDup (partition_signals p).
Proof.
  intros Hp Hm. destruct (partition_parts manifest p Hp) as (d & _ & Hs & Hi).
  assert (∀ s, s ∈ partition_signals p → wt_manifest_signal_valid s = true) as Hvalid.
  { intros s [(x & -> & Hx)%list_elem_of_fmap|(x & -> & Hx)%list_elem_of_fmap]%elem_of_app.
    - eauto using validated_service, validated_service_signal.
    - apply list_elem_of_lookup in Hx as [i Hx].
      pose proof (scan_error_lookup _ _ _ _ Hi Hx) as Hv. unfold wt_manifest_validate_interrupt in Hv.
      accepted Hv. by bool_hyps. }
  split; [done|]. apply NoDup_app. split_and!.
  - eapply scan_error_NoDup; [|exact Hs]. intros before x Hx. ensured Hx as Hv.
    assert (sd_signal x ≠ 0) as Hnz.
    { intros E. apply (validated_service_signal _ _ _ Hv) in Hm. by rewrite E in Hm. }
    apply Z.eqb_neq in Hnz. rewrite Hnz in Hx. simpl in Hx.
    destruct (wt_manifest_signal_used _ _ _) eqn:Eu; [done|].
    apply signal_used_fresh in Eu. by rewrite app_nil_r in Eu.
  - intros sig Hsig (x & -> & Hx)%list_elem_of_fmap. apply list_elem_of_lookup in Hx as [i Hx].
    pose proof (scan_error_lookup _ _ _ _ Hi Hx) as Hv. unfold wt_manifest_validate_interrupt in Hv.
    accepted Hv. ensured Hv as Hf. accepted Hv.
    match goal with H : wt_manifest_signal_used _ _ _ = false |- _ => apply signal_used_fresh in H; apply H end.
    apply elem_of_app. by left.
  - eapply scan_error_NoDup; [|exact Hi]. intros before x Hx. unfold wt_manifest_validate_interrupt in Hx.
    accepted Hx. ensured Hx as Hf. accepted Hx.
    match goal with H : wt_manifest_signal_used _ _ _ = false |- _ => apply signal_used_fresh in H end.
    rewrite elem_of_app in *. tauto.
Qed.

(** Signal allocation. In an accepted manifest the service and interrupt
    signals of every IPC partition are single bits at or above bit 4 (clear of
    the reserved bits and of [PSA_DOORBELL]) and pairwise distinct, so that one
    asserted bit identifies one source. *)
Theorem validate_signals manifest features platform p :
  wt_manifest_validate (Some manifest) features platform = Some WT_MANIFEST_VALID →
  p ∈ items (sm_partitions manifest) → pm_model p = WT_PARTITION_MODEL_IPC →
  Forall (λ s, 0 ≤ s < 2 ^ 32) (partition_signals p) →
  Forall (λ s, ∃ k, 4 ≤ k < 32 ∧ s = 1 .<< k) (partition_signals p) ∧ NoDup (partition_signals p).
Proof.
  intros Hv%validate_accepted Hp Hm Hty.
  destruct (partition_signals_NoDup manifest p) as [Hs Hn]; [by eapply val_partition|done|].
  split; [|done]. apply list.Forall_forall. intros s Hin. apply signal_valid_bit; [|by apply Hs].
  by eapply (proj1 (list.Forall_forall _ _)) in Hty.
Qed.

Lemma partition_header_inv manifest p :
  wt_manifest_validate_partition_header manifest p = WT_MANIFEST_VALID →
  ∃ d, d ∈ items (sm_domains manifest) ∧ d_id d = pm_domain_id p ∧
       d_class d = WT_DOMAIN_CLASS_SECURE_PARTITION ∧
       pm_domain_id p ≠ 0 ∧ pm_domain_id p ≤ INT32_MAX.
Proof.
  unfold wt_manifest_validate_partition_header. intros H. accepted H.
  destruct (wt_manifest_find_domain _ _) as [d|] eqn:Ed; [|done].
  apply find_some in Ed as [Hin Heq]. apply Z.eqb_eq in Heq. accepted H. bool_hyps.
  exists d. rewrite list_elem_of_In. split_and!; try done.
  match goal with H : (_ >? _) = false |- _ => rewrite Z.gtb_ltb in H; apply Z.ltb_ge in H; exact H end.
Qed.

(** Identifiers. In an accepted manifest service ids are non-zero and
    unique across the whole system, partition ids are unique positive
    [int32_t] values, each naming a domain of class Secure Partition, and the
    domain set itself passed [wt_domain_validate_set]. *)
Theorem validate_identifiers manifest features platform :
  wt_manifest_validate (Some manifest) features platform = Some WT_MANIFEST_VALID →
  NoDup (sd_sid <$> all_services manifest) ∧
  Forall (λ s, sd_sid s ≠ 0) (all_services manifest) ∧
  NoDup (pm_domain_id <$> items (sm_partitions manifest)) ∧
  Forall (λ p, pm_domain_id p ≠ 0 ∧ pm_domain_id p ≤ INT32_MAX ∧
     ∃ d, d ∈ items (sm_domains manifest) ∧ d_id d = pm_domain_id p ∧
          d_class d = WT_DOMAIN_CLASS_SECURE_PARTITION) (items (sm_partitions manifest)) ∧
  wt_domain_validate_set (sm_domains manifest) (sm_isolation_profile manifest) platform = WT_DOMAIN_VALID.
Proof.
  intros Hv%validate_accepted. split_and!.
  - eapply scan_error_NoDup; [|by eapply val_service_uniqueness].
    intros before x Hx Hin. apply list_elem_of_fmap in Hin as (y & Hy & Hyb).
    apply first_error_elem with (x := y) in Hx; [|done]. by rewrite Hy, Z.eqb_refl in Hx.
  - apply list.Forall_forall. intros s Hs. unfold all_services in Hs.
    rewrite list_elem_of_In, in_concat in Hs. destruct Hs as (l & Hl & Hs).
    apply in_map_iff in Hl as (p & <- & Hp). apply list_elem_of_In in Hp, Hs.
    pose proof (validated_service manifest p s (val_partition _ _ _ Hv p Hp) Hs) as H.
    unfold wt_manifest_validate_service in H. accepted H. by bool_hyps.
  - eapply scan_error_NoDup; [|by eapply val_partition_uniqueness].
    intros before x Hx Hin. apply list_elem_of_fmap in Hin as (y & Hy & Hyb). simpl in Hx.
    destruct (existsb _ before) eqn:E; [done|]. eapply existsb_elem_false in E; [|done].
    by rewrite Hy, Z.eqb_refl, orb_true_r in E.
  - apply list.Forall_forall. intros p Hp.
    destruct (partition_header_inv manifest p) as (d & ? & ? & ? & ? & ?); [by eapply val_partition_header|].
    eauto 10.
  - pose proof (val_header _ _ _ Hv) as H. unfold wt_manifest_validate_header in H. accepted H.
    destruct (sm_profile_capabilities manifest), platform; try done. accepted H. by bool_hyps.
Qed.

(** ** Witnesses: two partitions, the first a client of the second *)

Module ManifestExample.
Import Domain.Example.

Definition service (name : string) (sid signal : Z) : wt_service_descriptor :=
  {| sd_name := Some (lit name); sd_sid := sid; sd_version := 1; sd_version_policy := WT_SERVICE_VERSION_STRICT;
     sd_signal := signal; sd_stateless_handle_index := 0; sd_nonsecure_clients := 1;
     sd_connection_based := 1 |}.

Definition partition (name : string) (id : Z) (services : list wt_service_descriptor) (deps : list Z) :
    wt_partition_manifest :=
  {| pm_name := Some (lit name); pm_domain_id := id; pm_framework_version := WT_FFM_VERSION_1_0;
     pm_model := WT_PARTITION_MODEL_IPC; pm_priority := 1; pm_services := Arr services;
     pm_dependencies := match deps with [] => Null 0 | _ => Arr deps end;
     pm_interrupts := Null 0 |}.

Definition storage : wt_partition_manifest :=
  partition "STORAGE" 1 [service "ITS" 0x60 0x10; service "PS" 0x40 0x20] [0x80].
Definition vault : wt_partition_manifest := partition "VAULT" 3 [service "KEYS" 0x80 0x10] [].

Definition manifest_domains : list wt_domain_descriptor :=
  domains ++ [domain 3 1 2 0 1 0x0C000300 0x30002000 [code; ram 0x30002000]].

Definition manifest : wt_system_manifest :=
  {| sm_format_version := 1; sm_generator_version := Some (lit "WT_1");
     sm_input_digest := Arr (replicate 32 7); sm_features := WT_MANIFEST_FEATURE_IPC;
     sm_isolation_profile := 3; sm_profile_capabilities := Some caps;
     sm_domains := Arr manifest_domains; sm_partitions := Arr [storage; vault];
     sm_limits := {| ml_max_partitions := 8; ml_max_services_per_partition := 8;
                     ml_max_dependencies_per_partition := 8; ml_max_stateless_handles := 32 |} |}.

Lemma manifest_valid :
  wt_manifest_validate (Some manifest) WT_MANIFEST_FEATURE_IPC (Some caps) = Some WT_MANIFEST_VALID.
Proof. vm_compute. reflexivity. Qed.

(** The same manifest with the vault depending back on the storage partition. *)
Example cyclic_manifest_refused :
  wt_manifest_validate_dependencies
    {| sm_format_version := 1; sm_generator_version := None; sm_input_digest := Null 0; sm_features := 1;
       sm_isolation_profile := 3; sm_profile_capabilities := None; sm_domains := Null 0;
       sm_partitions := Arr [storage; partition "VAULT" 3 [service "KEYS" 0x80 0x10] [0x60]];
       sm_limits := sm_limits manifest |} = Some WT_MANIFEST_ERROR_DEPENDENCY_CYCLE.
Proof. vm_compute. reflexivity. Qed.

Lemma validate_signals_witness :
  Forall (λ s, ∃ k, 4 ≤ k < 32 ∧ s = 1 .<< k) [0x10; 0x20] ∧ NoDup [0x10; 0x20].
Proof.
  apply (validate_signals manifest WT_MANIFEST_FEATURE_IPC (Some caps) storage).
  - exact manifest_valid.
  - left.
  - reflexivity.
  - repeat (apply List.Forall_cons; [simpl; lia|]). apply List.Forall_nil.
Defined.

Lemma validate_identifiers_witness : NoDup [0x60; 0x40; 0x80].
Proof.
  destruct (validate_identifiers manifest WT_MANIFEST_FEATURE_IPC (Some caps) manifest_valid) as [H _].
  exact H.
Defined.

End ManifestExample.
