(* ===== verification/Ipc.v ===== *)
(** * IPC handles, connections and vectors: [include/wolftrust/ipc.h], [src/ipc.c]

    Typed handles, the FF-M connection state machine and the validation of
    client vectors. States and events are inductive types, so the enumeration
    range checks ([wt_ipc_event_valid], [wt_ipc_state_valid]) hold by typing;
    a handle's type field is a [Z] because presented handles are untrusted. *)

From Stdlib Require Import ZArith Lia.
From stdpp Require Import base list numbers option relations.
From S2P Require Import Prelude.

Definition WT_IPC_MAX_VECTORS : Z := 4.

Inductive wt_ipc_connection_state :=
| WT_IPC_CONNECTION_FREE
| WT_IPC_CONNECTION_PENDING_CONNECT
| WT_IPC_CONNECTION_CONNECTING
| WT_IPC_CONNECTION_IDLE
| WT_IPC_CONNECTION_PENDING_REQUEST
| WT_IPC_CONNECTION_ACTIVE
| WT_IPC_CONNECTION_DISCONNECTING
| WT_IPC_CONNECTION_ERROR
| WT_IPC_CONNECTION_TERMINAL.

#[export] Instance connection_state_eq_dec : EqDecision wt_ipc_connection_state.
Proof. solve_decision. Defined.

Inductive wt_ipc_connection_event :=
| WT_IPC_EVENT_CONNECT_ACCEPT
| WT_IPC_EVENT_CONNECT_COMPLETE
| WT_IPC_EVENT_REQUEST
| WT_IPC_EVENT_REQUEST_ACTIVE
| WT_IPC_EVENT_REPLY
| WT_IPC_EVENT_CLOSE
| WT_IPC_EVENT_CLOSE_COMPLETE
| WT_IPC_EVENT_FAIL
| WT_IPC_EVENT_ABORT.

Definition WT_IPC_HANDLE_NONE : Z := 0.
Definition WT_IPC_HANDLE_CONNECTION : Z := 1.
Definition WT_IPC_HANDLE_MESSAGE : Z := 2.

Definition WT_IPC_VALID : Z := 0.
Definition WT_IPC_ERROR_ARGUMENT : Z := -300.
Definition WT_IPC_ERROR_HANDLE : Z := -301.
Definition WT_IPC_ERROR_OWNER : Z := -302.
Definition WT_IPC_ERROR_STATE : Z := -303.
Definition WT_IPC_ERROR_POLICY : Z := -304.
Definition WT_IPC_ERROR_VECTOR_COUNT : Z := -305.
Definition WT_IPC_ERROR_VECTOR_ADDRESS : Z := -306.
Definition WT_IPC_ERROR_VECTOR_OVERFLOW : Z := -307.
Definition WT_IPC_ERROR_VECTOR_LIMIT : Z := -308.

Record wt_ipc_handle := {
  h_value : Z;
  h_generation : Z;
  h_owner_id : Z;
  h_type : Z;
}.

#[export] Instance handle_eq_dec : EqDecision wt_ipc_handle.
Proof. solve_decision. Defined.

Record wt_ipc_connection := {
  ic_state : wt_ipc_connection_state;
  ic_handle : wt_ipc_handle;
  ic_service_sid : Z;
  ic_service_version : Z;
  ic_owner_id : Z;
  ic_stateless : bool;
}.

#[export] Instance eta_connection : Settable wt_ipc_connection := λ r,
  Build_wt_ipc_connection (ic_state r) (ic_handle r) (ic_service_sid r) (ic_service_version r)
    (ic_owner_id r) (ic_stateless r).
#[export] Instance set_ic_state : Setter ic_state := ltac:(derive_setter).

Definition handle_zero : wt_ipc_handle :=
  {| h_value := 0; h_generation := 0; h_owner_id := 0; h_type := 0 |}.
Definition connection_zero : wt_ipc_connection :=
  {| ic_state := WT_IPC_CONNECTION_FREE; ic_handle := handle_zero; ic_service_sid := 0;
     ic_service_version := 0; ic_owner_id := 0; ic_stateless := false |}.

(** ** Handles *)

(** The result code and the handle written on success. *)
Definition wt_ipc_handle_create (value generation owner_id type : Z) : Z * option wt_ipc_handle :=
  if (value =? 0) || (generation =? 0) || (owner_id =? 0) ||
     (u32 type >? WT_IPC_HANDLE_MESSAGE) || (type =? WT_IPC_HANDLE_NONE)
  then (WT_IPC_ERROR_HANDLE, None)
  else (WT_IPC_VALID, Some {| h_value := value; h_generation := generation;
                              h_owner_id := owner_id; h_type := type |}).

Definition handle_malformed (h : wt_ipc_handle) : bool :=
  (h_value h =? 0) || (h_generation h =? 0) || (h_owner_id h =? 0) ||
  (h_type h =? WT_IPC_HANDLE_NONE) || (u32 (h_type h) >? WT_IPC_HANDLE_MESSAGE).

(** The [memcmp] compares four 32-bit fields with no padding. *)
Definition wt_ipc_handle_matches (expected presented : wt_ipc_handle) : Z :=
  if handle_malformed expected || handle_malformed presented then WT_IPC_ERROR_HANDLE
  else if negb (bool_decide (expected = presented)) then WT_IPC_ERROR_HANDLE
  else WT_IPC_VALID.

(** ** Connections *)

(** The result code and the connection after the call. *)
Definition wt_ipc_connection_open (connection : wt_ipc_connection) (handle : wt_ipc_handle)
    (owner_id service_sid service_version : Z) (stateless : bool) : Z * wt_ipc_connection :=
  if (owner_id =? 0) || (service_sid =? 0) || (service_version =? 0) ||
     negb (h_type handle =? WT_IPC_HANDLE_CONNECTION) || negb (h_owner_id handle =? owner_id) ||
     negb (wt_ipc_handle_matches handle handle =? WT_IPC_VALID)
  then (WT_IPC_ERROR_ARGUMENT, connection)
  else (WT_IPC_VALID,
        {| ic_state := if stateless then WT_IPC_CONNECTION_IDLE else WT_IPC_CONNECTION_PENDING_CONNECT;
           ic_handle := handle; ic_service_sid := service_sid; ic_service_version := service_version;
           ic_owner_id := owner_id; ic_stateless := stateless |}).

Definition state_is (c : wt_ipc_connection) (s : wt_ipc_connection_state) : bool :=
  bool_decide (ic_state c = s).

(** The [switch]: the connection after the event, or [None] for
    [WT_IPC_ERROR_STATE]. *)
Definition connection_event (c : wt_ipc_connection) (event : wt_ipc_connection_event) : option wt_ipc_connection :=
  match event with
  | WT_IPC_EVENT_CONNECT_ACCEPT =>
    if ic_stateless c || negb (state_is c WT_IPC_CONNECTION_PENDING_CONNECT) then None
    else Some (c <| ic_state := WT_IPC_CONNECTION_CONNECTING |>)
  | WT_IPC_EVENT_CONNECT_COMPLETE =>
    if ic_stateless c || negb (state_is c WT_IPC_CONNECTION_CONNECTING) then None
    else Some (c <| ic_state := WT_IPC_CONNECTION_IDLE |>)
  | WT_IPC_EVENT_REQUEST =>
    if negb (state_is c WT_IPC_CONNECTION_IDLE) then None
    else Some (c <| ic_state := WT_IPC_CONNECTION_PENDING_REQUEST |>)
  | WT_IPC_EVENT_REQUEST_ACTIVE =>
    if negb (state_is c WT_IPC_CONNECTION_PENDING_REQUEST) then None
    else Some (c <| ic_state := WT_IPC_CONNECTION_ACTIVE |>)
  | WT_IPC_EVENT_REPLY =>
    if negb (state_is c WT_IPC_CONNECTION_ACTIVE) then None
    else Some (c <| ic_state := WT_IPC_CONNECTION_IDLE |>)
  | WT_IPC_EVENT_CLOSE =>
    if ic_stateless c || negb (state_is c WT_IPC_CONNECTION_IDLE) then None
    else Some (c <| ic_state := WT_IPC_CONNECTION_DISCONNECTING |>)
  | WT_IPC_EVENT_CLOSE_COMPLETE =>
    if negb (state_is c WT_IPC_CONNECTION_DISCONNECTING) then None else Some connection_zero
  | WT_IPC_EVENT_FAIL =>
    if state_is c WT_IPC_CONNECTION_FREE || state_is c WT_IPC_CONNECTION_TERMINAL then None
    else Some (c <| ic_state := WT_IPC_CONNECTION_ERROR |>)
  | WT_IPC_EVENT_ABORT =>
    if state_is c WT_IPC_CONNECTION_FREE || state_is c WT_IPC_CONNECTION_TERMINAL then None
    else Some (c <| ic_state := WT_IPC_CONNECTION_TERMINAL |>)
  end.

Definition wt_ipc_connection_transition (c : wt_ipc_connection) (caller_id : Z) (handle : wt_ipc_handle)
    (event : wt_ipc_connection_event) : Z * wt_ipc_connection :=
  if caller_id =? 0 then (WT_IPC_ERROR_ARGUMENT, c)
  else if negb (caller_id =? ic_owner_id c) then (WT_IPC_ERROR_OWNER, c)
  else if negb (wt_ipc_handle_matches (ic_handle c) handle =? WT_IPC_VALID) then (WT_IPC_ERROR_HANDLE, c)
  else match connection_event c event with
       | None => (WT_IPC_ERROR_STATE, c)
       | Some c' => (WT_IPC_VALID, c')
       end.

(** ** Vectors *)

Record wt_ipc_vector := { v_base : Z; v_length : Z }.

(** The result code and [*total_length] after the loop. *)
Fixpoint validate_vector_loop (vectors : list wt_ipc_vector) (total : Z) : Z * Z :=
  match vectors with
  | [] => (WT_IPC_VALID, total)
  | v :: rest =>
    if negb (v_length v =? 0) && (v_base v =? 0) then (WT_IPC_ERROR_VECTOR_ADDRESS, total)
    else if v_length v >? UINTPTR_MAX - v_base v then (WT_IPC_ERROR_VECTOR_OVERFLOW, total)
    else if v_length v >? SIZE_MAX - total then (WT_IPC_ERROR_VECTOR_OVERFLOW, total)
    else validate_vector_loop rest (total + v_length v)
  end.

Definition wt_ipc_validate_vector_list (vectors : carray wt_ipc_vector) (total : Z) : Z * Z :=
  if negb (count vectors =? 0)%nat && is_null vectors then (WT_IPC_ERROR_ARGUMENT, total)
  else validate_vector_loop (items vectors) total.

(** The result code and [*total_length], written on success only. *)
Definition wt_ipc_validate_vectors (inputs outputs : carray wt_ipc_vector) (total_limit : Z) : Z * option Z :=
  let input_count := Z.of_nat (count inputs) in
  let output_count := Z.of_nat (count outputs) in
  if (input_count >? WT_IPC_MAX_VECTORS) || (output_count >? WT_IPC_MAX_VECTORS) ||
     (input_count >? WT_IPC_MAX_VECTORS - output_count) then (WT_IPC_ERROR_VECTOR_COUNT, None)
  else
    let '(result, total) := wt_ipc_validate_vector_list inputs 0 in
    if negb (result =? WT_IPC_VALID) then (result, None) else
    let '(result, total) := wt_ipc_validate_vector_list outputs total in
    if negb (result =? WT_IPC_VALID) then (result, None) else
    if negb (total_limit =? 0) && (total >? total_limit) then (WT_IPC_ERROR_VECTOR_LIMIT, None)
    else (WT_IPC_VALID, Some total).

(** ** The connection state machine *)

(** The FF-M connection life cycle as a relation; [stateless] connections
    are never connected or closed. *)
Inductive legal (stateless : bool) :
    wt_ipc_connection_state → wt_ipc_connection_event → wt_ipc_connection_state → Prop :=
| legal_accept : stateless = false →
    legal stateless WT_IPC_CONNECTION_PENDING_CONNECT WT_IPC_EVENT_CONNECT_ACCEPT WT_IPC_CONNECTION_CONNECTING
| legal_complete : stateless = false →
    legal stateless WT_IPC_CONNECTION_CONNECTING WT_IPC_EVENT_CONNECT_COMPLETE WT_IPC_CONNECTION_IDLE
| legal_request :
    legal stateless WT_IPC_CONNECTION_IDLE WT_IPC_EVENT_REQUEST WT_IPC_CONNECTION_PENDING_REQUEST
| legal_active :
    legal stateless WT_IPC_CONNECTION_PENDING_REQUEST WT_IPC_EVENT_REQUEST_ACTIVE WT_IPC_CONNECTION_ACTIVE
| legal_reply :
    legal stateless WT_IPC_CONNECTION_ACTIVE WT_IPC_EVENT_REPLY WT_IPC_CONNECTION_IDLE
| legal_close : stateless = false →
    legal stateless WT_IPC_CONNECTION_IDLE WT_IPC_EVENT_CLOSE WT_IPC_CONNECTION_DISCONNECTING
| legal_closed :
    legal stateless WT_IPC_CONNECTION_DISCONNECTING WT_IPC_EVENT_CLOSE_COMPLETE WT_IPC_CONNECTION_FREE
| legal_fail s : s ≠ WT_IPC_CONNECTION_FREE → s ≠ WT_IPC_CONNECTION_TERMINAL →
    legal stateless s WT_IPC_EVENT_FAIL WT_IPC_CONNECTION_ERROR
| legal_abort s : s ≠ WT_IPC_CONNECTION_FREE → s ≠ WT_IPC_CONNECTION_TERMINAL →
    legal stateless s WT_IPC_EVENT_ABORT WT_IPC_CONNECTION_TERMINAL.

#[export] Hint Constructors legal : wt.

Lemma connection_event_legal c e :
  match connection_event c e with
  | Some c' => legal (ic_stateless c) (ic_state c) e (ic_state c') ∧
      (c' = c <| ic_state := ic_state c' |> ∨ c' = connection_zero ∧ e = WT_IPC_EVENT_CLOSE_COMPLETE)
  | None => ∀ s', ¬ legal (ic_stateless c) (ic_state c) e s'
  end.
Proof.
  destruct c as [s h sid ver own st]. unfold connection_event, state_is; simpl.
  destruct e, s, st; simpl; try (split; [constructor; done|auto]); intros s' H; inversion H; congruence.
Qed.

Lemma handle_matches_valid expected presented :
  wt_ipc_handle_matches expected presented = WT_IPC_VALID ↔
  expected = presented ∧ handle_malformed expected = false.
Proof.
  unfold wt_ipc_handle_matches. destruct (handle_malformed expected) eqn:E1, (handle_malformed presented) eqn:E2;
    simpl; try (split; [done|intros []; congruence]).
  case_bool_decide; simpl; split; [done..|by intros []].
Qed.

(** Connection state machine. A transition is accepted exactly when the
    caller owns the connection, presents its well-formed handle and the event
    is legal in the current state; then the state moves along the relation and
    nothing else changes (a completed close clears the slot). Every refusal
    returns an error and leaves the connection as it was. *)
Theorem connection_transition_refines c caller h e :
  let '(ret, c') := wt_ipc_connection_transition c caller h e in
  (ret = WT_IPC_VALID ↔
     caller ≠ 0 ∧ caller = ic_owner_id c ∧ h = ic_handle c ∧ handle_malformed h = false ∧
     ∃ s', legal (ic_stateless c) (ic_state c) e s') ∧
  (ret = WT_IPC_VALID → legal (ic_stateless c) (ic_state c) e (ic_state c') ∧
     (c' = c <| ic_state := ic_state c' |> ∨ c' = connection_zero ∧ e = WT_IPC_EVENT_CLOSE_COMPLETE)) ∧
  (ret ≠ WT_IPC_VALID → c' = c).
Proof.
  unfold wt_ipc_connection_transition.
  destruct (Z.eqb_spec caller 0); [split; [|done]; split; [done|]; by intros (? & _)|].
  destruct (Z.eqb_spec caller (ic_owner_id c)); simpl; [|split; [|done]; split; [done|]; by intros (_ & ? & _)].
  destruct (Z.eqb_spec (wt_ipc_handle_matches (ic_handle c) h) WT_IPC_VALID) as [Hm|Hm]; simpl;
    rewrite handle_matches_valid in Hm.
  - destruct Hm as [<- Hw]. pose proof (connection_event_legal c e) as He.
    destruct (connection_event c e) as [c'|].
    + destruct He as [Hl Hc]. split_and!; [|done|done]. split; [eauto 10|done].
    + split_and!; [|done|done]. split; [done|]. intros (_ & _ & _ & _ & s' & Hs). by destruct (He s').
  - split; [|done]. split; [done|]. intros (_ & _ & -> & ? & _). by destruct Hm.
Qed.

(** ** Vector validation *)

Definition vector_typed (v : wt_ipc_vector) : Prop :=
  0 ≤ v_base v ≤ UINTPTR_MAX ∧ 0 ≤ v_length v ≤ SIZE_MAX.

(** The vector is non-null unless empty and does not wrap the address space. *)
Definition vector_ok (v : wt_ipc_vector) : Prop :=
  (v_length v ≠ 0 → v_base v ≠ 0) ∧ v_base v + v_length v ≤ UINTPTR_MAX.

Definition vector_sum (l : list wt_ipc_vector) : Z := foldr (λ v n, v_length v + n) 0 l.

Lemma vector_sum_app l1 l2 : vector_sum (l1 ++ l2) = vector_sum l1 + vector_sum l2.
Proof. induction l1 as [|v l1 IH]; simpl; [done|]. rewrite IH. lia. Qed.

Lemma vector_sum_nonneg l : Forall vector_typed l → 0 ≤ vector_sum l.
Proof. induction 1 as [|v l [_ Hl] _ IH]; simpl; lia. Qed.

Lemma validate_vector_loop_spec l total :
  Forall vector_typed l → 0 ≤ total →
  let '(ret, total') := validate_vector_loop l total in
  (ret = WT_IPC_VALID ↔ Forall vector_ok l ∧ (l = [] ∨ total + vector_sum l ≤ SIZE_MAX)) ∧
  (ret = WT_IPC_VALID → total' = total + vector_sum l).
Proof.
  intros Ht. revert total. induction Ht as [|v l [Hb Hl] Ht IH]; intros total H0; simpl.
  { split; [|lia]. split; auto. }
  pose proof (vector_sum_nonneg l Ht) as Hsum. rewrite !Z.gtb_ltb.
  destruct (negb _ && _) eqn:Ea.
  { bool_hyps. split; [|done]. split; [done|]. rewrite Forall_cons. intros [[[Hv _] _] _]. by destruct Hv. }
  destruct (Z.ltb_spec (UINTPTR_MAX - v_base v) (v_length v)).
  { split; [|done]. split; [done|]. rewrite Forall_cons. intros [[[_ Hv] _] _]. lia. }
  destruct (Z.ltb_spec (SIZE_MAX - total) (v_length v)).
  { split; [|done]. split; [done|]. intros [_ [|]]; [done|lia]. }
  specialize (IH (total + v_length v) ltac:(lia)).
  destruct (validate_vector_loop l (total + v_length v)) as [ret total'].
  destruct IH as [IH1 IH2]. split; [|intros Hr; rewrite (IH2 Hr); lia].
  rewrite IH1, Forall_cons. split.
  - intros [Hok Hs]. split_and!; [|done|destruct Hs as [->|]; right; simpl; lia].
    split; [|lia]. intros Hn Hz. apply Z.eqb_neq in Hn. apply Z.eqb_eq in Hz. by rewrite Hn, Hz in Ea.
  - intros [[_ Hok] [?|?]]; [done|split; [done|right; lia]].
Qed.

Lemma validate_vector_list_spec a total :
  Forall vector_typed (items a) → 0 ≤ total ≤ SIZE_MAX →
  let '(ret, total') := wt_ipc_validate_vector_list a total in
  (ret = WT_IPC_VALID ↔ (count a = 0%nat ∨ is_null a = false) ∧ Forall vector_ok (items a) ∧
     total + vector_sum (items a) ≤ SIZE_MAX) ∧
  (ret = WT_IPC_VALID → total' = total + vector_sum (items a)).
Proof.
  intros Ht Htot. unfold wt_ipc_validate_vector_list. destruct (negb _ && _) eqn:E.
  { split; [|done]. split; [done|]. bool_hyps. intros [[?|?] _]; congruence. }
  apply andb_false_iff in E. rewrite negb_false_iff, Nat.eqb_eq in E.
  pose proof (validate_vector_loop_spec (items a) total Ht ltac:(lia)) as Hl.
  destruct (validate_vector_loop _ _) as [ret total']. destruct Hl as [Hl1 Hl2].
  split; [|done]. rewrite Hl1. split.
  - intros [Hok [Hn|?]]; [|done]. rewrite Hn. split_and!; [done..|simpl; lia].
  - intros (_ & Hok & ?). auto.
Qed.

Lemma validate_vectors_spec inputs outputs limit total :
  Forall vector_typed (items inputs) → Forall vector_typed (items outputs) →
  wt_ipc_validate_vectors inputs outputs limit = (WT_IPC_VALID, Some total) ↔
  Z.of_nat (count inputs) + Z.of_nat (count outputs) ≤ WT_IPC_MAX_VECTORS ∧
  (count inputs = 0%nat ∨ is_null inputs = false) ∧ (count outputs = 0%nat ∨ is_null outputs = false) ∧
  Forall vector_ok (items inputs ++ items outputs) ∧
  total = vector_sum (items inputs ++ items outputs) ∧ total ≤ SIZE_MAX ∧
  (limit = 0 ∨ total ≤ limit).
Proof.
  intros Hti Hto. unfold wt_ipc_validate_vectors. rewrite vector_sum_app, Forall_app.
  pose proof (vector_sum_nonneg _ Hti) as Hsi. pose proof (vector_sum_nonneg _ Hto) as Hso.
  destruct (_ || _ || _) eqn:Ec; rewrite ?Z.gtb_ltb in Ec.
  { rewrite !orb_true_iff, !Z.ltb_lt in Ec. unfold WT_IPC_MAX_VECTORS in *. split; [done|lia]. }
  bool_hyps. pose proof (validate_vector_list_spec inputs 0 Hti) as Hi.
  destruct (wt_ipc_validate_vector_list inputs 0) as [ri ti].
  destruct Hi as [Hi1 Hi2]; [unfold SIZE_MAX; lia|].
  destruct (Z.eqb_spec ri WT_IPC_VALID) as [Er|Er]; simpl.
  2: { split; [intros [= ? ?]; done|]. intros (_ & ? & _ & [? _] & -> & ? & _).
       exfalso. apply Er, Hi1. split_and!; [done..|lia]. }
  destruct (proj1 Hi1 Er) as (Hni & Hoki & Hmi). rewrite (Hi2 Er).
  pose proof (validate_vector_list_spec outputs (0 + vector_sum (items inputs)) Hto) as Ho.
  destruct (wt_ipc_validate_vector_list outputs _) as [ro to].
  destruct Ho as [Ho1 Ho2]; [lia|].
  destruct (Z.eqb_spec ro WT_IPC_VALID) as [Er'|Er']; simpl.
  2: { split; [intros [= ? ?]; done|]. intros (_ & _ & ? & [_ ?] & -> & ? & _).
       exfalso. apply Er', Ho1. split_and!; [done..|lia]. }
  destruct (proj1 Ho1 Er') as (Hno & Hoko & Hmo). rewrite (Ho2 Er'). rewrite Z.gtb_ltb.
  destruct (negb _ && _) eqn:El.
  - bool_hyps. split; [done|]. intros (_ & _ & _ & _ & -> & _ & ?). lia.
  - apply andb_false_iff in El. rewrite negb_false_iff, Z.eqb_eq, Z.ltb_ge in El.
    split; [intros [= <-]; split_and!; try done; lia|]. intros (_ & _ & _ & _ & -> & _). f_equal.
Qed.

(** The total is written whenever the check succeeds. *)
Lemma validate_vectors_written inputs outputs limit ret written :
  wt_ipc_validate_vectors inputs outputs limit = (ret, written) → ret = WT_IPC_VALID → ∃ total, written = Some total.
Proof.
  unfold wt_ipc_validate_vectors. destruct (_ || _ || _); [by intros [= <- <-]|].
  destruct (wt_ipc_validate_vector_list inputs 0) as [r t].
  destruct (Z.eqb_spec r WT_IPC_VALID); simpl; [|by intros [= <- <-]].
  destruct (wt_ipc_validate_vector_list outputs t) as [r' t'].
  destruct (Z.eqb_spec r' WT_IPC_VALID); simpl; [|by intros [= <- <-]].
  destruct (_ && _); intros [= <- <-]; [done|eauto].
Qed.

(** Vector validation. For vectors typed by their C fields, the check
    succeeds exactly when the combined count is at most [WT_IPC_MAX_VECTORS],
    no array pointer is null, every vector is non-null and does not wrap the
    address space, and the total length does not overflow [size_t] or exceed
    the limit; the total it reports is the sum of the lengths. *)
Theorem validate_vectors_iff inputs outputs limit total :
  Forall vector_typed (items inputs) → Forall vector_typed (items outputs) →
  wt_ipc_validate_vectors inputs outputs limit = (WT_IPC_VALID, Some total) ↔
  Z.of_nat (count inputs) + Z.of_nat (count outputs) ≤ WT_IPC_MAX_VECTORS ∧
  (count inputs = 0%nat ∨ is_null inputs = false) ∧ (count outputs = 0%nat ∨ is_null outputs = false) ∧
  Forall vector_ok (items inputs ++ items outputs) ∧
  total = vector_sum (items inputs ++ items outputs) ∧ total ≤ SIZE_MAX ∧
  (limit = 0 ∨ total ≤ limit).
Proof. apply validate_vectors_spec. Qed.

Lemma validate_vectors_iff_witness :
  wt_ipc_validate_vectors (Arr [{| v_base := 0x20000000; v_length := 16 |}])
    (Arr [{| v_base := 0x20000100; v_length := 8 |}]) 1024 = (WT_IPC_VALID, Some 24).
Proof.
  apply (validate_vectors_iff (Arr [{| v_base := 0x20000000; v_length := 16 |}])
    (Arr [{| v_base := 0x20000100; v_length := 8 |}]) 1024 24).
  - repeat constructor; vm_compute; discriminate.
  - repeat constructor; vm_compute; discriminate.
  - split; [by vm_compute|]. split; [by right|]. split; [by right|].
    split; [repeat constructor; vm_compute; discriminate|]. split; [reflexivity|].
    split; [by vm_compute|]. right. by vm_compute.
Defined.
