(* ===== verification/FfmTypes.v ===== *)
(** * FF-M runtime data: [include/wolftrust/ffm.h], [include/psa/*.h]

    The runtime is one static object; its fixed arrays are lists. A [uint16_t]
    index is a [nat] and [WT_FFM_QUEUE_NONE] is [None]; flags are booleans; a
    null manifest or descriptor pointer is [None]. The [world] adds what the
    runtime reads and writes outside its own structure: the clients' memory,
    the port's private state and the trace words of [ffm.c]. *)

From Stdlib Require Import ZArith Lia.
From stdpp Require Import base list numbers option sets.
From S2P Require Import Prelude Buffers CState Manifest Ipc.

(** ** Constants *)

Definition PSA_FRAMEWORK_VERSION : Z := 0x0100.
Definition PSA_VERSION_NONE : Z := 0.
Definition PSA_NULL_HANDLE : Z := 0.
Definition PSA_MAX_IOVEC : nat := 4.
Definition PSA_IPC_CALL : Z := 0.
Definition PSA_IPC_CONNECT : Z := -1.
Definition PSA_IPC_DISCONNECT : Z := -2.
Definition PSA_DOORBELL : Z := 0x8.

Definition PSA_SUCCESS : Z := 0.
Definition PSA_ERROR_PROGRAMMER_ERROR : Z := -129.
Definition PSA_ERROR_CONNECTION_REFUSED : Z := -130.
Definition PSA_ERROR_CONNECTION_BUSY : Z := -131.
Definition PSA_ERROR_GENERIC_ERROR : Z := -132.
Definition PSA_ERROR_NOT_SUPPORTED : Z := -134.
Definition PSA_ERROR_INVALID_ARGUMENT : Z := -135.
Definition PSA_ERROR_DOES_NOT_EXIST : Z := -140.
Definition PSA_ERROR_INSUFFICIENT_MEMORY : Z := -141.

Definition WT_FFM_MAX_PARTITIONS : nat := 9.
Definition WT_FFM_MAX_SERVICES : nat := 20.
Definition WT_FFM_MAX_CONNECTIONS : nat := 16.
Definition WT_FFM_MAX_CONNECTIONS_PER_CLIENT : nat := Nat.div WT_FFM_MAX_CONNECTIONS 2.
Definition WT_FFM_SECURE_RESERVED_CONNECTIONS : nat := 4.
Definition WT_FFM_MAX_NS_CONNECTIONS : nat :=
  WT_FFM_MAX_CONNECTIONS - WT_FFM_SECURE_RESERVED_CONNECTIONS.
Definition WT_FFM_MAX_MESSAGES : nat := 8.
Definition WT_FFM_TRANSFER_BYTES : Z := 1024.

Definition WT_FFM_SUCCESS : Z := 0.
Definition WT_FFM_ERROR_ARGUMENT : Z := -600.
Definition WT_FFM_ERROR_MANIFEST : Z := -601.
Definition WT_FFM_ERROR_POLICY : Z := -602.
Definition WT_FFM_ERROR_RESOURCE : Z := -603.
Definition WT_FFM_ERROR_HANDLE : Z := -604.
Definition WT_FFM_ERROR_STATE : Z := -605.
Definition WT_FFM_ERROR_NOT_READY : Z := -606.
Definition WT_FFM_ERROR_BUFFER : Z := -607.

Definition WT_FFM_HANDLE_INDEX_MASK : Z := 0x1F.
Definition WT_FFM_HANDLE_TYPE_SHIFT : Z := 5.
Definition WT_FFM_HANDLE_TYPE_MASK : Z := 0x3.
Definition WT_FFM_HANDLE_GEN_SHIFT : Z := 7.
Definition WT_FFM_HANDLE_GEN_MASK : Z := 0x00FFFFFF.
Definition WT_FFM_HANDLE_CONNECTION : Z := 1.
Definition WT_FFM_HANDLE_MESSAGE : Z := 2.

(** ** Structures *)

Record psa_invec := { iv_base : Z; iv_len : Z }.
Record psa_outvec := { ov_base : Z; ov_len : Z }.

Record psa_msg := {
  pm_type : Z;
  pm_handle : Z;
  pm_client_id : Z;
  pm_rhandle : Z;
  pm_in_size : list Z;
  pm_out_size : list Z;
}.

(** A dispatch function pointer and its context are opaque addresses. *)
Record wt_ffm_partition_runtime := {
  p_manifest : option wt_partition_manifest;
  p_dispatch : option Z;
  p_dispatch_context : Z;
  p_asserted_signals : Z;
  p_instance : Z;
  p_initialized : bool;
}.

Record wt_ffm_service_runtime := {
  s_descriptor : option wt_service_descriptor;
  s_partition_index : nat;
  s_queue_head : option nat;
  s_queue_tail : option nat;
}.

Record wt_ffm_connection_runtime := {
  c_state : wt_ipc_connection_state;
  c_caller : Z;
  c_generation : Z;
  c_client_instance : Z;
  c_rhandle : Z;
  c_service_index : nat;
  c_allocated : bool;
  c_error_latch : bool;
}.

(** The [abandoned] byte: 0, [WT_FFM_ABANDONED_REPLY] or [WT_FFM_ABANDONED_CLOSE]. *)
Inductive wt_ffm_abandoned :=
| WT_FFM_ABANDONED_NONE
| WT_FFM_ABANDONED_REPLY
| WT_FFM_ABANDONED_CLOSE.

#[export] Instance abandoned_eq_dec : EqDecision wt_ffm_abandoned.
Proof. solve_decision. Defined.

Definition is_abandoned (a : wt_ffm_abandoned) : bool :=
  match a with WT_FFM_ABANDONED_NONE => false | _ => true end.

Record wt_ffm_message_runtime := {
  m_caller : Z;
  m_reply_status : Z;
  m_generation : Z;
  m_connection_index : nat;
  m_service_index : nat;
  m_next : option nat;
  m_type : Z;
  m_in_count : nat;
  m_out_count : nat;
  m_in_size : list Z;
  m_out_size : list Z;
  m_in_offset : list Z;
  m_out_offset : list Z;
  m_in_position : list Z;
  m_out_position : list Z;
  m_client_output : list Z;
  m_input : list Z;
  m_output : list Z;
  m_allocated : bool;
  m_active : bool;
  m_complete : bool;
  m_abandoned : wt_ffm_abandoned;
}.

Record wt_ffm_runtime := {
  r_manifest : option wt_system_manifest;
  r_partitions : list wt_ffm_partition_runtime;
  r_services : list wt_ffm_service_runtime;
  r_connections : list wt_ffm_connection_runtime;
  r_messages : list wt_ffm_message_runtime;
  r_partition_count : nat;
  r_service_count : nat;
  r_lifecycle : Z;
}.

(** [port] is the object [port_context] points to, opaque to the runtime. *)
Record world := {
  rt : wt_ffm_runtime;
  memory : Z → Z;
  port : Z;
  g_wt_ffm_refuse_info : Z;
  g_wt_ffm_refuse_base : Z;
  g_wt_ffm_call_trace : Z;
}.

#[export] Instance eta_outvec : Settable psa_outvec := λ r, Build_psa_outvec (ov_base r) (ov_len r).
#[export] Instance set_ov_len : Setter ov_len := ltac:(derive_setter).

#[export] Instance eta_partition : Settable wt_ffm_partition_runtime := λ r,
  Build_wt_ffm_partition_runtime (p_manifest r) (p_dispatch r) (p_dispatch_context r)
    (p_asserted_signals r) (p_instance r) (p_initialized r).
#[export] Instance set_p_manifest : Setter p_manifest := ltac:(derive_setter).
#[export] Instance set_p_dispatch : Setter p_dispatch := ltac:(derive_setter).
#[export] Instance set_p_dispatch_context : Setter p_dispatch_context := ltac:(derive_setter).
#[export] Instance set_p_asserted_signals : Setter p_asserted_signals := ltac:(derive_setter).
#[export] Instance set_p_instance : Setter p_instance := ltac:(derive_setter).

#[export] Instance eta_service : Settable wt_ffm_service_runtime := λ r,
  Build_wt_ffm_service_runtime (s_descriptor r) (s_partition_index r) (s_queue_head r) (s_queue_tail r).
#[export] Instance set_s_queue_head : Setter s_queue_head := ltac:(derive_setter).
#[export] Instance set_s_queue_tail : Setter s_queue_tail := ltac:(derive_setter).

#[export] Instance eta_ffm_connection : Settable wt_ffm_connection_runtime := λ r,
  Build_wt_ffm_connection_runtime (c_state r) (c_caller r) (c_generation r) (c_client_instance r)
    (c_rhandle r) (c_service_index r) (c_allocated r) (c_error_latch r).
#[export] Instance set_c_state : Setter c_state := ltac:(derive_setter).
#[export] Instance set_c_caller : Setter c_caller := ltac:(derive_setter).
#[export] Instance set_c_generation : Setter c_generation := ltac:(derive_setter).
#[export] Instance set_c_client_instance : Setter c_client_instance := ltac:(derive_setter).
#[export] Instance set_c_rhandle : Setter c_rhandle := ltac:(derive_setter).
#[export] Instance set_c_service_index : Setter c_service_index := ltac:(derive_setter).
#[export] Instance set_c_allocated : Setter c_allocated := ltac:(derive_setter).
#[export] Instance set_c_error_latch : Setter c_error_latch := ltac:(derive_setter).

#[export] Instance eta_message : Settable wt_ffm_message_runtime := λ r,
  Build_wt_ffm_message_runtime (m_caller r) (m_reply_status r) (m_generation r) (m_connection_index r)
    (m_service_index r) (m_next r) (m_type r) (m_in_count r) (m_out_count r) (m_in_size r) (m_out_size r)
    (m_in_offset r) (m_out_offset r) (m_in_position r) (m_out_position r) (m_client_output r)
    (m_input r) (m_output r) (m_allocated r) (m_active r) (m_complete r) (m_abandoned r).
#[export] Instance set_m_caller : Setter m_caller := ltac:(derive_setter).
#[export] Instance set_m_reply_status : Setter m_reply_status := ltac:(derive_setter).
#[export] Instance set_m_generation : Setter m_generation := ltac:(derive_setter).
#[export] Instance set_m_connection_index : Setter m_connection_index := ltac:(derive_setter).
#[export] Instance set_m_service_index : Setter m_service_index := ltac:(derive_setter).
#[export] Instance set_m_next : Setter m_next := ltac:(derive_setter).
#[export] Instance set_m_type : Setter m_type := ltac:(derive_setter).
#[export] Instance set_m_in_count : Setter m_in_count := ltac:(derive_setter).
#[export] Instance set_m_out_count : Setter m_out_count := ltac:(derive_setter).
#[export] Instance set_m_in_size : Setter m_in_size := ltac:(derive_setter).
#[export] Instance set_m_out_size : Setter m_out_size := ltac:(derive_setter).
#[export] Instance set_m_in_offset : Setter m_in_offset := ltac:(derive_setter).
#[export] Instance set_m_out_offset : Setter m_out_offset := ltac:(derive_setter).
#[export] Instance set_m_in_position : Setter m_in_position := ltac:(derive_setter).
#[export] Instance set_m_out_position : Setter m_out_position := ltac:(derive_setter).
#[export] Instance set_m_client_output : Setter m_client_output := ltac:(derive_setter).
#[export] Instance set_m_input : Setter m_input := ltac:(derive_setter).
#[export] Instance set_m_output : Setter m_output := ltac:(derive_setter).
#[export] Instance set_m_allocated : Setter m_allocated := ltac:(derive_setter).
#[export] Instance set_m_active : Setter m_active := ltac:(derive_setter).
#[export] Instance set_m_complete : Setter m_complete := ltac:(derive_setter).
#[export] Instance set_m_abandoned : Setter m_abandoned := ltac:(derive_setter).

#[export] Instance eta_runtime : Settable wt_ffm_runtime := λ r,
  Build_wt_ffm_runtime (r_manifest r) (r_partitions r) (r_services r) (r_connections r) (r_messages r)
    (r_partition_count r) (r_service_count r) (r_lifecycle r).
#[export] Instance set_r_partitions : Setter r_partitions := ltac:(derive_setter).
#[export] Instance set_r_services : Setter r_services := ltac:(derive_setter).
#[export] Instance set_r_connections : Setter r_connections := ltac:(derive_setter).
#[export] Instance set_r_messages : Setter r_messages := ltac:(derive_setter).
#[export] Instance set_r_lifecycle : Setter r_lifecycle := ltac:(derive_setter).

#[export] Instance eta_world : Settable world := λ r,
  Build_world (rt r) (memory r) (port r) (g_wt_ffm_refuse_info r) (g_wt_ffm_refuse_base r) (g_wt_ffm_call_trace r).
#[export] Instance set_rt : Setter rt := ltac:(derive_setter).
#[export] Instance set_memory : Setter memory := ltac:(derive_setter).
#[export] Instance set_port : Setter port := ltac:(derive_setter).
#[export] Instance set_refuse_info : Setter g_wt_ffm_refuse_info := ltac:(derive_setter).
#[export] Instance set_refuse_base : Setter g_wt_ffm_refuse_base := ltac:(derive_setter).
#[export] Instance set_call_trace : Setter g_wt_ffm_call_trace := ltac:(derive_setter).

(** ** The port interface

    [wt_ffm_port_ops_t]: the memory access checks of the port, its dispatch
    entry and the functions behind the registered dispatch pointers. *)
Class PortOps := {
  check_read : Z → Z → Z → Z → bool;   (** port state, caller, address, size *)
  check_write : Z → Z → Z → Z → bool;
  port_dispatch : Z → world → world * Z;   (** partition id *)
  call_dispatch : Z → Z → Z → world → world * Z;   (** function, context, partition id *)
}.

(** ** Zero-filled slots ([memset(..., 0, ...)]) *)


Definition partition_zero : wt_ffm_partition_runtime :=
  {| p_manifest := None; p_dispatch := None; p_dispatch_context := 0; p_asserted_signals := 0;
     p_instance := 0; p_initialized := false |}.
Definition service_zero : wt_ffm_service_runtime :=
  {| s_descriptor := None; s_partition_index := 0; s_queue_head := Some 0%nat; s_queue_tail := Some 0%nat |}.
Definition connection_runtime_zero : wt_ffm_connection_runtime :=
  {| c_state := WT_IPC_CONNECTION_FREE; c_caller := 0; c_generation := 0; c_client_instance := 0;
     c_rhandle := 0; c_service_index := 0; c_allocated := false; c_error_latch := false |}.
Definition message_zero : wt_ffm_message_runtime :=
  {| m_caller := 0; m_reply_status := 0; m_generation := 0; m_connection_index := 0;
     m_service_index := 0; m_next := Some 0%nat; m_type := 0; m_in_count := 0; m_out_count := 0;
     m_in_size := zeros PSA_MAX_IOVEC; m_out_size := zeros PSA_MAX_IOVEC;
     m_in_offset := zeros PSA_MAX_IOVEC; m_out_offset := zeros PSA_MAX_IOVEC;
     m_in_position := zeros PSA_MAX_IOVEC; m_out_position := zeros PSA_MAX_IOVEC;
     m_client_output := zeros PSA_MAX_IOVEC;
     m_input := zeros (Z.to_nat WT_FFM_TRANSFER_BYTES); m_output := zeros (Z.to_nat WT_FFM_TRANSFER_BYTES);
     m_allocated := false; m_active := false; m_complete := false; m_abandoned := WT_FFM_ABANDONED_NONE |}.

(** ** Array access

    Each reads or updates one array element and is undefined out of range. *)

Section access.
Context {R : Type}.

Definition get_part (i : nat) : prog world R wt_ffm_partition_runtime :=
  λ w, (λ p, (w, inr p)) <$> r_partitions (rt w) !! i.
Definition get_svc (i : nat) : prog world R wt_ffm_service_runtime :=
  λ w, (λ s, (w, inr s)) <$> r_services (rt w) !! i.
Definition get_conn (i : nat) : prog world R wt_ffm_connection_runtime :=
  λ w, (λ c, (w, inr c)) <$> r_connections (rt w) !! i.
Definition get_msg (i : nat) : prog world R wt_ffm_message_runtime :=
  λ w, (λ m, (w, inr m)) <$> r_messages (rt w) !! i.

Definition put_part (i : nat) (p : wt_ffm_partition_runtime) (w : world) : world :=
  w <| rt := (rt w) <| r_partitions := <[i := p]> (r_partitions (rt w)) |> |>.
Definition put_svc (i : nat) (s : wt_ffm_service_runtime) (w : world) : world :=
  w <| rt := (rt w) <| r_services := <[i := s]> (r_services (rt w)) |> |>.
Definition put_conn (i : nat) (c : wt_ffm_connection_runtime) (w : world) : world :=
  w <| rt := (rt w) <| r_connections := <[i := c]> (r_connections (rt w)) |> |>.
Definition put_msg (i : nat) (m : wt_ffm_message_runtime) (w : world) : world :=
  w <| rt := (rt w) <| r_messages := <[i := m]> (r_messages (rt w)) |> |>.

Definition mod_part (i : nat) (f : wt_ffm_partition_runtime → wt_ffm_partition_runtime) : prog world R unit :=
  p ← get_part i; modify (put_part i (f p)).
Definition mod_svc (i : nat) (f : wt_ffm_service_runtime → wt_ffm_service_runtime) : prog world R unit :=
  s ← get_svc i; modify (put_svc i (f s)).
Definition mod_conn (i : nat) (f : wt_ffm_connection_runtime → wt_ffm_connection_runtime) : prog world R unit :=
  c ← get_conn i; modify (put_conn i (f c)).
Definition mod_msg (i : nat) (f : wt_ffm_message_runtime → wt_ffm_message_runtime) : prog world R unit :=
  m ← get_msg i; modify (put_msg i (f m)).
(** A message update that is itself undefined on some messages. *)
Definition try_msg (i : nat) (f : wt_ffm_message_runtime → option wt_ffm_message_runtime) : prog world R unit :=
  m ← get_msg i; m' ← defined (f m); modify (put_msg i m').

Lemma wp_get_part i p E (Q : _ → world → Prop) w :
  r_partitions (rt w) !! i = Some p → Q p w → wp (get_part i) E Q w.
Proof. unfold wp, get_part. by intros ->. Qed.
Lemma wp_get_svc i s E (Q : _ → world → Prop) w :
  r_services (rt w) !! i = Some s → Q s w → wp (get_svc i) E Q w.
Proof. unfold wp, get_svc. by intros ->. Qed.
Lemma wp_get_conn i c E (Q : _ → world → Prop) w :
  r_connections (rt w) !! i = Some c → Q c w → wp (get_conn i) E Q w.
Proof. unfold wp, get_conn. by intros ->. Qed.
Lemma wp_get_msg i m E (Q : _ → world → Prop) w :
  r_messages (rt w) !! i = Some m → Q m w → wp (get_msg i) E Q w.
Proof. unfold wp, get_msg. by intros ->. Qed.
Lemma wp_mod_part i p f E (Q : _ → world → Prop) w :
  r_partitions (rt w) !! i = Some p → Q tt (put_part i (f p) w) → wp (mod_part i f) E Q w.
Proof. intros Hi HQ. apply wp_bind. by eapply wp_get_part. Qed.
Lemma wp_mod_svc i s f E (Q : _ → world → Prop) w :
  r_services (rt w) !! i = Some s → Q tt (put_svc i (f s) w) → wp (mod_svc i f) E Q w.
Proof. intros Hi HQ. apply wp_bind. by eapply wp_get_svc. Qed.
Lemma wp_mod_conn i c f E (Q : _ → world → Prop) w :
  r_connections (rt w) !! i = Some c → Q tt (put_conn i (f c) w) → wp (mod_conn i f) E Q w.
Proof. intros Hi HQ. apply wp_bind. by eapply wp_get_conn. Qed.
Lemma wp_mod_msg i m f E (Q : _ → world → Prop) w :
  r_messages (rt w) !! i = Some m → Q tt (put_msg i (f m) w) → wp (mod_msg i f) E Q w.
Proof. intros Hi HQ. apply wp_bind. by eapply wp_get_msg. Qed.
Lemma wp_try_msg i m f m' E (Q : _ → world → Prop) w :
  r_messages (rt w) !! i = Some m → f m = Some m' → Q tt (put_msg i m' w) → wp (try_msg i f) E Q w.
Proof. intros Hi Hf HQ. apply wp_bind. eapply wp_get_msg; [done|]. apply wp_bind. by eapply wp_defined. Qed.
End access.
