(* ===== verification/FfmCore.v ===== *)
(** * FF-M runtime core: handles, slots, queues, vectors and start-up
    ([src/ffm.c], lines 36-678)

    The static helpers the client and service operations share, then
    [wt_ffm_init] and the queries. Functions that take a [const] runtime are
    functions of the runtime, with [None] where the C code would dereference a
    null pointer or leave an array. *)

From Stdlib Require Import ZArith Lia.
From stdpp Require Import base list numbers option sets.
From S2P Require Import Prelude Buffers CState Manifest Ipc FfmTypes.

(** ** Generations and handles *)

Definition wt_ffm_next_generation (generation : Z) : Z :=
  let generation := u32 (generation + 1) .& WT_FFM_HANDLE_GEN_MASK in
  if generation =? 0 then 1 else generation.

Definition wt_ffm_make_handle (type : Z) (index : nat) (generation : Z) : Z :=
  let value := u32 ((generation .& WT_FFM_HANDLE_GEN_MASK) .<< WT_FFM_HANDLE_GEN_SHIFT) .|
               ((type .& WT_FFM_HANDLE_TYPE_MASK) .<< WT_FFM_HANDLE_TYPE_SHIFT) .|
               (Z.of_nat index + 1) in
  i32_of_u32 value.

(** The index and generation, or [WT_FFM_ERROR_HANDLE]. *)
Definition wt_ffm_decode_handle (handle type : Z) (limit : nat) : Z + nat * Z :=
  if handle <=? 0 then inl WT_FFM_ERROR_HANDLE else
  let value := u32 handle in
  let encoded_type := (value .>> WT_FFM_HANDLE_TYPE_SHIFT) .& WT_FFM_HANDLE_TYPE_MASK in
  let encoded_index := value .& WT_FFM_HANDLE_INDEX_MASK in
  if negb (encoded_type =? type) || (encoded_index =? 0) || (encoded_index >? Z.of_nat limit)
  then inl WT_FFM_ERROR_HANDLE else
  let generation := value .>> WT_FFM_HANDLE_GEN_SHIFT in
  if generation =? 0 then inl WT_FFM_ERROR_HANDLE
  else inr (Z.to_nat (encoded_index - 1), generation).

(** ** Searches *)

(** [for (i in l) if (test(i)) return i;] *)
Fixpoint search (l : list nat) (test : nat → option bool) : option (option nat) :=
  match l with
  | [] => Some None
  | i :: l' => b ← test i; if (b : bool) then Some (Some i) else search l' test
  end.

Definition wt_ffm_find_partition (rt : wt_ffm_runtime) (partition_id : Z) : option (Z + nat) :=
  if partition_id <=? 0 then Some (inl WT_FFM_ERROR_ARGUMENT) else
  r ← search (seq 0 (r_partition_count rt)) (λ i,
        p ← r_partitions rt !! i; m ← p_manifest p; Some (pm_domain_id m =? u32 partition_id));
  Some (match r with Some i => inr i | None => inl WT_FFM_ERROR_POLICY end).

Definition wt_ffm_caller_instance (rt : wt_ffm_runtime) (caller : Z) : option Z :=
  r ← wt_ffm_find_partition rt caller;
  match r with
  | inl _ => Some 0
  | inr i => p_instance <$> r_partitions rt !! i
  end.

Definition wt_ffm_find_service (rt : wt_ffm_runtime) (sid : Z) : option (Z + nat) :=
  if sid =? 0 then Some (inl WT_FFM_ERROR_ARGUMENT) else
  r ← search (seq 0 (r_service_count rt)) (λ i,
        s ← r_services rt !! i; d ← s_descriptor s; Some (sd_sid d =? sid));
  Some (match r with Some i => inr i | None => inl WT_FFM_ERROR_POLICY end).

Definition wt_ffm_caller_allowed (rt : wt_ffm_runtime) (caller : Z) (service_index : nat) : option bool :=
  if (caller =? 0) || (r_service_count rt <=? service_index)%nat then Some false else
  service ← r_services rt !! service_index;
  descriptor ← s_descriptor service;
  if caller <? 0 then Some (negb (sd_nonsecure_clients descriptor =? 0)) else
  r ← search (seq 0 (r_partition_count rt)) (λ i,
        p ← r_partitions rt !! i; m ← p_manifest p; Some (pm_domain_id m =? u32 caller));
  match r with
  | None => Some false
  | Some i =>
    if (i =? s_partition_index service)%nat then Some false else
    p ← r_partitions rt !! i; m ← p_manifest p;
    Some (existsb (λ d, d =? sd_sid descriptor) (items (pm_dependencies m)))
  end.

Definition wt_ffm_version_allowed (service : wt_service_descriptor) (requested : Z) : bool :=
  if requested =? 0 then false
  else if sd_version_policy service =? WT_SERVICE_VERSION_UNSPECIFIED then true
  else if sd_version_policy service =? WT_SERVICE_VERSION_STRICT then requested =? sd_version service
  else requested <=? sd_version service.

(** ** Connection and message slots *)

Definition wt_ffm_alloc_connection : func world (Z + nat) := fn (
  w ← gets rt;
  r ← defined (search (seq 0 WT_FFM_MAX_CONNECTIONS) (λ i, negb ∘ c_allocated <$> r_connections w !! i));
  match r with
  | None => mret (inl WT_FFM_ERROR_RESOURCE)
  | Some i =>
    mod_conn i (λ c, c <| c_allocated := true |> <| c_state := WT_IPC_CONNECTION_FREE |>
                       <| c_error_latch := false |>);;
    mret (inr i)
  end).

Definition wt_ffm_release_connection (connection_index : nat) : func world unit := fn (
  mod_conn connection_index (λ c,
    connection_runtime_zero <| c_generation := wt_ffm_next_generation (c_generation c) |>
                            <| c_state := WT_IPC_CONNECTION_FREE |>)).

Definition wt_ffm_connection_from_handle (rt : wt_ffm_runtime) (caller handle : Z) : option (Z + nat) :=
  match wt_ffm_decode_handle handle WT_FFM_HANDLE_CONNECTION WT_FFM_MAX_CONNECTIONS with
  | inl e => Some (inl e)
  | inr (index, generation) =>
    connection ← r_connections rt !! index;
    if negb (c_allocated connection) || negb (c_generation connection =? generation)
    then Some (inl WT_FFM_ERROR_HANDLE)
    else if negb (c_caller connection =? caller) then Some (inl WT_FFM_ERROR_POLICY) else
    instance ← wt_ffm_caller_instance rt caller;
    if negb (c_client_instance connection =? instance) then Some (inl WT_FFM_ERROR_HANDLE)
    else Some (inr index)
  end.

Definition wt_ffm_alloc_message : func world (Z + nat) := fn (
  w ← gets rt;
  r ← defined (search (seq 0 WT_FFM_MAX_MESSAGES) (λ i, negb ∘ m_allocated <$> r_messages w !! i));
  match r with
  | None => mret (inl WT_FFM_ERROR_RESOURCE)
  | Some i => mod_msg i (λ m, m <| m_allocated := true |> <| m_next := None |>);; mret (inr i)
  end).

Definition wt_ffm_release_message (message_index : nat) : func world unit := fn (
  mod_msg message_index (λ m,
    message_zero <| m_generation := wt_ffm_next_generation (m_generation m) |> <| m_next := None |>)).

Definition wt_ffm_message_from_handle (rt : wt_ffm_runtime) (partition_id handle : Z) : option (Z + nat) :=
  match wt_ffm_decode_handle handle WT_FFM_HANDLE_MESSAGE WT_FFM_MAX_MESSAGES with
  | inl e => Some (inl e)
  | inr (index, generation) =>
    message ← r_messages rt !! index;
    if negb (m_allocated message) || negb (m_active message) || negb (m_generation message =? generation)
    then Some (inl WT_FFM_ERROR_HANDLE) else
    service ← r_services rt !! m_service_index message;
    p ← r_partitions rt !! s_partition_index service; m ← p_manifest p;
    if negb (pm_domain_id m =? u32 partition_id) then Some (inl WT_FFM_ERROR_POLICY)
    else Some (inr index)
  end.

(** Whether a message the client abandoned was found on the connection. *)
Definition wt_ffm_close_abandoned (connection_index : nat) : func world bool := fn (
  w ← gets rt;
  r ← defined (search (seq 0 WT_FFM_MAX_MESSAGES) (λ i,
        m ← r_messages w !! i;
        Some (m_allocated m && is_abandoned (m_abandoned m) && (m_connection_index m =? connection_index)%nat)));
  match r with
  | None => mret false
  | Some i =>
    mod_msg i (λ m, m <| m_abandoned := WT_FFM_ABANDONED_CLOSE |>);;
    mod_conn connection_index (λ c, c <| c_state := WT_IPC_CONNECTION_DISCONNECTING |>);;
    mret true
  end).

(** ** Service queues *)

Definition wt_ffm_update_service_signal (service_index : nat) : func world unit := fn (
  service ← get_svc service_index;
  partition ← get_part (s_partition_index service);
  descriptor ← defined (s_descriptor service);
  let signal := sd_signal descriptor in
  mod_part (s_partition_index service) (λ p,
    if bool_decide (s_queue_head service = None)
    then p <| p_asserted_signals := p_asserted_signals p .&~ signal |>
    else p <| p_asserted_signals := p_asserted_signals p .| signal |>)).

(** The link from the tail, or from the head of an empty queue. *)
Definition link_tail (service_index message_index : nat) : prog world unit unit :=
  service ← get_svc service_index;
  match s_queue_tail service with
  | None => mod_svc service_index (λ s, s <| s_queue_head := Some message_index |>)
  | Some tail => mod_msg tail (λ m, m <| m_next := Some message_index |>)
  end.

Definition wt_ffm_enqueue (service_index message_index : nat) : func world unit := fn (
  link_tail service_index message_index;;
  mod_svc service_index (λ s, s <| s_queue_tail := Some message_index |>);;
  call (wt_ffm_update_service_signal service_index)).

(** The link that pointed to the element found. *)
Definition unlink_previous (service_index : nat) (previous next : option nat) : prog world unit unit :=
  match previous with
  | None => mod_svc service_index (λ s, s <| s_queue_head := next |>)
  | Some previous => mod_msg previous (λ m, m <| m_next := next |>)
  end.

(** The unlinking of [current] once the loop has found it. *)
Definition unlink (service_index current : nat) (previous next : option nat) : prog world unit unit :=
  unlink_previous service_index previous next;;
  service ← get_svc service_index;
  when (bool_decide (s_queue_tail service = Some current))
    (mod_svc service_index (λ s, s <| s_queue_tail := previous |>));;
  mod_msg current (λ m, m <| m_next := None |>).

(** The [while] loop from [current]; each iteration uses one unit of fuel. *)
Fixpoint dequeue_loop (fuel : nat) (service_index message_index : nat)
    (current previous : option nat) : prog world unit unit :=
  match fuel, current with
  | _, None => mret tt
  | O, Some _ => defined None
  | S fuel', Some current =>
    m ← get_msg current;
    if (current =? message_index)%nat then unlink service_index current previous (m_next m)
    else dequeue_loop fuel' service_index message_index (m_next m) (Some current)
  end.

(** A queue holds each message once, so [WT_FFM_MAX_MESSAGES] iterations reach its end. *)
Definition wt_ffm_dequeue_message (service_index message_index : nat) : func world unit := fn (
  service ← get_svc service_index;
  dequeue_loop WT_FFM_MAX_MESSAGES service_index message_index (s_queue_head service) None;;
  call (wt_ffm_update_service_signal service_index)).

(** ** Client vectors *)

(** The vector [i] when its caller may not access it. *)
Fixpoint refused_vector (check : Z → Z → bool) (vectors : list (Z * Z)) (i : nat) : option (nat * (Z * Z)) :=
  match vectors with
  | [] => None
  | (base, len) :: vectors' =>
    if negb (len =? 0) && negb (check base len) then Some (i, (base, len))
    else refused_vector check vectors' (S i)
  end.

Definition refuse_info (kind : Z) (i : nat) (caller len : Z) : Z :=
  u32 (kind .<< 28 .| (Z.of_nat i .<< 24) .| ((u32 caller .& 0xFF) .<< 16) .| (len .& 0xFFFF)).

(** The input loop: offsets, sizes and the copied bytes. *)
Fixpoint copy_inputs (mem : Z → Z) (vectors : list psa_invec) (i : nat) (offset : Z)
    (m : wt_ffm_message_runtime) : option wt_ffm_message_runtime :=
  match vectors with
  | [] => Some m
  | v :: vectors' =>
    offsets ← arr_set (m_in_offset m) i offset;
    sizes ← arr_set (m_in_size m) i (iv_len v);
    input ← (if iv_len v =? 0 then Some (m_input m)
             else buf_write (m_input m) offset (mem_read mem (iv_base v) (iv_len v)));
    copy_inputs mem vectors' (S i) (u32 (offset + iv_len v))
      (m <| m_in_offset := offsets |> <| m_in_size := sizes |> <| m_input := input |>)
  end.

(** The output loop: offsets, sizes and destinations. *)
Fixpoint record_outputs (vectors : list psa_outvec) (i : nat) (offset : Z)
    (m : wt_ffm_message_runtime) : option wt_ffm_message_runtime :=
  match vectors with
  | [] => Some m
  | v :: vectors' =>
    offsets ← arr_set (m_out_offset m) i offset;
    sizes ← arr_set (m_out_size m) i (ov_len v);
    dests ← arr_set (m_client_output m) i (ov_base v);
    record_outputs vectors' (S i) (u32 (offset + ov_len v))
      (m <| m_out_offset := offsets |> <| m_out_size := sizes |> <| m_client_output := dests |>)
  end.

Section port.
Context `{PortOps}.

(** The local [inputs]/[outputs] arrays hold the first [PSA_MAX_IOVEC]
    vectors; the validation rejects larger counts before it reads them. *)
Definition wt_ffm_prepare_vectors (message_index : nat) (in_vec : carray psa_invec)
    (out_vec : carray psa_outvec) : func world Z := fn (
  if (negb (count in_vec =? 0)%nat && is_null in_vec) || (negb (count out_vec =? 0)%nat && is_null out_vec)
  then early WT_FFM_ERROR_ARGUMENT else
  message ← get_msg message_index;
  w ← gets id;
  let inputs := (λ v, (iv_base v, iv_len v)) <$> items in_vec in
  let outputs := (λ v, (ov_base v, ov_len v)) <$> items out_vec in
  match refused_vector (check_read (port w) (m_caller message)) (take PSA_MAX_IOVEC inputs) 0 with
  | Some (i, (base, len)) =>
    modify (λ w, w <| g_wt_ffm_refuse_info := refuse_info 1 i (m_caller message) len |>
                   <| g_wt_ffm_refuse_base := u32 base |>);;
    early WT_FFM_ERROR_POLICY
  | None => mret tt
  end;;
  match refused_vector (check_write (port w) (m_caller message)) (take PSA_MAX_IOVEC outputs) 0 with
  | Some (i, (base, len)) =>
    modify (λ w, w <| g_wt_ffm_refuse_info := refuse_info 2 i (m_caller message) len |>
                   <| g_wt_ffm_refuse_base := u32 base |>);;
    early WT_FFM_ERROR_POLICY
  | None => mret tt
  end;;
  let as_vector := λ v : Z * Z, {| v_base := v.1; v_length := v.2 |} in
  let '(ret, written) := wt_ipc_validate_vectors (Arr (as_vector <$> inputs)) (Arr (as_vector <$> outputs))
                           WT_FFM_TRANSFER_BYTES in
  let total := default 0 written in
  if negb (ret =? WT_IPC_VALID) then
    modify (λ w, w <| g_wt_ffm_refuse_info := 3 .<< 28 .| (total .& 0xFFFF) |>
                   <| g_wt_ffm_refuse_base := 0 |>);;
    early WT_FFM_ERROR_BUFFER
  else
    mod_msg message_index (λ m, m <| m_in_count := count in_vec |> <| m_out_count := count out_vec |>);;
    try_msg message_index (copy_inputs (memory w) (items in_vec) 0 0);;
    try_msg message_index (record_outputs (items out_vec) 0 0);;
    mret WT_FFM_SUCCESS).

(** ** Dispatch *)

(** The indirect call: the partition's own function or the port's. *)
Definition run_dispatch {R} (partition : wt_ffm_partition_runtime) (partition_id : Z) : prog world R Z := λ w,
  let '(w', ret) :=
    match p_dispatch partition with
    | Some f => call_dispatch f (p_dispatch_context partition) partition_id w
    | None => port_dispatch partition_id w
    end in
  Some (w', inr ret).

Definition wt_ffm_dispatch_message (message_index : nat) : func world Z := fn (
  message ← get_msg message_index;
  service ← get_svc (m_service_index message);
  partition ← get_part (s_partition_index service);
  manifest ← defined (p_manifest partition);
  let partition_id := i32_of_u32 (pm_domain_id manifest) in
  ret ← run_dispatch partition partition_id;
  if negb (ret =? WT_FFM_SUCCESS) then early ret else
  message ← get_msg message_index;
  if negb (m_complete message) then early WT_FFM_ERROR_NOT_READY
  else mret WT_FFM_SUCCESS).
End port.

(** ** Start-up and queries *)

(** The checks of the first loop; [service_count] is its accumulator. *)
Fixpoint init_check (partitions : list wt_partition_manifest) (service_count : nat) : Z + nat :=
  match partitions with
  | [] => inr service_count
  | p :: partitions' =>
    if negb (pm_model p =? WT_PARTITION_MODEL_IPC) then inl WT_FFM_ERROR_MANIFEST
    else if pm_framework_version p >? PSA_FRAMEWORK_VERSION then inl WT_FFM_ERROR_MANIFEST
    else if (WT_FFM_MAX_SERVICES - service_count <? count (pm_services p))%nat then inl WT_FFM_ERROR_MANIFEST
    else init_check partitions' (service_count + count (pm_services p))
  end.

(** The runtime services of the partitions from index [i] on. *)
Fixpoint init_services (partitions : list wt_partition_manifest) (i : nat) : list wt_ffm_service_runtime :=
  match partitions with
  | [] => []
  | p :: partitions' =>
    ((λ d, {| s_descriptor := Some d; s_partition_index := i; s_queue_head := None; s_queue_tail := None |})
      <$> items (pm_services p)) ++ init_services partitions' (S i)
  end.

(** An array of [n] elements whose first ones are [l] and the others [z]. *)
Definition filled {A} (n : nat) (z : A) (l : list A) : list A := l ++ replicate (n - length l) z.

(** The port operations are never null here ([PortOps]); the runtime is
    undefined if the manifest's arrays are shorter than their counts. *)
Definition wt_ffm_init (manifest : option wt_system_manifest) : func world Z := fn (
  match manifest with
  | None => early WT_FFM_ERROR_ARGUMENT
  | Some manifest =>
    if (WT_FFM_MAX_PARTITIONS <? count (sm_partitions manifest))%nat then early WT_FFM_ERROR_MANIFEST else
    partitions ← defined (if bool_decide (length (items (sm_partitions manifest)) = count (sm_partitions manifest))
                          then Some (items (sm_partitions manifest)) else None);
    match init_check partitions 0 with
    | inl e => early e
    | inr service_count =>
      services ← defined (if bool_decide (length (init_services partitions 0) = service_count)
                          then Some (init_services partitions 0) else None);
      modify (λ w, w <| rt := {|
        r_manifest := Some manifest;
        r_partitions := filled WT_FFM_MAX_PARTITIONS partition_zero
                          ((λ p, partition_zero <| p_manifest := Some p |>) <$> partitions);
        r_services := filled WT_FFM_MAX_SERVICES service_zero services;
        r_connections := replicate WT_FFM_MAX_CONNECTIONS (connection_runtime_zero <| c_generation := 1 |>);
        r_messages := replicate WT_FFM_MAX_MESSAGES (message_zero <| m_generation := 1 |> <| m_next := None |>);
        r_partition_count := count (sm_partitions manifest);
        r_service_count := service_count;
        r_lifecycle := 0 |} |>);;
      mret WT_FFM_SUCCESS
    end
  end).

Definition wt_ffm_register_partition (partition_id : Z) (dispatch : option Z) (context : Z) : func world Z := fn (
  match dispatch with
  | None => early WT_FFM_ERROR_ARGUMENT
  | Some f =>
    w ← gets rt;
    r ← defined (wt_ffm_find_partition w partition_id);
    match r with
    | inl e => early e
    | inr partition_index =>
      mod_part partition_index (λ p, p <| p_dispatch := Some f |> <| p_dispatch_context := context |>);;
      mret WT_FFM_SUCCESS
    end
  end).

Definition wt_ffm_framework_version (rt : wt_ffm_runtime) : Z :=
  match r_manifest rt with
  | None => 0
  | Some manifest =>
    let version :=
      if has_any (sm_features manifest) (WT_MANIFEST_FEATURE_SFN .| WT_MANIFEST_FEATURE_STATELESS .|
           WT_MANIFEST_FEATURE_MM_IOVEC) then WT_FFM_VERSION_1_1 else WT_FFM_VERSION_1_0 in
    let version :=
      if existsb (λ p, pm_framework_version p =? WT_FFM_VERSION_1_1) (items (sm_partitions manifest))
      then WT_FFM_VERSION_1_1 else version in
    if version >? PSA_FRAMEWORK_VERSION then PSA_FRAMEWORK_VERSION else version
  end.

Definition wt_ffm_set_lifecycle (lifecycle : Z) : func world unit := fn (
  modify (λ w, w <| rt := (rt w) <| r_lifecycle := lifecycle |> |>)).

Definition wt_ffm_service_version (rt : wt_ffm_runtime) (caller sid : Z) : option Z :=
  r ← wt_ffm_find_service rt sid;
  match r with
  | inl _ => Some PSA_VERSION_NONE
  | inr service_index =>
    allowed ← wt_ffm_caller_allowed rt caller service_index;
    if negb allowed then Some PSA_VERSION_NONE else
    s ← r_services rt !! service_index; d ← s_descriptor s; Some (sd_version d)
  end.

Definition owned_by (caller : Z) (c : wt_ffm_connection_runtime) : bool :=
  c_allocated c && (c_caller c =? caller).
Definition owned_by_ns (c : wt_ffm_connection_runtime) : bool :=
  c_allocated c && (c_caller c <? 0).
Definition count_if {A} (f : A → bool) (l : list A) : nat := length (List.filter f l).

Definition wt_ffm_client_connection_count (rt : wt_ffm_runtime) (caller : Z) : nat :=
  count_if (owned_by caller) (r_connections rt).
Definition wt_ffm_ns_connection_count (rt : wt_ffm_runtime) : nat :=
  count_if owned_by_ns (r_connections rt).
