(* ===== verification/FfmClient.v ===== *)
(** * FF-M client operations ([src/ffm.c], lines 680-1333)

    Connect, call and close in their synchronous form (the partition is
    dispatched in between) and in the deferred form ([_begin], [_finish]) of
    Secure Partition clients, and the operations that fail a terminated
    partition's or client's messages and connections. Out-parameters and
    in-place updated output vectors are part of the result. *)

From Stdlib Require Import ZArith Lia.
From stdpp Require Import base list numbers option sets.
From S2P Require Import Prelude Buffers CState Manifest Ipc FfmTypes FfmCore.

Section client.
Context `{PortOps}.

(** ** Connect *)

(** The refusals common to both forms, and the quotas; returns the service index. *)
Definition connect_admission (rt : wt_ffm_runtime) (caller sid version : Z) : option (Z + nat) :=
  if caller =? 0 then Some (inl PSA_ERROR_INVALID_ARGUMENT) else
  r ← wt_ffm_find_service rt sid;
  match r with
  | inl _ => Some (inl PSA_ERROR_CONNECTION_REFUSED)
  | inr service_index =>
    allowed ← wt_ffm_caller_allowed rt caller service_index;
    if negb allowed then Some (inl PSA_ERROR_CONNECTION_REFUSED) else
    s ← r_services rt !! service_index; d ← s_descriptor s;
    if negb (wt_ffm_version_allowed d version) then Some (inl PSA_ERROR_CONNECTION_REFUSED)
    else if sd_connection_based d =? 0 then Some (inl PSA_ERROR_NOT_SUPPORTED)
    else if (WT_FFM_MAX_CONNECTIONS_PER_CLIENT <=? wt_ffm_client_connection_count rt caller)%nat
    then Some (inl PSA_ERROR_CONNECTION_BUSY)
    else if (caller <? 0) && (WT_FFM_MAX_NS_CONNECTIONS <=? wt_ffm_ns_connection_count rt)%nat
    then Some (inl PSA_ERROR_CONNECTION_BUSY)
    else Some (inr service_index)
  end.

(** The slots of a connect request: refused with a status, or the connection
    handle, connection, message and service indices of the queued request. *)
Definition connect_enqueue (caller sid version : Z) : func world (Z + Z * nat * nat * nat) := fn (
  w ← gets rt;
  r ← defined (connect_admission w caller sid version);
  match r with
  | inl e => early (inl e)
  | inr service_index =>
    r ← call wt_ffm_alloc_connection;
    match r with
    | inl _ => early (inl PSA_ERROR_CONNECTION_BUSY)
    | inr connection_index =>
      r ← call wt_ffm_alloc_message;
      match r with
      | inl _ =>
        call (wt_ffm_release_connection connection_index);;
        early (inl PSA_ERROR_CONNECTION_BUSY)
      | inr message_index =>
        w ← gets rt;
        instance ← defined (wt_ffm_caller_instance w caller);
        mod_conn connection_index (λ c,
          c <| c_caller := caller |> <| c_client_instance := instance |>
            <| c_service_index := service_index |> <| c_state := WT_IPC_CONNECTION_PENDING_CONNECT |>);;
        connection ← get_conn connection_index;
        let handle := wt_ffm_make_handle WT_FFM_HANDLE_CONNECTION connection_index (c_generation connection) in
        mod_msg message_index (λ m,
          m <| m_caller := caller |> <| m_connection_index := connection_index |>
            <| m_service_index := service_index |> <| m_type := PSA_IPC_CONNECT |>);;
        call (wt_ffm_enqueue service_index message_index);;
        mret (inr (handle, connection_index, message_index, service_index))
      end
    end
  end).

Definition wt_ffm_connect (caller sid version : Z) : func world Z := fn (
  r ← call (connect_enqueue caller sid version);
  match r with
  | inl e => early e
  | inr (handle, connection_index, message_index, service_index) =>
    ret ← call (wt_ffm_dispatch_message message_index);
    message ← get_msg message_index;
    let status := m_reply_status message in
    if negb (ret =? WT_FFM_SUCCESS) && m_active message then
      mod_msg message_index (λ m, m <| m_abandoned := WT_FFM_ABANDONED_CLOSE |>);;
      early (if ret =? WT_FFM_ERROR_RESOURCE then PSA_ERROR_CONNECTION_BUSY else PSA_ERROR_GENERIC_ERROR)
    else
      when (negb (ret =? WT_FFM_SUCCESS)) (call (wt_ffm_dequeue_message service_index message_index));;
      call (wt_ffm_release_message message_index);;
      if negb (ret =? WT_FFM_SUCCESS) || negb (status =? PSA_SUCCESS) then
        call (wt_ffm_release_connection connection_index);;
        early (if ret =? WT_FFM_ERROR_RESOURCE then PSA_ERROR_CONNECTION_BUSY
               else if status =? PSA_SUCCESS then PSA_ERROR_GENERIC_ERROR else status)
      else mret handle
  end).

(** [*msg_index] is written on success only. *)
Definition wt_ffm_connect_begin (caller sid version : Z) : func world (Z * option nat) := fn (
  r ← call (connect_enqueue caller sid version);
  match r with
  | inl e => early (e, None)
  | inr (handle, _, message_index, _) => mret (handle, Some message_index)
  end).

(** ** Call *)

(** A malformed request drops an idle connection to the error state and
    latches the error on a busy one. *)
Definition drop_or_latch (c : wt_ffm_connection_runtime) : wt_ffm_connection_runtime :=
  if bool_decide (c_state c = WT_IPC_CONNECTION_IDLE)
  then c <| c_state := WT_IPC_CONNECTION_ERROR |> else c <| c_error_latch := true |>.

Definition call_malformed (type : Z) (in_len out_len : nat) : bool :=
  (type <? 0) || (PSA_MAX_IOVEC <? in_len)%nat || (PSA_MAX_IOVEC <? out_len)%nat ||
  (PSA_MAX_IOVEC <? in_len + out_len)%nat.

Definition trace_or (bits : Z) (w : world) : world :=
  w <| g_wt_ffm_call_trace := g_wt_ffm_call_trace w .| bits |>.

(** The common part of both forms; [traced] is the synchronous one, which
    records its refusals in [g_wt_ffm_call_trace]. *)
Definition call_enqueue (traced : bool) (caller handle type : Z) (in_vec : carray psa_invec)
    (out_vec : carray psa_outvec) : func world (Z + nat * nat) := fn (
  if caller =? 0 then early (inl PSA_ERROR_INVALID_ARGUMENT) else
  w ← gets id;
  when (traced && (g_wt_ffm_call_trace w .& 0xF0000000 =? 0))
    (modify (λ w, w <| g_wt_ffm_call_trace := u32 (u32 type .<< 16) .|
       ((Z.of_nat (count in_vec) .& 0xFF) .<< 8) .| (Z.of_nat (count out_vec) .& 0xFF) |>));;
  r ← defined (wt_ffm_connection_from_handle (rt w) caller handle);
  match r with
  | inl _ =>
    when traced (modify (λ w, trace_or (5 .<< 28) w <| g_wt_ffm_refuse_base := u32 handle |>));;
    early (inl PSA_ERROR_PROGRAMMER_ERROR)
  | inr connection_index =>
    if call_malformed type (count in_vec) (count out_vec) then
      when traced (modify (trace_or (4 .<< 28)));;
      mod_conn connection_index drop_or_latch;;
      early (inl PSA_ERROR_PROGRAMMER_ERROR)
    else
    connection ← get_conn connection_index;
    if negb (bool_decide (c_state connection = WT_IPC_CONNECTION_IDLE)) then
      when traced (modify (trace_or (6 .<< 28)));;
      mod_conn connection_index (λ c, c <| c_error_latch := true |>);;
      early (inl PSA_ERROR_PROGRAMMER_ERROR)
    else
    r ← call wt_ffm_alloc_message;
    match r with
    | inl _ =>
      when traced (modify (trace_or (7 .<< 28)));;
      early (inl PSA_ERROR_INSUFFICIENT_MEMORY)
    | inr message_index =>
      mod_msg message_index (λ m,
        m <| m_caller := caller |> <| m_connection_index := connection_index |>
          <| m_service_index := c_service_index connection |> <| m_type := type |>);;
      ret ← call (wt_ffm_prepare_vectors message_index in_vec out_vec);
      if negb (ret =? WT_FFM_SUCCESS) then
        call (wt_ffm_release_message message_index);;
        when (negb (ret =? WT_FFM_ERROR_BUFFER))
          (mod_conn connection_index (λ c, c <| c_state := WT_IPC_CONNECTION_ERROR |>));;
        early (inl (if ret =? WT_FFM_ERROR_BUFFER then PSA_ERROR_INVALID_ARGUMENT else PSA_ERROR_PROGRAMMER_ERROR))
      else
        mod_conn connection_index (λ c, c <| c_state := WT_IPC_CONNECTION_PENDING_REQUEST |>);;
        call (wt_ffm_enqueue (c_service_index connection) message_index);;
        mret (inr (connection_index, message_index))
    end
  end).

(** Some destination of the first [out_count] is no longer writable. *)
Definition output_refused (port : Z) (m : wt_ffm_message_runtime) : option bool :=
  r ← search (seq 0 (m_out_count m)) (λ i,
    position ← arr_get (m_out_position m) i;
    dest ← arr_get (m_client_output m) i;
    Some (negb (position =? 0) && negb (check_write port (m_caller m) dest position)));
  Some (bool_decide (is_Some r)).

(** The copy loop over the output vectors [l]: the client memory and the
    vector lengths. [strict]: the synchronous form writes [out_vec[i].len]
    unguarded, the deferred form only where a vector exists. *)
Fixpoint publish (strict : bool) (m : wt_ffm_message_runtime) (l : list nat) (mem : Z → Z)
    (vectors : list psa_outvec) : option ((Z → Z) * list psa_outvec) :=
  match l with
  | [] => Some (mem, vectors)
  | i :: l' =>
    position ← arr_get (m_out_position m) i;
    mem ← (if position =? 0 then Some mem else
             dest ← arr_get (m_client_output m) i;
             offset ← arr_get (m_out_offset m) i;
             bytes ← buf_read (m_output m) offset position;
             Some (mem_write mem dest bytes));
    vectors ← (match vectors !! i with
               | Some v => Some (<[i := v <| ov_len := position |>]> vectors)
               | None => if strict then None else Some vectors
               end);
    publish strict m l' mem vectors
  end.

(** [items] of a vector array with its lengths updated. *)
Definition with_items {A} (a : carray A) (l : list A) : carray A :=
  match a with Null n => Null n | Arr _ => Arr l end.

(** The two-phase publication of a completed request, which releases it. *)
Definition publish_outputs (strict : bool) (connection_index message_index : nat)
    (out_vec : carray psa_outvec) : func world (Z * carray psa_outvec) := fn (
  message ← get_msg message_index;
  let status := m_reply_status message in
  w ← gets id;
  refused ← defined (output_refused (port w) message);
  if (refused : bool) then
    mod_conn connection_index (λ c, c <| c_state := WT_IPC_CONNECTION_ERROR |>);;
    call (wt_ffm_release_message message_index);;
    early (PSA_ERROR_PROGRAMMER_ERROR, out_vec)
  else
    '(mem, vectors) ← defined (publish strict message (seq 0 (m_out_count message)) (memory w) (items out_vec));
    modify (λ w, w <| memory := mem |>);;
    call (wt_ffm_release_message message_index);;
    mret (status, with_items out_vec vectors)).

Definition wt_ffm_call (caller handle type : Z) (in_vec : carray psa_invec) (out_vec : carray psa_outvec) :
    func world (Z * carray psa_outvec) := fn (
  r ← call (call_enqueue true caller handle type in_vec out_vec);
  match r with
  | inl e => early (e, out_vec)
  | inr (connection_index, message_index) =>
    ret ← call (wt_ffm_dispatch_message message_index);
    if negb (ret =? WT_FFM_SUCCESS) then
      mod_conn connection_index (λ c, c <| c_state := WT_IPC_CONNECTION_ERROR |>);;
      message ← get_msg message_index;
      if m_active message then
        mod_conn connection_index (λ c, c <| c_error_latch := true |>);;
        mod_msg message_index (λ m, m <| m_abandoned := WT_FFM_ABANDONED_REPLY |>
                                      <| m_client_output := zeros PSA_MAX_IOVEC |>);;
        early (PSA_ERROR_GENERIC_ERROR, out_vec)
      else
        connection ← get_conn connection_index;
        call (wt_ffm_dequeue_message (c_service_index connection) message_index);;
        call (wt_ffm_release_message message_index);;
        early (PSA_ERROR_GENERIC_ERROR, out_vec)
    else call (publish_outputs true connection_index message_index out_vec)
  end).

Definition wt_ffm_call_refuse (caller handle : Z) : func world unit := fn (
  if caller =? 0 then early tt else
  w ← gets rt;
  r ← defined (wt_ffm_connection_from_handle w caller handle);
  match r with
  | inl _ => early tt
  | inr connection_index => mod_conn connection_index drop_or_latch
  end).

Definition wt_ffm_call_begin (caller handle type : Z) (in_vec : carray psa_invec)
    (out_vec : carray psa_outvec) : func world (Z * option nat) := fn (
  r ← call (call_enqueue false caller handle type in_vec out_vec);
  match r with
  | inl e => early (e, None)
  | inr (_, message_index) => mret (PSA_SUCCESS, Some message_index)
  end).

(** ** Close *)

(** Refused or finished with a code, or the connection and message indices of
    the queued disconnect; the boolean says whether the code is the
    [PSA_NULL_HANDLE] or abandoned-request success. *)
Definition close_enqueue (caller handle : Z) : func world (Z * bool + nat * nat) := fn (
  if handle =? PSA_NULL_HANDLE then early (inl (WT_FFM_SUCCESS, true)) else
  if caller =? 0 then early (inl (WT_FFM_ERROR_ARGUMENT, false)) else
  w ← gets rt;
  r ← defined (wt_ffm_connection_from_handle w caller handle);
  match r with
  | inl e => early (inl (e, false))
  | inr connection_index =>
    connection ← get_conn connection_index;
    if negb (bool_decide (c_state connection = WT_IPC_CONNECTION_IDLE)) &&
       negb (bool_decide (c_state connection = WT_IPC_CONNECTION_ERROR))
    then early (inl (WT_FFM_ERROR_STATE, false)) else
    abandoned ← call (wt_ffm_close_abandoned connection_index);
    if (abandoned : bool) then early (inl (WT_FFM_SUCCESS, true)) else
    r ← call wt_ffm_alloc_message;
    match r with
    | inl _ => early (inl (WT_FFM_ERROR_RESOURCE, false))
    | inr message_index =>
      mod_conn connection_index (λ c, c <| c_state := WT_IPC_CONNECTION_DISCONNECTING |>);;
      mod_msg message_index (λ m,
        m <| m_caller := caller |> <| m_connection_index := connection_index |>
          <| m_service_index := c_service_index connection |> <| m_type := PSA_IPC_DISCONNECT |>);;
      call (wt_ffm_enqueue (c_service_index connection) message_index);;
      mret (inr (connection_index, message_index))
    end
  end).

Definition wt_ffm_close (caller handle : Z) : func world Z := fn (
  r ← call (close_enqueue caller handle);
  match r with
  | inl (e, _) => early e
  | inr (connection_index, message_index) =>
    ret ← call (wt_ffm_dispatch_message message_index);
    message ← get_msg message_index;
    if negb (ret =? WT_FFM_SUCCESS) && m_active message then
      mod_msg message_index (λ m, m <| m_abandoned := WT_FFM_ABANDONED_CLOSE |>);;
      early ret
    else
      connection ← get_conn connection_index;
      when (negb (ret =? WT_FFM_SUCCESS))
        (call (wt_ffm_dequeue_message (c_service_index connection) message_index));;
      call (wt_ffm_release_message message_index);;
      when (ret =? WT_FFM_SUCCESS) (call (wt_ffm_release_connection connection_index));;
      mret ret
  end).

(** [*msg_index]: not written ([None]), [WT_FFM_QUEUE_NONE] or an index. *)
Definition wt_ffm_close_begin (caller handle : Z) : func world (Z * option (option nat)) := fn (
  r ← call (close_enqueue caller handle);
  match r with
  | inl (e, done) => early (e, if (done : bool) then Some None else None)
  | inr (_, message_index) => mret (WT_FFM_SUCCESS, Some (Some message_index))
  end).

(** ** Completion of deferred requests *)

Definition wt_ffm_msg_complete (rt : wt_ffm_runtime) (msg_index : nat) : option bool :=
  if (WT_FFM_MAX_MESSAGES <=? msg_index)%nat then Some false else
  m ← r_messages rt !! msg_index; Some (m_allocated m && m_complete m).

Definition wt_ffm_dispatch_pending (msg_index : nat) : func world Z := fn (
  if (WT_FFM_MAX_MESSAGES <=? msg_index)%nat then early WT_FFM_ERROR_ARGUMENT else
  message ← get_msg msg_index;
  if negb (m_allocated message) then early WT_FFM_ERROR_ARGUMENT
  else call (wt_ffm_dispatch_message msg_index)).

Definition wt_ffm_connect_finish (msg_index : nat) : func world Z := fn (
  if (WT_FFM_MAX_MESSAGES <=? msg_index)%nat then early PSA_ERROR_INVALID_ARGUMENT else
  message ← get_msg msg_index;
  let connection_index := m_connection_index message in
  let status := m_reply_status message in
  call (wt_ffm_release_message msg_index);;
  if negb (status =? PSA_SUCCESS) then
    call (wt_ffm_release_connection connection_index);;
    early status
  else
    connection ← get_conn connection_index;
    mret (wt_ffm_make_handle WT_FFM_HANDLE_CONNECTION connection_index (c_generation connection))).

Definition wt_ffm_call_finish (msg_index : nat) (out_vec : carray psa_outvec) :
    func world (Z * carray psa_outvec) := fn (
  if (WT_FFM_MAX_MESSAGES <=? msg_index)%nat then early (PSA_ERROR_INVALID_ARGUMENT, out_vec) else
  message ← get_msg msg_index;
  call (publish_outputs false (m_connection_index message) msg_index out_vec)).

Definition wt_ffm_close_finish (msg_index : nat) : func world Z := fn (
  if (WT_FFM_MAX_MESSAGES <=? msg_index)%nat then early WT_FFM_ERROR_ARGUMENT else
  message ← get_msg msg_index;
  let connection_index := m_connection_index message in
  call (wt_ffm_release_message msg_index);;
  call (wt_ffm_release_connection connection_index);;
  mret WT_FFM_SUCCESS).

(** ** Abnormal termination *)

(** Whether a service belongs to the partition with this domain id. *)
Definition serves {R} (service_index : nat) (partition_id : Z) : prog world R bool :=
  service ← get_svc service_index;
  partition ← get_part (s_partition_index service);
  mret (match p_manifest partition with
        | None => false
        | Some m => pm_domain_id m =? u32 partition_id
        end).

(** One iteration of the message loop. *)
Definition fail_message (partition_id status : Z) (i : nat) (failed : Z) : prog world Z Z :=
  message ← get_msg i;
  if negb (m_allocated message) || m_complete message then mret failed else
  mine ← serves (m_service_index message) partition_id;
  if negb mine then mret failed else
  mod_msg i (λ m, m <| m_reply_status := status |> <| m_active := false |> <| m_complete := true |>);;
  mod_conn (m_connection_index message) (λ c, c <| c_state := WT_IPC_CONNECTION_ERROR |>);;
  when (is_abandoned (m_abandoned message)) (
    when (bool_decide (m_abandoned message = WT_FFM_ABANDONED_CLOSE))
      (call (wt_ffm_release_connection (m_connection_index message)));;
    call (wt_ffm_release_message i));;
  mret (failed + 1).

(** One iteration of the queue loop. *)
Definition drain_service (partition_id : Z) (i : nat) : prog world Z unit :=
  mine ← serves i partition_id;
  when mine (
    mod_svc i (λ s, s <| s_queue_head := None |> <| s_queue_tail := None |>);;
    call (wt_ffm_update_service_signal i)).

(** One iteration of the connection loop. *)
Definition fail_connection (partition_id : Z) (i : nat) : prog world Z unit :=
  connection ← get_conn i;
  if negb (c_allocated connection) || bool_decide (c_state connection = WT_IPC_CONNECTION_FREE) ||
     bool_decide (c_state connection = WT_IPC_CONNECTION_TERMINAL) then mret tt else
  mine ← serves (c_service_index connection) partition_id;
  when mine (mod_conn i (λ c, c <| c_state := WT_IPC_CONNECTION_ERROR |> <| c_rhandle := 0 |>)).

Definition wt_ffm_fail_partition_messages (partition_id status : Z) : func world Z := fn (
  w ← gets rt;
  failed ← for_acc (seq 0 WT_FFM_MAX_MESSAGES) (fail_message partition_id status) 0;
  for_each (seq 0 (r_service_count w)) (drain_service partition_id);;
  for_each (seq 0 WT_FFM_MAX_CONNECTIONS) (fail_connection partition_id);;
  mret failed).

Definition release_client_message (caller : Z) (i : nat) : prog world Z unit :=
  message ← get_msg i;
  if negb (m_allocated message) || negb (m_caller message =? caller) then mret tt else
  when (negb (m_complete message) && negb (m_active message))
    (call (wt_ffm_dequeue_message (m_service_index message) i));;
  call (wt_ffm_release_message i).

Definition release_client_connection (caller : Z) (i : nat) (freed : Z) : prog world Z Z :=
  connection ← get_conn i;
  if negb (c_allocated connection) || negb (c_caller connection =? caller) then mret freed else
  call (wt_ffm_release_connection i);;
  mret (freed + 1).

Definition wt_ffm_fail_client_connections (caller : Z) : func world Z := fn (
  for_each (seq 0 WT_FFM_MAX_MESSAGES) (release_client_message caller);;
  for_acc (seq 0 WT_FFM_MAX_CONNECTIONS) (release_client_connection caller) 0).

Definition wt_ffm_partition_restarted (partition_id status : Z) : func world Z := fn (
  w ← gets rt;
  r ← defined (wt_ffm_find_partition w partition_id);
  match r with
  | inl _ => early WT_FFM_ERROR_POLICY
  | inr partition_index =>
    failed ← call (wt_ffm_fail_partition_messages partition_id status);
    call (wt_ffm_fail_client_connections partition_id);;
    mod_part partition_index (λ p, p <| p_asserted_signals := 0 |> <| p_instance := u32 (p_instance p + 1) |>);;
    mret failed
  end).
End client.
