(* ===== verification/FfmService.v ===== *)
(** * FF-M service operations ([src/ffm.c], lines 1335-1768)

    What a Secure Partition calls: waiting for and clearing signals,
    interrupts, and receiving, reading, writing and answering messages. *)

From Stdlib Require Import ZArith Lia.
From stdpp Require Import base list numbers option sets.
From S2P Require Import Prelude Buffers CState Manifest Ipc FfmTypes FfmCore.

(** ** Signals *)

Definition wt_ffm_partition_signal_set (rt : wt_ffm_runtime) (partition_index : nat) : option Z :=
  set ← foldl (λ acc i,
          set ← acc; s ← r_services rt !! i;
          if (s_partition_index s =? partition_index)%nat then
            d ← s_descriptor s; Some (set .| sd_signal d)
          else Some set) (Some PSA_DOORBELL) (seq 0 (r_service_count rt));
  p ← r_partitions rt !! partition_index;
  m ← p_manifest p;
  Some (foldl (λ set i, set .| mi_signal i) set (items (pm_interrupts m))).

(** The code and [*asserted] (written unless the arguments are refused). *)
Definition wt_ffm_wait (rt : wt_ffm_runtime) (partition_id signal_mask : Z) : option (Z * option Z) :=
  if signal_mask =? 0 then Some (WT_FFM_ERROR_ARGUMENT, None) else
  r ← wt_ffm_find_partition rt partition_id;
  match r with
  | inl _ => Some (WT_FFM_ERROR_POLICY, None)
  | inr partition_index =>
    set ← wt_ffm_partition_signal_set rt partition_index;
    if signal_mask .& set =? 0 then Some (WT_FFM_ERROR_ARGUMENT, None) else
    p ← r_partitions rt !! partition_index;
    let asserted := p_asserted_signals p .& signal_mask in
    Some (if asserted =? 0 then WT_FFM_ERROR_NOT_READY else WT_FFM_SUCCESS, Some asserted)
  end.

Definition wt_ffm_notify (partition_id : Z) : func world Z := fn (
  w ← gets rt;
  r ← defined (wt_ffm_find_partition w partition_id);
  match r with
  | inl _ => early WT_FFM_ERROR_POLICY
  | inr i =>
    mod_part i (λ p, p <| p_asserted_signals := p_asserted_signals p .| PSA_DOORBELL |>);;
    mret WT_FFM_SUCCESS
  end).

Definition wt_ffm_clear (partition_id : Z) : func world Z := fn (
  w ← gets rt;
  r ← defined (wt_ffm_find_partition w partition_id);
  match r with
  | inl _ => early WT_FFM_ERROR_POLICY
  | inr i =>
    p ← get_part i;
    if p_asserted_signals p .& PSA_DOORBELL =? 0 then early WT_FFM_ERROR_STATE else
    mod_part i (λ p, p <| p_asserted_signals := p_asserted_signals p .&~ PSA_DOORBELL |>);;
    mret WT_FFM_SUCCESS
  end).

(** [irq_signal == 0U || (irq_signal & (irq_signal - 1U)) != 0U] *)
Definition not_single_signal (irq_signal : Z) : bool :=
  (irq_signal =? 0) || negb (irq_signal .& u32 (irq_signal - 1) =? 0).

Definition manifest_interrupts (p : wt_ffm_partition_runtime) : list wt_manifest_interrupt :=
  match p_manifest p with None => [] | Some m => items (pm_interrupts m) end.

Definition wt_ffm_eoi (partition_id irq_signal : Z) : func world Z := fn (
  w ← gets rt;
  r ← defined (wt_ffm_find_partition w partition_id);
  match r with
  | inl _ => early WT_FFM_ERROR_POLICY
  | inr i =>
    if not_single_signal irq_signal then early WT_FFM_ERROR_ARGUMENT else
    p ← get_part i;
    let interrupt_mask := foldl (λ mask i, mask .| mi_signal i) 0 (manifest_interrupts p) in
    if irq_signal .& interrupt_mask =? 0 then early WT_FFM_ERROR_POLICY else
    if p_asserted_signals p .& irq_signal =? 0 then early WT_FFM_ERROR_STATE else
    mod_part i (λ p, p <| p_asserted_signals := p_asserted_signals p .&~ irq_signal |>);;
    mret WT_FFM_SUCCESS
  end).

(** The code and [*irq_out]. *)
Definition wt_ffm_irq_lookup (rt : wt_ffm_runtime) (partition_id irq_signal : Z) : option (Z * option Z) :=
  r ← wt_ffm_find_partition rt partition_id;
  match r with
  | inl _ => Some (WT_FFM_ERROR_POLICY, None)
  | inr i =>
    if not_single_signal irq_signal then Some (WT_FFM_ERROR_ARGUMENT, None) else
    p ← r_partitions rt !! i;
    match List.find (λ mi, mi_signal mi =? irq_signal) (manifest_interrupts p) with
    | Some mi => Some (WT_FFM_SUCCESS, Some (mi_interrupt mi))
    | None => Some (WT_FFM_ERROR_POLICY, None)
    end
  end.

Fixpoint irq_route_from (partitions : list wt_ffm_partition_runtime) (irq : Z) : option (Z * Z) :=
  match partitions with
  | [] => None
  | p :: partitions' =>
    match p_manifest p with
    | None => irq_route_from partitions' irq
    | Some m =>
      match List.find (λ mi, mi_interrupt mi =? irq) (items (pm_interrupts m)) with
      | Some mi => Some (i32_of_u32 (pm_domain_id m), mi_signal mi)
      | None => irq_route_from partitions' irq
      end
    end
  end.

(** The code and the partition id and signal written on success. *)
Definition wt_ffm_irq_route (rt : wt_ffm_runtime) (irq : Z) : Z * option (Z * Z) :=
  match irq_route_from (take (r_partition_count rt) (r_partitions rt)) irq with
  | Some r => (WT_FFM_SUCCESS, Some r)
  | None => (WT_FFM_ERROR_POLICY, None)
  end.

Definition wt_ffm_assert_signal (partition_id irq_signal : Z) : func world Z := fn (
  w ← gets rt;
  '(ret, _) ← defined (wt_ffm_irq_lookup w partition_id irq_signal);
  if negb (ret =? WT_FFM_SUCCESS) then early ret else
  r ← defined (wt_ffm_find_partition w partition_id);
  match r with
  | inl _ => early WT_FFM_ERROR_POLICY
  | inr i =>
    mod_part i (λ p, p <| p_asserted_signals := p_asserted_signals p .| irq_signal |>);;
    mret WT_FFM_SUCCESS
  end).

(** ** Messages *)

(** The status and [*msg], written on success. *)
Definition wt_ffm_get (partition_id signal : Z) : func world (Z * option psa_msg) := fn (
  w ← gets rt;
  if signal =? 0 then early (PSA_ERROR_PROGRAMMER_ERROR, None) else
  r ← defined (wt_ffm_find_partition w partition_id);
  match r with
  | inl _ => early (PSA_ERROR_PROGRAMMER_ERROR, None)
  | inr partition_index =>
    found ← defined (search (seq 0 (r_service_count w)) (λ i,
              s ← r_services w !! i;
              if (s_partition_index s =? partition_index)%nat then
                d ← s_descriptor s; Some (sd_signal d =? signal)
              else Some false));
    match found with
    | None => early (PSA_ERROR_DOES_NOT_EXIST, None)
    | Some service_index =>
      service ← get_svc service_index;
      match s_queue_head service with
      | None => early (PSA_ERROR_DOES_NOT_EXIST, None)
      | Some message_index =>
        message ← get_msg message_index;
        mod_svc service_index (λ s,
          let s := s <| s_queue_head := m_next message |> in
          if bool_decide (s_queue_head s = None) then s <| s_queue_tail := None |> else s);;
        mod_msg message_index (λ m, m <| m_next := None |> <| m_active := true |>);;
        call (wt_ffm_update_service_signal (m_service_index message));;
        mod_conn (m_connection_index message) (λ c,
          if m_type message =? PSA_IPC_CONNECT then c <| c_state := WT_IPC_CONNECTION_CONNECTING |>
          else if m_type message >=? PSA_IPC_CALL then c <| c_state := WT_IPC_CONNECTION_ACTIVE |>
          else c);;
        connection ← get_conn (m_connection_index message);
        mret (PSA_SUCCESS, Some {|
          pm_type := m_type message;
          pm_handle := wt_ffm_make_handle WT_FFM_HANDLE_MESSAGE message_index (m_generation message);
          pm_client_id := m_caller message;
          pm_rhandle := c_rhandle connection;
          pm_in_size := m_in_size message;
          pm_out_size := m_out_size message |})
      end
    end
  end).

Definition wt_ffm_set_rhandle (partition_id msg_handle rhandle : Z) : func world Z := fn (
  w ← gets rt;
  r ← defined (wt_ffm_message_from_handle w partition_id msg_handle);
  match r with
  | inl _ => early WT_FFM_ERROR_HANDLE
  | inr i =>
    message ← get_msg i;
    if m_type message =? PSA_IPC_DISCONNECT then early WT_FFM_SUCCESS else
    mod_conn (m_connection_index message) (λ c, c <| c_rhandle := rhandle |>);;
    mret WT_FFM_SUCCESS
  end).

Definition wt_ffm_msg_access_check (rt : wt_ffm_runtime) (partition_id msg_handle : Z) (vec_idx : nat) : option Z :=
  if (PSA_MAX_IOVEC <=? vec_idx)%nat then Some WT_FFM_ERROR_ARGUMENT else
  r ← wt_ffm_message_from_handle rt partition_id msg_handle;
  match r with
  | inl _ => Some WT_FFM_ERROR_HANDLE
  | inr i => m ← r_messages rt !! i;
             Some (if m_type m <? PSA_IPC_CALL then WT_FFM_ERROR_STATE else WT_FFM_SUCCESS)
  end.

(** The length read and the bytes copied; [buffer] says whether the pointer
    is non-null. *)
Definition wt_ffm_read (partition_id msg_handle : Z) (invec_idx : nat) (buffer : bool) (num_bytes : Z) :
    func world (Z * list Z) := fn (
  if negb buffer || (PSA_MAX_IOVEC <=? invec_idx)%nat then early (0, []) else
  w ← gets rt;
  r ← defined (wt_ffm_message_from_handle w partition_id msg_handle);
  match r with
  | inl _ => early (0, [])
  | inr i =>
    m ← get_msg i;
    if (m_type m <? PSA_IPC_CALL) || (m_in_count m <=? invec_idx)%nat then early (0, []) else
    size ← defined (arr_get (m_in_size m) invec_idx);
    position ← defined (arr_get (m_in_position m) invec_idx);
    offset ← defined (arr_get (m_in_offset m) invec_idx);
    let remaining := u32 (size - position) in
    let length := if num_bytes <? remaining then num_bytes else remaining in
    if length =? 0 then mret (0, []) else
    bytes ← defined (buf_read (m_input m) (offset + position) length);
    try_msg i (λ m, (λ l, m <| m_in_position := l |>) <$>
                    arr_set (m_in_position m) invec_idx (u32 (position + length)));;
    mret (length, bytes)
  end).

Definition wt_ffm_skip (partition_id msg_handle : Z) (invec_idx : nat) (num_bytes : Z) : func world Z := fn (
  if (PSA_MAX_IOVEC <=? invec_idx)%nat then early 0 else
  w ← gets rt;
  r ← defined (wt_ffm_message_from_handle w partition_id msg_handle);
  match r with
  | inl _ => early 0
  | inr i =>
    m ← get_msg i;
    if (m_type m <? PSA_IPC_CALL) || (m_in_count m <=? invec_idx)%nat then early 0 else
    size ← defined (arr_get (m_in_size m) invec_idx);
    position ← defined (arr_get (m_in_position m) invec_idx);
    let remaining := u32 (size - position) in
    let length := if num_bytes <? remaining then num_bytes else remaining in
    try_msg i (λ m, (λ l, m <| m_in_position := l |>) <$>
                    arr_set (m_in_position m) invec_idx (u32 (position + length)));;
    mret length
  end).

(** [buffer] holds the [num_bytes] bytes, or is null. *)
Definition wt_ffm_write (partition_id msg_handle : Z) (outvec_idx : nat) (buffer : carray Z) :
    func world Z := fn (
  let num_bytes := Z.of_nat (count buffer) in
  if (is_null buffer && negb (num_bytes =? 0)) || (PSA_MAX_IOVEC <=? outvec_idx)%nat
  then early WT_FFM_ERROR_ARGUMENT else
  w ← gets rt;
  r ← defined (wt_ffm_message_from_handle w partition_id msg_handle);
  match r with
  | inl _ => early WT_FFM_ERROR_ARGUMENT
  | inr i =>
    m ← get_msg i;
    if m_type m <? PSA_IPC_CALL then early WT_FFM_ERROR_STATE else
    if (m_out_count m <=? outvec_idx)%nat then
      early (if num_bytes =? 0 then WT_FFM_SUCCESS else WT_FFM_ERROR_BUFFER)
    else
    size ← defined (arr_get (m_out_size m) outvec_idx);
    position ← defined (arr_get (m_out_position m) outvec_idx);
    offset ← defined (arr_get (m_out_offset m) outvec_idx);
    let remaining := u32 (size - position) in
    if num_bytes >? remaining then early WT_FFM_ERROR_BUFFER else
    when (negb (num_bytes =? 0)) (
      try_msg i (λ m, (λ b, m <| m_output := b |>) <$>
                      buf_write (m_output m) (offset + position) (items buffer));;
      try_msg i (λ m, (λ l, m <| m_out_position := l |>) <$>
                      arr_set (m_out_position m) outvec_idx (u32 (position + num_bytes))));;
    mret WT_FFM_SUCCESS
  end).

(** ** Replies *)

Definition wt_ffm_finish_abandoned (message_index : nat) : func world unit := fn (
  message ← get_msg message_index;
  let connection_index := m_connection_index message in
  let disconnect :=
    ((m_type message =? PSA_IPC_CONNECT) && (m_reply_status message =? PSA_SUCCESS)) ||
    ((m_type message >=? PSA_IPC_CALL) && bool_decide (m_abandoned message = WT_FFM_ABANDONED_CLOSE)) in
  when (negb disconnect && (m_type message <? PSA_IPC_CALL)) (call (wt_ffm_release_connection connection_index));;
  call (wt_ffm_release_message message_index);;
  when disconnect (
    connection ← get_conn connection_index;
    mod_msg message_index (λ m,
      m <| m_allocated := true |> <| m_abandoned := WT_FFM_ABANDONED_CLOSE |>
        <| m_caller := c_caller connection |> <| m_connection_index := connection_index |>
        <| m_service_index := c_service_index connection |> <| m_type := PSA_IPC_DISCONNECT |>);;
    mod_conn connection_index (λ c, c <| c_state := WT_IPC_CONNECTION_DISCONNECTING |>);;
    call (wt_ffm_enqueue (c_service_index connection) message_index))).

(** The connection state a reply leads to, or the error it is refused with. *)
Definition reply_state (type status : Z) (latched : bool) : Z + wt_ipc_connection_state :=
  if type =? PSA_IPC_CONNECT then
    if negb (status =? PSA_SUCCESS) && negb (status =? PSA_ERROR_CONNECTION_REFUSED) &&
       negb (status =? PSA_ERROR_CONNECTION_BUSY) then inl WT_FFM_ERROR_ARGUMENT
    else inr (if status =? PSA_SUCCESS then WT_IPC_CONNECTION_IDLE else WT_IPC_CONNECTION_ERROR)
  else if type =? PSA_IPC_DISCONNECT then inr WT_IPC_CONNECTION_TERMINAL
  else if type >=? PSA_IPC_CALL then
    if (status =? PSA_ERROR_CONNECTION_REFUSED) || (status =? PSA_ERROR_CONNECTION_BUSY)
    then inl WT_FFM_ERROR_ARGUMENT
    else inr (if (status =? PSA_ERROR_PROGRAMMER_ERROR) || latched
              then WT_IPC_CONNECTION_ERROR else WT_IPC_CONNECTION_IDLE)
  else inl WT_FFM_ERROR_STATE.

Definition wt_ffm_reply (partition_id msg_handle status : Z) : func world Z := fn (
  w ← gets rt;
  r ← defined (wt_ffm_message_from_handle w partition_id msg_handle);
  match r with
  | inl _ => early WT_FFM_ERROR_HANDLE
  | inr i =>
    message ← get_msg i;
    connection ← get_conn (m_connection_index message);
    match reply_state (m_type message) status (c_error_latch connection) with
    | inl e => early e
    | inr state =>
      mod_conn (m_connection_index message) (λ c, c <| c_state := state |>);;
      mod_msg i (λ m, m <| m_reply_status := status |> <| m_active := false |> <| m_complete := true |>);;
      when (is_abandoned (m_abandoned message)) (call (wt_ffm_finish_abandoned i));;
      mret WT_FFM_SUCCESS
    end
  end).
