(* ===== verification/FfmWf.v ===== *)
(** * The FF-M runtime invariant

    [inv x B rt] relates the slots, the queues and the signals. [x] is a
    message an operation holds outside its queue and connection, [B] the
    services whose queue or signal an operation has not finished updating;
    between operations the invariant is [wf rt], with neither. *)

From Stdlib Require Import ZArith Lia.
From stdpp Require Import base list numbers option sets.
From S2P Require Import Prelude Buffers CState Manifest Ipc FfmTypes FfmCore.

(** ** Slots *)

Definition gen_ok (g : Z) : Prop := 1 ≤ g < 2 ^ 24.

(** The first [n] vectors lie inside the transfer buffer and their position
    does not pass their end. *)
Record vec_ok (n : nat) (size offset position : list Z) : Prop := {
  vec_count : (n ≤ PSA_MAX_IOVEC)%nat;
  vec_size : length size = PSA_MAX_IOVEC;
  vec_offset : length offset = PSA_MAX_IOVEC;
  vec_position : length position = PSA_MAX_IOVEC;
  vec_bounds j sz off pos : (j < n)%nat →
    size !! j = Some sz → offset !! j = Some off → position !! j = Some pos →
    0 ≤ off ∧ 0 ≤ pos ≤ sz ∧ off + sz ≤ WT_FFM_TRANSFER_BYTES;
}.

Definition message_free (g : Z) : wt_ffm_message_runtime :=
  message_zero <| m_generation := g |> <| m_next := None |>.
Definition connection_free (g : Z) : wt_ffm_connection_runtime :=
  connection_runtime_zero <| c_generation := g |> <| c_state := WT_IPC_CONNECTION_FREE |>.

Record msg_ok (service_count : nat) (m : wt_ffm_message_runtime) : Prop := {
  msg_gen : gen_ok (m_generation m);
  msg_conn : (m_connection_index m < WT_FFM_MAX_CONNECTIONS)%nat;
  msg_svc : m_allocated m = true → (m_service_index m < service_count)%nat;
  msg_free : m_allocated m = false → m = message_free (m_generation m);
  msg_in : vec_ok (m_in_count m) (m_in_size m) (m_in_offset m) (m_in_position m);
  msg_out : vec_ok (m_out_count m) (m_out_size m) (m_out_offset m) (m_out_position m);
  msg_dest : length (m_client_output m) = PSA_MAX_IOVEC;
  msg_input : length (m_input m) = Z.to_nat WT_FFM_TRANSFER_BYTES;
  msg_output : length (m_output m) = Z.to_nat WT_FFM_TRANSFER_BYTES;
  msg_active : m_active m = true → m_complete m = false;
}.

Record conn_ok (service_count : nat) (c : wt_ffm_connection_runtime) : Prop := {
  conn_gen : gen_ok (c_generation c);
  conn_svc : c_allocated c = true → (c_service_index c < service_count)%nat;
  conn_free : c_allocated c = false → c = connection_free (c_generation c);
}.

(** ** Queues *)

(** Delivered to a queue and not yet taken by the service. *)
Definition pending (m : wt_ffm_message_runtime) : bool :=
  m_allocated m && negb (m_active m) && negb (m_complete m).

(** [l] is the linked list of message slots from [head]. *)
Fixpoint chain (msgs : list wt_ffm_message_runtime) (head : option nat) (l : list nat) : Prop :=
  match l with
  | [] => head = None
  | i :: l' => head = Some i ∧ ∃ m, msgs !! i = Some m ∧ chain msgs (m_next m) l'
  end.

(** Message [i], in slot state [m], belongs to the queue of [s]. *)
Definition in_queue (x : option nat) (s i : nat) (m : wt_ffm_message_runtime) : Prop :=
  pending m = true ∧ m_service_index m = s ∧ x ≠ Some i.

Record queue (msgs : list wt_ffm_message_runtime) (x : option nat) (s : nat)
    (sv : wt_ffm_service_runtime) (l : list nat) : Prop := {
  queue_chain : chain msgs (s_queue_head sv) l;
  queue_last : s_queue_tail sv = last l;
  queue_nodup : NoDup l;
  queue_members i : i ∈ l ↔ ∃ m, msgs !! i = Some m ∧ in_queue x s i m;
}.

(** ** The static part: partitions, services and their signals *)

Definition manifest_of (rt : wt_ffm_runtime) (i : nat) : option wt_partition_manifest :=
  r_partitions rt !! i ≫= p_manifest.
Definition service_of (rt : wt_ffm_runtime) (s : nat) : option (wt_service_descriptor * nat) :=
  sv ← r_services rt !! s; d ← s_descriptor sv; Some (d, s_partition_index sv).

Definition single_bit (signal : Z) : Prop := ∃ k, 4 ≤ k < 32 ∧ signal = 1 .<< k.

Record static_ok (rt : wt_ffm_runtime) : Prop := {
  st_partitions : length (r_partitions rt) = WT_FFM_MAX_PARTITIONS;
  st_services : length (r_services rt) = WT_FFM_MAX_SERVICES;
  st_connections : length (r_connections rt) = WT_FFM_MAX_CONNECTIONS;
  st_messages : length (r_messages rt) = WT_FFM_MAX_MESSAGES;
  st_partition_count : (r_partition_count rt ≤ WT_FFM_MAX_PARTITIONS)%nat;
  st_service_count : (r_service_count rt ≤ WT_FFM_MAX_SERVICES)%nat;
  st_manifest i : (i < r_partition_count rt)%nat → is_Some (manifest_of rt i);
  st_service s : (s < r_service_count rt)%nat →
    ∃ d k, service_of rt s = Some (d, k) ∧ (k < r_partition_count rt)%nat ∧ single_bit (sd_signal d);
  st_distinct s1 s2 d1 d2 k : s1 ≠ s2 →
    (s1 < r_service_count rt)%nat → (s2 < r_service_count rt)%nat →
    service_of rt s1 = Some (d1, k) → service_of rt s2 = Some (d2, k) → sd_signal d1 ≠ sd_signal d2;
  st_interrupt s d k pm mi : (s < r_service_count rt)%nat → service_of rt s = Some (d, k) →
    manifest_of rt k = Some pm → mi ∈ items (pm_interrupts pm) →
    single_bit (mi_signal mi) ∧ mi_signal mi ≠ sd_signal d;
}.

(** ** Requests and their connections *)

(** In progress, or given up by its client and not yet answered. *)
Definition busy (m : wt_ffm_message_runtime) : bool :=
  is_abandoned (m_abandoned m) || negb (m_complete m).

(** An allocated request is attached to an allocated connection of its
    client, to its service; a busy request keeps the connection from being
    idle. *)
Definition attached (conns : list wt_ffm_connection_runtime) (m : wt_ffm_message_runtime) : Prop :=
  ∃ c, conns !! m_connection_index m = Some c ∧ c_allocated c = true ∧ c_caller c = m_caller m ∧
    c_service_index c = m_service_index m ∧
    (busy m = true → c_state c ≠ WT_IPC_CONNECTION_IDLE).

Definition quota_ok (conns : list wt_ffm_connection_runtime) : Prop :=
  (∀ caller, caller ≠ 0 → (count_if (owned_by caller) conns ≤ WT_FFM_MAX_CONNECTIONS_PER_CLIENT)%nat) ∧
  (count_if owned_by_ns conns ≤ WT_FFM_MAX_NS_CONNECTIONS)%nat.

(** The service's signal is asserted exactly while its queue is not empty. *)
Definition signal_ok (rt : wt_ffm_runtime) (s : nat) (sv : wt_ffm_service_runtime) : Prop :=
  ∀ d p, s_descriptor sv = Some d → r_partitions rt !! s_partition_index sv = Some p →
    has_any (p_asserted_signals p) (sd_signal d) = bool_decide (s_queue_head sv ≠ None).

Record inv (x : option nat) (B : nat → Prop) (rt : wt_ffm_runtime) : Prop := {
  inv_static : static_ok rt;
  inv_msg i m : r_messages rt !! i = Some m → msg_ok (r_service_count rt) m;
  inv_conn i c : r_connections rt !! i = Some c → conn_ok (r_service_count rt) c;
  inv_quota : quota_ok (r_connections rt);
  inv_attached i m : r_messages rt !! i = Some m → m_allocated m = true → x ≠ Some i →
    attached (r_connections rt) m;
  inv_unique i j mi mj : r_messages rt !! i = Some mi → r_messages rt !! j = Some mj →
    m_allocated mi = true → m_allocated mj = true → x ≠ Some i → x ≠ Some j →
    m_connection_index mi = m_connection_index mj → i = j;
  inv_queue s sv : (s < r_service_count rt)%nat → r_services rt !! s = Some sv → ¬ B s →
    (∃ l, queue (r_messages rt) x s sv l) ∧ signal_ok rt s sv;
}.

Definition wf (rt : wt_ffm_runtime) : Prop := inv None (λ _, False) rt.

(** ** Lookups that the invariant makes defined *)

Section lookups.
Context {x : option nat} {B : nat → Prop} {rt : wt_ffm_runtime}.
Hypothesis Hinv : inv x B rt.

Lemma lookup_msg i : (i < WT_FFM_MAX_MESSAGES)%nat → ∃ m, r_messages rt !! i = Some m.
Proof. intros Hi. apply lookup_lt_is_Some. by rewrite (st_messages _ (inv_static _ _ _ Hinv)). Qed.
Lemma lookup_msg_lt i m : r_messages rt !! i = Some m → (i < WT_FFM_MAX_MESSAGES)%nat.
Proof. intros Hi. rewrite <-(st_messages _ (inv_static _ _ _ Hinv)). by eapply lookup_lt_Some. Qed.
Lemma lookup_conn i : (i < WT_FFM_MAX_CONNECTIONS)%nat → ∃ c, r_connections rt !! i = Some c.
Proof. intros Hi. apply lookup_lt_is_Some. by rewrite (st_connections _ (inv_static _ _ _ Hinv)). Qed.
Lemma lookup_msg_conn i m : r_messages rt !! i = Some m → ∃ c, r_connections rt !! m_connection_index m = Some c.
Proof. intros Hi. by eapply lookup_conn, msg_conn, inv_msg. Qed.
Lemma lookup_part i : (i < r_partition_count rt)%nat →
  ∃ p pm, r_partitions rt !! i = Some p ∧ p_manifest p = Some pm.
Proof.
  intros Hi. destruct (st_manifest _ (inv_static _ _ _ Hinv) i Hi) as [pm Hpm].
  unfold manifest_of in Hpm. destruct (r_partitions rt !! i) as [p|]; [eauto|done].
Qed.
Lemma lookup_svc s : (s < r_service_count rt)%nat →
  ∃ sv d p pm, r_services rt !! s = Some sv ∧ s_descriptor sv = Some d ∧
    r_partitions rt !! s_partition_index sv = Some p ∧ p_manifest p = Some pm ∧
    (s_partition_index sv < r_partition_count rt)%nat ∧ single_bit (sd_signal d).
Proof.
  intros Hs. destruct (st_service _ (inv_static _ _ _ Hinv) s Hs) as (d & k & Hsv & Hk & Hbit).
  unfold service_of in Hsv. destruct (r_services rt !! s) as [sv|]; [|done]. simpl in Hsv.
  destruct (s_descriptor sv) as [d'|] eqn:Hd; simplify_eq/=.
  destruct (lookup_part _ Hk) as (p & pm & Hp & Hpm). exists sv, d, p, pm. auto 10.
Qed.
End lookups.

(** ** Weakening *)

Lemma inv_weaken x (B B' : nat → Prop) rt :
  (∀ s, (s < r_service_count rt)%nat → B s → B' s) → inv x B rt → inv x B' rt.
Proof. intros HB [? ? ? ? ? ? Hq]. constructor; eauto. Qed.

(** ** Queues under message updates *)

(** Two lists of slots that agree on who is queued for [s] and on the links
    of the queued slots represent the same queue. *)
Lemma queue_transfer msgs msgs' x x' s sv l :
  queue msgs x s sv l →
  (∀ i, (∃ m, msgs' !! i = Some m ∧ in_queue x' s i m) ↔ (∃ m, msgs !! i = Some m ∧ in_queue x s i m)) →
  (∀ i m, msgs !! i = Some m → in_queue x s i m → ∃ m', msgs' !! i = Some m' ∧ m_next m' = m_next m) →
  queue msgs' x' s sv l.
Proof.
  intros [Hc Hl Hn Hm] Hq Hnext. split; [|done|done|intros i; by rewrite Hm, Hq].
  assert (∀ i, i ∈ l → ∃ m m', msgs !! i = Some m ∧ msgs' !! i = Some m' ∧ m_next m' = m_next m) as Hlook.
  { intros i Hi. apply Hm in Hi as (m & Hi & Hin). destruct (Hnext i m Hi Hin) as (m' & ? & ?). eauto. }
  clear Hm Hn Hl Hq Hnext. revert Hc Hlook. generalize (s_queue_head sv).
  induction l as [|i l IH]; intros h; simpl; [done|]. intros [-> (m & Hi & Hc)] Hlook. split; [done|].
  destruct (Hlook i) as (m1 & m' & ? & ? & Hn); [set_solver|]. simplify_eq.
  exists m'. split; [done|]. rewrite Hn. apply IH; [done|]. set_solver.
Qed.

Lemma queue_put_msg msgs x x' s sv l i m m' :
  queue msgs x s sv l → msgs !! i = Some m →
  (in_queue x' s i m' ↔ in_queue x s i m) →
  (in_queue x s i m → m_next m' = m_next m) →
  (∀ j, j ≠ i → (x' = Some j ↔ x = Some j)) →
  queue (<[i := m']> msgs) x' s sv l.
Proof.
  intros Hq Hi Hiff Hnext Hx. assert (i < length msgs)%nat as Hlt by by eapply lookup_lt_Some.
  eapply queue_transfer; [done| |].
  - intros j. destruct (decide (j = i)) as [->|Hne].
    + rewrite list_lookup_insert_eq by done. rewrite Hi. split; intros (? & [= <-] & ?); naive_solver.
    + rewrite list_lookup_insert_ne by done. unfold in_queue.
      split; intros (m0 & ? & ? & ? & ?); exists m0; (split_and!; [done..|]); rewrite (Hx j Hne) in *; done.
  - intros j m0 Hj Hin. destruct (decide (j = i)) as [->|Hne].
    + rewrite list_lookup_insert_eq by done. simplify_eq. eauto.
    + rewrite list_lookup_insert_ne by done. eauto.
Qed.

(** ** The invariant under slot updates *)

Lemma static_messages rt l : length l = WT_FFM_MAX_MESSAGES → static_ok rt → static_ok (rt <| r_messages := l |>).
Proof. intros Hl []. by constructor. Qed.
Lemma static_connections rt l :
  length l = WT_FFM_MAX_CONNECTIONS → static_ok rt → static_ok (rt <| r_connections := l |>).
Proof. intros Hl []. by constructor. Qed.

(** No other attached request uses the connection of [m]. *)
Definition alone (rt : wt_ffm_runtime) (x : option nat) (i k : nat) : Prop :=
  ∀ j mj, j ≠ i → r_messages rt !! j = Some mj → m_allocated mj = true → x ≠ Some j → m_connection_index mj ≠ k.

Lemma inv_put_msg x x' B w i m m' :
  inv x B (rt w) → r_messages (rt w) !! i = Some m → msg_ok (r_service_count (rt w)) m' →
  (∀ s, (s < r_service_count (rt w))%nat → ¬ B s →
     (in_queue x' s i m' ↔ in_queue x s i m) ∧ (in_queue x s i m → m_next m' = m_next m)) →
  (∀ j, j ≠ i → (x' = Some j ↔ x = Some j)) →
  (m_allocated m' = true → x' ≠ Some i →
     attached (r_connections (rt w)) m' ∧ alone (rt w) x i (m_connection_index m')) →
  inv x' B (rt (put_msg i m' w)).
Proof.
  intros [Hst Hmsg Hconn Hquota Hatt Huniq Hq] Hi Hok Hqueue Hx Hnew.
  assert (i < length (r_messages (rt w)))%nat as Hlt by by eapply lookup_lt_Some.
  unfold put_msg; constructor; simpl.
  - apply static_messages; [|done]. rewrite length_insert. apply Hst.
  - intros j mj Hj. apply list_lookup_insert_Some in Hj as [(-> & <- & _)|(? & Hj)]; eauto.
  - done.
  - done.
  - intros j mj Hj Hal Hxj. apply list_lookup_insert_Some in Hj as [(-> & <- & _)|(Hne & Hj)].
    + by apply Hnew.
    + apply (Hatt j mj); [done..|]. intros Hc. by apply Hxj, Hx.
  - assert (∀ j mj, j ≠ i → r_messages (rt w) !! j = Some mj → m_allocated mj = true → x' ≠ Some j →
      m_allocated m' = true → x' ≠ Some i → m_connection_index m' = m_connection_index mj → False) as Hother.
    { intros j mj Hne Hj Hal Hxj Hal' Hxi Heq. destruct (Hnew Hal' Hxi) as [_ Halone].
      apply (Halone j mj Hne Hj Hal); [|done]. intros Hc. by apply Hxj, Hx. }
    intros j k mj mk Hj Hk Hjal Hkal Hxj Hxk Heq.
    apply list_lookup_insert_Some in Hj as [(-> & <- & _)|(Hnej & Hj)];
      apply list_lookup_insert_Some in Hk as [(-> & <- & _)|(Hnek & Hk)]; [done| | |].
    + exfalso. by apply (Hother k mk).
    + exfalso. by apply (Hother j mj).
    + apply (Huniq j k mj mk); try done; intros Hc; [by apply Hxj, Hx|by apply Hxk, Hx].
  - intros s sv Hs Hsv HB. destruct (Hq s sv Hs Hsv HB) as [[l Hl] Hsig]. split; [|done].
    exists l. destruct (Hqueue s Hs HB) as [Hiff Hnext]. by eapply queue_put_msg.
Qed.

(** The request in the slot is the same: only its progress differs. *)
Record same_slot (m m' : wt_ffm_message_runtime) : Prop := {
  same_allocated : m_allocated m' = m_allocated m;
  same_caller : m_caller m' = m_caller m;
  same_connection : m_connection_index m' = m_connection_index m;
  same_service : m_service_index m' = m_service_index m;
}.

Lemma attached_same conns m m' :
  same_slot m m' → (busy m' = true → busy m = true) →
  attached conns m → attached conns m'.
Proof.
  intros [Ha Hc Hi Hs] Hab (c & Hk & Hal & Hcal & Hsv & Hst). exists c.
  rewrite Hi, Hc, Hs. split_and!; auto.
Qed.

(** An update that keeps the request and its place in the queue. *)
Lemma inv_edit_msg x B w i m m' :
  inv x B (rt w) → r_messages (rt w) !! i = Some m → msg_ok (r_service_count (rt w)) m' →
  same_slot m m' → pending m' = pending m → (pending m = true → m_next m' = m_next m) →
  (busy m' = true → busy m = true) →
  inv x B (rt (put_msg i m' w)).
Proof.
  intros Hinv Hi Hok Hsame Hp Hn Hab. eapply inv_put_msg; [done..| |done|].
  - intros s _ _. unfold in_queue. rewrite Hp, (same_service _ _ Hsame). naive_solver.
  - rewrite (same_allocated _ _ Hsame), (same_connection _ _ Hsame). intros Hal Hxi. split.
    + eapply attached_same; [done..|]. by eapply inv_attached.
    + intros j mj Hne Hj Hjal Hxj Heq. apply Hne. by eapply (inv_unique _ _ _ Hinv j i mj m).
Qed.

(** A detached slot may be changed freely. *)
Lemma inv_edit_detached B w i m m' :
  inv (Some i) B (rt w) → r_messages (rt w) !! i = Some m → msg_ok (r_service_count (rt w)) m' →
  inv (Some i) B (rt (put_msg i m' w)).
Proof.
  intros Hinv Hi Hok. eapply inv_put_msg; [done..| |done|done]. intros s _ _. unfold in_queue. naive_solver.
Qed.

(** A slot that is in no queue may be detached while it changes. *)
Lemma inv_detach_put B w i m m' :
  inv None B (rt w) → r_messages (rt w) !! i = Some m → msg_ok (r_service_count (rt w)) m' →
  (pending m = true → B (m_service_index m)) →
  inv (Some i) B (rt (put_msg i m' w)).
Proof.
  intros Hinv Hi Hok Hp. eapply inv_put_msg; [done..| | |done].
  - intros s Hs HB. unfold in_queue. split; [split|]; [naive_solver| |]; intros (Hpm & <- & _); naive_solver.
  - intros j Hne. split; [intros [= ->]; done|done].
Qed.

(** A detached slot that is in no queue returns, free or attached. *)
Lemma inv_return_put B w i m m' :
  inv (Some i) B (rt w) → r_messages (rt w) !! i = Some m → msg_ok (r_service_count (rt w)) m' →
  pending m' = false →
  (m_allocated m' = true → attached (r_connections (rt w)) m' ∧ alone (rt w) None i (m_connection_index m')) →
  inv None B (rt (put_msg i m' w)).
Proof.
  intros Hinv Hi Hok Hp Hatt. eapply inv_put_msg; [done..| | |].
  - intros s _ _. unfold in_queue. rewrite Hp. naive_solver.
  - intros j Hne. split; [done|intros [= ->]; done].
  - intros Hal _. destruct (Hatt Hal) as [? Halone]. split; [done|].
    intros j mj Hne Hj Hjal _. by eapply Halone.
Qed.

(** Putting back the same slot changes nothing. *)
Lemma put_msg_id i m w : r_messages (rt w) !! i = Some m → rt (put_msg i m w) = rt w.
Proof. intros Hi. unfold put_msg; simpl. rewrite list_insert_id by done. by destruct (rt w). Qed.

Lemma inv_detach B w i m :
  inv None B (rt w) → r_messages (rt w) !! i = Some m → (pending m = true → B (m_service_index m)) →
  inv (Some i) B (rt w).
Proof.
  intros Hinv Hi Hp. rewrite <-(put_msg_id i m w Hi). eapply inv_detach_put; [done..| |done].
  by eapply inv_msg.
Qed.

Lemma inv_put_conn x B w k c c' :
  inv x B (rt w) → r_connections (rt w) !! k = Some c → conn_ok (r_service_count (rt w)) c' →
  quota_ok (<[k := c']> (r_connections (rt w))) →
  (∀ i m, r_messages (rt w) !! i = Some m → m_allocated m = true → x ≠ Some i → m_connection_index m = k →
     c_allocated c' = true ∧ c_caller c' = c_caller c ∧ c_service_index c' = c_service_index c ∧
     (busy m = true → c_state c' ≠ WT_IPC_CONNECTION_IDLE)) →
  inv x B (rt (put_conn k c' w)).
Proof.
  intros [Hst Hmsg Hconn Hquota Hatt Huniq Hq] Hk Hok Hquota' Hkeep. unfold put_conn; constructor; simpl.
  - apply static_connections; [|done]. rewrite length_insert. apply Hst.
  - done.
  - intros j cj Hj. apply list_lookup_insert_Some in Hj as [(-> & <- & _)|(? & Hj)]; eauto.
  - done.
  - intros i m Hi Hal Hx. destruct (Hatt i m Hi Hal Hx) as (c0 & Hc0 & Hal0 & Hcal0 & Hsv0 & Hst0).
    unfold attached. destruct (decide (m_connection_index m = k)) as [Heq|Hne].
    + subst k. simplify_eq. destruct (Hkeep i m Hi Hal Hx eq_refl) as (? & Hcal & Hsv & ?). exists c'.
      rewrite list_lookup_insert_eq by by eapply lookup_lt_Some. rewrite Hcal, Hsv. auto.
    + exists c0. rewrite list_lookup_insert_ne by done. auto.
  - done.
  - done.
Qed.

(** ** Quotas *)

Lemma count_if_insert {A} (f : A → bool) (l : list A) i y z :
  l !! i = Some y →
  (count_if f (<[i := z]> l) + Nat.b2n (f y) = count_if f l + Nat.b2n (f z))%nat.
Proof.
  unfold count_if. revert i. induction l as [|a l IH]; intros [|i] Hi; simplify_eq/=.
  - destruct (f y), (f z); simpl; lia.
  - specialize (IH i Hi). destruct (f a); simpl; lia.
Qed.

(** Replacing a connection by one that no client gains keeps the quotas. *)
Lemma quota_put conns k c c' :
  quota_ok conns → conns !! k = Some c →
  (c_allocated c' = false ∨ c_caller c' = 0 ∨ c_allocated c' = c_allocated c ∧ c_caller c' = c_caller c) →
  quota_ok (<[k := c']> conns).
Proof.
  intros [Hq Hns] Hk Hc. split.
  - intros caller Hne. specialize (Hq caller Hne).
    pose proof (count_if_insert (owned_by caller) conns k c c' Hk) as Hn.
    assert (owned_by caller c' = true → owned_by caller c = true) as Himp.
    { unfold owned_by. destruct Hc as [->|[->|[-> ->]]]; [done| |done].
      destruct (Z.eqb_spec 0 caller); [congruence|]. by rewrite andb_false_r. }
    destruct (owned_by caller c'); [rewrite Himp in Hn by done|]; simpl in Hn; lia.
  - pose proof (count_if_insert owned_by_ns conns k c c' Hk) as Hn.
    assert (owned_by_ns c' = true → owned_by_ns c = true) as Himp.
    { unfold owned_by_ns. destruct Hc as [->|[->|[-> ->]]]; [done| |done]. by rewrite andb_false_r. }
    destruct (owned_by_ns c'); [rewrite Himp in Hn by done|]; simpl in Hn; lia.
Qed.

(** The connection of an admitted client stays within the quotas. *)
Lemma quota_admit conns k c c' caller :
  quota_ok conns → conns !! k = Some c → (c_caller c = 0 ∨ c_allocated c = false) → c_caller c' = caller →
  (count_if (owned_by caller) conns < WT_FFM_MAX_CONNECTIONS_PER_CLIENT)%nat →
  (caller < 0 → (count_if owned_by_ns conns < WT_FFM_MAX_NS_CONNECTIONS)%nat) →
  quota_ok (<[k := c']> conns).
Proof.
  intros [Hq Hns] Hk Hc Hc' Hlt Hnslt.
  assert (∀ a, a ≠ 0 → owned_by a c = false) as Hown.
  { intros a Ha. unfold owned_by. destruct Hc as [-> | ->]; [|done].
    apply andb_false_iff. right. apply Z.eqb_neq. lia. }
  assert (owned_by_ns c = false) as Hownns.
  { unfold owned_by_ns. destruct Hc as [-> | ->]; [by rewrite andb_false_r|done]. }
  split.
  - intros a Ha. pose proof (count_if_insert (owned_by a) conns k c c' Hk) as Hn. rewrite (Hown a Ha) in Hn.
    destruct (decide (a = caller)) as [->|Hne].
    + destruct (owned_by caller c'); simpl in Hn; lia.
    + replace (owned_by a c') with false in Hn; [specialize (Hq a Ha); simpl in Hn; lia|].
      symmetry. unfold owned_by. apply andb_false_iff. right. apply Z.eqb_neq. congruence.
  - pose proof (count_if_insert owned_by_ns conns k c c' Hk) as Hn. rewrite Hownns in Hn.
    destruct (owned_by_ns c') eqn:E; simpl in Hn; [|lia].
    unfold owned_by_ns in E. bool_hyps. rewrite Hc' in *. specialize (Hnslt ltac:(lia)). lia.
Qed.

(** ** Connections *)

Record same_connection_slot (c c' : wt_ffm_connection_runtime) : Prop := {
  same_c_allocated : c_allocated c' = c_allocated c;
  same_c_caller : c_caller c' = c_caller c;
  same_c_service : c_service_index c' = c_service_index c;
  same_c_generation : c_generation c' = c_generation c;
}.

(** An allocated connection may change state, but not to idle under a busy
    request. *)
Lemma inv_edit_conn x B w k c c' :
  inv x B (rt w) → r_connections (rt w) !! k = Some c → c_allocated c = true → same_connection_slot c c' →
  (c_state c' ≠ WT_IPC_CONNECTION_IDLE ∨ c_state c' = c_state c ∨
   (∀ i m, r_messages (rt w) !! i = Some m → m_allocated m = true → x ≠ Some i →
      m_connection_index m = k → busy m = false)) →
  inv x B (rt (put_conn k c' w)).
Proof.
  intros Hinv Hk Hal [Hal' Hcal Hsv Hgen] Hidle. eapply inv_put_conn; [done..| | |].
  - destruct (inv_conn _ _ _ Hinv k c Hk) as [? ? ?]. constructor; rewrite ?Hgen, ?Hal', ?Hsv; [auto..|].
    by rewrite Hal.
  - eapply quota_put; [apply Hinv|done|auto 10].
  - intros i m Hi Hmal Hx Heq. split_and!; [congruence..|]. intros Hab Hst.
    destruct (inv_attached _ _ _ Hinv i m Hi Hmal Hx) as (c0 & Hc0 & _ & _ & _ & Hst0).
    rewrite Heq in Hc0. simplify_eq. destruct Hidle as [?|[?|Hno]]; [done| |].
    + apply Hst0; [done|congruence].
    + by rewrite (Hno i m) in Hab.
Qed.

Lemma next_generation_ok g : gen_ok (wt_ffm_next_generation g).
Proof.
  unfold wt_ffm_next_generation, gen_ok, WT_FFM_HANDLE_GEN_MASK.
  change 0x00FFFFFF with (Z.ones 24). rewrite Z.land_ones by lia.
  pose proof (Z.mod_pos_bound (u32 (g + 1)) (2 ^ 24) ltac:(lia)) as Hb.
  destruct (Z.eqb_spec (u32 (g + 1) mod 2 ^ 24) 0); lia.
Qed.

(** No attached request uses connection [k]. *)
Definition unused (rt : wt_ffm_runtime) (x : option nat) (k : nat) : Prop :=
  ∀ i m, r_messages rt !! i = Some m → m_allocated m = true → x ≠ Some i → m_connection_index m ≠ k.

Lemma conn_free_ok sc g : gen_ok g → conn_ok sc (connection_free g).
Proof. by constructor. Qed.

Lemma release_connection_spec x B k c w (Q : unit → world → Prop) :
  inv x B (rt w) → r_connections (rt w) !! k = Some c → unused (rt w) x k →
  (inv x B (rt (put_conn k (connection_free (wt_ffm_next_generation (c_generation c))) w)) →
   Q tt (put_conn k (connection_free (wt_ffm_next_generation (c_generation c))) w)) →
  fwp (wt_ffm_release_connection k) Q w.
Proof.
  intros Hinv Hk Hun HQ. apply fwp_fn. eapply wp_mod_conn; [done|]. apply HQ.
  eapply inv_put_conn; [done..| | |].
  - apply conn_free_ok, next_generation_ok.
  - eapply quota_put; [apply Hinv|done|by left].
  - intros i m Hi Hal Hx Heq. by destruct (Hun i m).
Qed.

(** ** Signals *)

Lemma has_any_lor a b s : has_any (a .| b) s = has_any a s || has_any b s.
Proof.
  unfold has_any. rewrite Z.land_lor_distr_l.
  destruct (Z.eqb_spec (a .& s) 0) as [->|Ha], (Z.eqb_spec (b .& s) 0) as [->|Hb]; simpl; try done;
    apply negb_true_iff, Z.eqb_neq; rewrite Z.lor_eq_0_iff; tauto.
Qed.

Lemma has_any_ldiff_same a s : has_any (a .&~ s) s = false.
Proof.
  unfold has_any. apply negb_false_iff, Z.eqb_eq, Z.bits_inj'. intros n Hn.
  rewrite Z.land_spec, Z.ldiff_spec, Z.testbit_0_l. destruct (Z.testbit a n), (Z.testbit s n); done.
Qed.

Lemma has_any_ldiff_disjoint a b s : b .& s = 0 → has_any (a .&~ b) s = has_any a s.
Proof.
  intros H. unfold has_any. do 2 f_equal. apply Z.bits_inj'. intros n Hn.
  rewrite !Z.land_spec, Z.ldiff_spec.
  assert (Z.testbit (b .& s) n = false) as Hb by by rewrite H, Z.testbit_0_l.
  rewrite Z.land_spec in Hb. destruct (Z.testbit a n), (Z.testbit b n), (Z.testbit s n); done.
Qed.

Lemma has_any_disjoint b s : b .& s = 0 → has_any b s = false.
Proof. unfold has_any. by intros ->. Qed.

Lemma single_bit_disjoint a b : single_bit a → single_bit b → a ≠ b → a .& b = 0.
Proof.
  intros (i & Hi & ->) (j & Hj & ->) Hne. apply land_shiftl_ne; [lia..|]. intros ->. done.
Qed.

Lemma single_bit_self a : single_bit a → has_any a a = true.
Proof.
  intros (i & Hi & ->). unfold has_any. rewrite Z.land_diag.
  apply negb_true_iff, Z.eqb_neq. pose proof (shiftl_one_pos i ltac:(lia)). lia.
Qed.

Lemma static_partitions rt l :
  length l = length (r_partitions rt) →
  (∀ i, l !! i ≫= p_manifest = r_partitions rt !! i ≫= p_manifest) → static_ok rt →
  static_ok (rt <| r_partitions := l |>).
Proof.
  intros Hl Hm [? ? ? ? ? ? Hma Hs Hd Hin]. constructor; simpl; try done.
  - congruence.
  - intros i Hi. destruct (Hma i Hi) as [pm Hpm]. exists pm. unfold manifest_of; simpl. by rewrite Hm.
  - intros s d k pm mi Hlt Hsv Hpm. unfold manifest_of in Hpm; simpl in Hpm. rewrite Hm in Hpm.
    by eapply Hin.
Qed.

Lemma inv_put_part x B w k p p' :
  inv x B (rt w) → r_partitions (rt w) !! k = Some p → p_manifest p' = p_manifest p →
  (∀ s sv d, (s < r_service_count (rt w))%nat → ¬ B s → r_services (rt w) !! s = Some sv →
     s_descriptor sv = Some d → s_partition_index sv = k →
     has_any (p_asserted_signals p') (sd_signal d) = has_any (p_asserted_signals p) (sd_signal d)) →
  inv x B (rt (put_part k p' w)).
Proof.
  intros [Hst Hmsg Hconn Hquota Hatt Huniq Hq] Hk Hm Hsig. unfold put_part; constructor; simpl; try done.
  - apply static_partitions; [by rewrite length_insert| |done]. intros i.
    destruct (decide (i = k)) as [->|Hne].
    + rewrite list_lookup_insert_eq by by eapply lookup_lt_Some. by rewrite Hk.
    + by rewrite list_lookup_insert_ne.
  - intros s sv Hs Hsv HB. destruct (Hq s sv Hs Hsv HB) as [Hl Hsg]. split; [done|].
    intros d p0 Hd Hp0. simpl in Hp0.
    apply list_lookup_insert_Some in Hp0 as [(Heq & <- & _)|(Hne & Hp0)]; [|by apply Hsg].
    rewrite (Hsig s sv d) by done. apply Hsg; [done|congruence].
Qed.

Lemma static_put_svc rt s sv sv' :
  static_ok rt → r_services rt !! s = Some sv → s_descriptor sv' = s_descriptor sv →
  s_partition_index sv' = s_partition_index sv →
  static_ok (rt <| r_services := <[s := sv']> (r_services rt) |>).
Proof.
  intros [? ? ? ? ? ? Hma Hs Hd Hin] Hsv Hde Hpa.
  assert (∀ i, service_of (rt <| r_services := <[s := sv']> (r_services rt) |>) i = service_of rt i) as Hof.
  { intros i. unfold service_of; simpl. destruct (decide (i = s)) as [->|Hne].
    - rewrite list_lookup_insert_eq by by eapply lookup_lt_Some. rewrite Hsv. simpl. by rewrite Hde, Hpa.
    - by rewrite list_lookup_insert_ne. }
  constructor; simpl; try done.
  - by rewrite length_insert.
  - intros i Hi. rewrite Hof. auto.
  - intros s1 s2 d1 d2 k. rewrite !Hof. eauto.
  - intros s1 d k pm mi. rewrite Hof. eauto.
Qed.

(** The queue of a service in [B] may be changed freely. *)
Lemma inv_put_svc x B w s sv sv' :
  inv x B (rt w) → r_services (rt w) !! s = Some sv → B s →
  s_descriptor sv' = s_descriptor sv → s_partition_index sv' = s_partition_index sv →
  inv x B (rt (put_svc s sv' w)).
Proof.
  intros [Hst Hmsg Hconn Hquota Hatt Huniq Hq] Hs HB Hd Hp. unfold put_svc; constructor; simpl; try done.
  - by eapply static_put_svc.
  - intros t svt Ht Hsvt HBt.
    apply list_lookup_insert_Some in Hsvt as [(-> & _)|(Hne & Hsvt)]; [done|by apply (Hq t svt)].
Qed.
