(* ===== verification/FfmQueue.v ===== *)
(** * FF-M service queues

    The linked lists of message slots implement FIFO queues: enqueue appends,
    get takes the head, dequeue removes one element, and each keeps the
    invariant and the service's signal. *)

From Stdlib Require Import ZArith Lia.
From stdpp Require Import base list numbers option sets.
From S2P Require Import Prelude Buffers CState Manifest Ipc FfmTypes FfmCore FfmWf.

(** ** Linked lists *)

Lemma chain_ext msgs msgs' h l :
  (∀ j m, j ∈ l → msgs !! j = Some m → ∃ m', msgs' !! j = Some m' ∧ m_next m' = m_next m) →
  chain msgs h l → chain msgs' h l.
Proof.
  revert h. induction l as [|j l IH]; intros h Hext; simpl; [done|]. intros [-> (m & Hj & Hc)].
  split; [done|]. destruct (Hext j m) as (m' & ? & Hn); [set_solver|done|]. exists m'. split; [done|].
  rewrite Hn. apply IH; [|done]. intros j' m'' Hj'. apply Hext. set_solver.
Qed.

(** An update outside the list, or one that keeps the link. *)
Lemma chain_insert msgs h l i m m' :
  msgs !! i = Some m → (i ∈ l → m_next m' = m_next m) → chain msgs h l → chain (<[i := m']> msgs) h l.
Proof.
  intros Hi Hn. apply chain_ext. intros j mj Hj Hmj. destruct (decide (j = i)) as [->|Hne].
  - rewrite list_lookup_insert_eq by by eapply lookup_lt_Some. simplify_eq. eauto.
  - rewrite list_lookup_insert_ne by done. eauto.
Qed.

Lemma chain_snoc msgs h l t mt i m :
  chain msgs h l → last l = Some t → NoDup l → msgs !! t = Some mt → i ∉ l →
  msgs !! i = Some m → m_next m = None →
  chain (<[t := mt <| m_next := Some i |>]> msgs) h (l ++ [i]).
Proof.
  intros Hc Hl Hn Ht Hi Hm Hnone. revert h Hc Hl. induction l as [|a l IH]; intros h; [done|].
  intros [-> (ma & Ha & Hc)] Hl. apply NoDup_cons in Hn as [Hal Hn]. split; [done|].
  destruct l as [|b l].
  - simplify_eq/=. eexists. split.
    + rewrite list_lookup_insert_eq by by eapply lookup_lt_Some. done.
    + simpl. split; [done|]. exists m. rewrite list_lookup_insert_ne by set_solver. by rewrite Hnone.
  - rewrite last_cons_cons in Hl. exists ma. split.
    + rewrite list_lookup_insert_ne; [done|]. intros ->. apply Hal. by apply last_Some_elem_of.
    + apply IH; [done|set_solver|done|done].
Qed.

Lemma chain_suffix msgs h l1 i l2 m :
  chain msgs h (l1 ++ i :: l2) → msgs !! i = Some m → chain msgs (m_next m) l2.
Proof.
  revert h. induction l1 as [|a l1 IH]; intros h; simpl; [|intros [_ (ma & _ & Hc)]; by eapply IH].
  intros [_ (m' & ? & ?)] ?. by simplify_eq.
Qed.

Lemma chain_remove msgs h l1 p i l2 mp mi :
  chain msgs h (l1 ++ i :: l2) → last l1 = Some p → NoDup (l1 ++ i :: l2) →
  msgs !! p = Some mp → msgs !! i = Some mi →
  chain (<[p := mp <| m_next := m_next mi |>]> msgs) h (l1 ++ l2).
Proof.
  intros Hc Hl Hn Hp Hi. revert h Hc Hl Hn. induction l1 as [|a l1 IH]; intros h; [done|].
  intros [-> (ma & Ha & Hc)] Hl Hn. simpl in Hn. apply NoDup_cons in Hn as [Hal Hn]. split; [done|].
  destruct l1 as [|b l1].
  - simplify_eq/=. destruct Hc as [Hnx (m' & ? & Hc)]. simplify_eq. eexists. split.
    + rewrite list_lookup_insert_eq by by eapply lookup_lt_Some. done.
    + simpl. eapply chain_insert; [done| |done]. set_solver.
  - rewrite last_cons_cons in Hl. exists ma. split.
    + rewrite list_lookup_insert_ne; [done|]. intros ->. apply Hal.
      apply elem_of_app. left. by apply last_Some_elem_of.
    + by apply IH.
Qed.

Lemma chain_unique msgs h l l' : chain msgs h l → chain msgs h l' → l = l'.
Proof.
  revert h l'. induction l as [|i l IH]; intros h [|i' l'] H1 H2; simpl in H1, H2.
  1-3: naive_solver.
  destruct H1 as [-> (m & Hi & Hc)], H2 as [[= <-] (m' & Hi' & Hc')]. simplify_eq. f_equal. by eapply IH.
Qed.
Lemma queue_unique msgs x s sv l l' : queue msgs x s sv l → queue msgs x s sv l' → l' = l.
Proof. intros [Hc _ _ _] [Hc' _ _ _]. by eapply chain_unique. Qed.

(** ** What a queue update leaves alone *)

Record queue_frame (w w' : world) : Prop := {
  qf_connections : r_connections (rt w') = r_connections (rt w);
  qf_counts : r_service_count (rt w') = r_service_count (rt w) ∧
              r_partition_count (rt w') = r_partition_count (rt w);
  qf_memory : memory w' = memory w;
  qf_port : port w' = port w;
  qf_messages j m : r_messages (rt w) !! j = Some m →
    ∃ n, r_messages (rt w') !! j = Some (m <| m_next := n |>);
  qf_services s : service_of (rt w') s = service_of (rt w) s;
  qf_partitions k p : r_partitions (rt w) !! k = Some p →
    ∃ a, r_partitions (rt w') !! k = Some (p <| p_asserted_signals := a |>);
}.

Lemma next_id m : m = m <| m_next := m_next m |>.
Proof. by destruct m. Qed.
Lemma signals_id p : p = p <| p_asserted_signals := p_asserted_signals p |>.
Proof. by destruct p. Qed.

Lemma qf_refl w : queue_frame w w.
Proof. constructor; try done; intros; eexists; [by rewrite <-next_id|by rewrite <-signals_id]. Qed.

Lemma qf_trans w1 w2 w3 : queue_frame w1 w2 → queue_frame w2 w3 → queue_frame w1 w3.
Proof.
  intros [A1 [A2 A2'] A3 A4 A5 A6 A7] [B1 [B2 B2'] B3 B4 B5 B6 B7]. constructor; try (etrans; done).
  - split; etrans; done.
  - intros j m Hj. destruct (A5 j m Hj) as [n Hn]. destruct (B5 _ _ Hn) as [n' Hn']. eexists. exact Hn'.
  - intros s. by rewrite B6.
  - intros k p Hk. destruct (A7 k p Hk) as [a Ha]. destruct (B7 _ _ Ha) as [a' Ha']. eexists. exact Ha'.
Qed.

Lemma qf_put_part w k p a :
  r_partitions (rt w) !! k = Some p → queue_frame w (put_part k (p <| p_asserted_signals := a |>) w).
Proof.
  intros Hk. constructor; try done; simpl.
  - intros. eexists. by rewrite <-next_id.
  - intros j pj Hj. destruct (decide (j = k)) as [->|Hne].
    + rewrite list_lookup_insert_eq by by eapply lookup_lt_Some. simplify_eq. eauto.
    + rewrite list_lookup_insert_ne by done. eexists. by rewrite <-signals_id.
Qed.

Lemma qf_put_svc w s sv sv' :
  r_services (rt w) !! s = Some sv → s_descriptor sv' = s_descriptor sv →
  s_partition_index sv' = s_partition_index sv → queue_frame w (put_svc s sv' w).
Proof.
  intros Hs Hd Hp. constructor; try done; simpl.
  - intros. eexists. by rewrite <-next_id.
  - intros t. unfold service_of; simpl. destruct (decide (t = s)) as [->|Hne].
    + rewrite list_lookup_insert_eq by by eapply lookup_lt_Some. rewrite Hs. simpl. by rewrite Hd, Hp.
    + by rewrite list_lookup_insert_ne.
  - intros. eexists. by rewrite <-signals_id.
Qed.

Lemma qf_put_msg w i m n :
  r_messages (rt w) !! i = Some m → queue_frame w (put_msg i (m <| m_next := n |>) w).
Proof.
  intros Hi. constructor; try done; simpl.
  - intros j mj Hj. destruct (decide (j = i)) as [->|Hne].
    + rewrite list_lookup_insert_eq by by eapply lookup_lt_Some. simplify_eq. eauto.
    + rewrite list_lookup_insert_ne by done. eexists. by rewrite <-next_id.
  - intros. eexists. by rewrite <-signals_id.
Qed.

(** Links apart, the slots are the same. *)
Lemma qf_members x B x' B' y s j w w' :
  queue_frame w w' → inv x B (rt w) → inv x' B' (rt w') →
  (∃ m, r_messages (rt w') !! j = Some m ∧ in_queue y s j m) ↔
  (∃ m, r_messages (rt w) !! j = Some m ∧ in_queue y s j m).
Proof.
  intros Hf Hinv Hinv'. split.
  - intros (m' & Hj & Hq). destruct (lookup_msg Hinv j) as [m Hm]; [by eapply (lookup_msg_lt Hinv')|].
    destruct (qf_messages _ _ Hf j m Hm) as [n Hn]. rewrite Hj in Hn. injection Hn as ->. by exists m.
  - intros (m & Hm & Hq). destruct (qf_messages _ _ Hf j m Hm) as [n Hn]. by eexists.
Qed.

(** ** The signal update *)

Lemma inv_close x (B : nat → Prop) rt s :
  inv x (λ t, t = s ∨ B t) rt →
  (∀ sv, r_services rt !! s = Some sv → (∃ l, queue (r_messages rt) x s sv l) ∧ signal_ok rt s sv) →
  inv x B rt.
Proof.
  intros [? ? ? ? ? ? Hq] Hs. constructor; try done. intros t sv Ht Hsv HB.
  destruct (decide (t = s)) as [->|Hne]; [by apply Hs|]. apply Hq; [done..|]. by intros [?|?].
Qed.

Lemma update_signal_spec x (B : nat → Prop) s sv w (Q : unit → world → Prop) :
  inv x (λ t, t = s ∨ B t) (rt w) → (s < r_service_count (rt w))%nat →
  r_services (rt w) !! s = Some sv → (∃ l, queue (r_messages (rt w)) x s sv l) →
  (∀ w', inv x B (rt w') → queue_frame w w' → r_services (rt w') = r_services (rt w) →
     r_messages (rt w') = r_messages (rt w) → Q tt w') →
  fwp (wt_ffm_update_service_signal s) Q w.
Proof.
  intros Hinv Hs Hsv Hl HQ. destruct (lookup_svc Hinv s Hs) as (sv0 & d & p & pm & Hsv0 & Hd & Hp & Hpm & Hk & Hbit).
  rewrite Hsv in Hsv0. injection Hsv0 as <-. apply fwp_fn, wp_bind. eapply wp_get_svc; [done|]. apply wp_bind. eapply wp_get_part; [done|].
  apply wp_bind. eapply wp_defined; [done|]. eapply wp_mod_part; [done|]. cbv beta.
  assert (∀ a, has_any a (sd_signal d) = bool_decide (s_queue_head sv ≠ None) →
    (∀ s', single_bit s' → s' ≠ sd_signal d → has_any a s' = has_any (p_asserted_signals p) s') →
    Q tt (put_part (s_partition_index sv) (p <| p_asserted_signals := a |>) w)) as Hmain.
  { intros a Hself Hother. apply HQ; [|by apply qf_put_part|done..].
    apply (inv_close _ _ _ s).
    - eapply inv_put_part; [done..|]. intros t svt dt Ht HB Hsvt Hdt Hkt. apply Hother.
      + destruct (lookup_svc Hinv t Ht) as (? & ? & ? & ? & ? & ? & ? & ? & ? & ?). by simplify_eq.
      + apply not_eq_sym. apply (st_distinct _ (inv_static _ _ _ Hinv) s t d dt (s_partition_index sv));
          [naive_solver|done..| |]; unfold service_of; [by rewrite Hsv; simpl; rewrite Hd|].
        rewrite Hsvt. simpl. by rewrite Hdt, Hkt.
    - simpl. intros sv1 Hsv1. rewrite Hsv in Hsv1. injection Hsv1 as <-. split; [done|]. intros d' p' Hd' Hp'. simpl in Hp'.
      rewrite list_lookup_insert_eq in Hp' by by eapply lookup_lt_Some. by simplify_eq/=. }
  destruct (bool_decide_reflect (s_queue_head sv = None)) as [Hhead|Hhead]; apply Hmain.
  - rewrite has_any_ldiff_same. by rewrite bool_decide_false by tauto.
  - intros s' Hb' Hne. apply has_any_ldiff_disjoint. apply single_bit_disjoint; auto.
  - rewrite has_any_lor, single_bit_self by done. rewrite orb_true_r. by rewrite bool_decide_true.
  - intros s' Hb' Hne. rewrite has_any_lor, (has_any_disjoint (sd_signal d)), orb_false_r; [done|].
    apply single_bit_disjoint; auto.
Qed.

(** The update of the signal alone: no queue has to be in order. *)
Lemma update_signal_keeps x B s w :
  inv x B (rt w) → (s < r_service_count (rt w))%nat →
  fwp (wt_ffm_update_service_signal s) (λ _ w', queue_frame w w' ∧
    length (r_partitions (rt w')) = WT_FFM_MAX_PARTITIONS) w.
Proof.
  intros Hinv Hs. destruct (lookup_svc Hinv s Hs) as (sv & d & p & pm & Hsv & Hd & Hp & _).
  apply fwp_fn, wp_bind. eapply wp_get_svc; [done|]. apply wp_bind. eapply wp_get_part; [done|].
  apply wp_bind. eapply wp_defined; [done|]. eapply wp_mod_part; [done|]. cbv beta.
  assert (∀ a, queue_frame w (put_part (s_partition_index sv) (p <| p_asserted_signals := a |>) w)) as Hf
    by (intros; by apply qf_put_part).
  destruct (bool_decide (s_queue_head sv = None)); (split; [apply Hf|]); simpl; rewrite length_insert; apply Hinv.
Qed.

(** ** Enqueue *)

(** [l] is the queue of service [s], message [x] left out. *)
Definition queue_of (rt : wt_ffm_runtime) (x : option nat) (s : nat) (l : list nat) : Prop :=
  ∃ sv, r_services rt !! s = Some sv ∧ queue (r_messages rt) x s sv l.

Lemma inv_queue_of x B rt s : inv x B rt → (s < r_service_count rt)%nat → ¬ B s → ∃ l, queue_of rt x s l.
Proof.
  intros Hinv Hs HB. destruct (lookup_svc Hinv s Hs) as (sv & _ & _ & _ & Hsv & _).
  destruct (inv_queue _ _ _ Hinv s sv Hs Hsv HB) as [[l Hl] _]. exists l, sv. done.
Qed.

Definition none : nat → Prop := λ _, False.
Definition only (s : nat) : nat → Prop := λ t, t = s ∨ none t.

(** The link of a queued message of an exempt service may change. *)
Lemma inv_relink x s t mt n w :
  inv x (only s) (rt w) → r_messages (rt w) !! t = Some mt → pending mt = true → m_service_index mt = s →
  inv x (only s) (rt (put_msg t (mt <| m_next := n |>) w)).
Proof.
  intros Hinv Hmt Hp Hst. eapply inv_put_msg; [done..| | |done|].
  - destruct (inv_msg _ _ _ Hinv t mt Hmt) as [? ? ? Hf ? ? ? ? ? ?]. constructor; try done.
    intros Hal. unfold pending in Hp. simpl in Hal. by rewrite Hal in Hp.
  - intros s' Hs' HB. unfold in_queue; simpl. split; [done|].
    intros (_ & Hs'' & _). destruct HB. left. congruence.
  - intros Hal Hx. split; [by eapply (inv_attached _ _ _ Hinv t mt)|].
    intros j mj Hne Hj Hjal Hxj Heq. apply Hne. by eapply (inv_unique _ _ _ Hinv j t mj mt).
Qed.

Lemma link_tail_spec s i m w l sv E (Q : unit → world → Prop) :
  inv (Some i) none (rt w) → (s < r_service_count (rt w))%nat → r_messages (rt w) !! i = Some m →
  m_next m = None → r_services (rt w) !! s = Some sv → queue (r_messages (rt w)) (Some i) s sv l →
  (∀ w' sv', inv (Some i) (only s) (rt w') → queue_frame w w' → r_messages (rt w') !! i = Some m →
     r_services (rt w') !! s = Some sv' → chain (r_messages (rt w')) (s_queue_head sv') (l ++ [i]) → Q tt w') →
  wp (link_tail s i) E Q w.
Proof.
  intros Hinv Hs Hi Hnone Hsv Hq HQ. apply wp_bind. eapply wp_get_svc; [done|]. cbv beta.
  assert (i ∉ l) as Hil. { rewrite (queue_members _ _ _ _ _ Hq). intros (? & _ & _ & _ & ?). done. }
  assert (inv (Some i) (only s) (rt w)) as Hinv' by by eapply inv_weaken; [|exact Hinv].
  rewrite (queue_last _ _ _ _ _ Hq). destruct (last l) as [t|] eqn:Hlast.
  - assert (t ∈ l) as Ht by by apply last_Some_elem_of.
    pose proof Ht as Ht'. apply (queue_members _ _ _ _ _ Hq) in Ht' as (mt & Hmt & Hp & Hst & Hxt).
    eapply wp_mod_msg; [done|]. eapply (HQ _ sv).
    + by apply inv_relink.
    + by apply qf_put_msg.
    + simpl. rewrite list_lookup_insert_ne; [done|]. naive_solver.
    + done.
    + simpl. eapply chain_snoc; [apply Hq|done|apply Hq|done..].
  - apply last_None in Hlast as ->. eapply wp_mod_svc; [done|]. eapply HQ.
    + eapply inv_put_svc; [exact Hinv'|done|by left|done..].
    + by eapply qf_put_svc.
    + done.
    + simpl. rewrite list_lookup_insert_eq; [done|]. by eapply lookup_lt_Some.
    + simpl. split; [done|]. exists m. by rewrite Hnone.
Qed.

Lemma enqueue_spec s i m w (Q : unit → world → Prop) :
  inv (Some i) none (rt w) → r_messages (rt w) !! i = Some m →
  pending m = true → m_service_index m = s → m_next m = None →
  attached (r_connections (rt w)) m → alone (rt w) None i (m_connection_index m) →
  (∀ w', wf (rt w') → queue_frame w w' →
     (∀ l, queue_of (rt w) (Some i) s l → queue_of (rt w') None s (l ++ [i])) → Q tt w') →
  fwp (wt_ffm_enqueue s i) Q w.
Proof.
  intros Hinv Hi Hp Hsi Hnone Hatt Halone HQ.
  assert (s < r_service_count (rt w))%nat as Hs.
  { subst s. eapply msg_svc; [by eapply inv_msg|]. unfold pending in Hp. by destruct (m_allocated m). }
  destruct (inv_queue_of _ _ _ s Hinv Hs ltac:(tauto)) as (l & sv & Hsv & Hq).
  assert (i ∉ l) as Hil. { rewrite (queue_members _ _ _ _ _ Hq). intros (? & _ & _ & _ & ?). done. }
  apply fwp_fn, wp_bind. eapply link_tail_spec; [done..|]. intros w1 sv1 Hinv1 Hf1 Hi1 Hsv1 Hc1.
  apply wp_bind. eapply wp_mod_svc; [done|]. cbv beta.
  assert (inv None (only s) (rt w1)) as Hnone1.
  { rewrite <-(put_msg_id i m w1 Hi1). eapply inv_put_msg; [exact Hinv1|done|by eapply inv_msg|..].
    - intros s' _ HB. unfold in_queue. split; [split|]; intros (_ & ? & ?); [|done..].
      destruct HB. left. congruence.
    - intros j Hne. split; [done|intros [= ->]; done].
    - intros _ _. rewrite (qf_connections _ _ Hf1). split; [done|].
      intros j mj Hne Hj Hjal _. assert (∃ mj0, r_messages (rt w) !! j = Some mj0 ∧
        m_allocated mj0 = m_allocated mj ∧ m_connection_index mj0 = m_connection_index mj) as (mj0 & Hj0 & Ha0 & Hc0).
      { destruct (lookup_msg Hinv j) as [mj0 Hj0]; [by eapply (lookup_msg_lt Hinv1)|].
        destruct (qf_messages _ _ Hf1 j mj0 Hj0) as [n Hn]. rewrite Hj in Hn. injection Hn as ->. eauto. }
      rewrite <-Hc0. eapply Halone; [done..|congruence|done]. }
  apply wp_call. set (w2 := put_svc s _ w1).
  assert (r_services (rt w2) !! s = Some (sv1 <| s_queue_tail := Some i |>)) as Hsv2.
  { simpl. rewrite list_lookup_insert_eq; [done|]. by eapply lookup_lt_Some. }
  assert (queue (r_messages (rt w2)) None s (sv1 <| s_queue_tail := Some i |>) (l ++ [i])) as Hq2.
  { split; simpl.
    - done.
    - by rewrite last_snoc.
    - apply NoDup_app. split_and!; [apply Hq| |apply NoDup_singleton]. set_solver.
    - intros j. rewrite elem_of_app, list_elem_of_singleton, (queue_members _ _ _ _ _ Hq).
      rewrite <-(qf_members _ _ _ _ _ _ _ _ _ Hf1 Hinv Hinv1). unfold in_queue.
      destruct (decide (j = i)) as [->|Hne]; [|naive_solver].
      split; [|by right]. intros _. exists m. auto. }
  eapply (update_signal_spec None none s _ w2); [..|done|by eexists|].
  - eapply inv_put_svc; [exact Hnone1|done|by left|done..].
  - simpl. by rewrite (proj1 (qf_counts _ _ Hf1)).
  - intros w3 Hinv3 Hf3 Hsv3 Hm3. apply HQ; [done| |].
    + eapply qf_trans; [exact Hf1|]. eapply qf_trans; [|exact Hf3]. by eapply qf_put_svc.
    + intros l' (sv' & Hsv' & Hq'). simplify_eq. replace l' with l; [|by eapply queue_unique].
      eexists. rewrite Hsv3, Hm3. done.
Qed.

(** A request can be queued whatever else its connection carries; only that
    the links and the signal change is known then. *)
Lemma enqueue_keeps s i m w :
  inv (Some i) none (rt w) → r_messages (rt w) !! i = Some m →
  pending m = true → m_service_index m = s → m_next m = None →
  fwp (wt_ffm_enqueue s i) (λ _ w', queue_frame w w' ∧ length (r_partitions (rt w')) = WT_FFM_MAX_PARTITIONS) w.
Proof.
  intros Hinv Hi Hp Hsi Hnone. assert (s < r_service_count (rt w))%nat as Hs.
  { subst s. eapply msg_svc; [by eapply inv_msg|]. unfold pending in Hp. by destruct (m_allocated m). }
  destruct (inv_queue_of _ _ _ s Hinv Hs ltac:(tauto)) as (l & sv & Hsv & Hq).
  apply fwp_fn, wp_bind. eapply link_tail_spec; [done..|]. intros w1 sv1 Hinv1 Hf1 _ Hsv1 _.
  apply wp_bind. eapply wp_mod_svc; [done|]. cbv beta. apply wp_call.
  eapply fwp_mono; [eapply update_signal_keeps|].
  - eapply inv_put_svc; [exact Hinv1|done|by left|done..].
  - simpl. by rewrite (proj1 (qf_counts _ _ Hf1)).
  - intros [] w2 [Hf2 Hlen]. split; [|done]. eapply qf_trans; [exact Hf1|]. eapply qf_trans; [|exact Hf2]. by eapply qf_put_svc.
Qed.

(** ** Dequeue *)

(** Unlinking the element after [l1]: from its predecessor or from the head. *)
Lemma unlink_previous_spec s i mi l1 l2 sv w E (Q : unit → world → Prop) :
  inv (Some i) (only s) (rt w) → r_services (rt w) !! s = Some sv →
  queue (r_messages (rt w)) None s sv (l1 ++ i :: l2) → r_messages (rt w) !! i = Some mi →
  (∀ w' sv', inv (Some i) (only s) (rt w') → queue_frame w w' → r_messages (rt w') !! i = Some mi →
     r_services (rt w') !! s = Some sv' → s_queue_tail sv' = s_queue_tail sv →
     chain (r_messages (rt w')) (s_queue_head sv') (l1 ++ l2) → Q tt w') →
  wp (unlink_previous s (last l1) (m_next mi)) E Q w.
Proof.
  intros Hinv Hsv Hq Hi HQ. destruct Hq as [Hc Hl Hn Hm]. unfold unlink_previous.
  destruct (last l1) as [p|] eqn:Hlast.
  - assert (p ∈ l1) as Hp by by apply last_Some_elem_of.
    assert (p ∈ l1 ++ i :: l2) as Hp' by set_solver. apply Hm in Hp' as (mp & Hmp & Hpp & Hsp & _).
    eapply wp_mod_msg; [done|]. eapply (HQ _ sv).
    + by apply inv_relink.
    + by apply qf_put_msg.
    + simpl. rewrite list_lookup_insert_ne; [done|]. intros ->. apply NoDup_app in Hn as (_ & Hn & _).
      by apply (Hn i); [|left].
    + done.
    + done.
    + simpl. by eapply chain_remove.
  - apply last_None in Hlast as ->. eapply wp_mod_svc; [done|]. eapply HQ.
    + eapply inv_put_svc; [done..|by left|done|done].
    + by eapply qf_put_svc.
    + done.
    + simpl. rewrite list_lookup_insert_eq; [done|]. by eapply lookup_lt_Some.
    + done.
    + simpl. by eapply (chain_suffix _ _ []).
Qed.

Lemma last_remove {A} (l1 l2 : list A) i :
  NoDup (l1 ++ i :: l2) →
  (last (l1 ++ i :: l2) = Some i → last l1 = last (l1 ++ l2)) ∧
  (last (l1 ++ i :: l2) ≠ Some i → last (l1 ++ i :: l2) = last (l1 ++ l2)).
Proof.
  intros Hn. destruct l2 as [|a l2] using rev_ind.
  - rewrite app_nil_r, last_snoc. split; [done|congruence].
  - rewrite app_comm_cons, !app_assoc, !last_snoc. split; [|done]. intros [= ->].
    apply NoDup_app in Hn as (_ & _ & Hn). apply NoDup_cons in Hn as [Hn _]. set_solver.
Qed.

Lemma unlink_spec s i mi l1 l2 sv w E (Q : unit → world → Prop) :
  inv None none (rt w) → r_services (rt w) !! s = Some sv →
  queue (r_messages (rt w)) None s sv (l1 ++ i :: l2) → r_messages (rt w) !! i = Some mi →
  (∀ w' sv', inv (Some i) (only s) (rt w') → queue_frame w w' → r_services (rt w') !! s = Some sv' →
     queue (r_messages (rt w')) (Some i) s sv' (l1 ++ l2) → Q tt w') →
  wp (unlink s i (last l1) (m_next mi)) E Q w.
Proof.
  intros Hinv Hsv Hq Hi HQ. unfold unlink.
  assert (i ∈ l1 ++ i :: l2) as Hil by set_solver.
  apply (queue_members _ _ _ _ _ Hq) in Hil as (mi' & Hi' & Hpi & Hsi & _).
  rewrite Hi in Hi'. injection Hi' as <-.
  assert (inv (Some i) (only s) (rt w)) as Hinv'.
  { eapply inv_detach; [by eapply inv_weaken; [|done]|done|]. intros _. by left. }
  apply wp_bind. eapply unlink_previous_spec; [done..|]. intros w1 sv1 Hinv1 Hf1 Hi1 Hsv1 Htail1 Hc1.
  apply wp_bind. eapply wp_get_svc; [done|]. apply wp_bind.
  destruct (last_remove _ _ _ (queue_nodup _ _ _ _ _ Hq)) as [Hlast1 Hlast2].
  rewrite <-(queue_last _ _ _ _ _ Hq) in Hlast1, Hlast2.
  pose proof (queue_nodup _ _ _ _ _ Hq) as Hn. rewrite <-Permutation_middle in Hn.
  assert (i ∉ l1 ++ l2) as Hil by by apply NoDup_cons in Hn as [? _].
  (* the tail is right, then the slot's own link is cleared *)
  assert (∀ w2 sv2, inv (Some i) (only s) (rt w2) → queue_frame w w2 → r_messages (rt w2) = r_messages (rt w1) →
    r_services (rt w2) !! s = Some sv2 → s_queue_head sv2 = s_queue_head sv1 → s_queue_tail sv2 = last (l1 ++ l2) →
    wp (mod_msg i (λ m, m <| m_next := None |>)) E Q w2) as Hfinish.
  { intros w2 sv2 Hinv2 Hf2 Hm2 Hsv2 Hh2 Ht2. eapply wp_mod_msg; [by rewrite Hm2|]. eapply HQ.
    - eapply inv_edit_detached; [done|by rewrite Hm2|].
      destruct (inv_msg _ _ _ Hinv2 i mi) as [? ? ? Hf ? ? ? ? ? ?]; [by rewrite Hm2|]. constructor; try done.
      intros Hal. unfold pending in Hpi. simpl in Hal. by rewrite Hal in Hpi.
    - eapply qf_trans; [done|]. apply qf_put_msg. by rewrite Hm2.
    - done.
    - simpl. rewrite Hm2. split.
      + rewrite Hh2. eapply chain_insert; [done|done|done].
      + done.
      + by apply NoDup_cons in Hn as [_ ?].
      + intros j. assert (j ∈ l1 ++ l2 ↔ j ∈ l1 ++ i :: l2 ∧ j ≠ i) as -> by set_solver.
        rewrite (queue_members _ _ _ _ _ Hq), <-Hm2, <-(qf_members _ _ _ _ _ _ _ _ _ Hf2 Hinv Hinv2).
        unfold in_queue. destruct (decide (j = i)) as [->|Hne]; [naive_solver|].
        rewrite list_lookup_insert_ne by done. naive_solver. }
  apply wp_when; intros Hb; [apply bool_decide_eq_true in Hb|apply bool_decide_eq_false in Hb]; rewrite Htail1 in Hb.
  - eapply wp_mod_svc; [done|]. eapply (Hfinish _ (sv1 <| s_queue_tail := last l1 |>)).
    + eapply inv_put_svc; [done..|by left|done|done].
    + eapply qf_trans; [done|]. by eapply qf_put_svc.
    + done.
    + simpl. rewrite list_lookup_insert_eq; [done|]. by eapply lookup_lt_Some.
    + done.
    + simpl. by apply Hlast1.
  - eapply (Hfinish _ sv1); [done..|]. rewrite Htail1. by apply Hlast2.
Qed.

Lemma dequeue_loop_spec fuel s i l1 l2 current sv w E (Q : unit → world → Prop) :
  inv None none (rt w) → r_services (rt w) !! s = Some sv →
  queue (r_messages (rt w)) None s sv (l1 ++ l2) → chain (r_messages (rt w)) current l2 →
  i ∉ l1 → (length l2 ≤ fuel)%nat →
  (i ∉ l1 ++ l2 → Q tt w) →
  (∀ la lb w' sv', l1 ++ l2 = la ++ i :: lb → inv (Some i) (only s) (rt w') → queue_frame w w' →
     r_services (rt w') !! s = Some sv' → queue (r_messages (rt w')) (Some i) s sv' (la ++ lb) → Q tt w') →
  wp (dequeue_loop fuel s i current (last l1)) E Q w.
Proof.
  revert l1 l2 current. induction fuel as [|fuel IH]; intros l1 [|j l2] current Hinv Hsv Hq Hc Hi1 Hfuel Hno Hyes;
    simpl in Hc, Hfuel.
  - subst current. simpl. apply wp_ret, Hno. by rewrite app_nil_r.
  - lia.
  - subst current. simpl. apply wp_ret, Hno. by rewrite app_nil_r.
  - destruct Hc as [-> (mj & Hj & Hc)]. simpl. apply wp_bind. eapply wp_get_msg; [done|]. cbv beta.
    destruct (Nat.eqb_spec j i) as [->|Hne].
    + eapply unlink_spec; [done..|]. intros w' sv' Hinv' Hf Hsv' Hq'. by eapply Hyes.
    + replace (Some j) with (last (l1 ++ [j])) by by rewrite last_snoc.
      assert (l1 ++ j :: l2 = (l1 ++ [j]) ++ l2) as Heq by by rewrite <-app_assoc.
      rewrite Heq in Hq, Hno. apply (IH (l1 ++ [j]) l2); try done; [set_solver|lia|].
      intros la lb w' sv' Hl. apply Hyes. congruence.
Qed.

Lemma queue_length x B rt s sv l :
  inv x B rt → queue (r_messages rt) x s sv l → (length l ≤ WT_FFM_MAX_MESSAGES)%nat.
Proof.
  intros Hinv [_ _ Hn Hm]. rewrite <-(length_seq WT_FFM_MAX_MESSAGES 0). apply submseteq_length.
  apply NoDup_submseteq; [done|]. intros i Hi. apply Hm in Hi as (m & Hi & _).
  apply elem_of_seq. pose proof (lookup_msg_lt Hinv i m Hi). lia.
Qed.

Lemma filter_ne (i : nat) (l : list nat) : i ∉ l → filter (λ j, j ≠ i) l = l.
Proof.
  induction l as [|a l IH]; [done|]. intros. rewrite filter_cons_True by set_solver.
  f_equal. apply IH. set_solver.
Qed.

Lemma dequeue_spec s i m w (Q : unit → world → Prop) :
  wf (rt w) → (s < r_service_count (rt w))%nat → r_messages (rt w) !! i = Some m →
  (pending m = true → m_service_index m = s) →
  (∀ w', inv (Some i) none (rt w') → queue_frame w w' →
     (∀ l, queue_of (rt w) None s l → queue_of (rt w') (Some i) s (filter (λ j, j ≠ i) l)) → Q tt w') →
  fwp (wt_ffm_dequeue_message s i) Q w.
Proof.
  intros Hinv Hs Hi Hpm HQ. destruct (inv_queue_of _ _ _ s Hinv Hs ltac:(tauto)) as (l & sv & Hsv & Hq).
  assert (∀ l', queue_of (rt w) None s l' → l' = l) as Huniq.
  { intros l' (sv' & ? & Hq'). simplify_eq. by eapply queue_unique. }
  apply fwp_fn, wp_bind. eapply wp_get_svc; [done|]. cbv beta. apply wp_bind.
  apply (dequeue_loop_spec _ s i [] l _ sv); [done..|apply Hq|set_solver|by eapply queue_length| |].
  - intros Hil. apply wp_call. eapply (update_signal_spec None none); [by eapply inv_weaken; [|done]|done|done|eauto|].
    intros w' Hinv' Hf Hsv' Hm'.
    assert (pending m = true → False) as Hnp.
    { intros Hp. apply Hil. apply (queue_members _ _ _ _ _ Hq). exists m. split; [done|].
      split_and!; auto. }
    apply HQ; [|done|].
    + eapply inv_detach; [done|by rewrite Hm'|]. intros Hp. by destruct Hnp.
    + intros l' Hl'. apply Huniq in Hl' as ->. exists sv. rewrite Hsv', Hm'. split; [done|].
      rewrite (filter_ne i l Hil).
      destruct Hq as [Hc Hl Hn Hmem]. split; [done..|]. intros j. rewrite Hmem. unfold in_queue.
      destruct (decide (j = i)) as [->|Hne]; [|naive_solver].
      split; [|naive_solver]. intros (m0 & Hm0 & Hp0 & _). exfalso. apply Hnp. congruence.
  - simpl. intros la lb w' sv' -> Hinv' Hf Hsv' Hq'. apply wp_call.
    eapply (update_signal_spec (Some i) none); [done|by rewrite (proj1 (qf_counts _ _ Hf))|done|eauto|].
    intros w'' Hinv'' Hf' Hsv'' Hm''. apply HQ; [done|by eapply qf_trans|].
    intros l' Hl'. apply Huniq in Hl' as ->. exists sv'. rewrite Hsv'', Hm''. split; [done|].
    replace (filter (λ j, j ≠ i) (la ++ i :: lb)) with (la ++ lb); [done|].
    pose proof (queue_nodup _ _ _ _ _ Hq) as Hn. apply NoDup_app in Hn as (Hna & Hdis & Hnb).
    apply NoDup_cons in Hnb as [Hib _].
    rewrite filter_app, filter_cons_False by tauto. rewrite !filter_ne; [done|done|set_solver].
Qed.
