(* ===== verification/FfmSlots.v ===== *)
(** * FF-M slots: allocation, release, handles, and what other clients keep

    [stable c] is what an operation of another client or of a service
    guarantees to client [c]: the requests [c] is waiting for stay in their
    slots. *)

From Stdlib Require Import ZArith Lia.
From stdpp Require Import base list numbers option sets.
From S2P Require Import Prelude Buffers CState Manifest Ipc FfmTypes FfmCore FfmWf FfmQueue.

(** ** Requests seen by their client *)

Record same_request (m m' : wt_ffm_message_runtime) : Prop := {
  sr_slot : same_slot m m';
  sr_generation : m_generation m' = m_generation m;
  sr_type : m_type m' = m_type m;
  sr_abandoned : m_abandoned m' = m_abandoned m;
  sr_out_count : m_out_count m' = m_out_count m;
  sr_out_size : m_out_size m' = m_out_size m;
  sr_out_offset : m_out_offset m' = m_out_offset m;
  sr_destinations : m_client_output m' = m_client_output m;
}.

Lemma same_slot_refl m : same_slot m m.
Proof. by constructor. Qed.
Lemma same_request_refl m : same_request m m.
Proof. by constructor. Qed.
#[export] Hint Resolve same_slot_refl same_request_refl : wt.

Lemma same_request_trans m1 m2 m3 : same_request m1 m2 → same_request m2 m3 → same_request m1 m3.
Proof. intros [[] ? ? ? ? ? ? ?] [[] ? ? ? ? ? ? ?]. constructor; [constructor|..]; congruence. Qed.

(** The request of client [c] in the slot is live: allocated, not given up. *)
Definition live (c : Z) (m : wt_ffm_message_runtime) : Prop :=
  m_allocated m = true ∧ m_caller m = c ∧ m_abandoned m = WT_FFM_ABANDONED_NONE.

Record stable (c : Z) (w w' : world) : Prop := {
  stable_counts : r_service_count (rt w') = r_service_count (rt w) ∧
                  r_partition_count (rt w') = r_partition_count (rt w);
  stable_services s : service_of (rt w') s = service_of (rt w) s;
  stable_manifests k : manifest_of (rt w') k = manifest_of (rt w) k;
  stable_requests i m : r_messages (rt w) !! i = Some m → live c m →
    ∃ m', r_messages (rt w') !! i = Some m' ∧ same_request m m';
}.

Lemma live_same c m m' : same_request m m' → live c m → live c m'.
Proof. intros [[] ? ? ? ? ? ? ?] (? & ? & ?). unfold live. split_and!; congruence. Qed.

#[export] Instance stable_preorder c : PreOrder (stable c).
Proof.
  split.
  - intros w. constructor; eauto with wt.
  - intros w1 w2 w3 [[A A'] B C D] [[A1 A1'] B1 C1 D1]. constructor; [split; congruence|..].
    + intros s. by rewrite B1.
    + intros k. by rewrite C1.
    + intros i m Hi Hl. destruct (D i m Hi Hl) as (m' & Hi' & Hs).
      destruct (D1 i m' Hi') as (m'' & ? & ?); [by eapply live_same|].
      eexists. split; [done|]. by eapply same_request_trans.
Qed.

Lemma stable_put_msg c w i m m' :
  r_messages (rt w) !! i = Some m → (live c m → same_request m m') → stable c w (put_msg i m' w).
Proof.
  intros Hi Hs. constructor; try done. simpl. intros j mj Hj Hl. destruct (decide (j = i)) as [->|Hne].
  - rewrite list_lookup_insert_eq by by eapply lookup_lt_Some. simplify_eq. eauto.
  - rewrite list_lookup_insert_ne by done. eauto with wt.
Qed.

Lemma stable_put_conn c w k cn : stable c w (put_conn k cn w).
Proof. constructor; try done. eauto with wt. Qed.

Lemma stable_put_part c w k p p' :
  r_partitions (rt w) !! k = Some p → p_manifest p' = p_manifest p → stable c w (put_part k p' w).
Proof.
  intros Hk Hm. constructor; try done; [|eauto with wt]. intros j. unfold manifest_of; simpl.
  destruct (decide (j = k)) as [->|Hne].
  - rewrite list_lookup_insert_eq by by eapply lookup_lt_Some. by rewrite Hk.
  - by rewrite list_lookup_insert_ne.
Qed.

Lemma stable_put_svc c w s sv sv' :
  r_services (rt w) !! s = Some sv → s_descriptor sv' = s_descriptor sv →
  s_partition_index sv' = s_partition_index sv → stable c w (put_svc s sv' w).
Proof.
  intros Hs Hd Hp. destruct (qf_put_svc w s sv sv' Hs Hd Hp). constructor; try done. eauto with wt.
Qed.

Lemma stable_links c w w' x B :
  inv x B (rt w) → queue_frame w w' → length (r_partitions (rt w')) = WT_FFM_MAX_PARTITIONS → stable c w w'.
Proof.
  intros Hinv Hf Hlen. constructor; [apply Hf|apply Hf| |].
  - intros k. unfold manifest_of. destruct (r_partitions (rt w) !! k) as [p|] eqn:Hk.
    + destruct (qf_partitions _ _ Hf k p Hk) as [a ->]. done.
    + apply lookup_ge_None in Hk. rewrite (st_partitions _ (inv_static _ _ _ Hinv)) in Hk.
      replace (r_partitions (rt w') !! k) with (@None wt_ffm_partition_runtime); [done|]. symmetry.
      apply lookup_ge_None. by rewrite Hlen.
  - intros i m Hi _. destruct (qf_messages _ _ Hf i m Hi) as [n Hn]. eexists. by split.
Qed.
Lemma stable_frame c w w' x B x' B' :
  inv x B (rt w) → inv x' B' (rt w') → queue_frame w w' → stable c w w'.
Proof. intros Hinv Hinv' Hf. eapply stable_links; [done..|]. apply Hinv'. Qed.

(** Changes of fields no operation on slots depends on. *)
Lemma stable_rt c w w' : rt w' = rt w → stable c w w'.
Proof. intros E. constructor; rewrite E; eauto with wt. Qed.

(** A free slot may be filled in several steps. *)
Lemma stable_fill c w w' i m m' :
  r_messages (rt w) !! i = Some m → m_allocated m = false →
  r_messages (rt w') = <[i := m']> (r_messages (rt w)) → r_partitions (rt w') = r_partitions (rt w) →
  r_services (rt w') = r_services (rt w) → r_service_count (rt w') = r_service_count (rt w) →
  r_partition_count (rt w') = r_partition_count (rt w) → stable c w w'.
Proof.
  intros Hi Hal Hm Hp Hs Hsc Hpc. constructor; unfold service_of, manifest_of; rewrite ?Hs, ?Hp; try done.
  intros j mj Hj (Hl & _). rewrite Hm, list_lookup_insert_ne; [eauto with wt|]. intros ->. congruence.
Qed.

(** ** Searches *)

Lemma search_spec l test :
  (∀ i, i ∈ l → ∃ b, test i = Some b) →
  ∃ r, search l test = Some r ∧
    match r with
    | Some i => i ∈ l ∧ test i = Some true
    | None => ∀ i, i ∈ l → test i = Some false
    end.
Proof.
  induction l as [|i l IH]; intros Hdef; simpl.
  - exists None. split; [done|]. set_solver.
  - destruct (Hdef i) as [b Hb]; [set_solver|]. rewrite Hb; simpl. destruct b.
    + exists (Some i). split; [done|]. split; [set_solver|done].
    + destruct IH as (r & -> & Hr); [set_solver|]. exists r. split; [done|].
      destruct r as [j|]; [set_solver|]. intros j [->|Hj]%elem_of_cons; auto.
Qed.

(** ** Allocation and release *)

Definition message_fresh (g : Z) : wt_ffm_message_runtime := message_free g <| m_allocated := true |>.
Definition connection_fresh (g : Z) : wt_ffm_connection_runtime := connection_free g <| c_allocated := true |>.

Lemma vec_zero_ok : vec_ok 0 (zeros PSA_MAX_IOVEC) (zeros PSA_MAX_IOVEC) (zeros PSA_MAX_IOVEC).
Proof. constructor; try done; lia. Qed.

Lemma message_free_ok sc g : gen_ok g → msg_ok sc (message_free g).
Proof. constructor; simpl; try done; try apply vec_zero_ok. unfold WT_FFM_MAX_CONNECTIONS. lia. Qed.

(** A message with no vectors, as connect and disconnect requests have. *)
Lemma message_fresh_ok sc g caller ci si type a :
  gen_ok g → (ci < WT_FFM_MAX_CONNECTIONS)%nat → (si < sc)%nat →
  msg_ok sc (message_fresh g <| m_caller := caller |> <| m_connection_index := ci |>
               <| m_service_index := si |> <| m_type := type |> <| m_abandoned := a |>).
Proof. constructor; simpl; try done; try apply vec_zero_ok. Qed.

Lemma alloc_message_spec w (Q : Z + nat → world → Prop) :
  wf (rt w) → (0 < r_service_count (rt w))%nat →
  Q (inl WT_FFM_ERROR_RESOURCE) w →
  (∀ i g, r_messages (rt w) !! i = Some (message_free g) → gen_ok g →
     inv (Some i) none (rt (put_msg i (message_fresh g) w)) →
     Q (inr i) (put_msg i (message_fresh g) w)) →
  fwp wt_ffm_alloc_message Q w.
Proof.
  intros Hinv Hsc Hfail HQ. apply fwp_fn, wp_bind, wp_gets, wp_bind.
  destruct (search_spec (seq 0 WT_FFM_MAX_MESSAGES) (λ i, negb ∘ m_allocated <$> r_messages (rt w) !! i))
    as (r & Hr & Hspec).
  { intros i Hi. apply elem_of_seq in Hi. destruct (lookup_msg Hinv i) as [m ->]; [lia|]. eauto. }
  eapply wp_defined; [done|]. destruct r as [i|]; [|by apply wp_ret].
  destruct Hspec as [Hi Ht]. destruct (r_messages (rt w) !! i) as [m|] eqn:Hm; simplify_eq/=.
  apply negb_true_iff in Ht. destruct (inv_msg _ _ _ Hinv i m Hm) as [Hgen _ _ Hfree _ _ _ _ _ _].
  specialize (Hfree Ht). apply wp_bind. eapply wp_mod_msg; [done|]. apply wp_ret.
  replace (m <| m_allocated := true |> <| m_next := None |>) with (message_fresh (m_generation m))
    by (rewrite Hfree; reflexivity).
  apply HQ; [congruence|done|]. eapply inv_detach_put; [done..| |].
  - apply message_fresh_ok; [done| |done]. unfold WT_FFM_MAX_CONNECTIONS; lia.
  - unfold pending. by rewrite Ht.
Qed.

Lemma release_message_spec B i m w (Q : unit → world → Prop) :
  inv (Some i) B (rt w) → r_messages (rt w) !! i = Some m →
  (inv None B (rt (put_msg i (message_free (wt_ffm_next_generation (m_generation m))) w)) →
   Q tt (put_msg i (message_free (wt_ffm_next_generation (m_generation m))) w)) →
  fwp (wt_ffm_release_message i) Q w.
Proof.
  intros Hinv Hi HQ. apply fwp_fn. eapply wp_mod_msg; [done|]. apply HQ.
  eapply inv_return_put; [done..| |done|done]. apply message_free_ok, next_generation_ok.
Qed.

Lemma alloc_connection_spec w (Q : Z + nat → world → Prop) :
  wf (rt w) → (0 < r_service_count (rt w))%nat →
  Q (inl WT_FFM_ERROR_RESOURCE) w →
  (∀ k g, r_connections (rt w) !! k = Some (connection_free g) → gen_ok g → unused (rt w) None k →
     wf (rt (put_conn k (connection_fresh g) w)) →
     Q (inr k) (put_conn k (connection_fresh g) w)) →
  fwp wt_ffm_alloc_connection Q w.
Proof.
  intros Hinv Hsc Hfail HQ. apply fwp_fn, wp_bind, wp_gets, wp_bind.
  destruct (search_spec (seq 0 WT_FFM_MAX_CONNECTIONS) (λ i, negb ∘ c_allocated <$> r_connections (rt w) !! i))
    as (r & Hr & Hspec).
  { intros i Hi. apply elem_of_seq in Hi. destruct (lookup_conn Hinv i) as [m ->]; [lia|]. eauto. }
  eapply wp_defined; [done|]. destruct r as [k|]; [|by apply wp_ret].
  destruct Hspec as [Hi Ht]. destruct (r_connections (rt w) !! k) as [c|] eqn:Hc; simplify_eq/=.
  apply negb_true_iff in Ht. destruct (inv_conn _ _ _ Hinv k c Hc) as [Hgen _ Hfree].
  specialize (Hfree Ht). apply wp_bind. eapply wp_mod_conn; [done|]. apply wp_ret.
  replace (c <| c_allocated := true |> <| c_state := WT_IPC_CONNECTION_FREE |> <| c_error_latch := false |>)
    with (connection_fresh (c_generation c)) by (rewrite Hfree; reflexivity).
  assert (unused (rt w) None k) as Hun.
  { intros i m Hm Hal Hx Heq. destruct (inv_attached _ _ _ Hinv i m Hm Hal Hx) as (c' & Hc' & Hal' & _).
    rewrite Heq in Hc'. congruence. }
  apply HQ; [congruence|done..|]. eapply inv_put_conn; [done..| | |].
  - constructor; simpl; [done|done|done].
  - eapply quota_put; [apply Hinv|done|]. right. by left.
  - intros i m Hm Hal Hx Heq. by destruct (Hun i m).
Qed.

(** ** Lookups by identifier and by handle *)

Lemma search_ext l f g : (∀ i, f i = g i) → search l f = search l g.
Proof. intros Hfg. induction l as [|i l IH]; simpl; [done|]. rewrite Hfg. by rewrite IH. Qed.

(** A client's instance depends on the partitions' manifests and instances only. *)
Lemma caller_instance_ext rt rt' caller :
  r_partition_count rt' = r_partition_count rt →
  (∀ k, (λ p, (p_manifest p, p_instance p)) <$> r_partitions rt' !! k =
        (λ p, (p_manifest p, p_instance p)) <$> r_partitions rt !! k) →
  wt_ffm_caller_instance rt' caller = wt_ffm_caller_instance rt caller.
Proof.
  intros Hc Hp. unfold wt_ffm_caller_instance, wt_ffm_find_partition. rewrite Hc. destruct (caller <=? 0); [done|].
  erewrite search_ext.
  2:{ intros i. specialize (Hp i). instantiate (1 := λ i, p ← r_partitions rt !! i; m ← p_manifest p;
        Some (pm_domain_id m =? u32 caller)).
      simpl. destruct (r_partitions rt' !! i), (r_partitions rt !! i); try done. injection Hp as Hm _. simpl. by rewrite Hm. }
  destruct (search _ _) as [[i|]|]; simpl; [|done..]. specialize (Hp i).
  destruct (r_partitions rt' !! i), (r_partitions rt !! i); try done. injection Hp as _ Hi. simpl. by rewrite Hi.
Qed.

Lemma frame_partitions w w' x B x' B' k :
  inv x B (rt w) → inv x' B' (rt w') → queue_frame w w' →
  (λ p, (p_manifest p, p_instance p)) <$> r_partitions (rt w') !! k =
  (λ p, (p_manifest p, p_instance p)) <$> r_partitions (rt w) !! k.
Proof.
  intros Hinv Hinv' Hf. destruct (r_partitions (rt w) !! k) as [p|] eqn:Hk.
  - by destruct (qf_partitions _ _ Hf k p Hk) as [a ->].
  - apply lookup_ge_None in Hk. rewrite (st_partitions _ (inv_static _ _ _ Hinv)) in Hk.
    rewrite (proj2 (lookup_ge_None (r_partitions (rt w')) k)); [done|].
    by rewrite (st_partitions _ (inv_static _ _ _ Hinv')).
Qed.

Section lookups.
Context {x : option nat} {B : nat → Prop} {rt : wt_ffm_runtime}.
Hypothesis Hinv : inv x B rt.

Lemma find_partition_spec pid :
  ∃ r, wt_ffm_find_partition rt pid = Some r ∧
    match r with
    | inr i => (i < r_partition_count rt)%nat ∧ 0 < pid ∧
        ∃ p pm, r_partitions rt !! i = Some p ∧ p_manifest p = Some pm ∧ pm_domain_id pm = u32 pid
    | inl e => e ≠ WT_FFM_SUCCESS
    end.
Proof.
  unfold wt_ffm_find_partition. destruct (Z.leb_spec pid 0); [by eexists|].
  destruct (search_spec (seq 0 (r_partition_count rt)) (λ i,
    p ← r_partitions rt !! i; m ← p_manifest p; Some (pm_domain_id m =? u32 pid))) as (r & -> & Hr).
  { intros i Hi. apply elem_of_seq in Hi. destruct (lookup_part Hinv i) as (p & pm & -> & Hpm); [lia|].
    simpl. rewrite Hpm. by eexists. }
  destruct r as [i|]; simpl; (eexists; split; [done|]); [|done].
  destruct Hr as [Hi Ht]. apply elem_of_seq in Hi.
  destruct (lookup_part Hinv i) as (p & pm & Hp & Hpm); [lia|]. rewrite Hp in Ht. simpl in Ht. rewrite Hpm in Ht.
  injection Ht as Ht. apply Z.eqb_eq in Ht. split_and!; [lia|lia|eauto].
Qed.

Lemma caller_instance_spec caller : is_Some (wt_ffm_caller_instance rt caller).
Proof.
  unfold wt_ffm_caller_instance. destruct (find_partition_spec caller) as (r & -> & Hr). simpl.
  destruct r as [e|i]; [by eexists|]. destruct Hr as (_ & _ & p & _ & -> & _). by eexists.
Qed.

Lemma find_service_spec sid :
  ∃ r, wt_ffm_find_service rt sid = Some r ∧
    match r with
    | inr s => (s < r_service_count rt)%nat ∧
        ∃ sv d, r_services rt !! s = Some sv ∧ s_descriptor sv = Some d ∧ sd_sid d = sid
    | inl e => e ≠ WT_FFM_SUCCESS
    end.
Proof.
  unfold wt_ffm_find_service. destruct (Z.eqb_spec sid 0); [by eexists|].
  destruct (search_spec (seq 0 (r_service_count rt)) (λ i,
    s ← r_services rt !! i; d ← s_descriptor s; Some (sd_sid d =? sid))) as (r & -> & Hr).
  { intros i Hi. apply elem_of_seq in Hi. destruct (lookup_svc Hinv i) as (sv & d & _ & _ & -> & Hd & _); [lia|].
    simpl. rewrite Hd. by eexists. }
  destruct r as [i|]; simpl; (eexists; split; [done|]); [|done].
  destruct Hr as [Hi Ht]. apply elem_of_seq in Hi.
  destruct (lookup_svc Hinv i) as (sv & d & _ & _ & Hsv & Hd & _); [lia|]. rewrite Hsv in Ht. simpl in Ht.
  rewrite Hd in Ht. injection Ht as Ht. apply Z.eqb_eq in Ht. split; [lia|eauto].
Qed.

Lemma caller_allowed_spec caller s : is_Some (wt_ffm_caller_allowed rt caller s).
Proof.
  unfold wt_ffm_caller_allowed. destruct (_ || _) eqn:E; [by eexists|]. bool_hyps.
  destruct (lookup_svc Hinv s) as (sv & d & _ & _ & -> & Hd & _); [lia|]. simpl. rewrite Hd. simpl.
  destruct (caller <? 0); [by eexists|].
  destruct (search_spec (seq 0 (r_partition_count rt)) (λ i,
    p ← r_partitions rt !! i; m ← p_manifest p; Some (pm_domain_id m =? u32 caller))) as (r & -> & Hr).
  { intros i Hi. apply elem_of_seq in Hi. destruct (lookup_part Hinv i) as (p & pm & -> & Hpm); [lia|].
    simpl. rewrite Hpm. by eexists. }
  simpl. destruct r as [i|]; [|by eexists]. destruct (_ =? _)%nat; [by eexists|].
  destruct Hr as [Hi _]. apply elem_of_seq in Hi.
  destruct (lookup_part Hinv i) as (p & pm & -> & Hpm); [lia|]. simpl. rewrite Hpm. by eexists.
Qed.

Lemma decode_handle_lt handle type limit i g :
  wt_ffm_decode_handle handle type limit = inr (i, g) → (i < limit)%nat.
Proof.
  unfold wt_ffm_decode_handle. destruct (handle <=? 0); [done|]. cbv zeta.
  destruct (_ || _ || _) eqn:E; [done|]. destruct (u32 handle .>> _ =? 0); [done|]. intros [= <- _].
  rewrite Z.gtb_ltb in E. bool_hyps.
  assert (0 ≤ u32 handle .& WT_FFM_HANDLE_INDEX_MASK); [|lia].
  apply Z.land_nonneg. left. apply u32_range.
Qed.

Lemma connection_from_handle_spec caller handle :
  ∃ r, wt_ffm_connection_from_handle rt caller handle = Some r ∧
    match r with
    | inr k => ∃ c, r_connections rt !! k = Some c ∧ c_allocated c = true ∧ c_caller c = caller ∧
        wt_ffm_decode_handle handle WT_FFM_HANDLE_CONNECTION WT_FFM_MAX_CONNECTIONS = inr (k, c_generation c) ∧
        wt_ffm_caller_instance rt caller = Some (c_client_instance c)
    | inl e => e ≠ WT_FFM_SUCCESS
    end.
Proof.
  unfold wt_ffm_connection_from_handle.
  destruct (wt_ffm_decode_handle _ _ _) as [e|[i g]] eqn:Hdec.
  - exists (inl e). split; [done|]. unfold wt_ffm_decode_handle in Hdec.
    destruct (handle <=? 0); [by simplify_eq|]. cbv zeta in Hdec.
    destruct (_ || _ || _); [by simplify_eq|]. destruct (_ =? 0); by simplify_eq.
  - destruct (lookup_conn Hinv i) as [c Hc]; [by eapply decode_handle_lt|]. rewrite Hc; simpl.
    destruct (_ || _) eqn:E; [by eexists|]. bool_hyps.
    destruct (Z.eqb_spec (c_caller c) caller); simpl; [|by eexists].
    destruct (caller_instance_spec caller) as [inst Hinst]. rewrite Hinst; simpl.
    destruct (Z.eqb_spec (c_client_instance c) inst); simpl; [|by eexists].
    eexists. split; [done|]. exists c. subst. auto.
Qed.

Lemma message_from_handle_spec pid handle :
  ∃ r, wt_ffm_message_from_handle rt pid handle = Some r ∧
    match r with
    | inr i => ∃ m, r_messages rt !! i = Some m ∧ m_allocated m = true ∧ m_active m = true ∧
        wt_ffm_decode_handle handle WT_FFM_HANDLE_MESSAGE WT_FFM_MAX_MESSAGES = inr (i, m_generation m) ∧
        ∃ d k pm, service_of rt (m_service_index m) = Some (d, k) ∧ manifest_of rt k = Some pm ∧
          pm_domain_id pm = u32 pid
    | inl e => e ≠ WT_FFM_SUCCESS
    end.
Proof.
  unfold wt_ffm_message_from_handle.
  destruct (wt_ffm_decode_handle _ _ _) as [e|[i g]] eqn:Hdec.
  - exists (inl e). split; [done|]. unfold wt_ffm_decode_handle in Hdec.
    destruct (handle <=? 0); [by simplify_eq|]. cbv zeta in Hdec.
    destruct (_ || _ || _); [by simplify_eq|]. destruct (_ =? 0); by simplify_eq.
  - destruct (lookup_msg Hinv i) as [m Hm]; [by eapply decode_handle_lt|]. rewrite Hm; simpl.
    destruct (_ || _ || _) eqn:E; [by eexists|]. bool_hyps.
    assert (m_service_index m < r_service_count rt)%nat as Hs by (eapply msg_svc; [by eapply inv_msg|done]).
    destruct (lookup_svc Hinv _ Hs) as (sv & d & p & pm & Hsv & Hd & Hp & Hpm & _).
    rewrite Hsv; simpl. rewrite Hp; simpl. rewrite Hpm; simpl.
    destruct (Z.eqb_spec (pm_domain_id pm) (u32 pid)); simpl; [|by eexists].
    eexists. split; [done|]. exists m. subst. split_and!; [done..|].
    exists d, (s_partition_index sv), pm. unfold service_of, manifest_of.
    rewrite Hsv; simpl. rewrite Hd; simpl. rewrite Hp. auto.
Qed.
End lookups.
