(* ===== verification/FfmServiceWf.v ===== *)
(** * The service operations keep the invariant

    Every operation a partition performs on its signals and messages is free
    of undefined behaviour from a well-formed runtime, leaves it well-formed
    and keeps the live requests of every client in their slots. *)

From Stdlib Require Import ZArith Lia.
From stdpp Require Import base list numbers option sets.
From S2P Require Import Prelude Buffers CState Manifest Ipc FfmTypes FfmCore FfmService FfmWf FfmQueue FfmSlots.

Definition keeps (c : Z) (w w' : world) : Prop := wf (rt w') ∧ stable c w w'.

Lemma keeps_refl c w : wf (rt w) → keeps c w w.
Proof. by split. Qed.
#[export] Hint Resolve keeps_refl : wt.

Lemma keeps_trans c w1 w2 w3 : keeps c w1 w2 → keeps c w2 w3 → keeps c w1 w3.
Proof. intros [_ H1] [? H2]. split; [done|]. by etrans. Qed.

(** ** Signals *)

Lemma doorbell_disjoint s : single_bit s → PSA_DOORBELL .& s = 0.
Proof. intros (k & Hk & ->). apply (land_shiftl_ne 3 k); lia. Qed.

Lemma service_signal_bit x B rt s sv d :
  inv x B rt → (s < r_service_count rt)%nat → r_services rt !! s = Some sv → s_descriptor sv = Some d →
  single_bit (sd_signal d).
Proof.
  intros Hinv Hs Hsv Hd. destruct (lookup_svc Hinv s Hs) as (? & ? & ? & ? & ? & ? & ? & ? & ? & ?).
  by simplify_eq.
Qed.

(** Updating signals that no service owns. *)
Lemma keeps_signals c w k p p' :
  wf (rt w) → r_partitions (rt w) !! k = Some p → p_manifest p' = p_manifest p →
  (∀ s d, (s < r_service_count (rt w))%nat → service_of (rt w) s = Some (d, k) → single_bit (sd_signal d) →
     has_any (p_asserted_signals p') (sd_signal d) = has_any (p_asserted_signals p) (sd_signal d)) →
  keeps c w (put_part k p' w).
Proof.
  intros Hinv Hk Hm Hsig. split; [|by eapply stable_put_part].
  eapply inv_put_part; [done..|]. intros s sv d Hs _ Hsv Hd Hpi. apply (Hsig s); [done| |by eapply service_signal_bit].
  unfold service_of. rewrite Hsv; simpl. rewrite Hd; simpl. by rewrite Hpi.
Qed.

Lemma notify_keeps c pid w : wf (rt w) → fwp (wt_ffm_notify pid) (λ _ w', keeps c w w') w.
Proof.
  intros Hinv. apply fwp_fn, wp_bind, wp_gets, wp_bind.
  destruct (find_partition_spec Hinv pid) as (r & Hr & Hspec). eapply wp_defined; [done|].
  destruct r as [e|i]; [by apply wp_early, keeps_refl|].
  destruct Hspec as (_ & _ & p & pm & Hp & _). apply wp_bind. eapply wp_mod_part; [done|]. apply wp_ret.
  eapply keeps_signals; [done..|]. intros s d _ _ Hbit. simpl.
  by rewrite has_any_lor, (has_any_disjoint PSA_DOORBELL), orb_false_r by by apply doorbell_disjoint.
Qed.

Lemma clear_keeps c pid w : wf (rt w) → fwp (wt_ffm_clear pid) (λ _ w', keeps c w w') w.
Proof.
  intros Hinv. apply fwp_fn, wp_bind, wp_gets, wp_bind.
  destruct (find_partition_spec Hinv pid) as (r & Hr & Hspec). eapply wp_defined; [done|].
  destruct r as [e|i]; [by apply wp_early, keeps_refl|].
  destruct Hspec as (_ & _ & p & pm & Hp & _). apply wp_bind. eapply wp_get_part; [done|].
  apply wp_if; intros _; [by apply wp_early, keeps_refl|].
  apply wp_bind. eapply wp_mod_part; [done|]. apply wp_ret.
  eapply keeps_signals; [done..|]. intros s d _ _ Hbit. simpl.
  apply has_any_ldiff_disjoint. by apply doorbell_disjoint.
Qed.

(** ** Interrupts *)

Lemma testbit_signals (l : list wt_manifest_interrupt) (a k : Z) :
  Z.testbit (foldl (λ mask i, mask .| mi_signal i) a l) k = true →
  Z.testbit a k = true ∨ ∃ mi, mi ∈ l ∧ Z.testbit (mi_signal mi) k = true.
Proof.
  revert a. induction l as [|mi l IH]; intros a; simpl; [by left|].
  intros [H|(mi' & ? & ?)]%IH; [|right; exists mi'; set_solver].
  rewrite Z.lor_spec, orb_true_iff in H. destruct H; [by left|right]. exists mi. set_solver.
Qed.

(** A single signal that meets the declared interrupts is one of them. *)
Lemma single_interrupt irq (l : list wt_manifest_interrupt) :
  0 ≤ irq < 2 ^ 32 → not_single_signal irq = false →
  (∀ mi, mi ∈ l → single_bit (mi_signal mi)) →
  irq .& foldl (λ mask i, mask .| mi_signal i) 0 l ≠ 0 → ∃ mi, mi ∈ l ∧ mi_signal mi = irq.
Proof.
  intros Hr Hs Hb Hm. unfold not_single_signal in Hs. bool_hyps. rewrite u32_small in * by lia.
  assert (irq = 1 .<< Z.log2 irq) as Hirq by (apply land_pred_zero; [lia|done]).
  pose proof (Z.log2_nonneg irq) as Hk. set (k := Z.log2 irq) in *. rewrite Hirq in Hm.
  rewrite Z.land_comm, land_bit in Hm by done. destruct (Z.testbit _ k) eqn:Ht; [|done].
  apply testbit_signals in Ht as [Ht|(mi & Hmi & Ht)]; [by rewrite Z.testbit_0_l in Ht|].
  exists mi. split; [done|]. destruct (Hb mi Hmi) as (j & Hj & Hsig). rewrite Hsig, Z.shiftl_1_l in Ht.
  destruct (decide (j = k)) as [->|Hne]; [congruence|]. by rewrite Z.pow2_bits_false in Ht.
Qed.

(** The interrupts of a partition are not signals of its services. *)
Lemma interrupt_other x B rt s d k p mi :
  inv x B rt → (s < r_service_count rt)%nat → service_of rt s = Some (d, k) →
  r_partitions rt !! k = Some p → mi ∈ manifest_interrupts p →
  mi_signal mi .& sd_signal d = 0.
Proof.
  intros Hinv Hs Hsv Hp Hmi. unfold manifest_interrupts in Hmi.
  destruct (p_manifest p) as [pm|] eqn:Hpm; [|by apply not_elem_of_nil in Hmi].
  destruct (st_interrupt _ (inv_static _ _ _ Hinv) s d k pm mi) as [Hb Hne]; [done..| |done|].
  { unfold manifest_of. by rewrite Hp. }
  apply single_bit_disjoint; [done| |done].
  destruct (st_service _ (inv_static _ _ _ Hinv) s Hs) as (d' & k' & ? & ? & ?). by simplify_eq.
Qed.

Lemma eoi_keeps c pid irq w :
  wf (rt w) → 0 ≤ irq < 2 ^ 32 → fwp (wt_ffm_eoi pid irq) (λ _ w', keeps c w w') w.
Proof.
  intros Hinv Hirq. apply fwp_fn, wp_bind, wp_gets, wp_bind.
  destruct (find_partition_spec Hinv pid) as (r & Hr & Hspec). eapply wp_defined; [done|].
  destruct r as [e|i]; [by apply wp_early, keeps_refl|].
  destruct Hspec as (_ & _ & p & pm & Hp & Hpm & _).
  apply wp_if; intros Hsingle; [by apply wp_early, keeps_refl|].
  apply wp_bind. eapply wp_get_part; [done|]. cbv zeta.
  apply wp_if; intros Hmask; [by apply wp_early, keeps_refl|].
  apply wp_if; intros _; [by apply wp_early, keeps_refl|].
  apply wp_bind. eapply wp_mod_part; [done|]. apply wp_ret.
  eapply keeps_signals; [done..|]. intros s d Hs Hsv _. simpl. apply has_any_ldiff_disjoint.
  apply Z.eqb_neq in Hmask. destruct (single_interrupt irq (manifest_interrupts p)) as (mi & Hmi & <-); try done.
  - intros mi Hmi. unfold manifest_interrupts in Hmi. rewrite Hpm in Hmi.
    apply (st_interrupt _ (inv_static _ _ _ Hinv) s d i pm mi); [done..| |done].
    unfold manifest_of. by rewrite Hp.
  - by eapply interrupt_other.
Qed.

Lemma assert_signal_keeps c pid irq w :
  wf (rt w) → fwp (wt_ffm_assert_signal pid irq) (λ _ w', keeps c w w') w.
Proof.
  intros Hinv. apply fwp_fn, wp_bind, wp_gets, wp_bind. unfold wt_ffm_irq_lookup.
  destruct (find_partition_spec Hinv pid) as (r & Hr & Hspec). rewrite Hr. simpl.
  destruct r as [e|i]; [eapply wp_defined; [done|]; by apply wp_early, keeps_refl|].
  destruct Hspec as (_ & _ & p & pm & Hp & Hpm & _).
  destruct (not_single_signal irq); [eapply wp_defined; [done|]; by apply wp_early, keeps_refl|].
  rewrite Hp. simpl. destruct (List.find _ _) as [mi|] eqn:Hfind;
    (eapply wp_defined; [done|]); simpl; [|by apply wp_early, keeps_refl].
  apply wp_bind. eapply wp_defined; [done|]. apply wp_bind. eapply wp_mod_part; [done|]. apply wp_ret.
  apply List.find_some in Hfind as [Hmi Heq]. apply list_elem_of_In in Hmi. apply Z.eqb_eq in Heq. subst irq.
  eapply keeps_signals; [done..|]. intros s d Hs Hsv _. simpl.
  rewrite has_any_lor, (has_any_disjoint (mi_signal mi)), orb_false_r; [done|]. by eapply interrupt_other.
Qed.

(** ** Vectors *)

Lemma vec_advance n size offset position j sz off p len :
  vec_ok n size offset position → (j < n)%nat → size !! j = Some sz → offset !! j = Some off →
  position !! j = Some p → 0 ≤ len → p + len ≤ sz →
  vec_ok n size offset (<[j := p + len]> position).
Proof.
  intros [Hc Hs Ho Hp Hb] Hj Hsz Hoff Hpos H0 Hle. constructor; [done..| |].
  - by rewrite length_insert.
  - intros j' sz' off' p' Hj' Hsz' Hoff' Hp'.
    apply list_lookup_insert_Some in Hp' as [(-> & <- & _)|(_ & Hp')]; [|by eapply Hb].
    destruct (Hb j' sz off p) as (? & ? & ?); [done..|].
    assert (sz' = sz ∧ off' = off) as [-> ->] by (split; congruence). lia.
Qed.

(** The fields of vector [j], in bounds. *)
Lemma vec_lookup n size offset position j :
  vec_ok n size offset position → (j < n)%nat →
  ∃ sz off p, arr_get size j = Some sz ∧ arr_get offset j = Some off ∧ arr_get position j = Some p ∧
    0 ≤ off ∧ 0 ≤ p ≤ sz ∧ off + sz ≤ WT_FFM_TRANSFER_BYTES ∧ u32 (sz - p) = sz - p.
Proof.
  intros [Hc Hs Ho Hp Hb] Hj.
  destruct (lookup_lt_is_Some_2 size j) as [sz Hsz]; [lia|].
  destruct (lookup_lt_is_Some_2 offset j) as [off Hoff]; [lia|].
  destruct (lookup_lt_is_Some_2 position j) as [p Hpos]; [lia|].
  destruct (Hb j sz off p) as (? & ? & ?); [done..|]. exists sz, off, p. unfold arr_get.
  split_and!; try done; try lia. apply u32_small. unfold WT_FFM_TRANSFER_BYTES in *. lia.
Qed.

(** ** Message data *)

Lemma put_msg_slot i m m' w : r_messages (rt w) !! i = Some m → r_messages (rt (put_msg i m' w)) !! i = Some m'.
Proof. intros Hi. simpl. rewrite list_lookup_insert_eq; [done|]. by eapply lookup_lt_Some. Qed.
Lemma put_msg_put i m m' w : put_msg i m' (put_msg i m w) = put_msg i m' w.
Proof. unfold put_msg; simpl. by rewrite list_insert_insert_eq. Qed.

(** An update of the transfer state of an active message. *)
Lemma keeps_active_msg c w i m m' :
  wf (rt w) → r_messages (rt w) !! i = Some m → m_allocated m = true → m_active m = true →
  m_active m' = true → same_request m m' → msg_ok (r_service_count (rt w)) m' →
  keeps c w (put_msg i m' w).
Proof.
  intros Hinv Hi Hal Hact Hact' Hs Hok. split; [|by eapply stable_put_msg].
  eapply inv_edit_msg; [done..|apply Hs| | |].
  - unfold pending. rewrite Hact, Hact'. by rewrite !andb_false_r.
  - unfold pending. rewrite Hact. by rewrite andb_false_r.
  - intros _. unfold busy. rewrite (msg_active _ _ (inv_msg _ _ _ Hinv i m Hi) Hact). by rewrite orb_true_r.
Qed.

Lemma msg_ok_in_position sc m l :
  msg_ok sc m → m_allocated m = true → vec_ok (m_in_count m) (m_in_size m) (m_in_offset m) l →
  msg_ok sc (m <| m_in_position := l |>).
Proof. intros [] Hal Hv. constructor; try done. simpl. congruence. Qed.

Lemma msg_ok_output sc m b l :
  msg_ok sc m → m_allocated m = true → length b = length (m_output m) →
  vec_ok (m_out_count m) (m_out_size m) (m_out_offset m) l →
  msg_ok sc (m <| m_output := b |> <| m_out_position := l |>).
Proof. intros [] Hal Hb Hv. constructor; try done; simpl; congruence. Qed.

(** Vector [idx] of the request in slot [i], which the partition [pid] has taken. *)
Record open_vector (rt : wt_ffm_runtime) (pid h : Z) (idx : nat) (vectors : wt_ffm_message_runtime → nat)
    (i : nat) (m : wt_ffm_message_runtime) : Prop := {
  op_handle : wt_ffm_message_from_handle rt pid h = Some (inr i);
  op_slot : r_messages rt !! i = Some m;
  op_call : PSA_IPC_CALL ≤ m_type m;
  op_index : (idx < vectors m)%nat;
}.

Lemma put_msg_same i m w : r_messages (rt w) !! i = Some m → put_msg i m w = w.
Proof. intros Hi. destruct w as [r ? ? ? ? ?]. unfold put_msg. simpl in *. rewrite list_insert_id by done. by destruct r. Qed.

Lemma in_position_id m : m = m <| m_in_position := m_in_position m |>.
Proof. by destruct m. Qed.
Lemma output_id m : m = m <| m_output := m_output m |> <| m_out_position := m_out_position m |>.
Proof. by destruct m. Qed.

(** Whatever refuses an access to a vector, there is no open vector. *)
Lemma closed_index x B rt pid h idx vectors :
  inv x B rt → (PSA_MAX_IOVEC ≤ idx)%nat → (∀ m, msg_ok (r_service_count rt) m → (vectors m ≤ PSA_MAX_IOVEC)%nat) →
  ∀ i m, ¬ open_vector rt pid h idx vectors i m.
Proof.
  intros Hinv Hidx Hv i m [_ Hi _ Hlt]. specialize (Hv m (inv_msg _ _ _ Hinv i m Hi)). lia.
Qed.

Lemma in_vectors_max sc m : msg_ok sc m → (m_in_count m ≤ PSA_MAX_IOVEC)%nat.
Proof. intros Hok. apply (msg_in _ _ Hok). Qed.
Lemma out_vectors_max sc m : msg_ok sc m → (m_out_count m ≤ PSA_MAX_IOVEC)%nat.
Proof. intros Hok. apply (msg_out _ _ Hok). Qed.

Lemma read_spec pid h idx buffer n w (Q : Z * list Z → world → Prop) :
  wf (rt w) → 0 ≤ n →
  (buffer = false ∨ (∀ i m, ¬ open_vector (rt w) pid h idx m_in_count i m) → Q (0, []) w) →
  (∀ i m sz off p bytes, open_vector (rt w) pid h idx m_in_count i m → m_allocated m = true → m_active m = true →
     m_in_size m !! idx = Some sz → m_in_offset m !! idx = Some off → m_in_position m !! idx = Some p →
     buf_read (m_input m) (off + p) (Z.min n (sz - p)) = Some bytes →
     Q (Z.min n (sz - p), bytes)
       (put_msg i (m <| m_in_position := <[idx := p + Z.min n (sz - p)]> (m_in_position m) |>) w)) →
  fwp (wt_ffm_read pid h idx buffer n) Q w.
Proof.
  intros Hinv Hn Herr HQ. apply fwp_fn, wp_if; intros Hb.
  { apply wp_early, Herr. apply orb_true_iff in Hb as [?%negb_true_iff|Hi%Nat.leb_le]; [by left|right].
    eapply closed_index; [done..|apply in_vectors_max]. }
  bool_hyps.
  apply wp_bind, wp_gets, wp_bind. destruct (message_from_handle_spec Hinv pid h) as (r & Hr & Hspec).
  eapply wp_defined; [done|]. destruct r as [e|i]; [apply wp_early, Herr; right; intros ? ? []; congruence|].
  destruct Hspec as (m & Hm & Hal & Hact & _). apply wp_bind. eapply wp_get_msg; [done|].
  apply wp_if; intros Hc.
  { apply wp_early, Herr. right. intros i' m' [Hh Hs Ht Hix]. rewrite Hr in Hh. injection Hh as <-.
    rewrite Hm in Hs. injection Hs as <-. unfold PSA_IPC_CALL in *.
    apply orb_true_iff in Hc as [?%Z.ltb_lt|?%Nat.leb_le]; lia. }
  bool_hyps. pose proof (inv_msg _ _ _ Hinv i m Hm) as Hok. pose proof (msg_in _ _ Hok) as Hv.
  destruct (vec_lookup _ _ _ _ idx Hv) as (sz & off & p & Hsz & Hoff & Hp & ? & ? & ? & Hu); [lia|].
  assert (open_vector (rt w) pid h idx m_in_count i m) as Hopen by (split; [done|done|lia|lia]).
  apply wp_bind; eapply wp_defined; [done|]. apply wp_bind; eapply wp_defined; [done|].
  apply wp_bind; eapply wp_defined; [done|]. cbv zeta. rewrite Hu.
  replace (if n <? sz - p then n else sz - p) with (Z.min n (sz - p)) by (destruct (Z.ltb_spec n (sz - p)); lia).
  destruct (buf_read_spec (m_input m) (off + p) (Z.min n (sz - p))) as (bytes & Hb' & Hlb); [lia|lia| |].
  { rewrite (msg_input _ _ Hok). unfold WT_FFM_TRANSFER_BYTES in *. lia. }
  specialize (HQ i m sz off p bytes Hopen Hal Hact Hsz Hoff Hp Hb'). apply wp_if; intros Hz.
  { bool_hyps. rewrite Hz, Z.add_0_r, list_insert_id in HQ by done. rewrite Hz in Hlb.
    destruct bytes; [|simpl in Hlb; lia]. rewrite <-in_position_id, put_msg_same in HQ by done. by apply wp_ret. }
  apply wp_bind; eapply wp_defined; [done|]. rewrite u32_small by (unfold WT_FFM_TRANSFER_BYTES in *; lia).
  apply wp_bind. eapply wp_try_msg; [done| |by apply wp_ret].
  rewrite arr_set_spec; [done|]. rewrite (vec_position _ _ _ _ Hv). pose proof (vec_count _ _ _ _ Hv). lia.
Qed.

(** Advancing the input position of a taken request. *)
Lemma advance_keeps c w i m idx sz off p len :
  wf (rt w) → r_messages (rt w) !! i = Some m → m_allocated m = true → m_active m = true → (idx < m_in_count m)%nat →
  m_in_size m !! idx = Some sz → m_in_offset m !! idx = Some off → m_in_position m !! idx = Some p →
  0 ≤ len → p + len ≤ sz →
  keeps c w (put_msg i (m <| m_in_position := <[idx := p + len]> (m_in_position m) |>) w).
Proof.
  intros Hinv Hm Hal Hact Hi Hsz Hoff Hp Hl Hle. pose proof (inv_msg _ _ _ Hinv i m Hm) as Hok.
  eapply keeps_active_msg; [done..|by constructor|]. apply msg_ok_in_position; [done..|].
  eapply vec_advance; [apply Hok|done..].
Qed.

Lemma read_keeps c pid h idx buffer n w :
  wf (rt w) → 0 ≤ n → fwp (wt_ffm_read pid h idx buffer n) (λ _ w', keeps c w w') w.
Proof.
  intros Hinv Hn. apply read_spec; [done..|intros _; by apply keeps_refl|].
  intros i m sz off p bytes [_ Hm _ Hi] Hal Hact Hsz Hoff Hp _. pose proof (inv_msg _ _ _ Hinv i m Hm) as Hok.
  pose proof (vec_bounds _ _ _ _ (msg_in _ _ Hok) idx sz off p Hi Hsz Hoff Hp).
  eapply advance_keeps; [done..| |]; lia.
Qed.

Lemma skip_keeps c pid h idx n w :
  wf (rt w) → 0 ≤ n → fwp (wt_ffm_skip pid h idx n) (λ _ w', keeps c w w') w.
Proof.
  intros Hinv Hn. apply fwp_fn, wp_if; intros _; [by apply wp_early, keeps_refl|].
  apply wp_bind, wp_gets, wp_bind. destruct (message_from_handle_spec Hinv pid h) as (r & Hr & Hspec).
  eapply wp_defined; [done|]. destruct r as [e|i]; [by apply wp_early, keeps_refl|].
  destruct Hspec as (m & Hm & Hal & Hact & _). apply wp_bind. eapply wp_get_msg; [done|].
  apply wp_if; intros Hc; [by apply wp_early, keeps_refl|]. bool_hyps.
  pose proof (inv_msg _ _ _ Hinv i m Hm) as Hok. pose proof (msg_in _ _ Hok) as Hv.
  destruct (vec_lookup _ _ _ _ idx Hv) as (sz & off & p & Hsz & Hoff & Hp & ? & ? & ? & Hu); [lia|].
  apply wp_bind; eapply wp_defined; [done|]. apply wp_bind; eapply wp_defined; [done|]. cbv zeta. rewrite Hu.
  set (len := if n <? sz - p then n else sz - p).
  assert (0 ≤ len ∧ p + len ≤ sz) as [Hlen0 Hlen] by (unfold len; destruct (Z.ltb_spec n (sz - p)); lia).
  rewrite u32_small by (unfold WT_FFM_TRANSFER_BYTES in *; lia).
  apply wp_bind. eapply wp_try_msg; [done| |].
  { rewrite arr_set_spec; [done|]. rewrite (vec_position _ _ _ _ Hv). pose proof (vec_count _ _ _ _ Hv). lia. }
  apply wp_ret. eapply keeps_active_msg; [done..|by constructor|].
  apply msg_ok_in_position; [done..|]. eapply vec_advance; [done| |exact Hsz|exact Hoff|exact Hp|done|done]. lia.
Qed.

Lemma count_items {A} (a : carray A) : is_null a = false → length (items a) = count a.
Proof. by destruct a. Qed.

Lemma write_spec pid h idx buffer w (Q : Z → world → Prop) :
  wf (rt w) →
  (∀ e, (e = WT_FFM_SUCCESS → count buffer = 0%nat) →
     (is_null buffer = true ∧ count buffer ≠ 0%nat) ∨ (∀ i m, ¬ open_vector (rt w) pid h idx m_out_count i m) →
     Q e w) →
  (∀ i m sz p, open_vector (rt w) pid h idx m_out_count i m → m_out_size m !! idx = Some sz →
     m_out_position m !! idx = Some p → sz - p < Z.of_nat (count buffer) → Q WT_FFM_ERROR_BUFFER w) →
  (∀ i m sz off p b, open_vector (rt w) pid h idx m_out_count i m → m_allocated m = true → m_active m = true →
     m_out_size m !! idx = Some sz → m_out_offset m !! idx = Some off → m_out_position m !! idx = Some p →
     Z.of_nat (count buffer) ≤ sz - p → buf_write (m_output m) (off + p) (items buffer) = Some b →
     length (items buffer) = count buffer →
     Q WT_FFM_SUCCESS (put_msg i (m <| m_output := b |>
       <| m_out_position := <[idx := p + Z.of_nat (count buffer)]> (m_out_position m) |>) w)) →
  fwp (wt_ffm_write pid h idx buffer) Q w.
Proof.
  intros Hinv Herr Hbig HQ. apply fwp_fn. cbv zeta. apply wp_if; intros Hnull.
  { apply wp_early, Herr; [done|]. apply orb_true_iff in Hnull as [[Hnl Hz]%andb_true_iff|Hi%Nat.leb_le].
    - left. split; [done|]. apply negb_true_iff in Hz. bool_hyps. lia.
    - right. eapply closed_index; [done..|apply out_vectors_max]. }
  assert (length (items buffer) = count buffer) as Hlen.
  { apply orb_false_iff in Hnull as [Hnl _]. destruct buffer as [[|n]|]; [done| |done]. simpl in Hnl. bool_hyps. lia. }
  clear Hnull. apply wp_bind, wp_gets, wp_bind. destruct (message_from_handle_spec Hinv pid h) as (r & Hr & Hspec).
  eapply wp_defined; [done|].
  destruct r as [e|i]; [apply wp_early, Herr; [done|]; right; intros ? ? []; congruence|].
  destruct Hspec as (m & Hm & Hal & Hact & _). apply wp_bind. eapply wp_get_msg; [done|].
  assert (∀ i' m', open_vector (rt w) pid h idx m_out_count i' m' → PSA_IPC_CALL ≤ m_type m ∧ (idx < m_out_count m)%nat) as Hop.
  { intros i' m' [Hh Hs Ht Hi]. rewrite Hr in Hh. injection Hh as <-. rewrite Hm in Hs. by injection Hs as <-. }
  unfold PSA_IPC_CALL in *.
  apply wp_if; intros Ht; bool_hyps; [apply wp_early, Herr; [done|]; right; intros ? ? ?%Hop; lia|].
  apply wp_if; intros Hc; bool_hyps.
  { apply wp_early, Herr; [|right; intros ? ? ?%Hop; lia].
    destruct (Z.eqb_spec (Z.of_nat (count buffer)) 0); [lia|done]. }
  pose proof (inv_msg _ _ _ Hinv i m Hm) as Hok. pose proof (msg_out _ _ Hok) as Hv.
  assert (open_vector (rt w) pid h idx m_out_count i m) as Hopen by (split; [done|done|unfold PSA_IPC_CALL; lia|lia]).
  destruct (vec_lookup _ _ _ _ idx Hv) as (sz & off & p & Hsz & Hoff & Hp & ? & ? & ? & Hu); [lia|].
  apply wp_bind; eapply wp_defined; [done|]. apply wp_bind; eapply wp_defined; [done|].
  apply wp_bind; eapply wp_defined; [done|]. rewrite Hu.
  apply wp_if; intros Hfit; rewrite Z.gtb_ltb in Hfit; bool_hyps; [by apply wp_early; eapply Hbig|].
  destruct (buf_write_spec (m_output m) (off + p) (items buffer)) as (b & Hb & Hbl); [lia| |].
  { rewrite (msg_output _ _ Hok). unfold WT_FFM_TRANSFER_BYTES in *. lia. }
  specialize (HQ i m sz off p b Hopen Hal Hact Hsz Hoff Hp Hfit Hb Hlen).
  apply wp_bind, wp_when; intros Hn.
  - apply wp_bind. eapply wp_try_msg; [done|by rewrite Hb|]. eapply wp_try_msg; [by eapply put_msg_slot| |].
    { simpl. rewrite arr_set_spec; [done|]. rewrite (vec_position _ _ _ _ Hv). pose proof (vec_count _ _ _ _ Hv). lia. }
    rewrite u32_small by (unfold WT_FFM_TRANSFER_BYTES in *; lia). apply wp_ret. by rewrite put_msg_put.
  - apply negb_false_iff in Hn. bool_hyps. apply wp_ret. rewrite Hn, Z.add_0_r, list_insert_id in HQ by done.
    destruct (items buffer); [|simpl in Hlen; lia]. rewrite buf_write_nil in Hb by (rewrite (msg_output _ _ Hok); unfold WT_FFM_TRANSFER_BYTES in *; lia).
    injection Hb as <-. by rewrite <-output_id, put_msg_same in HQ.
Qed.

Lemma write_keeps c pid h idx buffer w :
  wf (rt w) → fwp (wt_ffm_write pid h idx buffer) (λ _ w', keeps c w w') w.
Proof.
  intros Hinv. apply write_spec; [done|intros; by apply keeps_refl..|].
  intros i m sz off p b [_ Hm _ Hi] Hal Hact Hsz Hoff Hp Hfit Hb Hlen. pose proof (inv_msg _ _ _ Hinv i m Hm) as Hok.
  pose proof (vec_bounds _ _ _ _ (msg_out _ _ Hok) idx sz off p Hi Hsz Hoff Hp).
  eapply keeps_active_msg; [done..|by constructor|]. apply msg_ok_output; [done..| |].
  - by eapply buf_write_length.
  - eapply vec_advance; [apply Hok|done..| |]; lia.
Qed.

(** ** Connections of active messages *)

Lemma attached_conn x B rt i m :
  inv x B rt → r_messages rt !! i = Some m → m_allocated m = true → x ≠ Some i →
  ∃ c, r_connections rt !! m_connection_index m = Some c ∧ c_allocated c = true ∧
    c_caller c = m_caller m ∧ c_service_index c = m_service_index m.
Proof.
  intros Hinv Hi Hal Hx. destruct (inv_attached _ _ _ Hinv i m Hi Hal Hx) as (c & ? & ? & ? & ? & _). eauto.
Qed.

Lemma set_rhandle_keeps c pid h rhandle w :
  wf (rt w) → fwp (wt_ffm_set_rhandle pid h rhandle) (λ _ w', keeps c w w') w.
Proof.
  intros Hinv. apply fwp_fn, wp_bind, wp_gets, wp_bind.
  destruct (message_from_handle_spec Hinv pid h) as (r & Hr & Hspec). eapply wp_defined; [done|].
  destruct r as [e|i]; [by apply wp_early, keeps_refl|]. destruct Hspec as (m & Hm & Hal & _).
  apply wp_bind. eapply wp_get_msg; [done|]. apply wp_if; intros _; [by apply wp_early, keeps_refl|].
  destruct (attached_conn _ _ _ i m Hinv Hm Hal) as (cn & Hcn & Hcal & _); [done|].
  apply wp_bind. eapply wp_mod_conn; [done|]. apply wp_ret. split; [|apply stable_put_conn].
  eapply inv_edit_conn; [done..|by constructor|]. right; by left.
Qed.

(** ** Get *)

(** The update of the queue and the message that [wt_ffm_get] performs. *)
Lemma pop_queue s sv i l m w :
  wf (rt w) → (s < r_service_count (rt w))%nat → r_services (rt w) !! s = Some sv →
  queue (r_messages (rt w)) None s sv (i :: l) → r_messages (rt w) !! i = Some m →
  let sv' := (let s := sv <| s_queue_head := m_next m |> in
              if bool_decide (s_queue_head s = None) then s <| s_queue_tail := None |> else s) in
  let w' := put_msg i (m <| m_next := None |> <| m_active := true |>) (put_svc s sv' w) in
  inv None (only s) (rt w') ∧ r_services (rt w') !! s = Some sv' ∧
  queue (r_messages (rt w')) None s sv' l.
Proof.
  intros Hinv Hs Hsv Hq Hi sv' w'. destruct Hq as [Hc Hlast Hn Hmem].
  assert (s_descriptor sv' = s_descriptor sv ∧ s_partition_index sv' = s_partition_index sv ∧
          s_queue_head sv' = m_next m) as (Hd & Hp & Hh).
  { unfold sv'. simpl. by destruct (bool_decide _). }
  assert (i ∈ i :: l) as Hil by set_solver. apply Hmem in Hil as (m0 & Hm0 & Hpend & Hsi & _).
  rewrite Hi in Hm0. injection Hm0 as <-.
  apply (chain_suffix _ _ [] i l m) in Hc; [|done]. apply NoDup_cons in Hn as [Hil Hn]. split_and!.
  - eapply inv_put_msg.
    + eapply inv_put_svc; [by eapply inv_weaken; [|exact Hinv]|done|by left|done|done].
    + done.
    + destruct (inv_msg _ _ _ Hinv i m Hi) as [? ? ? Hf ? ? ? ? ? ?].
      pose proof Hpend as Hp'. unfold pending in Hp'. bool_hyps. constructor; try done. simpl. congruence.
    + intros s' _ HB. unfold in_queue; simpl. split; [split|]; intros (? & ? & ?);
        destruct HB; left; congruence.
    + done.
    + simpl. intros Hal _. split.
      * eapply (attached_same _ m); [by constructor|done|]. by eapply inv_attached.
      * intros j mj Hne Hj Hjal _ Heq. apply Hne. by eapply (inv_unique _ _ _ Hinv j i mj m).
  - simpl. rewrite list_lookup_insert_eq; [done|]. by eapply lookup_lt_Some.
  - simpl. split.
    + rewrite Hh. eapply chain_insert; [done| |done]. set_solver.
    + unfold sv'. simpl. destruct l as [|j l].
      * simpl in Hc. by rewrite Hc.
      * destruct Hc as [Hc _]. rewrite Hc. simpl. by rewrite Hlast, last_cons_cons.
    + done.
    + intros j. assert (j ∈ l ↔ j ∈ i :: l ∧ j ≠ i) as -> by set_solver. rewrite Hmem.
      destruct (decide (j = i)) as [->|Hne].
      * rewrite list_lookup_insert_eq by by eapply lookup_lt_Some. unfold in_queue, pending.
        split; [naive_solver|]. intros (? & [= <-] & Hp' & _). simpl in Hp'. by rewrite andb_false_r in Hp'.
      * rewrite list_lookup_insert_ne by done. naive_solver.
Qed.

(** The message as the service receives it. *)
Definition msg_view (i : nat) (m : wt_ffm_message_runtime) (rhandle : Z) : psa_msg :=
  {| pm_type := m_type m; pm_handle := wt_ffm_make_handle WT_FFM_HANDLE_MESSAGE i (m_generation m);
     pm_client_id := m_caller m; pm_rhandle := rhandle;
     pm_in_size := m_in_size m; pm_out_size := m_out_size m |}.

(** The connection state when its request is taken. *)
Definition taken_conn (type : Z) (c : wt_ffm_connection_runtime) : wt_ffm_connection_runtime :=
  if type =? PSA_IPC_CONNECT then c <| c_state := WT_IPC_CONNECTION_CONNECTING |>
  else if type >=? PSA_IPC_CALL then c <| c_state := WT_IPC_CONNECTION_ACTIVE |>
  else c.

Lemma taken_conn_same type c : same_connection_slot c (taken_conn type c).
Proof. unfold taken_conn. destruct (type =? _); [by constructor|]. destruct (type >=? _); by constructor. Qed.

(** The service [wt_ffm_get] finds for a signal. *)
Definition service_for (rt : wt_ffm_runtime) (partition_index : nat) (signal : Z) (s : nat) : Prop :=
  (s < r_service_count rt)%nat ∧ ∃ d, service_of rt s = Some (d, partition_index) ∧ sd_signal d = signal.

Lemma service_for_unique x B rt k signal s s' :
  inv x B rt → service_for rt k signal s → service_for rt k signal s' → s' = s.
Proof.
  intros Hinv (Hs & d & Hd & <-) (Hs' & d' & Hd' & Heq). destruct (decide (s' = s)) as [|Hne]; [done|].
  exfalso. by apply (st_distinct _ (inv_static _ _ _ Hinv) s' s d' d k).
Qed.

Lemma service_for_nonzero x B rt k signal s : inv x B rt → service_for rt k signal s → signal ≠ 0.
Proof.
  intros Hinv (Hs & d & Hd & <-).
  destruct (st_service _ (inv_static _ _ _ Hinv) s Hs) as (d' & k' & Hd' & _ & (j & Hj & Heq)).
  rewrite Hd in Hd'. injection Hd' as <- _. rewrite Heq. pose proof (shiftl_one_pos j ltac:(lia)). lia.
Qed.

(** The search of [wt_ffm_get]. *)
Lemma search_service_spec x B rt k signal :
  inv x B rt →
  ∃ found, search (seq 0 (r_service_count rt)) (λ i,
      s ← r_services rt !! i;
      if (s_partition_index s =? k)%nat then d ← s_descriptor s; Some (sd_signal d =? signal)
      else Some false) = Some found ∧
    match found with Some s => service_for rt k signal s | None => ∀ s, ¬ service_for rt k signal s end.
Proof.
  intros Hinv. destruct (search_spec (seq 0 (r_service_count rt)) (λ i,
    s ← r_services rt !! i;
    if (s_partition_index s =? k)%nat then d ← s_descriptor s; Some (sd_signal d =? signal)
    else Some false)) as (found & Hfound & Hspec).
  { intros i Hi. apply elem_of_seq in Hi. destruct (lookup_svc Hinv i) as (sv & d & _ & _ & -> & Hd & _); [lia|].
    simpl. rewrite Hd. destruct (_ =? _)%nat; by eexists. }
  exists found. split; [done|]. destruct found as [s|].
  - destruct Hspec as [Hs Ht]. apply elem_of_seq in Hs. split; [lia|]. unfold service_of.
    destruct (r_services rt !! s) as [sv|]; [|done]. simpl in *.
    destruct (Nat.eqb_spec (s_partition_index sv) k) as [<-|]; [|done].
    destruct (s_descriptor sv) as [d|]; [|done]. injection Ht as Ht%Z.eqb_eq. by exists d.
  - intros s (Hs & d & Hd & <-). specialize (Hspec s ltac:(apply elem_of_seq; lia)). unfold service_of in Hd.
    destruct (r_services rt !! s) as [sv|]; [|done]. simpl in *.
    destruct (s_descriptor sv) as [d'|]; [|done]. simpl in Hd. injection Hd as -> <-.
    rewrite Nat.eqb_refl in Hspec. simpl in Hspec. by rewrite Z.eqb_refl in Hspec.
Qed.

(** [wt_ffm_get] is refused with [e]: if the signal is that of a service, its queue is empty. *)
Definition no_message (rt : wt_ffm_runtime) (pid signal e : Z) : Prop :=
  e ≠ PSA_SUCCESS ∧
  ∀ k s, wt_ffm_find_partition rt pid = Some (inr k) → service_for rt k signal s →
    e = PSA_ERROR_DOES_NOT_EXIST ∧ queue_of rt None s [].

Lemma get_spec pid signal w (Q : Z * option psa_msg → world → Prop) :
  wf (rt w) →
  (∀ e, no_message (rt w) pid signal e → Q (e, None) w) →
  (∀ k s i l m c w', wt_ffm_find_partition (rt w) pid = Some (inr k) → service_for (rt w) k signal s →
     queue_of (rt w) None s (i :: l) → r_messages (rt w) !! i = Some m →
     r_connections (rt w) !! m_connection_index m = Some c →
     wf (rt w') → (∀ cl, stable cl w w') → queue_of (rt w') None s l →
     r_messages (rt w') !! i = Some (m <| m_next := None |> <| m_active := true |>) →
     r_connections (rt w') = <[m_connection_index m := taken_conn (m_type m) c]> (r_connections (rt w)) →
     Q (PSA_SUCCESS, Some (msg_view i m (c_rhandle c))) w') →
  fwp (wt_ffm_get pid signal) Q w.
Proof.
  intros Hinv Herr HQ. apply fwp_fn, wp_bind, wp_gets, wp_if; intros Hsig.
  { apply wp_early, Herr. split; [done|]. intros k s _ Hfor. apply Z.eqb_eq in Hsig.
    by destruct (service_for_nonzero _ _ _ _ _ _ Hinv Hfor). }
  clear Hsig.
  destruct (find_partition_spec Hinv pid) as (r & Hr & Hspec). apply wp_bind. eapply wp_defined; [done|].
  destruct r as [e|k]; [apply wp_early, Herr; split; [done|congruence]|]. clear Hspec. apply wp_bind.
  destruct (search_service_spec _ _ _ k signal Hinv) as (found & Hfound & Hspec).
  eapply wp_defined; [done|]. destruct found as [s|]; cycle 1.
  { apply wp_early, Herr. split; [done|]. intros k' s Hk' Hfor. rewrite Hr in Hk'. injection Hk' as <-.
    by destruct (Hspec s). }
  pose proof Hspec as Hfor. destruct Hspec as [Hs' _].
  destruct (lookup_svc Hinv s Hs') as (sv & d & _ & _ & Hsv & Hd & _).
  destruct (inv_queue _ _ _ Hinv s sv Hs' Hsv ltac:(tauto)) as [[l0 Hq] _].
  apply wp_bind. eapply wp_get_svc; [done|]. destruct (s_queue_head sv) as [i|] eqn:Hh; cycle 1.
  { apply wp_early, Herr. split; [done|]. intros k' s' Hk' Hfor'. rewrite Hr in Hk'. injection Hk' as <-.
    rewrite (service_for_unique _ _ _ _ _ _ _ Hinv Hfor Hfor'). split; [done|]. exists sv. split; [done|].
    destruct l0 as [|i' l0]; [done|]. pose proof (queue_chain _ _ _ _ _ Hq) as [Hc _]. congruence. }
  destruct l0 as [|i' l]; [by pose proof (queue_chain _ _ _ _ _ Hq) as Hc; simpl in Hc; rewrite Hh in Hc|].
  assert (i' = i) as -> by (pose proof (queue_chain _ _ _ _ _ Hq) as [Hc _]; congruence).
  assert (i ∈ i :: l) as Hil by set_solver.
  apply (queue_members _ _ _ _ _ Hq) in Hil as (m & Hm & Hpend & Hsi & _).
  assert (m_allocated m = true) as Hal by (unfold pending in Hpend; by destruct (m_allocated m)).
  destruct (attached_conn _ _ _ i m Hinv Hm Hal) as (cn & Hcn & Hcal & _); [done|].
  apply wp_bind. eapply wp_get_msg; [done|]. cbv zeta.
  destruct (pop_queue s sv i l m w Hinv Hs' Hsv Hq Hm) as (Hinv1 & Hsv1 & Hq1).
  apply wp_bind. eapply wp_mod_svc; [done|]. apply wp_bind. eapply wp_mod_msg; [done|].
  set (sv' := if bool_decide _ then _ else _) in *. set (w1 := put_msg i _ _) in *.
  apply wp_bind, wp_call. rewrite Hsi. eapply (update_signal_spec None none); [done|done|done|by eexists|].
  intros w2 Hinv2 Hf2 Hsv2 Hm2.
  apply wp_bind. eapply wp_mod_conn; [by rewrite (qf_connections _ _ Hf2)|]. apply wp_bind.
  eapply wp_get_conn.
  { simpl. rewrite (qf_connections _ _ Hf2), list_lookup_insert_eq; [done|]. by eapply lookup_lt_Some. }
  apply wp_ret. fold (taken_conn (m_type m) cn).
  replace (c_rhandle (taken_conn (m_type m) cn)) with (c_rhandle cn)
    by (unfold taken_conn; destruct (_ =? _); [done|]; by destruct (_ >=? _)).
  eapply (HQ k s i l m cn); try done.
  - exists sv. done.
  - eapply inv_edit_conn; [done|by rewrite (qf_connections _ _ Hf2)|done|apply taken_conn_same|].
    unfold taken_conn. destruct (_ =? _); [by left|]. destruct (_ >=? _); [by left|right; by left].
  - intros cl. transitivity (put_svc s sv' w).
    { eapply stable_put_svc; [done|..]; unfold sv'; simpl; by destruct (bool_decide _). }
    transitivity w1; [by eapply stable_put_msg; [|constructor]|].
    transitivity w2; [by eapply stable_frame|apply stable_put_conn].
  - exists sv'. simpl. rewrite Hsv2, Hm2. done.
  - simpl. rewrite Hm2. simpl. rewrite list_lookup_insert_eq; [done|]. by eapply lookup_lt_Some.
  - simpl. by rewrite (qf_connections _ _ Hf2).
Qed.

Lemma get_keeps c pid signal w : wf (rt w) → fwp (wt_ffm_get pid signal) (λ _ w', keeps c w w') w.
Proof. intros Hinv. apply get_spec; [done|intros; by apply keeps_refl|]. intros. by split. Qed.

(** ** Replies *)

Lemma alone_put_msg x i k m w : alone (rt w) x i k → alone (rt (put_msg i m w)) x i k.
Proof.
  intros H j mj Hne Hj. simpl in Hj. rewrite list_lookup_insert_ne in Hj by done. by apply H.
Qed.

Lemma alone_attached x B rt i m :
  inv x B rt → r_messages rt !! i = Some m → m_allocated m = true → x ≠ Some i →
  alone rt x i (m_connection_index m).
Proof.
  intros Hinv Hi Hal Hx j mj Hne Hj Hjal Hxj Heq. apply Hne. by eapply (inv_unique _ _ _ Hinv j i mj m).
Qed.

(** A detached message that waits in no queue is attached again. *)
Lemma inv_attach B w i m :
  inv (Some i) B (rt w) → r_messages (rt w) !! i = Some m → pending m = false →
  attached (r_connections (rt w)) m → alone (rt w) None i (m_connection_index m) →
  inv None B (rt w).
Proof.
  intros Hinv Hi Hp Hatt Hal. rewrite <-(put_msg_id i m w Hi).
  eapply inv_return_put; [done..|by eapply inv_msg|done|auto].
Qed.

Lemma finish_abandoned_spec i m c w (Q : unit → world → Prop) :
  inv (Some i) none (rt w) → r_messages (rt w) !! i = Some m → is_abandoned (m_abandoned m) = true →
  r_connections (rt w) !! m_connection_index m = Some c → c_allocated c = true →
  alone (rt w) None i (m_connection_index m) →
  (∀ w', wf (rt w') → (∀ cl, stable cl w w') → Q tt w') →
  fwp (wt_ffm_finish_abandoned i) Q w.
Proof.
  intros Hinv Hi Hab Hc Hcal Halone HQ. set (ci := m_connection_index m) in *.
  assert (∀ cl m', live cl m → same_request m m') as Hdead.
  { intros cl m' (_ & _ & Hn). by rewrite Hn in Hab. }
  apply fwp_fn, wp_bind. eapply wp_get_msg; [done|]. cbv zeta. fold ci.
  set (disconnect := _ || _ && bool_decide _). destruct disconnect.
  - apply wp_bind, wp_when; [done|]. intros _. apply wp_bind, wp_call.
    eapply release_message_spec; [done..|]. intros Hinv1. set (g := wt_ffm_next_generation _) in *.
    assert (gen_ok g) as Hg by apply next_generation_ok. set (w1 := put_msg i (message_free g) w) in *.
    assert (r_messages (rt w1) !! i = Some (message_free g)) as Hi1.
    { simpl. rewrite list_lookup_insert_eq; [done|]. by eapply lookup_lt_Some. }
    assert (c_service_index c < r_service_count (rt w))%nat as Hsv.
    { eapply conn_svc; [|done]. by eapply (inv_conn _ _ _ Hinv). }
    assert (ci < WT_FFM_MAX_CONNECTIONS)%nat as Hci by by eapply msg_conn, (inv_msg _ _ _ Hinv).
    apply wp_when; [intros _|done].
    apply wp_bind. eapply wp_get_conn; [done|]. apply wp_bind. eapply wp_mod_msg; [done|]. apply wp_bind.
    set (m2 := set_field m_type _ _). set (w2 := put_msg i m2 w1).
    assert (inv (Some i) none (rt w2)) as Hinv2.
    { eapply inv_detach_put; [done..| |done].
      apply (message_fresh_ok _ g (c_caller c) ci (c_service_index c) PSA_IPC_DISCONNECT WT_FFM_ABANDONED_CLOSE);
        done. }
    eapply wp_mod_conn; [done|]. set (c2 := set_field c_state _ _). apply wp_call.
    assert (inv (Some i) none (rt (put_conn ci c2 w2))) as Hinv3.
    { eapply inv_edit_conn; [done..|by constructor|by left]. }
    eapply (enqueue_spec _ i m2); [done| |done|done|done| | |].
    + simpl. rewrite list_lookup_insert_eq; [done|]. rewrite length_insert. by eapply lookup_lt_Some.
    + exists c2. split; [|done]. simpl. rewrite list_lookup_insert_eq; [done|]. by eapply lookup_lt_Some.
    + intros j mj Hne Hj. simpl in Hj. rewrite !list_lookup_insert_ne in Hj by done. by apply Halone.
    + intros w3 Hwf Hf _. apply HQ; [done|]. intros cl.
      transitivity w1; [by eapply stable_put_msg; [|apply Hdead]|].
      transitivity w2; [eapply stable_put_msg; [done|]; intros (? & _); done|].
      transitivity (put_conn ci c2 w2); [apply stable_put_conn|]. by eapply stable_frame.
  - apply wp_bind, wp_when; intros Ht.
    + apply wp_call. eapply release_connection_spec; [done..| |].
      { intros j mj Hj Hjal Hx. apply (Halone j mj); [|done..]. intros ->. by apply Hx. }
      intros Hinv1. set (w1 := put_conn ci _ w) in *. apply wp_bind, wp_call.
      eapply release_message_spec; [done..|]. intros Hinv2. apply wp_when; [done|intros _]. apply HQ; [done|].
      intros cl. transitivity w1; [apply stable_put_conn|]. by eapply stable_put_msg; [|apply Hdead].
    + apply wp_bind, wp_call.
      eapply release_message_spec; [done..|]. intros Hinv2. apply wp_when; [done|intros _]. apply HQ; [done|].
      intros cl. by eapply stable_put_msg; [|apply Hdead].
Qed.

(** The replied message and its connection. *)
Definition replied (status : Z) (m : wt_ffm_message_runtime) : wt_ffm_message_runtime :=
  m <| m_reply_status := status |> <| m_active := false |> <| m_complete := true |>.

Lemma msg_ok_replied sc status m : msg_ok sc m → m_allocated m = true → msg_ok sc (replied status m).
Proof. intros [] Hal. constructor; try done. simpl. congruence. Qed.

(** The reply is refused with [e]: a bad handle, or a status the request's type does not allow. *)
Definition reply_refused (rt : wt_ffm_runtime) (pid h status e : Z) : Prop :=
  e ≠ WT_FFM_SUCCESS ∧
  ∀ i m c, wt_ffm_message_from_handle rt pid h = Some (inr i) → r_messages rt !! i = Some m →
    r_connections rt !! m_connection_index m = Some c → reply_state (m_type m) status (c_error_latch c) = inl e.

Lemma reply_spec pid h status w (Q : Z → world → Prop) :
  wf (rt w) →
  (∀ e, reply_refused (rt w) pid h status e → Q e w) →
  (∀ i m c st w', wt_ffm_message_from_handle (rt w) pid h = Some (inr i) →
     r_messages (rt w) !! i = Some m → m_active m = true →
     r_connections (rt w) !! m_connection_index m = Some c →
     reply_state (m_type m) status (c_error_latch c) = inr st →
     wf (rt w') → (∀ cl, stable cl w w') →
     (is_abandoned (m_abandoned m) = false →
        w' = put_msg i (replied status m) (put_conn (m_connection_index m) (c <| c_state := st |>) w)) →
     Q WT_FFM_SUCCESS w') →
  fwp (wt_ffm_reply pid h status) Q w.
Proof.
  intros Hinv Herr HQ. apply fwp_fn, wp_bind, wp_gets, wp_bind.
  destruct (message_from_handle_spec Hinv pid h) as (r & Hr & Hspec). eapply wp_defined; [done|].
  destruct r as [e|i]; [apply wp_early, Herr; split; [done|congruence]|]. destruct Hspec as (m & Hm & Hal & Hact & _).
  destruct (attached_conn _ _ _ i m Hinv Hm Hal) as (c & Hc & Hcal & Hcc & Hcs); [done|].
  pose proof (alone_attached _ _ _ i m Hinv Hm Hal ltac:(done)) as Halone.
  apply wp_bind. eapply wp_get_msg; [done|]. apply wp_bind. eapply wp_get_conn; [done|].
  destruct (reply_state (m_type m) status (c_error_latch c)) as [e|st] eqn:Hst.
  { apply wp_early, Herr. split.
    - intros ->. revert Hst. unfold reply_state. repeat (case_match; try done).
    - intros i' m' c' Hi' Hm' Hc'. rewrite Hr in Hi'. injection Hi' as <-. rewrite Hm in Hm'. injection Hm' as <-.
      rewrite Hc in Hc'. by injection Hc' as <-. }
  assert (inv (Some i) none (rt w)) as Hdet.
  { eapply inv_detach; [done..|]. unfold pending. rewrite Hact. by rewrite andb_false_r. }
  apply wp_bind. eapply wp_mod_conn; [done|]. set (c2 := c <| c_state := st |>). set (w1 := put_conn _ c2 w).
  assert (inv (Some i) none (rt w1)) as Hinv1.
  { eapply inv_edit_conn; [done..|by constructor|]. right; right. intros j mj Hj Hjal Hx Heq.
    exfalso. apply (Halone j mj); [|done..]. intros ->. by apply Hx. }
  apply wp_bind. eapply wp_mod_msg; [done|]. fold (replied status m). set (w2 := put_msg i _ w1).
  assert (inv (Some i) none (rt w2)) as Hinv2.
  { eapply inv_edit_detached; [done..|]. apply msg_ok_replied; [|done]. by eapply (inv_msg _ _ _ Hinv). }
  assert (r_messages (rt w2) !! i = Some (replied status m)) as Hm2.
  { simpl. rewrite list_lookup_insert_eq; [done|]. by eapply lookup_lt_Some. }
  assert (r_connections (rt w2) !! m_connection_index m = Some c2) as Hc2.
  { simpl. rewrite list_lookup_insert_eq; [done|]. by eapply lookup_lt_Some. }
  assert (alone (rt w2) None i (m_connection_index m)) as Halone2 by by apply alone_put_msg.
  assert (∀ cl, stable cl w w2) as Hst2.
  { intros cl. transitivity w1; [apply stable_put_conn|]. by eapply stable_put_msg; [|constructor]. }
  apply wp_bind, wp_when; intros Hab.
  - apply wp_call. eapply (finish_abandoned_spec i (replied status m)); [done..|].
    intros w3 Hwf Hst3. apply wp_ret. eapply (HQ i m c st); try done; [|congruence].
    intros cl. by transitivity w2.
  - apply wp_ret. eapply (HQ i m c st); try done.
    eapply inv_attach; [done..|unfold pending; simpl; by rewrite andb_false_r| |done]. exists c2. split_and!; try done.
    unfold busy; simpl. by rewrite Hab.
Qed.

Lemma reply_keeps c pid h status w : wf (rt w) → fwp (wt_ffm_reply pid h status) (λ _ w', keeps c w w') w.
Proof. intros Hinv. apply reply_spec; [done|intros; by apply keeps_refl|]. intros. by split. Qed.

(** ** Registration and life cycle *)

Lemma register_keeps c pid f ctx w :
  wf (rt w) → fwp (wt_ffm_register_partition pid f ctx) (λ _ w', keeps c w w') w.
Proof.
  intros Hinv. apply fwp_fn. destruct f as [f|]; [|by apply wp_early, keeps_refl].
  apply wp_bind, wp_gets, wp_bind. destruct (find_partition_spec Hinv pid) as (r & Hr & Hspec).
  eapply wp_defined; [done|]. destruct r as [e|i]; [by apply wp_early, keeps_refl|].
  destruct Hspec as (_ & _ & p & pm & Hp & _). apply wp_bind. eapply wp_mod_part; [done|]. apply wp_ret.
  by eapply keeps_signals.
Qed.

Lemma set_lifecycle_keeps c lifecycle w :
  wf (rt w) → fwp (wt_ffm_set_lifecycle lifecycle) (λ _ w', keeps c w w') w.
Proof.
  intros Hinv. apply fwp_fn, wp_modify. split; [|constructor; eauto with wt].
  destruct Hinv as [[] ? ? ? ? ? ?]. by constructor.
Qed.
