(* ===== verification/FfmClientWf.v ===== *)
(** * FF-M client vectors in the transfer buffer

    The vectors of an accepted call lie in the message's transfer buffer one
    after the other, and the input buffer holds the bytes of the client's
    memory. *)

From Stdlib Require Import ZArith Lia.
From stdpp Require Import base list numbers option sets.
From S2P Require Import Prelude Buffers CState Manifest Ipc FfmTypes FfmCore FfmWf FfmQueue FfmSlots FfmService FfmServiceWf FfmClient.

Definition invec_typed (v : psa_invec) : Prop := 0 ≤ iv_base v ≤ UINTPTR_MAX ∧ 0 ≤ iv_len v ≤ SIZE_MAX.
Definition outvec_typed (v : psa_outvec) : Prop := 0 ≤ ov_base v ≤ UINTPTR_MAX ∧ 0 ≤ ov_len v ≤ SIZE_MAX.

Definition in_sum (l : list psa_invec) : Z := foldr (λ v n, iv_len v + n) 0 l.
Definition out_sum (l : list psa_outvec) : Z := foldr (λ v n, ov_len v + n) 0 l.

Lemma in_sum_nonneg l : Forall invec_typed l → 0 ≤ in_sum l.
Proof. induction 1 as [|v l [_ Hv] _ IH]; simpl; lia. Qed.
Lemma out_sum_nonneg l : Forall outvec_typed l → 0 ≤ out_sum l.
Proof. induction 1 as [|v l [_ Hv] _ IH]; simpl; lia. Qed.

(** ** The input loop *)

Lemma copy_inputs_spec mem vs i off m :
  Forall invec_typed vs → 0 ≤ off → off + in_sum vs ≤ WT_FFM_TRANSFER_BYTES →
  (i + length vs ≤ PSA_MAX_IOVEC)%nat →
  length (m_in_offset m) = PSA_MAX_IOVEC → length (m_in_size m) = PSA_MAX_IOVEC →
  length (m_input m) = Z.to_nat WT_FFM_TRANSFER_BYTES →
  ∃ O S I, copy_inputs mem vs i off m =
      Some (m <| m_in_offset := O |> <| m_in_size := S |> <| m_input := I |>) ∧
    length O = PSA_MAX_IOVEC ∧ length S = PSA_MAX_IOVEC ∧ length I = Z.to_nat WT_FFM_TRANSFER_BYTES ∧
    (∀ j, (j < i)%nat → O !! j = m_in_offset m !! j ∧ S !! j = m_in_size m !! j) ∧
    take (Z.to_nat off) I = take (Z.to_nat off) (m_input m) ∧
    (∀ j v, vs !! j = Some v → ∃ o, O !! (i + j)%nat = Some o ∧ S !! (i + j)%nat = Some (iv_len v) ∧
       0 ≤ o ∧ o + iv_len v ≤ WT_FFM_TRANSFER_BYTES ∧
       buf_read I o (iv_len v) = Some (mem_read mem (iv_base v) (iv_len v))).
Proof.
  intros Ht. revert i off m. induction Ht as [|v vs [Hb Hv] Ht IH]; intros i off m H0 Hsum Hi HO HS HI; simpl in *.
  { exists (m_in_offset m), (m_in_size m), (m_input m). split_and!; try done. by destruct m. }
  pose proof (in_sum_nonneg vs Ht) as Hnn. rewrite !arr_set_spec by lia. simpl.
  assert (∃ I1, (if iv_len v =? 0 then Some (m_input m)
      else buf_write (m_input m) off (mem_read mem (iv_base v) (iv_len v))) = Some I1 ∧
    length I1 = Z.to_nat WT_FFM_TRANSFER_BYTES ∧
    take (Z.to_nat off) I1 = take (Z.to_nat off) (m_input m) ∧
    buf_read I1 off (iv_len v) = Some (mem_read mem (iv_base v) (iv_len v))) as (I1 & -> & HI1 & Htake & Hread).
  { destruct (Z.eqb_spec (iv_len v) 0) as [E|E].
    - exists (m_input m). split_and!; try done. rewrite E. unfold buf_read. rewrite bool_decide_true by lia.
      destruct (Z.leb_spec (off + 0) (Z.of_nat (length (m_input m)))); [done|].
      unfold WT_FFM_TRANSFER_BYTES in *. lia.
    - pose proof (length_mem_read mem (iv_base v) (iv_len v) ltac:(lia)) as Hlen.
      destruct (buf_write_spec (m_input m) off (mem_read mem (iv_base v) (iv_len v))) as (b & Hw & Hbl); [done| |].
      { unfold WT_FFM_TRANSFER_BYTES in *. lia. }
      exists b. split_and!; [done|congruence|by eapply buf_write_take|].
      rewrite <-Hlen at 1. by eapply buf_read_write. }
  simpl. rewrite u32_small by (unfold WT_FFM_TRANSFER_BYTES in *; lia).
  edestruct (IH (S i) (off + iv_len v)
    (m <| m_in_offset := <[i:=off]> (m_in_offset m) |> <| m_in_size := <[i:=iv_len v]> (m_in_size m) |>
       <| m_input := I1 |>)) as (O & S' & I & HE & HlO & HlS & HlI & Hlow & Htk & Hvs);
    simpl; try rewrite length_insert; try done; try lia.
  exists O, S', I. split_and!; try done.
  - intros j Hj. destruct (Hlow j) as [-> ->]; [lia|]. simpl. by rewrite !list_lookup_insert_ne by lia.
  - etrans; [|exact Htake]. simpl in Htk.
    apply (f_equal (take (Z.to_nat off))) in Htk. rewrite !take_take in Htk.
    by replace (Z.to_nat off `min` Z.to_nat (off + iv_len v))%nat with (Z.to_nat off) in Htk by lia.
  - intros [|j] v' Hj; simpl in Hj.
    + injection Hj as <-. rewrite Nat.add_0_r. destruct (Hlow i) as [HOi HSi]; [lia|]. exists off.
      rewrite HOi, HSi. simpl. rewrite !list_lookup_insert_eq by lia. split_and!; try done; [lia|].
      rewrite <-Hread. simpl in Htk. apply buf_read_take; [done|lia|congruence| |done].
      rewrite HI1. unfold WT_FFM_TRANSFER_BYTES in *. lia.
    + destruct (Hvs j v' Hj) as (o & ? & ? & ? & ? & ?). exists o. by rewrite Nat.add_succ_r.
Qed.

(** ** The output loop *)

Lemma record_outputs_spec vs i off m :
  Forall outvec_typed vs → 0 ≤ off → off + out_sum vs ≤ WT_FFM_TRANSFER_BYTES →
  (i + length vs ≤ PSA_MAX_IOVEC)%nat →
  length (m_out_offset m) = PSA_MAX_IOVEC → length (m_out_size m) = PSA_MAX_IOVEC →
  length (m_client_output m) = PSA_MAX_IOVEC →
  ∃ O S D, record_outputs vs i off m =
      Some (m <| m_out_offset := O |> <| m_out_size := S |> <| m_client_output := D |>) ∧
    length O = PSA_MAX_IOVEC ∧ length S = PSA_MAX_IOVEC ∧ length D = PSA_MAX_IOVEC ∧
    (∀ j, (j < i)%nat → O !! j = m_out_offset m !! j ∧ S !! j = m_out_size m !! j ∧
       D !! j = m_client_output m !! j) ∧
    (∀ j v, vs !! j = Some v → ∃ o, O !! (i + j)%nat = Some o ∧ S !! (i + j)%nat = Some (ov_len v) ∧
       D !! (i + j)%nat = Some (ov_base v) ∧ 0 ≤ o ∧ o + ov_len v ≤ WT_FFM_TRANSFER_BYTES).
Proof.
  intros Ht. revert i off m. induction Ht as [|v vs [Hb Hv] Ht IH]; intros i off m H0 Hsum Hi HO HS HD; simpl in *.
  { exists (m_out_offset m), (m_out_size m), (m_client_output m). split_and!; try done. by destruct m. }
  pose proof (out_sum_nonneg vs Ht) as Hnn. rewrite !arr_set_spec by lia. simpl.
  rewrite u32_small by (unfold WT_FFM_TRANSFER_BYTES in *; lia).
  edestruct (IH (S i) (off + ov_len v)
    (m <| m_out_offset := <[i:=off]> (m_out_offset m) |> <| m_out_size := <[i:=ov_len v]> (m_out_size m) |>
       <| m_client_output := <[i:=ov_base v]> (m_client_output m) |>))
    as (O & S' & D & HE & HlO & HlS & HlD & Hlow & Hvs);
    simpl; try rewrite length_insert; try done; try lia.
  exists O, S', D. split_and!; try done.
  - intros j Hj. destruct (Hlow j) as (-> & -> & ->); [lia|]. simpl. by rewrite !list_lookup_insert_ne by lia.
  - intros [|j] v' Hj; simpl in Hj.
    + injection Hj as <-. rewrite Nat.add_0_r. destruct (Hlow i) as (HOi & HSi & HDi); [lia|]. exists off.
      rewrite HOi, HSi, HDi. simpl. rewrite !list_lookup_insert_eq by lia. split_and!; try done. lia.
    + destruct (Hvs j v' Hj) as (o & ? & ? & ? & ? & ?). exists o. by rewrite Nat.add_succ_r.
Qed.

(** ** Accepted vectors *)

(** [m'] is [m] with the vectors of the call and the client's input bytes. *)
Record prepared (mem : Z → Z) (in_vec : carray psa_invec) (out_vec : carray psa_outvec)
    (m m' : wt_ffm_message_runtime) : Prop := {
  pr_slot : same_slot m m';
  pr_generation : m_generation m' = m_generation m;
  pr_type : m_type m' = m_type m;
  pr_next : m_next m' = m_next m;
  pr_flags : m_active m' = m_active m ∧ m_complete m' = m_complete m ∧ m_abandoned m' = m_abandoned m;
  pr_counts : m_in_count m' = count in_vec ∧ m_out_count m' = count out_vec;
  pr_total : (count in_vec + count out_vec ≤ PSA_MAX_IOVEC)%nat;
  pr_lengths : length (items in_vec) = count in_vec ∧ length (items out_vec) = count out_vec;
  pr_in j v : items in_vec !! j = Some v →
    ∃ o, m_in_offset m' !! j = Some o ∧ m_in_size m' !! j = Some (iv_len v) ∧
      m_in_position m' !! j = Some 0 ∧
      buf_read (m_input m') o (iv_len v) = Some (mem_read mem (iv_base v) (iv_len v));
  pr_out j v : items out_vec !! j = Some v →
    m_out_size m' !! j = Some (ov_len v) ∧ m_client_output m' !! j = Some (ov_base v) ∧
    m_out_position m' !! j = Some 0;
}.

Lemma null_items {A} (a : carray A) : negb (count a =? 0)%nat && is_null a = false → length (items a) = count a.
Proof. destruct a as [n|l]; simpl; [|done]. destruct n; done. Qed.

Definition as_vector (v : Z * Z) : wt_ipc_vector := {| v_base := v.1; v_length := v.2 |}.

Lemma in_vectors_typed l :
  Forall invec_typed l → Forall vector_typed (as_vector <$> ((λ v, (iv_base v, iv_len v)) <$> l)).
Proof. induction 1; simpl; [constructor|]. by constructor. Qed.
Lemma out_vectors_typed l :
  Forall outvec_typed l → Forall vector_typed (as_vector <$> ((λ v, (ov_base v, ov_len v)) <$> l)).
Proof. induction 1; simpl; [constructor|]. by constructor. Qed.
Lemma in_vectors_sum l : vector_sum (as_vector <$> ((λ v, (iv_base v, iv_len v)) <$> l)) = in_sum l.
Proof. induction l; simpl; [done|]. by f_equal. Qed.
Lemma out_vectors_sum l : vector_sum (as_vector <$> ((λ v, (ov_base v, ov_len v)) <$> l)) = out_sum l.
Proof. induction l; simpl; [done|]. by f_equal. Qed.

(** The copy loops on a message whose positions are zero. *)
Lemma fill_vectors mem ins outs m sc :
  msg_ok sc m → m_allocated m = true →
  m_in_position m = zeros PSA_MAX_IOVEC → m_out_position m = zeros PSA_MAX_IOVEC →
  Forall invec_typed ins → Forall outvec_typed outs →
  (length ins + length outs ≤ PSA_MAX_IOVEC)%nat → in_sum ins + out_sum outs ≤ WT_FFM_TRANSFER_BYTES →
  ∃ m1 m2, copy_inputs mem ins 0 0 (m <| m_in_count := length ins |> <| m_out_count := length outs |>) = Some m1 ∧
    record_outputs outs 0 0 m1 = Some m2 ∧ msg_ok sc m2 ∧ prepared mem (Arr ins) (Arr outs) m m2.
Proof.
  intros [? ? ? ? Hmin Hmout ? ? ? ?] Hal Hip Hop Hti Hto Hcount Hsum.
  pose proof (in_sum_nonneg ins Hti). pose proof (out_sum_nonneg outs Hto).
  assert (∀ (l : list Z) n, l = zeros n → ∀ j, (j < n)%nat → l !! j = Some 0) as Hz.
  { intros l n -> j Hj. by apply lookup_replicate_2. }
  destruct Hmin, Hmout.
  destruct (copy_inputs_spec mem ins 0 0 (m <| m_in_count := length ins |> <| m_out_count := length outs |>))
    as (O & S & I & -> & HlO & HlS & HlI & _ & _ & Hin); simpl; [done|lia..| |done|done|done|]; [lia|].
  set (m1 := set_field m_input _ _). exists m1.
  destruct (record_outputs_spec outs 0 0 m1) as (O2 & S2 & D & -> & HlO2 & HlS2 & HlD & _ & Hout);
    [done|lia|lia|lia|done|done|done|].
  eexists. split_and!; [done|done| |].
  - constructor; simpl; try done; [congruence| |].
    + constructor; try done; [lia|]. intros j sz off pos Hj Hsz Hoff Hpos.
      destruct (lookup_lt_is_Some_2 ins j Hj) as [v Hv]. destruct (Hin j v Hv) as (o & Ho & Hs & ? & ? & _).
      simpl in Ho, Hs. rewrite (Hz _ _ Hip) in Hpos by lia.
      assert (off = o ∧ sz = iv_len v ∧ pos = 0) as (-> & -> & ->) by (split_and!; congruence).
      rewrite Forall_lookup in Hti. destruct (Hti j v Hv) as [_ ?]. lia.
    + constructor; try done; [lia|]. intros j sz off pos Hj Hsz Hoff Hpos.
      destruct (lookup_lt_is_Some_2 outs j Hj) as [v Hv]. destruct (Hout j v Hv) as (o & Ho & Hs & _ & ? & ?).
      simpl in Ho, Hs. rewrite (Hz _ _ Hop) in Hpos by lia.
      assert (off = o ∧ sz = ov_len v ∧ pos = 0) as (-> & -> & ->) by (split_and!; congruence).
      rewrite Forall_lookup in Hto. destruct (Hto j v Hv) as [_ ?]. lia.
  - constructor; simpl; try done.
    + intros j v Hv. destruct (Hin j v Hv) as (o & ? & ? & ? & ? & ?). exists o. split_and!; try done.
      apply (Hz _ _ Hip). apply lookup_lt_Some in Hv. lia.
    + intros j v Hv. destruct (Hout j v Hv) as (o & ? & ? & ? & ? & ?). split_and!; try done.
      apply (Hz _ _ Hop). apply lookup_lt_Some in Hv. lia.
Qed.

Section port.
Context `{PortOps}.

Lemma prepare_vectors_spec i m in_vec out_vec w (Q : Z → world → Prop) :
  inv (Some i) none (rt w) → r_messages (rt w) !! i = Some m → m_allocated m = true →
  m_in_position m = zeros PSA_MAX_IOVEC → m_out_position m = zeros PSA_MAX_IOVEC →
  Forall invec_typed (items in_vec) → Forall outvec_typed (items out_vec) →
  (∀ ret w', ret ≠ WT_FFM_SUCCESS → rt w' = rt w → memory w' = memory w → Q ret w') →
  (∀ m', prepared (memory w) in_vec out_vec m m' → inv (Some i) none (rt (put_msg i m' w)) →
     Q WT_FFM_SUCCESS (put_msg i m' w)) →
  fwp (wt_ffm_prepare_vectors i in_vec out_vec) Q w.
Proof.
  intros Hinv Hi Hal Hip Hop Hti Hto Hfail HQ. apply fwp_fn, wp_if; intros Hnull; [by apply wp_early, Hfail|].
  apply orb_false_iff in Hnull as [Hni Hno].
  apply wp_bind. eapply wp_get_msg; [done|]. apply wp_bind, wp_gets. cbv zeta.
  apply wp_bind. destruct (refused_vector (check_read _ _) _ _) as [[j [b len]]|].
  { apply wp_bind, wp_modify, wp_early. by apply Hfail. }
  apply wp_ret, wp_bind. destruct (refused_vector (check_write _ _) _ _) as [[j [b len]]|].
  { apply wp_bind, wp_modify, wp_early. by apply Hfail. }
  apply wp_ret. fold as_vector. set (ins := as_vector <$> _). set (outs := as_vector <$> _).
  destruct (wt_ipc_validate_vectors (Arr ins) (Arr outs) WT_FFM_TRANSFER_BYTES) as [ret written] eqn:Hval.
  destruct (Z.eqb_spec ret WT_IPC_VALID) as [->|Hne]; simpl.
  2: { apply wp_bind, wp_modify, wp_early. by apply Hfail. }
  destruct (validate_vectors_written _ _ _ _ _ Hval eq_refl) as [total ->].
  apply validate_vectors_spec in Hval as (Hcnt & _ & _ & _ & Htot & _ & Hlim);
    [|by apply in_vectors_typed|by apply out_vectors_typed].
  simpl in Hcnt, Htot. unfold ins, outs in *. rewrite vector_sum_app, in_vectors_sum, out_vectors_sum in Htot.
  rewrite !length_fmap in Hcnt. unfold WT_IPC_MAX_VECTORS, WT_FFM_TRANSFER_BYTES in *.
  pose proof (inv_msg _ _ _ Hinv i m Hi) as Hok.
  destruct (fill_vectors (memory w) (items in_vec) (items out_vec) m (r_service_count (rt w)))
    as (m1 & m2 & Hm1 & Hm2 & Hok2 & Hprep); try done; [unfold PSA_MAX_IOVEC; lia|unfold WT_FFM_TRANSFER_BYTES; lia|].
  rewrite !null_items in Hm1 by done.
  apply wp_bind. eapply wp_mod_msg; [done|]. apply wp_bind. eapply wp_try_msg; [by eapply put_msg_slot|done|].
  apply wp_bind. eapply wp_try_msg; [by eapply put_msg_slot, put_msg_slot|done|].
  rewrite !put_msg_put. apply wp_ret, HQ; [|by eapply inv_edit_detached].
  destruct Hprep as [? ? ? ? ? [Hc1 Hc2] Hc3 ? ? ?]. simpl in *.
  constructor; try done; rewrite <-!null_items by done; done.
Qed.
End port.

(** * The client operations keep the invariant

    Specifications of the enqueue halves of connect, call and close, of the
    completion of deferred requests, of the synchronous operations against
    the [DispatchKeeps] interface, and of the termination operations. *)

Local Arguments Nat.leb : simpl never.

(** The client waits for no request: those it has are abandoned. *)
Definition no_request (rt : wt_ffm_runtime) (caller : Z) : Prop :=
  ∀ i m, r_messages rt !! i = Some m → m_allocated m = true → m_caller m = caller →
    is_abandoned (m_abandoned m) = true.

(** A free slot that is filled is in no queue. *)
Lemma queue_of_fill w0 w1 i m0 m s l :
  r_messages (rt w0) !! i = Some m0 → m_allocated m0 = false →
  r_messages (rt w1) = <[i := m]> (r_messages (rt w0)) → r_services (rt w1) = r_services (rt w0) →
  queue_of (rt w0) None s l → queue_of (rt w1) (Some i) s l.
Proof.
  intros Hi Hal Hm Hsv (sv & Hs & [Hc Hl Hnd Hmem]). exists sv. rewrite Hsv, Hm. split; [done|].
  assert (i ∉ l) as Hni.
  { intros (m1 & Hm1 & Hp & _)%Hmem. rewrite Hi in Hm1. injection Hm1 as <-. unfold pending in Hp. by rewrite Hal in Hp. }
  split; [by eapply chain_insert|done..|]. intros j. rewrite Hmem. unfold in_queue. split.
  - intros (mj & Hj & Hp & Hsj & _). assert (j ≠ i) as Hne.
    { intros ->. apply Hni, Hmem. exists mj. by split_and!. }
    exists mj. rewrite list_lookup_insert_ne by done. split_and!; congruence.
  - intros (mj & Hj & Hp & Hsj & Hne). rewrite list_lookup_insert_ne in Hj by congruence. by exists mj.
Qed.

(** A queued request of [caller], as the enqueue halves leave it: the last of
    its service's queue. *)
Record queued (w w' : world) (caller : Z) (type : Z) (k i : nat) (m : wt_ffm_message_runtime) : Prop := {
  queued_slot : r_messages (rt w') !! i = Some m;
  queued_live : live caller m;
  queued_pending : pending m = true;
  queued_type : m_type m = type;
  queued_connection : m_connection_index m = k;
  queued_append l : queue_of (rt w) None (m_service_index m) l → queue_of (rt w') None (m_service_index m) (l ++ [i]);
}.

Section client.
Context `{PortOps}.

(** ** Connect *)

Lemma connect_admission_spec x B rt caller sid version :
  inv x B rt →
  ∃ r, connect_admission rt caller sid version = Some r ∧
    match r with
    | inl e => e < 0
    | inr s => caller ≠ 0 ∧ (s < r_service_count rt)%nat ∧ wt_ffm_find_service rt sid = Some (inr s) ∧
        wt_ffm_caller_allowed rt caller s = Some true ∧
        (wt_ffm_client_connection_count rt caller < WT_FFM_MAX_CONNECTIONS_PER_CLIENT)%nat ∧
        (caller < 0 → (wt_ffm_ns_connection_count rt < WT_FFM_MAX_NS_CONNECTIONS)%nat)
    end.
Proof.
  intros Hinv. unfold connect_admission. destruct (Z.eqb_spec caller 0); [by eexists|].
  destruct (find_service_spec Hinv sid) as (r & Hr & Hspec). rewrite Hr. simpl.
  destruct r as [e|s]; [by eexists|]. destruct Hspec as (Hs & sv & d & Hsv & Hd & _).
  destruct (caller_allowed_spec Hinv caller s) as [b Hb]. rewrite Hb. simpl.
  destruct b; simpl; [|by eexists]. rewrite Hsv; simpl. rewrite Hd; simpl.
  destruct (wt_ffm_version_allowed d version); simpl; [|by eexists].
  destruct (sd_connection_based d =? 0); [by eexists|].
  destruct (WT_FFM_MAX_CONNECTIONS_PER_CLIENT <=? _)%nat eqn:Hq; [by eexists|]. apply Nat.leb_gt in Hq.
  destruct (_ && _) eqn:Hns; [by eexists|]. eexists. split; [done|]. split_and!; try done.
  intros Hneg. apply andb_false_iff in Hns as [Hns|Hns]; bool_hyps; lia.
Qed.

Lemma connect_enqueue_spec caller sid version w (Q : Z + Z * nat * nat * nat → world → Prop) :
  wf (rt w) →
  (∀ e w', e < 0 → wf (rt w') → (∀ cl, stable cl w w') → memory w' = memory w → Q (inl e) w') →
  (∀ k i s m c w', wf (rt w') → (∀ cl, stable cl w w') → queued w w' caller PSA_IPC_CONNECT k i m →
     m_service_index m = s → memory w' = memory w →
     (∀ m0, r_messages (rt w) !! i = Some m0 → m_allocated m0 = false) →
     (∀ c0, r_connections (rt w) !! k = Some c0 → c_allocated c0 = false ∧ c_generation c = c_generation c0) →
     r_connections (rt w') !! k = Some c → c_allocated c = true → c_caller c = caller →
     c_state c = WT_IPC_CONNECTION_PENDING_CONNECT →
     connect_admission (rt w) caller sid version = Some (inr s) →
     wt_ffm_caller_instance (rt w') caller = Some (c_client_instance c) →
     Q (inr (wt_ffm_make_handle WT_FFM_HANDLE_CONNECTION k (c_generation c), k, i, s)) w') →
  fwp (connect_enqueue caller sid version) Q w.
Proof.
  intros Hinv Herr HQ. apply fwp_fn, wp_bind, wp_gets, wp_bind.
  destruct (connect_admission_spec _ _ _ caller sid version Hinv) as (r & Hr & Hspec). eapply wp_defined; [done|].
  destruct r as [e|s]; [by apply wp_early, Herr|]. destruct Hspec as (Hne & Hs & Hfind & Hallow & Hq & Hns).
  apply wp_bind, wp_call. apply alloc_connection_spec; [done|lia|by apply wp_early, Herr|].
  intros k g Hk Hg Hun Hinv1. set (w1 := put_conn k _ w) in *.
  assert (r_connections (rt w1) !! k = Some (connection_fresh g)) as Hk1.
  { simpl. rewrite list_lookup_insert_eq; [done|]. by eapply lookup_lt_Some. }
  apply wp_bind, wp_call. apply alloc_message_spec; [done|simpl; lia| |].
  { apply wp_bind, wp_call. eapply release_connection_spec; [done..|]. intros Hinv2. apply wp_early, Herr; [done..| |done].
    intros cl. transitivity w1; apply stable_put_conn. }
  intros i gm Hi Hgm Hinv2. set (w2 := put_msg i _ w1) in *.
  apply wp_bind, wp_gets, wp_bind. destruct (caller_instance_spec Hinv2 caller) as [inst Hinst].
  eapply wp_defined; [done|]. apply wp_bind. eapply wp_mod_conn; [done|]. set (c3 := set_field c_state _ _).
  set (w3 := put_conn k c3 w2). apply wp_bind. eapply wp_get_conn.
  { simpl. rewrite list_lookup_insert_eq; [done|]. by eapply lookup_lt_Some. }
  cbv zeta. assert (inv (Some i) none (rt w3)) as Hinv3.
  { eapply inv_put_conn; [done|done|by constructor| |].
    - simpl. rewrite list_insert_insert_eq. eapply quota_admit; [apply Hinv|done|by right|done|done|done].
    - intros j mj Hj Hjal Hx Heq. simpl in Hj. rewrite list_lookup_insert_ne in Hj by (intros ->; by apply Hx).
      by destruct (Hun j mj). }
  apply wp_bind. eapply wp_mod_msg; [by eapply put_msg_slot|]. set (m4 := set_field m_type _ _).
  set (w4 := put_msg i m4 w3).
  assert (k < WT_FFM_MAX_CONNECTIONS)%nat as Hklt.
  { rewrite <-(st_connections _ (inv_static _ _ _ Hinv)). by eapply lookup_lt_Some. }
  assert (inv (Some i) none (rt w4)) as Hinv4.
  { eapply inv_edit_detached; [done|by eapply put_msg_slot|].
    by apply (message_fresh_ok _ gm caller k s PSA_IPC_CONNECT WT_FFM_ABANDONED_NONE). }
  assert (r_messages (rt w4) !! i = Some m4) as Hi4 by by eapply put_msg_slot, put_msg_slot.
  apply wp_bind, wp_call. eapply (enqueue_spec _ i m4); [done|done|done|done|done| | |].
  - exists c3. split; [|done]. simpl. rewrite list_lookup_insert_eq; [done|]. by eapply lookup_lt_Some.
  - intros j mj Hj Hne' Hjal Hx. simpl in Hne'. rewrite !list_lookup_insert_ne in Hne' by done. by apply (Hun j mj).
  - intros w5 Hwf Hf Happ. apply wp_ret. destruct (qf_messages _ _ Hf i m4 Hi4) as [n Hn].
    assert (r_messages (rt w4) = <[i := m4]> (r_messages (rt w))) as Hm4 by (simpl; by rewrite list_insert_insert_eq).
    eapply (HQ k i s (m4 <| m_next := n |>) c3); try done.
    + intros cl. transitivity w4; [|by eapply stable_frame].
      by eapply (stable_fill _ _ _ i (message_free gm)).
    + split; [done..|]. intros l Hl. apply Happ. by eapply (queue_of_fill w).
    + by rewrite (qf_memory _ _ Hf).
    + intros m0 Hm0. simpl in Hi. rewrite Hi in Hm0. by simplify_eq.
    + intros c0 Hc0. rewrite Hk in Hc0. by simplify_eq.
    + rewrite (qf_connections _ _ Hf). simpl. rewrite list_lookup_insert_eq; [done|]. by eapply lookup_lt_Some.
    + simpl. rewrite <-Hinst. apply caller_instance_ext; [apply (qf_counts _ _ Hf)|].
      intros k'. rewrite (frame_partitions w4 w5 _ _ _ _ k' Hinv4 Hwf Hf). done.
Qed.

(** ** Call *)

Lemma wp_trace {R} b f (E : R → world → Prop) (Q : unit → world → Prop) w :
  (∀ w, rt (f w) = rt w ∧ memory (f w) = memory w ∧ port (f w) = port w) →
  (∀ w', rt w' = rt w → memory w' = memory w → port w' = port w → Q tt w') →
  wp (when b (modify f)) E Q w.
Proof.
  intros Hf HQ. destruct (Hf w) as (? & ? & ?). apply wp_when; intros _; [apply wp_modify|]; auto.
Qed.

Lemma stable_trans cl w1 w2 w3 : stable cl w1 w2 → stable cl w2 w3 → stable cl w1 w3.
Proof. intros. by transitivity w2. Qed.

Lemma drop_or_latch_same c : same_connection_slot c (drop_or_latch c).
Proof. unfold drop_or_latch. case_bool_decide; by constructor. Qed.

Lemma drop_or_latch_state c :
  c_state (drop_or_latch c) ≠ WT_IPC_CONNECTION_IDLE ∨ c_state (drop_or_latch c) = c_state c.
Proof. unfold drop_or_latch. case_bool_decide; [by left|by right]. Qed.

(** A connection edit that does not make it idle. *)
Lemma keeps_conn cl w k c c' :
  wf (rt w) → r_connections (rt w) !! k = Some c → c_allocated c = true → same_connection_slot c c' →
  c_state c' ≠ WT_IPC_CONNECTION_IDLE ∨ c_state c' = c_state c → keeps cl w (put_conn k c' w).
Proof.
  intros Hinv Hk Hal Hs Hst. split; [|apply stable_put_conn].
  eapply inv_edit_conn; [done..|]. destruct Hst; [by left|right; by left].
Qed.

(** A connection its waiting-for-nothing client may use has no request. *)
Lemma no_request_unused rt caller k c :
  wf rt → no_request rt caller → r_connections rt !! k = Some c → c_caller c = caller →
  c_state c = WT_IPC_CONNECTION_IDLE → unused rt None k.
Proof.
  intros Hinv Hno Hk Hcal Hidle i m Hi Hal Hx Heq.
  destruct (inv_attached _ _ _ Hinv i m Hi Hal Hx) as (c' & Hc' & _ & Hcal' & _ & Hbusy).
  rewrite Heq in Hc'. simplify_eq. apply Hbusy; [|done]. unfold busy. by rewrite (Hno i m) by congruence.
Qed.

(** A fresh slot filled for a request on connection [k], then queued. The
    result is well-formed when the connection carried no request before. *)
Lemma submit_spec caller type k c' i g m w0 w1 (Q : unit → world → Prop) :
  wf (rt w0) → r_messages (rt w0) !! i = Some (message_free g) →
  inv (Some i) none (rt w1) → r_messages (rt w1) = <[i := m]> (r_messages (rt w0)) →
  r_partitions (rt w1) = r_partitions (rt w0) → r_services (rt w1) = r_services (rt w0) →
  r_service_count (rt w1) = r_service_count (rt w0) → r_partition_count (rt w1) = r_partition_count (rt w0) →
  live caller m → pending m = true → m_next m = None → m_type m = type → m_connection_index m = k →
  r_connections (rt w1) !! k = Some c' → c_allocated c' = true → c_caller c' = caller →
  c_service_index c' = m_service_index m → c_state c' ≠ WT_IPC_CONNECTION_IDLE →
  (∀ w' n, (∀ cl, stable cl w0 w') → queue_frame w1 w' →
     (unused (rt w0) None k → wf (rt w') ∧ queued w0 w' caller type k i (m <| m_next := n |>)) → Q tt w') →
  fwp (wt_ffm_enqueue (m_service_index m) i) Q w1.
Proof.
  intros Hwf0 Hi0 Hinv1 Hm1 Hp1 Hs1 Hsc1 Hpc1 Hlive Hpend Hnext Htype Hconn Hc' Hcal Hcc Hcs Hst HQ.
  assert (r_messages (rt w1) !! i = Some m) as Hi1.
  { rewrite Hm1, list_lookup_insert_eq; [done|]. by eapply lookup_lt_Some. }
  pose proof (enqueue_keeps _ i m w1 Hinv1 Hi1 Hpend eq_refl Hnext) as (w' & [] & He & Hf & Hlen)%fwp_run.
  destruct (qf_messages _ _ Hf i m Hi1) as [n Hn]. unfold fwp. rewrite He. apply (HQ w' n); [|done|].
  - intros cl. transitivity w1; [|by eapply stable_links]. by eapply (stable_fill _ _ _ i (message_free g)).
  - intros Hun. assert (wf (rt w') ∧ ∀ l, queue_of (rt w0) None (m_service_index m) l →
      queue_of (rt w') None (m_service_index m) (l ++ [i])) as [Hwf Happ]; [|by split; [done|constructor]].
    refine (fwp_elim _ (λ _ w', wf (rt w') ∧ ∀ l, _ → queue_of (rt w') None _ (l ++ [i])) _ _ _ _ He).
    eapply (enqueue_spec _ i m); [done..| | |].
    + exists c'. rewrite Hconn. destruct Hlive as (_ & Hlc & _). split_and!; congruence.
    + intros j mj Hne Hj Hjal Hx. rewrite Hm1, list_lookup_insert_ne in Hj by done.
      rewrite Hconn. by apply (Hun j mj).
    + intros w2 Hwf _ Happ. split; [done|]. intros l Hl. apply Happ. by eapply (queue_of_fill w0).
Qed.

(** A client that already waits for a request may call too: the new request is
    queued and nobody else's is touched, but the two then share a connection,
    so the result is well-formed only if there was none. *)
Lemma call_enqueue_any traced caller handle type in_vec out_vec w (Q : Z + nat * nat → world → Prop) :
  wf (rt w) →
  Forall invec_typed (items in_vec) → Forall outvec_typed (items out_vec) →
  (∀ e w', e < 0 → wf (rt w') → (∀ cl, stable cl w w') → memory w' = memory w → Q (inl e) w') →
  (∀ k i m0 m n c w',
     (no_request (rt w) caller → wf (rt w') ∧ queued w w' caller type k i (m <| m_next := n |>)) →
     (∀ cl, stable cl w w') → memory w' = memory w → prepared (memory w) in_vec out_vec m0 m →
     wt_ffm_connection_from_handle (rt w) caller handle = Some (inr k) →
     (∀ m0, r_messages (rt w) !! i = Some m0 → m_allocated m0 = false) → 0 ≤ type →
     r_connections (rt w) !! k = Some c → c_state c = WT_IPC_CONNECTION_IDLE →
     r_connections (rt w') !! k = Some (c <| c_state := WT_IPC_CONNECTION_PENDING_REQUEST |>) →
     Q (inr (k, i)) w') →
  fwp (call_enqueue traced caller handle type in_vec out_vec) Q w.
Proof.
  intros Hinv Hti Hto Herr HQ.
  assert (∀ e w1 w', e < 0 → rt w1 = rt w → memory w' = memory w → (∀ cl, keeps cl w1 w') → Q (inl e) w') as Herr'.
  { intros e w1 w' He Hrt Hmem Hk. apply Herr; [done|by destruct (Hk 0)| |done].
    intros cl. eapply stable_trans; [by apply stable_rt|]. apply Hk. }
  apply fwp_fn, wp_if; intros _; [by apply wp_early, Herr|].
  apply wp_bind, wp_gets, wp_bind, wp_trace; [done|]. intros w1 Hrt1 Hmem1 Hport1. apply wp_bind.
  rewrite <-Hrt1 in Hinv. unfold id. rewrite <-Hrt1.
  destruct (connection_from_handle_spec Hinv caller handle) as (r & Hr & Hspec).
  eapply wp_defined; [done|]. destruct r as [e|k].
  { apply wp_bind, wp_trace; [done|]. intros w2 Hrt2 ? ?. apply wp_early. eapply (Herr' _ w1); [done..|congruence|].
    intros cl. split; [by rewrite Hrt2|by apply stable_rt]. }
  destruct Hspec as (c & Hk & Hcal & Hcc & _).
  apply wp_if; intros Hmal.
  { apply wp_bind, wp_trace; [done|]. intros w2 Hrt2 ? ?. apply wp_bind. eapply wp_mod_conn; [by rewrite Hrt2|].
    apply wp_early. eapply (Herr' _ w2); [done|simpl; congruence..|]. intros cl.
    eapply keeps_conn; [by rewrite Hrt2|by rewrite Hrt2|done|apply drop_or_latch_same|apply drop_or_latch_state]. }
  apply wp_bind. eapply wp_get_conn; [done|].
  apply wp_if; intros Hidle.
  { apply wp_bind, wp_trace; [done|]. intros w2 Hrt2 ? ?. apply wp_bind. eapply wp_mod_conn; [by rewrite Hrt2|].
    apply wp_early. eapply (Herr' _ w2); [done|simpl; congruence..|]. intros cl.
    eapply keeps_conn; [by rewrite Hrt2|by rewrite Hrt2|done|by constructor|by right]. }
  apply negb_false_iff, bool_decide_eq_true in Hidle.
  assert (no_request (rt w) caller → unused (rt w1) None k) as Hun.
  { rewrite <-Hrt1. intros Hno. by eapply no_request_unused. }
  assert (c_service_index c < r_service_count (rt w1))%nat as Hsv.
  { eapply conn_svc; [|done]. by eapply (inv_conn _ _ _ Hinv). }
  apply wp_bind, wp_call. apply alloc_message_spec; [done|lia| |].
  { apply wp_bind, wp_trace; [done|]. intros w2 Hrt2 ? ?. apply wp_early. eapply (Herr' _ w1); [done..|congruence|].
    intros cl. split; [by rewrite Hrt2|by apply stable_rt]. }
  intros i g Hi Hg Hinv2. set (w2 := put_msg i _ w1) in *.
  assert (k < WT_FFM_MAX_CONNECTIONS)%nat as Hklt.
  { rewrite <-(st_connections _ (inv_static _ _ _ Hinv)). by eapply lookup_lt_Some. }
  apply wp_bind. eapply wp_mod_msg; [by eapply put_msg_slot|]. set (m3 := set_field m_type _ _).
  rewrite (put_msg_put i _ m3 w1 : put_msg i m3 w2 = put_msg i m3 w1). clear Hinv2 w2.
  assert (inv (Some i) none (rt (put_msg i m3 w1))) as Hinv3.
  { eapply inv_detach_put; [done..| |done].
    by apply (message_fresh_ok _ g caller k (c_service_index c) type WT_FFM_ABANDONED_NONE). }
  apply wp_bind, wp_call. eapply (prepare_vectors_spec i m3); [done|by eapply put_msg_slot|done..| |].
  - intros ret w4 Hne Hrt4 Hmem4. simpl in Hmem4. rewrite (proj2 (Z.eqb_neq ret WT_FFM_SUCCESS) Hne). simpl.
    apply wp_bind, wp_call. eapply release_message_spec; [by rewrite Hrt4|rewrite Hrt4; by eapply put_msg_slot|].
    intros Hinv5. set (w5 := put_msg i _ w4) in *.
    assert (∀ cl, stable cl w1 w5) as Hst5.
    { intros cl. eapply (stable_fill _ _ _ i (message_free g)); [done|done|..]; simpl; rewrite Hrt4; try done.
      simpl. by rewrite list_insert_insert_eq. }
    assert (r_connections (rt w5) !! k = Some c) as Hk5 by (simpl; by rewrite Hrt4).
    apply wp_bind, wp_when; intros _; [eapply wp_mod_conn; [done|]|]; apply wp_early;
      (eapply (Herr' _ w1); [by destruct (_ =? _)|done|simpl; congruence|]); intros cl.
    + eapply keeps_trans; [by split|]. eapply keeps_conn; [done..|by constructor|by left].
    + by split.
  - intros m4 Hprep Hinv4. rewrite Z.eqb_refl. simpl. rewrite put_msg_put in Hinv4 |- *.
    set (w4 := put_msg i m4 w1) in *. set (c5 := c <| c_state := WT_IPC_CONNECTION_PENDING_REQUEST |>).
    destruct Hprep as [Hsl ? Hty Hnx (Ha & Hc & Hab) ? ? ? ? ?] eqn:E. destruct Hsl as [Hal4 Hcal4 Hci4 Hsi4].
    apply wp_bind. eapply wp_mod_conn; [done|]. apply wp_bind, wp_call.
    replace (c_service_index c) with (m_service_index m4) by done.
    eapply (submit_spec caller type k c5 i g m4 w1 (put_conn k c5 w4)); try done.
    + eapply inv_edit_conn; [done..|by constructor|by left].
    + unfold pending. rewrite Hal4, Ha, Hc. done.
    + simpl. rewrite list_lookup_insert_eq; [done|]. by eapply lookup_lt_Some.
    + intros w' n Hst Hf Hwf. apply wp_ret. eapply (HQ k i m3 m4 n c w'); try done.
      * intros Hno. destruct (Hwf (Hun Hno)) as [? [? ? ? ? ? Happ]]. split; [done|]. split; [done..|]. by rewrite <-Hrt1.
      * intros cl. eapply stable_trans; [by apply stable_rt|done].
      * rewrite (qf_memory _ _ Hf). done.
      * rewrite <-Hmem1. done.
      * by rewrite <-Hrt1.
      * rewrite <-Hrt1. intros m0 Hm0. rewrite Hi in Hm0. by simplify_eq.
      * unfold call_malformed in Hmal. bool_hyps. done.
      * by rewrite <-Hrt1.
      * rewrite (qf_connections _ _ Hf). simpl. rewrite list_lookup_insert_eq; [done|]. by eapply lookup_lt_Some.
Qed.

Lemma call_enqueue_spec traced caller handle type in_vec out_vec w (Q : Z + nat * nat → world → Prop) :
  wf (rt w) → no_request (rt w) caller →
  Forall invec_typed (items in_vec) → Forall outvec_typed (items out_vec) →
  (∀ e w', e < 0 → wf (rt w') → (∀ cl, stable cl w w') → memory w' = memory w → Q (inl e) w') →
  (∀ k i m0 m n c w', wf (rt w') → (∀ cl, stable cl w w') → memory w' = memory w →
     queued w w' caller type k i (m <| m_next := n |>) → prepared (memory w) in_vec out_vec m0 m →
     wt_ffm_connection_from_handle (rt w) caller handle = Some (inr k) →
     (∀ m0, r_messages (rt w) !! i = Some m0 → m_allocated m0 = false) → 0 ≤ type →
     r_connections (rt w) !! k = Some c → c_state c = WT_IPC_CONNECTION_IDLE →
     r_connections (rt w') !! k = Some (c <| c_state := WT_IPC_CONNECTION_PENDING_REQUEST |>) →
     Q (inr (k, i)) w') →
  fwp (call_enqueue traced caller handle type in_vec out_vec) Q w.
Proof.
  intros Hinv Hno Hti Hto Herr HQ. apply call_enqueue_any; [done..|].
  intros k i m0 m n c w' Hwf. destruct (Hwf Hno). eauto.
Qed.
(** ** Close *)

Lemma close_abandoned_spec k c w (Q : bool → world → Prop) :
  wf (rt w) → r_connections (rt w) !! k = Some c → c_allocated c = true →
  (∀ w', (∀ cl, keeps cl w w') → memory w' = memory w →
     r_connections (rt w') = <[k := c <| c_state := WT_IPC_CONNECTION_DISCONNECTING |>]> (r_connections (rt w)) →
     Q true w') →
  ((∀ i m, r_messages (rt w) !! i = Some m → m_allocated m = true → m_connection_index m = k →
      is_abandoned (m_abandoned m) = false) → Q false w) →
  fwp (wt_ffm_close_abandoned k) Q w.
Proof.
  intros Hinv Hk Hcal Hyes Hno. apply fwp_fn, wp_bind, wp_gets, wp_bind.
  destruct (search_spec (seq 0 WT_FFM_MAX_MESSAGES) (λ i, m ← r_messages (rt w) !! i;
    Some (m_allocated m && is_abandoned (m_abandoned m) && (m_connection_index m =? k)%nat))) as (r & Hr & Hspec).
  { intros i Hi. apply elem_of_seq in Hi. destruct (lookup_msg Hinv i) as [m ->]; [lia|]. by eexists. }
  eapply wp_defined; [done|]. destruct r as [i|].
  - destruct Hspec as [Hi Ht]. destruct (r_messages (rt w) !! i) as [m|] eqn:Hm; [|done]. injection Ht as Ht. bool_hyps.
    apply wp_bind. eapply wp_mod_msg; [done|]. set (w1 := put_msg i _ w).
    apply wp_bind. eapply wp_mod_conn; [done|]. apply wp_ret, Hyes; [|done..]. intros cl.
    assert (busy m = true) as Hbusy by (unfold busy; by replace (is_abandoned (m_abandoned m)) with true).
    assert (keeps cl w w1) as Hk1.
    { split.
      - eapply inv_edit_msg; [done..| |by constructor|done|done|done].
        destruct (inv_msg _ _ _ Hinv i m Hm) as [? ? ? Hf ? ? ? ? ? ?]. constructor; try done. simpl. congruence.
      - eapply stable_put_msg; [done|]. intros (_ & _ & Hab). rewrite Hab in *. done. }
    eapply keeps_trans; [exact Hk1|]. eapply keeps_conn; [apply Hk1|done..|by constructor|by left].
  - apply wp_ret, Hno. intros i m Hm Hal Heq. pose proof (lookup_msg_lt Hinv i m Hm).
    assert (i ∈ seq 0 WT_FFM_MAX_MESSAGES) as Hi%Hspec by (apply elem_of_seq; lia).
    rewrite Hm in Hi. simpl in Hi. rewrite Hal, Heq, Nat.eqb_refl, andb_true_r in Hi. by injection Hi.
Qed.

Lemma close_enqueue_any caller handle w (Q : Z * bool + nat * nat → world → Prop) :
  wf (rt w) →
  (∀ e b w', (∀ cl, keeps cl w w') → memory w' = memory w → Q (inl (e, b)) w') →
  (∀ k i m c w', (no_request (rt w) caller → wf (rt w') ∧ queued w w' caller PSA_IPC_DISCONNECT k i m) →
     (∀ cl, stable cl w w') → memory w' = memory w →
     wt_ffm_connection_from_handle (rt w) caller handle = Some (inr k) →
     r_connections (rt w') !! k = Some c → c_allocated c = true → c_caller c = caller →
     c_service_index c = m_service_index m → c_state c = WT_IPC_CONNECTION_DISCONNECTING →
     (∀ c0, r_connections (rt w) !! k = Some c0 → c = c0 <| c_state := WT_IPC_CONNECTION_DISCONNECTING |>) →
     Q (inr (k, i)) w') →
  fwp (close_enqueue caller handle) Q w.
Proof.
  intros Hinv Herr HQ.
  assert (∀ e b, Q (inl (e, b)) w) as Herr0 by (intros; apply Herr; [intros; by apply keeps_refl|done]).
  apply fwp_fn, wp_if; intros _; [apply wp_early, Herr0|]. apply wp_if; intros _; [apply wp_early, Herr0|].
  apply wp_bind, wp_gets, wp_bind. destruct (connection_from_handle_spec Hinv caller handle) as (r & Hr & Hspec).
  eapply wp_defined; [done|]. destruct r as [e|k]; [apply wp_early, Herr0|].
  destruct Hspec as (c & Hk & Hcal & Hcc & _). apply wp_bind. eapply wp_get_conn; [done|].
  apply wp_if; intros _; [apply wp_early, Herr0|].
  assert (c_service_index c < r_service_count (rt w))%nat as Hsv.
  { eapply conn_svc; [|done]. by eapply (inv_conn _ _ _ Hinv). }
  apply wp_bind, wp_call. eapply close_abandoned_spec; [done..| |].
  { intros w1 Hk1 Hmem1 _. simpl. apply wp_early, Herr; [|done]. done. }
  intros Hna. simpl.
  assert (no_request (rt w) caller → unused (rt w) None k) as Hun.
  { intros Hno i m Hm Hal Hx Heq. destruct (inv_attached _ _ _ Hinv i m Hm Hal Hx) as (c' & Hc' & _ & Hcal' & _).
    rewrite Heq in Hc'. simplify_eq. specialize (Hna i m Hm Hal eq_refl). by rewrite (Hno i m) in Hna. }
  apply wp_bind, wp_call. apply alloc_message_spec; [done|lia|apply wp_early, Herr0|].
  intros i g Hi Hg Hinv1. set (w1 := put_msg i _ w) in *.
  assert (k < WT_FFM_MAX_CONNECTIONS)%nat as Hklt.
  { rewrite <-(st_connections _ (inv_static _ _ _ Hinv)). by eapply lookup_lt_Some. }
  apply wp_bind. eapply wp_mod_conn; [done|]. set (c2 := c <| c_state := WT_IPC_CONNECTION_DISCONNECTING |>).
  apply wp_bind. eapply wp_mod_msg; [by eapply put_msg_slot|]. set (m3 := set_field m_type _ _).
  set (w3 := put_msg i m3 _).
  assert (inv (Some i) none (rt w3)) as Hinv3.
  { eapply inv_edit_detached; [|by eapply put_msg_slot|].
    - eapply inv_edit_conn; [done..|by constructor|by left].
    - by apply (message_fresh_ok _ g caller k (c_service_index c) PSA_IPC_DISCONNECT WT_FFM_ABANDONED_NONE). }
  apply wp_bind, wp_call. change (c_service_index c) with (m_service_index m3).
  assert (r_connections (rt w3) !! k = Some c2) as Hk3.
  { simpl. rewrite list_lookup_insert_eq; [done|]. by eapply lookup_lt_Some. }
  eapply (submit_spec caller PSA_IPC_DISCONNECT k c2 i g m3 w w3); try done.
  - simpl. by rewrite list_insert_insert_eq.
  - intros w' n Hst Hf Hq. apply wp_ret. eapply (HQ k i (m3 <| m_next := n |>) c2 w'); try done.
    + intros Hno. exact (Hq (Hun Hno)).
    + by rewrite (qf_memory _ _ Hf).
    + by rewrite (qf_connections _ _ Hf).
    + intros c0 Hc0. by simplify_eq.
Qed.

Lemma close_enqueue_spec caller handle w (Q : Z * bool + nat * nat → world → Prop) :
  wf (rt w) → no_request (rt w) caller →
  (∀ e b w', (∀ cl, keeps cl w w') → memory w' = memory w → Q (inl (e, b)) w') →
  (∀ k i m c w', wf (rt w') → (∀ cl, stable cl w w') → memory w' = memory w →
     queued w w' caller PSA_IPC_DISCONNECT k i m →
     wt_ffm_connection_from_handle (rt w) caller handle = Some (inr k) →
     r_connections (rt w') !! k = Some c → c_allocated c = true → c_caller c = caller →
     c_service_index c = m_service_index m → c_state c = WT_IPC_CONNECTION_DISCONNECTING →
     (∀ c0, r_connections (rt w) !! k = Some c0 → c = c0 <| c_state := WT_IPC_CONNECTION_DISCONNECTING |>) →
     Q (inr (k, i)) w') →
  fwp (close_enqueue caller handle) Q w.
Proof.
  intros Hinv Hno Herr HQ. apply close_enqueue_any; [done..|].
  intros k i m c w' Hwf. destruct (Hwf Hno). eauto.
Qed.
(** ** Output publication *)

(** Output vector [j]: where it goes and how much was written. *)
Definition output (m : wt_ffm_message_runtime) (j : nat) (dest n : Z) : Prop :=
  m_client_output m !! j = Some dest ∧ m_out_position m !! j = Some n.

Lemma publish_defined strict m l mem vs sc :
  msg_ok sc m → (∀ i, i ∈ l → (i < m_out_count m)%nat) →
  (strict = true → (m_out_count m ≤ length vs)%nat) →
  ∃ mem' vs', publish strict m l mem vs = Some (mem', vs') ∧ length vs' = length vs.
Proof.
  intros Hok. revert mem vs. induction l as [|i l IH]; intros mem vs Hl Hvs; simpl; [by eexists _, _|].
  assert (i < m_out_count m)%nat as Hi by (apply Hl; set_solver).
  destruct (vec_lookup _ _ _ _ i (msg_out _ _ Hok) Hi) as (sz & off & p & _ & Hoff & Hp & ? & ? & ? & _).
  unfold arr_get in *. rewrite Hp; simpl.
  assert (∃ mem1, (if p =? 0 then Some mem else
      dest ← m_client_output m !! i; offset ← m_out_offset m !! i;
      bytes ← buf_read (m_output m) offset p; Some (mem_write mem dest bytes)) = Some mem1) as [mem1 Hmem1].
  { destruct (p =? 0); [by eexists|].
    destruct (lookup_lt_is_Some_2 (m_client_output m) i) as [dest ->].
    { rewrite (msg_dest _ _ Hok). pose proof (vec_count _ _ _ _ (msg_out _ _ Hok)). lia. }
    simpl. rewrite Hoff; simpl. destruct (buf_read_spec (m_output m) off p) as (bytes & -> & _); [lia|lia| |by eexists].
    rewrite (msg_output _ _ Hok). unfold WT_FFM_TRANSFER_BYTES in *. lia. }
  simpl in Hmem1. rewrite Hmem1. simpl. destruct (vs !! i) as [v|] eqn:Hv; simpl.
  - destruct (IH mem1 (<[i:=v <| ov_len := p |>]> vs)) as (mem' & vs' & E & Hlen).
    + set_solver.
    + by rewrite length_insert.
    + exists mem', vs'. split; [exact E|]. by rewrite length_insert in Hlen.
  - destruct strict.
    + apply lookup_ge_None in Hv. specialize (Hvs eq_refl). lia.
    + apply IH; [set_solver|done].
Qed.

Lemma output_refused_defined port m sc : msg_ok sc m → is_Some (output_refused port m).
Proof.
  intros Hok. unfold output_refused.
  destruct (search_spec (seq 0 (m_out_count m)) (λ i, position ← arr_get (m_out_position m) i;
    dest ← arr_get (m_client_output m) i;
    Some (negb (position =? 0) && negb (check_write port (m_caller m) dest position)))) as (r & -> & _); [|by eexists].
  intros i Hi. apply elem_of_seq in Hi.
  destruct (vec_lookup _ _ _ _ i (msg_out _ _ Hok)) as (sz & off & p & _ & _ & Hp & _); [lia|].
  rewrite Hp; simpl. unfold arr_get. destruct (lookup_lt_is_Some_2 (m_client_output m) i) as [dest ->]; [|by eexists].
  rewrite (msg_dest _ _ Hok). pose proof (vec_count _ _ _ _ (msg_out _ _ Hok)). lia.
Qed.

(** The slot of a request that waits in no queue is released. *)
Lemma release_done_spec i m w (Q : unit → world → Prop) :
  wf (rt w) → r_messages (rt w) !! i = Some m → pending m = false →
  (wf (rt (put_msg i (message_free (wt_ffm_next_generation (m_generation m))) w)) →
   Q tt (put_msg i (message_free (wt_ffm_next_generation (m_generation m))) w)) →
  fwp (wt_ffm_release_message i) Q w.
Proof.
  intros Hinv Hi Hp HQ. eapply release_message_spec; [|done|done].
  eapply inv_detach; [done..|]. by rewrite Hp.
Qed.

Lemma complete_not_pending m : m_complete m = true → pending m = false.
Proof. unfold pending. intros ->. by rewrite andb_false_r. Qed.

Lemma publish_outputs_spec strict i m out_vec w (Q : Z * carray psa_outvec → world → Prop) :
  wf (rt w) → r_messages (rt w) !! i = Some m → m_allocated m = true → m_complete m = true →
  (strict = true → (m_out_count m ≤ length (items out_vec))%nat) →
  (∀ w', output_refused (port w) m = Some true → memory w' = memory w →
     wf (rt w') → (∀ cl, cl ≠ m_caller m → stable cl w w') → Q (PSA_ERROR_PROGRAMMER_ERROR, out_vec) w') →
  (∀ mem' vs', output_refused (port w) m = Some false →
     publish strict m (seq 0 (m_out_count m)) (memory w) (items out_vec) = Some (mem', vs') →
     let w' := put_msg i (message_free (wt_ffm_next_generation (m_generation m))) (w <| memory := mem' |>) in
     wf (rt w') → (∀ cl, cl ≠ m_caller m → stable cl w w') → Q (m_reply_status m, with_items out_vec vs') w') →
  fwp (publish_outputs strict (m_connection_index m) i out_vec) Q w.
Proof.
  intros Hinv Hi Hal Hcomp Hstrict Hrefused HQ. pose proof (inv_msg _ _ _ Hinv i m Hi) as Hok.
  assert (∀ cl w', rt w' = rt w → cl ≠ m_caller m →
    stable cl w (put_msg i (message_free (wt_ffm_next_generation (m_generation m))) w')) as Hst.
  { intros cl w' Hrt Hne. transitivity w'; [by apply stable_rt|]. eapply stable_put_msg; [by rewrite Hrt|].
    intros (_ & ? & _). congruence. }
  apply fwp_fn, wp_bind. eapply wp_get_msg; [done|]. cbv zeta. apply wp_bind, wp_gets, wp_bind.
  destruct (output_refused_defined (port w) m _ Hok) as [b Hb]. eapply wp_defined; [done|]. destruct b.
  - destruct (attached_conn _ _ _ i m Hinv Hi Hal) as (c & Hc & Hcal & _); [done|].
    apply wp_bind. eapply wp_mod_conn; [done|]. set (w1 := put_conn _ _ w).
    assert (wf (rt w1)) as Hinv1.
    { eapply inv_edit_conn; [done..|by constructor|by left]. }
    apply wp_bind, wp_call. eapply release_done_spec; [done|done|by apply complete_not_pending|].
    intros Hinv2. apply wp_early, Hrefused; [done..|]. intros cl Hne.
    transitivity w1; [apply stable_put_conn|]. eapply stable_put_msg; [done|]. intros (_ & ? & _). congruence.
  - destruct (publish_defined strict m (seq 0 (m_out_count m)) (memory w) (items out_vec) _ Hok)
      as (mem' & vs' & Hpub & Hlen); [intros j Hj%elem_of_seq; lia|done|].
    apply wp_bind. eapply wp_defined; [done|]. apply wp_bind, wp_modify, wp_bind, wp_call.
    eapply release_done_spec; [done|done|by apply complete_not_pending|]. intros Hinv2. apply wp_ret.
    apply HQ; try done. intros cl Hne. by apply Hst.
Qed.

(** ** Completion of deferred requests *)

(** The request a deferred client waits for. *)
Definition finished (rt : wt_ffm_runtime) (i : nat) (m : wt_ffm_message_runtime) : Prop :=
  r_messages rt !! i = Some m ∧ m_allocated m = true ∧ m_complete m = true.

Lemma index_guard x B rt i m :
  inv x B rt → r_messages rt !! i = Some m → (WT_FFM_MAX_MESSAGES <=? i)%nat = false.
Proof. intros Hinv Hi. apply Nat.leb_gt. by eapply lookup_msg_lt. Qed.

(** The slot of a finished request is released, and its connection is then unused. *)
Lemma release_finished_spec i m w (Q : unit → world → Prop) :
  wf (rt w) → finished (rt w) i m →
  (let w' := put_msg i (message_free (wt_ffm_next_generation (m_generation m))) w in
   wf (rt w') → unused (rt w') None (m_connection_index m) →
   (∀ cl, cl ≠ m_caller m → stable cl w w') → Q tt w') →
  fwp (wt_ffm_release_message i) Q w.
Proof.
  intros Hinv (Hi & Hal & Hcomp) HQ. eapply release_done_spec; [done|done|by apply complete_not_pending|].
  intros Hinv1. apply HQ; [done| |].
  - intros j mj Hj Hjal _. simpl in Hj.
    apply list_lookup_insert_Some in Hj as [(-> & <- & _)|(Hne & Hj)]; [done|].
    by eapply (alone_attached _ _ _ i m Hinv).
  - intros cl Hne. eapply stable_put_msg; [done|]. intros (_ & ? & _). congruence.
Qed.

Lemma connect_finish_keeps i m w :
  wf (rt w) → finished (rt w) i m →
  fwp (wt_ffm_connect_finish i) (λ _ w', wf (rt w') ∧ ∀ cl, cl ≠ m_caller m → stable cl w w') w.
Proof.
  intros Hinv Hfin. pose proof Hfin as (Hi & Hal & _). destruct (lookup_msg_conn Hinv i m Hi) as [c Hc].
  apply fwp_fn. rewrite (index_guard _ _ _ _ _ Hinv Hi).
  apply wp_bind. eapply wp_get_msg; [done|]. cbv zeta. apply wp_bind, wp_call.
  eapply release_finished_spec; [done..|]. intros w1 Hinv1 Hun Hst.
  apply wp_if; intros _.
  - apply wp_bind, wp_call. eapply release_connection_spec; [done|exact Hc|done|]. intros Hinv2. apply wp_early.
    split; [done|]. intros cl Hne. transitivity w1; [auto|apply stable_put_conn].
  - apply wp_bind. eapply wp_get_conn; [exact Hc|]. by apply wp_ret.
Qed.

Lemma close_finish_keeps i m w :
  wf (rt w) → finished (rt w) i m →
  fwp (wt_ffm_close_finish i) (λ _ w', wf (rt w') ∧ ∀ cl, cl ≠ m_caller m → stable cl w w') w.
Proof.
  intros Hinv Hfin. pose proof Hfin as (Hi & Hal & _). destruct (lookup_msg_conn Hinv i m Hi) as [c Hc].
  apply fwp_fn. rewrite (index_guard _ _ _ _ _ Hinv Hi).
  apply wp_bind. eapply wp_get_msg; [done|]. cbv zeta. apply wp_bind, wp_call.
  eapply release_finished_spec; [done..|]. intros w1 Hinv1 Hun Hst.
  apply wp_bind, wp_call. eapply release_connection_spec; [done|exact Hc|done|]. intros Hinv2. apply wp_ret.
  split; [done|]. intros cl Hne. transitivity w1; [auto|apply stable_put_conn].
Qed.

Lemma call_finish_keeps i m out_vec w :
  wf (rt w) → finished (rt w) i m →
  fwp (wt_ffm_call_finish i out_vec) (λ _ w', wf (rt w') ∧ ∀ cl, cl ≠ m_caller m → stable cl w w') w.
Proof.
  intros Hinv (Hi & Hal & Hcomp). apply fwp_fn. rewrite (index_guard _ _ _ _ _ Hinv Hi).
  apply wp_bind. eapply wp_get_msg; [done|]. apply wp_call. by eapply publish_outputs_spec.
Qed.
End client.
