(* ===== verification/FfmTerm.v ===== *)
(** * Abnormal termination: partitions and clients

    What failing a partition's messages, failing a client's connections and
    restarting a partition leave behind. *)

From Stdlib Require Import ZArith Lia.
From stdpp Require Import base list numbers option sets.
From S2P Require Import Prelude Buffers CState Manifest Ipc FfmTypes FfmCore FfmClient FfmService FfmWf FfmQueue FfmSlots FfmServiceWf FfmClientWf.

Lemma elem_of_snoc (l : list nat) i j : j ∈ l ++ [i] → j ∈ l ∨ j = i.
Proof. set_solver. Qed.

(** ** Services of a partition *)

(** Service [s] is served by the partition with domain id [pid]. *)
Definition belongs (rt : wt_ffm_runtime) (s : nat) (pid : Z) : Prop :=
  match service_of rt s ≫= λ dk, manifest_of rt dk.2 with
  | Some pm => pm_domain_id pm = u32 pid
  | None => False
  end.

#[export] Instance belongs_dec rt s pid : Decision (belongs rt s pid).
Proof. unfold belongs. destruct (_ ≫= _); apply _. Defined.

Lemma belongs_stable cl w w' s pid : stable cl w w' → belongs (rt w') s pid ↔ belongs (rt w) s pid.
Proof.
  intros Hst. unfold belongs. rewrite (stable_services _ _ _ Hst).
  destruct (service_of (rt w) s) as [[d k]|]; simpl; [|done]. by rewrite (stable_manifests _ _ _ Hst).
Qed.

Lemma serves_spec {R} x B s pid w (E : R → world → Prop) Q :
  inv x B (rt w) → (s < r_service_count (rt w))%nat →
  Q (bool_decide (belongs (rt w) s pid)) w → wp (serves s pid) E Q w.
Proof.
  intros Hinv Hs HQ. destruct (lookup_svc Hinv s Hs) as (sv & d & p & pm & Hsv & Hd & Hp & Hpm & _).
  apply wp_bind. eapply wp_get_svc; [done|]. apply wp_bind. eapply wp_get_part; [done|]. apply wp_ret.
  rewrite Hpm. assert (belongs (rt w) s pid ↔ pm_domain_id pm = u32 pid) as Hb.
  { unfold belongs, service_of, manifest_of. rewrite Hsv; simpl. rewrite Hd; simpl. rewrite Hp; simpl. by rewrite Hpm. }
  replace (pm_domain_id pm =? u32 pid) with (bool_decide (belongs (rt w) s pid)); [done|].
  destruct (Z.eqb_spec (pm_domain_id pm) (u32 pid)); [by apply bool_decide_true, Hb|].
  apply bool_decide_false. by rewrite Hb.
Qed.

(** No partition instance changes. *)
Definition same_instances (w w' : world) : Prop :=
  ∀ k, p_instance <$> r_partitions (rt w') !! k = p_instance <$> r_partitions (rt w) !! k.

#[export] Instance same_instances_preorder : PreOrder same_instances.
Proof. split; [by intros w k|]. intros w1 w2 w3 H1 H2 k. by rewrite H2. Qed.

Lemma same_instances_frame w w' x B x' B' :
  inv x B (rt w) → inv x' B' (rt w') → queue_frame w w' → same_instances w w'.
Proof.
  intros Hinv Hinv' Hf k. pose proof (frame_partitions w w' _ _ _ _ k Hinv Hinv' Hf) as Hk.
  destruct (r_partitions (rt w') !! k), (r_partitions (rt w) !! k); simpl in *; congruence.
Qed.

(** ** Client termination *)

(** The requests of [w'] are requests of [w], as far in their service. *)
Definition no_new_request (w w' : world) : Prop :=
  ∀ i m', r_messages (rt w') !! i = Some m' → m_allocated m' = true →
    ∃ m, r_messages (rt w) !! i = Some m ∧ m_allocated m = true ∧ m_caller m' = m_caller m ∧
      m_service_index m' = m_service_index m ∧ m_complete m' = m_complete m.

Lemma no_new_request_trans w1 w2 w3 : no_new_request w1 w2 → no_new_request w2 w3 → no_new_request w1 w3.
Proof.
  intros H12 H23 i m3 Hi Hal. destruct (H23 i m3 Hi Hal) as (m2 & Hi2 & Hal2 & ? & ? & ?).
  destruct (H12 i m2 Hi2 Hal2) as (m1 & ? & ? & ? & ? & ?). exists m1. split_and!; congruence.
Qed.

Lemma no_new_frame w w' x B x' B' :
  inv x B (rt w) → inv x' B' (rt w') → queue_frame w w' → no_new_request w w'.
Proof.
  intros Hinv Hinv' Hf i m' Hi Hal. destruct (lookup_msg Hinv i) as [m Hm]; [by eapply (lookup_msg_lt Hinv')|].
  destruct (qf_messages _ _ Hf i m Hm) as [n Hn]. rewrite Hi in Hn. injection Hn as ->. by exists m.
Qed.

Lemma no_new_free w i g : no_new_request w (put_msg i (message_free g) w).
Proof.
  intros j m' Hj Hal. simpl in Hj. apply list_lookup_insert_Some in Hj as [(-> & <- & _)|(_ & Hj)]; [done|eauto 10].
Qed.

(** Client [c] has no request in the slots [l]. *)
Definition cleared (w : world) (c : Z) (l : list nat) : Prop :=
  ∀ i m, i ∈ l → r_messages (rt w) !! i = Some m → m_allocated m = true → m_caller m ≠ c.

Lemma cleared_no_new w w' c l : no_new_request w w' → cleared w c l → cleared w' c l.
Proof.
  intros Hn Hc i m Hil Hi Hal. destruct (Hn i m Hi Hal) as (m0 & Hi0 & Hal0 & -> & _). by eapply Hc.
Qed.

Record client_loop (w : world) (c : Z) (l : list nat) (w' : world) : Prop := {
  cl_wf : wf (rt w');
  cl_stable cl : cl ≠ c → stable cl w w';
  cl_new : no_new_request w w';
  cl_cleared : cleared w' c l;
  cl_connections : r_connections (rt w') = r_connections (rt w);
  cl_instances : same_instances w w';
}.

Lemma release_client_message_spec c w l1 i w1 E :
  client_loop w c l1 w1 → (i < WT_FFM_MAX_MESSAGES)%nat →
  wp (release_client_message c i) E (λ _, client_loop w c (l1 ++ [i])) w1.
Proof.
  intros [Hinv Hst Hnew Hcl Hcn Hin] Hi. destruct (lookup_msg Hinv i Hi) as [m Hm].
  assert (∀ w', wf (rt w') → (∀ cl, cl ≠ c → stable cl w1 w') → no_new_request w1 w' →
    (∀ m', r_messages (rt w') !! i = Some m' → m_allocated m' = true → m_caller m' ≠ c) →
    r_connections (rt w') = r_connections (rt w1) → same_instances w1 w' →
    client_loop w c (l1 ++ [i]) w') as Hdone.
  { intros w' Hwf Hst' Hn Hi' Hcn' Hin'.
    constructor; [done| |by eapply no_new_request_trans| |congruence|by transitivity w1].
    - intros cl Hne. transitivity w1; auto.
    - pose proof (cleared_no_new _ _ _ _ Hn Hcl) as Hcl'. intros j mj Hj Hmj Hal.
      apply elem_of_snoc in Hj as [Hj|Hj]; [by apply (Hcl' j mj)|].
      subst j. by apply Hi'. }
  apply wp_bind. eapply wp_get_msg; [done|]. apply wp_if; intros Hc.
  { apply wp_ret, Hdone; [done..| | |done|done].
    - intros j mj Hj Hal. eauto 10.
    - intros m' Hm' Hal. simplify_eq. rewrite Hal in Hc. simpl in Hc. apply negb_true_iff, Z.eqb_neq in Hc. done. }
  bool_hyps. assert (m_allocated m = true) as Hal by done.
  assert (m_service_index m < r_service_count (rt w1))%nat as Hs by (eapply msg_svc; [by eapply (inv_msg _ _ _ Hinv)|done]).
  (* from a detached slot, the release finishes the iteration *)
  assert (∀ w2, inv (Some i) none (rt w2) → queue_frame w1 w2 →
    wp (call (wt_ffm_release_message i)) E (λ _, client_loop w c (l1 ++ [i])) w2) as Hrelease.
  { intros w2 Hinv2 Hf. destruct (qf_messages _ _ Hf i m Hm) as [n Hn]. apply wp_call.
    eapply release_message_spec; [done..|]. intros Hinv3. apply Hdone; [done| | | | |].
    - intros cl Hne. transitivity w2; [by eapply stable_frame|]. eapply stable_put_msg; [done|].
      intros (_ & ? & _). simplify_eq/=.
    - apply (no_new_request_trans _ w2); [by eapply no_new_frame|apply no_new_free].
    - intros m' Hm'. simpl in Hm'. rewrite list_lookup_insert_eq in Hm' by by eapply lookup_lt_Some.
      by simplify_eq.
    - simpl. apply Hf.
    - transitivity w2; [by eapply same_instances_frame|done]. }
  apply wp_bind, wp_when; intros Hp.
  - apply wp_call. eapply dequeue_spec; [done..|]. intros w2 Hinv2 Hf _. by apply Hrelease.
  - apply Hrelease; [|apply qf_refl]. eapply inv_detach; [done..|]. unfold pending. rewrite Hal. simpl.
    rewrite andb_comm, Hp. done.
Qed.

(** No request and no connection of the client remains. *)
Record client_released (w : world) (c : Z) (w' : world) : Prop := {
  crel_wf : wf (rt w');
  crel_stable cl : cl ≠ c → stable cl w w';
  crel_new : no_new_request w w';
  crel_messages i m : r_messages (rt w') !! i = Some m → m_allocated m = true → m_caller m ≠ c;
  crel_connections k cn : r_connections (rt w') !! k = Some cn → c_allocated cn = true →
    c_caller cn ≠ c ∧ r_connections (rt w) !! k = Some cn;
  crel_instances : same_instances w w';
}.

Lemma fail_client_connections_spec c w :
  wf (rt w) → fwp (wt_ffm_fail_client_connections c) (λ _ w', client_released w c w') w.
Proof.
  intros Hinv. apply fwp_fn, wp_bind.
  apply (wp_for_each _ _ (client_loop w c)).
  { constructor; [done..| | |done|done].
    - intros i m Hi Hal. eauto 10.
    - intros i m Hi. by apply not_elem_of_nil in Hi. }
  { intros l1 i l2 s' Hl Hloop. apply release_client_message_spec; [done|].
    assert (i ∈ seq 0 WT_FFM_MAX_MESSAGES) as Hi by (rewrite Hl; set_solver). apply elem_of_seq in Hi. lia. }
  intros w1 [Hinv1 Hst1 Hnew1 Hcl1 Hcn1 Hin1].
  assert (∀ w', wf (rt w') → r_messages (rt w') = r_messages (rt w1) →
    ∀ i m, r_messages (rt w') !! i = Some m → m_allocated m = true → m_caller m ≠ c) as Hnomsg.
  { intros w' Hinv' Hm i m Hi Hal. rewrite Hm in Hi. eapply Hcl1; [|done..].
    apply elem_of_seq. pose proof (lookup_msg_lt Hinv1 i m Hi). lia. }
  apply (wp_for_acc _ _ (λ l _ w', wf (rt w') ∧ (∀ cl, stable cl w1 w') ∧ r_messages (rt w') = r_messages (rt w1) ∧
    (∀ k cn, k ∈ l → r_connections (rt w') !! k = Some cn → c_allocated cn = true → c_caller cn ≠ c) ∧
    (∀ k cn, r_connections (rt w') !! k = Some cn → c_allocated cn = true → r_connections (rt w1) !! k = Some cn) ∧
    same_instances w1 w')).
  - split_and!; try done. set_solver.
  - intros l1 k l2 freed w2 Hl (Hinv2 & Hst2 & Hm2 & Hc2 & Hold2 & Hin2).
    assert (k ∈ seq 0 WT_FFM_MAX_CONNECTIONS) as Hk by (rewrite Hl; set_solver). apply elem_of_seq in Hk.
    destruct (lookup_conn Hinv2 k) as [cn Hcn]; [lia|]. apply wp_bind. eapply wp_get_conn; [done|].
    apply wp_if; intros Hcond.
    + apply wp_ret. split_and!; try done. intros k' cn' [Hk'|Hk']%elem_of_snoc Hcn' Hal; [by apply (Hc2 k' cn')|].
      subst k'. simplify_eq. rewrite Hal in Hcond. simpl in Hcond. by apply negb_true_iff, Z.eqb_neq in Hcond.
    + bool_hyps. apply wp_bind, wp_call. eapply release_connection_spec; [done..| |].
      { intros i m Hi Hal Hx Heq. destruct (inv_attached _ _ _ Hinv2 i m Hi Hal Hx) as (c' & Hc' & _ & Hcal' & _).
        rewrite Heq in Hc'. simplify_eq. by eapply (Hnomsg w2). }
      intros Hinv3. apply wp_ret. split_and!; try done.
      * intros cl. transitivity w2; [done|apply stable_put_conn].
      * intros k' cn' Hk' Hcn' Hal. simpl in Hcn'.
        apply list_lookup_insert_Some in Hcn' as [(-> & <- & _)|(Hne & Hcn')]; [done|].
        apply elem_of_snoc in Hk' as [Hk'|Hk']; [by apply (Hc2 k' cn')|by subst].
      * intros k' cn' Hcn' Hal. simpl in Hcn'.
        apply list_lookup_insert_Some in Hcn' as [(-> & <- & _)|(Hne & Hcn')]; [done|auto].
  - intros freed w' (Hinv' & Hst' & Hm' & Hc' & Hold' & Hin'). constructor; [done| | | | |by transitivity w1].
    + intros cl Hne. transitivity w1; auto.
    + intros i m Hi Hal. rewrite Hm' in Hi. by apply Hnew1.
    + by apply Hnomsg.
    + intros k cn Hcn Hal. split; [|rewrite <-Hcn1; auto]. apply (Hc' k cn); [|done..]. apply elem_of_seq.
      apply lookup_lt_Some in Hcn. rewrite (st_connections _ (inv_static _ _ _ Hinv')) in Hcn. lia.
Qed.

(** ** Partition failure *)

(** The requests in the slots [l] that partition [pid] serves are complete. *)
Definition completed (w : world) (pid : Z) (l : list nat) : Prop :=
  ∀ i m, i ∈ l → r_messages (rt w) !! i = Some m → m_allocated m = true →
    belongs (rt w) (m_service_index m) pid → m_complete m = true.

Record message_loop (w : world) (pid : Z) (l : list nat) (w' : world) : Prop := {
  ml_inv : inv None (λ s, belongs (rt w) s pid) (rt w');
  ml_stable cl : stable cl w w';
  ml_completed : completed w' pid l;
  ml_partitions : r_partitions (rt w') = r_partitions (rt w);
}.

(** One slot completed or freed, the others as they were. *)
Lemma completed_put w w' pid l i m' :
  stable 0 w w' → r_messages (rt w') = <[i := m']> (r_messages (rt w)) →
  m_complete m' = true ∨ m_allocated m' = false → completed w pid l → completed w' pid (l ++ [i]).
Proof.
  intros Hst Hm Hm' Hc j mj Hj Hmj Hal. rewrite (belongs_stable _ _ _ _ _ Hst). rewrite Hm in Hmj.
  apply list_lookup_insert_Some in Hmj as [(-> & <- & _)|(Hne & Hmj)]; [destruct Hm'; congruence|].
  apply elem_of_snoc in Hj as [Hj|Hj]; [|done]. by eapply Hc.
Qed.

Lemma fail_message_spec pid status w l1 i w1 failed E :
  message_loop w pid l1 w1 → (i < WT_FFM_MAX_MESSAGES)%nat →
  wp (fail_message pid status i failed) E (λ _, message_loop w pid (l1 ++ [i])) w1.
Proof.
  intros [Hinv Hst Hc Hpt] Hi. destruct (lookup_msg Hinv i Hi) as [m Hm].
  assert ((m_allocated m = true → belongs (rt w1) (m_service_index m) pid → m_complete m = true) →
    message_loop w pid (l1 ++ [i]) w1) as Hskip.
  { intros Hm'. constructor; [done..| |done]. intros j mj Hj Hmj Hal.
    apply elem_of_snoc in Hj as [Hj|Hj]; [by eapply Hc|]. subst j. simplify_eq. auto. }
  apply wp_bind. eapply wp_get_msg; [done|]. apply wp_if; intros Hcond.
  { apply wp_ret, Hskip. intros Hal. rewrite Hal in Hcond. by rewrite orb_false_l in Hcond. }
  bool_hyps. assert (m_allocated m = true) as Hal by done.
  assert (m_service_index m < r_service_count (rt w1))%nat as Hs by (eapply msg_svc; [by eapply (inv_msg _ _ _ Hinv)|done]).
  apply wp_bind. eapply serves_spec; [done..|]. apply wp_if; intros Hb.
  { apply wp_ret, Hskip. intros _ Hbel. apply negb_true_iff, bool_decide_eq_false in Hb. done. }
  apply negb_false_iff, bool_decide_eq_true in Hb. pose proof Hb as Hb0. rewrite (belongs_stable _ _ _ _ _ (Hst 0)) in Hb0.
  destruct (attached_conn _ _ _ i m Hinv Hm Hal) as (c & Hcn & Hcal & Hcc & Hcs); [done|].
  pose proof (alone_attached _ _ _ i m Hinv Hm Hal ltac:(done)) as Halone.
  pose proof (inv_detach _ _ _ _ Hinv Hm (λ _, Hb0)) as Hdet.
  apply wp_bind. eapply wp_mod_msg; [done|]. fold (replied status m). set (w2 := put_msg i (replied status m) w1).
  assert (inv (Some i) (λ s, belongs (rt w) s pid) (rt w2)) as Hinv2.
  { eapply inv_edit_detached; [done..|]. apply msg_ok_replied; [|done]. by eapply (inv_msg _ _ _ Hinv). }
  apply wp_bind. eapply wp_mod_conn; [done|]. set (c3 := set_field c_state _ c). set (w3 := put_conn _ c3 w2).
  assert (inv (Some i) (λ s, belongs (rt w) s pid) (rt w3)) as Hinv3.
  { eapply inv_edit_conn; [done..|by constructor|by left]. }
  assert (r_messages (rt w3) !! i = Some (replied status m)) as Hm3 by by eapply put_msg_slot.
  assert (r_connections (rt w3) !! m_connection_index m = Some c3) as Hc3.
  { simpl. rewrite list_lookup_insert_eq; [done|]. by eapply lookup_lt_Some. }
  assert (∀ cl, stable cl w1 w3) as Hst3.
  { intros cl. transitivity w2; [by eapply stable_put_msg; [|constructor]|apply stable_put_conn]. }
  (* a loop step that ends with the slot holding m' *)
  assert (∀ w' m', inv None (λ s, belongs (rt w) s pid) (rt w') → (∀ cl, stable cl w1 w') →
    r_messages (rt w') = <[i := m']> (r_messages (rt w1)) → m_complete m' = true ∨ m_allocated m' = false →
    r_partitions (rt w') = r_partitions (rt w1) → message_loop w pid (l1 ++ [i]) w') as Hdone.
  { intros w' m' Hinv' Hst' Hmsgs Hm' Hpt'.
    constructor; [done| |eapply (completed_put w1); [apply Hst'|done..]|congruence].
    intros cl. by transitivity w1. }
  apply wp_bind, wp_when; intros Hab.
  - (* abandoned: release the slot, and the connection if the client closed it *)
    assert (∀ w4, inv (Some i) (λ s, belongs (rt w) s pid) (rt w4) → (∀ cl, stable cl w1 w4) →
      r_messages (rt w4) = r_messages (rt w3) → r_partitions (rt w4) = r_partitions (rt w1) →
      wp (call (wt_ffm_release_message i)) E (λ _, wp (mret (failed + 1)) E (λ _, message_loop w pid (l1 ++ [i]))) w4)
      as Hrel.
    { intros w4 Hinv4 Hst4 Hm4 Hpt4. apply wp_call. eapply release_message_spec; [done|by rewrite Hm4|]. intros Hinv5.
      apply wp_ret. eapply (Hdone _ (message_free _)); [done| | |by right|done].
      - intros cl. transitivity w4; [done|]. eapply stable_put_msg; [by rewrite Hm4|]. intros (_ & _ & Hn).
        simpl in Hn. by rewrite Hn in Hab.
      - simpl. rewrite Hm4. simpl. by rewrite list_insert_insert_eq. }
    apply wp_bind, wp_when; intros _; [|by apply Hrel].
    apply wp_call. eapply release_connection_spec; [done..| |].
    { intros j mj Hj Hjal Hx. simpl in Hj. rewrite list_lookup_insert_ne in Hj by (intros ->; by apply Hx).
      apply (Halone j mj); [|done..]. intros ->. by apply Hx. }
    intros Hinv4. apply Hrel; [done| |done|done]. intros cl. transitivity w3; [done|apply stable_put_conn].
  - apply wp_ret. eapply (Hdone _ (replied status m)); [|done|done|by left|done].
    eapply inv_attach; [done..|by apply complete_not_pending| |].
    + exists c3. split_and!; try done.
    + intros j mj Hne Hj. simpl in Hj. rewrite list_lookup_insert_ne in Hj by done. by apply Halone.
Qed.

(** The services [l] of the partition are drained. *)
Record drain_loop (w : world) (pid : Z) (l : list nat) (w' : world) : Prop := {
  dl_inv : inv None (λ s, belongs (rt w) s pid ∧ s ∉ l) (rt w');
  dl_stable cl : stable cl w w';
  dl_messages : r_messages (rt w') = r_messages (rt w);
  dl_connections : r_connections (rt w') = r_connections (rt w);
  dl_instances : same_instances w w';
}.

Lemma drain_service_spec pid w l1 s w1 E :
  drain_loop w pid l1 w1 → completed w pid (seq 0 WT_FFM_MAX_MESSAGES) → s ∉ l1 →
  (s < r_service_count (rt w))%nat →
  wp (drain_service pid s) E (λ _, drain_loop w pid (l1 ++ [s])) w1.
Proof.
  intros [Hinv Hst Hm Hcn Hin] Hcomp Hsl Hs.
  assert (s < r_service_count (rt w1))%nat as Hs1 by (by rewrite (proj1 (stable_counts _ _ _ (Hst 0)))).
  apply wp_bind. eapply serves_spec; [done..|].
  assert (belongs (rt w1) s pid ↔ belongs (rt w) s pid) as Hbel by apply (belongs_stable 0), Hst.
  apply wp_when; intros Hb; [apply bool_decide_eq_true in Hb|apply bool_decide_eq_false in Hb]; rewrite Hbel in Hb.
  - destruct (lookup_svc Hinv s Hs1) as (sv & d & p & pm & Hsv & _).
    apply wp_bind. eapply wp_mod_svc; [done|]. set (sv2 := set_field s_queue_tail _ _). set (w2 := put_svc s sv2 w1).
    assert (queue (r_messages (rt w2)) None s sv2 []) as Hq.
    { split; [done..|constructor|]. intros i. split; [by intros ?%not_elem_of_nil|].
      intros (m & Hi & Hp & Hsi & _). exfalso. simpl in Hi. unfold pending in Hp. bool_hyps.
      assert (m_complete m = true); [|congruence]. rewrite Hm in Hi. eapply (Hcomp i m); [|done..|congruence].
      apply elem_of_seq. rewrite <-Hm in Hi. pose proof (lookup_msg_lt Hinv i m Hi). lia. }
    apply wp_call. eapply (update_signal_spec None (λ t, belongs (rt w) t pid ∧ t ∉ l1 ++ [s]) s sv2 w2); [|done| |eauto|].
    + eapply inv_weaken; [|eapply inv_put_svc; [exact Hinv|done|done|done|done]].
      intros t _ [Ht Htl]. simpl. destruct (decide (t = s)); [by left|right]. split; [done|].
      intros Hc%elem_of_snoc. naive_solver.
    + simpl. rewrite list_lookup_insert_eq; [done|]. by eapply lookup_lt_Some.
    + intros w3 Hinv3 Hf Hsv3 Hm3. assert (inv None (λ t, belongs (rt w) t pid ∧ t ∉ l1) (rt w2)) as Hinv2
        by (eapply inv_put_svc; [exact Hinv|done|done|done|done]).
      constructor; [done| |by rewrite Hm3|by rewrite (qf_connections _ _ Hf)|].
      * intros cl. transitivity w1; [done|]. transitivity w2; [by eapply stable_put_svc|]. by eapply stable_frame.
      * transitivity w2; [done|]. by eapply same_instances_frame.
  - constructor; [|done..]. eapply inv_weaken; [|exact Hinv]. intros t _ [Ht Htl]. split; [done|].
    intros Hc%elem_of_snoc. naive_solver.
Qed.

(** The connection no longer reaches the partition. *)
Definition cut_off (c : wt_ffm_connection_runtime) : Prop :=
  c_state c = WT_IPC_CONNECTION_FREE ∨ c_state c = WT_IPC_CONNECTION_TERMINAL ∨
  c_state c = WT_IPC_CONNECTION_ERROR ∧ c_rhandle c = 0.

(** No request of the partition is in progress, and no connection reaches it. *)
Record partition_failed (w : world) (pid : Z) (w' : world) : Prop := {
  pf_wf : wf (rt w');
  pf_stable cl : stable cl w w';
  pf_messages i m : r_messages (rt w') !! i = Some m → m_allocated m = true →
    belongs (rt w') (m_service_index m) pid → m_complete m = true;
  pf_connections k c : r_connections (rt w') !! k = Some c → c_allocated c = true →
    belongs (rt w') (c_service_index c) pid → cut_off c;
  pf_instances : same_instances w w';
}.

Record connection_loop (w : world) (pid : Z) (l : list nat) (w' : world) : Prop := {
  col_wf : wf (rt w');
  col_stable cl : stable cl w w';
  col_messages : r_messages (rt w') = r_messages (rt w);
  col_partitions : r_partitions (rt w') = r_partitions (rt w);
  col_cut k c : k ∈ l → r_connections (rt w') !! k = Some c → c_allocated c = true →
    belongs (rt w') (c_service_index c) pid → cut_off c;
}.

Lemma fail_connection_spec pid w l1 k w1 E :
  connection_loop w pid l1 w1 → (k < WT_FFM_MAX_CONNECTIONS)%nat →
  wp (fail_connection pid k) E (λ _, connection_loop w pid (l1 ++ [k])) w1.
Proof.
  intros [Hinv Hst Hm Hpt Hcut] Hk. destruct (lookup_conn Hinv k Hk) as [c Hc].
  assert ((c_allocated c = true → belongs (rt w1) (c_service_index c) pid → cut_off c) →
    connection_loop w pid (l1 ++ [k]) w1) as Hskip.
  { intros Hc'. constructor; [done..|]. intros j cj Hj Hcj Hal. apply elem_of_snoc in Hj as [Hj|Hj]; [by eapply Hcut|].
    subst j. simplify_eq. auto. }
  apply wp_bind. eapply wp_get_conn; [done|]. apply wp_if; intros Hcond.
  { apply wp_ret, Hskip. intros Hal _. rewrite Hal in Hcond. simpl in Hcond. unfold cut_off.
    apply orb_true_iff in Hcond as [Hf|Hf]; apply bool_decide_eq_true in Hf; auto. }
  bool_hyps. assert (c_allocated c = true) as Hal by done.
  assert (c_service_index c < r_service_count (rt w1))%nat as Hs by (eapply conn_svc; [by eapply (inv_conn _ _ _ Hinv)|done]).
  apply wp_bind. eapply serves_spec; [done..|]. apply wp_when; intros Hb.
  - eapply wp_mod_conn; [done|]. set (c2 := set_field c_rhandle _ _). set (w2 := put_conn k c2 w1).
    assert (keeps 0 w1 w2) as [Hwf2 Hst2].
    { eapply keeps_conn; [done..|by constructor|by left]. }
    constructor; [done| |done|done|].
    + intros cl. transitivity w1; [done|apply stable_put_conn].
    + intros j cj Hj Hcj Hjal. rewrite (belongs_stable _ _ _ _ _ Hst2). simpl in Hcj.
      apply list_lookup_insert_Some in Hcj as [(-> & <- & _)|(Hne & Hcj)]; [by right; right|].
      apply elem_of_snoc in Hj as [Hj|Hj]; [by eapply Hcut|done].
  - apply Hskip. intros _ Hbel. by apply bool_decide_eq_false in Hb.
Qed.

Lemma fail_partition_messages_spec pid status w :
  wf (rt w) → fwp (wt_ffm_fail_partition_messages pid status) (λ _ w', partition_failed w pid w') w.
Proof.
  intros Hinv. apply fwp_fn, wp_bind, wp_gets, wp_bind.
  apply (wp_for_acc _ _ (λ l _, message_loop w pid l)).
  { constructor; [|done| |done].
    - eapply inv_weaken; [|exact Hinv]. by intros ? _ [].
    - intros i m Hi. by apply not_elem_of_nil in Hi. }
  { intros l1 i l2 failed s' Hl Hloop. apply fail_message_spec; [done|].
    assert (i ∈ seq 0 WT_FFM_MAX_MESSAGES) as Hi by (rewrite Hl; set_solver). apply elem_of_seq in Hi. lia. }
  intros failed w1 [Hinv1 Hst1 Hcomp1 Hpt1]. apply wp_bind.
  assert (r_service_count (rt w1) = r_service_count (rt w)) as Hsc by apply (Hst1 0).
  apply (wp_for_each _ _ (drain_loop w1 pid)).
  { constructor; [|done..]. eapply inv_weaken; [|exact Hinv1]. intros s _ Hb. split; [|apply not_elem_of_nil].
    by rewrite (belongs_stable _ _ _ _ _ (Hst1 0)). }
  { intros l1 s l2 s' Hl Hloop. apply drain_service_spec; [done..| |].
    - pose proof (NoDup_seq 0 (r_service_count (rt w))) as Hn. rewrite Hl in Hn.
      apply NoDup_app in Hn as (_ & Hn & _). intros Hs. apply (Hn s Hs). set_solver.
    - assert (s ∈ seq 0 (r_service_count (rt w))) as Hs by (rewrite Hl; set_solver). apply elem_of_seq in Hs. lia. }
  intros w2 [Hinv2 Hst2 Hm2 Hc2 Hin2]. apply wp_bind.
  assert (wf (rt w2)) as Hwf2.
  { eapply inv_weaken; [|exact Hinv2]. intros s Hs [_ Hns]. apply Hns. apply elem_of_seq.
    rewrite (proj1 (stable_counts _ _ _ (Hst2 0))) in Hs. lia. }
  apply (wp_for_each _ _ (connection_loop w2 pid)).
  { constructor; [done..|]. intros k c Hk. by apply not_elem_of_nil in Hk. }
  { intros l1 k l2 s' Hl Hloop. apply fail_connection_spec; [done|].
    assert (k ∈ seq 0 WT_FFM_MAX_CONNECTIONS) as Hk by (rewrite Hl; set_solver). apply elem_of_seq in Hk. lia. }
  intros w3 [Hwf3 Hst3 Hm3 Hpt3 Hcut]. apply wp_ret. constructor; [done| | | |].
  - intros cl. transitivity w1; [done|]. by transitivity w2.
  - intros i m Hi Hal Hbel. rewrite Hm3, Hm2 in Hi. eapply Hcomp1; [|done..|].
    + apply elem_of_seq. pose proof (lookup_msg_lt Hinv1 i m Hi). lia.
    + rewrite (belongs_stable _ _ _ _ _ (Hst3 0)), (belongs_stable _ _ _ _ _ (Hst2 0)) in Hbel. done.
  - intros k c Hk. apply (Hcut k c); [|done]. apply elem_of_seq.
    apply lookup_lt_Some in Hk. rewrite (st_connections _ (inv_static _ _ _ Hwf3)) in Hk. lia.
  - transitivity w2; [|intros k; by rewrite Hpt3]. transitivity w1; [intros k; by rewrite Hpt1|done].
Qed.

(** ** Partition restart *)

(** A restarted partition serves and holds nothing of its previous instance. *)
Record partition_reset (w : world) (pid : Z) (k : nat) (p : wt_ffm_partition_runtime) (w' : world) : Prop := {
  ps_wf : wf (rt w');
  ps_stable cl : cl ≠ pid → stable cl w w';
  ps_served i m : r_messages (rt w') !! i = Some m → m_allocated m = true →
    belongs (rt w') (m_service_index m) pid → m_complete m = true;
  ps_connections i c : r_connections (rt w') !! i = Some c → c_allocated c = true →
    belongs (rt w') (c_service_index c) pid → cut_off c;
  ps_requests i m : r_messages (rt w') !! i = Some m → m_allocated m = true → m_caller m ≠ pid;
  ps_owned i c : r_connections (rt w') !! i = Some c → c_allocated c = true → c_caller c ≠ pid;
  ps_instance : ∃ p', r_partitions (rt w') !! k = Some p' ∧ p_asserted_signals p' = 0 ∧
    p_instance p' = u32 (p_instance p + 1);
}.

(** The queue of a service with no request in progress is empty, and its
    signal is not asserted. *)
Lemma quiet_service rt s sv d p :
  wf rt → (s < r_service_count rt)%nat → r_services rt !! s = Some sv → s_descriptor sv = Some d →
  r_partitions rt !! s_partition_index sv = Some p →
  (∀ i m, r_messages rt !! i = Some m → m_allocated m = true → m_service_index m = s → m_complete m = true) →
  has_any (p_asserted_signals p) (sd_signal d) = false.
Proof.
  intros Hinv Hs Hsv Hd Hp Hq. destruct (inv_queue _ _ _ Hinv s sv Hs Hsv ltac:(tauto)) as [[l [Hc _ _ Hm]] Hsig].
  rewrite (Hsig d p Hd Hp). apply bool_decide_false. intros Hne. destruct l as [|i l]; [done|].
  destruct (proj1 (Hm i) ltac:(set_solver)) as (m & Hi & Hpend & Hsi & _).
  unfold pending in Hpend. bool_hyps. specialize (Hq i m Hi). rewrite Hq in *; done.
Qed.

Lemma partition_restarted_spec pid status w (Q : Z → world → Prop) :
  wf (rt w) →
  ((∀ k, wt_ffm_find_partition (rt w) pid ≠ Some (inr k)) → Q WT_FFM_ERROR_POLICY w) →
  (∀ ret k p w', wt_ffm_find_partition (rt w) pid = Some (inr k) → r_partitions (rt w) !! k = Some p →
     partition_reset w pid k p w' → Q ret w') →
  fwp (wt_ffm_partition_restarted pid status) Q w.
Proof.
  intros Hinv Herr HQ. apply fwp_fn, wp_bind, wp_gets, wp_bind.
  destruct (find_partition_spec Hinv pid) as (r & Hr & Hspec). eapply wp_defined; [done|].
  destruct r as [e|k]; [apply wp_early, Herr; congruence|]. destruct Hspec as (Hk & _ & p & pm & Hp & Hpm & Hid).
  apply wp_bind, wp_call. eapply fwp_mono; [by apply fail_partition_messages_spec|].
  intros failed w1 [Hwf1 Hst1 Hmsg1 Hcon1 Hin1]. cbv beta. apply wp_bind, wp_call.
  eapply fwp_mono; [by apply fail_client_connections_spec|].
  intros freed w2 [Hwf2 Hst2 Hnew2 Hmsg2 Hcon2 Hin2]. cbv beta.
  pose proof (Hin2 k) as Hpk. rewrite (Hin1 k), Hp in Hpk. simpl in Hpk.
  destruct (r_partitions (rt w2) !! k) as [p2|] eqn:Hp2; [|done]. injection Hpk as Hinst.
  assert (∃ cl, cl ≠ pid) as [cl0 Hcl0] by (exists (pid + 1); lia).
  assert (∀ s, belongs (rt w2) s pid ↔ belongs (rt w1) s pid) as Hbel2.
  { intros s. by eapply belongs_stable, Hst2. }
  assert (∀ i m, r_messages (rt w2) !! i = Some m → m_allocated m = true →
    belongs (rt w2) (m_service_index m) pid → m_complete m = true) as Hserved.
  { intros i m Hi Hal Hb. destruct (Hnew2 i m Hi Hal) as (m1 & Hi1 & Hal1 & _ & Hs1 & ->).
    rewrite Hs1, Hbel2 in Hb. by eapply Hmsg1. }
  apply wp_bind. eapply wp_mod_part; [done|]. set (p3 := set_field p_instance _ _). set (w3 := put_part k p3 w2).
  apply wp_ret. assert (stable cl0 w2 w3) as Hst3 by by eapply stable_put_part.
  assert (∀ s, belongs (rt w3) s pid ↔ belongs (rt w2) s pid) as Hbel3.
  { intros s. by eapply belongs_stable. }
  apply (HQ failed k p w3); [done|done|]. constructor; [| | | | | |].
  - eapply inv_put_part; [done..|]. intros s sv d Hs _ Hsv Hd Hki. simpl. symmetry.
    eapply (quiet_service (rt w2) s sv); [done..|by rewrite Hki|]. intros i m Hi Hal Hsi.
    apply (Hserved i m); [done..|]. rewrite Hsi. unfold belongs, service_of. rewrite Hsv; simpl. rewrite Hd; simpl.
    rewrite Hki. rewrite (stable_manifests _ _ _ (Hst2 cl0 Hcl0)), (stable_manifests _ _ _ (Hst1 cl0)).
    unfold manifest_of. rewrite Hp; simpl. by rewrite Hpm.
  - intros cl Hne. transitivity w1; [done|]. transitivity w2; [auto|]. by eapply stable_put_part.
  - intros i m Hi Hal. rewrite Hbel3. by apply (Hserved i m).
  - intros i c Hi Hal. rewrite Hbel3, Hbel2. destruct (Hcon2 i c Hi Hal) as [_ Hi1]. by apply (Hcon1 i c).
  - intros i m Hi Hal. by apply (Hmsg2 i m).
  - intros i c Hi Hal. by apply (Hcon2 i c).
  - exists p3. split; [|split; [done|]]; simpl.
    + rewrite list_lookup_insert_eq; [done|]. by eapply lookup_lt_Some.
    + congruence.
Qed.

(** * Synchronous client operations against the dispatch interface

    A synchronous connect, call or close dispatches the serving partition
    while its own request waits. [DispatchKeeps c] is what it relies on: a
    dispatched partition keeps the runtime well-formed and the live requests
    of the suspended client [c] in their slots. *)

Class DispatchKeeps `{PortOps} (c : Z) : Prop := {
  port_dispatch_keeps pid w : wf (rt w) → keeps c w (port_dispatch pid w).1;
  call_dispatch_keeps f ctx pid w : wf (rt w) → keeps c w (call_dispatch f ctx pid w).1;
}.

(** A request that the client no longer waits for: removed from its queue if
    it is still there, and its slot released. *)
Definition discard (dequeue : bool) (s i : nat) {R} : prog world R unit :=
  when dequeue (call (wt_ffm_dequeue_message s i));; call (wt_ffm_release_message i).

Lemma discard_spec {R} b s i m w (E : R → world → Prop) (Q : unit → world → Prop) :
  wf (rt w) → r_messages (rt w) !! i = Some m → m_allocated m = true → m_active m = false →
  m_service_index m = s → (b = false → m_complete m = true) →
  (∀ w', wf (rt w') → r_connections (rt w') = r_connections (rt w) → memory w' = memory w →
     unused (rt w') None (m_connection_index m) → (∀ cl, cl ≠ m_caller m → stable cl w w') → Q tt w') →
  wp (discard b s i) E Q w.
Proof.
  intros Hinv Hi Hal Hact Hs Hb HQ.
  pose proof (alone_attached _ _ _ i m Hinv Hi Hal ltac:(done)) as Halone.
  assert (s < r_service_count (rt w))%nat as Hslt.
  { subst s. eapply msg_svc; [by eapply (inv_msg _ _ _ Hinv)|done]. }
  assert (∀ w1, inv (Some i) none (rt w1) → queue_frame w w1 →
    wp (call (wt_ffm_release_message i)) E Q w1) as Hrel.
  { intros w1 Hinv1 Hf. destruct (qf_messages _ _ Hf i m Hi) as [n Hn]. apply wp_call.
    eapply release_message_spec; [done..|]. intros Hinv2. apply HQ; [done|apply Hf|apply Hf| |].
    - intros j mj Hj Hjal _. simpl in Hj.
      apply list_lookup_insert_Some in Hj as [(-> & <- & _)|(Hne & Hj)]; [done|].
      destruct (lookup_msg Hinv j) as [mj0 Hj0]; [by eapply (lookup_msg_lt Hinv1)|].
      destruct (qf_messages _ _ Hf j mj0 Hj0) as [n' Hn']. rewrite Hj in Hn'. injection Hn' as ->.
      by apply (Halone j mj0).
    - intros cl Hne. transitivity w1; [by eapply stable_frame|]. eapply stable_put_msg; [done|].
      intros (_ & ? & _). simpl in *. congruence. }
  apply wp_bind, wp_when; intros Hb'.
  - apply wp_call. eapply dequeue_spec; [done..|]. intros w1 Hinv1 Hf _. by apply Hrel.
  - apply Hrel; [|apply qf_refl]. eapply inv_detach; [done..|]. unfold pending. rewrite (Hb Hb').
    by rewrite andb_false_r.
Qed.

(** Giving up an active request. *)
Lemma abandon_wf w i m m' :
  wf (rt w) → r_messages (rt w) !! i = Some m → m_allocated m = true → m_active m = true →
  same_slot m m' → m_active m' = true → msg_ok (r_service_count (rt w)) m' → wf (rt (put_msg i m' w)).
Proof.
  intros Hinv Hi Hal Hact Hs Hact' Hok. eapply inv_edit_msg; [done..| | |].
  - unfold pending. rewrite Hact, Hact'. by rewrite !andb_false_r.
  - unfold pending. rewrite Hact. by rewrite andb_false_r.
  - intros _. unfold busy. rewrite (msg_active _ _ (inv_msg _ _ _ Hinv i m Hi) Hact). by rewrite orb_true_r.
Qed.

Lemma msg_ok_abandoned sc m a d :
  msg_ok sc m → m_allocated m = true → length d = PSA_MAX_IOVEC →
  msg_ok sc (m <| m_abandoned := a |> <| m_client_output := d |>).
Proof. intros [] Hal Hd. constructor; try done. simpl. congruence. Qed.

Lemma abandoned_id m a : m <| m_abandoned := a |> = m <| m_abandoned := a |> <| m_client_output := m_client_output m |>.
Proof. by destruct m. Qed.

Section sync.
Context `{PortOps} (caller : Z) `{!DispatchKeeps caller}.

(** The effect of a synchronous operation on everybody else: those whom the
    dispatched partitions do not act for keep their requests. *)
Definition spares (w w' : world) : Prop := ∀ cl, cl ≠ caller → DispatchKeeps cl → stable cl w w'.

Lemma spares_stable w w' : (∀ cl, cl ≠ caller → stable cl w w') → spares w w'.
Proof. intros Hs cl Hne _. by apply Hs. Qed.
Lemma spares_trans w1 w2 w3 : spares w1 w2 → spares w2 w3 → spares w1 w3.
Proof. intros H1 H2 cl Hne Hk. transitivity w2; auto. Qed.
Lemma spares_put_conn w k c : spares w (put_conn k c w).
Proof. intros cl _ _. apply stable_put_conn. Qed.
(** The client's own request may change in any way. *)
Lemma spares_put_msg w i m m' :
  r_messages (rt w) !! i = Some m → m_caller m = caller → spares w (put_msg i m' w).
Proof. intros Hi Hc cl Hne _. eapply stable_put_msg; [done|]. intros (_ & ? & _). congruence. Qed.

Lemma dispatch_message_spec i m w (Q : Z → world → Prop) :
  wf (rt w) → r_messages (rt w) !! i = Some m → live caller m →
  (∀ ret m' w', keeps caller w w' → spares w w' → r_messages (rt w') !! i = Some m' → same_request m m' →
     (ret = WT_FFM_SUCCESS → m_complete m' = true) → Q ret w') →
  fwp (wt_ffm_dispatch_message i) Q w.
Proof.
  intros Hinv Hi Hlive HQ. destruct Hlive as (Hal & Hcal & Hab) eqn:El. clear El.
  assert (m_service_index m < r_service_count (rt w))%nat as Hs.
  { eapply msg_svc; [by eapply (inv_msg _ _ _ Hinv)|done]. }
  destruct (lookup_svc Hinv _ Hs) as (sv & d & p & pm & Hsv & Hd & Hp & Hpm & _).
  apply fwp_fn, wp_bind. eapply wp_get_msg; [done|]. apply wp_bind. eapply wp_get_svc; [done|].
  apply wp_bind. eapply wp_get_part; [done|]. apply wp_bind. eapply wp_defined; [done|]. cbv zeta.
  apply wp_bind. unfold wp at 1, run_dispatch.
  assert (∀ w' ret, keeps caller w w' → spares w w' → wp (if negb (ret =? WT_FFM_SUCCESS) then early ret else
      message ← get_msg i; if negb (m_complete message) then early WT_FFM_ERROR_NOT_READY else mret WT_FFM_SUCCESS)
    Q Q w') as Hrest.
  { intros w' ret Hk Hsp. destruct (stable_requests _ _ _ (proj2 Hk) i m Hi) as (m' & Hm' & Hsame); [done|].
    apply wp_if; intros Hret.
    { apply negb_true_iff, Z.eqb_neq in Hret. apply wp_early. by eapply HQ. }
    apply wp_bind. eapply wp_get_msg; [done|]. apply wp_if; intros Hc.
    - apply wp_early. by eapply HQ.
    - apply negb_false_iff in Hc. apply wp_ret. by eapply HQ. }
  destruct (p_dispatch p) as [f|].
  - pose proof (λ cl (Hcl : DispatchKeeps cl), call_dispatch_keeps f (p_dispatch_context p) (i32_of_u32 (pm_domain_id pm)) w Hinv) as Hk.
    destruct (call_dispatch _ _ _ w) as [w' ret]. apply Hrest; [by apply Hk|intros cl _ Hcl; by apply Hk].
  - pose proof (λ cl (Hcl : DispatchKeeps cl), port_dispatch_keeps (i32_of_u32 (pm_domain_id pm)) w Hinv) as Hk.
    destruct (port_dispatch _ w) as [w' ret]. apply Hrest; [by apply Hk|intros cl _ Hcl; by apply Hk].
Qed.

(** A live request seen after the dispatch. *)
Lemma live_after m m' :
  live caller m → same_request m m' →
  m_allocated m' = true ∧ m_connection_index m' = m_connection_index m ∧ m_service_index m' = m_service_index m ∧
  m_caller m' = caller.
Proof. intros (? & ? & ?) [[] ? ? ? ? ? ? ?]. split_and!; congruence. Qed.

Lemma connect_spares sid version w :
  wf (rt w) → fwp (wt_ffm_connect caller sid version) (λ _ w', wf (rt w') ∧ spares w w') w.
Proof.
  intros Hinv. apply fwp_fn, wp_bind, wp_call. apply connect_enqueue_spec; [done| |].
  { intros e w' _ Hwf Hst _. apply wp_early. split; [done|]. by apply spares_stable. }
  intros k i s m c w1 Hwf1 Hst1 [Hi Hlive _ _ Hk _] Hs _ _ _ _ _ _ _ _ _. apply wp_bind, wp_call.
  eapply dispatch_message_spec; [done..|]. intros ret m' w2 [Hwf2 _] Hsp2 Hm' Hsame Hret.
  assert (spares w w2) as Hsp by (eapply spares_trans; [|exact Hsp2]; by apply spares_stable).
  destruct (live_after m m' Hlive Hsame) as (Hal' & Hci' & Hsi' & Hcal').
  destruct (lookup_msg_conn Hwf2 i m' Hm') as [c' Hc']. rewrite Hci', Hk in Hc'.
  apply wp_bind. eapply wp_get_msg; [done|]. cbv zeta. apply wp_if; intros Hact.
  - bool_hyps. apply wp_bind. eapply wp_mod_msg; [done|]. apply wp_early. split.
    + eapply abandon_wf; [done..|by constructor|done|]. rewrite abandoned_id.
      apply msg_ok_abandoned; [|done|]; [|eapply msg_dest]; by eapply (inv_msg _ _ _ Hwf2).
    + eapply spares_trans; [exact Hsp|by eapply spares_put_msg].
  - assert (m_active m' = false) as Hna.
    { destruct (m_active m') eqn:Ha; [|done]. rewrite andb_true_r in Hact. apply negb_false_iff, Z.eqb_eq in Hact.
      rewrite (msg_active _ _ (inv_msg _ _ _ Hwf2 i m' Hm') Ha) in Hret. by specialize (Hret Hact). }
    eapply wp_assoc, wp_bind, discard_spec; [done..|congruence| |].
    { intros Hb. apply Hret. by apply negb_false_iff, Z.eqb_eq in Hb. }
    intros w3 Hwf3 Hc3 _ Hun Hst3. rewrite Hci', Hk in Hun. rewrite Hcal' in Hst3.
    assert (spares w w3) as Hsp3 by (eapply spares_trans; [exact Hsp|]; by apply spares_stable).
    apply wp_if; intros _; [|by apply wp_ret].
    apply wp_bind, wp_call. eapply release_connection_spec; [done|by rewrite Hc3|done|].
    intros Hwf4. apply wp_early. split; [done|]. eapply spares_trans; [exact Hsp3|apply spares_put_conn].
Qed.

Lemma call_spares handle type in_vec out_vec w :
  wf (rt w) → no_request (rt w) caller →
  Forall invec_typed (items in_vec) → Forall outvec_typed (items out_vec) →
  fwp (wt_ffm_call caller handle type in_vec out_vec) (λ _ w', wf (rt w') ∧ spares w w') w.
Proof.
  intros Hinv Hno Hti Hto. apply fwp_fn, wp_bind, wp_call. apply call_enqueue_spec; [done..| |].
  { intros e w' _ Hwf Hst _. apply wp_early. split; [done|]. by apply spares_stable. }
  intros k i m0 m n c w1 Hwf1 Hst1 _ [Hi Hlive _ _ Hk _] Hprep _ _ _ _ _ _. apply wp_bind, wp_call.
  eapply dispatch_message_spec; [done..|]. intros ret m' w2 [Hwf2 _] Hsp2 Hm' Hsame Hret.
  assert (spares w w2) as Hsp by (eapply spares_trans; [|exact Hsp2]; by apply spares_stable).
  destruct (live_after _ m' Hlive Hsame) as (Hal' & Hci' & Hsi' & Hcal'). rewrite Hk in Hci'.
  destruct (attached_conn _ _ _ i m' Hwf2 Hm' Hal') as (c' & Hc' & Hca' & Hcc' & Hcs'); [done|].
  rewrite Hci' in Hc'.
  apply wp_if; intros Hr.
  - apply wp_bind. eapply wp_mod_conn; [done|]. set (c3 := set_field c_state _ c'). set (w3 := put_conn k c3 w2).
    assert (wf (rt w3)) as Hwf3.
    { eapply inv_edit_conn; [done..|by constructor|by left]. }
    assert (r_connections (rt w3) !! k = Some c3) as Hc3.
    { simpl. rewrite list_lookup_insert_eq; [done|]. by eapply lookup_lt_Some. }
    assert (spares w w3) as Hsp3 by (eapply spares_trans; [exact Hsp|apply spares_put_conn]).
    apply wp_bind. eapply wp_get_msg; [done|]. apply wp_if; intros Hact.
    + apply wp_bind. eapply wp_mod_conn; [done|]. apply wp_bind. eapply wp_mod_msg; [done|]. apply wp_early. split.
      * eapply abandon_wf; [|done..|by constructor|done|].
        -- eapply inv_edit_conn; [done..|by constructor|by left].
        -- apply msg_ok_abandoned; [|done|done]. by eapply (inv_msg _ _ _ Hwf2).
      * eapply spares_trans; [exact Hsp3|]. eapply spares_trans; [apply spares_put_conn|by eapply spares_put_msg].
    + apply wp_bind. eapply wp_get_conn; [done|].
      eapply wp_assoc, wp_bind, (discard_spec true); [done..|]. intros w4 Hwf4 _ _ _ Hst4. apply wp_early. split; [done|].
      eapply spares_trans; [exact Hsp3|]. rewrite Hcal' in Hst4. by apply spares_stable.
  - apply negb_false_iff, Z.eqb_eq in Hr. apply wp_call. rewrite <-Hci'.
    assert (∀ w', (∀ cl, cl ≠ m_caller m' → stable cl w2 w') → spares w w') as Hsp'.
    { intros w' Hst. eapply spares_trans; [exact Hsp|]. rewrite Hcal' in Hst. by apply spares_stable. }
    eapply publish_outputs_spec; [done|done|done|by apply Hret| |by eauto|by eauto].
    intros _. rewrite (sr_out_count _ _ Hsame). simpl. rewrite (proj2 (pr_counts _ _ _ _ _ Hprep)).
    by rewrite (proj2 (pr_lengths _ _ _ _ _ Hprep)).
Qed.

Lemma close_spares handle w :
  wf (rt w) → no_request (rt w) caller → fwp (wt_ffm_close caller handle) (λ _ w', wf (rt w') ∧ spares w w') w.
Proof.
  intros Hinv Hno. apply fwp_fn, wp_bind, wp_call. apply close_enqueue_spec; [done..| |].
  { intros e b w' Hk _. apply wp_early. split; [apply (Hk 0)|]. intros cl _ _. apply Hk. }
  intros k i m c w1 Hwf1 Hst1 _ [Hi Hlive _ _ Hk _] _ _ _ _ _ _ _. apply wp_bind, wp_call.
  eapply dispatch_message_spec; [done..|]. intros ret m' w2 [Hwf2 _] Hsp2 Hm' Hsame Hret.
  assert (spares w w2) as Hsp by (eapply spares_trans; [|exact Hsp2]; by apply spares_stable).
  destruct (live_after _ m' Hlive Hsame) as (Hal' & Hci' & Hsi' & Hcal'). rewrite Hk in Hci'.
  destruct (attached_conn _ _ _ i m' Hwf2 Hm' Hal') as (c' & Hc' & Hca' & Hcc' & Hcs'); [done|].
  rewrite Hci' in Hc'. apply wp_bind. eapply wp_get_msg; [done|]. apply wp_if; intros Hact.
  - bool_hyps. apply wp_bind. eapply wp_mod_msg; [done|]. apply wp_early. split.
    + eapply abandon_wf; [done..|by constructor|done|]. rewrite abandoned_id.
      apply msg_ok_abandoned; [|done|]; [|eapply msg_dest]; by eapply (inv_msg _ _ _ Hwf2).
    + eapply spares_trans; [exact Hsp|by eapply spares_put_msg].
  - assert (m_active m' = false) as Hna.
    { destruct (m_active m') eqn:Ha; [|done]. rewrite andb_true_r in Hact. apply negb_false_iff, Z.eqb_eq in Hact.
      rewrite (msg_active _ _ (inv_msg _ _ _ Hwf2 i m' Hm') Ha) in Hret. by specialize (Hret Hact). }
    apply wp_bind. eapply wp_get_conn; [done|].
    eapply wp_assoc, wp_bind, discard_spec; [done..| |].
    { intros Hb. apply Hret. by apply negb_false_iff, Z.eqb_eq in Hb. }
    intros w3 Hwf3 Hc3 _ Hun Hst3. rewrite Hci' in Hun. rewrite Hcal' in Hst3.
    assert (spares w w3) as Hsp3 by (eapply spares_trans; [exact Hsp|]; by apply spares_stable).
    apply wp_bind, wp_when; intros _; [|by apply wp_ret].
    apply wp_call. eapply release_connection_spec; [done|by rewrite Hc3|done|]. intros Hwf4. apply wp_ret.
    split; [done|]. eapply spares_trans; [exact Hsp3|apply spares_put_conn].
Qed.

Lemma connect_wf sid version w :
  wf (rt w) → fwp (wt_ffm_connect caller sid version) (λ _ w', wf (rt w')) w.
Proof. intros. eapply fwp_mono; [by apply connect_spares|]. by intros ? ? []. Qed.
Lemma call_wf handle type in_vec out_vec w :
  wf (rt w) → no_request (rt w) caller →
  Forall invec_typed (items in_vec) → Forall outvec_typed (items out_vec) →
  fwp (wt_ffm_call caller handle type in_vec out_vec) (λ _ w', wf (rt w')) w.
Proof. intros. eapply fwp_mono; [by apply call_spares|]. by intros ? ? []. Qed.
Lemma close_wf handle w :
  wf (rt w) → no_request (rt w) caller → fwp (wt_ffm_close caller handle) (λ _ w', wf (rt w')) w.
Proof. intros. eapply fwp_mono; [by apply close_spares|]. by intros ? ? []. Qed.
End sync.
