(* ===== verification/FfmInit.v ===== *)
(** * Initialisation from an accepted manifest

    [wt_ffm_init] on a manifest that [wt_manifest_validate] accepted is free
    of undefined behaviour and, when it succeeds, builds a well-formed runtime. *)

From Stdlib Require Import ZArith Lia.
From stdpp Require Import base list numbers option sets.
From S2P Require Import Prelude Buffers CState Domain Manifest Ipc FfmTypes FfmCore FfmWf FfmQueue FfmSlots.

(** ** Service numbering *)

Definition service_slot (k : nat) (d : wt_service_descriptor) : wt_ffm_service_runtime :=
  {| s_descriptor := Some d; s_partition_index := k; s_queue_head := None; s_queue_tail := None |}.

(** The number of services of the first [k] partitions. *)
Definition services_before (ps : list wt_partition_manifest) (k : nat) : nat :=
  sum_list_with (λ p, length (items (pm_services p))) (take k ps).

Lemma init_services_lookup ps i s sv :
  init_services ps i !! s = Some sv →
  ∃ k p j d, ps !! k = Some p ∧ items (pm_services p) !! j = Some d ∧ sv = service_slot (i + k) d ∧
    s = (services_before ps k + j)%nat.
Proof.
  revert i s. induction ps as [|p ps IH]; intros i s; simpl; [done|].
  intros [Hs|[Hle Hs]]%lookup_app_Some.
  - apply list_lookup_fmap_Some in Hs as (d & -> & Hd). exists 0%nat, p, s, d. by rewrite Nat.add_0_r.
  - apply IH in Hs as (k & p' & j & d & Hk & Hj & -> & Heq). exists (S k), p', j, d.
    rewrite length_fmap in *. split_and!; [done|done|f_equal; lia|]. unfold services_before in *. simpl. lia.
Qed.

Lemma init_check_spec ps n sc :
  init_check ps n = inr sc → (n ≤ WT_FFM_MAX_SERVICES)%nat →
  (sc ≤ WT_FFM_MAX_SERVICES)%nat ∧ (∀ p, p ∈ ps → pm_model p = WT_PARTITION_MODEL_IPC) ∧
  sc = (n + sum_list_with (λ p, count (pm_services p)) ps)%nat.
Proof.
  revert n. induction ps as [|p ps IH]; intros n; simpl.
  { intros [= <-] Hn. split_and!; [done|by intros ? ?%not_elem_of_nil|lia]. }
  destruct (Z.eqb_spec (pm_model p) WT_PARTITION_MODEL_IPC) as [Hm|]; [|done]. simpl.
  destruct (_ >? _); [done|]. destruct (Nat.ltb_spec (WT_FFM_MAX_SERVICES - n) (count (pm_services p))); [done|].
  intros Hc Hn. destruct (IH _ Hc) as (? & Hps & ->); [lia|]. split_and!; [done| |lia].
  intros p' [->|Hp']%elem_of_cons; auto.
Qed.

(** The check succeeds exactly on IPC partitions of a supported framework whose services fit. *)
Lemma init_check_iff ps n :
  (n ≤ WT_FFM_MAX_SERVICES)%nat →
  (Forall (λ p, pm_model p = WT_PARTITION_MODEL_IPC ∧ pm_framework_version p ≤ PSA_FRAMEWORK_VERSION) ps ∧
   (n + sum_list_with (λ p, count (pm_services p)) ps ≤ WT_FFM_MAX_SERVICES)%nat ↔
   init_check ps n = inr (n + sum_list_with (λ p, count (pm_services p)) ps)%nat) ∧
  (∀ e, init_check ps n = inl e → e = WT_FFM_ERROR_MANIFEST).
Proof.
  revert n. induction ps as [|p ps IH]; intros n Hn; simpl.
  { rewrite Nat.add_0_r. split; [|done]. split; [done|]. intros _. split; [constructor|done]. }
  destruct (Z.eqb_spec (pm_model p) WT_PARTITION_MODEL_IPC) as [Hm|Hm]; simpl; [|split; [|naive_solver]].
  2:{ split; [|done]. by intros [[[? _] _]%Forall_cons _]. }
  rewrite Z.gtb_ltb. destruct (Z.ltb_spec PSA_FRAMEWORK_VERSION (pm_framework_version p)) as [Hf|Hf]; [split; [|naive_solver]|].
  { split; [|done]. intros [[[_ ?] _]%Forall_cons _]. lia. }
  destruct (Nat.ltb_spec (WT_FFM_MAX_SERVICES - n) (count (pm_services p))) as [Hc|Hc]; [split; [|naive_solver]|].
  { split; [|done]. intros [_ ?]. lia. }
  destruct (IH (n + count (pm_services p))%nat ltac:(lia)) as [Hiff Herr]. split; [|done].
  rewrite Nat.add_assoc, <-Hiff. rewrite Forall_cons. naive_solver.
Qed.

Lemma length_init_services ps i :
  length (init_services ps i) = sum_list_with (λ p, length (items (pm_services p))) ps.
Proof. revert i. induction ps as [|p ps IH]; intros i; simpl; [done|]. by rewrite length_app, length_fmap, IH. Qed.

Lemma filled_lookup {A} n (z : A) l i : (i < length l)%nat → filled n z l !! i = l !! i.
Proof. intros Hi. unfold filled. by rewrite lookup_app_l. Qed.
Lemma length_filled {A} n (z : A) l : (length l ≤ n)%nat → length (filled n z l) = n.
Proof. intros Hl. unfold filled. rewrite length_app, length_replicate. lia. Qed.

(** ** Facts of accepted manifests *)

Definition signals_typed (manifest : wt_system_manifest) : Prop :=
  Forall (λ p, Forall (λ s, 0 ≤ s < 2 ^ 32) (partition_signals p)) (items (sm_partitions manifest)).

Lemma validated_signals manifest features platform p :
  validated manifest features platform → signals_typed manifest → p ∈ items (sm_partitions manifest) →
  pm_model p = WT_PARTITION_MODEL_IPC →
  (∀ s, s ∈ partition_signals p → single_bit s) ∧ NoDup (partition_signals p).
Proof.
  intros Hv Hty Hp Hm. destruct (partition_signals_NoDup manifest p) as [Hs Hn]; [by eapply val_partition|done|].
  split; [|done]. intros s Hin. apply signal_valid_bit; [|by apply Hs].
  eapply (proj1 (list.Forall_forall _ _)) in Hty; [|done]. by eapply (proj1 (list.Forall_forall _ _)) in Hty.
Qed.

Lemma validated_partitions manifest features platform :
  validated manifest features platform →
  length (items (sm_partitions manifest)) = count (sm_partitions manifest).
Proof.
  intros Hv. pose proof (val_header _ _ _ Hv) as Hh. unfold wt_manifest_validate_header in Hh. accepted Hh.
  bool_hyps. by destruct (sm_partitions manifest).
Qed.

Lemma validated_services manifest features platform p :
  validated manifest features platform → p ∈ items (sm_partitions manifest) →
  length (items (pm_services p)) = count (pm_services p).
Proof.
  intros Hv Hp. pose proof (val_partition_header _ _ _ Hv p Hp) as Hh.
  unfold wt_manifest_validate_partition_header in Hh. accepted Hh.
  destruct (wt_manifest_find_domain _ _); [|done]. accepted Hh. bool_hyps.
  destruct (pm_services p) as [[|n]|l]; done.
Qed.

(** ** The initial runtime *)

Definition initial_runtime (manifest : wt_system_manifest) (sc : nat) : wt_ffm_runtime := {|
  r_manifest := Some manifest;
  r_partitions := filled WT_FFM_MAX_PARTITIONS partition_zero
                    ((λ p, partition_zero <| p_manifest := Some p |>) <$> items (sm_partitions manifest));
  r_services := filled WT_FFM_MAX_SERVICES service_zero (init_services (items (sm_partitions manifest)) 0);
  r_connections := replicate WT_FFM_MAX_CONNECTIONS (connection_runtime_zero <| c_generation := 1 |>);
  r_messages := replicate WT_FFM_MAX_MESSAGES (message_zero <| m_generation := 1 |> <| m_next := None |>);
  r_partition_count := count (sm_partitions manifest);
  r_service_count := sc;
  r_lifecycle := 0 |}.

Section initial.
Context (manifest : wt_system_manifest) (features : Z) (platform : option wt_profile_capabilities) (sc : nat).
Hypothesis Hv : validated manifest features platform.
Hypothesis Hty : signals_typed manifest.
Hypothesis Hcount : (count (sm_partitions manifest) ≤ WT_FFM_MAX_PARTITIONS)%nat.
Hypothesis Hcheck : init_check (items (sm_partitions manifest)) 0 = inr sc.

Let ps := items (sm_partitions manifest).
Let rt0 := initial_runtime manifest sc.

Lemma initial_length : length (init_services ps 0) = sc.
Proof.
  destruct (init_check_spec _ _ _ Hcheck) as (_ & _ & ->); [unfold WT_FFM_MAX_SERVICES; lia|].
  rewrite length_init_services. simpl. fold ps. unfold ps.
  assert (∀ l, (∀ p, p ∈ l → p ∈ items (sm_partitions manifest)) →
    sum_list_with (λ p, length (items (pm_services p))) l = sum_list_with (λ p, count (pm_services p)) l) as H; [|by apply H].
  induction l as [|p l IH]; intros Hl; simpl; [done|]. rewrite IH by set_solver. f_equal.
  eapply validated_services; [done|]. apply Hl. set_solver.
Qed.

Lemma initial_manifest_of k : (k < length ps)%nat → manifest_of rt0 k = ps !! k.
Proof.
  intros Hk. unfold manifest_of; simpl. rewrite filled_lookup by by rewrite length_fmap.
  rewrite list_lookup_fmap. fold ps. by destruct (ps !! k).
Qed.

Lemma initial_service_of s : (s < sc)%nat →
  ∃ k p j d, ps !! k = Some p ∧ items (pm_services p) !! j = Some d ∧ service_of rt0 s = Some (d, k) ∧
    r_services rt0 !! s = Some (service_slot k d) ∧ s = (services_before ps k + j)%nat.
Proof.
  intros Hs. destruct (lookup_lt_is_Some_2 (init_services ps 0) s) as [sv Hsv]; [by rewrite initial_length|].
  pose proof Hsv as Hl. apply init_services_lookup in Hl as (k & p & j & d & Hk & Hj & -> & Heq).
  exists k, p, j, d. assert (r_services rt0 !! s = Some (service_slot k d)) as Hr.
  { simpl. rewrite filled_lookup; [done|]. fold ps. by rewrite initial_length. }
  unfold service_of. rewrite Hr. done.
Qed.

Lemma initial_static : static_ok rt0.
Proof.
  destruct (init_check_spec _ _ _ Hcheck) as (Hsc & Hipc & _); [unfold WT_FFM_MAX_SERVICES; lia|].
  pose proof (validated_partitions _ _ _ Hv) as Hlen. fold ps in Hlen.
  assert (∀ k p, ps !! k = Some p → (∀ s, s ∈ partition_signals p → single_bit s) ∧ NoDup (partition_signals p)) as Hsig.
  { intros k p Hk. apply list_elem_of_lookup_2 in Hk. eapply validated_signals; [done..|by apply Hipc]. }
  constructor.
  - simpl. apply length_filled. rewrite length_fmap. fold ps. lia.
  - simpl. apply length_filled. fold ps. by rewrite initial_length.
  - done.
  - done.
  - done.
  - done.
  - intros k Hk. simpl in Hk. rewrite <-Hlen in Hk. rewrite initial_manifest_of by done. by apply lookup_lt_is_Some_2.
  - intros s Hs. destruct (initial_service_of s Hs) as (k & p & j & d & Hk & Hj & Hof & _). exists d, k. split_and!; [done| |].
    + simpl. rewrite <-Hlen. by eapply lookup_lt_Some.
    + eapply Hsig; [done|]. apply elem_of_app. left. apply list_elem_of_fmap. exists d. split; [done|].
      by eapply list_elem_of_lookup_2.
  - intros s1 s2 d1 d2 k Hne Hs1 Hs2 Hof1 Hof2 Heq.
    destruct (initial_service_of s1 Hs1) as (k1 & p1 & j1 & d1' & Hk1 & Hj1 & Hof1' & _ & He1).
    destruct (initial_service_of s2 Hs2) as (k2 & p2 & j2 & d2' & Hk2 & Hj2 & Hof2' & _ & He2).
    rewrite Hof1 in Hof1'. rewrite Hof2 in Hof2'. injection Hof1' as <- <-. injection Hof2' as <- <-.
    rewrite Hk1 in Hk2. injection Hk2 as <-.
    destruct (Hsig k p1 Hk1) as [_ Hnd]. apply NoDup_app in Hnd as (Hnd & _ & _).
    assert (j1 = j2) as ->; [|lia].
    eapply (NoDup_lookup _ _ _ (sd_signal d1) Hnd); rewrite list_lookup_fmap; [by rewrite Hj1|by rewrite Hj2, Heq].
  - intros s d k pm mi Hs Hof Hpm Hmi.
    destruct (initial_service_of s Hs) as (k' & p & j & d' & Hk & Hj & Hof' & _).
    rewrite Hof in Hof'. injection Hof' as <- <-. rewrite initial_manifest_of, Hk in Hpm by by eapply lookup_lt_Some.
    injection Hpm as <-. destruct (Hsig k p Hk) as [Hb Hnd]. apply NoDup_app in Hnd as (_ & Hdis & _).
    assert (mi_signal mi ∈ mi_signal <$> items (pm_interrupts p)) as Hin by (apply list_elem_of_fmap; eauto).
    split; [apply Hb, elem_of_app; by right|]. intros Heq. apply (Hdis (sd_signal d)); [|by rewrite <-Heq].
    apply list_elem_of_fmap. exists d. split; [done|]. by eapply list_elem_of_lookup_2.
Qed.

Lemma count_if_replicate {A} (f : A → bool) n (a : A) : f a = false → count_if f (replicate n a) = 0%nat.
Proof. intros Ha. unfold count_if. induction n as [|n IH]; simpl; [done|]. by rewrite Ha. Qed.

Lemma initial_message i m : r_messages rt0 !! i = Some m → m = message_free 1.
Proof. intros Hi. by apply (lookup_replicate WT_FFM_MAX_MESSAGES) in Hi as [-> _]. Qed.
Lemma initial_connection k c : r_connections rt0 !! k = Some c → c = connection_free 1.
Proof. intros Hk. by apply (lookup_replicate WT_FFM_MAX_CONNECTIONS) in Hk as [-> _]. Qed.

Lemma initial_quota : quota_ok (r_connections rt0).
Proof.
  assert (∀ f : wt_ffm_connection_runtime → bool, f (connection_free 1) = false →
    count_if f (r_connections rt0) = 0%nat) as Hzero
    by (intros f Hf; exact (count_if_replicate f WT_FFM_MAX_CONNECTIONS _ Hf)).
  split; [intros caller _|]; rewrite Hzero by done; lia.
Qed.

Lemma initial_wf : wf rt0.
Proof.
  constructor.
  - apply initial_static.
  - intros i m ->%initial_message. by apply (message_free_ok sc 1).
  - intros i c ->%initial_connection. by apply (conn_free_ok sc 1).
  - apply initial_quota.
  - by intros i m ->%initial_message Hal.
  - by intros i j mi mj ->%initial_message _ Hal.
  - intros s sv Hs Hsv _. destruct (initial_service_of s Hs) as (k & p & j & d & Hk & Hj & _ & Hr & _).
    rewrite Hr in Hsv. injection Hsv as <-. split.
    + exists []. split; [done..|constructor|]. intros i. split; [by intros ?%not_elem_of_nil|].
      by intros (m & ->%initial_message & Hp & _).
    + intros d' p' Hd' Hp'. simpl in Hp'. rewrite filled_lookup in Hp' by (rewrite length_fmap; by eapply lookup_lt_Some).
      fold ps in Hp'. rewrite list_lookup_fmap, Hk in Hp'. by injection Hp' as <-.
Qed.
End initial.

Lemma init_spec manifest features platform w (Q : Z → world → Prop) :
  validated manifest features platform → signals_typed manifest →
  (∀ e, e ≠ WT_FFM_SUCCESS → Q e w) →
  (∀ sc, wf (initial_runtime manifest sc) → Q WT_FFM_SUCCESS (w <| rt := initial_runtime manifest sc |>)) →
  fwp (wt_ffm_init (Some manifest)) Q w.
Proof.
  intros Hv Hty Herr HQ. apply fwp_fn, wp_if; intros Hcount; [by apply wp_early, Herr|]. bool_hyps.
  apply wp_bind. eapply wp_defined.
  { by rewrite bool_decide_true by by eapply validated_partitions. }
  destruct (init_check _ 0) as [e|sc] eqn:Hcheck.
  { apply wp_early, Herr. clear HQ Herr. intros ->. revert Hcheck. generalize 0%nat.
    induction (items (sm_partitions manifest)) as [|p ps IH]; intros n; simpl; [done|].
    repeat (case_match; try done). apply IH. }
  apply wp_bind. eapply wp_defined.
  { rewrite bool_decide_true; [done|]. by eapply initial_length. }
  apply wp_bind, wp_modify, wp_ret. by eapply HQ, initial_wf.
Qed.

(** What the runtime's fixed arrays and framework version can hold. *)
Definition fits (manifest : wt_system_manifest) : Prop :=
  (count (sm_partitions manifest) ≤ WT_FFM_MAX_PARTITIONS)%nat ∧
  Forall (λ p, pm_model p = WT_PARTITION_MODEL_IPC ∧ pm_framework_version p ≤ PSA_FRAMEWORK_VERSION)
    (items (sm_partitions manifest)) ∧
  (sum_list_with (λ p, count (pm_services p)) (items (sm_partitions manifest)) ≤ WT_FFM_MAX_SERVICES)%nat.

#[export] Instance fits_dec manifest : Decision (fits manifest) := ltac:(unfold fits; apply _).
