(* ===== verification/FfmSteps.v ===== *)
(** * The runtime as a transition system

    The operations other than the synchronous client calls are the [op]s;
    [env_step c] is a step that somebody else than client [c] takes. A
    dispatched partition runs such steps while its client is suspended
    ([Dispatched]); that discharges the interface the synchronous operations
    are proved against. [step] adds the synchronous operations of Non-secure
    clients, and every state reachable from a successful initialisation is
    well-formed. *)

From Stdlib Require Import ZArith Lia.
From stdpp Require Import base list numbers option sets relations.
From S2P Require Import Prelude Buffers CState Manifest Ipc FfmTypes FfmCore FfmClient FfmService FfmWf FfmQueue FfmSlots FfmServiceWf FfmClientWf FfmTerm FfmInit.

Inductive op :=
| OpRegister (partition_id : Z) (dispatch : option Z) (context : Z)
| OpSetLifecycle (lifecycle : Z)
| OpNotify (partition_id : Z)
| OpClear (partition_id : Z)
| OpEoi (partition_id irq_signal : Z)
| OpAssertSignal (partition_id irq_signal : Z)
| OpGet (partition_id signal : Z)
| OpSetRhandle (partition_id msg_handle rhandle : Z)
| OpRead (partition_id msg_handle : Z) (invec_idx : nat) (buffer : bool) (num_bytes : Z)
| OpSkip (partition_id msg_handle : Z) (invec_idx : nat) (num_bytes : Z)
| OpWrite (partition_id msg_handle : Z) (outvec_idx : nat) (buffer : carray Z)
| OpReply (partition_id msg_handle status : Z)
| OpConnectBegin (caller sid version : Z)
| OpCallBegin (caller handle type : Z) (in_vec : carray psa_invec) (out_vec : carray psa_outvec)
| OpCallRefuse (caller handle : Z)
| OpCloseBegin (caller handle : Z)
| OpConnectFinish (msg_index : nat)
| OpCallFinish (msg_index : nat) (out_vec : carray psa_outvec)
| OpCloseFinish (msg_index : nat)
| OpFailPartition (partition_id status : Z)
| OpFailClient (caller : Z)
| OpRestarted (partition_id status : Z).

(** The state after a function call. *)
Definition after {A} (f : func world A) : world → option world := λ w, fst <$> f w.

Section machine.
Context `{PortOps}.

Definition exec (o : op) : world → option world :=
  match o with
  | OpRegister pid f ctx => after (wt_ffm_register_partition pid f ctx)
  | OpSetLifecycle l => after (wt_ffm_set_lifecycle l)
  | OpNotify pid => after (wt_ffm_notify pid)
  | OpClear pid => after (wt_ffm_clear pid)
  | OpEoi pid irq => after (wt_ffm_eoi pid irq)
  | OpAssertSignal pid irq => after (wt_ffm_assert_signal pid irq)
  | OpGet pid signal => after (wt_ffm_get pid signal)
  | OpSetRhandle pid h r => after (wt_ffm_set_rhandle pid h r)
  | OpRead pid h idx buffer n => after (wt_ffm_read pid h idx buffer n)
  | OpSkip pid h idx n => after (wt_ffm_skip pid h idx n)
  | OpWrite pid h idx buffer => after (wt_ffm_write pid h idx buffer)
  | OpReply pid h status => after (wt_ffm_reply pid h status)
  | OpConnectBegin c sid v => after (wt_ffm_connect_begin c sid v)
  | OpCallBegin c h type iv ov => after (wt_ffm_call_begin c h type iv ov)
  | OpCallRefuse c h => after (wt_ffm_call_refuse c h)
  | OpCloseBegin c h => after (wt_ffm_close_begin c h)
  | OpConnectFinish i => after (wt_ffm_connect_finish i)
  | OpCallFinish i ov => after (wt_ffm_call_finish i ov)
  | OpCloseFinish i => after (wt_ffm_close_finish i)
  | OpFailPartition pid status => after (wt_ffm_fail_partition_messages pid status)
  | OpFailClient c => after (wt_ffm_fail_client_connections c)
  | OpRestarted pid status => after (wt_ffm_partition_restarted pid status)
  end.

(** What the callers guarantee: arguments in the range of their C types, a
    deferred client has one request at a time and finishes it when it is
    complete, and nobody acts as the suspended client [s]. *)
Definition permitted (s : option Z) (o : op) (w : world) : Prop :=
  match o with
  | OpEoi _ irq => 0 ≤ irq < 2 ^ 32
  | OpRead _ _ _ _ n | OpSkip _ _ _ n => 0 ≤ n
  | OpConnectBegin c _ _ | OpCallRefuse c _ => s ≠ Some c
  | OpCallBegin c _ _ iv ov =>
    s ≠ Some c ∧ no_request (rt w) c ∧ Forall invec_typed (items iv) ∧ Forall outvec_typed (items ov)
  | OpCloseBegin c _ => s ≠ Some c ∧ no_request (rt w) c
  | OpConnectFinish i | OpCallFinish i _ | OpCloseFinish i =>
    ∃ m, finished (rt w) i m ∧ s ≠ Some (m_caller m)
  | OpFailClient c | OpRestarted c _ => s ≠ Some c
  | _ => True
  end.

(** The same without the discipline of one request at a time: arguments in the
    range of their types, completed requests finished by nobody else. *)
Definition admissible (s : option Z) (o : op) (w : world) : Prop :=
  match o with
  | OpCallBegin c _ _ iv ov => s ≠ Some c ∧ Forall invec_typed (items iv) ∧ Forall outvec_typed (items ov)
  | OpCloseBegin c _ => s ≠ Some c
  | _ => permitted s o w
  end.
(** A call or close is begun by a client that waits for nothing. *)
Definition in_turn (o : op) (w : world) : Prop :=
  match o with OpCallBegin c _ _ _ _ | OpCloseBegin c _ => no_request (rt w) c | _ => True end.

Lemma permitted_split s o w : permitted s o w ↔ admissible s o w ∧ in_turn o w.
Proof. destruct o; simpl; tauto. Qed.

(** The step keeps the runtime well-formed and the suspended client's requests. *)
Definition guards (s : option Z) (w w' : world) : Prop :=
  wf (rt w') ∧ ∀ c, s = Some c → stable c w w'.

Lemma after_fwp {A} (f : func world A) (P : world → Prop) w :
  fwp f (λ _ w', P w') w → ∃ w', after f w = Some w' ∧ P w'.
Proof. intros (w' & a & Hf & HP)%fwp_run. exists w'. unfold after. by rewrite Hf. Qed.

Lemma keeps_guards {A} (f : func world A) s w :
  (∀ c, fwp f (λ _ w', keeps c w w') w) → fwp f (λ _ w', guards s w w') w.
Proof.
  intros Hf. pose proof (Hf 0) as (w' & a & Ha & Hk)%fwp_run. unfold fwp. rewrite Ha. split; [apply Hk|].
  intros c _. pose proof (Hf c) as Hc. unfold fwp in Hc. rewrite Ha in Hc. apply Hc.
Qed.

Lemma call_refuse_keeps c caller h w :
  wf (rt w) → fwp (wt_ffm_call_refuse caller h) (λ _ w', keeps c w w') w.
Proof.
  intros Hinv. apply fwp_fn, wp_if; intros _; [by apply wp_early, keeps_refl|].
  apply wp_bind, wp_gets, wp_bind. destruct (connection_from_handle_spec Hinv caller h) as (r & Hr & Hspec).
  eapply wp_defined; [done|]. destruct r as [e|k]; [by apply wp_early, keeps_refl|].
  destruct Hspec as (cn & Hk & Hal & _). eapply wp_mod_conn; [done|].
  eapply keeps_conn; [done..|apply drop_or_latch_same|apply drop_or_latch_state].
Qed.

Lemma connect_begin_keeps c caller sid v w :
  wf (rt w) → fwp (wt_ffm_connect_begin caller sid v) (λ _ w', keeps c w w') w.
Proof.
  intros Hinv. apply fwp_fn, wp_bind, wp_call. apply connect_enqueue_spec; [done| |].
  - intros e w' _ Hwf Hst _. by apply wp_early.
  - intros. by apply wp_ret.
Qed.

Lemma call_begin_stable caller h type iv ov w :
  wf (rt w) → Forall invec_typed (items iv) → Forall outvec_typed (items ov) →
  fwp (wt_ffm_call_begin caller h type iv ov) (λ _ w', (∀ c, stable c w w') ∧ memory w' = memory w) w.
Proof.
  intros. apply fwp_fn, wp_bind, wp_call. apply call_enqueue_any; [done..| |].
  - intros e w' _ _ Hst Hm. by apply wp_early.
  - intros k i m0 m n c w' _ Hst Hm. intros. by apply wp_ret.
Qed.

Lemma close_begin_stable caller h w :
  wf (rt w) → fwp (wt_ffm_close_begin caller h) (λ _ w', (∀ c, stable c w w') ∧ memory w' = memory w) w.
Proof.
  intros. apply fwp_fn, wp_bind, wp_call. apply close_enqueue_any; [done..| |].
  - intros e b w' Hk Hm. apply wp_early. split; [|done]. intros c. apply Hk.
  - intros k i m c w' _ Hst Hm. intros. by apply wp_ret.
Qed.

Lemma call_begin_keeps c caller h type iv ov w :
  wf (rt w) → no_request (rt w) caller → Forall invec_typed (items iv) → Forall outvec_typed (items ov) →
  fwp (wt_ffm_call_begin caller h type iv ov) (λ _ w', keeps c w w') w.
Proof.
  intros. apply fwp_fn, wp_bind, wp_call. apply call_enqueue_spec; [done..| |].
  - intros e w' _ Hwf Hst _. by apply wp_early.
  - intros. by apply wp_ret.
Qed.

Lemma close_begin_keeps c caller h w :
  wf (rt w) → no_request (rt w) caller → fwp (wt_ffm_close_begin caller h) (λ _ w', keeps c w w') w.
Proof.
  intros. apply fwp_fn, wp_bind, wp_call. apply close_enqueue_spec; [done..| |].
  - intros e b w' Hk _. by apply wp_early.
  - intros. by apply wp_ret.
Qed.

(** Every permitted operation is defined, and keeps what it must. *)
Lemma exec_guards s o w :
  wf (rt w) → permitted s o w → ∃ w', exec o w = Some w' ∧ guards s w w'.
Proof.
  intros Hinv Hp. destruct o; simpl in *; apply after_fwp.
  - apply keeps_guards. intros. by apply register_keeps.
  - apply keeps_guards. intros. by apply set_lifecycle_keeps.
  - apply keeps_guards. intros. by apply notify_keeps.
  - apply keeps_guards. intros. by apply clear_keeps.
  - apply keeps_guards. intros. by apply eoi_keeps.
  - apply keeps_guards. intros. by apply assert_signal_keeps.
  - apply keeps_guards. intros. by apply get_keeps.
  - apply keeps_guards. intros. by apply set_rhandle_keeps.
  - apply keeps_guards. intros. by apply read_keeps.
  - apply keeps_guards. intros. by apply skip_keeps.
  - apply keeps_guards. intros. by apply write_keeps.
  - apply keeps_guards. intros. by apply reply_keeps.
  - apply keeps_guards. intros. by apply connect_begin_keeps.
  - destruct Hp as (_ & ? & ? & ?). apply keeps_guards. intros. by apply call_begin_keeps.
  - apply keeps_guards. intros. by apply call_refuse_keeps.
  - destruct Hp as (_ & ?). apply keeps_guards. intros. by apply close_begin_keeps.
  - destruct Hp as (m & Hm & Hs). eapply fwp_mono; [by eapply connect_finish_keeps|].
    intros _ w' [Hwf Hst]. split; [done|]. intros c ->. apply Hst. congruence.
  - destruct Hp as (m & Hm & Hs). eapply fwp_mono; [by eapply call_finish_keeps|].
    intros _ w' [Hwf Hst]. split; [done|]. intros c ->. apply Hst. congruence.
  - destruct Hp as (m & Hm & Hs). eapply fwp_mono; [by eapply close_finish_keeps|].
    intros _ w' [Hwf Hst]. split; [done|]. intros c ->. apply Hst. congruence.
  - eapply fwp_mono; [by apply fail_partition_messages_spec|]. intros _ w' [Hwf Hst _ _ _]. by split.
  - eapply fwp_mono; [by apply fail_client_connections_spec|]. intros _ w' [Hwf Hst _ _ _ _]. split; [done|].
    intros c ->. apply Hst. congruence.
  - apply partition_restarted_spec; [done|intros _; by split|]. intros ret k p w' _ _ [Hwf Hst _ _ _ _ _]. split; [done|].
    intros c ->. apply Hst. congruence.
Qed.

(** An operation out of turn is defined too and leaves the suspended client's
    requests alone; well-formedness is what it may cost. *)
Lemma exec_admissible s o w :
  wf (rt w) → admissible s o w →
  ∃ w', exec o w = Some w' ∧ (∀ c, s = Some c → stable c w w') ∧ (in_turn o w → wf (rt w')).
Proof.
  intros Hinv Ha.
  assert (in_turn o w → ∃ w', exec o w = Some w' ∧ guards s w w') as Hturn.
  { intros Ht. apply exec_guards; [done|]. by apply permitted_split. }
  assert ((∃ w', exec o w = Some w' ∧ ∀ c, s = Some c → stable c w w') →
    ∃ w', exec o w = Some w' ∧ (∀ c, s = Some c → stable c w w') ∧ (in_turn o w → wf (rt w'))) as Hany.
  { intros (w' & He & Hst). exists w'. split_and!; [done..|]. intros Ht. destruct (Hturn Ht) as (w2 & He2 & Hwf & _). congruence. }
  apply Hany. destruct o; try (destruct Hturn as (w' & He & _ & Hst); [done|by exists w']); apply after_fwp.
  - destruct Ha as (_ & ? & ?). eapply fwp_mono; [by apply call_begin_stable|]. intros _ w' [Hst _] c _. apply Hst.
  - eapply fwp_mono; [by apply close_begin_stable|]. intros _ w' [Hst _] c _. apply Hst.
Qed.

(** ** Dispatch *)

(** A step of anybody but client [c]. *)
Definition env_step (c : Z) (w w' : world) : Prop := ∃ o, permitted (Some c) o w ∧ exec o w = Some w'.

Lemma env_steps_keep c w w' : wf (rt w) → rtc (env_step c) w w' → keeps c w w'.
Proof.
  intros Hinv Hs. induction Hs as [w|w1 w2 w3 (o & Hp & He) _ IH]; [by apply keeps_refl|].
  destruct (exec_guards (Some c) o w1 Hinv Hp) as (w2' & He' & Hwf & Hst). rewrite He in He'. injection He' as <-.
  eapply keeps_trans; [split; [done|by apply Hst]|by apply IH].
Qed.

End machine.

(** A dispatched partition runs operations, none of them as client [c]. *)
Class Dispatched `{PortOps} (c : Z) : Prop := {
  port_dispatched pid w : rtc (env_step c) w (port_dispatch pid w).1;
  call_dispatched f ctx pid w : rtc (env_step c) w (call_dispatch f ctx pid w).1;
}.

#[export] Instance dispatched_keeps `{PortOps} c : Dispatched c → DispatchKeeps c.
Proof.
  intros [Hp Hc]. constructor; intros; by apply env_steps_keep.
Qed.

(** A step of anybody but client [c]: an operation, or a whole synchronous
    connect, call or close of another Non-secure client, with the partitions
    it dispatches. *)
Inductive others_step `{PortOps} (c : Z) : world → world → Prop :=
| others_op w w' : env_step c w w' → others_step c w w'
| others_connect c' sid v r w w' : c' < 0 → c' ≠ c → wt_ffm_connect c' sid v w = Some (w', r) → others_step c w w'
| others_call c' h type iv ov r w w' : c' < 0 → c' ≠ c → no_request (rt w) c' →
    Forall invec_typed (items iv) → Forall outvec_typed (items ov) →
    wt_ffm_call c' h type iv ov w = Some (w', r) → others_step c w w'
| others_close c' h r w w' : c' < 0 → c' ≠ c → no_request (rt w) c' →
    wt_ffm_close c' h w = Some (w', r) → others_step c w w'.

Lemma others_step_keeps `{PortOps} c w w' :
  Dispatched c → (∀ c', c' < 0 → Dispatched c') → wf (rt w) → others_step c w w' → keeps c w w'.
Proof.
  intros Hc Hd Hinv Hs. assert (∀ c', c' ≠ c → ∀ w', wf (rt w') ∧ spares c' w w' → keeps c w w') as Hsp.
  { intros c' Hne w2 [Hwf Hsp]. split; [done|]. apply Hsp; [done|apply _]. }
  destruct Hs as [w w' He|c' sid v r w w' Hn Hne He|c' h type iv ov r w w' Hn Hne Hno Hi Ho He|c' h r w w' Hn Hne Hno He].
  - apply env_steps_keep; [done|by apply rtc_once].
  - pose proof (Hd c' Hn). apply (Hsp c' Hne). refine (fwp_elim _ (λ _ w', _ ∧ _) _ _ _ _ He). by apply connect_spares; [apply _|].
  - pose proof (Hd c' Hn). apply (Hsp c' Hne). refine (fwp_elim _ (λ _ w', _ ∧ _) _ _ _ _ He). by apply call_spares; [apply _|..].
  - pose proof (Hd c' Hn). apply (Hsp c' Hne). refine (fwp_elim _ (λ _ w', _ ∧ _) _ _ _ _ He). by apply close_spares; [apply _|..].
Qed.

Lemma others_steps_keep `{PortOps} c w w' :
  Dispatched c → (∀ c', c' < 0 → Dispatched c') → wf (rt w) → rtc (others_step c) w w' → keeps c w w'.
Proof.
  intros Hc Hd Hinv Hs. induction Hs as [w|w1 w2 w3 Hs _ IH]; [by apply keeps_refl|].
  pose proof (others_step_keeps c w1 w2 Hc Hd Hinv Hs) as Hk. eapply keeps_trans; [exact Hk|]. apply IH, Hk.
Qed.

(** ** The whole machine *)

Section reachable.
Context `{PortOps} (manifest : wt_system_manifest).

Inductive step : world → world → Prop :=
| step_op o w w' : permitted None o w → exec o w = Some w' → step w w'
| step_connect c sid v r w w' : c < 0 → wt_ffm_connect c sid v w = Some (w', r) → step w w'
| step_call c h type iv ov r w w' : c < 0 → no_request (rt w) c →
    Forall invec_typed (items iv) → Forall outvec_typed (items ov) →
    wt_ffm_call c h type iv ov w = Some (w', r) → step w w'
| step_close c h r w w' : c < 0 → no_request (rt w) c → wt_ffm_close c h w = Some (w', r) → step w w'.

Inductive reachable : world → Prop :=
| reachable_init w w' : wt_ffm_init (Some manifest) w = Some (w', WT_FFM_SUCCESS) → reachable w'
| reachable_step w w' : reachable w → step w w' → reachable w'.

Hypothesis Hdispatch : ∀ c, c < 0 → Dispatched c.

Lemma step_wf w w' : wf (rt w) → step w w' → wf (rt w').
Proof.
  intros Hinv Hs. destruct Hs as [o w w' Hp He|c sid v r w w' Hc He|c h type iv ov r w w' Hc Hno Hi Ho He|c h r w w' Hc Hno He].
  - destruct (exec_guards None o w Hinv Hp) as (w2 & He' & Hwf & _). congruence.
  - pose proof (Hdispatch c Hc). eapply (fwp_elim _ (λ _ w', wf (rt w'))) in He; [done|]. apply connect_wf; [apply _|done].
  - pose proof (Hdispatch c Hc). eapply (fwp_elim _ (λ _ w', wf (rt w'))) in He; [done|]. apply call_wf; [apply _|done..].
  - pose proof (Hdispatch c Hc). eapply (fwp_elim _ (λ _ w', wf (rt w'))) in He; [done|]. apply close_wf; [apply _|done..].
Qed.

Lemma reachable_wf_lemma features platform w :
  wt_manifest_validate (Some manifest) features platform = Some WT_MANIFEST_VALID → signals_typed manifest →
  reachable w → wf (rt w).
Proof.
  intros Hv%validate_accepted Hty. induction 1 as [w w' Hi|w w' _ IH Hs]; [|by eapply step_wf].
  refine (fwp_elim _ (λ ret w', ret = WT_FFM_SUCCESS → wf (rt w')) _ _ _ _ Hi eq_refl). by eapply init_spec.
Qed.
End reachable.
