(* ===== verification/FfmExample.v ===== *)
(** * A concrete system

    The two partitions of [ManifestExample] behind a port that allows every
    memory access and whose dispatch lets the partition take one request and
    answer it. [scenario] is a run of it: the storage partition connects to
    the vault, calls it with an input and an output vector, and closes. *)

From Stdlib Require Import ZArith Lia.
From stdpp Require Import base list numbers option sets relations.
From S2P Require Import Prelude Buffers CState Manifest Ipc FfmTypes FfmCore FfmClient FfmService FfmWf FfmQueue FfmSlots FfmServiceWf FfmClientWf FfmTerm FfmInit FfmSteps.

Module FfmExample.
Import Domain.Example ManifestExample.

(** Take the request that waits for the first service and answer it. *)
Definition serve (pid : Z) (w : world) : world * Z :=
  match wt_ffm_get pid 0x10 w with
  | Some (w1, (_, Some msg)) =>
    match wt_ffm_reply pid (pm_handle msg) PSA_SUCCESS w1 with
    | Some (w2, ret) => (w2, ret)
    | None => (w1, WT_FFM_ERROR_STATE)
    end
  | _ => (w, WT_FFM_ERROR_NOT_READY)
  end.

#[export] Instance port_ops : PortOps := {
  check_read _ _ _ _ := true;
  check_write _ _ _ _ := true;
  port_dispatch := serve;
  call_dispatch _ _ := serve;
}.

Lemma serve_steps c pid w : rtc (env_step c) w (serve pid w).1.
Proof.
  unfold serve. destruct (wt_ffm_get pid 0x10 w) as [[w1 [ret [msg|]]]|] eqn:Hget; [|done..].
  assert (env_step c w w1) as H1.
  { exists (OpGet pid 0x10). split; [done|]. simpl. unfold after. by rewrite Hget. }
  destruct (wt_ffm_reply pid (pm_handle msg) PSA_SUCCESS w1) as [[w2 r]|] eqn:Hrep; simpl; [|by apply rtc_once].
  eapply rtc_l; [done|]. apply rtc_once. exists (OpReply pid (pm_handle msg) PSA_SUCCESS). split; [done|].
  simpl. unfold after. by rewrite Hrep.
Qed.

Lemma dispatched c : Dispatched c.
Proof. constructor; intros; apply serve_steps. Qed.

(** ** Runs *)

Definition blank : world :=
  {| rt := {| r_manifest := None; r_partitions := []; r_services := []; r_connections := []; r_messages := [];
              r_partition_count := 0; r_service_count := 0; r_lifecycle := 0 |};
     memory := λ a, a mod 256; port := 0; g_wt_ffm_refuse_info := 0; g_wt_ffm_refuse_base := 0;
     g_wt_ffm_call_trace := 0 |}.

(** The world after a function call that is defined. *)
Definition next {A} (f : func world A) (w : world) : world := default w (fst <$> f w).
Definition run (o : op) (w : world) : world := default w (exec o w).

Definition booted : world := next (wt_ffm_init (Some manifest)) blank.

Lemma booted_init : wt_ffm_init (Some manifest) blank = Some (booted, WT_FFM_SUCCESS).
Proof. reflexivity. Qed.

Lemma booted_reachable : reachable manifest booted.
Proof. eapply reachable_init, booted_init. Qed.

Lemma manifest_signals_typed : signals_typed manifest.
Proof. unfold signals_typed. simpl. by repeat constructor. Qed.

Lemma reachable_example_wf w : reachable manifest w → wf (rt w).
Proof.
  apply (reachable_wf_lemma manifest (λ c _, dispatched c) WT_MANIFEST_FEATURE_IPC (Some caps)).
  - exact manifest_valid.
  - exact manifest_signals_typed.
Qed.

Lemma run_reachable o w : reachable manifest w → permitted None o w → reachable manifest (run o w).
Proof.
  intros Hr Hp. destruct (exec_guards None o w (reachable_example_wf w Hr) Hp) as (w' & He & _).
  unfold run. rewrite He. eapply reachable_step; [done|]. by eapply step_op.
Qed.

(** [no_request] as a test. *)
Definition waits_for_none (rt : wt_ffm_runtime) (caller : Z) : bool :=
  forallb (λ m, negb (m_allocated m) || negb (m_caller m =? caller) || is_abandoned (m_abandoned m)) (r_messages rt).

Lemma waits_for_none_spec rt caller : waits_for_none rt caller = true → no_request rt caller.
Proof.
  unfold waits_for_none. rewrite forallb_forall. intros Hf i m Hi Hal Hc.
  apply list_elem_of_lookup_2, list_elem_of_In, Hf in Hi. rewrite Hal, Hc, Z.eqb_refl in Hi. done.
Qed.

(** ** The scenario *)

Definition connection_handle : Z := 161.
Definition in_vec : carray psa_invec := Arr [ {| iv_base := 0x30002000; iv_len := 6 |} ].
Definition out_vec : carray psa_outvec := Arr [ {| ov_base := 0x30002100; ov_len := 8 |} ].

Definition connecting : world := run (OpConnectBegin 1 0x80 1) booted.
Definition connect_taken : world := run (OpGet 3 0x10) connecting.
Definition connect_answered : world := run (OpReply 3 193 PSA_SUCCESS) connect_taken.
Definition connected : world := run (OpConnectFinish 0) connect_answered.
Definition calling : world := run (OpCallBegin 1 connection_handle 7 in_vec out_vec) connected.
Definition call_taken : world := run (OpGet 3 0x10) calling.
Definition call_written : world := run (OpWrite 3 321 0 (Arr [1; 2; 3])) call_taken.
Definition call_answered : world := run (OpReply 3 321 9) call_written.
Definition call_done : world := run (OpCallFinish 0 out_vec) call_answered.

Definition msg0 (w : world) : wt_ffm_message_runtime := default message_zero (r_messages (rt w) !! 0%nat).
Definition conn0 (w : world) : wt_ffm_connection_runtime :=
  default connection_runtime_zero (r_connections (rt w) !! 0%nat).

Lemma connected_conn0 : r_connections (rt connected) !! 0%nat = Some (conn0 connected).
Proof. vm_compute. reflexivity. Qed.
Lemma connected_owner : c_allocated (conn0 connected) = true ∧ c_caller (conn0 connected) = 1 ∧
  wt_ffm_caller_instance (rt connected) 1 = Some (c_client_instance (conn0 connected)).
Proof. vm_compute. split_and!; reflexivity. Qed.
Lemma connected_handle :
  wt_ffm_make_handle WT_FFM_HANDLE_CONNECTION 0 (c_generation (conn0 connected)) = connection_handle.
Proof. vm_compute. reflexivity. Qed.
Lemma call_taken_msg0 : r_messages (rt call_taken) !! 0%nat = Some (msg0 call_taken).
Proof. vm_compute. reflexivity. Qed.
Lemma call_taken_active : m_allocated (msg0 call_taken) = true ∧ m_active (msg0 call_taken) = true ∧
  belongs (rt call_taken) (m_service_index (msg0 call_taken)) 3 ∧
  ¬ belongs (rt call_taken) (m_service_index (msg0 call_taken)) 1.
Proof. vm_compute. split_and!; [reflexivity..|discriminate]. Qed.
Lemma call_taken_handle : wt_ffm_make_handle WT_FFM_HANDLE_MESSAGE 0 (m_generation (msg0 call_taken)) = 321.
Proof. vm_compute. reflexivity. Qed.
Lemma call_taken_call :
  r_connections (rt call_taken) !! m_connection_index (msg0 call_taken) = Some (conn0 call_taken) ∧
  is_abandoned (m_abandoned (msg0 call_taken)) = false ∧
  reply_state (m_type (msg0 call_taken)) 9 (c_error_latch (conn0 call_taken)) = inr WT_IPC_CONNECTION_IDLE.
Proof. vm_compute. split_and!; reflexivity. Qed.
Lemma call_taken_input : open_vector (rt call_taken) 3 321 0 m_in_count 0 (msg0 call_taken).
Proof. constructor; vm_compute; [reflexivity|reflexivity|discriminate|lia]. Qed.
Lemma call_taken_output : open_vector (rt call_taken) 3 321 0 m_out_count 0 (msg0 call_taken).
Proof. constructor; vm_compute; [reflexivity|reflexivity|discriminate|lia]. Qed.
Lemma call_taken_vectors : m_in_size (msg0 call_taken) !! 0%nat = Some 6 ∧
  m_in_offset (msg0 call_taken) !! 0%nat = Some 0 ∧ m_in_position (msg0 call_taken) !! 0%nat = Some 0.
Proof. vm_compute. split_and!; reflexivity. Qed.
Lemma call_taken_outputs : m_out_size (msg0 call_taken) !! 0%nat = Some 8 ∧
  m_out_offset (msg0 call_taken) !! 0%nat = Some 0 ∧ m_out_position (msg0 call_taken) !! 0%nat = Some 0.
Proof. vm_compute. split_and!; reflexivity. Qed.

Lemma in_vec_typed : Forall invec_typed (items in_vec).
Proof. apply List.Forall_cons; [|apply List.Forall_nil]. unfold invec_typed, UINTPTR_MAX, SIZE_MAX; simpl; lia. Qed.
Lemma out_vec_typed : Forall outvec_typed (items out_vec).
Proof. apply List.Forall_cons; [|apply List.Forall_nil]. unfold outvec_typed, UINTPTR_MAX, SIZE_MAX; simpl; lia. Qed.

Lemma connecting_run : wt_ffm_connect_begin 1 0x80 1 booted = Some (connecting, (connection_handle, Some 0%nat)).
Proof. vm_compute. reflexivity. Qed.
Lemma connecting_reachable : reachable manifest connecting.
Proof. by apply run_reachable; [apply booted_reachable|]. Qed.
Lemma connect_taken_reachable : reachable manifest connect_taken.
Proof. by apply run_reachable; [apply connecting_reachable|]. Qed.
Lemma connect_answered_reachable : reachable manifest connect_answered.
Proof. by apply run_reachable; [apply connect_taken_reachable|]. Qed.
Lemma connected_reachable : reachable manifest connected.
Proof.
  apply run_reachable; [apply connect_answered_reachable|]. exists (msg0 connect_answered). split; [|done].
  split_and!; vm_compute; reflexivity.
Qed.
Lemma connected_waits : no_request (rt connected) 1.
Proof. apply waits_for_none_spec. vm_compute. reflexivity. Qed.
Lemma calling_reachable : reachable manifest calling.
Proof.
  apply run_reachable; [apply connected_reachable|].
  split_and!; [done|apply connected_waits|apply in_vec_typed|apply out_vec_typed].
Qed.
Lemma calling_run : wt_ffm_call_begin 1 connection_handle 7 in_vec out_vec connected = Some (calling, (PSA_SUCCESS, Some 0%nat)).
Proof. vm_compute. reflexivity. Qed.
Lemma calling_msg0 : r_messages (rt calling) !! 0%nat = Some (msg0 calling).
Proof. vm_compute. reflexivity. Qed.
Lemma calling_partition : wt_ffm_find_partition (rt calling) 3 = Some (inr 1%nat).
Proof. vm_compute. reflexivity. Qed.
Lemma calling_service : service_for (rt calling) 1 0x10 2.
Proof. split; [vm_compute; lia|]. eexists. split; vm_compute; reflexivity. Qed.
Lemma calling_pending : pending (msg0 calling) = true ∧ m_service_index (msg0 calling) = 2%nat.
Proof. vm_compute. split; reflexivity. Qed.
Lemma singleton_list (l : list nat) i : NoDup l → i ∈ l → (∀ j, j ∈ l → j = i) → l = [i].
Proof.
  intros Hnd Hin Hall. destruct l as [|a [|b l]]; [by apply not_elem_of_nil in Hin| |].
  - f_equal. apply Hall. by left.
  - apply NoDup_cons in Hnd as [Hni _]. destruct Hni. rewrite (Hall a), (Hall b); [by left|right; by left|by left].
Qed.
Lemma connected_queue : queue_of (rt connected) None (c_service_index (conn0 connected)) [].
Proof.
  destruct (inv_queue_of _ _ _ (c_service_index (conn0 connected)) (reachable_example_wf _ connected_reachable)) as [l Hl];
    [vm_compute; lia|tauto|].
  assert (forallb (λ m, negb (pending m)) (r_messages (rt connected)) = true) as Hf by (vm_compute; reflexivity).
  rewrite forallb_forall in Hf. assert (l = []) as ->; [|exact Hl]. destruct l as [|i l]; [reflexivity|exfalso].
  destruct Hl as (sv & _ & Hq). destruct (proj1 (queue_members _ _ _ _ _ Hq i)) as (m & Hm & Hp & _); [by left|].
  apply list_elem_of_lookup_2, list_elem_of_In, Hf in Hm. rewrite Hp in Hm. discriminate Hm.
Qed.
Lemma calling_queue : queue_of (rt calling) None 2 [0%nat].
Proof.
  destruct (inv_queue_of _ _ _ 2 (reachable_example_wf _ calling_reachable)) as [l Hl]; [vm_compute; lia|tauto|].
  assert (0%nat ∈ l) as Hin.
  { destruct Hl as (sv & _ & Hq). apply (queue_members _ _ _ _ _ Hq). exists (msg0 calling).
    split; [exact calling_msg0|]. destruct calling_pending. by split_and!. }
  assert (∀ i, i ∈ l → i = 0%nat) as Hall.
  { assert (forallb (λ m, negb (pending m)) (drop 1 (r_messages (rt calling))) = true) as Hf by (vm_compute; reflexivity).
    rewrite forallb_forall in Hf. destruct Hl as (sv & _ & Hq). intros [|i] (m & Hm & Hp & _)%(queue_members _ _ _ _ _ Hq); [done|].
    change (S i) with (1 + i)%nat in Hm. rewrite <-lookup_drop in Hm.
    apply list_elem_of_lookup_2, list_elem_of_In, Hf in Hm. by rewrite Hp in Hm. }
  assert (NoDup l) as Hnd by (destruct Hl as (sv & _ & Hq); exact (queue_nodup _ _ _ _ _ Hq)).
  rewrite (singleton_list l 0 Hnd Hin Hall) in Hl. exact Hl.
Qed.
Lemma call_taken_calling :
  r_messages (rt call_taken) !! 0%nat = Some (msg0 calling <| m_next := None |> <| m_active := true |>).
Proof. vm_compute. reflexivity. Qed.
Lemma connected_memory : memory connected = λ a, a mod 256.
Proof. vm_compute. reflexivity. Qed.
Lemma call_taken_reachable : reachable manifest call_taken.
Proof. by apply run_reachable; [apply calling_reachable|]. Qed.
Lemma call_written_reachable : reachable manifest call_written.
Proof. by apply run_reachable; [apply call_taken_reachable|]. Qed.
Lemma call_answered_reachable : reachable manifest call_answered.
Proof. by apply run_reachable; [apply call_written_reachable|]. Qed.
Lemma call_answered_finished : finished (rt call_answered) 0 (msg0 call_answered).
Proof. split_and!; vm_compute; reflexivity. Qed.
Lemma call_answered_memory : memory call_answered 0x300020FF = 255.
Proof. vm_compute. reflexivity. Qed.
Lemma call_answered_output j dest n :
  (j < m_out_count (msg0 call_answered))%nat → output (msg0 call_answered) j dest n → dest = 0x30002100 ∧ n = 3.
Proof.
  assert (m_out_count (msg0 call_answered) = 1%nat) as -> by (vm_compute; reflexivity). intros Hj [Hd Hn].
  assert (j = 0%nat) as -> by lia. vm_compute in Hd, Hn. split; congruence.
Qed.
Lemma run_env_step cl o w : reachable manifest w → permitted (Some cl) o w → env_step cl w (run o w).
Proof.
  intros Hr Hp. exists o. split; [done|].
  destruct (exec_guards (Some cl) o w (reachable_example_wf w Hr) Hp) as (w' & He & _). unfold run. by rewrite He.
Qed.
Lemma calling_steps : rtc (env_step 1) calling call_answered.
Proof.
  refine (rtc_l _ calling call_taken call_answered (run_env_step 1 (OpGet 3 0x10) calling calling_reachable I) _).
  refine (rtc_l _ call_taken call_written call_answered
    (run_env_step 1 (OpWrite 3 321 0 (Arr [1; 2; 3])) call_taken call_taken_reachable I) _).
  exact (rtc_once call_written call_answered (run_env_step 1 (OpReply 3 321 9) call_written call_written_reachable I)).
Qed.
(** Meanwhile a Non-secure client connects to the storage service. *)
Definition guest_served : world := next (wt_ffm_connect (-1) 0x60 1) call_answered.
Lemma guest_served_steps : rtc (others_step 1) calling guest_served.
Proof.
  assert (∃ r, wt_ffm_connect (-1) 0x60 1 call_answered = Some (guest_served, r)) as [r Hr] by (vm_compute; by eexists).
  transitivity call_answered.
  - eapply rtc_subrel; [|exact calling_steps]. intros w w2 Hs. by apply others_op.
  - apply rtc_once. by apply (others_connect 1 (-1) 0x60 1 r).
Qed.
Lemma calling_live : live 1 (msg0 calling).
Proof. vm_compute. split_and!; reflexivity. Qed.
Lemma call_taken_storage : wt_ffm_find_partition (rt call_taken) 1 = Some (inr 0%nat) ∧
  r_partitions (rt call_taken) !! 0%nat = Some (default partition_zero (r_partitions (rt call_taken) !! 0%nat)).
Proof. vm_compute. split; reflexivity. Qed.
Lemma call_done_reachable : reachable manifest call_done.
Proof.
  apply run_reachable; [apply call_answered_reachable|]. exists (msg0 call_answered). split; [|done].
  exact call_answered_finished.
Qed.
End FfmExample.
