(* ===== verification/FfmHandles.v ===== *)
(** * FF-M handles

    Encoding and decoding, which handle gives whom access to which slot, and
    the refusal of handles whose slot has been released. *)

From Stdlib Require Import ZArith Lia.
From stdpp Require Import base list numbers option sets.
From S2P Require Import Prelude Buffers CState Manifest Ipc FfmTypes FfmCore FfmWf FfmQueue FfmSlots FfmServiceWf FfmTerm FfmSteps FfmExample.

(** The handle as a number: 24 bits of generation, 2 of type, 5 of index. *)
Lemma make_handle_value type i g :
  gen_ok g → 0 ≤ type < 4 → (i < 31)%nat →
  wt_ffm_make_handle type i g = (g * 4 + type) * 32 + (Z.of_nat i + 1).
Proof.
  intros Hg Ht Hi. unfold gen_ok in Hg. unfold wt_ffm_make_handle, WT_FFM_HANDLE_GEN_MASK, WT_FFM_HANDLE_GEN_SHIFT,
    WT_FFM_HANDLE_TYPE_MASK, WT_FFM_HANDLE_TYPE_SHIFT. cbv zeta.
  change 0x00FFFFFF with (Z.ones 24). change 3 with (Z.ones 2). rewrite !Z.land_ones by lia.
  rewrite (Z.mod_small g), (Z.mod_small type) by lia.
  rewrite (u32_small (g .<< 7)) by (rewrite Z.shiftl_mul_pow2; lia).
  rewrite <-Z.lor_assoc, (lor_shiftl_add type 5 (Z.of_nat i + 1)) by lia.
  rewrite (lor_shiftl_add g 7 (type * 2 ^ 5 + (Z.of_nat i + 1))) by lia.
  unfold i32_of_u32, INT32_MAX.
  destruct (Z.leb_spec (g * 2 ^ 7 + (type * 2 ^ 5 + (Z.of_nat i + 1))) 0x7FFFFFFF); lia.
Qed.

Lemma decode_make_handle type i g limit :
  gen_ok g → 0 ≤ type < 4 → (i < limit)%nat → (limit ≤ 31)%nat →
  wt_ffm_decode_handle (wt_ffm_make_handle type i g) type limit = inr (i, g).
Proof.
  intros Hg Ht Hi Hl. rewrite make_handle_value by (done || lia). unfold gen_ok in Hg.
  set (v := (g * 4 + type) * 32 + (Z.of_nat i + 1)). unfold wt_ffm_decode_handle.
  assert (0 < v < 2 ^ 31) as Hv by (unfold v; lia). destruct (Z.leb_spec v 0); [lia|]. cbv zeta.
  rewrite u32_small by lia. unfold WT_FFM_HANDLE_TYPE_SHIFT, WT_FFM_HANDLE_TYPE_MASK,
    WT_FFM_HANDLE_INDEX_MASK, WT_FFM_HANDLE_GEN_SHIFT.
  change 0x1F with (Z.ones 5). change 3 with (Z.ones 2). rewrite !Z.land_ones, !Z.shiftr_div_pow2 by lia.
  assert (v mod 2 ^ 5 = Z.of_nat i + 1) as ->.
  { symmetry. apply Z.mod_unique with (g * 4 + type); unfold v; lia. }
  assert (v / 2 ^ 5 = g * 4 + type) as ->.
  { symmetry. apply Z.div_unique with (Z.of_nat i + 1); unfold v; lia. }
  assert ((g * 4 + type) mod 2 ^ 2 = type) as ->.
  { symmetry. apply Z.mod_unique with g; lia. }
  assert (v / 2 ^ 7 = g) as ->.
  { symmetry. apply Z.div_unique with (type * 32 + (Z.of_nat i + 1)); unfold v; lia. }
  rewrite Z.eqb_refl, Z.gtb_ltb. simpl. destruct (Z.eqb_spec (Z.of_nat i + 1) 0); [lia|]. simpl.
  destruct (Z.ltb_spec (Z.of_nat limit) (Z.of_nat i + 1)); [lia|]. destruct (Z.eqb_spec g 0); [lia|].
  do 2 f_equal. lia.
Qed.

(** The only handle that decodes to a slot and generation. *)
Lemma decode_handle_inv handle type limit i g :
  handle < 2 ^ 31 → wt_ffm_decode_handle handle type limit = inr (i, g) → (limit ≤ 31)%nat →
  handle = wt_ffm_make_handle type i g.
Proof.
  intros Hh Hd Hl. pose proof (decode_handle_lt _ _ _ _ _ Hd) as Hi. revert Hd. unfold wt_ffm_decode_handle.
  destruct (Z.leb_spec handle 0) as [|Hpos]; [done|]. cbv zeta. rewrite u32_small by lia.
  unfold WT_FFM_HANDLE_TYPE_SHIFT, WT_FFM_HANDLE_TYPE_MASK, WT_FFM_HANDLE_INDEX_MASK, WT_FFM_HANDLE_GEN_SHIFT.
  change 0x1F with (Z.ones 5). change 3 with (Z.ones 2). rewrite !Z.land_ones, !Z.shiftr_div_pow2 by lia.
  destruct (Z.eqb_spec ((handle / 2 ^ 5) mod 2 ^ 2) type) as [Ht|]; [|done].
  destruct (Z.eqb_spec (handle mod 2 ^ 5) 0); [done|]. destruct (_ >? _); [done|]. simpl negb. cbn [orb].
  destruct (Z.eqb_spec (handle / 2 ^ 7) 0); [done|]. intros [= <- <-].
  pose proof (Z.mod_pos_bound handle (2 ^ 5) ltac:(lia)) as Hm.
  pose proof (Z.mod_pos_bound (handle / 2 ^ 5) (2 ^ 2) ltac:(lia)) as Hm2.
  pose proof (Z.div_mod handle (2 ^ 5) ltac:(lia)) as He.
  pose proof (Z.div_mod (handle / 2 ^ 5) (2 ^ 2) ltac:(lia)) as He2.
  change (2 ^ 7) with (2 ^ 5 * 2 ^ 2) in *. rewrite <-Z.div_div in * by lia.
  rewrite make_handle_value; [lia| |lia|lia]. unfold gen_ok. lia.
Qed.

Lemma next_generation_ne g : gen_ok g → wt_ffm_next_generation g ≠ g.
Proof.
  intros Hg. unfold gen_ok in Hg. unfold wt_ffm_next_generation, WT_FFM_HANDLE_GEN_MASK.
  change 0x00FFFFFF with (Z.ones 24). rewrite Z.land_ones, u32_small by lia.
  destruct (decide (g + 1 = 2 ^ 24)) as [Heq|Hne].
  { rewrite Heq, Z_mod_same_full. simpl. lia. }
  rewrite Z.mod_small by lia. destruct (Z.eqb_spec (g + 1) 0); lia.
Qed.

(** ** Accepted handles *)

Lemma connection_handle_accepted rt caller k c :
  wf rt → r_connections rt !! k = Some c → c_allocated c = true → c_caller c = caller →
  wt_ffm_caller_instance rt caller = Some (c_client_instance c) →
  wt_ffm_connection_from_handle rt caller (wt_ffm_make_handle WT_FFM_HANDLE_CONNECTION k (c_generation c)) = Some (inr k).
Proof.
  intros Hinv Hk Hal Hc Hin. pose proof (conn_gen _ _ (inv_conn _ _ _ Hinv k c Hk)) as Hg.
  pose proof (lookup_lt_Some _ _ _ Hk) as Hlt. rewrite (st_connections _ (inv_static _ _ _ Hinv)) in Hlt.
  unfold wt_ffm_connection_from_handle.
  rewrite decode_make_handle; [|done|unfold WT_FFM_HANDLE_CONNECTION; lia|done|unfold WT_FFM_MAX_CONNECTIONS; lia].
  rewrite Hk. simpl. rewrite Hal, Z.eqb_refl, Hc, Z.eqb_refl. simpl. rewrite Hin. simpl. by rewrite Z.eqb_refl.
Qed.

Lemma message_handle_accepted rt pid i m :
  wf rt → r_messages rt !! i = Some m → m_allocated m = true → m_active m = true → belongs rt (m_service_index m) pid →
  wt_ffm_message_from_handle rt pid (wt_ffm_make_handle WT_FFM_HANDLE_MESSAGE i (m_generation m)) = Some (inr i).
Proof.
  intros Hinv Hm Hal Hact Hb. pose proof (msg_gen _ _ (inv_msg _ _ _ Hinv i m Hm)) as Hg.
  pose proof (lookup_msg_lt Hinv i m Hm) as Hlt. unfold wt_ffm_message_from_handle.
  rewrite decode_make_handle; [|done|unfold WT_FFM_HANDLE_MESSAGE; lia|done|unfold WT_FFM_MAX_MESSAGES; lia].
  rewrite Hm. simpl. rewrite Hal, Hact, Z.eqb_refl. simpl. unfold belongs, service_of, manifest_of in Hb.
  destruct (r_services rt !! m_service_index m) as [sv|]; [|done]. simpl in *.
  destruct (s_descriptor sv) as [d|]; [|done]. simpl in Hb.
  destruct (r_partitions rt !! s_partition_index sv) as [p|]; [|done]. simpl in *.
  destruct (p_manifest p) as [pm|]; [|done]. simpl. rewrite Hb. by rewrite Z.eqb_refl.
Qed.

(** ** Claims *)

(** Handle round trip. A handle made for a slot of either pool, with any
    generation the runtime uses, is positive, decodes to exactly that slot and
    generation, and does not decode as the other kind of handle. *)
Theorem handle_roundtrip type other i g limit :
  gen_ok g → 0 ≤ type < 4 → other ≠ type → (i < limit)%nat → (limit ≤ WT_FFM_MAX_CONNECTIONS)%nat →
  0 < wt_ffm_make_handle type i g ∧
  wt_ffm_decode_handle (wt_ffm_make_handle type i g) type limit = inr (i, g) ∧
  wt_ffm_decode_handle (wt_ffm_make_handle type i g) other limit = inl WT_FFM_ERROR_HANDLE.
Proof.
  intros Hg Ht Hne Hi Hl. unfold WT_FFM_MAX_CONNECTIONS in Hl.
  pose proof (decode_make_handle type i g limit Hg Ht Hi ltac:(lia)) as Hdec.
  split_and!; [|done|].
  - rewrite make_handle_value by (done || lia). unfold gen_ok in Hg. lia.
  - revert Hdec. unfold wt_ffm_decode_handle. destruct (_ <=? 0); [done|]. cbv zeta.
    set (t := u32 _ .>> WT_FFM_HANDLE_TYPE_SHIFT .& _).
    destruct (Z.eqb_spec t type) as [->|]; [|done]. intros _.
    destruct (Z.eqb_spec type other); [congruence|done].
Qed.

Lemma handle_roundtrip_witness :
  wt_ffm_decode_handle 0x7FFFFFB0 2 16 = inl WT_FFM_ERROR_HANDLE ∧
  wt_ffm_decode_handle (wt_ffm_make_handle 1 15 0xFFFFFF) 1 16 = inr (15%nat, 0xFFFFFF).
Proof.
  assert (gen_ok 0xFFFFFF) as Hg by (unfold gen_ok; lia).
  destruct (handle_roundtrip 1 2 15 0xFFFFFF 16 Hg) as (_ & H1 & H2); [lia|lia|lia|unfold WT_FFM_MAX_CONNECTIONS; lia|].
  split; [exact H2|exact H1].
Defined.

(** Stale handles. Releasing a connection slot changes its generation, so
    the handle that named it is refused from then on, until the 24-bit
    generation has been through all its other values. *)
Theorem released_handle_refused k c caller w :
  wf (rt w) → r_connections (rt w) !! k = Some c →
  fwp (wt_ffm_release_connection k) (λ _ w',
    (∃ c', r_connections (rt w') !! k = Some c' ∧ c_allocated c' = false ∧
           c_generation c' = wt_ffm_next_generation (c_generation c) ∧ c_generation c' ≠ c_generation c) ∧
    wt_ffm_connection_from_handle (rt w') caller
      (wt_ffm_make_handle WT_FFM_HANDLE_CONNECTION k (c_generation c)) = Some (inl WT_FFM_ERROR_HANDLE)) w.
Proof.
  intros Hinv Hk. pose proof (conn_gen _ _ (inv_conn _ _ _ Hinv k c Hk)) as Hg.
  pose proof (lookup_lt_Some _ _ _ Hk) as Hlt. rewrite (st_connections _ (inv_static _ _ _ Hinv)) in Hlt.
  apply fwp_fn. eapply wp_mod_conn; [done|]. set (c' := set_field c_state _ _).
  assert (r_connections (rt (put_conn k c' w)) !! k = Some c') as Hk'.
  { simpl. rewrite list_lookup_insert_eq; [done|]. by eapply lookup_lt_Some. }
  split.
  - exists c'. split_and!; [done..|]. by apply next_generation_ne.
  - unfold wt_ffm_connection_from_handle.
    rewrite decode_make_handle; [|done|unfold WT_FFM_HANDLE_CONNECTION; lia|done|unfold WT_FFM_MAX_CONNECTIONS; lia].
    by rewrite Hk'.
Qed.

(** The connection that the client of the scenario opened, released. *)
Lemma released_handle_refused_witness :
  fwp (wt_ffm_release_connection 0) (λ _ w',
    wt_ffm_connection_from_handle (rt w') 1 FfmExample.connection_handle = Some (inl WT_FFM_ERROR_HANDLE))
    FfmExample.connected.
Proof.
  pose proof (FfmExample.reachable_example_wf _ FfmExample.connected_reachable) as Hwf.
  pose proof (released_handle_refused 0 (FfmExample.conn0 FfmExample.connected) 1 FfmExample.connected Hwf
    FfmExample.connected_conn0) as Hrel.
  eapply fwp_mono; [exact Hrel|]. intros _ w' [_ Href]. rewrite FfmExample.connected_handle in Href. exact Href.
Defined.

(** C24: Connection isolation. In a well-formed runtime a 32-bit handle gives
    a client access to a connection exactly when it is the handle made for
    that slot in its current generation, the slot is allocated to that client,
    and the client is still the instance that opened it. *)
Theorem connection_access_iff rt caller handle k :
  wf rt → handle < 2 ^ 31 →
  wt_ffm_connection_from_handle rt caller handle = Some (inr k) ↔
  ∃ c, r_connections rt !! k = Some c ∧ c_allocated c = true ∧ c_caller c = caller ∧
    wt_ffm_caller_instance rt caller = Some (c_client_instance c) ∧
    handle = wt_ffm_make_handle WT_FFM_HANDLE_CONNECTION k (c_generation c).
Proof.
  intros Hinv Hh. split.
  - intros Hf. destruct (connection_from_handle_spec Hinv caller handle) as (r & Hr & Hspec).
    rewrite Hf in Hr. injection Hr as <-. destruct Hspec as (c & ? & ? & ? & Hd & ?). exists c.
    split_and!; try done. eapply decode_handle_inv; [done..|]. unfold WT_FFM_MAX_CONNECTIONS; lia.
  - intros (c & Hk & Hal & Hc & Hin & ->). by apply connection_handle_accepted.
Qed.

(** The handle of the scenario is its client's, and not another client's. *)
Lemma connection_access_iff_witness :
  wt_ffm_connection_from_handle (rt FfmExample.connected) 1 FfmExample.connection_handle = Some (inr 0%nat) ∧
  wt_ffm_connection_from_handle (rt FfmExample.connected) 3 FfmExample.connection_handle ≠ Some (inr 0%nat).
Proof.
  pose proof (FfmExample.reachable_example_wf _ FfmExample.connected_reachable) as Hwf.
  pose proof FfmExample.connected_conn0 as Hk. destruct FfmExample.connected_owner as (Hal & Hcal & Hin). split.
  - apply (connection_access_iff _ 1 161 0 Hwf ltac:(lia)). exists (FfmExample.conn0 FfmExample.connected).
    split_and!; [exact Hk|exact Hal|exact Hcal|exact Hin|symmetry; exact FfmExample.connected_handle].
  - intros (c & Hc & _ & Hcal' & _)%(connection_access_iff _ 3 161 0 Hwf ltac:(lia)).
    rewrite Hk in Hc. apply (Some_inj _ _) in Hc. rewrite <-Hc, Hcal in Hcal'. discriminate Hcal'.
Defined.

(** Message isolation. In a well-formed runtime a 32-bit message handle
    is accepted from a partition exactly when it is the handle made for that
    slot in its current generation, the message has been taken and not yet
    answered, and the partition is the one that serves the message's service. *)
Theorem message_access_iff rt pid handle i :
  wf rt → handle < 2 ^ 31 →
  wt_ffm_message_from_handle rt pid handle = Some (inr i) ↔
  ∃ m, r_messages rt !! i = Some m ∧ m_allocated m = true ∧ m_active m = true ∧
    belongs rt (m_service_index m) pid ∧
    handle = wt_ffm_make_handle WT_FFM_HANDLE_MESSAGE i (m_generation m).
Proof.
  intros Hinv Hh. split.
  - intros Hf. destruct (message_from_handle_spec Hinv pid handle) as (r & Hr & Hspec).
    rewrite Hf in Hr. injection Hr as <-. destruct Hspec as (m & Hm & ? & ? & Hd & d & k & pm & Hsv & Hpm & Hid).
    exists m. split_and!; try done.
    + unfold belongs. rewrite Hsv. simpl. by rewrite Hpm.
    + eapply decode_handle_inv; [done..|]. unfold WT_FFM_MAX_MESSAGES; lia.
  - intros (m & Hm & Hal & Hact & Hb & ->). by apply message_handle_accepted.
Qed.

(** The vault may use the handle of the call it took; the storage partition may not. *)
Lemma message_access_iff_witness :
  wt_ffm_message_from_handle (rt FfmExample.call_taken) 3 321 = Some (inr 0%nat) ∧
  wt_ffm_message_from_handle (rt FfmExample.call_taken) 1 321 ≠ Some (inr 0%nat).
Proof.
  pose proof (FfmExample.reachable_example_wf _ FfmExample.call_taken_reachable) as Hwf.
  pose proof FfmExample.call_taken_msg0 as Hm. destruct FfmExample.call_taken_active as (Hal & Hact & Hb & Hnb). split.
  - apply (message_access_iff _ 3 321 0 Hwf ltac:(lia)). exists (FfmExample.msg0 FfmExample.call_taken).
    split_and!; [exact Hm|exact Hal|exact Hact|exact Hb|symmetry; exact FfmExample.call_taken_handle].
  - intros (m & Hm' & _ & _ & Hb' & _)%(message_access_iff _ 1 321 0 Hwf ltac:(lia)).
    rewrite Hm in Hm'. apply (Some_inj _ _) in Hm'. rewrite <-Hm' in Hb'. exact (Hnb Hb').
Defined.
