(* ===== verification/FfmData.v ===== *)
(** * The data path of a call

    What a partition reads is what the client's memory held when it made the
    call; what it writes stays inside its vector; and completion writes the
    client's memory only where the port allowed it. *)

From Stdlib Require Import ZArith Lia.
From stdpp Require Import base list numbers option sets.
From S2P Require Import Prelude Buffers CState Manifest Ipc FfmTypes FfmCore FfmClient FfmService FfmWf FfmQueue FfmSlots FfmServiceWf FfmClientWf FfmTerm FfmSteps FfmExample.

(** ** Open vectors *)

(** Progress of a taken request keeps its handle valid. *)
Lemma open_vector_put w pid h idx vectors i m m' :
  open_vector (rt w) pid h idx vectors i m → same_request m m' → m_active m' = m_active m →
  vectors m' = vectors m → open_vector (rt (put_msg i m' w)) pid h idx vectors i m'.
Proof.
  intros [Hh Hs Ht Hi] Hsame Hact Hv. split; [|by eapply put_msg_slot|by rewrite (sr_type _ _ Hsame)|by rewrite Hv].
  unfold wt_ffm_message_from_handle in *. destruct (wt_ffm_decode_handle h _ _) as [e|[j g]]; [done|].
  assert (j = i) as ->.
  { destruct (r_messages (rt w) !! j); [|done]. simpl in Hh. destruct (_ || _); [done|].
    destruct (r_services (rt w) !! _) as [sv|]; [|done]. simpl in Hh.
    destruct (r_partitions (rt w) !! _) as [p|]; [|done]. simpl in Hh. destruct (p_manifest p); [|done]. simpl in Hh.
    destruct (negb _); [done|]. by injection Hh. }
  rewrite (put_msg_slot i m m' w Hs). rewrite Hs in Hh. simpl in *.
  rewrite Hact, (sr_generation _ _ Hsame), (same_allocated _ _ (sr_slot _ _ Hsame)),
    (same_service _ _ (sr_slot _ _ Hsame)). exact Hh.
Qed.

(** Two open vectors for the same handle are of the same request. *)
Lemma open_vector_same rt pid h idx vectors i m i' m' :
  open_vector rt pid h idx vectors i m → open_vector rt pid h idx vectors i' m' → i' = i ∧ m' = m.
Proof. intros [Hh Hs _ _] [Hh' Hs' _ _]. rewrite Hh in Hh'. injection Hh' as <-. rewrite Hs in Hs'. by injection Hs' as <-. Qed.

Lemma read_open pid h idx n w i m sz off p :
  wf (rt w) → 0 ≤ n → open_vector (rt w) pid h idx m_in_count i m →
  m_in_size m !! idx = Some sz → m_in_offset m !! idx = Some off → m_in_position m !! idx = Some p →
  fwp (wt_ffm_read pid h idx true n) (λ r w', ∃ bytes, r = (Z.min n (sz - p), bytes) ∧
    buf_read (m_input m) (off + p) (Z.min n (sz - p)) = Some bytes ∧
    w' = put_msg i (m <| m_in_position := <[idx := p + Z.min n (sz - p)]> (m_in_position m) |>) w) w.
Proof.
  intros Hinv Hn Hop Hsz Hoff Hp. apply read_spec; [done..| |].
  - intros [?|Hno]; [done|]. by destruct (Hno i m).
  - intros i' m' sz' off' p' bytes Hop' _ _ Hsz' Hoff' Hp' Hb.
    destruct (open_vector_same _ _ _ _ _ _ _ _ _ Hop Hop') as [-> ->]. simplify_eq. by exists bytes.
Qed.

(** Reading in pieces. Reads of an input vector never pass its end and
    continue where the previous one stopped: two reads of [n1] and [n2] bytes
    return together exactly the next [min (n1 + n2) remaining] bytes of the
    vector's slice of the captured input. *)
Theorem reads_concatenate pid h idx n1 n2 w i m sz off p :
  wf (rt w) → 0 ≤ n1 → 0 ≤ n2 → open_vector (rt w) pid h idx m_in_count i m →
  m_in_size m !! idx = Some sz → m_in_offset m !! idx = Some off → m_in_position m !! idx = Some p →
  fwp (wt_ffm_read pid h idx true n1) (λ r1 w1,
    fwp (wt_ffm_read pid h idx true n2) (λ r2 w2,
      r1.1 + r2.1 = Z.min (n1 + n2) (sz - p) ∧
      buf_read (m_input m) (off + p) (r1.1 + r2.1) = Some (r1.2 ++ r2.2)) w1) w.
Proof.
  intros Hinv Hn1 Hn2 Hop Hsz Hoff Hp. pose proof (read_keeps 0 pid h idx true n1 w Hinv Hn1) as Hk.
  pose proof (read_open pid h idx n1 w i m sz off p Hinv Hn1 Hop Hsz Hoff Hp) as Hr.
  eapply fwp_mono; [apply (fwp_conj _ _ _ _ Hk Hr)|]. clear Hk Hr.
  intros r1 w1 [[Hinv1 _] (b1 & -> & Hb1 & ->)]. set (l1 := Z.min n1 (sz - p)) in *.
  pose proof (inv_msg _ _ _ Hinv i m (op_slot _ _ _ _ _ _ _ Hop)) as Hok.
  pose proof (vec_bounds _ _ _ _ (msg_in _ _ Hok) idx sz off p (op_index _ _ _ _ _ _ _ Hop) Hsz Hoff Hp) as Hbd.
  eapply fwp_mono; [eapply (read_open pid h idx n2 _ i (m <| m_in_position := _ |>) sz off (p + l1)); [done|done| |done|done|]|].
  - eapply open_vector_put; [done|by constructor|done..].
  - simpl. apply list_lookup_insert_eq. by eapply lookup_lt_Some.
  - intros r2 w2 (b2 & -> & Hb2 & _). simpl in *. replace (off + (p + l1)) with (off + p + l1) in Hb2 by lia.
    rewrite (buf_read_app _ _ _ _ _ _ Hb1 Hb2). split; [lia|done].
Qed.

(** The vault reads its six input bytes in two pieces. *)
Lemma reads_concatenate_witness :
  fwp (wt_ffm_read 3 321 0 true 4) (λ r1 w1,
    fwp (wt_ffm_read 3 321 0 true 4) (λ r2 w2, r1.1 + r2.1 = 6 ∧
      buf_read (m_input (FfmExample.msg0 FfmExample.call_taken)) 0 (r1.1 + r2.1) = Some (r1.2 ++ r2.2)) w1)
    FfmExample.call_taken.
Proof.
  pose proof (FfmExample.reachable_example_wf _ FfmExample.call_taken_reachable) as Hwf.
  destruct FfmExample.call_taken_vectors as (Hsz & Hoff & Hp).
  exact (reads_concatenate 3 321 0 4 4 FfmExample.call_taken 0 (FfmExample.msg0 FfmExample.call_taken) 6 0 0 Hwf
    ltac:(lia) ltac:(lia) FfmExample.call_taken_input Hsz Hoff Hp).
Defined.

(** ** From the client's memory to the service *)

Lemma prepared_next mem in_vec out_vec m0 m n :
  prepared mem in_vec out_vec m0 m → prepared mem in_vec out_vec (m0 <| m_next := n |>) (m <| m_next := n |>).
Proof. intros [[] ? ? _ ? ? ? ? ? ?]. by constructor. Qed.

Section capture.
Context `{PortOps}.

Lemma call_begin_spec caller handle type in_vec out_vec w :
  wf (rt w) → no_request (rt w) caller → Forall invec_typed (items in_vec) → Forall outvec_typed (items out_vec) →
  fwp (wt_ffm_call_begin caller handle type in_vec out_vec) (λ r w',
    memory w' = memory w ∧
    match r.2 with
    | Some i => r.1 = PSA_SUCCESS ∧ 0 ≤ type ∧ ∃ m, r_messages (rt w') !! i = Some m ∧ live caller m ∧
        pending m = true ∧ m_type m = type ∧ ∃ m0, prepared (memory w) in_vec out_vec m0 m
    | None => r.1 < 0
    end) w.
Proof.
  intros Hinv Hno Hin Hout. apply fwp_fn, wp_bind, wp_call. apply call_enqueue_spec; [done..| |].
  - intros e w' He _ _ Hmem. by apply wp_early.
  - intros k i m0 m n c w' _ _ Hmem [Hs Hl Hp Ht _ _] Hprep _ _ Hty _ _ _. apply wp_ret. simpl.
    split_and!; [done..|]. eexists. split_and!; [done..|].
    eexists. by eapply prepared_next.
Qed.

(** C25: No time-of-check to time-of-use. The bytes a partition reads from a
    call are those the client's memory held when the call was made, whatever
    the client writes there afterwards: once the partition has taken the
    request, a read that asks for at least the length of an input vector
    returns exactly that vector's bytes of the memory at the call. *)
Theorem call_input_delivered caller handle type in_vec out_vec w w1 i :
  wf (rt w) → no_request (rt w) caller → Forall invec_typed (items in_vec) → Forall outvec_typed (items out_vec) →
  wt_ffm_call_begin caller handle type in_vec out_vec w = Some (w1, (PSA_SUCCESS, Some i)) →
  ∀ m w2 pid h j v n, r_messages (rt w1) !! i = Some m → wf (rt w2) →
    r_messages (rt w2) !! i = Some (m <| m_next := None |> <| m_active := true |>) →
    wt_ffm_message_from_handle (rt w2) pid h = Some (inr i) →
    items in_vec !! j = Some v → iv_len v ≤ n →
    fwp (wt_ffm_read pid h j true n)
      (λ r _, r = (iv_len v, mem_read (memory w) (iv_base v) (iv_len v))) w2.
Proof.
  intros Hinv Hno Hin Hout Hrun m w2 pid h j v n Hm Hinv2 Hm2 Hh Hv Hle.
  pose proof (call_begin_spec caller handle type in_vec out_vec w Hinv Hno Hin Hout) as Hspec.
  eapply fwp_elim in Hspec; [|done]. destruct Hspec as (_ & _ & Hty & m' & Hm' & _ & _ & Htype & m0 & Hprep).
  rewrite Hm in Hm'. injection Hm' as <-. destruct (pr_in _ _ _ _ _ Hprep j v Hv) as (o & Ho & Hs & Hp & Hb).
  assert (0 ≤ iv_len v) as Hlen by by eapply (proj1 (list.Forall_forall _ _) Hin v), list_elem_of_lookup_2.
  eapply fwp_mono; [eapply (read_open pid h j n w2 i (m <| m_next := None |> <| m_active := true |>) (iv_len v) o 0); [done|lia| |exact Hs|exact Ho|exact Hp]|].
  - split; [done..| |]; simpl; [by rewrite Htype|]. rewrite (proj1 (pr_counts _ _ _ _ _ Hprep)).
    rewrite <-(proj1 (pr_lengths _ _ _ _ _ Hprep)). by eapply lookup_lt_Some.
  - intros r w' (bytes & -> & Hb' & _). simpl in Hb'. rewrite Z.sub_0_r, Z.add_0_r in *.
    rewrite Z.min_r in * by done. rewrite Hb in Hb'. by injection Hb' as <-.
Qed.
End capture.

Lemma call_input_delivered_witness :
  fwp (wt_ffm_read 3 321 0 true 6) (λ r _, r = (6, [0; 1; 2; 3; 4; 5])) FfmExample.call_taken.
Proof.
  pose proof (FfmExample.reachable_example_wf _ FfmExample.connected_reachable) as Hwf.
  pose proof (FfmExample.reachable_example_wf _ FfmExample.call_taken_reachable) as Hwf2.
  pose proof (call_input_delivered 1 FfmExample.connection_handle 7 FfmExample.in_vec FfmExample.out_vec
    FfmExample.connected FfmExample.calling 0 Hwf FfmExample.connected_waits FfmExample.in_vec_typed
    FfmExample.out_vec_typed FfmExample.calling_run (FfmExample.msg0 FfmExample.calling) FfmExample.call_taken 3 321 0
    {| iv_base := 0x30002000; iv_len := 6 |} 6 FfmExample.calling_msg0 Hwf2 FfmExample.call_taken_calling
    (op_handle _ _ _ _ _ _ _ FfmExample.call_taken_input) eq_refl ltac:(simpl; lia)) as Hread.
  eapply fwp_mono; [exact Hread|]. intros r w Hr. rewrite Hr. simpl iv_len. simpl iv_base.
  rewrite FfmExample.connected_memory. reflexivity.
Defined.

(** ** From the service to the message *)

(** Writing. A write to an output vector either fits in what remains of
    the vector, and then appends its bytes to those already written and leaves
    every other byte of the output buffer as it was, or it is refused with
    [WT_FFM_ERROR_BUFFER] and nothing changes. *)
Theorem write_appends pid h idx bytes w i m sz off p old :
  wf (rt w) → open_vector (rt w) pid h idx m_out_count i m →
  m_out_size m !! idx = Some sz → m_out_offset m !! idx = Some off → m_out_position m !! idx = Some p →
  buf_read (m_output m) off p = Some old →
  fwp (wt_ffm_write pid h idx (Arr bytes)) (λ r w',
    if bool_decide (Z.of_nat (length bytes) ≤ sz - p) then
      r = WT_FFM_SUCCESS ∧ ∃ m', r_messages (rt w') !! i = Some m' ∧
        m_out_position m' = <[idx := p + Z.of_nat (length bytes)]> (m_out_position m) ∧
        buf_read (m_output m') off (p + Z.of_nat (length bytes)) = Some (old ++ bytes) ∧
        ∀ j, (j < Z.to_nat (off + p) ∨ Z.to_nat (off + p) + length bytes ≤ j)%nat → m_output m' !! j = m_output m !! j
    else r = WT_FFM_ERROR_BUFFER ∧ w' = w) w.
Proof.
  intros Hinv Hop Hsz Hoff Hp Hold. pose proof (inv_msg _ _ _ Hinv i m (op_slot _ _ _ _ _ _ _ Hop)) as Hok.
  pose proof (vec_bounds _ _ _ _ (msg_out _ _ Hok) idx sz off p (op_index _ _ _ _ _ _ _ Hop) Hsz Hoff Hp) as Hbd.
  apply write_spec; [done|..].
  - intros e _ [[? _]|Hno]; [done|]. by destruct (Hno i m).
  - intros i' m' sz' p' Hop' Hsz' Hp' Hbig. destruct (open_vector_same _ _ _ _ _ _ _ _ _ Hop Hop') as [-> ->].
    simplify_eq. simpl in Hbig. by rewrite bool_decide_false by lia.
  - intros i' m' sz' off' p' b Hop' _ _ Hsz' Hoff' Hp' Hfit Hb _.
    destruct (open_vector_same _ _ _ _ _ _ _ _ _ Hop Hop') as [-> ->]. simplify_eq. simpl in Hfit, Hb.
    rewrite bool_decide_true by done. split; [done|]. eexists.
    split_and!; [by eapply put_msg_slot, Hop|done|eapply buf_write_append; [lia|done..]|].
    intros j Hj. eapply buf_write_other; [done|lia].
Qed.

Lemma write_appends_witness :
  fwp (wt_ffm_write 3 321 0 (Arr [1; 2; 3])) (λ r w', r = WT_FFM_SUCCESS) FfmExample.call_taken ∧
  fwp (wt_ffm_write 3 321 0 (Arr (zeros 9))) (λ r w', r = WT_FFM_ERROR_BUFFER) FfmExample.call_taken.
Proof.
  pose proof (FfmExample.reachable_example_wf _ FfmExample.call_taken_reachable) as Hwf.
  destruct FfmExample.call_taken_outputs as (Hsz & Hoff & Hp).
  assert (buf_read (m_output (FfmExample.msg0 FfmExample.call_taken)) 0 0 = Some []) as Hb
    by (vm_compute; reflexivity).
  split.
  - eapply fwp_mono; [exact (write_appends 3 321 0 [1; 2; 3] FfmExample.call_taken 0 _ 8 0 0 []
      Hwf FfmExample.call_taken_output Hsz Hoff Hp Hb)|]. intros r w' Hr. exact (proj1 Hr).
  - eapply fwp_mono; [exact (write_appends 3 321 0 (zeros 9) FfmExample.call_taken 0 _ 8 0 0 []
      Hwf FfmExample.call_taken_output Hsz Hoff Hp Hb)|]. intros r w' Hr. exact (proj1 Hr).
Defined.

(** ** From the message to the client's memory *)

(** The bytes [a .. a + n) of the client's memory. *)
Definition within (base n a : Z) : Prop := base ≤ a < base + n.

Lemma mem_write_other mem base bytes a :
  ¬ within base (Z.of_nat (length bytes)) a → mem_write mem base bytes a = mem a.
Proof.
  intros Hn. unfold mem_write, within in *.
  destruct (Z.leb_spec base a), (Z.ltb_spec a (base + Z.of_nat (length bytes))); simpl; [lia|done..].
Qed.

Lemma mem_write_at mem base bytes i b : bytes !! i = Some b → mem_write mem base bytes (base + Z.of_nat i) = b.
Proof.
  intros Hi. pose proof (lookup_lt_Some _ _ _ Hi). unfold mem_write.
  destruct (Z.leb_spec base (base + Z.of_nat i)); [|lia].
  destruct (Z.ltb_spec (base + Z.of_nat i) (base + Z.of_nat (length bytes))); [|lia]. simpl.
  replace (Z.to_nat (base + Z.of_nat i - base)) with i by lia. by rewrite Hi.
Qed.

(** The copy of one vector. *)
Lemma publish_cons strict m i l mem vs mem' vs' :
  publish strict m (i :: l) mem vs = Some (mem', vs') →
  ∃ n mem1 vs1, m_out_position m !! i = Some n ∧ publish strict m l mem1 vs1 = Some (mem', vs') ∧
    (mem1 = mem ∧ n = 0 ∨ ∃ dest off bytes, output m i dest n ∧ m_out_offset m !! i = Some off ∧
      buf_read (m_output m) off n = Some bytes ∧ mem1 = mem_write mem dest bytes) ∧
    (vs1 = <[i := (λ v, v <| ov_len := n |>) (default {| ov_base := 0; ov_len := 0 |} (vs !! i))]> vs).
Proof.
  unfold output. simpl. unfold arr_get. destruct (m_out_position m !! i) as [n|] eqn:Hn; [|done]. simpl.
  intros Hp. destruct (if n =? 0 then _ else _) as [mem1|] eqn:Hmem; [|done]. simpl in Hp.
  destruct (match vs !! i with Some v => _ | None => _ end) as [vs1|] eqn:Hvs; [|done]. simpl in Hp.
  exists n, mem1, vs1. split_and!; [done|done| |].
  - destruct (Z.eqb_spec n 0); [left; by injection Hmem as <-|right].
    destruct (m_client_output m !! i) as [dest|]; [|done]. simpl in Hmem.
    destruct (m_out_offset m !! i) as [off|]; [|done]. simpl in Hmem.
    destruct (buf_read (m_output m) off n) as [bytes|] eqn:Hb; [|done]. simpl in Hmem. injection Hmem as <-.
    by exists dest, off, bytes.
  - destruct (vs !! i) as [v|] eqn:Hv; [by injection Hvs as <-|]. destruct strict; [done|]. injection Hvs as <-.
    symmetry. apply list_insert_ge. by apply lookup_ge_None.
Qed.

(** Memory changes only inside the vectors. *)
Lemma publish_change strict m l mem vs mem' vs' a :
  publish strict m l mem vs = Some (mem', vs') →
  mem' a = mem a ∨ ∃ j dest n, j ∈ l ∧ output m j dest n ∧ within dest n a.
Proof.
  revert mem vs. induction l as [|i l IH]; intros mem vs Hp; [left; by injection Hp as <- _|].
  apply publish_cons in Hp as (n & mem1 & vs1 & _ & Hp & Hmem & _).
  destruct (IH _ _ Hp) as [->|(j & d & k & Hj & ?)]; [|right; exists j, d, k; split; [by right|done]].
  destruct Hmem as [[-> _]|(dest & off & bytes & Ho & _ & Hb & ->)]; [by left|].
  apply buf_read_length in Hb as [Hb _]. destruct (decide (dest ≤ a < dest + n)) as [Hin|Hout].
  - right. exists i, dest, n. split; [by left|done].
  - left. apply mem_write_other. by rewrite Hb.
Qed.

Lemma publish_frame strict m l mem vs mem' vs' a :
  publish strict m l mem vs = Some (mem', vs') →
  (∀ j dest n, j ∈ l → output m j dest n → ¬ within dest n a) → mem' a = mem a.
Proof.
  intros Hp Hout. destruct (publish_change _ _ _ _ _ _ _ a Hp) as [?|(j & d & n & Hj & Ho & Hw)]; [done|].
  by destruct (Hout j d n Hj Ho).
Qed.

(** Each byte of a vector that no later vector overlaps is the one written
    for it: where vectors overlap, the last one published stands. *)
Lemma publish_bytes strict m a k mem vs mem' vs' j dest n off bytes i b :
  publish strict m (seq a k) mem vs = Some (mem', vs') → (a ≤ j < a + k)%nat →
  output m j dest n → m_out_offset m !! j = Some off → buf_read (m_output m) off n = Some bytes →
  bytes !! i = Some b →
  (∀ j' d' n', (j < j' < a + k)%nat → output m j' d' n' → ¬ within d' n' (dest + Z.of_nat i)) →
  mem' (dest + Z.of_nat i) = b.
Proof.
  intros Hp Hj Ho Hoff Hb Hi Hlater. revert a mem vs Hp Hj Hlater.
  induction k as [|k IH]; intros a mem vs Hp Hj Hlater; [lia|]. simpl in Hp.
  apply publish_cons in Hp as (n' & mem1 & vs1 & Hn' & Hp & Hmem & _). destruct (decide (j = a)) as [->|Hne].
  - assert (n' = n) as -> by (destruct Ho; congruence). pose proof (buf_read_length _ _ _ _ Hb) as [Hlen _].
    rewrite (publish_frame _ _ _ _ _ _ _ _ Hp).
    + pose proof (lookup_lt_Some _ _ _ Hi). destruct Hmem as [[_ ->]|(d & o & b' & [Hd _] & Hoff' & Hb' & ->)]; [lia|].
      destruct Ho as [Hd' _]. simplify_eq. by apply mem_write_at.
    + intros j' d' k' Hj' Ho'. apply elem_of_seq in Hj'. eapply Hlater; [|done]. lia.
  - eapply IH; [exact Hp|lia|]. intros j' d' k' Hj'. apply Hlater. lia.
Qed.

(** Each vector's length becomes what was written for it. *)
Lemma publish_lengths strict m l mem vs mem' vs' j n :
  publish strict m l mem vs = Some (mem', vs') → NoDup l → m_out_position m !! j = Some n →
  vs' !! j = (if decide (j ∈ l) then (λ v, v <| ov_len := n |>) <$> vs !! j else vs !! j).
Proof.
  intros Hp Hnd Hn. revert mem vs Hp. induction l as [|i l IH]; intros mem vs Hp.
  { injection Hp as _ <-. destruct (decide (j ∈ [])) as [?%not_elem_of_nil|]; done. }
  apply NoDup_cons in Hnd as [Hni Hnd]. apply publish_cons in Hp as (n' & mem1 & vs1 & Hn' & Hp & _ & ->).
  rewrite (IH Hnd _ _ Hp). destruct (decide (j = i)) as [->|Hne].
  - rewrite (decide_False (P := i ∈ l)), (decide_True (P := i ∈ i :: l)) by (done || by left).
    assert (n' = n) as -> by congruence. destruct (vs !! i) as [v|] eqn:Hv; simpl.
    + rewrite list_lookup_insert_eq; [done|]. by eapply lookup_lt_Some.
    + rewrite list_insert_ge; [done|]. by apply lookup_ge_None.
  - rewrite list_lookup_insert_ne by done.
    assert (j ∈ i :: l ↔ j ∈ l) as Hiff by (rewrite elem_of_cons; tauto). by rewrite (decide_ext _ _ _ _ Hiff).
Qed.

Section finish.
Context `{PortOps}.

(** Every destination was writable when none was refused. *)
Lemma output_accepted port m j dest n :
  output_refused port m = Some false → (j < m_out_count m)%nat → output m j dest n → n ≠ 0 →
  check_write port (m_caller m) dest n = true.
Proof.
  unfold output_refused. intros Hr Hj [Hd Hn] Hne.
  destruct (search _ _) as [r|] eqn:Hs; [|done]. simpl in Hr. destruct r as [i|]; [done|]. clear Hr.
  assert (∀ l, search l (λ i, position ← arr_get (m_out_position m) i; dest ← arr_get (m_client_output m) i;
      Some (negb (position =? 0) && negb (check_write port (m_caller m) dest position))) = Some None → j ∈ l →
    check_write port (m_caller m) dest n = true) as Hgen; [|by eapply (Hgen _ Hs), elem_of_seq; lia].
  clear Hs. induction l as [|i l IH]; simpl; intros Hs Hin; [by apply not_elem_of_nil in Hin|].
  destruct (arr_get (m_out_position m) i) as [n'|] eqn:Hn'; [|done]. simpl in Hs.
  destruct (arr_get (m_client_output m) i) as [d'|] eqn:Hd'; [|done]. simpl in Hs.
  destruct (negb (n' =? 0) && negb (check_write port (m_caller m) d' n')) eqn:Hc; [done|].
  apply elem_of_cons in Hin as [->|Hin]; [|by apply IH]. unfold arr_get in *. simplify_eq.
  apply andb_false_iff in Hc as [Hc%negb_false_iff|Hc%negb_false_iff]; bool_hyps; congruence.
Qed.

(** Where completing a call writes. *)
Lemma call_finish_changes i m out_vec w :
  wf (rt w) → finished (rt w) i m →
  fwp (wt_ffm_call_finish i out_vec) (λ _ w', ∀ a,
    memory w' a = memory w a ∨ ∃ j dest n, (j < m_out_count m)%nat ∧ output m j dest n ∧ within dest n a ∧
      check_write (port w) (m_caller m) dest n = true) w.
Proof.
  intros Hinv (Hm & Hal & Hc). apply fwp_fn, wp_if; intros Hi; [by apply wp_early; left|].
  apply wp_bind. eapply wp_get_msg; [done|]. apply wp_call.
  eapply publish_outputs_spec; [done..| |]; [intros w' _ -> _ _; by left|].
  intros mem' vs' Hacc Hp w' _ _ a. simpl.
  destruct (publish_change _ _ _ _ _ _ _ a Hp) as [->|(j & d & n & Hj & Ho & Hw)]; [by left|right].
  apply elem_of_seq in Hj. exists j, d, n. split_and!; [lia|done|done|].
  apply (output_accepted _ _ j); [done|lia|done|]. unfold within in Hw. lia.
Qed.

(** Confinement of completion. Completing a call changes the memory only
    inside the client's output vectors, no further than what the service
    wrote, and only where the port allowed that client to write that range. *)
Theorem call_finish_confined i m out_vec w :
  wf (rt w) → finished (rt w) i m →
  fwp (wt_ffm_call_finish i out_vec) (λ _ w', ∀ a,
    memory w' a = memory w a ∨ ∃ j dest n, (j < m_out_count m)%nat ∧ output m j dest n ∧ within dest n a ∧
      check_write (port w) (m_caller m) dest n = true) w.
Proof. apply call_finish_changes. Qed.

(** C26: Completion is all or nothing. If one destination is no longer
    writable the client gets [PSA_ERROR_PROGRAMMER_ERROR] and no byte of memory
    changes; otherwise it gets the service's status, each output vector's
    length is the number of bytes the service wrote for it, each of these bytes
    is in its place unless a later vector of the same call overlaps it (the
    vectors are the client's choice and may overlap: the last one stands), and
    memory outside the vectors is unchanged. *)
Theorem call_finish_atomic i m out_vec w :
  wf (rt w) → finished (rt w) i m →
  fwp (wt_ffm_call_finish i out_vec) (λ r w', ∃ refused, output_refused (port w) m = Some refused ∧
    if refused then r = (PSA_ERROR_PROGRAMMER_ERROR, out_vec) ∧ memory w' = memory w
    else r.1 = m_reply_status m ∧
      (∀ j dest n off bytes, (j < m_out_count m)%nat → output m j dest n → m_out_offset m !! j = Some off →
        buf_read (m_output m) off n = Some bytes →
        items r.2 !! j = (λ v, v <| ov_len := n |>) <$> items out_vec !! j ∧
        ∀ k b, bytes !! k = Some b →
          (∀ j' d' n', (j < j' < m_out_count m)%nat → output m j' d' n' → ¬ within d' n' (dest + Z.of_nat k)) →
          memory w' (dest + Z.of_nat k) = b) ∧
      (∀ a, (∀ j dest n, (j < m_out_count m)%nat → output m j dest n → ¬ within dest n a) →
        memory w' a = memory w a)) w.
Proof.
  intros Hinv (Hm & Hal & Hc). apply fwp_fn, wp_if; intros Hi.
  { by rewrite (index_guard _ _ _ _ _ Hinv Hm) in Hi. }
  apply wp_bind. eapply wp_get_msg; [done|]. apply wp_call.
  eapply publish_outputs_spec; [done..| |].
  - intros w' Hr Hmem _ _. by exists true.
  - intros mem' vs' Hr Hp w' _ _. exists false. split_and!; [done|done| |].
    + intros j dest n off bytes Hj Ho Hoff Hb. split; [|intros k b Hk Hl; eapply (publish_bytes _ _ 0 (m_out_count m) _ _ _ _ j); [exact Hp|lia|exact Ho|done..]].
      pose proof (publish_lengths _ _ _ _ _ _ _ j n Hp (NoDup_seq _ _) (proj2 Ho)) as Hl.
      rewrite decide_True in Hl by (apply elem_of_seq; lia). by destruct out_vec.
    + intros a Hout. eapply publish_frame; [exact Hp|]. intros j d n [_ Hj]%elem_of_seq. by apply Hout.
Qed.
End finish.

#[local] Existing Instance FfmExample.port_ops.

(** The call of the scenario, answered with three output bytes. *)
Lemma call_finish_confined_witness :
  fwp (wt_ffm_call_finish 0 FfmExample.out_vec) (λ _ w', memory w' 0x300020FF = 255) FfmExample.call_answered.
Proof.
  pose proof (FfmExample.reachable_example_wf _ FfmExample.call_answered_reachable) as Hwf.
  eapply fwp_mono; [exact (call_finish_confined 0 (FfmExample.msg0 FfmExample.call_answered) FfmExample.out_vec
    FfmExample.call_answered Hwf FfmExample.call_answered_finished)|].
  intros r w' Hconf. destruct (Hconf 0x300020FF) as [->|(j & dest & n & Hj & Ho & Hw & _)].
  - exact FfmExample.call_answered_memory.
  - destruct (FfmExample.call_answered_output j dest n Hj Ho) as [-> ->]. unfold within in Hw. lia.
Defined.

Lemma call_finish_atomic_witness :
  fwp (wt_ffm_call_finish 0 FfmExample.out_vec)
    (λ r w', r.1 = 9 ∧ memory w' 0x30002100 = 1 ∧ memory w' 0x30002102 = 3 ∧ memory w' 0x30002103 = memory FfmExample.call_answered 0x30002103)
    FfmExample.call_answered.
Proof.
  pose proof (FfmExample.reachable_example_wf _ FfmExample.call_answered_reachable) as Hwf.
  eapply fwp_mono; [exact (call_finish_atomic 0 (FfmExample.msg0 FfmExample.call_answered) FfmExample.out_vec
    FfmExample.call_answered Hwf FfmExample.call_answered_finished)|].
  intros r w' (refused & Href & H). assert (refused = false) as ->.
  { assert (output_refused (port FfmExample.call_answered) (FfmExample.msg0 FfmExample.call_answered) = Some false) as E
      by (vm_compute; reflexivity). rewrite E in Href. by injection Href as <-. }
  destruct H as (Hs & Hout & Hrest). split; [rewrite Hs; vm_compute; reflexivity|].
  assert (m_out_count (FfmExample.msg0 FfmExample.call_answered) = 1%nat) as Hc by (vm_compute; reflexivity).
  destruct (Hout 0%nat 0x30002100 3 0 [1; 2; 3]) as [_ Hb]; [vm_compute; lia|vm_compute; split; reflexivity|vm_compute; reflexivity..|].
  split_and!.
  - apply (Hb 0%nat 1); [done|]. lia.
  - apply (Hb 2%nat 3); [done|]. lia.
  - apply Hrest. intros j dest n Hj Ho Hw. destruct (FfmExample.call_answered_output j dest n Hj Ho) as [-> ->].
    unfold within in Hw. lia.
Defined.
