(* ===== verification/FfmProps.v ===== *)
(** * Properties of the FF-M runtime

    The invariant of every reachable state and what follows from it, the
    queues as FIFOs, admission of clients, replies, and what termination and
    restart leave behind. *)

From Stdlib Require Import ZArith Lia.
From stdpp Require Import base list numbers option sets relations.
From S2P Require Import Prelude Buffers CState Domain Manifest Ipc FfmTypes FfmCore FfmClient FfmService FfmWf FfmQueue FfmSlots FfmServiceWf FfmClientWf FfmTerm FfmInit FfmSteps FfmExample FfmHandles.

Local Arguments Nat.leb : simpl never.

(** ** Reachable states *)

Section reachable_states.
Context `{PortOps} (manifest : wt_system_manifest) (features : Z) (platform : option wt_profile_capabilities).
Hypothesis Haccepted : wt_manifest_validate (Some manifest) features platform = Some WT_MANIFEST_VALID.
Hypothesis Htyped : signals_typed manifest.
Hypothesis Hdispatch : ∀ c, c < 0 → Dispatched c.

(** C1: The runtime invariant. From initialisation with an accepted manifest,
    every sequence of permitted operations and synchronous Non-secure calls,
    whatever the dispatched partitions do, keeps the runtime well-formed:
    every allocated request is attached to one allocated connection of its
    client and service and is the only one on it, each service queue is a
    duplicate-free list of exactly the pending requests of the service,
    service signals mirror the queues, vectors lie inside the transfer
    buffers, and the connection quotas hold. *)
Theorem reachable_invariant w : reachable manifest w → wf (rt w).
Proof. by eapply reachable_wf_lemma. Qed.

(** C2: Absence of undefined behaviour. In a reachable state every permitted
    operation, and every synchronous connect, call and close of a Non-secure
    client that waits for nothing, runs to completion without an
    out-of-bounds array or buffer access or a null dereference. *)
Theorem reachable_defined w :
  reachable manifest w →
  (∀ o, permitted None o w → is_Some (exec o w)) ∧
  (∀ c sid v, c < 0 → is_Some (wt_ffm_connect c sid v w)) ∧
  (∀ c h type iv ov, c < 0 → no_request (rt w) c → Forall invec_typed (items iv) → Forall outvec_typed (items ov) →
     is_Some (wt_ffm_call c h type iv ov w)) ∧
  (∀ c h, c < 0 → no_request (rt w) c → is_Some (wt_ffm_close c h w)).
Proof.
  intros Hr. assert (wf (rt w)) as Hwf by by eapply reachable_wf_lemma.
  assert (∀ A (f : func world A) Q, fwp f Q w → is_Some (f w)) as Hsome.
  { intros A f Q (w' & a & Hf & _)%fwp_run. by exists (w', a). }
  split_and!.
  - intros o Hp. destruct (exec_guards None o w Hwf Hp) as (w' & He & _). by exists w'.
  - intros c sid v Hc. pose proof (Hdispatch c Hc). eapply Hsome, connect_wf; [apply _|done].
  - intros c h type iv ov Hc. pose proof (Hdispatch c Hc). intros. eapply Hsome, call_wf; [apply _|done..].
  - intros c h Hc. pose proof (Hdispatch c Hc). intros. eapply Hsome, close_wf; [apply _|done..].
Qed.

Lemma count_if_split {A} (f : A → bool) l : (count_if f l + count_if (negb ∘ f) l = length l)%nat.
Proof. unfold count_if. induction l as [|a l IH]; simpl; [done|]. destruct (f a); simpl; lia. Qed.

(** Quotas. In every reachable state a client holds at most
    [WT_FFM_MAX_CONNECTIONS_PER_CLIENT] connections and the Non-secure
    clients together leave at least [WT_FFM_SECURE_RESERVED_CONNECTIONS] slots
    of the pool to Secure Partitions. *)
Theorem reachable_quotas w :
  reachable manifest w →
  (∀ c, c ≠ 0 → (wt_ffm_client_connection_count (rt w) c ≤ WT_FFM_MAX_CONNECTIONS_PER_CLIENT)%nat) ∧
  (WT_FFM_SECURE_RESERVED_CONNECTIONS ≤ count_if (negb ∘ owned_by_ns) (r_connections (rt w)))%nat.
Proof.
  intros Hr. assert (wf (rt w)) as Hwf by by eapply reachable_wf_lemma.
  destruct (inv_quota _ _ _ Hwf) as [Hq Hns]. split; [exact Hq|].
  pose proof (count_if_split owned_by_ns (r_connections (rt w))) as Hs.
  rewrite (st_connections _ (inv_static _ _ _ Hwf)) in Hs.
  unfold WT_FFM_MAX_NS_CONNECTIONS, WT_FFM_SECURE_RESERVED_CONNECTIONS in *.
  change WT_FFM_MAX_CONNECTIONS with 16%nat in *. lia.
Qed.

(** One request per connection. In a reachable state two requests in
    progress never share a connection, and a connection with a request in
    progress is not idle, so no further call on it is accepted. *)
Theorem reachable_exclusive w :
  reachable manifest w →
  ∀ i m, r_messages (rt w) !! i = Some m → m_allocated m = true →
    (∀ j m', r_messages (rt w) !! j = Some m' → m_allocated m' = true →
       m_connection_index m' = m_connection_index m → j = i) ∧
    (m_complete m = false → ∀ caller h type iv ov, caller ≠ 0 →
       wt_ffm_connection_from_handle (rt w) caller h = Some (inr (m_connection_index m)) →
       fwp (wt_ffm_call_begin caller h type iv ov) (λ r _, r = (PSA_ERROR_PROGRAMMER_ERROR, None)) w).
Proof.
  intros Hr i m Hi Hal. assert (wf (rt w)) as Hwf by by eapply reachable_wf_lemma. split.
  - intros j m' Hj Hal' Heq. by eapply (inv_unique _ _ _ Hwf j i).
  - intros Hc caller h type iv ov Hne Hh.
    destruct (inv_attached _ _ _ Hwf i m Hi Hal ltac:(done)) as (c & Hk & _ & _ & _ & Hbusy).
    apply fwp_fn, wp_bind, wp_call, fwp_fn. destruct (Z.eqb_spec caller 0); [done|].
    apply wp_bind, wp_gets, wp_bind, wp_ret, wp_bind. eapply wp_defined; [done|].
    apply wp_if; intros _; [by apply wp_bind, wp_ret, wp_bind; eapply wp_mod_conn; [done|]; apply wp_early, wp_early|].
    apply wp_bind. eapply wp_get_conn; [done|]. rewrite bool_decide_false.
    + by apply wp_bind, wp_ret, wp_bind; eapply wp_mod_conn; [done|]; apply wp_early, wp_early.
    + apply Hbusy. unfold busy. rewrite Hc. by rewrite orb_true_r.
Qed.
End reachable_states.

#[local] Existing Instance FfmExample.port_ops.

Definition example_dispatched : ∀ c, c < 0 → Dispatched c := λ c _, FfmExample.dispatched c.
(** The invariant after the call of the scenario has been answered. *)
Lemma reachable_invariant_witness : wf (rt FfmExample.call_answered).
Proof. exact (reachable_invariant ManifestExample.manifest WT_MANIFEST_FEATURE_IPC (Some Domain.Example.caps)
    ManifestExample.manifest_valid FfmExample.manifest_signals_typed example_dispatched _ FfmExample.call_answered_reachable). Defined.

(** The call of the scenario can be completed, and a Non-secure client may connect. *)
Lemma reachable_defined_witness :
  is_Some (exec (OpCallFinish 0 FfmExample.out_vec) FfmExample.call_answered) ∧
  is_Some (wt_ffm_connect (-1) 0x60 1 FfmExample.call_answered).
Proof.
  destruct (reachable_defined ManifestExample.manifest WT_MANIFEST_FEATURE_IPC (Some Domain.Example.caps)
    ManifestExample.manifest_valid FfmExample.manifest_signals_typed example_dispatched _ FfmExample.call_answered_reachable) as (Hop & Hconn & _).
  split; [|apply Hconn; lia]. apply Hop. exists (FfmExample.msg0 FfmExample.call_answered).
  split; [exact FfmExample.call_answered_finished|discriminate].
Defined.

Lemma reachable_quotas_witness : (wt_ffm_client_connection_count (rt FfmExample.call_answered) 1 ≤ 8)%nat.
Proof. apply (reachable_quotas ManifestExample.manifest WT_MANIFEST_FEATURE_IPC (Some Domain.Example.caps)
    ManifestExample.manifest_valid FfmExample.manifest_signals_typed example_dispatched _ FfmExample.call_answered_reachable). lia. Defined.

(** While the storage partition's call is in progress, another one on the connection is refused. *)
Lemma reachable_exclusive_witness :
  fwp (wt_ffm_call_begin 1 FfmExample.connection_handle 7 FfmExample.in_vec FfmExample.out_vec)
    (λ r _, r = (PSA_ERROR_PROGRAMMER_ERROR, None)) FfmExample.call_taken.
Proof.
  destruct FfmExample.call_taken_active as (Hal & _).
  apply (reachable_exclusive ManifestExample.manifest WT_MANIFEST_FEATURE_IPC (Some Domain.Example.caps)
    ManifestExample.manifest_valid FfmExample.manifest_signals_typed example_dispatched _ FfmExample.call_taken_reachable 0%nat (FfmExample.msg0 FfmExample.call_taken)
    FfmExample.call_taken_msg0 Hal); [vm_compute; reflexivity|lia|vm_compute; reflexivity].
Defined.

(** ** Signals and queues *)

Lemma single_bit_land a s : single_bit s → a .& s = (if has_any a s then s else 0).
Proof.
  intros (j & Hj & ->). unfold has_any. destruct (Z.eqb_spec (a .& (1 .<< j)) 0) as [->|Hne]; [done|]. simpl.
  apply Z.bits_inj'. intros n Hn. rewrite Z.land_spec, Z.shiftl_1_l. rewrite Z.pow2_bits_eqb by lia.
  destruct (Z.eqb_spec j n) as [<-|]; [|by rewrite andb_false_r]. rewrite andb_true_r.
  destruct (Z.testbit a j) eqn:Hb; [done|]. exfalso. apply Hne. apply Z.bits_inj'. intros k Hk.
  rewrite Z.land_spec, Z.shiftl_1_l, Z.pow2_bits_eqb, Z.testbit_0_l by lia.
  destruct (Z.eqb_spec j k) as [<-|]; [by rewrite Hb|by rewrite andb_false_r].
Qed.

Lemma interrupts_mono (l : list wt_manifest_interrupt) (a j : Z) :
  Z.testbit a j = true → Z.testbit (foldl (λ set i, set .| mi_signal i) a l) j = true.
Proof. revert a. induction l as [|i l IH]; intros a Ha; simpl; [done|]. apply IH. by rewrite Z.lor_spec, Ha. Qed.

(** The services' part of a partition's signal set holds each of their signals. *)
Lemma services_signals x B rt k l a :
  inv x B rt → (∀ s, s ∈ l → (s < r_service_count rt)%nat) →
  ∃ b, foldl (λ acc i, set ← acc; s ← r_services rt !! i;
        if (s_partition_index s =? k)%nat then d ← s_descriptor s; Some (set .| sd_signal d)
        else Some set) (Some a) l = Some b ∧
    (∀ j, Z.testbit a j = true → Z.testbit b j = true) ∧
    (∀ s d j, s ∈ l → service_of rt s = Some (d, k) → Z.testbit (sd_signal d) j = true → Z.testbit b j = true).
Proof.
  intros Hinv. revert a. induction l as [|s l IH]; intros a Hl; simpl.
  { exists a. split_and!; [done..|]. by intros ? ? ? ?%not_elem_of_nil. }
  destruct (lookup_svc Hinv s) as (sv & d & _ & _ & Hsv & Hd & _); [apply Hl; by left|]. rewrite Hsv. simpl.
  rewrite Hd. simpl. assert (∀ t, t ∈ l → (t < r_service_count rt)%nat) as Hl' by (intros; apply Hl; by right).
  set (a' := if (s_partition_index sv =? k)%nat then a .| sd_signal d else a).
  destruct (IH a' Hl') as (b & Hb & Hmono & Hin). exists b. split_and!.
  - rewrite <-Hb. unfold a'. by destruct (_ =? _)%nat.
  - intros j Hj. apply Hmono. unfold a'. destruct (_ =? _)%nat; [|done]. by rewrite Z.lor_spec, Hj.
  - intros t d' j [->|Ht]%elem_of_cons Hof Hj; [|by eapply Hin]. apply Hmono. unfold a'.
    unfold service_of in Hof. rewrite Hsv in Hof. simpl in Hof. rewrite Hd in Hof. simpl in Hof.
    injection Hof as -> ->. rewrite Nat.eqb_refl, Z.lor_spec, Hj. by rewrite orb_true_r.
Qed.

(** A service's queue is empty exactly when no request waits for it. *)
Lemma queue_head_pending rt s sv :
  wf rt → (s < r_service_count rt)%nat → r_services rt !! s = Some sv →
  bool_decide (s_queue_head sv ≠ None) = true ↔
  ∃ i m, r_messages rt !! i = Some m ∧ pending m = true ∧ m_service_index m = s.
Proof.
  intros Hinv Hs Hsv. destruct (inv_queue _ _ _ Hinv s sv Hs Hsv ltac:(tauto)) as [[l Hq] _].
  rewrite bool_decide_eq_true. pose proof (queue_chain _ _ _ _ _ Hq) as Hc. split.
  - intros Hh. destruct l as [|i l]; [done|].
    destruct (proj1 (queue_members _ _ _ _ _ Hq i)) as (m & Hm & Hp & Hsi & _); [by left|]. eauto.
  - intros (i & m & Hm & Hp & Hsi). assert (i ∈ l) as Hi by (apply (queue_members _ _ _ _ _ Hq); by exists m).
    destruct l as [|i' l]; [by apply not_elem_of_nil in Hi|]. destruct Hc as [-> _]. done.
Qed.

(** A partition may wait for the signals of its services. *)
Lemma signal_in_set rt k s signal p :
  wf rt → service_for rt k signal s → r_partitions rt !! k = Some p → is_Some (p_manifest p) →
  single_bit signal ∧ ∃ set, wt_ffm_partition_signal_set rt k = Some set ∧ signal .& set ≠ 0.
Proof.
  intros Hinv (Hs & d & Hof & <-) Hp [pm Hpm].
  destruct (st_service _ (inv_static _ _ _ Hinv) s Hs) as (d' & k' & Hof' & _ & Hbit).
  rewrite Hof in Hof'. injection Hof' as <- <-. split; [done|].
  destruct (services_signals _ _ rt k (seq 0 (r_service_count rt)) PSA_DOORBELL Hinv) as (b & Hb & _ & Hin).
  { intros t ?%elem_of_seq. lia. }
  unfold wt_ffm_partition_signal_set. rewrite Hb. simpl. rewrite Hp. simpl. rewrite Hpm. simpl. eexists. split; [done|].
  destruct Hbit as (j & Hj & Hbj). intros Hz. apply (f_equal (λ z, Z.testbit z j)) in Hz.
  assert (Z.testbit (sd_signal d) j = true) as Ht by (rewrite Hbj, Z.shiftl_1_l; apply Z.pow2_bits_true; lia).
  rewrite Z.land_spec, Z.testbit_0_l, Ht, interrupts_mono in Hz; [done|].
  eapply (Hin s); [apply elem_of_seq; lia|done..].
Qed.

(** Waiting. A partition that waits for the signal of one of its services
    is told it is asserted exactly when some request waits in that service's
    queue, and [WT_FFM_ERROR_NOT_READY] otherwise. *)
Theorem wait_reports_pending rt pid k s signal :
  wf rt → wt_ffm_find_partition rt pid = Some (inr k) → service_for rt k signal s →
  ((∃ i m, r_messages rt !! i = Some m ∧ pending m = true ∧ m_service_index m = s) →
     wt_ffm_wait rt pid signal = Some (WT_FFM_SUCCESS, Some signal)) ∧
  ((∀ i m, r_messages rt !! i = Some m → pending m = true → m_service_index m ≠ s) →
     wt_ffm_wait rt pid signal = Some (WT_FFM_ERROR_NOT_READY, Some 0)).
Proof.
  intros Hinv Hk Hfor. pose proof (service_for_nonzero _ _ _ _ _ _ Hinv Hfor) as Hne.
  pose proof Hfor as (Hs & d & Hof & Hsig).
  destruct (lookup_svc Hinv s Hs) as (sv & d' & p & pm & Hsv & Hd & Hp & Hpm & _ & _).
  assert (d' = d ∧ s_partition_index sv = k) as [-> Hpk].
  { unfold service_of in Hof. rewrite Hsv in Hof. simpl in Hof. rewrite Hd in Hof. by injection Hof. }
  destruct (inv_queue _ _ _ Hinv s sv Hs Hsv ltac:(tauto)) as [_ Hsok].
  specialize (Hsok d p Hd Hp). rewrite Hsig in Hsok. rewrite Hpk in Hp.
  destruct (signal_in_set rt k s signal p Hinv Hfor Hp ltac:(done)) as (Hbit & set & Hset & Hmem).
  assert (wt_ffm_wait rt pid signal = Some (
    if bool_decide (s_queue_head sv ≠ None) then (WT_FFM_SUCCESS, Some signal) else (WT_FFM_ERROR_NOT_READY, Some 0))) as ->.
  { unfold wt_ffm_wait. rewrite (proj2 (Z.eqb_neq _ _) Hne), Hk. simpl. rewrite Hset. simpl.
    rewrite (proj2 (Z.eqb_neq _ _) Hmem), Hp. simpl. rewrite single_bit_land, Hsok by done.
    destruct (bool_decide _); [|done]. by rewrite (proj2 (Z.eqb_neq _ _) Hne). }
  pose proof (queue_head_pending rt s sv Hinv Hs Hsv) as Hiff. split.
  - intros Hex. by rewrite (proj2 Hiff Hex).
  - intros Hno. destruct (bool_decide _); [|done].
    destruct (proj1 Hiff eq_refl) as (i & m & Hm & Hpe & Hsi). by destruct (Hno i m Hm Hpe).
Qed.

(** The call of the scenario waits for the vault. *)
Lemma wait_reports_pending_witness :
  wt_ffm_wait (rt FfmExample.calling) 3 0x10 = Some (WT_FFM_SUCCESS, Some 0x10).
Proof.
  pose proof (FfmExample.reachable_example_wf _ FfmExample.calling_reachable) as Hwf.
  apply (wait_reports_pending _ 3 1 2 0x10 Hwf FfmExample.calling_partition FfmExample.calling_service).
  exists 0%nat, (FfmExample.msg0 FfmExample.calling). split; [exact FfmExample.calling_msg0|exact FfmExample.calling_pending].
Defined.

(** The partition a service signal is for serves it. *)
Lemma service_for_belongs rt pid k s signal :
  wf rt → wt_ffm_find_partition rt pid = Some (inr k) → service_for rt k signal s → belongs rt s pid.
Proof.
  intros Hinv Hk (Hs & d & Hof & _). destruct (find_partition_spec Hinv pid) as (r & Hr & Hspec).
  rewrite Hk in Hr. injection Hr as <-. destruct Hspec as (_ & _ & p & pm & Hp & Hpm & Hid).
  unfold belongs. rewrite Hof. simpl. unfold manifest_of. rewrite Hp. simpl. by rewrite Hpm.
Qed.

(** Receiving. For the signal of a service of the partition, [wt_ffm_get]
    takes exactly the oldest request of the service's queue, delivers its
    type, client, sizes and a handle the partition may use, and leaves the
    rest of the queue in order; with an empty queue it reports
    [PSA_ERROR_DOES_NOT_EXIST] and changes nothing. *)
Theorem get_takes_oldest pid signal k s l w :
  wf (rt w) → wt_ffm_find_partition (rt w) pid = Some (inr k) → service_for (rt w) k signal s →
  queue_of (rt w) None s l →
  fwp (wt_ffm_get pid signal) (λ r w',
    match l with
    | [] => r = (PSA_ERROR_DOES_NOT_EXIST, None) ∧ w' = w
    | i :: l' => ∃ m c, r_messages (rt w) !! i = Some m ∧ r_connections (rt w) !! m_connection_index m = Some c ∧
        r = (PSA_SUCCESS, Some (msg_view i m (c_rhandle c))) ∧ queue_of (rt w') None s l' ∧
        wt_ffm_message_from_handle (rt w') pid (pm_handle (msg_view i m (c_rhandle c))) = Some (inr i)
    end) w.
Proof.
  intros Hinv Hk Hfor Hq. apply get_spec; [done| |].
  - intros e [_ He]. destruct (He k s Hk Hfor) as [-> Hq']. destruct Hq as (sv & Hsv & Hq).
    destruct Hq' as (sv' & Hsv' & Hq'). rewrite Hsv in Hsv'. injection Hsv' as <-.
    by rewrite <-(queue_unique _ _ _ _ _ _ Hq Hq').
  - intros k' s' i l' m c w' Hk' Hfor' Hq' Hm Hc Hwf Hst Hql Hm' _.
    rewrite Hk in Hk'. injection Hk' as <-. rewrite (service_for_unique _ _ _ _ _ _ _ Hinv Hfor Hfor') in *.
    destruct Hq as (sv & Hsv & Hq). destruct Hq' as (sv' & Hsv' & Hq'). rewrite Hsv in Hsv'. injection Hsv' as <-.
    rewrite <-(queue_unique _ _ _ _ _ _ Hq Hq'). exists m, c. split_and!; [done..|].
    assert (i ∈ i :: l') as Hil by by left. apply (queue_members _ _ _ _ _ Hq') in Hil as (m0 & Hm0 & Hp & Hsi & _).
    rewrite Hm in Hm0. injection Hm0 as <-. eapply (message_handle_accepted _ _ _ _ Hwf Hm'); simpl; [|done|].
    + unfold pending in Hp. by destruct (m_allocated m).
    + rewrite Hsi. apply (belongs_stable 0 w w' s pid (Hst 0)). by eapply service_for_belongs.
Qed.

Lemma get_takes_oldest_witness :
  fwp (wt_ffm_get 3 0x10) (λ r w', ∃ msg, r = (PSA_SUCCESS, Some msg) ∧ queue_of (rt w') None 2 [] ∧
    wt_ffm_message_from_handle (rt w') 3 (pm_handle msg) = Some (inr 0%nat)) FfmExample.calling.
Proof.
  pose proof (FfmExample.reachable_example_wf _ FfmExample.calling_reachable) as Hwf.
  eapply fwp_mono; [exact (get_takes_oldest 3 0x10 1 2 [0%nat] FfmExample.calling Hwf FfmExample.calling_partition
    FfmExample.calling_service FfmExample.calling_queue)|].
  intros r w' (m & c & _ & _ & Hr & Hq & Hh). eexists. split; [exact Hr|]. split; [exact Hq|exact Hh].
Defined.

(** C27: The queue is a FIFO. A call that is accepted adds its request at the
    end of the queue of the connection's service and keeps the order of the
    requests already there; taking it back removes that request and only it. *)
Theorem call_begin_appends `{PortOps} caller handle type in_vec out_vec w k c l :
  wf (rt w) → no_request (rt w) caller → Forall invec_typed (items in_vec) → Forall outvec_typed (items out_vec) →
  wt_ffm_connection_from_handle (rt w) caller handle = Some (inr k) → r_connections (rt w) !! k = Some c →
  queue_of (rt w) None (c_service_index c) l →
  fwp (wt_ffm_call_begin caller handle type in_vec out_vec) (λ r w',
    match r.2 with
    | Some i => queue_of (rt w') None (c_service_index c) (l ++ [i]) ∧ (i ∉ l) ∧
        fwp (wt_ffm_dequeue_message (c_service_index c) i) (λ _ w2,
          queue_of (rt w2) (Some i) (c_service_index c) l) w'
    | None => r.1 < 0
    end) w.
Proof.
  intros Hinv Hno Hin Hout Hh Hk Hl. apply fwp_fn, wp_bind, wp_call. apply call_enqueue_spec; [done..| |].
  { intros e w' He _ _ _. by apply wp_early. }
  intros k' i m0 m n c' w' Hwf Hst _ [Hs Hlive Hp _ Hci Happ] _ Hh' Hfree _ Hk' _ Hkw'. apply wp_ret. simpl.
  rewrite Hh in Hh'. injection Hh' as <-. rewrite Hk in Hk'. injection Hk' as <-.
  destruct (attached_conn _ _ _ i _ Hwf Hs (proj1 Hlive)) as (c2 & Hc2 & _ & _ & Hsv); [done|].
  rewrite Hci, Hkw' in Hc2. injection Hc2 as <-. simpl in Hsv. rewrite Hsv in Hl |- *.
  assert (i ∉ l) as Hni.
  { destruct Hl as (sv & _ & Hq). intros (mi & Hmi & Hpi & _)%(queue_members _ _ _ _ _ Hq).
    specialize (Hfree mi Hmi). unfold pending in Hpi. by rewrite Hfree in Hpi. }
  split_and!; [by apply Happ|done|]. eapply (dequeue_spec _ i); [done| |done|done|].
  { apply (msg_svc _ _ (inv_msg _ _ _ Hwf i _ Hs)). apply Hlive. }
  intros w2 _ _ Hdeq. specialize (Hdeq _ (Happ l Hl)). rewrite filter_app, filter_ne in Hdeq by done.
  rewrite filter_cons_False, filter_nil, app_nil_r in Hdeq by naive_solver. done.
Qed.

Lemma call_begin_appends_witness :
  fwp (wt_ffm_call_begin 1 FfmExample.connection_handle 7 FfmExample.in_vec FfmExample.out_vec) (λ r w',
    match r.2 with
    | Some i => queue_of (rt w') None (c_service_index (FfmExample.conn0 FfmExample.connected)) [i]
    | None => r.1 < 0
    end) FfmExample.connected.
Proof.
  pose proof (FfmExample.reachable_example_wf _ FfmExample.connected_reachable) as Hwf.
  eapply fwp_mono; [apply (call_begin_appends 1 FfmExample.connection_handle 7 FfmExample.in_vec FfmExample.out_vec
    FfmExample.connected 0 (FfmExample.conn0 FfmExample.connected) [] Hwf FfmExample.connected_waits
    FfmExample.in_vec_typed FfmExample.out_vec_typed)|].
  - vm_compute. reflexivity.
  - exact FfmExample.connected_conn0.
  - exact FfmExample.connected_queue.
  - intros [e [i|]] w' Hr; [exact (proj1 Hr)|exact Hr].
Defined.

(** ** Admission *)

(** Access control. A Non-secure client may use a service exactly when
    the service's descriptor allows Non-secure clients; a Secure Partition
    exactly when it is another partition than the one that serves it and
    declares the service id among its dependencies. *)
Theorem caller_allowed_iff rt caller s sv d :
  wf rt → (s < r_service_count rt)%nat → r_services rt !! s = Some sv → s_descriptor sv = Some d →
  wt_ffm_caller_allowed rt caller s = Some true ↔
  (caller < 0 ∧ sd_nonsecure_clients d ≠ 0) ∨
  (∃ k pm, wt_ffm_find_partition rt caller = Some (inr k) ∧ k ≠ s_partition_index sv ∧
     manifest_of rt k = Some pm ∧ sd_sid d ∈ items (pm_dependencies pm)).
Proof.
  intros Hinv Hs Hsv Hd. unfold wt_ffm_caller_allowed, wt_ffm_find_partition.
  destruct (Nat.leb_spec (r_service_count rt) s) as [?|_]; [lia|]. rewrite orb_false_r, Hsv. simpl. rewrite Hd. simpl.
  destruct (Z.eqb_spec caller 0) as [->|Hne].
  { split; [done|]. intros [[? _]|(k & pm & ? & _)]; [lia|done]. }
  destruct (Z.ltb_spec caller 0) as [Hneg|Hpos].
  { rewrite (proj2 (Z.leb_le caller 0)) by lia. split.
    - intros [= Hb%negb_true_iff%Z.eqb_neq]. by left.
    - intros [[_ Hb%Z.eqb_neq]|(k & pm & ? & _)]; [by rewrite Hb|done]. }
  rewrite (proj2 (Z.leb_gt caller 0)) by lia.
  destruct (find_partition_spec Hinv caller) as (r & Hr & Hspec). unfold wt_ffm_find_partition in Hr.
  rewrite (proj2 (Z.leb_gt caller 0)) in Hr by lia.
  destruct (search _ _) as [[k|]|]; simpl in *; [| |done]; injection Hr as <-.
  2:{ split; [done|]. intros [[? _]|(k & pm & ? & _)]; [lia|done]. }
  destruct Hspec as (_ & _ & p & pm & Hp & Hpm & _).
  assert (manifest_of rt k = Some pm) as Hmk by (unfold manifest_of; rewrite Hp; simpl; by rewrite Hpm).
  rewrite Hp. simpl. rewrite Hpm. simpl. destruct (Nat.eqb_spec k (s_partition_index sv)) as [Heq|Hneq].
  { split; [done|]. intros [[? _]|(k' & pm' & [= <-] & ? & _)]; [lia|done]. }
  split.
  - intros [= (x & Hx & Heq%Z.eqb_eq)%existsb_exists]. right. exists k, pm. split_and!; [done..|].
    apply list_elem_of_In. by rewrite <-Heq.
  - intros [[? _]|(k' & pm' & [= <-] & _ & Hpm' & Hin)]; [lia|]. rewrite Hmk in Hpm'. injection Hpm' as <-.
    f_equal. apply existsb_exists. exists (sd_sid d). split; [by apply list_elem_of_In|]. apply Z.eqb_refl.
Qed.

(** The storage partition declares the vault's service, the vault does not declare storage's. *)
Lemma caller_allowed_iff_witness :
  wt_ffm_caller_allowed (rt FfmExample.booted) 1 2 = Some true ∧
  wt_ffm_caller_allowed (rt FfmExample.booted) 3 0 ≠ Some true.
Proof.
  pose proof (FfmExample.reachable_example_wf _ FfmExample.booted_reachable) as Hwf. split.
  - eapply (caller_allowed_iff _ 1 2); [exact Hwf|vm_compute; lia|reflexivity|reflexivity|].
    right. exists 0%nat, ManifestExample.storage. split_and!; [reflexivity|discriminate|reflexivity|left].
  - intros [[? _]|(k & pm & Hk & _ & Hpm & Hin)]%(caller_allowed_iff _ 3 0 _ _ Hwf ltac:(vm_compute; lia) eq_refl eq_refl); [lia|].
    injection Hk as <-. injection Hpm as <-. by apply not_elem_of_nil in Hin.
Defined.

Section connect.
Context `{PortOps}.

(** What an admitted connect request has passed. *)
Lemma connect_admission_inv rt caller sid version s :
  connect_admission rt caller sid version = Some (inr s) →
  ∃ sv d, wt_ffm_find_service rt sid = Some (inr s) ∧ r_services rt !! s = Some sv ∧ s_descriptor sv = Some d ∧
    wt_ffm_caller_allowed rt caller s = Some true ∧ wt_ffm_version_allowed d version = true ∧ sd_connection_based d ≠ 0.
Proof.
  unfold connect_admission. destruct (caller =? 0); [done|]. destruct (wt_ffm_find_service rt sid) as [[e|t]|]; [done| |done].
  simpl. destruct (wt_ffm_caller_allowed rt caller t) as [[]|] eqn:Hal; [|done..]. simpl.
  destruct (r_services rt !! t) as [sv|] eqn:Hsv; [|done]. simpl. destruct (s_descriptor sv) as [d|] eqn:Hd; [|done]. simpl.
  destruct (wt_ffm_version_allowed d version) eqn:Hv; [|done]. simpl.
  destruct (Z.eqb_spec (sd_connection_based d) 0) as [|Hcb]; [done|].
  destruct (_ <=? _)%nat; [done|]. destruct (_ && _); [done|]. intros [= <-]. by exists sv, d.
Qed.

(** Connecting. A connect request is accepted only for a connection-based
    service that exists, that the client may use and whose version policy
    allows the version; the handle returned then names a slot that was free,
    is now the client's, pending connection to that service, and the client
    can use it. Otherwise the result is a negative status. *)
Theorem connect_begin_admits caller sid version w :
  wf (rt w) →
  fwp (wt_ffm_connect_begin caller sid version) (λ r w',
    match r.2 with
    | None => r.1 < 0
    | Some i => ∃ s sv d k c,
        wt_ffm_find_service (rt w) sid = Some (inr s) ∧ r_services (rt w) !! s = Some sv ∧ s_descriptor sv = Some d ∧
        wt_ffm_caller_allowed (rt w) caller s = Some true ∧ wt_ffm_version_allowed d version = true ∧
        sd_connection_based d ≠ 0 ∧
        (∀ c0, r_connections (rt w) !! k = Some c0 → c_allocated c0 = false) ∧
        r_connections (rt w') !! k = Some c ∧ c_state c = WT_IPC_CONNECTION_PENDING_CONNECT ∧ c_service_index c = s ∧
        wt_ffm_connection_from_handle (rt w') caller r.1 = Some (inr k)
    end) w.
Proof.
  intros Hinv. apply fwp_fn, wp_bind, wp_call. apply connect_enqueue_spec; [done| |].
  { intros e w' He _ _ _. by apply wp_early. }
  intros k i s m c w' Hwf _ [Hs Hlive _ _ Hci _] Hsi _ _ Hfree Hk Hal Hc Hst Hadm Hin. apply wp_ret. simpl.
  destruct (connect_admission_inv _ _ _ _ _ Hadm) as (sv & d & ? & ? & ? & ? & ? & ?). exists s, sv, d, k, c.
  destruct (attached_conn _ _ _ i m Hwf Hs (proj1 Hlive)) as (c2 & Hc2 & _ & _ & Hcs); [done|].
  rewrite Hci, Hk in Hc2. injection Hc2 as <-. split_and!; [done..| |done|done|congruence|].
  - intros c0 Hc0. apply (Hfree c0 Hc0).
  - by apply connection_handle_accepted.
Qed.
End connect.

Lemma connect_begin_admits_witness :
  ∃ k, wt_ffm_connection_from_handle (rt FfmExample.connecting) 1 FfmExample.connection_handle = Some (inr k).
Proof.
  pose proof (FfmExample.reachable_example_wf _ FfmExample.booted_reachable) as Hwf.
  destruct (fwp_elim _ _ _ _ _ (connect_begin_admits 1 0x80 1 FfmExample.booted Hwf) FfmExample.connecting_run)
    as (s & sv & d & k & c & _ & _ & _ & _ & _ & _ & _ & _ & _ & _ & Hh).
  exists k. exact Hh.
Defined.

(** ** Replies *)

(** Replying. A reply to a taken request moves its connection to the
    state that the request's type, the status and a latched error determine,
    completes the request with that status, and uses up its handle: a second
    reply is refused. A status that the type does not allow is refused and
    changes nothing. (Requests the client gave up are released instead.) *)
Theorem reply_completes pid h status w i m c :
  wf (rt w) → wt_ffm_message_from_handle (rt w) pid h = Some (inr i) → r_messages (rt w) !! i = Some m →
  r_connections (rt w) !! m_connection_index m = Some c → is_abandoned (m_abandoned m) = false →
  fwp (wt_ffm_reply pid h status) (λ r w',
    match reply_state (m_type m) status (c_error_latch c) with
    | inl e => r = e ∧ w' = w
    | inr st => r = WT_FFM_SUCCESS ∧
        w' = put_msg i (replied status m) (put_conn (m_connection_index m) (c <| c_state := st |>) w) ∧
        ∀ status', fwp (wt_ffm_reply pid h status') (λ r' w'', r' = WT_FFM_ERROR_HANDLE ∧ w'' = w') w'
    end) w.
Proof.
  intros Hinv Hh Hm Hc Hab. apply reply_spec; [done| |].
  - intros e [_ He]. by rewrite (He i m c Hh Hm Hc).
  - intros i' m' c' st w' Hh' Hm' _ Hc' Hst Hwf _ Hw'. rewrite Hh in Hh'. injection Hh' as <-.
    rewrite Hm in Hm'. injection Hm' as <-. rewrite Hc in Hc'. injection Hc' as <-. rewrite Hst.
    specialize (Hw' Hab). split_and!; [done..|]. intros status'. apply fwp_fn, wp_bind, wp_gets, wp_bind.
    destruct (message_from_handle_spec Hwf pid h) as (r & Hr & Hspec). eapply wp_defined; [done|].
    destruct r as [e|j]; [by apply wp_early|]. exfalso. destruct Hspec as (mj & Hj & _ & Hact & Hd & _).
    destruct (message_from_handle_spec Hinv pid h) as (r & Hr' & Hspec). rewrite Hh in Hr'. injection Hr' as <-.
    destruct Hspec as (m0 & _ & _ & _ & Hd' & _). rewrite Hd in Hd'. injection Hd' as -> _. subst w'.
    rewrite (put_msg_slot i m) in Hj by done. by injection Hj as <-.
Qed.

(** The vault answers the call of the scenario with 9; the connection is idle again. *)
Lemma reply_completes_witness :
  fwp (wt_ffm_reply 3 321 9) (λ r w', r = WT_FFM_SUCCESS ∧
    ∀ status', fwp (wt_ffm_reply 3 321 status') (λ r' w'', r' = WT_FFM_ERROR_HANDLE ∧ w'' = w') w')
    FfmExample.call_taken.
Proof.
  pose proof (FfmExample.reachable_example_wf _ FfmExample.call_taken_reachable) as Hwf.
  destruct FfmExample.call_taken_call as (Hc & Hab & Hst).
  eapply fwp_mono; [exact (reply_completes 3 321 9 FfmExample.call_taken 0 (FfmExample.msg0 FfmExample.call_taken)
    (FfmExample.conn0 FfmExample.call_taken) Hwf (op_handle _ _ _ _ _ _ _ FfmExample.call_taken_input)
    FfmExample.call_taken_msg0 Hc Hab)|].
  intros r w'. rewrite Hst. intros (Hr & _ & Hagain). split; [exact Hr|exact Hagain].
Defined.

(** ** Termination *)

Section termination.
Context `{PortOps}.

(** A terminated client leaves nothing behind. After its connections are
    failed the client has no request and no connection; every other client's
    connections are exactly as they were and its live requests keep their
    slots, and the runtime is well-formed. *)
Theorem fail_client_clears c w :
  wf (rt w) →
  fwp (wt_ffm_fail_client_connections c) (λ _ w',
    wf (rt w') ∧ (∀ cl, cl ≠ c → stable cl w w') ∧
    (∀ i m, r_messages (rt w') !! i = Some m → m_allocated m = true → m_caller m ≠ c) ∧
    (∀ k cn, r_connections (rt w') !! k = Some cn → c_allocated cn = true →
       c_caller cn ≠ c ∧ r_connections (rt w) !! k = Some cn)) w.
Proof.
  intros Hinv. eapply fwp_mono; [by apply fail_client_connections_spec|]. intros _ w' []. by split_and!.
Qed.

(** C30: A failed partition is cut off. After its messages are failed no
    request for one of its services is in progress, so its clients are not
    left waiting, every connection to it is in the error state with its
    reverse handle cleared (or already finished), and its services' signals
    are deasserted. *)
Theorem fail_partition_cuts_off pid status w :
  wf (rt w) →
  fwp (wt_ffm_fail_partition_messages pid status) (λ _ w',
    wf (rt w') ∧ (∀ cl, stable cl w w') ∧
    (∀ i m, r_messages (rt w') !! i = Some m → m_allocated m = true →
       belongs (rt w') (m_service_index m) pid → m_complete m = true) ∧
    (∀ k c, r_connections (rt w') !! k = Some c → c_allocated c = true →
       belongs (rt w') (c_service_index c) pid → cut_off c) ∧
    (∀ s d k p, (s < r_service_count (rt w'))%nat → belongs (rt w') s pid → service_of (rt w') s = Some (d, k) →
       r_partitions (rt w') !! k = Some p → has_any (p_asserted_signals p) (sd_signal d) = false)) w.
Proof.
  intros Hinv. eapply fwp_mono; [by apply fail_partition_messages_spec|]. intros _ w' [Hwf Hst Hm Hc _].
  split_and!; [done..|]. intros s d k p Hs Hb Hof Hp. unfold service_of in Hof.
  destruct (r_services (rt w') !! s) as [sv|] eqn:Hsv; [|done]. simpl in Hof.
  destruct (s_descriptor sv) as [d'|] eqn:Hd; [|done]. injection Hof as -> <-.
  eapply quiet_service; [done..|]. intros i m Hi Hal <-. by eapply Hm.
Qed.

(** C29: Restart. A restarted partition serves nothing of its previous
    instance and holds nothing of it: its signals are clear, no request to it
    is in progress, no request or connection it made remains, and its new
    instance number makes every handle of the previous instance invalid. *)
Theorem restart_resets pid status w k p :
  wf (rt w) → wt_ffm_find_partition (rt w) pid = Some (inr k) → r_partitions (rt w) !! k = Some p →
  fwp (wt_ffm_partition_restarted pid status) (λ _ w', wf (rt w') ∧
    (∀ i m, r_messages (rt w') !! i = Some m → m_allocated m = true →
       m_caller m ≠ pid ∧ (belongs (rt w') (m_service_index m) pid → m_complete m = true)) ∧
    (∀ i c, r_connections (rt w') !! i = Some c → c_allocated c = true →
       c_caller c ≠ pid ∧ (belongs (rt w') (c_service_index c) pid → cut_off c)) ∧
    (∃ p', r_partitions (rt w') !! k = Some p' ∧ p_asserted_signals p' = 0 ∧ p_instance p' = u32 (p_instance p + 1)) ∧
    (∀ handle j, wt_ffm_connection_from_handle (rt w') pid handle ≠ Some (inr j))) w.
Proof.
  intros Hinv Hk Hp. apply partition_restarted_spec; [done|by intros Hno; destruct (Hno k)|].
  intros ret k' p' w' Hk' Hp' [Hwf _ Hserved Hcut Hreq Hown Hinst]. rewrite Hk in Hk'. injection Hk' as <-.
  rewrite Hp in Hp'. injection Hp' as <-. split_and!; [done|by eauto|by eauto|done|].
  intros handle j Hj. destruct (connection_from_handle_spec Hwf pid handle) as (r & Hr & Hspec).
  rewrite Hj in Hr. injection Hr as <-. destruct Hspec as (c & Hc & Hal & Hcal & _). by apply (Hown j c).
Qed.
End termination.

(** The storage partition terminates while the vault serves its call. *)
Lemma fail_client_clears_witness :
  fwp (wt_ffm_fail_client_connections 1) (λ _ w', ∀ k cn, r_connections (rt w') !! k = Some cn →
    c_allocated cn = true → c_caller cn ≠ 1) FfmExample.call_taken.
Proof.
  pose proof (FfmExample.reachable_example_wf _ FfmExample.call_taken_reachable) as Hwf.
  eapply fwp_mono; [exact (fail_client_clears 1 FfmExample.call_taken Hwf)|].
  intros r w' (_ & _ & _ & Hc) k cn Hk Hal. exact (proj1 (Hc k cn Hk Hal)).
Defined.

(** The vault fails, or restarts, while it serves the call. *)
Lemma fail_partition_cuts_off_witness :
  fwp (wt_ffm_fail_partition_messages 3 PSA_ERROR_GENERIC_ERROR) (λ _ w', wf (rt w')) FfmExample.call_taken.
Proof.
  pose proof (FfmExample.reachable_example_wf _ FfmExample.call_taken_reachable) as Hwf.
  eapply fwp_mono; [exact (fail_partition_cuts_off 3 PSA_ERROR_GENERIC_ERROR FfmExample.call_taken Hwf)|].
  intros r w' (Hwf' & _). exact Hwf'.
Defined.

Lemma restart_resets_witness :
  fwp (wt_ffm_partition_restarted 1 PSA_ERROR_GENERIC_ERROR) (λ _ w', ∀ j,
    wt_ffm_connection_from_handle (rt w') 1 FfmExample.connection_handle ≠ Some (inr j)) FfmExample.call_taken.
Proof.
  pose proof (FfmExample.reachable_example_wf _ FfmExample.call_taken_reachable) as Hwf.
  destruct FfmExample.call_taken_storage as (Hk & Hp).
  eapply fwp_mono; [exact (restart_resets 1 PSA_ERROR_GENERIC_ERROR FfmExample.call_taken 0 _ Hwf Hk Hp)|].
  intros r w' (_ & _ & _ & _ & Hh) j. exact (Hh _ j).
Defined.

(** ** Other clients and partitions *)

(** C28: Non-interference with a waiting client. While a client waits, any
    number of steps of the others leave its live requests in their slots with
    the same type, generation, service, connection and output destinations,
    and the runtime well-formed. A step is a permitted operation of another
    client or of a partition, or a whole synchronous connect, call or close of
    another Non-secure client with whatever permitted operations the
    dispatched partitions perform meanwhile; none of them in the name of the
    waiting client. Permitted means arguments in range, a call or close begun
    only by a client that waits for nothing, and a request finished only when
    it is complete and by its own client. *)
Theorem waiting_client_undisturbed `{PortOps} c w w' i m :
  Dispatched c → (∀ c', c' < 0 → Dispatched c') → wf (rt w) → rtc (others_step c) w w' →
  r_messages (rt w) !! i = Some m → live c m →
  wf (rt w') ∧ ∃ m', r_messages (rt w') !! i = Some m' ∧ same_request m m'.
Proof.
  intros Hc Hd Hinv Hs Hm Hl. destruct (others_steps_keep c w w' Hc Hd Hinv Hs) as [Hwf Hst]. split; [done|].
  by apply (stable_requests _ _ _ Hst).
Qed.

(** The vault takes and answers the call the storage partition waits for, and
    a Non-secure client connects to another service. *)
Lemma waiting_client_undisturbed_witness :
  ∃ m', r_messages (rt FfmExample.guest_served) !! 0%nat = Some m' ∧ same_request (FfmExample.msg0 FfmExample.calling) m'.
Proof.
  pose proof (FfmExample.reachable_example_wf _ FfmExample.calling_reachable) as Hwf.
  apply (waiting_client_undisturbed 1 FfmExample.calling FfmExample.guest_served 0 (FfmExample.msg0 FfmExample.calling)
    (FfmExample.dispatched 1) (λ c _, FfmExample.dispatched c) Hwf FfmExample.guest_served_steps
    FfmExample.calling_msg0 FfmExample.calling_live).
Defined.

(** ** Start-up *)

(** Initialisation. On an accepted manifest [wt_ffm_init] succeeds exactly
    when the partitions and services fit the runtime's tables and every
    partition uses the IPC model and a supported framework version; the
    runtime is then well-formed, with every slot free and every queue empty,
    and otherwise the manifest is refused and the runtime untouched. *)
Theorem init_accepts manifest features platform w :
  wt_manifest_validate (Some manifest) features platform = Some WT_MANIFEST_VALID → signals_typed manifest →
  fwp (wt_ffm_init (Some manifest)) (λ r w',
    if decide (fits manifest) then r = WT_FFM_SUCCESS ∧ wf (rt w') ∧
      Forall (λ m, m_allocated m = false) (r_messages (rt w')) ∧
      Forall (λ c, c_allocated c = false) (r_connections (rt w')) ∧
      (∀ s, (s < r_service_count (rt w'))%nat → queue_of (rt w') None s [])
    else r = WT_FFM_ERROR_MANIFEST ∧ w' = w) w.
Proof.
  intros Hv%validate_accepted Hty. apply fwp_fn, wp_if; intros Hcount; bool_hyps.
  { apply wp_early. rewrite decide_False; [done|]. intros [? _]. lia. }
  apply wp_bind. eapply wp_defined; [by rewrite bool_decide_true by by eapply validated_partitions|].
  destruct (init_check_iff (items (sm_partitions manifest)) 0 ltac:(lia)) as [Hiff Herr].
  destruct (init_check _ 0) as [e|sc] eqn:Hcheck.
  { apply wp_early. rewrite decide_False; [by rewrite (Herr e)|]. intros (_ & Hp & Hs). by specialize (proj1 Hiff (conj Hp Hs)). }
  assert (sc = sum_list_with (λ p, count (pm_services p)) (items (sm_partitions manifest))) as Hsc.
  { destruct (init_check_spec _ _ _ Hcheck) as (_ & _ & ->); [unfold WT_FFM_MAX_SERVICES; lia|done]. }
  apply wp_bind. eapply wp_defined; [by rewrite bool_decide_true by by eapply initial_length|].
  apply wp_bind, wp_modify, wp_ret. rewrite decide_True.
  2:{ split; [done|]. apply Hiff. by rewrite Hsc. }
  pose proof (initial_wf manifest features platform sc Hv Hty ltac:(lia) Hcheck) as Hwf. split_and!; [done|exact Hwf| | |].
  - by apply Forall_replicate.
  - by apply Forall_replicate.
  - intros s Hs. destruct (inv_queue_of _ _ _ s Hwf Hs ltac:(tauto)) as [l Hl].
    assert (l = []) as ->; [|exact Hl]. destruct l as [|i l]; [done|exfalso]. destruct Hl as (sv & _ & Hq).
    destruct (proj1 (queue_members _ _ _ _ _ Hq i)) as (m & Hm & Hp & _); [by left|].
    by apply (lookup_replicate WT_FFM_MAX_MESSAGES) in Hm as [-> _].
Qed.

Lemma init_accepts_witness :
  fwp (wt_ffm_init (Some ManifestExample.manifest)) (λ r w', r = WT_FFM_SUCCESS ∧ wf (rt w')) FfmExample.blank.
Proof.
  eapply fwp_mono; [exact (init_accepts ManifestExample.manifest WT_MANIFEST_FEATURE_IPC (Some Domain.Example.caps)
    FfmExample.blank ManifestExample.manifest_valid FfmExample.manifest_signals_typed)|].
  intros r w' Hspec. destruct (decide (fits ManifestExample.manifest)) as [_|Hno].
  - destruct Hspec as (Hr & Hwf & _). split; [exact Hr|exact Hwf].
  - destruct Hno. split_and!; [vm_compute; lia| |vm_compute; lia].
    repeat (apply List.Forall_cons; [split; [reflexivity|discriminate]|]). apply List.Forall_nil.
Defined.

(** ** A close that is not delivered *)


Section undelivered.
Context `{PortOps} (e : Z).
(** The partition that is asked to serve cannot be run. *)
Hypotheses (Hport : ∀ pid w, port_dispatch pid w = (w, e)) (Hcall : ∀ f ctx pid w, call_dispatch f ctx pid w = (w, e)).
Hypothesis He : e ≠ WT_FFM_SUCCESS.


End undelivered.

(** * Two runs of the FF-M runtime

    A synchronous close whose disconnect is not delivered, and the trace word
    of a call refused for its size. *)

Import FfmExample.


(** A Non-secure client connected to the storage service. *)
Definition ns_connected : world := next (wt_ffm_connect (-1) 0x60 1) booted.



(** A call whose vectors exceed the transfer buffer. *)
Definition large_vec : carray psa_invec := Arr [ {| iv_base := 0x30002000; iv_len := 0x7D0 |} ].

(** the trace word of a request refused for the transfer cap has kind 3 and
    no length: the total is not written when the validation fails. *)
Theorem refused_size_not_traced :
  snd <$> wt_ffm_call (-1) connection_handle 7 large_vec (Arr []) ns_connected =
    Some (PSA_ERROR_INVALID_ARGUMENT, Arr []) ∧
  g_wt_ffm_refuse_info (next (wt_ffm_call (-1) connection_handle 7 large_vec (Arr [])) ns_connected) = 0x30000000.
Proof. vm_compute. split; reflexivity. Qed.
