(* ===== verification/FfmFrame.v ===== *)
(** * What the runtime writes outside its own structure

    Of the operations of [FfmSteps], only the completion of a call writes
    client memory. *)

From Stdlib Require Import ZArith Lia.
From stdpp Require Import base list numbers option sets.
From S2P Require Import Prelude Buffers CState Frame Manifest Ipc FfmTypes FfmCore FfmClient FfmService FfmWf FfmSteps.

Section frame.
Context {R : Type}.
Lemma frames_get_part i : frames (R := R) memory (get_part i).
Proof. intros w. unfold get_part. by destruct (_ !! _). Qed.
Lemma frames_get_svc i : frames (R := R) memory (get_svc i).
Proof. intros w. unfold get_svc. by destruct (_ !! _). Qed.
Lemma frames_get_conn i : frames (R := R) memory (get_conn i).
Proof. intros w. unfold get_conn. by destruct (_ !! _). Qed.
Lemma frames_get_msg i : frames (R := R) memory (get_msg i).
Proof. intros w. unfold get_msg. by destruct (_ !! _). Qed.
Lemma frames_mod_part i f : frames (R := R) memory (mod_part i f).
Proof. apply frames_bind; [apply frames_get_part|done]. Qed.
Lemma frames_mod_svc i f : frames (R := R) memory (mod_svc i f).
Proof. apply frames_bind; [apply frames_get_svc|done]. Qed.
Lemma frames_mod_conn i f : frames (R := R) memory (mod_conn i f).
Proof. apply frames_bind; [apply frames_get_conn|done]. Qed.
Lemma frames_mod_msg i f : frames (R := R) memory (mod_msg i f).
Proof. apply frames_bind; [apply frames_get_msg|done]. Qed.
Lemma frames_try_msg i f : frames (R := R) memory (try_msg i f).
Proof. apply frames_bind; [apply frames_get_msg|]. intros m. apply frames_bind; [apply frames_defined|done]. Qed.
End frame.

#[export] Hint Resolve frames_get_part frames_get_svc frames_get_conn frames_get_msg frames_mod_part frames_mod_svc
  frames_mod_conn frames_mod_msg frames_try_msg : frame.

(** ** Slots and queues *)

Lemma alloc_connection_frame : fframes memory wt_ffm_alloc_connection.
Proof. unfold wt_ffm_alloc_connection. frame. Qed.
Lemma release_connection_frame k : fframes memory (wt_ffm_release_connection k).
Proof. unfold wt_ffm_release_connection. frame. Qed.
Lemma alloc_message_frame : fframes memory wt_ffm_alloc_message.
Proof. unfold wt_ffm_alloc_message. frame. Qed.
Lemma release_message_frame i : fframes memory (wt_ffm_release_message i).
Proof. unfold wt_ffm_release_message. frame. Qed.
Lemma close_abandoned_frame k : fframes memory (wt_ffm_close_abandoned k).
Proof. unfold wt_ffm_close_abandoned. frame. Qed.
Lemma update_signal_frame s : fframes memory (wt_ffm_update_service_signal s).
Proof. unfold wt_ffm_update_service_signal. frame. Qed.
#[export] Hint Resolve alloc_connection_frame release_connection_frame alloc_message_frame release_message_frame
  close_abandoned_frame update_signal_frame : frame.

Lemma enqueue_frame s i : fframes memory (wt_ffm_enqueue s i).
Proof. unfold wt_ffm_enqueue, link_tail. frame. Qed.
Lemma dequeue_loop_frame fuel s i cur prev : frames memory (dequeue_loop fuel s i cur prev).
Proof. revert cur prev. induction fuel as [|fuel IH]; intros [cur|] prev; simpl; unfold unlink, unlink_previous; frame. Qed.
#[export] Hint Resolve enqueue_frame dequeue_loop_frame : frame.
Lemma dequeue_message_frame s i : fframes memory (wt_ffm_dequeue_message s i).
Proof. unfold wt_ffm_dequeue_message. frame. Qed.
Lemma finish_abandoned_frame i : fframes memory (wt_ffm_finish_abandoned i).
Proof. unfold wt_ffm_finish_abandoned. frame. Qed.
#[export] Hint Resolve dequeue_message_frame finish_abandoned_frame : frame.

(** ** Operations *)

Section operations.
Context `{PortOps}.

Lemma prepare_vectors_frame i iv ov : fframes memory (wt_ffm_prepare_vectors i iv ov).
Proof. unfold wt_ffm_prepare_vectors. frame. Qed.
Lemma fail_partition_frame pid status : fframes memory (wt_ffm_fail_partition_messages pid status).
Proof. unfold wt_ffm_fail_partition_messages, fail_message, drain_service, fail_connection, serves. frame. Qed.
Lemma fail_client_frame c : fframes memory (wt_ffm_fail_client_connections c).
Proof. unfold wt_ffm_fail_client_connections, release_client_message, release_client_connection. frame. Qed.
#[local] Hint Resolve prepare_vectors_frame fail_partition_frame fail_client_frame : frame.
Lemma connect_enqueue_frame c sid v : fframes memory (connect_enqueue c sid v).
Proof. unfold connect_enqueue. frame. Qed.
Lemma call_enqueue_frame t c h type iv ov : fframes memory (call_enqueue t c h type iv ov).
Proof. unfold call_enqueue. frame. Qed.
Lemma close_enqueue_frame c h : fframes memory (close_enqueue c h).
Proof. unfold close_enqueue. frame. Qed.
#[local] Hint Resolve connect_enqueue_frame call_enqueue_frame close_enqueue_frame : frame.

Definition is_call_finish (o : op) : bool := match o with OpCallFinish _ _ => true | _ => false end.

Lemma after_frame {A} (f : func world A) w w' : fframes memory f → after f w = Some w' → memory w' = memory w.
Proof. intros Hf. specialize (Hf w). unfold after. destruct (f w) as [[w1 a]|]; [|done]. by intros [= <-]. Qed.

Lemma exec_memory o w w' : is_call_finish o = false → exec o w = Some w' → memory w' = memory w.
Proof.
  destruct o; simpl; intros Hc; try done; apply after_frame.
  all: unfold wt_ffm_register_partition, wt_ffm_set_lifecycle, wt_ffm_notify, wt_ffm_clear, wt_ffm_eoi,
    wt_ffm_assert_signal, wt_ffm_get, wt_ffm_set_rhandle, wt_ffm_read, wt_ffm_skip, wt_ffm_write, wt_ffm_reply,
    wt_ffm_connect_begin, wt_ffm_call_begin, wt_ffm_call_refuse, wt_ffm_close_begin, wt_ffm_connect_finish,
    wt_ffm_close_finish, wt_ffm_partition_restarted; frame.
Qed.
End operations.
