(* ===== verification/SecureDomain.v ===== *)
(** * Secure Partition memory tables: [src/ffm_domain.c], [src/periph.c]

    How a partition's protection domain becomes the region table the port
    programs, the checks made on those tables, and the boot-time validation of
    all of them ([wt_spm_sched_validate] of [arch/common/spm_gate_core.c]). A
    table's regions are its first [region_count] array entries; tables and
    manifests are non-null. *)

From Stdlib Require Import ZArith Lia.
From stdpp Require Import base list numbers option sets.
From S2P Require Import Prelude Domain Manifest.

Definition WT_MAX_MEMORY_REGIONS : nat := 8.

Record wt_memory_region := { rg_base : Z; rg_size : Z; rg_attributes : Z }.
Record wt_secure_domain := {
  sd_domain_id : Z;
  sd_regions : list wt_memory_region;
  sd_stack_base : Z;
  sd_stack_size : Z;
}.

Definition WT_SECURE_DOMAIN_OK : Z := 0.
Definition WT_SECURE_DOMAIN_ERROR_NOT_FOUND : Z := -601.
Definition WT_SECURE_DOMAIN_ERROR_CLASS : Z := -602.
Definition WT_SECURE_DOMAIN_ERROR_CAPACITY : Z := -603.
Definition WT_FFM_ERROR_ISOLATION : Z := -608.

(** ** Resolving a domain *)

Definition wt_ffm_domain_by_id (manifest : wt_system_manifest) (domain_id : Z) : option wt_domain_descriptor :=
  List.find (λ d, d_id d =? domain_id) (items (sm_domains manifest)).

Definition RESOLVED_ATTRIBUTES : Z :=
  WT_MEMORY_ATTR_READ .| WT_MEMORY_ATTR_WRITE .| WT_MEMORY_ATTR_EXECUTE .| WT_MEMORY_ATTR_DEVICE .|
  WT_MEMORY_ATTR_SHARED .| WT_MEMORY_ATTR_RESTART_CLEAR.
Definition resolve_region (r : wt_memory_resource) : wt_memory_region :=
  {| rg_base := mr_base r; rg_size := mr_size r; rg_attributes := mr_attributes r .& RESOLVED_ATTRIBUTES |}.

Definition empty_domain : wt_secure_domain :=
  {| sd_domain_id := WT_DOMAIN_ID_INVALID; sd_regions := []; sd_stack_base := 0; sd_stack_size := 0 |}.

(** The result code and what is left in [*out_domain]. *)
Definition wt_ffm_resolve_secure_domain (manifest : wt_system_manifest) (domain_id : Z) : Z * wt_secure_domain :=
  match wt_ffm_domain_by_id manifest domain_id with
  | None => (WT_SECURE_DOMAIN_ERROR_NOT_FOUND, empty_domain)
  | Some d =>
    if negb (d_class d =? WT_DOMAIN_CLASS_SECURE_PARTITION) || negb (d_security_state d =? WT_SECURITY_STATE_SECURE)
    then (WT_SECURE_DOMAIN_ERROR_CLASS, empty_domain) else
    let n := count (d_memory_resources d) in
    if (WT_MAX_MEMORY_REGIONS <? n)%nat || (negb (n =? 0)%nat && is_null (d_memory_resources d))
    then (WT_SECURE_DOMAIN_ERROR_CAPACITY, empty_domain) else
    (WT_SECURE_DOMAIN_OK,
     {| sd_domain_id := domain_id; sd_regions := resolve_region <$> items (d_memory_resources d);
        sd_stack_base := d_stack_base d; sd_stack_size := d_stack_size d |})
  end.

(** ** Range checks *)

Definition wt_secure_domain_contains (domain : wt_secure_domain) (addr len : Z) (need_write : bool) : bool :=
  if len =? 0 then false else
  if UINTPTR_MAX - len <? addr then false else
  let e := addr + len in
  existsb (λ r,
    negb ((rg_size r =? 0) || (UINTPTR_MAX - rg_size r <? rg_base r)) &&
    negb (rg_attributes r .& WT_MEMORY_ATTR_READ =? 0) &&
    negb (need_write && (rg_attributes r .& WT_MEMORY_ATTR_WRITE =? 0)) &&
    (rg_base r <=? addr) && (e <=? rg_base r + rg_size r)) (sd_regions domain).

Definition wt_secure_range (base size : Z) : option Z :=
  if (size =? 0) || (UINTPTR_MAX - size <? base) then None else Some (base + size).

Definition wt_secure_regions_overlap (first second : wt_memory_region) : bool :=
  match wt_secure_range (rg_base first) (rg_size first), wt_secure_range (rg_base second) (rg_size second) with
  | Some e1, Some e2 => (rg_base first <? e2) && (rg_base second <? e1)
  | _, _ => false
  end.
Definition wt_secure_region_within (region window : wt_memory_region) : bool :=
  match wt_secure_range (rg_base region) (rg_size region), wt_secure_range (rg_base window) (rg_size window) with
  | Some e1, Some e2 => (rg_base window <=? rg_base region) && (e1 <=? e2)
  | _, _ => false
  end.

Definition wt_secure_domain_excludes (domain : wt_secure_domain) (base size : Z) : bool :=
  if (WT_MAX_MEMORY_REGIONS <? length (sd_regions domain))%nat then false else
  let range := {| rg_base := base; rg_size := size; rg_attributes := 0 |} in
  forallb (λ r,
    negb (negb (rg_size r =? 0) && (UINTPTR_MAX - rg_size r <? rg_base r)) &&
    negb (wt_secure_regions_overlap r range)) (sd_regions domain).

(** [shared] is [(const wt_memory_region_t*, size_t)]. *)
Definition wt_secure_domains_isolated (first second : wt_secure_domain) (shared : carray wt_memory_region) : bool :=
  if (WT_MAX_MEMORY_REGIONS <? length (sd_regions first))%nat ||
     (WT_MAX_MEMORY_REGIONS <? length (sd_regions second))%nat ||
     (is_null shared && negb (count shared =? 0)%nat)
  then false else
  forallb (λ a, forallb (λ b,
    ((rg_attributes a .| rg_attributes b) .& WT_MEMORY_ATTR_WRITE =? 0) ||
    negb (wt_secure_regions_overlap a b) ||
    existsb (λ k, wt_secure_region_within a k && wt_secure_region_within b k) (items shared))
    (sd_regions second)) (sd_regions first).

Definition wt_ffm_compose_secure_partition_table (domain : wt_secure_domain) (shared : list wt_memory_region)
    (out_stack : Z * Z) : Z * wt_secure_domain :=
  let empty := {| sd_domain_id := WT_DOMAIN_ID_INVALID; sd_regions := [];
                  sd_stack_base := fst out_stack; sd_stack_size := snd out_stack |} in
  let total := (length shared + length (sd_regions domain))%nat in
  if (WT_MAX_MEMORY_REGIONS <? length shared)%nat || (WT_MAX_MEMORY_REGIONS <? total)%nat
  then (WT_SECURE_DOMAIN_ERROR_CAPACITY, empty)
  else (WT_SECURE_DOMAIN_OK,
        {| sd_domain_id := sd_domain_id domain; sd_regions := shared ++ sd_regions domain;
           sd_stack_base := fst out_stack; sd_stack_size := snd out_stack |}).

(** ** Peripherals *)

(** [is_secure] is [None] for a null function pointer, else what it reads. *)
Record wt_periph := { pr_base : Z; pr_size : Z; pr_bus_master : Z; pr_is_secure : option Z }.

Fixpoint periph_scan (table : list wt_periph) (base size : Z) : bool :=
  match table with
  | [] => false
  | t :: l =>
    if negb (pr_base t =? base) || negb (pr_size t =? size) then periph_scan l base size
    else match pr_is_secure t with
         | None => false
         | Some v => (pr_bus_master t =? 0) && (v =? 1)
         end
  end.
Definition wt_periph_sp_device_ok (table : option (list wt_periph)) (base size : Z) : bool :=
  match table with
  | None => false
  | Some t => if (size =? 0) || (UINTPTR_MAX - size <? base) then false else periph_scan t base size
  end.
Definition wt_periph_sp_region_ok (table : option (list wt_periph)) (base size : Z) (device mmio : bool) : bool :=
  if device then wt_periph_sp_device_ok table base size else negb mmio.
Definition wt_periph_sp_domain_ok (table : option (list wt_periph)) (regions : list wt_memory_region)
    (is_mmio : Z → Z → bool) : bool :=
  forallb (λ r, wt_periph_sp_region_ok table (rg_base r) (rg_size r)
                  (has_any (rg_attributes r) WT_MEMORY_ATTR_DEVICE) (is_mmio (rg_base r) (rg_size r))) regions.

(** ** Validation of the scheduled tables *)

(** The result code, and the branch and slot given to [wt_spm_sched_note]. The
    production build has no shared windows ([shared_count == 0]). *)
Fixpoint validate_from (i : nat) (spm_ram : list wt_memory_region) (tables : list wt_secure_domain) :
    Z * option (Z * nat) :=
  match tables with
  | [] => (0, None)
  | t :: l =>
    if negb (forallb (λ r, wt_secure_domain_excludes t (rg_base r) (rg_size r)) spm_ram)
    then (WT_FFM_ERROR_ISOLATION, Some (6, i)) else
    if negb (forallb (λ u, wt_secure_domains_isolated t u (Null 0)) l)
    then (WT_FFM_ERROR_ISOLATION, Some (7, i)) else
    validate_from (S i) spm_ram l
  end.
Definition wt_spm_sched_validate (spm_ram : list wt_memory_region) (tables : list wt_secure_domain) :
    Z * option (Z * nat) :=
  if (length spm_ram =? 0)%nat then (WT_FFM_ERROR_ISOLATION, None) else validate_from 0 spm_ram tables.

(** ** What the checks establish *)

(** The addresses a region reaches: it may wrap around the address space. *)
Definition reaches (r : wt_memory_region) (a : Z) : Prop := 0 ≤ a ≤ UINTPTR_MAX ∧ u32 (a - rg_base r) < rg_size r.
Definition region_typed (r : wt_memory_region) : Prop := 0 ≤ rg_base r ≤ UINTPTR_MAX ∧ 0 ≤ rg_size r ≤ UINTPTR_MAX.
Definition straight (r : wt_memory_region) : Prop := rg_size r = 0 ∨ rg_base r + rg_size r ≤ UINTPTR_MAX.
Definition region_writable (r : wt_memory_region) : Prop := Z.testbit (rg_attributes r) 1 = true.
Definition region_readable (r : wt_memory_region) : Prop := Z.testbit (rg_attributes r) 0 = true.

Lemma reaches_straight r a : region_typed r → straight r → reaches r a ↔ rg_base r ≤ a < rg_base r + rg_size r.
Proof.
  unfold region_typed, straight, reaches, UINTPTR_MAX, u32. intros [Hb Hs] Hst. split.
  - intros [Ha Hr]. destruct (decide (rg_base r ≤ a)) as [Hle|Hlt].
    + rewrite Z.mod_small in Hr by lia. lia.
    + exfalso. rewrite <-(Z.mod_unique (a - rg_base r) (2 ^ 32) (-1) (a - rg_base r + 2 ^ 32)) in Hr by lia. lia.
  - intros Ha. split; [lia|]. rewrite Z.mod_small by lia. lia.
Qed.

Lemma range_inv base size e : wt_secure_range base size = Some e ↔ size ≠ 0 ∧ base + size ≤ UINTPTR_MAX ∧ e = base + size.
Proof.
  unfold wt_secure_range. destruct (Z.eqb_spec size 0); simpl; [naive_solver|].
  destruct (Z.ltb_spec (UINTPTR_MAX - size) base); split; intros H'; try done; try lia; simplify_eq.
  - split_and!; [done|lia|done].
  - f_equal. lia.
Qed.

Lemma overlap_common r1 r2 a : region_typed r1 → region_typed r2 → straight r1 → straight r2 →
  reaches r1 a → reaches r2 a → wt_secure_regions_overlap r1 r2 = true.
Proof.
  intros T1 T2 S1 S2 H1%reaches_straight H2%reaches_straight; try done. unfold wt_secure_regions_overlap.
  assert (∀ r, straight r → rg_base r ≤ a < rg_base r + rg_size r →
    wt_secure_range (rg_base r) (rg_size r) = Some (rg_base r + rg_size r)) as Hr.
  { intros r [?|?] Ha; [lia|]. apply range_inv. lia. }
  rewrite !Hr by done. apply andb_true_iff. split; apply Z.ltb_lt; lia.
Qed.

(** The check accepts a buffer exactly when it is non-empty, does not wrap and
    lies in one readable (and, for writing, writable) region. *)
Lemma contains_iff domain addr len w : Forall region_typed (sd_regions domain) → 0 ≤ addr → 0 ≤ len →
  wt_secure_domain_contains domain addr len w = true ↔
  len ≠ 0 ∧ addr + len ≤ UINTPTR_MAX ∧
  ∃ r, r ∈ sd_regions domain ∧ straight r ∧ region_readable r ∧ (w = true → region_writable r) ∧
       ∀ a, addr ≤ a < addr + len → reaches r a.
Proof.
  intros HT Ha Hl. rewrite Forall_forall in HT. unfold wt_secure_domain_contains.
  assert (∀ r, r ∈ sd_regions domain → straight r → len ≠ 0 →
    (rg_base r ≤ addr ∧ addr + len ≤ rg_base r + rg_size r) ↔ ∀ a, addr ≤ a < addr + len → reaches r a) as Hrng.
  { intros r Hr Hst Hl0. split.
    - intros [H1 H2] a Hin. apply reaches_straight; [by apply HT|done|lia].
    - intros Hall. pose proof (Hall addr) as H1. pose proof (Hall (addr + len - 1)) as H2.
      rewrite !reaches_straight in * by (done || by apply HT). lia. }
  destruct (Z.eqb_spec len 0) as [->|Hl0]; [naive_solver|].
  destruct (Z.ltb_spec (UINTPTR_MAX - len) addr); [split; [done|lia]|].
  rewrite existsb_exists. unfold region_readable, region_writable. split.
  - intros (r & Hr%list_elem_of_In & Hb). bool_hyps. split_and!; [done|lia|]. exists r.
    assert (straight r) as Hst by (right; lia). split_and!; [done|done| | |by apply Hrng].
    + match goal with H : _ .& WT_MEMORY_ATTR_READ ≠ 0 |- _ => revert H end.
      unfold WT_MEMORY_ATTR_READ. rewrite land_bit_zero by done. apply not_false_iff_true.
    + intros ->. match goal with H : true && _ = false |- _ => revert H end. simpl. rewrite Z.eqb_neq.
      unfold WT_MEMORY_ATTR_WRITE. rewrite land_bit_zero by done. apply not_false_iff_true.
  - intros (_ & Hmax & r & Hr & Hst & Hrd & Hw & Hall). exists r. split; [by apply list_elem_of_In|].
    pose proof (proj2 (Hrng r Hr Hst Hl0) Hall) as [H1 H2]. destruct Hst as [?|Hst]; [lia|].
    rewrite !andb_true_iff. split_and!.
    + rewrite negb_true_iff, orb_false_iff. split; [apply Z.eqb_neq; lia|apply Z.ltb_ge; lia].
    + rewrite negb_true_iff, Z.eqb_neq. unfold WT_MEMORY_ATTR_READ. rewrite land_bit_zero by done. congruence.
    + rewrite negb_true_iff. destruct w; [|done]. simpl. rewrite Z.eqb_neq. unfold WT_MEMORY_ATTR_WRITE.
      rewrite land_bit_zero by done. rewrite Hw by done. done.
    + apply Z.leb_le. lia.
    + apply Z.leb_le. lia.
Qed.

(** ** The validation *)

Lemma excludes_inv t base size : wt_secure_domain_excludes t base size = true →
  ∀ r, r ∈ sd_regions t → (region_typed r → straight r) ∧
    wt_secure_regions_overlap r {| rg_base := base; rg_size := size; rg_attributes := 0 |} = false.
Proof.
  unfold wt_secure_domain_excludes. destruct (_ <? _)%nat; [done|]. rewrite forallb_forall. intros H r Hr.
  specialize (H r (proj1 (list_elem_of_In _ _) Hr)). apply andb_true_iff in H as [H1 H2]. rewrite negb_true_iff in H1, H2.
  split; [|done]. intros _. apply andb_false_iff in H1 as [H1|H1].
  - left. apply negb_false_iff in H1. by apply Z.eqb_eq.
  - right. apply Z.ltb_ge in H1. lia.
Qed.

Lemma isolated_inv t u : wt_secure_domains_isolated t u (Null 0) = true →
  ∀ r r', r ∈ sd_regions t → r' ∈ sd_regions u → region_writable r ∨ region_writable r' →
  wt_secure_regions_overlap r r' = false.
Proof.
  unfold wt_secure_domains_isolated. destruct (_ || _); [done|]. rewrite forallb_forall. intros H r r' Hr Hr' Hw.
  specialize (H r (proj1 (list_elem_of_In _ _) Hr)). rewrite forallb_forall in H.
  specialize (H r' (proj1 (list_elem_of_In _ _) Hr')). simpl in H. rewrite orb_false_r in H.
  apply orb_true_iff in H as [H|H]; [exfalso|by apply negb_true_iff].
  apply Z.eqb_eq in H. unfold WT_MEMORY_ATTR_WRITE in H. rewrite land_bit_zero in H by done.
  rewrite Z.lor_spec in H. apply orb_false_iff in H as [H1 H2]. unfold region_writable in Hw. destruct Hw; congruence.
Qed.

Lemma validate_from_inv i spm_ram tables : validate_from i spm_ram tables = (0, None) →
  (∀ t r, t ∈ tables → r ∈ spm_ram → wt_secure_domain_excludes t (rg_base r) (rg_size r) = true) ∧
  (∀ j k t u, (j < k)%nat → tables !! j = Some t → tables !! k = Some u → wt_secure_domains_isolated t u (Null 0) = true).
Proof.
  revert i. induction tables as [|t l IH]; intros i; simpl.
  - intros _. split; [|intros; done]. intros t r Ht. by apply not_elem_of_nil in Ht.
  - destruct (forallb _ spm_ram) eqn:E1; [|done]. destruct (forallb _ l) eqn:E2; [|done]. simpl.
    intros [H1 H2]%IH. rewrite forallb_forall in E1, E2. split.
    + intros t' r [->|Ht']%elem_of_cons Hr; [by apply E1, list_elem_of_In|by apply H1].
    + intros [|j] [|k] t' u Hlt Ht Hu; simpl in *; [lia| |lia|by eapply (H2 j k); [lia|..]].
      simplify_eq. apply E2, list_elem_of_In. by eapply list_elem_of_lookup_2.
Qed.

(** C40: When the boot-time validation accepts the partitions' memory tables,
    no partition can reach an address of SPM-private memory, and an address
    one partition can write is out of reach for every other partition. *)
Theorem sched_validate_isolates spm_ram tables :
  Forall region_typed spm_ram → Forall straight spm_ram →
  Forall (λ t, Forall region_typed (sd_regions t)) tables →
  wt_spm_sched_validate spm_ram tables = (0, None) →
  (∀ t r s a, t ∈ tables → r ∈ sd_regions t → s ∈ spm_ram → reaches r a → ¬ reaches s a) ∧
  (∀ i j t u r r' a, i ≠ j → tables !! i = Some t → tables !! j = Some u →
     r ∈ sd_regions t → r' ∈ sd_regions u → region_writable r → reaches r a → ¬ reaches r' a).
Proof.
  unfold wt_spm_sched_validate. destruct spm_ram as [|s0 spm_ram']; [done|]. set (spm_ram := s0 :: spm_ram').
  intros HT HS Htab. simpl. intros [Hex Hiso]%validate_from_inv. rewrite Forall_forall in HT, HS. rewrite Forall_forall in Htab.
  assert (∀ t r, t ∈ tables → r ∈ sd_regions t → region_typed r ∧ straight r) as Hreg.
  { intros t r Ht Hr. pose proof (Htab t Ht) as Hty. rewrite Forall_forall in Hty. specialize (Hty r Hr).
    split; [done|]. destruct (excludes_inv t (rg_base s0) (rg_size s0)) with r as [H _]; auto. apply Hex; [done|by left]. }
  split.
  - intros t r s a Ht Hr Hs Hra Hsa. destruct (Hreg t r Ht Hr) as [Tr Sr].
    destruct (excludes_inv t (rg_base s) (rg_size s) (Hex t s Ht Hs) r Hr) as [_ Hov].
    assert (wt_secure_regions_overlap r s = true) as E by (eapply overlap_common; eauto).
    unfold wt_secure_regions_overlap in *. simpl in Hov. congruence.
  - intros i j t u r r' a Hne Ht Hu Hr Hr' Hw Ha Ha'.
    pose proof (list_elem_of_lookup_2 _ _ _ Ht) as Ht'. pose proof (list_elem_of_lookup_2 _ _ _ Hu) as Hu'.
    destruct (Hreg t r Ht' Hr) as [T1 S1], (Hreg u r' Hu' Hr') as [T2 S2].
    destruct (decide (i < j)%nat) as [Hlt|Hge].
    + pose proof (isolated_inv t u (Hiso i j t u Hlt Ht Hu) r r' Hr Hr' (or_introl Hw)) as Hov.
      rewrite (overlap_common r r' a) in Hov by done. done.
    + pose proof (isolated_inv u t (Hiso j i u t ltac:(lia) Hu Ht) r' r Hr' Hr (or_intror Hw)) as Hov.
      rewrite (overlap_common r' r a) in Hov by done. done.
Qed.

(** A table resolved from an accepted manifest has the domain's memory and
    nothing else. *)
Lemma resolve_reaches manifest id out a :
  wt_ffm_resolve_secure_domain manifest id = (WT_SECURE_DOMAIN_OK, out) →
  ∃ d, d ∈ items (sm_domains manifest) ∧ d_id d = id ∧ d_class d = WT_DOMAIN_CLASS_SECURE_PARTITION ∧
    ((∃ r, r ∈ sd_regions out ∧ reaches r a) ↔
     ∃ m, m ∈ items (d_memory_resources d) ∧ 0 ≤ a ≤ UINTPTR_MAX ∧ u32 (a - mr_base m) < mr_size m).
Proof.
  unfold wt_ffm_resolve_secure_domain, wt_ffm_domain_by_id. destruct (find _ _) as [d|] eqn:Hf; [|done].
  apply find_some in Hf as [Hd Hid]. apply Z.eqb_eq in Hid. cbv zeta.
  do 2 (lazymatch goal with |- (if ?c then _ else _) = _ → _ => destruct c eqn:?; [done|] end). intros Ho. injection Ho as Ho. subst out. bool_hyps. exists d. split_and!; [by apply list_elem_of_In|done|done|].
  simpl. split.
  - intros (r & (m & -> & Hm)%list_elem_of_fmap & Hr). exists m. by destruct Hr.
  - intros (m & Hm & Ha). exists (resolve_region m). split; [|done]. apply list_elem_of_fmap. eauto.
Qed.

Module SecureExample.
Definition rw : Z := WT_MEMORY_ATTR_READ .| WT_MEMORY_ATTR_WRITE.
Definition flash : wt_memory_region := {| rg_base := 0x0C000000; rg_size := 0x10000; rg_attributes := WT_MEMORY_ATTR_READ |}.
Definition band (base : Z) : wt_memory_region := {| rg_base := base; rg_size := 0x1000; rg_attributes := rw |}.
Definition table (id base : Z) : wt_secure_domain :=
  {| sd_domain_id := id; sd_regions := [flash; band base]; sd_stack_base := base; sd_stack_size := 0x1000 |}.
Definition tables : list wt_secure_domain := [table 1 0x30010000; table 2 0x30020000; table 3 0x30030000].
Definition spm_ram : list wt_memory_region := [{| rg_base := 0x30000000; rg_size := 0x8000; rg_attributes := rw |}].

(** A writable region that wraps around the address space counts as
    overlapping nothing in [wt_secure_domains_isolated], unlike in
    [wt_secure_domain_excludes]. *)
Definition wrapping : wt_secure_domain :=
  {| sd_domain_id := 4; sd_regions := [{| rg_base := 0xFFFFF000; rg_size := 0x30020000; rg_attributes := rw |}];
     sd_stack_base := 0; sd_stack_size := 0 |}.
Lemma isolated_ignores_wrapping :
  wt_secure_domains_isolated wrapping (table 1 0x30010000) (Null 0) = true ∧
  reaches {| rg_base := 0xFFFFF000; rg_size := 0x30020000; rg_attributes := rw |} 0x30010010 ∧
  reaches (band 0x30010000) 0x30010010.
Proof. split_and!; vm_compute; done. Qed.

Lemma sched_validate_isolates_witness :
  wt_spm_sched_validate spm_ram tables = (0, None) ∧ ¬ reaches (band 0x30020000) 0x30010010.
Proof.
  split; [vm_compute; reflexivity|].
  refine (proj2 (sched_validate_isolates spm_ram tables _ _ _ _) 0%nat 1%nat (table 1 0x30010000) (table 2 0x30020000)
    (band 0x30010000) (band 0x30020000) 0x30010010 _ _ _ _ _ _ _).
  1-2: repeat constructor; vm_compute; (done || by right).
  1: repeat constructor; vm_compute; done.
  all: first [vm_compute; reflexivity | done | by right; left | split; vm_compute; done].
Defined.
End SecureExample.
