(* ===== verification/SpmGate.v ===== *)
(** * The Secure Partition gate: [src/spm_gate.c], [spm_gate.h]

    The one privileged entry point of every [psa_*] call a Secure Partition
    makes. The partition describes its request in a call block; the gate
    checks every pointer in it against the partition's region table, runs the
    FF-M operation and stores the results in the block. The block is copied
    from the partition's memory before and back after ([held]), so it is a
    value here; the buffers it points to are partition memory. A [pending_msg]
    of [WT_FFM_QUEUE_NONE] is [None], and a null pointer is address 0. *)

From Stdlib Require Import ZArith Lia.
From stdpp Require Import base list numbers option sets.
From S2P Require Import Prelude Buffers CState Domain Manifest Ipc FfmTypes FfmCore FfmClient FfmService SecureDomain.

(** ** Data *)

Inductive wt_spm_op :=
| WT_SPM_OP_WAIT | WT_SPM_OP_GET | WT_SPM_OP_SET_RHANDLE | WT_SPM_OP_READ | WT_SPM_OP_SKIP | WT_SPM_OP_WRITE
| WT_SPM_OP_REPLY | WT_SPM_OP_NOTIFY | WT_SPM_OP_CLEAR | WT_SPM_OP_VERSION | WT_SPM_OP_CONNECT | WT_SPM_OP_CALL
| WT_SPM_OP_CLOSE | WT_SPM_OP_EOI | WT_SPM_OP_IRQ_ENABLE | WT_SPM_OP_LIFECYCLE
| WT_SPM_OP_FWU_BACKEND | WT_SPM_OP_KEYSTORE_FLASH | WT_SPM_OP_KEYSTORE_ENTROPY | WT_SPM_OP_KEYSTORE_LOCK
| WT_SPM_OP_MEASURE_READ.
#[export] Instance wt_spm_op_eq_dec : EqDecision wt_spm_op.
Proof. solve_decision. Defined.

Definition WT_SPM_SP_IOVEC : nat := 4.

(** The update operations a partition names in [call_type]. *)
Definition WT_SPM_FWU_BEGIN : Z := 0.
Definition WT_SPM_FWU_WRITE : Z := 1.
Definition WT_SPM_FWU_ARM : Z := 2.
Definition WT_SPM_FWU_DISARM : Z := 3.
Definition WT_SPM_FWU_REBOOT : Z := 4.
Definition WT_SPM_FWU_FLOOR : Z := 5.
Definition WT_SPM_FWU_VERIFY : Z := 6.
Definition WT_SPM_FWU_ACTIVE : Z := 7.

Definition PSA_BLOCK : Z := 0x80000000.
Definition SIZEOF_PSA_MSG : Z := 48.   (** [sizeof(psa_msg_t)] with 32-bit pointers *)

(** [op] holds whatever the partition stored there: [None] is a value that is
    no enumerator. *)
Record wt_spm_call := {
  sc_op : option wt_spm_op;
  sc_partition_id : Z;
  sc_notify_partition : Z;
  sc_msg_handle : Z;
  sc_signal_mask : Z;
  sc_timeout : Z;
  sc_signal : Z;
  sc_vec_idx : Z;
  sc_buffer : Z;
  sc_num_bytes : Z;
  sc_status : Z;
  sc_msg : Z;
  sc_asserted : Z;
  sc_rhandle : Z;
  sc_sid : Z;
  sc_version : Z;
  sc_call_type : Z;
  sc_sp_in : list psa_invec;
  sc_sp_out : list psa_outvec;
  sc_sp_in_len : nat;
  sc_sp_out_len : nat;
  sc_pending_msg : option nat;
  sc_pending_valid : bool;
  sc_ret_status : Z;
  sc_ret_size : Z;
  sc_ret_int : Z;
  sc_ret_handle : Z;
  sc_ret_version : Z;
  sc_ret_tick : Z;
  sc_must_panic : bool;
}.
#[export] Instance call_eta : Settable wt_spm_call := λ c,
  {| sc_op := sc_op c; sc_partition_id := sc_partition_id c; sc_notify_partition := sc_notify_partition c;
     sc_msg_handle := sc_msg_handle c; sc_signal_mask := sc_signal_mask c; sc_timeout := sc_timeout c;
     sc_signal := sc_signal c; sc_vec_idx := sc_vec_idx c; sc_buffer := sc_buffer c; sc_num_bytes := sc_num_bytes c;
     sc_status := sc_status c; sc_msg := sc_msg c; sc_asserted := sc_asserted c; sc_rhandle := sc_rhandle c;
     sc_sid := sc_sid c; sc_version := sc_version c; sc_call_type := sc_call_type c; sc_sp_in := sc_sp_in c;
     sc_sp_out := sc_sp_out c; sc_sp_in_len := sc_sp_in_len c; sc_sp_out_len := sc_sp_out_len c;
     sc_pending_msg := sc_pending_msg c; sc_pending_valid := sc_pending_valid c; sc_ret_status := sc_ret_status c;
     sc_ret_size := sc_ret_size c; sc_ret_int := sc_ret_int c; sc_ret_handle := sc_ret_handle c;
     sc_ret_version := sc_ret_version c; sc_ret_tick := sc_ret_tick c; sc_must_panic := sc_must_panic c |}.
#[export] Instance set_sc_partition_id : Setter sc_partition_id. Proof. derive_setter. Defined.
#[export] Instance set_sc_sp_out : Setter sc_sp_out. Proof. derive_setter. Defined.
#[export] Instance set_sc_pending_msg : Setter sc_pending_msg. Proof. derive_setter. Defined.
#[export] Instance set_sc_pending_valid : Setter sc_pending_valid. Proof. derive_setter. Defined.
#[export] Instance set_sc_ret_status : Setter sc_ret_status. Proof. derive_setter. Defined.
#[export] Instance set_sc_ret_size : Setter sc_ret_size. Proof. derive_setter. Defined.
#[export] Instance set_sc_ret_int : Setter sc_ret_int. Proof. derive_setter. Defined.
#[export] Instance set_sc_ret_handle : Setter sc_ret_handle. Proof. derive_setter. Defined.
#[export] Instance set_sc_ret_version : Setter sc_ret_version. Proof. derive_setter. Defined.
#[export] Instance set_sc_ret_tick : Setter sc_ret_tick. Proof. derive_setter. Defined.
#[export] Instance set_sc_must_panic : Setter sc_must_panic. Proof. derive_setter. Defined.

(** [*msg = ...] *)
Definition psa_msg_bytes (m : psa_msg) : list Z :=
  concat (le32 ∘ u32 <$> [pm_type m; pm_handle m; pm_client_id m; pm_rhandle m] ++ pm_in_size m ++ pm_out_size m).

(** ** Checks *)

(** [None] is a null domain: validation is disabled. *)
Definition wt_spm_check_buffer (domain : option wt_secure_domain) (buffer len : Z) (need_write : bool) : Z :=
  match domain with
  | None => WT_FFM_SUCCESS
  | Some d =>
    if len =? 0 then WT_FFM_SUCCESS else
    if buffer =? 0 then WT_FFM_ERROR_BUFFER else
    if wt_secure_domain_contains d buffer len need_write then WT_FFM_SUCCESS else WT_FFM_ERROR_BUFFER
  end.

Definition wt_spm_pending_owned (rt : wt_ffm_runtime) (call : wt_spm_call) : option bool :=
  match sc_pending_msg call with
  | None => Some false
  | Some i =>
    if (WT_FFM_MAX_MESSAGES <=? i)%nat then Some false else
    m ← r_messages rt !! i;
    Some (m_allocated m && (m_caller m =? sc_partition_id call))
  end.

(** The first vector refused, of those with a length. *)
Definition check_vectors (domain : option wt_secure_domain) (need_write : bool) (l : list (Z * Z)) : Z :=
  first_error (λ v, if snd v =? 0 then 0 else wt_spm_check_buffer domain (fst v) (snd v) need_write) l.

Definition wt_spm_check_sp_vectors (domain : option wt_secure_domain) (call : wt_spm_call) : Z :=
  if (WT_SPM_SP_IOVEC <? sc_sp_in_len call)%nat || (WT_SPM_SP_IOVEC <? sc_sp_out_len call)%nat
  then WT_FFM_ERROR_ARGUMENT else
  let ret := check_vectors domain false ((λ v, (iv_base v, iv_len v)) <$> take (sc_sp_in_len call) (sc_sp_in call)) in
  if negb (ret =? WT_FFM_SUCCESS) then ret else
  check_vectors domain true ((λ v, (ov_base v, ov_len v)) <$> take (sc_sp_out_len call) (sc_sp_out call)).

(** ** The requests

    One definition per case of the switch: the block afterwards. The return
    value of the gate is [WT_FFM_SUCCESS] for each. *)

Section gate.
Context `{PortOps} (domain : option wt_secure_domain).

(** [call->ret_int = ret; if (ret != WT_FFM_SUCCESS) call->must_panic = 1U;] *)
Definition ret_or_panic (ret : Z) (call : wt_spm_call) : wt_spm_call :=
  let call := call <| sc_ret_int := ret |> in
  if ret =? WT_FFM_SUCCESS then call else call <| sc_must_panic := true |>.
Definition panic_with (ret : Z) (call : wt_spm_call) : wt_spm_call :=
  call <| sc_ret_int := ret |> <| sc_must_panic := true |>.

Definition gate_wait (call : wt_spm_call) : func world wt_spm_call := fn (
  let ret := wt_spm_check_buffer domain (sc_asserted call) 4 true in
  if negb (ret =? WT_FFM_SUCCESS) then mret (panic_with ret call) else
  w ← gets rt;
  '(ret, asserted) ← (if sc_asserted call =? 0 then mret (WT_FFM_ERROR_ARGUMENT, None)
                      else defined (wt_ffm_wait w (sc_partition_id call) (sc_signal_mask call)));
  match asserted with
  | Some v => modify (λ w, w <| memory := store32 (memory w) (sc_asserted call) v |>)
  | None => mret tt
  end;;
  let call := call <| sc_ret_int := ret |> in
  mret (if ret =? WT_FFM_ERROR_ARGUMENT then call <| sc_must_panic := true |> else call)).

Definition gate_get (call : wt_spm_call) : func world wt_spm_call := fn (
  let ret := wt_spm_check_buffer domain (sc_msg call) SIZEOF_PSA_MSG true in
  if negb (ret =? WT_FFM_SUCCESS) then mret (panic_with ret (call <| sc_ret_status := ret |>)) else
  '(status, msg) ← (if sc_msg call =? 0 then mret (PSA_ERROR_PROGRAMMER_ERROR, None)
                    else CState.call (wt_ffm_get (sc_partition_id call) (sc_signal call)));
  match msg with
  | Some m => modify (λ w, w <| memory := mem_write (memory w) (sc_msg call) (psa_msg_bytes m) |>)
  | None => mret tt
  end;;
  let call := call <| sc_ret_status := status |> <| sc_ret_int := ret |> in
  mret (if status =? PSA_SUCCESS then call else call <| sc_must_panic := true |>)).

Definition gate_set_rhandle (call : wt_spm_call) : func world wt_spm_call := fn (
  ret ← CState.call (wt_ffm_set_rhandle (sc_partition_id call) (sc_msg_handle call) (sc_rhandle call));
  mret (ret_or_panic ret call)).

Definition gate_read (call : wt_spm_call) : func world wt_spm_call := fn (
  let idx := Z.to_nat (sc_vec_idx call) in
  w ← gets rt;
  ret ← defined (wt_ffm_msg_access_check w (sc_partition_id call) (sc_msg_handle call) idx);
  if negb (ret =? WT_FFM_SUCCESS) then mret (panic_with ret call) else
  let ret := wt_spm_check_buffer domain (sc_buffer call) (sc_num_bytes call) true in
  if negb (ret =? WT_FFM_SUCCESS) then mret (panic_with ret call) else
  '(size, bytes) ← CState.call (wt_ffm_read (sc_partition_id call) (sc_msg_handle call) idx
                                            (negb (sc_buffer call =? 0)) (sc_num_bytes call));
  modify (λ w, w <| memory := mem_write (memory w) (sc_buffer call) bytes |>);;
  mret (call <| sc_ret_size := size |> <| sc_ret_int := WT_FFM_SUCCESS |>)).

Definition gate_skip (call : wt_spm_call) : func world wt_spm_call := fn (
  let idx := Z.to_nat (sc_vec_idx call) in
  w ← gets rt;
  ret ← defined (wt_ffm_msg_access_check w (sc_partition_id call) (sc_msg_handle call) idx);
  if negb (ret =? WT_FFM_SUCCESS) then mret (panic_with ret call) else
  size ← CState.call (wt_ffm_skip (sc_partition_id call) (sc_msg_handle call) idx (sc_num_bytes call));
  mret (call <| sc_ret_size := size |> <| sc_ret_int := WT_FFM_SUCCESS |>)).

Definition gate_write (call : wt_spm_call) : func world wt_spm_call := fn (
  let ret := wt_spm_check_buffer domain (sc_buffer call) (sc_num_bytes call) false in
  if negb (ret =? WT_FFM_SUCCESS) then mret (panic_with ret call) else
  w ← gets id;
  let buffer := if sc_buffer call =? 0 then Null (Z.to_nat (sc_num_bytes call))
                else Arr (mem_read (memory w) (sc_buffer call) (sc_num_bytes call)) in
  ret ← CState.call (wt_ffm_write (sc_partition_id call) (sc_msg_handle call) (Z.to_nat (sc_vec_idx call)) buffer);
  mret (ret_or_panic ret call)).

Definition gate_reply (call : wt_spm_call) : func world wt_spm_call := fn (
  ret ← CState.call (wt_ffm_reply (sc_partition_id call) (sc_msg_handle call) (sc_status call));
  mret (ret_or_panic ret call)).

Definition gate_notify (call : wt_spm_call) : func world wt_spm_call := fn (
  ret ← CState.call (wt_ffm_notify (sc_notify_partition call)); mret (ret_or_panic ret call)).

Definition gate_clear (call : wt_spm_call) : func world wt_spm_call := fn (
  ret ← CState.call (wt_ffm_clear (sc_partition_id call)); mret (ret_or_panic ret call)).

(** [wt_ffm_irq_lookup(..., &call->ret_version)] *)
Definition lookup_irq (call : wt_spm_call) : prog world wt_spm_call (Z * wt_spm_call) :=
  w ← gets rt;
  '(ret, irq) ← defined (wt_ffm_irq_lookup w (sc_partition_id call) (sc_signal_mask call));
  mret (ret, match irq with Some v => call <| sc_ret_version := v |> | None => call end).

Definition gate_eoi (call : wt_spm_call) : func world wt_spm_call := fn (
  ret ← CState.call (wt_ffm_eoi (sc_partition_id call) (sc_signal_mask call));
  if negb (ret =? WT_FFM_SUCCESS) then mret (panic_with ret call) else
  '(ret, call) ← lookup_irq call;
  mret (call <| sc_ret_int := ret |>)).

Definition gate_irq_enable (call : wt_spm_call) : func world wt_spm_call := fn (
  '(ret, call) ← lookup_irq call; mret (ret_or_panic ret call)).

Definition gate_version (call : wt_spm_call) : func world wt_spm_call := fn (
  w ← gets rt;
  v ← defined (wt_ffm_service_version w (sc_partition_id call) (sc_sid call));
  mret (call <| sc_ret_version := v |> <| sc_ret_int := WT_FFM_SUCCESS |>)).

Definition gate_lifecycle (call : wt_spm_call) : func world wt_spm_call := fn (
  w ← gets rt; mret (call <| sc_ret_version := r_lifecycle w |> <| sc_ret_int := WT_FFM_SUCCESS |>)).

(** The resume pass of the deferred requests: refused, still pending, or
    [harvest] the completed message. *)
Definition resume (call : wt_spm_call) (harvest : nat → prog world wt_spm_call wt_spm_call) :
    prog world wt_spm_call wt_spm_call :=
  w ← gets rt;
  owned ← defined (wt_spm_pending_owned w call);
  match sc_pending_msg call with
  | Some i =>
    if negb (owned : bool) then mret (call <| sc_ret_int := WT_FFM_ERROR_ARGUMENT |>) else
    complete ← defined (wt_ffm_msg_complete w i);
    if negb (complete : bool) then mret (call <| sc_ret_int := WT_FFM_ERROR_NOT_READY |>) else harvest i
  | None => mret (call <| sc_ret_int := WT_FFM_ERROR_ARGUMENT |>)
  end.
(** [&call->pending_msg] as an out-parameter that may be left alone, and the
    block of a request that now waits. *)
Definition store_index (msg : option (option nat)) (call : wt_spm_call) : wt_spm_call :=
  match msg with Some i => call <| sc_pending_msg := i |> | None => call end.
Definition parked (call : wt_spm_call) : wt_spm_call :=
  call <| sc_pending_valid := true |> <| sc_ret_int := WT_FFM_ERROR_NOT_READY |>.

Definition gate_connect (call : wt_spm_call) : func world wt_spm_call := fn (
  if negb (sc_pending_valid call) then
    '(handle, msg) ← CState.call (wt_ffm_connect_begin (sc_partition_id call) (sc_sid call) (sc_version call));
    let call := store_index (Some <$> msg) call in
    if handle <=? 0 then
      let call := call <| sc_ret_handle := handle |> <| sc_ret_int := WT_FFM_SUCCESS |> in
      mret (if (handle =? PSA_ERROR_CONNECTION_REFUSED) || (handle =? PSA_ERROR_NOT_SUPPORTED)
            then call <| sc_must_panic := true |> else call)
    else mret (parked call)
  else resume call (λ i,
    handle ← CState.call (wt_ffm_connect_finish i);
    mret (call <| sc_ret_handle := handle |> <| sc_pending_valid := false |> <| sc_ret_int := WT_FFM_SUCCESS |>))).

Definition gate_call (call : wt_spm_call) : func world wt_spm_call := fn (
  let panic_if (status : Z) (call : wt_spm_call) :=
    if status =? PSA_ERROR_PROGRAMMER_ERROR then call <| sc_must_panic := true |> else call in
  if negb (sc_pending_valid call) then
    if negb (wt_spm_check_sp_vectors domain call =? WT_FFM_SUCCESS) then
      mret (panic_with WT_FFM_SUCCESS (call <| sc_ret_status := PSA_ERROR_PROGRAMMER_ERROR |>))
    else
    '(status, msg) ← CState.call (wt_ffm_call_begin (sc_partition_id call) (sc_msg_handle call) (sc_call_type call)
                       (Arr (take (sc_sp_in_len call) (sc_sp_in call)))
                       (Arr (take (sc_sp_out_len call) (sc_sp_out call))));
    let call := store_index (Some <$> msg) call <| sc_ret_status := status |> in
    mret (if status =? PSA_SUCCESS then parked call
          else panic_if status (call <| sc_ret_int := WT_FFM_SUCCESS |>))
  else resume call (λ i,
    '(status, out) ← CState.call (wt_ffm_call_finish i (Arr (take (sc_sp_out_len call) (sc_sp_out call))));
    mret (panic_if status (call <| sc_sp_out := items out ++ drop (sc_sp_out_len call) (sc_sp_out call) |>
            <| sc_ret_status := status |> <| sc_pending_valid := false |> <| sc_ret_int := WT_FFM_SUCCESS |>)))).

Definition gate_close (call : wt_spm_call) : func world wt_spm_call := fn (
  if negb (sc_pending_valid call) then
    '(ret, msg) ← CState.call (wt_ffm_close_begin (sc_partition_id call) (sc_msg_handle call));
    let call := store_index msg call in
    mret (if negb (ret =? WT_FFM_SUCCESS) then panic_with ret call
          else if bool_decide (sc_pending_msg call = None) then call <| sc_ret_int := WT_FFM_SUCCESS |>
          else parked call)
  else resume call (λ i,
    ret ← CState.call (wt_ffm_close_finish i);
    mret (call <| sc_ret_int := ret |> <| sc_pending_valid := false |>))).

(** ** The gate *)

(** The result fields before the switch. *)
Definition gate_start (call : wt_spm_call) : wt_spm_call :=
  call <| sc_ret_status := PSA_ERROR_PROGRAMMER_ERROR |> <| sc_ret_size := 0 |>
       <| sc_ret_int := WT_FFM_ERROR_ARGUMENT |> <| sc_must_panic := false |>.

(** The platform services are handled before the gate and fall to [default]. *)
Definition wt_spm_gate_held (call : wt_spm_call) : func world (Z * wt_spm_call) := fn (
  let call := gate_start call in
  let run (f : wt_spm_call → func world wt_spm_call) :=
    call' ← CState.call (f call); mret (WT_FFM_SUCCESS, call') in
  match sc_op call with
  | Some WT_SPM_OP_WAIT => run gate_wait
  | Some WT_SPM_OP_GET => run gate_get
  | Some WT_SPM_OP_SET_RHANDLE => run gate_set_rhandle
  | Some WT_SPM_OP_READ => run gate_read
  | Some WT_SPM_OP_SKIP => run gate_skip
  | Some WT_SPM_OP_WRITE => run gate_write
  | Some WT_SPM_OP_REPLY => run gate_reply
  | Some WT_SPM_OP_NOTIFY => run gate_notify
  | Some WT_SPM_OP_CLEAR => run gate_clear
  | Some WT_SPM_OP_EOI => run gate_eoi
  | Some WT_SPM_OP_IRQ_ENABLE => run gate_irq_enable
  | Some WT_SPM_OP_VERSION => run gate_version
  | Some WT_SPM_OP_LIFECYCLE => run gate_lifecycle
  | Some WT_SPM_OP_CONNECT => run gate_connect
  | Some WT_SPM_OP_CALL => run gate_call
  | Some WT_SPM_OP_CLOSE => run gate_close
  | _ => early (WT_FFM_ERROR_ARGUMENT, call)
  end).

Definition wt_spm_gate (call : wt_spm_call) : func world (Z * wt_spm_call) := wt_spm_gate_held call.
End gate.

Definition wt_spm_call_would_block (call : wt_spm_call) : bool :=
  if negb (sc_ret_int call =? WT_FFM_ERROR_NOT_READY) then false else
  match sc_op call with
  | Some WT_SPM_OP_WAIT => has_any (sc_timeout call) PSA_BLOCK
  | Some (WT_SPM_OP_CONNECT | WT_SPM_OP_CALL | WT_SPM_OP_CLOSE) => true
  | _ => false
  end.

(** The loop of the direct transport: at most [guard] more dispatches. *)
Fixpoint transport_loop `{PortOps} {R} (guard : nat) (status : Z) (call : wt_spm_call) :
    prog world R (Z * wt_spm_call) :=
  match guard with
  | O => mret (status, call)
  | S guard' =>
    if (status =? WT_FFM_SUCCESS) && sc_pending_valid call && (sc_ret_int call =? WT_FFM_ERROR_NOT_READY) then
      CState.call (wt_ffm_dispatch_pending (default WT_FFM_MAX_MESSAGES (sc_pending_msg call)));;
      '(status, call) ← CState.call (wt_spm_gate None call);
      transport_loop guard' status call
    else mret (status, call)
  end.
Definition wt_spm_transport_direct `{PortOps} (call : wt_spm_call) : func world (Z * wt_spm_call) := fn (
  '(status, call) ← CState.call (wt_spm_gate None call);
  transport_loop 8 status call).

(** [wt_spm_keystore_op_pinned] *)
Definition wt_spm_keystore_op_pinned (op : wt_spm_op) (caller vault crypto : Z) : bool :=
  if caller <=? 0 then false else
  if caller =? vault then true else
  bool_decide (op = WT_SPM_OP_KEYSTORE_ENTROPY) && (caller =? crypto).
