(* ===== verification/SpmGateSteps.v ===== *)
(** * The steps of the gate

    Every request a partition makes through the gate performs at most one
    operation of the runtime, in the partition's name, and besides it writes
    only memory the partition may write. The call block is arbitrary: a
    partition can put anything there. The operation is one the transition
    system of [FfmSteps] permits if the partition keeps to the sequence of its
    transport ([in_sequence]); otherwise it may be a call or close begun out of
    turn, and everything else still holds. *)

From Stdlib Require Import ZArith Lia.
From stdpp Require Import base list numbers option sets relations.
From S2P Require Import Prelude Buffers CState Domain Manifest Ipc FfmTypes FfmCore FfmClient FfmService FfmWf FfmQueue FfmSlots FfmServiceWf FfmClientWf FfmTerm FfmInit FfmSteps FfmHandles FfmData FfmProps SecureDomain SpmGate.

(** Fields in the range of their C types. *)
Record call_typed (c : wt_spm_call) : Prop := {
  ct_mask : 0 ≤ sc_signal_mask c < 2 ^ 32;
  ct_bytes : 0 ≤ sc_num_bytes c;
  ct_buffer : 0 ≤ sc_buffer c;
  ct_msg : 0 ≤ sc_msg c;
  ct_asserted : 0 ≤ sc_asserted c;
  ct_in : Forall invec_typed (sc_sp_in c);
  ct_out : Forall outvec_typed (sc_sp_out c);
}.

(** The partition resumes a request it has in progress before it makes another
    call or close, as its transport does. *)
Definition in_sequence (c : wt_spm_call) (rt : wt_ffm_runtime) : Prop :=
  sc_pending_valid c = false → sc_op c = Some WT_SPM_OP_CALL ∨ sc_op c = Some WT_SPM_OP_CLOSE →
  no_request rt (sc_partition_id c).

(** Memory the partition itself may write. *)
Definition may_write (d : wt_secure_domain) (a : Z) : Prop :=
  ∃ r, r ∈ sd_regions d ∧ region_writable r ∧ reaches r a.

Lemma mem_write_frame mem base bytes a :
  mem_write mem base bytes a = mem a ∨ base ≤ a < base + Z.of_nat (length bytes).
Proof.
  unfold mem_write. destruct (Z.leb_spec base a); simpl; [|by left].
  destruct (Z.ltb_spec a (base + Z.of_nat (length bytes))); [by right|by left].
Qed.

Lemma check_buffer_write d p n a :
  Forall region_typed (sd_regions d) → 0 ≤ p → 0 ≤ n → wt_spm_check_buffer (Some d) p n true = WT_FFM_SUCCESS →
  p ≤ a < p + n → may_write d a.
Proof.
  intros HT Hp Hn Hc Ha. unfold wt_spm_check_buffer in Hc.
  destruct (Z.eqb_spec n 0); [lia|]. destruct (p =? 0); [done|].
  destruct (wt_secure_domain_contains d p n true) eqn:E; [|done].
  apply contains_iff in E as (_ & _ & r & Hr & _ & _ & Hw & Hall); [|done..]. exists r. auto.
Qed.

Lemma psa_msg_bytes_length m :
  length (pm_in_size m) = PSA_MAX_IOVEC → length (pm_out_size m) = PSA_MAX_IOVEC →
  Z.of_nat (length (psa_msg_bytes m)) = SIZEOF_PSA_MSG.
Proof.
  destruct m as [ty h cl rh i o]. simpl. intros Hi Ho.
  destruct i as [|i0 [|i1 [|i2 [|i3 [|]]]]]; try done. by destruct o as [|o0 [|o1 [|o2 [|o3 [|]]]]].
Qed.

(** ** Total reads of the runtime *)

Section total.
Context {rt : wt_ffm_runtime}.
Hypothesis Hinv : wf rt.

Lemma wait_total pid mask : is_Some (wt_ffm_wait rt pid mask).
Proof.
  unfold wt_ffm_wait. destruct (mask =? 0); [by eexists|].
  destruct (find_partition_spec Hinv pid) as (r & -> & Hspec). simpl. destruct r as [e|k]; [by eexists|].
  destruct Hspec as (_ & _ & p & pm & Hp & Hpm & _).
  destruct (services_signals _ _ rt k (seq 0 (r_service_count rt)) PSA_DOORBELL Hinv) as (b & Hb & _ & _).
  { intros t ?%elem_of_seq. lia. }
  unfold wt_ffm_partition_signal_set. rewrite Hb. simpl. rewrite Hp. simpl. rewrite Hpm. simpl.
  destruct (_ =? 0); by eexists.
Qed.

Lemma irq_lookup_total pid irq : is_Some (wt_ffm_irq_lookup rt pid irq).
Proof.
  unfold wt_ffm_irq_lookup. destruct (find_partition_spec Hinv pid) as (r & -> & Hspec). simpl.
  destruct r as [e|k]; [by eexists|]. destruct (not_single_signal irq); [by eexists|].
  destruct Hspec as (_ & _ & p & pm & -> & _). simpl. destruct (List.find _ _); by eexists.
Qed.

Lemma service_version_total caller sid : is_Some (wt_ffm_service_version rt caller sid).
Proof.
  unfold wt_ffm_service_version. destruct (find_service_spec Hinv sid) as (r & -> & Hspec). simpl.
  destruct r as [e|s]; [by eexists|]. destruct (caller_allowed_spec Hinv caller s) as [b ->]. simpl.
  destruct b; [|by eexists]. destruct Hspec as (_ & sv & d & -> & Hd & _). simpl. rewrite Hd. by eexists.
Qed.

Lemma access_check_total pid h idx : is_Some (wt_ffm_msg_access_check rt pid h idx).
Proof.
  unfold wt_ffm_msg_access_check. destruct (_ <=? _)%nat; [by eexists|].
  destruct (message_from_handle_spec Hinv pid h) as (r & -> & Hspec). simpl. destruct r as [e|i]; [by eexists|].
  destruct Hspec as (m & -> & _). by eexists.
Qed.

(** What the gate's ownership check establishes. *)
Lemma pending_owned_inv call :
  ∃ b, wt_spm_pending_owned rt call = Some b ∧
    (b = true → ∃ i m, sc_pending_msg call = Some i ∧ r_messages rt !! i = Some m ∧ m_allocated m = true ∧
                  m_caller m = sc_partition_id call).
Proof.
  unfold wt_spm_pending_owned. destruct (sc_pending_msg call) as [i|]; [|by eexists].
  destruct (Nat.leb_spec WT_FFM_MAX_MESSAGES i); [by eexists|].
  destruct (lookup_msg Hinv i) as [m Hm]; [lia|]. rewrite Hm. simpl. eexists. split; [done|].
  intros [Hal Hc%Z.eqb_eq]%andb_true_iff. eauto 10.
Qed.
End total.

(** ** Requests *)

(** The operation is made in the name of partition [pid]: it is the partition,
    the client, or the client of the request that is completed. *)
Definition acts_for (pid : Z) (o : op) (w : world) : Prop :=
  match o with
  | OpNotify _ => True
  | OpClear p | OpEoi p _ | OpGet p _ | OpSetRhandle p _ _ | OpRead p _ _ _ _ | OpSkip p _ _ _ | OpWrite p _ _ _
  | OpReply p _ _ | OpConnectBegin p _ _ | OpCallBegin p _ _ _ _ | OpCloseBegin p _ => p = pid
  | OpConnectFinish i | OpCallFinish i _ | OpCloseFinish i =>
    ∃ m, r_messages (rt w) !! i = Some m ∧ m_allocated m = true ∧ m_caller m = pid
  | _ => False
  end.

Section steps.
Context `{PortOps} (d : wt_secure_domain) (s : option Z) (pid : Z) (turn : Prop).
Hypothesis Hregions : Forall region_typed (sd_regions d).

Definition one_step (w w1 : world) : Prop :=
  w1 = w ∨ ∃ o, admissible s o w ∧ (turn → in_turn o w) ∧ acts_for pid o w ∧ exec o w = Some w1.
(** At most one operation, then writes to the partition's memory. *)
Definition effect (w w' : world) : Prop :=
  ∃ w1, one_step w w1 ∧ w' = w1 <| memory := memory w' |> ∧ ∀ a, memory w' a = memory w1 a ∨ may_write d a.

Lemma effect_step w w1 : one_step w w1 → effect w w1.
Proof. intros Hs. exists w1. split_and!; [done|by destruct w1|by left]. Qed.
Lemma effect_refl w : effect w w.
Proof. apply effect_step. by left. Qed.
Lemma effect_any o w w1 :
  admissible s o w → (turn → in_turn o w) → acts_for pid o w → exec o w = Some w1 → effect w w1.
Proof. intros. apply effect_step. right. eauto 6. Qed.
Lemma step_op o w w1 : permitted s o w → acts_for pid o w → exec o w = Some w1 → one_step w w1.
Proof. intros [Ha Ht]%permitted_split ? ?. right. eauto 6. Qed.
Lemma effect_op o w w1 : permitted s o w → acts_for pid o w → exec o w = Some w1 → effect w w1.
Proof. intros. by eapply effect_step, step_op. Qed.
Lemma effect_store w w1 p n bytes :
  one_step w w1 → wt_spm_check_buffer (Some d) p n true = WT_FFM_SUCCESS → 0 ≤ p → Z.of_nat (length bytes) ≤ n →
  effect w (w1 <| memory := mem_write (memory w1) p bytes |>).
Proof.
  intros Hs Hc Hp Hn. exists w1. split_and!; [done|done|]. intros a. simpl.
  destruct (mem_write_frame (memory w1) p bytes a) as [?|Ha]; [by left|right].
  eapply check_buffer_write; [done..| |exact Hc|]; lia.
Qed.

(** A permitted operation that is defined, with its result. *)
Lemma wp_op {R A B} o (f : func world A) (k : A → prog world R B) E Q w :
  wf (rt w) → permitted s o w → exec o = after f →
  (∀ a w1, f w = Some (w1, a) → exec o w = Some w1 → wf (rt w1) → wp (k a) E Q w1) →
  wp (x ← CState.call f; k x) E Q w.
Proof.
  intros Hinv Hp Ho Hk. destruct (exec_guards s o w Hinv Hp) as (w1 & He & Hg & _).
  pose proof He as Hf. rewrite Ho in Hf. unfold after in Hf.
  destruct (f w) as [[w1' a]|] eqn:Ef; [|done]. simpl in Hf. injection Hf as ->.
  apply wp_bind, wp_call. unfold fwp. rewrite Ef. by apply (Hk a).
Qed.

(** The same for an operation that may be out of turn. *)
Lemma wp_any {R A B} o (f : func world A) (k : A → prog world R B) E Q w :
  wf (rt w) → admissible s o w → exec o = after f →
  (∀ a w1, exec o w = Some w1 → wp (k a) E Q w1) → wp (x ← CState.call f; k x) E Q w.
Proof.
  intros Hinv Ha Ho Hk. destruct (exec_admissible s o w Hinv Ha) as (w1 & He & _).
  pose proof He as Hf. rewrite Ho in Hf. unfold after in Hf.
  destruct (f w) as [[w1' a]|] eqn:Ef; [|done]. simpl in Hf. injection Hf as ->.
  apply wp_bind, wp_call. unfold fwp. rewrite Ef. by apply (Hk a).
Qed.

(** A request that is one operation and stores its result. *)
Lemma simple_request {A} o (f : func world A) (k : A → wt_spm_call) w :
  wf (rt w) → permitted s o w → acts_for pid o w → exec o = after f →
  fwp (fn (x ← CState.call f; mret (k x))) (λ _ w', effect w w') w.
Proof.
  intros Hinv Hp Ha Ho. apply fwp_fn. eapply wp_op; [done..|]. intros a w1 _ He _. apply wp_ret. by eapply effect_op.
Qed.

Section requests.
Context (c : wt_spm_call) (w : world).
Hypotheses (Hinv : wf (rt w)) (Hty : call_typed c) (Hseq : turn → in_sequence c (rt w)) (Hpid : sc_partition_id c = pid) (Hs : s ≠ Some pid).

Lemma not_suspended : s ≠ Some (sc_partition_id c).
Proof. by rewrite Hpid. Qed.
Lemma owner_acts i m : finished (rt w) i m → m_caller m = sc_partition_id c →
  ∃ m', r_messages (rt w) !! i = Some m' ∧ m_allocated m' = true ∧ m_caller m' = pid.
Proof. intros (? & ? & _) Hc. exists m. split_and!; [done..|congruence]. Qed.

Lemma wait_effect : fwp (gate_wait (Some d) c) (λ _ w', effect w w') w.
Proof.
  apply fwp_fn. cbv zeta. apply wp_if; intros Hc; [by apply wp_ret, effect_refl|]. bool_hyps.
  apply wp_bind, wp_gets, wp_bind.
  assert (∃ r, (if sc_asserted c =? 0 then mret (WT_FFM_ERROR_ARGUMENT, None)
    else defined (wt_ffm_wait (rt w) (sc_partition_id c) (sc_signal_mask c)) : prog world wt_spm_call _) w = Some (w, inr r))
    as [[ret asserted] Hr].
  { destruct (sc_asserted c =? 0); [by eexists|].
    destruct (wait_total Hinv (sc_partition_id c) (sc_signal_mask c)) as [r ->]. by eexists. }
  unfold wp at 1. rewrite Hr. simpl. apply wp_bind. destruct asserted as [v|]; [|by apply wp_ret, wp_ret, effect_refl].
  apply wp_modify, wp_ret. eapply effect_store; [by left|done|apply Hty|done].
Qed.

Lemma get_effect : fwp (gate_get (Some d) c) (λ _ w', effect w w') w.
Proof.
  apply fwp_fn. cbv zeta. apply wp_if; intros Hc; [by apply wp_ret, effect_refl|]. bool_hyps. apply wp_bind.
  destruct (sc_msg c =? 0); [by apply wp_ret, wp_bind, wp_ret, wp_ret, effect_refl|].
  assert (fwp (wt_ffm_get (sc_partition_id c) (sc_signal c)) (λ r _, ∀ m, snd r = Some m →
    length (pm_in_size m) = PSA_MAX_IOVEC ∧ length (pm_out_size m) = PSA_MAX_IOVEC) w) as Hlen.
  { apply get_spec; [done|by intros|]. intros k sv i l m cn w' _ _ _ Hm _ _ _ _ _ _ m' [= <-]. simpl.
    pose proof (inv_msg _ _ _ Hinv i m Hm) as Hok. split; [apply (msg_in _ _ Hok)|apply (msg_out _ _ Hok)]. }
  destruct (exec_guards s (OpGet (sc_partition_id c) (sc_signal c)) w Hinv I) as (w1 & He & _).
  apply wp_call. pose proof He as Hf. simpl in Hf. unfold after in Hf. unfold fwp in Hlen |- *.
  destruct (wt_ffm_get _ _ w) as [[w1' [status msg]]|]; [|done]. simpl in Hf, Hlen. injection Hf as ->.
  apply wp_bind. destruct msg as [m|]; [|apply wp_ret, wp_ret; by eapply effect_op, He].
  apply wp_modify, wp_ret. eapply effect_store; [by eapply (step_op (OpGet _ _))|done|apply Hty|].
  destruct (Hlen m eq_refl). by rewrite psa_msg_bytes_length.
Qed.

(** The access check leads the read and skip requests. *)
Lemma access_then idx (k : prog world wt_spm_call wt_spm_call) :
  (wp k (λ _ w', effect w w') (λ _ w', effect w w') w) →
  wp (v ← gets rt; ret ← defined (wt_ffm_msg_access_check v (sc_partition_id c) (sc_msg_handle c) idx);
      if negb (ret =? WT_FFM_SUCCESS) then mret (panic_with ret c) else k)
     (λ _ w', effect w w') (λ _ w', effect w w') w.
Proof.
  intros Hk. apply wp_bind, wp_gets, wp_bind.
  destruct (access_check_total Hinv (sc_partition_id c) (sc_msg_handle c) idx) as [r Hr].
  eapply wp_defined; [done|]. apply wp_if; intros _; [by apply wp_ret, effect_refl|done].
Qed.

Lemma read_effect : fwp (gate_read (Some d) c) (λ _ w', effect w w') w.
Proof.
  apply fwp_fn, access_then. cbv zeta. apply wp_if; intros Hc; [by apply wp_ret, effect_refl|]. bool_hyps.
  assert (0 ≤ sc_num_bytes c) as Hn by apply Hty.
  set (f := wt_ffm_read _ _ _ _ _).
  assert (fwp f (λ r _, Z.of_nat (length (snd r)) ≤ sc_num_bytes c) w) as Hlen.
  { apply read_spec; [done..|intros _; done|].
    intros i m sz off p bytes Ho _ _ Hsz Hof Hp Hb. simpl.
    destruct (buf_read_length _ _ _ _ Hb). lia. }
  eapply (wp_op (OpRead (sc_partition_id c) (sc_msg_handle c) _ _ _)); [done|exact Hn|done|].
  intros [size bytes] w1 Hf He _. apply wp_bind, wp_modify, wp_ret. pose proof (fwp_elim _ _ _ _ _ Hlen Hf) as Hb.
  eapply effect_store; [by eapply (step_op (OpRead _ _ _ _ _))|done|apply Hty|done].
Qed.

Lemma skip_effect : fwp (gate_skip c) (λ _ w', effect w w') w.
Proof.
  pose proof (ct_bytes _ Hty) as Hn. apply fwp_fn, access_then.
  eapply (wp_op (OpSkip (sc_partition_id c) (sc_msg_handle c) _ _)); [done|exact Hn|done|].
  intros size w1 _ He _. apply wp_ret. eapply effect_op, He; [exact Hn|done].
Qed.

Lemma write_effect : fwp (gate_write (Some d) c) (λ _ w', effect w w') w.
Proof.
  apply fwp_fn. cbv zeta. apply wp_if; intros _; [by apply wp_ret, effect_refl|]. apply wp_bind, wp_gets.
  eapply (wp_op (OpWrite (sc_partition_id c) (sc_msg_handle c) _ _)); [done..|]. intros ret w1 _ He _. apply wp_ret. by eapply effect_op, He.
Qed.

Lemma eoi_effect : fwp (gate_eoi c) (λ _ w', effect w w') w.
Proof.
  assert (0 ≤ sc_signal_mask c < 2 ^ 32) as Hm by apply Hty.
  apply fwp_fn. eapply (wp_op (OpEoi (sc_partition_id c) (sc_signal_mask c))); [done|exact Hm|done|]. intros ret w1 _ He Hwf.
  apply wp_if; intros _; [by apply wp_ret; eapply effect_op, He|]. unfold lookup_irq.
  apply wp_bind, wp_bind, wp_gets, wp_bind. destruct (irq_lookup_total Hwf (sc_partition_id c) (sc_signal_mask c)) as [[r irq] Hr].
  eapply wp_defined; [done|]. apply wp_ret, wp_ret. by eapply effect_op, He.
Qed.

Lemma irq_enable_effect : fwp (gate_irq_enable c) (λ _ w', effect w w') w.
Proof.
  apply fwp_fn. unfold lookup_irq. apply wp_bind, wp_bind, wp_gets, wp_bind.
  destruct (irq_lookup_total Hinv (sc_partition_id c) (sc_signal_mask c)) as [[r irq] Hr].
  eapply wp_defined; [done|]. by apply wp_ret, wp_ret, effect_refl.
Qed.

Lemma version_effect : fwp (gate_version c) (λ _ w', effect w w') w.
Proof.
  apply fwp_fn, wp_bind, wp_gets, wp_bind. destruct (service_version_total Hinv (sc_partition_id c) (sc_sid c)) as [v Hv].
  eapply wp_defined; [done|]. by apply wp_ret, effect_refl.
Qed.

(** The resume pass reaches [harvest] only for a finished request of the
    partition itself. *)
Lemma resume_effect harvest :
  (∀ i m, finished (rt w) i m → m_caller m = sc_partition_id c →
     wp (harvest i) (λ _ w', effect w w') (λ _ w', effect w w') w) →
  wp (resume c harvest) (λ _ w', effect w w') (λ _ w', effect w w') w.
Proof.
  intros Hh. unfold resume. apply wp_bind, wp_gets, wp_bind. destruct (pending_owned_inv Hinv c) as (b & Hb & Hspec).
  eapply wp_defined; [done|]. destruct (sc_pending_msg c) as [i|]; [|by apply wp_ret, effect_refl].
  destruct b; [|by apply wp_ret, effect_refl]. simpl. destruct (Hspec eq_refl) as (i' & m & [= <-] & Hm & Hal & Hc).
  apply wp_bind. eapply (wp_defined _ (m_complete m)).
  { unfold wt_ffm_msg_complete. rewrite (index_guard _ _ _ _ _ Hinv Hm), Hm. simpl. by rewrite Hal. }
  destruct (m_complete m) eqn:E; [|by apply wp_ret, effect_refl]. by apply (Hh i m).
Qed.

Lemma connect_effect : fwp (gate_connect c) (λ _ w', effect w w') w.
Proof.
  apply fwp_fn, wp_if; intros _.
  - eapply (wp_op (OpConnectBegin (sc_partition_id c) (sc_sid c) (sc_version c))); [done|exact not_suspended|done|].
    intros [handle msg] w1 _ He _.
    assert (effect w w1) by (eapply effect_op, He; [exact not_suspended|done]). by apply wp_if; intros _; apply wp_ret.
  - apply resume_effect. intros i m Hf Hc.
    eapply (wp_op (OpConnectFinish i)); [done|exists m; split; [done|congruence]|done|]. intros h w1 _ He _. apply wp_ret.
    eapply effect_op, He; [exists m; split; [done|congruence]|by eapply owner_acts].
Qed.

Lemma call_effect : sc_op c = Some WT_SPM_OP_CALL → fwp (gate_call (Some d) c) (λ _ w', effect w w') w.
Proof.
  intros Hop. apply fwp_fn. cbv zeta. apply wp_if; intros Hpv.
  - apply negb_true_iff in Hpv. apply wp_if; intros _; [by apply wp_ret, effect_refl|].
    assert (admissible s (OpCallBegin (sc_partition_id c) (sc_msg_handle c) (sc_call_type c)
      (Arr (take (sc_sp_in_len c) (sc_sp_in c))) (Arr (take (sc_sp_out_len c) (sc_sp_out c)))) w) as Ha.
    { split_and!; [exact not_suspended|apply Forall_take, Hty..]. }
    eapply wp_any; [done|exact Ha|done|]. intros [status msg] w1 He. apply wp_ret.
    eapply effect_any; [done| |done|done]. intros Ht. by apply Hseq; auto.
  - apply resume_effect. intros i m Hf Hc.
    eapply (wp_op (OpCallFinish i _)); [done|exists m; split; [done|congruence]|done|]. intros [st out] w1 _ He _. apply wp_ret.
    eapply effect_op, He; [exists m; split; [done|congruence]|by eapply owner_acts].
Qed.

Lemma close_effect : sc_op c = Some WT_SPM_OP_CLOSE → fwp (gate_close c) (λ _ w', effect w w') w.
Proof.
  intros Hop. apply fwp_fn, wp_if; intros Hpv.
  - apply negb_true_iff in Hpv.
    assert (admissible s (OpCloseBegin (sc_partition_id c) (sc_msg_handle c)) w) as Ha by exact not_suspended.
    eapply wp_any; [done|exact Ha|done|]. intros [ret msg] w1 He. apply wp_ret.
    eapply effect_any; [done| |done|done]. intros Ht. by apply Hseq; auto.
  - apply resume_effect. intros i m Hf Hc.
    eapply (wp_op (OpCloseFinish i)); [done|exists m; split; [done|congruence]|done|]. intros ret w1 _ He _. apply wp_ret.
    eapply effect_op, He; [exists m; split; [done|congruence]|by eapply owner_acts].
Qed.
End requests.

Lemma gate_effect c w :
  wf (rt w) → call_typed c → (turn → in_sequence c (rt w)) → sc_partition_id c = pid → s ≠ Some pid →
  fwp (wt_spm_gate (Some d) c) (λ _ w', effect w w') w.
Proof.
  intros Hinv Hty Hseq Hpid Hs. set (c0 := gate_start c).
  assert (call_typed c0) as Hty0 by (destruct Hty; by constructor).
  assert (∀ f : wt_spm_call → func world wt_spm_call, fwp (f c0) (λ _ w', effect w w') w →
    wp (R := Z * wt_spm_call) (call' ← CState.call (f c0); mret (WT_FFM_SUCCESS, call'))
      (λ _ w', effect w w') (λ _ w', effect w w') w) as Hrun.
  { intros f Hf. apply wp_bind, wp_call. eapply fwp_mono; [exact Hf|]. intros call' w' ?. by apply wp_ret. }
  apply fwp_fn. cbv zeta. fold c0. change (sc_op c0) with (sc_op c).
  destruct (sc_op c) as [[]|] eqn:Hop; try (by apply wp_early, effect_refl); apply Hrun.
  - by apply wait_effect.
  - by apply get_effect.
  - eapply (simple_request (OpSetRhandle _ _ _)); done.
  - by apply read_effect.
  - by apply skip_effect.
  - by apply write_effect.
  - eapply (simple_request (OpReply _ _ _)); done.
  - eapply (simple_request (OpNotify _)); done.
  - eapply (simple_request (OpClear _)); done.
  - by apply version_effect.
  - by apply connect_effect.
  - by apply call_effect.
  - by apply close_effect.
  - by apply eoi_effect.
  - by apply irq_enable_effect.
  - apply fwp_fn, wp_bind, wp_gets, wp_ret, effect_refl.
Qed.
End steps.
