(* ===== verification/VnetTables.v ===== *)
(** * Descriptor rings of the virtual network: [src/vnet/vnet_ring.c]

    A ring is a circular buffer of receive descriptors. [ring_items] is the
    list it holds, oldest first; every operation is specified on that list.
    [buf] and [capacity] are one list: a null buffer has capacity 0 (see
    [vnet_ring_init]) and is refused by the same guards as an empty one. The
    [uint16_t] casts of the source are identities because [capacity] is a
    [uint16_t], so indices are [nat]. *)

From Stdlib Require Import ZArith Lia.
From stdpp Require Import base list numbers option.
From S2P Require Import Prelude Buffers.

(** [include/wolftrust/vnet/vnet_errors.h] *)
Definition WT_VNET_OK : Z := 0.
Definition WT_VNET_E_BADARG : Z := -3000.
Definition WT_VNET_E_NOTREADY : Z := -3001.
Definition WT_VNET_E_NOT_OPEN : Z := -3003.
Definition WT_VNET_E_INVAL_MAC : Z := -3010.
Definition WT_VNET_E_DUP_MAC : Z := -3011.
Definition WT_VNET_E_NO_MAC : Z := -3012.
Definition WT_VNET_E_SPOOF : Z := -3013.
Definition WT_VNET_E_FRAME_LEN : Z := -3020.
Definition WT_VNET_E_MALFORMED : Z := -3021.
Definition WT_VNET_E_POOL_FULL : Z := -3030.
Definition WT_VNET_E_QUEUE_FULL : Z := -3031.
Definition WT_VNET_E_EMPTY : Z := -3032.
Definition WT_VNET_E_STALE_COOKIE : Z := -3033.
Definition WT_VNET_E_NOT_OWNER : Z := -3034.
Definition WT_VNET_E_DOUBLE_RELEASE : Z := -3035.
Definition WT_VNET_E_DROPPED_UNKNOWN : Z := -3040.
Definition WT_VNET_E_DROPPED_POLICY : Z := -3041.

Record vnet_rx_desc := {
  d_slot : nat;
  d_gen : Z;
  d_len : Z;
  d_flags : Z;
  d_src_vm : Z;
}.

Record vnet_ring := {
  r_buf : list vnet_rx_desc;
  r_head : nat;
  r_tail : nat;
  r_count : nat;
}.
#[export] Instance ring_eta : Settable vnet_ring := λ r,
  {| r_buf := r_buf r; r_head := r_head r; r_tail := r_tail r; r_count := r_count r |}.
#[export] Instance set_r_buf : Setter r_buf. Proof. derive_setter. Defined.
#[export] Instance set_r_head : Setter r_head. Proof. derive_setter. Defined.
#[export] Instance set_r_tail : Setter r_tail. Proof. derive_setter. Defined.
#[export] Instance set_r_count : Setter r_count. Proof. derive_setter. Defined.

Definition r_capacity (r : vnet_ring) : nat := length (r_buf r).

(** ** Operations

    [None] is an access outside the buffer. *)

Definition vnet_ring_init (storage : list vnet_rx_desc) : vnet_ring :=
  {| r_buf := storage; r_head := 0; r_tail := 0; r_count := 0 |}.

Definition vnet_ring_push (r : vnet_ring) (desc : vnet_rx_desc) : option (vnet_ring * Z) :=
  if (r_capacity r =? 0)%nat then Some (r, WT_VNET_E_NOTREADY) else
  if (r_capacity r <=? r_count r)%nat then Some (r, WT_VNET_E_QUEUE_FULL) else
  if (r_capacity r <=? r_head r)%nat then None else
  Some (r <| r_buf := <[r_head r := desc]> (r_buf r) |>
          <| r_head := ((r_head r + 1) mod r_capacity r)%nat |>
          <| r_count := (r_count r + 1)%nat |>, WT_VNET_OK).

Definition vnet_ring_drop_head (r : vnet_ring) : vnet_ring * Z :=
  if (r_capacity r =? 0)%nat then (r, WT_VNET_E_NOTREADY) else
  if (r_count r =? 0)%nat then (r, WT_VNET_E_EMPTY) else
  (r <| r_tail := ((r_tail r + 1) mod r_capacity r)%nat |> <| r_count := (r_count r - 1)%nat |>, WT_VNET_OK).

(** The code and [*out], written on success. *)
Definition vnet_ring_peek (r : vnet_ring) : option (Z + vnet_rx_desc) :=
  if (r_capacity r =? 0)%nat then Some (inl WT_VNET_E_NOTREADY) else
  if (r_count r =? 0)%nat then Some (inl WT_VNET_E_EMPTY) else
  inr <$> r_buf r !! r_tail r.

Definition vnet_ring_pop (r : vnet_ring) : option (vnet_ring * (Z + vnet_rx_desc)) :=
  if (r_capacity r =? 0)%nat then Some (r, inl WT_VNET_E_NOTREADY) else
  if (r_count r =? 0)%nat then Some (r, inl WT_VNET_E_EMPTY) else
  d ← r_buf r !! r_tail r;
  Some (r <| r_tail := ((r_tail r + 1) mod r_capacity r)%nat |> <| r_count := (r_count r - 1)%nat |>, inr d).

Definition vnet_ring_count (r : vnet_ring) : nat := r_count r.
Definition vnet_ring_empty (r : vnet_ring) : bool := (r_count r =? 0)%nat.
Definition vnet_ring_full (r : vnet_ring) : bool := (r_capacity r <=? r_count r)%nat.

(** ** The list a ring holds *)

Record ring_ok (r : vnet_ring) : Prop := {
  ring_count : (r_count r ≤ r_capacity r)%nat;
  ring_tail : (0 < r_capacity r)%nat → (r_tail r < r_capacity r)%nat;
  ring_head : (0 < r_capacity r)%nat → r_head r = ((r_tail r + r_count r) mod r_capacity r)%nat;
}.

Definition ring_items (r : vnet_ring) : list vnet_rx_desc :=
  take (r_count r) (drop (r_tail r) (r_buf r ++ r_buf r)).

Lemma mod_wrap a n : (0 < n → a < 2 * n → a mod n = if a <? n then a else a - n)%nat.
Proof.
  intros Hn Ha. destruct (Nat.ltb_spec a n); [by apply Nat.mod_small|].
  symmetry. apply (Nat.mod_unique _ _ 1); lia.
Qed.

Lemma ring_lookup r j :
  ring_ok r → (j < r_count r)%nat → ring_items r !! j = r_buf r !! ((r_tail r + j) mod r_capacity r)%nat.
Proof.
  intros [Hc Ht _] Hj. unfold ring_items, r_capacity in *.
  rewrite lookup_take_lt, lookup_drop by done. rewrite mod_wrap by lia.
  destruct (Nat.ltb_spec (r_tail r + j) (length (r_buf r))).
  - by rewrite lookup_app_l.
  - by rewrite lookup_app_r.
Qed.

Lemma ring_length r : ring_ok r → length (ring_items r) = r_count r.
Proof.
  intros [Hc Ht _]. unfold ring_items, r_capacity in *. rewrite length_take, length_drop, length_app. lia.
Qed.

Lemma ring_init_ok storage : ring_ok (vnet_ring_init storage).
Proof. split; simpl; unfold r_capacity; simpl; intros; [lia|done|]. by rewrite Nat.Div0.mod_0_l. Qed.
Lemma ring_init_items storage : ring_items (vnet_ring_init storage) = [].
Proof. done. Qed.

(** Pushing appends, unless the ring is full or has no buffer. *)
Lemma ring_push_spec r d :
  ring_ok r →
  if decide (length (ring_items r) < r_capacity r)%nat then
    ∃ r', vnet_ring_push r d = Some (r', WT_VNET_OK) ∧ ring_ok r' ∧ ring_items r' = ring_items r ++ [d] ∧
      r_capacity r' = r_capacity r
  else ∃ e, vnet_ring_push r d = Some (r, e) ∧ e ≠ WT_VNET_OK.
Proof.
  intros Hok. pose proof Hok as [Hc Ht Hh]. rewrite ring_length by done.
  unfold vnet_ring_push. destruct (decide _) as [Hlt|Hge].
  - rewrite (proj2 (Nat.eqb_neq _ _)), (proj2 (Nat.leb_gt _ _)) by lia.
    assert (r_head r < r_capacity r)%nat as Hhead by (rewrite Hh by lia; apply Nat.mod_upper_bound; lia).
    rewrite (proj2 (Nat.leb_gt _ _)) by done. eexists. split; [done|].
    assert (ring_ok (r <| r_buf := <[r_head r := d]> (r_buf r) |> <| r_head := ((r_head r + 1) mod r_capacity r)%nat |>
          <| r_count := (r_count r + 1)%nat |>)) as Hok'.
    { split; unfold r_capacity in *; simpl; rewrite length_insert; [lia|done|]. intros Hpos.
      rewrite Hh by done. rewrite Nat.Div0.add_mod_idemp_l. f_equal. lia. }
    split_and!; [done| |unfold r_capacity; simpl; by rewrite length_insert].
    apply list_eq. intros j. destruct (decide (j < S (r_count r))%nat) as [Hj|Hj].
    + rewrite ring_lookup by (try done; simpl; lia). unfold r_capacity. simpl. rewrite length_insert.
      destruct (decide (j = r_count r)) as [->|Hne].
      * change (length (r_buf r)) with (r_capacity r). rewrite <-Hh by lia. rewrite list_lookup_insert_eq by done.
        rewrite lookup_app_r by (rewrite ring_length; auto). by rewrite ring_length, Nat.sub_diag by done.
      * rewrite lookup_app_l by (rewrite ring_length; [lia|done]). rewrite ring_lookup by (try done; lia).
        apply list_lookup_insert_ne. rewrite Hh by lia. specialize (Ht ltac:(lia)). unfold r_capacity in *.
        rewrite !mod_wrap by lia. destruct (Nat.ltb_spec (r_tail r + r_count r) (length (r_buf r)));
          destruct (Nat.ltb_spec (r_tail r + j) (length (r_buf r))); lia.
    + rewrite !lookup_ge_None_2; [done| |]; [rewrite length_app, ring_length by done; simpl; lia|].
      rewrite ring_length by done. simpl. lia.
  - destruct (Nat.eqb_spec (r_capacity r) 0); [by eexists|].
    rewrite (proj2 (Nat.leb_le _ _)) by lia. by eexists.
Qed.

(** Taking the head away leaves the tail of the list. *)
Lemma ring_shift r :
  ring_ok r → (0 < r_count r)%nat →
  let r' := r <| r_tail := ((r_tail r + 1) mod r_capacity r)%nat |> <| r_count := (r_count r - 1)%nat |> in
  ∃ d, r_buf r !! r_tail r = Some d ∧ ring_ok r' ∧ ring_items r = d :: ring_items r' ∧
    r_capacity r' = r_capacity r.
Proof.
  intros Hok Hpos r'. pose proof Hok as [Hc Ht Hh].
  destruct (lookup_lt_is_Some_2 (r_buf r) (r_tail r)) as [d Hd]; [by apply Ht; lia|].
  assert (ring_ok r') as Hok'.
  { split; unfold r_capacity in *; simpl; [lia| |]; intros Hp; [apply Nat.mod_upper_bound; lia|].
    rewrite Hh by done. rewrite Nat.Div0.add_mod_idemp_l. f_equal. lia. }
  exists d. split_and!; [done|done| |done]. apply list_eq. intros [|j]; simpl.
  - rewrite ring_lookup by done. rewrite Nat.add_0_r, Nat.mod_small by (apply Ht; lia). done.
  - destruct (decide (S j < r_count r)%nat) as [Hj|Hj].
    + rewrite ring_lookup by done. rewrite ring_lookup by (try done; simpl; lia). unfold r_capacity. simpl.
      f_equal. rewrite Nat.Div0.add_mod_idemp_l. f_equal. lia.
    + rewrite !lookup_ge_None_2; [done| |]; rewrite ring_length by done; simpl; lia.
Qed.

Lemma ring_drop_spec r :
  ring_ok r →
  ring_ok (fst (vnet_ring_drop_head r)) ∧ ring_items (fst (vnet_ring_drop_head r)) = tail (ring_items r) ∧
  r_capacity (fst (vnet_ring_drop_head r)) = r_capacity r ∧
  (snd (vnet_ring_drop_head r) = WT_VNET_OK ↔ ring_items r ≠ []).
Proof.
  intros Hok. unfold vnet_ring_drop_head. pose proof Hok as [Hc _ _].
  destruct (Nat.eqb_spec (r_count r) 0) as [Hz|Hnz].
  - assert (ring_items r = []) as E by (apply nil_length_inv; by rewrite ring_length).
    destruct (r_capacity r =? 0)%nat; simpl; rewrite E; split_and!; try done; by split.
  - rewrite (proj2 (Nat.eqb_neq _ _)) by lia.
    destruct (ring_shift r) as (d & _ & Hok' & -> & ?); [done|lia|]. by split_and!.
Qed.

Lemma ring_peek_spec r :
  ring_ok r →
  match ring_items r with
  | [] => ∃ e, vnet_ring_peek r = Some (inl e)
  | d :: _ => vnet_ring_peek r = Some (inr d)
  end.
Proof.
  intros Hok. unfold vnet_ring_peek. pose proof Hok as [Hc _ _].
  destruct (Nat.eqb_spec (r_count r) 0) as [Hz|Hnz].
  - assert (ring_items r = []) as -> by (apply nil_length_inv; by rewrite ring_length).
    destruct (r_capacity r =? 0)%nat; eauto.
  - rewrite (proj2 (Nat.eqb_neq _ _)) by lia.
    destruct (ring_shift r) as (d & -> & _ & -> & _); [done|lia|done].
Qed.

Lemma ring_empty_spec r : ring_ok r → vnet_ring_empty r = bool_decide (ring_items r = []).
Proof.
  intros Hok. unfold vnet_ring_empty. rewrite <-ring_length by done.
  destruct (ring_items r); [by rewrite bool_decide_true|by rewrite bool_decide_false].
Qed.

(** * Addresses, frame pool and forwarding table of the virtual network

    [src/vnet/vnet_mac.c], [src/vnet/vnet_pool.c] and [src/vnet/vnet_fdb.c].
    The caller-owned arrays are lists whose length is the count or capacity
    field; an array whose pointer is null has count 0 and is treated alike by
    the code. [VNET_POOL_BAD_SLOT] is [None]; a pointer to an element is its
    index together with the element. *)

(** [include/wolftrust/vnet/vnet_config.h] *)
Definition WT_VNET_FRAME_MAX : Z := 1536.
Definition WT_VNET_FRAME_MIN : Z := 14.
Definition VNET_MAC_LEN : nat := 6.

(** ** Addresses *)

Record vnet_mac := { b0 : Z; b1 : Z; b2 : Z; b3 : Z; b4 : Z; b5 : Z }.
#[export] Instance mac_eq_dec : EqDecision vnet_mac.
Proof. solve_decision. Defined.

Definition mac_zero : vnet_mac := {| b0 := 0; b1 := 0; b2 := 0; b3 := 0; b4 := 0; b5 := 0 |}.

Definition vnet_mac_is_zero (m : vnet_mac) : bool :=
  b0 m .| b1 m .| b2 m .| b3 m .| b4 m .| b5 m =? 0.
Definition vnet_mac_is_broadcast (m : vnet_mac) : bool :=
  b0 m .& b1 m .& b2 m .& b3 m .& b4 m .& b5 m =? 0xFF.
Definition vnet_mac_is_multicast (m : vnet_mac) : bool := negb (b0 m .& 0x01 =? 0).
Definition vnet_mac_is_locally_administered (m : vnet_mac) : bool := negb (b0 m .& 0x02 =? 0).
Definition vnet_mac_is_locally_administered_unicast (m : vnet_mac) : bool :=
  if vnet_mac_is_zero m then false else
  if vnet_mac_is_multicast m then false else
  vnet_mac_is_locally_administered m.

(** The [uint8_t] casts are identities on the exclusive or of two bytes. *)
Definition vnet_mac_equals (a b : vnet_mac) : bool :=
  Z.lxor (b0 a) (b0 b) .| Z.lxor (b1 a) (b1 b) .| Z.lxor (b2 a) (b2 b) .|
  Z.lxor (b3 a) (b3 b) .| Z.lxor (b4 a) (b4 b) .| Z.lxor (b5 a) (b5 b) =? 0.

Lemma mac_equals_iff a b : vnet_mac_equals a b = true ↔ a = b.
Proof.
  unfold vnet_mac_equals. rewrite Z.eqb_eq, !Z.lor_eq_0_iff, !Z.lxor_eq_0_iff.
  destruct a, b; simpl. naive_solver.
Qed.
Lemma mac_equals_spec a b : vnet_mac_equals a b = bool_decide (a = b).
Proof.
  apply eq_true_iff_eq. by rewrite mac_equals_iff, bool_decide_eq_true.
Qed.

(** [memcpy(mac.b, &frame[off], VNET_MAC_LEN)] *)
Definition mac_at (frame : list Z) (off : nat) : option vnet_mac :=
  x0 ← frame !! off; x1 ← frame !! (off + 1)%nat; x2 ← frame !! (off + 2)%nat;
  x3 ← frame !! (off + 3)%nat; x4 ← frame !! (off + 4)%nat; x5 ← frame !! (off + 5)%nat;
  Some {| b0 := x0; b1 := x1; b2 := x2; b3 := x3; b4 := x4; b5 := x5 |}.

Lemma mac_at_defined frame off : (off + 6 ≤ length frame)%nat → is_Some (mac_at frame off).
Proof.
  intros Hl. unfold mac_at.
  repeat match goal with |- context [frame !! ?i] =>
    let H := fresh in destruct (lookup_lt_is_Some_2 frame i ltac:(lia)) as [? H]; rewrite H; simpl end.
  by eexists.
Qed.
Lemma mac_at_take frame off n : (off + 6 ≤ n)%nat → mac_at (take n frame) off = mac_at frame off.
Proof. intros Hn. unfold mac_at. rewrite !lookup_take_lt by lia. done. Qed.

(** ** Frame pool *)

Record vnet_frame := {
  f_len : Z;
  f_gen : Z;
  f_refcnt : Z;
  f_flags : Z;
  f_src_vm : Z;
  f_dst_mask : Z;
  f_born_tick : Z;
  f_data : list Z;
}.
#[export] Instance frame_eta : Settable vnet_frame := λ f,
  {| f_len := f_len f; f_gen := f_gen f; f_refcnt := f_refcnt f; f_flags := f_flags f; f_src_vm := f_src_vm f;
     f_dst_mask := f_dst_mask f; f_born_tick := f_born_tick f; f_data := f_data f |}.
#[export] Instance set_f_len : Setter f_len. Proof. derive_setter. Defined.
#[export] Instance set_f_gen : Setter f_gen. Proof. derive_setter. Defined.
#[export] Instance set_f_refcnt : Setter f_refcnt. Proof. derive_setter. Defined.
#[export] Instance set_f_flags : Setter f_flags. Proof. derive_setter. Defined.
#[export] Instance set_f_src_vm : Setter f_src_vm. Proof. derive_setter. Defined.
#[export] Instance set_f_dst_mask : Setter f_dst_mask. Proof. derive_setter. Defined.
#[export] Instance set_f_born_tick : Setter f_born_tick. Proof. derive_setter. Defined.
#[export] Instance set_f_data : Setter f_data. Proof. derive_setter. Defined.

Record vnet_pool := { pl_slots : list vnet_frame; pl_in_use_count : Z }.
#[export] Instance pool_eta : Settable vnet_pool := λ p,
  {| pl_slots := pl_slots p; pl_in_use_count := pl_in_use_count p |}.
#[export] Instance set_pl_slots : Setter pl_slots. Proof. derive_setter. Defined.
#[export] Instance set_pl_in_use_count : Setter pl_in_use_count. Proof. derive_setter. Defined.

(** The frame buffers keep whatever bytes the storage held. *)
Definition vnet_pool_init (storage : list vnet_frame) : vnet_pool :=
  {| pl_slots := (λ f, f <| f_refcnt := 0 |> <| f_gen := 0 |> <| f_len := 0 |> <| f_flags := 0 |>
                         <| f_src_vm := 0 |> <| f_dst_mask := 0 |> <| f_born_tick := 0 |>) <$> storage;
     pl_in_use_count := 0 |}.

(** The first element that satisfies a test, with its index. *)
Fixpoint find_elem {A} (test : A → bool) (l : list A) : option (nat * A) :=
  match l with
  | [] => None
  | x :: l' => if test x then Some (0%nat, x) else prod_map S id <$> find_elem test l'
  end.

Definition vnet_pool_alloc (p : vnet_pool) (now_tick : Z) : vnet_pool * option nat :=
  match find_elem (λ f, f_refcnt f =? 0) (pl_slots p) with
  | None => (p, None)
  | Some (i, f) =>
    (p <| pl_slots := <[i := f <| f_gen := u16 (f_gen f + 1) |> <| f_refcnt := 1 |> <| f_len := 0 |>
                              <| f_flags := 0 |> <| f_src_vm := 0 |> <| f_dst_mask := 0 |>
                              <| f_born_tick := now_tick |>]> (pl_slots p) |>
       <| pl_in_use_count := u16 (pl_in_use_count p + 1) |>, Some i)
  end.

Definition vnet_pool_ref (p : vnet_pool) (slot : nat) (gen : Z) : vnet_pool * Z :=
  match pl_slots p !! slot with
  | None => (p, WT_VNET_E_BADARG)
  | Some f =>
    if f_refcnt f =? 0 then (p, WT_VNET_E_STALE_COOKIE) else
    if negb (f_gen f =? gen) then (p, WT_VNET_E_STALE_COOKIE) else
    if f_refcnt f =? 0xFFFF then (p, WT_VNET_E_BADARG) else
    (p <| pl_slots := <[slot := f <| f_refcnt := u16 (f_refcnt f + 1) |>]> (pl_slots p) |>, WT_VNET_OK)
  end.

(** [if (p->in_use_count > 0U) p->in_use_count--;] *)
Definition one_less_in_use (p : vnet_pool) : vnet_pool :=
  if pl_in_use_count p >? 0 then p <| pl_in_use_count := pl_in_use_count p - 1 |> else p.

Definition vnet_pool_release (p : vnet_pool) (slot : nat) (gen : Z) : vnet_pool * Z :=
  match pl_slots p !! slot with
  | None => (p, WT_VNET_E_BADARG)
  | Some f =>
    if negb (f_gen f =? gen) then (p, WT_VNET_E_STALE_COOKIE) else
    if f_refcnt f =? 0 then (p, WT_VNET_E_DOUBLE_RELEASE) else
    let f' := f <| f_refcnt := u16 (f_refcnt f - 1) |> in
    let p' := p <| pl_slots := <[slot := f']> (pl_slots p) |> in
    if f_refcnt f' =? 0 then (one_less_in_use p', 1) else (p', 0)
  end.

Definition vnet_pool_force_free (p : vnet_pool) (slot : nat) : vnet_pool * Z :=
  match pl_slots p !! slot with
  | None => (p, WT_VNET_E_BADARG)
  | Some f =>
    if f_refcnt f =? 0 then (p, WT_VNET_E_DOUBLE_RELEASE) else
    (one_less_in_use (p <| pl_slots := <[slot := f <| f_refcnt := 0 |>]> (pl_slots p) |>), WT_VNET_OK)
  end.

(** [age >= timeout_ticks], with the 32-bit age of the frame. *)
Definition expired (now_tick timeout_ticks : Z) (f : vnet_frame) : bool :=
  u32 (now_tick - f_born_tick f) >=? timeout_ticks.

(** One iteration of the loop; the state includes [freed]. *)
Definition expire_slot (now_tick timeout_ticks : Z) (st : vnet_pool * Z) (i : nat) : vnet_pool * Z :=
  let '(p, freed) := st in
  match pl_slots p !! i with
  | None => st
  | Some f =>
    if f_refcnt f =? 0 then st else
    if expired now_tick timeout_ticks f then
      (one_less_in_use (p <| pl_slots := <[i := f <| f_refcnt := 0 |>]> (pl_slots p) |>), u16 (freed + 1))
    else st
  end.

Definition vnet_pool_drop_expired (p : vnet_pool) (now_tick timeout_ticks : Z) : vnet_pool * Z :=
  if timeout_ticks =? 0 then (p, 0) else
  foldl (expire_slot now_tick timeout_ticks) (p, 0) (seq 0 (length (pl_slots p))).

Definition vnet_pool_slot (p : vnet_pool) (slot : nat) (gen : Z) : option vnet_frame :=
  f ← pl_slots p !! slot;
  if f_refcnt f =? 0 then None else
  if negb (f_gen f =? gen) then None else Some f.

Definition vnet_pool_free_count (p : vnet_pool) : Z :=
  u16 (Z.of_nat (length (pl_slots p)) - pl_in_use_count p).
Definition vnet_pool_in_use_count (p : vnet_pool) : Z := pl_in_use_count p.

(** ** Forwarding table *)

Definition VNET_FDB_NO_VM : Z := 0xFFFFFFFF.

Inductive vnet_fdb_kind := VNET_FDB_EMPTY | VNET_FDB_ASSIGNED | VNET_FDB_LEARNED.
#[export] Instance fdb_kind_eq_dec : EqDecision vnet_fdb_kind.
Proof. solve_decision. Defined.

Record vnet_fdb_entry := { e_mac : vnet_mac; e_guest_id : Z; e_kind : vnet_fdb_kind }.
#[export] Instance fdb_entry_eta : Settable vnet_fdb_entry := λ e,
  {| e_mac := e_mac e; e_guest_id := e_guest_id e; e_kind := e_kind e |}.
#[export] Instance set_e_mac : Setter e_mac. Proof. derive_setter. Defined.
#[export] Instance set_e_guest_id : Setter e_guest_id. Proof. derive_setter. Defined.
#[export] Instance set_e_kind : Setter e_kind. Proof. derive_setter. Defined.

Abbreviation vnet_fdb := (list vnet_fdb_entry).

Definition is_kind (k : vnet_fdb_kind) (e : vnet_fdb_entry) : bool := bool_decide (e_kind e = k).

Definition fdb_find_mac (fdb : vnet_fdb) (mac : vnet_mac) : option (nat * vnet_fdb_entry) :=
  find_elem (λ e, negb (is_kind VNET_FDB_EMPTY e) && vnet_mac_equals (e_mac e) mac) fdb.
Definition fdb_find_assigned_by_guest (fdb : vnet_fdb) (guest_id : Z) : option (nat * vnet_fdb_entry) :=
  find_elem (λ e, is_kind VNET_FDB_ASSIGNED e && (e_guest_id e =? guest_id)) fdb.
Definition fdb_find_empty (fdb : vnet_fdb) : option (nat * vnet_fdb_entry) :=
  find_elem (is_kind VNET_FDB_EMPTY) fdb.
Definition fdb_evict_oldest_learned (fdb : vnet_fdb) : option (nat * vnet_fdb_entry) :=
  find_elem (is_kind VNET_FDB_LEARNED) fdb.

Definition vnet_fdb_init (storage : list vnet_fdb_entry) : vnet_fdb :=
  (λ e, e <| e_kind := VNET_FDB_EMPTY |> <| e_guest_id := VNET_FDB_NO_VM |>) <$> storage.

(** A free slot, or one taken from a learned entry. *)
Definition fdb_slot (fdb : vnet_fdb) : option (nat * vnet_fdb_entry) :=
  match fdb_find_empty fdb with
  | Some r => Some r
  | None => fdb_evict_oldest_learned fdb
  end.

Definition vnet_fdb_assign (fdb : vnet_fdb) (guest_id : Z) (mac : vnet_mac) : vnet_fdb * Z :=
  if guest_id =? VNET_FDB_NO_VM then (fdb, WT_VNET_E_BADARG) else
  if negb (vnet_mac_is_locally_administered_unicast mac) then (fdb, WT_VNET_E_INVAL_MAC) else
  let by_mac := fdb_find_mac fdb mac in
  let by_guest := fdb_find_assigned_by_guest fdb guest_id in
  match by_mac with
  | Some (_, {| e_kind := VNET_FDB_ASSIGNED; e_guest_id := owner |}) =>
    (fdb, if owner =? guest_id then WT_VNET_OK else WT_VNET_E_DUP_MAC)
  | _ =>
    if bool_decide (is_Some by_guest) && negb (bool_decide (fst <$> by_mac = fst <$> by_guest))
    then (fdb, WT_VNET_E_DUP_MAC) else
    match by_mac with
    | Some (i, e) =>
      (<[i := e <| e_kind := VNET_FDB_ASSIGNED |> <| e_guest_id := guest_id |>]> fdb, WT_VNET_OK)
    | None =>
      match fdb_slot fdb with
      | None => (fdb, WT_VNET_E_NOTREADY)
      | Some (i, _) =>
        (<[i := {| e_mac := mac; e_guest_id := guest_id; e_kind := VNET_FDB_ASSIGNED |}]> fdb, WT_VNET_OK)
      end
    end
  end.

Definition vnet_fdb_release (fdb : vnet_fdb) (guest_id : Z) : vnet_fdb :=
  (λ e, if is_kind VNET_FDB_EMPTY e then e else
        if negb (e_guest_id e =? guest_id) then e else
        e <| e_kind := VNET_FDB_EMPTY |> <| e_guest_id := VNET_FDB_NO_VM |>) <$> fdb.

Definition vnet_fdb_learn (fdb : vnet_fdb) (guest_id : Z) (mac : vnet_mac) : vnet_fdb * Z :=
  if guest_id =? VNET_FDB_NO_VM then (fdb, WT_VNET_E_BADARG) else
  if vnet_mac_is_multicast mac || vnet_mac_is_zero mac then (fdb, WT_VNET_E_BADARG) else
  match fdb_find_mac fdb mac with
  | Some (i, e) =>
    if is_kind VNET_FDB_ASSIGNED e then
      (fdb, if e_guest_id e =? guest_id then WT_VNET_OK else WT_VNET_E_SPOOF)
    else (<[i := e <| e_guest_id := guest_id |> <| e_kind := VNET_FDB_LEARNED |>]> fdb, WT_VNET_OK)
  | None =>
    match fdb_slot fdb with
    | None => (fdb, WT_VNET_E_NOTREADY)
    | Some (i, _) =>
      (<[i := {| e_mac := mac; e_guest_id := guest_id; e_kind := VNET_FDB_LEARNED |}]> fdb, WT_VNET_OK)
    end
  end.

Definition vnet_fdb_lookup (fdb : vnet_fdb) (mac : vnet_mac) : Z :=
  if vnet_mac_is_multicast mac || vnet_mac_is_zero mac then VNET_FDB_NO_VM else
  match fdb_find_mac fdb mac with
  | None => VNET_FDB_NO_VM
  | Some (_, e) => e_guest_id e
  end.

Definition vnet_fdb_get_assigned (fdb : vnet_fdb) (guest_id : Z) : option vnet_mac :=
  e_mac ∘ snd <$> fdb_find_assigned_by_guest fdb guest_id.
