(* ===== verification/VnetSwitch.v ===== *)
(** * The virtual network switch: [src/vnet/vnet_switch.c]

    Each guest has a port ([vnet_vnic]) with a ring of descriptors that name
    frames in the shared pool. Guest ids are [uint32_t] values; a port is
    found by its index. The statistics are 32-bit counters that wrap. *)

From Stdlib Require Import ZArith Lia.
From stdpp Require Import base list numbers option.
From S2P Require Import Prelude Buffers CState VnetTables.

Definition WT_VNET_ABI_VERSION : Z := 1.
Definition WT_VNET_RX_IRQ : Z := 130.

Record vnet_stats := {
  tx_frames : Z; tx_bytes : Z; rx_frames : Z; rx_bytes : Z;
  drop_pool_full : Z; drop_queue_full : Z; drop_unknown_unicast : Z; drop_policy : Z; drop_timeout : Z;
  err_malformed : Z; err_spoof_src_mac : Z; err_dup_mac_assign : Z; err_invalid_mac_assign : Z; err_release : Z;
}.
#[export] Instance stats_eta : Settable vnet_stats := λ s,
  {| tx_frames := tx_frames s; tx_bytes := tx_bytes s; rx_frames := rx_frames s; rx_bytes := rx_bytes s;
     drop_pool_full := drop_pool_full s; drop_queue_full := drop_queue_full s;
     drop_unknown_unicast := drop_unknown_unicast s; drop_policy := drop_policy s; drop_timeout := drop_timeout s;
     err_malformed := err_malformed s; err_spoof_src_mac := err_spoof_src_mac s;
     err_dup_mac_assign := err_dup_mac_assign s; err_invalid_mac_assign := err_invalid_mac_assign s;
     err_release := err_release s |}.
#[export] Instance set_tx_frames : Setter tx_frames. Proof. derive_setter. Defined.
#[export] Instance set_tx_bytes : Setter tx_bytes. Proof. derive_setter. Defined.
#[export] Instance set_rx_frames : Setter rx_frames. Proof. derive_setter. Defined.
#[export] Instance set_rx_bytes : Setter rx_bytes. Proof. derive_setter. Defined.
#[export] Instance set_drop_pool_full : Setter drop_pool_full. Proof. derive_setter. Defined.
#[export] Instance set_drop_queue_full : Setter drop_queue_full. Proof. derive_setter. Defined.
#[export] Instance set_drop_unknown_unicast : Setter drop_unknown_unicast. Proof. derive_setter. Defined.
#[export] Instance set_drop_policy : Setter drop_policy. Proof. derive_setter. Defined.
#[export] Instance set_drop_timeout : Setter drop_timeout. Proof. derive_setter. Defined.
#[export] Instance set_err_malformed : Setter err_malformed. Proof. derive_setter. Defined.
#[export] Instance set_err_spoof_src_mac : Setter err_spoof_src_mac. Proof. derive_setter. Defined.
#[export] Instance set_err_dup_mac_assign : Setter err_dup_mac_assign. Proof. derive_setter. Defined.
#[export] Instance set_err_invalid_mac_assign : Setter err_invalid_mac_assign. Proof. derive_setter. Defined.
#[export] Instance set_err_release : Setter err_release. Proof. derive_setter. Defined.

Definition stats_zero : vnet_stats :=
  {| tx_frames := 0; tx_bytes := 0; rx_frames := 0; rx_bytes := 0; drop_pool_full := 0; drop_queue_full := 0;
     drop_unknown_unicast := 0; drop_policy := 0; drop_timeout := 0; err_malformed := 0; err_spoof_src_mac := 0;
     err_dup_mac_assign := 0; err_invalid_mac_assign := 0; err_release := 0 |}.

Record vnet_vnic := {
  v_open : bool;
  v_mac_set : bool;
  v_mac : vnet_mac;
  v_mtu : Z;
  v_rx_irq_pending : bool;
  v_rxq : vnet_ring;
  v_stats : vnet_stats;
}.
#[export] Instance vnic_eta : Settable vnet_vnic := λ v,
  {| v_open := v_open v; v_mac_set := v_mac_set v; v_mac := v_mac v; v_mtu := v_mtu v;
     v_rx_irq_pending := v_rx_irq_pending v; v_rxq := v_rxq v; v_stats := v_stats v |}.
#[export] Instance set_v_open : Setter v_open. Proof. derive_setter. Defined.
#[export] Instance set_v_mac_set : Setter v_mac_set. Proof. derive_setter. Defined.
#[export] Instance set_v_mac : Setter v_mac. Proof. derive_setter. Defined.
#[export] Instance set_v_rx_irq_pending : Setter v_rx_irq_pending. Proof. derive_setter. Defined.
#[export] Instance set_v_rxq : Setter v_rxq. Proof. derive_setter. Defined.
#[export] Instance set_v_stats : Setter v_stats. Proof. derive_setter. Defined.

Record vnet_switch := {
  sw_vnics : list vnet_vnic;
  sw_pool : vnet_pool;
  sw_fdb : vnet_fdb;
  sw_unknown_unicast_flood : bool;
  sw_global_stats : vnet_stats;
}.
#[export] Instance switch_eta : Settable vnet_switch := λ s,
  {| sw_vnics := sw_vnics s; sw_pool := sw_pool s; sw_fdb := sw_fdb s;
     sw_unknown_unicast_flood := sw_unknown_unicast_flood s; sw_global_stats := sw_global_stats s |}.
#[export] Instance set_sw_vnics : Setter sw_vnics. Proof. derive_setter. Defined.
#[export] Instance set_sw_pool : Setter sw_pool. Proof. derive_setter. Defined.
#[export] Instance set_sw_fdb : Setter sw_fdb. Proof. derive_setter. Defined.
#[export] Instance set_sw_global_stats : Setter sw_global_stats. Proof. derive_setter. Defined.

(** [include/wolftrust/vnet/vnet_abi.h] *)
Record vnet_info := {
  info_abi_version : Z; info_features : Z; info_mtu : Z; info_rx_irq : Z;
  info_default_mac : vnet_mac; info_mac_set : bool;
}.
Record vnet_rx_meta := {
  meta_token_slot : nat; meta_token_gen : Z; meta_len : Z; meta_flags : Z; meta_src_vm : Z;
}.

(** ** Start-up *)

Definition vnic_reset (ring_storage : list vnet_rx_desc) : vnet_vnic :=
  {| v_open := false; v_mac_set := false; v_mac := mac_zero; v_mtu := WT_VNET_FRAME_MAX;
     v_rx_irq_pending := false; v_rxq := vnet_ring_init ring_storage; v_stats := stats_zero |}.

(** [rx_ring_storage] has one buffer of [rx_ring_capacity] descriptors per
    guest (a null one is empty); [nvm] is their number. *)
Definition vnet_switch_init (frame_storage : list vnet_frame) (fdb_storage : list vnet_fdb_entry)
    (rx_ring_storage : list (list vnet_rx_desc)) (rx_ring_capacity : nat) (unknown_unicast_flood : bool) :
    Z + vnet_switch :=
  if (length rx_ring_storage =? 0)%nat || (length frame_storage =? 0)%nat || (length fdb_storage =? 0)%nat ||
     (rx_ring_capacity =? 0)%nat
  then inl WT_VNET_E_BADARG else
  inr {| sw_vnics := vnic_reset <$> rx_ring_storage;
         sw_pool := vnet_pool_init frame_storage;
         sw_fdb := vnet_fdb_init fdb_storage;
         sw_unknown_unicast_flood := unknown_unicast_flood;
         sw_global_stats := stats_zero |}.

(** ** Access *)

Definition nvm (sw : vnet_switch) : Z := Z.of_nat (length (sw_vnics sw)).

(** [vnic_of] and [vnic_of_const]: the index of the port. *)
Definition vnic_of (sw : vnet_switch) (vm_id : Z) : option nat :=
  if vm_id >=? nvm sw then None else Some (Z.to_nat vm_id).

Section access.
Context {R : Type}.
Definition get_vnic (k : nat) : prog vnet_switch R vnet_vnic :=
  sw ← gets id; defined (sw_vnics sw !! k).
Definition put_vnic (k : nat) (v : vnet_vnic) (sw : vnet_switch) : vnet_switch :=
  sw <| sw_vnics := <[k := v]> (sw_vnics sw) |>.
Definition mod_vnic (k : nat) (f : vnet_vnic → vnet_vnic) : prog vnet_switch R unit :=
  v ← get_vnic k; modify (put_vnic k (f v)).
Definition set_pool (p : vnet_pool) : prog vnet_switch R unit := modify (λ sw, sw <| sw_pool := p |>).

(** [v->stats.x++; sw->global_stats.x++;] *)
Definition bump (k : nat) (f : vnet_stats → vnet_stats) : prog vnet_switch R unit :=
  mod_vnic k (λ v, v <| v_stats := f (v_stats v) |>);;
  modify (λ sw, sw <| sw_global_stats := f (sw_global_stats sw) |>).

Lemma wp_get_vnic k v E (Q : vnet_vnic → vnet_switch → Prop) sw :
  sw_vnics sw !! k = Some v → Q v sw → wp (get_vnic k) E Q sw.
Proof. intros Hk HQ. apply wp_bind, wp_gets. by eapply wp_defined. Qed.
Lemma wp_mod_vnic k v f E (Q : unit → vnet_switch → Prop) sw :
  sw_vnics sw !! k = Some v → Q tt (put_vnic k (f v) sw) → wp (mod_vnic k f) E Q sw.
Proof. intros Hk HQ. apply wp_bind. by eapply wp_get_vnic. Qed.
End access.

Definition inc (x : Z) : Z := u32 (x + 1).

Definition vnet_switch_open (vm_id : Z) (info_out : bool) : func vnet_switch (Z * option vnet_info) := fn (
  sw ← gets id;
  match vnic_of sw vm_id with
  | None => early (WT_VNET_E_BADARG, None)
  | Some k =>
    mod_vnic k (λ v, v <| v_open := true |>);;
    v ← get_vnic k;
    mret (WT_VNET_OK,
      if info_out then
        Some {| info_abi_version := WT_VNET_ABI_VERSION; info_features := 0; info_mtu := v_mtu v;
                info_rx_irq := WT_VNET_RX_IRQ;
                info_default_mac := if v_mac_set v then v_mac v else mac_zero;
                info_mac_set := v_mac_set v |}
      else None)
  end).

Definition vnet_switch_assign_mac (vm_id : Z) (mac : vnet_mac) : func vnet_switch Z := fn (
  sw ← gets id;
  match vnic_of sw vm_id with
  | None => early WT_VNET_E_BADARG
  | Some k =>
    v ← get_vnic k;
    if negb (v_open v) then early WT_VNET_E_NOT_OPEN else
    if negb (vnet_mac_is_locally_administered_unicast mac) then
      bump k (λ s, s <| err_invalid_mac_assign := inc (err_invalid_mac_assign s) |>);;
      early WT_VNET_E_INVAL_MAC
    else if v_mac_set v && negb (vnet_mac_equals (v_mac v) mac) then
      bump k (λ s, s <| err_dup_mac_assign := inc (err_dup_mac_assign s) |>);;
      early WT_VNET_E_DUP_MAC
    else
    let '(fdb, rc) := vnet_fdb_assign (sw_fdb sw) vm_id mac in
    modify (λ sw, sw <| sw_fdb := fdb |>);;
    if negb (rc =? WT_VNET_OK) then
      (if rc =? WT_VNET_E_DUP_MAC then
         bump k (λ s, s <| err_dup_mac_assign := inc (err_dup_mac_assign s) |>)
       else when (rc =? WT_VNET_E_INVAL_MAC)
         (bump k (λ s, s <| err_invalid_mac_assign := inc (err_invalid_mac_assign s) |>)));;
      early rc
    else
      mod_vnic k (λ v, v <| v_mac := mac |> <| v_mac_set := true |>);;
      mret WT_VNET_OK
  end).

(** ** Transmission *)

(** The ring after a push is taken back. *)
Definition undo_push (r : vnet_ring) : vnet_ring :=
  if (0 <? r_count r)%nat then
    r <| r_head := (if (r_head r =? 0)%nat then r_capacity r - 1 else r_head r - 1)%nat |>
      <| r_count := (r_count r - 1)%nat |>
  else r.

Definition try_deliver_one (dst : nat) (slot : nat) (gen len src_vm : Z) : func vnet_switch Z := fn (
  v ← get_vnic dst;
  if negb (v_open v) then early WT_VNET_E_DROPPED_POLICY else
  let desc := {| d_slot := slot; d_gen := gen; d_len := len; d_flags := 0; d_src_vm := src_vm |} in
  '(r, rc) ← defined (vnet_ring_push (v_rxq v) desc);
  if negb (rc =? WT_VNET_OK) then
    bump dst (λ s, s <| drop_queue_full := inc (drop_queue_full s) |>);;
    early rc
  else
  mod_vnic dst (λ v, v <| v_rxq := r |>);;
  sw ← gets id;
  let '(p, rc) := vnet_pool_ref (sw_pool sw) slot gen in
  set_pool p;;
  if negb (rc =? WT_VNET_OK) then
    mod_vnic dst (λ v, v <| v_rxq := undo_push (v_rxq v) |>);;
    early WT_VNET_E_NOTREADY
  else
  mod_vnic dst (λ v, v <| v_rx_irq_pending := true |>);;
  bump dst (λ s, s <| rx_frames := inc (rx_frames s) |> <| rx_bytes := u32 (rx_bytes s + len) |>);;
  mret WT_VNET_OK).

(** One delivery attempt; the number of deliveries so far. *)
Definition deliver_to {R} (slot : nat) (gen len src_vm : Z) (dst : nat) (deliveries : Z) : prog vnet_switch R Z :=
  rc ← call (try_deliver_one dst slot gen len src_vm);
  mret (if rc =? WT_VNET_OK then deliveries + 1 else deliveries).

(** The loop over the ports other than the source. *)
Definition deliver_all {R} (slot : nat) (gen len src_vm : Z) : prog vnet_switch R Z :=
  sw ← gets id;
  for_acc (seq 0 (length (sw_vnics sw))) (λ i deliveries,
    if Z.of_nat i =? src_vm then mret deliveries
    else deliver_to slot gen len src_vm i deliveries) 0.

(** The choice of destinations: the number of deliveries. *)
Definition forward {R} (slot : nat) (gen len src_vm : Z) (dst_mac : vnet_mac) : prog vnet_switch R Z :=
  if negb (vnet_mac_is_multicast dst_mac) then
    sw ← gets id;
    let dst_vm := vnet_fdb_lookup (sw_fdb sw) dst_mac in
    if negb (dst_vm =? VNET_FDB_NO_VM) && negb (dst_vm =? src_vm) then
      match vnic_of sw dst_vm with
      | None => mret 0
      | Some dst => deliver_to slot gen len src_vm dst 0
      end
    else if (dst_vm =? VNET_FDB_NO_VM) && sw_unknown_unicast_flood sw
    then deliver_all slot gen len src_vm
    else mret 0
  else deliver_all slot gen len src_vm.

(** The copy of the frame into its slot. *)
Definition fill_slot {R} (slot : nat) (frame : list Z) (src_vm : Z) : prog vnet_switch R unit :=
  sw ← gets id;
  f ← defined (pl_slots (sw_pool sw) !! slot);
  data ← defined (buf_write (f_data f) 0 frame);
  set_pool (sw_pool sw <| pl_slots :=
    <[slot := f <| f_data := data |> <| f_len := Z.of_nat (length frame) |> <| f_src_vm := src_vm |>
                <| f_dst_mask := 0 |>]> (pl_slots (sw_pool sw)) |>).

(** Drop the scratch reference. *)
Definition release_scratch {R} (slot : nat) (gen : Z) : prog vnet_switch R unit :=
  sw ← gets id; set_pool (fst (vnet_pool_release (sw_pool sw) slot gen)).

(** From the copy into the slot that was taken to the end. *)
Definition send_copied (k slot : nat) (frame : list Z) (src_vm : Z) (dst_mac : vnet_mac) : prog vnet_switch Z Z :=
  let len := Z.of_nat (length frame) in
  sw ← gets id;
  gen ← defined (f_gen <$> pl_slots (sw_pool sw) !! slot);
  fill_slot slot frame src_vm;;
  bump k (λ s, s <| tx_frames := inc (tx_frames s) |> <| tx_bytes := u32 (tx_bytes s + len) |>);;
  if vnet_mac_is_zero dst_mac then
    bump k (λ s, s <| err_malformed := inc (err_malformed s) |>);;
    release_scratch slot gen;;
    early WT_VNET_E_MALFORMED
  else
  deliveries ← forward slot gen len src_vm dst_mac;
  release_scratch slot gen;;
  if deliveries =? 0 then
    if negb (vnet_mac_is_multicast dst_mac) then
      bump k (λ s, s <| drop_unknown_unicast := inc (drop_unknown_unicast s) |>);;
      early WT_VNET_E_DROPPED_UNKNOWN
    else
    bump k (λ s, s <| drop_policy := inc (drop_policy s) |>);;
    early WT_VNET_E_DROPPED_POLICY
  else mret WT_VNET_OK.

(** [frame] holds the [len] bytes. *)
Definition vnet_switch_tx (src_vm : Z) (frame : list Z) (now_tick : Z) : func vnet_switch Z := fn (
  let len := Z.of_nat (length frame) in
  sw ← gets id;
  match vnic_of sw src_vm with
  | None => early WT_VNET_E_BADARG
  | Some k =>
    src ← get_vnic k;
    if negb (v_open src) then early WT_VNET_E_NOT_OPEN else
    if negb (v_mac_set src) then
      bump k (λ s, s <| err_spoof_src_mac := inc (err_spoof_src_mac s) |>);;
      early WT_VNET_E_NO_MAC
    else if (len <? WT_VNET_FRAME_MIN) || (len >? WT_VNET_FRAME_MAX) then
      bump k (λ s, s <| err_malformed := inc (err_malformed s) |>);;
      early WT_VNET_E_FRAME_LEN
    else
    dst_mac ← defined (mac_at frame 0);
    src_mac ← defined (mac_at frame VNET_MAC_LEN);
    if vnet_mac_is_zero src_mac || vnet_mac_is_multicast src_mac then
      bump k (λ s, s <| err_malformed := inc (err_malformed s) |>);;
      early WT_VNET_E_MALFORMED
    else if negb (vnet_mac_equals src_mac (v_mac src)) then
      bump k (λ s, s <| err_spoof_src_mac := inc (err_spoof_src_mac s) |>);;
      early WT_VNET_E_SPOOF
    else
    modify (λ sw, sw <| sw_fdb := fst (vnet_fdb_learn (sw_fdb sw) src_vm src_mac) |>);;
    sw ← gets id;
    let '(p, r) := vnet_pool_alloc (sw_pool sw) now_tick in
    set_pool p;;
    match r with
    | None =>
      bump k (λ s, s <| drop_pool_full := inc (drop_pool_full s) |>);;
      early WT_VNET_E_POOL_FULL
    | Some slot => send_copied k slot frame src_vm dst_mac
    end
  end).

(** ** Reception *)

(** The [while] loop; each iteration uses one unit of fuel. *)
Fixpoint skip_stale (fuel : nat) (p : vnet_pool) (r : vnet_ring) : option vnet_ring :=
  match fuel with
  | O => None
  | S fuel' =>
    head ← vnet_ring_peek r;
    match head with
    | inl _ => Some r
    | inr desc =>
      match vnet_pool_slot p (d_slot desc) (d_gen desc) with
      | Some _ => Some r
      | None => skip_stale fuel' p (fst (vnet_ring_drop_head r))
      end
    end
  end.

(** A ring of [count] descriptors is empty after [count] iterations. *)
Definition skip_stale_head {R} (k : nat) : prog vnet_switch R unit :=
  sw ← gets id;
  v ← get_vnic k;
  r ← defined (skip_stale (S (r_count (v_rxq v))) (sw_pool sw) (v_rxq v));
  mod_vnic k (λ v, v <| v_rxq := r |>).

Definition vnet_switch_poll_rx (vm_id : Z) : func vnet_switch (Z + vnet_rx_meta) := fn (
  sw ← gets id;
  match vnic_of sw vm_id with
  | None => early (inl WT_VNET_E_BADARG)
  | Some k =>
    v ← get_vnic k;
    if negb (v_open v) then early (inl WT_VNET_E_NOT_OPEN) else
    skip_stale_head k;;
    v ← get_vnic k;
    if vnet_ring_empty (v_rxq v) then
      mod_vnic k (λ v, v <| v_rx_irq_pending := false |>);;
      early (inl WT_VNET_E_EMPTY)
    else
    r ← defined (vnet_ring_peek (v_rxq v));
    match r with
    | inl rc => early (inl rc)
    | inr desc =>
      mret (inr {| meta_token_slot := d_slot desc; meta_token_gen := d_gen desc; meta_len := d_len desc;
                   meta_flags := d_flags desc; meta_src_vm := d_src_vm desc |})
    end
  end).

(** The code and the bytes copied to [dst]. *)
Definition vnet_switch_read_rx (vm_id : Z) (slot : nat) (gen : Z) (dst_len : Z) :
    func vnet_switch (Z * list Z) := fn (
  sw ← gets id;
  match vnic_of sw vm_id with
  | None => early (WT_VNET_E_BADARG, [])
  | Some k =>
    v ← get_vnic k;
    if negb (v_open v) then early (WT_VNET_E_NOT_OPEN, []) else
    skip_stale_head k;;
    v ← get_vnic k;
    r ← defined (vnet_ring_peek (v_rxq v));
    match r with
    | inl _ => early (WT_VNET_E_EMPTY, [])
    | inr head =>
      if negb (d_slot head =? slot)%nat || negb (d_gen head =? gen) then early (WT_VNET_E_NOT_OWNER, []) else
      match vnet_pool_slot (sw_pool sw) slot gen with
      | None => early (WT_VNET_E_STALE_COOKIE, [])
      | Some f =>
        if dst_len <? f_len f then early (WT_VNET_E_BADARG, []) else
        bytes ← defined (buf_read (f_data f) 0 (f_len f));
        mret (f_len f, bytes)
      end
    end
  end).

Definition vnet_switch_release_rx (vm_id : Z) (slot : nat) (gen : Z) : func vnet_switch Z := fn (
  sw ← gets id;
  match vnic_of sw vm_id with
  | None => early WT_VNET_E_BADARG
  | Some k =>
    v ← get_vnic k;
    if negb (v_open v) then early WT_VNET_E_NOT_OPEN else
    skip_stale_head k;;
    v ← get_vnic k;
    r ← defined (vnet_ring_peek (v_rxq v));
    match r with
    | inl _ =>
      bump k (λ s, s <| err_release := inc (err_release s) |>);;
      early WT_VNET_E_EMPTY
    | inr head =>
      if negb (d_slot head =? slot)%nat || negb (d_gen head =? gen) then
        bump k (λ s, s <| err_release := inc (err_release s) |>);;
        early WT_VNET_E_NOT_OWNER
      else
      mod_vnic k (λ v, v <| v_rxq := fst (vnet_ring_drop_head (v_rxq v)) |>);;
      let '(p, rc) := vnet_pool_release (sw_pool sw) slot gen in
      set_pool p;;
      if rc <? 0 then
        bump k (λ s, s <| err_release := inc (err_release s) |>);;
        early rc
      else
      v ← get_vnic k;
      when (vnet_ring_empty (v_rxq v)) (mod_vnic k (λ v, v <| v_rx_irq_pending := false |>));;
      mret WT_VNET_OK
    end
  end).

Definition vnet_switch_irq_ack (vm_id : Z) : func vnet_switch Z := fn (
  sw ← gets id;
  match vnic_of sw vm_id with
  | None => early WT_VNET_E_BADARG
  | Some k =>
    v ← get_vnic k;
    if negb (v_open v) then early WT_VNET_E_NOT_OPEN else
    skip_stale_head k;;
    v ← get_vnic k;
    if vnet_ring_empty (v_rxq v) then
      mod_vnic k (λ v, v <| v_rx_irq_pending := false |>);;
      early 0
    else
    mod_vnic k (λ v, v <| v_rx_irq_pending := true |>);;
    mret 1
  end).

Definition vnet_switch_irq_pending (sw : vnet_switch) (vm_id : Z) : bool :=
  match vnic_of sw vm_id ≫= (sw_vnics sw !!.) with
  | None => false
  | Some v => v_rx_irq_pending v
  end.

(** The loop body of the expiry: drop what became stale at one port. *)
Definition refresh_port {R} (k : nat) : prog vnet_switch R unit :=
  skip_stale_head k;;
  v ← get_vnic k;
  when (vnet_ring_empty (v_rxq v)) (mod_vnic k (λ v, v <| v_rx_irq_pending := false |>)).

Definition vnet_switch_drop_expired (now_tick timeout_ticks : Z) : func vnet_switch Z := fn (
  sw ← gets id;
  let '(p, freed) := vnet_pool_drop_expired (sw_pool sw) now_tick timeout_ticks in
  set_pool p;;
  when (freed >? 0) (
    modify (λ sw, sw <| sw_global_stats :=
      (sw_global_stats sw) <| drop_timeout := u32 (drop_timeout (sw_global_stats sw) + freed) |> |>);;
    for_each (seq 0 (length (sw_vnics sw))) refresh_port);;
  mret freed).

Definition vnet_switch_vnic_stats (sw : vnet_switch) (vm_id : Z) : option vnet_stats :=
  v_stats <$> (vnic_of sw vm_id ≫= (sw_vnics sw !!.)).
Definition vnet_switch_global_stats (sw : vnet_switch) : vnet_stats := sw_global_stats sw.
