(* ===== verification/VnetInv.v ===== *)
(** * The invariant of the virtual network switch

    [vinv x last sw]: every descriptor in a receive ring names a frame of the
    pool, the reference count of a frame is the number of descriptors that
    name it (one more for the frame [x] a transmission holds), a used frame
    carries its sender's address, and the forwarding table and the ports agree
    on the assigned addresses. [last] is the latest tick the switch has seen;
    every ring is ordered by age at that tick, oldest frame first. *)

From Stdlib Require Import ZArith Lia.
From stdpp Require Import base list numbers option sets.
From S2P Require Import Prelude Buffers CState VnetTables VnetSwitch.

(** ** Lists *)

Lemma find_elem_Some {A} (test : A → bool) l i x :
  find_elem test l = Some (i, x) → l !! i = Some x ∧ test x = true.
Proof.
  revert i. induction l as [|y l IH]; intros i; simpl; [done|].
  destruct (test y) eqn:Ey; [by intros [= <- <-]|].
  destruct (find_elem test l) as [[j z]|]; [|done]. simpl. intros [= <- ->]. simpl. by apply IH.
Qed.
Lemma find_elem_None {A} (test : A → bool) l i x :
  find_elem test l = None → l !! i = Some x → test x = false.
Proof.
  revert i. induction l as [|y l IH]; intros i; simpl; [done|].
  destruct (test y) eqn:Ey; [done|]. destruct (find_elem test l) as [[j z]|]; [done|]. intros _.
  destruct i as [|i]; simpl; [by intros [= ->]|]. by apply IH.
Qed.

Definition total {A} (f : A → nat) (l : list A) : nat := foldr (λ x n, f x + n)%nat 0%nat l.

Lemma total_insert {A} (f : A → nat) l k x y :
  l !! k = Some x → (total f (<[k := y]> l) + f x = total f l + f y)%nat.
Proof.
  unfold total. revert k. induction l as [|z l IH]; intros [|k]; simpl; try done; [intros [= ->]; lia|].
  intros Hk. specialize (IH k Hk). lia.
Qed.
Lemma total_ext {A} (f g : A → nat) l : (∀ x, x ∈ l → f x = g x) → total f l = total g l.
Proof.
  unfold total. induction l as [|x l IH]; simpl; [done|]. intros H.
  rewrite (H x) by set_solver. rewrite IH; [done|]. set_solver.
Qed.
Lemma total_elem {A} (f : A → nat) l k x : l !! k = Some x → (f x ≤ total f l)%nat.
Proof.
  unfold total. revert k. induction l as [|z l IH]; intros [|k]; simpl; try done; [intros [= ->]; lia|].
  intros Hk. specialize (IH k Hk). lia.
Qed.
Lemma total_zero {A} (f : A → nat) l : (∀ x, x ∈ l → f x = 0%nat) → total f l = 0%nat.
Proof. intros H. rewrite (total_ext f (λ _, 0%nat)) by done. unfold total. induction l; simpl; auto. set_solver. Qed.

(** ** Ports *)

Definition queue (v : vnet_vnic) : list vnet_rx_desc := ring_items (v_rxq v).

(** The descriptors of a list that name slot [i]. *)
Definition occ (i : nat) (l : list vnet_rx_desc) : nat := length (filter (λ d, d_slot d = i) l).
Definition refs (sw : vnet_switch) (i : nat) : nat := total (occ i ∘ queue) (sw_vnics sw).
Definition held (x : option nat) (i : nat) : nat := if decide (x = Some i) then 1 else 0.

Definition used (f : vnet_frame) : bool := negb (f_refcnt f =? 0).
Definition in_use (slots : list vnet_frame) : Z := Z.of_nat (total (λ f, if used f then 1 else 0)%nat slots).

(** The age of a frame at a tick. *)
Definition age (tick : Z) (f : vnet_frame) : Z := u32 (tick - f_born_tick f).

Definition describes (slots : list vnet_frame) (k : nat) (d : vnet_rx_desc) : Prop :=
  ∃ f, slots !! d_slot d = Some f ∧ d_gen d = f_gen f ∧ d_len d = f_len f ∧ d_src_vm d = f_src_vm f ∧
    d_src_vm d ≠ Z.of_nat k.

Definition by_age (slots : list vnet_frame) (tick : Z) (q : list vnet_rx_desc) : Prop :=
  ∀ a b da db fa fb, (a < b)%nat → q !! a = Some da → q !! b = Some db →
    slots !! d_slot da = Some fa → slots !! d_slot db = Some fb → age tick fb ≤ age tick fa.

(** The frame carries the address of the port it came from. *)
Definition authentic (vnics : list vnet_vnic) (f : vnet_frame) : Prop :=
  WT_VNET_FRAME_MIN ≤ f_len f ≤ WT_VNET_FRAME_MAX ∧ 0 ≤ f_src_vm f ∧
  ∃ v, vnics !! Z.to_nat (f_src_vm f) = Some v ∧ v_mac_set v = true ∧
    mac_at (f_data f) VNET_MAC_LEN = Some (v_mac v).

Record port_ok (slots : list vnet_frame) (tick : Z) (k : nat) (v : vnet_vnic) : Prop := {
  port_ring : ring_ok (v_rxq v);
  port_desc : Forall (describes slots k) (queue v);
  port_order : by_age slots tick (queue v);
  port_irq : v_rx_irq_pending v = negb (bool_decide (queue v = []));
}.

Record frame_ok (sw : vnet_switch) (x : option nat) (i : nat) (f : vnet_frame) : Prop := {
  frame_data : Z.of_nat (length (f_data f)) = WT_VNET_FRAME_MAX;
  frame_refs : f_refcnt f = Z.of_nat (refs sw i + held x i);
  frame_max : f_refcnt f ≤ 0xFFFF;
  frame_source : used f = true → authentic (sw_vnics sw) f;
}.

(** The table holds the assigned addresses and nothing else. *)
Record fdb_ok (fdb : vnet_fdb) (vnics : list vnet_vnic) : Prop := {
  fdb_distinct : ∀ i j e e', fdb !! i = Some e → fdb !! j = Some e' →
    e_kind e ≠ VNET_FDB_EMPTY → e_kind e' ≠ VNET_FDB_EMPTY → e_mac e = e_mac e' → i = j;
  fdb_entry : ∀ i e, fdb !! i = Some e → e_kind e ≠ VNET_FDB_EMPTY →
    e_kind e = VNET_FDB_ASSIGNED ∧ 0 ≤ e_guest_id e ∧
    ∃ v, vnics !! Z.to_nat (e_guest_id e) = Some v ∧ v_mac_set v = true ∧ v_mac v = e_mac e;
  fdb_port : ∀ k v, vnics !! k = Some v → v_mac_set v = true →
    vnet_mac_is_locally_administered_unicast (v_mac v) = true ∧
    ∃ i, fdb !! i = Some {| e_mac := v_mac v; e_guest_id := Z.of_nat k; e_kind := VNET_FDB_ASSIGNED |};
}.

Record vinv (x : option nat) (tick : Z) (sw : vnet_switch) : Prop := {
  vi_nvm : nvm sw ≤ 0xFFFFFFFF;
  vi_slots : Z.of_nat (length (pl_slots (sw_pool sw))) ≤ 0xFFFF;
  vi_in_use : pl_in_use_count (sw_pool sw) = in_use (pl_slots (sw_pool sw));
  vi_ports : ∀ k v, sw_vnics sw !! k = Some v → port_ok (pl_slots (sw_pool sw)) tick k v;
  vi_frames : ∀ i f, pl_slots (sw_pool sw) !! i = Some f → frame_ok sw x i f;
  vi_fdb : fdb_ok (sw_fdb sw) (sw_vnics sw);
}.

(** ** Statistics do not matter

    [same_core] ignores the counters; the invariant cannot tell such states
    apart. *)

Definition core (v : vnet_vnic) := (v_open v, v_mac_set v, v_mac v, v_rx_irq_pending v, v_rxq v).

Record same_core (sw sw' : vnet_switch) : Prop := {
  core_vnics : core <$> sw_vnics sw = core <$> sw_vnics sw';
  core_pool : sw_pool sw = sw_pool sw';
  core_fdb : sw_fdb sw = sw_fdb sw';
  core_flood : sw_unknown_unicast_flood sw = sw_unknown_unicast_flood sw';
}.

#[export] Instance same_core_equivalence : Equivalence same_core.
Proof.
  split.
  - intros sw. by split.
  - intros sw sw' [? ? ? ?]. by split.
  - intros ? ? ? [? ? ? ?] [? ? ? ?]. split; congruence.
Qed.

(** What the parts of the invariant depend on: the addresses of the ports, and
    the contents of the frames. *)
Definition ident (v : vnet_vnic) := (v_mac_set v, v_mac v).
Definition meta (f : vnet_frame) := (f_len f, f_gen f, f_src_vm f, f_born_tick f, f_data f).

Lemma same_lookup {A B} (g : A → B) (l l' : list A) k y :
  g <$> l = g <$> l' → l' !! k = Some y → ∃ x, l !! k = Some x ∧ g x = g y.
Proof.
  intros Hc Hk. assert ((g <$> l) !! k = Some (g y)) as H by (rewrite Hc, list_lookup_fmap, Hk; done).
  rewrite list_lookup_fmap in H. destruct (l !! k) as [x|]; [|done]. apply (inj Some) in H. by exists x.
Qed.
Lemma same_insert {A B} (g : A → B) (l : list A) k x y :
  l !! k = Some x → g y = g x → g <$> l = g <$> <[k := y]> l.
Proof.
  intros Hk Hg. rewrite list_fmap_insert, Hg. symmetry. apply list_insert_id. by rewrite list_lookup_fmap, Hk.
Qed.

Lemma authentic_same vnics vnics' f :
  ident <$> vnics = ident <$> vnics' → authentic vnics f → authentic vnics' f.
Proof.
  intros Hc (? & ? & v & Hv & Hm & Ha). split_and!; [lia..|done|]. symmetry in Hc.
  destruct (same_lookup ident vnics' vnics (Z.to_nat (f_src_vm f)) v) as (v' & Hv' & [= E1 E2]); [done..|].
  exists v'. split_and!; congruence.
Qed.
Lemma authentic_meta vnics f f' : meta f = meta f' → authentic vnics f → authentic vnics f'.
Proof. intros [= E1 _ E3 _ E5]. unfold authentic. by rewrite E1, E3, E5. Qed.

Lemma fdb_same fdb vnics vnics' : ident <$> vnics = ident <$> vnics' → fdb_ok fdb vnics → fdb_ok fdb vnics'.
Proof.
  intros Hv [Hd He Hp]. split; [done| |].
  - intros i e Hi Hk. destruct (He i e Hi Hk) as (? & ? & v & Hv1 & ? & ?). split_and!; [done..|].
    symmetry in Hv. destruct (same_lookup _ _ _ _ _ Hv Hv1) as (v' & Hv2 & [= ? ?]).
    exists v'. split_and!; congruence.
  - intros k v' Hk Hm. destruct (same_lookup _ _ _ _ _ Hv Hk) as (v & Hv1 & [= E1 E2]).
    destruct (Hp k v) as (? & i & Hi'); [done|congruence|]. split; [congruence|]. exists i. congruence.
Qed.

Lemma describes_same slots slots' k d :
  meta <$> slots = meta <$> slots' → describes slots k d → describes slots' k d.
Proof.
  intros Hc (f & Hf & ? & ? & ? & ?). symmetry in Hc.
  destruct (same_lookup _ _ _ _ _ Hc Hf) as (f' & Hf' & [= ? ? ? ? ?]).
  exists f'. split_and!; congruence.
Qed.
Lemma by_age_same slots slots' tick q :
  meta <$> slots = meta <$> slots' → by_age slots tick q → by_age slots' tick q.
Proof.
  intros Hc Hq a b da db fa fb Hab Ha Hb Hfa Hfb.
  destruct (same_lookup _ _ _ _ _ Hc Hfa) as (fa' & Hfa' & [= _ _ _ E1 _]).
  destruct (same_lookup _ _ _ _ _ Hc Hfb) as (fb' & Hfb' & [= _ _ _ E2 _]).
  unfold age. rewrite <-E1, <-E2. by eapply (Hq a b).
Qed.
Lemma port_same slots slots' tick k v :
  meta <$> slots = meta <$> slots' → port_ok slots tick k v → port_ok slots' tick k v.
Proof.
  intros Hc [? Hd Ho ?]. split; [done| | |done].
  - eapply Forall_impl; [exact Hd|]. intros d. by apply describes_same.
  - by eapply by_age_same.
Qed.

(** The fields of a port the invariant is about. *)
Definition state (v : vnet_vnic) := (v_mac_set v, v_mac v, v_rx_irq_pending v, v_rxq v).

Lemma state_total (vnics vnics' : list vnet_vnic) i :
  state <$> vnics = state <$> vnics' → total (occ i ∘ queue) vnics = total (occ i ∘ queue) vnics'.
Proof.
  revert vnics'. induction vnics as [|v l IH]; intros [|v' l'] Hc; try done.
  injection Hc as ? ? ? Hr Hc. simpl. unfold queue at 1 3. rewrite Hr. f_equal. by apply IH.
Qed.
Lemma state_ident (vnics vnics' : list vnet_vnic) :
  state <$> vnics = state <$> vnics' → ident <$> vnics = ident <$> vnics'.
Proof.
  revert vnics'. induction vnics as [|v l IH]; intros [|v' l'] Hc; try done.
  injection Hc as ? ? ? Hr Hc. simpl. f_equal; [unfold ident; congruence|by apply IH].
Qed.
Lemma core_state (vnics vnics' : list vnet_vnic) :
  core <$> vnics = core <$> vnics' → state <$> vnics = state <$> vnics'.
Proof.
  revert vnics'. induction vnics as [|v l IH]; intros [|v' l'] Hc; try done.
  injection Hc as ? ? ? ? Hr Hc. simpl. f_equal; [unfold state; congruence|by apply IH].
Qed.

Lemma state_port slots tick k v v' : state v = state v' → port_ok slots tick k v → port_ok slots tick k v'.
Proof.
  intros Hc [? ? ? ?]. injection Hc as ? ? Hi Hr. unfold queue in *.
  split; unfold queue; rewrite <-?Hr, <-?Hi; done.
Qed.

Lemma state_vinv x tick sw sw' :
  state <$> sw_vnics sw = state <$> sw_vnics sw' → sw_pool sw = sw_pool sw' → sw_fdb sw = sw_fdb sw' →
  vinv x tick sw → vinv x tick sw'.
Proof.
  intros Hv Hp Hf [Hn Hs Hi Hports Hframes Hfdb]. split.
  - unfold nvm in *. by rewrite <-(length_fmap state), <-Hv, length_fmap.
  - by rewrite <-Hp.
  - by rewrite <-Hp.
  - intros k v' Hk. destruct (same_lookup _ _ _ _ _ Hv Hk) as (v & Hv1 & Hc). rewrite <-Hp.
    eapply state_port; [done|by apply Hports].
  - intros i f Hi'. rewrite <-Hp in Hi'. destruct (Hframes i f Hi') as [? Hr ? Ha]. split; [done| |done|].
    + rewrite Hr. unfold refs. by rewrite (state_total _ _ _ Hv).
    + intros Hu. eapply authentic_same; [by apply state_ident|by apply Ha].
  - rewrite <-Hf. eapply fdb_same; [by apply state_ident|done].
Qed.

Lemma core_vinv x tick sw sw' : same_core sw sw' → vinv x tick sw → vinv x tick sw'.
Proof. intros [Hv Hp Hf _]. apply state_vinv; [by apply core_state|done..]. Qed.

#[export] Instance vinv_proper x tick : Proper (same_core ==> iff) (vinv x tick).
Proof. intros sw sw' Hc. split; apply core_vinv; [done|by symmetry]. Qed.

Lemma put_vnic_core k v v' sw :
  sw_vnics sw !! k = Some v → core v' = core v → same_core sw (put_vnic k v' sw).
Proof.
  intros Hk Hc. split; simpl; try done. by eapply same_insert.
Qed.

Lemma wp_bump {R} k v f E (Q : unit → vnet_switch → Prop) sw :
  sw_vnics sw !! k = Some v → (∀ sw', same_core sw sw' → Q tt sw') → wp (R := R) (bump k f) E Q sw.
Proof.
  intros Hk HQ. apply wp_bind. eapply wp_mod_vnic; [done|]. apply wp_modify, HQ.
  transitivity (put_vnic k (v <| v_stats := f (v_stats v) |>) sw); [by eapply put_vnic_core|]. by split.
Qed.

(** Counting an error and returning it. *)
Lemma wp_bump_early {R A} k v f r (E : R → vnet_switch → Prop) (Q : A → vnet_switch → Prop) sw :
  sw_vnics sw !! k = Some v → (∀ sw', same_core sw sw' → E r sw') → wp (bump k f;; early r) E Q sw.
Proof. intros Hk HE. apply wp_bind. eapply wp_bump; [done|]. intros sw' Hc. by apply wp_early, HE. Qed.

(** ** One port and one frame change *)

Record port_frame_step (x x' : option nat) (tick : Z) (sw : vnet_switch) (k : nat) (v v' : vnet_vnic)
    (s : nat) (f f' : vnet_frame) : Prop := {
  pf_port : sw_vnics sw !! k = Some v;
  pf_frame : pl_slots (sw_pool sw) !! s = Some f;
  pf_ident : ident v' = ident v;
  pf_meta : meta f' = meta f;
  pf_ok : port_ok (pl_slots (sw_pool sw)) tick k v';
  pf_others : ∀ i, i ≠ s → (occ i (queue v') + held x' i = occ i (queue v) + held x i)%nat;
  pf_count : f_refcnt f' + Z.of_nat (occ s (queue v) + held x s) =
             f_refcnt f + Z.of_nat (occ s (queue v') + held x' s);
  pf_max : f_refcnt f' ≤ 0xFFFF;
  pf_used : used f' = true → used f = true;
}.

Lemma vinv_port_frame x x' tick sw sw' k v v' s f f' :
  vinv x tick sw → port_frame_step x x' tick sw k v v' s f f' →
  sw_vnics sw' = <[k := v']> (sw_vnics sw) → pl_slots (sw_pool sw') = <[s := f']> (pl_slots (sw_pool sw)) →
  pl_in_use_count (sw_pool sw') = in_use (pl_slots (sw_pool sw')) → sw_fdb sw' = sw_fdb sw →
  vinv x' tick sw'.
Proof.
  intros [Hn Hs Hi Hports Hframes Hfdb] [Hk Hf Hid Hmeta Hok Hoth Hcnt Hmax Hused] Ev Es Eu Ef.
  assert (meta <$> pl_slots (sw_pool sw) = meta <$> pl_slots (sw_pool sw')) as Hm
    by (rewrite Es; by eapply same_insert).
  assert (ident <$> sw_vnics sw = ident <$> sw_vnics sw') as Hids by (rewrite Ev; by eapply same_insert).
  assert (∀ i, (refs sw' i + occ i (queue v) = refs sw i + occ i (queue v'))%nat) as Hrefs.
  { intros i. unfold refs. rewrite Ev. by apply (total_insert (occ i ∘ queue)). }
  split.
  - unfold nvm in *. by rewrite Ev, length_insert.
  - by rewrite Es, length_insert.
  - done.
  - intros k2 v2 Hk2. eapply port_same; [done|]. rewrite Ev in Hk2.
    destruct (decide (k2 = k)) as [->|Hne].
    + rewrite list_lookup_insert_eq in Hk2 by (by eapply lookup_lt_Some). by injection Hk2 as <-.
    + rewrite list_lookup_insert_ne in Hk2 by done. by apply Hports.
  - intros i f2 Hf2. rewrite Es in Hf2. specialize (Hrefs i). destruct (decide (i = s)) as [->|Hne].
    + rewrite list_lookup_insert_eq in Hf2 by (by eapply lookup_lt_Some). injection Hf2 as <-.
      destruct (Hframes s f Hf) as [Hd Hr _ Ha]. split; [by injection Hmeta as _ _ _ _ ->|lia|done|].
      intros Hu. eapply authentic_same; [done|]. eapply authentic_meta; [by symmetry|]. auto.
    + rewrite list_lookup_insert_ne in Hf2 by done. destruct (Hframes i f2 Hf2) as [Hd Hr ? Ha].
      specialize (Hoth i Hne). split; [done|lia|done|]. intros Hu. eapply authentic_same; eauto.
  - rewrite Ef. by eapply fdb_same.
Qed.
