(* ===== verification/VnetDeliver.v ===== *)
(** * Delivery in the virtual network switch

    A transmission delivers one frame to a list of ports. [forwarded] states
    what that does: which of the [targets] got a descriptor ([got]), that
    nothing else changed, and that the invariant holds throughout. *)

From Stdlib Require Import ZArith Lia.
From stdpp Require Import base list numbers option sets.
From S2P Require Import Prelude Buffers CState VnetTables VnetSwitch VnetInv.

(** ** Pool *)

Lemma in_use_insert slots s f f' :
  slots !! s = Some f →
  in_use (<[s := f']> slots) = in_use slots - (if used f then 1 else 0) + (if used f' then 1 else 0).
Proof.
  intros Hs. unfold in_use.
  pose proof (total_insert (λ f, if used f then 1 else 0)%nat slots s f f' Hs) as H. simpl in H.
  destruct (used f), (used f'); lia.
Qed.
Lemma in_use_pos slots s f : slots !! s = Some f → used f = true → 0 < in_use slots.
Proof.
  intros Hs Hu. unfold in_use. pose proof (total_elem (λ f, if used f then 1 else 0)%nat slots s f Hs) as H.
  simpl in H. rewrite Hu in H. lia.
Qed.
Lemma in_use_range slots : 0 ≤ in_use slots ≤ Z.of_nat (length slots).
Proof. unfold in_use. induction slots as [|f l IH]; simpl; [lia|]. destruct (used f); lia. Qed.

Lemma used_spec f : used f = true ↔ f_refcnt f ≠ 0.
Proof. unfold used. rewrite negb_true_iff. apply Z.eqb_neq. Qed.

Lemma held_same s : held (Some s) s = 1%nat.
Proof. unfold held. by rewrite decide_True. Qed.
Lemma held_ne s i : i ≠ s → held (Some s) i = 0%nat.
Proof. intros. unfold held. rewrite decide_False; [done|congruence]. Qed.
Lemma held_none i : held None i = 0%nat.
Proof. done. Qed.

Lemma occ_app i l l' : occ i (l ++ l') = (occ i l + occ i l')%nat.
Proof. unfold occ. by rewrite filter_app, length_app. Qed.
Lemma occ_one i d : occ i [d] = if decide (d_slot d = i) then 1%nat else 0%nat.
Proof. unfold occ. rewrite filter_cons, filter_nil. by destruct (decide _). Qed.
Lemma occ_cons i d l : occ i (d :: l) = (occ i [d] + occ i l)%nat.
Proof. apply (occ_app i [d]). Qed.

(** The references to a slot, as the invariant counts them. *)
Lemma vinv_refcnt x tick sw s f :
  vinv x tick sw → pl_slots (sw_pool sw) !! s = Some f → f_refcnt f = Z.of_nat (refs sw s + held x s).
Proof. intros Hi Hs. by destruct (vi_frames _ _ _ Hi s f Hs). Qed.
Lemma vinv_queued x tick sw k v d :
  vinv x tick sw → sw_vnics sw !! k = Some v → d ∈ queue v → (0 < refs sw (d_slot d))%nat.
Proof.
  intros Hi Hk Hd. pose proof (total_elem (occ (d_slot d) ∘ queue) _ _ _ Hk) as H. simpl in H.
  unfold refs. assert (0 < occ (d_slot d) (queue v))%nat; [|lia].
  apply list_elem_of_split in Hd as (l1 & l2 & ->). rewrite occ_app, occ_cons, occ_one, decide_True by done. lia.
Qed.

(** ** Ports as seen from outside *)

Record port_view := View { pv_open : bool; pv_mac : option vnet_mac; pv_queue : list vnet_rx_desc }.
Definition view (v : vnet_vnic) : port_view :=
  View (v_open v) (if v_mac_set v then Some (v_mac v) else None) (queue v).
Definition ports (sw : vnet_switch) (k : nat) : option port_view := view <$> sw_vnics sw !! k.

(** One more descriptor, if it was delivered. *)
Definition add_desc (got : bool) (d : vnet_rx_desc) (p : port_view) : port_view :=
  if got then View (pv_open p) (pv_mac p) (pv_queue p ++ [d]) else p.

Lemma core_ports sw sw' k : same_core sw sw' → ports sw' k = ports sw k.
Proof.
  intros [Hv _ _ _]. unfold ports. destruct (sw_vnics sw' !! k) as [v'|] eqn:Hk.
  - destruct (same_lookup _ _ _ _ _ Hv Hk) as (v & Hv1 & [= E1 E2 E3 _ E5]). rewrite Hv1. simpl.
    unfold view, queue. by rewrite E1, E2, E3, E5.
  - destruct (sw_vnics sw !! k) as [v|] eqn:Hk2; [|done]. symmetry in Hv.
    destruct (same_lookup _ _ _ _ _ Hv Hk2) as (? & ? & _). congruence.
Qed.

Lemma ports_put sw k v v' k2 :
  sw_vnics sw !! k = Some v →
  ports (put_vnic k v' sw) k2 = if decide (k2 = k) then Some (view v') else ports sw k2.
Proof.
  intros Hk. unfold ports. simpl. destruct (decide (k2 = k)) as [->|Hne].
  - by rewrite list_lookup_insert_eq by (by eapply lookup_lt_Some).
  - by rewrite list_lookup_insert_ne.
Qed.

(** ** One delivery *)

(** Taking a push back restores the ring's contents. *)
Lemma undo_push_spec r r' d :
  ring_ok r → vnet_ring_push r d = Some (r', WT_VNET_OK) →
  ring_ok (undo_push r') ∧ ring_items (undo_push r') = ring_items r.
Proof.
  intros Hok Hp. pose proof (ring_push_spec r d Hok) as Hs. destruct (decide _) as [Hlt|]; last first.
  { destruct Hs as (e & He & ?). rewrite Hp in He. by injection He as <- <-. }
  destruct Hs as (r2 & Hr2 & Hok' & Hitems & Hcap). rewrite Hp in Hr2. injection Hr2 as <-.
  assert (r_count r' = S (r_count r)) as Hc.
  { rewrite <-(ring_length r'), <-(ring_length r), Hitems, length_app by done. simpl. lia. }
  rewrite ring_length in Hlt by done. pose proof Hok' as [Hle Ht Hh].
  assert (ring_ok (undo_push r')) as Hou.
  { unfold undo_push. rewrite Hc. simpl. split; unfold r_capacity in *; simpl; [lia|done|]. intros Hpos.
    rewrite Hh, Hc by done. specialize (Ht Hpos). rewrite Nat.sub_0_r.
    rewrite !mod_wrap by lia.
    destruct (Nat.ltb_spec (r_tail r' + S (r_count r)) (length (r_buf r')));
      destruct (Nat.ltb_spec (r_tail r' + r_count r) (length (r_buf r'))); try lia;
      destruct (Nat.eqb_spec (r_tail r' + S (r_count r)) 0); try lia;
      destruct (Nat.eqb_spec (r_tail r' + S (r_count r) - length (r_buf r')) 0); lia. }
  split; [done|]. apply list_eq. intros j.
  assert (r_count (undo_push r') = r_count r) as Hcu.
  { unfold undo_push. rewrite Hc. simpl. lia. }
  destruct (decide (j < r_count r)%nat) as [Hj|Hj].
  - transitivity (ring_items r' !! j).
    + rewrite !ring_lookup by (done || lia). unfold undo_push. rewrite Hc. done.
    + rewrite Hitems. apply lookup_app_l. by rewrite ring_length.
  - rewrite !lookup_ge_None_2; [done| |]; rewrite ring_length by done; lia.
Qed.

Lemma undo_capacity r : r_capacity (undo_push r) = r_capacity r.
Proof. unfold undo_push. by destruct (_ <? _)%nat. Qed.

(** A descriptor of the frame [f] in slot [s]. *)
Definition desc_for (s : nat) (f : vnet_frame) : vnet_rx_desc :=
  {| d_slot := s; d_gen := f_gen f; d_len := f_len f; d_flags := 0; d_src_vm := f_src_vm f |}.

(** The room left in a port's ring. *)
Definition room (v : vnet_vnic) : Prop := (length (queue v) < r_capacity (v_rxq v))%nat.

(** What delivering the frame [f] of slot [s] to [targets] did. *)
Record forwarded (tick : Z) (s : nat) (f : vnet_frame) (targets : list nat) (sw sw' : vnet_switch)
    (got : nat → bool) (n : Z) : Prop := {
  fw_inv : vinv (Some s) tick sw';
  fw_fdb : sw_fdb sw' = sw_fdb sw;
  fw_flood : sw_unknown_unicast_flood sw' = sw_unknown_unicast_flood sw;
  fw_len : length (sw_vnics sw') = length (sw_vnics sw);
  fw_frame : ∃ f', pl_slots (sw_pool sw') !! s = Some f' ∧ meta f' = meta f ∧ f_refcnt f' = f_refcnt f + n;
  fw_slots : ∀ i, i ≠ s → pl_slots (sw_pool sw') !! i = pl_slots (sw_pool sw) !! i;
  fw_ports : ∀ k, ports sw' k = add_desc (got k) (desc_for s f) <$> ports sw k;
  fw_got : ∀ k, got k = true → k ∈ targets;
  fw_room : ∀ k v, sw_vnics sw' !! k = Some v → ∃ v0, sw_vnics sw !! k = Some v0 ∧
    r_capacity (v_rxq v) = r_capacity (v_rxq v0);
  fw_reach : ∀ k v, k ∈ targets → sw_vnics sw !! k = Some v → v_open v = true → room v →
    f_refcnt f + Z.of_nat (length targets) ≤ 0xFFFF → got k = true;
  fw_count : 0 ≤ n ≤ Z.of_nat (length targets);
  fw_none : n = 0 ↔ ∀ k, k ∈ targets → got k = false;
}.

Lemma forwarded_none tick s f sw :
  vinv (Some s) tick sw → pl_slots (sw_pool sw) !! s = Some f →
  forwarded tick s f [] sw sw (λ _, false) 0.
Proof.
  intros Hinv Hs. split; try done.
  - exists f. split_and!; [done..|lia].
  - intros k. unfold add_desc. simpl. by destruct (ports sw k).
  - eauto.
  - set_solver.
Qed.

(** Counters do not matter to what was forwarded. *)
Lemma forwarded_core tick s f l sw sw1 sw2 got n :
  forwarded tick s f l sw sw1 got n → same_core sw1 sw2 → forwarded tick s f l sw sw2 got n.
Proof.
  intros [? ? ? ? ? ? ? ? Hr ? ? ?] Hc. pose proof Hc as [Hv Hp Hf Hfl]. split; try done; try congruence.
  - by rewrite <-Hc.
  - by rewrite <-(length_fmap core), <-Hv, length_fmap.
  - by rewrite <-Hp.
  - by rewrite <-Hp.
  - intros k. by rewrite (core_ports _ _ _ Hc).
  - intros k v Hk. destruct (same_lookup _ _ _ _ _ Hv Hk) as (v1 & Hv1 & [= _ _ _ _ <-]). by apply Hr.
Qed.

Lemma desc_for_meta s f f' : meta f' = meta f → desc_for s f' = desc_for s f.
Proof. intros [= E1 E2 E3 _ _]. unfold desc_for. congruence. Qed.

Lemma forwarded_app tick s f l1 l2 sw sw1 sw2 g1 g2 n1 n2 f1 :
  forwarded tick s f l1 sw sw1 g1 n1 → pl_slots (sw_pool sw1) !! s = Some f1 →
  forwarded tick s f1 l2 sw1 sw2 g2 n2 → (∀ k, k ∈ l1 → k ∉ l2) →
  forwarded tick s f (l1 ++ l2) sw sw2 (λ k, g1 k || g2 k) (n1 + n2).
Proof.
  intros [I1 Fd1 Fl1 L1 (f1' & Hf1' & Hm1 & Hr1) S1 P1 G1 R1 Re1 C1 N1] Hf1
         [I2 Fd2 Fl2 L2 (f2 & Hf2 & Hm2 & Hr2) S2 P2 G2 R2 Re2 C2 N2] Hdis.
  rewrite Hf1 in Hf1'. injection Hf1' as <-.
  assert (∀ k, k ∈ l2 → g1 k = false) as Hd1.
  { intros k Hk. destruct (g1 k) eqn:E; [|done]. by destruct (Hdis k (G1 k E)). }
  assert (∀ k, k ∈ l1 → g2 k = false) as Hd2.
  { intros k Hk. destruct (g2 k) eqn:E; [|done]. by destruct (Hdis k Hk (G2 k E)). }
  split; try congruence.
  - exists f2. split_and!; [done|congruence|lia].
  - intros i Hi. by rewrite S2, S1.
  - intros k. rewrite P2, P1, (desc_for_meta s f f1) by done. destruct (ports sw k) as [p|]; [|done]. simpl.
    destruct (g1 k) eqn:E; [|done]. rewrite (Hd2 k (G1 k E)). done.
  - intros k [H|H]%orb_true_iff; apply elem_of_app; auto.
  - intros k v Hk. destruct (R2 k v Hk) as (v1 & Hv1 & E1). destruct (R1 k v1 Hv1) as (v0 & Hv0 & E0).
    exists v0. split; [done|congruence].
  - intros k v [Hk|Hk]%elem_of_app Hv Ho Hroom Hmax; rewrite length_app in Hmax.
    + rewrite (Re1 k v) by (done || lia). done.
    + pose proof (P1 k) as Hp. rewrite Hd1 in Hp by done. unfold ports in Hp. rewrite Hv in Hp. simpl in Hp.
      destruct (sw_vnics sw1 !! k) as [v1|] eqn:Hv1; [|done]. injection Hp as E1 E2 E3.
      destruct (R1 k v1 Hv1) as (v0 & Hv0 & Ec). rewrite Hv in Hv0. injection Hv0 as <-.
      rewrite (Re2 k v1); [by rewrite orb_true_r|done..|congruence| |lia].
      unfold room in *. by rewrite E3, Ec.
  - rewrite length_app. lia.
  - split.
    + intros Hz k [Hk|Hk]%elem_of_app.
      * rewrite (proj1 N1), Hd2 by (done || lia). done.
      * rewrite Hd1, (proj1 N2) by (done || lia). done.
    + intros Hg. rewrite (proj2 N1), (proj2 N2); [done| |]; intros k Hk;
        specialize (Hg k ltac:(set_solver)); apply orb_false_iff in Hg; by destruct Hg.
Qed.

(** The state after a delivery. *)
Lemma delivery_inv tick s f k v r sw sw' :
  vinv (Some s) tick sw → pl_slots (sw_pool sw) !! s = Some f → sw_vnics sw !! k = Some v →
  f_src_vm f ≠ Z.of_nat k → age tick f = 0 → f_refcnt f < 0xFFFF →
  ring_ok r → ring_items r = queue v ++ [desc_for s f] →
  sw_vnics sw' = <[k := v <| v_rxq := r |> <| v_rx_irq_pending := true |>]> (sw_vnics sw) →
  pl_slots (sw_pool sw') = <[s := f <| f_refcnt := f_refcnt f + 1 |>]> (pl_slots (sw_pool sw)) →
  pl_in_use_count (sw_pool sw') = pl_in_use_count (sw_pool sw) → sw_fdb sw' = sw_fdb sw →
  vinv (Some s) tick sw'.
Proof.
  intros Hinv Hs Hk Hsrc Hage Hmax Hok Hitems Ev Es Eu Ef.
  pose proof (vinv_refcnt _ _ _ _ _ Hinv Hs) as Hr. rewrite held_same in Hr.
  destruct (vi_ports _ _ _ Hinv k v Hk) as [_ Hd Ho _].
  assert (queue (v <| v_rxq := r |> <| v_rx_irq_pending := true |>) = queue v ++ [desc_for s f]) as Hq by done.
  eapply vinv_port_frame; [done| |done..| |done].
  - split; [done..| | | | |].
    + split; [done| | |].
      * rewrite Hq. apply Forall_app. split; [done|]. apply Forall_singleton. by exists f.
      * rewrite Hq. intros a b da db fa fb Hab Ha Hb Hfa Hfb. destruct (decide (b < length (queue v))%nat).
        -- rewrite lookup_app_l in Ha, Hb by lia. by eapply (Ho a b).
        -- rewrite lookup_app_r in Hb by lia. apply list_lookup_singleton_Some in Hb as [_ <-].
           simpl in Hfb. rewrite Hs in Hfb. injection Hfb as <-. rewrite Hage. apply u32_range.
      * rewrite Hq. simpl. rewrite bool_decide_false; [done|]. by destruct (queue v).
    + intros i Hi. rewrite Hq, occ_app, occ_one, decide_False by (simpl; congruence). lia.
    + rewrite Hq, occ_app, occ_one, decide_True by done. simpl. lia.
    + simpl. lia.
    + intros _. apply used_spec. lia.
  - rewrite Es, Eu, (in_use_insert _ _ _ _ Hs), (vi_in_use _ _ _ Hinv).
    rewrite (proj2 (used_spec f)) by lia. rewrite (proj2 (used_spec _)) by (simpl; lia). lia.
Qed.

(** The frame a transmission holds: newly born, with the sender's number. *)
Record in_transit (tick : Z) (s : nat) (f : vnet_frame) (sw : vnet_switch) : Prop := {
  tr_inv : vinv (Some s) tick sw;
  tr_frame : pl_slots (sw_pool sw) !! s = Some f;
  tr_age : age tick f = 0;
}.

Lemma in_transit_after tick s f l sw sw' got n :
  in_transit tick s f sw → forwarded tick s f l sw sw' got n →
  ∃ f', in_transit tick s f' sw' ∧ meta f' = meta f ∧ f_refcnt f' = f_refcnt f + n.
Proof.
  intros [_ _ Ha] [Hi _ _ _ (f' & Hf' & Hm & Hr) _ _ _ _ _ _ _]. exists f'. split; [|done].
  split; [done..|]. injection Hm as _ _ _ E _. unfold age in *. by rewrite E.
Qed.

Lemma ports_same_core k v v' sw k2 :
  sw_vnics sw !! k = Some v → view v' = view v → ports (put_vnic k v' sw) k2 = ports sw k2.
Proof.
  intros Hk Hv. rewrite (ports_put _ _ v) by done. destruct (decide _) as [->|]; [|done].
  unfold ports. rewrite Hk. simpl. by rewrite Hv.
Qed.

(** Nothing delivered: the ring as it was before a push taken back. *)
Lemma undelivered tick s f k v r sw :
  in_transit tick s f sw → sw_vnics sw !! k = Some v → ring_ok r → ring_items r = queue v →
  r_capacity r = r_capacity (v_rxq v) → ¬ (v_open v = true ∧ room v ∧ f_refcnt f < 0xFFFF) →
  forwarded tick s f [k] sw (put_vnic k (v <| v_rxq := r |>) sw) (λ _, false) 0.
Proof.
  intros [Hinv Hs Hage] Hk Hok Hit Hcap Hno. pose proof (vi_ports _ _ _ Hinv k v Hk) as [_ Hd Ho Hirq].
  assert (queue (v <| v_rxq := r |>) = queue v) as Hq by done.
  split; simpl; try done.
  - eapply (vinv_port_frame _ _ _ _ _ k v (v <| v_rxq := r |>) s f f); [done| |simpl; try done..].
    + split; [done..| | | | |].
      * split; rewrite ?Hq; done.
      * intros. by rewrite Hq.
      * rewrite Hq. lia.
      * by destruct (vi_frames _ _ _ Hinv s f Hs).
      * done.
    + by rewrite list_insert_id.
    + by rewrite (vi_in_use _ _ _ Hinv).
  - by rewrite length_insert.
  - exists f. split_and!; [done..|lia].
  - intros k2. rewrite (ports_same_core _ v) by (done || (unfold view; by rewrite Hq)).
    by destruct (ports sw k2).
  - intros k2 v2 Hk2. destruct (decide (k2 = k)) as [->|Hne].
    + rewrite list_lookup_insert_eq in Hk2 by (by eapply lookup_lt_Some). injection Hk2 as <-. eauto.
    + rewrite list_lookup_insert_ne in Hk2 by done. eauto.
  - intros k2 v2 ->%list_elem_of_singleton Hk2 Hop Hroom Hmax. rewrite Hk in Hk2. injection Hk2 as <-.
    destruct Hno. split_and!; [done..|lia].
Qed.

Lemma put_vnic_same k v sw : sw_vnics sw !! k = Some v → put_vnic k v sw = sw.
Proof. intros Hk. unfold put_vnic. destruct sw; simpl in *. cbv. f_equal. by apply list_insert_id. Qed.

Lemma eta_vnic_rxq v : v <| v_rxq := v_rxq v |> = v.
Proof. by destruct v. Qed.

Lemma view_add k v r d : 
  ring_items r = queue v ++ [d] →
  view (v <| v_rxq := r |> <| v_rx_irq_pending := k |>) = add_desc true d (view v).
Proof. intros H. unfold view, add_desc, queue. simpl. by rewrite H. Qed.

(** Delivered: one more descriptor and one more reference. *)
Lemma delivered tick s f k v r sw :
  in_transit tick s f sw → sw_vnics sw !! k = Some v → f_src_vm f ≠ Z.of_nat k → f_refcnt f < 0xFFFF →
  ring_ok r → ring_items r = queue v ++ [desc_for s f] → r_capacity r = r_capacity (v_rxq v) →
  forwarded tick s f [k] sw
    (put_vnic k (v <| v_rxq := r |> <| v_rx_irq_pending := true |>)
      (sw <| sw_pool := sw_pool sw <| pl_slots :=
         <[s := f <| f_refcnt := f_refcnt f + 1 |>]> (pl_slots (sw_pool sw)) |> |>))
    (λ j, bool_decide (j = k) && true) 1.
Proof.
  intros [Hinv Hs Hage] Hk Hsrc Hmax Hok Hit Hcap.
  split; simpl; try done.
  - by eapply (delivery_inv tick s f k v r sw).
  - by rewrite length_insert.
  - eexists. rewrite list_lookup_insert_eq by (by eapply lookup_lt_Some). split_and!; [done..|simpl; lia].
  - intros i Hi. by rewrite list_lookup_insert_ne.
  - intros k2. rewrite (ports_put _ _ v) by done. rewrite andb_true_r.
    destruct (decide (k2 = k)) as [->|Hne].
    + rewrite bool_decide_true by done. unfold ports. rewrite Hk. simpl. by rewrite (view_add true v r _ Hit).
    + rewrite bool_decide_false by done. unfold ports. simpl. by destruct (sw_vnics sw !! k2).
  - intros k2. rewrite andb_true_r, bool_decide_eq_true. set_solver.
  - intros k2 v2 Hk2. destruct (decide (k2 = k)) as [->|Hne].
    + rewrite list_lookup_insert_eq in Hk2 by (by eapply lookup_lt_Some). injection Hk2 as <-. eauto.
    + rewrite list_lookup_insert_ne in Hk2 by done. eauto.
  - intros k2 v2 ->%list_elem_of_singleton _ _ _ _. by rewrite bool_decide_true.
  - split; [done|]. intros H. specialize (H k). rewrite bool_decide_true in H by done. set_solver.
Qed.

Lemma try_deliver_spec tick s f k v sw (Q : Z → vnet_switch → Prop) :
  in_transit tick s f sw → sw_vnics sw !! k = Some v → f_src_vm f ≠ Z.of_nat k →
  (∀ sw' rc b, forwarded tick s f [k] sw sw' (λ j, bool_decide (j = k) && b) (if b then 1 else 0) →
     (rc =? WT_VNET_OK) = b → Q rc sw') →
  fwp (try_deliver_one k s (f_gen f) (f_len f) (f_src_vm f)) Q sw.
Proof.
  intros Ht Hk Hsrc HQ. pose proof Ht as [Hinv Hs Hage].
  pose proof (vinv_refcnt _ _ _ _ _ Hinv Hs) as Hr. rewrite held_same in Hr.
  pose proof (frame_max _ _ _ _ (vi_frames _ _ _ Hinv s f Hs)) as Hle.
  pose proof (vi_ports _ _ _ Hinv k v Hk) as [Hring _ _ _].
  assert (∀ sw' got n, (∀ j, got j = false) → forwarded tick s f [k] sw sw' got n →
            forwarded tick s f [k] sw sw' (λ j, bool_decide (j = k) && false) n) as Hfalse.
  { intros sw' got n Hg [? ? ? ? ? ? Hp Hgt ? Hre ? Hn]. split; try done.
    - intros j. by rewrite Hp, Hg, andb_false_r.
    - intros j. by rewrite andb_false_r.
    - intros j v0 ? ? ? ? ?. assert (got j = true) as E by (by eapply Hre). by rewrite Hg in E.
    - rewrite Hn. setoid_rewrite andb_false_r. by setoid_rewrite Hg. }
  apply fwp_fn, wp_bind. eapply wp_get_vnic; [done|].
  apply wp_if; intros Hop; bool_hyps.
  { apply wp_early. eapply (HQ _ _ false); [|done]. eapply Hfalse; [done|].
    rewrite <-(put_vnic_same k v sw) at 2 by done. rewrite <-(eta_vnic_rxq v). eapply undelivered; [done..|].
    intros [? _]. congruence. }
  apply wp_bind. pose proof (ring_push_spec (v_rxq v) (desc_for s f) Hring) as Hpush.
  destruct (decide _) as [Hroom|Hfull]; last first.
  { destruct Hpush as (e & Hpush & He). eapply wp_defined; [exact Hpush|]. cbv beta iota.
    rewrite (proj2 (Z.eqb_neq _ _)) by done. simpl. apply wp_bind. eapply wp_bump; [done|].
    intros sw' Hc. apply wp_early. eapply (HQ _ _ false); [|by apply Z.eqb_neq].
    eapply Hfalse; [done|]. eapply forwarded_core; [|done].
    rewrite <-(put_vnic_same k v sw) at 2 by done. rewrite <-(eta_vnic_rxq v). eapply undelivered; [done..|].
    intros (_ & Hroom & _). done. }
  destruct Hpush as (r & Hpush & Hok & Hitems & Hcap). eapply wp_defined; [exact Hpush|]. cbv beta iota. simpl.
  apply wp_bind. eapply wp_mod_vnic; [done|]. apply wp_bind, wp_gets. cbv beta.
  unfold vnet_pool_ref. simpl. rewrite Hs. rewrite (proj2 (Z.eqb_neq _ _)) by lia. rewrite Z.eqb_refl. simpl.
  destruct (Z.eqb_spec (f_refcnt f) 0xFFFF) as [Hmax|Hmax].
  - apply wp_bind, wp_modify. cbv beta. simpl. apply wp_bind. eapply wp_mod_vnic.
    { simpl. apply list_lookup_insert_eq. by eapply lookup_lt_Some. }
    apply wp_early. eapply (HQ _ _ false); [|done].
    destruct (undo_push_spec _ _ _ Hring Hpush) as [Hou Hiu].
    eapply Hfalse; [done|]. eapply forwarded_core.
    + eapply (undelivered tick s f k v (undo_push r)); [done..| |].
      * rewrite undo_capacity. done.
      * intros (_ & _ & ?). lia.
    + unfold put_vnic. split; simpl; try done. by rewrite list_insert_insert_eq.
  - apply wp_bind, wp_modify. cbv beta. simpl. apply wp_bind. eapply wp_mod_vnic.
    { simpl. apply list_lookup_insert_eq. by eapply lookup_lt_Some. }
    apply wp_bind. eapply wp_bump.
    { simpl. apply list_lookup_insert_eq. rewrite length_insert. by eapply lookup_lt_Some. }
    intros sw' Hc. apply wp_ret. eapply (HQ _ _ true); [|done].
    eapply forwarded_core; [eapply (delivered tick s f k v r); try done; lia|].
    rewrite <-Hc. unfold put_vnic. split; simpl; try done; [by rewrite list_insert_insert_eq|].
    rewrite u16_small by lia. done.
Qed.

(** ** The destinations of a frame *)

Definition others (sw : vnet_switch) (src_vm : Z) (l : list nat) : list nat :=
  filter (λ i, Z.of_nat i ≠ src_vm) l.

Definition destinations (sw : vnet_switch) (src_vm : Z) (dst_mac : vnet_mac) : list nat :=
  let all := others sw src_vm (seq 0 (length (sw_vnics sw))) in
  if vnet_mac_is_multicast dst_mac then all else
  let dst_vm := vnet_fdb_lookup (sw_fdb sw) dst_mac in
  if dst_vm =? VNET_FDB_NO_VM then (if sw_unknown_unicast_flood sw then all else [])
  else if dst_vm =? src_vm then [] else
  match vnic_of sw dst_vm with Some k => [k] | None => [] end.

Lemma deliver_to_spec {R} tick s f k v n sw E (Q : Z → vnet_switch → Prop) :
  in_transit tick s f sw → sw_vnics sw !! k = Some v → f_src_vm f ≠ Z.of_nat k →
  (∀ sw' b, forwarded tick s f [k] sw sw' (λ j, bool_decide (j = k) && b) (if b then 1 else 0) →
     Q (n + if b then 1 else 0) sw') →
  wp (R := R) (deliver_to s (f_gen f) (f_len f) (f_src_vm f) k n) E Q sw.
Proof.
  intros Ht Hk Hsrc HQ. apply wp_bind, wp_call. eapply try_deliver_spec; [done..|].
  intros sw' rc b Hf Hrc. apply wp_ret. rewrite Hrc. specialize (HQ sw' b Hf). destruct b; [done|].
  by rewrite Z.add_0_r in HQ.
Qed.

Lemma deliver_all_spec {R} tick s f sw E (Q : Z → vnet_switch → Prop) :
  in_transit tick s f sw →
  (∀ sw' got n, forwarded tick s f (others sw (f_src_vm f) (seq 0 (length (sw_vnics sw)))) sw sw' got n → Q n sw') →
  wp (R := R) (deliver_all s (f_gen f) (f_len f) (f_src_vm f)) E Q sw.
Proof.
  intros Ht HQ. apply wp_bind, wp_gets. unfold id.
  apply (wp_for_acc _ _ (λ l n sw', ∃ got, forwarded tick s f (others sw (f_src_vm f) l) sw sw' got n)).
  - eexists. destruct Ht. by apply forwarded_none.
  - intros l1 i l2 n sw' Hl (got & Hf). unfold others. rewrite filter_app, filter_cons, filter_nil.
    destruct (Z.eqb_spec (Z.of_nat i) (f_src_vm f)) as [E1|Hne].
    { apply wp_ret. rewrite decide_False by (intros H; by apply H). rewrite app_nil_r. by exists got. }
    rewrite decide_True by done.
    destruct (in_transit_after _ _ _ _ _ _ _ _ Ht Hf) as (f' & Ht' & Hm & _). pose proof Hm as [= Em1 Em2 Em3 _ _].
    destruct (lookup_lt_is_Some_2 (sw_vnics sw') i) as [v Hv].
    { rewrite (fw_len _ _ _ _ _ _ _ _ Hf). assert (i ∈ seq 0 (length (sw_vnics sw))) as Hi by (rewrite Hl; set_solver).
      apply elem_of_seq in Hi. lia. }
    rewrite <-Em1, <-Em2. rewrite <-Em3 at 1. eapply deliver_to_spec; [done..|congruence|].
    intros sw2 b Hb. eexists. eapply forwarded_app; [exact Hf|by destruct Ht'|exact Hb|].
    intros j [_ Hj]%list_elem_of_filter ->%list_elem_of_singleton.
    assert (NoDup (l1 ++ i :: l2)) as Hnd by (rewrite <-Hl; apply NoDup_seq).
    apply NoDup_app in Hnd as (_ & Hnd & _). by apply (Hnd i Hj), list_elem_of_here.
  - intros n sw' (got & Hf). by eapply HQ.
Qed.

Lemma forward_spec {R} tick s f dst_mac sw E (Q : Z → vnet_switch → Prop) :
  in_transit tick s f sw → 0 ≤ f_src_vm f →
  (∀ sw' got n, forwarded tick s f (destinations sw (f_src_vm f) dst_mac) sw sw' got n → Q n sw') →
  wp (R := R) (forward s (f_gen f) (f_len f) (f_src_vm f) dst_mac) E Q sw.
Proof.
  intros Ht Hsrc HQ. pose proof Ht as [Hinv Hs _]. unfold forward, destinations in *.
  destruct (vnet_mac_is_multicast dst_mac); simpl; [by eapply deliver_all_spec|].
  apply wp_bind, wp_gets. unfold id. simpl.
  destruct (Z.eqb_spec (vnet_fdb_lookup (sw_fdb sw) dst_mac) VNET_FDB_NO_VM) as [_|Hno]; simpl.
  - destruct (sw_unknown_unicast_flood sw); [by eapply deliver_all_spec|].
    apply wp_ret. eapply HQ. by apply forwarded_none.
  - destruct (Z.eqb_spec (vnet_fdb_lookup (sw_fdb sw) dst_mac) (f_src_vm f)) as [_|Hne]; simpl.
    { apply wp_ret. eapply HQ. by apply forwarded_none. }
    unfold vnic_of in *. destruct (Z.geb_spec (vnet_fdb_lookup (sw_fdb sw) dst_mac) (nvm sw)) as [_|Hlt].
    { apply wp_ret. eapply HQ. by apply forwarded_none. }
    assert (0 ≤ vnet_fdb_lookup (sw_fdb sw) dst_mac) as Hpos.
    { unfold vnet_fdb_lookup. destruct (_ || _); [done|].
      destruct (fdb_find_mac (sw_fdb sw) dst_mac) as [[i e]|] eqn:Hf; [|done].
      apply find_elem_Some in Hf as [Hi Ht2]. bool_hyps.
      destruct (fdb_entry _ _ (vi_fdb _ _ _ Hinv) i e Hi) as (_ & ? & _); [|done].
      unfold is_kind in *. by apply bool_decide_eq_false in H. }
    destruct (lookup_lt_is_Some_2 (sw_vnics sw) (Z.to_nat (vnet_fdb_lookup (sw_fdb sw) dst_mac))) as [v Hv].
    { unfold nvm in Hlt. lia. }
    eapply deliver_to_spec; [done..|rewrite Z2Nat.id by done; congruence|].
    intros sw' b Hb. destruct b; by eapply HQ.
Qed.
