(* ===== verification/VnetTx.v ===== *)
(** * Transmission in the virtual network switch

    The frame is copied into a free slot, delivered to its destinations, and
    the sender's own reference is dropped. *)

From Stdlib Require Import ZArith Lia.
From stdpp Require Import base list numbers option sets.
From S2P Require Import Prelude Buffers CState VnetTables VnetSwitch VnetInv VnetDeliver.

(** ** Time passes

    No frame in use gets older than the 32-bit tick can tell. *)

Definition tick_ok (last now : Z) (sw : vnet_switch) : Prop :=
  ∀ i f, pl_slots (sw_pool sw) !! i = Some f → used f = true → age last f + u32 (now - last) < 2 ^ 32.

Lemma age_later last now f : age last f + u32 (now - last) < 2 ^ 32 → age now f = age last f + u32 (now - last).
Proof.
  unfold age, u32. intros H. rewrite <-(Z.mod_small (_ + _) (2 ^ 32)) at 1.
  - rewrite <-Zplus_mod. f_equal. lia.
  - split; [|done]. apply Z.add_nonneg_nonneg; apply Z.mod_pos_bound; lia.
Qed.

Lemma vinv_frame_used x tick sw k v d f :
  vinv x tick sw → sw_vnics sw !! k = Some v → d ∈ queue v → pl_slots (sw_pool sw) !! d_slot d = Some f →
  used f = true.
Proof.
  intros Hi Hk Hd Hf. apply used_spec. rewrite (vinv_refcnt _ _ _ _ _ Hi Hf).
  pose proof (vinv_queued _ _ _ _ _ _ Hi Hk Hd). lia.
Qed.

Lemma vinv_later x last now sw : vinv x last sw → tick_ok last now sw → vinv x now sw.
Proof.
  intros Hi Ht. pose proof Hi as [? ? ? Hp ? ?]. split; try done. intros k v Hk.
  destruct (Hp k v Hk) as [? ? Ho ?]. split; try done. intros a b da db fa fb Hab Ha Hb Hfa Hfb.
  specialize (Ho a b da db fa fb Hab Ha Hb Hfa Hfb). apply list_elem_of_lookup_2 in Ha, Hb.
  rewrite (age_later last now fa), (age_later last now fb); [lia| |].
  - eapply Ht; [exact Hfb|]. by eapply (vinv_frame_used _ _ _ k v db).
  - eapply Ht; [exact Hfa|]. by eapply (vinv_frame_used _ _ _ k v da).
Qed.

(** ** Taking a free slot *)

(** The frame of a slot nobody names is replaced. *)
Lemma vinv_take tick sw sw' s f f' :
  vinv None tick sw → pl_slots (sw_pool sw) !! s = Some f → f_refcnt f = 0 →
  f_refcnt f' = 1 → Z.of_nat (length (f_data f')) = WT_VNET_FRAME_MAX → authentic (sw_vnics sw) f' →
  sw_vnics sw' = sw_vnics sw → pl_slots (sw_pool sw') = <[s := f']> (pl_slots (sw_pool sw)) →
  pl_in_use_count (sw_pool sw') = pl_in_use_count (sw_pool sw) + 1 → sw_fdb sw' = sw_fdb sw →
  vinv (Some s) tick sw'.
Proof.
  intros Hinv Hs Hz Hone Hlen Hauth Ev Es Eu Ef. pose proof (vinv_refcnt _ _ _ _ _ Hinv Hs) as Hr.
  assert (∀ k v d, sw_vnics sw !! k = Some v → d ∈ queue v → d_slot d ≠ s) as Hfree.
  { intros k v d Hk Hd E. pose proof (vinv_queued _ _ _ _ _ _ Hinv Hk Hd) as H. rewrite E in H. lia. }
  pose proof Hinv as [Hn Hsl Hu Hp Hf Hd]. split.
  - unfold nvm. by rewrite Ev.
  - by rewrite Es, length_insert.
  - rewrite Eu, Es, (in_use_insert _ _ _ _ Hs), Hu. rewrite (proj2 (used_spec f')) by lia.
    assert (used f = false) as -> by (apply not_true_iff_false; rewrite used_spec; lia). lia.
  - rewrite Ev. intros k v Hk. destruct (Hp k v Hk) as [? Hde Ho ?]. rewrite Es. split; try done.
    + apply Forall_forall. intros d Hin. rewrite Forall_forall in Hde.
      destruct (Hde d Hin) as (f2 & Hf2 & Hrest). exists f2. split; [|done].
      by rewrite list_lookup_insert_ne by (symmetry; by eapply Hfree).
    + intros a b da db fa fb Hab Ha Hb. pose proof (list_elem_of_lookup_2 _ _ _ Ha) as Hia.
      pose proof (list_elem_of_lookup_2 _ _ _ Hb) as Hib.
      rewrite !list_lookup_insert_ne by (symmetry; by eapply Hfree). by apply (Ho a b).
  - intros i f2. rewrite Es. intros Hi. destruct (decide (i = s)) as [->|Hne].
    + rewrite list_lookup_insert_eq in Hi by (by eapply lookup_lt_Some). injection Hi as <-.
      split; [done| |lia|by rewrite Ev]. unfold refs in *. rewrite Ev. rewrite held_same. rewrite held_none in Hr. lia.
    + rewrite list_lookup_insert_ne in Hi by done. destruct (Hf i f2 Hi) as [? Hr2 ? ?].
      split; [done| |done|by rewrite Ev]. unfold refs in *. rewrite Ev, held_ne by done.
      rewrite held_none in Hr2. lia.
  - by rewrite Ef, Ev.
Qed.

(** ** Dropping the sender's reference *)

Lemma pool_release_spec p s f :
  pl_slots p !! s = Some f → used f = true → f_refcnt f ≤ 0xFFFF → 0 ≤ f_refcnt f →
  pl_in_use_count p = in_use (pl_slots p) →
  let r := vnet_pool_release p s (f_gen f) in
  pl_slots (fst r) = <[s := f <| f_refcnt := f_refcnt f - 1 |>]> (pl_slots p) ∧
  pl_in_use_count (fst r) = in_use (pl_slots (fst r)) ∧ 0 ≤ snd r.
Proof.
  intros Hs Hu Hmax Hpos Hin. apply used_spec in Hu as Hnz. unfold vnet_pool_release.
  rewrite Hs, Z.eqb_refl, (proj2 (Z.eqb_neq _ _)) by done. cbn [negb f_refcnt set_field set_f_refcnt].
  rewrite u16_small by lia. pose proof (in_use_pos _ _ _ Hs Hu) as Hp.
  pose proof (in_use_insert (pl_slots p) s f (f <| f_refcnt := f_refcnt f - 1 |>) Hs) as Hi. rewrite Hu in Hi.
  destruct (Z.eqb_spec (f_refcnt f - 1) 0) as [Hz|Hnz1].
  - unfold one_less_in_use. cbn [pl_in_use_count set_field set_pl_slots]. rewrite Hin.
    destruct (Z.gtb_spec (in_use (pl_slots p)) 0); [|lia]. cbn [fst snd]. split_and!; [done| |done].
    change (in_use (pl_slots p) - 1 = in_use (<[s := f <| f_refcnt := f_refcnt f - 1 |>]> (pl_slots p))).
    rewrite Hi. unfold used. cbn [f_refcnt set_field set_f_refcnt]. rewrite Hz. simpl. lia.
  - cbn [fst snd]. split_and!; [done| |done].
    change (pl_in_use_count p = in_use (<[s := f <| f_refcnt := f_refcnt f - 1 |>]> (pl_slots p))).
    rewrite Hi, Hin. rewrite (proj2 (used_spec _)) by done. lia.
Qed.

(** The scratch reference of a frame is given up. *)
Lemma vinv_drop_scratch tick s f k v sw sw' p rc :
  vinv (Some s) tick sw → pl_slots (sw_pool sw) !! s = Some f → sw_vnics sw !! k = Some v →
  vnet_pool_release (sw_pool sw) s (f_gen f) = (p, rc) → sw' = sw <| sw_pool := p |> →
  vinv None tick sw' ∧ pl_slots p = <[s := f <| f_refcnt := f_refcnt f - 1 |>]> (pl_slots (sw_pool sw)).
Proof.
  intros Hinv Hs Hk Hrel ->. pose proof (vinv_refcnt _ _ _ _ _ Hinv Hs) as Hr. rewrite held_same in Hr.
  destruct (vi_frames _ _ _ Hinv s f Hs) as [_ _ Hmax _].
  destruct (pool_release_spec (sw_pool sw) s f Hs) as (Es & Eu & _);
    [apply used_spec; lia|done|lia|apply (vi_in_use _ _ _ Hinv)|].
  rewrite Hrel in Es, Eu. cbn [fst] in Es, Eu. split; [|done].
  eapply (vinv_port_frame (Some s) None tick sw _ k v v s f); [done| |simpl; try done..].
  - split; [done..|by apply (vi_ports _ _ _ Hinv)| | | |].
    + intros i Hi. rewrite held_none, held_ne by done. lia.
    + rewrite held_same, held_none. simpl. lia.
    + simpl. lia.
    + intros _. apply used_spec. lia.
  - by rewrite list_insert_id.
Qed.

(** ** The whole transmission *)

(** A port's own address is assigned, so the learning step changes nothing. *)
Lemma learn_own x tick sw k v :
  vinv x tick sw → sw_vnics sw !! k = Some v → v_mac_set v = true →
  fst (vnet_fdb_learn (sw_fdb sw) (Z.of_nat k) (v_mac v)) = sw_fdb sw.
Proof.
  intros Hinv Hk Hm. destruct (vi_fdb _ _ _ Hinv) as [Hd He Hp]. destruct (Hp k v Hk Hm) as [_ [i Hi]].
  unfold vnet_fdb_learn. destruct (_ =? _); [done|]. destruct (_ || _); [done|].
  destruct (fdb_find_mac (sw_fdb sw) (v_mac v)) as [[j e]|] eqn:Hf.
  - apply find_elem_Some in Hf as [Hj Ht]. bool_hyps. unfold is_kind in *. apply bool_decide_eq_false in H.
    destruct (He j e Hj H) as [-> _]. rewrite bool_decide_true by done. done.
  - pose proof (find_elem_None _ _ _ _ Hf Hi) as Ht. unfold is_kind in Ht. simpl in Ht.
    rewrite (proj2 (mac_equals_iff _ _)) in Ht; done.
Qed.

(** The frame is in its slot, byte for byte. *)
Definition holds_frame (f : vnet_frame) (src_vm : Z) (frame : list Z) : Prop :=
  f_src_vm f = src_vm ∧ f_len f = Z.of_nat (length frame) ∧ buf_read (f_data f) 0 (f_len f) = Some frame.

(** What an accepted transmission does. *)
Record transmitted (now : Z) (src_vm : Z) (frame : list Z) (dst_mac : vnet_mac) (sw sw' : vnet_switch)
    (d : vnet_rx_desc) (got : nat → bool) : Prop := {
  tm_inv : vinv None now sw';
  tm_fdb : sw_fdb sw' = sw_fdb sw;
  tm_ports : ∀ k, ports sw' k = add_desc (got k) d <$> ports sw k;
  tm_got : ∀ k, got k = true → k ∈ destinations sw src_vm dst_mac;
  tm_reach : ∀ k v, k ∈ destinations sw src_vm dst_mac → sw_vnics sw !! k = Some v →
    v_open v = true → room v → nvm sw < 0xFFFF → got k = true;
  tm_frame : ∃ f, pl_slots (sw_pool sw') !! d_slot d = Some f ∧ f_gen f = d_gen d ∧ holds_frame f src_vm frame;
  tm_others : ∀ i f, pl_slots (sw_pool sw) !! i = Some f → used f = true → pl_slots (sw_pool sw') !! i = Some f;
}.

Definition unchanged (now : Z) (sw sw' : vnet_switch) : Prop :=
  vinv None now sw' ∧ sw_fdb sw' = sw_fdb sw ∧ (∀ k, ports sw' k = ports sw k) ∧
  ∀ i f, pl_slots (sw_pool sw) !! i = Some f → used f = true → pl_slots (sw_pool sw') !! i = Some f.

Lemma unchanged_core now sw sw' : vinv None now sw → same_core sw sw' → unchanged now sw sw'.
Proof.
  intros Hi Hc. pose proof Hc as [_ Hp Hf _]. split_and!; [by rewrite <-Hc|done| |].
  - intros k. by apply core_ports.
  - by rewrite <-Hp.
Qed.

Lemma destinations_length sw src dst : Z.of_nat (length (destinations sw src dst)) ≤ nvm sw ∨
  (length (destinations sw src dst) ≤ 1)%nat.
Proof.
  unfold destinations, nvm, others.
  assert (∀ l : list nat, (length (filter (λ i, Z.of_nat i ≠ src) l) ≤ length l)%nat) as Hl
    by (intros; apply length_filter).
  specialize (Hl (seq 0 (length (sw_vnics sw)))). rewrite length_seq in Hl.
  destruct (vnet_mac_is_multicast dst); [left; lia|]. destruct (_ =? VNET_FDB_NO_VM).
  - destruct (sw_unknown_unicast_flood sw); simpl; lia.
  - destruct (_ =? src); simpl; [lia|]. destruct (vnic_of sw _); simpl; lia.
Qed.

(** [copied f g frame src now] is the frame of a slot [g] after the copy. *)
Definition copied (g : vnet_frame) (frame data : list Z) (src_vm now : Z) : vnet_frame :=
  {| f_len := Z.of_nat (length frame); f_gen := u16 (f_gen g + 1); f_refcnt := 1; f_flags := 0;
     f_src_vm := src_vm; f_dst_mask := 0; f_born_tick := now; f_data := data |}.

Lemma copied_authentic tick sw k v g frame data now :
  vinv None tick sw → sw_vnics sw !! k = Some v → v_mac_set v = true →
  WT_VNET_FRAME_MIN ≤ Z.of_nat (length frame) ≤ WT_VNET_FRAME_MAX →
  mac_at frame VNET_MAC_LEN = Some (v_mac v) → buf_write (f_data g) 0 frame = Some data →
  authentic (sw_vnics sw) (copied g frame data (Z.of_nat k) now).
Proof.
  intros Hi Hk Hm Hlen Hmac Hw. split_and!; simpl; [lia..|]. exists v. rewrite Nat2Z.id.
  split_and!; [done..|]. rewrite <-Hmac. unfold VNET_MAC_LEN, WT_VNET_FRAME_MIN in *.
  pose proof (buf_read_write _ _ _ _ ltac:(done) Hw) as Hr. unfold buf_read in Hr.
  destruct (_ && _); [|done]. injection Hr as Hr. rewrite Nat2Z.id, drop_0 in Hr.
  rewrite <-Hr, mac_at_take by lia. done.
Qed.

Lemma fill_spec {R} now sw k v g s frame p E (Q : unit → vnet_switch → Prop) :
  vinv None now sw → sw_vnics sw !! k = Some v → v_mac_set v = true →
  WT_VNET_FRAME_MIN ≤ Z.of_nat (length frame) ≤ WT_VNET_FRAME_MAX → mac_at frame VNET_MAC_LEN = Some (v_mac v) →
  find_elem (λ f, f_refcnt f =? 0) (pl_slots (sw_pool sw)) = Some (s, g) →
  vnet_pool_alloc (sw_pool sw) now = (p, Some s) →
  (∀ sw1 f, in_transit now s f sw1 → f_gen f = u16 (f_gen g + 1) → f_refcnt f = 1 →
     holds_frame f (Z.of_nat k) frame → sw_vnics sw1 = sw_vnics sw → sw_fdb sw1 = sw_fdb sw →
     sw_unknown_unicast_flood sw1 = sw_unknown_unicast_flood sw →
     (∀ i, i ≠ s → pl_slots (sw_pool sw1) !! i = pl_slots (sw_pool sw) !! i) → Q tt sw1) →
  wp (R := R) (fill_slot s frame (Z.of_nat k)) E Q (sw <| sw_pool := p |>).
Proof.
  intros Hinv Hk Hm Hlen Hmac Hfind Halloc HQ. pose proof (find_elem_Some _ _ _ _ Hfind) as [Hs Hz].
  apply Z.eqb_eq in Hz. pose proof (vi_frames _ _ _ Hinv s g Hs) as [Hdata _ _ _].
  unfold vnet_pool_alloc in Halloc. rewrite Hfind in Halloc. injection Halloc as <-.
  apply wp_bind, wp_gets. unfold id. apply wp_bind. eapply wp_defined.
  { simpl. apply list_lookup_insert_eq. by eapply lookup_lt_Some. }
  apply wp_bind. simpl. destruct (buf_write_spec (f_data g) 0 frame) as (data & Hw & Hwl); [lia..|].
  eapply wp_defined; [done|]. apply wp_modify. cbv beta.
  assert (in_use (<[s := copied g frame data (Z.of_nat k) now]> (pl_slots (sw_pool sw))) =
          in_use (pl_slots (sw_pool sw)) + 1) as Hin.
  { rewrite (in_use_insert _ _ _ _ Hs). unfold used. rewrite Hz. simpl. lia. }
  pose proof (in_use_range (<[s := copied g frame data (Z.of_nat k) now]> (pl_slots (sw_pool sw)))) as Hrange.
  pose proof (in_use_range (pl_slots (sw_pool sw))) as Hrange0.
  rewrite length_insert, Hin in Hrange. pose proof (vi_slots _ _ _ Hinv) as Hmax.
  eapply (HQ _ (copied g frame data (Z.of_nat k) now)); simpl; try done.
  - split; simpl.
    + eapply (vinv_take now sw _ s g (copied g frame data (Z.of_nat k) now)); simpl; try done.
      * by rewrite Hwl.
      * by eapply copied_authentic.
      * by rewrite list_insert_insert_eq.
      * rewrite (vi_in_use _ _ _ Hinv). apply u16_small. lia.
    + apply list_lookup_insert_eq. rewrite length_insert. by eapply lookup_lt_Some.
    + unfold age, copied. simpl. rewrite Z.sub_diag. done.
  - split_and!; [done..|]. simpl. by eapply buf_read_write.
  - intros i Hi. by rewrite !list_lookup_insert_ne.
Qed.

Lemma release_scratch_spec {R} now s f k v sw E (Q : unit → vnet_switch → Prop) :
  vinv (Some s) now sw → pl_slots (sw_pool sw) !! s = Some f → sw_vnics sw !! k = Some v →
  (∀ sw', vinv None now sw' → sw_vnics sw' = sw_vnics sw → sw_fdb sw' = sw_fdb sw →
     pl_slots (sw_pool sw') = <[s := f <| f_refcnt := f_refcnt f - 1 |>]> (pl_slots (sw_pool sw)) → Q tt sw') →
  wp (R := R) (release_scratch s (f_gen f)) E Q sw.
Proof.
  intros Hinv Hs Hk HQ. apply wp_bind, wp_gets. unfold id. apply wp_modify. cbv beta.
  destruct (vnet_pool_release (sw_pool sw) s (f_gen f)) as [p rc] eqn:Hrel. cbn [fst].
  destruct (vinv_drop_scratch now s f k v sw _ p rc Hinv Hs Hk Hrel eq_refl) as [Hi Hsl]. by apply HQ.
Qed.

Lemma ports_vnics sw sw' k : sw_vnics sw' = sw_vnics sw → ports sw' k = ports sw k.
Proof. intros E. unfold ports. by rewrite E. Qed.

Lemma destinations_same sw sw' src dst :
  sw_vnics sw' = sw_vnics sw → sw_fdb sw' = sw_fdb sw →
  sw_unknown_unicast_flood sw' = sw_unknown_unicast_flood sw → destinations sw' src dst = destinations sw src dst.
Proof. intros E1 E2 E3. unfold destinations, vnic_of, nvm, others. by rewrite E1, E2, E3. Qed.

(** The conditions under which a transmission reaches the forwarding stage. *)
Definition sendable (sw : vnet_switch) (k : nat) (frame : list Z) (dst_mac : vnet_mac) : Prop :=
  ∃ v, sw_vnics sw !! k = Some v ∧ v_open v = true ∧ v_mac_set v = true ∧
    WT_VNET_FRAME_MIN ≤ Z.of_nat (length frame) ≤ WT_VNET_FRAME_MAX ∧
    mac_at frame 0 = Some dst_mac ∧ mac_at frame VNET_MAC_LEN = Some (v_mac v) ∧
    vnet_mac_is_zero dst_mac = false.

Lemma own_mac_unicast x tick sw k v :
  vinv x tick sw → sw_vnics sw !! k = Some v → v_mac_set v = true →
  vnet_mac_is_zero (v_mac v) = false ∧ vnet_mac_is_multicast (v_mac v) = false.
Proof.
  intros Hi Hk Hm. destruct (fdb_port _ _ (vi_fdb _ _ _ Hi) k v Hk Hm) as [Hu _].
  unfold vnet_mac_is_locally_administered_unicast in Hu.
  destruct (vnet_mac_is_zero _), (vnet_mac_is_multicast _); done.
Qed.

Lemma core_forward_back tick s f l sw sw1 sw' got n :
  same_core sw sw1 → forwarded tick s f l sw1 sw' got n → ∀ k, ports sw' k = add_desc (got k) (desc_for s f) <$> ports sw k.
Proof. intros Hc Hf k. by rewrite (fw_ports _ _ _ _ _ _ _ _ Hf), (core_ports _ _ _ Hc). Qed.

Lemma in_transit_core tick s f sw sw' : in_transit tick s f sw → same_core sw sw' → in_transit tick s f sw'.
Proof. intros [? ? ?] Hc. pose proof Hc as [_ Hp _ _]. split; [by rewrite <-Hc|by rewrite <-Hp|done]. Qed.

Lemma destinations_core sw sw' src dst : same_core sw sw' → destinations sw' src dst = destinations sw src dst.
Proof.
  intros [Hv _ Hf Hfl]. unfold destinations, vnic_of, nvm, others. rewrite Hf, Hfl.
  by rewrite <-(length_fmap core (sw_vnics sw')), <-Hv, length_fmap.
Qed.

(** The stage after the copy: forwarding and the end. *)
Lemma forward_transmitted now s f k v frame dst sw sw1 sw2 sw3 sw4 got n g :
  vinv None now sw → sw_vnics sw !! k = Some v →
  pl_slots (sw_pool sw) !! s = Some g → f_refcnt g = 0 → f_refcnt f = 1 → holds_frame f (Z.of_nat k) frame →
  sw_vnics sw1 = sw_vnics sw → sw_fdb sw1 = sw_fdb sw → sw_unknown_unicast_flood sw1 = sw_unknown_unicast_flood sw →
  (∀ i, i ≠ s → pl_slots (sw_pool sw1) !! i = pl_slots (sw_pool sw) !! i) → same_core sw1 sw2 →
  forwarded now s f (destinations sw2 (Z.of_nat k) dst) sw2 sw3 got n →
  vinv None now sw4 → sw_vnics sw4 = sw_vnics sw3 → sw_fdb sw4 = sw_fdb sw3 →
  (∃ f3, meta f3 = meta f ∧ pl_slots (sw_pool sw4) = <[s := f3 <| f_refcnt := f_refcnt f3 - 1 |>]> (pl_slots (sw_pool sw3)) ∧
    pl_slots (sw_pool sw3) !! s = Some f3) →
  transmitted now (Z.of_nat k) frame dst sw sw4 (desc_for s f) got.
Proof.
  intros Hinv Hk Hs Hz Hone Hh Ev Ef Efl Hoth Hc Hfw Hinv4 Ev4 Ef4 (f3 & Hm & Es4 & Hs3).
  assert (destinations sw2 (Z.of_nat k) dst = destinations sw (Z.of_nat k) dst) as Hdst
    by (rewrite (destinations_core sw1) by done; by apply destinations_same).
  assert (∀ j, ports sw2 j = ports sw j) as Hp2
    by (intros j; rewrite (core_ports _ _ _ Hc); by apply ports_vnics).
  pose proof Hc as [Hcv Hcp Hcf _]. rewrite Hdst in Hfw. split; [done| | | | | |].
  - rewrite Ef4, (fw_fdb _ _ _ _ _ _ _ _ Hfw). congruence.
  - intros j. rewrite (ports_vnics sw3) by done. by rewrite (fw_ports _ _ _ _ _ _ _ _ Hfw), Hp2.
  - apply (fw_got _ _ _ _ _ _ _ _ Hfw).
  - intros j v0 Hj Hv0 Ho Hroom Hn. rewrite <-Ev in Hv0. symmetry in Hcv.
    destruct (same_lookup _ _ _ _ _ Hcv Hv0) as (v2 & Hv2 & [= Eo _ _ _ Er]).
    eapply (fw_reach _ _ _ _ _ _ _ _ Hfw j v2); [done..|congruence| |].
    + unfold room, queue in *. by rewrite Er.
    + rewrite Hone. destruct (destinations_length sw (Z.of_nat k) dst); lia.
  - exists (f3 <| f_refcnt := f_refcnt f3 - 1 |>). rewrite Es4.
    rewrite list_lookup_insert_eq by (by eapply lookup_lt_Some). injection Hm as E1 E2 E3 _ E5.
    destruct Hh as (H1 & H2 & H3). unfold holds_frame. simpl. rewrite E1, E3, E5. done.
  - intros i f0 Hi Hu. assert (i ≠ s) as Hne.
    { intros ->. rewrite Hs in Hi. injection Hi as <-. apply used_spec in Hu. done. }
    rewrite Es4, list_lookup_insert_ne by done. rewrite (fw_slots _ _ _ _ _ _ _ _ Hfw), <-Hcp, Hoth; done.
Qed.

Lemma eta_fdb sw : sw <| sw_fdb := sw_fdb sw |> = sw.
Proof. by destruct sw. Qed.
Lemma eta_pool sw : sw <| sw_pool := sw_pool sw |> = sw.
Proof. by destruct sw. Qed.

Definition pool_full (sw : vnet_switch) : Prop :=
  ∀ i f, pl_slots (sw_pool sw) !! i = Some f → used f = true.

(** A frame for nobody is dropped again. *)
Lemma dropped_unchanged now s g f sw sw1 sw2 sw3 :
  pl_slots (sw_pool sw) !! s = Some g → f_refcnt g = 0 → sw_vnics sw1 = sw_vnics sw → sw_fdb sw1 = sw_fdb sw →
  (∀ i, i ≠ s → pl_slots (sw_pool sw1) !! i = pl_slots (sw_pool sw) !! i) → same_core sw1 sw2 →
  vinv None now sw3 → sw_vnics sw3 = sw_vnics sw2 → sw_fdb sw3 = sw_fdb sw2 →
  pl_slots (sw_pool sw3) = <[s := f]> (pl_slots (sw_pool sw2)) → unchanged now sw sw3.
Proof.
  intros Hs Hz Ev Ef Hoth Hc Hi Ev3 Ef3 Es3. pose proof Hc as [_ Hp Hf _]. split_and!; [done|congruence| |].
  - intros k. rewrite (ports_vnics sw2), (core_ports _ _ _ Hc) by done. by apply ports_vnics.
  - intros i f0 Hi0 Hu. assert (i ≠ s) as Hne.
    { intros ->. rewrite Hs in Hi0. injection Hi0 as <-. by apply used_spec in Hu. }
    rewrite Es3, list_lookup_insert_ne by done. by rewrite <-Hp, Hoth.
Qed.

Lemma transmitted_core now src frame dst sw sw1 sw2 d got :
  transmitted now src frame dst sw sw1 d got → same_core sw1 sw2 → transmitted now src frame dst sw sw2 d got.
Proof.
  intros [? ? ? ? ? ? ?] Hc. pose proof Hc as [_ Hp Hf _]. split; try done.
  - by rewrite <-Hc.
  - congruence.
  - intros k. by rewrite (core_ports _ _ _ Hc).
  - by rewrite <-Hp.
  - by rewrite <-Hp.
Qed.

Lemma send_copied_spec now k v frame dst g s p sw (Q : Z → vnet_switch → Prop) :
  vinv None now sw → sw_vnics sw !! k = Some v → v_mac_set v = true →
  WT_VNET_FRAME_MIN ≤ Z.of_nat (length frame) ≤ WT_VNET_FRAME_MAX → mac_at frame VNET_MAC_LEN = Some (v_mac v) →
  find_elem (λ f, f_refcnt f =? 0) (pl_slots (sw_pool sw)) = Some (s, g) →
  vnet_pool_alloc (sw_pool sw) now = (p, Some s) →
  (∀ rc sw', rc ≠ WT_VNET_OK → unchanged now sw sw' → vnet_mac_is_zero dst = true → Q rc sw') →
  (∀ rc sw' d got, vnet_mac_is_zero dst = false → transmitted now (Z.of_nat k) frame dst sw sw' d got →
     (rc = WT_VNET_OK ↔ ∃ j, got j = true) → Q rc sw') →
  wp (send_copied k s frame (Z.of_nat k) dst) Q Q (sw <| sw_pool := p |>).
Proof.
  intros Hinv Hv Hset Hlen Hmac Hfind Halloc Hno Hok. pose proof (find_elem_Some _ _ _ _ Hfind) as [Hs Hz].
  apply Z.eqb_eq in Hz. apply wp_bind, wp_gets. unfold id. apply wp_bind. eapply wp_defined.
  { pose proof Halloc as Ha. unfold vnet_pool_alloc in Ha. rewrite Hfind in Ha. injection Ha as <-. simpl.
    by rewrite list_lookup_insert_eq by (by eapply lookup_lt_Some). }
  cbn [f_gen set_field set_f_gen set_f_refcnt set_f_len set_f_flags set_f_src_vm set_f_dst_mask set_f_born_tick].
  apply wp_bind. eapply fill_spec; [done..|]. intros sw1 f Ht Hg Hone Hh Ev Ef Efl Hoth.
  apply wp_bind. eapply wp_bump; [by rewrite Ev|]. intros sw2 Hc. pose proof (in_transit_core _ _ _ _ _ Ht Hc) as Ht2.
  assert (∃ v2, sw_vnics sw2 !! k = Some v2) as [v2 Hv2].
  { pose proof Hc as [Hcv _ _ _]. symmetry in Hcv. rewrite <-Ev in Hv.
    destruct (same_lookup _ _ _ _ _ Hcv Hv) as (v2 & ? & _). by exists v2. }
  rewrite <-Hg. destruct (vnet_mac_is_zero dst) eqn:Hzero.
  - apply wp_bind. eapply wp_bump; [done|]. intros sw3 Hc3. pose proof (in_transit_core _ _ _ _ _ Ht2 Hc3) as [Hi3 Hf3 _].
    assert (∃ v3, sw_vnics sw3 !! k = Some v3) as [v3 Hv3].
    { pose proof Hc3 as [Hcv _ _ _]. symmetry in Hcv.
      destruct (same_lookup _ _ _ _ _ Hcv Hv2) as (v3 & ? & _). by exists v3. }
    apply wp_bind. eapply release_scratch_spec; [done..|]. intros sw4 Hi4 Ev4 Ef4 Es4. apply wp_early, Hno; [done| |done].
    eapply (dropped_unchanged now s g _ sw sw1 sw3); try done. by transitivity sw2.
  - destruct Hh as (Hh1 & Hh2 & Hh3). rewrite <-Hh2. rewrite <-Hh1 at 1.
    apply wp_bind. eapply forward_spec; [done|rewrite Hh1; lia|]. intros sw3 got n Hfw.
    destruct (in_transit_after _ _ _ _ _ _ _ _ Ht2 Hfw) as (f3 & [Hi3 Hf3 _] & Hm3 & _).
    destruct (lookup_lt_is_Some_2 (sw_vnics sw3) k) as [v3 Hv3].
    { rewrite (fw_len _ _ _ _ _ _ _ _ Hfw). by eapply lookup_lt_Some. }
    assert (f_gen f = f_gen f3) as -> by (by injection Hm3 as _ -> _ _ _).
    apply wp_bind. eapply release_scratch_spec; [done..|]. intros sw4 Hi4 Ev4 Ef4 Es4.
    assert (transmitted now (Z.of_nat k) frame dst sw sw4 (desc_for s f) got) as Htm.
    { rewrite Hh1 in Hfw. eapply (forward_transmitted now s f k v frame dst sw sw1 sw2 sw3 sw4 got n g); try done.
      by exists f3. }
    destruct (Z.eqb_spec n 0) as [Hn|Hn].
    + pose proof (proj1 (fw_none _ _ _ _ _ _ _ _ Hfw) Hn) as Hnone.
      assert (¬ ∃ j, got j = true) as Hnot.
      { intros [j Hj]. pose proof (fw_got _ _ _ _ _ _ _ _ Hfw j Hj) as Hin. by rewrite Hnone in Hj. }
      rewrite <-Ev4 in Hv3. destruct (vnet_mac_is_multicast dst); simpl; (eapply wp_bump_early; [done|]);
        intros sw5 Hc5; (eapply Hok; [done|by eapply transmitted_core|]); by split.
    + apply wp_ret. eapply Hok; [done..|]. split; [|done]. intros _.
      destruct (decide (Exists (λ j, got j = true) (destinations sw2 (f_src_vm f) dst))) as [He|He].
      * apply Exists_exists in He as (j & _ & Hj). by exists j.
      * exfalso. apply Hn, (fw_none _ _ _ _ _ _ _ _ Hfw). intros j Hj. apply not_true_iff_false. intros Hgj.
        apply He, Exists_exists. by exists j.
Qed.

Lemma tx_spec now k frame sw (Q : Z → vnet_switch → Prop) :
  vinv None now sw →
  (∀ rc sw', rc ≠ WT_VNET_OK → unchanged now sw sw' →
     (∀ dst, sendable sw k frame dst → pool_full sw) → Q rc sw') →
  (∀ rc sw' dst d got, sendable sw k frame dst → transmitted now (Z.of_nat k) frame dst sw sw' d got →
     (rc = WT_VNET_OK ↔ ∃ j, got j = true) → Q rc sw') →
  fwp (vnet_switch_tx (Z.of_nat k) frame now) Q sw.
Proof.
  intros Hinv Hno Hok. assert (∀ rc sw', rc ≠ WT_VNET_OK → same_core sw sw' →
     (∀ dst, sendable sw k frame dst → pool_full sw) → Q rc sw') as Hc by
    (intros; eapply Hno; [done|by apply unchanged_core|done]).
  apply fwp_fn, wp_bind, wp_gets. unfold id, vnic_of. destruct (Z.geb_spec (Z.of_nat k) (nvm sw)) as [Hge|Hlt].
  { apply wp_early, Hc; [done..|]. intros dst (v & Hv & _). apply lookup_lt_Some in Hv. unfold nvm in Hge. lia. }
  rewrite Nat2Z.id. destruct (lookup_lt_is_Some_2 (sw_vnics sw) k) as [v Hv]; [unfold nvm in Hlt; lia|].
  apply wp_bind. eapply wp_get_vnic; [done|]. apply wp_if; intros Hopen; bool_hyps.
  { apply wp_early, Hc; [done..|]. intros dst (v' & Hv' & ? & _). congruence. }
  apply wp_if; intros Hset; bool_hyps.
  { eapply wp_bump_early; [done|]. intros sw' Hs. apply Hc; [done..|].
    intros dst (v' & Hv' & _ & ? & _). congruence. }
  apply wp_if; intros Hlen.
  { eapply wp_bump_early; [done|]. intros sw' Hs. apply Hc; [done..|].
    intros dst (v' & _ & _ & _ & ? & _). apply orb_true_iff in Hlen as [H1|H1]; [apply Z.ltb_lt in H1|apply Z.gtb_lt in H1]; lia. }
  apply orb_false_iff in Hlen as [Hl1 Hl2]. apply Z.ltb_ge in Hl1. rewrite Z.gtb_ltb in Hl2. apply Z.ltb_ge in Hl2.
  unfold WT_VNET_FRAME_MIN, WT_VNET_FRAME_MAX, VNET_MAC_LEN in *.
  destruct (mac_at_defined frame 0) as [dst_mac Hdst]; [lia|].
  destruct (mac_at_defined frame 6) as [src_mac Hsrc]; [lia|].
  apply wp_bind. eapply wp_defined; [done|]. apply wp_bind. eapply wp_defined; [done|].
  destruct (own_mac_unicast _ _ _ _ _ Hinv Hv Hset) as [Hnz Hnm].
  apply wp_if; intros Hbad.
  { eapply wp_bump_early; [done|]. intros sw' Hs. apply Hc; [done..|].
    intros dst (v' & Hv' & _ & _ & _ & _ & Hm & _). unfold VNET_MAC_LEN in Hm. assert (v' = v) as -> by congruence.
    assert (src_mac = v_mac v) as -> by congruence. by rewrite Hnz, Hnm in Hbad. }
  apply wp_if; intros Hspoof; bool_hyps.
  { eapply wp_bump_early; [done|]. intros sw' Hs. apply Hc; [done..|].
    intros dst (v' & Hv' & _ & _ & _ & _ & Hm & _). unfold VNET_MAC_LEN in Hm. assert (v' = v) as -> by congruence.
    assert (src_mac = v_mac v) as -> by congruence. rewrite (proj2 (mac_equals_iff _ _)) in Hspoof; done. }
  apply mac_equals_iff in Hspoof as ->.
  apply wp_bind, wp_modify. cbv beta. rewrite (learn_own _ _ _ _ _ Hinv Hv Hset), eta_fdb.
  apply wp_bind, wp_gets. unfold id. destruct (vnet_pool_alloc (sw_pool sw) now) as [p r] eqn:Halloc.
  apply wp_bind, wp_modify. cbv beta. pose proof Halloc as Halloc'. unfold vnet_pool_alloc in Halloc'.
  destruct (find_elem _ (pl_slots (sw_pool sw))) as [[s g]|] eqn:Hfind; last first.
  { injection Halloc' as <- <-. rewrite eta_pool. eapply wp_bump_early; [done|]. intros sw' Hs.
    apply Hc; [done..|]. intros _ _ i f Hi. pose proof (find_elem_None _ _ _ _ Hfind Hi) as E.
    unfold used. by rewrite E. }
  injection Halloc' as _ <-. eapply send_copied_spec; [done..| |].
  - intros rc sw' Hrc Hun Hzero. apply Hno; [done..|]. intros dst (v' & _ & _ & _ & _ & Hd & _ & Hz).
    rewrite Hdst in Hd. injection Hd as <-. congruence.
  - intros rc sw' d got Hzero. eapply Hok. by exists v.
Qed.
