(* ===== verification/VnetRx.v ===== *)
(** * Reception, ports and expiry in the virtual network switch

    Between operations no descriptor is stale, so the receive operations skip
    nothing; expiry makes descriptors stale and removes them again. *)

From Stdlib Require Import ZArith Lia.
From stdpp Require Import base list numbers option sets.
From S2P Require Import Prelude Buffers CState VnetTables VnetSwitch VnetInv VnetDeliver VnetTx.

(** ** Skipping stale descriptors *)

Definition live (p : vnet_pool) (d : vnet_rx_desc) : bool :=
  bool_decide (is_Some (vnet_pool_slot p (d_slot d) (d_gen d))).

Fixpoint drop_stale (p : vnet_pool) (l : list vnet_rx_desc) : list vnet_rx_desc :=
  match l with
  | [] => []
  | d :: l' => if live p d then l else drop_stale p l'
  end.

(** The loop ends within its fuel at the first live descriptor. *)
Lemma skip_stale_spec p r fuel :
  ring_ok r → (r_count r < fuel)%nat →
  ∃ r', skip_stale fuel p r = Some r' ∧ ring_ok r' ∧ ring_items r' = drop_stale p (ring_items r) ∧
    r_capacity r' = r_capacity r.
Proof.
  revert r. induction fuel as [|fuel IH]; intros r Hok Hfuel; [lia|]. simpl.
  pose proof (ring_peek_spec r Hok) as Hpeek. destruct (ring_items r) as [|d l] eqn:Hit.
  - destruct Hpeek as [e ->]. simpl. exists r. by rewrite Hit.
  - rewrite Hpeek. simpl. unfold live. destruct (vnet_pool_slot p (d_slot d) (d_gen d)) as [f|].
    + rewrite bool_decide_true by eauto. exists r. by rewrite Hit.
    + rewrite bool_decide_false by (by intros [? ?]).
      destruct (ring_drop_spec r Hok) as (Hok' & Hit' & Hcap & _). rewrite Hit in Hit'. simpl in Hit'.
      destruct (IH (fst (vnet_ring_drop_head r))) as (r' & Hr' & ? & Hi' & ?); [done| |].
      { rewrite <-ring_length, Hit' by done. rewrite <-ring_length, Hit in Hfuel by done. simpl in Hfuel. lia. }
      exists r'. rewrite Hi', Hit' by done. split_and!; [done..|congruence].
Qed.

Lemma queued_live x tick sw k v d :
  vinv x tick sw → sw_vnics sw !! k = Some v → d ∈ queue v →
  ∃ f, pl_slots (sw_pool sw) !! d_slot d = Some f ∧ vnet_pool_slot (sw_pool sw) (d_slot d) (d_gen d) = Some f ∧
    used f = true ∧ d_gen d = f_gen f ∧ d_len d = f_len f ∧ d_src_vm d = f_src_vm f ∧ d_src_vm d ≠ Z.of_nat k.
Proof.
  intros Hi Hk Hd. pose proof (port_desc _ _ _ _ (vi_ports _ _ _ Hi k v Hk)) as Hall.
  rewrite Forall_forall in Hall. destruct (Hall d Hd) as (f & Hf & Hg & ? & ? & ?).
  pose proof (vinv_frame_used _ _ _ _ _ _ _ Hi Hk Hd Hf) as Hu. exists f. split_and!; try done.
  unfold vnet_pool_slot. rewrite Hf. simpl. rewrite Hg, Z.eqb_refl. unfold used in Hu.
  by apply negb_true_iff in Hu as ->.
Qed.

(** Nothing is stale between operations. *)
Lemma skip_noop {R} x tick sw k v E (Q : unit → vnet_switch → Prop) :
  vinv x tick sw → sw_vnics sw !! k = Some v → Q tt sw → wp (R := R) (skip_stale_head k) E Q sw.
Proof.
  intros Hi Hk HQ. apply wp_bind, wp_gets. unfold id. apply wp_bind. eapply wp_get_vnic; [done|].
  pose proof (port_ring _ _ _ _ (vi_ports _ _ _ Hi k v Hk)) as Hok.
  assert (skip_stale (S (r_count (v_rxq v))) (sw_pool sw) (v_rxq v) = Some (v_rxq v)) as Hskip.
  { simpl. pose proof (ring_peek_spec _ Hok) as Hpeek. destruct (ring_items (v_rxq v)) as [|d l] eqn:Hit.
    - by destruct Hpeek as [e ->].
    - rewrite Hpeek. simpl. destruct (queued_live _ _ _ _ _ d Hi Hk) as (f & _ & -> & _); [|done].
      unfold queue. rewrite Hit. set_solver. }
  apply wp_bind. eapply wp_defined; [exact Hskip|]. eapply wp_mod_vnic; [done|].
  by rewrite eta_vnic_rxq, put_vnic_same.
Qed.

(** ** Receiving *)

Lemma eta_irq v b : v_rx_irq_pending v = b → v <| v_rx_irq_pending := b |> = v.
Proof. intros <-. by destruct v. Qed.
Lemma irq_core k v sw b :
  sw_vnics sw !! k = Some v → v_rx_irq_pending v = b →
  same_core sw (put_vnic k (v <| v_rx_irq_pending := b |>) sw).
Proof. intros Hk <-. by eapply put_vnic_core. Qed.

(** The head of a port's queue, as the descriptor and frame the guest sees. *)
Definition head_frame (sw : vnet_switch) (k : nat) (d : vnet_rx_desc) (f : vnet_frame) : Prop :=
  ∃ v l, sw_vnics sw !! k = Some v ∧ queue v = d :: l ∧ pl_slots (sw_pool sw) !! d_slot d = Some f.

Lemma vnic_of_spec sw k : vnic_of sw (Z.of_nat k) = if decide (k < length (sw_vnics sw))%nat then Some k else None.
Proof.
  unfold vnic_of, nvm. destruct (Z.geb_spec (Z.of_nat k) (Z.of_nat (length (sw_vnics sw)))); destruct (decide _);
    try lia; [done|]. by rewrite Nat2Z.id.
Qed.

(** The common start of the receive operations: the port exists and is open,
    and there is nothing to skip. *)
Ltac rx_open Herr :=
  apply fwp_fn, wp_bind, wp_gets; unfold id; rewrite vnic_of_spec;
  match goal with |- context [decide (?i < length (sw_vnics ?sw))%nat] =>
    destruct (decide (i < length (sw_vnics sw))%nat) as [Hlt|Hge]; [|apply wp_early; Herr];
    let v := fresh "v" in destruct (lookup_lt_is_Some_2 _ _ Hlt) as [v Hv] end;
  apply wp_bind; eapply wp_get_vnic; [done|];
  let Ho := fresh "Hop" in apply wp_if; intros Ho; bool_hyps; [apply wp_early; Herr|];
  apply wp_bind; eapply skip_noop; [done..|]; apply wp_bind; eapply wp_get_vnic; [done|].

Lemma poll_spec x tick sw k (Q : _ → vnet_switch → Prop) :
  vinv x tick sw →
  (∀ e sw', same_core sw sw' → (∀ d f, head_frame sw k d f → ∃ v, sw_vnics sw !! k = Some v ∧ v_open v = false) →
     Q (inl e) sw') →
  (∀ d f, head_frame sw k d f →
     Q (inr {| meta_token_slot := d_slot d; meta_token_gen := d_gen d; meta_len := d_len d;
               meta_flags := d_flags d; meta_src_vm := d_src_vm d |}) sw) →
  fwp (vnet_switch_poll_rx (Z.of_nat k)) Q sw.
Proof.
  intros Hi Herr Hok. rx_open ltac:(apply Herr; [done|]; intros d f (v0 & l & Hv0 & _);
    first [by eauto | apply lookup_lt_Some in Hv0; lia]).
  pose proof (vi_ports _ _ _ Hi k v Hv) as [Hr _ _ Hirq]. rewrite ring_empty_spec by done.
  pose proof (ring_peek_spec _ Hr) as Hpeek. unfold queue in Hirq. destruct (ring_items (v_rxq v)) as [|d l] eqn:Hit.
  - rewrite bool_decide_true in * by done. apply wp_bind. eapply wp_mod_vnic; [done|]. apply wp_early, Herr.
    + by apply irq_core.
    + intros d f (v' & l & Hv' & Hq & _). unfold queue in Hq. congruence.
  - rewrite bool_decide_false by done. apply wp_bind. eapply wp_defined; [done|]. apply wp_ret.
    destruct (queued_live _ _ _ _ _ d Hi Hv) as (f & Hf & _); [unfold queue; rewrite Hit; set_solver|].
    apply (Hok d f). exists v, l. by unfold queue.
Qed.

Lemma rx_read_spec x tick sw k slot gen n (Q : _ → vnet_switch → Prop) :
  vinv x tick sw →
  (∀ e, e < 0 → Q (e, []) sw) →
  (∀ d f bytes, head_frame sw k d f → d_slot d = slot → d_gen d = gen → used f = true → f_len f ≤ n →
     buf_read (f_data f) 0 (f_len f) = Some bytes → d_len d = f_len f → d_src_vm d = f_src_vm f →
     d_src_vm d ≠ Z.of_nat k → Q (f_len f, bytes) sw) →
  fwp (vnet_switch_read_rx (Z.of_nat k) slot gen n) Q sw.
Proof.
  intros Hi Herr Hok. rx_open ltac:(by apply Herr).
  pose proof (vi_ports _ _ _ Hi k v Hv) as [Hr _ _ _]. pose proof (ring_peek_spec _ Hr) as Hpeek. apply wp_bind.
  destruct (ring_items (v_rxq v)) as [|d l] eqn:Hit.
  { destruct Hpeek as [e Hpeek]. eapply wp_defined; [done|]. by apply wp_early, Herr. }
  eapply wp_defined; [done|]. cbv beta iota. apply wp_if; intros Hown; [by apply wp_early, Herr|]. bool_hyps. subst.
  destruct (queued_live _ _ _ _ _ d Hi Hv) as (f & Hf & -> & Hu & ? & ? & ? & ?); [unfold queue; rewrite Hit; set_solver|].
  apply wp_if; intros Hlen; [by apply wp_early, Herr|]. bool_hyps.
  destruct (vi_frames _ _ _ Hi _ _ Hf) as [Hd _ _ Ha]. destruct (Ha Hu) as [Hl _].
  unfold WT_VNET_FRAME_MIN in *. destruct (buf_read_spec (f_data f) 0 (f_len f)) as (bytes & Hb & _); [lia..|].
  apply wp_bind. eapply wp_defined; [done|]. apply wp_ret. eapply (Hok d f bytes); try done.
  exists v, l. by unfold queue.
Qed.

Lemma by_age_tail slots tick d q : by_age slots tick (d :: q) → by_age slots tick q.
Proof.
  intros H a b da db fa fb Hab Ha Hb. apply (H (S a) (S b)); [lia|done..].
Qed.

(** Taking the head of a queue and its reference. *)
Lemma release_head_inv tick sw sw' k v d l f p rc :
  vinv None tick sw → sw_vnics sw !! k = Some v → queue v = d :: l → pl_slots (sw_pool sw) !! d_slot d = Some f →
  vnet_pool_release (sw_pool sw) (d_slot d) (f_gen f) = (p, rc) →
  sw_vnics sw' = <[k := v <| v_rxq := fst (vnet_ring_drop_head (v_rxq v)) |>
                          <| v_rx_irq_pending := negb (bool_decide (l = [])) |>]> (sw_vnics sw) →
  sw_pool sw' = p → sw_fdb sw' = sw_fdb sw →
  vinv None tick sw' ∧ 0 ≤ rc ∧ pl_slots p = <[d_slot d := f <| f_refcnt := f_refcnt f - 1 |>]> (pl_slots (sw_pool sw)).
Proof.
  intros Hi Hk Hq Hf Hrel Ev Ep Ef. pose proof (vinv_refcnt _ _ _ _ _ Hi Hf) as Hr. rewrite held_none in Hr.
  pose proof (vinv_queued _ _ _ k v d Hi Hk ltac:(rewrite Hq; set_solver)) as Hpos.
  destruct (vi_frames _ _ _ Hi _ _ Hf) as [_ _ Hmax _]. pose proof (vi_ports _ _ _ Hi k v Hk) as [Hok Hd Ho _].
  destruct (pool_release_spec (sw_pool sw) (d_slot d) f Hf) as (Es & Eu & Hrc);
    [apply used_spec; lia|done|lia|apply (vi_in_use _ _ _ Hi)|].
  rewrite Hrel in Es, Eu, Hrc. cbn [fst snd] in Es, Eu, Hrc. split_and!; [|done|done].
  destruct (ring_drop_spec _ Hok) as (Hok' & Hit & _). fold (queue v) in Hit. rewrite Hq in Hit. simpl in Hit.
  rewrite Hq in Hd, Ho. apply Forall_cons in Hd as [_ Hd]. rewrite <-Ep in *.
  eapply (vinv_port_frame None None tick sw sw' k v _ (d_slot d) f); [done| |done..].
  split; [done..| | | | |]; unfold queue; cbn [v_rxq set_field set_v_rxq set_v_rx_irq_pending].
  - split; unfold queue; cbn [v_rxq v_rx_irq_pending set_field set_v_rxq set_v_rx_irq_pending]; rewrite ?Hit; try done.
    by eapply by_age_tail.
  - intros i Hne. fold (queue v). rewrite Hit, Hq, occ_cons, occ_one, decide_False by congruence. lia.
  - fold (queue v). rewrite Hit, Hq, occ_cons, occ_one, decide_True by done. simpl. lia.
  - simpl. lia.
  - intros _. apply used_spec. lia.
Qed.

(** What releasing the head does. *)
Record released (tick : Z) (sw sw' : vnet_switch) (k : nat) (d : vnet_rx_desc) : Prop := {
  rl_inv : vinv None tick sw';
  rl_ports : ∀ j, ports sw' j = (λ p, if decide (j = k) then View (pv_open p) (pv_mac p) (tail (pv_queue p)) else p) <$> ports sw j;
  rl_frame : ∃ f, pl_slots (sw_pool sw) !! d_slot d = Some f ∧
    pl_slots (sw_pool sw') = <[d_slot d := f <| f_refcnt := f_refcnt f - 1 |>]> (pl_slots (sw_pool sw));
}.

Lemma release_spec tick sw k slot gen (Q : _ → vnet_switch → Prop) :
  vinv None tick sw →
  (∀ e sw', e < 0 → same_core sw sw' → Q e sw') →
  (∀ d f sw', head_frame sw k d f → d_slot d = slot → d_gen d = gen → released tick sw sw' k d → Q WT_VNET_OK sw') →
  fwp (vnet_switch_release_rx (Z.of_nat k) slot gen) Q sw.
Proof.
  intros Hi Herr Hok. rx_open ltac:(by apply Herr).
  pose proof (vi_ports _ _ _ Hi k v Hv) as [Hr _ _ Hirq]. pose proof (ring_peek_spec _ Hr) as Hpeek. apply wp_bind.
  destruct (ring_items (v_rxq v)) as [|d l] eqn:Hit.
  { destruct Hpeek as [e Hpeek]. eapply wp_defined; [done|]. eapply wp_bump_early; [done|]. intros. by apply Herr. }
  eapply wp_defined; [done|]. cbv beta iota. apply wp_if; intros Hown.
  { eapply wp_bump_early; [done|]. intros. by apply Herr. }
  bool_hyps. subst. destruct (queued_live _ _ _ _ _ d Hi Hv) as (f & Hf & _ & _ & Hg & _); [unfold queue; rewrite Hit; set_solver|].
  apply wp_bind. eapply wp_mod_vnic; [done|]. rewrite Hg.
  destruct (vnet_pool_release (sw_pool sw) (d_slot d) (f_gen f)) as [p rc] eqn:Hrel.
  apply wp_bind, wp_modify. cbv beta.
  assert (∀ sw', sw_vnics sw' = <[k := v <| v_rxq := fst (vnet_ring_drop_head (v_rxq v)) |>
              <| v_rx_irq_pending := negb (bool_decide (l = [])) |>]> (sw_vnics sw) → sw_pool sw' = p →
            sw_fdb sw' = sw_fdb sw → 0 ≤ rc ∧ Q WT_VNET_OK sw') as Hend.
  { intros sw' Ev Ep Ef. destruct (release_head_inv tick sw sw' k v d l f p rc) as (Hi' & Hrc & Es); [done..|].
    split; [done|]. apply (Hok d f); [by exists v, l|done..|]. split; [done| |exists f; by rewrite Ep].
    intros j. unfold ports. rewrite Ev. destruct (decide (j = k)) as [->|Hne].
    - rewrite list_lookup_insert_eq by done. rewrite Hv. simpl. f_equal. unfold view, queue. simpl.
      by destruct (ring_drop_spec _ Hr) as (_ & -> & _).
    - rewrite list_lookup_insert_ne by done. by destruct (sw_vnics sw !! j). }
  apply wp_if; intros Hrc.
  { exfalso. apply Z.ltb_lt in Hrc. destruct (Hend {| sw_vnics := _; sw_pool := p; sw_fdb := _;
      sw_unknown_unicast_flood := true; sw_global_stats := stats_zero |} eq_refl eq_refl eq_refl). lia. }
  apply wp_bind. eapply wp_get_vnic; [simpl; apply list_lookup_insert_eq; by eapply lookup_lt_Some|].
  simpl. destruct (ring_drop_spec _ Hr) as (Hok' & Hit' & _). rewrite ring_empty_spec, Hit', Hit by done. simpl.
  apply wp_bind, wp_when; intros Hl.
  - apply bool_decide_eq_true in Hl. eapply wp_mod_vnic; [simpl; apply list_lookup_insert_eq; by eapply lookup_lt_Some|].
    apply wp_ret, Hend; simpl; [|done..]. rewrite list_insert_insert_eq, Hl. done.
  - apply bool_decide_eq_false in Hl. apply wp_ret, Hend; simpl; [|done..]. f_equal.
    rewrite bool_decide_false by done. symmetry. apply eta_irq. simpl. rewrite Hirq. unfold queue. rewrite Hit.
    by rewrite bool_decide_false.
Qed.

Lemma irq_ack_spec x tick sw k (Q : Z → vnet_switch → Prop) :
  vinv x tick sw → (∀ rc sw', same_core sw sw' → Q rc sw') → fwp (vnet_switch_irq_ack (Z.of_nat k)) Q sw.
Proof.
  intros Hi HQ. rx_open ltac:(by apply HQ). pose proof (vi_ports _ _ _ Hi k v Hv) as [Hr _ _ Hirq].
  rewrite ring_empty_spec by done. unfold queue in Hirq.
  apply wp_if; intros He; rewrite He in Hirq; apply wp_bind; (eapply wp_mod_vnic; [done|]).
  - apply wp_early, HQ. by apply irq_core.
  - apply wp_ret, HQ. by apply irq_core.
Qed.

(** ** Ports *)

Lemma open_spec x tick sw k b (Q : _ → vnet_switch → Prop) :
  vinv x tick sw →
  (∀ e, e ≠ WT_VNET_OK → Q (e, None) sw) →
  (∀ i v, sw_vnics sw !! k = Some v → let sw' := put_vnic k (v <| v_open := true |>) sw in
     vinv x tick sw' → Q (WT_VNET_OK, i) sw') →
  fwp (vnet_switch_open (Z.of_nat k) b) Q sw.
Proof.
  intros Hi Herr HQ. apply fwp_fn, wp_bind, wp_gets. unfold id. rewrite vnic_of_spec.
  destruct (decide _) as [Hlt|Hge]; [|by apply wp_early, Herr].
  destruct (lookup_lt_is_Some_2 _ _ Hlt) as [v Hv]. apply wp_bind. eapply wp_mod_vnic; [done|].
  apply wp_bind. eapply wp_get_vnic; [simpl; by apply list_lookup_insert_eq|]. apply wp_ret.
  eapply HQ; [done|]. apply (state_vinv x tick sw); [|done..]. simpl. by eapply same_insert.
Qed.

(** * Assigning addresses and expiring frames

    An address is given to one port for good; expiry frees the frames that
    have waited too long, which are the oldest of every queue. *)

(** ** Addresses *)

Lemma fdb_mac_assigned fdb vnics i e mac :
  fdb_ok fdb vnics → fdb_find_mac fdb mac = Some (i, e) →
  fdb !! i = Some e ∧ e_mac e = mac ∧ e_kind e = VNET_FDB_ASSIGNED.
Proof.
  intros Hok Hf. apply find_elem_Some in Hf as [Hi Ht]. bool_hyps. apply mac_equals_iff in H0.
  unfold is_kind in H. apply bool_decide_eq_false in H. by destruct (fdb_entry _ _ Hok i e Hi H) as [? _].
Qed.

Lemma fdb_slot_empty fdb vnics i e :
  fdb_ok fdb vnics → fdb_slot fdb = Some (i, e) → fdb !! i = Some e ∧ e_kind e = VNET_FDB_EMPTY.
Proof.
  intros Hok. unfold fdb_slot. destruct (fdb_find_empty fdb) as [[j e']|] eqn:Hf.
  - intros [= -> ->]. apply find_elem_Some in Hf as [Hi Ht]. split; [done|]. by apply bool_decide_eq_true in Ht.
  - intros Hl. apply find_elem_Some in Hl as [Hi Ht]. apply bool_decide_eq_true in Ht.
    destruct (fdb_entry _ _ Hok i e Hi) as [? _]; congruence.
Qed.

(** What [vnet_fdb_assign] decides, given the ports. *)
Lemma fdb_assign_spec fdb vnics k v mac :
  fdb_ok fdb vnics → vnics !! k = Some v → (v_mac_set v = true → v_mac v = mac) →
  let '(fdb', rc) := vnet_fdb_assign fdb (Z.of_nat k) mac in
  (fdb' = fdb ∧ (rc = WT_VNET_OK → v_mac_set v = true ∧ v_mac v = mac)) ∨
  (rc = WT_VNET_OK ∧ v_mac_set v = false ∧ vnet_mac_is_locally_administered_unicast mac = true ∧
   fdb_find_mac fdb mac = None ∧
   ∃ i e, fdb !! i = Some e ∧ e_kind e = VNET_FDB_EMPTY ∧
     fdb' = <[i := {| e_mac := mac; e_guest_id := Z.of_nat k; e_kind := VNET_FDB_ASSIGNED |}]> fdb).
Proof.
  intros Hok Hk Hsame. unfold vnet_fdb_assign. destruct (_ =? _); [by left|].
  destruct (vnet_mac_is_locally_administered_unicast mac) eqn:Hu; simpl; [|by left].
  destruct (fdb_find_mac fdb mac) as [[i [m g kd]]|] eqn:Hm.
  - destruct (fdb_mac_assigned _ _ _ _ _ Hok Hm) as (Hi & Hmac & Hkind). simpl in *. subst kd m. left.
    split; [done|]. destruct (Z.eqb_spec g (Z.of_nat k)) as [->|]; [|done]. intros _.
    destruct (fdb_entry _ _ Hok _ _ Hi) as (_ & _ & v' & Hv' & ? & ?); [done|]. simpl in *.
    rewrite Nat2Z.id in Hv'. by simplify_eq.
  - destruct (fdb_find_assigned_by_guest fdb (Z.of_nat k)) as [[j e]|] eqn:Hg; simpl; [by left|].
    destruct (fdb_slot fdb) as [[i e]|] eqn:Hs; [|by left]. right.
    destruct (fdb_slot_empty _ _ _ _ Hok Hs) as [Hi Hkind]. split_and!; [done| |done|done|by exists i, e].
    apply not_true_iff_false. intros Hset. destruct (fdb_port _ _ Hok k v Hk Hset) as [_ [j Hj]].
    pose proof (find_elem_None _ _ _ _ Hg Hj) as Hn. unfold is_kind in Hn. simpl in Hn.
    by rewrite Z.eqb_refl in Hn.
Qed.

Lemma fdb_assign_ok fdb vnics k v v' mac i e :
  fdb_ok fdb vnics → vnics !! k = Some v → v_mac_set v = false →
  vnet_mac_is_locally_administered_unicast mac = true → fdb_find_mac fdb mac = None →
  fdb !! i = Some e → e_kind e = VNET_FDB_EMPTY → v_mac_set v' = true → v_mac v' = mac →
  fdb_ok (<[i := {| e_mac := mac; e_guest_id := Z.of_nat k; e_kind := VNET_FDB_ASSIGNED |}]> fdb)
         (<[k := v']> vnics).
Proof.
  intros Hok Hk Hset Hu Hnone Hi Hkind Hset' Hmac. pose proof (lookup_lt_Some _ _ _ Hi) as Hlt.
  pose proof (lookup_lt_Some _ _ _ Hk) as Hkl. destruct Hok as [Hd He Hp].
  assert (∀ j e', fdb !! j = Some e' → e_kind e' ≠ VNET_FDB_EMPTY → e_mac e' ≠ mac) as Hnew.
  { intros j e' Hj Hne E. pose proof (find_elem_None _ _ _ _ Hnone Hj) as Hn. unfold is_kind in Hn. simpl in Hn.
    rewrite (bool_decide_false (e_kind e' = VNET_FDB_EMPTY)) in Hn by done.
    rewrite (proj2 (mac_equals_iff _ _)) in Hn; done. }
  split.
  - intros a b ea eb Ha Hb Hka Hkb Hab. destruct (decide (a = i)) as [->|Ha'], (decide (b = i)) as [->|Hb'].
    + done.
    + rewrite list_lookup_insert_eq in Ha by done. rewrite list_lookup_insert_ne in Hb by done.
      injection Ha as <-. by destruct (Hnew b eb Hb Hkb).
    + rewrite list_lookup_insert_ne in Ha by done. rewrite list_lookup_insert_eq in Hb by done.
      injection Hb as <-. by destruct (Hnew a ea Ha Hka).
    + rewrite list_lookup_insert_ne in Ha, Hb by done. by eapply Hd.
  - intros a ea Ha Hka. destruct (decide (a = i)) as [->|Ha'].
    + rewrite list_lookup_insert_eq in Ha by done. injection Ha as <-. simpl. split_and!; [done|lia|].
      rewrite Nat2Z.id. exists v'. by rewrite list_lookup_insert_eq.
    + rewrite list_lookup_insert_ne in Ha by done. destruct (He a ea Ha Hka) as (? & ? & w & Hw & Hws & ?).
      split_and!; [done..|]. exists w. rewrite list_lookup_insert_ne; [done|]. intros E. rewrite <-E in Hw. congruence.
  - intros j w Hj Hws. destruct (decide (j = k)) as [->|Hne].
    + rewrite list_lookup_insert_eq in Hj by done. injection Hj as <-. rewrite Hmac. split; [done|].
      exists i. by rewrite list_lookup_insert_eq.
    + rewrite list_lookup_insert_ne in Hj by done. destruct (Hp j w Hj Hws) as [? [a Ha]]. split; [done|].
      exists a. rewrite list_lookup_insert_ne; [done|]. intros <-. by simplify_eq.
Qed.

Lemma assign_inv x tick sw sw' k v v' :
  vinv x tick sw → sw_vnics sw !! k = Some v → v_mac_set v = false →
  v_rxq v' = v_rxq v → v_rx_irq_pending v' = v_rx_irq_pending v →
  fdb_ok (sw_fdb sw') (sw_vnics sw') → sw_vnics sw' = <[k := v']> (sw_vnics sw) → sw_pool sw' = sw_pool sw →
  vinv x tick sw'.
Proof.
  intros [Hn Hs Hi Hports Hframes Hfdb] Hk Hset Hr Hirq Hok Ev Ep.
  assert (∀ i, refs sw' i = refs sw i) as Hrefs.
  { intros i. unfold refs. rewrite Ev. pose proof (total_insert (occ i ∘ queue) _ _ _ v' Hk) as E. simpl in E.
    unfold queue in E at 2 4. rewrite Hr in E. lia. }
  split; rewrite ?Ep; try done.
  - unfold nvm in *. by rewrite Ev, length_insert.
  - intros j w Hj. rewrite Ev in Hj. destruct (decide (j = k)) as [->|Hne].
    + rewrite list_lookup_insert_eq in Hj by (by eapply lookup_lt_Some). injection Hj as <-.
      destruct (Hports k v Hk) as [? ? ? ?]. unfold queue in *. split; unfold queue; by rewrite ?Hr, ?Hirq.
    + rewrite list_lookup_insert_ne in Hj by done. by apply Hports.
  - intros i f Hf. destruct (Hframes i f Hf) as [? Hrf ? Ha]. split; [done|by rewrite Hrefs|done|].
    intros Hu. destruct (Ha Hu) as (? & ? & w & Hw & Hws & ?). split_and!; [lia..|done|]. exists w.
    rewrite Ev, list_lookup_insert_ne; [done|]. intros E. rewrite <-E in Hw. congruence.
Qed.

Lemma assign_mac_spec x tick sw k mac (Q : Z → vnet_switch → Prop) :
  vinv x tick sw →
  (∀ rc sw', same_core sw sw' →
     (rc = WT_VNET_OK → ∃ v, sw_vnics sw !! k = Some v ∧ v_mac_set v = true ∧ v_mac v = mac) → Q rc sw') →
  (∀ sw' v, vinv x tick sw' → sw_vnics sw !! k = Some v → v_open v = true → v_mac_set v = false →
     vnet_mac_is_locally_administered_unicast mac = true →
     sw_vnics sw' = <[k := v <| v_mac := mac |> <| v_mac_set := true |>]> (sw_vnics sw) →
     sw_pool sw' = sw_pool sw → Q WT_VNET_OK sw') →
  fwp (vnet_switch_assign_mac (Z.of_nat k) mac) Q sw.
Proof.
  intros Hi Hsame Hset. apply fwp_fn, wp_bind, wp_gets. unfold id. rewrite vnic_of_spec.
  destruct (decide _) as [Hlt|Hge]; [|by apply wp_early, Hsame].
  destruct (lookup_lt_is_Some_2 _ _ Hlt) as [v Hv]. apply wp_bind. eapply wp_get_vnic; [done|].
  apply wp_if; intros Hopen; bool_hyps; [by apply wp_early, Hsame|].
  apply wp_if; intros Hu; bool_hyps; [eapply wp_bump_early; [done|]; intros; by apply Hsame|].
  apply wp_if; intros Hdup; [eapply wp_bump_early; [done|]; intros; by apply Hsame|].
  assert (v_mac_set v = true → v_mac v = mac) as Hold.
  { intros E. rewrite E in Hdup. simpl in Hdup. apply negb_false_iff in Hdup. by apply mac_equals_iff. }
  pose proof (fdb_assign_spec _ _ k v mac (vi_fdb _ _ _ Hi) Hv Hold) as Hspec.
  destruct (vnet_fdb_assign (sw_fdb sw) (Z.of_nat k) mac) as [fdb' rc].
  apply wp_bind, wp_modify. cbv beta. destruct Hspec as [[-> Hrc]|(-> & Hns & Hua & Hfm & i & e & Hie & Hek & ->)].
  - rewrite eta_fdb. apply wp_if; intros Hbad; bool_hyps.
    + apply wp_bind. apply wp_if; intros E1; [|apply wp_when; intros E2].
      all: try (eapply wp_bump; [done|]; intros sw' Hc; apply wp_early, Hsame; [done|]; by intros ->).
      apply wp_early, Hsame; [done|]. by intros ->.
    + destruct (Hrc Hbad) as [Hs Hm]. apply wp_bind. eapply wp_mod_vnic; [done|]. apply wp_ret, Hsame; [|by eauto].
      eapply put_vnic_core; [done|]. unfold core. simpl. by rewrite Hs, Hm.
  - simpl. apply wp_bind. eapply wp_mod_vnic; [done|]. apply wp_ret. eapply (Hset _ v); try done.
    eapply (assign_inv x tick sw _ k v (v <| v_mac := mac |> <| v_mac_set := true |>)); try done. simpl. eapply (fdb_assign_ok _ _ k v _ mac i e); try done. by apply (vi_fdb _ _ _ Hi).
Qed.
