(* ===== verification/VnetExpiry.v ===== *)
(** * Expiry in the virtual network switch

    [vnet_switch_drop_expired] frees every frame that has waited long enough
    and removes its descriptors. The queues are ordered by age, so the stale
    descriptors are the ones at the front. *)

From Stdlib Require Import ZArith Lia.
From stdpp Require Import base list numbers option sets.
From S2P Require Import Prelude Buffers CState VnetTables VnetSwitch VnetInv VnetDeliver VnetTx VnetRx.

(** ** The pool *)

Definition expire (now timeout : Z) (f : vnet_frame) : vnet_frame :=
  if used f && expired now timeout f then f <| f_refcnt := 0 |> else f.

Lemma expire_meta now timeout f : meta (expire now timeout f) = meta f.
Proof. unfold expire. by destruct (_ && _). Qed.

Lemma one_less_spec p slots n :
  pl_slots p = slots → pl_in_use_count p = n → 0 < n → pl_slots (one_less_in_use p) = slots ∧ pl_in_use_count (one_less_in_use p) = n - 1.
Proof. intros <- <- Hn. unfold one_less_in_use. destruct (Z.gtb_spec (pl_in_use_count p) 0); [done|lia]. Qed.

Lemma expire_loop now timeout p j :
  pl_in_use_count p = in_use (pl_slots p) → (j ≤ length (pl_slots p))%nat → Z.of_nat (length (pl_slots p)) ≤ 0xFFFF →
  ∃ p' freed, foldl (expire_slot now timeout) (p, 0) (seq 0 j) = (p', freed) ∧
    pl_slots p' = (expire now timeout <$> take j (pl_slots p)) ++ drop j (pl_slots p) ∧
    pl_in_use_count p' = in_use (pl_slots p') ∧ 0 ≤ freed ≤ Z.of_nat j ∧ (freed = 0 → pl_slots p' = pl_slots p).
Proof.
  intros Hin Hj Hmax. induction j as [|j IH].
  { exists p, 0. simpl. split_and!; [done|by rewrite drop_0|done|lia|lia|done]. }
  destruct IH as (p1 & n & Hf & Hs & Hu & Hn & Hz); [lia|].
  rewrite seq_S, foldl_app, Hf. simpl.
  destruct (lookup_lt_is_Some_2 (pl_slots p) j) as [f Hfj]; [lia|].
  assert (length (expire now timeout <$> take j (pl_slots p)) = j) as Hl by (rewrite length_fmap, length_take; lia).
  assert (pl_slots p1 !! j = Some f) as Hj1.
  { rewrite Hs, lookup_app_r by lia. rewrite Hl, Nat.sub_diag, lookup_drop, Nat.add_0_r. done. }
  assert (∀ g, <[j := g]> (pl_slots p1) = (expire now timeout <$> take j (pl_slots p)) ++ g :: drop (S j) (pl_slots p)) as Hins.
  { intros g. rewrite Hs, (drop_S _ _ _ Hfj), insert_app_r_alt by lia. by rewrite Hl, Nat.sub_diag. }
  assert (∀ g, g = expire now timeout f → <[j := g]> (pl_slots p1) =
            (expire now timeout <$> take (S j) (pl_slots p)) ++ drop (S j) (pl_slots p)) as Hins'.
  { intros g ->. rewrite Hins, (take_S_r _ _ _ Hfj), fmap_app, <-app_assoc. done. }
  rewrite Hj1. assert (expire now timeout f = f → ∃ p' freed, (p1, n) = (p', freed) ∧
    pl_slots p' = (expire now timeout <$> take (S j) (pl_slots p)) ++ drop (S j) (pl_slots p) ∧
    pl_in_use_count p' = in_use (pl_slots p') ∧ 0 ≤ freed ≤ Z.of_nat (S j) ∧ (freed = 0 → pl_slots p' = pl_slots p)) as Hkeep.
  { intros E. exists p1, n. split_and!; [done| |done|lia|lia|done].
    rewrite <-(Hins' f (eq_sym E)). by rewrite list_insert_id. }
  destruct (Z.eqb_spec (f_refcnt f) 0) as [Hr0|Hr0].
  { apply Hkeep. unfold expire, used. by rewrite Hr0. }
  destruct (expired now timeout f) eqn:Hex; [|apply Hkeep; unfold expire; by rewrite Hex, andb_false_r].
  set (p2 := p1 <| pl_slots := <[j := f <| f_refcnt := 0 |>]> (pl_slots p1) |>).
  destruct (one_less_spec p2 _ _ eq_refl eq_refl) as [Hs2 Hu2].
  { change (0 < pl_in_use_count p1). rewrite Hu. eapply in_use_pos; [exact Hj1|]. by apply used_spec. }
  eexists _, _. split_and!; [done| | |rewrite u16_small; lia|rewrite u16_small; lia|rewrite u16_small; lia].
  - rewrite Hs2. apply Hins'. unfold expire. rewrite Hex, (proj2 (used_spec f)) by done. done.
  - rewrite Hu2, Hs2. subst p2. cbn [pl_slots pl_in_use_count set_field set_pl_slots].
    rewrite (in_use_insert _ _ _ _ Hj1), Hu, (proj2 (used_spec f)) by done. simpl. lia.
Qed.

Lemma drop_expired_pool now timeout p :
  pl_in_use_count p = in_use (pl_slots p) → Z.of_nat (length (pl_slots p)) ≤ 0xFFFF →
  ∃ p' freed, vnet_pool_drop_expired p now timeout = (p', freed) ∧ 0 ≤ freed ∧
    pl_in_use_count p' = in_use (pl_slots p') ∧ (freed = 0 → p' = p) ∧
    (freed ≠ 0 → pl_slots p' = expire now timeout <$> pl_slots p).
Proof.
  intros Hin Hmax. unfold vnet_pool_drop_expired. destruct (timeout =? 0); [by exists p, 0|].
  destruct (expire_loop now timeout p (length (pl_slots p))) as (p' & n & -> & Hs & Hu & Hn & Hz); [done..|].
  rewrite firstn_all, drop_all, app_nil_r in Hs. exists p', n. split_and!; [done|lia|done| |done].
  intros E. specialize (Hz E). destruct p, p'. simpl in *. by rewrite Hu, Hz, <-Hin.
Qed.

(** ** The queues *)

Lemma live_expire now timeout p p' k d f :
  pl_slots p' = expire now timeout <$> pl_slots p → describes (pl_slots p) k d →
  pl_slots p !! d_slot d = Some f → used f = true → live p' d = negb (expired now timeout f).
Proof.
  intros Hs (f' & Hf' & Hg & _) Hf Hu. rewrite Hf in Hf'. injection Hf' as <-. unfold live, vnet_pool_slot.
  rewrite Hs, list_lookup_fmap, Hf. simpl. unfold expire. rewrite Hu. simpl.
  destruct (expired now timeout f); simpl; [done|].
  unfold used in Hu. apply negb_true_iff in Hu. by rewrite Hu, Hg, Z.eqb_refl, bool_decide_true by eauto.
Qed.

Lemma filter_same {A} (P P' : A → Prop) `{!∀ x, Decision (P x), !∀ x, Decision (P' x)} (l : list A) :
  (∀ x, x ∈ l → P x ↔ P' x) → filter P l = filter P' l.
Proof.
  induction l as [|x l IH]; intros Hl; [done|]. rewrite !filter_cons, IH by set_solver.
  specialize (Hl x ltac:(set_solver)). by destruct (decide (P x)), (decide (P' x)); try tauto.
Qed.
Lemma filter_all (p : vnet_pool) (q : list vnet_rx_desc) : (∀ d, d ∈ q → live p d = true) → filter (λ d, live p d = true) q = q.
Proof.
  induction q as [|d q IH]; intros H; [done|]. rewrite filter_cons, decide_True by (apply H; set_solver).
  f_equal. apply IH. set_solver.
Qed.

(** In a queue ordered by age the stale descriptors come first. *)
Lemma drop_stale_filter slots tick p (q : list vnet_rx_desc) :
  by_age slots tick q →
  (∀ d d' f f', d ∈ q → d' ∈ q → slots !! d_slot d = Some f → slots !! d_slot d' = Some f' →
     age tick f' ≤ age tick f → live p d = true → live p d' = true) →
  (∀ d, d ∈ q → is_Some (slots !! d_slot d)) →
  drop_stale p q = filter (λ d, live p d = true) q.
Proof.
  induction q as [|d q IH]; intros Ho Hm Hs; simpl; [done|]. rewrite filter_cons.
  destruct (live p d) eqn:El; last first.
  { rewrite decide_False by done. apply IH; [by eapply by_age_tail|set_solver|set_solver]. }
  rewrite decide_True by done. f_equal. symmetry. apply filter_all. intros d' Hd'.
  destruct (Hs d) as [f Hf]; [set_solver|]. destruct (Hs d') as [f' Hf']; [set_solver|].
  eapply Hm; [by apply list_elem_of_here|by apply list_elem_of_further|exact Hf|exact Hf'| |done].
  apply list_elem_of_lookup in Hd' as [b Hb]. eapply (Ho 0%nat (S b)); [lia|done..].
Qed.

Lemma occ_filter p i (q : list vnet_rx_desc) :
  (∀ d, d ∈ q → d_slot d = i → live p d = true) → occ i (filter (λ d, live p d = true) q) = occ i q.
Proof.
  unfold occ. induction q as [|d q IH]; intros H; [done|]. rewrite (filter_cons _ d).
  destruct (decide (live p d = true)) as [Hl|Hl].
  - rewrite !filter_cons. destruct (decide (d_slot d = i)); simpl; rewrite IH; set_solver.
  - rewrite filter_cons, decide_False by (intros E; apply Hl, H; [set_solver|done]). apply IH. set_solver.
Qed.
Lemma occ_filter_dead p i (q : list vnet_rx_desc) :
  (∀ d, d ∈ q → d_slot d = i → live p d = false) → occ i (filter (λ d, live p d = true) q) = 0%nat.
Proof.
  unfold occ. induction q as [|d q IH]; intros H; [done|]. rewrite (filter_cons _ d).
  destruct (decide (live p d = true)) as [Hl|Hl]; [|apply IH; set_solver].
  rewrite filter_cons, decide_False by (intros E; rewrite (H d) in Hl; [done|set_solver|done]). apply IH. set_solver.
Qed.
Lemma by_age_filter slots tick p q : by_age slots tick q → by_age slots tick (drop_stale p q).
Proof.
  induction q as [|d q IH]; intros H; simpl; [done|]. destruct (live p d); [done|]. by eapply IH, by_age_tail.
Qed.

(** ** The ports *)

(** A port after its stale descriptors are gone. *)
Definition refreshed (p : vnet_pool) (v v' : vnet_vnic) : Prop :=
  ring_ok (v_rxq v') ∧ queue v' = drop_stale p (queue v) ∧ r_capacity (v_rxq v') = r_capacity (v_rxq v) ∧
  v_open v' = v_open v ∧ ident v' = ident v ∧ v_rx_irq_pending v' = negb (bool_decide (queue v' = [])).

Lemma drop_stale_nil p q : q = [] → drop_stale p q = [].
Proof. by intros ->. Qed.

Lemma put_vnic_put k v v' sw : put_vnic k v' (put_vnic k v sw) = put_vnic k v' sw.
Proof. unfold put_vnic, set_field, set_sw_vnics. simpl. by rewrite list_insert_insert_eq. Qed.

Lemma refresh_port_spec {R} k v sw E (Q : unit → vnet_switch → Prop) :
  sw_vnics sw !! k = Some v → ring_ok (v_rxq v) → v_rx_irq_pending v = negb (bool_decide (queue v = [])) →
  (∀ v', refreshed (sw_pool sw) v v' → Q tt (put_vnic k v' sw)) → wp (R := R) (refresh_port k) E Q sw.
Proof.
  intros Hk Hok Hirq HQ. apply wp_bind, wp_bind, wp_gets. unfold id. apply wp_bind. eapply wp_get_vnic; [done|].
  destruct (skip_stale_spec (sw_pool sw) (v_rxq v) (S (r_count (v_rxq v))) Hok) as (r & Hr & Hok' & Hit & Hcap); [lia|].
  apply wp_bind. eapply wp_defined; [exact Hr|]. eapply wp_mod_vnic; [done|].
  assert (sw_vnics (put_vnic k (v <| v_rxq := r |>) sw) !! k = Some (v <| v_rxq := r |>)) as Hk2.
  { apply list_lookup_insert_eq. by eapply lookup_lt_Some. }
  apply wp_bind. eapply wp_get_vnic; [exact Hk2|]. simpl. rewrite ring_empty_spec by done. apply wp_when; intros He.
  - apply bool_decide_eq_true in He. eapply wp_mod_vnic; [exact Hk2|].
    rewrite put_vnic_put.
    apply HQ. unfold refreshed, queue. simpl. rewrite He. by rewrite <-Hit, He.
  - apply bool_decide_eq_false in He. apply HQ. unfold refreshed, queue. simpl. split_and!; try done.
    rewrite Hirq. unfold queue. rewrite !bool_decide_false; [done|done|]. intros E0. apply He.
    rewrite Hit. by apply drop_stale_nil.
Qed.

Lemma refresh_all_spec {R} sw E (Q : unit → vnet_switch → Prop) :
  (∀ k v, sw_vnics sw !! k = Some v → ring_ok (v_rxq v) ∧ v_rx_irq_pending v = negb (bool_decide (queue v = []))) →
  (∀ sw', sw_pool sw' = sw_pool sw → sw_fdb sw' = sw_fdb sw → length (sw_vnics sw') = length (sw_vnics sw) →
     (∀ k v, sw_vnics sw !! k = Some v → ∃ v', sw_vnics sw' !! k = Some v' ∧ refreshed (sw_pool sw) v v') → Q tt sw') →
  wp (R := R) (for_each (seq 0 (length (sw_vnics sw))) refresh_port) E Q sw.
Proof.
  intros Hok HQ. apply (wp_for_each _ _ (λ l sw', sw_pool sw' = sw_pool sw ∧ sw_fdb sw' = sw_fdb sw ∧
    length (sw_vnics sw') = length (sw_vnics sw) ∧
    ∀ k v, sw_vnics sw !! k = Some v → ∃ v', sw_vnics sw' !! k = Some v' ∧
      if decide (k ∈ l) then refreshed (sw_pool sw) v v' else v' = v)).
  - split_and!; [done..|]. intros k v Hk. exists v. split; [done|]. by rewrite decide_False by set_solver.
  - intros l1 i l2 sw' Hl (Hp & Hf & Hlen & Hv). assert (i ∉ l1) as Hni.
    { assert (NoDup (l1 ++ i :: l2)) as Hnd by (rewrite <-Hl; apply NoDup_seq).
      apply NoDup_app in Hnd as (_ & Hnd & _). intros Hin. by apply (Hnd i Hin), list_elem_of_here. }
    destruct (lookup_lt_is_Some_2 (sw_vnics sw) i) as [v Hi].
    { assert (i ∈ seq 0 (length (sw_vnics sw))) as Hin by (rewrite Hl; set_solver). apply elem_of_seq in Hin. lia. }
    destruct (Hv i v Hi) as (v' & Hi' & Hd). rewrite decide_False in Hd by done. subst v'.
    destruct (Hok i v Hi) as [Hr Hirq]. eapply refresh_port_spec; [done..|]. intros v' Href. rewrite Hp in Href.
    split_and!; [done|done|simpl; by rewrite length_insert|]. intros k w Hk. simpl.
    destruct (decide (k = i)) as [->|Hne].
    + rewrite list_lookup_insert_eq by (by eapply lookup_lt_Some). exists v'. split; [done|].
      rewrite decide_True by set_solver. by simplify_eq.
    + rewrite list_lookup_insert_ne by done. destruct (Hv k w Hk) as (w' & Hw & Hd). exists w'. split; [done|].
      destruct (decide (k ∈ l1)); [rewrite decide_True by set_solver|rewrite decide_False by set_solver]; done.
  - intros sw' (Hp & Hf & Hlen & Hv). apply HQ; [done..|]. intros k v Hk. destruct (Hv k v Hk) as (v' & Hk' & Hd).
    exists v'. split; [done|]. rewrite decide_True in Hd; [done|]. apply elem_of_seq. apply lookup_lt_Some in Hk. lia.
Qed.

(** ** The whole expiry *)

(** The descriptors whose frames are kept. *)
Definition kept (sw : vnet_switch) (now timeout : Z) (d : vnet_rx_desc) : Prop :=
  ∃ f, pl_slots (sw_pool sw) !! d_slot d = Some f ∧ expired now timeout f = false.
#[export] Instance kept_dec sw now timeout d : Decision (kept sw now timeout d).
Proof.
  unfold kept. destruct (pl_slots (sw_pool sw) !! d_slot d) as [f|]; [|right; by intros (? & ? & ?)].
  destruct (expired now timeout f) eqn:E; [right; intros (g & [= <-] & ?); congruence|left; by exists f].
Defined.

Section expiry.
Context (now timeout : Z) (sw : vnet_switch) (p : vnet_pool).
Hypothesis Hinv : vinv None now sw.
Hypothesis Hslots : pl_slots p = expire now timeout <$> pl_slots (sw_pool sw).
Hypothesis Huse : pl_in_use_count p = in_use (pl_slots p).

Lemma live_kept k v d :
  sw_vnics sw !! k = Some v → d ∈ queue v → live p d = true ↔ kept sw now timeout d.
Proof.
  intros Hk Hd. pose proof (port_desc _ _ _ _ (vi_ports _ _ _ Hinv k v Hk)) as Hall. rewrite Forall_forall in Hall.
  specialize (Hall d Hd). pose proof Hall as (f & Hf & _).
  pose proof (vinv_frame_used _ _ _ _ _ _ _ Hinv Hk Hd Hf) as Hu. rewrite (live_expire _ _ _ _ _ _ _ Hslots Hall Hf Hu).
  unfold kept. rewrite Hf. destruct (expired now timeout f) eqn:E; simpl; split; try done; [|by exists f].
  intros (g & [= <-] & ?). congruence.
Qed.

Lemma queue_kept k v :
  sw_vnics sw !! k = Some v → drop_stale p (queue v) = filter (λ d, live p d = true) (queue v).
Proof.
  intros Hk. pose proof (vi_ports _ _ _ Hinv k v Hk) as [_ Hall Ho _]. rewrite Forall_forall in Hall.
  eapply drop_stale_filter; [exact Ho| |].
  - intros d d' f f' Hd Hd' Hf Hf' Hage. rewrite !(live_kept k v) by done. intros (g & Hg & He).
    rewrite Hf in Hg. injection Hg as <-. exists f'. split; [done|]. unfold expired in *. unfold age in Hage.
    destruct (Z.geb_spec (u32 (now - f_born_tick f)) timeout); [done|].
    destruct (Z.geb_spec (u32 (now - f_born_tick f')) timeout); [lia|done].
  - intros d Hd. destruct (Hall d Hd) as (f & Hf & _). by eexists.
Qed.

Lemma refs_refreshed sw' i f :
  length (sw_vnics sw') = length (sw_vnics sw) →
  (∀ k v, sw_vnics sw !! k = Some v → ∃ v', sw_vnics sw' !! k = Some v' ∧ refreshed p v v') →
  pl_slots (sw_pool sw) !! i = Some f →
  refs sw' i = if used f && expired now timeout f then 0%nat else refs sw i.
Proof.
  intros Hlen Hv Hf. unfold refs.
  assert (∀ l l', length l' = length l → (∀ k v, l !! k = Some v → sw_vnics sw !! (k) = Some v ∨ v ∈ sw_vnics sw) →
    (∀ k v, l !! k = Some v → ∃ v', l' !! k = Some v' ∧ queue v' = drop_stale p (queue v)) →
    total (occ i ∘ queue) l' = if used f && expired now timeout f then 0%nat else total (occ i ∘ queue) l) as Hgen.
  { induction l as [|v l IH]; intros [|v' l'] Hl Hin Hq; try done; [by destruct (_ && _)|].
    simpl. injection Hl as Hl. destruct (Hq 0%nat v eq_refl) as (? & [= <-] & Hqv).
    rewrite (IH l'); [|done|intros k w Hk; destruct (Hin (S k) w Hk) as [Hw|Hw]; right; [by eapply list_elem_of_lookup_2|done]
      |intros k w Hk; by apply (Hq (S k))].
    assert (v ∈ sw_vnics sw) as [k Hk]%list_elem_of_lookup.
    { destruct (Hin 0%nat v eq_refl) as [Hw|Hw]; [by eapply list_elem_of_lookup_2|done]. }
    assert (∀ d, d ∈ queue v → d_slot d = i → live p d = negb (expired now timeout f) ∧ used f = true) as Hlive.
    { intros d Hd <-. pose proof (vinv_frame_used _ _ _ _ _ _ _ Hinv Hk Hd Hf) as Hu.
      pose proof (port_desc _ _ _ _ (vi_ports _ _ _ Hinv k v Hk)) as Hall. rewrite Forall_forall in Hall.
      split; [|done]. eapply live_expire; [exact Hslots|by apply Hall|done|done]. }
    rewrite Hqv, (queue_kept k v Hk). destruct (used f && expired now timeout f) eqn:E.
    - apply andb_true_iff in E as [E1 E2]. rewrite occ_filter_dead; [done|]. intros d Hd Hs.
      destruct (Hlive d Hd Hs) as [-> _]. by rewrite E2.
    - rewrite occ_filter; [done|]. intros d Hd Hs. destruct (Hlive d Hd Hs) as [-> Hu]. rewrite Hu in E. simpl in E. by rewrite E. }
  apply Hgen; [done|by left|]. intros k v Hk. destruct (Hv k v Hk) as (v' & ? & _ & ? & _). by exists v'.
Qed.

Lemma expiry_inv sw' :
  sw_pool sw' = p → sw_fdb sw' = sw_fdb sw → length (sw_vnics sw') = length (sw_vnics sw) →
  (∀ k v, sw_vnics sw !! k = Some v → ∃ v', sw_vnics sw' !! k = Some v' ∧ refreshed p v v') →
  vinv None now sw'.
Proof.
  intros Ep Ef Hlen Hv. assert (meta <$> pl_slots (sw_pool sw) = meta <$> pl_slots p) as Hm.
  { rewrite Hslots, <-list_fmap_compose. apply list_fmap_ext. intros i f _. simpl. by rewrite expire_meta. }
  assert (ident <$> sw_vnics sw = ident <$> sw_vnics sw') as Hid.
  { apply list_eq_same_length with (length (sw_vnics sw)); [by rewrite length_fmap, Hlen|by rewrite length_fmap|].
    intros k a b _ Ha Hb. rewrite list_lookup_fmap in Ha, Hb. destruct (sw_vnics sw !! k) as [v|] eqn:Hk; [|done].
    destruct (Hv k v Hk) as (v' & Hk' & _ & _ & _ & _ & Hi & _). rewrite Hk' in Hb. simpl in *. congruence. }
  pose proof Hinv as [Hn Hs _ Hports Hframes Hfdb]. split; rewrite ?Ep.
  - unfold nvm in *. by rewrite Hlen.
  - by rewrite <-(length_fmap meta), <-Hm, length_fmap.
  - done.
  - intros k v' Hk'. destruct (lookup_lt_is_Some_2 (sw_vnics sw) k) as [v Hk].
    { rewrite <-Hlen. by eapply lookup_lt_Some. }
    destruct (Hv k v Hk) as (? & Hk2 & Hok & Hq & _ & _ & _ & Hirq). rewrite Hk' in Hk2. injection Hk2 as <-.
    destruct (Hports k v Hk) as [_ Hd Ho _]. eapply port_same; [exact Hm|]. split; [done| | |done].
    + rewrite Hq, (queue_kept k v Hk). apply Forall_forall. intros d [_ Hd']%list_elem_of_filter.
      rewrite Forall_forall in Hd. by apply Hd.
    + rewrite Hq. by apply by_age_filter.
  - intros i f' Hf'. rewrite Hslots, list_lookup_fmap in Hf'.
    destruct (pl_slots (sw_pool sw) !! i) as [f|] eqn:Hf; [|done]. injection Hf' as <-.
    destruct (Hframes i f Hf) as [Hd Hr Hmax Ha]. pose proof (expire_meta now timeout f) as Hmf. split.
    + by injection Hmf as _ _ _ _ ->.
    + rewrite (refs_refreshed sw' i f) by done. unfold expire. destruct (_ && _); done.
    + unfold expire. destruct (_ && _); simpl; lia.
    + intros Hu. eapply authentic_same; [exact Hid|]. eapply authentic_meta; [by symmetry|]. apply Ha.
      unfold expire in Hu. destruct (used f) eqn:E; [done|]. simpl in Hu. congruence.
  - rewrite Ef. by eapply fdb_same.
Qed.
End expiry.

Lemma drop_expired_spec now timeout sw (Q : Z → vnet_switch → Prop) :
  vinv None now sw →
  Q 0 sw →
  (∀ n sw', 0 < n → vinv None now sw' → sw_fdb sw' = sw_fdb sw →
     (∀ k, ports sw' k = (λ v, View (pv_open v) (pv_mac v) (filter (kept sw now timeout) (pv_queue v))) <$> ports sw k) →
     Q n sw') →
  fwp (vnet_switch_drop_expired now timeout) Q sw.
Proof.
  intros Hinv Hsame Hdrop. apply fwp_fn, wp_bind, wp_gets. unfold id.
  destruct (drop_expired_pool now timeout (sw_pool sw)) as (p & n & -> & Hn & Hu & Hz & Hs);
    [apply (vi_in_use _ _ _ Hinv)|apply (vi_slots _ _ _ Hinv)|].
  apply wp_bind, wp_modify. cbv beta. apply wp_bind, wp_when; intros Hpos; last first.
  { rewrite Z.gtb_ltb in Hpos. apply Z.ltb_ge in Hpos. assert (n = 0) as -> by lia. rewrite Hz by done.
    rewrite eta_pool. by apply wp_ret. }
  rewrite Z.gtb_ltb in Hpos. apply Z.ltb_lt in Hpos. specialize (Hs ltac:(lia)). apply wp_bind, wp_modify. cbv beta.
  change (sw_vnics sw) with (sw_vnics (sw <| sw_pool := p |> <| sw_global_stats := (sw_global_stats sw) <|
    drop_timeout := u32 (drop_timeout (sw_global_stats sw) + n) |> |>)).
  apply refresh_all_spec.
  { intros k v Hk. destruct (vi_ports _ _ _ Hinv k v Hk). done. }
  intros sw' Ep Ef Hl Hv. simpl in *. apply wp_ret, Hdrop; [done| |done|].
  { eapply expiry_inv; done. }
  intros k. unfold ports. destruct (sw_vnics sw !! k) as [v|] eqn:Hk; last first.
  { apply lookup_ge_None in Hk. rewrite <-Hl in Hk. apply lookup_ge_None in Hk. by rewrite Hk. }
  destruct (Hv k v Hk) as (v' & -> & _ & Hq & _ & Ho & Hid & _). simpl. f_equal. injection Hid as E1 E2.
  unfold view. rewrite Ho, E1, E2. f_equal. rewrite Hq, (queue_kept now timeout sw p Hinv Hs k v Hk).
  apply filter_same. intros d Hd. by apply (live_kept now timeout sw p Hinv Hs k v).
Qed.
