(* ===== verification/VnetProps.v ===== *)
(** * Properties of the virtual network switch

    The switch as a transition system: every state reachable from its
    initialisation satisfies the invariant, and what guests observe follows. *)

From Stdlib Require Import ZArith Lia.
From stdpp Require Import base list numbers option sets.
From S2P Require Import Prelude Buffers CState VnetTables VnetSwitch VnetInv VnetDeliver VnetTx VnetRx VnetExpiry.

(** ** Operations of the guests and of time *)

Inductive vnet_op :=
| VOpen (vm : nat) (info_out : bool)
| VAssign (vm : nat) (mac : vnet_mac)
| VTx (vm : nat) (frame : list Z) (now_tick : Z)
| VPoll (vm : nat)
| VRead (vm slot : nat) (gen dst_len : Z)
| VRelease (vm slot : nat) (gen : Z)
| VAck (vm : nat)
| VExpire (now_tick timeout_ticks : Z).

Definition vafter {A} (f : func vnet_switch A) : vnet_switch → option vnet_switch := λ sw, fst <$> f sw.

Definition vexec (o : vnet_op) : vnet_switch → option vnet_switch :=
  match o with
  | VOpen vm b => vafter (vnet_switch_open (Z.of_nat vm) b)
  | VAssign vm mac => vafter (vnet_switch_assign_mac (Z.of_nat vm) mac)
  | VTx vm frame now => vafter (vnet_switch_tx (Z.of_nat vm) frame now)
  | VPoll vm => vafter (vnet_switch_poll_rx (Z.of_nat vm))
  | VRead vm slot gen n => vafter (vnet_switch_read_rx (Z.of_nat vm) slot gen n)
  | VRelease vm slot gen => vafter (vnet_switch_release_rx (Z.of_nat vm) slot gen)
  | VAck vm => vafter (vnet_switch_irq_ack (Z.of_nat vm))
  | VExpire now timeout => vafter (vnet_switch_drop_expired now timeout)
  end.

(** The tick an operation reads, if any. *)
Definition op_tick (o : vnet_op) (last : Z) : Z :=
  match o with VTx _ _ now | VExpire now _ => now | _ => last end.

(** The storage the caller hands to [vnet_switch_init]. *)
Record storage_ok (frames : list vnet_frame) (rings : list (list vnet_rx_desc)) : Prop := {
  st_frames : Forall (λ f, Z.of_nat (length (f_data f)) = WT_VNET_FRAME_MAX) frames;
  st_count : Z.of_nat (length frames) ≤ 0xFFFF;
  st_rings : Z.of_nat (length rings) ≤ 0xFFFFFFFF;
}.

Inductive vreach : Z → vnet_switch → Prop :=
| vreach_init frames fdb rings capacity flood tick sw :
    storage_ok frames rings → vnet_switch_init frames fdb rings capacity flood = inr sw → vreach tick sw
| vreach_step last sw o sw' :
    vreach last sw → tick_ok last (op_tick o last) sw → vexec o sw = Some sw' → vreach (op_tick o last) sw'.

Lemma vafter_fwp {A} (f : func vnet_switch A) (P : vnet_switch → Prop) sw :
  fwp f (λ _, P) sw → ∃ sw', vafter f sw = Some sw' ∧ P sw'.
Proof. intros (sw' & a & Hf & HP)%fwp_run. exists sw'. unfold vafter. by rewrite Hf. Qed.

Lemma vexec_inv o last sw :
  vinv None last sw → tick_ok last (op_tick o last) sw →
  ∃ sw', vexec o sw = Some sw' ∧ vinv None (op_tick o last) sw'.
Proof.
  intros Hi Ht. destruct o; simpl in *; apply vafter_fwp.
  - eapply open_spec; [done..|]. by intros.
  - eapply assign_mac_spec; [done| |by intros]. intros rc sw' Hc _. by rewrite <-Hc.
  - apply tx_spec; [by eapply vinv_later| |].
    + intros rc sw' _ [? _] _. done.
    + intros rc sw' dst d got _ Htm _. apply Htm.
  - eapply poll_spec; [done| |by intros]. intros e sw' Hc _. by rewrite <-Hc.
  - eapply rx_read_spec; [done|by intros..].
  - eapply release_spec; [done| |]; [intros e sw' _ Hc; by rewrite <-Hc|]. intros d f sw' _ _ _ Hr. apply Hr.
  - eapply irq_ack_spec; [done|]. intros rc sw' Hc. by rewrite <-Hc.
  - apply drop_expired_spec; [by eapply vinv_later..|by intros].
Qed.

Lemma init_inv frames fdb rings capacity flood tick sw :
  storage_ok frames rings → vnet_switch_init frames fdb rings capacity flood = inr sw → vinv None tick sw.
Proof.
  intros [Hf Hc Hr]. unfold vnet_switch_init. destruct (_ || _); [done|]. intros [= <-].
  assert (∀ k v, (vnic_reset <$> rings) !! k = Some v → ∃ s, v = vnic_reset s) as Hv.
  { intros k v. rewrite list_lookup_fmap. destruct (rings !! k) as [s|]; [|done]. intros [= <-]. by exists s. }
  assert (∀ i, total (occ i ∘ queue) (vnic_reset <$> rings) = 0%nat) as Hrefs.
  { intros i. apply total_zero. intros v (s & -> & _)%list_elem_of_fmap. done. }
  split; simpl.
  - unfold nvm. simpl. by rewrite length_fmap.
  - by rewrite length_fmap.
  - unfold in_use. rewrite total_zero; [done|]. intros f (g & -> & _)%list_elem_of_fmap. done.
  - intros k v Hk. destruct (Hv k v Hk) as [s ->]. split; [apply ring_init_ok|constructor|by intros ? ? ? ? ? ? ? ?|done].
  - intros i f Hi. rewrite list_lookup_fmap in Hi. destruct (frames !! i) as [g|] eqn:Hg; [|done]. injection Hi as <-.
    split; simpl; [by eapply (Forall_lookup_1 _ _ _ _ Hf)|unfold refs; simpl; by rewrite Hrefs|done|done].
  - unfold vnet_fdb_init. split.
    + intros i j e e' Hi _ Hk. rewrite list_lookup_fmap in Hi. destruct (fdb !! i); [|done]. by injection Hi as <-.
    + intros i e Hi Hk. rewrite list_lookup_fmap in Hi. destruct (fdb !! i); [|done]. by injection Hi as <-.
    + intros k v Hk Hs. by destruct (Hv k v Hk) as [s ->].
Qed.

Lemma vreach_inv tick sw : vreach tick sw → vinv None tick sw.
Proof.
  induction 1 as [|last sw o sw' _ IH Ht He]; [by eapply init_inv|].
  destruct (vexec_inv o last sw IH Ht) as (sw2 & He2 & Hi). congruence.
Qed.

(** ** Accounting *)

(** C31: in every reachable state of the switch, the reference count of a frame
    is the number of queued descriptors that name it, the in-use counter is
    the number of frames with a reference, every queued descriptor names a
    frame in use with its generation, length and sender (never the port
    itself), and the receive interrupt of a port is pending exactly when its
    queue is not empty; and every operation is defined, whatever its
    arguments, as long as no frame in use is older than the 32-bit tick can
    tell. *)
Theorem vnet_accounting tick sw :
  vreach tick sw →
  (∀ i f, pl_slots (sw_pool sw) !! i = Some f → f_refcnt f = Z.of_nat (refs sw i)) ∧
  pl_in_use_count (sw_pool sw) = in_use (pl_slots (sw_pool sw)) ∧
  (∀ k v d, sw_vnics sw !! k = Some v → d ∈ queue v →
     ∃ f, vnet_pool_slot (sw_pool sw) (d_slot d) (d_gen d) = Some f ∧ d_len d = f_len f ∧
       d_src_vm d = f_src_vm f ∧ d_src_vm d ≠ Z.of_nat k) ∧
  (∀ k, vnet_switch_irq_pending sw (Z.of_nat k) = true ↔ ∃ v, sw_vnics sw !! k = Some v ∧ queue v ≠ []) ∧
  (∀ o, tick_ok tick (op_tick o tick) sw → is_Some (vexec o sw)).
Proof.
  intros Hr. apply vreach_inv in Hr as Hi. split_and!.
  - intros i f Hf. rewrite (vinv_refcnt _ _ _ _ _ Hi Hf), held_none. f_equal. lia.
  - apply (vi_in_use _ _ _ Hi).
  - intros k v d Hk Hd. destruct (queued_live _ _ _ _ _ _ Hi Hk Hd) as (f & _ & ? & _ & _ & ? & ? & ?). by exists f.
  - intros k. unfold vnet_switch_irq_pending. rewrite vnic_of_spec. destruct (decide _) as [Hlt|Hge]; simpl.
    + destruct (lookup_lt_is_Some_2 _ _ Hlt) as [v Hv]. rewrite Hv, (port_irq _ _ _ _ (vi_ports _ _ _ Hi k v Hv)).
      rewrite negb_true_iff, bool_decide_eq_false. naive_solver.
    + split; [done|]. intros (v & Hv & _). apply lookup_lt_Some in Hv. lia.
  - intros o Ho. destruct (vexec_inv o tick sw Hi Ho) as (sw' & He & _). by exists sw'.
Qed.

(** ** What a guest reads *)

(** C33: what a guest reads is a frame another guest sent under its own
    address: the bytes of a successful read have the length reported, at least
    an Ethernet header, and carry as source the address assigned to the port
    whose number the metadata gives, which is not the reader and is the only
    port with that address. *)
Theorem vnet_read_authentic tick sw k slot gen n sw' len bytes :
  vreach tick sw → vnet_switch_read_rx (Z.of_nat k) slot gen n sw = Some (sw', (len, bytes)) → 0 ≤ len →
  sw' = sw ∧ WT_VNET_FRAME_MIN ≤ len ≤ n ∧ Z.of_nat (length bytes) = len ∧
  ∃ d f src v, head_frame sw k d f ∧ d_slot d = slot ∧ d_gen d = gen ∧ d_len d = len ∧ d_src_vm d = Z.of_nat src ∧
    src ≠ k ∧ sw_vnics sw !! src = Some v ∧ v_mac_set v = true ∧ mac_at bytes VNET_MAC_LEN = Some (v_mac v) ∧
    ∀ k' v', sw_vnics sw !! k' = Some v' → v_mac_set v' = true → v_mac v' = v_mac v → k' = src.
Proof.
  intros Hr Hread Hpos. apply vreach_inv in Hr as Hi.
  eapply (fwp_elim _ (λ r s, 0 ≤ r.1 → s = sw ∧ WT_VNET_FRAME_MIN ≤ r.1 ≤ n ∧ Z.of_nat (length r.2) = r.1 ∧
    ∃ d f src v, head_frame sw k d f ∧ d_slot d = slot ∧ d_gen d = gen ∧ d_len d = r.1 ∧ d_src_vm d = Z.of_nat src ∧
    src ≠ k ∧ sw_vnics sw !! src = Some v ∧ v_mac_set v = true ∧ mac_at r.2 VNET_MAC_LEN = Some (v_mac v) ∧
    ∀ k' v', sw_vnics sw !! k' = Some v' → v_mac_set v' = true → v_mac v' = v_mac v → k' = src) _ _ (len, bytes)); [|done|done].
  eapply rx_read_spec; [done|intros e He; simpl; lia|].
  intros d f b Hh Hs Hg Hu Hn Hb Hl Hsrc Hne _. pose proof Hh as (w & l & Hw & Hq & Hf).
  destruct (vi_frames _ _ _ Hi _ _ Hf) as [_ _ _ Ha]. destruct (Ha Hu) as (Hlen & Hp & v & Hv & Hset & Hmac).
  apply buf_read_length in Hb as Hbl. simpl. split_and!; [done|lia|lia|lia|].
  exists d, f, (Z.to_nat (f_src_vm f)), v. split_and!; try done; [lia|lia| |].
  - rewrite <-Hmac. unfold buf_read in Hb. destruct (_ && _); [|done]. injection Hb as <-. rewrite drop_0.
    apply mac_at_take. unfold WT_VNET_FRAME_MIN, VNET_MAC_LEN in *. lia.
  - intros k' v' Hk' Hs' Hm. destruct (vi_fdb _ _ _ Hi) as [Hd _ Hport].
    destruct (Hport _ _ Hk' Hs') as [_ [i Hi1]]. destruct (Hport _ _ Hv Hset) as [_ [j Hj1]].
    assert (i = j) as <- by (eapply Hd; [exact Hi1|exact Hj1|done..]). rewrite Hi1 in Hj1. injection Hj1 as ?. lia.
Qed.

(** ** Delivery *)

Lemma lookup_port x tick sw k v :
  vinv x tick sw → sw_vnics sw !! k = Some v → v_mac_set v = true →
  vnet_fdb_lookup (sw_fdb sw) (v_mac v) = Z.of_nat k ∧ vnet_mac_is_multicast (v_mac v) = false.
Proof.
  intros Hi Hk Hs. destruct (own_mac_unicast _ _ _ _ _ Hi Hk Hs) as [Hz Hm]. split; [|done].
  destruct (vi_fdb _ _ _ Hi) as [Hd He Hp]. destruct (Hp k v Hk Hs) as [_ [i Hi1]].
  unfold vnet_fdb_lookup. rewrite Hm, Hz. simpl.
  destruct (fdb_find_mac (sw_fdb sw) (v_mac v)) as [[j e]|] eqn:Hf.
  - destruct (fdb_mac_assigned _ _ _ _ _ (vi_fdb _ _ _ Hi) Hf) as (Hj & Hmac & Hkind).
    assert (j = i) as -> by (eapply Hd; [exact Hj|exact Hi1|congruence|done|done]). by simplify_eq.
  - pose proof (find_elem_None _ _ _ _ Hf Hi1) as Hn. unfold is_kind in Hn. simpl in Hn.
    rewrite (proj2 (mac_equals_iff _ _)) in Hn; done.
Qed.

Lemma unicast_destination x tick sw k kd v :
  vinv x tick sw → sw_vnics sw !! kd = Some v → v_mac_set v = true → kd ≠ k →
  destinations sw (Z.of_nat k) (v_mac v) = [kd].
Proof.
  intros Hi Hk Hs Hne. destruct (lookup_port _ _ _ _ _ Hi Hk Hs) as [Hl Hm]. unfold destinations. rewrite Hm, Hl.
  pose proof (lookup_lt_Some _ _ _ Hk) as Hlt. pose proof (vi_nvm _ _ _ Hi) as Hn. unfold nvm in Hn.
  rewrite (proj2 (Z.eqb_neq (Z.of_nat kd) VNET_FDB_NO_VM)) by (unfold VNET_FDB_NO_VM; lia).
  rewrite (proj2 (Z.eqb_neq (Z.of_nat kd) (Z.of_nat k))) by lia. by rewrite vnic_of_spec, decide_True.
Qed.

(** C32: in a reachable state, a frame of a legal size that an open port sends
    under its own address to the assigned address of another open port, with a
    free slot in the pool, room in the destination's ring and fewer than 65535
    ports, before a frame in use gets older than the 32-bit tick can tell
    ([tick_ok]), is accepted; its descriptor is appended to the destination's
    queue and to no other, the slot holds the frame byte for byte, frames
    already queued stay as they were, and if the queue was empty the
    destination reads exactly the bytes that were sent. *)
Theorem vnet_unicast_delivered last now sw k frame kd vd :
  vreach last sw → tick_ok last now sw → sendable sw k frame (v_mac vd) →
  sw_vnics sw !! kd = Some vd → kd ≠ k → v_open vd = true → v_mac_set vd = true → room vd →
  ~ pool_full sw → nvm sw < 0xFFFF →
  ∃ sw' d, vnet_switch_tx (Z.of_nat k) frame now sw = Some (sw', WT_VNET_OK) ∧
    (∀ j, ports sw' j = add_desc (bool_decide (j = kd)) d <$> ports sw j) ∧
    (∃ f, pl_slots (sw_pool sw') !! d_slot d = Some f ∧ holds_frame f (Z.of_nat k) frame) ∧
    (∀ i f, pl_slots (sw_pool sw) !! i = Some f → used f = true → pl_slots (sw_pool sw') !! i = Some f) ∧
    (queue vd = [] → ∀ n, Z.of_nat (length frame) ≤ n →
       vnet_switch_read_rx (Z.of_nat kd) (d_slot d) (d_gen d) n sw' = Some (sw', (Z.of_nat (length frame), frame))).
Proof.
  intros Hr Ht Hsend Hkd Hne Hopen Hset Hroom Hfree Hn. apply vreach_inv in Hr as Hi0.
  pose proof (vinv_later _ _ _ _ Hi0 Ht) as Hi. assert (fwp (vnet_switch_tx (Z.of_nat k) frame now) (λ rc sw',
    rc = WT_VNET_OK ∧ ∃ d, transmitted now (Z.of_nat k) frame (v_mac vd) sw sw' d (λ j, bool_decide (j = kd))) sw) as Hwp.
  { apply tx_spec; [done| |].
    - intros rc sw' _ _ Hfull. destruct Hfree. by eapply Hfull.
    - intros rc sw' dst d got (v0 & Hv0 & _ & _ & _ & Hd & _) Htm Hrc. destruct Hsend as (v1 & _ & _ & _ & _ & Hd1 & _).
      assert (dst = v_mac vd) as -> by congruence.
      assert (destinations sw (Z.of_nat k) (v_mac vd) = [kd]) as Hdst by (by eapply unicast_destination).
      assert (∀ j, got j = bool_decide (j = kd)) as Hgot.
      { intros j. destruct (bool_decide_reflect (j = kd)) as [->|Hj].
        - eapply (tm_reach _ _ _ _ _ _ _ _ Htm); try done. rewrite Hdst. set_solver.
        - apply not_true_iff_false. intros Hg. apply (tm_got _ _ _ _ _ _ _ _ Htm) in Hg. rewrite Hdst in Hg. set_solver. }
      split; [apply Hrc; exists kd; rewrite Hgot; by rewrite bool_decide_true|]. exists d. destruct Htm as [? ? Hp Hg Hre ? ?].
      split; try done.
      + intros j. by rewrite Hp, Hgot.
      + intros j. rewrite <-Hgot. apply Hg.
      + intros j w. rewrite <-Hgot. apply Hre. }
  apply fwp_run in Hwp as (sw' & rc & Htx & -> & d & Htm). destruct Htm as [Hi' _ Hp _ _ (f & Hf & Hg & Hh) Hoth].
  exists sw', d. split_and!; [done|done|by exists f|done|]. intros Hq n Hle.
  assert (∃ v', sw_vnics sw' !! kd = Some v' ∧ queue v' = [d] ∧ v_open v' = true) as (v' & Hv' & Hq' & Ho').
  { pose proof (Hp kd) as E. rewrite bool_decide_true in E by done. unfold ports in E. rewrite Hkd in E. simpl in E.
    destruct (sw_vnics sw' !! kd) as [v'|]; [|done]. injection E as E1 E2 E3. rewrite Hq in E3.
    exists v'. split_and!; [done|done|congruence]. }
  destruct Hh as (Hh1 & Hh2 & Hh3).
  assert (fwp (vnet_switch_read_rx (Z.of_nat kd) (d_slot d) (d_gen d) n)
    (λ r s, s = sw' ∧ r = (Z.of_nat (length frame), frame)) sw') as Hrd.
  { rx_open ltac:(first [congruence|apply lookup_lt_Some in Hv'; done]). assert (v = v') as -> by congruence.
    pose proof (ring_peek_spec _ (port_ring _ _ _ _ (vi_ports _ _ _ Hi' kd v' Hv'))) as Hpeek.
    unfold queue in Hq'. rewrite Hq' in Hpeek. apply wp_bind. eapply wp_defined; [done|]. cbv beta iota.
    rewrite Nat.eqb_refl, Z.eqb_refl. simpl.
    destruct (queued_live _ _ _ _ _ d Hi' Hv') as (f' & Hf' & -> & _); [unfold queue; rewrite Hq'; set_solver|].
    assert (f' = f) as -> by congruence. rewrite (proj2 (Z.ltb_ge _ _)) by lia.
    apply wp_bind. eapply wp_defined; [done|]. apply wp_ret. by rewrite Hh2. }
  apply fwp_run in Hrd as (s & r & Hrun & -> & ->). done.
Qed.

(** ** Rings *)

(** a descriptor ring implements a bounded queue: pushing appends exactly
    when there is room and otherwise changes nothing and reports an error,
    popping takes the oldest descriptor, peeking shows it without taking it,
    and no access leaves the buffer. *)
Theorem ring_refines_queue r d :
  ring_ok r →
  (∃ r' rc, vnet_ring_push r d = Some (r', rc) ∧ ring_ok r' ∧
     if decide (length (ring_items r) < r_capacity r)%nat
     then rc = WT_VNET_OK ∧ ring_items r' = ring_items r ++ [d] else rc ≠ WT_VNET_OK ∧ r' = r) ∧
  (∃ r' res, vnet_ring_pop r = Some (r', res) ∧ ring_ok r' ∧
     match res with
     | inr h => ring_items r = h :: ring_items r' ∧ vnet_ring_peek r = Some (inr h)
     | inl _ => ring_items r = [] ∧ r' = r
     end) ∧
  vnet_ring_empty r = bool_decide (ring_items r = []) ∧
  vnet_ring_full r = bool_decide (r_capacity r ≤ length (ring_items r))%nat.
Proof.
  intros Hok. split_and!.
  - pose proof (ring_push_spec r d Hok) as H. destruct (decide _).
    + destruct H as (r' & ? & ? & ? & _). eexists _, _. split_and!; done.
    + destruct H as (e & ? & ?). eexists _, _. split_and!; done.
  - pose proof (ring_peek_spec r Hok) as Hp. unfold vnet_ring_pop. pose proof (ring_length r Hok) as Hl.
    destruct (Nat.eqb_spec (r_count r) 0) as [Hz|Hz].
    + assert (ring_items r = []) as E by (apply nil_length_inv; lia).
      destruct (r_capacity r =? 0)%nat; eexists _, _; done.
    + destruct Hok as [Hc Ht Hh]. rewrite (proj2 (Nat.eqb_neq _ _)) by lia.
      destruct (ring_shift r) as (h & -> & Hok' & E & _); [by split|lia|]. simpl. rewrite E in Hp.
      eexists _, _. split_and!; done.
  - by apply ring_empty_spec.
  - unfold vnet_ring_full. rewrite ring_length by done. apply eq_true_iff_eq.
    by rewrite Nat.leb_le, bool_decide_eq_true.
Qed.

(** ** A concrete network

    Two ports, two frames; port 0 sends a frame to port 1. *)
Module VnetExample.

Definition blank : vnet_frame :=
  {| f_len := 0; f_gen := 0; f_refcnt := 0; f_flags := 0; f_src_vm := 0; f_dst_mask := 0; f_born_tick := 0;
     f_data := zeros 1536 |}.
Definition frames : list vnet_frame := [blank; blank].
Definition no_desc : vnet_rx_desc := {| d_slot := 0; d_gen := 0; d_len := 0; d_flags := 0; d_src_vm := 0 |}.
Definition rings : list (list vnet_rx_desc) := [[no_desc; no_desc]; [no_desc; no_desc]].
Definition no_entry : vnet_fdb_entry := {| e_mac := mac_zero; e_guest_id := 0; e_kind := VNET_FDB_EMPTY |}.
Definition mac (n : Z) : vnet_mac := {| b0 := 2; b1 := 0; b2 := 0; b3 := 0; b4 := 0; b5 := n |}.
Definition empty : vnet_switch :=
  {| sw_vnics := []; sw_pool := {| pl_slots := []; pl_in_use_count := 0 |}; sw_fdb := [];
     sw_unknown_unicast_flood := false; sw_global_stats := stats_zero |}.
Definition started : vnet_switch :=
  match vnet_switch_init frames [no_entry; no_entry] rings 2 false with inr sw => sw | inl _ => empty end.
Definition run (ops : list vnet_op) (sw : vnet_switch) : vnet_switch :=
  foldl (λ sw o, default sw (vexec o sw)) sw ops.
Definition opened0 : vnet_switch := run [VOpen 0 true] started.
Definition opened1 : vnet_switch := run [VOpen 1 true] opened0.
Definition named0 : vnet_switch := run [VAssign 0 (mac 1)] opened1.
Definition joined : vnet_switch := run [VAssign 1 (mac 2)] named0.
(** Destination, source, type and one byte. *)
Definition hello : list Z := [2;0;0;0;0;2; 2;0;0;0;0;1; 8;0; 42].
Definition sent : vnet_switch := run [VTx 0 hello 5] joined.

Lemma storage : storage_ok frames rings.
Proof. split; [repeat constructor|done|done]. Qed.
Lemma started_init : vnet_switch_init frames [no_entry; no_entry] rings 2 false = inr started.
Proof. reflexivity. Qed.
Lemma opened0_step : vexec (VOpen 0 true) started = Some opened0.
Proof. vm_compute. reflexivity. Qed.
Lemma opened1_step : vexec (VOpen 1 true) opened0 = Some opened1.
Proof. vm_compute. reflexivity. Qed.
Lemma named0_step : vexec (VAssign 0 (mac 1)) opened1 = Some named0.
Proof. vm_compute. reflexivity. Qed.
Lemma joined_step : vexec (VAssign 1 (mac 2)) named0 = Some joined.
Proof. vm_compute. reflexivity. Qed.
Lemma sent_step : vexec (VTx 0 hello 5) joined = Some sent.
Proof. vm_compute. reflexivity. Qed.
Lemma joined_unused : pl_slots (sw_pool joined) = frames.
Proof. vm_compute. reflexivity. Qed.

Lemma tick_same sw : tick_ok 0 0 sw.
Proof. intros i f _ _. unfold age. rewrite Z.sub_diag. change (u32 0) with 0. pose proof (u32_range (0 - f_born_tick f)). lia. Qed.

Lemma joined_reachable : vreach 0 joined.
Proof.
  eapply (vreach_step 0 named0 (VAssign 1 (mac 2))); [|apply tick_same|apply joined_step].
  eapply (vreach_step 0 opened1 (VAssign 0 (mac 1))); [|apply tick_same|apply named0_step].
  eapply (vreach_step 0 opened0 (VOpen 1 true)); [|apply tick_same|apply opened1_step].
  eapply (vreach_step 0 started (VOpen 0 true)); [|apply tick_same|apply opened0_step].
  eapply vreach_init; [apply storage|apply started_init].
Qed.

Lemma joined_tick : tick_ok 0 5 joined.
Proof.
  intros i f Hf Hu. rewrite joined_unused in Hf.
  destruct i as [|[|i]]; simpl in Hf; [injection Hf as <-; discriminate..|done].
Qed.
Lemma sent_reachable : vreach 5 sent.
Proof. eapply (vreach_step 0 joined (VTx 0 hello 5)); [apply joined_reachable|apply joined_tick|apply sent_step]. Qed.

Definition port1 : vnet_vnic := default (vnic_reset []) (sw_vnics joined !! 1%nat).
Lemma joined_port1 : sw_vnics joined !! 1%nat = Some port1.
Proof. reflexivity. Qed.
Lemma joined_sendable : sendable joined 0 hello (v_mac port1).
Proof. eexists. split_and!; [reflexivity|done..]. Qed.
Lemma joined_free : ¬ pool_full joined.
Proof. intros H. specialize (H 0%nat blank). rewrite joined_unused in H. by specialize (H eq_refl). Qed.
Lemma joined_room : room port1.
Proof. vm_compute. lia. Qed.
Lemma sent_read : vnet_switch_read_rx 1 0 1 1536 sent = Some (sent, (15, hello)).
Proof. vm_compute. reflexivity. Qed.

(** The accounting of the network after the frame was sent. *)
Lemma vnet_accounting_witness :
  (∀ i f, pl_slots (sw_pool sent) !! i = Some f → f_refcnt f = Z.of_nat (refs sent i)) ∧
  pl_in_use_count (sw_pool sent) = in_use (pl_slots (sw_pool sent)) ∧
  (∀ k v d, sw_vnics sent !! k = Some v → d ∈ queue v →
     ∃ f, vnet_pool_slot (sw_pool sent) (d_slot d) (d_gen d) = Some f ∧ d_len d = f_len f ∧
       d_src_vm d = f_src_vm f ∧ d_src_vm d ≠ Z.of_nat k) ∧
  (∀ k, vnet_switch_irq_pending sent (Z.of_nat k) = true ↔ ∃ v, sw_vnics sent !! k = Some v ∧ queue v ≠ []) ∧
  (∀ o, tick_ok 5 (op_tick o 5) sent → is_Some (vexec o sent)).
Proof. exact (vnet_accounting 5 sent sent_reachable). Defined.

(** Port 1 reads the frame of port 0. *)
Lemma vnet_read_authentic_witness :
  sent = sent ∧ WT_VNET_FRAME_MIN ≤ 15 ≤ 1536 ∧ Z.of_nat (length hello) = 15 ∧
  ∃ d f src v, head_frame sent 1 d f ∧ d_slot d = 0%nat ∧ d_gen d = 1 ∧ d_len d = 15 ∧ d_src_vm d = Z.of_nat src ∧
    src ≠ 1%nat ∧ sw_vnics sent !! src = Some v ∧ v_mac_set v = true ∧ mac_at hello VNET_MAC_LEN = Some (v_mac v) ∧
    ∀ k' v', sw_vnics sent !! k' = Some v' → v_mac_set v' = true → v_mac v' = v_mac v → k' = src.
Proof. exact (vnet_read_authentic 5 sent 1 0 1 1536 sent 15 hello sent_reachable sent_read ltac:(lia)). Defined.

(** The transmission that made it so. *)
Lemma vnet_unicast_delivered_witness :
  ∃ sw' d, vnet_switch_tx (Z.of_nat 0) hello 5 joined = Some (sw', WT_VNET_OK) ∧
    (∀ j, ports sw' j = add_desc (bool_decide (j = 1%nat)) d <$> ports joined j) ∧
    (∃ f, pl_slots (sw_pool sw') !! d_slot d = Some f ∧ holds_frame f (Z.of_nat 0) hello) ∧
    (∀ i f, pl_slots (sw_pool joined) !! i = Some f → used f = true → pl_slots (sw_pool sw') !! i = Some f) ∧
    (queue port1 = [] → ∀ n, Z.of_nat (length hello) ≤ n →
       vnet_switch_read_rx (Z.of_nat 1) (d_slot d) (d_gen d) n sw' = Some (sw', (Z.of_nat (length hello), hello))).
Proof.
  exact (vnet_unicast_delivered 0 5 joined 0 hello 1 port1 joined_reachable joined_tick joined_sendable joined_port1
    ltac:(lia) eq_refl eq_refl joined_room joined_free ltac:(done)).
Defined.

(** A ring with one of two places taken. *)
Definition small : vnet_ring := {| r_buf := [no_desc; no_desc]; r_head := 0; r_tail := 1; r_count := 1 |}.
Lemma small_ok : ring_ok small.
Proof. split; unfold r_capacity; simpl; intros; [lia|lia|done]. Qed.
Lemma ring_refines_queue_witness :
  (∃ r' rc, vnet_ring_push small no_desc = Some (r', rc) ∧ ring_ok r' ∧
     if decide (length (ring_items small) < r_capacity small)%nat
     then rc = WT_VNET_OK ∧ ring_items r' = ring_items small ++ [no_desc] else rc ≠ WT_VNET_OK ∧ r' = small) ∧
  (∃ r' res, vnet_ring_pop small = Some (r', res) ∧ ring_ok r' ∧
     match res with
     | inr h => ring_items small = h :: ring_items r' ∧ vnet_ring_peek small = Some (inr h)
     | inl _ => ring_items small = [] ∧ r' = small
     end) ∧
  vnet_ring_empty small = bool_decide (ring_items small = []) ∧
  vnet_ring_full small = bool_decide (r_capacity small ≤ length (ring_items small))%nat.
Proof. exact (ring_refines_queue small no_desc small_ok). Defined.
End VnetExample.
