(* ===== verification/Coroutine.v ===== *)
(** * Coroutine scheduler: [src/sched/coroutine.c]

    The coroutine table, the run queue threaded through [next_run], and every
    operation of the public API. A non-null [struct wt_co *] is a [co_ref]:
    the bootstrap context or a table slot, with a slot index outside the table
    for any other address, so that [is_valid_co_pointer] keeps its meaning;
    [NULL] is [None]. [wt_platform_panic] does not return on a target: it is
    the flag [sc_panicked], and the code after a call is translated as it is
    written. The state also holds the mutexes ([src/sync/mutex.c]), whose wait
    queues are threaded through the coroutines' [next_wait]. *)

From Stdlib Require Import ZArith Lia.
From stdpp Require Import base list numbers option sets.
From S2P Require Import Prelude Buffers CState Frame.

(** ** Data: [coroutine.h], [coroutine_internal.h], [mutex.h] *)

Definition WT_CO_MAX : nat := 12.
Definition WT_CO_STACK_CANARY : Z := 0xC0C0DEAD.
Definition WT_CO_STACK_SIZE : Z := 10 * 1024.
Definition WT_CO_STACK_MIN : Z := 1024.

Inductive wt_co_state_t := WT_CO_RUNNABLE | WT_CO_RUNNING | WT_CO_BLOCKED | WT_CO_FAULTED.
#[export] Instance wt_co_state_eq_dec : EqDecision wt_co_state_t.
Proof. solve_decision. Defined.

Inductive co_ref := CoBootstrap | CoSlot (i : nat).
#[export] Instance co_ref_eq_dec : EqDecision co_ref.
Proof. solve_decision. Defined.
#[export] Instance CoSlot_inj : Inj (=) (=) CoSlot.
Proof. by intros ?? [= ->]. Qed.

(** Addresses (the stack, the entry function, its argument and the protection
    domain) are numbers, null is zero. *)
Record wt_co := {
  co_sp : Z;
  co_stack_base : Z;
  co_stack_size : Z;
  co_entry : Z;
  co_arg : Z;
  co_state : wt_co_state_t;
  co_id : Z;
  co_next_run : option co_ref;
  co_next_wait : option co_ref;
  co_domain : Z;
  co_unprivileged : Z;
  co_wake_pending : bool;
  co_exc_return : Z;
}.
#[export] Instance co_eta : Settable wt_co := λ c,
  {| co_sp := co_sp c; co_stack_base := co_stack_base c; co_stack_size := co_stack_size c;
     co_entry := co_entry c; co_arg := co_arg c; co_state := co_state c; co_id := co_id c;
     co_next_run := co_next_run c; co_next_wait := co_next_wait c; co_domain := co_domain c;
     co_unprivileged := co_unprivileged c; co_wake_pending := co_wake_pending c;
     co_exc_return := co_exc_return c |}.
#[export] Instance set_co_sp : Setter co_sp. Proof. derive_setter. Defined.
#[export] Instance set_co_stack_base : Setter co_stack_base. Proof. derive_setter. Defined.
#[export] Instance set_co_stack_size : Setter co_stack_size. Proof. derive_setter. Defined.
#[export] Instance set_co_entry : Setter co_entry. Proof. derive_setter. Defined.
#[export] Instance set_co_arg : Setter co_arg. Proof. derive_setter. Defined.
#[export] Instance set_co_state : Setter co_state. Proof. derive_setter. Defined.
#[export] Instance set_co_id : Setter co_id. Proof. derive_setter. Defined.
#[export] Instance set_co_next_run : Setter co_next_run. Proof. derive_setter. Defined.
#[export] Instance set_co_next_wait : Setter co_next_wait. Proof. derive_setter. Defined.
#[export] Instance set_co_domain : Setter co_domain. Proof. derive_setter. Defined.
#[export] Instance set_co_unprivileged : Setter co_unprivileged. Proof. derive_setter. Defined.
#[export] Instance set_co_wake_pending : Setter co_wake_pending. Proof. derive_setter. Defined.
#[export] Instance set_co_exc_return : Setter co_exc_return. Proof. derive_setter. Defined.

Record wt_mutex := {
  mx_holder : option co_ref;
  mx_wait_head : option co_ref;
  mx_wait_tail : option co_ref;
  mx_acquire_count : Z;
  mx_contend_count : Z;
}.
#[export] Instance mutex_eta : Settable wt_mutex := λ m,
  {| mx_holder := mx_holder m; mx_wait_head := mx_wait_head m; mx_wait_tail := mx_wait_tail m;
     mx_acquire_count := mx_acquire_count m; mx_contend_count := mx_contend_count m |}.
#[export] Instance set_mx_holder : Setter mx_holder. Proof. derive_setter. Defined.
#[export] Instance set_mx_wait_head : Setter mx_wait_head. Proof. derive_setter. Defined.
#[export] Instance set_mx_wait_tail : Setter mx_wait_tail. Proof. derive_setter. Defined.
#[export] Instance set_mx_acquire_count : Setter mx_acquire_count. Proof. derive_setter. Defined.
#[export] Instance set_mx_contend_count : Setter mx_contend_count. Proof. derive_setter. Defined.

(** The file's static variables, the memory the stacks live in, and the
    mutexes. *)
Record sched := {
  g_co_table : list wt_co;
  g_wt_co_bootstrap : wt_co;
  g_wt_co_current : option co_ref;
  g_wt_co_pendsv_target : option co_ref;
  g_runqueue_head : option co_ref;
  g_runqueue_tail : option co_ref;
  g_co_count : nat;
  sc_memory : Z → Z;
  sc_mutexes : list wt_mutex;
  sc_panicked : bool;
}.
#[export] Instance sched_eta : Settable sched := λ s,
  {| g_co_table := g_co_table s; g_wt_co_bootstrap := g_wt_co_bootstrap s;
     g_wt_co_current := g_wt_co_current s; g_wt_co_pendsv_target := g_wt_co_pendsv_target s;
     g_runqueue_head := g_runqueue_head s; g_runqueue_tail := g_runqueue_tail s;
     g_co_count := g_co_count s; sc_memory := sc_memory s; sc_mutexes := sc_mutexes s;
     sc_panicked := sc_panicked s |}.
#[export] Instance set_g_co_table : Setter g_co_table. Proof. derive_setter. Defined.
#[export] Instance set_g_wt_co_bootstrap : Setter g_wt_co_bootstrap. Proof. derive_setter. Defined.
#[export] Instance set_g_wt_co_current : Setter g_wt_co_current. Proof. derive_setter. Defined.
#[export] Instance set_g_wt_co_pendsv_target : Setter g_wt_co_pendsv_target. Proof. derive_setter. Defined.
#[export] Instance set_g_runqueue_head : Setter g_runqueue_head. Proof. derive_setter. Defined.
#[export] Instance set_g_runqueue_tail : Setter g_runqueue_tail. Proof. derive_setter. Defined.
#[export] Instance set_g_co_count : Setter g_co_count. Proof. derive_setter. Defined.
#[export] Instance set_sc_memory : Setter sc_memory. Proof. derive_setter. Defined.
#[export] Instance set_sc_mutexes : Setter sc_mutexes. Proof. derive_setter. Defined.
#[export] Instance set_sc_panicked : Setter sc_panicked. Proof. derive_setter. Defined.

(** ** Access *)

Definition co_at (p : co_ref) (s : sched) : option wt_co :=
  match p with CoBootstrap => Some (g_wt_co_bootstrap s) | CoSlot i => g_co_table s !! i end.
Definition co_put (p : co_ref) (c : wt_co) (s : sched) : sched :=
  match p with
  | CoBootstrap => s <| g_wt_co_bootstrap := c |>
  | CoSlot i => s <| g_co_table := <[i := c]> (g_co_table s) |>
  end.

Section access.
Context {R : Type}.
(** [*co] *)
Definition get_co (p : co_ref) : prog sched R wt_co := s ← gets id; defined (co_at p s).
(** [co->field = v;] *)
Definition mod_co (p : co_ref) (f : wt_co → wt_co) : prog sched R unit :=
  c ← get_co p; modify (co_put p (f c)).
Definition panic : prog sched R unit := modify (λ s, s <| sc_panicked := true |>).
(** A loop that did not end within its bound. *)
Definition out_of_fuel {A} : prog sched R A := λ _, None.
End access.

(** ** Run queue *)

Definition is_valid_co_pointer (p : co_ref) : bool :=
  bool_decide (p = CoBootstrap) || existsb (λ i, bool_decide (p = CoSlot i)) (seq 0 WT_CO_MAX).

Definition runqueue_enqueue (p : co_ref) : func sched unit := fn (
  when (negb (is_valid_co_pointer p) || bool_decide (p = CoBootstrap)) (panic;; early tt);;
  mod_co p (λ c, c <| co_next_run := None |>);;
  tail ← gets g_runqueue_tail;
  match tail with
  | Some t =>
    when (negb (is_valid_co_pointer t)) (panic;; early tt);;
    mod_co t (λ c, c <| co_next_run := Some p |>)
  | None => modify (λ s, s <| g_runqueue_head := Some p |>)
  end;;
  modify (λ s, s <| g_runqueue_tail := Some p |>)).

Definition runqueue_dequeue : func sched (option co_ref) := fn (
  head ← gets g_runqueue_head;
  match head with
  | None => mret None
  | Some p =>
    when (negb (is_valid_co_pointer p))
      (modify (λ s, s <| g_runqueue_head := None |> <| g_runqueue_tail := None |>);; early None);;
    c ← get_co p;
    modify (λ s, s <| g_runqueue_head := co_next_run c |>);;
    match co_next_run c with
    | Some q => when (negb (is_valid_co_pointer q)) (modify (λ s, s <| g_runqueue_head := None |>))
    | None => mret tt
    end;;
    head' ← gets g_runqueue_head;
    when (bool_decide (head' = None)) (modify (λ s, s <| g_runqueue_tail := None |>));;
    mod_co p (λ c, c <| co_next_run := None |>);;
    mret (Some p)
  end).

Definition check_canary (p : option co_ref) : func sched unit := fn (
  match p with
  | None => mret tt
  | Some p =>
  c ← get_co p;
  when (co_stack_base c =? 0) (early tt);;
  mem ← gets sc_memory;
  when (negb (load32 mem (co_stack_base c) =? WT_CO_STACK_CANARY)) panic
  end).

(** [while (tail->next_run != 0) tail = tail->next_run;] *)
Fixpoint find_tail {R} (fuel : nat) (p : co_ref) : prog sched R co_ref :=
  match fuel with
  | O => out_of_fuel
  | S fuel' =>
    c ← get_co p;
    match co_next_run c with None => mret p | Some q => find_tail fuel' q end
  end.

(** [*link] and [*link = v], where [link] is [&g_runqueue_head] ([None]) or
    the address of a coroutine's [next_run]. *)
Definition read_link {R} (link : option co_ref) : prog sched R (option co_ref) :=
  match link with None => gets g_runqueue_head | Some p => c ← get_co p; mret (co_next_run c) end.
Definition write_link {R} (link v : option co_ref) : prog sched R unit :=
  match link with
  | None => modify (λ s, s <| g_runqueue_head := v |>)
  | Some p => mod_co p (λ c, c <| co_next_run := v |>)
  end.

Fixpoint unlink_walk {R} (fuel : nat) (link : option co_ref) (p : co_ref) : prog sched R unit :=
  match fuel with
  | O => out_of_fuel
  | S fuel' =>
    node ← read_link link;
    match node with
    | None => mret tt
    | Some n =>
      if decide (n = p) then
        c ← get_co n;
        write_link link (co_next_run c);;
        tail ← gets g_runqueue_tail;
        when (bool_decide (tail = Some n))
          (head ← gets g_runqueue_head;
           match head with
           | None => modify (λ s, s <| g_runqueue_tail := None |>)
           | Some h => t ← find_tail (S WT_CO_MAX) h; modify (λ s, s <| g_runqueue_tail := Some t |>)
           end);;
        mod_co n (λ c, c <| co_next_run := None |>)
      else unlink_walk fuel' (Some n) p
    end
  end.

Definition runqueue_unlink (p : option co_ref) : func sched unit := fn (
  match p with
  | None => mret tt
  | Some p => unlink_walk (S WT_CO_MAX) None p
  end).

(** ** Start-up *)

(** [wt_co_init] leaves [wake_pending] alone. *)
Definition co_reset (c : wt_co) : wt_co :=
  {| co_sp := 0; co_stack_base := 0; co_stack_size := 0; co_entry := 0; co_arg := 0; co_state := WT_CO_BLOCKED;
     co_id := 0; co_next_run := None; co_next_wait := None; co_domain := 0; co_unprivileged := 0;
     co_wake_pending := co_wake_pending c; co_exc_return := 0 |}.

Definition wt_co_init : func sched unit := fn (
  modify (λ s, s <| g_co_table := co_reset <$> g_co_table s |>);;
  modify (λ s, s <| g_wt_co_bootstrap := (co_reset (g_wt_co_bootstrap s)) <| co_state := WT_CO_RUNNING |> |>);;
  modify (λ s, s <| g_wt_co_current := Some CoBootstrap |>);;
  modify (λ s, s <| g_runqueue_head := None |> <| g_runqueue_tail := None |> <| g_co_count := 1%nat |>)).

(** ** The architecture port

    The hooks of [coroutine_internal.h] and the platform's stack check. They
    are implemented by exception handlers written in assembly; the scheduler
    sees them through this interface. *)
Class CoArch := {
  wt_co_arch_init_stack : co_ref → Z → Z → func sched unit;
  wt_co_arch_enter : co_ref → func sched unit;
  wt_co_arch_leave : func sched unit;
  wt_co_arch_request_preempt : func sched unit;
  wt_platform_priv_stack_ok : Z → Z → bool;
}.

Section api.
Context `{CoArch}.

Definition do_switch (to : option co_ref) : func sched unit := fn (
  let to := match to with
            | Some p => if is_valid_co_pointer p then p else CoBootstrap
            | None => CoBootstrap
            end in
  cur ← gets g_wt_co_current;
  call (check_canary cur);;
  call (check_canary (Some to));;
  modify (λ s, s <| g_wt_co_current := Some to |>);;
  mod_co to (λ c, c <| co_state := WT_CO_RUNNING |>);;
  call (wt_co_arch_enter to);;
  call (check_canary (Some to))).

Definition wt_co_create_common (stack stack_size entry arg : Z) (initial_state : wt_co_state_t) (min_stack : Z)
    (require_priv_stack : bool) : func sched (option co_ref) := fn (
  when (entry =? 0) (early None);;
  when (stack =? 0) (early None);;
  when ((stack_size <? min_stack) || (stack_size <? WT_CO_STACK_MIN)) (early None);;
  when (has_any stack 7) (early None);;
  count ← gets g_co_count;
  when (WT_CO_MAX <=? count)%nat (early None);;
  when (require_priv_stack && negb (wt_platform_priv_stack_ok stack stack_size)) (early None);;
  let id := count in
  modify (λ s, s <| g_co_count := S count |>);;
  let co := CoSlot (id - 1) in
  mod_co co (λ c, c <| co_id := Z.of_nat id |> <| co_stack_base := stack |> <| co_stack_size := stack_size |>
                    <| co_entry := entry |> <| co_arg := arg |> <| co_state := initial_state |>
                    <| co_next_run := None |> <| co_next_wait := None |> <| co_domain := 0 |>
                    <| co_unprivileged := 0 |>);;
  modify (λ s, s <| sc_memory := store32 (sc_memory s) stack WT_CO_STACK_CANARY |>);;
  call (wt_co_arch_init_stack co entry arg);;
  when (bool_decide (initial_state = WT_CO_RUNNABLE)) (call (runqueue_enqueue co));;
  mret (Some co)).

Definition wt_co_create (stack stack_size entry arg : Z) : func sched (option co_ref) :=
  wt_co_create_common stack stack_size entry arg WT_CO_RUNNABLE WT_CO_STACK_SIZE true.
Definition wt_co_create_blocked (stack stack_size entry arg : Z) : func sched (option co_ref) :=
  wt_co_create_common stack stack_size entry arg WT_CO_BLOCKED WT_CO_STACK_SIZE true.
Definition wt_co_create_blocked_ex (stack stack_size entry arg : Z) : func sched (option co_ref) :=
  wt_co_create_common stack stack_size entry arg WT_CO_BLOCKED WT_CO_STACK_MIN false.

Definition wt_co_set_domain (co : option co_ref) (domain unprivileged : Z) : func sched unit := fn (
  match co with
  | None => panic
  | Some p =>
    when (negb (is_valid_co_pointer p) || bool_decide (p = CoBootstrap)) (panic;; early tt);;
    mod_co p (λ c, c <| co_domain := domain |>
                     <| co_unprivileged := (if unprivileged =? 0 then 0 else 1) |>)
  end).

Definition wt_co_block : func sched unit := fn (
  cur ← gets g_wt_co_current;
  from ← defined cur;
  when (bool_decide (from = CoBootstrap)) panic;;
  mod_co from (λ c, c <| co_state := WT_CO_BLOCKED |>);;
  call wt_co_arch_leave).

Definition wt_co_wake (co : option co_ref) : func sched unit := fn (
  match co with
  | None => mret tt
  | Some p =>
    when (negb (is_valid_co_pointer p) || bool_decide (p = CoBootstrap)) (panic;; early tt);;
    c ← get_co p;
    match co_state c with
    | WT_CO_RUNNABLE | WT_CO_RUNNING => mod_co p (λ c, c <| co_wake_pending := true |>)
    | WT_CO_FAULTED => mret tt
    | WT_CO_BLOCKED =>
      mod_co p (λ c, c <| co_wake_pending := false |>);;
      mod_co p (λ c, c <| co_state := WT_CO_RUNNABLE |>);;
      call (runqueue_enqueue p)
    end
  end).

(** The loop is the one of [runqueue_unlink], written out in the source. *)
Definition wt_co_mark_faulted (co : option co_ref) : func sched unit := fn (
  match co with
  | None => mret tt
  | Some p =>
    unlink_walk (S WT_CO_MAX) None p;;
    mod_co p (λ c, c <| co_state := WT_CO_FAULTED |>);;
    cur ← gets g_wt_co_current;
    when (bool_decide (cur = Some p)) (modify (λ s, s <| g_wt_co_current := Some CoBootstrap |>))
  end).

Definition wt_co_reinit (co : option co_ref) (entry arg : Z) : func sched Z := fn (
  match co with
  | None => mret (-1)
  | Some p =>
    when (entry =? 0) (early (-1));;
    when (negb (is_valid_co_pointer p) || bool_decide (p = CoBootstrap)) (early (-1));;
    c ← get_co p;
    when (co_stack_base c =? 0) (early (-1));;
    call (runqueue_unlink (Some p));;
    cur ← gets g_wt_co_current;
    when (bool_decide (cur = Some p)) (modify (λ s, s <| g_wt_co_current := Some CoBootstrap |>));;
    mod_co p (λ c, c <| co_sp := 0 |> <| co_entry := entry |> <| co_arg := arg |> <| co_state := WT_CO_BLOCKED |>
                     <| co_next_run := None |> <| co_next_wait := None |> <| co_wake_pending := false |>);;
    c ← get_co p;
    modify (λ s, s <| sc_memory := store32 (sc_memory s) (co_stack_base c) WT_CO_STACK_CANARY |>);;
    call (wt_co_arch_init_stack p entry arg);;
    mret 0
  end).

Definition wt_co_current {R} : prog sched R (option co_ref) :=
  cur ← gets g_wt_co_current;
  mret (if decide (cur = Some CoBootstrap) then None else cur).

(** A null handle reports [WT_CO_FAULTED]. *)
Definition wt_co_state {R} (co : option co_ref) : prog sched R wt_co_state_t :=
  match co with None => mret WT_CO_FAULTED | Some p => c ← get_co p; mret (co_state c) end.
Definition wt_co_wake_pending {R} (co : option co_ref) : prog sched R bool :=
  match co with None => mret false | Some p => c ← get_co p; mret (co_wake_pending c) end.

Definition wt_co_run (co : option co_ref) : func sched Z := fn (
  match co with
  | None => mret 0
  | Some p =>
    cur ← gets g_wt_co_current;
    when (negb (bool_decide (cur = Some CoBootstrap))) (early 0);;
    when (negb (is_valid_co_pointer p) || bool_decide (p = CoBootstrap)) (panic;; early 0);;
    c ← get_co p;
    when (negb (bool_decide (co_state c = WT_CO_RUNNABLE))) (early 0);;
    call (runqueue_unlink (Some p));;
    call (do_switch (Some p));;
    mret 1
  end).

(** [while (switches < budget_iterations)]: at most [todo] more rounds. *)
Fixpoint tick_loop {R} (todo : nat) (switches : Z) : prog sched R Z :=
  match todo with
  | O => mret switches
  | S todo' =>
    to ← call runqueue_dequeue;
    match to with
    | None => mret switches
    | Some _ => call (do_switch to);; tick_loop todo' (switches + 1)
    end
  end.

Definition wt_co_tick (budget_iterations : nat) : func sched Z := fn (
  cur ← gets g_wt_co_current;
  when (negb (bool_decide (cur = Some CoBootstrap))) (early 0);;
  when (budget_iterations =? 0)%nat (early 0);;
  tick_loop budget_iterations 0).

Definition wt_co_request_preempt : func sched bool := fn (
  cur ← gets g_wt_co_current;
  match cur with
  | None => mret false
  | Some p =>
    when (bool_decide (p = CoBootstrap)) (early false);;
    c ← get_co p;
    when (negb (bool_decide (co_state c = WT_CO_RUNNING))) (early false);;
    mod_co p (λ c, c <| co_state := WT_CO_RUNNABLE |>);;
    modify (λ s, s <| g_wt_co_pendsv_target := None |>);;
    call wt_co_arch_request_preempt;;
    mret true
  end).
End api.
