(* ===== verification/Mutex.v ===== *)
(** * Sleep mutexes: [src/sync/mutex.c]

    Mutex [m] is the [m]-th of [sc_mutexes]. [wt_mutex_acquire] gives up the
    processor inside its loop, so it is two functions: the code up to the
    first [wt_co_block], and the code from its return to the next call or to
    the end of the loop. *)

From Stdlib Require Import ZArith Lia.
From stdpp Require Import base list numbers option sets.
From S2P Require Import Prelude Buffers CState Frame Coroutine.

Section access.
Context {R : Type}.
Definition get_mutex (m : nat) : prog sched R wt_mutex := s ← gets id; defined (sc_mutexes s !! m).
Definition mutex_put (m : nat) (x : wt_mutex) (s : sched) : sched :=
  s <| sc_mutexes := <[m := x]> (sc_mutexes s) |>.
Definition mod_mutex (m : nat) (f : wt_mutex → wt_mutex) : prog sched R unit :=
  x ← get_mutex m; modify (mutex_put m (f x)).
End access.

Definition mutex_zero : wt_mutex :=
  {| mx_holder := None; mx_wait_head := None; mx_wait_tail := None; mx_acquire_count := 0; mx_contend_count := 0 |}.

Definition wt_mutex_init (m : nat) : func sched unit := fn (mod_mutex m (λ _, mutex_zero)).

(** What the caller of [wt_mutex_acquire] sees: the call returned, or the
    coroutine is suspended in [wt_co_block]. *)
Inductive acquire_result := Returned (rc : Z) | Suspended.

(** [x->acquire_count++], [x->contend_count++] *)
Definition count_acquire (x : wt_mutex) : wt_mutex := x <| mx_acquire_count := u32 (mx_acquire_count x + 1) |>.
Definition count_contend (x : wt_mutex) : wt_mutex := x <| mx_contend_count := u32 (mx_contend_count x + 1) |>.

(** The enqueueing code of [wt_mutex_acquire] and [wt_mutex_acquire_queued]. *)
Definition wait_enqueue {R} (m : nat) (self : co_ref) : prog sched R unit :=
  mod_mutex m count_contend;;
  mod_co self (λ c, c <| co_next_wait := None |>);;
  x ← get_mutex m;
  match mx_wait_head x with
  | None => mod_mutex m (λ x, x <| mx_wait_head := Some self |> <| mx_wait_tail := Some self |>)
  | Some _ =>
    t ← defined (mx_wait_tail x);
    mod_co t (λ c, c <| co_next_wait := Some self |>);;
    mod_mutex m (λ x, x <| mx_wait_tail := Some self |>)
  end.

(** The hand-over code of [wt_mutex_release] and [wt_mutex_release_if_holder]. *)
Definition hand_over `{CoArch} {R} (m : nat) (next : co_ref) : prog sched R unit :=
  c ← get_co next;
  mod_mutex m (λ x, x <| mx_wait_head := co_next_wait c |>);;
  x ← get_mutex m;
  when (bool_decide (mx_wait_head x = None)) (mod_mutex m (λ x, x <| mx_wait_tail := None |>));;
  mod_co next (λ c, c <| co_next_wait := None |>);;
  mod_mutex m (λ x, x <| mx_holder := Some next |>);;
  call (wt_co_wake (Some next)).

Section api.
Context `{CoArch}.

Definition wt_mutex_acquire (m : nat) : func sched acquire_result := fn (
  self ← wt_co_current;
  match self with
  | None => mret (Returned (-1))
  | Some p =>
    x ← get_mutex m;
    when (bool_decide (mx_holder x = None))
      (mod_mutex m (λ x, x <| mx_holder := Some p |>);; mod_mutex m count_acquire;; early (Returned 0));;
    wait_enqueue m p;;
    call wt_co_block;;
    mret Suspended
  end).

(** [self] is the local variable of the suspended call. *)
Definition wt_mutex_acquire_resume (m : nat) (self : co_ref) : func sched acquire_result := fn (
  x ← get_mutex m;
  if decide (mx_holder x = Some self) then mod_mutex m count_acquire;; mret (Returned 0)
  else call wt_co_block;; mret Suspended).

Definition wt_mutex_release (m : nat) : func sched Z := fn (
  x ← get_mutex m;
  cur ← wt_co_current;
  when (negb (bool_decide (mx_holder x = cur))) (early (-1));;
  match mx_wait_head x with
  | None => mod_mutex m (λ x, x <| mx_holder := None |>);; mret 0
  | Some next => hand_over m next;; mret 0
  end).

Definition wt_mutex_try_acquire (m : nat) : func sched bool := fn (
  x ← get_mutex m;
  when (negb (bool_decide (mx_holder x = None))) (early false);;
  cur ← wt_co_current;
  mod_mutex m (λ x, x <| mx_holder := cur |>);;
  mod_mutex m count_acquire;;
  mret true).

Definition wt_mutex_holder {R} (m : nat) : prog sched R (option co_ref) := x ← get_mutex m; mret (mx_holder x).

(** [for (waiter = m->wait_head; waiter != NULL; waiter = waiter->next_wait)] *)
Fixpoint waiting {R} (fuel : nat) (waiter : option co_ref) (self : co_ref) : prog sched R bool :=
  match fuel with
  | O => out_of_fuel
  | S fuel' =>
    match waiter with
    | None => mret false
    | Some w => if decide (w = self) then mret true else c ← get_co w; waiting fuel' (co_next_wait c) self
    end
  end.

Definition wt_mutex_acquire_queued (m : option nat) (self : option co_ref) : func sched Z := fn (
  match m, self with
  | Some m, Some p =>
    x ← get_mutex m;
    when (bool_decide (mx_holder x = None))
      (mod_mutex m (λ x, x <| mx_holder := Some p |>);; mod_mutex m count_acquire;; early 0);;
    when (bool_decide (mx_holder x = Some p)) (early 0);;
    queued ← waiting (S WT_CO_MAX) (mx_wait_head x) p;
    when queued (early 1);;
    wait_enqueue m p;;
    mret 1
  | _, _ => mret (-1)
  end).

Fixpoint remove_walk {R} (fuel : nat) (m : nat) (prev cur : option co_ref) (co : co_ref) : prog sched R unit :=
  match fuel with
  | O => out_of_fuel
  | S fuel' =>
    match cur with
    | None => mret tt
    | Some n =>
      c ← get_co n;
      if decide (n = co) then
        match prev with
        | None => mod_mutex m (λ x, x <| mx_wait_head := co_next_wait c |>)
        | Some q => mod_co q (λ d, d <| co_next_wait := co_next_wait c |>)
        end;;
        x ← get_mutex m;
        when (bool_decide (mx_wait_tail x = Some n)) (mod_mutex m (λ x, x <| mx_wait_tail := prev |>));;
        mod_co n (λ c, c <| co_next_wait := None |>)
      else remove_walk fuel' m (Some n) (co_next_wait c) co
    end
  end.

Definition wt_mutex_remove_waiter (m : option nat) (co : option co_ref) : func sched unit := fn (
  match m, co with
  | Some m, Some p => x ← get_mutex m; remove_walk (S WT_CO_MAX) m None (mx_wait_head x) p
  | _, _ => mret tt
  end).

Definition wt_mutex_release_if_holder (m : option nat) (co : option co_ref) : func sched unit := fn (
  match m, co with
  | Some m, Some p =>
    x ← get_mutex m;
    when (negb (bool_decide (mx_holder x = Some p))) (early tt);;
    match mx_wait_head x with
    | None => mod_mutex m (λ x, x <| mx_holder := None |>)
    | Some next => hand_over m next
    end
  | _, _ => mret tt
  end).

(** [wt_hsm_release_locks] of [services/nvm_boot.c]: the fault path's cleanup
    of the NVM lock on behalf of a dead coroutine. *)
Definition wt_hsm_release_locks (nvm_lock : nat) (co : option co_ref) : func sched unit := fn (
  match co with
  | None => mret tt
  | Some _ =>
    call (wt_mutex_release_if_holder (Some nvm_lock) co);;
    call (wt_mutex_remove_waiter (Some nvm_lock) co)
  end).
End api.
