(* ===== verification/SchedRep.v ===== *)
(** * The scheduler's abstract state

    What the coroutine table, the run queue and the mutexes represent: a state
    and a wake latch per coroutine, the run queue as a list, and per mutex its
    holder and the list of its waiters. [rep] relates the linked structures to
    it and [awf] is the invariant of the abstract state. *)

From Stdlib Require Import ZArith Lia.
From stdpp Require Import base list numbers option sets.
From S2P Require Import Prelude Buffers CState Frame Coroutine Mutex.

(** ** The abstract state *)

Record aco := { a_st : wt_co_state_t; a_latch : bool; a_base : Z; a_size : Z }.
Record amutex := { a_holder : option co_ref; a_waiters : list co_ref }.
Record asched := {
  a_cos : list aco;
  a_runq : list co_ref;
  a_current : co_ref;
  a_mutexes : list amutex;
}.
#[export] Instance aco_eta : Settable aco := λ k,
  {| a_st := a_st k; a_latch := a_latch k; a_base := a_base k; a_size := a_size k |}.
#[export] Instance set_a_st : Setter a_st. Proof. derive_setter. Defined.
#[export] Instance set_a_latch : Setter a_latch. Proof. derive_setter. Defined.
#[export] Instance amutex_eta : Settable amutex := λ x, {| a_holder := a_holder x; a_waiters := a_waiters x |}.
#[export] Instance set_a_holder : Setter a_holder. Proof. derive_setter. Defined.
#[export] Instance set_a_waiters : Setter a_waiters. Proof. derive_setter. Defined.
#[export] Instance asched_eta : Settable asched := λ a,
  {| a_cos := a_cos a; a_runq := a_runq a; a_current := a_current a; a_mutexes := a_mutexes a |}.
#[export] Instance set_a_cos : Setter a_cos. Proof. derive_setter. Defined.
#[export] Instance set_a_runq : Setter a_runq. Proof. derive_setter. Defined.
#[export] Instance set_a_current : Setter a_current. Proof. derive_setter. Defined.
#[export] Instance set_a_mutexes : Setter a_mutexes. Proof. derive_setter. Defined.

Definition a_co (a : asched) (p : co_ref) : option aco :=
  match p with CoSlot i => a_cos a !! i | CoBootstrap => None end.
Definition a_put (p : co_ref) (k : aco) (a : asched) : asched :=
  match p with CoSlot i => a <| a_cos := <[i := k]> (a_cos a) |> | CoBootstrap => a end.
Definition a_put_mutex (m : nat) (x : amutex) (a : asched) : asched :=
  a <| a_mutexes := <[m := x]> (a_mutexes a) |>.

(** No coroutine waits twice; a mutex with waiters is held, by somebody else;
    the coroutine that runs is the only one in state [WT_CO_RUNNING]; the run
    queue holds runnable coroutines; the stacks are apart. *)
Definition stack_ok (k : aco) : Prop :=
  0 < a_base k ∧ WT_CO_STACK_MIN ≤ a_size k ∧ a_base k + a_size k < 2 ^ 32 ∧ a_base k .& 7 = 0.
Definition stacks_apart (k k' : aco) : Prop :=
  a_base k + a_size k ≤ a_base k' ∨ a_base k' + a_size k' ≤ a_base k.
Record mutex_wf (a : asched) (x : amutex) : Prop := {
  mw_live p : a_holder x = Some p ∨ p ∈ a_waiters x → is_Some (a_co a p);
  mw_holder p : a_holder x = Some p → p ∉ a_waiters x;
  mw_free : a_holder x = None → a_waiters x = [];
  mw_nodup : NoDup (a_waiters x);
}.
Record awf (a : asched) : Prop := {
  aw_runq : Forall (λ p, ∃ k, a_co a p = Some k ∧ a_st k = WT_CO_RUNNABLE) (a_runq a);
  aw_runq_nodup : NoDup (a_runq a);
  aw_running p k : a_co a p = Some k → a_st k = WT_CO_RUNNING ↔ a_current a = p;
  aw_current : a_current a = CoBootstrap ∨ is_Some (a_co a (a_current a));
  aw_mutexes : Forall (mutex_wf a) (a_mutexes a);
  aw_waiters m m' x x' p : a_mutexes a !! m = Some x → a_mutexes a !! m' = Some x' →
    p ∈ a_waiters x → p ∈ a_waiters x' → m = m';
  aw_stack p k : a_co a p = Some k → stack_ok k;
  aw_stacks p q k k' : p ≠ q → a_co a p = Some k → a_co a q = Some k' → stacks_apart k k';
}.

(** ** The representation *)

Definition run_next (s : sched) (p : co_ref) : option co_ref := co_at p s ≫= co_next_run.
Definition wait_next (s : sched) (p : co_ref) : option co_ref := co_at p s ≫= co_next_wait.

(** A created coroutine has a stack whose lowest word is the canary. *)
Record co_rep (mem : Z → Z) (c : wt_co) (k : aco) : Prop := {
  cr_state : co_state c = a_st k;
  cr_latch : co_wake_pending c = a_latch k;
  cr_base : co_stack_base c = a_base k;
  cr_size : co_stack_size c = a_size k;
  cr_canary : load32 mem (a_base k) = WT_CO_STACK_CANARY;
}.

Definition run_rep (s : sched) (q : list co_ref) : Prop :=
  queue_rep (run_next s) (g_runqueue_head s) (g_runqueue_tail s) q.
Definition mutex_rep (s : sched) (x : wt_mutex) (y : amutex) : Prop :=
  mx_holder x = a_holder y ∧ queue_rep (wait_next s) (mx_wait_head x) (mx_wait_tail x) (a_waiters y).

Record base_rep (s : sched) (a : asched) : Prop := {
  br_table : length (g_co_table s) = WT_CO_MAX;
  br_count : g_co_count s = S (length (a_cos a));
  br_room : (length (a_cos a) < WT_CO_MAX)%nat;
  br_cos i k : a_cos a !! i = Some k → ∃ c, g_co_table s !! i = Some c ∧ co_rep (sc_memory s) c k;
  br_fresh i c : (length (a_cos a) ≤ i)%nat → g_co_table s !! i = Some c → co_wake_pending c = false;
  br_bootstrap : co_stack_base (g_wt_co_bootstrap s) = 0;
  br_current : g_wt_co_current s = Some (a_current a);
  br_alive : sc_panicked s = false;
}.
Record rep (s : sched) (a : asched) : Prop := {
  rp_base : base_rep s a;
  rp_run : run_rep s (a_runq a);
  rp_mutexes : Forall2 (mutex_rep s) (sc_mutexes s) (a_mutexes a);
}.

(** ** Access *)

Lemma co_at_put_eq p c c' s : co_at p s = Some c → co_at p (co_put p c' s) = Some c'.
Proof. destruct p as [|i]; simpl; [done|]. intros Hi. apply list_lookup_insert_eq. by eapply lookup_lt_Some. Qed.
Lemma co_at_put_ne p q c s : p ≠ q → co_at q (co_put p c s) = co_at q s.
Proof. destruct p, q; simpl; try done. intros Hne. apply list_lookup_insert_ne. congruence. Qed.

Lemma wp_get_co {R} p c E (Q : wt_co → sched → Prop) s :
  co_at p s = Some c → Q c s → wp (R := R) (get_co p) E Q s.
Proof. intros Hp HQ. apply wp_bind, wp_gets. by eapply wp_defined. Qed.
Lemma wp_mod_co {R} p c f E (Q : unit → sched → Prop) s :
  co_at p s = Some c → Q tt (co_put p (f c) s) → wp (R := R) (mod_co p f) E Q s.
Proof. intros Hp HQ. apply wp_bind. by eapply wp_get_co. Qed.
Lemma wp_get_mutex {R} m x E (Q : wt_mutex → sched → Prop) s :
  sc_mutexes s !! m = Some x → Q x s → wp (R := R) (get_mutex m) E Q s.
Proof. intros Hm HQ. apply wp_bind, wp_gets. by eapply wp_defined. Qed.
Lemma wp_mod_mutex {R} m x f E (Q : unit → sched → Prop) s :
  sc_mutexes s !! m = Some x → Q tt (mutex_put m (f x) s) → wp (R := R) (mod_mutex m f) E Q s.
Proof. intros Hm HQ. apply wp_bind. by eapply wp_get_mutex. Qed.

Lemma valid_slot i : is_valid_co_pointer (CoSlot i) = (i <? WT_CO_MAX)%nat.
Proof.
  unfold is_valid_co_pointer. rewrite bool_decide_false by done. rewrite orb_false_l.
  destruct (Nat.ltb_spec i WT_CO_MAX) as [Hi|Hi].
  - apply existsb_exists. exists i. split; [apply in_seq; lia|]. by apply bool_decide_eq_true.
  - apply not_true_is_false. intros (j & Hj & E)%existsb_exists. apply in_seq in Hj.
    apply bool_decide_eq_true in E. simplify_eq. lia.
Qed.

(** [p] is a created coroutine. *)
Lemma live_slot s a p k : base_rep s a → a_co a p = Some k →
  ∃ c, co_at p s = Some c ∧ co_rep (sc_memory s) c k ∧ is_valid_co_pointer p = true ∧ p ≠ CoBootstrap.
Proof.
  intros Hb Hp. destruct p as [|i]; [done|]. destruct (br_cos s a Hb i k Hp) as (c & Hc & Hr).
  exists c. split_and!; [done|done| |done]. rewrite valid_slot. apply Nat.ltb_lt.
  apply lookup_lt_Some in Hp. pose proof (br_room s a Hb). lia.
Qed.
Lemma a_co_put_eq a p k k' : a_co a p = Some k → a_co (a_put p k' a) p = Some k'.
Proof. destruct p; simpl; [done|]. intros Hp. apply list_lookup_insert_eq. by eapply lookup_lt_Some. Qed.
Lemma a_co_put_ne a p q k : p ≠ q → a_co (a_put p k a) q = a_co a q.
Proof. destruct p, q; simpl; try done. intros Hne. apply list_lookup_insert_ne. congruence. Qed.
Lemma a_co_put a p q k k' : a_co a p = Some k → is_Some (a_co (a_put p k' a) q) ↔ is_Some (a_co a q).
Proof.
  intros Hp. destruct (decide (p = q)) as [<-|Hne]; [|by rewrite a_co_put_ne].
  erewrite a_co_put_eq by done. rewrite Hp. split; eauto.
Qed.

(** ** What the run queue code leaves alone *)

Definition clear_run (c : wt_co) : wt_co := c <| co_next_run := None |>.
Definition erase_run (s : sched) : sched :=
  s <| g_co_table := clear_run <$> g_co_table s |> <| g_runqueue_head := None |> <| g_runqueue_tail := None |>.

Lemma erase_run_put p c v s :
  co_at p s = Some c → p ≠ CoBootstrap → erase_run (co_put p (c <| co_next_run := v |>) s) = erase_run s.
Proof.
  destruct p as [|i]; [done|]. simpl. intros Hi _. unfold erase_run. cbv [set_field set_g_co_table set_g_runqueue_head
    set_g_runqueue_tail]. cbn. f_equal.
  rewrite list_fmap_insert. apply list_insert_id. rewrite list_lookup_fmap, Hi. by destruct c.
Qed.
Lemma erase_run_lookup s s' p c :
  erase_run s' = erase_run s → co_at p s = Some c → ∃ c', co_at p s' = Some c' ∧ clear_run c' = clear_run c.
Proof.
  intros [= Ht Hb _ _ _ _ _ _]. destruct p as [|i]; simpl; [intros [= <-]; eexists; split; [done|by rewrite Hb]|]. intros Hi.
  assert ((clear_run <$> g_co_table s') !! i = Some (clear_run c)) as E.
  { rewrite Ht, list_lookup_fmap, Hi. done. }
  rewrite list_lookup_fmap in E. destruct (g_co_table s' !! i) as [c'|]; [|done].
  exists c'. split; [done|]. by apply (inj Some) in E.
Qed.
Lemma base_erase_run s s' a : erase_run s' = erase_run s → base_rep s a → base_rep s' a.
Proof.
  intros He [Ht Hc Hr Hk Hf Hb Hcur Hp]. pose proof He as [= Et Eb Ecur _ Ecount Emem _ Ep].
  assert (length (g_co_table s') = length (g_co_table s)) as El.
  { apply (f_equal length) in Et. by rewrite !length_fmap in Et. }
  constructor; try congruence.
  - intros i k Hi. destruct (Hk i k Hi) as (c & Hci & [R1 R2 R3 R4 R5]).
    destruct (erase_run_lookup s s' (CoSlot i) c He Hci) as (c' & Hc' & E). exists c'. split; [done|].
    pose proof E as [= _ E1 E4 _ _ E2 _ _ _ _ E3 _]. constructor; congruence.
  - intros i c' Hi Hc'. destruct (erase_run_lookup s' s (CoSlot i) c' (eq_sym He) Hc') as (c & Hci & E).
    pose proof E as [= _ _ _ _ _ _ _ _ _ _ E3 _]. rewrite <-E3. by eapply Hf.
Qed.
Lemma wait_next_erase s s' p : erase_run s' = erase_run s → wait_next s' p = wait_next s p.
Proof.
  intros He. unfold wait_next. destruct (co_at p s) as [c|] eqn:Hp.
  - destruct (erase_run_lookup s s' p c He Hp) as (c' & -> & E). by pose proof E as [= _ _ _ _ _ _ _ Ew _ _ _ _].
  - destruct (co_at p s') as [c'|] eqn:Hp'; [|done].
    destruct (erase_run_lookup s' s p c' (eq_sym He) Hp') as (c & Hc & _). congruence.
Qed.
Lemma mutexes_ext s s' l ys :
  (∀ p, wait_next s' p = wait_next s p) → Forall2 (mutex_rep s) l ys → Forall2 (mutex_rep s') l ys.
Proof.
  intros Hw HF. eapply Forall2_impl; [exact HF|]. intros x y [Hh Hq]. split; [done|]. eapply queue_ext; [|done]. intros. apply Hw.
Qed.
(** A run queue operation as a whole. *)
Lemma rep_run s s' a q :
  rep s a → erase_run s' = erase_run s → run_rep s' q → rep s' (a <| a_runq := q |>).
Proof.
  intros [Hb _ Hm] He Hq. constructor; [by eapply base_erase_run in Hb as []| done|].
  simpl. pose proof He as [= _ _ _ _ _ _ -> _]. eapply mutexes_ext; [|done]. intros p. by apply wait_next_erase.
Qed.
