(* ===== verification/SchedRun.v ===== *)
(** * The run queue is a FIFO list

    [runqueue_enqueue] appends, [runqueue_dequeue] takes the head and
    [runqueue_unlink] removes one element; the walks end within the fuel given
    to them because the queue has no repetition. *)

From Stdlib Require Import ZArith Lia.
From stdpp Require Import base list numbers option sets.
From S2P Require Import Prelude Buffers CState Frame Coroutine Mutex SchedRep.

(** The elements of a queue are table slots. *)
Definition slots (s : sched) (q : list co_ref) : Prop :=
  Forall (λ p, is_Some (co_at p s) ∧ is_valid_co_pointer p = true ∧ p ≠ CoBootstrap) q.

Lemma slots_elem s q p : slots s q → p ∈ q →
  ∃ c, co_at p s = Some c ∧ is_valid_co_pointer p = true ∧ p ≠ CoBootstrap.
Proof. intros Hs Hp. unfold slots in Hs. rewrite Forall_forall in Hs. destruct (Hs p Hp) as ([c Hc] & ? & ?). eauto. Qed.
Lemma live_slots s a q : base_rep s a → Forall (λ p, is_Some (a_co a p)) q → slots s q.
Proof.
  intros Hb HF. eapply Forall_impl; [exact HF|]. intros p [k Hk]. destruct (live_slot s a p k Hb Hk) as (c & ? & _ & ? & ?). eauto.
Qed.

Lemma run_next_put p c c' s q :
  co_at p s = Some c → run_next (co_put p c' s) q = link_upd (run_next s) p (co_next_run c') q.
Proof.
  intros Hp. unfold run_next, link_upd. destruct (decide (q = p)) as [->|Hne].
  - by erewrite co_at_put_eq.
  - by rewrite co_at_put_ne.
Qed.
Lemma head_put p c s : g_runqueue_head (co_put p c s) = g_runqueue_head s.
Proof. by destruct p. Qed.
Lemma tail_put p c s : g_runqueue_tail (co_put p c s) = g_runqueue_tail s.
Proof. by destruct p. Qed.
Lemma run_next_at p c s : co_at p s = Some c → run_next s p = co_next_run c.
Proof. intros Hp. unfold run_next. by rewrite Hp. Qed.

(** A queue has at most one element per table slot. *)
Lemma slots_length s q : slots s q → NoDup q → (length q ≤ WT_CO_MAX)%nat.
Proof.
  intros Hs Hn. rewrite <-(length_seq WT_CO_MAX 0), <-(length_fmap CoSlot (seq 0 WT_CO_MAX)).
  apply submseteq_length, NoDup_submseteq; [done|]. intros p Hp.
  destruct (slots_elem s q p Hs Hp) as (c & _ & Hv & Hne). destruct p as [|i]; [done|].
  rewrite valid_slot in Hv. apply Nat.ltb_lt in Hv. apply list_elem_of_fmap. exists i. split; [done|].
  apply elem_of_seq. lia.
Qed.

Lemma runq_enqueue_spec s q p c :
  run_rep s q → slots s q → p ∉ q → co_at p s = Some c → is_valid_co_pointer p = true → p ≠ CoBootstrap →
  fwp (runqueue_enqueue p) (λ _ s', run_rep s' (q ++ [p]) ∧ erase_run s' = erase_run s) s.
Proof.
  intros Hq Hsl Hp Hc Hv Hne. apply fwp_fn, wp_bind, wp_when; rewrite Hv, bool_decide_false by done; [done|].
  intros _. apply wp_bind. eapply wp_mod_co; [done|]. apply wp_bind, wp_gets. simpl.
  set (s1 := co_put p _ s).
  assert (g_runqueue_tail s1 = g_runqueue_tail s) as Et by by destruct p.
  assert (g_runqueue_head s1 = g_runqueue_head s) as Eh by by destruct p.
  assert (erase_run s1 = erase_run s) as E1 by by apply erase_run_put.
  pose proof (queue_push _ _ _ _ p Hq Hp) as Hpush. rewrite Et.
  destruct (g_runqueue_tail s) as [t|] eqn:Ht.
  - assert (t ∈ q) as Htq by (apply last_Some_elem_of; rewrite <-(qr_tail _ _ _ _ Hq); done).
    destruct (slots_elem s q t Hsl Htq) as (ct & Hct & Hvt & Hnt).
    assert (t ≠ p) by (intros ->; done). apply wp_bind, wp_bind, wp_when; rewrite Hvt; [done|]. intros _.
    assert (co_at t s1 = Some ct) as Hct1 by by (unfold s1; rewrite co_at_put_ne).
    eapply wp_mod_co; [done|]. apply wp_modify. split.
    + unfold run_rep. simpl. assert (g_runqueue_head (co_put t (ct <| co_next_run := Some p |>) s1) =
        g_runqueue_head s) as -> by by (destruct t).
      eapply queue_ext; [|exact Hpush]. intros x _. unfold run_next. simpl.
      change (run_next (co_put t (ct <| co_next_run := Some p |>) s1) x = link_upd (link_upd (run_next s) p None) t (Some p) x).
      rewrite (run_next_put t ct) by done. unfold link_upd at 1 2. destruct (decide (x = t)); [done|].
      by apply (run_next_put p c).
    + etrans; [|exact E1]. by rewrite <-(erase_run_put t ct (Some p) s1).
  - apply wp_bind, wp_modify, wp_modify. split.
    + unfold run_rep. simpl. eapply queue_ext; [|exact Hpush]. intros x _.
      change (run_next s1 x = link_upd (run_next s) p None x). by apply (run_next_put p c).
    + by rewrite <-E1.
Qed.

Lemma runq_dequeue_spec s q :
  run_rep s q → slots s q →
  fwp runqueue_dequeue
    (λ r s', r = head q ∧ run_rep s' (tail q) ∧ erase_run s' = erase_run s) s.
Proof.
  intros Hq Hsl. apply fwp_fn, wp_bind, wp_gets. rewrite (queue_head _ _ _ _ Hq).
  destruct q as [|p q]; [by apply wp_ret|]. simpl head.
  destruct (slots_elem s (p :: q) p Hsl) as (c & Hc & Hv & Hne); [set_solver|].
  apply wp_bind, wp_when; rewrite Hv; [done|]. intros _.
  apply wp_bind. eapply wp_get_co; [done|]. apply wp_bind, wp_modify, wp_bind. simpl.
  destruct (queue_pop _ _ _ _ _ Hq) as [Hh Hpop]. rewrite (run_next_at p c) in Hpop by done.
  assert (∀ s0, s0 = s <| g_runqueue_head := co_next_run c |> →
    wp (R := option co_ref) (match co_next_run c with
      | Some q' => when (negb (is_valid_co_pointer q')) (modify (λ s, s <| g_runqueue_head := None |>))
      | None => mret tt end) (λ _ _, False) (λ _ s', s' = s0) s0) as Hskip.
  { intros s0 ->. destruct (co_next_run c) as [r|] eqn:Hr; [|by apply wp_ret].
    assert (r ∈ q) as Hrq.
    { pose proof (queue_head _ _ _ _ Hpop) as Hq'. by apply head_Some_elem_of. }
    destruct (slots_elem s (p :: q) r Hsl) as (cr & _ & Hvr & _); [set_solver|].
    apply wp_when; by rewrite Hvr. }
  eapply wp_mono; [by eapply Hskip|done|]. intros [] s' ->. clear Hskip.
  apply wp_bind, wp_gets. simpl. apply wp_bind.
  assert (∀ s1, erase_run s1 = erase_run s → co_at p s1 = Some c → (∀ x, run_next s1 x = run_next s x) →
    queue_rep (link_upd (run_next s) p None) (g_runqueue_head s1) (g_runqueue_tail s1) q →
    wp (R := option co_ref) (mod_co p (λ c, c <| co_next_run := None |>);; mret (Some p))
      (λ r s', r = Some p ∧ run_rep s' q ∧ erase_run s' = erase_run s)
      (λ r s', r = Some p ∧ run_rep s' q ∧ erase_run s' = erase_run s) s1) as Hrest.
  { intros s1 He Hc1 Hn Hr. apply wp_bind. eapply wp_mod_co; [done|]. apply wp_ret. split_and!; [done| |].
    - unfold run_rep. rewrite head_put, tail_put.
      eapply queue_ext; [|done]. intros x _. rewrite (run_next_put p c) by done. unfold link_upd. simpl.
      destruct (decide (x = p)); [done|]. by rewrite Hn.
    - by rewrite erase_run_put. }
  destruct (co_next_run c) as [r|] eqn:Hr; apply wp_when; intros E; try done.
  - apply Hrest; done.
  - apply wp_modify. apply Hrest; done.
Qed.

(** ** Unlinking *)

Lemma find_tail_spec {R} fuel s p l (E : R → sched → Prop) :
  lseg (run_next s) (run_next s p) l None → Forall (λ x, is_Some (co_at x s)) (p :: l) → (length l < fuel)%nat →
  wp (find_tail fuel p) E (λ t s', s' = s ∧ last (p :: l) = Some t) s.
Proof.
  revert p l. induction fuel as [|fuel IH]; intros p l Hs Hl Hf; [lia|].
  apply Forall_cons in Hl as [[c Hc] Hl]. simpl find_tail. apply wp_bind. eapply wp_get_co; [done|].
  rewrite (run_next_at p c s Hc) in Hs. destruct l as [|x l]; simpl in Hs.
  - rewrite Hs. by apply wp_ret.
  - destruct Hs as [-> Hs]. eapply wp_mono; [apply IH; [done|done|simpl in Hf; lia]|done|].
    intros t s' [-> Ht]. by rewrite last_cons_cons.
Qed.

Definition set_queue (h t : option co_ref) (s : sched) : sched :=
  s <| g_runqueue_head := h |> <| g_runqueue_tail := t |>.

(** The state after the node behind [link] was taken out. *)
Lemma write_link_spec {R} s q link v (E : R → sched → Prop) :
  slots s q → match link with Some y => y ∈ q | None => True end →
  wp (write_link link v) E (λ _ s', erase_run s' = erase_run s ∧
    (∀ x, run_next s' x = set_link (run_next s) link v x) ∧
    g_runqueue_head s' = set_head (g_runqueue_head s) link v ∧ g_runqueue_tail s' = g_runqueue_tail s) s.
Proof.
  intros Hs Hl. destruct link as [y|]; simpl.
  - destruct (slots_elem s q y Hs Hl) as (c & Hc & _ & Hne). eapply wp_mod_co; [done|]. split_and!.
    + by apply erase_run_put.
    + intros x. by apply (run_next_put y c).
    + by destruct y.
    + by destruct y.
  - apply wp_modify. done.
Qed.

Lemma slots_erase s s' q : erase_run s' = erase_run s → slots s q → slots s' q.
Proof.
  intros He Hs. eapply Forall_impl; [exact Hs|]. intros p ([c Hc] & ? & ?).
  destruct (erase_run_lookup s s' p c He Hc) as (c' & Hc' & _). eauto.
Qed.

Lemma unlink_node {R} s q1 p q2 (E : R → sched → Prop) :
  run_rep s (q1 ++ p :: q2) → slots s (q1 ++ p :: q2) →
  wp (c ← get_co p;
      write_link (last q1) (co_next_run c);;
      tail ← gets g_runqueue_tail;
      when (bool_decide (tail = Some p))
        (head ← gets g_runqueue_head;
         match head with
         | None => modify (λ s, s <| g_runqueue_tail := None |>)
         | Some h => t ← find_tail (S WT_CO_MAX) h; modify (λ s, s <| g_runqueue_tail := Some t |>)
         end);;
      mod_co p (λ c, c <| co_next_run := None |>)) E
     (λ _ s', run_rep s' (q1 ++ q2) ∧ erase_run s' = erase_run s) s.
Proof.
  intros Hq Hsl. destruct (slots_elem s _ p Hsl) as (c & Hc & _ & Hne); [set_solver|].
  pose proof (queue_unlink _ _ _ _ _ _ Hq) as Hun. rewrite (run_next_at p c s Hc) in Hun.
  apply wp_bind. eapply wp_get_co; [done|]. apply wp_bind. eapply wp_mono; [|done|].
  { apply (write_link_spec s _ _ _ _ Hsl). destruct (last q1) eqn:Hl; [|done].
    apply last_Some_elem_of in Hl. set_solver. }
  intros [] s1 (He1 & Hn1 & Hh1 & Ht1). apply wp_bind, wp_gets. apply wp_bind.
  assert (∃ c1, co_at p s1 = Some c1) as [c1 Hc1].
  { destruct (erase_run_lookup s s1 p c He1 Hc) as (c1 & ? & _). eauto. }
  (* clearing the node's own link ends the operation *)
  assert (∀ s2 t, s2 = s1 <| g_runqueue_tail := t |> →
    t = (if decide (g_runqueue_tail s = Some p) then last q1 else g_runqueue_tail s) →
    wp (mod_co p (λ c, c <| co_next_run := None |>)) E
      (λ _ s', run_rep s' (q1 ++ q2) ∧ erase_run s' = erase_run s) s2) as Hfin.
  { intros s2 t -> Ht. rewrite <-Ht in Hun. eapply wp_mod_co; [exact Hc1|]. split.
    - unfold run_rep. rewrite head_put, tail_put. change (g_runqueue_head (s1 <| g_runqueue_tail := t |>)) with
        (g_runqueue_head s1). rewrite Hh1. eapply queue_ext; [|exact Hun].
      intros x _. rewrite (run_next_put p c1) by done. unfold link_upd. destruct (decide (x = p)); [done|]. apply Hn1.
    - rewrite erase_run_put by done. by rewrite <-He1. }
  pose proof (qr_tail _ _ _ _ Hq) as Htl.
  apply wp_when; intros Eb.
  - apply bool_decide_eq_true in Eb. rewrite Ht1 in Eb.
    assert (q2 = []) as ->.
    { destruct q2 as [|y q2]; [done|exfalso]. rewrite last_app, last_cons_cons, Eb in Htl.
      destruct (last (y :: q2)) as [z|] eqn:Hz; [|by apply last_None in Hz]. simplify_eq.
      pose proof (qr_nodup _ _ _ _ Hq) as Hn. apply NoDup_app in Hn as (_ & _ & Hn).
      apply NoDup_cons in Hn as [Hn _]. apply Hn. by apply last_Some_elem_of. }
    assert (co_next_run c = None) as Hnone.
    { rewrite <-(run_next_at p c s Hc). by eapply (queue_last_link _ _ _ q1). }
    rewrite app_nil_r in Hun. rewrite decide_True in Hun, Hfin by done.
    rewrite Hnone in *. apply wp_bind, wp_gets. rewrite Hh1.
    pose proof (queue_head _ _ _ _ Hun) as Hh. rewrite Hh.
    destruct q1 as [|x q1]; simpl head.
    + apply wp_modify. apply (Hfin _ None); done.
    + apply wp_bind. eapply wp_mono; [apply (find_tail_spec _ s1 x q1)|done|].
      * assert (p ∉ x :: q1) as Hp.
        { intros Hp. pose proof (qr_nodup _ _ _ _ Hq) as Hn. apply NoDup_app in Hn as (_ & Hn & _).
          apply (Hn p Hp). set_solver. }
        destruct (qr_seg _ _ _ _ Hun) as [_ Hseg]. rewrite Hn1.
        eapply lseg_ext; [|rewrite link_upd_ne in Hseg by set_solver; exact Hseg].
        intros y Hy. rewrite Hn1. rewrite link_upd_ne; [done|]. set_solver.
      * apply (slots_erase s s1) in Hsl; [|done]. unfold slots in Hsl. apply Forall_app in Hsl as [Hsl _].
        eapply Forall_impl; [exact Hsl|]. naive_solver.
      * pose proof (slots_length s ((x :: q1) ++ [p]) Hsl (qr_nodup _ _ _ _ Hq)) as Hlen.
        rewrite length_app in Hlen. simpl in Hlen. lia.
      * intros t s2 [-> Ht]. apply wp_modify. apply (Hfin _ (Some t)); done.
  - apply bool_decide_eq_false in Eb. rewrite Ht1 in Eb. apply (Hfin _ (g_runqueue_tail s1)); [by destruct s1|].
    by rewrite decide_False.
Qed.

(** One round of the walk. *)
Lemma unlink_walk_S {R} fuel link p : unlink_walk (R := R) (S fuel) link p =
  (node ← read_link link;
   match node with
   | None => mret tt
   | Some n =>
     if decide (n = p) then
       c ← get_co n;
       write_link link (co_next_run c);;
       tail ← gets g_runqueue_tail;
       when (bool_decide (tail = Some n))
         (head ← gets g_runqueue_head;
          match head with
          | None => modify (λ s, s <| g_runqueue_tail := None |>)
          | Some h => t ← find_tail (S WT_CO_MAX) h; modify (λ s, s <| g_runqueue_tail := Some t |>)
          end);;
       mod_co n (λ c, c <| co_next_run := None |>)
     else unlink_walk fuel (Some n) p
   end).
Proof. done. Qed.

Lemma filter_notin (p : co_ref) (q : list co_ref) : p ∉ q → filter (λ x, x ≠ p) q = q.
Proof.
  induction q as [|x q IH]; intros Hp; [done|]. rewrite filter_cons_True by set_solver.
  f_equal. apply IH. set_solver.
Qed.

Lemma unlink_walk_spec {R} fuel s q1 q2 p (E : R → sched → Prop) :
  run_rep s (q1 ++ q2) → slots s (q1 ++ q2) → (length q2 < fuel)%nat → p ∉ q1 →
  wp (unlink_walk fuel (last q1) p) E
    (λ _ s', run_rep s' (filter (λ x, x ≠ p) (q1 ++ q2)) ∧ erase_run s' = erase_run s) s.
Proof.
  revert q1 q2. induction fuel as [|fuel IH]; intros q1 q2 Hq Hsl Hf Hp; [lia|]. rewrite unlink_walk_S.
  pose proof (filter_notin p q1 Hp) as Ef.
  apply wp_bind. assert (wp (R := R) (read_link (last q1)) E (λ v s', v = head q2 ∧ s' = s) s) as Hread.
  { destruct q1 as [|x q1 _] using rev_ind; [by apply wp_gets, (conj (queue_head _ _ _ _ Hq))|].
    rewrite last_snoc. destruct (slots_elem s _ x Hsl) as (c & Hc & _); [set_solver|]. simpl.
    apply wp_bind. eapply wp_get_co; [done|]. apply wp_ret. split; [|done]. rewrite <-(run_next_at x c s Hc).
    rewrite <-app_assoc in Hq. destruct q2 as [|y q2].
    - exact (queue_last_link _ _ _ _ _ Hq).
    - exact (queue_link _ _ _ _ _ _ _ Hq). }
  eapply wp_mono; [exact Hread|done|]. intros v s' [-> ->]. destruct q2 as [|n q2]; cbn [head].
  - apply wp_ret. rewrite app_nil_r in *. by rewrite Ef.
  - destruct (decide (n = p)) as [->|Hne].
    + eapply wp_mono; [by apply (unlink_node s q1 p q2)|done|]. intros [] s' [Hr He]. split; [|done].
      rewrite filter_app, Ef, filter_cons_False by naive_solver.
      rewrite filter_notin; [done|]. pose proof (qr_nodup _ _ _ _ Hq) as Hn.
      apply NoDup_app in Hn as (_ & _ & Hn). by apply NoDup_cons in Hn as [Hn _].
    + rewrite (app_assoc q1 [n] q2 : q1 ++ n :: q2 = (q1 ++ [n]) ++ q2) in *. rewrite <-(last_snoc n q1).
      apply IH; [done|done|simpl in Hf; lia|]. set_solver.
Qed.

Lemma runq_unlink_spec {R} s q p (E : R → sched → Prop) :
  run_rep s q → slots s q →
  wp (unlink_walk (S WT_CO_MAX) None p) E
    (λ _ s', run_rep s' (filter (λ x, x ≠ p) q) ∧ erase_run s' = erase_run s) s.
Proof.
  intros Hq Hsl. apply (unlink_walk_spec _ s [] q); [done|done| |set_solver].
  pose proof (slots_length s q Hsl (qr_nodup _ _ _ _ Hq)). lia.
Qed.
