(* ===== verification/SchedSpec.v ===== *)
(** * Specification of the scheduler and of the mutexes

    The operations on the abstract state: a FIFO run queue, wakes that are
    latched by active coroutines, and mutexes that are handed over in the
    order in which their waiters arrived. Each one keeps [awf]. *)

From Stdlib Require Import ZArith Lia.
From stdpp Require Import base list numbers option sets.
From S2P Require Import Prelude Buffers CState Frame Coroutine Mutex SchedRep.

(** ** Operations *)

Definition a_upd (p : co_ref) (f : aco → aco) (a : asched) : asched :=
  match a_co a p with Some k => a_put p (f k) a | None => a end.
Definition a_state (a : asched) (p : co_ref) : option wt_co_state_t := a_st <$> a_co a p.
Definition unqueue (p : co_ref) (a : asched) : asched := a <| a_runq := filter (λ x, x ≠ p) (a_runq a) |>.
(** [p] is no longer the running coroutine. *)
Definition descend (p : co_ref) (a : asched) : asched :=
  a <| a_current := (if decide (a_current a = p) then CoBootstrap else a_current a) |>.

Definition a_wake (p : co_ref) (a : asched) : asched :=
  match a_state a p with
  | Some WT_CO_RUNNABLE | Some WT_CO_RUNNING => a_upd p (λ k, k <| a_latch := true |>) a
  | Some WT_CO_BLOCKED =>
    (a_upd p (λ k, k <| a_st := WT_CO_RUNNABLE |> <| a_latch := false |>) a) <| a_runq := a_runq a ++ [p] |>
  | _ => a
  end.
Definition a_block (a : asched) : asched :=
  (a_upd (a_current a) (λ k, k <| a_st := WT_CO_BLOCKED |>) a) <| a_current := CoBootstrap |>.
Definition a_preempt (a : asched) : asched :=
  (a_upd (a_current a) (λ k, k <| a_st := WT_CO_RUNNABLE |>) a) <| a_current := CoBootstrap |>.
Definition a_fault (p : co_ref) (a : asched) : asched :=
  descend p (a_upd p (λ k, k <| a_st := WT_CO_FAULTED |>) (unqueue p a)).
Definition a_reinit (p : co_ref) (a : asched) : asched :=
  descend p (a_upd p (λ k, k <| a_st := WT_CO_BLOCKED |> <| a_latch := false |>) (unqueue p a)).
Definition a_switch (p : co_ref) (a : asched) : asched :=
  (a_upd p (λ k, k <| a_st := WT_CO_RUNNING |>) (unqueue p a)) <| a_current := p |>.
Definition a_create (k : aco) (a : asched) : asched :=
  let p := CoSlot (length (a_cos a)) in
  a <| a_cos := a_cos a ++ [k] |>
    <| a_runq := (if decide (a_st k = WT_CO_RUNNABLE) then a_runq a ++ [p] else a_runq a) |>.

(** [p] is in the wait queue of a mutex. *)
Definition waits (a : asched) (p : co_ref) : Prop := ∃ m x, a_mutexes a !! m = Some x ∧ p ∈ a_waiters x.
Definition a_mutex (a : asched) (m : nat) : option amutex := a_mutexes a !! m.

(** The mutex goes to the waiter that has waited longest. *)
Definition a_pass_on (m : nat) (x : amutex) (a : asched) : asched :=
  match a_waiters x with
  | [] => a_put_mutex m {| a_holder := None; a_waiters := [] |} a
  | w :: ws => a_wake w (a_put_mutex m {| a_holder := Some w; a_waiters := ws |} a)
  end.
(** [None] is the bootstrap context. *)
Definition a_self (a : asched) : option co_ref :=
  if decide (a_current a = CoBootstrap) then None else Some (a_current a).
Definition a_release (m : nat) (a : asched) : asched :=
  match a_mutex a m with
  | Some x => if decide (a_holder x = a_self a) then a_pass_on m x a else a
  | None => a
  end.
Definition a_release_if_holder (m : nat) (p : co_ref) (a : asched) : asched :=
  match a_mutex a m with
  | Some x => if decide (a_holder x = Some p) then a_pass_on m x a else a
  | None => a
  end.
Definition a_queue_up (m : nat) (p : co_ref) (a : asched) : asched :=
  match a_mutex a m with
  | Some x =>
    match a_holder x with
    | None => a_put_mutex m (x <| a_holder := Some p |>) a
    | Some h => if decide (h = p ∨ p ∈ a_waiters x) then a
                else a_put_mutex m (x <| a_waiters := a_waiters x ++ [p] |>) a
    end
  | None => a
  end.
Definition a_remove_waiter (m : nat) (p : co_ref) (a : asched) : asched :=
  match a_mutex a m with
  | Some x => a_put_mutex m (x <| a_waiters := filter (λ y, y ≠ p) (a_waiters x) |>) a
  | None => a
  end.

(** ** Lookup *)

Lemma a_upd_at a p k f : a_co a p = Some k → a_upd p f a = a_put p (f k) a.
Proof. intros Hp. unfold a_upd. by rewrite Hp. Qed.
Lemma a_put_runq p k a : a_runq (a_put p k a) = a_runq a.
Proof. by destruct p. Qed.
Lemma a_put_current p k a : a_current (a_put p k a) = a_current a.
Proof. by destruct p. Qed.
Lemma a_put_mutexes p k a : a_mutexes (a_put p k a) = a_mutexes a.
Proof. by destruct p. Qed.

Lemma live_upd w f q a : is_Some (a_co a q) → is_Some (a_co (a_upd w f a) q).
Proof. intros Hq. unfold a_upd. destruct (a_co a w) eqn:Hw; [|done]. by eapply a_co_put. Qed.
Lemma live_wake w q a : is_Some (a_co a q) → is_Some (a_co (a_wake w a) q).
Proof.
  intros Hq. pose proof (λ f, live_upd w f q a Hq) as Hu.
  unfold a_wake. destruct (a_state a w) as [[]|]; try done; apply Hu.
Qed.

(** ** A state change of one coroutine *)

Lemma awf_change a p k k' q cur :
  awf a → a_co a p = Some k → a_base k' = a_base k → a_size k' = a_size k →
  NoDup q → (∀ x, x ∈ q → if decide (x = p) then a_st k' = WT_CO_RUNNABLE else x ∈ a_runq a) →
  (a_st k' = WT_CO_RUNNING ↔ cur = p) → (∀ r, r ≠ p → r ≠ CoBootstrap → cur = r ↔ a_current a = r) →
  awf ((a_put p k' a) <| a_runq := q |> <| a_current := cur |>).
Proof.
  intros [W1 W2 W3 W4 W5 W6 W7 W8] Hp Hb Hs Hn Hq Hc Ho.
  set (a' := (a_put p k' a) <| a_runq := q |> <| a_current := cur |>).
  assert (∀ r, a_co a' r = a_co (a_put p k' a) r) as E by by intros [].
  assert (∀ r, is_Some (a_co a' r) ↔ is_Some (a_co a r)) as Hlive by (intros r; rewrite E; by eapply a_co_put).
  assert (∀ r kr, a_co a' r = Some kr → (r = p ∧ kr = k') ∨ (r ≠ p ∧ a_co a r = Some kr)) as Hinv.
  { intros r kr. rewrite E. destruct (decide (r = p)) as [->|Hne].
    - erewrite a_co_put_eq by done. intros [= <-]. auto.
    - rewrite a_co_put_ne by done. auto. }
  constructor.
  - apply Forall_forall. intros x Hx. specialize (Hq x Hx). rewrite E. destruct (decide (x = p)) as [->|Hne].
    + erewrite a_co_put_eq by done. eauto.
    + rewrite a_co_put_ne by done. rewrite Forall_forall in W1. by apply W1.
  - done.
  - intros r kr Hr. destruct (Hinv r kr Hr) as [[-> ->]|[Hne Hr']]; [done|]. rewrite (W3 r kr Hr').
    symmetry. apply Ho; [done|]. by intros ->.
  - simpl. destruct (decide (cur = CoBootstrap)) as [->|Hcb]; [by left|right]. apply Hlive.
    destruct (decide (cur = p)) as [->|Hcp]; [by rewrite Hp|]. destruct W4 as [Hb'|?]; [|].
    + exfalso. apply Hcb. rewrite <-Hb'. symmetry. by apply (Ho cur Hcp Hcb).
    + by rewrite <-(proj1 (Ho cur Hcp Hcb) eq_refl).
  - subst a'. simpl. rewrite a_put_mutexes. eapply Forall_impl; [exact W5|]. intros x [M1 M2 M3 M4].
    constructor; [|done..]. intros r Hr. apply Hlive. auto.
  - subst a'. simpl. by rewrite a_put_mutexes.
  - intros r kr Hr. destruct (Hinv r kr Hr) as [[-> ->]|[_ Hr']]; [|by eapply W7].
    unfold stack_ok. rewrite Hb, Hs. by apply (W7 p).
  - intros r r' kr kr' Hne Hr Hr'. unfold stacks_apart.
    destruct (Hinv _ _ Hr) as [[-> ->]|[_ H1]], (Hinv _ _ Hr') as [[-> ->]|[_ H2]]; [done|..];
      rewrite ?Hb, ?Hs; by eapply W8.
Qed.

Lemma runq_notin a p k : awf a → a_co a p = Some k → a_st k ≠ WT_CO_RUNNABLE → p ∉ a_runq a.
Proof.
  intros W Hp Hst Hin. pose proof (aw_runq a W) as H. rewrite Forall_forall in H.
  destruct (H p Hin) as (k' & ? & ?). simplify_eq.
Qed.
Lemma current_running a : awf a → a_current a ≠ CoBootstrap →
  ∃ k, a_co a (a_current a) = Some k ∧ a_st k = WT_CO_RUNNING.
Proof.
  intros W Hne. destruct (aw_current a W) as [?|[k Hk]]; [done|]. exists k. split; [done|].
  by apply (aw_running a W _ _ Hk).
Qed.

(** The forms of a state change that [awf_change] covers. *)
Lemma a_put_normal p k a : a_put p k a = (a_put p k a) <| a_runq := a_runq a |> <| a_current := a_current a |>.
Proof. by destruct a, p. Qed.
Lemma a_put_queued p k q a :
  (a_put p k a) <| a_runq := q |> = (a_put p k a) <| a_runq := q |> <| a_current := a_current a |>.
Proof. by destruct a, p. Qed.
Lemma a_put_left p k c a :
  (a_put p k a) <| a_current := c |> = (a_put p k a) <| a_runq := a_runq a |> <| a_current := c |>.
Proof. by destruct a, p. Qed.

Lemma awf_wake a p : awf a → awf (a_wake p a).
Proof.
  intros W. unfold a_wake, a_state. destruct (a_co a p) as [k|] eqn:Hp; simpl; [|done].
  assert (∀ k', a_st k' = a_st k → a_base k' = a_base k → a_size k' = a_size k → awf (a_put p k' a)) as Hl.
  { intros k' H1 H2 H3. rewrite a_put_normal. eapply awf_change; [done..|apply W| | |done].
    - intros x Hx. destruct (decide (x = p)) as [->|]; [|done]. rewrite H1.
      pose proof (aw_runq a W) as H. rewrite Forall_forall in H. destruct (H p Hx) as (? & ? & ?). by simplify_eq.
    - rewrite H1. by apply W. }
  destruct (a_st k) eqn:Hst; try erewrite a_upd_at by done; [by apply Hl|by apply Hl| |done].
  rewrite a_put_queued. eapply awf_change; [done|done|done|done| | | |done].
  - apply NoDup_app. split_and!; [apply W| |apply NoDup_singleton]. intros x Hx ->%list_elem_of_singleton.
    apply (runq_notin a p k W Hp); [by rewrite Hst|done].
  - intros x Hx. destruct (decide (x = p)); [done|]. set_solver.
  - split; [done|]. intros E. apply (aw_running a W _ _ Hp) in E. congruence.
Qed.

Lemma awf_leave a st : awf a → a_current a ≠ CoBootstrap → st ≠ WT_CO_RUNNING →
  awf ((a_upd (a_current a) (λ k, k <| a_st := st |>) a) <| a_current := CoBootstrap |>).
Proof.
  intros W Hne Hst. destruct (current_running a W Hne) as (k & Hk & Hr). erewrite a_upd_at by done.
  rewrite a_put_left. eapply awf_change; [done|done|done|done|apply W| | |].
  - intros x Hx. destruct (decide (x = _)) as [->|]; [|done].
    exfalso. eapply runq_notin; [done|done| |done]. by rewrite Hr.
  - split; [done|]. intros E. by rewrite <-E in Hne.
  - intros r H1 H2. split; intros E; by rewrite E in *.
Qed.
Lemma awf_block a : awf a → a_current a ≠ CoBootstrap → awf (a_block a).
Proof. intros W Hne. by apply awf_leave. Qed.
Lemma awf_preempt a : awf a → a_current a ≠ CoBootstrap → awf (a_preempt a).
Proof. intros W Hne. by apply awf_leave. Qed.

Lemma awf_retire a p f : awf a →
  (∀ k, a_st (f k) ≠ WT_CO_RUNNING ∧ a_base (f k) = a_base k ∧ a_size (f k) = a_size k) →
  p ≠ CoBootstrap → is_Some (a_co a p) → awf (descend p (a_upd p f (unqueue p a))).
Proof.
  intros W Hf Hne [k Hp]. destruct (Hf k) as (F1 & F2 & F3). unfold descend, a_upd.
  assert (a_co (unqueue p a) p = Some k) as -> by by destruct p.
  replace (a_put p (f k) (unqueue p a)) with ((a_put p (f k) a) <| a_runq := filter (λ x, x ≠ p) (a_runq a) |>)
    by by destruct p.
  simpl. rewrite a_put_current. eapply awf_change; [done|done|done|done| | | |].
  - by apply NoDup_filter, W.
  - intros x [Hx Hin]%list_elem_of_filter. by rewrite decide_False.
  - split; [done|]. destruct (decide (a_current a = p)); naive_solver.
  - intros r H1 H2. destruct (decide (a_current a = p)) as [->|]; naive_solver.
Qed.
Lemma awf_fault a p : awf a → p ≠ CoBootstrap → is_Some (a_co a p) → awf (a_fault p a).
Proof. intros. by apply awf_retire. Qed.
Lemma awf_reinit a p : awf a → p ≠ CoBootstrap → is_Some (a_co a p) → awf (a_reinit p a).
Proof. intros. by apply awf_retire. Qed.

Lemma awf_switch a p : awf a → a_current a = CoBootstrap → a_state a p = Some WT_CO_RUNNABLE → awf (a_switch p a).
Proof.
  intros W Hc Hs. unfold a_switch, a_state, a_upd in *. destruct (a_co a p) as [k|] eqn:Hp; [|done].
  simplify_eq/=. assert (a_co (unqueue p a) p = Some k) as -> by by destruct p.
  replace (a_put p (k <| a_st := WT_CO_RUNNING |>) (unqueue p a)) with
    ((a_put p (k <| a_st := WT_CO_RUNNING |>) a) <| a_runq := filter (λ x, x ≠ p) (a_runq a) |>) by by destruct p.
  eapply awf_change; [done|done|done|done| | | |].
  - by apply NoDup_filter, W.
  - intros x [Hx Hin]%list_elem_of_filter. by rewrite decide_False.
  - done.
  - intros r H1 H2. rewrite Hc. naive_solver.
Qed.

(** The new stack is apart from those in use. *)
Definition fresh_stack (a : asched) (k : aco) : Prop :=
  stack_ok k ∧ ∀ p k', a_co a p = Some k' → stacks_apart k k'.

Lemma a_co_create a k r :
  a_co (a_create k a) r = if decide (r = CoSlot (length (a_cos a))) then Some k else a_co a r.
Proof.
  destruct r as [|i]; [done|]. change (a_co (a_create k a) (CoSlot i)) with ((a_cos a ++ [k]) !! i).
  destruct (decide (CoSlot i = _)) as [[= ->]|Hne]; [by rewrite list_lookup_middle|].
  destruct (decide (i < length (a_cos a))%nat); [by rewrite lookup_app_l|].
  rewrite lookup_app_r by lia. simpl. rewrite (lookup_ge_None_2 (a_cos a)) by lia.
  apply lookup_ge_None_2. simpl. assert (i ≠ length (a_cos a)) by congruence. lia.
Qed.
Lemma not_created a : a_co a (CoSlot (length (a_cos a))) = None.
Proof. by apply lookup_ge_None_2. Qed.

Lemma awf_create a k : awf a → fresh_stack a k → a_st k ≠ WT_CO_RUNNING → awf (a_create k a).
Proof.
  intros [W1 W2 W3 W4 W5 W6 W7 W8] [Hk Hs] Hst. set (p := CoSlot (length (a_cos a))).
  pose proof (not_created a) as Hnew. fold p in Hnew.
  assert (∀ r kr, a_co a r = Some kr → a_co (a_create k a) r = Some kr) as Hold.
  { intros r kr Hr. rewrite a_co_create, decide_False; [done|]. intros ->. subst p. congruence. }
  assert (p ∉ a_runq a) as Hpq.
  { intros Hp. rewrite Forall_forall in W1. destruct (W1 p Hp) as (? & ? & ?). congruence. }
  constructor.
  - assert (Forall (λ q, ∃ k', a_co (a_create k a) q = Some k' ∧ a_st k' = WT_CO_RUNNABLE) (a_runq a)) as Hf.
    { eapply Forall_impl; [exact W1|]. intros q (k' & Hq & ?). exists k'. auto. }
    unfold a_create at 2. simpl. destruct (decide (a_st k = WT_CO_RUNNABLE)); [|done].
    apply Forall_app. split; [done|]. apply Forall_singleton. exists k. by rewrite a_co_create, decide_True.
  - simpl. destruct (decide (a_st k = WT_CO_RUNNABLE)); [|done]. apply NoDup_app.
    split_and!; [done|set_solver|apply NoDup_singleton].
  - intros r kr. rewrite a_co_create. destruct (decide (r = _)) as [->|Hne]; [|by apply W3].
    intros [= <-]. split; [done|]. intros E. simpl in E. rewrite E in W4. fold p in W4. rewrite Hnew in W4.
    by destruct W4 as [?|[? ?]].
  - destruct W4 as [?|[kc Hc]]; [by left|right]. exists kc. by apply Hold.
  - simpl. eapply Forall_impl; [exact W5|]. intros x [M1 M2 M3 M4]. constructor; [|done..].
    intros r Hr. destruct (M1 r Hr) as [kr Hkr]. exists kr. by apply Hold.
  - done.
  - intros r kr. rewrite a_co_create. destruct (decide (r = _)); [by intros [= <-]|by apply W7].
  - intros r r' kr kr' Hne. rewrite !a_co_create.
    destruct (decide (r = _)) as [->|], (decide (r' = _)) as [->|]; [done|..|by eapply W8].
    + intros [= <-] Hr'. by eapply Hs.
    + intros Hr [= <-]. destruct (Hs r kr Hr); unfold stacks_apart; lia.
Qed.

(** ** Mutexes *)

Lemma awf_put_mutex a m x x' :
  awf a → a_mutex a m = Some x → mutex_wf a x' →
  (∀ p, p ∈ a_waiters x' → p ∈ a_waiters x ∨ ∀ m' y, m' ≠ m → a_mutex a m' = Some y → p ∉ a_waiters y) →
  awf (a_put_mutex m x' a).
Proof.
  intros [W1 W2 W3 W4 W5 W6 W7 W8] Hm Hx' Hw. constructor; try done.
  - simpl. apply Forall_insert; [|by destruct Hx'; constructor]. eapply Forall_impl; [exact W5|].
    intros y [M1 M2 M3 M4]. by constructor.
  - simpl. assert (∀ j y p, m ≠ j → a_mutexes a !! j = Some y → p ∈ a_waiters y → p ∉ a_waiters x') as Hd.
    { intros j y p Hne Hj Hp Hp'. destruct (Hw p Hp') as [Hpx|Hpx]; [|by apply (Hpx j y)].
      apply Hne. by eapply W6. }
    intros j j' y y' p Hj Hj' Hp Hp'.
    apply list_lookup_insert_Some in Hj as [(<- & <- & _)|[Hne Hj]];
      apply list_lookup_insert_Some in Hj' as [(<- & <- & _)|[Hne' Hj']]; [done| | |by eapply W6].
    + exfalso. by eapply Hd.
    + exfalso. by eapply (Hd j y).
Qed.

Lemma mutex_at a m x : awf a → a_mutex a m = Some x → mutex_wf a x.
Proof. intros W Hm. pose proof (aw_mutexes a W) as H. rewrite Forall_forall in H. apply H. by eapply list_elem_of_lookup_2. Qed.

Lemma awf_pass_on a m x : awf a → a_mutex a m = Some x → awf (a_pass_on m x a).
Proof.
  intros W Hm. destruct (mutex_at a m x W Hm) as [M1 M2 M3 M4]. unfold a_pass_on.
  destruct (a_waiters x) as [|w ws] eqn:Hx.
  - apply (awf_put_mutex a m x); [done|done| |simpl; set_solver].
    constructor; simpl; [|done|done|constructor]. intros p [?|Hp]; [done|]. by apply not_elem_of_nil in Hp.
  - apply awf_wake, (awf_put_mutex a m x); [done|done| |intros p Hp; left; rewrite Hx; by right].
    apply NoDup_cons in M4 as [Hw M4]. constructor; simpl; [|naive_solver|done|done].
    intros p [[= <-]|Hp]; apply M1; right; set_solver.
Qed.
Lemma awf_release a m : awf a → awf (a_release m a).
Proof.
  intros W. unfold a_release. destruct (a_mutex a m) as [x|] eqn:Hm; [|done].
  destruct (decide _); [by apply awf_pass_on|done].
Qed.
Lemma awf_release_if_holder a m p : awf a → awf (a_release_if_holder m p a).
Proof.
  intros W. unfold a_release_if_holder. destruct (a_mutex a m) as [x|] eqn:Hm; [|done].
  destruct (decide _); [by apply awf_pass_on|done].
Qed.
Lemma awf_remove_waiter a m p : awf a → awf (a_remove_waiter m p a).
Proof.
  intros W. unfold a_remove_waiter. destruct (a_mutex a m) as [x|] eqn:Hm; [|done].
  destruct (mutex_at a m x W Hm) as [M1 M2 M3 M4]. apply (awf_put_mutex a m x); [done|done| |].
  - constructor; simpl.
    + intros q [?|[_ ?]%list_elem_of_filter]; apply M1; auto.
    + intros q Hq [_ Hin]%list_elem_of_filter. by eapply M2.
    + intros Hn. by rewrite (M3 Hn).
    + by apply NoDup_filter.
  - simpl. intros q [_ ?]%list_elem_of_filter. by left.
Qed.

(** [p] waits for no mutex but possibly [m]. *)
Definition may_queue (a : asched) (m : nat) (p : co_ref) : Prop :=
  is_Some (a_co a p) ∧ ∀ m' y, m' ≠ m → a_mutex a m' = Some y → p ∉ a_waiters y.

Lemma awf_queue_up a m p : awf a → may_queue a m p → awf (a_queue_up m p a).
Proof.
  intros W [Hp Hq]. unfold a_queue_up. destruct (a_mutex a m) as [x|] eqn:Hm; [|done].
  destruct (mutex_at a m x W Hm) as [M1 M2 M3 M4]. destruct (a_holder x) as [h|] eqn:Hh.
  - destruct (decide _) as [|Hn]; [done|]. apply (awf_put_mutex a m x); [done|done| |].
    + constructor; simpl.
      * rewrite Hh. intros q [?|[?| ->%list_elem_of_singleton]%elem_of_app]; [apply M1; auto..|done].
      * intros q Hq'. rewrite Hh in Hq'. simplify_eq. specialize (M2 q). set_solver.
      * by rewrite Hh.
      * apply NoDup_app. split_and!; [done|set_solver|apply NoDup_singleton].
    + simpl. intros q [?| ->%list_elem_of_singleton]%elem_of_app; auto.
  - rewrite (M3 eq_refl) in *. apply (awf_put_mutex a m x); [done|done| |simpl; rewrite M3 by done; set_solver].
    constructor; simpl; rewrite ?(M3 eq_refl); [|set_solver|done|constructor].
    intros q [[= <-]|?]; [done|set_solver].
Qed.
