(* ===== verification/SchedOps.v ===== *)
(** * The coroutine API implements its specification

    What the architecture port promises ([CoArchSpec]), and for every
    operation of [coroutine.c] that it terminates without undefined behaviour
    or panic and takes a represented state to the one its specification
    gives. *)

From Stdlib Require Import ZArith Lia.
From stdpp Require Import base list numbers option sets relations.
From S2P Require Import Prelude Buffers CState Frame Coroutine Mutex SchedRep SchedRun SchedSpec.

(** ** The architecture port *)

(** The port saved registers of [p]: only its [sp], its [exc_return] and its
    stack above the canary changed. *)
Definition arch_save (p : co_ref) (s s' : sched) : Prop :=
  ∃ c sp er mem, co_at p s = Some c ∧
    s' = (co_put p (c <| co_sp := sp |> <| co_exc_return := er |>) s) <| sc_memory := mem |> ∧
    ∀ x, ¬ (co_stack_base c + 4 ≤ x < co_stack_base c + co_stack_size c) → mem x = sc_memory s x.

(** What a coroutine does while it has the processor. *)
Inductive co_step (a : asched) : asched → Prop :=
| step_wake q : a_current a ≠ CoBootstrap → is_Some (a_co a q) → co_step a (a_wake q a)
| step_acquire m : a_current a ≠ CoBootstrap → may_queue a m (a_current a) → co_step a (a_queue_up m (a_current a) a)
| step_release m : a_current a ≠ CoBootstrap → co_step a (a_release m a)
| step_block : a_current a ≠ CoBootstrap → co_step a (a_block a)
| step_preempt : a_current a ≠ CoBootstrap → co_step a (a_preempt a)
| step_fault : a_current a ≠ CoBootstrap → co_step a (a_fault (a_current a) a).

(** A run of the current coroutine, until the bootstrap context has the
    processor again. *)
Definition slice (a a' : asched) : Prop := rtc co_step a a' ∧ a_current a' = CoBootstrap.

Lemma awf_step a a' : awf a → co_step a a' → awf a'.
Proof.
  intros W [q Hq|m ? Hm|m|H|H|H]; eauto using awf_wake, awf_queue_up, awf_release, awf_block, awf_preempt.
  destruct (current_running a W H) as (k & ? & _). apply awf_fault; eauto.
Qed.
Lemma awf_slice a a' : awf a → slice a a' → awf a'.
Proof. intros W [Hs _]. induction Hs; eauto using awf_step. Qed.

Class CoArchSpec `{CoArch} : Prop := {
  init_stack_ok s p c entry arg :
    co_at p s = Some c → p ≠ CoBootstrap → 0 < co_stack_base c → WT_CO_STACK_MIN ≤ co_stack_size c →
    co_stack_base c + co_stack_size c < 2 ^ 32 → co_stack_base c .& 7 = 0 →
    fwp (wt_co_arch_init_stack p entry arg) (λ _ s', arch_save p s s') s;
  leave_ok s p c :
    g_wt_co_current s = Some p → p ≠ CoBootstrap → co_at p s = Some c →
    fwp wt_co_arch_leave (λ _ s', ∃ s0, arch_save p s s0 ∧
      s' = s0 <| g_wt_co_pendsv_target := None |> <| g_wt_co_current := Some CoBootstrap |>) s;
  preempt_ok s p c :
    g_wt_co_current s = Some p → p ≠ CoBootstrap → co_at p s = Some c → g_wt_co_pendsv_target s = None →
    fwp wt_co_arch_request_preempt (λ _ s', ∃ s0, arch_save p s s0 ∧
      s' = s0 <| g_wt_co_pendsv_target := None |> <| g_wt_co_current := Some CoBootstrap |>) s;
  enter_ok s a p :
    rep s a → awf a → a_current a = p → p ≠ CoBootstrap →
    fwp (wt_co_arch_enter p) (λ _ s', ∃ a', rep s' a' ∧ slice a a') s;
}.

(** ** Updates of a represented state *)

Lemma load32_local mem mem' b : (∀ x, b ≤ x < b + 4 → mem' x = mem x) → load32 mem' b = load32 mem b.
Proof. intros Hm. unfold load32. by rewrite !Hm by lia. Qed.
Lemma store32_at mem b v i : 0 ≤ i < 4 → store32 mem b v (b + i) = default 0 (le32 v !! Z.to_nat i).
Proof.
  intros Hi. unfold store32, mem_write. rewrite (proj2 (Z.leb_le b (b + i))) by lia.
  change (Z.of_nat (length (le32 v))) with 4. rewrite (proj2 (Z.ltb_lt (b + i) (b + 4))) by lia. simpl andb.
  by replace (b + i - b) with i by lia.
Qed.
Lemma load32_store mem b : load32 (store32 mem b WT_CO_STACK_CANARY) b = WT_CO_STACK_CANARY.
Proof.
  unfold load32. replace (store32 mem b WT_CO_STACK_CANARY b) with (store32 mem b WT_CO_STACK_CANARY (b + 0))
    by (f_equal; lia). by rewrite !store32_at by lia.
Qed.
Lemma store32_other mem b v x : ¬ (b ≤ x < b + 4) → store32 mem b v x = mem x.
Proof.
  intros Hx. unfold store32, mem_write. change (Z.of_nat (length (le32 v))) with 4.
  destruct (Z.leb_spec b x); [|done]. destruct (Z.ltb_spec x (b + 4)); [lia|done].
Qed.

Lemma wait_next_put p c c' s q :
  co_at p s = Some c → wait_next (co_put p c' s) q = link_upd (wait_next s) p (co_next_wait c') q.
Proof.
  intros Hp. unfold wait_next, link_upd. destruct (decide (q = p)) as [->|Hne].
  - by erewrite co_at_put_eq.
  - by rewrite co_at_put_ne.
Qed.
Lemma wait_next_at p c s : co_at p s = Some c → wait_next s p = co_next_wait c.
Proof. intros Hp. unfold wait_next. by rewrite Hp. Qed.
Lemma link_upd_same {A} `{EqDecision A} (nxt : A → option A) p q : link_upd nxt p (nxt p) q = nxt q.
Proof. unfold link_upd. destruct (decide (q = p)); congruence. Qed.

Lemma base_put s a p c c' k k' :
  base_rep s a → co_at p s = Some c → a_co a p = Some k → co_rep (sc_memory s) c' k' →
  base_rep (co_put p c' s) (a_put p k' a).
Proof.
  intros [B1 B2 B3 B4 B5 B6 B7 B8] Hc Hk Hr. destruct p as [|i]; [done|]. simpl in *. constructor; simpl; try done.
  - by rewrite length_insert.
  - by rewrite length_insert.
  - by rewrite length_insert.
  - intros j kj Hj. destruct (decide (j = i)) as [->|Hne].
    + rewrite list_lookup_insert_eq in Hj by by eapply lookup_lt_Some. simplify_eq.
      exists c'. split; [|done]. apply list_lookup_insert_eq. by eapply lookup_lt_Some.
    + rewrite list_lookup_insert_ne in Hj by done. destruct (B4 j kj Hj) as (cj & ? & ?). exists cj.
      by rewrite list_lookup_insert_ne.
  - intros j cj Hj Hcj. rewrite length_insert in Hj. apply lookup_lt_Some in Hk.
    rewrite list_lookup_insert_ne in Hcj by lia. by eapply B5.
Qed.

Lemma rep_put s a p c c' k k' :
  rep s a → co_at p s = Some c → a_co a p = Some k →
  co_next_run c' = co_next_run c → co_next_wait c' = co_next_wait c → co_rep (sc_memory s) c' k' →
  rep (co_put p c' s) (a_put p k' a).
Proof.
  intros [Hb Hq Hm] Hc Hk Hn Hw Hr. constructor.
  - by eapply base_put.
  - rewrite a_put_runq. unfold run_rep. rewrite head_put, tail_put. eapply queue_ext; [|exact Hq]. intros x _.
    rewrite (run_next_put p c) by done. rewrite Hn, <-(run_next_at p c s Hc). apply link_upd_same.
  - rewrite a_put_mutexes. replace (sc_mutexes (co_put p c' s)) with (sc_mutexes s) by by destruct p.
    eapply mutexes_ext; [|exact Hm]. intros x. rewrite (wait_next_put p c) by done.
    rewrite Hw, <-(wait_next_at p c s Hc). apply link_upd_same.
Qed.

Lemma rep_current s a p : rep s a → rep (s <| g_wt_co_current := Some p |>) (a <| a_current := p |>).
Proof. intros [[B1 B2 B3 B4 B5 B6 B7 B8] Hq Hm]. by constructor. Qed.
Lemma rep_pendsv s a v : rep s a → rep (s <| g_wt_co_pendsv_target := v |>) a.
Proof. intros [[B1 B2 B3 B4 B5 B6 B7 B8] Hq Hm]. by constructor. Qed.

(** The canaries are intact. *)
Lemma rep_memory s a mem :
  rep s a → (∀ p k, a_co a p = Some k → load32 mem (a_base k) = WT_CO_STACK_CANARY) →
  rep (s <| sc_memory := mem |>) a.
Proof.
  intros [[B1 B2 B3 B4 B5 B6 B7 B8] Hq Hm] Hmem. constructor; [|done|done]. constructor; try done.
  intros i k Hi. destruct (B4 i k Hi) as (c & Hc & [R1 R2 R3 R4 R5]). exists c. split; [done|].
  constructor; try done. by apply (Hmem (CoSlot i) k).
Qed.
Lemma rep_canary s a p k : rep s a → a_co a p = Some k → load32 (sc_memory s) (a_base k) = WT_CO_STACK_CANARY.
Proof. intros Hr Hk. destruct (live_slot s a p k (rp_base s a Hr) Hk) as (c & _ & [] & _). done. Qed.

(** The part of [awf] about the stacks. *)
Definition stacks_wf (a : asched) : Prop :=
  (∀ p k, a_co a p = Some k → stack_ok k) ∧
  (∀ p q k k', p ≠ q → a_co a p = Some k → a_co a q = Some k' → stacks_apart k k').
Lemma awf_stacks a : awf a → stacks_wf a.
Proof. intros W. split; apply W. Qed.
Lemma put_stacks a p k k' : a_co a p = Some k → a_base k' = a_base k → a_size k' = a_size k →
  stacks_wf a → stacks_wf (a_put p k' a).
Proof.
  intros Hk Hb Hs [S1 S2].
  assert (∀ q kq, a_co (a_put p k' a) q = Some kq → ∃ k0, a_co a q = Some k0 ∧ a_base kq = a_base k0 ∧ a_size kq = a_size k0) as Hinv.
  { intros q kq. destruct (decide (p = q)) as [<-|Hne].
    - erewrite a_co_put_eq by done. intros [= <-]. eauto.
    - rewrite a_co_put_ne by done. eauto. }
  split.
  - intros q kq Hq. destruct (Hinv q kq Hq) as (k0 & H0 & E1 & E2). unfold stack_ok. rewrite E1, E2. by apply (S1 q).
  - intros q q' kq kq' Hne Hq Hq'. destruct (Hinv q kq Hq) as (k0 & H0 & E1 & E2).
    destruct (Hinv q' kq' Hq') as (k1 & H1 & E3 & E4). unfold stacks_apart. rewrite E1, E2, E3, E4. by eapply S2.
Qed.

Lemma rep_save s s' a p k : rep s a → stacks_wf a → a_co a p = Some k → arch_save p s s' → rep s' a.
Proof.
  intros Hr [S1 S2] Hk (c & sp & er & mem & Hc & -> & Hmem). destruct (live_slot s a p k (rp_base _ _ Hr) Hk) as (c' & ? & Hcr & _).
  simplify_eq. assert (a_put p k a = a) as Ea.
  { destruct p as [|i]; [done|]. simpl in *. destruct a. unfold set_field, set_a_cos. simpl in *. f_equal. by apply list_insert_id. }
  destruct Hcr as [R1 R2 R3 R4 R5].
  apply rep_memory.
  - rewrite <-Ea. by eapply rep_put.
  - intros q kq Hq. rewrite (load32_local (sc_memory s)); [by eapply rep_canary|]. intros x Hx. apply Hmem.
    rewrite R3, R4. destruct (decide (q = p)) as [->|Hne]; [simplify_eq; lia|].
    destruct (S1 _ _ Hk) as (_ & ? & _), (S1 _ _ Hq) as (_ & ? & _).
    unfold WT_CO_STACK_MIN in *. pose proof (S2 q p kq k Hne Hq Hk). unfold stacks_apart in *. lia.
Qed.

(** Planting the canary of one stack. *)
Lemma rep_plant s a p k : rep s a → stacks_wf a → a_co a p = Some k →
  rep (s <| sc_memory := store32 (sc_memory s) (a_base k) WT_CO_STACK_CANARY |>) a.
Proof.
  intros Hr [S1 S2] Hk. apply rep_memory; [done|]. intros q kq Hq.
  destruct (decide (q = p)) as [->|Hne]; [simplify_eq; apply load32_store|].
  rewrite (load32_local (sc_memory s)); [by eapply rep_canary|]. intros x Hx. apply store32_other.
  destruct (S1 _ _ Hk) as (_ & ? & _), (S1 _ _ Hq) as (_ & ? & _).
  unfold WT_CO_STACK_MIN in *. pose proof (S2 q p kq k Hne Hq Hk). unfold stacks_apart in *. lia.
Qed.

Lemma mutexes_ext_waits s s' a l : (∀ p, waits a p → wait_next s' p = wait_next s p) →
  Forall2 (mutex_rep s) l (a_mutexes a) → Forall2 (mutex_rep s') l (a_mutexes a).
Proof.
  intros Hw HF. apply Forall2_same_length_lookup in HF as [Hlen HF]. apply Forall2_same_length_lookup.
  split; [done|]. intros m x y Hx Hy. destruct (HF m x y Hx Hy) as [Hh Hq]. split; [done|].
  eapply queue_ext; [|exact Hq]. intros z Hz. apply Hw. exists m, y. done.
Qed.

(** The links of a coroutine that is in no queue are free. *)
Lemma rep_put_out s a p c c' k k' :
  rep s a → co_at p s = Some c → a_co a p = Some k → p ∉ a_runq a → ¬ waits a p → co_rep (sc_memory s) c' k' →
  rep (co_put p c' s) (a_put p k' a).
Proof.
  intros [Hb Hq Hm] Hc Hk Hn Hw Hr. constructor.
  - by eapply base_put.
  - rewrite a_put_runq. unfold run_rep. rewrite head_put, tail_put. eapply queue_ext; [|exact Hq]. intros x Hx.
    rewrite (run_next_put p c) by done. apply link_upd_ne. by intros ->.
  - rewrite a_put_mutexes. replace (sc_mutexes (co_put p c' s)) with (sc_mutexes s) by by destruct p.
    eapply mutexes_ext_waits; [|exact Hm]. intros z Hz.
    rewrite (wait_next_put p c) by done. apply link_upd_ne. by intros ->.
Qed.

(** ** Operations *)

Definition runq_live (a : asched) : Prop := Forall (λ p, is_Some (a_co a p)) (a_runq a).
Lemma awf_live a : awf a → runq_live a.
Proof. intros W. eapply Forall_impl; [apply W|]. intros p (k & ? & _). eauto. Qed.
Lemma put_live a p k k' : a_co a p = Some k → runq_live a → runq_live (a_put p k' a).
Proof.
  intros Hp Hl. unfold runq_live. rewrite a_put_runq. eapply Forall_impl; [exact Hl|]. intros q. by eapply a_co_put.
Qed.
Lemma runq_slots s a : rep s a → runq_live a → slots s (a_runq a).
Proof. intros Hr Hl. apply (live_slots s a); [apply Hr|done]. Qed.

(** The guard of the operations that take a coroutine. *)
Lemma guard_ok p : is_valid_co_pointer p = true → p ≠ CoBootstrap →
  negb (is_valid_co_pointer p) || bool_decide (p = CoBootstrap) = false.
Proof. intros -> Hne. by rewrite bool_decide_false. Qed.

Lemma canary_refines s a p : rep s a → p = CoBootstrap ∨ is_Some (a_co a p) →
  fwp (check_canary (Some p)) (λ _ s', s' = s) s.
Proof.
  intros Hr Hp. apply fwp_fn, wp_bind. destruct Hp as [->|[k Hk]].
  - eapply wp_get_co; [done|]. apply wp_bind, wp_when; intros E; [by apply wp_early|].
    by rewrite (br_bootstrap s a (rp_base s a Hr)) in E.
  - destruct (live_slot s a p k (rp_base s a Hr) Hk) as (c & Hc & [R1 R2 R3 R4 R5] & _).
    eapply wp_get_co; [done|]. apply wp_bind, wp_when; intros E; [by apply wp_early|].
    apply wp_bind, wp_gets, wp_when; [|done]. rewrite R3, R5. by rewrite Z.eqb_refl.
Qed.

Lemma enqueue_refines s a p k : rep s a → runq_live a → p ∉ a_runq a → a_co a p = Some k →
  fwp (runqueue_enqueue p) (λ _ s', rep s' (a <| a_runq := a_runq a ++ [p] |>)) s.
Proof.
  intros Hr W Hq Hk. destruct (live_slot s a p k (rp_base s a Hr) Hk) as (c & Hc & _ & Hv & Hne).
  eapply fwp_mono; [apply (runq_enqueue_spec s (a_runq a) p c); [apply Hr|by apply runq_slots|done..]|].
  intros [] s' [H1 H2]. by eapply rep_run.
Qed.

Lemma unlink_refines {R} s a p (E : R → sched → Prop) : rep s a → runq_live a →
  wp (unlink_walk (S WT_CO_MAX) None p) E (λ _ s', rep s' (unqueue p a)) s.
Proof.
  intros Hr W. eapply wp_mono; [apply (runq_unlink_spec s (a_runq a)); [apply Hr|by apply runq_slots]|done|].
  intros [] s' [H1 H2]. by eapply rep_run.
Qed.

Lemma descend_refines {R} s a p (E : R → sched → Prop) : rep s a →
  wp (cur ← gets g_wt_co_current;
      when (bool_decide (cur = Some p)) (modify (λ s, s <| g_wt_co_current := Some CoBootstrap |>)))
    E (λ _ s', rep s' (descend p a)) s.
Proof.
  intros Hr. apply wp_bind, wp_gets. unfold descend.
  rewrite (br_current s a (rp_base s a Hr)). apply wp_when; intros Eb.
  - apply bool_decide_eq_true in Eb. apply wp_modify. rewrite decide_True by congruence. by apply rep_current.
  - apply bool_decide_eq_false in Eb. rewrite decide_False by congruence. by destruct a.
Qed.

Section api.
Context `{CoArchSpec}.

Lemma wake_refines s a p : rep s a → awf a → is_Some (a_co a p) →
  fwp (wt_co_wake (Some p)) (λ _ s', rep s' (a_wake p a)) s.
Proof.
  intros Hr W [k Hk]. destruct (live_slot s a p k (rp_base s a Hr) Hk) as (c & Hc & Hcr & Hv & Hne).
  pose proof Hcr as [R1 R2 R3 R4 R5]. unfold a_wake, a_state. rewrite Hk. simpl.
  apply fwp_fn, wp_bind, wp_when; rewrite guard_ok by done; [done|]. intros _.
  apply wp_bind. eapply wp_get_co; [done|]. rewrite R1.
  assert (wp (R := unit) (mod_co p (λ c, c <| co_wake_pending := true |>)) (λ _ s', rep s' (a_put p (k <| a_latch := true |>) a))
    (λ _ s', rep s' (a_put p (k <| a_latch := true |>) a)) s) as Hl.
  { eapply wp_mod_co; [done|]. eapply rep_put; [done..|]. by constructor. }
  destruct (a_st k) eqn:Hst; try erewrite a_upd_at by done; [exact Hl|exact Hl| |by apply wp_ret].
  apply wp_bind. eapply wp_mod_co; [done|]. apply wp_bind. eapply wp_mod_co; [by eapply co_at_put_eq|].
  set (s1 := co_put p _ (co_put p _ s)). set (k' := k <| a_st := WT_CO_RUNNABLE |> <| a_latch := false |>).
  assert (rep s1 (a_put p k' a)) as Hr1.
  { assert (s1 = co_put p (c <| co_wake_pending := false |> <| co_state := WT_CO_RUNNABLE |>) s) as ->.
    { subst s1. destruct p as [|i]; [done|]. simpl. unfold set_field, set_g_co_table. simpl.
      f_equal. apply list_insert_insert_eq. }
    eapply rep_put; [done..|]. by constructor. }
  assert (p ∉ a_runq a) as Hp by (eapply runq_notin; [done|done|by rewrite Hst]).
  apply wp_call. rewrite <-(a_put_runq p k' a). eapply enqueue_refines; [done| | |by eapply a_co_put_eq].
  - by eapply put_live, awf_live.
  - by rewrite a_put_runq.
Qed.

Lemma co_put_put p c c' s : co_put p c (co_put p c' s) = co_put p c s.
Proof.
  destruct p as [|i]; [done|]. simpl. unfold set_field, set_g_co_table. simpl. f_equal. apply list_insert_insert_eq.
Qed.

(** The coroutine that gives up the processor, and the switch to the
    bootstrap context. *)
Lemma leave_refines s a p k s0 :
  rep s a → stacks_wf a → a_co a p = Some k → arch_save p s s0 →
  rep (s0 <| g_wt_co_pendsv_target := None |> <| g_wt_co_current := Some CoBootstrap |>)
    (a <| a_current := CoBootstrap |>).
Proof. intros Hr Hs Hk Ha. apply rep_current, rep_pendsv. by eapply rep_save. Qed.

Lemma block_refines s a : rep s a → awf a → a_current a ≠ CoBootstrap →
  fwp wt_co_block (λ _ s', rep s' (a_block a)) s.
Proof.
  intros Hr W Hne. destruct (current_running a W Hne) as (k & Hk & _).
  destruct (live_slot s a _ k (rp_base s a Hr) Hk) as (c & Hc & [R1 R2 R3 R4 R5] & _).
  apply fwp_fn, wp_bind, wp_gets. rewrite (br_current s a (rp_base s a Hr)).
  apply wp_bind. eapply wp_defined; [done|]. apply wp_bind, wp_when; rewrite bool_decide_false by done; [done|].
  intros _. apply wp_bind. eapply wp_mod_co; [done|]. unfold a_block. erewrite a_upd_at by done.
  set (k' := k <| a_st := WT_CO_BLOCKED |>). set (c' := c <| co_state := WT_CO_BLOCKED |>).
  assert (rep (co_put (a_current a) c' s) (a_put (a_current a) k' a)) as Hr1.
  { eapply rep_put; [done..|]. by constructor. }
  apply wp_call. eapply fwp_mono; [eapply (leave_ok _ (a_current a) c')|].
  - rewrite (br_current _ _ (rp_base _ _ Hr1)). by rewrite a_put_current.
  - done.
  - by eapply co_at_put_eq.
  - intros [] s' (s0 & Hsv & ->). eapply leave_refines; [done| |by eapply a_co_put_eq|done].
    by eapply put_stacks, awf_stacks.
Qed.

Lemma preempt_refines s a : rep s a → awf a →
  fwp wt_co_request_preempt (λ r s', if decide (a_current a = CoBootstrap) then r = false ∧ s' = s
                                    else r = true ∧ rep s' (a_preempt a)) s.
Proof.
  intros Hr W. apply fwp_fn, wp_bind, wp_gets. rewrite (br_current s a (rp_base s a Hr)).
  destruct (decide (a_current a = CoBootstrap)) as [E|Hne].
  { apply wp_bind, wp_when; rewrite bool_decide_true by done; [|done]. by intros _. }
  destruct (current_running a W Hne) as (k & Hk & Hrun).
  destruct (live_slot s a _ k (rp_base s a Hr) Hk) as (c & Hc & [R1 R2 R3 R4 R5] & _).
  apply wp_bind, wp_when; rewrite bool_decide_false by done; [done|]. intros _.
  apply wp_bind. eapply wp_get_co; [done|]. apply wp_bind, wp_when; rewrite bool_decide_true by congruence; [done|].
  intros _. apply wp_bind. eapply wp_mod_co; [done|]. apply wp_bind, wp_modify, wp_bind. unfold a_preempt.
  erewrite a_upd_at by done.
  set (k' := k <| a_st := WT_CO_RUNNABLE |>). set (c' := c <| co_state := WT_CO_RUNNABLE |>).
  set (s1 := (co_put (a_current a) c' s) <| g_wt_co_pendsv_target := None |>).
  assert (rep s1 (a_put (a_current a) k' a)) as Hr1.
  { apply rep_pendsv. eapply rep_put; [done..|]. by constructor. }
  apply wp_call. eapply fwp_mono; [eapply (preempt_ok s1 (a_current a) c')|].
  - rewrite (br_current _ _ (rp_base _ _ Hr1)). by rewrite a_put_current.
  - done.
  - pose proof (co_at_put_eq (a_current a) c c' s Hc) as Hx. by destruct (a_current a).
  - done.
  - intros [] s' (s0 & Hsv & ->). apply wp_ret. split; [done|].
    eapply leave_refines; [done| |by eapply a_co_put_eq|done]. by eapply put_stacks, awf_stacks.
Qed.

Lemma co_at_memory p m s : co_at p (s <| sc_memory := m |>) = co_at p s.
Proof. by destruct p. Qed.
Lemma co_unqueue p q a : a_co (unqueue p a) q = a_co a q.
Proof. by destruct q. Qed.
Lemma unqueue_live p a : runq_live a → runq_live (unqueue p a).
Proof.
  intros Hl. apply Forall_forall. intros q [_ Hq]%list_elem_of_filter. rewrite co_unqueue.
  unfold runq_live in Hl. rewrite Forall_forall in Hl. auto.
Qed.

Lemma mark_faulted_refines s a p : rep s a → awf a → is_Some (a_co a p) →
  fwp (wt_co_mark_faulted (Some p)) (λ _ s', rep s' (a_fault p a)) s.
Proof.
  intros Hr W [k Hk]. apply fwp_fn, wp_bind. eapply wp_mono; [by eapply unlink_refines, awf_live|exact (λ _ _ H, H)|].
  intros [] s1 Hr1. assert (a_co (unqueue p a) p = Some k) as Hk1 by by rewrite co_unqueue.
  destruct (live_slot s1 _ p k (rp_base _ _ Hr1) Hk1) as (c & Hc & [R1 R2 R3 R4 R5] & _).
  apply wp_bind. eapply wp_mod_co; [done|]. unfold a_fault. erewrite a_upd_at by done.
  apply descend_refines. eapply rep_put; [done..|]. by constructor.
Qed.

(** [s] represents [a] but for the contents of the stack [k]. *)
Definition rep_but (k : aco) (mem : Z → Z) (s : sched) (a : asched) : Prop :=
  rep (s <| sc_memory := mem |>) a ∧
  ∀ x, ¬ (a_base k ≤ x < a_base k + a_size k) → sc_memory s x = mem x.

Lemma rep_but_self k s a : rep s a → rep_but k (sc_memory s) s a.
Proof. intros Hr. split; [by destruct s|done]. Qed.
Lemma rep_but_unlink {R} k mem s a p (E : R → sched → Prop) : rep_but k mem s a → runq_live a →
  wp (unlink_walk (S WT_CO_MAX) None p) E (λ _ s', rep_but k mem s' (unqueue p a) ∧ sc_memory s' = sc_memory s) s.
Proof.
  intros [Hr Hm] W. eapply wp_mono; [apply (runq_unlink_spec s (a_runq a))|done|].
  - exact (rp_run _ _ Hr).
  - exact (runq_slots _ a Hr W).
  - intros [] s' [H1 H2]. pose proof H2 as [= E1 E2 E3 E4 E5 E6 E7 E8]. split; [|done]. split; [|by rewrite E6].
    eapply (rep_run (s <| sc_memory := mem |>)); [done| |done]. unfold erase_run. simpl.
    cbv [set_field set_g_co_table set_g_runqueue_head set_g_runqueue_tail set_sc_memory]. simpl. by f_equal.
Qed.
Lemma rep_but_descend {R} k mem s a p (E : R → sched → Prop) : rep_but k mem s a →
  wp (cur ← gets g_wt_co_current;
      when (bool_decide (cur = Some p)) (modify (λ s, s <| g_wt_co_current := Some CoBootstrap |>)))
    E (λ _ s', rep_but k mem s' (descend p a) ∧ sc_memory s' = sc_memory s) s.
Proof.
  intros [Hr Hm]. apply wp_bind, wp_gets. unfold descend. pose proof (br_current _ _ (rp_base _ _ Hr)) as Hc. simpl in Hc.
  rewrite Hc. apply wp_when; intros Eb.
  - apply bool_decide_eq_true in Eb. apply wp_modify. rewrite decide_True by congruence.
    split; [|done]. split; [|done]. exact (rep_current (s <| sc_memory := mem |>) a CoBootstrap Hr).
  - apply bool_decide_eq_false in Eb. rewrite decide_False by congruence. split; [|done]. split; [|done]. by destruct a.
Qed.

(** A restart needs nothing of the old stack and writes nowhere else. *)
Lemma reinit_scrubbed s mem a p k entry arg :
  rep_but k mem s a → awf a → a_co a p = Some k → ¬ waits a p → entry ≠ 0 →
  fwp (wt_co_reinit (Some p) entry arg) (λ r s', r = 0 ∧ rep s' (a_reinit p a) ∧
    ∀ x, ¬ (a_base k ≤ x < a_base k + a_size k) → sc_memory s' x = sc_memory s x) s.
Proof.
  intros Hb W Hk Hw He. destruct (live_slot _ a p k (rp_base _ a (proj1 Hb)) Hk) as (c & Hc & [R1 R2 R3 R4 R5] & Hv & Hne).
  rewrite co_at_memory in Hc. destruct (aw_stack a W p k Hk) as (St1 & St2 & St3 & St4).
  apply fwp_fn, wp_bind, wp_when; rewrite (proj2 (Z.eqb_neq entry 0)) by done; [done|]. intros _.
  apply wp_bind, wp_when; rewrite guard_ok by done; [done|]. intros _. apply wp_bind. eapply wp_get_co; [done|].
  apply wp_bind, wp_when; rewrite R3, (proj2 (Z.eqb_neq _ 0)) by lia; [done|]. intros _.
  apply wp_bind, wp_call, fwp_fn. eapply wp_mono; [by eapply rep_but_unlink, awf_live|exact (λ _ _ H, H)|]. intros [] s1 [Hb1 M1].
  apply wp_assoc, wp_bind. eapply wp_mono; [by apply rep_but_descend|exact (λ _ _ H, H)|]. intros [] s2 [[Hr2 Hm2] M2].
  set (a2 := descend p (unqueue p a)) in *.
  assert (a_co a2 p = Some k) as Hk2 by by (rewrite <-Hk; destruct p).
  destruct (live_slot _ _ p k (rp_base _ _ Hr2) Hk2) as (c2 & Hc2 & [Q1 Q2 Q3 Q4 Q5] & _). rewrite co_at_memory in Hc2.
  apply wp_bind. eapply wp_mod_co; [done|]. set (c3 := c2 <| co_sp := 0 |> <| co_entry := entry |> <| co_arg := arg |>
    <| co_state := WT_CO_BLOCKED |> <| co_next_run := None |> <| co_next_wait := None |> <| co_wake_pending := false |>).
  set (k3 := k <| a_st := WT_CO_BLOCKED |> <| a_latch := false |>). set (a3 := a_put p k3 a2).
  assert (rep (co_put p c3 (s2 <| sc_memory := mem |>)) a3) as Hr3.
  { eapply rep_put_out; [done|by rewrite co_at_memory|done| | |by constructor].
    - intros [? _]%list_elem_of_filter. done.
    - done. }
  assert (stacks_wf a3) as Hs3.
  { eapply put_stacks; [done..|]. destruct (awf_stacks a W) as [S1 S2]. split.
    - intros q kq Hq. apply (S1 q). by destruct q.
    - intros q q' kq kq' Hqq Hq Hq'. by apply (S2 q q'); [done|destruct q|destruct q']. }
  assert (co_at p (co_put p c3 s2) = Some c3) as Hc3 by by eapply co_at_put_eq.
  assert (a_co a3 p = Some k3) as Hk3 by by eapply a_co_put_eq.
  apply wp_bind. eapply wp_get_co; [done|]. apply wp_bind, wp_modify, wp_bind, wp_call.
  replace (co_stack_base c3) with (a_base k3) by done. set (s4 := _ <| sc_memory := _ |>).
  assert (rep s4 a3) as Hr4.
  { pose proof (rep_plant _ _ p k3 Hr3 Hs3 Hk3) as Hp. destruct Hs3 as [S1 S2].
    replace s4 with ((co_put p c3 (s2 <| sc_memory := mem |>)) <| sc_memory := sc_memory s4 |>) by by destruct p.
    apply rep_memory; [done|]. intros q kq Hq.
    destruct (decide (q = p)) as [->|Hqp]; [simplify_eq; apply load32_store|].
    rewrite (load32_local mem); [pose proof (rep_canary _ _ q kq Hr3 Hq); by destruct p|].
    intros x Hx. destruct (S1 _ _ Hk3) as (_ & ? & _), (S1 _ _ Hq) as (_ & ? & _).
    pose proof (S2 q p kq k3 Hqp Hq Hk3). unfold stacks_apart, WT_CO_STACK_MIN in *.
    change (a_base k3) with (a_base k) in *. change (a_size k3) with (a_size k) in *. simpl.
    rewrite store32_other by lia. replace (sc_memory (co_put p c3 s2)) with (sc_memory s2) by by destruct p. apply Hm2. lia. }
  eapply fwp_mono; [apply (init_stack_ok s4 p c3)|]; try done; try (simpl; rewrite ?Q3, ?Q4; done).
  intros [] s5 Hsave. apply wp_ret. split; [done|]. split.
  - unfold a_reinit. replace (descend p (a_upd p _ (unqueue p a))) with a3; [by eapply rep_save|].
    unfold a_upd. rewrite co_unqueue, Hk. unfold a3, a2, descend. by destruct p.
  - intros x Hx. destruct Hsave as (c5 & sp & er & mem5 & Hc5 & -> & Hmem5). simpl.
    assert (c5 = c3) as -> by (unfold s4 in Hc5; rewrite co_at_memory in Hc5; congruence).
    simpl in Hmem5. rewrite Q3, Q4 in Hmem5. unfold WT_CO_STACK_MIN in St2. rewrite Hmem5 by lia. unfold s4. simpl.
    change (a_base k3) with (a_base k). rewrite store32_other by lia.
    destruct p; simpl; congruence.
Qed.
Lemma reinit_refines s a p entry arg :
  rep s a → awf a → is_Some (a_co a p) → ¬ waits a p → entry ≠ 0 →
  fwp (wt_co_reinit (Some p) entry arg) (λ r s', r = 0 ∧ rep s' (a_reinit p a)) s.
Proof.
  intros Hr W [k Hk] Hw He. eapply fwp_mono; [eapply reinit_scrubbed; [by apply (rep_but_self k)|done..]|].
  by intros r s' (-> & ? & _).
Qed.
End api.
