(* ===== verification/SchedLife.v ===== *)
(** * Creating, dispatching and running coroutines

    [wt_co_init], [wt_co_create*], [wt_co_run] and [wt_co_tick] refine the
    specification: the scheduler takes coroutines from the head of the run
    queue and gives each one slice. *)

From Stdlib Require Import ZArith Lia.
From stdpp Require Import base list numbers option sets relations.
From S2P Require Import Prelude Buffers CState Frame Coroutine Mutex SchedRep SchedRun SchedSpec SchedOps.

(** ** Start-up *)

Definition a_init (mutexes : list amutex) : asched :=
  {| a_cos := []; a_runq := []; a_current := CoBootstrap; a_mutexes := mutexes |}.
Definition a_free : amutex := {| a_holder := None; a_waiters := [] |}.

(** The state the C runtime leaves: the table is zeroed and the mutexes are
    free. *)
Record boot_state (s : sched) : Prop := {
  bs_table : length (g_co_table s) = WT_CO_MAX;
  bs_latch : Forall (λ c, co_wake_pending c = false) (g_co_table s);
  bs_mutexes : Forall (λ x, mx_holder x = None ∧ mx_wait_head x = None ∧ mx_wait_tail x = None) (sc_mutexes s);
  bs_alive : sc_panicked s = false;
}.

Lemma awf_init n : awf (a_init (replicate n a_free)).
Proof.
  constructor; simpl; try by constructor.
  - by intros [].
  - apply Forall_replicate. constructor; simpl; [intros p [?|?%not_elem_of_nil]|..]; try done. constructor.
  - intros m m' x x' p [-> _]%lookup_replicate _ ?%not_elem_of_nil. done.
  - by intros [].
  - by intros [].
Qed.

Lemma init_refines s : boot_state s →
  fwp wt_co_init (λ _ s', rep s' (a_init (replicate (length (sc_mutexes s)) a_free))) s.
Proof.
  intros [B1 B2 B3 B4]. apply fwp_fn. wp_steps. constructor.
  - constructor; simpl; try done.
    + by rewrite length_fmap.
    + unfold WT_CO_MAX. lia.
    + intros i c _ Hi. rewrite list_lookup_fmap in Hi. destruct (g_co_table s !! i) as [c0|] eqn:Hc; [|done].
      simplify_eq/=. rewrite Forall_lookup in B2. by eapply B2.
  - apply queue_nil.
  - simpl. apply Forall2_same_length_lookup. rewrite length_replicate. split; [done|].
    intros m x y Hx [-> _]%lookup_replicate. rewrite Forall_lookup in B3. destruct (B3 m x Hx) as (H1 & H2 & H3).
    split; [done|]. rewrite H2, H3. apply queue_nil.
Qed.

Section api.
Context `{CoArchSpec}.

(** ** Creation *)

(** [count] is [g_co_count]: the coroutines and the bootstrap context. *)
Definition create_accepts (count : nat) (stack stack_size entry min_stack : Z) (priv : bool) : bool :=
  negb (entry =? 0) && negb (stack =? 0) && (min_stack <=? stack_size) && (WT_CO_STACK_MIN <=? stack_size) &&
  negb (has_any stack 7) && (count <? WT_CO_MAX)%nat &&
  (negb priv || wt_platform_priv_stack_ok stack stack_size).

Definition created (st : wt_co_state_t) (stack stack_size : Z) : aco :=
  {| a_st := st; a_latch := false; a_base := stack; a_size := stack_size |}.

(** The table entry is filled and its canary planted. *)
Lemma rep_add s a k c c' :
  rep s a → awf a → fresh_stack a k → (S (length (a_cos a)) < WT_CO_MAX)%nat →
  g_co_table s !! length (a_cos a) = Some c → co_state c' = a_st k → a_latch k = false →
  co_wake_pending c' = false → co_stack_base c' = a_base k → co_stack_size c' = a_size k →
  rep (s <| g_co_count := S (S (length (a_cos a))) |> <| g_co_table := <[length (a_cos a) := c']> (g_co_table s) |>
         <| sc_memory := store32 (sc_memory s) (a_base k) WT_CO_STACK_CANARY |>)
      (a <| a_cos := a_cos a ++ [k] |>).
Proof.
  intros [[B1 B2 B3 B4 B5 B6 B7 B8] Hq Hm] W [Hk Hfr] Hroom Hc E1 E2 E3 E4 E5. set (n := length (a_cos a)) in *.
  assert (∀ p, is_Some (a_co a p) → p ≠ CoSlot n) as Hold.
  { intros p Hp ->. unfold n in Hp. rewrite not_created in Hp. by destruct Hp. }
  constructor.
  - constructor; simpl; rewrite ?length_insert, ?length_app; simpl; try done; try lia.
    + intros i ki Hi. destruct (decide (i = n)) as [->|Hne].
      * unfold n in Hi at 1. rewrite list_lookup_middle in Hi by done. simplify_eq. exists c'.
        rewrite list_lookup_insert_eq by by eapply lookup_lt_Some. split; [done|].
        constructor; [done|congruence|done|done|apply load32_store].
      * assert (i < n)%nat by (apply lookup_lt_Some in Hi; rewrite length_app in Hi; simpl in Hi; fold n in Hi; lia).
        rewrite lookup_app_l in Hi by done. destruct (B4 i ki Hi) as (ci & Hci & [R1 R2 R3 R4 R5]). exists ci.
        rewrite list_lookup_insert_ne by done. split; [done|]. constructor; try done.
        rewrite (load32_local (sc_memory s)); [done|]. intros x Hx. apply store32_other.
        pose proof (Hfr (CoSlot i) ki Hi). destruct (aw_stack a W (CoSlot i) ki Hi) as (_ & ? & _).
        destruct Hk as (_ & ? & _). unfold stacks_apart, WT_CO_STACK_MIN in *. lia.
    + intros i ci Hi Hci. fold n in Hi. rewrite list_lookup_insert_ne in Hci by lia. apply (B5 i); [lia|done].
  - simpl. unfold run_rep. simpl. eapply queue_ext; [|exact Hq]. intros x Hx.
    assert (x ≠ CoSlot n). { apply Hold. pose proof (awf_live a W) as Hl. unfold runq_live in Hl.
      rewrite Forall_forall in Hl. auto. }
    etrans; [by apply (run_next_put (CoSlot n) c c' s)|]. by apply link_upd_ne.
  - simpl. eapply (mutexes_ext_waits s); [|exact Hm]. intros x (m & y & Hy & Hx).
    assert (x ≠ CoSlot n). { apply Hold. destruct (mutex_at a m y W Hy) as [M1 _ _ _]. auto. }
    etrans; [by apply (wait_next_put (CoSlot n) c c' s)|]. by apply link_upd_ne.
Qed.

Lemma create_refines s a stack stack_size entry arg st min_stack priv :
  rep s a → awf a → fresh_stack a (created st stack stack_size) → st ≠ WT_CO_RUNNING →
  fwp (wt_co_create_common stack stack_size entry arg st min_stack priv)
    (λ r s', if create_accepts (g_co_count s) stack stack_size entry min_stack priv
             then r = Some (CoSlot (length (a_cos a))) ∧ rep s' (a_create (created st stack stack_size) a)
             else r = None ∧ s' = s) s.
Proof.
  intros Hr W Hfr Hst. unfold create_accepts. set (n := length (a_cos a)). set (k := created st stack stack_size) in *.
  pose proof (br_count s a (rp_base s a Hr)) as Hcount. fold n in Hcount.
  apply fwp_fn. apply wp_bind, wp_when; intros ->; [by apply wp_early|]. apply wp_bind, wp_when; intros ->; [by apply wp_early|].
  apply wp_bind, wp_when; intros E1.
  { apply wp_early. destruct (Z.ltb_spec stack_size min_stack), (Z.ltb_spec stack_size WT_CO_STACK_MIN); try done;
      rewrite ?(proj2 (Z.leb_gt min_stack _)), ?(proj2 (Z.leb_gt WT_CO_STACK_MIN _)), ?andb_false_r by lia; done. }
  bool_hyps. rewrite !(proj2 (Z.leb_le _ stack_size)) by lia.
  apply wp_bind, wp_when; intros ->; [by apply wp_early|]. apply wp_bind, wp_gets, wp_bind, wp_when; intros E2.
  { apply wp_early. apply Nat.leb_le in E2. by rewrite (proj2 (Nat.ltb_ge _ _)). }
  apply Nat.leb_gt in E2. rewrite (proj2 (Nat.ltb_lt _ _)) by done.
  apply wp_bind, wp_when; intros E3.
  { apply wp_early. destruct priv; [|done]. simpl in E3. apply negb_true_iff in E3. by rewrite E3. }
  assert ((negb priv || wt_platform_priv_stack_ok stack stack_size) = true) as ->
    by (destruct priv, (wt_platform_priv_stack_ok stack stack_size); done). simpl.
  rewrite Hcount in *. replace (S n - 1)%nat with n by lia.
  destruct (lookup_lt_is_Some_2 (g_co_table s) n) as [c Hc].
  { rewrite (br_table s a (rp_base s a Hr)). lia. }
  pose proof (br_fresh s a (rp_base s a Hr) n c (le_n _) Hc) as Hlatch.
  apply wp_bind, wp_modify, wp_bind. eapply wp_mod_co; [exact Hc|]. apply wp_bind, wp_modify.
  set (c' := _ <| co_unprivileged := 0 |>).
  pose proof (rep_add s a k c c' Hr W Hfr E2 Hc eq_refl eq_refl Hlatch eq_refl eq_refl) as Hr1.
  set (s1 := _ <| sc_memory := _ |>) in Hr1. set (s2 := _ <| sc_memory := _ |>).
  change s2 with s1. clear s2. set (a1 := a <| a_cos := a_cos a ++ [k] |>) in *.
  destruct Hfr as [(K1 & K2 & K3 & K4) Hap].
  assert (stacks_wf a1 ∧ a_co a1 (CoSlot n) = Some k ∧ runq_live a1) as (Hs1 & Hk1 & Hl1).
  { pose proof (awf_create a (k <| a_st := WT_CO_BLOCKED |>) W) as W1.
    split_and!.
    - destruct (awf_stacks a W) as [S1 S2]. split.
      + intros p kp. change (a_co a1 p) with (a_co (a_create k a) p). rewrite a_co_create.
        destruct (decide _); [by intros [= <-]|by apply S1].
      + intros p q kp kq Hne. change (a_co a1 p) with (a_co (a_create k a) p).
        change (a_co a1 q) with (a_co (a_create k a) q). rewrite !a_co_create.
        destruct (decide _) as [->|], (decide _) as [->|]; [done|..|by eapply S2].
        * intros [= <-] Hq. by eapply Hap.
        * intros Hp [= <-]. destruct (Hap p kp Hp); unfold stacks_apart; lia.
    - by apply list_lookup_middle.
    - eapply Forall_impl; [apply (awf_live a W)|]. intros p [kp Hp]. exists kp.
      change (a_co a1 p) with (a_co (a_create k a) p). rewrite a_co_create, decide_False; [done|].
      intros ->. by rewrite not_created in Hp. }
  apply wp_bind, wp_call. eapply fwp_mono; [apply (init_stack_ok s1 (CoSlot n) c')|]; try done.
  { simpl. apply list_lookup_insert_eq. by eapply lookup_lt_Some. }
  intros [] s3 Hsv. pose proof (rep_save s1 s3 a1 (CoSlot n) k Hr1 Hs1 Hk1 Hsv) as Hr3.
  apply wp_bind, wp_when; intros E4.
  - apply bool_decide_eq_true in E4. apply wp_call.
    eapply fwp_mono; [eapply (enqueue_refines s3 a1 (CoSlot n) k); [done|done| |done]|].
    + intros Hin. pose proof (awf_live a W) as Hl. unfold runq_live in Hl. rewrite Forall_forall in Hl.
      destruct (Hl _ Hin) as [? Hx]. unfold n in Hx. by rewrite not_created in Hx.
    + intros [] s4 Hr4. apply wp_ret. split; [done|]. unfold a_create. rewrite decide_True by done. exact Hr4.
  - apply bool_decide_eq_false in E4. apply wp_ret. split; [done|]. unfold a_create.
    rewrite decide_False by done. by destruct a.
Qed.

(** ** Dispatching *)

Lemma step_live a a' p : co_step a a' → is_Some (a_co a p) → is_Some (a_co a' p).
Proof.
  assert (∀ m x b, is_Some (a_co b p) → is_Some (a_co (a_put_mutex m x b) p)) as Hmx by by destruct p.
  intros [q ? _|m _ _|m _|_|_|_] Hp.
  - by apply live_wake.
  - unfold a_queue_up. destruct (a_mutex a m) as [x|]; [|done]. destruct (a_holder x); [|by apply Hmx].
    destruct (decide _); [done|by apply Hmx].
  - unfold a_release. destruct (a_mutex a m) as [x|]; [|done]. destruct (decide _); [|done].
    unfold a_pass_on. destruct (a_waiters x); [by apply Hmx|]. by apply live_wake, Hmx.
  - by apply (live_upd (a_current a) (λ k, k <| a_st := WT_CO_BLOCKED |>)) in Hp.
  - by apply (live_upd (a_current a) (λ k, k <| a_st := WT_CO_RUNNABLE |>)) in Hp.
  - rewrite <-(co_unqueue (a_current a)) in Hp.
    by apply (live_upd (a_current a) (λ k, k <| a_st := WT_CO_FAULTED |>)) in Hp.
Qed.
Lemma slice_live a a' p : slice a a' → is_Some (a_co a p) → is_Some (a_co a' p).
Proof. intros [Hs _]. induction Hs; eauto using step_live. Qed.

(** [s1] is the state with [p] taken out of the run queue. *)
Lemma running_refines {R} s1 a p k (E : R → sched → Prop) : rep s1 (unqueue p a) → a_co a p = Some k →
  wp (modify (λ s, s <| g_wt_co_current := Some p |>);; mod_co p (λ c, c <| co_state := WT_CO_RUNNING |>)) E
    (λ _ s', rep s' (a_switch p a)) s1.
Proof.
  intros Hr Hk. assert (a_co (unqueue p a) p = Some k) as Hk1 by by rewrite co_unqueue.
  destruct (live_slot s1 _ p k (rp_base _ _ Hr) Hk1) as (c & Hc & [R1 R2 R3 R4 R5] & Hv & Hne).
  apply wp_bind, wp_modify.
  assert (co_at p (s1 <| g_wt_co_current := Some p |>) = Some c) as Hc1 by by destruct p.
  eapply wp_mod_co; [done|]. unfold a_switch. erewrite a_upd_at by done.
  replace ((a_put p _ (unqueue p a)) <| a_current := p |>) with
    (a_put p (k <| a_st := WT_CO_RUNNING |>) ((unqueue p a) <| a_current := p |>)) by by destruct p.
  eapply rep_put; [by apply rep_current|done| |done|done|by constructor]. by destruct p.
Qed.

Lemma switch_refines s1 a p :
  rep s1 (unqueue p a) → awf a → a_current a = CoBootstrap → a_state a p = Some WT_CO_RUNNABLE →
  fwp (do_switch (Some p)) (λ _ s', ∃ a', rep s' a' ∧ slice (a_switch p a) a') s1.
Proof.
  intros Hr W Hcur Hst. pose proof (awf_switch a p W Hcur Hst) as W'. unfold a_state in Hst.
  destruct (a_co a p) as [k|] eqn:Hk; [|done]. simplify_eq/=.
  assert (a_co (unqueue p a) p = Some k) as Hk1 by by rewrite co_unqueue.
  destruct (live_slot s1 _ p k (rp_base _ _ Hr) Hk1) as (c & Hc & [R1 R2 R3 R4 R5] & Hv & Hne).
  apply fwp_fn. rewrite Hv. apply wp_bind, wp_gets. rewrite (br_current _ _ (rp_base _ _ Hr)). simpl. rewrite Hcur.
  apply wp_bind, wp_call. eapply fwp_mono; [eapply canary_refines; [done|by left]|]. intros [] ? ->.
  apply wp_bind, wp_call. eapply fwp_mono; [eapply canary_refines; [done|right; eauto]|]. intros [] ? ->.
  apply wp_assoc, wp_bind. eapply wp_mono; [by eapply running_refines|exact (λ _ _ H, H)|]. intros [] s2 Hr2.
  apply wp_bind, wp_call. eapply fwp_mono; [by eapply (enter_ok s2 (a_switch p a) p)|].
  intros [] s3 (a' & Hr3 & Hs). apply wp_call. eapply fwp_mono; [eapply (canary_refines s3 a' p); [done|]|].
  - right. eapply slice_live; [done|]. destruct (current_running (a_switch p a) W' Hne) as (k' & Hk' & _).
    by exists k'.
  - intros [] ? ->. eauto.
Qed.

Lemma run_refines s a p : rep s a → awf a → is_Some (a_co a p) →
  fwp (wt_co_run (Some p))
    (λ r s', if decide (a_current a = CoBootstrap ∧ a_state a p = Some WT_CO_RUNNABLE)
             then r = 1 ∧ ∃ a', rep s' a' ∧ slice (a_switch p a) a'
             else r = 0 ∧ s' = s) s.
Proof.
  intros Hr W [k Hk]. destruct (live_slot s a p k (rp_base s a Hr) Hk) as (c & Hc & [R1 R2 R3 R4 R5] & Hv & Hne).
  apply fwp_fn, wp_bind, wp_gets. rewrite (br_current s a (rp_base s a Hr)).
  apply wp_bind, wp_when; intros E1.
  { apply negb_true_iff, bool_decide_eq_false in E1. apply wp_early. rewrite decide_False; [done|]. intros [??]; congruence. }
  apply negb_false_iff, bool_decide_eq_true in E1. apply (inj Some) in E1.
  apply wp_bind, wp_when; rewrite guard_ok by done; [done|]. intros _.
  apply wp_bind. eapply wp_get_co; [done|]. rewrite R1. unfold a_state. rewrite Hk. simpl.
  apply wp_bind, wp_when; intros E2.
  { apply negb_true_iff, bool_decide_eq_false in E2. apply wp_early. rewrite decide_False; [done|]. intros [??]; congruence. }
  apply negb_false_iff, bool_decide_eq_true in E2. destruct (decide (_ ∧ _)) as [_|Hn]; [|destruct Hn; split; congruence].
  apply wp_bind, wp_call, fwp_fn. eapply wp_mono; [by eapply unlink_refines, awf_live|exact (λ _ _ H, H)|].
  intros [] s1 Hr1. apply wp_bind, wp_call. eapply fwp_mono; [eapply switch_refines; [done|done|done|]|].
  - unfold a_state. rewrite Hk. simpl. congruence.
  - intros [] s2 Hex. by apply wp_ret.
Qed.

(** Taking the head of the run queue. *)
Lemma dequeue_refines s a : rep s a → awf a →
  fwp runqueue_dequeue
    (λ r s', r = head (a_runq a) ∧ rep s' (match r with Some p => unqueue p a | None => a end)) s.
Proof.
  intros Hr W. eapply fwp_mono; [apply (runq_dequeue_spec s (a_runq a)); [apply Hr|by apply runq_slots, awf_live]|].
  intros r s1 (-> & Hq1 & He). split; [done|]. destruct (a_runq a) as [|p q] eqn:Hq; simpl in *.
  - assert (a = a <| a_runq := [] |>) as -> by (rewrite <-Hq; by destruct a). by eapply rep_run.
  - pose proof (aw_runq_nodup a W) as Hnd. rewrite Hq in Hnd. apply NoDup_cons in Hnd as [Hpq Hnd].
    unfold unqueue. rewrite Hq, filter_cons_False by naive_solver. rewrite filter_notin by done. by eapply rep_run.
Qed.

(** The coroutines a scheduler run gave a slice to, in order: each was the
    head of the run queue. *)
Inductive ran : list co_ref → asched → asched → Prop :=
| ran_nil a : ran [] a a
| ran_cons p q l a a1 a' :
    a_runq a = p :: q → slice (a_switch p a) a1 → ran l a1 a' → ran (p :: l) a a'.

Lemma tick_loop_refines {R} (E : R → sched → Prop) todo s a n :
  rep s a → awf a → a_current a = CoBootstrap →
  wp (tick_loop todo n) E
    (λ r s', ∃ l a', rep s' a' ∧ awf a' ∧ ran l a a' ∧ r = n + Z.of_nat (length l) ∧
                     (length l ≤ todo)%nat ∧ (a_runq a' = [] ∨ length l = todo)) s.
Proof.
  revert s a n. induction todo as [|todo IH]; intros s a n Hr W Hcur; simpl tick_loop.
  { apply wp_ret. exists [], a. split_and!; auto using ran_nil. simpl. lia. }
  apply wp_bind, wp_call. eapply fwp_mono; [by apply dequeue_refines|].
  intros r s1 [-> Hr1]. destruct (a_runq a) as [|p q] eqn:Hrq; simpl in Hr1; simpl head.
  { apply wp_ret. exists [], a. split_and!; auto using ran_nil; simpl; lia. }
  pose proof (aw_runq a W) as Hrun. rewrite Hrq in Hrun. apply Forall_cons in Hrun as [(k & Hk & Hst) _].
  assert (a_state a p = Some WT_CO_RUNNABLE) as Hsp by (unfold a_state; rewrite Hk; simpl; congruence).
  apply wp_bind, wp_call. eapply fwp_mono; [by apply (switch_refines s1 a p)|].
  intros [] s2 (a2 & Hr2 & Hs). assert (awf a2) as W2 by (eapply awf_slice; [by apply (awf_switch a p)|done]).
  eapply wp_mono; [apply (IH s2 a2); [done|done|apply Hs]|done|].
  intros r s3 (l & a' & H1 & H2 & H3 & -> & H5 & H6). exists (p :: l), a'. simpl.
  split_and!; [done|done|by econstructor|lia|lia|]. destruct H6; [by left|right; lia].
Qed.

Lemma tick_refines s a budget : rep s a → awf a → a_current a = CoBootstrap →
  fwp (wt_co_tick budget)
    (λ r s', ∃ l a', rep s' a' ∧ awf a' ∧ ran l a a' ∧ r = Z.of_nat (length l) ∧
                     (length l ≤ budget)%nat ∧ (a_runq a' = [] ∨ length l = budget)) s.
Proof.
  intros Hr W Hcur. apply fwp_fn, wp_bind, wp_gets. rewrite (br_current s a (rp_base s a Hr)), Hcur.
  apply wp_bind, wp_when; rewrite bool_decide_true by done; [done|]. intros _.
  apply wp_bind, wp_when; intros E.
  - apply Nat.eqb_eq in E as ->. apply wp_early. exists [], a. split_and!; auto using ran_nil.
  - eapply wp_mono; [by apply (tick_loop_refines _ budget s a 0)|exact (λ _ _ H, H)|]. done.
Qed.
End api.
