(* ===== verification/SchedMutex.v ===== *)
(** * The mutex API implements its specification

    The wait queues threaded through [next_wait] are FIFO lists, and every
    operation of [mutex.c] takes a represented state to the one its
    specification gives. *)

From Stdlib Require Import ZArith Lia.
From stdpp Require Import base list numbers option sets relations.
From S2P Require Import Prelude Buffers CState Frame Coroutine Mutex SchedRep SchedRun SchedSpec SchedOps.

(** ** What the wait queue code leaves alone *)

Definition clear_wait (c : wt_co) : wt_co := c <| co_next_wait := None |>.
Definition erase_wait (s : sched) : sched :=
  s <| g_co_table := clear_wait <$> g_co_table s |> <| sc_mutexes := [] |>.

Lemma erase_wait_put p c v s :
  co_at p s = Some c → p ≠ CoBootstrap → erase_wait (co_put p (c <| co_next_wait := v |>) s) = erase_wait s.
Proof.
  destruct p as [|i]; [done|]. simpl. intros Hi _. unfold erase_wait. cbv [set_field set_g_co_table set_sc_mutexes].
  cbn. f_equal. rewrite list_fmap_insert. apply list_insert_id. rewrite list_lookup_fmap, Hi. by destruct c.
Qed.
Lemma erase_wait_mutex m x s : erase_wait (mutex_put m x s) = erase_wait s.
Proof. done. Qed.
Lemma erase_wait_lookup s s' i c :
  erase_wait s' = erase_wait s → g_co_table s !! i = Some c →
  ∃ c', g_co_table s' !! i = Some c' ∧ clear_wait c' = clear_wait c.
Proof.
  intros [= Ht _ _ _ _ _ _ _ _] Hi. assert ((clear_wait <$> g_co_table s') !! i = Some (clear_wait c)) as E.
  { by rewrite Ht, list_lookup_fmap, Hi. }
  rewrite list_lookup_fmap in E. destruct (g_co_table s' !! i) as [c'|]; [|done].
  exists c'. split; [done|]. by apply (inj Some) in E.
Qed.
Lemma base_erase_wait s s' a : erase_wait s' = erase_wait s → base_rep s a → base_rep s' a.
Proof.
  intros He [Ht Hc Hr Hk Hf Hb Hcur Hp]. pose proof He as [= Et Eb Ecur _ _ _ Ecount Emem Ep].
  assert (length (g_co_table s') = length (g_co_table s)) as El.
  { apply (f_equal length) in Et. by rewrite !length_fmap in Et. }
  constructor; try congruence.
  - intros i k Hi. destruct (Hk i k Hi) as (c & Hci & [R1 R2 R3 R4 R5]).
    destruct (erase_wait_lookup s s' i c He Hci) as (c' & Hc' & E). exists c'. split; [done|].
    pose proof E as [= _ E1 E4 _ _ E2 _ _ _ _ E3 _]. constructor; congruence.
  - intros i c' Hi Hc'. destruct (erase_wait_lookup s' s i c' (eq_sym He) Hc') as (c & Hci & E).
    pose proof E as [= _ _ _ _ _ _ _ _ _ _ E3 _]. rewrite <-E3. by eapply Hf.
Qed.
Lemma run_next_erase_wait s s' p : erase_wait s' = erase_wait s → run_next s' p = run_next s p.
Proof.
  intros He. pose proof He as [= _ Eb _ _ _ _ _ _ _]. unfold run_next. destruct p as [|i]; simpl; [by rewrite Eb|].
  destruct (g_co_table s !! i) as [c|] eqn:Hi.
  - destruct (erase_wait_lookup s s' i c He Hi) as (c' & -> & E). by pose proof E as [= _ _ _ _ _ _ _ En _ _ _ _].
  - destruct (g_co_table s' !! i) as [c'|] eqn:Hi'; [|done].
    destruct (erase_wait_lookup s' s i c' (eq_sym He) Hi') as (c & Hc & _). congruence.
Qed.

(** An operation on the wait queue of mutex [m]. *)
Lemma rep_mutex s s' a m x x' y y' :
  rep s a → awf a → a_mutex a m = Some x → sc_mutexes s !! m = Some y →
  erase_wait s' = erase_wait s → sc_mutexes s' = <[m := y']> (sc_mutexes s) → mutex_rep s' y' x' →
  (∀ q, waits a q → q ∉ a_waiters x → wait_next s' q = wait_next s q) →
  rep s' (a_put_mutex m x' a).
Proof.
  intros [Hb Hq Hm] W Hx Hy He Hms Hr Hw. constructor.
  - destruct (base_erase_wait s s' a He Hb). by constructor.
  - pose proof He as [= _ _ _ _ Eh Et _ _ _]. unfold run_rep. rewrite Eh, Et. eapply queue_ext; [|exact Hq].
    intros z _. by apply run_next_erase_wait.
  - simpl. rewrite Hms. apply Forall2_same_length_lookup in Hm as [Hlen Hm]. apply Forall2_same_length_lookup.
    split; [by rewrite !length_insert|]. intros j z z' Hz Hz'.
    apply list_lookup_insert_Some in Hz as [(<- & <- & ?)|[Hne Hz]].
    + rewrite list_lookup_insert_eq in Hz' by (rewrite <-Hlen; done). by simplify_eq.
    + rewrite list_lookup_insert_ne in Hz' by done. destruct (Hm j z z' Hz Hz') as [Hh Hqz]. split; [done|].
      eapply queue_ext; [|exact Hqz]. intros q Hqin. apply Hw; [by exists j, z'|]. intros Hqx.
      apply Hne. by eapply (aw_waiters a W m j x z' q).
Qed.

(** Reading a mutex. *)
Lemma mutex_lookup s a m x : rep s a → a_mutex a m = Some x → ∃ y, sc_mutexes s !! m = Some y ∧ mutex_rep s y x.
Proof.
  intros Hr Hx. pose proof (rp_mutexes s a Hr) as HF.
  destruct (Forall2_lookup_r _ _ _ _ _ HF Hx) as (y & ? & ?). eauto.
Qed.
Lemma waiters_slots s a m x : rep s a → awf a → a_mutex a m = Some x → slots s (a_waiters x).
Proof.
  intros Hr W Hx. apply (live_slots s a); [apply Hr|]. apply Forall_forall. intros p Hp.
  destruct (mutex_at a m x W Hx) as [M1 _ _ _]. auto.
Qed.
Lemma mutexes_co_put p c s : sc_mutexes (co_put p c s) = sc_mutexes s.
Proof. by destruct p. Qed.
Lemma co_at_mutex_put p m x s : co_at p (mutex_put m x s) = co_at p s.
Proof. by destruct p. Qed.
Lemma wait_next_mutex_put m x s q : wait_next (mutex_put m x s) q = wait_next s q.
Proof. unfold wait_next. by rewrite co_at_mutex_put. Qed.
Lemma mutex_put_lookup s m x x' : sc_mutexes s !! m = Some x → sc_mutexes (mutex_put m x' s) !! m = Some x'.
Proof. intros Hm. simpl. apply list_lookup_insert_eq. by eapply lookup_lt_Some. Qed.
Lemma mutexes_put_put s m x x' : sc_mutexes (mutex_put m x (mutex_put m x' s)) = <[m := x]> (sc_mutexes s).
Proof. simpl. apply list_insert_insert_eq. Qed.

(** Only the holder and the counters change. *)
Lemma rep_holder s a m x y y' h :
  rep s a → awf a → a_mutex a m = Some x → sc_mutexes s !! m = Some y → mutex_rep s y x →
  mx_holder y' = h → mx_wait_head y' = mx_wait_head y → mx_wait_tail y' = mx_wait_tail y →
  rep (mutex_put m y' s) (a_put_mutex m (x <| a_holder := h |>) a).
Proof.
  intros Hr W Hx Hy [Hh Hq] E1 E2 E3. eapply rep_mutex; [done..| |done].
  split; [done|]. rewrite E2, E3. done.
Qed.

(** ** Joining the queue *)

Lemma wait_enqueue_refines {R} s a m x p (E : R → sched → Prop) :
  rep s a → awf a → a_mutex a m = Some x → is_Some (a_co a p) → ¬ waits a p →
  wp (wait_enqueue m p) E (λ _ s', rep s' (a_put_mutex m (x <| a_waiters := a_waiters x ++ [p] |>) a)) s.
Proof.
  intros Hr W Hx [k Hk] Hw. destruct (mutex_lookup s a m x Hr Hx) as (y & Hy & Hh & Hq).
  destruct (live_slot s a p k (rp_base s a Hr) Hk) as (c & Hc & _ & _ & Hne).
  assert (p ∉ a_waiters x) as Hpx by (intros ?; apply Hw; by exists m, x).
  pose proof (queue_push _ _ _ _ p Hq Hpx) as Hpush. pose proof (waiters_slots s a m x Hr W Hx) as Hsl.
  apply wp_bind. eapply wp_mod_mutex; [done|]. set (y1 := count_contend y).
  apply wp_bind. eapply wp_mod_co; [by rewrite co_at_mutex_put|]. set (s2 := co_put p _ _).
  assert (sc_mutexes s2 !! m = Some y1) as Hy2.
  { subst s2. rewrite mutexes_co_put. by eapply mutex_put_lookup. }
  assert (∀ q, wait_next s2 q = link_upd (wait_next s) p None q) as Hn2.
  { intros q. subst s2. rewrite (wait_next_put p c) by by rewrite co_at_mutex_put.
    unfold link_upd. destruct (decide (q = p)); [done|]. apply wait_next_mutex_put. }
  assert (erase_wait s2 = erase_wait s) as He2.
  { subst s2. rewrite erase_wait_put; [done|by rewrite co_at_mutex_put|done]. }
  apply wp_bind. eapply wp_get_mutex; [done|].
  change (mx_wait_head y1) with (mx_wait_head y). change (mx_wait_tail y1) with (mx_wait_tail y).
  pose proof (queue_head _ _ _ _ Hq) as Hhd. pose proof (qr_tail _ _ _ _ Hq) as Htl.
  destruct (a_waiters x) as [|w ws] eqn:Hws.
  - rewrite Hhd. simpl head. cbv iota. eapply wp_mod_mutex; [done|]. rewrite Htl in Hpush. simpl in Hpush.
    eapply rep_mutex; [done|done|done|done|by rewrite erase_wait_mutex| | |].
    + simpl. subst s2. rewrite mutexes_co_put. apply mutexes_put_put.
    + split; [done|]. simpl. eapply queue_ext; [|exact Hpush]. intros q _.
      rewrite wait_next_mutex_put. apply Hn2.
    + intros q Hqw _. rewrite wait_next_mutex_put, Hn2. apply link_upd_ne. by intros ->.
  - rewrite Hhd. simpl head. cbv iota.
    destruct (mx_wait_tail y) as [t|] eqn:Ht; [|by symmetry in Htl; apply last_None in Htl].
    assert (t ∈ w :: ws) as Htin by (apply last_Some_elem_of; by rewrite <-Htl).
    destruct (slots_elem s _ t Hsl Htin) as (ct & Hct & _ & Htne). assert (t ≠ p) as Htp by (intros ->; done).
    assert (co_at t s2 = Some ct) as Hct2.
    { subst s2. rewrite co_at_put_ne by done. by rewrite co_at_mutex_put. }
    apply wp_bind. eapply wp_defined; [done|]. apply wp_bind. eapply wp_mod_co; [done|].
    eapply wp_mod_mutex; [by rewrite mutexes_co_put|]. set (s3 := co_put t _ s2).
    assert (∀ q, wait_next s3 q = link_upd (link_upd (wait_next s) p None) t (Some p) q) as Hn3.
    { intros q. subst s3. rewrite (wait_next_put t ct) by done. unfold link_upd at 1 2.
      destruct (decide (q = t)); [done|]. apply Hn2. }
    eapply rep_mutex; [done|done|done|done| | | |].
    + rewrite erase_wait_mutex. subst s3. by rewrite erase_wait_put.
    + simpl. subst s3 s2. rewrite !mutexes_co_put. apply mutexes_put_put.
    + split; [done|]. simpl. change (mx_wait_head y1) with (mx_wait_head y).
      eapply queue_ext; [|exact Hpush]. intros q _. rewrite wait_next_mutex_put. apply Hn3.
    + intros q Hqw Hqx. rewrite wait_next_mutex_put, Hn3. rewrite !link_upd_ne; [done| |].
      * by intros ->.
      * intros ->. by rewrite Hws in Hqx.
Qed.

(** ** Handing over *)

Lemma hand_over_refines `{CoArchSpec} {R} s a m x w ws (E : R → sched → Prop) :
  rep s a → awf a → a_mutex a m = Some x → a_waiters x = w :: ws →
  wp (hand_over m w) E (λ _ s', rep s' (a_pass_on m x a)) s.
Proof.
  intros Hr W Hx Hws. destruct (mutex_lookup s a m x Hr Hx) as (y & Hy & Hh & Hq). rewrite Hws in Hq.
  pose proof (awf_pass_on a m x W Hx) as W'. unfold a_pass_on in *. rewrite Hws in *.
  destruct (mutex_at a m x W Hx) as [M1 M2 M3 M4]. rewrite Hws in *.
  pose proof (waiters_slots s a m x Hr W Hx) as Hsl. rewrite Hws in Hsl.
  destruct (slots_elem s _ w Hsl) as (c & Hc & _ & Hne); [set_solver|].
  destruct (queue_pop _ _ _ _ _ Hq) as [Hhd Hpop]. rewrite (wait_next_at w c) in Hpop by done.
  apply wp_bind. eapply wp_get_co; [done|]. apply wp_bind. eapply wp_mod_mutex; [done|].
  set (y1 := y <| mx_wait_head := co_next_wait c |>). set (s1 := mutex_put m y1 s).
  assert (sc_mutexes s1 !! m = Some y1) as Hy1 by by eapply mutex_put_lookup.
  apply wp_bind. eapply wp_get_mutex; [done|]. apply wp_bind.
  set (y2 := y1 <| mx_wait_tail := (match co_next_wait c with Some _ => mx_wait_tail y | None => None end) |>).
  assert (wp (R := R) (when (bool_decide (mx_wait_head y1 = None)) (mod_mutex m (λ x, x <| mx_wait_tail := None |>))) E
    (λ _ s', ∃ s0, s' = mutex_put m y2 s0 ∧ (s0 = s1 ∨ s0 = s)) s1) as Hwhen.
  { apply wp_when; intros Eb.
    - apply bool_decide_eq_true in Eb. change (co_next_wait c = None) in Eb. eapply wp_mod_mutex; [done|].
      exists s1. split; [|by left]. subst y2. by rewrite Eb.
    - apply bool_decide_eq_false in Eb. change (co_next_wait c ≠ None) in Eb. exists s. split; [|by right].
      subst s1 y2. destruct (co_next_wait c) as [n|] eqn:En; [|done]. by f_equal. }
  eapply wp_mono; [exact Hwhen|done|]. intros [] s2 (s0 & -> & Hs0). clear Hwhen.
  set (s2 := mutex_put m y2 s0).
  assert (sc_mutexes s2 = <[m := y2]> (sc_mutexes s)) as Hms2.
  { destruct Hs0 as [->| ->]; [apply mutexes_put_put|done]. }
  assert (∀ q, co_at q s2 = co_at q s) as Hco2.
  { intros q. unfold s2. rewrite co_at_mutex_put. destruct Hs0 as [->| ->]; [apply co_at_mutex_put|done]. }
  assert (erase_wait s2 = erase_wait s) as He2 by by destruct Hs0 as [->| ->].
  apply wp_bind. eapply wp_mod_co; [by rewrite Hco2|]. set (s3 := co_put w _ s2).
  assert (sc_mutexes s3 !! m = Some y2) as Hy3.
  { subst s3. rewrite mutexes_co_put, Hms2. apply list_lookup_insert_eq. by eapply lookup_lt_Some. }
  apply wp_bind. eapply wp_mod_mutex; [done|]. apply wp_call. set (s4 := mutex_put m _ s3).
  set (x' := {| a_holder := Some w; a_waiters := ws |}).
  assert (∀ q, wait_next s4 q = link_upd (wait_next s) w None q) as Hn4.
  { intros q. subst s4 s3. rewrite wait_next_mutex_put, (wait_next_put w c) by by rewrite Hco2.
    unfold link_upd. destruct (decide (q = w)); [done|]. unfold wait_next. by rewrite Hco2. }
  assert (rep s4 (a_put_mutex m x' a)) as Hr4.
  { eapply rep_mutex; [done|done|done|done| | | |].
    - subst s4 s3. by rewrite erase_wait_mutex, erase_wait_put by (rewrite ?Hco2; done).
    - subst s4. simpl. subst s3. rewrite mutexes_co_put, Hms2. apply list_insert_insert_eq.
    - split; [done|]. eapply queue_ext; [|exact Hpop]. intros q _. apply Hn4.
    - intros q _ Hqx. rewrite Hn4. apply link_upd_ne. intros ->. rewrite Hws in Hqx. set_solver. }
  eapply wake_refines; [done| |].
  - apply (awf_put_mutex a m x); [done|done| |].
    + apply NoDup_cons in M4 as [Hw M4]. constructor; simpl; [|naive_solver|done|done].
      intros p [[= <-]|Hp]; apply M1; right; set_solver.
    + intros p Hp. left. rewrite Hws. by right.
  - assert (is_Some (a_co a w)) by (apply M1; right; set_solver). by destruct w.
Qed.

(** [m->holder == co]: with waiters or without. *)
Lemma pass_on_refines `{CoArchSpec} {R} s a m x y (E : R → sched → Prop) :
  rep s a → awf a → a_mutex a m = Some x → sc_mutexes s !! m = Some y → mutex_rep s y x →
  wp (match mx_wait_head y with
      | None => mod_mutex m (λ x, x <| mx_holder := None |>)
      | Some next => hand_over m next
      end) E (λ _ s', rep s' (a_pass_on m x a)) s.
Proof.
  intros Hr W Hx Hy [Hh Hq]. rewrite (queue_head _ _ _ _ Hq). destruct (a_waiters x) as [|w ws] eqn:Hws; simpl head.
  - eapply wp_mod_mutex; [done|]. unfold a_pass_on. rewrite Hws.
    replace {| a_holder := None; a_waiters := [] |} with (x <| a_holder := None |>) by (destruct x; simpl in *; by subst).
    eapply rep_holder; [done..| |done|done|done]. by split; rewrite ?Hws.
  - by eapply hand_over_refines.
Qed.

(** ** Walking the queue *)

Lemma waiting_spec {R} fuel s l h self (E : R → sched → Prop) :
  lseg (wait_next s) h l None → Forall (λ p, is_Some (co_at p s)) l → (length l < fuel)%nat →
  wp (waiting fuel h self) E (λ b s', b = bool_decide (self ∈ l) ∧ s' = s) s.
Proof.
  revert l h. induction fuel as [|fuel IH]; intros l h Hs Hl Hf; [lia|]. destruct l as [|x l]; simpl in Hs.
  - subst h. cbn [waiting]. apply wp_ret. split; [|done]. by rewrite bool_decide_false by apply not_elem_of_nil.
  - destruct Hs as [-> Hs]. apply Forall_cons in Hl as [[c Hc] Hl]. cbn [waiting]. destruct (decide (x = self)) as [->|Hne].
    + apply wp_ret. split; [|done]. by rewrite bool_decide_true by by left.
    + apply wp_bind. eapply wp_get_co; [done|]. rewrite (wait_next_at x c s Hc) in Hs.
      eapply wp_mono; [apply (IH l); [done|done|simpl in Hf; lia]|done|]. intros b s' [-> ->]. split; [|done].
      apply bool_decide_ext. set_solver.
Qed.

Lemma remove_walk_S {R} fuel m prev cur co : remove_walk (R := R) (S fuel) m prev cur co =
  match cur with
  | None => mret tt
  | Some n =>
    c ← get_co n;
    if decide (n = co) then
      match prev with
      | None => mod_mutex m (λ x, x <| mx_wait_head := co_next_wait c |>)
      | Some q => mod_co q (λ d, d <| co_next_wait := co_next_wait c |>)
      end;;
      x ← get_mutex m;
      when (bool_decide (mx_wait_tail x = Some n)) (mod_mutex m (λ x, x <| mx_wait_tail := prev |>));;
      mod_co n (λ c, c <| co_next_wait := None |>)
    else remove_walk fuel m (Some n) (co_next_wait c) co
  end.
Proof. done. Qed.

(** The state after the stores of the walk that found [co] behind [prev]. *)
Lemma remove_node {R} s a m x y l1 p l2 c (E : R → sched → Prop) :
  rep s a → awf a → a_mutex a m = Some x → sc_mutexes s !! m = Some y → mutex_rep s y x →
  a_waiters x = l1 ++ p :: l2 → co_at p s = Some c →
  wp (match last l1 with
      | None => mod_mutex m (λ x, x <| mx_wait_head := co_next_wait c |>)
      | Some q => mod_co q (λ d, d <| co_next_wait := co_next_wait c |>)
      end;;
      x ← get_mutex m;
      when (bool_decide (mx_wait_tail x = Some p)) (mod_mutex m (λ x, x <| mx_wait_tail := last l1 |>));;
      mod_co p (λ c, c <| co_next_wait := None |>)) E
     (λ _ s', rep s' (a_put_mutex m (x <| a_waiters := l1 ++ l2 |>) a)) s.
Proof.
  intros Hr W Hx Hy [Hh Hq] Hws Hc. rewrite Hws in Hq.
  pose proof (waiters_slots s a m x Hr W Hx) as Hsl. rewrite Hws in Hsl.
  destruct (slots_elem s _ p Hsl) as (c0 & ? & _ & Hne); [set_solver|]. simplify_eq.
  pose proof (queue_unlink _ _ _ _ _ _ Hq) as Hun. rewrite (wait_next_at p c) in Hun by done.
  set (y1 := y <| mx_wait_head := set_head (mx_wait_head y) (last l1) (co_next_wait c) |>).
  assert (wp (R := R) (match last l1 with
      | None => mod_mutex m (λ x, x <| mx_wait_head := co_next_wait c |>)
      | Some q => mod_co q (λ d, d <| co_next_wait := co_next_wait c |>)
      end) E (λ _ s1, erase_wait s1 = erase_wait s ∧ sc_mutexes s1 = <[m := y1]> (sc_mutexes s) ∧
        ∀ q, wait_next s1 q = set_link (wait_next s) (last l1) (co_next_wait c) q) s) as Hfirst.
  { destruct (last l1) as [q|] eqn:Hl.
    - destruct (slots_elem s _ q Hsl) as (d & Hd & _ & Hqne); [apply last_Some_elem_of in Hl; set_solver|].
      eapply wp_mod_co; [done|]. split_and!; [by apply erase_wait_put| |].
      + rewrite mutexes_co_put, list_insert_id; [done|]. rewrite Hy. f_equal. by destruct y.
      + intros z. by apply (wait_next_put q d).
    - eapply wp_mod_mutex; [done|]. split_and!; [done|done|]. intros z. apply wait_next_mutex_put. }
  apply wp_bind. eapply wp_mono; [exact Hfirst|done|]. intros [] s1 (He1 & Hms1 & Hn1). clear Hfirst.
  assert (sc_mutexes s1 !! m = Some y1) as Hy1.
  { rewrite Hms1. apply list_lookup_insert_eq. by eapply lookup_lt_Some. }
  apply wp_bind. eapply wp_get_mutex; [done|]. apply wp_bind.
  set (y2 := y1 <| mx_wait_tail := (if decide (mx_wait_tail y = Some p) then last l1 else mx_wait_tail y) |>).
  assert (∃ c1, co_at p s1 = Some c1) as [c1 Hc1].
  { destruct p as [|i]; [done|]. destruct (erase_wait_lookup s s1 i c He1 Hc) as (c1 & ? & _). by exists c1. }
  assert (∀ s2, erase_wait s2 = erase_wait s → sc_mutexes s2 = <[m := y2]> (sc_mutexes s) →
    (∀ q, co_at q s2 = co_at q s1) →
    wp (mod_co p (λ c, c <| co_next_wait := None |>)) E
      (λ _ s', rep s' (a_put_mutex m (x <| a_waiters := l1 ++ l2 |>) a)) s2) as Hfin.
  { intros s2 He2 Hms2 Hco2. eapply wp_mod_co; [by rewrite Hco2|].
    assert (∀ q, wait_next (co_put p (c1 <| co_next_wait := None |>) s2) q =
       link_upd (set_link (wait_next s) (last l1) (co_next_wait c)) p None q) as Hn3.
    { intros q. rewrite (wait_next_put p c1) by by rewrite Hco2. unfold link_upd.
      destruct (decide (q = p)); [done|]. rewrite <-Hn1. unfold wait_next. by rewrite Hco2. }
    eapply rep_mutex; [done|done|done|done| | | |].
    - by rewrite erase_wait_put by (rewrite ?Hco2; done).
    - by rewrite mutexes_co_put.
    - split; [done|]. simpl. eapply queue_ext; [|exact Hun]. intros q _. apply Hn3.
    - intros q _ Hqx. rewrite Hws in Hqx. rewrite Hn3, link_upd_ne by set_solver.
      destruct (last l1) as [z|] eqn:Hl; [|done]. simpl. apply link_upd_ne.
      apply last_Some_elem_of in Hl. set_solver. }
  apply wp_when; intros Eb; [apply bool_decide_eq_true in Eb|apply bool_decide_eq_false in Eb];
    change (mx_wait_tail y1) with (mx_wait_tail y) in Eb; subst y2.
  - rewrite decide_True in Hfin by done. eapply wp_mod_mutex; [done|]. apply Hfin.
    + by rewrite erase_wait_mutex.
    + simpl. rewrite Hms1. apply list_insert_insert_eq.
    + intros q. apply co_at_mutex_put.
  - rewrite decide_False in Hfin by done. apply Hfin; [done| |done]. rewrite Hms1. by f_equal.
Qed.

Lemma remove_walk_spec {R} fuel s a m x y l1 l2 p (E : R → sched → Prop) :
  rep s a → awf a → a_mutex a m = Some x → sc_mutexes s !! m = Some y → mutex_rep s y x →
  a_waiters x = l1 ++ l2 → p ∉ l1 → (length l2 < fuel)%nat →
  wp (remove_walk fuel m (last l1) (head l2) p) E
    (λ _ s', rep s' (a_put_mutex m (x <| a_waiters := filter (λ z, z ≠ p) (a_waiters x) |>) a)) s.
Proof.
  intros Hr W Hx Hy Hm. revert l1 l2. induction fuel as [|fuel IH]; intros l1 l2 Hws Hp Hf; [lia|].
  rewrite remove_walk_S. destruct l2 as [|n l2]; cbn [head].
  - apply wp_ret. rewrite app_nil_r in Hws. rewrite filter_notin by (by rewrite Hws).
    replace (a_put_mutex m _ a) with a; [done|]. unfold a_put_mutex. destruct a, x. unfold set_field, set_a_mutexes. simpl.
    f_equal. symmetry. by apply list_insert_id.
  - pose proof (waiters_slots s a m x Hr W Hx) as Hsl. rewrite Hws in Hsl.
    destruct (slots_elem s _ n Hsl) as (c & Hc & _ & Hne); [set_solver|].
    apply wp_bind. eapply wp_get_co; [done|]. destruct (decide (n = p)) as [->|Hnp].
    + pose proof (mw_nodup _ _ (mutex_at a m x W Hx)) as Hnd. rewrite Hws in Hnd.
      apply NoDup_app in Hnd as (_ & _ & [Hn2 _]%NoDup_cons).
      replace (filter (λ z, z ≠ p) (a_waiters x)) with (l1 ++ l2).
      * by eapply remove_node.
      * rewrite Hws, filter_app, filter_cons_False by naive_solver. by rewrite !filter_notin.
    + destruct Hm as [Hh Hq]. rewrite <-(wait_next_at n c s Hc), <-(last_snoc n l1).
      replace (wait_next s n) with (head l2).
      * apply IH; [by rewrite <-app_assoc|set_solver|simpl in Hf; lia].
      * rewrite Hws in Hq. symmetry. destruct l2 as [|z l2].
        -- exact (queue_last_link _ _ _ _ _ Hq).
        -- exact (queue_link _ _ _ _ _ _ _ Hq).
Qed.

(** ** Operations *)

Lemma current_spec {R} s a (E : R → sched → Prop) (Q : option co_ref → sched → Prop) :
  rep s a → Q (a_self a) s → wp wt_co_current E Q s.
Proof.
  intros Hr HQ. apply wp_bind, wp_gets, wp_ret. rewrite (br_current s a (rp_base s a Hr)). unfold a_self in HQ.
  destruct (decide (a_current a = CoBootstrap)) as [E1|E1].
  - by rewrite decide_True by congruence.
  - by rewrite decide_False by congruence.
Qed.

(** The free mutex goes to the caller. *)
Lemma take_refines {R} s a m x y p (E : R → sched → Prop) :
  rep s a → awf a → a_mutex a m = Some x → sc_mutexes s !! m = Some y → mutex_rep s y x →
  wp (mod_mutex m (λ x, x <| mx_holder := p |>);; mod_mutex m count_acquire) E
    (λ _ s', rep s' (a_put_mutex m (x <| a_holder := p |>) a)) s.
Proof.
  intros Hr W Hx Hy Hm. apply wp_bind. eapply wp_mod_mutex; [done|]. eapply wp_mod_mutex; [by eapply mutex_put_lookup|].
  set (y' := count_acquire _). assert (mutex_put m y' (mutex_put m (y <| mx_holder := p |>) s) = mutex_put m y' s) as ->.
  { unfold mutex_put, set_field, set_sc_mutexes. simpl. f_equal. apply list_insert_insert_eq. }
  by eapply rep_holder.
Qed.

Lemma not_waiting a m x p : a_mutex a m = Some x → may_queue a m p → p ∉ a_waiters x → ¬ waits a p.
Proof.
  intros Hx [_ Hq] Hp (m' & y & Hy & Hin). destruct (decide (m' = m)) as [->|Hne].
  - unfold a_mutex in Hx. by simplify_eq.
  - by apply (Hq m' y).
Qed.

Lemma acquire_queued_refines s a m x p :
  rep s a → awf a → a_mutex a m = Some x → may_queue a m p →
  fwp (wt_mutex_acquire_queued (Some m) (Some p))
    (λ r s', rep s' (a_queue_up m p a) ∧ r = if decide (a_holder x = None ∨ a_holder x = Some p) then 0 else 1) s.
Proof.
  intros Hr W Hx Hmq. destruct (mutex_lookup s a m x Hr Hx) as (y & Hy & Hm). pose proof Hm as [Hh Hq].
  unfold a_queue_up. rewrite Hx. apply fwp_fn, wp_bind. eapply wp_get_mutex; [done|]. rewrite Hh.
  apply wp_bind, wp_when; intros E1.
  { apply bool_decide_eq_true in E1. rewrite E1. apply wp_assoc, wp_bind.
    eapply wp_mono; [by eapply take_refines|exact (λ _ _ H, H)|]. intros [] s' Hr'. apply wp_early. split; [done|].
    by rewrite decide_True by by left. }
  apply bool_decide_eq_false in E1. destruct (a_holder x) as [h|] eqn:Ha; [|done].
  apply wp_bind, wp_when; intros E2.
  { apply bool_decide_eq_true in E2. simplify_eq. apply wp_early. rewrite !decide_True by auto. done. }
  apply bool_decide_eq_false in E2. pose proof (waiters_slots s a m x Hr W Hx) as Hsl.
  apply wp_bind. eapply wp_mono; [apply (waiting_spec _ s (a_waiters x)); [apply Hq| |]|exact (λ _ _ H, H)|].
  - eapply Forall_impl; [exact Hsl|]. naive_solver.
  - pose proof (slots_length s _ Hsl (qr_nodup _ _ _ _ Hq)). lia.
  - intros b s' [-> ->]. destruct (decide (Some h = None ∨ Some h = Some p)) as [[?|?]|_]; [congruence..|].
    apply wp_bind, wp_when; intros E3.
    + apply bool_decide_eq_true in E3. apply wp_early. by rewrite decide_True by by right.
    + apply bool_decide_eq_false in E3. rewrite decide_False by (intros [->|?]; done). apply wp_bind.
      eapply wp_mono; [eapply wait_enqueue_refines; [done|done|done|apply Hmq|by eapply not_waiting]|exact (λ _ _ H, H)|].
      intros [] s' Hr'. by apply wp_ret.
Qed.

Lemma remove_waiter_refines s a m x p : rep s a → awf a → a_mutex a m = Some x →
  fwp (wt_mutex_remove_waiter (Some m) (Some p)) (λ _ s', rep s' (a_remove_waiter m p a)) s.
Proof.
  intros Hr W Hx. destruct (mutex_lookup s a m x Hr Hx) as (y & Hy & Hm). pose proof Hm as [Hh Hq].
  unfold a_remove_waiter. rewrite Hx. apply fwp_fn, wp_bind. eapply wp_get_mutex; [done|].
  rewrite (queue_head _ _ _ _ Hq). apply (remove_walk_spec _ s a m x y []); [done..|set_solver|].
  pose proof (slots_length s _ (waiters_slots s a m x Hr W Hx) (qr_nodup _ _ _ _ Hq)). lia.
Qed.

Section api.
Context `{CoArchSpec}.

Lemma release_refines s a m x : rep s a → awf a → a_mutex a m = Some x →
  fwp (wt_mutex_release m)
    (λ r s', rep s' (a_release m a) ∧ r = if decide (a_holder x = a_self a) then 0 else -1) s.
Proof.
  intros Hr W Hx. destruct (mutex_lookup s a m x Hr Hx) as (y & Hy & Hm). pose proof Hm as [Hh Hq].
  unfold a_release. rewrite Hx. apply fwp_fn, wp_bind. eapply wp_get_mutex; [done|]. apply wp_bind.
  eapply current_spec; [done|]. rewrite Hh. apply wp_bind, wp_when; intros E1.
  - apply negb_true_iff, bool_decide_eq_false in E1. apply wp_early. by rewrite !decide_False.
  - apply negb_false_iff, bool_decide_eq_true in E1. rewrite !decide_True by done.
    pose proof (pass_on_refines (R := Z) s a m x y (λ r s', rep s' (a_pass_on m x a) ∧ r = 0) Hr W Hx Hy Hm) as Hp.
    destruct (mx_wait_head y); apply wp_bind; (eapply wp_mono; [exact Hp|done|]); intros [] s' Hr'; by apply wp_ret.
Qed.

Lemma release_if_holder_refines s a m x p : rep s a → awf a → a_mutex a m = Some x →
  fwp (wt_mutex_release_if_holder (Some m) (Some p)) (λ _ s', rep s' (a_release_if_holder m p a)) s.
Proof.
  intros Hr W Hx. destruct (mutex_lookup s a m x Hr Hx) as (y & Hy & Hm). pose proof Hm as [Hh Hq].
  unfold a_release_if_holder. rewrite Hx. apply fwp_fn, wp_bind. eapply wp_get_mutex; [done|]. rewrite Hh.
  apply wp_bind, wp_when; intros E1.
  - apply negb_true_iff, bool_decide_eq_false in E1. apply wp_early. by rewrite decide_False.
  - apply negb_false_iff, bool_decide_eq_true in E1. rewrite decide_True by done. by eapply pass_on_refines.
Qed.

(** From the bootstrap context the holder stays null. *)
Lemma try_acquire_refines s a m x : rep s a → awf a → a_mutex a m = Some x →
  fwp (wt_mutex_try_acquire m)
    (λ r s', if decide (a_holder x = None) then r = true ∧ rep s' (a_put_mutex m (x <| a_holder := a_self a |>) a)
             else r = false ∧ s' = s) s.
Proof.
  intros Hr W Hx. destruct (mutex_lookup s a m x Hr Hx) as (y & Hy & Hm). pose proof Hm as [Hh Hq].
  apply fwp_fn, wp_bind. eapply wp_get_mutex; [done|]. rewrite Hh. apply wp_bind, wp_when; intros E1.
  - apply negb_true_iff, bool_decide_eq_false in E1. apply wp_early. by rewrite decide_False.
  - apply negb_false_iff, bool_decide_eq_true in E1. destruct (decide (a_holder x = None)); [|done].
    apply wp_bind. eapply current_spec; [done|]. apply wp_assoc, wp_bind.
    eapply wp_mono; [by eapply take_refines|exact (λ _ _ H, H)|]. intros [] s' Hr'. by apply wp_ret.
Qed.

(** A coroutine that already holds the mutex, or waits for another one, must
    not call it. *)
Lemma acquire_refines s a m x : rep s a → awf a → a_mutex a m = Some x →
  (∀ p, a_self a = Some p → a_holder x ≠ Some p ∧ ¬ waits a p) →
  fwp (wt_mutex_acquire m)
    (λ r s', match a_self a with
             | None => r = Returned (-1) ∧ s' = s
             | Some p => if decide (a_holder x = None) then r = Returned 0 ∧ rep s' (a_queue_up m p a)
                         else r = Suspended ∧ rep s' (a_block (a_queue_up m p a))
             end) s.
Proof.
  intros Hr W Hx Hself. destruct (mutex_lookup s a m x Hr Hx) as (y & Hy & Hm). pose proof Hm as [Hh Hq].
  apply fwp_fn, wp_bind. eapply current_spec; [done|]. unfold a_self in *.
  destruct (decide (a_current a = CoBootstrap)) as [|Hcur]; [by apply wp_ret|].
  destruct (Hself _ eq_refl) as [Hnh Hnw]. destruct (current_running a W Hcur) as (k & Hk & _).
  set (p := a_current a) in *. unfold a_queue_up. rewrite Hx.
  apply wp_bind. eapply wp_get_mutex; [done|]. rewrite Hh. apply wp_bind, wp_when; intros E1.
  - apply bool_decide_eq_true in E1. rewrite E1. destruct (decide (None = None)); [|done]. apply wp_assoc, wp_bind.
    eapply wp_mono; [by eapply take_refines|exact (λ _ _ H, H)|]. intros [] s' Hr'. by apply wp_early.
  - apply bool_decide_eq_false in E1. destruct (a_holder x) as [h|] eqn:Ha; [|done].
    destruct (decide (Some h = None)); [done|].
    assert (p ∉ a_waiters x) as Hpx by (intros ?; apply Hnw; by exists m, x).
    destruct (decide (h = p ∨ p ∈ a_waiters x)) as [[->|?]|]; [done|done|].
    assert (may_queue a m p) as Hmq.
    { split; [by exists k|]. intros m' y' _ Hy' Hin. apply Hnw. by exists m', y'. }
    pose proof (awf_queue_up a m p W Hmq) as W1. unfold a_queue_up in W1. rewrite Hx, Ha, decide_False in W1
      by (intros [->|?]; done).
    apply wp_bind. eapply wp_mono; [eapply wait_enqueue_refines; [done|done|done|by exists k|done]|exact (λ _ _ H, H)|].
    intros [] s1 Hr1. apply wp_bind, wp_call. eapply fwp_mono; [by eapply block_refines|].
    intros [] s2 Hr2. by apply wp_ret.
Qed.

Lemma acquire_resume_refines s a m x p : rep s a → awf a → a_mutex a m = Some x →
  a_current a = p → p ≠ CoBootstrap →
  fwp (wt_mutex_acquire_resume m p)
    (λ r s', if decide (a_holder x = Some p) then r = Returned 0 ∧ rep s' a
             else r = Suspended ∧ rep s' (a_block a)) s.
Proof.
  intros Hr W Hx Hcur Hne. destruct (mutex_lookup s a m x Hr Hx) as (y & Hy & Hm). pose proof Hm as [Hh Hq].
  apply fwp_fn, wp_bind. eapply wp_get_mutex; [done|]. rewrite Hh.
  destruct (decide (a_holder x = Some p)) as [E1|E1].
  - apply wp_bind. eapply wp_mod_mutex; [done|]. apply wp_ret. split; [done|].
    replace a with (a_put_mutex m (x <| a_holder := a_holder x |>) a) at 1.
    + by eapply rep_holder.
    + unfold a_put_mutex. destruct a, x. unfold set_field, set_a_mutexes. simpl. f_equal. by apply list_insert_id.
  - apply wp_bind, wp_call. eapply fwp_mono; [eapply block_refines; [done|done|by rewrite Hcur]|].
    intros [] s' Hr'. by apply wp_ret.
Qed.

(** The fault path's cleanup: the coroutine neither holds the lock nor waits
    for it any more. *)
Definition a_release_locks (m : nat) (p : co_ref) (a : asched) : asched :=
  a_remove_waiter m p (a_release_if_holder m p a).

Lemma mutex_release_if_holder a m x p : a_mutex a m = Some x → ∃ x', a_mutex (a_release_if_holder m p a) m = Some x'.
Proof.
  intros Hx. pose proof (lookup_lt_Some _ _ _ Hx) as Hlt. unfold a_release_if_holder, a_pass_on, a_mutex in *. rewrite Hx.
  assert (∀ x', a_mutexes (a_put_mutex m x' a) !! m = Some x') as Hput.
  { intros x'. simpl. by apply list_lookup_insert_eq. }
  destruct (decide _); [|eauto]. destruct (a_waiters x) as [|w ws]; [eauto|].
  assert (∀ b, a_mutexes (a_wake w b) = a_mutexes b) as ->; [|eauto].
  intros b. unfold a_wake, a_upd. destruct (a_state b w) as [[]|]; try done; destruct (a_co b w); try done; by destruct w.
Qed.

Lemma release_locks_refines s a m x p : rep s a → awf a → a_mutex a m = Some x →
  fwp (wt_hsm_release_locks m (Some p)) (λ _ s', rep s' (a_release_locks m p a)) s.
Proof.
  intros Hr W Hx. apply fwp_fn, wp_bind, wp_call. eapply fwp_mono; [by eapply release_if_holder_refines|].
  intros [] s1 Hr1. apply wp_call. destruct (mutex_release_if_holder a m x p Hx) as [x' Hx'].
  eapply remove_waiter_refines; [done|by apply awf_release_if_holder|done].
Qed.
End api.
