(* ===== verification/SchedSys.v ===== *)
(** * An architecture port

    The initial register frame of [arch/armv8m/coroutine_armv8m.c], and a port
    whose coroutines execute a given list of scheduler calls, with the proof
    that it keeps the promises of [CoArchSpec]. The effect of the exception
    handlers on the scheduler's variables is that of [PendSV_Handler]: control
    returns to the bootstrap context when no target is pending. *)

From Stdlib Require Import ZArith Lia.
From stdpp Require Import base list numbers option sets relations.
From S2P Require Import Prelude Buffers CState Frame Coroutine Mutex SchedRep SchedRun SchedSpec SchedOps SchedMutex SchedLife.

Definition WT_ARMV8M_STACK_SEAL : Z := 0xFEF5EDA5.
Definition WT_EXC_RETURN_S_THREAD_PSP : Z := 0xFFFFFFFD.

(** The frame from its lowest word: R4 to R11, R0 to R3, R12, LR, PC, xPSR and
    two seal words. *)
Definition initial_frame (trampoline entry arg : Z) : list Z :=
  [entry; 0; 0; 0; 0; 0; 0; 0; arg; 0; 0; 0; 0; 0; trampoline; 0x01000000;
   WT_ARMV8M_STACK_SEAL; WT_ARMV8M_STACK_SEAL].

Definition armv8m_init_stack (trampoline : Z) (p : co_ref) (entry arg : Z) : func sched unit := fn (
  c ← get_co p;
  let sp := (co_stack_base c + co_stack_size c) .&~ 7 in
  let frame := initial_frame trampoline entry arg in
  let top := sp - 4 * Z.of_nat (length frame) in
  modify (λ s, s <| sc_memory := mem_write (sc_memory s) top (concat (le32 <$> frame)) |>);;
  mod_co p (λ c, c <| co_sp := top |> <| co_exc_return := WT_EXC_RETURN_S_THREAD_PSP |>)).

Lemma ldiff7_bounds z : 0 ≤ z → z - 7 ≤ z .&~ 7 ≤ z.
Proof.
  intros Hz. replace (z .&~ 7) with (z - z mod 8).
  - pose proof (Z.mod_pos_bound z 8). lia.
  - change 7 with (Z.ones 3). rewrite Z.ldiff_ones_r by lia. rewrite Z.shiftl_mul_pow2, Z.shiftr_div_pow2 by lia.
    change (2 ^ 3) with 8. pose proof (Z.div_mod z 8). lia.
Qed.

Lemma armv8m_init_stack_ok trampoline s p c entry arg :
  co_at p s = Some c → p ≠ CoBootstrap → 0 < co_stack_base c → WT_CO_STACK_MIN ≤ co_stack_size c →
  co_stack_base c + co_stack_size c < 2 ^ 32 → co_stack_base c .& 7 = 0 →
  fwp (armv8m_init_stack trampoline p entry arg) (λ _ s', arch_save p s s') s.
Proof.
  intros Hc Hne Hb Hs _ _. apply fwp_fn, wp_bind. eapply wp_get_co; [done|]. apply wp_bind, wp_modify.
  eapply wp_mod_co; [by rewrite co_at_memory|]. set (frame := initial_frame trampoline entry arg).
  set (top := _ - 4 * _). exists c, top, WT_EXC_RETURN_S_THREAD_PSP, (mem_write (sc_memory s) top (concat (le32 <$> frame))).
  split_and!; [done|by destruct p|]. intros x Hx. unfold mem_write.
  assert (Z.of_nat (length (concat (le32 <$> frame))) = 72) as -> by done.
  destruct (Z.leb_spec top x); [|done]. destruct (Z.ltb_spec x (top + 72)); [|done]. exfalso. apply Hx.
  pose proof (ldiff7_bounds (co_stack_base c + co_stack_size c)). subst top. unfold WT_CO_STACK_MIN in *.
  change (4 * Z.of_nat (length frame)) with 72 in *. lia.
Qed.

(** ** Leaving a coroutine *)

(** [PendSV_Handler] with no pending target. *)
Definition to_bootstrap : func sched unit := fn (
  modify (λ s, s <| g_wt_co_pendsv_target := None |> <| g_wt_co_current := Some CoBootstrap |>)).

Lemma to_bootstrap_ok s p c : co_at p s = Some c →
  fwp to_bootstrap (λ _ s', ∃ s0, arch_save p s s0 ∧
    s' = s0 <| g_wt_co_pendsv_target := None |> <| g_wt_co_current := Some CoBootstrap |>) s.
Proof.
  intros Hc. apply fwp_fn, wp_modify. exists s. split; [|done].
  exists c, (co_sp c), (co_exc_return c), (sc_memory s). split_and!; [done| |done].
  destruct s as [tb bt cu pe hd tl ct me mx pa], p as [|i]; simpl in *; unfold set_field, set_g_wt_co_bootstrap, set_g_co_table, set_sc_memory; simpl.
  - injection Hc as <-. by destruct bt.
  - f_equal. symmetry. rewrite <-(list_insert_id _ _ _ Hc) at 2. f_equal. by destruct c.
Qed.

(** A coroutine that blocks at once. *)
Definition block_at_once (p : co_ref) : func sched unit := fn (
  mod_co p (λ c, c <| co_state := WT_CO_BLOCKED |>);; call to_bootstrap).
#[local] Instance idle_arch (trampoline : Z) : CoArch := {|
  wt_co_arch_init_stack := armv8m_init_stack trampoline;
  wt_co_arch_enter := block_at_once;
  wt_co_arch_leave := to_bootstrap;
  wt_co_arch_request_preempt := to_bootstrap;
  wt_platform_priv_stack_ok := λ _ _, true;
|}.

#[local] Instance idle_arch_ok trampoline : CoArchSpec (H := idle_arch trampoline).
Proof.
  split.
  - apply armv8m_init_stack_ok.
  - intros s p c _ _ Hc. by eapply to_bootstrap_ok.
  - intros s p c _ _ Hc _. by eapply to_bootstrap_ok.
  - intros s a p Hr W Hcur Hne. rewrite <-Hcur in Hne.
    destruct (current_running a W Hne) as (k & Hk & _). rewrite Hcur in Hk.
    destruct (live_slot s a _ k (rp_base s a Hr) Hk) as (c & Hc & [R1 R2 R3 R4 R5] & _).
    apply fwp_fn, wp_bind. eapply wp_mod_co; [done|]. apply wp_call.
    eapply fwp_mono; [eapply to_bootstrap_ok; by eapply co_at_put_eq|]. intros [] s' (s0 & Hsv & ->).
    exists (a_block a). split; [|split; [by apply rtc_once, step_block|done]]. unfold a_block. rewrite Hcur.
    erewrite a_upd_at by done. eapply leave_refines; [| |by eapply a_co_put_eq|done].
    + eapply rep_put; [done..|]. by constructor.
    + by eapply put_stacks, awf_stacks.
Qed.

(** ** Scripted coroutines *)

(** The scheduler calls of a coroutine; the mutex is the first one. *)
Inductive co_act := ActWake (i : nat) | ActAcquire | ActRelease | ActPreempt | ActFault.

Section script.
Context (trampoline : Z).
#[local] Existing Instance idle_arch.

(** The calls until control leaves the coroutine; at the end of the list it
    blocks. An acquire that has to wait blocks, as the gate does on the
    partition's behalf. *)
Fixpoint run_acts (self : co_ref) (acts : list co_act) : prog sched unit unit :=
  match acts with
  | [] => call (wt_co_block (H := idle_arch trampoline))
  | ActWake i :: l =>
    count ← gets g_co_count;
    when (S i <? count)%nat (call (wt_co_wake (Some (CoSlot i))));; run_acts self l
  | ActAcquire :: l =>
    ms ← gets sc_mutexes;
    if (length ms =? 1)%nat then
      r ← call (wt_mutex_acquire_queued (Some 0%nat) (Some self));
      if r =? 1 then call (wt_co_block (H := idle_arch trampoline)) else run_acts self l
    else run_acts self l
  | ActRelease :: l =>
    ms ← gets sc_mutexes;
    when (length ms =? 1)%nat (call (wt_mutex_release (H := idle_arch trampoline) 0);; mret tt);; run_acts self l
  | ActPreempt :: _ => call (wt_co_request_preempt (H := idle_arch trampoline));; mret tt
  | ActFault :: _ => call (wt_co_mark_faulted (Some self))
  end.

Lemma run_acts_ok acts E s a p :
  rep s a → awf a → a_current a = p → p ≠ CoBootstrap →
  wp (run_acts p acts) E (λ _ s', ∃ a', rep s' a' ∧ slice a a') s.
Proof.
  assert (∀ a1 a2, co_step a1 a2 → a_current a2 = CoBootstrap → slice a1 a2) as Hend.
  { intros a1 a2 Hs Hc. split; [by apply rtc_once|done]. }
  assert (∀ a1 a2 a3, co_step a1 a2 → slice a2 a3 → slice a1 a3) as Hmore.
  { intros a1 a2 a3 Hs [Hr Hc]. split; [by eapply rtc_l|done]. }
  assert (∀ s a, rep s a → length (sc_mutexes s) = length (a_mutexes a)) as Hlen.
  { intros s0 a0 Hr. eapply Forall2_length, Hr. }
  assert (∀ q a, a_current (a_wake q a) = a_current a) as Hcw.
  { intros q b. unfold a_wake, a_upd. destruct (a_state b q) as [[]|]; try done; destruct (a_co b q), q; done. }
  revert s a. induction acts as [|[i| | | |] acts IH]; intros s a Hr W Hcur Hne; simpl run_acts.
  - apply wp_call. eapply fwp_mono; [eapply block_refines; [done|done|by rewrite Hcur]|]. intros [] s' Hr'.
    exists (a_block a). split; [done|]. apply Hend; [|done]. apply step_block. by rewrite Hcur.
  - apply wp_bind, wp_gets, wp_bind. rewrite (br_count s a (rp_base s a Hr)). apply wp_when; intros Ei.
    + apply Nat.ltb_lt in Ei. destruct (lookup_lt_is_Some_2 (a_cos a) i) as [k Hk]; [lia|].
      apply wp_call. eapply fwp_mono; [eapply (wake_refines s a (CoSlot i)); [done|done|by exists k]|].
      intros [] s' Hr'. eapply wp_mono; [apply IH; [done|by apply awf_wake|by rewrite Hcw|done]|exact (λ _ _ H, H)|].
      intros _ s2 (a' & ? & ?). exists a'. split; [done|]. eapply Hmore; [|done]. apply step_wake; [by rewrite Hcur|by exists k].
    + by apply IH.
  - apply wp_bind, wp_gets. rewrite (Hlen s a Hr). destruct (Nat.eqb_spec (length (a_mutexes a)) 1) as [E1|]; [|by apply IH].
    destruct (lookup_lt_is_Some_2 (a_mutexes a) 0) as [x Hx]; [lia|]. change (a_mutex a 0 = Some x) in Hx.
    destruct (current_running a W) as (k & Hk & _); [by rewrite Hcur|].
    assert (may_queue a 0 p) as Hmq.
    { split; [rewrite <-Hcur; by exists k|]. intros m y Hm0 Hy%lookup_lt_Some. lia. }
    apply wp_bind, wp_call. eapply fwp_mono; [by eapply acquire_queued_refines|]. intros r s' [Hr' ->].
    assert (co_step a (a_queue_up 0 p a)) as Hs.
    { rewrite <-Hcur. apply step_acquire; [by rewrite Hcur|]. by rewrite Hcur. }
    assert (a_current (a_queue_up 0 p a) = p) as Hc1.
    { unfold a_queue_up. rewrite Hx. destruct (a_holder x); [|done]. by destruct (decide _). }
    assert (awf (a_queue_up 0 p a)) as W1 by by apply awf_queue_up.
    destruct (decide _); simpl.
    + eapply wp_mono; [by apply IH|exact (λ _ _ H, H)|]. intros _ s2 (a' & ? & ?). exists a'. split; [done|]. by eapply Hmore.
    + apply wp_call. eapply fwp_mono; [eapply block_refines; [done|done|by rewrite Hc1]|]. intros [] s2 Hr2.
      eexists. split; [done|]. eapply Hmore; [done|]. apply Hend; [|done]. apply step_block. by rewrite Hc1.
  - apply wp_bind, wp_gets, wp_bind. rewrite (Hlen s a Hr). apply wp_when; intros E1; [|by apply IH].
    apply Nat.eqb_eq in E1. destruct (lookup_lt_is_Some_2 (a_mutexes a) 0) as [x Hx]; [lia|]. change (a_mutex a 0 = Some x) in Hx.
    apply wp_bind, wp_call. eapply fwp_mono; [by eapply release_refines|]. intros r s' [Hr' _]. apply wp_ret.
    assert (a_current (a_release 0 a) = p) as Hc1.
    { unfold a_release, a_pass_on. rewrite Hx. destruct (decide _); [|done]. destruct (a_waiters x); [done|]. by rewrite Hcw. }
    eapply wp_mono; [apply IH; [done|by apply awf_release|done|done]|exact (λ _ _ H, H)|].
    intros _ s2 (a' & ? & ?). exists a'. split; [done|]. eapply Hmore; [|done]. apply step_release. by rewrite Hcur.
  - apply wp_bind, wp_call. eapply fwp_mono; [by eapply preempt_refines|]. intros r s' Hp. apply wp_ret.
    destruct (decide (a_current a = CoBootstrap)) as [E1|]; [by rewrite Hcur in E1|]. destruct Hp as [_ Hr'].
    exists (a_preempt a). split; [done|]. apply Hend; [|done]. by apply step_preempt.
  - destruct (current_running a W) as (k & Hk & _); [by rewrite Hcur|].
    apply wp_call. eapply fwp_mono; [eapply (mark_faulted_refines s a p); [done|done|rewrite <-Hcur; by exists k]|].
    intros [] s' Hr'. exists (a_fault p a). split; [done|]. apply Hend.
    + rewrite <-Hcur. apply step_fault. by rewrite Hcur.
    + unfold a_fault, descend. simpl. assert (a_current (a_upd p (λ k, k <| a_st := WT_CO_FAULTED |>) (unqueue p a)) = p) as ->.
      { unfold a_upd. destruct (a_co _ p); [by rewrite a_put_current|done]. }
      by rewrite decide_True.
Qed.

(** What coroutine [p] does when it is dispatched in state [s]. *)
Context (behaviour : co_ref → sched → list co_act).

Definition script_arch : CoArch := {|
  wt_co_arch_init_stack := armv8m_init_stack trampoline;
  wt_co_arch_enter := λ p, fn (acts ← gets (behaviour p); run_acts p acts);
  wt_co_arch_leave := to_bootstrap;
  wt_co_arch_request_preempt := to_bootstrap;
  wt_platform_priv_stack_ok := λ _ _, true;
|}.

Lemma script_arch_ok : CoArchSpec (H := script_arch).
Proof.
  split.
  - apply armv8m_init_stack_ok.
  - intros s p c _ _ Hc. by eapply to_bootstrap_ok.
  - intros s p c _ _ Hc _. by eapply to_bootstrap_ok.
  - intros s a p Hr W Hcur Hne. apply fwp_fn, wp_bind, wp_gets. by eapply run_acts_ok.
Qed.
End script.

(** * The scheduler as a system

    The calls the monitor and the Secure Partition manager make from the
    bootstrap context and those a running coroutine makes, with the values they
    return, their specification, and the forward simulation that the code
    implements it. *)

Inductive sys_op :=
| SysCreate (stack stack_size entry arg : Z)
| SysCreateBlocked (stack stack_size entry arg : Z)
| SysCreateBlockedEx (stack stack_size entry arg : Z)
| SysWake (p : co_ref)
| SysRun (p : co_ref)
| SysTick (budget : nat)
| SysFault (p : co_ref)
| SysReinit (p : co_ref) (entry arg : Z)
| SysBlock
| SysPreempt
| SysAcquire (m : nat)
| SysAcquireResume (m : nat) (p : co_ref)
| SysAcquireFor (m : nat) (p : co_ref)
| SysTryAcquire (m : nat)
| SysRelease (m : nat)
| SysReleaseLocks (m : nat) (p : co_ref).

(** The value a call returns. *)
Inductive sys_ret :=
| RetVoid
| RetInt (rc : Z)
| RetBool (b : bool)
| RetCo (p : option co_ref)
| RetAcquire (r : acquire_result).

Section system.
Context `{CoArch}.

Definition returning {A} (ret : A → sys_ret) (f : func sched A) : func sched sys_ret :=
  fn (x ← call f; mret (ret x)).
Definition sys_exec (o : sys_op) : func sched sys_ret :=
  match o with
  | SysCreate b n e x => returning RetCo (wt_co_create b n e x)
  | SysCreateBlocked b n e x => returning RetCo (wt_co_create_blocked b n e x)
  | SysCreateBlockedEx b n e x => returning RetCo (wt_co_create_blocked_ex b n e x)
  | SysWake p => returning (λ _, RetVoid) (wt_co_wake (Some p))
  | SysRun p => returning RetInt (wt_co_run (Some p))
  | SysTick n => returning RetInt (wt_co_tick n)
  | SysFault p => returning (λ _, RetVoid) (wt_co_mark_faulted (Some p))
  | SysReinit p e x => returning RetInt (wt_co_reinit (Some p) e x)
  | SysBlock => returning (λ _, RetVoid) wt_co_block
  | SysPreempt => returning RetBool wt_co_request_preempt
  | SysAcquire m => returning RetAcquire (wt_mutex_acquire m)
  | SysAcquireResume m p => returning RetAcquire (wt_mutex_acquire_resume m p)
  | SysAcquireFor m p => returning RetInt (wt_mutex_acquire_queued (Some m) (Some p))
  | SysTryAcquire m => returning RetBool (wt_mutex_try_acquire m)
  | SysRelease m => returning RetInt (wt_mutex_release m)
  | SysReleaseLocks m p => returning (λ _, RetVoid) (wt_hsm_release_locks m (Some p))
  end.
Fixpoint sys_exec_all (ops : list sys_op) : prog sched unit unit :=
  match ops with [] => mret tt | o :: l => call (sys_exec o);; sys_exec_all l end.
(** From reset. *)
Definition sys_boot (ops : list sys_op) : func sched unit := fn (call wt_co_init;; sys_exec_all ops).

(** ** Specification *)

(** The holder of mutex [m]. *)
Definition a_held (m : nat) (a : asched) : option co_ref := a_mutex a m ≫= a_holder.

(** A free mutex is taken. *)
Definition a_take (m : nat) (p : option co_ref) (a : asched) : asched :=
  match a_mutex a m with Some x => a_put_mutex m (x <| a_holder := p |>) a | None => a end.

(** The callers' obligations: coroutine handles name created coroutines and
    mutexes exist, a new stack is apart from the others, a coroutine is
    restarted only when it waits for no mutex, only a coroutine blocks, and it
    does not wait for a mutex that it holds or while it waits for another. *)
Definition permitted (o : sys_op) (a : asched) : Prop :=
  match o with
  | SysCreate b n _ _ => fresh_stack a (created WT_CO_RUNNABLE b n)
  | SysCreateBlocked b n _ _ | SysCreateBlockedEx b n _ _ => fresh_stack a (created WT_CO_BLOCKED b n)
  | SysWake p | SysRun p | SysFault p => is_Some (a_co a p)
  | SysTick _ | SysPreempt => True
  | SysReinit p e _ => is_Some (a_co a p) ∧ ¬ waits a p ∧ e ≠ 0
  | SysBlock => a_current a ≠ CoBootstrap
  | SysAcquire m => is_Some (a_mutex a m) ∧ ∀ p, a_self a = Some p → a_held m a ≠ Some p ∧ ¬ waits a p
  | SysAcquireResume m p => is_Some (a_mutex a m) ∧ a_self a = Some p
  | SysAcquireFor m p => is_Some (a_mutex a m) ∧ may_queue a m p
  | SysTryAcquire m | SysRelease m | SysReleaseLocks m _ => is_Some (a_mutex a m)
  end.

(** A creation returns the new coroutine, or null with nothing changed. *)
Definition spec_create (b n e : Z) (st : wt_co_state_t) (lim : Z) (priv : bool) (a : asched) (r : sys_ret) (a' : asched) : Prop :=
  if create_accepts (S (length (a_cos a))) b n e lim priv
  then r = RetCo (Some (CoSlot (length (a_cos a)))) ∧ a' = a_create (created st b n) a
  else r = RetCo None ∧ a' = a.

(** Only a coroutine acquires a mutex: a free one at once, else it joins the
    end of the queue and is suspended. *)
Definition spec_acquire (m : nat) (a : asched) (r : sys_ret) (a' : asched) : Prop :=
  match a_self a with
  | None => r = RetAcquire (Returned (-1)) ∧ a' = a
  | Some p => if decide (a_held m a = None) then r = RetAcquire (Returned 0) ∧ a' = a_queue_up m p a
              else r = RetAcquire Suspended ∧ a' = a_block (a_queue_up m p a)
  end.

(** [sys_spec o a r a']: the call [o] in state [a] returns [r] and leaves
    [a']. *)
Definition sys_spec (o : sys_op) (a : asched) (r : sys_ret) (a' : asched) : Prop :=
  match o with
  | SysCreate b n e _ => spec_create b n e WT_CO_RUNNABLE WT_CO_STACK_SIZE true a r a'
  | SysCreateBlocked b n e _ => spec_create b n e WT_CO_BLOCKED WT_CO_STACK_SIZE true a r a'
  | SysCreateBlockedEx b n e _ => spec_create b n e WT_CO_BLOCKED WT_CO_STACK_MIN false a r a'
  | SysWake p => r = RetVoid ∧ a' = a_wake p a
  | SysRun p => if decide (a_current a = CoBootstrap ∧ a_state a p = Some WT_CO_RUNNABLE)
                then r = RetInt 1 ∧ slice (a_switch p a) a' else r = RetInt 0 ∧ a' = a
  | SysTick n => if decide (a_current a = CoBootstrap)
                 then ∃ l, r = RetInt (Z.of_nat (length l)) ∧ ran l a a' ∧ (length l ≤ n)%nat ∧
                           (a_runq a' = [] ∨ length l = n)
                 else r = RetInt 0 ∧ a' = a
  | SysFault p => r = RetVoid ∧ a' = a_fault p a
  | SysReinit p _ _ => r = RetInt 0 ∧ a' = a_reinit p a
  | SysBlock => r = RetVoid ∧ a' = a_block a
  | SysPreempt => if decide (a_current a = CoBootstrap) then r = RetBool false ∧ a' = a
                  else r = RetBool true ∧ a' = a_preempt a
  | SysAcquire m => spec_acquire m a r a'
  | SysAcquireResume m p => if decide (a_held m a = Some p) then r = RetAcquire (Returned 0) ∧ a' = a
                            else r = RetAcquire Suspended ∧ a' = a_block a
  | SysAcquireFor m p => r = RetInt (if decide (a_held m a = None ∨ a_held m a = Some p) then 0 else 1) ∧
                         a' = a_queue_up m p a
  | SysTryAcquire m => if decide (a_held m a = None)
                       then r = RetBool true ∧ a' = a_take m (a_self a) a else r = RetBool false ∧ a' = a
  | SysRelease m => r = RetInt (if decide (a_held m a = a_self a) then 0 else -1) ∧ a' = a_release m a
  | SysReleaseLocks m p => r = RetVoid ∧ a' = a_release_locks m p a
  end.

(** A sequence of calls that is permitted whatever the coroutines do in
    their slices. *)
Fixpoint may_run (ops : list sys_op) (a : asched) : Prop :=
  match ops with
  | [] => True
  | o :: l => permitted o a ∧ ∀ r a', sys_spec o a r a' → may_run l a'
  end.

(** The state between calls: represented, well-formed, bootstrap running. *)
Definition idle (s : sched) (a : asched) : Prop := rep s a ∧ awf a ∧ a_current a = CoBootstrap.
End system.

(** ** Between calls the bootstrap context runs *)

Lemma current_wake p a : a_current (a_wake p a) = a_current a.
Proof. unfold a_wake, a_upd. destruct (a_state a p) as [[]|]; try done; destruct (a_co a p), p; done. Qed.
Lemma current_pass_on m x a : a_current (a_pass_on m x a) = a_current a.
Proof. unfold a_pass_on. destruct (a_waiters x); [done|]. by rewrite current_wake. Qed.
Lemma current_retire p f a : a_current a = CoBootstrap → a_current (descend p (a_upd p f (unqueue p a))) = CoBootstrap.
Proof.
  intros Hc. unfold descend, a_upd. rewrite co_unqueue. simpl.
  destruct (a_co a p); simpl; rewrite ?a_put_current; simpl; rewrite Hc; by destruct (decide _).
Qed.
Lemma ran_wf l a a' : awf a → a_current a = CoBootstrap → ran l a a' → awf a' ∧ a_current a' = CoBootstrap.
Proof.
  intros W Hc Hr. revert W Hc. induction Hr as [a|p q l a a1 a' Hq Hs Hr IH]; intros W Hc; [done|].
  apply IH; [|apply Hs]. eapply awf_slice; [|done]. apply awf_switch; [done|done|].
  pose proof (aw_runq a W) as Hf. rewrite Hq in Hf. apply Forall_cons in Hf as [(k & Hk & Hst) _].
  unfold a_state. rewrite Hk. simpl. congruence.
Qed.

(** Taking a free mutex: its queue is empty. *)
Lemma awf_take a m x p : awf a → a_mutex a m = Some x → a_holder x = None → (∀ q, p = Some q → is_Some (a_co a q)) →
  awf (a_take m p a).
Proof.
  intros W Hx Hh Hp. unfold a_take. rewrite Hx. destruct (mutex_at a m x W Hx) as [M1 M2 M3 M4]. specialize (M3 Hh).
  apply (awf_put_mutex a m x); [done|done| |simpl; auto].
  constructor; simpl; rewrite ?M3; [|by intros ? _ ?%not_elem_of_nil|done|constructor].
  intros q [->|Hq]; [by apply Hp|by apply not_elem_of_nil in Hq].
Qed.
Lemma self_live a p : awf a → a_self a = Some p → is_Some (a_co a p) ∧ a_current a = p ∧ p ≠ CoBootstrap.
Proof.
  intros W. unfold a_self. destruct (decide _) as [|Hne]; [done|]. intros [= <-].
  destruct (current_running a W Hne) as (k & Hk & _). eauto.
Qed.
Lemma current_queue_up m p a : a_current (a_queue_up m p a) = a_current a.
Proof. unfold a_queue_up. destruct (a_mutex a m) as [x|]; [|done]. destruct (a_holder x); [|done]. by destruct (decide _). Qed.
Lemma current_release m a : a_current (a_release m a) = a_current a.
Proof.
  unfold a_release. destruct (a_mutex a m) as [x|]; [|done]. destruct (decide _); [|done]. apply current_pass_on.
Qed.
Lemma current_release_locks m p a : a_current (a_release_locks m p a) = a_current a.
Proof.
  unfold a_release_locks, a_remove_waiter. assert (a_current (a_release_if_holder m p a) = a_current a) as <-.
  { unfold a_release_if_holder. destruct (a_mutex a m) as [x|]; [|done]. destruct (decide _); [|done]. apply current_pass_on. }
  by destruct (a_mutex (a_release_if_holder m p a) m).
Qed.

(** The bootstrap context, once it runs, runs after every call. *)
Definition stays (a a' : asched) : Prop := awf a' ∧ (a_current a = CoBootstrap → a_current a' = CoBootstrap).

Lemma acquire_stays `{CoArch} m a r a' : awf a → permitted (SysAcquire m) a → spec_acquire m a r a' → stays a a'.
Proof.
  intros W [_ Hm]. unfold spec_acquire. destruct (a_self a) as [p|] eqn:Hs; [|by intros [_ ->]].
  destruct (self_live a p W Hs) as (Hl & Hc & Hne). destruct (Hm p eq_refl) as [_ Hw].
  assert (awf (a_queue_up m p a)) as W'.
  { apply awf_queue_up; [done|]. split; [done|]. intros m' y _ Hy Hin. apply Hw. by exists m', y. }
  destruct (decide _); intros [_ ->]; (split; [|by rewrite ?current_queue_up]); [done|].
  apply awf_block; [done|]. rewrite current_queue_up. by subst p.
Qed.

Lemma spec_stays `{CoArch} o a r a' : awf a → permitted o a → sys_spec o a r a' → stays a a'.
Proof.
  intros W. assert (∀ p, is_Some (a_co a p) → p ≠ CoBootstrap) as Hslot by (intros [] []; done).
  destruct o as [b n e x|b n e x|b n e x|p|p|n|p|p e x| | |m|m p|m p|m|m|m p]; simpl.
  1-3: unfold spec_create; intros Hf; destruct (create_accepts _ _ _ _ _ _); intros [_ ->]; [|done];
    (split; [by apply awf_create|done]).
  - intros _ [_ ->]. split; [auto using awf_wake|by rewrite current_wake].
  - intros Hp. destruct (decide _) as [[Hc Hst]|]; intros [_ Ha]; [|by subst a'].
    split; [|intros _; apply Ha]. eapply awf_slice; [|done]. by apply awf_switch.
  - intros _. destruct (decide _) as [Hc|]; [|by intros [_ ->]]. intros (l & _ & Hr & _).
    destruct (ran_wf l a a' W Hc Hr). by split.
  - intros Hp [_ ->]. split; [by apply awf_fault; auto|intros; by apply current_retire].
  - intros (Hp & _) [_ ->]. split; [by apply awf_reinit; auto|intros; by apply current_retire].
  - intros Hne [_ ->]. split; [by apply awf_block|done].
  - intros _. destruct (decide _); intros [_ ->]; [done|]. split; [by apply awf_preempt|done].
  - by apply acquire_stays.
  - intros [_ Hs]. destruct (self_live a p W Hs) as (_ & Hc & Hne). destruct (decide _); intros [_ ->]; [done|].
    split; [|done]. apply awf_block; [done|]. by rewrite Hc.
  - intros (_ & Hq) [_ ->]. split; [by apply awf_queue_up|by rewrite current_queue_up].
  - intros [x Hx]. destruct (decide _) as [Hh|]; intros [_ ->]; [|done]. unfold a_held in Hh. rewrite Hx in Hh. simpl in Hh.
    split; [|unfold a_take; by rewrite Hx]. eapply awf_take; [done..|]. intros q Hq. by apply (self_live a q).
  - intros _ [_ ->]. split; [by apply awf_release|by rewrite current_release].
  - intros _ [_ ->]. split; [by apply awf_remove_waiter, awf_release_if_holder|by rewrite current_release_locks].
Qed.
Lemma spec_wf `{CoArch} o a r a' : awf a → a_current a = CoBootstrap → permitted o a → sys_spec o a r a' →
  awf a' ∧ a_current a' = CoBootstrap.
Proof. intros W Hc Hp Hs. destruct (spec_stays o a r a' W Hp Hs). auto. Qed.

(** ** The simulation *)

Lemma fwp_returning {A} (ret : A → sys_ret) (f : func sched A) (Q : sys_ret → sched → Prop) s :
  fwp f (λ x, Q (ret x)) s → fwp (returning ret f) Q s.
Proof. intros Hf. apply fwp_fn, wp_bind, wp_call. eapply fwp_mono; [exact Hf|]. intros a s' HQ. by apply wp_ret. Qed.

Section simulation.
Context `{CoArchSpec}.

Lemma create_simulates s a b n e x st lim priv :
  rep s a → awf a → fresh_stack a (created st b n) → st ≠ WT_CO_RUNNING →
  fwp (returning RetCo (wt_co_create_common b n e x st lim priv))
    (λ r s', ∃ a', rep s' a' ∧ spec_create b n e st lim priv a r a') s.
Proof.
  intros Hr W Hf Hst. apply fwp_returning. eapply fwp_mono; [by apply create_refines|]. intros r s'. unfold spec_create.
  rewrite (br_count s a (rp_base s a Hr)).
  destruct (create_accepts _ b n e lim priv); intros [-> Hs']; [eauto|]. subst s'. eauto.
Qed.
Lemma tick_away s a n : rep s a → a_current a ≠ CoBootstrap → fwp (wt_co_tick n) (λ r s', r = 0 ∧ s' = s) s.
Proof.
  intros Hr Hne. apply fwp_fn, wp_bind, wp_gets. rewrite (br_current s a (rp_base s a Hr)).
  apply wp_bind, wp_when; rewrite bool_decide_false by congruence; [|done]. intros _. by apply wp_early.
Qed.

Lemma co_simulates o s a : rep s a → awf a → permitted o a →
  match o with SysAcquire _ | SysAcquireResume _ _ | SysAcquireFor _ _ | SysTryAcquire _ | SysRelease _ | SysReleaseLocks _ _ => True
  | _ => fwp (sys_exec o) (λ r s', ∃ a', rep s' a' ∧ sys_spec o a r a') s end.
Proof.
  intros Hr W. destruct o as [b n e x|b n e x|b n e x|p|p|n|p|p e x| | |m|m p|m p|m|m|m p]; cbn [sys_exec permitted sys_spec]; try done.
  1-3: intros Hf; unfold wt_co_create, wt_co_create_blocked, wt_co_create_blocked_ex;
    eapply create_simulates; [exact Hr|exact W|exact Hf|discriminate].
  all: intros Hp; apply fwp_returning.
  - eapply fwp_mono; [by apply wake_refines|]. intros [] s' Hs'. eauto.
  - eapply fwp_mono; [by apply run_refines|]. simpl. intros r s' Hs'. destruct (decide _).
    + destruct Hs' as (-> & a' & ? & ?). eauto.
    + destruct Hs' as [-> ->]. eauto.
  - destruct (decide (a_current a = CoBootstrap)).
    + eapply fwp_mono; [by apply tick_refines|]. intros r s' (l & a' & ? & _ & ? & -> & ? & ?). eauto 10.
    + eapply fwp_mono; [by eapply tick_away|]. intros r s' [-> ->]. eauto.
  - eapply fwp_mono; [by apply mark_faulted_refines|]. intros [] s' Hs'. eauto.
  - destruct Hp as (Hp & Hw & He). eapply fwp_mono; [by apply reinit_refines|]. intros r s' [-> ?]. eauto.
  - eapply fwp_mono; [by apply block_refines|]. intros [] s' Hs'. eauto.
  - eapply fwp_mono; [by eapply preempt_refines|]. intros r s'. destruct (decide _); intros [-> Hs']; [subst s'|]; eauto.
Qed.

Lemma mutex_simulates o s a : rep s a → awf a → permitted o a →
  match o with SysAcquire _ | SysAcquireResume _ _ | SysAcquireFor _ _ | SysTryAcquire _ | SysRelease _ | SysReleaseLocks _ _ =>
    fwp (sys_exec o) (λ r s', ∃ a', rep s' a' ∧ sys_spec o a r a') s | _ => True end.
Proof.
  intros Hr W. destruct o as [b n e x|b n e x|b n e x|p|p|n|p|p e x| | |m|m p|m p|m|m|m p];
    cbn [sys_exec permitted sys_spec]; try done; intros Hp; apply fwp_returning.
  - destruct Hp as [[x Hx] Hp]. unfold spec_acquire, a_held in *. rewrite Hx in *. simpl in *.
    eapply fwp_mono; [by eapply acquire_refines|]. intros r s'. destruct (a_self a) as [p|]; [|intros [-> ->]; eauto].
    destruct (decide _); intros [-> ?]; eauto.
  - destruct Hp as [[x Hx] Hs]. destruct (self_live a p W Hs) as (_ & Hc & Hne). unfold a_held. rewrite Hx. simpl.
    eapply fwp_mono; [by eapply acquire_resume_refines|]. intros r s'. destruct (decide _); intros [-> ?]; eauto.
  - destruct Hp as [[x Hx] Hq]. unfold a_held. rewrite Hx. simpl.
    eapply fwp_mono; [by eapply acquire_queued_refines|]. intros r s' [? ->]. eauto.
  - destruct Hp as [x Hx]. unfold a_held, a_take. rewrite Hx. simpl.
    eapply fwp_mono; [by eapply try_acquire_refines|]. intros r s'. destruct (decide _); intros [-> Hs']; [|subst s']; eauto.
  - destruct Hp as [x Hx]. unfold a_held. rewrite Hx. simpl.
    eapply fwp_mono; [by eapply release_refines|]. intros r s' [? ->]. eauto.
  - destruct Hp as [x Hx]. eapply fwp_mono; [by eapply release_locks_refines|]. intros [] s' Hs'. eauto.
Qed.

Lemma sys_simulates o s a : rep s a → awf a → permitted o a →
  fwp (sys_exec o) (λ r s', ∃ a', rep s' a' ∧ stays a a' ∧ sys_spec o a r a') s.
Proof.
  intros Hr W Hp. eapply (fwp_mono _ (λ r s', ∃ a', rep s' a' ∧ sys_spec o a r a')).
  - pose proof (co_simulates o s a Hr W Hp) as H1. pose proof (mutex_simulates o s a Hr W Hp) as H2. by destruct o.
  - intros r s' (a' & ? & Hs). exists a'. split_and!; [done| |done]. by eapply spec_stays.
Qed.

Lemma sys_exec_all_ok ops E s a : idle s a → may_run ops a →
  wp (sys_exec_all ops) E (λ _ s', ∃ a', idle s' a') s.
Proof.
  revert s a. induction ops as [|o ops IH]; intros s a Hi Hm; simpl; [apply wp_ret; eauto|].
  destruct Hm as [Hp Hm], Hi as (Hr & W & Hc). apply wp_bind, wp_call.
  eapply fwp_mono; [by apply (sys_simulates o s a)|]. intros r s' (a' & Hr' & [W' Hc'] & Hs).
  apply (IH s' a'); [split_and!; auto|by eapply Hm].
Qed.
End simulation.
