(* ===== verification/SchedProps.v ===== *)
(** * Properties of the scheduler and of the mutexes *)

From Stdlib Require Import ZArith Lia.
From stdpp Require Import base list numbers option sets relations.
From S2P Require Import Prelude Buffers CState Frame Coroutine Mutex SchedRep SchedRun SchedSpec SchedOps SchedLife SchedMutex SchedSys.

(** ** Shared lemmas *)

Lemma mutexes_wake p a : a_mutexes (a_wake p a) = a_mutexes a.
Proof. unfold a_wake, a_upd. destruct (a_state a p) as [[]|]; try done; destruct (a_co a p), p; done. Qed.
Lemma mutex_put_eq m x x' a : a_mutex a m = Some x → a_mutex (a_put_mutex m x' a) m = Some x'.
Proof. intros Hx. apply list_lookup_insert_eq. by eapply lookup_lt_Some. Qed.
Lemma mutex_pass_on m x a : a_mutex a m = Some x →
  a_mutex (a_pass_on m x a) m = Some {| a_holder := head (a_waiters x); a_waiters := tail (a_waiters x) |}.
Proof.
  intros Hx. unfold a_pass_on. destruct (a_waiters x) as [|w ws]; [by eapply mutex_put_eq|].
  unfold a_mutex. rewrite mutexes_wake. by eapply mutex_put_eq.
Qed.

(** The lock after a dead coroutine has been cleared from it. *)
Definition cleared (p : co_ref) (x : amutex) : amutex :=
  if decide (a_holder x = Some p) then {| a_holder := head (a_waiters x); a_waiters := tail (a_waiters x) |}
  else {| a_holder := a_holder x; a_waiters := filter (λ w, w ≠ p) (a_waiters x) |}.

Lemma mutex_release_locks m x p a : awf a → a_mutex a m = Some x →
  a_mutex (a_release_locks m p a) m = Some (cleared p x).
Proof.
  intros W Hx. destruct (mutex_at a m x W Hx) as [M1 M2 M3 M4].
  unfold a_release_locks, a_remove_waiter, a_release_if_holder, cleared. rewrite Hx.
  destruct (decide (a_holder x = Some p)) as [Hh|Hh].
  - rewrite (mutex_pass_on m x a Hx). erewrite mutex_put_eq by by apply mutex_pass_on. do 2 f_equal.
    rewrite filter_notin; [done|]. intros Hin. apply (M2 p Hh). destruct (a_waiters x); [done|by right].
  - rewrite Hx. erewrite mutex_put_eq by done. by destruct x.
Qed.
(** What the cleanup of a lock leaves alone. *)
Lemma release_locks_ind (P : asched → Prop) m p a :
  (∀ x b, P b → P (a_put_mutex m x b)) → (∀ w b, P b → P (a_wake w b)) → P a → P (a_release_locks m p a).
Proof.
  intros Hput Hwake Ha. assert (P (a_release_if_holder m p a)) as H1.
  { unfold a_release_if_holder, a_pass_on. destruct (a_mutex a m) as [x|]; [|done]. destruct (decide _); [|done].
    destruct (a_waiters x); auto. }
  unfold a_release_locks, a_remove_waiter. destruct (a_mutex _ m); auto.
Qed.
Lemma mutexes_release_locks m p a : length (a_mutexes (a_release_locks m p a)) = length (a_mutexes a).
Proof.
  apply (release_locks_ind (λ b, length (a_mutexes b) = length (a_mutexes a))); [| |done].
  - intros x b Hb. simpl. by rewrite length_insert.
  - intros w b Hb. by rewrite mutexes_wake.
Qed.
Lemma live_release_locks m p q a : is_Some (a_co a q) → is_Some (a_co (a_release_locks m p a) q).
Proof. apply (release_locks_ind (λ b, is_Some (a_co b q))); [by destruct q|]. intros w b. apply live_wake. Qed.
(** What a restart does to the coroutine itself. *)
Lemma state_reinit p a : is_Some (a_co a p) → p ≠ CoBootstrap →
  a_state (a_reinit p a) p = Some WT_CO_BLOCKED ∧ (p ∉ a_runq (a_reinit p a)) ∧ a_mutexes (a_reinit p a) = a_mutexes a.
Proof.
  intros [k Hk] Hne. unfold a_reinit. assert (a_co (unqueue p a) p = Some k) as Hk' by by rewrite co_unqueue.
  erewrite a_upd_at by done. split_and!.
  - unfold a_state. set (k' := k <| a_st := WT_CO_BLOCKED |> <| a_latch := false |>).
    assert (a_co (descend p (a_put p k' (unqueue p a))) p = a_co (a_put p k' (unqueue p a)) p) as -> by by destruct p.
    by erewrite a_co_put_eq.
  - simpl. rewrite a_put_runq. intros [? _]%list_elem_of_filter. done.
  - simpl. by rewrite a_put_mutexes.
Qed.

Section props.
Context `{CoArchSpec}.

(** C38: Every scheduler and mutex call, of the bootstrap context or of a
    running coroutine, made with its obligations met, terminates without
    undefined behaviour or panic, returns the value its specification gives and
    takes the linked structures to a state that specification allows: a FIFO
    run queue, latched wakes, mutexes handed over in order of arrival. A call
    that switches (block, preempt, a contended acquire) is followed up to the
    switch; the rest of a suspended acquire is a call of its own. *)
Theorem sched_implements o s a : rep s a → awf a → permitted o a →
  fwp (sys_exec o) (λ r s', ∃ a', rep s' a' ∧ awf a' ∧ sc_panicked s' = false ∧ sys_spec o a r a') s.
Proof.
  intros Hr W Hp. eapply fwp_mono; [by apply (sys_simulates o s a)|]. intros r s' (a' & Hr' & [W' _] & Hs).
  exists a'. split_and!; [done|done|apply Hr'|done].
Qed.

(** From reset, any permitted sequence of calls runs to its end whatever
    the coroutines do in their slices, the platform never panics, the run
    queue holds distinct runnable coroutines, no coroutine is left running,
    and a mutex with waiters is held by a coroutine that is not one of them. *)
Theorem sched_safe ops s : boot_state s → may_run ops (a_init (replicate (length (sc_mutexes s)) a_free)) →
  fwp (sys_boot ops) (λ _ s', sc_panicked s' = false ∧ g_wt_co_current s' = Some CoBootstrap ∧
    ∃ a, rep s' a ∧ NoDup (a_runq a) ∧
      (∀ p, p ∈ a_runq a → a_state a p = Some WT_CO_RUNNABLE) ∧
      (∀ p, a_state a p ≠ Some WT_CO_RUNNING) ∧
      (∀ m x, a_mutex a m = Some x → a_waiters x ≠ [] → ∃ h, a_holder x = Some h ∧ h ∉ a_waiters x)) s.
Proof.
  intros Hb Hm. apply fwp_fn, wp_bind, wp_call. eapply fwp_mono; [by apply init_refines|]. intros [] s1 Hr1.
  assert (∃ a, idle s1 a ∧ may_run ops a) as (a & Hi & Hma) by (eexists; split; [split; [done|split; [apply awf_init|done]]|done]).
  eapply wp_mono; [by eapply (sys_exec_all_ok ops)|exact (λ _ _ H, H)|]. intros [] s2 (a2 & Hr & W & Hc).
  split; [apply (br_alive _ _ (rp_base _ _ Hr))|]. split; [by rewrite (br_current _ _ (rp_base _ _ Hr)), Hc|].
  exists a2. split_and!; [done|apply W| | |].
  - intros p Hp. pose proof (aw_runq a2 W) as Hf. rewrite Forall_forall in Hf. destruct (Hf p Hp) as (k & Hk & Hst).
    unfold a_state. rewrite Hk. simpl. congruence.
  - intros p. unfold a_state. destruct (a_co a2 p) as [k|] eqn:Hk; [|done]. simpl. intros [= Hst].
    apply (aw_running a2 W p k Hk) in Hst. rewrite Hc in Hst. by subst p.
  - intros m x Hx Hw. destruct (mutex_at a2 m x W Hx) as [M1 M2 M3 M4]. destruct (a_holder x) as [h|] eqn:Hh.
    + exists h. split; [done|]. by apply M2.
    + by rewrite (M3 eq_refl) in Hw.
Qed.

(** A coroutine that releases a mutex it holds while others wait passes
    it to the one that has waited longest, keeps the others in order, and
    makes a blocked successor runnable at the end of the run queue. *)
Theorem mutex_handover s a m x w ws : rep s a → awf a → a_current a ≠ CoBootstrap → a_mutex a m = Some x →
  a_holder x = Some (a_current a) → a_waiters x = w :: ws →
  fwp (wt_mutex_release m)
    (λ r s', r = 0 ∧ ∃ a', rep s' a' ∧ awf a' ∧ a_mutex a' m = Some {| a_holder := Some w; a_waiters := ws |} ∧
      (a_state a w = Some WT_CO_BLOCKED → a_state a' w = Some WT_CO_RUNNABLE ∧ a_runq a' = a_runq a ++ [w])) s.
Proof.
  intros Hr W Hc Hx Hh Hws. eapply fwp_mono; [by apply release_refines|]. intros r s' [Hr' ->].
  assert (a_holder x = a_self a) as Hs by (unfold a_self; by rewrite decide_False).
  rewrite decide_True by done. split; [done|]. exists (a_release m a).
  split_and!; [done|by apply awf_release| |].
  - unfold a_release. rewrite Hx, decide_True by done. rewrite (mutex_pass_on m x a Hx), Hws. done.
  - intros Hst. unfold a_release. rewrite Hx, decide_True by done. unfold a_pass_on. rewrite Hws.
    set (a1 := a_put_mutex m _ a). unfold a_state in *. destruct (a_co a w) as [k|] eqn:Hk; [|done].
    assert (a_co a1 w = Some k) as Hk1 by by destruct w. unfold a_wake, a_state. rewrite Hk1. simpl in *.
    injection Hst as ->. erewrite a_upd_at by done. split; [|done].
    set (k' := k <| a_st := WT_CO_RUNNABLE |> <| a_latch := false |>).
    assert (∀ q, a_co ((a_put w k' a1) <| a_runq := q |>) w = a_co (a_put w k' a1) w) as -> by by destruct w.
    by erewrite a_co_put_eq.
Qed.

(** Clearing a dead coroutine from the one store lock. *)
Lemma locks_cleared a x p : awf a → a_current a = CoBootstrap → a_mutexes a = [x] → is_Some (a_co a p) →
  let a1 := a_release_locks 0 p a in
  awf a1 ∧ a_current a1 = CoBootstrap ∧ a_mutexes a1 = [cleared p x] ∧ is_Some (a_co a1 p) ∧ (¬ waits a1 p) ∧
  a_holder (cleared p x) ≠ Some p ∧ p ∉ a_waiters (cleared p x).
Proof.
  intros W Hc Hm Hp a1. assert (a_mutex a 0 = Some x) as Hx by (unfold a_mutex; by rewrite Hm).
  assert (a_holder (cleared p x) ≠ Some p ∧ p ∉ a_waiters (cleared p x)) as [Hnh Hnw].
  { destruct (mutex_at a 0 x W Hx) as [M1 M2 M3 M4]. unfold cleared. destruct (decide _) as [Hh|Hh]; simpl.
    - specialize (M2 p Hh). destruct (a_waiters x); simpl in *; set_solver.
    - split; [done|]. intros [? _]%list_elem_of_filter. done. }
  assert (awf a1 ∧ a_current a1 = CoBootstrap) as [W1 Hc1] by (apply (spec_wf (SysReleaseLocks 0 p) a RetVoid a1 W Hc); [by exists x|done]).
  assert (a_mutexes a1 = [cleared p x]) as Hm1.
  { pose proof (mutexes_release_locks 0 p a) as Hl. pose proof (mutex_release_locks 0 x p a W Hx) as H1. fold a1 in Hl, H1.
    rewrite Hm in Hl. unfold a_mutex in H1. destruct (a_mutexes a1) as [|y [|]]; simpl in *; [done| |done]. congruence. }
  split_and!; try done; [by apply live_release_locks|].
  intros (m & y & Hy & Hin). rewrite Hm1 in Hy. destruct m as [|m]; simpl in Hy; by simplify_eq.
Qed.

(** When a Secure Partition's coroutine has died, clearing the one store
    lock and restarting it succeeds; it then neither holds the lock nor waits
    for it, a lock it held has gone to the waiter that waited longest, the
    other waiters keep their order, and the coroutine is blocked outside the
    run queue. *)
Theorem lock_recovery s a x p entry arg : idle s a → a_mutexes a = [x] → is_Some (a_co a p) → entry ≠ 0 →
  fwp (fn (call (wt_hsm_release_locks 0 (Some p));; call (wt_co_reinit (Some p) entry arg)))
    (λ r s', r = 0 ∧ ∃ a', idle s' a' ∧ a_mutexes a' = [cleared p x] ∧
      a_holder (cleared p x) ≠ Some p ∧ (p ∉ a_waiters (cleared p x)) ∧
      a_state a' p = Some WT_CO_BLOCKED ∧ p ∉ a_runq a') s.
Proof.
  intros (Hr & W & Hc) Hm Hp He. assert (p ≠ CoBootstrap) as Hne by (by intros ->; destruct Hp).
  destruct (locks_cleared a x p W Hc Hm Hp) as (W1 & Hc1 & Hm1 & Hp1 & Hw1 & Hnh & Hnw). set (a1 := a_release_locks 0 p a) in *.
  apply fwp_fn, wp_bind, wp_call. eapply fwp_mono; [eapply release_locks_refines; [done..|unfold a_mutex; by rewrite Hm]|].
  intros [] s1 Hr1. apply wp_call. eapply fwp_mono; [by apply (reinit_refines s1 a1)|]. intros r s2 [-> Hr2]. split; [done|].
  destruct (state_reinit p a1 Hp1 Hne) as (R1 & R2 & R3). exists (a_reinit p a1).
  split_and!; [|by rewrite R3|done|done|done|done]. split; [done|].
  by apply (spec_wf (SysReinit p entry arg) a1 (RetInt 0) _ W1 Hc1).
Qed.

(** C39: [wt_co_tick] returns, after at most [budget] slices: each went to the
    head of the run queue at that moment, their number is the result, and it
    stops before the budget is used up only when the run queue is empty. *)
Theorem tick_terminates s a budget : idle s a →
  ∃ s' a' l, wt_co_tick budget s = Some (s', Z.of_nat (length l)) ∧ idle s' a' ∧ ran l a a' ∧
    (length l ≤ budget)%nat ∧ (a_runq a' = [] ∨ length l = budget).
Proof.
  intros (Hr & W & Hc). destruct (fwp_run _ _ _ (tick_refines s a budget Hr W Hc)) as (s' & r & E & l & a' & H1 & H2 & H3 & -> & H5 & H6).
  exists s', a', l. split_and!; try done. split; [done|]. exact (ran_wf l a a' W Hc H3).
Qed.
End props.

(** ** A concrete system

    Two coroutines and one mutex; the first coroutine acquires the mutex and
    is preempted, the second waits for it. *)
Module SchedExample.

Definition co_zero : wt_co :=
  {| co_sp := 0; co_stack_base := 0; co_stack_size := 0; co_entry := 0; co_arg := 0; co_state := WT_CO_RUNNABLE;
     co_id := 0; co_next_run := None; co_next_wait := None; co_domain := 0; co_unprivileged := 0;
     co_wake_pending := false; co_exc_return := 0 |}.
Definition reset : sched :=
  {| g_co_table := replicate WT_CO_MAX co_zero; g_wt_co_bootstrap := co_zero; g_wt_co_current := None;
     g_wt_co_pendsv_target := None; g_runqueue_head := None; g_runqueue_tail := None; g_co_count := 0;
     sc_memory := λ _, 0; sc_mutexes := [mutex_zero]; sc_panicked := false |}.

Definition behaviour (p : co_ref) (s : sched) : list co_act :=
  match p with CoSlot 0 => [ActAcquire; ActPreempt] | _ => [ActAcquire] end.
#[local] Instance arch : CoArch := script_arch 0x0C001001 behaviour.
#[local] Instance arch_ok : CoArchSpec (H := arch) := script_arch_ok 0x0C001001 behaviour.

Definition boot : list sys_op :=
  [SysCreateBlockedEx 0x30000000 4096 0x0C002001 1; SysCreateBlockedEx 0x30002000 4096 0x0C002101 2;
   SysWake (CoSlot 0); SysWake (CoSlot 1)].
(** The state after [ops]. *)
Definition after (ops : list sys_op) : sched :=
  match sys_boot ops reset with Some (s, _) => s | None => reset end.

Lemma reset_boot : boot_state reset.
Proof. constructor; [done| |by repeat constructor|done]. by apply Forall_replicate. Qed.

(** The abstract states the calls lead to. *)
Definition k0 (st : wt_co_state_t) : aco := {| a_st := st; a_latch := false; a_base := 0x30000000; a_size := 4096 |}.
Definition k1 (st : wt_co_state_t) : aco := {| a_st := st; a_latch := false; a_base := 0x30002000; a_size := 4096 |}.
Definition a_boot : asched :=
  {| a_cos := [k0 WT_CO_RUNNABLE; k1 WT_CO_RUNNABLE]; a_runq := [CoSlot 0; CoSlot 1]; a_current := CoBootstrap;
     a_mutexes := [a_free] |}.

Lemma fresh_first : fresh_stack (a_init [a_free]) (k0 WT_CO_BLOCKED).
Proof. split; [|by intros []]. split_and!; vm_compute; done. Qed.
Lemma fresh_second : fresh_stack (a_create (k0 WT_CO_BLOCKED) (a_init [a_free])) (k1 WT_CO_BLOCKED).
Proof.
  split; [split_and!; vm_compute; done|]. intros p k. rewrite a_co_create. destruct (decide _); [|by destruct p].
  intros [= <-]. right. vm_compute. done.
Qed.
Lemma boot_permitted : may_run boot (a_init [a_free]).
Proof.
  split; [exact fresh_first|]. intros r1 a1 [_ ->]. split; [exact fresh_second|]. intros r2 a2 [_ ->].
  split; [by eexists|]. intros r3 a3 [_ ->]. split; [by eexists|]. done.
Qed.

Lemma sched_safe_witness :
  fwp (sys_boot boot) (λ _ s', sc_panicked s' = false ∧ g_wt_co_current s' = Some CoBootstrap ∧
    ∃ a, rep s' a ∧ NoDup (a_runq a) ∧
      (∀ p, p ∈ a_runq a → a_state a p = Some WT_CO_RUNNABLE) ∧
      (∀ p, a_state a p ≠ Some WT_CO_RUNNING) ∧
      (∀ m x, a_mutex a m = Some x → a_waiters x ≠ [] → ∃ h, a_holder x = Some h ∧ h ∉ a_waiters x)) reset.
Proof. apply (sched_safe boot reset); [exact reset_boot|exact boot_permitted]. Defined.

(** *** The abstract state after a sequence of calls with one outcome each *)

Fixpoint leads (ops : list sys_op) (a a' : asched) : Prop :=
  match ops with
  | [] => a = a'
  | o :: l => permitted o a ∧ ∃ a1, (∀ r b, sys_spec o a r b → b = a1) ∧ leads l a1 a'
  end.
Lemma leads_ok ops s a a' E : idle s a → leads ops a a' → wp (sys_exec_all ops) E (λ _ s', idle s' a') s.
Proof.
  revert s a. induction ops as [|o ops IH]; intros s a Hi Hl; simpl in Hl; [subst; by apply wp_ret|].
  destruct Hl as (Hp & a1 & Hdet & Hl), Hi as (Hr & W & Hc). apply wp_bind, wp_call.
  eapply fwp_mono; [by apply (sys_simulates o s a)|]. intros r s' (b & Hr' & [W' Hc'] & Hs).
  pose proof (Hdet r b Hs) as ->. apply (IH s' a1); [|done]. split_and!; auto.
Qed.
Lemma after_ok ops a : leads ops (a_init [a_free]) a → idle (after ops) a.
Proof.
  intros Hl. assert (fwp (sys_boot ops) (λ _ s', idle s' a) reset) as Hf.
  { apply fwp_fn, wp_bind, wp_call. eapply fwp_mono; [apply init_refines, reset_boot|]. intros [] s1 Hr1.
    eapply wp_mono; [eapply (leads_ok ops s1); [|exact Hl]|exact (λ _ _ H, H)|done].
    split; [exact Hr1|split; [apply (awf_init 1)|done]]. }
  apply fwp_run in Hf as (s' & u & E & Hi). unfold after. by rewrite E.
Qed.

(** States of the two coroutines. *)
Definition two (st0 st1 : wt_co_state_t) (q : list co_ref) (cur : co_ref) (x : amutex) : asched :=
  {| a_cos := [k0 st0; k1 st1]; a_runq := q; a_current := cur; a_mutexes := [x] |}.
Ltac leads_step := split; [|eexists; split; [intros r b [_ ->]; vm_compute; reflexivity|]].
Lemma after_boot : idle (after boot) a_boot.
Proof.
  apply after_ok. leads_step; [exact fresh_first|]. leads_step; [exact fresh_second|].
  leads_step; [by eexists|]. leads_step; [by eexists|]. reflexivity.
Qed.

(** The slices of this run: the first coroutine is preempted holding the
    mutex, the second blocks on it. *)
Lemma tick_terminates_witness :
  (∃ s' a' l, wt_co_tick 5 (after boot) = Some (s', Z.of_nat (length l)) ∧ idle s' a' ∧ ran l a_boot a' ∧
    (length l ≤ 5)%nat ∧ (a_runq a' = [] ∨ length l = 5%nat)) ∧
  snd <$> wt_co_tick 5 (after boot) = Some 2.
Proof. split; [apply (tick_terminates (after boot) a_boot 5); exact after_boot|vm_compute; reflexivity]. Defined.

(** The mutex is held by the first coroutine and the second waits for it. *)
Definition contended : list sys_op :=
  [SysCreateBlockedEx 0x30000000 4096 0x0C002001 1; SysCreateBlockedEx 0x30002000 4096 0x0C002101 2;
   SysWake (CoSlot 0); SysAcquireFor 0 (CoSlot 0); SysAcquireFor 0 (CoSlot 1)].
Definition held : amutex := {| a_holder := Some (CoSlot 0); a_waiters := [CoSlot 1] |}.
Lemma queue_alone n p : is_Some (a_cos n !! p) → length (a_mutexes n) = 1%nat → may_queue n 0 (CoSlot p).
Proof. intros Hp Hl. split; [done|]. intros m y Hm Hy%lookup_lt_Some. lia. Qed.
Lemma after_contended : idle (after contended) (two WT_CO_RUNNABLE WT_CO_BLOCKED [CoSlot 0] CoBootstrap held).
Proof.
  apply after_ok. leads_step; [exact fresh_first|]. leads_step; [exact fresh_second|].
  leads_step; [by eexists|]. leads_step; [split; [by eexists|by apply queue_alone]|].
  leads_step; [split; [by eexists|by apply queue_alone]|]. reflexivity.
Qed.

Lemma lock_recovery_witness :
  fwp (fn (call (wt_hsm_release_locks 0 (Some (CoSlot 0)));; call (wt_co_reinit (Some (CoSlot 0)) 0x0C002001 1)))
    (λ r s', r = 0 ∧ ∃ a', idle s' a' ∧ a_mutexes a' = [cleared (CoSlot 0) held] ∧
      a_holder (cleared (CoSlot 0) held) ≠ Some (CoSlot 0) ∧ (CoSlot 0 ∉ a_waiters (cleared (CoSlot 0) held)) ∧
      a_state a' (CoSlot 0) = Some WT_CO_BLOCKED ∧ CoSlot 0 ∉ a_runq a') (after contended) ∧
  a_holder (cleared (CoSlot 0) held) = Some (CoSlot 1).
Proof.
  split; [|reflexivity]. eapply (lock_recovery (after contended)); [exact after_contended|reflexivity|by eexists|done].
Defined.

(** The first coroutine was dispatched. *)
Definition dispatched : sched :=
  match fn (call runqueue_dequeue;; modify (λ s, s <| g_wt_co_current := Some (CoSlot 0) |>);;
            mod_co (CoSlot 0) (λ c, c <| co_state := WT_CO_RUNNING |>)) (after contended) with
  | Some (s, _) => s
  | None => reset
  end.
Definition a_dispatched : asched := two WT_CO_RUNNING WT_CO_BLOCKED [] (CoSlot 0) held.
Lemma dispatched_ok : rep dispatched a_dispatched ∧ awf a_dispatched.
Proof.
  destruct after_contended as (Hr & W & Hc).
  split; [|by apply (awf_switch (two WT_CO_RUNNABLE WT_CO_BLOCKED [CoSlot 0] CoBootstrap held) (CoSlot 0))].
  unfold dispatched. set (f := fn _). assert (fwp f (λ _ s', rep s' a_dispatched) (after contended)) as Hf.
  { apply fwp_fn, wp_bind, wp_call. eapply fwp_mono; [by apply dequeue_refines|]. intros r s1 [-> Hr1].
    eapply wp_mono; [eapply running_refines; [exact Hr1|reflexivity]|exact (λ _ _ H, H)|]. intros [] s2 Hr2. exact Hr2. }
  apply fwp_run in Hf as (s' & u & E & Hi). by rewrite E.
Qed.

(** The bootstrap context ticks; the coroutine that holds the mutex releases
    it, which returns success and wakes the waiter. *)
Lemma sched_implements_witness :
  fwp (sys_exec (SysTick 2)) (λ r s', ∃ a', rep s' a' ∧ awf a' ∧ sc_panicked s' = false ∧ sys_spec (SysTick 2) a_boot r a')
    (after boot) ∧
  fwp (sys_exec (SysRelease 0))
    (λ r s', ∃ a', rep s' a' ∧ awf a' ∧ sc_panicked s' = false ∧ sys_spec (SysRelease 0) a_dispatched r a') dispatched ∧
  sys_spec (SysRelease 0) a_dispatched (RetInt 0)
    (two WT_CO_RUNNING WT_CO_RUNNABLE [CoSlot 1] (CoSlot 0) {| a_holder := Some (CoSlot 1); a_waiters := [] |}).
Proof.
  split_and!; [| |split; reflexivity].
  - destruct after_boot as (Hr & W & _). by apply (sched_implements (SysTick 2)).
  - destruct dispatched_ok as [Hr W]. apply (sched_implements (SysRelease 0)); [done|done|by eexists].
Defined.

Lemma mutex_handover_witness :
  fwp (wt_mutex_release 0)
    (λ r s', r = 0 ∧ ∃ a', rep s' a' ∧ awf a' ∧ a_mutex a' 0 = Some {| a_holder := Some (CoSlot 1); a_waiters := [] |} ∧
      (a_state a_dispatched (CoSlot 1) = Some WT_CO_BLOCKED → a_state a' (CoSlot 1) = Some WT_CO_RUNNABLE ∧
       a_runq a' = a_runq a_dispatched ++ [CoSlot 1])) dispatched.
Proof.
  apply (mutex_handover dispatched a_dispatched 0 held (CoSlot 1) []); [apply dispatched_ok..|done|done|done|done].
Defined.
End SchedExample.
