(* ===== verification/Policies.v ===== *)
(** * Fault and boot policies

    The restart budget ([restart_policy.c]), the recovery sequence of a faulted
    Secure Partition ([sp_recovery.c]), version floors ([rollback.c]), claiming
    an interrupt line ([irq_claim.c]), the guest memory windows of the bus
    fabric ([fabric_windows.c]) and the checks of a guest's port binding
    ([partition.c]). Function tables are records of optional functions on a
    state [S]: a null pointer is [None]. *)

From Stdlib Require Import ZArith Lia.
From stdpp Require Import base list numbers option sets.
From S2P Require Import Prelude CState Domain SecureDomain.

(** ** Restart budget *)

Inductive wt_restart_decision := WT_RESTART_DECISION_RESTART | WT_RESTART_DECISION_FAULT.
#[export] Instance restart_decision_eq_dec : EqDecision wt_restart_decision.
Proof. solve_decision. Defined.

(** [*restart_count] and [*first_restart_tick]; the latter is the tick of the
    last restart. *)
Record restart_state := { rs_count : Z; rs_tick : Z }.

Definition wt_restart_policy_evaluate (restart_limit restart_window_ticks monotonic_ticks : Z) (st : restart_state) :
    wt_restart_decision * restart_state :=
  let restart := λ count,
    (WT_RESTART_DECISION_RESTART, {| rs_count := u32 (count + 1); rs_tick := monotonic_ticks |}) in
  if 0 <? restart_limit then
    let count :=
      if (0 <? rs_count st) && (0 <? restart_window_ticks) &&
         (restart_window_ticks <=? u32 (monotonic_ticks - rs_tick st))
      then 0 else rs_count st in
    if restart_limit <=? count
    then (WT_RESTART_DECISION_FAULT, {| rs_count := count; rs_tick := rs_tick st |})
    else restart count
  else restart (rs_count st).

(** ** Recovery of a faulted partition *)

Inductive wt_sp_recovery_decision := WT_SP_RECOVERY_RESTART | WT_SP_RECOVERY_ESCALATE.

(** [None] for the counters is a null pointer. *)
Definition wt_sp_recovery_decide (action restart_limit restart_window_ticks monotonic_ticks : Z)
    (st : option restart_state) : wt_sp_recovery_decision * option restart_state :=
  match st with
  | None => (WT_SP_RECOVERY_ESCALATE, None)
  | Some st =>
    if negb (action =? WT_RESTART_ACTION_DOMAIN) then (WT_SP_RECOVERY_ESCALATE, Some st) else
    let '(d, st') := wt_restart_policy_evaluate restart_limit restart_window_ticks monotonic_ticks st in
    (match d with
     | WT_RESTART_DECISION_RESTART => WT_SP_RECOVERY_RESTART
     | WT_RESTART_DECISION_FAULT => WT_SP_RECOVERY_ESCALATE
     end, Some st')
  end.

Record wt_sp_recovery_ops (S : Type) := {
  ro_release_locks : option (func S unit);
  ro_fail_messages : option (func S unit);
  ro_scrub_domain : option (func S unit);
  ro_restart : option (func S Z);
  ro_escalate : option (Z → func S unit);
}.
Arguments ro_release_locks {S}.
Arguments ro_fail_messages {S}.
Arguments ro_scrub_domain {S}.
Arguments ro_restart {S}.
Arguments ro_escalate {S}.

(** [if (hook != NULL) hook(ctx);] *)
Definition hook {S R} (f : option (func S unit)) : prog S R unit :=
  match f with Some f => call f | None => mret tt end.

Definition wt_sp_recovery_run {S} (ops : option (wt_sp_recovery_ops S))
    (action restart_limit restart_window_ticks monotonic_ticks : Z) (st : option restart_state) :
    func S (wt_sp_recovery_decision * option restart_state) := fn (
  match ops with
  | None => mret (WT_SP_RECOVERY_ESCALATE, st)
  | Some ops =>
    hook (ro_release_locks ops);;
    hook (ro_fail_messages ops);;
    let '(decision, st') :=
      wt_sp_recovery_decide action restart_limit restart_window_ticks monotonic_ticks st in
    decision ←
      match decision with
      | WT_SP_RECOVERY_RESTART =>
        hook (ro_scrub_domain ops);;
        match ro_restart ops with
        | None => mret WT_SP_RECOVERY_RESTART
        | Some f => r ← call f; mret (if r =? 0 then WT_SP_RECOVERY_RESTART else WT_SP_RECOVERY_ESCALATE)
        end
      | WT_SP_RECOVERY_ESCALATE => mret WT_SP_RECOVERY_ESCALATE
      end;
    match decision with
    | WT_SP_RECOVERY_ESCALATE => hook ((λ f, f action) <$> ro_escalate ops)
    | WT_SP_RECOVERY_RESTART => mret tt
    end;;
    mret (decision, st')
  end).

(** ** Version floors *)

Definition PSA_LIFECYCLE_ASSEMBLY_AND_TEST : Z := 0x1000.
Definition PSA_LIFECYCLE_PSA_ROT_PROVISIONING : Z := 0x2000.
Definition WT_ROLLBACK_OK : Z := 0.
Definition WT_ROLLBACK_REFUSED : Z := -800.
Definition WT_ROLLBACK_TABLE_MAGIC : Z := 0x57545246.
Definition WT_GUEST_MEAS_MAX_RECORDS : nat := 4.

Record wt_rollback_table := { rt_magic : Z; rt_reserved : Z; rt_image_floor : Z; rt_guest_floor : list Z }.

Definition wt_rollback_lifecycle_unlocked (lifecycle : Z) : bool :=
  (lifecycle =? PSA_LIFECYCLE_ASSEMBLY_AND_TEST) || (lifecycle =? PSA_LIFECYCLE_PSA_ROT_PROVISIONING).
Definition wt_rollback_check (lifecycle version floor : Z) : Z :=
  if wt_rollback_lifecycle_unlocked lifecycle then WT_ROLLBACK_OK
  else if version <? floor then WT_ROLLBACK_REFUSED else WT_ROLLBACK_OK.
(** The result and the new [*floor]. *)
Definition wt_rollback_advance (version floor : Z) : Z * Z :=
  if floor <? version then (1, version) else (0, floor).
Definition wt_rollback_table_init : wt_rollback_table :=
  {| rt_magic := WT_ROLLBACK_TABLE_MAGIC; rt_reserved := 0; rt_image_floor := 0;
     rt_guest_floor := replicate WT_GUEST_MEAS_MAX_RECORDS 0 |}.
Definition wt_rollback_table_valid (table : option wt_rollback_table) : bool :=
  match table with Some t => rt_magic t =? WT_ROLLBACK_TABLE_MAGIC | None => false end.

(** ** Interrupt lines *)

(** The members of [wt_nvic_ops_t], none of them null. *)
Record wt_nvic_ops (S : Type) := {
  nv_disable : Z → Z → func S unit;
  nv_clear_pending : Z → Z → func S unit;
  nv_route_secure : Z → Z → func S unit;
  nv_enabled : Z → func S Z;
  nv_non_secure : Z → func S Z;
  nv_barrier : func S unit;
}.
Arguments nv_disable {S}.
Arguments nv_clear_pending {S}.
Arguments nv_route_secure {S}.
Arguments nv_enabled {S}.
Arguments nv_non_secure {S}.
Arguments nv_barrier {S}.

(** The second register is read only when the first test passes. *)
Definition wt_irq_claim {S} (ops : wt_nvic_ops S) (irq words : Z) : func S Z := fn (
  let word := irq .>> 5 in
  let mask := 1 .<< (irq .& 31) in
  when (words <=? word) (early (-1));;
  call (nv_disable ops word mask);;
  call (nv_barrier ops);;
  call (nv_route_secure ops word mask);;
  call (nv_clear_pending ops word mask);;
  call (nv_barrier ops);;
  ns ← call (nv_non_secure ops word);
  when (has_any ns mask) (early (-1));;
  en ← call (nv_enabled ops word);
  when (has_any en mask) (early (-1));;
  mret 0).

(** ** Guest memory windows *)

Record wt_fabric_windows (S : Type) := {
  fb_extent_base : Z;
  fb_extent_end : Z;
  fb_close_all : option (func S unit);
  fb_open_window : option (Z → Z → func S unit);
  fb_commit : option (func S unit);
}.
Arguments fb_extent_base {S}.
Arguments fb_extent_end {S}.
Arguments fb_close_all {S}.
Arguments fb_open_window {S}.
Arguments fb_commit {S}.

Definition wt_fabric_apply_windows {S} (fabric : wt_fabric_windows S) (windows : list wt_memory_resource) :
    func S unit := fn (
  match fb_close_all fabric, fb_open_window fabric, fb_commit fabric with
  | Some close_all, Some open_window, Some commit =>
    call close_all;;
    for_each windows (λ w,
      let e := u32 (mr_base w + mr_size w) in
      if mr_attributes w .& WT_MEMORY_ATTR_WRITE =? 0 then mret tt else
      if (e <=? mr_base w) || (mr_base w <? fb_extent_base fabric) || (fb_extent_end fabric <? e) then mret tt else
      call (open_window (mr_base w) (mr_size w)));;
    call commit
  | _, _, _ => mret tt
  end).

(** ** Port binding of a guest *)

Definition WT_PORT_CAPABILITY_VECTOR_READ_ALIAS : Z := 1 .<< 0.
Definition WT_PORT_CAPABILITY_NS_DOMAIN_PROGRAMMING : Z := 1 .<< 1.
Definition WT_PORT_CAPABILITY_TZ_FILTER : Z := 1 .<< 2.
Definition WT_PORT_CAPABILITY_ALL : Z :=
  WT_PORT_CAPABILITY_VECTOR_READ_ALIAS .| WT_PORT_CAPABILITY_NS_DOMAIN_PROGRAMMING .| WT_PORT_CAPABILITY_TZ_FILTER.
Definition WT_PORT_VALID : Z := 0.
Definition WT_PORT_ERROR_ARGUMENT : Z := -500.
Definition WT_PORT_ERROR_CAPABILITY : Z := -501.
Definition WT_PORT_ERROR_VECTOR_ALIAS : Z := -502.
Definition WT_PORT_ERROR_PROFILE : Z := -503.
Definition WT_MAX_MEMORY_WINDOWS : Z := 8.

(** The fields of [wt_guest_config_t] the checks read. *)
Record wt_guest_binding := {
  gb_vector_table : Z;
  gb_memory_window_count : Z;
  gb_memory_region_count : Z;
  gb_required_capabilities : Z;
  gb_provided_capabilities : Z;
  gb_vector_read_address : Z;
}.

Definition wt_partition_validate_port_binding (config : option wt_guest_binding)
    (domain : option wt_domain_descriptor) : Z :=
  match config, domain with
  | Some c, Some d =>
    if (negb (count (d_memory_resources d) =? 0)%nat && is_null (d_memory_resources d)) ||
       (WT_MAX_MEMORY_WINDOWS <? gb_memory_window_count c) ||
       (Z.of_nat WT_MAX_MEMORY_REGIONS <? gb_memory_region_count c) then WT_PORT_ERROR_ARGUMENT else
    let required := gb_required_capabilities c in
    let provided := gb_provided_capabilities c in
    if negb ((required .| provided) .&~ WT_PORT_CAPABILITY_ALL =? 0) || negb (required .& provided =? required)
    then WT_PORT_ERROR_CAPABILITY else
    if has_any required WT_PORT_CAPABILITY_VECTOR_READ_ALIAS &&
       ((gb_vector_read_address c =? 0) || negb (gb_vector_read_address c .& 3 =? 0) ||
        (gb_vector_read_address c =? gb_vector_table c)) then WT_PORT_ERROR_VECTOR_ALIAS else
    if negb (gb_memory_region_count c =? 0) && negb (has_any provided WT_PORT_CAPABILITY_NS_DOMAIN_PROGRAMMING)
    then WT_PORT_ERROR_CAPABILITY else
    if existsb (λ r, has_any (mr_attributes r) WT_MEMORY_ATTR_WRITE &&
                     negb (has_any provided WT_PORT_CAPABILITY_TZ_FILTER)) (items (d_memory_resources d))
    then WT_PORT_ERROR_CAPABILITY else WT_PORT_VALID
  | _, _ => WT_PORT_ERROR_ARGUMENT
  end.

Definition wt_partition_validate_profile (profile : option wt_profile_capabilities) (provided : Z) : Z :=
  match profile with
  | None => WT_PORT_ERROR_ARGUMENT
  | Some p =>
    if negb (provided .&~ WT_PORT_CAPABILITY_ALL =? 0) then WT_PORT_ERROR_CAPABILITY else
    if has_any (pc_capabilities p) WT_CAPABILITY_MEMORY_PROTECTION &&
       negb (has_any provided (WT_PORT_CAPABILITY_NS_DOMAIN_PROGRAMMING .| WT_PORT_CAPABILITY_TZ_FILTER))
    then WT_PORT_ERROR_PROFILE else
    if has_any (pc_capabilities p) WT_CAPABILITY_DOMAIN_ISOLATION &&
       negb (has_any provided WT_PORT_CAPABILITY_TZ_FILTER)
    then WT_PORT_ERROR_PROFILE else WT_PORT_VALID
  end.

(** ** Properties *)

(** The decisions for a sequence of faults. *)
Fixpoint decide_all (restart_limit window : Z) (ticks : list Z) (st : restart_state) : list wt_sp_recovery_decision :=
  match ticks with
  | [] => []
  | t :: l =>
    match wt_sp_recovery_decide WT_RESTART_ACTION_DOMAIN restart_limit window t (Some st) with
    | (d, Some st') => d :: decide_all restart_limit window l st'
    | (d, None) => [d]
    end
  end.

(** Each fault comes less than a window after the one before it. The ticks are
    32-bit counters that may wrap between two faults. *)
Fixpoint crash_loop (window last : Z) (ticks : list Z) : Prop :=
  match ticks with
  | [] => True
  | t :: l => u32 (t - last) < window ∧ crash_loop window t l
  end.

Lemma evaluate_within limit window t st :
  0 < limit < 2 ^ 32 → 0 ≤ rs_count st ≤ limit → rs_count st = 0 ∨ u32 (t - rs_tick st) < window →
  wt_restart_policy_evaluate limit window t st =
    if limit <=? rs_count st then (WT_RESTART_DECISION_FAULT, st)
    else (WT_RESTART_DECISION_RESTART, {| rs_count := rs_count st + 1; rs_tick := t |}).
Proof.
  intros Hl Hc Hw. unfold wt_restart_policy_evaluate. rewrite (proj2 (Z.ltb_lt 0 limit)) by lia.
  assert ((0 <? rs_count st) && (0 <? window) && (window <=? u32 (t - rs_tick st)) = false) as ->.
  { destruct Hw as [->|Hw]; [done|]. rewrite (proj2 (Z.leb_gt _ _)) by lia. by rewrite andb_false_r. }
  destruct (Z.leb_spec limit (rs_count st)); [by destruct st|]. rewrite u32_small by lia. done.
Qed.

Lemma crash_loop_ends limit window ts st :
  0 < limit < 2 ^ 32 → 0 ≤ rs_count st ≤ limit → length ts = S (Z.to_nat (limit - rs_count st)) →
  match ts with [] => True | t :: l => (rs_count st = 0 ∨ u32 (t - rs_tick st) < window) ∧ crash_loop window t l end →
  decide_all limit window ts st =
    replicate (Z.to_nat (limit - rs_count st)) WT_SP_RECOVERY_RESTART ++ [WT_SP_RECOVERY_ESCALATE].
Proof.
  intros Hl. revert st. induction ts as [|t l IH]; intros st Hc Hlen; [done|]. intros [Hw Hloop].
  simpl decide_all. unfold wt_sp_recovery_decide. simpl negb. cbv iota.
  rewrite (evaluate_within limit window t st) by done. destruct (Z.leb_spec limit (rs_count st)) as [Hge|Hlt].
  - replace (limit - rs_count st) with 0 in * by lia. simpl in *. destruct l; [done|]. simpl in Hlen. lia.
  - replace (Z.to_nat (limit - rs_count st)) with (S (Z.to_nat (limit - (rs_count st + 1)))) in * by lia. simpl. f_equal.
    apply IH; simpl; [lia|simpl in Hlen; lia|]. destruct l as [|t' l]; [done|]. destruct Hloop. auto.
Qed.

(** A partition that keeps faulting, each time less than the restart window
    after its previous fault, is restarted exactly [limit] times; the next
    fault escalates, also when the tick counter wraps. A fault that comes a
    full window after the last restart gets a fresh budget. *)
Theorem restart_budget limit window t ts st :
  0 < limit < 2 ^ 32 → 0 < window → rs_count st = 0 → length ts = Z.to_nat limit → crash_loop window t ts →
  decide_all limit window (t :: ts) st =
    replicate (Z.to_nat limit) WT_SP_RECOVERY_RESTART ++ [WT_SP_RECOVERY_ESCALATE] ∧
  ∀ t' st', 0 < rs_count st' → window ≤ u32 (t' - rs_tick st') →
    wt_sp_recovery_decide WT_RESTART_ACTION_DOMAIN limit window t' (Some st') =
      (WT_SP_RECOVERY_RESTART, Some {| rs_count := 1; rs_tick := t' |}).
Proof.
  intros Hl Hw Hc Hlen Hloop. split.
  - rewrite (crash_loop_ends limit window (t :: ts) st); [by rewrite Hc, Z.sub_0_r|done|lia| |auto].
    simpl. rewrite Hlen, Hc. f_equal. f_equal. lia.
  - intros t' st' Hc' Hw'. unfold wt_sp_recovery_decide, wt_restart_policy_evaluate. simpl negb. cbv iota zeta.
    rewrite !(proj2 (Z.ltb_lt 0 _)) by lia. rewrite (proj2 (Z.leb_le window _)) by done. simpl.
    by rewrite (proj2 (Z.leb_gt limit 0)) by lia.
Qed.

(** The order of the recovery steps: whatever the decision, the locks are
    released and the messages failed first; the escalation hook runs exactly
    when the partition is not restarted. *)
Lemma recovery_run_rule {S} (ops : wt_sp_recovery_ops S) action limit window t st
    (rel fail scrub : func S unit) (restart : func S Z) (esc : Z → func S unit) (I1 I2 I3 : S → Prop) Q s :
  ops = {| ro_release_locks := Some rel; ro_fail_messages := Some fail; ro_scrub_domain := Some scrub;
           ro_restart := Some restart; ro_escalate := Some esc |} →
  fwp rel (λ _, I1) s → (∀ s1, I1 s1 → fwp fail (λ _, I2) s1) → (∀ s2, I2 s2 → fwp scrub (λ _, I3) s2) →
  (∀ s3, I3 s3 → fwp restart (λ r s4, if r =? 0 then Q WT_SP_RECOVERY_RESTART s4
                                      else fwp (esc action) (λ _, Q WT_SP_RECOVERY_ESCALATE) s4) s3) →
  (∀ s2, I2 s2 → fwp (esc action) (λ _, Q WT_SP_RECOVERY_ESCALATE) s2) →
  fwp (wt_sp_recovery_run (Some ops) action limit window t st) (λ r s', Q (fst r) s') s.
Proof.
  intros -> H1 H2 H3 H4 H5. apply fwp_fn, wp_bind, wp_call. eapply fwp_mono; [exact H1|]. intros [] s1 Hi1.
  apply wp_bind, wp_call. eapply fwp_mono; [by apply H2|]. intros [] s2 Hi2. simpl.
  destruct (wt_sp_recovery_decide _ _ _ _ _) as [[] st'].
  - apply wp_bind, wp_bind, wp_call. eapply fwp_mono; [by apply H3|]. intros [] s3 Hi3.
    apply wp_bind, wp_call. eapply fwp_mono; [by apply H4|]. intros r s4 Hs4. apply wp_ret, wp_bind.
    simpl in Hs4. destruct (r =? 0); [by apply wp_ret, wp_ret|]. apply wp_call. eapply fwp_mono; [exact Hs4|]. intros [] s5 ?. by apply wp_ret.
  - apply wp_bind, wp_ret, wp_bind, wp_call. eapply fwp_mono; [by apply H5|]. intros [] s5 ?. by apply wp_ret.
Qed.

(** Floors only move forward, and a version that was recorded stays accepted
    while older ones are refused outside the provisioning lifecycles. *)
Lemma rollback_floor lifecycle version floor old :
  let floor' := snd (wt_rollback_advance version floor) in
  floor ≤ floor' ∧ wt_rollback_check lifecycle version floor' = (if version <? floor then
    wt_rollback_check lifecycle version floor else WT_ROLLBACK_OK) ∧
  (wt_rollback_lifecycle_unlocked lifecycle = false → old < version → wt_rollback_check lifecycle old floor' = WT_ROLLBACK_REFUSED).
Proof.
  unfold wt_rollback_advance, wt_rollback_check. destruct (Z.ltb_spec floor version); simpl.
  - rewrite (proj2 (Z.ltb_ge version version)), (proj2 (Z.ltb_ge version floor)) by lia.
    split_and!; [lia|by destruct (wt_rollback_lifecycle_unlocked lifecycle)|].
    intros -> Ho. by rewrite (proj2 (Z.ltb_lt _ _)) by lia.
  - split_and!; [lia| |intros -> Ho; by rewrite (proj2 (Z.ltb_lt _ _)) by lia].
    destruct (Z.ltb_spec version floor); [done|].
    by destruct (wt_rollback_lifecycle_unlocked lifecycle).
Qed.

(** Only writable windows inside the extent are opened, each once and in
    order, between the closing of the extent and the commit. *)
Definition window_ok {S} (fabric : wt_fabric_windows S) (w : wt_memory_resource) : Prop :=
  mr_attributes w .& WT_MEMORY_ATTR_WRITE ≠ 0 ∧ mr_base w < u32 (mr_base w + mr_size w) ∧
  fb_extent_base fabric ≤ mr_base w ∧ u32 (mr_base w + mr_size w) ≤ fb_extent_end fabric.
#[export] Instance window_ok_dec {S} (fabric : wt_fabric_windows S) w : Decision (window_ok fabric w).
Proof. unfold window_ok. apply _. Defined.

Lemma for_each_filter {S R A} (P : A → Prop) `{∀ x, Decision (P x)} (l : list A) (f g : A → prog S R unit) s :
  (∀ x s, f x s = if decide (P x) then g x s else Some (s, inr tt)) →
  for_each l f s = for_each (filter P l) g s.
Proof.
  intros Hf. revert s. induction l as [|x l IH]; intros s; [done|]. simpl. unfold mbind, prog_bind. rewrite Hf, filter_cons.
  destruct (decide (P x)).
  - simpl. unfold mbind, prog_bind. destruct (g x s) as [[s' [r|[]]]|]; [done|apply IH|done].
  - apply IH.
Qed.
Lemma fabric_opens {S} base size close_all open_window commit windows (s : S) :
  let fabric := {| fb_extent_base := base; fb_extent_end := size; fb_close_all := Some close_all;
                   fb_open_window := Some open_window; fb_commit := Some commit |} in
  wt_fabric_apply_windows fabric windows s =
  fn (call close_all;; for_each (filter (window_ok fabric) windows) (λ w, call (open_window (mr_base w) (mr_size w)));;
      call commit) s.
Proof.
  intros fabric. unfold wt_fabric_apply_windows, fn. simpl. unfold mbind, prog_bind. destruct (call close_all s) as [[s1 [?|[]]]|]; [done| |done].
  erewrite (for_each_filter (window_ok fabric)); [done|]. intros w s'. simpl.
  destruct (Z.eqb_spec (mr_attributes w .& WT_MEMORY_ATTR_WRITE) 0) as [E|E].
  - rewrite decide_False; [done|]. intros [? _]. done.
  - destruct (_ || _) eqn:Eb.
    + rewrite decide_False; [done|]. intros (_ & H1 & H2 & H3). simpl in *.
      rewrite (proj2 (Z.leb_gt _ _)), !(proj2 (Z.ltb_ge _ _)) in Eb by lia. done.
    + apply orb_false_iff in Eb as [[E1%Z.leb_gt E2%Z.ltb_ge]%orb_false_iff E3%Z.ltb_ge].
      rewrite decide_True by done. done.
Qed.

Module PolicyExample.
Definition fresh : restart_state := {| rs_count := 0; rs_tick := 0 |}.
(** Three restarts allowed within a hundred ticks; the counter wraps. *)
Lemma restart_budget_witness :
  decide_all 3 100 [0xFFFFFFF0; 0xFFFFFFFF; 20; 110] fresh =
    [WT_SP_RECOVERY_RESTART; WT_SP_RECOVERY_RESTART; WT_SP_RECOVERY_RESTART; WT_SP_RECOVERY_ESCALATE].
Proof.
  apply (restart_budget 3 100 0xFFFFFFF0 [0xFFFFFFFF; 20; 110] fresh); [done|done|done|done|].
  repeat split; vm_compute; reflexivity.
Defined.
End PolicyExample.
