(* ===== verification/GuestVerify.v ===== *)
(** * Measuring guests: [guest_verify.c]

    The launch predicate on a guest's image, the two checks of a port that the
    image cannot be rewritten in flash (a write-protection bitmap of sector
    groups, and access descriptors of flash regions), the decision of a runtime
    re-measurement and the table of measurements for attestation. Hashing is a
    function of the rest of the system [W], of the address and length of what it
    reads; a pointer is its address, null at 0. *)

From Stdlib Require Import ZArith Lia.
From stdpp Require Import base list numbers option sets.
From S2P Require Import Prelude Buffers CState Policies.

Definition WT_GUEST_MEAS_DIGEST_SIZE : Z := 32.
Definition WT_GUEST_MEAS_NAME_LEN : Z := 16.

Definition WT_GUEST_VERIFY_OK : Z := 0.
Definition WT_GUEST_VERIFY_ERROR_ARGUMENT : Z := -700.
Definition WT_GUEST_VERIFY_ERROR_LAYOUT : Z := -701.
Definition WT_GUEST_VERIFY_ERROR_DIGEST : Z := -702.
Definition WT_GUEST_VERIFY_ERROR_VERSION : Z := -703.
Definition WT_GUEST_VERIFY_ERROR_HASH : Z := -704.
Definition WT_GUEST_VERIFY_ERROR_CAPACITY : Z := -705.
Definition WT_GUEST_VERIFY_ERROR_WRP : Z := -706.

Record wt_guest_measurement := { gm_guest_id : Z; gm_version : Z; gm_image_size : Z; gm_digest : list Z }.
Record wt_frad_region := { fr_start : Z; fr_end : Z; fr_write_acp : Z; fr_valid : Z; fr_locked : Z }.

(** ** The launch predicate *)

(** Reading a digest past its end is undefined. *)
Fixpoint digest_diff (n : nat) (i : nat) (a b : list Z) (diff : Z) : option Z :=
  match n with
  | O => Some diff
  | S n' => x ← a !! i; y ← b !! i; digest_diff n' (S i) a b (diff .| Z.lxor x y)
  end.
Definition wt_guest_digest_equal (a b : list Z) : option bool :=
  diff ← digest_diff (Z.to_nat WT_GUEST_MEAS_DIGEST_SIZE) 0 a b 0; Some (diff =? 0).

Section verify.
Context {W : Type} (wc_Sha256Hash : Z → Z → func W (Z * list Z)).

Definition wt_guest_verify_image (image window_size : Z) (record : option wt_guest_measurement) (min_version : Z) : func W Z := fn (
  match record with
  | None => mret WT_GUEST_VERIFY_ERROR_ARGUMENT
  | Some record =>
    if (image =? 0) || (window_size =? 0) then mret WT_GUEST_VERIFY_ERROR_ARGUMENT else
    if (gm_image_size record =? 0) || (window_size <? gm_image_size record) then mret WT_GUEST_VERIFY_ERROR_LAYOUT else
    if gm_version record <? min_version then mret WT_GUEST_VERIFY_ERROR_VERSION else
    '(rc, digest) ← call (wc_Sha256Hash image (gm_image_size record));
    if negb (rc =? 0) then mret WT_GUEST_VERIFY_ERROR_HASH else
    same ← defined (wt_guest_digest_equal digest (gm_digest record));
    mret (if (same : bool) then WT_GUEST_VERIFY_OK else WT_GUEST_VERIFY_ERROR_DIGEST)
  end).

Definition wt_runtime_verify_decide (window_base window_size : Z) (record : option wt_guest_measurement) (min_version launch_required : Z) :
    func W Z := fn (
  if launch_required =? 0 then mret WT_GUEST_VERIFY_OK else
  if (window_base =? 0) || bool_decide (record = None) || (window_size =? 0) then mret WT_GUEST_VERIFY_ERROR_ARGUMENT else
  call (wt_guest_verify_image window_base window_size record min_version)).
End verify.
Definition wt_runtime_verify_should_quarantine (verify_result : Z) : bool := negb (verify_result =? WT_GUEST_VERIFY_OK).

(** ** Write protection by sector groups *)

(** [for (group = first; group <= last; ++group)], with [last < 32]. *)
Fixpoint wrp_loop (n : nat) (wrp_bitmap group : Z) : Z :=
  match n with
  | O => WT_GUEST_VERIFY_OK
  | S n' => if negb (wrp_bitmap .& (1 .<< group) =? 0) then WT_GUEST_VERIFY_ERROR_WRP else wrp_loop n' wrp_bitmap (group + 1)
  end.
Definition wt_guest_flash_wrp_covers (wrp_bitmap window_base window_size bank_base sector_size sectors_per_group : Z) : Z :=
  if (window_size =? 0) || (sector_size =? 0) || (sectors_per_group =? 0) || (window_base <? bank_base)
  then WT_GUEST_VERIFY_ERROR_ARGUMENT else
  let offset := window_base - bank_base in
  let first_group := offset / sector_size / sectors_per_group in
  let last_group := u32 (offset + window_size - 1) / sector_size / sectors_per_group in
  if 32 <=? last_group then WT_GUEST_VERIFY_ERROR_LAYOUT else
  wrp_loop (Z.to_nat (last_group - first_group + 1)) wrp_bitmap first_group.

(** ** Write protection by access descriptors *)

Definition wt_frad_region_denies_write (region : wt_frad_region) : bool :=
  negb (fr_valid region =? 0) && negb (fr_locked region =? 0) && (fr_write_acp region =? 0).
Definition frad_conflict (window_base last : Z) (region : wt_frad_region) : bool :=
  negb (fr_valid region =? 0) && (fr_start region <=? last) && (window_base <=? fr_end region) &&
  negb (wt_frad_region_denies_write region).
Definition frad_holds (cursor : Z) (region : wt_frad_region) : bool :=
  wt_frad_region_denies_write region && (fr_start region <=? cursor) && (cursor <=? fr_end region).
(** The inner loop: the first descriptor that protects [cursor]. *)
Fixpoint frad_find (regions : list wt_frad_region) (cursor : Z) : option wt_frad_region :=
  match regions with
  | [] => None
  | region :: regions' => if frad_holds cursor region then Some region else frad_find regions' cursor
  end.
(** The outer loop, of at most [steps] turns. *)
Fixpoint frad_loop (steps : nat) (regions : list wt_frad_region) (cursor last : Z) : Z :=
  match steps with
  | O => WT_GUEST_VERIFY_ERROR_WRP
  | S steps' =>
    match frad_find regions cursor with
    | None => WT_GUEST_VERIFY_ERROR_WRP
    | Some region => if last <=? fr_end region then WT_GUEST_VERIFY_OK else frad_loop steps' regions (u32 (fr_end region + 1)) last
    end
  end.
Definition wt_guest_flash_frad_covers (regions : option (list wt_frad_region)) (window_base window_size : Z) : Z :=
  match regions with
  | None => WT_GUEST_VERIFY_ERROR_ARGUMENT
  | Some regions =>
    if (length regions =? 0)%nat || (window_size =? 0) then WT_GUEST_VERIFY_ERROR_ARGUMENT else
    let last := u32 (window_base + window_size - 1) in
    if last <? window_base then WT_GUEST_VERIFY_ERROR_ARGUMENT else
    if existsb (frad_conflict window_base last) regions then WT_GUEST_VERIFY_ERROR_WRP else
    frad_loop (length regions) regions window_base last
  end.

(** ** The measurement table *)

Record wt_guest_measurement_entry := { me_record : wt_guest_measurement; me_name : list Z }.
(** [g_measurements], of [WT_GUEST_MEAS_MAX_RECORDS] entries, and
    [g_measurement_count]. *)
Record measurements := { g_measurements : list wt_guest_measurement_entry; g_measurement_count : nat }.
Definition zero_entry : wt_guest_measurement_entry :=
  {| me_record := {| gm_guest_id := 0; gm_version := 0; gm_image_size := 0; gm_digest := zeros (Z.to_nat WT_GUEST_MEAS_DIGEST_SIZE) |};
     me_name := zeros (Z.to_nat WT_GUEST_MEAS_NAME_LEN) |}.
Definition wt_guest_measurement_reset : measurements :=
  {| g_measurements := replicate WT_GUEST_MEAS_MAX_RECORDS zero_entry; g_measurement_count := 0 |}.
Definition wt_guest_measurement_count (t : measurements) : nat := g_measurement_count t.
(** A name is the characters before its terminator. *)
Definition stored_name (old name : list Z) : list Z :=
  let n := length name in
  let n := if (Z.to_nat WT_GUEST_MEAS_NAME_LEN <=? n)%nat then (Z.to_nat WT_GUEST_MEAS_NAME_LEN - 1)%nat else n in
  take n name ++ [0] ++ drop (S n) old.
Definition wt_guest_measurement_record (record : option wt_guest_measurement) (name : option (list Z)) : func measurements Z := λ t,
  match record, name with
  | Some record, Some name =>
    if (WT_GUEST_MEAS_MAX_RECORDS <=? g_measurement_count t)%nat then Some (t, WT_GUEST_VERIFY_ERROR_CAPACITY) else
    entry ← g_measurements t !! g_measurement_count t;
    Some ({| g_measurements := <[g_measurement_count t := {| me_record := record; me_name := stored_name (me_name entry) name |}]>
               (g_measurements t);
             g_measurement_count := S (g_measurement_count t) |}, WT_GUEST_VERIFY_OK)
  | _, _ => Some (t, WT_GUEST_VERIFY_ERROR_ARGUMENT)
  end.
Definition wt_guest_measurement_get (index : nat) (t : measurements) : option wt_guest_measurement_entry :=
  if (g_measurement_count t <=? index)%nat then None else g_measurements t !! index.

(** ** The digest comparison *)

Lemma digest_diff_zero n i a b diff d : 0 ≤ diff → Forall is_byte a → Forall is_byte b → digest_diff n i a b diff = Some d →
  d = 0 ↔ diff = 0 ∧ take n (drop i a) = take n (drop i b).
Proof.
  intros Hd Ha Hb. revert i diff Hd. induction n as [|n IH]; intros i diff Hd; simpl; [naive_solver|].
  destruct (a !! i) as [x|] eqn:Ex; [|done]. destruct (b !! i) as [y|] eqn:Ey; [|done]. simpl. intros E.
  assert (is_byte x ∧ is_byte y) as [Hx Hy] by (split; by eapply Forall_lookup_1; [|done]). unfold is_byte in Hx, Hy.
  assert (0 ≤ Z.lxor x y) by (apply Z.lxor_nonneg; lia).
  assert (0 ≤ diff .| Z.lxor x y) as Hl by by apply Z.lor_nonneg.
  rewrite (IH _ _ Hl E), (drop_S _ _ _ Ex), (drop_S _ _ _ Ey), Z.lor_eq_0_iff, Z.lxor_eq_0_iff. simpl.
  split; [intros [[-> ->] ->]; done|intros [-> [= -> ->]]; done].
Qed.
Lemma digest_equal_defined a b : length a = Z.to_nat WT_GUEST_MEAS_DIGEST_SIZE → length b = Z.to_nat WT_GUEST_MEAS_DIGEST_SIZE →
  ∃ same, wt_guest_digest_equal a b = Some same.
Proof.
  intros La Lb. unfold wt_guest_digest_equal. assert (∀ n i diff, (i + n ≤ Z.to_nat WT_GUEST_MEAS_DIGEST_SIZE)%nat → ∃ d, digest_diff n i a b diff = Some d) as H.
  { induction n as [|n IH]; intros i diff Hi; simpl; [eauto|].
    destruct (lookup_lt_is_Some_2 a i) as [x ->]; [lia|]. destruct (lookup_lt_is_Some_2 b i) as [y ->]; [lia|]. apply IH. lia. }
  destruct (H (Z.to_nat WT_GUEST_MEAS_DIGEST_SIZE) 0%nat 0) as [d ->]; [lia|]. simpl. eauto.
Qed.
(** The comparison, which does not stop at a difference, tells equal digests. *)
Lemma digest_equal_iff a b : length a = Z.to_nat WT_GUEST_MEAS_DIGEST_SIZE → length b = Z.to_nat WT_GUEST_MEAS_DIGEST_SIZE →
  Forall is_byte a → Forall is_byte b → wt_guest_digest_equal a b = Some (bool_decide (a = b)).
Proof.
  intros La Lb Ha Hb. destruct (digest_equal_defined a b La Lb) as [same E]. rewrite E. f_equal. unfold wt_guest_digest_equal in E.
  destruct (digest_diff _ 0 a b 0) as [d|] eqn:Ed; [|done]. simpl in E. injection E as <-.
  pose proof (digest_diff_zero _ _ _ _ _ _ (Z.le_refl 0) Ha Hb Ed) as H. rewrite !drop_0, !take_ge in H by lia.
  destruct (Z.eqb_spec d 0); case_bool_decide; naive_solver.
Qed.

(** ** Write protection *)

(** The group of the sector that holds [a]. *)
Lemma group_mono bank sector group a b : 0 < sector → 0 < group → a ≤ b → (a - bank) / sector / group ≤ (b - bank) / sector / group.
Proof. intros Hs Hg Hab. by do 2 (apply Z.div_le_mono; [done|]); lia. Qed.
Lemma wrp_loop_ok n bitmap g : 0 ≤ g → wrp_loop n bitmap g = WT_GUEST_VERIFY_OK ↔ ∀ k, g ≤ k < g + Z.of_nat n → Z.testbit bitmap k = false.
Proof.
  revert g. induction n as [|n IH]; intros g Hg; simpl; [split; [lia|done]|].
  assert (bitmap .& (1 .<< g) = 0 ↔ Z.testbit bitmap g = false) as Hb.
  { rewrite Z.shiftl_1_l. split; intros E.
    - pose proof (f_equal (λ z, Z.testbit z g) E) as E'. cbv beta in E'. rewrite Z.land_spec, Z.pow2_bits_true, andb_true_r, Z.bits_0 in E' by lia. done.
    - apply Z.bits_inj'. intros i Hi. rewrite Z.land_spec, Z.bits_0, Z.pow2_bits_eqb by lia. destruct (Z.eqb_spec g i) as [<-|]; [by rewrite E|apply andb_false_r]. }
  destruct (Z.eqb_spec (bitmap .& (1 .<< g)) 0) as [E|E]; simpl.
  - rewrite IH by lia. split; intros H k Hk; [|apply H; lia]. destruct (decide (k = g)) as [->|]; [by apply Hb|apply H; lia].
  - split; [done|]. intros H. destruct E. apply Hb, H. lia.
Qed.
(** The bitmap check succeeds exactly if every byte of the window is in a
    protected group of the bank's map. *)
Lemma wrp_covers_iff bitmap base size bank sector group :
  0 ≤ bank ≤ base → 0 < size → base + size ≤ 2 ^ 32 → 0 < sector → 0 < group →
  wt_guest_flash_wrp_covers bitmap base size bank sector group = WT_GUEST_VERIFY_OK ↔
  ∀ a, base ≤ a < base + size → (a - bank) / sector / group < 32 ∧ Z.testbit bitmap ((a - bank) / sector / group) = false.
Proof.
  intros Hb Hs Hw Hsec Hg. unfold wt_guest_flash_wrp_covers.
  rewrite (proj2 (Z.eqb_neq size 0)), (proj2 (Z.eqb_neq sector 0)), (proj2 (Z.eqb_neq group 0)), (proj2 (Z.ltb_ge base bank)) by lia. simpl.
  rewrite u32_small by lia. set (g := λ a, (a - bank) / sector / group). replace (base - bank + size - 1) with (base + size - 1 - bank) by lia.
  change ((base + size - 1 - bank) / sector / group) with (g (base + size - 1)). change ((base - bank) / sector / group) with (g base).
  assert (∀ a b, a ≤ b → g a ≤ g b) as Hm by (intros; by apply group_mono).
  assert (0 ≤ g base) as H0 by (do 2 (apply Z.div_pos; [|done]); lia).
  pose proof (Hm base (base + size - 1) ltac:(lia)) as Hle.
  destruct (Z.leb_spec 32 (g (base + size - 1))) as [Hl|Hl].
  { split; [done|]. intros H. destruct (H (base + size - 1)) as [? _]; [lia|]. fold (g (base + size - 1)) in *. lia. }
  rewrite wrp_loop_ok by done. rewrite Z2Nat.id by lia. split.
  - intros H a Ha. fold (g a). pose proof (Hm base a ltac:(lia)). pose proof (Hm a (base + size - 1) ltac:(lia)). split; [lia|apply H; lia].
  - intros H k Hk.
    (* group k begins inside the window or holds its first byte *)
    assert (∃ a, base ≤ a < base + size ∧ g a = k) as (a & Ha & <-); [|by apply H].
    destruct (decide (k = g base)) as [->|Hne]; [exists base; split; [lia|done]|].
    exists (bank + k * group * sector). unfold g in *. 
    replace (bank + k * group * sector - bank) with (k * group * sector) by lia. rewrite !Z.div_mul by lia. split; [|done].
    rewrite !Z.div_div in * by lia. assert (0 < sector * group) as Hd by by apply Z.mul_pos_pos.
    set (d := sector * group) in *. replace (k * group * sector) with (d * k) by (unfold d; lia).
    pose proof (Z.mul_div_le (base + size - 1 - bank) d Hd) as H1. pose proof (Z.mul_succ_div_gt (base - bank) d Hd) as H2.
    assert (d * k ≤ d * ((base + size - 1 - bank) / d)) by (apply Z.mul_le_mono_nonneg_l; lia).
    assert (d * Z.succ ((base - bank) / d) ≤ d * k) by (apply Z.mul_le_mono_nonneg_l; lia). lia.
Qed.

(** A window that runs over the end of the address space is accepted, protected or
    not: its last group comes before its first. *)
Example wrp_wraps : wt_guest_flash_wrp_covers 0xFFFFFFFF 0x08010000 0xFFFFFF00 0x08000000 0x2000 4 = WT_GUEST_VERIFY_OK.
Proof. by vm_compute. Qed.

Definition within (r : wt_frad_region) (a : Z) : Prop := fr_start r ≤ a ≤ fr_end r.
Definition region_ok (r : wt_frad_region) : Prop := 0 ≤ fr_start r ≤ fr_end r ∧ fr_end r < 2 ^ 32.

Lemma frad_find_some regions cursor r : frad_find regions cursor = Some r →
  r ∈ regions ∧ wt_frad_region_denies_write r = true ∧ within r cursor.
Proof.
  induction regions as [|r' l IH]; simpl; [done|]. destruct (frad_holds cursor r') eqn:E.
  - intros [= ->]. unfold frad_holds in E. rewrite !andb_true_iff, !Z.leb_le in E. unfold within. set_solver.
  - intros H. destruct (IH H). set_solver.
Qed.
Lemma frad_find_none regions cursor : frad_find regions cursor = None →
  ∀ r, r ∈ regions → wt_frad_region_denies_write r = true → ¬ within r cursor.
Proof.
  induction regions as [|r' l IH]; simpl; [set_solver|]. destruct (frad_holds cursor r') eqn:E; [done|].
  intros H r [->|Hr]%elem_of_cons Hd [? ?]; [|by eapply IH]. unfold frad_holds in E. rewrite Hd in E. simpl in E.
  rewrite !(proj2 (Z.leb_le _ _)) in E; done.
Qed.

(** The descriptors that end at the cursor or after it. *)
Definition ahead (cursor : Z) (regions : list wt_frad_region) : nat := length (filter (λ r, cursor ≤ fr_end r) regions).
Lemma ahead_lt c c' r regions : r ∈ regions → c ≤ fr_end r → fr_end r < c' → c ≤ c' → (ahead c' regions < ahead c regions)%nat.
Proof.
  intros Hr Hc Hc' Hle. unfold ahead. assert (∀ l, (length (filter (λ r, (c' ≤ fr_end r)%Z) l) ≤ length (filter (λ r, (c ≤ fr_end r)%Z) l))%nat) as H.
  { induction l as [|x l IH]; [done|]. rewrite !filter_cons. repeat case_decide; simpl; lia. }
  apply list_elem_of_split in Hr as (l1 & l2 & ->). rewrite !filter_app, !length_app, !filter_cons.
  pose proof (H l1). pose proof (H l2). repeat case_decide; simpl; lia.
Qed.

Definition protects (regions : list wt_frad_region) (a : Z) : Prop :=
  ∃ r, r ∈ regions ∧ wt_frad_region_denies_write r = true ∧ within r a.
Lemma frad_loop_sound steps regions cursor last : Forall region_ok regions → frad_loop steps regions cursor last = WT_GUEST_VERIFY_OK →
  last < 2 ^ 32 → ∀ a, cursor ≤ a ≤ last → protects regions a.
Proof.
  intros Hok E Hl. revert cursor E. induction steps as [|steps IH]; intros cursor E a Ha; [done|]. simpl in E.
  destruct (frad_find regions cursor) as [r|] eqn:Ef; [|done]. apply frad_find_some in Ef as (Hr & Hd & Hs & He).
  pose proof (proj1 (Forall_forall _ _) Hok r Hr) as [Hro _].
  destruct (decide (a ≤ fr_end r)) as [|Hgt]; [exists r; split; [done|]; split; [done|]; unfold within; lia|].
  destruct (Z.leb_spec last (fr_end r)); [lia|]. rewrite u32_small in E by lia. apply (IH _ E). lia.
Qed.
Lemma frad_loop_complete steps regions cursor last : Forall region_ok regions → 0 ≤ cursor ≤ last → last < 2 ^ 32 →
  (ahead cursor regions ≤ steps)%nat → (∀ a, cursor ≤ a ≤ last → protects regions a) → frad_loop steps regions cursor last = WT_GUEST_VERIFY_OK.
Proof.
  intros Hok Hc Hl. revert cursor Hc. induction steps as [|steps IH]; intros cursor Hc Hn Hp; simpl.
  - destruct (Hp cursor ltac:(lia)) as (r & Hr & _ & _ & He). exfalso. unfold ahead in Hn. apply Nat.le_0_r, length_zero_iff_nil in Hn.
    assert (r ∈ filter (λ r, cursor ≤ fr_end r) regions) as H by by apply list_elem_of_filter. rewrite Hn in H. by apply not_elem_of_nil in H.
  - destruct (frad_find regions cursor) as [r|] eqn:Ef.
    + apply frad_find_some in Ef as (Hr & Hd & Hs & He). pose proof (proj1 (Forall_forall _ _) Hok r Hr) as [Hro _].
      destruct (Z.leb_spec last (fr_end r)); [done|]. rewrite u32_small by lia. apply IH; [lia| |intros a Ha; apply Hp; lia].
      pose proof (ahead_lt cursor (fr_end r + 1) r regions Hr He ltac:(lia) ltac:(lia)). lia.
    + destruct (Hp cursor ltac:(lia)) as (r & Hr & Hd & Hw). by destruct (frad_find_none _ _ Ef r Hr Hd).
Qed.

(** C8: the descriptor check of a guest's flash window succeeds exactly if each
    byte of the window lies in a valid, locked descriptor that denies writes, and
    each valid descriptor that reaches into the window is such a one. One turn for
    each descriptor is enough, in whatever order they are given. *)
Theorem frad_covers_iff regions base size : Forall region_ok regions → regions ≠ [] → 0 ≤ base → 0 < size → base + size ≤ 2 ^ 32 →
  wt_guest_flash_frad_covers (Some regions) base size = WT_GUEST_VERIFY_OK ↔
  (∀ a, base ≤ a < base + size → protects regions a) ∧
  (∀ r a, r ∈ regions → fr_valid r ≠ 0 → base ≤ a < base + size → within r a → wt_frad_region_denies_write r = true).
Proof.
  intros Hok Hne Hb Hs Hw. unfold wt_guest_flash_frad_covers. destruct (Nat.eqb_spec (length regions) 0) as [Hl%length_zero_iff_nil|_]; [done|].
  rewrite (proj2 (Z.eqb_neq size 0)), u32_small by lia. simpl. rewrite (proj2 (Z.ltb_ge _ base)) by lia. set (last := base + size - 1).
  assert (existsb (frad_conflict base last) regions = true ↔
    ∃ r a, r ∈ regions ∧ fr_valid r ≠ 0 ∧ base ≤ a < base + size ∧ within r a ∧ wt_frad_region_denies_write r = false) as Hc.
  { rewrite existsb_exists. setoid_rewrite <-list_elem_of_In. unfold frad_conflict, within. setoid_rewrite andb_true_iff. setoid_rewrite andb_true_iff.
    setoid_rewrite andb_true_iff. setoid_rewrite negb_true_iff. setoid_rewrite Z.leb_le. setoid_rewrite Z.eqb_neq. split.
    - intros (r & Hr & [[Hv H1] H2] & Hd). pose proof (proj1 (Forall_forall _ _) Hok r Hr) as [Hro _].
      exists r, (Z.max base (fr_start r)). unfold last in *. repeat split; try done; lia.
    - intros (r & a & Hr & Hv & Ha & [H1 H2] & Hd). exists r. unfold last. repeat split; try done; lia. }
  destruct (existsb _ regions) eqn:E.
  - split; [done|]. intros [_ H]. destruct (proj1 Hc eq_refl) as (r & a & Hr & Hv & Ha & Hwi & Hd). by rewrite (H r a) in Hd.
  - split.
    + intros El. split.
      * intros a Ha. eapply frad_loop_sound; [done|exact El|unfold last; lia..].
      * intros r a Hr Hv Ha Hwi. apply not_false_is_true. intros Hd. assert (false = true) as F by (apply Hc; eauto 10). done.
    + intros [H _]. apply frad_loop_complete; [done|unfold last; lia..| |].
      * unfold ahead. apply length_filter.
      * intros a Ha. apply H. unfold last in Ha. lia.
Qed.
(** Two locked descriptors, out of order, that meet inside the window. *)
Definition two_regions : list wt_frad_region :=
  [{| fr_start := 0x2000; fr_end := 0x2FFF; fr_write_acp := 0; fr_valid := 1; fr_locked := 1 |};
   {| fr_start := 0x1000; fr_end := 0x1FFF; fr_write_acp := 0; fr_valid := 1; fr_locked := 1 |}].
Lemma frad_covers_iff_witness : wt_guest_flash_frad_covers (Some two_regions) 0x1800 0x1000 = WT_GUEST_VERIFY_OK ∧
  (∀ a, 0x1800 ≤ a < 0x1800 + 0x1000 → protects two_regions a).
Proof.
  assert (wt_guest_flash_frad_covers (Some two_regions) 0x1800 0x1000 = WT_GUEST_VERIFY_OK) as E by by vm_compute. split; [exact E|].
  apply (frad_covers_iff two_regions 0x1800 0x1000); [repeat constructor; simpl; lia|done|lia..|exact E].
Defined.
