(* ===== verification/Monitor.v ===== *)
(** * The guest monitor: [monitor.c]

    The monitor schedules Non-secure guests in time slices, measures a guest's
    image before it may enter its domain, and restarts or quarantines guests that
    fault. Everything it does to the machine, and everything it asks of it, is one
    operation of the port ([port_fn] on the rest of the system [W]), so that the
    sequence of those operations can be observed; the tables that the port's
    [partitions.c] provides are arguments. The model is of the build whose crypto
    engine runs in a partition and has no virtual network ([WT_ENGINE_HSM] and
    [CONFIG_VNET] not defined); [flash_wrp] is [WT_GUEST_FLASH_WRP].

    A function that does not return ends in an [exit], which says who runs next.
    The scheduling loop is one turn of the source's loop: where the source waits
    for an interrupt and goes round, the turn ends in [Waiting], and the loop is
    entered again. *)

From Stdlib Require Import ZArith Lia.
From stdpp Require Import base list numbers option sets.
From S2P Require Import Prelude Buffers CState Domain Manifest SecureDomain Policies FfmTypes GuestVerify.

Inductive wt_guest_state :=
| WT_GUEST_STOPPED | WT_GUEST_READY | WT_GUEST_RUNNING | WT_GUEST_WAITING_HSM | WT_GUEST_FAULTED | WT_GUEST_RESTARTING.
#[export] Instance guest_state_eq_dec : EqDecision wt_guest_state.
Proof. solve_decision. Defined.
Inductive wt_fault_reason :=
| WT_FAULT_NONE | WT_FAULT_MEMORY_VIOLATION | WT_FAULT_ILLEGAL_INSTRUCTION | WT_FAULT_STACK_OVERFLOW
| WT_FAULT_SECURE_ESCALATION | WT_FAULT_PLATFORM.
Inductive wt_scheduler_rep := WT_SCHED_REP_NS | WT_SCHED_REP_HSM.
#[export] Instance scheduler_rep_eq_dec : EqDecision wt_scheduler_rep.
Proof. solve_decision. Defined.

Definition WT_SPM_VALID : Z := 0.

(** [memory_window_count] and [memory_region_count] are the lengths. *)
Record wt_guest_config := {
  gc_name : list Z;
  gc_irq_mask : list Z;
  gc_memory_windows : list wt_memory_resource;
  gc_memory_regions : list wt_memory_region;
  gc_restart_limit : Z;
  gc_restart_window_ticks : Z;
  gc_initial_delay_ticks : Z;
  gc_timeslice_ms : Z;
  gc_provided_capabilities : Z;
  gc_initial_state : wt_guest_state;
  gc_launch_required : Z;
  gc_launch_min_version : Z;
}.
(** The context, which the port owns, is named by the guest. *)
Record wt_guest_runtime := {
  gr_state : wt_guest_state;
  gr_remaining_delay_ticks : Z;
  gr_restart_count : Z;
  gr_first_restart_tick : Z;
  gr_last_fault : wt_fault_reason;
}.

(** What the monitor asks of the platform and the architecture. *)
Inductive port_op :=
| OpPlatformInit
| OpSpmInit                                       (** [wt_spm_init] on the generated manifest *)
| OpBindManifest                                  (** [wt_partitions_bind_manifest] *)
| OpBootInit                                      (** [wt_ffm_boot_init] *)
| OpContextReset (guest : nat)                    (** the context part of [wt_partition_reset_runtime] *)
| OpContextReady (guest : nat)
| OpContextPrepare (guest : nat)
| OpContextCapture (guest : nat)
| OpContextRestore (guest : nat)                  (** enters the guest *)
| OpHash (base size : Z)
| OpFlashWrpOk (base size : Z)
| OpProgramWindows (windows : list wt_memory_resource)
| OpProgramDomain (regions : list wt_memory_region)
| OpApplyIrqMask (mask : list Z)
| OpQuarantineIrqs (mask : list Z)
| OpMaskAllIrqs
| OpStartTimer (ms : Z)
| OpInHandlerMode
| OpTrapFromGuestThread
| OpWaitForInterrupt
| OpZeroMemory (base size : Z)
| OpFailConnections (client : Z)                  (** [wt_ffm_fail_client_connections] *)
| OpLogFault (guest : nat) (reason : wt_fault_reason).
(** The returned integer, or the result and the digest of a hash. *)
Definition port_fn (W : Type) : Type := port_op → W → W * (Z * list Z).

(** Who runs when a function does not return. *)
Inductive exit := Entered (guest : nat) | Idled | Waiting | AllFaulted | Panicked.

Record monitor (W : Type) := {
  mo_world : W;
  mo_configs : list wt_guest_config;
  mo_runtime : list wt_guest_runtime;
  mo_guest_count : nat;
  mo_current_guest : nat;
  mo_current_rep : wt_scheduler_rep;
  mo_monotonic_ticks : Z;
  g_wt_restart_events : Z;
  g_wt_quarantine_events : Z;
  g_wt_launch_verified_mask : Z;
  g_wt_launch_refused_mask : Z;
  g_wt_first_dispatch_pending : Z;
  g_wt_runtime_verify_pass : Z;
  g_wt_runtime_verify_fail : Z;
  mo_measurements : measurements;
}.
Arguments mo_world {W}. Arguments mo_configs {W}. Arguments mo_runtime {W}. Arguments mo_guest_count {W}.
Arguments mo_current_guest {W}. Arguments mo_current_rep {W}. Arguments mo_monotonic_ticks {W}. Arguments g_wt_restart_events {W}.
Arguments g_wt_quarantine_events {W}. Arguments g_wt_launch_verified_mask {W}. Arguments g_wt_launch_refused_mask {W}.
Arguments g_wt_first_dispatch_pending {W}. Arguments g_wt_runtime_verify_pass {W}. Arguments g_wt_runtime_verify_fail {W}.
Arguments mo_measurements {W}.

#[export] Instance guest_runtime_eta : Settable wt_guest_runtime := λ r,
  {| gr_state := gr_state r; gr_remaining_delay_ticks := gr_remaining_delay_ticks r; gr_restart_count := gr_restart_count r;
     gr_first_restart_tick := gr_first_restart_tick r; gr_last_fault := gr_last_fault r |}.
#[export] Instance set_gr_state : Setter gr_state. Proof. derive_setter. Defined.
#[export] Instance set_gr_remaining_delay_ticks : Setter gr_remaining_delay_ticks. Proof. derive_setter. Defined.
#[export] Instance set_gr_restart_count : Setter gr_restart_count. Proof. derive_setter. Defined.
#[export] Instance set_gr_first_restart_tick : Setter gr_first_restart_tick. Proof. derive_setter. Defined.
#[export] Instance set_gr_last_fault : Setter gr_last_fault. Proof. derive_setter. Defined.

Section monitor.
Context {W : Type} (port : port_fn W) (records : option (list wt_guest_measurement)) (flash_wrp : bool).
Abbreviation mon := (monitor W).
#[export] Instance monitor_eta : Settable mon := λ s,
  {| mo_world := mo_world s; mo_configs := mo_configs s; mo_runtime := mo_runtime s; mo_guest_count := mo_guest_count s;
     mo_current_guest := mo_current_guest s; mo_current_rep := mo_current_rep s; mo_monotonic_ticks := mo_monotonic_ticks s;
     g_wt_restart_events := g_wt_restart_events s; g_wt_quarantine_events := g_wt_quarantine_events s;
     g_wt_launch_verified_mask := g_wt_launch_verified_mask s; g_wt_launch_refused_mask := g_wt_launch_refused_mask s;
     g_wt_first_dispatch_pending := g_wt_first_dispatch_pending s; g_wt_runtime_verify_pass := g_wt_runtime_verify_pass s;
     g_wt_runtime_verify_fail := g_wt_runtime_verify_fail s; mo_measurements := mo_measurements s |}.
#[export] Instance set_mo_world : Setter (@mo_world W). Proof. derive_setter. Defined.
#[export] Instance set_mo_configs : Setter (@mo_configs W). Proof. derive_setter. Defined.
#[export] Instance set_mo_runtime : Setter (@mo_runtime W). Proof. derive_setter. Defined.
#[export] Instance set_mo_guest_count : Setter (@mo_guest_count W). Proof. derive_setter. Defined.
#[export] Instance set_mo_current_guest : Setter (@mo_current_guest W). Proof. derive_setter. Defined.
#[export] Instance set_mo_current_rep : Setter (@mo_current_rep W). Proof. derive_setter. Defined.
#[export] Instance set_mo_monotonic_ticks : Setter (@mo_monotonic_ticks W). Proof. derive_setter. Defined.
#[export] Instance set_g_wt_restart_events : Setter (@g_wt_restart_events W). Proof. derive_setter. Defined.
#[export] Instance set_g_wt_quarantine_events : Setter (@g_wt_quarantine_events W). Proof. derive_setter. Defined.
#[export] Instance set_g_wt_launch_verified_mask : Setter (@g_wt_launch_verified_mask W). Proof. derive_setter. Defined.
#[export] Instance set_g_wt_launch_refused_mask : Setter (@g_wt_launch_refused_mask W). Proof. derive_setter. Defined.
#[export] Instance set_g_wt_first_dispatch_pending : Setter (@g_wt_first_dispatch_pending W). Proof. derive_setter. Defined.
#[export] Instance set_g_wt_runtime_verify_pass : Setter (@g_wt_runtime_verify_pass W). Proof. derive_setter. Defined.
#[export] Instance set_g_wt_runtime_verify_fail : Setter (@g_wt_runtime_verify_fail W). Proof. derive_setter. Defined.
#[export] Instance set_mo_measurements : Setter (@mo_measurements W). Proof. derive_setter. Defined.

Abbreviation mprog := (prog mon exit).

Definition ask (op : port_op) : func mon (Z * list Z) := λ s,
  let '(w, r) := port op (mo_world s) in Some (s <| mo_world := w |>, r).
Definition perform (op : port_op) : mprog unit := _ ← call (ask op); mret tt.
Definition query (op : port_op) : mprog Z := '(r, _) ← call (ask op); mret r.
Definition query_bool (op : port_op) : mprog bool := r ← query op; mret (negb (r =? 0)).
Definition wt_platform_panic {A} : mprog A := early Panicked.

(** A pointer into the tables; a guest of the table whose entry does not exist is
    undefined. *)
Definition wt_guest_config_of (guest_id : nat) : mprog (option wt_guest_config) := 
  n ← gets mo_guest_count;
  if (n <=? guest_id)%nat then mret None else
  l ← gets mo_configs; c ← defined (l !! guest_id); mret (Some c).
Definition wt_guest_runtime_of (guest_id : nat) : mprog (option wt_guest_runtime) :=
  n ← gets mo_guest_count;
  if (n <=? guest_id)%nat then mret None else
  l ← gets mo_runtime; r ← defined (l !! guest_id); mret (Some r).
(** [runtime->field = ...] *)
Definition mod_runtime (guest_id : nat) (f : wt_guest_runtime → wt_guest_runtime) : mprog unit :=
  l ← gets mo_runtime; _ ← defined (l !! guest_id);
  modify (λ s, s <| mo_runtime := alter f guest_id (mo_runtime s) |>).
(** [(uint32_t)1U << guest_id] *)
Definition guest_bit (guest_id : nat) : mprog Z := defined (if (guest_id <? 32)%nat then Some (1 .<< Z.of_nat guest_id) else None).

(** ** Scheduling order *)

Definition runnable (r : wt_guest_runtime) : bool :=
  negb (0 <? gr_remaining_delay_ticks r) &&
  match gr_state r with WT_GUEST_READY | WT_GUEST_RUNNING => true | _ => false end.
Fixpoint find_loop (n : nat) (attempts start count : nat) : mprog nat :=
  match n with
  | O => mret count
  | S n' =>
    let candidate := ((start + attempts) mod count)%nat in
    runtime ← wt_guest_runtime_of candidate;
    match runtime with
    | Some r => if runnable r then mret candidate else find_loop n' (S attempts) start count
    | None => find_loop n' (S attempts) start count
    end
  end.
Definition wt_find_next_runnable (start : nat) : mprog nat :=
  n ← gets mo_guest_count; find_loop n 0 start n.

(** ** Launch verification *)

Definition exec_window (config : wt_guest_config) : option wt_memory_resource :=
  list_find (λ w, has_any (mr_attributes w) WT_MEMORY_ATTR_EXECUTE = true) (gc_memory_windows config) ≫= λ p, Some p.2.
Definition guest_record (guest_id : nat) : option wt_guest_measurement :=
  l ← records; list_find (λ r, gm_guest_id r = Z.of_nat guest_id) l ≫= λ p, Some p.2.
Definition wc_Sha256Hash (base size : Z) : func mon (Z * list Z) := ask (OpHash base size).

Definition launch_recorded (guest_id : nat) (t : measurements) : bool :=
  existsb (λ i, match wt_guest_measurement_get i t with Some e => gm_guest_id (me_record e) =? Z.of_nat guest_id | None => false end)
    (seq 0 (wt_guest_measurement_count t)).
Definition in_measurements {A} (f : func measurements A) : func mon A := λ s,
  '(t, a) ← f (mo_measurements s); Some (s <| mo_measurements := t |>, a).

(** The measurement of a required guest, before its result is noted. *)
Definition measure_guest (guest_id : nat) (config : wt_guest_config) : mprog Z :=
  match exec_window config, guest_record guest_id with
  | Some window, Some record =>
    ret ← call (wt_guest_verify_image wc_Sha256Hash (mr_base window) (mr_size window) (Some record) (gc_launch_min_version config));
    if flash_wrp && (ret =? WT_GUEST_VERIFY_OK) then query (OpFlashWrpOk (mr_base window) (mr_size window)) else mret ret
  | _, _ => mret WT_GUEST_VERIFY_ERROR_ARGUMENT
  end.
Definition wt_verify_guest_launch (guest_id : nat) : mprog Z :=
  config ← wt_guest_config_of guest_id;
  match config with
  | None => mret WT_GUEST_VERIFY_ERROR_ARGUMENT
  | Some config =>
    if gc_launch_required config =? 0 then mret WT_GUEST_VERIFY_OK else
    ret ← measure_guest guest_id config;
    bit ← guest_bit guest_id;
    (if ret =? WT_GUEST_VERIFY_OK then
       modify (λ s, s <| g_wt_launch_verified_mask := g_wt_launch_verified_mask s .| bit |>);;
       t ← gets mo_measurements;
       when (negb (launch_recorded guest_id t))
         (_ ← call (in_measurements (wt_guest_measurement_record (guest_record guest_id) (Some (gc_name config)))); mret tt)
     else modify (λ s, s <| g_wt_launch_refused_mask := g_wt_launch_refused_mask s .| bit |>));;
    mret ret
  end.

(** ** Restarts *)

(** [wt_partition_reset_runtime] of the ports. *)
Definition wt_partition_reset_runtime (guest_id : nat) (config : wt_guest_config) : mprog unit :=
  perform (OpContextReset guest_id);;
  mod_runtime guest_id (λ r, {| gr_state := gc_initial_state config; gr_remaining_delay_ticks := 0;
                                gr_restart_count := gr_restart_count r; gr_first_restart_tick := gr_first_restart_tick r;
                                gr_last_fault := WT_FAULT_NONE |}).
Definition quarantined (guest_id : nat) : mprog unit :=
  mod_runtime guest_id (λ r, r <| gr_state := WT_GUEST_FAULTED |>);;
  modify (λ s, s <| g_wt_quarantine_events := u32 (g_wt_quarantine_events s + 1) |>).

Definition backoff_guest (i : nat) : mprog unit :=
  l ← gets mo_runtime; r ← defined (l !! i);
  when (0 <? gr_remaining_delay_ticks r) (mod_runtime i (λ r, r <| gr_remaining_delay_ticks := gr_remaining_delay_ticks r - 1 |>));;
  l ← gets mo_runtime; r ← defined (l !! i);
  when ((gr_remaining_delay_ticks r =? 0) && bool_decide (gr_state r = WT_GUEST_RESTARTING))
    (ret ← wt_verify_guest_launch i;
     if ret =? WT_GUEST_VERIFY_OK then
       cs ← gets mo_configs; config ← defined (cs !! i); wt_partition_reset_runtime i config
     else quarantined i).
Definition wt_tick_restart_backoff : mprog unit :=
  n ← gets mo_guest_count; for_each (seq 0 n) backoff_guest.

Definition wt_find_restart_clear_window (config : wt_guest_config) : option wt_memory_resource :=
  list_find (λ w, has_any (mr_attributes w) WT_MEMORY_ATTR_RESTART_CLEAR = true) (gc_memory_windows config) ≫= λ p, Some p.2.
(** [-(psa_client_id_t)(guest_id + 1U)] *)
Definition guest_client (guest_id : nat) : Z := - (Z.of_nat guest_id + 1).
Definition wt_restart_guest (guest_id : nat) (reason : wt_fault_reason) : mprog unit :=
  config ← wt_guest_config_of guest_id;
  runtime ← wt_guest_runtime_of guest_id;
  match config, runtime with
  | Some config, Some _ =>
    mod_runtime guest_id (λ r, r <| gr_last_fault := reason |>);;
    perform (OpFailConnections (guest_client guest_id));;
    match wt_find_restart_clear_window config with
    | Some window => perform (OpZeroMemory (mr_base window) (mr_size window))
    | None => mret tt
    end;;
    ticks ← gets mo_monotonic_ticks;
    l ← gets mo_runtime; r ← defined (l !! guest_id);
    let '(decision, st) := wt_restart_policy_evaluate (gc_restart_limit config) (gc_restart_window_ticks config) ticks
                             {| rs_count := gr_restart_count r; rs_tick := gr_first_restart_tick r |} in
    mod_runtime guest_id (λ r, r <| gr_restart_count := rs_count st |> <| gr_first_restart_tick := rs_tick st |>);;
    if bool_decide (decision = WT_RESTART_DECISION_FAULT) then quarantined guest_id else
    mod_runtime guest_id (λ r, r <| gr_state := WT_GUEST_RESTARTING |>);;
    modify (λ s, s <| g_wt_restart_events := u32 (g_wt_restart_events s + 1) |>);;
    mod_runtime guest_id (λ r, r <| gr_remaining_delay_ticks := gc_initial_delay_ticks config |>)
  | _, _ => wt_platform_panic
  end.

(** ** Dispatch *)

Definition wt_apply_partition (guest_id : nat) : mprog unit :=
  config ← wt_guest_config_of guest_id;
  match config with
  | None => wt_platform_panic
  | Some config =>
    perform (OpProgramWindows (gc_memory_windows config));;
    perform (OpProgramDomain (gc_memory_regions config));;
    perform (OpApplyIrqMask (gc_irq_mask config))
  end.
Definition enter_guest (guest_id : nat) (config : wt_guest_config) : mprog unit :=
  perform (OpContextPrepare guest_id);;
  wt_apply_partition guest_id;;
  mod_runtime guest_id (λ r, r <| gr_state := WT_GUEST_RUNNING |>);;
  modify (λ s, s <| mo_current_guest := guest_id |> <| mo_current_rep := WT_SCHED_REP_NS |>);;
  perform (OpStartTimer (gc_timeslice_ms config));;
  perform (OpContextRestore guest_id);;
  early (Entered guest_id).
(** [next]: [wt_schedule_next_guest], which does not return. *)
Definition wt_dispatch_guest (next : mprog unit) (guest_id : nat) : mprog unit :=
  config ← wt_guest_config_of guest_id;
  runtime ← wt_guest_runtime_of guest_id;
  match config, runtime with
  | Some config, Some _ =>
    bit ← guest_bit guest_id;
    pending ← gets g_wt_first_dispatch_pending;
    (if has_any pending bit then
       modify (λ s, s <| g_wt_first_dispatch_pending := g_wt_first_dispatch_pending s .&~ bit |>);;
       ret ← wt_verify_guest_launch guest_id;
       when (negb (ret =? WT_GUEST_VERIFY_OK)) (quarantined guest_id;; next)
     else mret tt);;
    enter_guest guest_id config
  | _, _ => wt_platform_panic
  end.

Definition wt_all_guests_terminal (n : nat) (runtime : list wt_guest_runtime) : bool :=
  forallb (λ r, bool_decide (gr_state r = WT_GUEST_FAULTED) || bool_decide (gr_state r = WT_GUEST_STOPPED)) (take n runtime).
(** The recursion through a refused first dispatch clears a pending bit each
    time; without fuel the function is undefined. *)
Fixpoint wt_schedule_next_guest (fuel : nat) : mprog unit :=
  match fuel with
  | O => defined None
  | S fuel' =>
    count ← gets mo_guest_count;
    when (count =? 0)%nat (early AllFaulted);;
    current ← gets mo_current_guest;
    next_guest ← wt_find_next_runnable ((current + 1) mod count)%nat;
    if (count <=? next_guest)%nat then
      runtime ← gets mo_runtime;
      when (wt_all_guests_terminal count runtime) (early AllFaulted);;
      handler ← query_bool OpInHandlerMode;
      when handler (early Idled);;
      perform OpWaitForInterrupt;;
      early Waiting
    else
      l ← gets mo_configs; config ← defined (l !! next_guest);
      perform (OpQuarantineIrqs (gc_irq_mask config));;
      wt_dispatch_guest (wt_schedule_next_guest fuel') next_guest
  end.
(** Enough for 32 pending bits. *)
Definition schedule : mprog unit := wt_schedule_next_guest 34.

Definition wt_save_running_guest : mprog unit :=
  n ← gets mo_guest_count;
  if (n =? 0)%nat then mret tt else
  rep ← gets mo_current_rep;
  if negb (bool_decide (rep = WT_SCHED_REP_NS)) then mret tt else
  g ← gets mo_current_guest;
  current ← wt_guest_runtime_of g;
  match current with
  | None => mret tt
  | Some r =>
    let state := gr_state r in
    if bool_decide (state = WT_GUEST_RUNNING) || bool_decide (state = WT_GUEST_WAITING_HSM) then
      perform (OpContextCapture g);;
      mod_runtime g (λ r, r <| gr_state := if bool_decide (state = WT_GUEST_WAITING_HSM) then WT_GUEST_WAITING_HSM else WT_GUEST_READY |>)
    else mret tt
  end.

(** ** Entry points *)

Definition init_guest (i : nat) : mprog unit :=
  mod_runtime i (λ r, r <| gr_restart_count := 0 |> <| gr_first_restart_tick := 0 |>);;
  cs ← gets mo_configs; config ← defined (cs !! i);
  wt_partition_reset_runtime i config;;
  ready ← query_bool (OpContextReady i);
  when (negb ready) wt_platform_panic;;
  ret ← wt_verify_guest_launch i;
  when (negb (ret =? WT_GUEST_VERIFY_OK)) (quarantined i).
(** [configs] is the table as [wt_partitions_bind_manifest] leaves it. *)
Definition wt_monitor_init (configs : list wt_guest_config) (profile : option wt_profile_capabilities) : mprog unit :=
  perform OpPlatformInit;;
  spm_result ← query OpSpmInit;
  when (negb (spm_result =? WT_SPM_VALID)) wt_platform_panic;;
  bound ← query OpBindManifest;
  when (negb (bound =? 0)) wt_platform_panic;;
  modify (λ s, s <| mo_configs := configs |>);;
  let count := length configs in
  for_each configs (λ c, when (negb (wt_partition_validate_profile profile (gc_provided_capabilities c) =? WT_PORT_VALID)) wt_platform_panic);;
  boot ← query OpBootInit;
  when (negb (boot =? WT_FFM_SUCCESS)) wt_platform_panic;;
  modify (λ s, s <| mo_guest_count := count |> <| mo_current_guest := 0%nat |> <| mo_current_rep := WT_SCHED_REP_NS |>
                 <| mo_monotonic_ticks := 0 |>);;
  for_each (seq 0 count) init_guest;;
  modify (λ s, s <| g_wt_first_dispatch_pending := if (32 <=? count)%nat then 0xFFFFFFFF else (1 .<< Z.of_nat count) - 1 |>).

Definition wt_monitor_start : mprog unit :=
  perform OpMaskAllIrqs;;
  next_guest ← wt_find_next_runnable 0;
  count ← gets mo_guest_count;
  when (count <=? next_guest)%nat (early AllFaulted);;
  wt_dispatch_guest schedule next_guest.

Definition wt_monitor_on_secure_timer : mprog unit :=
  modify (λ s, s <| mo_monotonic_ticks := u32 (mo_monotonic_ticks s + 1) |>);;
  perform OpMaskAllIrqs;;
  from_guest ← query_bool OpTrapFromGuestThread;
  if negb from_guest then wt_tick_restart_backoff else
  wt_save_running_guest;;
  wt_tick_restart_backoff;;
  schedule.

Definition wt_monitor_on_guest_fault (reason : wt_fault_reason) : mprog unit :=
  g ← gets mo_current_guest;
  current ← wt_guest_runtime_of g;
  match current with
  | None => wt_platform_panic
  | Some _ =>
    perform OpMaskAllIrqs;;
    perform (OpContextCapture g);;
    perform (OpLogFault g reason);;
    wt_restart_guest g reason;;
    schedule
  end.

Definition wt_monitor_quarantine_guest (guest_id : nat) : mprog unit :=
  runtime ← wt_guest_runtime_of guest_id;
  match runtime with
  | None => mret tt
  | Some _ =>
    perform (OpFailConnections (guest_client guest_id));;
    quarantined guest_id;;
    bit ← guest_bit guest_id;
    modify (λ s, s <| g_wt_launch_refused_mask := g_wt_launch_refused_mask s .| bit |>)
  end.

Definition wt_runtime_verify_guest (guest_id : nat) : mprog Z :=
  config ← wt_guest_config_of guest_id;
  match config with
  | None => mret WT_GUEST_VERIFY_ERROR_ARGUMENT
  | Some config =>
    let window := exec_window config in
    ret ← call (wt_runtime_verify_decide wc_Sha256Hash (default 0 (mr_base <$> window)) (default 0 (mr_size <$> window))
                  (guest_record guest_id) (gc_launch_min_version config) (gc_launch_required config));
    (if wt_runtime_verify_should_quarantine ret then
       modify (λ s, s <| g_wt_runtime_verify_fail := u32 (g_wt_runtime_verify_fail s + 1) |>);;
       wt_monitor_quarantine_guest guest_id
     else modify (λ s, s <| g_wt_runtime_verify_pass := u32 (g_wt_runtime_verify_pass s + 1) |>));;
    mret ret
  end.
End monitor.
