(* ===== verification/MonitorProps.v ===== *)
(** * Guests are measured before they run

    The operations of the monitor, observed at its port: an automaton for each
    guest says when the guest may be entered ([observe]), the invariant relates it
    to the monitor's state, and the machine of the monitor's entry points, called
    in any order, follows it. A quarantined guest that is not running stays
    quarantined. *)

From Stdlib Require Import ZArith Lia.
From stdpp Require Import base list numbers option sets.
From S2P Require Import Prelude Buffers CState Domain Manifest SecureDomain Policies FfmTypes GuestVerify Monitor.

(** ** Launches, observed from outside *)

(** An operation with its result. *)
Definition event : Type := port_op * (Z * list Z).
Definition observed_port {W} (port : port_fn W) : port_fn (W * list event) := λ op '(w, log),
  let '(w', r) := port op w in ((w', log ++ [(op, r)]), r).

(** What has been seen of a guest: its image matched its pin, its image was also
    found write-protected if the build asks for it, both since its last fault;
    the measurement is younger than the last entry of any guest; it ran before. *)
Record watch := { wa_hashed : bool; wa_measured : bool; wa_recent : bool; wa_entered : bool }.
Definition unseen : watch := {| wa_hashed := false; wa_measured := false; wa_recent := false; wa_entered := false |}.

Section launch.
Context (records : option (list wt_guest_measurement)) (flash_wrp : bool).

(** A hash of a guest's image that matches its pinned record. *)
Definition matches (g : nat) (c : wt_guest_config) (e : event) : bool :=
  match e.1, exec_window c, guest_record records g with
  | OpHash base size, Some window, Some record =>
    (base =? mr_base window) && (size =? gm_image_size record) && (gm_image_size record <=? mr_size window) &&
    (gc_launch_min_version c <=? gm_version record) && (e.2.1 =? 0) &&
    bool_decide (wt_guest_digest_equal e.2.2 (gm_digest record) = Some true)
  | _, _, _ => false
  end.
Definition protected (c : wt_guest_config) (e : event) : bool :=
  match e.1, exec_window c with
  | OpFlashWrpOk base size, Some window => (base =? mr_base window) && (size =? mr_size window) && (e.2.1 =? WT_GUEST_VERIFY_OK)
  | _, _ => false
  end.
(** A guest may be entered only after a measurement since its last fault; for its
    first entry, no guest has run since that measurement. *)
Definition observe (g : nat) (c : wt_guest_config) (st : watch) (e : event) : option watch :=
  if matches g c e then
    Some {| wa_hashed := true; wa_measured := wa_measured st || negb flash_wrp; wa_recent := wa_recent st || negb flash_wrp;
            wa_entered := wa_entered st |}
  else if protected c e then
    Some {| wa_hashed := wa_hashed st; wa_measured := wa_measured st || wa_hashed st; wa_recent := wa_recent st || wa_hashed st;
            wa_entered := wa_entered st |}
  else match e.1 with
  | OpFailConnections client =>
    Some (if client =? guest_client g then {| wa_hashed := false; wa_measured := false; wa_recent := false; wa_entered := wa_entered st |}
          else st)
  | OpContextRestore g' =>
    if bool_decide (g' = g) then
      if wa_measured st && (wa_entered st || wa_recent st)
      then Some {| wa_hashed := false; wa_measured := true; wa_recent := false; wa_entered := true |} else None
    else Some {| wa_hashed := false; wa_measured := wa_measured st; wa_recent := false; wa_entered := wa_entered st |}
  | _ => Some st
  end.
Fixpoint watched_from (g : nat) (c : wt_guest_config) (st : watch) (log : list event) : option watch :=
  match log with [] => Some st | e :: log' => st' ← observe g c st e; watched_from g c st' log' end.
Definition watched (g : nat) (c : wt_guest_config) (log : list event) : option watch := watched_from g c unseen log.

Lemma watched_snoc g c log e : watched g c (log ++ [e]) = (st ← watched g c log; observe g c st e).
Proof.
  unfold watched. generalize unseen. induction log as [|e' log IH]; intros st; simpl.
  - by destruct (observe g c st e).
  - destruct (observe g c st e') as [st'|]; [|done]. simpl. apply IH.
Qed.

(** The operations that start or end a launch. *)
Definition launching (op : port_op) : bool :=
  match op with OpContextRestore _ | OpFailConnections _ => true | _ => false end.
Definition enterable (st : watch) : Prop := wa_measured st = true ∧ (wa_entered st = true ∨ wa_recent st = true).
Lemma observe_other g c st e : launching e.1 = false → ∃ st', observe g c st e = Some st' ∧
  (wa_measured st = true → wa_measured st' = true) ∧ (wa_recent st = true → wa_recent st' = true) ∧ wa_entered st' = wa_entered st.
Proof using.
  intros Hl. unfold observe. destruct (matches g c e); [eexists; split; [done|]; simpl; by destruct (wa_measured st), (wa_recent st)|].
  destruct (protected c e); [eexists; split; [done|]; simpl; by destruct (wa_measured st), (wa_recent st)|].
  exists st. by destruct e.1.
Qed.
Lemma observe_fail g c st r client : ∃ st', observe g c st (OpFailConnections client, r) = Some st' ∧ wa_entered st' = wa_entered st ∧
  (client ≠ guest_client g → st' = st).
Proof using.
  unfold observe, matches, protected. simpl. destruct (Z.eqb_spec client (guest_client g)); eexists; split; [done| |done|]; by simpl.
Qed.
Lemma observe_restore g c st r g' : (g' = g → enterable st) → ∃ st', observe g c st (OpContextRestore g', r) = Some st' ∧
  (wa_measured st = true → wa_measured st' = true) ∧ (wa_entered st = true ∨ g' = g → wa_entered st' = true).
Proof using.
  intros He. unfold observe, matches, protected. simpl. case_bool_decide as Hg.
  - destruct (He Hg) as [-> Ho]. destruct (wa_entered st); [|destruct Ho as [H| ->]; [done|]]; eexists; split; done.
  - eexists. split; [done|]. simpl. naive_solver.
Qed.
End launch.

(** ** The invariant *)

(** The digest of a hash has its size. *)
Class HashOk {W} (port : port_fn W) : Prop :=
  hash_length base size w : length (port (OpHash base size) w).2.2 = Z.to_nat WT_GUEST_MEAS_DIGEST_SIZE.

Definition live (st : wt_guest_state) : bool :=
  match st with WT_GUEST_READY | WT_GUEST_RUNNING | WT_GUEST_WAITING_HSM => true | _ => false end.

(** The guests whose launch is in progress. *)
Inductive exc := Settled | Open (g : nat) | Booting.
Definition excepted (x : exc) (g : nat) : Prop := match x with Settled => False | Open g' => g' = g | Booting => True end.
Lemma settled g : ¬ excepted Settled g.
Proof. by intros []. Qed.

Section invariant.
Context {W : Type} (port : port_fn W) `{!HashOk port} (records : option (list wt_guest_measurement)) (flash_wrp : bool).
Context (cs : list wt_guest_config).
Hypothesis few_guests : (length cs ≤ 32)%nat.
Hypothesis record_digests : ∀ l, records = Some l → Forall (λ r, length (gm_digest r) = Z.to_nat WT_GUEST_MEAS_DIGEST_SIZE) l.
(** Guests that are to stay quarantined, and the log when that was asked. *)
Context (Q : nat → Prop) (log0 : list event).
Abbreviation mon := (monitor (W * list event)).
Abbreviation mport := (observed_port port).
Implicit Types (s : mon) (g : nat) (c : wt_guest_config).

Definition log s : list event := (mo_world s).2.
Definition pending s g : bool := Z.testbit (g_wt_first_dispatch_pending s) (Z.of_nat g).
Definition launched s g (st : watch) : Prop := ∀ r, mo_runtime s !! g = Some r →
  (live (gr_state r) = true → wa_measured st = true) ∧ (gr_state r ≠ WT_GUEST_FAULTED → pending s g = true ∨ wa_entered st = true).
(** The guests whose launch is verified. *)
Definition required g c : Prop := cs !! g = Some c ∧ gc_launch_required c ≠ 0.
Definition quiet (l : list event) : Prop := Forall (λ e, ∀ g, Q g → e.1 ≠ OpContextRestore g) l.
Record inv (x : exc) s : Prop := {
  iv_configs : mo_configs s = cs;
  iv_count : mo_guest_count s = length cs;
  iv_runtime : length (mo_runtime s) = length cs;
  iv_measurements : length (g_measurements (mo_measurements s)) = WT_GUEST_MEAS_MAX_RECORDS;
  iv_watched g c : required g c → ∃ st, watched records flash_wrp g c (log s) = Some st ∧ (¬ excepted x g → launched s g st);
  iv_held g : Q g → gr_state <$> mo_runtime s !! g = Some WT_GUEST_FAULTED;
  iv_log : ∃ l, log s = log0 ++ l ∧ quiet l;
}.
Definition may_enter g (l : list event) : Prop := ∀ c, required g c → ∃ st, watched records flash_wrp g c l = Some st ∧ enterable st.
Definition has_entered g (l : list event) : Prop := ∀ c, required g c → ∃ st, watched records flash_wrp g c l = Some st ∧ wa_entered st = true.
(** No guest changed. *)
Record calm s s' : Prop := {
  cm_runtime : mo_runtime s' = mo_runtime s;
  cm_pending : g_wt_first_dispatch_pending s' = g_wt_first_dispatch_pending s;
  cm_current : mo_current_guest s' = mo_current_guest s;
  cm_may_enter g : may_enter g (log s) → may_enter g (log s');
  cm_entered g : has_entered g (log s) → has_entered g (log s');
}.
#[local] Instance calm_refl : Reflexive calm.
Proof. by constructor. Qed.
#[local] Instance calm_trans : Transitive calm.
Proof. intros s1 s2 s3 [] []. constructor; [congruence..| |]; auto. Qed.

(** Only the fields that the invariant does not read differ. *)
Record alike s s' : Prop := {
  ak_world : mo_world s' = mo_world s;
  ak_configs : mo_configs s' = mo_configs s;
  ak_runtime : mo_runtime s' = mo_runtime s;
  ak_count : mo_guest_count s' = mo_guest_count s;
  ak_current : mo_current_guest s' = mo_current_guest s;
  ak_pending : g_wt_first_dispatch_pending s' = g_wt_first_dispatch_pending s;
  ak_measurements : length (g_measurements (mo_measurements s')) = length (g_measurements (mo_measurements s));
}.
Lemma alike_inv x s s' : alike s s' → inv x s → inv x s'.
Proof using. intros [] []. constructor; unfold log, launched, pending in *; try congruence.
  all: intros; rewrite ?ak_world0, ?ak_runtime0, ?ak_pending0; auto. Qed.
Lemma alike_calm s s' : alike s s' → calm s s'.
Proof using. intros []. constructor; [done..| |]; unfold log; rewrite ak_world0; done. Qed.

Lemma inv_open g s : inv Settled s → inv (Open g) s.
Proof using. intros []. constructor; try done. intros g' c Hr. destruct (iv_watched0 g' c Hr) as (st & E & H). eauto. Qed.
(** The guest [g] is settled again. *)
Lemma inv_settle g s : inv (Open g) s → (∀ c, required g c → ∃ st, watched records flash_wrp g c (log s) = Some st ∧ launched s g st) → inv Settled s.
Proof using.
  intros [] H. constructor; try done. intros g' c Hr. destruct (decide (g' = g)) as [->|Hne].
  - destruct (H c Hr) as (st & E & Hl). eauto.
  - destruct (iv_watched0 g' c Hr) as (st & E & Hl). exists st. split; [done|]. intros _. apply Hl. by intros [=].
Qed.

Lemma lookup_alter_cases (f : wt_guest_runtime → wt_guest_runtime) g g' (l : list wt_guest_runtime) r : alter f g l !! g' = Some r →
  (g' = g ∧ ∃ r0, l !! g = Some r0 ∧ r = f r0) ∨ (g' ≠ g ∧ l !! g' = Some r).
Proof using.
  destruct (decide (g' = g)) as [->|Hne].
  - rewrite list_lookup_alter_eq. destruct (l !! g) as [r0|]; [|done]. intros [= <-]. left. eauto.
  - rewrite list_lookup_alter_ne by done. auto.
Qed.
(** A change of a guest that makes it no more alive than it was. *)
Lemma inv_alter x f g s : inv x s →
  (∀ r, mo_runtime s !! g = Some r → (live (gr_state (f r)) = true → live (gr_state r) = true) ∧
     (gr_state (f r) ≠ WT_GUEST_FAULTED → gr_state r ≠ WT_GUEST_FAULTED)) →
  inv x (s <| mo_runtime := alter f g (mo_runtime s) |>).
Proof using.
  intros [] Hf. constructor; simpl; try done; [by rewrite length_alter| |].
  - intros g' c Hr. destruct (iv_watched0 g' c Hr) as (st & E & Hl). exists st. split; [done|]. intros Hx r Er.
    apply lookup_alter_cases in Er as [(-> & r0 & Er & ->)|[_ Er]]; [|by apply (Hl Hx)].
    destruct (Hf r0 Er) as [H1 H2]. destruct (Hl Hx r0 Er) as [H3 H4]. split; [auto|]. intros H. by apply H4, H2.
  - intros g' Hq. specialize (iv_held0 g' Hq). destruct (decide (g' = g)) as [->|Hne]; [|by rewrite list_lookup_alter_ne].
    rewrite list_lookup_alter_eq. destruct (mo_runtime s !! g) as [r0|] eqn:Er; [|done]. simpl in *. f_equal.
    destruct (decide (gr_state (f r0) = WT_GUEST_FAULTED)) as [|Hn]; [done|]. destruct (Hf r0 eq_refl) as [_ H]. by destruct (H Hn); injection iv_held0.
Qed.
(** Any change of a guest that is not held. *)
Lemma inv_alter_free x f g s : inv x s → excepted x g → ¬ Q g → inv x (s <| mo_runtime := alter f g (mo_runtime s) |>).
Proof using.
  intros [] Hxg Hq. constructor; simpl; try done; [by rewrite length_alter| |].
  - intros g' c Hr. destruct (iv_watched0 g' c Hr) as (st & E & Hl). exists st. split; [done|]. intros Hx r Er.
    apply lookup_alter_cases in Er as [(-> & _)|[_ Er]]; [done|]. by apply (Hl Hx).
  - intros g' Hq'. rewrite list_lookup_alter_ne; [auto|]. by intros ->.
Qed.
Lemma inv_faulted f g s : inv (Open g) s → (∀ r, gr_state (f r) = WT_GUEST_FAULTED) → inv Settled (s <| mo_runtime := alter f g (mo_runtime s) |>).
Proof using.
  intros Hi Hf. assert (inv (Open g) (s <| mo_runtime := alter f g (mo_runtime s) |>)) as Hi'.
  { apply inv_alter; [done|]. intros r _. rewrite Hf. done. }
  apply (inv_settle g); [done|]. intros c Hr. destruct (iv_watched _ _ Hi' g c Hr) as (st & E & _). exists st. split; [done|].
  intros r Er. apply lookup_alter_cases in Er as [(_ & r0 & _ & ->)|[Hne _]]; [|done]. by rewrite Hf.
Qed.

(** ** Operations of the port *)

Lemma ask_run x op s : inv x s → launching op = false →
  fwp (ask mport op) (λ r s', inv x s' ∧ calm s s' ∧ log s' = log s ++ [(op, r)] ∧ r = (port op (mo_world s).1).2) s.
Proof using All.
  intros Hi Hl. unfold fwp, ask, observed_port. destruct (mo_world s) as [w l] eqn:Ew.
  destruct (port op w) as [w' r] eqn:Ep. simpl. assert (log s = l) as El by by unfold log; rewrite Ew.
  split; [|split; [|split; [by unfold log; rewrite Ew|by rewrite Ep]]].
  - destruct Hi. constructor; simpl; try done.
    + intros g c Hr. destruct (iv_watched0 g c Hr) as (st & E & Hst). unfold log. simpl. rewrite watched_snoc.
      destruct (observe_other records flash_wrp g c st (op, r) Hl) as (st' & E' & H1 & _ & H3).
      unfold log in E. rewrite Ew in E. simpl in E. rewrite E. simpl. exists st'. split; [done|]. intros Hx r' Er.
      destruct (Hst Hx r' Er) as [Ha Hb]. split; [auto|]. rewrite H3. exact Hb.
    + destruct iv_log0 as (l' & E & Hq). unfold log in *. rewrite Ew in E. simpl in *. exists (l' ++ [(op, r)]). rewrite E, <-app_assoc.
      split; [done|]. apply Forall_app. split; [done|]. constructor; [|done]. intros g _ Eg. simpl in Eg. by rewrite Eg in Hl.
  - constructor; simpl; try done; intros g; unfold log; simpl; rewrite Ew; simpl; intros H c Hr; destruct (H c Hr) as (st & E & He);
      rewrite watched_snoc, E; simpl; destruct (observe_other records flash_wrp g c st (op, r) Hl) as (st' & E' & H1 & H2 & H3);
      exists st'; (split; [done|]).
    + destruct He as [Hm Ho]. split; [auto|]. rewrite H3. naive_solver.
    + by rewrite H3.
Qed.
Lemma perform_run x op s (E : exit → mon → Prop) (Q' : unit → mon → Prop) : inv x s → launching op = false →
  (∀ s', inv x s' → calm s s' → Q' tt s') → wp (perform mport op) E Q' s.
Proof using All.
  intros Hi Hl HQ. apply wp_bind, wp_call. eapply fwp_mono; [by apply ask_run|]. intros r s' (Hi' & Hc & _). apply wp_ret. auto.
Qed.
Lemma query_run x op s (E : exit → mon → Prop) (Q' : Z → mon → Prop) : inv x s → launching op = false →
  (∀ r s', inv x s' → calm s s' → log s' = log s ++ [(op, r)] → Q' r.1 s') → wp (query mport op) E Q' s.
Proof using All.
  intros Hi Hl HQ. apply wp_bind, wp_call. eapply fwp_mono; [by apply ask_run|]. intros [r d] s' (Hi' & Hc & El & _). apply wp_ret.
  by apply (HQ (r, d)).
Qed.
Lemma query_bool_run x op s (E : exit → mon → Prop) (Q' : bool → mon → Prop) : inv x s → launching op = false →
  (∀ b s', inv x s' → calm s s' → Q' b s') → wp (query_bool mport op) E Q' s.
Proof using All.
  intros Hi Hl HQ. apply wp_bind. eapply query_run; [done..|]. intros r s' Hi' Hc _. apply wp_ret. auto.
Qed.

(** ** The tables *)

Lemma config_run x g s (E : exit → mon → Prop) (Q' : option wt_guest_config → mon → Prop) : inv x s → Q' (cs !! g) s → wp (wt_guest_config_of g) E Q' s.
Proof using All.
  intros Hi HQ. apply wp_bind, wp_gets. rewrite (iv_count _ _ Hi). apply wp_if; intros Hg; bool_hyps.
  - apply wp_ret. by rewrite lookup_ge_None_2 in HQ.
  - apply wp_bind, wp_gets. rewrite (iv_configs _ _ Hi). destruct (lookup_lt_is_Some_2 cs g) as [c Ec]; [lia|].
    apply wp_bind. eapply wp_defined; [done|]. apply wp_ret. by rewrite Ec in HQ.
Qed.
Lemma runtime_run x g s (E : exit → mon → Prop) (Q' : option wt_guest_runtime → mon → Prop) : inv x s → Q' (mo_runtime s !! g) s → wp (wt_guest_runtime_of g) E Q' s.
Proof using All.
  intros Hi HQ. apply wp_bind, wp_gets. rewrite (iv_count _ _ Hi). pose proof (iv_runtime _ _ Hi) as Hl. apply wp_if; intros Hg; bool_hyps.
  - apply wp_ret. by rewrite lookup_ge_None_2 in HQ by lia.
  - apply wp_bind, wp_gets. destruct (lookup_lt_is_Some_2 (mo_runtime s) g) as [c Ec]; [lia|].
    apply wp_bind. eapply wp_defined; [done|]. apply wp_ret. by rewrite Ec in HQ.
Qed.
Lemma guest_lookup x g s : inv x s → (g < length cs)%nat → ∃ r, mo_runtime s !! g = Some r.
Proof using All. intros Hi Hg. apply lookup_lt_is_Some_2. by rewrite (iv_runtime _ _ Hi). Qed.
Lemma mod_run x f g s (E : exit → mon → Prop) (Q' : unit → mon → Prop) : inv x s → (g < length cs)%nat →
  Q' tt (s <| mo_runtime := alter f g (mo_runtime s) |>) → wp (mod_runtime g f) E Q' s.
Proof using All.
  intros Hi Hg HQ. apply wp_bind, wp_gets. destruct (guest_lookup _ _ _ Hi Hg) as [r Er]. apply wp_bind.
  eapply wp_defined; [done|]. by apply wp_modify.
Qed.
Lemma bit_run g s (E : exit → mon → Prop) (Q' : Z → mon → Prop) : (g < length cs)%nat → Q' (1 .<< Z.of_nat g) s → wp (guest_bit g) E Q' s.
Proof using All. intros Hg HQ. eapply wp_defined; [|done]. by rewrite (proj2 (Nat.ltb_lt _ _)) by lia. Qed.
Lemma quarantined_run x g s (E : exit → mon → Prop) (Q' : unit → mon → Prop) : inv x s → x = Settled ∨ x = Open g → (g < length cs)%nat →
  (∀ s', inv Settled s' → log s' = log s → mo_current_guest s' = mo_current_guest s →
     g_wt_first_dispatch_pending s' = g_wt_first_dispatch_pending s → Q' tt s') → wp (quarantined g) E Q' s.
Proof using All.
  intros Hi Hx Hg HQ. apply wp_bind. eapply mod_run; [done..|]. apply wp_modify. apply HQ; [|done..].
  eapply alike_inv; [|apply (inv_faulted (λ r, r <| gr_state := WT_GUEST_FAULTED |>) g s); [|done]]; [by constructor|].
  destruct Hx as [->| ->]; [by apply inv_open|done].
Qed.

(** ** Measuring *)

Lemma verify_image_run x g c window record s : inv x s → exec_window c = Some window → guest_record records g = Some record →
  fwp (wt_guest_verify_image (wc_Sha256Hash mport) (mr_base window) (mr_size window) (Some record) (gc_launch_min_version c))
    (λ ret s', inv x s' ∧ calm s s' ∧ (ret = WT_GUEST_VERIFY_OK → ∃ e, log s' = log s ++ [e] ∧ matches records g c e = true)) s.
Proof using All.
  intros Hi Hw Hr. apply fwp_fn. apply wp_if; intros _; [by apply wp_ret|]. apply wp_if; intros E1; [by apply wp_ret|].
  apply wp_if; intros E2; [by apply wp_ret|]. apply wp_bind, wp_call. eapply fwp_mono; [by apply (ask_run x (OpHash _ _))|].
  intros [rc digest] s' (Hi' & Hc & El & Ed). apply wp_if; intros E3; [by apply wp_ret|].
  assert (length (gm_digest record) = Z.to_nat WT_GUEST_MEAS_DIGEST_SIZE) as Hl.
  { unfold guest_record in Hr. destruct records as [l|] eqn:Erec; [|done]. simpl in Hr. destruct (list_find _ l) as [[i r]|] eqn:Ef; [|done].
    injection Hr as ->. apply list_find_Some in Ef as (Ei & _). by eapply (Forall_lookup_1 _ _ _ _ (record_digests l eq_refl)). }
  destruct (digest_equal_defined digest (gm_digest record)) as [same Es]; [|done|].
  { pose proof (hash_length (mr_base window) (gm_image_size record) (mo_world s).1) as Hh. by rewrite <-Ed in Hh. }
  apply wp_bind. eapply wp_defined; [done|]. apply wp_ret. split; [done|]. split; [done|]. destruct same; [|done]. intros _.
  eexists. split; [done|]. unfold matches. simpl. rewrite Hw, Hr, !Z.eqb_refl, Es. apply orb_false_iff in E1 as [_ E1].
  rewrite Z.leb_antisym, E1, Z.leb_antisym, E2. simpl. apply negb_false_iff in E3. by rewrite E3.
Qed.
Lemma measured_matches g c l e st : watched records flash_wrp g c l = Some st → matches records g c e = true →
  ∃ st', watched records flash_wrp g c (l ++ [e]) = Some st' ∧ wa_hashed st' = true ∧ (flash_wrp = false → wa_measured st' = true ∧ wa_recent st' = true).
Proof using All.
  intros E Hm. rewrite watched_snoc, E. simpl. unfold observe. rewrite Hm. eexists. split; [done|]. simpl. split; [done|].
  intros ->. simpl. by rewrite !orb_true_r.
Qed.
Lemma measure_run x g c s : inv x s → required g c → wp (measure_guest mport records flash_wrp g c) (λ _ _, False)
  (λ ret s', inv x s' ∧ calm s s' ∧ (ret = WT_GUEST_VERIFY_OK → may_enter g (log s'))) s.
Proof using All.
  intros Hi Hreq. unfold measure_guest. destruct (exec_window c) as [window|] eqn:Hw; [|by apply wp_ret].
  destruct (guest_record records g) as [record|] eqn:Hr; [|by apply wp_ret]. apply wp_bind, wp_call.
  eapply fwp_mono; [by eapply verify_image_run|]. intros ret s1 (Hi1 & Hc1 & He1). destruct (iv_watched _ _ Hi g c Hreq) as (st & Est & _).
  assert (∀ c', required g c' → c' = c) as Huniq by (intros c' [? _]; destruct Hreq as [? _]; congruence).
  destruct (Z.eqb_spec ret WT_GUEST_VERIFY_OK) as [->|Hne]; [|rewrite andb_false_r; by apply wp_ret].
  destruct (He1 eq_refl) as (e & El1 & Hm). destruct (measured_matches _ _ _ _ _ Est Hm) as (st1 & E1 & Hh1 & Hn). rewrite <-El1 in E1.
  rewrite andb_true_r. apply wp_if; intros Ef.
  - eapply query_run; [done..|]. intros r s2 Hi2 Hc2 El2. split; [done|]. split; [by etransitivity|]. intros Er c' Hc'. rewrite (Huniq c' Hc').
    rewrite El2, watched_snoc, E1. simpl. unfold observe, matches, protected. simpl. rewrite Hw, !Z.eqb_refl, Er. simpl.
    eexists. split; [done|]. rewrite Hh1. unfold enterable. simpl. rewrite !orb_true_r. auto.
  - apply wp_ret. split; [done|]. split; [done|]. intros _ c' Hc'. rewrite (Huniq c' Hc'). exists st1. split; [done|].
    destruct (Hn Ef). split; auto.
Qed.
Lemma record_run x g c s : inv x s → fwp (in_measurements (wt_guest_measurement_record (guest_record records g) (Some (gc_name c))))
  (λ _ s', alike s s') s.
Proof using All.
  intros Hi. assert (length (g_measurements (mo_measurements s)) = WT_GUEST_MEAS_MAX_RECORDS) as Hl by apply Hi.
  unfold fwp, in_measurements, wt_guest_measurement_record. destruct (guest_record records g) as [record|]; [|by constructor].
  destruct (Nat.leb_spec WT_GUEST_MEAS_MAX_RECORDS (g_measurement_count (mo_measurements s))); [by constructor|].
  destruct (lookup_lt_is_Some_2 (g_measurements (mo_measurements s)) (g_measurement_count (mo_measurements s))) as [e ->]; [lia|].
  simpl. constructor; simpl; try done. by rewrite length_insert.
Qed.
Lemma verify_run x g s : inv x s → (g < length cs)%nat → wp (wt_verify_guest_launch mport records flash_wrp g) (λ _ _, False)
  (λ ret s', inv x s' ∧ calm s s' ∧ (ret = WT_GUEST_VERIFY_OK → may_enter g (log s'))) s.
Proof using All.
  intros Hi Hg. apply wp_bind. eapply config_run; [done|]. destruct (lookup_lt_is_Some_2 cs g Hg) as [c Ec]. rewrite Ec.
  destruct (Z.eqb_spec (gc_launch_required c) 0) as [E0|E0].
  - apply wp_ret. split; [done|]. split; [done|]. intros _ c' [Ec' Hn]. congruence.
  - apply wp_bind. eapply wp_mono; [by apply (measure_run x g c)|done|]. cbv beta. intros ret s1 (Hi1 & Hc1 & He1).
    apply wp_bind, bit_run; [done|].
    assert (∀ s2, alike s1 s2 → inv x s2 ∧ calm s s2 ∧ (ret = WT_GUEST_VERIFY_OK → may_enter g (log s2))) as Hend.
    { intros s2 Ha. split; [by eapply alike_inv|]. split; [etransitivity; [done|by apply alike_calm]|].
      intros Er. by apply (cm_may_enter _ _ (alike_calm _ _ Ha)), He1. }
    apply wp_bind, wp_if; intros _.
    + apply wp_bind, wp_modify, wp_bind, wp_gets. set (s2 := set_field _ _ s1). assert (alike s1 s2) as Ha by by constructor.
      apply wp_when; intros _; [|by apply wp_ret, Hend]. apply wp_bind, wp_call.
      assert (inv x s2) as Hi2 by by eapply alike_inv.
      eapply fwp_mono; [by apply (record_run x)|]. intros r s3 Ha3. apply wp_ret, wp_ret, Hend.
      destruct Ha, Ha3. constructor; congruence.
    + by apply wp_modify, wp_ret, Hend.
Qed.

(** ** Restarts *)

(** The current guest is the same, and a guest that has run has run. *)
Record keeps s s' : Prop := {
  kp_current : mo_current_guest s' = mo_current_guest s;
  kp_entered g : has_entered g (log s) → has_entered g (log s');
}.
#[local] Instance keeps_refl : Reflexive keeps.
Proof. by constructor. Qed.
#[local] Instance keeps_trans : Transitive keeps.
Proof. intros s1 s2 s3 [] []. constructor; [congruence|auto]. Qed.
Lemma calm_keeps s s' : calm s s' → keeps s s'.
Proof using All. intros []. by constructor. Qed.
Lemma not_held g r s x : inv x s → mo_runtime s !! g = Some r → gr_state r ≠ WT_GUEST_FAULTED → ¬ Q g.
Proof using All. intros Hi Er Hn Hq. pose proof (iv_held _ _ Hi g Hq) as H. rewrite Er in H. simpl in H. congruence. Qed.
(** A guest that may be entered and is not quarantined comes to life. *)
Lemma inv_launch f g r s : inv Settled s → mo_runtime s !! g = Some r → gr_state r ≠ WT_GUEST_FAULTED → may_enter g (log s) →
  inv Settled (s <| mo_runtime := alter f g (mo_runtime s) |>).
Proof using All.
  intros Hi Er Hn Hm. apply (inv_settle g); [apply inv_alter_free; [by apply inv_open|done|by eapply not_held]|].
  intros c Hreq. destruct (iv_watched _ _ Hi g c Hreq) as (st & E & Hl). destruct (Hm c Hreq) as (st' & E' & He & _). assert (st' = st) as -> by congruence.
  exists st. split; [done|]. intros r' _. split; [done|]. intros _. by apply (Hl (settled _) r Er).
Qed.
Lemma reset_run g c r s : inv Settled s → (g < length cs)%nat → mo_runtime s !! g = Some r → gr_state r ≠ WT_GUEST_FAULTED → may_enter g (log s) →
  wp (wt_partition_reset_runtime mport g c) (λ _ _, False) (λ _ s', inv Settled s' ∧ keeps s s') s.
Proof using All.
  intros Hi Hg Er Hn Hm. apply wp_bind. eapply perform_run; [done..|]. intros s1 Hi1 Hc1. eapply mod_run; [done..|].
  split; [eapply inv_launch; [done|by rewrite (cm_runtime _ _ Hc1)|done|by apply (cm_may_enter _ _ Hc1)]|].
  destruct (calm_keeps _ _ Hc1). by constructor.
Qed.
Lemma backoff_guest_run i s : inv Settled s → (i < length cs)%nat →
  wp (backoff_guest mport records flash_wrp i) (λ _ _, False) (λ _ s', inv Settled s' ∧ keeps s s') s.
Proof using All.
  intros Hi Hg. apply wp_bind, wp_gets. destruct (guest_lookup _ _ _ Hi Hg) as [r Er]. apply wp_bind. eapply wp_defined; [done|].
  apply wp_bind. eapply (wp_mono _ (λ _ _, False) _ (λ _ s', inv Settled s' ∧ keeps s s')); [|done|].
  { apply wp_when; intros _; [|done]. eapply mod_run; [done..|]. split; [|by constructor]. by apply inv_alter. }
  intros _ s1 [Hi1 Hk1]. apply wp_bind, wp_gets. destruct (guest_lookup _ _ _ Hi1 Hg) as [r1 Er1]. apply wp_bind. eapply wp_defined; [done|].
  apply wp_when; intros Ew; [|done]. apply andb_true_iff in Ew as [_ Est%bool_decide_eq_true].
  apply wp_bind. eapply wp_mono; [by apply (verify_run Settled i s1)|done|]. cbv beta. intros ret s2 (Hi2 & Hc2 & Hm2).
  assert (keeps s s2) as Hk2 by (etransitivity; [done|by apply calm_keeps]). apply wp_if; intros Eret; bool_hyps.
  - apply wp_bind, wp_gets. rewrite (iv_configs _ _ Hi2). destruct (lookup_lt_is_Some_2 cs i Hg) as [c Ec]. apply wp_bind. eapply wp_defined; [done|].
    eapply wp_mono; [eapply (reset_run i c r1); [done|done|by rewrite (cm_runtime _ _ Hc2)|congruence|by apply Hm2]|done|].
    intros _ s3 [Hi3 Hk3]. split; [done|by etransitivity].
  - eapply quarantined_run; [done|by left|done|]. intros s3 Hi3 El Ec _. split; [done|]. etransitivity; [done|].
    constructor; [done|]. by rewrite El.
Qed.
Lemma backoff_run s : inv Settled s → wp (wt_tick_restart_backoff mport records flash_wrp) (λ _ _, False) (λ _ s', inv Settled s' ∧ keeps s s') s.
Proof using All.
  intros Hi. apply wp_bind, wp_gets. rewrite (iv_count _ _ Hi). apply (wp_for_inv _ _ (λ s', inv Settled s' ∧ keeps s s')); [done| |done].
  intros i s' Hin [Hi' Hk']. apply elem_of_seq in Hin. eapply wp_mono; [apply backoff_guest_run; [done|lia]|done|].
  intros _ s2 [Hi2 Hk2]. split; [done|by etransitivity].
Qed.

Lemma fail_run g s (E : exit → mon → Prop) (Q' : unit → mon → Prop) : inv (Open g) s →
  (∀ s', inv (Open g) s' → keeps s s' → mo_runtime s' = mo_runtime s → Q' tt s') →
  wp (perform mport (OpFailConnections (guest_client g))) E Q' s.
Proof using All.
  intros Hi HQ. unfold wp, perform, ask, observed_port, mbind, prog_bind, call. simpl. destruct (mo_world s) as [w l] eqn:Ew. destruct (port _ w) as [w' r].
  simpl. apply HQ; [| |done].
  - destruct Hi. constructor; simpl; try done.
    + intros g' c Hr. destruct (iv_watched0 g' c Hr) as (st & E' & Hst). unfold log in *. rewrite Ew in E'. simpl in *.
      destruct (observe_fail records flash_wrp g' c st r (guest_client g)) as (st' & E2 & He & Hs). rewrite watched_snoc, E'. simpl.
      exists st'. split; [done|]. intros Hx. rewrite Hs; [by apply Hst|]. unfold guest_client. assert (g ≠ g') by congruence. lia.
    + destruct iv_log0 as (l' & E' & Hq). unfold log in *. rewrite Ew in E'. simpl in *. eexists (l' ++ [_]). rewrite E', <-app_assoc.
      split; [done|]. apply Forall_app. split; [done|]. by constructor.
  - constructor; [done|]. intros g' H c Hr. destruct (H c Hr) as (st & E' & He). unfold log in *. rewrite Ew in E'. simpl in *.
    destruct (observe_fail records flash_wrp g' c st r (guest_client g)) as (st' & E2 & He' & _). exists st'.
    rewrite watched_snoc, E'. simpl. rewrite He'. done.
Qed.
Lemma restart_run g reason s : inv Settled s → (g < length cs)%nat → ¬ Q g → has_entered g (log s) →
  wp (wt_restart_guest mport g reason) (λ _ _, False) (λ _ s', inv Settled s' ∧ keeps s s') s.
Proof using All.
  intros Hi Hg Hq Hent. apply wp_bind. eapply config_run; [done|]. destruct (lookup_lt_is_Some_2 cs g Hg) as [c ->].
  apply wp_bind. eapply runtime_run; [done|]. destruct (guest_lookup _ _ _ Hi Hg) as [r Er]. rewrite Er.
  apply inv_open with (g := g) in Hi. clear r Er.
  apply wp_bind. eapply mod_run; [done..|]. set (s1 := set_field _ _ s). assert (inv (Open g) s1) as Hi1 by by apply inv_alter.
  assert (keeps s s1) as Hk1 by by constructor. apply wp_bind, fail_run; [done|]. intros s2 Hi2 Hk2 _.
  apply wp_bind. eapply (wp_mono _ (λ _ _, False) _ (λ _ s', inv (Open g) s' ∧ keeps s s')); [|done|].
  { destruct (wt_find_restart_clear_window c) as [w|].
    - eapply perform_run; [done..|]. intros s3 Hi3 Hc3. split; [done|]. etransitivity; [done|]. etransitivity; [done|by apply calm_keeps].
    - apply wp_ret. split; [done|]. by etransitivity. }
  intros _ s3 [Hi3 Hk3]. apply wp_bind, wp_gets, wp_bind, wp_gets. destruct (guest_lookup _ _ _ Hi3 Hg) as [r Er]. apply wp_bind.
  eapply wp_defined; [done|]. destruct (wt_restart_policy_evaluate _ _ _ _) as [decision st]. apply wp_bind. eapply mod_run; [done..|].
  set (s4 := set_field _ _ s3). assert (inv (Open g) s4) as Hi4 by by apply inv_alter.
  assert (keeps s s4) as Hk4 by (destruct Hk3; by constructor). apply wp_if; intros _.
  { eapply quarantined_run; [done|by right|done|]. intros s5 Hi5 El5 Ec5 _. split; [done|]. etransitivity; [done|].
    constructor; [done|]. by rewrite El5. }
  apply wp_bind. eapply mod_run; [done..|]. apply wp_bind, wp_modify. set (s5 := set_field mo_runtime _ s4). set (s6 := set_field _ _ s5).
  assert (inv (Open g) s5) as Hi5 by by apply inv_alter_free. assert (inv (Open g) s6) as Hi6 by by (eapply alike_inv; [|done]; by constructor).
  eapply mod_run; [done..|]. set (s7 := set_field mo_runtime _ s6). assert (inv (Open g) s7) as Hi7 by by apply inv_alter.
  split; [|destruct Hk4; by constructor]. apply (inv_settle g); [done|]. intros c' Hr.
  destruct (kp_entered _ _ Hk4 g Hent c' Hr) as (st' & Est & Hen). exists st'. split; [done|]. intros r' Er'. split; [|by right].
  apply lookup_alter_cases in Er' as [(_ & r5 & Er5 & ->)|[? _]]; [|done]. simpl in Er5.
  by apply lookup_alter_cases in Er5 as [(_ & r6 & _ & ->)|[? _]].
Qed.

(** ** Dispatch *)

Definition exit_ok (ex : exit) s : Prop := inv Settled s ∧
  match ex with Entered g => mo_current_guest s = g ∧ (g < length cs)%nat ∧ has_entered g (log s) ∧ ¬ Q g | _ => True end.

Lemma context_restore_run g s (E : exit → mon → Prop) (Q' : unit → mon → Prop) : inv (Open g) s → ¬ Q g → may_enter g (log s) →
  (∀ s', inv Settled s' → mo_current_guest s' = mo_current_guest s → has_entered g (log s') → Q' tt s') →
  wp (perform mport (OpContextRestore g)) E Q' s.
Proof using All.
  intros Hi Hq Hm HQ. unfold wp, perform, ask, observed_port, mbind, prog_bind, call. simpl. destruct (mo_world s) as [w l] eqn:Ew.
  destruct (port _ w) as [w' r]. simpl. assert (log s = l) as El by by unfold log; rewrite Ew. rewrite El in Hm.
  assert (∀ g' c st, required g' c → watched records flash_wrp g' c l = Some st → ∃ st', watched records flash_wrp g' c (l ++ [(OpContextRestore g, r)]) = Some st' ∧
    (wa_measured st = true → wa_measured st' = true) ∧ (wa_entered st = true ∨ g = g' → wa_entered st' = true)) as Ho.
  { intros g' c st Hr Est. destruct (observe_restore records flash_wrp g' c st r g) as (st' & E' & H1 & H2).
    - intros <-. destruct (Hm c Hr) as (st' & E' & He). assert (st' = st) as -> by congruence. done.
    - exists st'. rewrite watched_snoc, Est. done. }
  apply HQ; [|done|].
  - destruct Hi. constructor; simpl; try done.
    + intros g' c Hr. destruct (iv_watched0 g' c Hr) as (st & E' & Hst). rewrite El in E'.
      destruct (Ho g' c st Hr E') as (st' & E2 & H1 & H2). exists st'. split; [done|]. intros _ r' Er'. destruct (decide (g' = g)) as [->|Hne].
      * destruct (Hm c Hr) as (st2 & E3 & [Hm2 _]). assert (st2 = st) as -> by congruence. split; [auto|]. right. apply H2. by right.
      * destruct (Hst (λ H, Hne (eq_sym H)) r' Er') as [Ha Hb]. split; [auto|]. intros Hf. destruct (Hb Hf); [by left|]. right. apply H2. by left.
    + destruct iv_log0 as (l' & E' & Hqu). rewrite El in E'. unfold log. simpl. eexists (l' ++ [_]). rewrite E', <-app_assoc.
      split; [done|]. apply Forall_app. split; [done|]. constructor; [|done]. intros g' Hq' Eg. simpl in Eg. by injection Eg as <-.
  - intros c Hr. destruct (Hm c Hr) as (st & E' & _). destruct (Ho g c st Hr E') as (st' & E2 & _ & H2). exists st'. split; [done|]. apply H2. by right.
Qed.
Lemma enter_run g c s : inv (Open g) s → (g < length cs)%nat → ¬ Q g → may_enter g (log s) →
  wp (enter_guest mport g c) exit_ok (λ _ _, False) s.
Proof using All.
  intros Hi Hg Hq Hm. apply wp_bind. eapply perform_run; [done..|]. intros s1 Hi1 Hc1. apply wp_bind, wp_bind. eapply config_run; [done|].
  destruct (lookup_lt_is_Some_2 cs g Hg) as [c' ->]. apply wp_bind. eapply perform_run; [done..|]. intros s2 Hi2 Hc2.
  apply wp_bind. eapply perform_run; [done..|]. intros s3 Hi3 Hc3. eapply perform_run; [done..|]. intros s4 Hi4 Hc4.
  assert (may_enter g (log s4)) as Hm4 by (do 4 (eapply cm_may_enter; [done|]); done).
  apply wp_bind. eapply mod_run; [done..|]. apply wp_bind, wp_modify. set (s5 := set_field _ _ s4). set (s6 := set_field mo_current_rep _ _).
  assert (inv (Open g) s5) as Hi5 by by apply inv_alter_free.
  assert (inv (Open g) s6) as Hi6 by (destruct Hi5; by constructor). assert (may_enter g (log s6)) as Hm6 by done.
  apply wp_bind. eapply perform_run; [done..|]. intros s7 Hi7 Hc7. apply wp_bind, context_restore_run; [done|done|by apply (cm_may_enter _ _ Hc7)|].
  intros s8 Hi8 Ec8 He8. apply wp_early. split; [done|]. split; [|done]. by rewrite Ec8, (cm_current _ _ Hc7).
Qed.

Definition npending s : nat := length (filter (λ g, pending s g = true) (seq 0 (length cs))).
Lemma npending_clear g s s' : (g < length cs)%nat → pending s g = true →
  g_wt_first_dispatch_pending s' = g_wt_first_dispatch_pending s .&~ (1 .<< Z.of_nat g) → (npending s' < npending s)%nat.
Proof using All.
  intros Hg Hp E. assert (∀ k, pending s' k = pending s k && negb (g =? k)%nat) as Hk.
  { intros k. unfold pending. rewrite E, Z.ldiff_spec, Z.shiftl_1_l, Z.pow2_bits_eqb by lia. f_equal. f_equal.
    destruct (Nat.eqb_spec g k), (Z.eqb_spec (Z.of_nat g) (Z.of_nat k)); lia. }
  unfold npending. assert (g ∈ seq 0 (length cs)) as Hin by (apply elem_of_seq; lia).
  assert (∀ l, (length (filter (λ g, pending s' g = true) l) ≤ length (filter (λ g, pending s g = true) l))%nat) as Hle.
  { induction l as [|k l IH]; [done|]. rewrite !filter_cons. rewrite Hk. destruct (pending s k); simpl; [|done]. repeat case_decide; simpl; lia. }
  apply list_elem_of_split in Hin as (l1 & l2 & ->). rewrite !filter_app, !length_app, !filter_cons.
  pose proof (Hle l1). pose proof (Hle l2). rewrite (Hk g), Hp, Nat.eqb_refl. simpl. repeat case_decide; simpl; try done; lia.
Qed.
Lemma guest_dispatch_run next g r s : inv Settled s → (g < length cs)%nat → mo_runtime s !! g = Some r → runnable r = true →
  (∀ s', inv Settled s' → (npending s' < npending s)%nat → wp next exit_ok (λ _ _, False) s') →
  wp (wt_dispatch_guest mport records flash_wrp next g) exit_ok (λ _ _, False) s.
Proof using All.
  intros Hi Hg Er Hrun Hnext. apply wp_bind. eapply config_run; [done|]. destruct (lookup_lt_is_Some_2 cs g Hg) as [c ->].
  apply wp_bind. eapply runtime_run; [done|]. rewrite Er. apply wp_bind, bit_run; [done|]. apply wp_bind, wp_gets.
  unfold runnable in Hrun. assert (live (gr_state r) = true ∧ gr_state r ≠ WT_GUEST_FAULTED) as [Hlive Hnf].
  { apply andb_true_iff in Hrun as [_ H]. by destruct (gr_state r). }
  assert (¬ Q g) as Hq by by eapply not_held. rewrite has_any_bit by lia. fold (pending s g). apply wp_bind, wp_if; intros Hp.
  - apply wp_bind, wp_modify. set (s1 := set_field _ _ s). assert (inv (Open g) s1) as Hi1.
    { destruct Hi. constructor; simpl; try done. intros g' c' Hr. destruct (iv_watched0 g' c' Hr) as (st & E & Hl). exists st. split; [done|].
      intros Hx r' Er'. destruct (Hl (settled _) r' Er') as [Ha Hb]. split; [done|]. intros Hf. destruct (Hb Hf) as [Hpe|]; [left|by right].
      unfold pending in *. simpl. rewrite Z.ldiff_spec, Hpe, Z.shiftl_1_l, Z.pow2_bits_false; [done|]. intros ?. by apply Hx; f_equal; lia. }
    apply wp_bind. eapply wp_mono; [by apply (verify_run (Open g) g s1)|done|]. cbv beta. intros ret s2 (Hi2 & Hc2 & Hm2).
    apply wp_when; intros Eret; bool_hyps.
    + apply wp_bind. eapply quarantined_run; [done|by right|done|]. intros s3 Hi3 _ _ Ep3. eapply wp_mono; [apply Hnext|done|done]; [done|].
      eapply (npending_clear g); [done|done|]. by rewrite Ep3, (cm_pending _ _ Hc2).
    + apply enter_run; [done|done|done|]. by apply Hm2.
  - apply wp_ret, enter_run; [by apply inv_open|done|done|]. intros c' Hr. destruct (iv_watched _ _ Hi g c' Hr) as (st & E & Hl).
    exists st. split; [done|]. destruct (Hl (settled _) r Er) as [Ha Hb]. split; [auto|]. left. destruct (Hb Hnf); congruence.
Qed.

(** ** The scheduler *)

Lemma next_runnable_run start s (Q' : nat → mon → Prop) : inv Settled s →
  (∀ k, ((k < length cs)%nat → ∃ r, mo_runtime s !! k = Some r ∧ runnable r = true) → Q' k s) →
  wp (wt_find_next_runnable start) exit_ok Q' s.
Proof using All.
  intros Hi HQ. apply wp_bind, wp_gets. rewrite (iv_count _ _ Hi). generalize 0%nat. generalize (length cs) at 1. intros n.
  induction n as [|n IH]; intros attempts; simpl; [apply wp_ret, HQ; lia|]. apply wp_bind. eapply runtime_run; [done|].
  destruct (mo_runtime s !! _) as [r|] eqn:Er; [|apply IH]. apply wp_if; intros Hr; [|apply IH]. apply wp_ret, HQ. eauto.
Qed.
Lemma schedule_run fuel s : inv Settled s → (npending s < fuel)%nat → wp (wt_schedule_next_guest mport records flash_wrp fuel) exit_ok (λ _ _, False) s.
Proof using All.
  revert s. induction fuel as [|fuel IH]; intros s Hi Hf; [lia|]. simpl. apply wp_bind, wp_gets. rewrite (iv_count _ _ Hi).
  apply wp_bind, wp_when; intros _; [by apply wp_early|]. apply wp_bind, wp_gets, wp_bind, next_runnable_run; [done|]. intros k Hk.
  apply wp_if; intros Hck; bool_hyps.
  - apply wp_bind, wp_gets, wp_bind, wp_when; intros _; [by apply wp_early|]. apply wp_bind. eapply query_bool_run; [done..|].
    intros b s1 Hi1 Hc1. apply wp_bind, wp_when; intros _; [by apply wp_early|]. apply wp_bind. eapply perform_run; [done..|].
    intros s2 Hi2 Hc2. by apply wp_early.
  - apply wp_bind, wp_gets. rewrite (iv_configs _ _ Hi). assert (k < length cs)%nat as Hlt by lia.
    destruct (lookup_lt_is_Some_2 cs k Hlt) as [c Ec]. apply wp_bind. eapply wp_defined; [done|]. apply wp_bind.
    eapply perform_run; [done..|]. intros s1 Hi1 Hc1. destruct (Hk Hlt) as (r & Er & Hr).
    eapply guest_dispatch_run; [done|done|by rewrite (cm_runtime _ _ Hc1)|done|]. intros s2 Hi2 Hn2. apply IH; [done|].
    assert (npending s1 = npending s) as En by (unfold npending, pending; by rewrite (cm_pending _ _ Hc1)). lia.
Qed.
Lemma npending_bound s : (npending s ≤ 32)%nat.
Proof using All. unfold npending. etransitivity; [apply length_filter|]. by rewrite length_seq. Qed.
Lemma schedule_ok s : inv Settled s → wp (schedule mport records flash_wrp) exit_ok (λ _ _, False) s.
Proof using All. intros Hi. apply schedule_run; [done|]. pose proof (npending_bound s). lia. Qed.

Lemma save_run s : inv Settled s → wp (wt_save_running_guest mport) exit_ok (λ _ s', inv Settled s' ∧ keeps s s') s.
Proof using All.
  intros Hi. apply wp_bind, wp_gets, wp_if; intros _; [by apply wp_ret|]. apply wp_bind, wp_gets, wp_if; intros _; [by apply wp_ret|].
  apply wp_bind, wp_gets, wp_bind. eapply runtime_run; [done|]. destruct (mo_runtime s !! mo_current_guest s) as [r|] eqn:Er; [|by apply wp_ret].
  apply wp_if; intros Est; [|by apply wp_ret]. apply wp_bind. eapply perform_run; [done..|]. intros s1 Hi1 Hc1.
  assert (mo_current_guest s < length cs)%nat as Hg by (rewrite <-(iv_runtime _ _ Hi); by eapply lookup_lt_Some).
  eapply mod_run; [done..|]. split; [|destruct (calm_keeps _ _ Hc1); by constructor]. apply inv_alter; [done|].
  intros r' Er'. rewrite (cm_runtime _ _ Hc1), Er in Er'. injection Er' as <-. simpl.
  apply orb_true_iff in Est as [->%bool_decide_eq_true| ->%bool_decide_eq_true]; simpl; done.
Qed.
Lemma start_run s : inv Settled s → wp (wt_monitor_start mport records flash_wrp) exit_ok (λ _ _, False) s.
Proof using All.
  intros Hi. apply wp_bind. eapply perform_run; [done..|]. intros s1 Hi1 Hc1. apply wp_bind, next_runnable_run; [done|]. intros k Hk.
  apply wp_bind, wp_gets. rewrite (iv_count _ _ Hi1). apply wp_bind, wp_when; intros Hck; bool_hyps; [by apply wp_early|].
  destruct (Hk ltac:(lia)) as (r & Er & Hr). eapply guest_dispatch_run; [done|lia|done|done|]. intros s2 Hi2 _. by apply schedule_ok.
Qed.
Lemma timer_run s : inv Settled s → wp (wt_monitor_on_secure_timer mport records flash_wrp) exit_ok (λ _ s', inv Settled s' ∧ keeps s s') s.
Proof using All.
  intros Hi. apply wp_bind, wp_modify. set (s1 := set_field _ _ s). assert (alike s s1) as Ha by by constructor.
  assert (inv Settled s1) as Hi1 by by eapply alike_inv. pose proof (calm_keeps _ _ (alike_calm _ _ Ha)) as Hk1.
  apply wp_bind. eapply perform_run; [done..|]. intros s2 Hi2 Hc2. apply wp_bind. eapply query_bool_run; [done..|]. intros b s3 Hi3 Hc3.
  assert (keeps s s3) as Hk3 by (etransitivity; [done|]; etransitivity; by apply calm_keeps). apply wp_if; intros _.
  - eapply wp_mono; [by apply backoff_run|done|]. intros _ s4 [Hi4 Hk4]. split; [done|by etransitivity].
  - apply wp_bind. eapply wp_mono; [by apply save_run|done|]. intros _ s4 [Hi4 Hk4]. apply wp_bind.
    eapply wp_mono; [by apply backoff_run|done|]. intros _ s5 [Hi5 Hk5]. eapply wp_mono; [by apply schedule_ok|done|done].
Qed.
Lemma fault_run reason s : inv Settled s → (mo_current_guest s < length cs)%nat → ¬ Q (mo_current_guest s) → has_entered (mo_current_guest s) (log s) →
  wp (wt_monitor_on_guest_fault mport records flash_wrp reason) exit_ok (λ _ _, False) s.
Proof using All.
  intros Hi Hg Hq He. apply wp_bind, wp_gets, wp_bind. eapply runtime_run; [done|]. destruct (guest_lookup _ _ _ Hi Hg) as [r ->].
  apply wp_bind. eapply perform_run; [done..|]. intros s1 Hi1 Hc1. apply wp_bind. eapply perform_run; [done..|]. intros s2 Hi2 Hc2.
  apply wp_bind. eapply perform_run; [done..|]. intros s3 Hi3 Hc3. apply wp_bind.
  eapply wp_mono; [apply (restart_run (mo_current_guest s) reason s3); [done..|]|done|].
  - do 3 (eapply cm_entered; [done|]). done.
  - intros _ s4 [Hi4 _]. by apply schedule_ok.
Qed.
Lemma quarantine_run g s : inv Settled s → wp (wt_monitor_quarantine_guest mport g) exit_ok (λ _ s', inv Settled s' ∧ keeps s s') s.
Proof using All.
  intros Hi. apply wp_bind. eapply runtime_run; [done|]. destruct (mo_runtime s !! g) as [r|] eqn:Er; [|by apply wp_ret].
  assert (g < length cs)%nat as Hg by (rewrite <-(iv_runtime _ _ Hi); by eapply lookup_lt_Some).
  apply wp_bind, fail_run; [by apply inv_open|]. intros s1 Hi1 Hk1 _. apply wp_bind. eapply quarantined_run; [done|by right|done|].
  intros s2 Hi2 El Ec _. apply wp_bind, bit_run; [done|]. apply wp_modify. set (s3 := set_field _ _ s2).
  assert (alike s2 s3) as Ha by by constructor. split; [by eapply alike_inv|]. etransitivity; [done|].
  etransitivity; [|by apply calm_keeps, alike_calm]. constructor; [done|]. by rewrite El.
Qed.
Lemma decide_run x g c s : inv x s → fwp (wt_runtime_verify_decide (wc_Sha256Hash mport) (default 0 (mr_base <$> exec_window c))
    (default 0 (mr_size <$> exec_window c)) (guest_record records g) (gc_launch_min_version c) (gc_launch_required c))
  (λ _ s', inv x s' ∧ calm s s') s.
Proof using All.
  intros Hi. apply fwp_fn. apply wp_if; intros _; [by apply wp_ret|]. apply wp_if; intros E; [by apply wp_ret|]. apply wp_call.
  rewrite !orb_false_iff in E. destruct E as [[E1 E2] _]. destruct (exec_window c) as [w|] eqn:Ew; [|done].
  destruct (guest_record records g) as [r|] eqn:Er; [|done]. eapply fwp_mono; [by eapply (verify_image_run x g c)|]. naive_solver.
Qed.
Lemma runtime_verify_run g s : inv Settled s → wp (wt_runtime_verify_guest mport records g) exit_ok (λ _ s', inv Settled s' ∧ keeps s s') s.
Proof using All.
  intros Hi. apply wp_bind. eapply config_run; [done|]. destruct (cs !! g) as [c|]; [|by apply wp_ret].
  apply wp_bind, wp_call. eapply fwp_mono; [by apply (decide_run Settled g c s)|]. cbv beta. intros ret s1 [Hi1 Hc1].
  assert (∀ s2, alike s1 s2 → inv Settled s2 ∧ keeps s s2) as Hend.
  { intros s2 Ha. split; [by eapply alike_inv|]. etransitivity; [by apply calm_keeps|by apply calm_keeps, alike_calm]. }
  apply wp_bind, wp_if; intros _.
  - apply wp_bind, wp_modify. set (s2 := set_field _ _ s1). destruct (Hend s2) as [Hi2 Hk2]; [by constructor|].
    eapply wp_mono; [by apply quarantine_run|done|]. intros _ s3 [Hi3 Hk3]. apply wp_ret. split; [done|by etransitivity].
  - apply wp_modify, wp_ret, Hend. by constructor.
Qed.

(** ** Start-up *)

Definition initialised g s : Prop := ∀ r, mo_runtime s !! g = Some r → live (gr_state r) = true → may_enter g (log s).
Lemma calm_initialised g s s' : calm s s' → initialised g s → initialised g s'.
Proof using All. intros Hc H r Er Hl. apply (cm_may_enter _ _ Hc). rewrite (cm_runtime _ _ Hc) in Er. by eapply H. Qed.
Lemma alter_initialised f g g' s : initialised g s → g ≠ g' → initialised g (s <| mo_runtime := alter f g' (mo_runtime s) |>).
Proof using All. intros H Hne r Er. simpl in Er. rewrite list_lookup_alter_ne in Er by done. by apply H. Qed.

Lemma init_guest_run i s : (∀ g, ¬ Q g) → inv Booting s → (i < length cs)%nat → (∀ g, (g < i)%nat → initialised g s) →
  wp (init_guest mport records flash_wrp i) (λ ex _, ex = Panicked) (λ _ s', inv Booting s' ∧ ∀ g, (g < S i)%nat → initialised g s') s.
Proof using All.
  intros Hq Hi Hg Hd. assert (∀ f s, inv Booting s → inv Booting (s <| mo_runtime := alter f i (mo_runtime s) |>)) as Hf.
  { intros f s' H. by apply inv_alter_free. }
  assert (∀ f s, (∀ g, (g < i)%nat → initialised g s) → ∀ g, (g < i)%nat → initialised g (s <| mo_runtime := alter f i (mo_runtime s) |>)) as Hdf.
  { intros f s' H g Hlt. apply alter_initialised; [by apply H|lia]. }
  apply wp_bind. eapply mod_run; [done..|]. set (s1 := set_field _ _ s). assert (inv Booting s1) as Hi1 by by apply Hf.
  assert (∀ g, (g < i)%nat → initialised g s1) as Hd1 by by apply Hdf.
  apply wp_bind, wp_gets. rewrite (iv_configs _ _ Hi1). destruct (lookup_lt_is_Some_2 cs i Hg) as [c Ec]. apply wp_bind. eapply wp_defined; [done|].
  apply wp_bind, wp_bind. eapply perform_run; [done..|]. intros s2 Hi2 Hc2. eapply mod_run; [done..|]. set (s3 := set_field _ _ s2).
  assert (inv Booting s3) as Hi3 by by apply Hf.
  assert (∀ g, (g < i)%nat → initialised g s3) as Hd3 by (apply Hdf; intros g Hlt; by eapply calm_initialised; [|apply Hd1]).
  apply wp_bind. eapply query_bool_run; [done..|]. intros ready s4 Hi4 Hc4. apply wp_bind, wp_when; intros _; [done|].
  apply wp_bind. eapply wp_mono; [by apply (verify_run Booting i s4)|done|]. cbv beta. intros ret s5 (Hi5 & Hc5 & Hm5).
  assert (∀ g, (g < i)%nat → initialised g s5) as Hd5.
  { intros g Hlt. eapply calm_initialised; [done|]. eapply calm_initialised; [done|]. by apply Hd3. }
  apply wp_when; intros Er; bool_hyps.
  - apply wp_bind. eapply mod_run; [done..|]. apply wp_modify. set (s6 := set_field mo_runtime _ s5). set (s7 := set_field _ _ s6).
    assert (alike s6 s7) as Ha by by constructor. split; [eapply alike_inv; [done|]; by apply Hf|]. intros g Hlt.
    eapply calm_initialised; [by apply alike_calm|]. destruct (decide (g = i)) as [->|Hne]; [|apply Hdf; [done|lia]].
    intros r Er' Hl. simpl in Er'. apply lookup_alter_cases in Er' as [(_ & r0 & _ & ->)|[? _]]; done.
  - split; [done|]. intros g Hlt. destruct (decide (g = i)) as [->|Hne]; [|apply Hd5; lia]. intros r _ _. by apply Hm5.
Qed.
Lemma all_pending g : (g < length cs)%nat →
  Z.testbit (if (32 <=? length cs)%nat then 0xFFFFFFFF else (1 .<< Z.of_nat (length cs)) - 1) (Z.of_nat g) = true.
Proof using All.
  intros Hg. assert (∀ n, Z.of_nat g < n → Z.testbit (2 ^ n - 1) (Z.of_nat g) = true) as H.
  { intros n Hn. rewrite Z.sub_1_r, <-Z.ones_equiv. apply Z.ones_spec_low. lia. }
  destruct (Nat.leb_spec 32 (length cs)); [apply (H 32); lia|]. rewrite Z.shiftl_1_l. apply H. lia.
Qed.
(** Before the tables are set up. *)
Record early_boot s : Prop := {
  eb_runtime : length (mo_runtime s) = length cs;
  eb_measurements : length (g_measurements (mo_measurements s)) = WT_GUEST_MEAS_MAX_RECORDS;
  eb_watched g c : required g c → is_Some (watched records flash_wrp g c (log s));
  eb_log : ∃ l, log s = log0 ++ l ∧ quiet l;
}.
Lemma boot_ask op s (Q' : Z * list Z → mon → Prop) : early_boot s → launching op = false →
  (∀ r s', early_boot s' → mo_configs s' = mo_configs s → Q' r s') → fwp (ask mport op) Q' s.
Proof using All.
  intros [H1 H2 H3 (l & H4 & H5)] Hl HQ. unfold fwp, ask, observed_port. destruct (mo_world s) as [w lg] eqn:Ew.
  destruct (port op w) as [w' r]. apply HQ; [|done]. unfold log in *. rewrite Ew in *. simpl in *. constructor; try done.
  - intros g c Hreq. destruct (H3 g c Hreq) as [st Est]. unfold log. simpl. rewrite watched_snoc, Est. simpl.
    destruct (observe_other records flash_wrp g c st (op, r) Hl) as (st' & -> & _). by eexists.
  - unfold log. simpl. exists (l ++ [(op, r)]). rewrite H4, <-app_assoc. split; [done|]. apply Forall_app. split; [done|].
    constructor; [|done]. intros g Hg Eg. simpl in Eg. by rewrite Eg in Hl.
Qed.
Lemma boot_query op s (E : exit → mon → Prop) (Q' : Z → mon → Prop) : early_boot s → launching op = false →
  (∀ r s', early_boot s' → mo_configs s' = mo_configs s → Q' r s') → wp (query mport op) E Q' s.
Proof using All. intros Hb Hl HQ. apply wp_bind, wp_call. eapply boot_ask; [done..|]. intros [r d] s' Hb' Ec. by apply wp_ret, HQ. Qed.
(** All guests are set up. *)
Lemma booted_inv s : inv Booting s → (∀ g, (g < length cs)%nat → initialised g s) →
  inv Settled (s <| g_wt_first_dispatch_pending := if (32 <=? length cs)%nat then 0xFFFFFFFF else (1 .<< Z.of_nat (length cs)) - 1 |>).
Proof using All.
  intros [] Hd. constructor; simpl; try done. intros g c Hreq. assert (g < length cs)%nat as Hg by (destruct Hreq as [H _]; by eapply lookup_lt_Some).
  destruct (iv_watched0 g c Hreq) as (st & Est & _). exists st. split; [done|]. intros _ r Er. split.
  - intros Hl. destruct (Hd g Hg r Er Hl c Hreq) as (st' & Est' & Hm & _). assert (st' = st) as -> by congruence. done.
  - intros _. left. by apply all_pending.
Qed.
Lemma init_run profile s : (∀ g, ¬ Q g) → early_boot s →
  wp (wt_monitor_init mport records flash_wrp cs profile) (λ ex _, ex = Panicked) (λ _ s', inv Settled s') s.
Proof using All.
  intros Hq HB. apply wp_bind, wp_bind, wp_call. eapply boot_ask; [done..|]. intros _ s1 HB1 _. apply wp_ret, wp_bind.
  eapply boot_query; [done..|]. intros r2 s2 HB2 _. apply wp_bind, wp_when; intros _; [done|].
  apply wp_bind. eapply boot_query; [done..|]. intros r3 s3 HB3 _. apply wp_bind, wp_when; intros _; [done|].
  apply wp_bind, wp_modify, wp_bind. apply (wp_for_inv _ _ (λ s', early_boot s' ∧ mo_configs s' = cs)).
  { split; [|done]. by destruct HB3. }
  { intros c s' _ H. by apply wp_when; intros _. }
  intros s4 [HB4 Ec4]. apply wp_bind. eapply boot_query; [done..|]. intros r5 s5 HB5 Ec5. apply wp_bind, wp_when; intros _; [done|].
  apply wp_bind, wp_modify. set (s6 := set_field mo_monotonic_ticks _ _). assert (inv Booting s6) as Hi6.
  { destruct HB5. constructor; simpl; try done.
    - by rewrite Ec5.
    - intros g c Hreq. destruct (eb_watched0 g c Hreq) as [st Est]. exists st. split; [done|]. by intros [].
    - intros g Hg. by destruct (Hq g). }
  clearbody s6. apply wp_bind. apply (wp_for_each _ _ (λ done s', inv Booting s' ∧ ∀ g, (g < length done)%nat → initialised g s')).
  - split; [done|]. simpl. lia.
  - intros l1 i l2 s' El' [Hi' Hd']. assert (i = length l1 ∧ (i < length cs)%nat) as [-> Hlt].
    { assert (seq 0 (length cs) !! length l1 = Some i) as Hs by by rewrite El', list_lookup_middle. apply lookup_seq in Hs. lia. }
    eapply wp_mono; [by apply init_guest_run|done|]. cbv beta. intros _ s'' [Hi'' Hd'']. split; [done|]. intros g Hgl. apply Hd''.
    rewrite length_app in Hgl. simpl in Hgl. lia.
  - intros s7 [Hi7 Hd7]. rewrite length_seq in Hd7. by apply wp_modify, booted_inv.
Qed.
End invariant.

(** ** The machine *)

(** Who runs: nobody yet, a guest, the monitor waiting for a guest to be ready, or
    nobody any more. *)
Inductive control := NotStarted | InGuest (g : nat) | InMonitor | Halted.
(** What can happen: the start, a secure timer interrupt, a fault of the running
    guest, the return to the scheduling loop, a request of the boot code or of
    another service, and any change of the rest of the system. *)
Inductive stimulus (W : Type) :=
| Start | Timer | Fault (reason : wt_fault_reason) | Resume | Quarantine (g : nat) | Reverify (g : nat) | Elapse (w : W).
Arguments Start {W}. Arguments Timer {W}. Arguments Fault {W} _. Arguments Resume {W}. Arguments Quarantine {W} _.
Arguments Reverify {W} _. Arguments Elapse {W} _.

Definition of_exit (ex : exit) : control :=
  match ex with Entered g => InGuest g | Idled | Waiting => InMonitor | AllFaulted | Panicked => Halted end.

Section machine.
Context {W : Type} (port : port_fn W) (records : option (list wt_guest_measurement)) (flash_wrp : bool).
Abbreviation mon := (monitor (W * list event)).
Abbreviation mport := (observed_port port).

Definition after {A} (ctl : control) (m : prog mon exit A) (s : mon) : option (control * mon) :=
  match m s with
  | None => None
  | Some (s', inl ex) => Some (of_exit ex, s')
  | Some (s', inr _) => Some (ctl, s')
  end.
(** A stimulus that cannot happen where the machine is has no effect. *)
Definition stimulate (cs : control * mon) (ev : stimulus W) : option (control * mon) :=
  let '(ctl, s) := cs in
  match ctl, ev with
  | Halted, _ => Some cs
  | NotStarted, Start => after ctl (wt_monitor_start mport records flash_wrp) s
  | _, Timer => after ctl (wt_monitor_on_secure_timer mport records flash_wrp) s
  | InGuest _, Fault reason => after ctl (wt_monitor_on_guest_fault mport records flash_wrp reason) s
  | InMonitor, Resume => after ctl (schedule mport records flash_wrp) s
  | _, Quarantine g => after ctl (wt_monitor_quarantine_guest mport g) s
  | _, Reverify g => after ctl (wt_runtime_verify_guest mport records g) s
  | _, Elapse w => Some (ctl, s <| mo_world := (w, log s) |>)
  | _, _ => Some cs
  end.
Fixpoint run (cs : control * mon) (evs : list (stimulus W)) : option (control * mon) :=
  match evs with [] => Some cs | ev :: evs' => cs' ← stimulate cs ev; run cs' evs' end.

Context `{!HashOk port} (configs : list wt_guest_config).
Hypothesis few_guests : (length configs ≤ 32)%nat.
Hypothesis record_digests : ∀ l, records = Some l → Forall (λ r, length (gm_digest r) = Z.to_nat WT_GUEST_MEAS_DIGEST_SIZE) l.
Abbreviation Inv := (inv records flash_wrp configs).

Definition machine_ok (Q : nat → Prop) (log0 : list event) (cs : control * mon) : Prop :=
  Inv Q log0 Settled cs.2 ∧
  match cs.1 with
  | InGuest g => mo_current_guest cs.2 = g ∧ (g < length configs)%nat ∧ has_entered records flash_wrp configs g (log cs.2) ∧ ¬ Q g
  | _ => True
  end.
Lemma after_run {A} Q log0 ctl (m : prog mon exit A) s : machine_ok Q log0 (ctl, s) →
  wp m (exit_ok records flash_wrp configs Q log0) (λ _ s', Inv Q log0 Settled s' ∧ keeps records flash_wrp configs s s') s →
  ∃ cs', after ctl m s = Some cs' ∧ machine_ok Q log0 cs'.
Proof using.
  intros [_ Hm] Hwp. unfold after. unfold wp in Hwp. destruct (m s) as [[s' [ex|a]]|]; [| |done]; eexists; (split; [done|]).
  - destruct Hwp as [Hi He]. split; [done|]. simpl. by destruct ex.
  - destruct Hwp as [Hi [Ec Hk]]. split; [done|]. simpl in *. destruct ctl; try done. destruct Hm as (H1 & H2 & H3 & H4).
    split; [congruence|]. split; [done|]. split; [by apply Hk|done].
Qed.
Lemma stimulate_run Q log0 cs ev : machine_ok Q log0 cs → ∃ cs', stimulate cs ev = Some cs' ∧ machine_ok Q log0 cs'.
Proof using All.
  destruct cs as [ctl s]. intros Hm. pose proof Hm as [Hi Hg]. simpl in Hi, Hg.
  assert (∀ w, ∃ cs', Some (ctl, s <| mo_world := (w, log s) |>) = Some cs' ∧ machine_ok Q log0 cs') as Hw.
  { intros w. eexists. split; [done|]. split; [|done]. destruct Hi. by constructor. }
  assert (∃ cs', after ctl (wt_monitor_on_secure_timer mport records flash_wrp) s = Some cs' ∧ machine_ok Q log0 cs') as Ht.
  { apply after_run; [done|]. by apply timer_run. }
  assert (∀ g, ∃ cs', after ctl (wt_monitor_quarantine_guest mport g) s = Some cs' ∧ machine_ok Q log0 cs') as Hq.
  { intros g. apply after_run; [done|]. by apply quarantine_run. }
  assert (∀ g, ∃ cs', after ctl (wt_runtime_verify_guest mport records g) s = Some cs' ∧ machine_ok Q log0 cs') as Hv.
  { intros g. apply after_run; [done|]. by apply runtime_verify_run. }
  destruct ctl as [|g| |], ev; simpl; eauto; apply after_run; try done.
  - eapply wp_mono; [by apply start_run|done|done].
  - destruct Hg as (E & Hlt & He & Hn). subst g. eapply wp_mono; [by apply fault_run|done|done].
  - eapply wp_mono; [by apply schedule_ok|done|done].
Qed.
Lemma machine_run_ok Q log0 cs evs : machine_ok Q log0 cs → ∃ cs', run cs evs = Some cs' ∧ machine_ok Q log0 cs'.
Proof using All.
  revert cs. induction evs as [|ev evs IH]; intros cs Hm; simpl; [eauto|].
  destruct (stimulate_run Q log0 cs ev Hm) as (cs' & -> & Hm'). simpl. by apply IH.
Qed.

(** The state before [wt_monitor_init]. *)
Definition unbooted (s : mon) : Prop :=
  log s = [] ∧ length (mo_runtime s) = length configs ∧ length (g_measurements (mo_measurements s)) = WT_GUEST_MEAS_MAX_RECORDS.
Lemma boot_ok profile s : unbooted s → wp (wt_monitor_init mport records flash_wrp configs profile) (λ ex _, ex = Panicked)
  (λ _ s', machine_ok (λ _, False) [] (NotStarted, s')) s.
Proof using All.
  intros (El & Hr & Hm). eapply wp_mono; [apply (init_run port records flash_wrp configs few_guests record_digests (λ _, False) [])|done|].
  - by intros g [].
  - constructor; [done|done| |].
    + intros g c _. rewrite El. by eexists.
    + exists []. rewrite El. by split; [|constructor].
  - intros a s' Hi. by split.
Qed.

(** C6: guests are measured before they run. Start-up is defined and panics or
    completes; after it, whatever happens in whatever order, and however the rest
    of the system, with the guests' images, changes in between, the monitor is
    defined, and for every guest with a launch policy the operations of the
    monitor follow [observe]: the guest is entered only after its image, at its
    executable window, was hashed to its pinned digest at an allowed version (and
    found write-protected, in a build that asks for it) since its last fault; and
    before its first entry no other guest has run since that measurement. *)
Theorem monitor_measures profile s evs : unbooted s →
  match wt_monitor_init mport records flash_wrp configs profile s with
  | None => False
  | Some (_, inl ex) => ex = Panicked
  | Some (s1, inr _) => ∃ ctl s2, run (NotStarted, s1) evs = Some (ctl, s2) ∧
    ∀ g c, configs !! g = Some c → gc_launch_required c ≠ 0 → is_Some (watched records flash_wrp g c (log s2))
  end.
Proof using All.
  intros Hu. pose proof (boot_ok profile s Hu) as Hb. unfold wp in Hb. destruct (wt_monitor_init _ _ _ _ _ s) as [[s1 [ex|a]]|]; [done| |done].
  destruct (machine_run_ok _ _ _ evs Hb) as ([ctl s2] & E & Hi & _). exists ctl, s2. split; [done|]. intros g c Ec Hn.
  destruct (iv_watched _ _ _ _ _ _ _ Hi g c) as (st & Est & _); [done|]. by eexists.
Qed.

(** C7: quarantine is final. A guest that is faulted, and is not the one running,
    stays faulted and is not entered again, whatever happens after. *)
Theorem monitor_quarantine_final profile s s1 a evs ctl s2 g evs' : unbooted s →
  wt_monitor_init mport records flash_wrp configs profile s = Some (s1, inr a) → run (NotStarted, s1) evs = Some (ctl, s2) →
  gr_state <$> mo_runtime s2 !! g = Some WT_GUEST_FAULTED → ctl ≠ InGuest g →
  ∃ ctl' s3 l, run (ctl, s2) evs' = Some (ctl', s3) ∧ gr_state <$> mo_runtime s3 !! g = Some WT_GUEST_FAULTED ∧
    log s3 = log s2 ++ l ∧ Forall (λ e, e.1 ≠ OpContextRestore g) l.
Proof using All.
  intros Hu Eb Er Hf Hc. pose proof (boot_ok profile s Hu) as Hb. unfold wp in Hb. rewrite Eb in Hb.
  destruct (machine_run_ok _ _ _ evs Hb) as (cs2 & E2 & Hm). rewrite Er in E2. injection E2 as <-.
  assert (machine_ok (λ g', g' = g) (log s2) (ctl, s2)) as Hm2.
  { destruct Hm as [[] Hg]. split; simpl in *.
    - constructor; try done.
      + by intros g' ->.
      + exists []. rewrite app_nil_r. by split; [|constructor].
    - destruct ctl; try done. destruct Hg as (? & ? & ? & _). split; [done|]. split; [done|]. split; [done|]. congruence. }
  destruct (machine_run_ok _ _ _ evs' Hm2) as ([ctl' s3] & E3 & [Hi3 _]). destruct (iv_log _ _ _ _ _ _ _ Hi3) as (l & El & Hq).
  exists ctl', s3, l. split; [done|]. split; [by apply (iv_held _ _ _ _ _ _ _ Hi3)|]. split; [done|].
  eapply Forall_impl; [exact Hq|]. intros e He. by apply He.
Qed.
End machine.

(** ** Two guests *)

(** The rest of the system is the contents of the two images, each of one value. *)
Definition demo_port : port_fn (Z * Z) := λ op w,
  match op with
  | OpHash base _ => (w, (0, replicate (Z.to_nat WT_GUEST_MEAS_DIGEST_SIZE) (if base =? 0x1000 then w.1 else w.2)))
  | OpContextReady _ | OpTrapFromGuestThread => (w, (1, []))
  | _ => (w, (0, []))
  end.
#[export] Instance demo_port_ok : HashOk demo_port.
Proof. intros base size w. simpl. by destruct (base =? 0x1000). Qed.
Definition demo_config (base : Z) : wt_guest_config :=
  {| gc_name := [103]; gc_irq_mask := [0]; gc_memory_windows := [{| mr_base := base; mr_size := 0x1000; mr_attributes := WT_MEMORY_ATTR_EXECUTE; mr_share_id := 0 |}];
     gc_memory_regions := []; gc_restart_limit := 3; gc_restart_window_ticks := 0; gc_initial_delay_ticks := 1; gc_timeslice_ms := 10;
     gc_provided_capabilities := 0; gc_initial_state := WT_GUEST_READY; gc_launch_required := 1; gc_launch_min_version := 2 |}.
Definition demo_configs : list wt_guest_config := [demo_config 0x1000; demo_config 0x2000].
Definition demo_record (g v : Z) : wt_guest_measurement :=
  {| gm_guest_id := g; gm_version := 2; gm_image_size := 0x800; gm_digest := replicate (Z.to_nat WT_GUEST_MEAS_DIGEST_SIZE) v |}.
Definition demo_records : option (list wt_guest_measurement) := Some [demo_record 0 5; demo_record 1 6].
Definition demo_runtime : wt_guest_runtime :=
  {| gr_state := WT_GUEST_STOPPED; gr_remaining_delay_ticks := 0; gr_restart_count := 0; gr_first_restart_tick := 0; gr_last_fault := WT_FAULT_NONE |}.
Definition demo_unbooted : monitor (Z * Z * list event) :=
  {| mo_world := ((5, 6), []); mo_configs := []; mo_runtime := [demo_runtime; demo_runtime]; mo_guest_count := 0; mo_current_guest := 0;
     mo_current_rep := WT_SCHED_REP_NS; mo_monotonic_ticks := 0; g_wt_restart_events := 0; g_wt_quarantine_events := 0;
     g_wt_launch_verified_mask := 0; g_wt_launch_refused_mask := 0; g_wt_first_dispatch_pending := 0; g_wt_runtime_verify_pass := 0;
     g_wt_runtime_verify_fail := 0; mo_measurements := wt_guest_measurement_reset |}.
Definition demo_profile : option wt_profile_capabilities := 
  Some {| pc_capabilities := 0; pc_max_domains := 2; pc_max_memory_resources_per_domain := 1; pc_max_interrupts_per_domain := 0 |}.
Definition demo_init : option (monitor (Z * Z * list event) * (exit + unit)) :=
  wt_monitor_init (observed_port demo_port) demo_records true demo_configs demo_profile demo_unbooted.
Definition demo_booted : monitor (Z * Z * list event) := match demo_init with Some (s, _) => s | None => demo_unbooted end.
Definition demo_run (evs : list (stimulus (Z * Z))) : control * monitor (Z * Z * list event) :=
  default (Halted, demo_unbooted) (run demo_port demo_records true (NotStarted, demo_booted) evs).
(** Guest 0 runs first, and the image of guest 1 is changed meanwhile. *)
Definition tampering : list (stimulus (Z * Z)) := [Start; Elapse (5, 7); Timer].
Definition states (s : monitor (Z * Z * list event)) : list wt_guest_state := gr_state <$> mo_runtime s.

Lemma demo_unbooted_ok : unbooted demo_configs demo_unbooted.
Proof. by split. Qed.
Lemma demo_digests l : demo_records = Some l → Forall (λ r, length (gm_digest r) = Z.to_nat WT_GUEST_MEAS_DIGEST_SIZE) l.
Proof. intros [= <-]. by repeat constructor. Qed.
(** The changed guest is refused, and guest 0 goes on. *)
Lemma monitor_measures_witness : (demo_run tampering).1 = InGuest 0 ∧ states (demo_run tampering).2 = [WT_GUEST_RUNNING; WT_GUEST_FAULTED] ∧
  match demo_init with
  | None => False
  | Some (_, inl ex) => ex = Panicked
  | Some (s1, inr _) => ∃ ctl s2, run demo_port demo_records true (NotStarted, s1) tampering = Some (ctl, s2) ∧
    ∀ g c, demo_configs !! g = Some c → gc_launch_required c ≠ 0 → is_Some (watched demo_records true g c (log s2))
  end.
Proof.
  split; [by vm_compute|]. split; [by vm_compute|].
  apply (monitor_measures demo_port demo_records true demo_configs ltac:(simpl; lia) demo_digests demo_profile demo_unbooted tampering demo_unbooted_ok).
Defined.
Lemma monitor_quarantine_final_witness :
  ∃ ctl' s3 l, run demo_port demo_records true (demo_run tampering) [Timer; Elapse (5, 6); Fault WT_FAULT_PLATFORM; Timer; Resume] = Some (ctl', s3) ∧
    gr_state <$> mo_runtime s3 !! 1%nat = Some WT_GUEST_FAULTED ∧ log s3 = log (demo_run tampering).2 ++ l ∧ Forall (λ e, e.1 ≠ OpContextRestore 1) l.
Proof.
  assert (run demo_port demo_records true (NotStarted, demo_booted) tampering = Some (demo_run tampering)) as Er by by vm_compute.
  assert (gr_state <$> mo_runtime (demo_run tampering).2 !! 1%nat = Some WT_GUEST_FAULTED) as Hf by by vm_compute.
  assert ((demo_run tampering).1 ≠ InGuest 1) as Hc by by vm_compute.
  assert (wt_monitor_init (observed_port demo_port) demo_records true demo_configs demo_profile demo_unbooted = Some (demo_booted, inr tt)) as Hb by by vm_compute.
  destruct (demo_run tampering) as [ctl s2].
  exact (monitor_quarantine_final demo_port demo_records true demo_configs ltac:(simpl; lia) demo_digests demo_profile demo_unbooted demo_booted tt
           tampering ctl s2 1 _ demo_unbooted_ok Hb Er Hf Hc).
Defined.
(** A guest that is quarantined while it runs goes on to its next trap; if that is
    a fault, it is restarted. *)
Example quarantined_while_running :
  states (demo_run [Start; Quarantine 0]).2 = [WT_GUEST_FAULTED; WT_GUEST_READY] ∧ (demo_run [Start; Quarantine 0]).1 = InGuest 0 ∧
  states (demo_run [Start; Quarantine 0; Fault WT_FAULT_PLATFORM; Timer]).2 = [WT_GUEST_RUNNING; WT_GUEST_READY].
Proof. by vm_compute. Qed.
