(* ===== verification/SpmCore.v ===== *)
(** * Scheduled Secure Partitions: [src/arch/common/spm_gate_core.c], [src/ffm_boot.c]

    The table of scheduled partitions, the memory checks of the FF-M runtime's
    port, which it decides for Secure Partition callers, and the trap
    dispatcher. Its state joins the FF-M runtime, the scheduler and the
    platform; the two former share one memory. The variants for the
    conformance suite and for fault injection are not part of a production
    build and are left out. *)

From Stdlib Require Import ZArith Lia.
From stdpp Require Import base list numbers option sets.
From S2P Require Import Prelude Buffers CState Domain Manifest Ipc FfmTypes FfmCore FfmClient FfmService SecureDomain SpmGate Coroutine Mutex Policies.

Inductive wt_spm_wait := WT_SPM_WAIT_NONE | WT_SPM_WAIT_SIG | WT_SPM_WAIT_MSG | WT_SPM_WAIT_LOCK.
#[export] Instance wt_spm_wait_eq_dec : EqDecision wt_spm_wait.
Proof. solve_decision. Defined.

(** Entry and restore functions are opaque addresses; the two restart counters
    are one field. *)
Record wt_spm_sp := {
  sp_co : option co_ref;
  sp_table : wt_secure_domain;
  sp_partition_id : Z;
  sp_partition_index : nat;
  sp_wait_msg : option nat;
  sp_wait_mask : Z;
  sp_wait_kind : wt_spm_wait;
  sp_in_use : bool;
  sp_entry : Z;
  sp_restore : option Z;
  sp_arg : Z;
  sp_scrub_base : Z;
  sp_scrub_size : Z;
  sp_scrub2_base : Z;
  sp_scrub2_size : Z;
  sp_restart : restart_state;
  sp_fault_pending : bool;
}.

Definition wt_spm_partition_memory_ok (slots : list wt_spm_sp) (partition_id address size : Z) (need_write : bool) : bool :=
  match List.find (λ sp, sp_in_use sp && (sp_partition_id sp =? partition_id)) slots with
  | Some sp => wt_secure_domain_contains (sp_table sp) address size need_write
  | None => false
  end.

(** ** Memory checks of the port: [src/ffm_boot.c] *)

Definition wt_ffm_boot_caller_guest (caller : Z) : option Z :=
  if 0 <=? caller then None else Some (- caller - 1).

(** [ns_check] is the check the architecture port installed, if any, for a
    guest's window; [need_write] selects the read or the write check. *)
Definition wt_ffm_boot_check (slots : list wt_spm_sp) (ns_check : option (Z → Z → Z → bool)) (need_write : bool)
    (caller address size : Z) : bool :=
  if 0 <? caller then wt_spm_partition_memory_ok slots caller address size need_write else
  match wt_ffm_boot_caller_guest caller with
  | None => false
  | Some guest_id => match ns_check with None => false | Some f => f guest_id address size end
  end.
Definition wt_ffm_boot_check_read slots ns_check_read := wt_ffm_boot_check slots ns_check_read false.
Definition wt_ffm_boot_check_write slots ns_check_write := wt_ffm_boot_check slots ns_check_write true.

(** ** State *)

(** The forensic words of the dispatcher. *)
Record wt_spm_trace := {
  g_wt_ks_reject_pid : Z;
  g_wt_ks_reject_count : Z;
  g_wt_ks_last_flash : Z;
  g_wt_ks_last_flash_off : Z;
  g_wt_ks_flash_ops : Z;
  g_wt_ks_last_lock : Z;
  g_wt_ks_dom_reject : Z * Z * Z * Z;   (** count, sub-operation, buffer, length *)
  g_wt_svc_entry_rej : Z * Z * Z * Z;   (** count, call, stack pointer, reason *)
}.

(** [sm_platform] is the hardware and the privileged services behind it,
    opaque to the dispatcher. *)
Record spm := {
  sm_world : world;
  sm_sched : sched;
  sm_bound : bool;   (** [g_spm_svc_runtime != NULL] *)
  g_spm_sp : list wt_spm_sp;   (** the first [g_spm_sp_count] slots *)
  sm_ticks : Z;   (** [wt_monitor_state()->monotonic_ticks] *)
  sm_platform : Z;
  sm_trace : wt_spm_trace;
  g_spm_hsm_partition_id : Z;
  sm_failed : bool;   (** [wt_platform_all_guests_faulted] was called *)
}.

#[export] Instance sp_eta : Settable wt_spm_sp := λ s,
  {| sp_co := sp_co s; sp_table := sp_table s; sp_partition_id := sp_partition_id s;
     sp_partition_index := sp_partition_index s; sp_wait_msg := sp_wait_msg s; sp_wait_mask := sp_wait_mask s;
     sp_wait_kind := sp_wait_kind s; sp_in_use := sp_in_use s; sp_entry := sp_entry s; sp_restore := sp_restore s;
     sp_arg := sp_arg s; sp_scrub_base := sp_scrub_base s; sp_scrub_size := sp_scrub_size s;
     sp_scrub2_base := sp_scrub2_base s; sp_scrub2_size := sp_scrub2_size s; sp_restart := sp_restart s;
     sp_fault_pending := sp_fault_pending s |}.
#[export] Instance set_sp_wait_msg : Setter sp_wait_msg. Proof. derive_setter. Defined.
#[export] Instance set_sp_wait_mask : Setter sp_wait_mask. Proof. derive_setter. Defined.
#[export] Instance set_sp_wait_kind : Setter sp_wait_kind. Proof. derive_setter. Defined.
#[export] Instance set_sp_restore : Setter sp_restore. Proof. derive_setter. Defined.
#[export] Instance set_sp_restart : Setter sp_restart. Proof. derive_setter. Defined.
#[export] Instance set_sp_fault_pending : Setter sp_fault_pending. Proof. derive_setter. Defined.

#[export] Instance trace_eta : Settable wt_spm_trace := λ t,
  {| g_wt_ks_reject_pid := g_wt_ks_reject_pid t; g_wt_ks_reject_count := g_wt_ks_reject_count t;
     g_wt_ks_last_flash := g_wt_ks_last_flash t; g_wt_ks_last_flash_off := g_wt_ks_last_flash_off t;
     g_wt_ks_flash_ops := g_wt_ks_flash_ops t; g_wt_ks_last_lock := g_wt_ks_last_lock t;
     g_wt_ks_dom_reject := g_wt_ks_dom_reject t; g_wt_svc_entry_rej := g_wt_svc_entry_rej t |}.
#[export] Instance set_ks_reject_pid : Setter g_wt_ks_reject_pid. Proof. derive_setter. Defined.
#[export] Instance set_ks_reject_count : Setter g_wt_ks_reject_count. Proof. derive_setter. Defined.
#[export] Instance set_ks_last_flash : Setter g_wt_ks_last_flash. Proof. derive_setter. Defined.
#[export] Instance set_ks_last_flash_off : Setter g_wt_ks_last_flash_off. Proof. derive_setter. Defined.
#[export] Instance set_ks_flash_ops : Setter g_wt_ks_flash_ops. Proof. derive_setter. Defined.
#[export] Instance set_ks_last_lock : Setter g_wt_ks_last_lock. Proof. derive_setter. Defined.
#[export] Instance set_ks_dom_reject : Setter g_wt_ks_dom_reject. Proof. derive_setter. Defined.
#[export] Instance set_svc_entry_rej : Setter g_wt_svc_entry_rej. Proof. derive_setter. Defined.

#[export] Instance spm_eta : Settable spm := λ s,
  {| sm_world := sm_world s; sm_sched := sm_sched s; sm_bound := sm_bound s; g_spm_sp := g_spm_sp s;
     sm_ticks := sm_ticks s; sm_platform := sm_platform s; sm_trace := sm_trace s;
     g_spm_hsm_partition_id := g_spm_hsm_partition_id s; sm_failed := sm_failed s |}.
#[export] Instance set_sm_world : Setter sm_world. Proof. derive_setter. Defined.
#[export] Instance set_sm_sched : Setter sm_sched. Proof. derive_setter. Defined.
#[export] Instance set_sm_bound : Setter sm_bound. Proof. derive_setter. Defined.
#[export] Instance set_g_spm_sp : Setter g_spm_sp. Proof. derive_setter. Defined.
#[export] Instance set_sm_platform : Setter sm_platform. Proof. derive_setter. Defined.
#[export] Instance set_sm_trace : Setter sm_trace. Proof. derive_setter. Defined.
#[export] Instance set_g_spm_hsm_partition_id : Setter g_spm_hsm_partition_id. Proof. derive_setter. Defined.
#[export] Instance set_sm_failed : Setter sm_failed. Proof. derive_setter. Defined.

(** A call of the runtime, and one of the scheduler, whose stacks live in the
    same memory. *)
Definition in_world {A} (f : func world A) : func spm A := λ s,
  '(w, a) ← f (sm_world s); Some (s <| sm_world := w |>, a).
Definition in_sched {A} (f : func sched A) : func spm A := λ s,
  '(c, a) ← f (sm_sched s <| sc_memory := memory (sm_world s) |>);
  Some (s <| sm_sched := c |> <| sm_world := (sm_world s) <| memory := sc_memory c |> |>, a).
(** A call of the platform. *)
Definition in_platform {A} (f : Z → Z * A) : func spm A := λ s,
  let '(p, a) := f (sm_platform s) in Some (s <| sm_platform := p |>, a).

Section access.
Context {R : Type}.
(** [*slot] and [slot->field = v;] *)
Definition get_sp (i : nat) : prog spm R wt_spm_sp := s ← gets id; defined (g_spm_sp s !! i).
Definition mod_sp (i : nat) (f : wt_spm_sp → wt_spm_sp) : prog spm R unit :=
  sp ← get_sp i; modify (λ s, s <| g_spm_sp := <[i := f sp]> (g_spm_sp s) |>).
Definition mod_trace (f : wt_spm_trace → wt_spm_trace) : prog spm R unit :=
  modify (λ s, s <| sm_trace := f (sm_trace s) |>).
(** [memcpy] to and from partition memory. *)
Definition store_bytes (p : Z) (bytes : list Z) : prog spm R unit :=
  modify (λ s, s <| sm_world := (sm_world s) <| memory := mem_write (memory (sm_world s)) p bytes |> |>).
Definition load_bytes (p n : Z) : prog spm R (list Z) := gets (λ s, mem_read (memory (sm_world s)) p n).
End access.

(** ** The platform

    The privileged services the dispatcher runs for a partition: each maps the
    platform state to a new one and a result; a callback that may be null is
    an option. Those that fill a buffer return the bytes. The partition
    identifiers are generated with the manifest. *)
Class SpmPlatform := {
  PARTITION_VAULT_ID : Z;
  PARTITION_HSM_ID : Z;
  PARTITION_FWU_ID : Z;
  PARTITION_ATTEST_ID : Z;
  nvm_lock : nat;   (** [wt_hsm_nvm_lock_mutex] *)
  secure_irq_enable : Z → Z → Z;
  sp_redirect_to_panic_trap : Z → Z;
  sp_stack_pointer : Z → Z;
  system_reset : Z → Z;
  fwu_begin : option (Z → Z * Z);
  fwu_write : option (Z → list Z → Z → Z * Z);
  fwu_arm : option (Z → Z → Z → Z * Z);
  fwu_disarm : option (Z → Z * Z);
  fwu_verify : option (Z → Z → Z * (Z * Z));
  hsm_rollback_image_floor : Z → Z * (Z * Z);
  hsm_active_image_version : Z → Z;
  flash_read : Z → Z → Z → Z * (Z * list Z);
  flash_program : Z → list Z → Z → Z * Z;
  flash_erase : Z → Z → Z → Z * Z;
  flash_verify : Z → list Z → Z → Z * Z;
  flash_blankcheck : Z → Z → Z → Z * Z;
  flash_cleanup : Z → Z * Z;
  rng_generate_block_direct : Z → Z → Z * (Z * list Z);
  guest_measurement_count : Z → Z;
  guest_measurement_get : Z → Z → option (list Z);
  sizeof_measurement : Z;
  sizeof_call : Z;
  call_of_bytes : list Z → wt_spm_call;
  bytes_of_call : wt_spm_call → list Z;
}.

Definition WT_SPM_KS_FLASH_READ : Z := 0.
Definition WT_SPM_KS_FLASH_PROGRAM : Z := 1.
Definition WT_SPM_KS_FLASH_ERASE : Z := 2.
Definition WT_SPM_KS_FLASH_VERIFY : Z := 3.
Definition WT_SPM_KS_FLASH_BLANKCHECK : Z := 4.
Definition WT_SPM_KS_FLASH_CLEANUP : Z := 5.
Definition WT_SPM_KS_LOCK_ACQUIRE : Z := 0.
Definition WT_SPM_KS_LOCK_RELEASE : Z := 1.

(** ** The trap dispatcher *)

Section dispatch.
Context `{PortOps} `{CoArch} `{SpmPlatform}.

Definition current {R} : prog spm R (option co_ref) := CState.call (in_sched (fn wt_co_current)).

(** The index of the running partition's slot. *)
Definition wt_spm_slot_for_current : func spm (option nat) := fn (
  cur ← current;
  s ← gets id;
  mret (fst <$> list_find (λ sp, sp_in_use sp = true ∧ sp_co sp = cur) (g_spm_sp s))).

(** [fwu_ret] and the block, for a request of the update partition. *)
Definition fwu_backend (sp : wt_spm_sp) (call : wt_spm_call) : prog spm (Z * wt_spm_call) (Z * wt_spm_call) :=
  let ct := sc_call_type call in
  let inside := wt_secure_domain_contains (sp_table sp) (sc_buffer call) (sc_num_bytes call) in
  let failed := mret (-1, call) in
  let plain (f : Z → Z * Z) := ret ← CState.call (in_platform f); mret (ret, call) in
  if ct =? WT_SPM_FWU_BEGIN then from_option plain failed fwu_begin else
  if ct =? WT_SPM_FWU_WRITE then
    match fwu_write with
    | Some f =>
      if inside false then
        bytes ← load_bytes (sc_buffer call) (sc_num_bytes call); plain (f (sc_vec_idx call) bytes)
      else failed
    | None => failed
    end else
  if ct =? WT_SPM_FWU_ARM then
    from_option (λ f, plain (f (sc_num_bytes call) (sc_version call))) failed fwu_arm else
  if ct =? WT_SPM_FWU_DISARM then from_option plain failed fwu_disarm else
  if ct =? WT_SPM_FWU_REBOOT then CState.call (in_platform (λ p, (system_reset p, tt)));; failed else
  if ct =? WT_SPM_FWU_FLOOR then
    '(ret, floor) ← CState.call (in_platform hsm_rollback_image_floor);
    (if ret =? 0 then mret (0, call <| sc_ret_version := floor |>) else failed) else
  if ct =? WT_SPM_FWU_VERIFY then
    from_option (λ f,
      '(ret, version) ← CState.call (in_platform (f (sc_num_bytes call)));
      mret (ret, if ret =? 0 then call <| sc_ret_version := version |> else call)) failed fwu_verify else
  if ct =? WT_SPM_FWU_ACTIVE then
    s ← gets id; mret (0, call <| sc_ret_version := hsm_active_image_version (sm_platform s) |>)
  else failed.

Definition dispatch_fwu (sp : wt_spm_sp) (call : wt_spm_call) : prog spm (Z * wt_spm_call) (Z * wt_spm_call) :=
  when (negb (sp_partition_id sp =? PARTITION_FWU_ID)) (early (WT_FFM_ERROR_ARGUMENT, call));;
  '(ret, call) ← fwu_backend sp call;
  mret (WT_FFM_SUCCESS, call <| sc_ret_int := ret |>).

(** [ks_ret] of the store owner's flash requests. *)
Definition keystore_flash (sp : wt_spm_sp) (call : wt_spm_call) : prog spm (Z * wt_spm_call) Z :=
  let ct := sc_call_type call in
  let off := sc_vec_idx call in
  let n := sc_num_bytes call in
  let inside := wt_secure_domain_contains (sp_table sp) (sc_buffer call) n in
  let plain (f : Z → Z * Z) := CState.call (in_platform f) in
  if (ct =? WT_SPM_KS_FLASH_READ) && inside true then
    '(ret, bytes) ← CState.call (in_platform (flash_read off n));
    store_bytes (sc_buffer call) bytes;; mret ret else
  if (ct =? WT_SPM_KS_FLASH_PROGRAM) && inside false then
    bytes ← load_bytes (sc_buffer call) n; plain (flash_program off bytes) else
  if ct =? WT_SPM_KS_FLASH_ERASE then plain (flash_erase off n) else
  if (ct =? WT_SPM_KS_FLASH_VERIFY) && inside false then
    bytes ← load_bytes (sc_buffer call) n; plain (flash_verify off bytes) else
  if ct =? WT_SPM_KS_FLASH_BLANKCHECK then plain (flash_blankcheck off n) else
  if ct =? WT_SPM_KS_FLASH_CLEANUP then plain flash_cleanup
  else mret (-1).

Definition keystore_entropy (sp : wt_spm_sp) (call : wt_spm_call) : prog spm (Z * wt_spm_call) Z :=
  if wt_secure_domain_contains (sp_table sp) (sc_buffer call) (sc_num_bytes call) true then
    '(ret, bytes) ← CState.call (in_platform (rng_generate_block_direct (sc_num_bytes call)));
    store_bytes (sc_buffer call) bytes;; mret ret
  else mret (-1).

Definition keystore_lock (i : nat) (call : wt_spm_call) : prog spm (Z * wt_spm_call) Z :=
  if sc_call_type call =? WT_SPM_KS_LOCK_ACQUIRE then
    cur ← current;
    ret ← CState.call (in_sched (wt_mutex_acquire_queued (Some nvm_lock) cur));
    (if ret =? 1 then
       mod_sp i (λ sp, sp <| sp_wait_kind := WT_SPM_WAIT_LOCK |>);; CState.call (in_sched wt_co_block)
     else when (ret =? 0) (mod_sp i (λ sp, sp <| sp_wait_kind := WT_SPM_WAIT_NONE |>)));;
    mret ret else
  if sc_call_type call =? WT_SPM_KS_LOCK_RELEASE then CState.call (in_sched (wt_mutex_release nvm_lock))
  else mret (-1).

(** The forensic words after a keystore request with result [ret]. *)
Definition latch_word (call : wt_spm_call) (ret : Z) : Z :=
  u32 (u32 (sc_call_type call) .<< 24) .| (u32 ret .& 0x00FFFFFF).
Definition keystore_trace (op : wt_spm_op) (call : wt_spm_call) (ret : Z) (t : wt_spm_trace) : wt_spm_trace :=
  let flash := bool_decide (op = WT_SPM_OP_KEYSTORE_FLASH) in
  let lock := bool_decide (op = WT_SPM_OP_KEYSTORE_LOCK) in
  let t := if flash then t <| g_wt_ks_flash_ops := u32 (g_wt_ks_flash_ops t + 1) |> else t in
  let t := if flash && (ret =? -1)
           then t <| g_wt_ks_dom_reject := (u32 ((g_wt_ks_dom_reject t).1.1.1 + 1), u32 (sc_call_type call),
                                            sc_buffer call, sc_num_bytes call) |> else t in
  if (ret =? 0) || (ret =? 1) then t else
  if lock && (g_wt_ks_last_lock t =? 0) then t <| g_wt_ks_last_lock := latch_word call ret |> else
  if negb lock && (g_wt_ks_last_flash t =? 0)
  then t <| g_wt_ks_last_flash := latch_word call ret |> <| g_wt_ks_last_flash_off := sc_vec_idx call |> else t.

Definition dispatch_keystore (i : nat) (sp : wt_spm_sp) (op : wt_spm_op) (call : wt_spm_call) :
    prog spm (Z * wt_spm_call) (Z * wt_spm_call) :=
  when (negb (wt_spm_keystore_op_pinned op (sp_partition_id sp) PARTITION_VAULT_ID PARTITION_HSM_ID))
    (mod_trace (λ t, t <| g_wt_ks_reject_pid := u32 (sp_partition_id sp) |>
                       <| g_wt_ks_reject_count := u32 (g_wt_ks_reject_count t + 1) |>);;
     early (WT_FFM_ERROR_ARGUMENT, call));;
  ret ← match op with
        | WT_SPM_OP_KEYSTORE_FLASH => keystore_flash sp call
        | WT_SPM_OP_KEYSTORE_ENTROPY => keystore_entropy sp call
        | _ => keystore_lock i call
        end;
  mod_trace (keystore_trace op call ret);;
  mret (WT_FFM_SUCCESS, call <| sc_ret_int := ret |>).

Definition dispatch_measure (sp : wt_spm_sp) (call : wt_spm_call) : prog spm (Z * wt_spm_call) (Z * wt_spm_call) :=
  when (negb (sp_partition_id sp =? PARTITION_ATTEST_ID)) (early (WT_FFM_ERROR_ARGUMENT, call));;
  s ← gets id;
  let call := call <| sc_ret_size := guest_measurement_count (sm_platform s) |> in
  if sc_buffer call =? 0 then mret (WT_FFM_SUCCESS, call <| sc_ret_int := 0 |>) else
  match guest_measurement_get (sm_platform s) (sc_vec_idx call) with
  | Some bytes =>
    if (sc_num_bytes call =? sizeof_measurement) &&
       wt_secure_domain_contains (sp_table sp) (sc_buffer call) (sc_num_bytes call) true then
      store_bytes (sc_buffer call) bytes;; mret (WT_FFM_SUCCESS, call <| sc_ret_int := 0 |>)
    else mret (WT_FFM_SUCCESS, call <| sc_ret_int := -1 |>)
  | None => mret (WT_FFM_SUCCESS, call <| sc_ret_int := -1 |>)
  end.

(** The wake condition of a request that suspends its partition. *)
Definition record_wait (call : wt_spm_call) (sp : wt_spm_sp) : wt_spm_sp :=
  if bool_decide (sc_op call = Some WT_SPM_OP_WAIT)
  then sp <| sp_wait_kind := WT_SPM_WAIT_SIG |> <| sp_wait_mask := sc_signal_mask call |>
  else sp <| sp_wait_kind := WT_SPM_WAIT_MSG |> <| sp_wait_msg := sc_pending_msg call |>.

Definition dispatch_gate (i : nat) (sp : wt_spm_sp) (call : wt_spm_call) :
    prog spm (Z * wt_spm_call) (Z * wt_spm_call) :=
  let call := call <| sc_partition_id := sp_partition_id sp |> in
  mod_sp i (λ sp, sp <| sp_wait_kind := WT_SPM_WAIT_NONE |>);;
  '(status, call) ← CState.call (in_world (wt_spm_gate (Some (sp_table sp)) call));
  when ((bool_decide (sc_op call = Some WT_SPM_OP_IRQ_ENABLE) || bool_decide (sc_op call = Some WT_SPM_OP_EOI)) &&
        (sc_ret_int call =? WT_FFM_SUCCESS))
    (CState.call (in_platform (λ p, (secure_irq_enable (sc_ret_version call) p, tt))));;
  when (sc_must_panic call) (CState.call (in_platform (λ p, (sp_redirect_to_panic_trap p, tt))));;
  when ((status =? WT_FFM_SUCCESS) && wt_spm_call_would_block call)
    (mod_sp i (record_wait call);; CState.call (in_sched wt_co_block));;
  mret (status, call).

Definition wt_spm_dispatch_held (i : nat) (call : wt_spm_call) : func spm (Z * wt_spm_call) := fn (
  s ← gets id;
  sp ← get_sp i;
  let call := call <| sc_ret_tick := sm_ticks s |> in
  match sc_op call with
  | Some WT_SPM_OP_FWU_BACKEND => dispatch_fwu sp call
  | Some ((WT_SPM_OP_KEYSTORE_FLASH | WT_SPM_OP_KEYSTORE_ENTROPY | WT_SPM_OP_KEYSTORE_LOCK) as op) =>
    dispatch_keystore i sp op call
  | Some WT_SPM_OP_MEASURE_READ => dispatch_measure sp call
  | _ => dispatch_gate i sp call
  end).

(** [call] is the address of the block in the partition's memory. *)
Definition wt_spm_dispatch_call (call : Z) : func spm Z := fn (
  i ← CState.call wt_spm_slot_for_current;
  s ← gets id;
  let refused (why : Z) : prog spm Z Z :=
    mod_trace (λ t,
      let '(count, c, sp, reason) := g_wt_svc_entry_rej t in
      t <| g_wt_svc_entry_rej := if c =? 0 then (u32 (count + 1), call, sp_stack_pointer (sm_platform s), why)
                                 else (u32 (count + 1), c, sp, reason) |>);;
    mret WT_FFM_ERROR_ARGUMENT in
  if negb (sm_bound s) then refused 1 else
  match i with
  | None => refused 2
  | Some i =>
    sp ← get_sp i;
    if negb (wt_secure_domain_contains (sp_table sp) call sizeof_call true) then refused 3 else
    bytes ← load_bytes call sizeof_call;
    '(status, held) ← CState.call (wt_spm_dispatch_held i (call_of_bytes bytes));
    store_bytes call (bytes_of_call held);;
    mret status
  end).

(** ** Suspension and faults *)

(** A suspended partition's wake condition. *)
Definition wt_spm_slot_ready (rt : wt_ffm_runtime) (sp : wt_spm_sp) : option bool :=
  match sp_wait_kind sp with
  | WT_SPM_WAIT_SIG =>
    p ← r_partitions rt !! sp_partition_index sp; Some (has_any (p_asserted_signals p) (sp_wait_mask sp))
  | WT_SPM_WAIT_MSG => match sp_wait_msg sp with Some i => wt_ffm_msg_complete rt i | None => Some false end
  | WT_SPM_WAIT_LOCK => Some false
  | WT_SPM_WAIT_NONE => p ← r_partitions rt !! sp_partition_index sp; Some (negb (p_asserted_signals p =? 0))
  end.

Definition wt_spm_sp_fault (faulted_co : co_ref) : func spm Z := fn (
  s ← gets id;
  match list_find (λ sp, sp_in_use sp = true ∧ sp_co sp = Some faulted_co) (g_spm_sp s) with
  | None => mret WT_FFM_ERROR_STATE
  | Some (i, _) =>
    CState.call (in_sched (wt_co_mark_faulted (Some faulted_co)));;
    modify (λ s, s <| sm_sched := (sm_sched s) <| g_wt_co_pendsv_target := None |> |>);;
    mod_sp i (λ sp, sp <| sp_fault_pending := true |>);;
    mret WT_FFM_SUCCESS
  end).

Definition wt_spm_sched_set_restore (partition_id restore : Z) : func spm Z := fn (
  s ← gets id;
  match list_find (λ sp, sp_in_use sp = true ∧ sp_partition_id sp = partition_id) (g_spm_sp s) with
  | None => mret WT_FFM_ERROR_STATE
  | Some (i, _) => mod_sp i (λ sp, sp <| sp_restore := Some restore |>);; mret WT_FFM_SUCCESS
  end).
End dispatch.
