(* ===== verification/SpmGateProps.v ===== *)
(** * Correctness of the gate

    A partition reaches the runtime only in its own name, writes only memory
    it could write itself, and no request of it disturbs the requests of other
    clients, whatever its call block holds. If it starts no call or close
    while an earlier request of its own is unanswered, the runtime stays
    well-formed. The last theorem shows what a partition can do that does not
    keep to that: the gate checks that a resumed message belongs to the
    partition, but not that the message still has its connection. *)

From Stdlib Require Import ZArith Lia.
From stdpp Require Import base list numbers option sets relations.
From S2P Require Import Prelude Buffers CState Domain Manifest Ipc FfmTypes FfmCore FfmClient FfmService FfmWf FfmQueue FfmSlots FfmServiceWf FfmClientWf FfmTerm FfmInit FfmSteps FfmExample FfmHandles FfmData FfmProps FfmFrame SecureDomain SpmGate SpmGateSteps SpmCore.

(** The port's write check for partition [pid] is its region table [d]. *)
Class TableChecked `{PortOps} (pid : Z) (d : wt_secure_domain) : Prop :=
  checks_table p a n : check_write p pid a n = true → wt_secure_domain_contains d a n true = true.

(** The check of the boot code, with the scheduled partition's slot. *)
Lemma boot_checked `{PortOps} slots ns_check pid sp :
  0 < pid → List.find (λ sp, sp_in_use sp && (sp_partition_id sp =? pid)) slots = Some sp →
  (∀ p c a n, check_write p c a n = wt_ffm_boot_check_write slots ns_check c a n) → TableChecked pid (sp_table sp).
Proof.
  intros Hpid Hfind Hport p a n. rewrite Hport. unfold wt_ffm_boot_check_write, wt_ffm_boot_check.
  rewrite (proj2 (Z.ltb_lt 0 pid)) by done. unfold wt_spm_partition_memory_ok. by rewrite Hfind.
Qed.

Lemma contains_write d p n a :
  Forall region_typed (sd_regions d) → wt_secure_domain_contains d p n true = true → p ≤ a < p + n → may_write d a.
Proof.
  intros HT Hc Ha. assert (0 ≤ p) as Hp.
  { unfold wt_secure_domain_contains in Hc. destruct (n =? 0); [done|]. destruct (_ <? p); [done|].
    apply existsb_exists in Hc as (r & Hr%list_elem_of_In & Hb). rewrite Forall_forall in HT. destruct (HT r Hr) as [? _].
    bool_hyps. lia. }
  apply contains_iff in Hc as (_ & _ & r & Hr & _ & _ & Hw & Hall); [|done|done|lia]. exists r. auto.
Qed.

Section gate.
Context `{PortOps} (d : wt_secure_domain) (call : wt_spm_call).
Let pid := sc_partition_id call.
Hypotheses (Hregions : Forall region_typed (sd_regions d)) (Hty : call_typed call).

(** C3: Every request a partition makes through the gate of a well-formed
    runtime, whatever its call block contains, is defined and performs at most
    one operation of the FF-M runtime, made in the name of the calling
    partition, with arguments in range, and finishing only a completed request
    of its own. Apart from that operation it writes only memory the partition
    may write. The operation is permitted by the transition system of the
    runtime, so that the runtime stays well-formed, when the partition starts
    no call or close while an earlier request of its own is unanswered
    ([in_sequence]); the gate itself does not enforce that. *)
Theorem gate_permitted s w :
  wf (rt w) → s ≠ Some pid →
  ∃ w' ret call' w1, wt_spm_gate (Some d) call w = Some (w', (ret, call')) ∧
    (w1 = w ∨ ∃ o, admissible s o w ∧ acts_for pid o w ∧ exec o w = Some w1 ∧
       (in_sequence call (rt w) → permitted s o w ∧ wf (rt w1))) ∧
    w' = w1 <| memory := memory w' |> ∧ ∀ a, memory w' a = memory w1 a ∨ may_write d a.
Proof.
  intros Hinv Hs.
  pose proof (gate_effect d s pid (in_sequence call (rt w)) Hregions call w Hinv Hty id eq_refl Hs)
    as (w' & [ret call'] & Hg & w1 & Hstep & Hw' & Hm)%fwp_run.
  exists w', ret, call', w1. split_and!; [done| |done|done].
  destruct Hstep as [->|(o & Ha & Ht & Hfor & He)]; [by left|right]. exists o. split_and!; [done..|]. intros Hq.
  assert (permitted s o w) as Hp by (apply permitted_split; auto). split; [done|].
  destruct (exec_guards s o w Hinv Hp) as (w2 & He' & Hwf & _). congruence.
Qed.

(** The memory after an operation in the partition's name. *)
Lemma step_memory `{!TableChecked pid d} s turn w w1 a :
  wf (rt w) → one_step s pid turn w w1 → memory w1 a = memory w a ∨ may_write d a.
Proof.
  intros Hinv [->|(o & Hp & _ & Ha & He)]; [by left|]. destruct (is_call_finish o) eqn:Ho; cycle 1.
  { left. by rewrite (exec_memory o w w1). }
  destruct o; try done. destruct Hp as (m & Hf & _). destruct Ha as (m' & Hm' & _ & Hpid).
  pose proof Hf as (Hm & _ & _). rewrite Hm in Hm'. injection Hm' as <-.
  simpl in He. unfold after in He. destruct (wt_ffm_call_finish _ _ w) as [[w1' r]|] eqn:E; [|done]. injection He as ->.
  pose proof (fwp_elim _ _ _ _ _ (call_finish_changes _ m _ w Hinv Hf) E a) as [?|(j & dest & n & _ & _ & Hw & Hc)]; [by left|].
  right. rewrite Hpid in Hc. eapply contains_write; [done|by eapply checks_table|done].
Qed.

(** A gate request leaves the requests of every other client as they are and
    changes no byte of memory outside the calling partition's writable regions,
    when the port's write check is the partition's own table; in sequence it
    keeps the runtime well-formed. *)
Lemma gate_isolates w :
  TableChecked pid d → wf (rt w) →
  fwp (wt_spm_gate (Some d) call) (λ _ w', (in_sequence call (rt w) → wf (rt w')) ∧
    (∀ c, c ≠ pid → stable c w w') ∧ ∀ a, memory w' a = memory w a ∨ may_write d a) w.
Proof.
  intros Hport Hinv. set (turn := in_sequence call (rt w)).
  assert (∀ s, s ≠ Some pid → fwp (wt_spm_gate (Some d) call) (λ _ w', (turn → wf (rt w')) ∧
    (∀ c, s = Some c → stable c w w') ∧ ∀ a, memory w' a = memory w a ∨ may_write d a) w) as Hall.
  { intros s Hs. eapply fwp_mono; [by apply (gate_effect d s pid turn)|]. intros _ w' (w1 & Hstep & Hw' & Hmem).
    assert ((turn → wf (rt w1)) ∧ ∀ c, s = Some c → stable c w w1) as [Hwf Hst].
    { destruct Hstep as [->|(o & Ha & Ht & _ & He)]; [done|].
      destruct (exec_admissible s o w Hinv Ha) as (w2 & He' & Hst & Hwf). assert (w2 = w1) as -> by congruence. auto. }
    split_and!.
    - by rewrite Hw'.
    - intros c Hc. specialize (Hst c Hc). rewrite Hw'. by destruct Hst.
    - intros a. destruct (Hmem a) as [->|?]; [|by right]. by eapply step_memory. }
  pose proof (Hall None ltac:(done)) as (w' & r & Hg & Hwf & _ & Hmem)%fwp_run. unfold fwp. rewrite Hg.
  split_and!; [done| |done]. intros c Hc. pose proof (Hall (Some c) ltac:(congruence)) as Hc'. unfold fwp in Hc'.
  rewrite Hg in Hc'. by apply Hc'.
Qed.
End gate.

(** A handle that is accepted names an existing slot. *)
Lemma handle_slot rt caller handle k :
  wt_ffm_connection_from_handle rt caller handle = Some (inr k) →
  ∃ g c, wt_ffm_decode_handle handle WT_FFM_HANDLE_CONNECTION WT_FFM_MAX_CONNECTIONS = inr (k, g) ∧
    r_connections rt !! k = Some c.
Proof.
  unfold wt_ffm_connection_from_handle. destruct (wt_ffm_decode_handle _ _ _) as [e|[index g]]; [done|].
  destruct (r_connections rt !! index) as [c|] eqn:Hc; [|done]. simpl. destruct (_ || _); [done|]. destruct (negb _); [done|].
  destruct (wt_ffm_caller_instance _ _); [|done]. simpl. destruct (negb _); [done|]. intros [= <-]. eauto.
Qed.

(** C37: A resumed close releases whatever connection its message names. When a
    partition resumes a close with the index of an answered message of its own,
    the ownership check passes and the message's connection is released even
    though the slot has since been given to another client: in every state in
    which another client has an open handle to that slot, the gate reports
    success without a panic and the handle is refused from then on. The run
    below reaches such a state through the gate. *)
Theorem stale_message_drops_client `{PortOps} (domain : option wt_secure_domain) (call : wt_spm_call) w i m other handle :
  sc_op call = Some WT_SPM_OP_CLOSE → sc_pending_valid call = true → sc_pending_msg call = Some i →
  r_messages (rt w) !! i = Some m → (i < WT_FFM_MAX_MESSAGES)%nat →
  m_allocated m = true → m_complete m = true → m_caller m = sc_partition_id call →
  other ≠ sc_partition_id call →
  wt_ffm_connection_from_handle (rt w) other handle = Some (inr (m_connection_index m)) →
  wt_spm_pending_owned (rt w) call = Some true ∧
  ∃ w' call', wt_spm_gate domain call w = Some (w', (WT_FFM_SUCCESS, call')) ∧
    sc_ret_int call' = WT_FFM_SUCCESS ∧ sc_must_panic call' = false ∧
    wt_ffm_connection_from_handle (rt w') other handle = Some (inl WT_FFM_ERROR_HANDLE).
Proof.
  intros Hop Hpv Hmsg Hi Hlt Hal Hco Hpid _ Hh. set (k := m_connection_index m) in *.
  apply Nat.leb_gt in Hlt.
  assert (wt_spm_pending_owned (rt w) call = Some true) as Hown.
  { unfold wt_spm_pending_owned. rewrite Hmsg, Hlt, Hi. simpl. by rewrite Hal, Hpid, Z.eqb_refl. }
  destruct (handle_slot _ _ _ _ Hh) as (g & c & Hdec & Hk).
  split; [done|].
  assert (fwp (wt_spm_gate domain call) (λ r w', r.1 = WT_FFM_SUCCESS ∧ sc_ret_int r.2 = WT_FFM_SUCCESS ∧
    sc_must_panic r.2 = false ∧
    wt_ffm_connection_from_handle (rt w') other handle = Some (inl WT_FFM_ERROR_HANDLE)) w)
    as (w' & [ret call'] & Hg & Hret & Hint & Hpan & Hh')%fwp_run; [|simpl in *; subst ret; eauto 10].
  apply fwp_fn. cbv zeta. change (sc_op (gate_start call)) with (sc_op call). rewrite Hop.
  apply wp_bind, wp_call, fwp_fn. change (sc_pending_valid (gate_start call)) with (sc_pending_valid call). rewrite Hpv. simpl.
  apply wp_bind, wp_gets, wp_bind.
  eapply (wp_defined _ true); [exact Hown|]. change (sc_pending_msg (gate_start call)) with (sc_pending_msg call). rewrite Hmsg. simpl.
  apply wp_bind. eapply (wp_defined _ true).
  { unfold wt_ffm_msg_complete. rewrite Hlt, Hi. simpl. by rewrite Hal, Hco. }
  apply wp_bind, wp_call, fwp_fn. rewrite Hlt. apply wp_bind. eapply wp_get_msg; [done|]. cbv zeta. fold k.
  apply wp_bind, wp_call, fwp_fn. eapply wp_mod_msg; [done|]. apply wp_bind, wp_call, fwp_fn.
  eapply wp_mod_conn; [exact Hk|]. do 3 apply wp_ret. split_and!; [done..|].
  unfold wt_ffm_connection_from_handle. rewrite Hdec.
  simpl. by rewrite list_lookup_insert_eq by by eapply lookup_lt_Some.
Qed.

Module GateExample.
Import FfmExample.

(** The storage partition of the example (1), with its stack and a buffer. *)
Definition band (base : Z) : wt_memory_region := {| rg_base := base; rg_size := 0x1000; rg_attributes := 3 |}.
Definition table1 : wt_secure_domain :=
  {| sd_domain_id := 1; sd_regions := [band 0x30001000; band 0x30002000]; sd_stack_base := 0x30001000; sd_stack_size := 0x400 |}.
Definition table3 : wt_secure_domain :=
  {| sd_domain_id := 3; sd_regions := [band 0x30003000]; sd_stack_base := 0x30003000; sd_stack_size := 0x400 |}.
Definition slot (pid : Z) (table : wt_secure_domain) : wt_spm_sp :=
  {| sp_co := None; sp_table := table; sp_partition_id := pid; sp_partition_index := 0; sp_wait_msg := None;
     sp_wait_mask := 0; sp_wait_kind := WT_SPM_WAIT_NONE; sp_in_use := true; sp_entry := 0; sp_restore := None;
     sp_arg := 0; sp_scrub_base := 0; sp_scrub_size := 0; sp_scrub2_base := 0; sp_scrub2_size := 0;
     sp_restart := {| Policies.rs_count := 0; Policies.rs_tick := 0 |}; sp_fault_pending := false |}.
Definition slots : list wt_spm_sp := [slot 1 table1; slot 3 table3].

(** The port of the boot code over these partitions. *)
#[local] Instance checked_ports : PortOps := {
  check_read _ := wt_ffm_boot_check_read slots None;
  check_write _ := wt_ffm_boot_check_write slots None;
  port_dispatch := serve;
  call_dispatch _ _ := serve;
}.

Definition block (op : wt_spm_op) (pid : Z) : wt_spm_call :=
  {| sc_op := Some op; sc_partition_id := pid; sc_notify_partition := 0; sc_msg_handle := 0; sc_signal_mask := 0;
     sc_timeout := 0; sc_signal := 0; sc_vec_idx := 0; sc_buffer := 0; sc_num_bytes := 0; sc_status := 0; sc_msg := 0;
     sc_asserted := 0; sc_rhandle := 0; sc_sid := 0; sc_version := 0; sc_call_type := 0; sc_sp_in := [];
     sc_sp_out := []; sc_sp_in_len := 0; sc_sp_out_len := 0; sc_pending_msg := None; sc_pending_valid := false;
     sc_ret_status := 0; sc_ret_size := 0; sc_ret_int := 0; sc_ret_handle := 0; sc_ret_version := 0; sc_ret_tick := 0;
     sc_must_panic := false |}.
#[local] Instance set_sc_msg_handle : Setter sc_msg_handle. Proof. derive_setter. Defined.
#[local] Instance set_sc_signal : Setter sc_signal. Proof. derive_setter. Defined.
#[local] Instance set_sc_msg : Setter sc_msg. Proof. derive_setter. Defined.
#[local] Instance set_sc_status : Setter sc_status. Proof. derive_setter. Defined.
#[local] Instance set_sc_sid : Setter sc_sid. Proof. derive_setter. Defined.
#[local] Instance set_sc_version : Setter sc_version. Proof. derive_setter. Defined.

Definition closing : wt_spm_call := block WT_SPM_OP_CLOSE 1 <| sc_msg_handle := connection_handle |>.
Definition resuming (op : wt_spm_op) (i : nat) : wt_spm_call :=
  block op 1 <| sc_pending_msg := Some i |> <| sc_pending_valid := true |>.

Lemma table1_typed : Forall region_typed (sd_regions table1).
Proof. repeat constructor; vm_compute; discriminate. Qed.
Lemma block_typed op : call_typed (resuming op 0).
Proof. constructor; simpl; (lia || constructor). Qed.
Lemma closing_typed : call_typed closing.
Proof. constructor; simpl; (lia || constructor). Qed.

(** The storage partition closes its connection without having harvested its
    answered call: out of sequence. *)
Lemma gate_permitted_witness :
  ∃ w' ret call' w1, wt_spm_gate (Some table1) closing call_answered = Some (w', (ret, call')) ∧
    (w1 = call_answered ∨ ∃ o, admissible None o call_answered ∧ acts_for 1 o call_answered ∧ exec o call_answered = Some w1 ∧
       (in_sequence closing (rt call_answered) → permitted None o call_answered ∧ wf (rt w1))) ∧
    w' = w1 <| memory := memory w' |> ∧ ∀ a, memory w' a = memory w1 a ∨ may_write table1 a.
Proof.
  apply (gate_permitted table1 closing table1_typed closing_typed None call_answered).
  - exact (reachable_example_wf _ call_answered_reachable).
  - discriminate.
Defined.

Lemma storage_checked : TableChecked 1 table1.
Proof. by eapply (boot_checked slots None 1 (slot 1 table1)). Qed.

(** It harvests the answered call: the outputs land in its own buffer. *)
Lemma gate_isolates_witness :
  fwp (wt_spm_gate (Some table1) (resuming WT_SPM_OP_CALL 0)) (λ _ w',
    wf (rt w') ∧ (∀ c, c ≠ 1 → stable c call_answered w') ∧
    ∀ a, memory w' a = memory call_answered a ∨ may_write table1 a) call_answered.
Proof.
  eapply fwp_mono; [apply (gate_isolates table1 (resuming WT_SPM_OP_CALL 0) table1_typed (block_typed _) call_answered
    storage_checked (reachable_example_wf _ call_answered_reachable))|].
  intros r w' (Hwf & Hst & Hm). split_and!; [apply Hwf; intros Hv; discriminate Hv|done..].
Defined.

(** ** A message that outlives its connection *)

(** The result of a gate request, and the requests of a whole run. *)
Definition gate_run (table : wt_secure_domain) (call : wt_spm_call) (w : world) : world :=
  next (wt_spm_gate (Some table) call) w.
Definition taking : wt_spm_call := block WT_SPM_OP_GET 3 <| sc_signal := 0x10 |> <| sc_msg := 0x30003100 |>.
Definition replying (handle : Z) : wt_spm_call := block WT_SPM_OP_REPLY 3 <| sc_msg_handle := handle |>.

(** The storage partition closes its connection before it harvests its
    answered call; the vault takes and answers the disconnect; the storage
    partition completes the close. *)
Definition disconnecting : world := gate_run table1 closing call_answered.
Definition disconnect_taken : world := gate_run table3 taking disconnecting.
Definition disconnect_handle : Z := wt_ffm_make_handle WT_FFM_HANDLE_MESSAGE 1 1.
Definition disconnect_answered : world := gate_run table3 (replying disconnect_handle) disconnect_taken.
Definition disconnected : world := gate_run table1 (resuming WT_SPM_OP_CLOSE 1) disconnect_answered.
(** A Non-secure client connects and is given the free slot. *)
Definition guest_handle : Z := match wt_ffm_connect (-1) 0x60 1 disconnected with Some (_, h) => h | None => 0 end.
Definition guest_connected : world := next (wt_ffm_connect (-1) 0x60 1) disconnected.
(** The storage partition's message 0 outlived its connection, and the slot is
    now the Non-secure client's. *)
Lemma stale_message_drops_client_witness :
  c_caller (conn0 guest_connected) = -1 ∧
  wt_ffm_connection_from_handle (rt guest_connected) (-1) guest_handle = Some (inr 0%nat) ∧
  ∃ w' call', wt_spm_gate (Some table1) (resuming WT_SPM_OP_CLOSE 0) guest_connected = Some (w', (WT_FFM_SUCCESS, call')) ∧
    wt_ffm_connection_from_handle (rt w') (-1) guest_handle = Some (inl WT_FFM_ERROR_HANDLE).
Proof.
  assert (r_messages (rt guest_connected) !! 0%nat = Some (msg0 guest_connected)) as Hm by (vm_compute; reflexivity).
  assert (wt_ffm_connection_from_handle (rt guest_connected) (-1) guest_handle =
    Some (inr (m_connection_index (msg0 guest_connected)))) as Hh by (vm_compute; reflexivity).
  split; [vm_compute; reflexivity|]. split; [vm_compute; reflexivity|].
  destruct (stale_message_drops_client (Some table1) (resuming WT_SPM_OP_CLOSE 0) guest_connected 0 (msg0 guest_connected)
    (-1) guest_handle eq_refl eq_refl eq_refl Hm ltac:(vm_compute; lia) ltac:(vm_compute; reflexivity)
    ltac:(vm_compute; reflexivity) ltac:(vm_compute; reflexivity) ltac:(discriminate) Hh) as (_ & w' & call' & Hg & _ & _ & Hh').
  exists w', call'. split; [exact Hg|exact Hh'].
Defined.
End GateExample.
