(* ===== verification/SpmDispatch.v ===== *)
(** * The trap dispatcher keeps partitions apart

    Whatever a partition leaves in its call block and buffers, its trap to the
    dispatcher acts for that partition only: the requests of other clients
    are undisturbed, the runtime stays well-formed if the partition starts no
    call or close out of sequence, and no memory outside the
    partition's writable regions changes, be it through the gate, the platform
    services, the block that is copied back or the frame saved when the
    partition is suspended. *)

From Stdlib Require Import ZArith Lia.
From stdpp Require Import base list numbers option sets.
From S2P Require Import Prelude Buffers CState Frame Domain Manifest Ipc FfmTypes FfmCore FfmClient FfmService FfmWf FfmSlots FfmServiceWf FfmClientWf FfmSteps SecureDomain SpmGate SpmGateSteps Coroutine Mutex SchedRep SchedSpec SchedRun SchedOps SchedMutex SchedSys SchedProps FfmExample Policies SpmCore SpmGateProps.

(** ** Scheduler calls and memory *)

Section sched.
Context {R : Type}.
Lemma frames_get_co p : frames (R := R) sc_memory (get_co p).
Proof. unfold get_co. frame. Qed.
Lemma frames_mod_co p f : frames (R := R) sc_memory (mod_co p f).
Proof. apply frames_bind; [apply frames_get_co|]. intros c. apply frames_modify. by destruct p. Qed.
Lemma frames_get_mutex m : frames (R := R) sc_memory (get_mutex m).
Proof. unfold get_mutex. frame. Qed.
Lemma frames_mod_mutex m f : frames (R := R) sc_memory (mod_mutex m f).
Proof. apply frames_bind; [apply frames_get_mutex|]. intros x. by apply frames_modify. Qed.
End sched.
#[export] Hint Resolve frames_get_co frames_mod_co frames_get_mutex frames_mod_mutex : frame.

Lemma runq_enqueue_frame p : fframes sc_memory (runqueue_enqueue p).
Proof. unfold runqueue_enqueue, panic. frame. Qed.
#[export] Hint Resolve runq_enqueue_frame : frame.
Lemma wake_frame `{CoArch} p : fframes sc_memory (wt_co_wake p).
Proof. unfold wt_co_wake, panic. frame. Qed.
#[export] Hint Resolve wake_frame : frame.
Lemma waiting_frame {R} fuel w p : frames (R := R) sc_memory (waiting fuel w p).
Proof. revert w. induction fuel as [|fuel IH]; intros [w|]; simpl; frame. Qed.
#[export] Hint Resolve waiting_frame : frame.
Lemma mutex_release_frame `{CoArch} m : fframes sc_memory (wt_mutex_release m).
Proof. unfold wt_mutex_release, hand_over, wt_co_current. frame. Qed.
Lemma acquire_queued_frame `{CoArch} m p : fframes sc_memory (wt_mutex_acquire_queued m p).
Proof. unfold wt_mutex_acquire_queued, wait_enqueue. frame. Qed.

(** ** Calls of the components *)

(** The scheduler's state with the shared memory. *)
Definition sched_of (s : spm) : sched := sm_sched s <| sc_memory := memory (sm_world s) |>.
Lemma wp_sched {R A} s1 (f : func sched A) Q E (Q' : A → spm → Prop) :
  fwp f Q (sched_of s1) →
  (∀ r c, Q r c → Q' r (s1 <| sm_sched := c |> <| sm_world := (sm_world s1) <| memory := sc_memory c |> |>)) →
  wp (R := R) (CState.call (in_sched f)) E Q' s1.
Proof.
  intros Hf HQ. apply wp_call. unfold fwp, in_sched. fold (sched_of s1). unfold fwp in Hf.
  destruct (f (sched_of s1)) as [[c r]|]; [|done]. by apply HQ.
Qed.
Lemma wp_world {R A} s1 (f : func world A) Q E (Q' : A → spm → Prop) :
  fwp f Q (sm_world s1) → (∀ r w, Q r w → Q' r (s1 <| sm_world := w |>)) →
  wp (R := R) (CState.call (in_world f)) E Q' s1.
Proof.
  intros Hf HQ. apply wp_call. unfold fwp, in_world. unfold fwp in Hf. destruct (f (sm_world s1)) as [[w r]|]; [|done].
  by apply HQ.
Qed.

(** ** The trap *)

(** Laws of the platform: a service fills no more than the buffer it is given,
    and a call block has a fixed size. *)
Class PlatformOk `{SpmPlatform} : Prop := {
  flash_read_length off n p : 0 ≤ n → Z.of_nat (length (flash_read off n p).2.2) ≤ n;
  rng_length n p : 0 ≤ n → Z.of_nat (length (rng_generate_block_direct n p).2.2) ≤ n;
  measurement_length p i bytes :
    guest_measurement_get p i = Some bytes → Z.of_nat (length bytes) = sizeof_measurement;
  call_length c : Z.of_nat (length (bytes_of_call c)) = sizeof_call;
  call_decodes bytes : call_typed (call_of_bytes bytes);
}.

(** What a trap of partition [pid] with region table [d] leaves as it is; the
    runtime stays well-formed if the request is in [turn]. *)
Record undisturbed (turn : Prop) (pid : Z) (d : wt_secure_domain) (s s' : spm) : Prop := {
  un_wf : turn → wf (rt (sm_world s'));
  un_clients c : c ≠ pid → stable c (sm_world s) (sm_world s');
  un_memory x : memory (sm_world s') x = memory (sm_world s) x ∨ may_write d x;
  un_tables : sp_table <$> g_spm_sp s' = sp_table <$> g_spm_sp s;
}.

(** Partition [sp] in slot [i] runs as coroutine [p] and traps: the scheduler
    represents [a], and the partition's stack is part of its table. *)
Record trapped `{SpmPlatform} (s : spm) (i : nat) (sp : wt_spm_sp) (p : co_ref) (a : asched) : Prop := {
  tr_bound : sm_bound s = true;
  tr_slot : g_spm_sp s !! i = Some sp;
  tr_find : fst <$> list_find (λ sp, sp_in_use sp = true ∧ sp_co sp = Some p) (g_spm_sp s) = Some i;
  tr_rep : rep (sched_of s) a;
  tr_awf : awf a;
  tr_current : a_current a = p;
  tr_thread : p ≠ CoBootstrap;
  tr_lock : is_Some (a_mutex a nvm_lock) ∧ may_queue a nvm_lock p;
  tr_stack k x : a_co a p = Some k → a_base k ≤ x < a_base k + a_size k → may_write (sp_table sp) x;
  tr_runtime : wf (rt (sm_world s));
  tr_regions : Forall region_typed (sd_regions (sp_table sp));
}.

Section trap.
Context `{PortOps} `{CoArch, !CoArchSpec} `{SpmPlatform, !PlatformOk}.
Context (s0 : spm) (i : nat) (sp : wt_spm_sp) (p : co_ref) (a : asched) (turn : Prop).
Hypothesis Htrap : trapped s0 i sp p a.
Let d := sp_table sp.
Let pid := sp_partition_id sp.
#[local] Abbreviation ok := (undisturbed turn pid d s0).

Lemma ok_refl : ok s0.
Proof. constructor; [intros _; apply Htrap|done|by left|done]. Qed.
(** The state components other than the runtime, the memory and the tables. *)
Lemma ok_other s1 s2 : ok s1 → sm_world s2 = sm_world s1 → g_spm_sp s2 = g_spm_sp s1 → ok s2.
Proof. intros [] Hw Hg. constructor; rewrite ?Hw, ?Hg; done. Qed.
Lemma ok_memory s1 mem : ok s1 → (∀ x, mem x = memory (sm_world s1) x ∨ may_write d x) →
  ok (s1 <| sm_world := (sm_world s1) <| memory := mem |> |>).
Proof.
  intros [Hwf Hst Hm Ht] Hmem. constructor; simpl; [done| |..|done].
  - intros c Hc. by destruct (Hst c Hc).
  - intros x. destruct (Hmem x) as [->|?]; [apply Hm|by right].
Qed.
Lemma ok_slot s1 : ok s1 → ∃ sp1, g_spm_sp s1 !! i = Some sp1 ∧ sp_table sp1 = d.
Proof.
  intros [_ _ _ Ht]. pose proof (tr_slot _ _ _ _ _ Htrap) as Hi. apply (f_equal (lookup i)) in Ht.
  rewrite !list_lookup_fmap, Hi in Ht. destruct (g_spm_sp s1 !! i) as [sp1|]; [|done]. injection Ht as ?. eauto.
Qed.

Lemma wp_mod_slot {R} s1 f E (Q : unit → spm → Prop) :
  ok s1 → (∀ sp1, sp_table (f sp1) = sp_table sp1) →
  (∀ sp1, ok (s1 <| g_spm_sp := <[i := f sp1]> (g_spm_sp s1) |>) → Q tt (s1 <| g_spm_sp := <[i := f sp1]> (g_spm_sp s1) |>)) →
  wp (R := R) (mod_sp i f) E Q s1.
Proof.
  intros Hok Hf HQ. destruct (ok_slot s1 Hok) as (sp1 & Hi & _). apply wp_bind, wp_bind, wp_gets. eapply wp_defined; [done|].
  apply wp_modify, HQ. destruct Hok as [Hwf Hst Hm Ht]. constructor; simpl; [done..|]. rewrite <-Ht.
  rewrite list_fmap_insert, Hf. apply list_insert_id. by rewrite list_lookup_fmap, Hi.
Qed.
Lemma wp_store {R} s1 q n bytes E (Q : unit → spm → Prop) :
  ok s1 → wt_secure_domain_contains d q n true = true → Z.of_nat (length bytes) ≤ n →
  (∀ s2, ok s2 → Q tt s2) → wp (R := R) (store_bytes q bytes) E Q s1.
Proof.
  intros Hok Hc Hn HQ. apply wp_modify, HQ, ok_memory; [done|]. intros x.
  destruct (mem_write_frame (memory (sm_world s1)) q bytes x) as [?|Hx]; [by left|right].
  eapply contains_write; [apply Htrap|done|lia].
Qed.
Lemma wp_platform {R A} s1 (f : Z → Z * A) E (Q : A → spm → Prop) :
  ok s1 → (∀ s2, ok s2 → sm_sched s2 = sm_sched s1 → Q (f (sm_platform s1)).2 s2) →
  wp (R := R) (CState.call (in_platform f)) E Q s1.
Proof.
  intros Hok HQ. apply wp_call. unfold fwp, in_platform. destruct (f (sm_platform s1)) as [p1 r]. apply HQ; [|done].
  by eapply ok_other.
Qed.

(** The partition's coroutine when the scheduler represents [a1]. *)
Lemma running_co σ a1 : base_rep σ a1 → a_current a1 = p → (∃ k1 k, a_co a1 p = Some k1 ∧ a_co a p = Some k ∧
    a_base k1 = a_base k ∧ a_size k1 = a_size k) →
  g_wt_co_current σ = Some p ∧ ∃ c, co_at p σ = Some c ∧
    ∀ x, co_stack_base c ≤ x < co_stack_base c + co_stack_size c → may_write d x.
Proof.
  intros Hb Hc (k1 & k & Hk1 & Hk & Eb & Es). split; [rewrite (br_current _ _ Hb); by rewrite Hc|].
  destruct (live_slot σ a1 p k1 Hb Hk1) as (c & Hco & [R1 R2 R3 R4 R5] & _). exists c. split; [done|].
  intros x Hx. apply (tr_stack _ _ _ _ _ Htrap k); [done|]. rewrite R3, R4, Eb, Es in Hx. done.
Qed.

(** Suspending the partition saves its frame on its own stack. *)
Lemma wp_block {R} s1 E (Q : unit → spm → Prop) :
  ok s1 →
  (g_wt_co_current (sm_sched s1) = Some p ∧ ∃ c, co_at p (sm_sched s1) = Some c ∧
    ∀ x, co_stack_base c ≤ x < co_stack_base c + co_stack_size c → may_write d x) →
  (∀ s2, ok s2 → Q tt s2) → wp (R := R) (CState.call (in_sched wt_co_block)) E Q s1.
Proof.
  intros Hok (Hcur & c & Hc & Hstack) HQ. pose proof (tr_thread _ _ _ _ _ Htrap) as Hne.
  eapply (wp_sched _ _ (λ _ σ, ∀ x, sc_memory σ x = memory (sm_world s1) x ∨ may_write d x)); cycle 1.
  { intros [] σ Hσ. apply HQ. eapply ok_other; [by eapply (ok_memory s1 (sc_memory σ))|done..]. }
  assert (co_at p (sched_of s1) = Some c) as Hc1 by by destruct p.
  apply fwp_fn, wp_bind, wp_gets. change (g_wt_co_current (sched_of s1)) with (g_wt_co_current (sm_sched s1)). rewrite Hcur.
  apply wp_bind. eapply wp_defined; [done|]. apply wp_bind, wp_when; rewrite bool_decide_false by done; [done|]. intros _.
  apply wp_bind. eapply wp_mod_co; [exact Hc1|]. apply wp_call.
  eapply fwp_mono; [eapply (leave_ok _ p); [by destruct p|done|by eapply co_at_put_eq]|].
  intros [] σ (σ0 & (c' & spv & er & mem & Hc' & -> & Hmem) & ->) x. simpl.
  erewrite co_at_put_eq in Hc' by done. injection Hc' as <-. simpl in Hmem.
  destruct (decide (co_stack_base c + 4 ≤ x < co_stack_base c + co_stack_size c)) as [Hin|Hout].
  - right. apply Hstack. lia.
  - left. rewrite (Hmem x Hout). by destruct p.
Qed.

(** Up to here nothing happened but bookkeeping. *)
Record started (s1 : spm) : Prop := {
  sd_ok : ok s1;
  sd_sched : sched_of s1 = sched_of s0;
  sd_world : sm_world s1 = sm_world s0;
}.

Lemma started_co s1 : sched_of s1 = sched_of s0 →
  g_wt_co_current (sm_sched s1) = Some p ∧ ∃ c, co_at p (sm_sched s1) = Some c ∧
    ∀ x, co_stack_base c ≤ x < co_stack_base c + co_stack_size c → may_write d x.
Proof.
  intros Hs. pose proof (tr_rep _ _ _ _ _ Htrap) as Hr. destruct (tr_lock _ _ _ _ _ Htrap) as [_ [[k Hk] _]].
  destruct (running_co (sched_of s0) a (rp_base _ _ Hr) (tr_current _ _ _ _ _ Htrap)) as (Hcur & c & Hc & Hst); [eauto 10|].
  rewrite <-Hs in Hcur, Hc. split; [done|]. exists c. split; [|done]. by destruct p.
Qed.

Lemma wp_current {R} s1 E (Q : option co_ref → spm → Prop) :
  started s1 → (∀ s2, s2 = s1 <| sm_sched := sched_of s1 |> → started s2 → Q (Some p) s2) → wp (R := R) current E Q s1.
Proof.
  intros [Hok Hs Hw] HQ. destruct (started_co s1 Hs) as [Hcur _].
  eapply (wp_sched _ _ (λ r σ, σ = sched_of s1 ∧ r = Some p)).
  - apply fwp_fn, wp_bind, wp_gets, wp_ret. split; [done|].
    change (g_wt_co_current (sched_of s1)) with (g_wt_co_current (sm_sched s1)). rewrite Hcur, decide_False; [done|].
    intros [= Hp]. by apply (tr_thread _ _ _ _ _ Htrap).
  - intros r σ [-> ->]. assert (s1 <| sm_sched := sched_of s1 |> <| sm_world := (sm_world s1)
      <| memory := sc_memory (sched_of s1) |> |> = s1 <| sm_sched := sched_of s1 |>) as ->.
    { destruct s1 as [w1 ? ? ? ? ? ?]. by destruct w1. }
    apply HQ; [done|]. split; [by eapply ok_other|done|done].
Qed.

Section requests.
Context (call : wt_spm_call).
Hypothesis Hty : call_typed call.
Let Q : Z * wt_spm_call → spm → Prop := λ _ s', ok s'.

Lemma fwu_ok s1 : ok s1 → wp (fwu_backend sp call) Q Q s1.
Proof.
  intros Hok. assert (∀ s2, ok s2 → wp (mret (-1, call) : prog spm (Z * wt_spm_call) _) Q Q s2) as Hfail
    by (intros; by apply wp_ret).
  assert (∀ f s2, ok s2 → wp (ret ← CState.call (in_platform f); mret (ret, call) : prog spm (Z * wt_spm_call) _) Q Q s2) as Hp.
  { intros f s2 Hs2. apply wp_bind, wp_platform; [done|]. intros s3 Hs3 _. by apply wp_ret. }
  unfold fwu_backend. cbv zeta. repeat (apply wp_if; intros _).
  - destruct fwu_begin; simpl; eauto.
  - destruct fwu_write; [|eauto]. apply wp_if; intros _; [|eauto]. apply wp_bind, wp_gets. eauto.
  - destruct fwu_arm; simpl; eauto.
  - destruct fwu_disarm; simpl; eauto.
  - apply wp_bind, wp_platform; [done|]. intros s2 Hs2 _. eauto.
  - apply wp_bind, wp_platform; [done|]. intros s2 Hs2 _. destruct ((hsm_rollback_image_floor (sm_platform s1)).2) as [r fl]. apply wp_if; intros _; [by apply wp_ret|eauto].
  - destruct fwu_verify as [f|]; simpl; [|eauto]. apply wp_bind, wp_platform; [done|]. intros s2 Hs2 _.
    destruct ((f (sc_num_bytes call) (sm_platform s1)).2) as [r v]. by apply wp_ret.
  - apply wp_bind, wp_gets. by apply wp_ret.
  - eauto.
Qed.

Lemma flash_ok s1 : ok s1 → wp (keystore_flash sp call) Q (λ _ s', ok s') s1.
Proof.
  intros Hok. pose proof (ct_bytes _ Hty) as Hn.
  assert (∀ f s2, ok s2 → wp (CState.call (in_platform f) : prog spm (Z * wt_spm_call) Z) Q (λ _ s', ok s') s2) as Hp.
  { intros f s2 Hs2. by apply wp_platform. }
  unfold keystore_flash. cbv zeta. apply wp_if; intros Hc.
  { apply andb_true_iff in Hc as [_ Hc]. apply wp_bind, wp_platform; [done|]. intros s2 Hs2 _.
    pose proof (flash_read_length (sc_vec_idx call) (sc_num_bytes call) (sm_platform s1) Hn) as Hl.
    destruct ((flash_read (sc_vec_idx call) (sc_num_bytes call) (sm_platform s1)).2) as [r bytes].
    apply wp_bind. eapply wp_store; [done..|]. intros s3 Hs3. by apply wp_ret. }
  repeat (apply wp_if; intros _); first [by apply Hp | apply wp_bind, wp_gets; by apply Hp | exact Hok].
Qed.

Lemma entropy_ok s1 : ok s1 → wp (keystore_entropy sp call) Q (λ _ s', ok s') s1.
Proof.
  intros Hok. pose proof (ct_bytes _ Hty) as Hn. unfold keystore_entropy. apply wp_if; intros Hc; [|by apply wp_ret].
  apply wp_bind, wp_platform; [done|]. intros s2 Hs2 _. pose proof (rng_length (sc_num_bytes call) (sm_platform s1) Hn) as Hl.
  destruct ((rng_generate_block_direct (sc_num_bytes call) (sm_platform s1)).2) as [r bytes].
  apply wp_bind. eapply wp_store; [done..|]. intros s3 Hs3. by apply wp_ret.
Qed.

Lemma lock_ok s1 : started s1 → wp (keystore_lock i call) Q (λ _ s', ok s') s1.
Proof.
  intros Hst. destruct (tr_lock _ _ _ _ _ Htrap) as [[x Hx] Hmq]. pose proof (tr_rep _ _ _ _ _ Htrap) as Hr.
  pose proof (tr_awf _ _ _ _ _ Htrap) as W. pose proof (sd_ok _ Hst) as Hok.
  unfold keystore_lock. apply wp_if; intros _; [|apply wp_if; intros _; [|by apply wp_ret]]; cycle 1.
  - eapply wp_sched.
    + rewrite (sd_sched _ Hst). eapply fframes_conj; [apply mutex_release_frame|by eapply release_refines].
    + intros r σ [_ Hm]. eapply (ok_other s1); [done| |done]. rewrite Hm, <-(sd_sched _ Hst). by destruct s1 as [[] ? ? ? ? ? ?].
  - apply wp_bind, wp_current; [done|]. intros s2 -> Hst2. apply wp_bind. eapply wp_sched.
    + rewrite (sd_sched _ Hst2). eapply fframes_conj; [apply acquire_queued_frame|by eapply acquire_queued_refines].
    + intros r σ [[Hr' _] Hm]. set (s3 := _ <| sm_world := _ |>).
      assert (ok s3) as Hok3.
      { eapply ok_other; [exact (sd_ok _ Hst2)| |done]. subst s3. rewrite Hm, <-(sd_sched _ Hst2).
        by destruct s1 as [[] ? ? ? ? ? ?]. }
      apply wp_bind, wp_if; intros _.
      * apply wp_bind. eapply wp_mod_slot; [done|done|]. intros sp1 Hok4. apply wp_block; [done| |intros; by apply wp_ret].
        simpl. eapply running_co; [apply Hr'| |].
        -- unfold a_queue_up. destruct (a_mutex a nvm_lock); [|apply Htrap]. destruct (a_holder _); [|apply Htrap].
           destruct (decide _); apply Htrap.
        -- destruct Hmq as [[k Hk] _]. exists k, k. split_and!; [|done..]. rewrite <-Hk. unfold a_queue_up.
           destruct (a_mutex a nvm_lock); [|done]. destruct (a_holder _); [|by destruct p]. destruct (decide _); by destruct p.
      * apply wp_when; intros _; [|by apply wp_ret]. eapply wp_mod_slot; [done|done|]. intros sp1 Hok4. by apply wp_ret.
Qed.
End requests.


Section held.
Context (call : wt_spm_call).
Hypotheses (Hty : call_typed call) (Hport : TableChecked pid d).
Hypothesis Hseq : turn → in_sequence (call <| sc_partition_id := pid |>) (rt (sm_world s0)).
Let Q : Z * wt_spm_call → spm → Prop := λ _ s', ok s'.

Lemma dispatch_gate_ok s1 : started s1 → wp (dispatch_gate i sp call) Q Q s1.
Proof.
  intros [Hok Hs Hw]. unfold dispatch_gate. cbv zeta. set (c := call <| sc_partition_id := sp_partition_id sp |>).
  assert (call_typed c) as Htc by (destruct Hty; by constructor).
  apply wp_bind. eapply wp_mod_slot; [done|done|]. intros sp1 Hok2. set (s2 := s1 <| g_spm_sp := _ |>) in *.
  apply wp_bind. eapply (wp_world s2).
  { change (sm_world s2) with (sm_world s1). rewrite Hw.
    by apply (gate_isolates d c (tr_regions _ _ _ _ _ Htrap) Htc (sm_world s0) Hport (tr_runtime _ _ _ _ _ Htrap)). }
  intros [status c'] w (Hwf & Hst & Hmem). set (s3 := s2 <| sm_world := w |>).
  assert (ok s3) as Hok3 by (destruct Hok2; constructor; [intros Ht; apply Hwf, Hseq, Ht|done..]).
  apply wp_bind. assert (∀ s4 Q', ok s4 → sm_sched s4 = sm_sched s1 → (∀ s5, ok s5 → sm_sched s5 = sm_sched s1 → Q' tt s5) →
    ∀ b f, wp (R := Z * wt_spm_call) (when b (CState.call (in_platform f))) Q Q' s4) as Hplat.
  { intros s4 Q' Hok4 Hs4 HQ' b f. apply wp_when; intros _; [|by apply HQ']. apply wp_platform; [done|].
    intros s5 Hok5 Hs5. destruct ((f (sm_platform s4)).2). apply HQ'; [done|congruence]. }
  apply Hplat; [done|done|]. intros s4 Hok4 Hs4. apply wp_bind, Hplat; [done|done|]. intros s5 Hok5 Hs5.
  apply wp_bind, wp_when; intros _; [|by apply wp_ret]. apply wp_bind. eapply wp_mod_slot; [done| |].
  { intros spx. unfold record_wait. by destruct (bool_decide _). }
  intros sp2 Hok6. apply wp_block; [done| |intros; by apply wp_ret]. simpl. rewrite Hs5. by apply started_co.
Qed.

Lemma dispatch_keystore_ok op s1 : started s1 → wp (dispatch_keystore i sp op call) Q Q s1.
Proof.
  intros Hst. pose proof (sd_ok _ Hst) as Hok. unfold dispatch_keystore. apply wp_bind, wp_when; intros _.
  { apply wp_bind, wp_modify, wp_early. by eapply ok_other. }
  assert (∀ (m : prog spm (Z * wt_spm_call) Z), wp m Q (λ _ s', ok s') s1 →
    wp (ret ← m; mod_trace (keystore_trace op call ret);; mret (WT_FFM_SUCCESS, call <| sc_ret_int := ret |>)) Q Q s1) as Hm.
  { intros m Hm. apply wp_bind. eapply wp_mono; [exact Hm|done|]. intros ret s2 Hok2. apply wp_bind, wp_modify, wp_ret.
    eapply (ok_other s2); done. }
  destruct op; apply Hm; first [by apply flash_ok | by apply entropy_ok | by apply lock_ok].
Qed.

Lemma dispatch_measure_ok s1 : ok s1 → wp (dispatch_measure sp call) Q Q s1.
Proof.
  intros Hok. unfold dispatch_measure. apply wp_bind, wp_when; intros _; [by apply wp_early|]. apply wp_bind, wp_gets.
  cbv zeta. apply wp_if; intros _; [by apply wp_ret|].
  destruct (guest_measurement_get _ _) as [bytes|] eqn:Hg; [|by apply wp_ret]. apply wp_if; intros Hc; [|by apply wp_ret].
  apply andb_true_iff in Hc as [Hn%Z.eqb_eq Hc]. apply wp_bind. eapply wp_store; [done|exact Hc| |intros; by apply wp_ret].
  rewrite (measurement_length _ _ _ Hg). simpl in *. lia.
Qed.
End held.

Lemma dispatch_held_ok call s1 :
  call_typed call → TableChecked pid d → (turn → in_sequence (call <| sc_partition_id := pid |>) (rt (sm_world s0))) →
  started s1 → g_spm_sp s1 = g_spm_sp s0 → fwp (wt_spm_dispatch_held i call) (λ _ s', ok s') s1.
Proof.
  intros Hty Hport Hseq Hst Hg. apply fwp_fn, wp_bind, wp_gets, wp_bind, wp_bind, wp_gets.
  eapply wp_defined; [simpl; rewrite Hg; apply Htrap|]. cbv zeta. simpl.
  set (c := call <| sc_ret_tick := _ |>). assert (call_typed c) as Htc by (destruct Hty; by constructor).
  destruct (sc_op call) as [[]|]; first [by apply dispatch_gate_ok | by apply dispatch_keystore_ok
    | by apply dispatch_measure_ok, Hst | idtac].
  unfold dispatch_fwu. apply wp_bind, wp_when; intros _; [apply wp_early, Hst|]. apply wp_bind.
  eapply wp_mono; [apply fwu_ok, Hst|done|]. intros [ret c'] s2 Hok2. by apply wp_ret.
Qed.

(** The block the partition's trap refers to. *)
Definition block_at (s : spm) (addr : Z) : wt_spm_call :=
  call_of_bytes (mem_read (memory (sm_world s)) addr sizeof_call).

Lemma dispatch_call_ok addr :
  TableChecked pid d → (turn → in_sequence (block_at s0 addr <| sc_partition_id := pid |>) (rt (sm_world s0))) →
  fwp (wt_spm_dispatch_call addr) (λ _ s', ok s') s0.
Proof.
  intros Hport Hseq. apply fwp_fn, wp_bind, wp_call, fwp_fn, wp_bind.
  apply wp_current; [split; [apply ok_refl|done|done]|]. intros s1 -> Hst. apply wp_bind, wp_gets, wp_ret.
  simpl. rewrite (tr_find _ _ _ _ _ Htrap). apply wp_bind, wp_gets. cbv zeta. simpl. rewrite (tr_bound _ _ _ _ _ Htrap). simpl.
  apply wp_bind, wp_bind, wp_gets. eapply wp_defined; [simpl; apply Htrap|]. apply wp_if; intros Hc.
  { apply wp_bind, wp_modify, wp_ret. eapply ok_other; [apply Hst|done|done]. }
  apply negb_false_iff in Hc. apply wp_bind, wp_gets, wp_bind, wp_call.
  eapply fwp_mono; [apply dispatch_held_ok; [apply call_decodes|done|exact Hseq|done|done]|]. intros [status held] s2 Hok2.
  apply wp_bind. eapply wp_store; [done|exact Hc|by rewrite call_length|]. intros s3 Hok3. by apply wp_ret.
Qed.
End trap.

(** C4: A trap acts for the trapping partition only. Whatever the partition's
    memory and call block hold, on a well-formed runtime the dispatcher is
    defined, leaves the live requests of every other client and the region
    tables as they were, and changes no byte outside the partition's writable
    regions, through the gate, the platform services, the block copied back or
    the frame saved when the partition is suspended. The runtime is
    well-formed afterwards if the block does not start a call or close while
    an earlier request of the partition is unanswered ([in_sequence]), which
    the dispatcher does not enforce. *)
Theorem dispatch_isolates `{PortOps} `{CoArch, !CoArchSpec} `{SpmPlatform, !PlatformOk} s i sp p a addr :
  trapped s i sp p a → TableChecked (sp_partition_id sp) (sp_table sp) →
  ∃ s' status, wt_spm_dispatch_call addr s = Some (s', status) ∧
    undisturbed (in_sequence (block_at s addr <| sc_partition_id := sp_partition_id sp |>) (rt (sm_world s)))
      (sp_partition_id sp) (sp_table sp) s s'.
Proof.
  intros Htrap Hport. pose proof (dispatch_call_ok s i sp p a _ Htrap addr Hport id) as (s' & r & E & Hok)%fwp_run.
  by exists s', r.
Qed.

Module DispatchExample.
Import FfmExample GateExample.

(** A platform whose flash is blank; the block is the storage partition's
    close request under a forged identity. *)
#[local] Instance platform : SpmPlatform := {|
  PARTITION_VAULT_ID := 3; PARTITION_HSM_ID := 2; PARTITION_FWU_ID := 4; PARTITION_ATTEST_ID := 5; nvm_lock := 0;
  secure_irq_enable := λ _ p, p; sp_redirect_to_panic_trap := λ p, p; sp_stack_pointer := λ p, p;
  system_reset := λ p, p; fwu_begin := None; fwu_write := None; fwu_arm := None; fwu_disarm := None;
  fwu_verify := None; hsm_rollback_image_floor := λ p, (p, (0, 0)); hsm_active_image_version := λ _, 1;
  flash_read := λ _ n p, (p, (0, replicate (Z.to_nat n) 0xFF)); flash_program := λ _ _ p, (p, 0);
  flash_erase := λ _ _ p, (p, 0); flash_verify := λ _ _ p, (p, 0); flash_blankcheck := λ _ _ p, (p, 0);
  flash_cleanup := λ p, (p, 0); rng_generate_block_direct := λ n p, (p, (0, replicate (Z.to_nat n) 4));
  guest_measurement_count := λ _, 0; guest_measurement_get := λ _ _, None; sizeof_measurement := 64;
  sizeof_call := 192; call_of_bytes := λ _, closing <| sc_partition_id := 77 |>; bytes_of_call := λ _, zeros 192;
|}.
#[local] Instance platform_ok : PlatformOk.
Proof.
  constructor; simpl.
  - intros off n p Hn. rewrite length_replicate. lia.
  - intros n p Hn. rewrite length_replicate. lia.
  - done.
  - done.
  - intros _. constructor; simpl; (lia || constructor).
Qed.

Definition table0 : wt_secure_domain :=
  {| sd_domain_id := 1; sd_regions := [band 0x30000000]; sd_stack_base := 0x30000000; sd_stack_size := 0x1000 |}.
Definition storage_slot : wt_spm_sp :=
  {| sp_co := Some (CoSlot 0); sp_table := table0; sp_partition_id := 1; sp_partition_index := 0; sp_wait_msg := None;
     sp_wait_mask := 0; sp_wait_kind := WT_SPM_WAIT_NONE; sp_in_use := true; sp_entry := 0x0C002001; sp_restore := None;
     sp_arg := 1; sp_scrub_base := 0x30000000; sp_scrub_size := 0x1000; sp_scrub2_base := 0; sp_scrub2_size := 0;
     sp_restart := {| rs_count := 0; rs_tick := 0 |}; sp_fault_pending := false |}.
Definition running_on (w : world) (c : sched) : spm :=
  {| sm_world := w <| memory := sc_memory c |>; sm_sched := c; sm_bound := true; g_spm_sp := [storage_slot]; sm_ticks := 7;
     sm_platform := 0;
     sm_trace := {| g_wt_ks_reject_pid := 0; g_wt_ks_reject_count := 0; g_wt_ks_last_flash := 0;
                    g_wt_ks_last_flash_off := 0; g_wt_ks_flash_ops := 0; g_wt_ks_last_lock := 0;
                    g_wt_ks_dom_reject := (0, 0, 0, 0); g_wt_svc_entry_rej := (0, 0, 0, 0) |};
     g_spm_hsm_partition_id := -1; sm_failed := false |}.
#[local] Instance dispatch_ports : PortOps := {
  check_read _ := wt_ffm_boot_check_read [storage_slot] None;
  check_write _ := wt_ffm_boot_check_write [storage_slot] None;
  port_dispatch := serve;
  call_dispatch _ _ := serve;
}.

Lemma running_trapped w c a k :
  wf (rt w) → rep c a → awf a → a_current a = CoSlot 0 → is_Some (a_mutex a nvm_lock) → may_queue a nvm_lock (CoSlot 0) →
  a_co a (CoSlot 0) = Some k → 0x30000000 ≤ a_base k → a_base k + a_size k ≤ 0x30001000 →
  trapped (running_on w c) 0 storage_slot (CoSlot 0) a.
Proof.
  intros Hwf Hr W Hc Hm Hq Hk Hlo Hhi. constructor; try done.
  - by destruct c.
  - intros k1 x Hk1 Hx. assert (k1 = k) as -> by congruence. exists (band 0x30000000). split_and!; [by left|done|].
    apply reaches_straight; [by split|by right|simpl in *; lia].
  - by repeat constructor.
Qed.
Definition running : spm := running_on call_answered SchedProps.SchedExample.dispatched.

#[local] Existing Instances SchedProps.SchedExample.arch SchedProps.SchedExample.arch_ok.

(** The close is out of sequence: the partition's call is answered but not
    harvested. *)
Lemma dispatch_isolates_witness :
  ∃ s' status, wt_spm_dispatch_call 0x30000100 running = Some (s', status) ∧
    undisturbed (in_sequence (block_at running 0x30000100 <| sc_partition_id := 1 |>) (rt (sm_world running))) 1 table0 running s'.
Proof.
  apply (dispatch_isolates running 0 storage_slot (CoSlot 0)
    SchedProps.SchedExample.a_dispatched 0x30000100).
  - destruct SchedProps.SchedExample.dispatched_ok as [Hr W]. eapply running_trapped;
      [exact (reachable_example_wf _ call_answered_reachable)|exact Hr|exact W|reflexivity|..].
    + by eexists.
    + apply SchedProps.SchedExample.queue_alone; [by eexists|reflexivity].
    + reflexivity.
    + vm_compute; discriminate.
    + vm_compute; discriminate.
  - exact (boot_checked [storage_slot] None 1 storage_slot eq_refl eq_refl (λ _ _ _ _, eq_refl)).
Defined.
End DispatchExample.
