(* ===== verification/SpmFault.v ===== *)
(** * Recovery of faulted Secure Partitions: [src/arch/common/spm_gate_core.c]

    The cleanup steps that [wt_sp_recovery_run] sequences for a partition whose
    coroutine died (locks, pinned clients, memory, restart, escalation) and the
    loop that recovers every marked partition, with the memory scrubbing of
    the ARMv8-M port ([guest_context_armv8m.c], [start_armv8m.c]). *)

From Stdlib Require Import ZArith Lia.
From stdpp Require Import base list numbers option sets.
From S2P Require Import Prelude Buffers CState Domain Manifest Ipc FfmTypes FfmCore FfmClient FfmService SecureDomain SpmGate Coroutine Mutex Policies SpmCore.

Definition PSA_ERROR_COMMUNICATION_FAILURE : Z := -145.

(** ** Scrubbing *)

(** [while (c(x)) x = f(x);] with a bound on the number of rounds. *)
Fixpoint while_loop {A} (fuel : nat) (c : A → bool) (f : A → A) (x : A) : option A :=
  match fuel with
  | O => None
  | S fuel' => if c x then while_loop fuel' c f (f x) else Some x
  end.

(** The memory and [offset] of [wt_arch_zero_guest_memory]: bytes up to a word
    boundary, words, and the bytes that remain. *)
Definition zero_memory (base size : Z) (mem : Z → Z) : option (Z → Z) :=
  let byte := λ '(m, o), (mem_write m (base + o) [0], o + 1) in
  let word := λ '(m, o), (store32 m (base + o) 0, o + 4) in
  x ← while_loop 4 (λ '(_, o), (o <? size) && negb ((base + o) mod 4 =? 0)) byte (mem, 0);
  x ← while_loop (S (Z.to_nat size)) (λ '(_, o), 4 <=? size - o) word x;
  x ← while_loop 4 (λ '(_, o), o <? size) byte x;
  Some (fst x).

(** One entry of [g_wt_bands], with addresses set by the linker. *)
Record wt_band_image := {
  bi_load : Z;
  bi_data : Z;
  bi_data_end : Z;
  bi_bss : Z;
  bi_end : Z;
}.

Definition wt_band_load (band : wt_band_image) (mem : Z → Z) : option (Z → Z) :=
  x ← while_loop (S (Z.to_nat (bi_data_end band - bi_data band))) (λ '(_, dst, _), dst <? bi_data_end band)
        (λ '(m, dst, src), (store32 m dst (load32 m src), dst + 4, src + 4)) (mem, bi_data band, bi_load band);
  y ← while_loop (S (Z.to_nat (bi_end band - bi_bss band))) (λ '(_, dst), dst <? bi_end band)
        (λ '(m, dst), (store32 m dst 0, dst + 4)) (fst (fst x), bi_bss band);
  Some (fst y).

(** ** The platform

    Hooks of the services change their own data bands, which are memory. The
    attestation hook is [None] when the build has no attestation service. *)
Class FaultPlatform := {
  nvm_client_partition_vault_restarted : Z → (Z → Z) → Z * (Z → Z);
  initial_attest_hsm_restarted : option (Z → (Z → Z) → Z * (Z → Z));
  restore_call : Z → Z → Z → (Z → Z) → Z * (Z → Z) * Z;   (** the function, the partition *)
  arch_secure_irq_disable : Z → Z → Z;
  arch_secure_irq_claim : Z → Z → Z * Z;
  arch_assert_privileged_thread : Z → Z;
  virtual_systick_reset : Z → Z → Z;
  WT_GUEST0_RAM_BASE : Z;
  WT_GUEST1_RAM_BASE : Z;
  WT_GUEST_RAM_SIZE : Z;
  g_wt_bands : list wt_band_image;
}.

Section fault.
Context `{PortOps} `{CoArch} `{SpmPlatform} `{FaultPlatform}.

Definition in_services {A} (f : Z → (Z → Z) → Z * (Z → Z) * A) : func spm A := λ s,
  let '(p, mem, a) := f (sm_platform s) (memory (sm_world s)) in
  Some (s <| sm_platform := p |> <| sm_world := (sm_world s) <| memory := mem |> |>, a).
Definition hook_of (f : Z → (Z → Z) → Z * (Z → Z)) : func spm unit := in_services (λ p mem, (f p mem, tt)).
Definition put_memory {R} (mem : Z → Z) : prog spm R unit :=
  modify (λ s, s <| sm_world := (sm_world s) <| memory := mem |> |>).
Definition platform_call (f : Z → Z) : func spm unit := in_platform (λ p, (f p, tt)).

Definition wt_arch_zero_guest_memory (base size : Z) : func spm unit := fn (
  s ← gets id;
  mem ← defined (zero_memory base size (memory (sm_world s)));
  put_memory mem;;
  if (base =? WT_GUEST0_RAM_BASE) && (WT_GUEST_RAM_SIZE <=? size)
  then CState.call (platform_call (virtual_systick_reset 0)) else
  when ((base =? WT_GUEST1_RAM_BASE) && (WT_GUEST_RAM_SIZE <=? size))
    (CState.call (platform_call (virtual_systick_reset 1)))).

Definition wt_arch_sp_band_reset (base size : Z) : func spm unit := fn (
  CState.call (wt_arch_zero_guest_memory base size);;
  for_each g_wt_bands (λ band,
    when (bi_data band =? base)
      (s ← gets id; mem ← defined (wt_band_load band (memory (sm_world s))); put_memory mem))).

(** ** The cleanup steps *)

Definition wt_spm_domain_for (s : spm) (partition_id : Z) : option wt_domain_descriptor :=
  if negb (sm_bound s) then None else
  manifest ← r_manifest (rt (sm_world s));
  List.find (λ d, d_id d =? u32 partition_id) (items (sm_domains manifest)).

Definition wt_spm_fault_release (i : nat) : func spm unit := fn (
  slot ← get_sp i;
  CState.call (in_sched (wt_hsm_release_locks nvm_lock (sp_co slot)));;
  when (sp_partition_id slot =? PARTITION_VAULT_ID) (CState.call (hook_of nvm_client_partition_vault_restarted));;
  s ← gets id;
  match initial_attest_hsm_restarted with
  | Some f => when (sp_partition_id slot =? g_spm_hsm_partition_id s) (CState.call (hook_of f))
  | None => mret tt
  end).

Definition wt_spm_fault_messages (i : nat) : func spm unit := fn (
  slot ← get_sp i;
  CState.call (in_world (wt_ffm_partition_restarted (sp_partition_id slot) PSA_ERROR_COMMUNICATION_FAILURE));;
  s ← gets id;
  match wt_spm_domain_for s (sp_partition_id slot) with
  | None => mret tt
  | Some domain =>
    for_each (items (d_interrupt_resources domain)) (λ r,
      CState.call (platform_call (arch_secure_irq_disable (ir_interrupt r))))
  end).

Definition wt_spm_fault_scrub (i : nat) : func spm unit := fn (
  slot ← get_sp i;
  CState.call (wt_arch_zero_guest_memory (sp_scrub_base slot) (sp_scrub_size slot));;
  when (negb (sp_scrub2_size slot =? 0))
    (CState.call (wt_arch_sp_band_reset (sp_scrub2_base slot) (sp_scrub2_size slot)))).

Definition wt_spm_claim_irqs (partition_index : nat) : func spm Z := fn (
  s ← gets id;
  let runtime := rt (sm_world s) in
  when (negb (sm_bound s) || (r_partition_count runtime <=? partition_index)%nat) (early (-1));;
  p ← defined (r_partitions runtime !! partition_index);
  match p_manifest p with
  | None => mret (-1)
  | Some manifest =>
    for_each (items (pm_interrupts manifest)) (λ r,
      ret ← CState.call (in_platform (arch_secure_irq_claim (mi_interrupt r)));
      when (negb (ret =? 0)) (early (-1)));;
    mret 0
  end).

Definition wt_spm_fault_restart (i : nat) : func spm Z := fn (
  slot ← get_sp i;
  ret ← CState.call (wt_spm_claim_irqs (sp_partition_index slot));
  when (negb (ret =? 0)) (early (-1));;
  match sp_restore slot with
  | None => mret tt
  | Some f =>
    ret ← CState.call (in_services (restore_call f (sp_partition_id slot)));
    when (negb (ret =? 0)) (early (-1))
  end;;
  ret ← CState.call (in_sched (wt_co_reinit (sp_co slot) (sp_entry slot) (sp_arg slot)));
  when (negb (ret =? 0)) (early (-1));;
  mod_sp i (λ sp, sp <| sp_wait_kind := WT_SPM_WAIT_NONE |>);;
  mret 0).

(** [wt_platform_all_guests_faulted] does not return: [sm_failed] records the
    call, and the loop below does nothing once it is set. *)
Definition wt_spm_fault_escalate (action : Z) : func spm unit := fn (
  modify (λ s, s <| sm_failed := true |>)).

Definition g_spm_fault_ops (i : nat) : wt_sp_recovery_ops spm := {|
  ro_release_locks := Some (wt_spm_fault_release i);
  ro_fail_messages := Some (wt_spm_fault_messages i);
  ro_scrub_domain := Some (wt_spm_fault_scrub i);
  ro_restart := Some (wt_spm_fault_restart i);
  ro_escalate := Some wt_spm_fault_escalate;
|}.

(** One round of the loop of [wt_spm_recover_faulted]. *)
Definition recover_slot (ticks : Z) (i : nat) : prog spm unit unit :=
  slot ← get_sp i;
  if negb (sp_in_use slot) || negb (sp_fault_pending slot) then mret tt else
  mod_sp i (λ sp, sp <| sp_fault_pending := false |>);;
  s ← gets id;
  match wt_spm_domain_for s (sp_partition_id slot) with
  | None => mret tt
  | Some domain =>
    let policy := d_restart_policy domain in
    '(_, st) ← CState.call (wt_sp_recovery_run (Some (g_spm_fault_ops i)) (rp_action policy) (rp_restart_limit policy)
                              (rp_restart_window_ticks policy) ticks (Some (sp_restart slot)));
    mod_sp i (λ sp, sp <| sp_restart := default (sp_restart slot) st |>)
  end.

Definition wt_spm_recover_faulted : func spm unit := fn (
  CState.call (platform_call arch_assert_privileged_thread);;
  s ← gets id;
  for_each (seq 0 (length (g_spm_sp s))) (λ i, t ← gets sm_failed; when (negb t) (recover_slot (sm_ticks s) i))).

Definition wt_spm_set_hsm_partition (partition_id : Z) : func spm unit := fn (
  modify (λ s, s <| g_spm_hsm_partition_id := partition_id |>)).
End fault.
