(* ===== verification/SpmRecover.v ===== *)
(** * Recovery isolates the faulted partition

    The cleanup of a dead partition frees its locks, completes the requests its
    clients wait for, scrubs and restarts it or escalates. It leaves every
    other client's requests, every other slot and all memory outside the
    partition's own stack, its own data band and the data of the services'
    restart hooks as they are; the partition restarts on a zeroed stack with
    its data band reset to its image. *)

From Stdlib Require Import ZArith Lia.
From stdpp Require Import base list numbers option sets.
From S2P Require Import Prelude Buffers CState Frame Domain Manifest Ipc FfmTypes FfmCore FfmClient FfmService FfmWf FfmSlots FfmTerm FfmSteps FfmFrame FfmExample SecureDomain SpmGate Coroutine Mutex SchedRep SchedSpec SchedRun SchedOps SchedLife SchedMutex SchedSys SchedProps Policies SpmCore SpmDispatch SpmFault.

(** ** Scrubbing *)

(** A loop that makes progress ends with its invariant and its exit condition. *)
Lemma while_loop_inv {A} (I : A → Prop) (meas : A → nat) fuel c f x :
  I x → (meas x < fuel)%nat → (∀ y, I y → c y = true → I (f y) ∧ (meas (f y) < meas y)%nat) →
  ∃ y, while_loop fuel c f x = Some y ∧ I y ∧ c y = false.
Proof.
  revert x. induction fuel as [|fuel IH]; intros x Hx Hm Hstep; [lia|]. simpl.
  destruct (c x) eqn:E; [|eauto]. destruct (Hstep x Hx E). apply IH; [done|lia|done].
Qed.

(** The first [o] bytes of the range are zero, the rest is as it was. *)
Definition zeroed (base : Z) (mem m : Z → Z) (o : Z) : Prop :=
  0 ≤ o ∧ ∀ x, m x = if decide (base ≤ x < base + o) then 0 else mem x.
Lemma zeroed_byte base mem m o : zeroed base mem m o → zeroed base mem (mem_write m (base + o) [0]) (o + 1).
Proof.
  intros [Ho Hm]. split; [lia|]. intros x. unfold mem_write. simpl length.
  destruct (Z.leb_spec (base + o) x), (Z.ltb_spec x (base + o + Z.of_nat 1)); simpl; rewrite ?Hm;
    repeat case_decide; try lia; try done.
  by replace (x - (base + o)) with 0 by lia.
Qed.
Lemma zeroed_word base mem m o : zeroed base mem m o → zeroed base mem (store32 m (base + o) 0) (o + 4).
Proof.
  intros [Ho Hm]. split; [lia|]. intros x. destruct (decide (base + o ≤ x < base + o + 4)) as [Hx|Hx].
  - rewrite decide_True by lia. replace x with (base + o + (x - (base + o))) by lia. rewrite store32_at by lia.
    assert (x - (base + o) = 0 ∨ x - (base + o) = 1 ∨ x - (base + o) = 2 ∨ x - (base + o) = 3) as Hc by lia.
    by destruct Hc as [-> | [-> | [-> | ->]]].
  - rewrite store32_other by lia. rewrite Hm. repeat case_decide; try lia; done.
Qed.

Lemma zero_memory_spec base size mem : 0 ≤ size →
  ∃ mem', zero_memory base size mem = Some mem' ∧ zeroed base mem mem' size.
Proof.
  intros Hs. unfold zero_memory. cbv zeta. set (I := λ x : (Z → Z) * Z, x.2 ≤ size ∧ zeroed base mem x.1 x.2).
  assert (I (mem, 0)) as H0. { split; [done|]. split; [done|]. intros x. simpl. rewrite decide_False by lia. done. }
  match goal with |- context [while_loop 4 ?c ?f (mem, 0)] =>
    destruct (while_loop_inv I (λ x, Z.to_nat ((- (base + x.2)) mod 4)) 4 c f (mem, 0)) as (y & E1 & H1 & _) end.
  - done.
  - pose proof (Z.mod_pos_bound (- (base + 0)) 4). simpl. lia.
  - intros [m o] [Ho Hz] E. simpl in *. apply andb_true_iff in E as [E1%Z.ltb_lt E2%negb_true_iff%Z.eqb_neq].
    split; [split; simpl; [lia|by apply zeroed_byte]|]. Z.div_mod_to_equations. lia.
  - rewrite E1. cbn [mbind option_bind]. clear E1 H0.
    match goal with |- context [while_loop (S _) ?c ?f y] =>
      destruct (while_loop_inv I (λ x, Z.to_nat (size - x.2)) (S (Z.to_nat size)) c f y) as (z & E2 & H2 & Hx2) end.
    + done.
    + destruct H1 as [? [? _]]. lia.
    + intros [m o] [Ho Hz] E. simpl in *. apply Z.leb_le in E. split; [split; simpl; [lia|by apply zeroed_word]|]. lia.
    + rewrite E2. cbn [mbind option_bind]. destruct z as [m o]. simpl in Hx2. apply Z.leb_gt in Hx2.
      match goal with |- context [while_loop 4 ?c ?f (m, o)] =>
        destruct (while_loop_inv I (λ x, Z.to_nat (size - x.2)) 4 c f (m, o)) as ([m' o'] & E3 & [Ho' H3] & Hx3) end.
      * done.
      * simpl in *. lia.
      * intros [m1 o1] [Ho Hz] E. simpl in *. apply Z.ltb_lt in E. split; [split; simpl; [lia|by apply zeroed_byte]|]. lia.
      * rewrite E3. cbn [mbind option_bind]. exists m'. split; [done|]. simpl in *. apply Z.ltb_ge in Hx3.
        by replace size with o' by lia.
Qed.

(** A band whose sections are words inside [lo, hi), data before bss, and
    whose load image is elsewhere. *)
Record band_inside (lo hi : Z) (b : wt_band_image) : Prop := {
  bd_data : lo ≤ bi_data b ∧ bi_data_end b ≤ hi ∧ (bi_data_end b - bi_data b) mod 4 = 0;
  bd_bss : lo ≤ bi_bss b ∧ bi_end b ≤ hi ∧ (bi_end b - bi_bss b) mod 4 = 0;
  bd_order : bi_data_end b ≤ bi_bss b;
  bd_load x : bi_load b ≤ x < bi_load b + (bi_data_end b - bi_data b) → ¬ (lo ≤ x < hi);
}.

(** Byte [o] of the words copied from [src]. *)
Definition word_byte (mem : Z → Z) (src o : Z) : Z :=
  default 0 (le32 (load32 mem (src + 4 * (o / 4))) !! Z.to_nat (o mod 4)).
Lemma word_byte_local mem mem' src n o :
  0 ≤ o < n → n mod 4 = 0 → (∀ x, src ≤ x < src + n → mem' x = mem x) → word_byte mem' src o = word_byte mem src o.
Proof.
  intros Ho Hn Hm. unfold word_byte. rewrite (load32_local mem mem'); [done|]. intros x Hx. apply Hm.
  Z.div_mod_to_equations. lia.
Qed.
Lemma store32_word mem mem0 d src q o :
  0 ≤ q → 4 * q ≤ o < 4 * q + 4 → load32 mem (src + 4 * q) = load32 mem0 (src + 4 * q) →
  store32 mem (d + 4 * q) (load32 mem (src + 4 * q)) (d + o) = word_byte mem0 src o.
Proof.
  intros Hq Ho Hl. unfold word_byte. assert (o / 4 = q) as -> by (Z.div_mod_to_equations; lia).
  assert (o mod 4 = o - 4 * q) as -> by (Z.div_mod_to_equations; lia). rewrite Hl.
  replace (d + o) with (d + 4 * q + (o - 4 * q)) by lia. apply store32_at. lia.
Qed.

(** The first [4 * q] bytes of the data section are loaded. *)
Definition loading (lo hi : Z) (b : wt_band_image) (mem : Z → Z) (x : (Z → Z) * Z * Z) : Prop :=
  ∃ q, 0 ≤ q ∧ x.1.2 = bi_data b + 4 * q ∧ x.2 = bi_load b + 4 * q ∧
    (4 * q ≤ bi_data_end b - bi_data b ∨ q = 0) ∧
    ∀ y, x.1.1 y = if decide (bi_data b ≤ y < bi_data b + 4 * q) then word_byte mem (bi_load b) (y - bi_data b) else mem y.

Lemma loading_step lo hi b mem m d sr :
  band_inside lo hi b → loading lo hi b mem (m, d, sr) → d < bi_data_end b →
  loading lo hi b mem (store32 m d (load32 m sr), d + 4, sr + 4).
Proof.
  intros [(D1 & D2 & D3) _ _ Hload] (q & Hq & Ed & Es & Hle & Hm) Hd. simpl in *. subst d sr. exists (q + 1). simpl.
  assert (4 * (q + 1) ≤ bi_data_end b - bi_data b) as Hin by (Z.div_mod_to_equations; lia).
  split_and!; [lia|lia|lia|by left|]. intros y. destruct (decide (4 * q ≤ y - bi_data b < 4 * q + 4)) as [Hy|Hy].
  - rewrite decide_True by lia. rewrite <-(store32_word m mem (bi_data b) (bi_load b) q (y - bi_data b)); [f_equal; lia|lia|lia|].
    apply load32_local. intros x Hx. rewrite Hm, decide_False; [done|]. intros Hc. apply (Hload x); lia.
  - rewrite store32_other by lia. rewrite Hm. repeat case_decide; try lia; done.
Qed.

(** The band after its load: data from the image, bss zero. *)
Definition loaded (b : wt_band_image) (mem : Z → Z) (y : Z) : Z :=
  if decide (bi_data b ≤ y < bi_data_end b) then word_byte mem (bi_load b) (y - bi_data b)
  else if decide (bi_bss b ≤ y < bi_end b) then 0 else mem y.

Lemma band_load_spec lo hi b mem : band_inside lo hi b →
  ∃ mem', wt_band_load b mem = Some mem' ∧ ∀ y, mem' y = loaded b mem y.
Proof.
  intros Hb. pose proof Hb as [(D1 & D2 & D3) (B1 & B2 & B3) Hord _]. unfold wt_band_load.
  match goal with |- context [while_loop ?n ?c ?f (mem, _, _)] =>
    destruct (while_loop_inv (loading lo hi b mem) (λ x, Z.to_nat (bi_data_end b - x.1.2)) n c f (mem, bi_data b, bi_load b))
      as ([[m d] sr] & E1 & (q & Hq & Ed & _ & Hle & Hm) & Hx1) end.
  - exists 0. simpl. split_and!; [lia|lia|lia|by right|]. intros y. by rewrite decide_False by lia.
  - simpl. lia.
  - intros [[m d] sr] Hl E. apply Z.ltb_lt in E. split; [by apply loading_step|]. simpl. lia.
  - rewrite E1. cbn [mbind option_bind]. simpl fst in *. simpl snd in *. clear E1. apply Z.ltb_ge in Hx1.
    match goal with |- context [while_loop ?n ?c ?f (m, _)] =>
      destruct (while_loop_inv (λ x : (Z → Z) * Z, (bi_bss b ≤ x.2 ∧ (x.2 ≤ bi_end b ∨ x.2 = bi_bss b)) ∧ (bi_end b - x.2) mod 4 = 0 ∧
          ∀ y, x.1 y = if decide (bi_bss b ≤ y < x.2) then 0 else m y) (λ x, Z.to_nat (bi_end b - x.2)) n c f (m, bi_bss b))
        as ([m' d'] & E2 & (Hd' & Hmod & H2) & Hx2) end.
    + split_and!; [simpl; lia|by right|done|]. intros y. simpl. by rewrite decide_False by lia.
    + simpl. lia.
    + intros [m1 d1] (Hd1 & Hmod & Hm1) E. simpl in *. apply Z.ltb_lt in E.
      split; [split_and!; [lia|left; Z.div_mod_to_equations; lia|Z.div_mod_to_equations; lia|]|lia]. intros y.
      destruct (decide (d1 ≤ y < d1 + 4)) as [Hy|Hy].
      * rewrite decide_True by lia. replace y with (d1 + (y - d1)) by lia. rewrite store32_at by lia.
        assert (y - d1 = 0 ∨ y - d1 = 1 ∨ y - d1 = 2 ∨ y - d1 = 3) as Hc by lia.
        by destruct Hc as [-> | [-> | [-> | ->]]].
      * rewrite store32_other by lia. rewrite Hm1. repeat case_decide; try lia; done.
    + rewrite E2. cbn [mbind option_bind]. simpl fst in *. simpl snd in *. apply Z.ltb_ge in Hx2. eexists. split; [done|].
      intros y. rewrite H2, Hm. unfold loaded.
      repeat case_decide; try lia; done.
Qed.

(** ** Stacks *)

Definition in_stack (k : aco) (x : Z) : Prop := a_base k ≤ x < a_base k + a_size k.
Definition stack_of (a : asched) (p : co_ref) : option (Z * Z) := (λ k, (a_base k, a_size k)) <$> a_co a p.
Definition stack_byte (a : asched) (x : Z) : Prop := ∃ p k, a_co a p = Some k ∧ in_stack k x.
Definition same_stacks (a a' : asched) : Prop := ∀ p, stack_of a' p = stack_of a p.

#[export] Instance same_stacks_preorder : PreOrder same_stacks.
Proof. split; [by intros a p|]. intros a b c H1 H2 p. by rewrite (H2 p). Qed.
Lemma same_upd a p f : (∀ k, a_base (f k) = a_base k ∧ a_size (f k) = a_size k) → same_stacks a (a_upd p f a).
Proof.
  intros Hf q. unfold a_upd, stack_of. destruct (a_co a p) as [k|] eqn:Hp; [|done].
  destruct (decide (p = q)) as [<-|Hne]; [|by rewrite a_co_put_ne]. erewrite a_co_put_eq by done. rewrite Hp. simpl.
  by destruct (Hf k) as [-> ->].
Qed.
Lemma same_wake a p : same_stacks a (a_wake p a).
Proof.
  unfold a_wake. destruct (a_state a p) as [[]|]; try done; by apply same_upd.
Qed.
Lemma same_release_locks a m p : same_stacks a (a_release_locks m p a).
Proof.
  apply (release_locks_ind (same_stacks a)); [|intros w b Hb; transitivity b; [done|apply same_wake]|done].
  intros x b Hb q. rewrite <-(Hb q). by destruct q.
Qed.
Lemma same_reinit a p : same_stacks a (a_reinit p a).
Proof.
  intros q. unfold a_reinit. set (f := λ k, _). transitivity (stack_of (a_upd p f (unqueue p a)) q); [by destruct q|].
  rewrite (same_upd (unqueue p a) p f) by done. unfold stack_of. by rewrite co_unqueue.
Qed.
Lemma same_co a a' p k : same_stacks a a' → a_co a p = Some k → ∃ k', a_co a' p = Some k' ∧ a_base k' = a_base k ∧ a_size k' = a_size k.
Proof.
  intros Hs Hk. specialize (Hs p). unfold stack_of in Hs. rewrite Hk in Hs. destruct (a_co a' p) as [k'|]; [|done].
  injection Hs as ? ?. eauto.
Qed.
Lemma same_symm a a' : same_stacks a a' → same_stacks a' a.
Proof. intros Hs p. by rewrite (Hs p). Qed.
Lemma same_byte a a' x : same_stacks a a' → stack_byte a x → stack_byte a' x.
Proof.
  intros Hs (p & k & Hk & Hx). destruct (same_co a a' p k Hs Hk) as (k' & Hk' & Eb & Es). exists p, k'. split; [done|].
  unfold in_stack in *. lia.
Qed.

(** A state whose memory differs outside the stacks but for that of [k]. *)
Lemma rep_but_memory s a p k mem : rep s a → awf a → a_co a p = Some k →
  (∀ x, stack_byte a x → ¬ in_stack k x → mem x = sc_memory s x) →
  ∃ mem0, rep_but k mem0 (s <| sc_memory := mem |>) a.
Proof.
  intros Hr W Hk Hmem. exists (λ x, if decide (a_base k ≤ x < a_base k + a_size k) then sc_memory s x else mem x).
  split; [|intros x Hx; by rewrite decide_False].
  change (rep (s <| sc_memory := λ x, if decide (a_base k ≤ x < a_base k + a_size k) then sc_memory s x else mem x |>) a).
  apply rep_memory; [done|]. intros q kq Hq. destruct (aw_stack a W q kq Hq) as (_ & Hsz & _). unfold WT_CO_STACK_MIN in Hsz.
  rewrite (load32_local (sc_memory s)); [by eapply rep_canary|]. intros x Hx. simpl. case_decide as Hin; [done|].
  apply Hmem; [exists q, kq; split; [done|unfold in_stack; lia]|done].
Qed.
Lemma idle_memory s a mem : idle s a → (∀ x, stack_byte a x → mem x = sc_memory s x) → idle (s <| sc_memory := mem |>) a.
Proof.
  intros (Hr & W & Hc) Hmem. split; [|done]. apply rep_memory; [done|]. intros q kq Hq.
  destruct (aw_stack a W q kq Hq) as (_ & Hsz & _). unfold WT_CO_STACK_MIN in Hsz.
  rewrite (load32_local (sc_memory s)); [by eapply rep_canary|]. intros x Hx. apply Hmem. exists q, kq. split; [done|].
  unfold in_stack. lia.
Qed.

(** ** What a step leaves alone *)

Lemma remove_walk_frame {R} fuel m prev cur co : frames (R := R) sc_memory (remove_walk fuel m prev cur co).
Proof. revert prev cur. induction fuel as [|fuel IH]; intros prev [cur|]; simpl; frame. Qed.
#[export] Hint Resolve remove_walk_frame : frame.
Lemma remove_waiter_frame m co : fframes sc_memory (wt_mutex_remove_waiter m co).
Proof. unfold wt_mutex_remove_waiter. frame. Qed.
Lemma release_if_holder_frame `{CoArch} m co : fframes sc_memory (wt_mutex_release_if_holder m co).
Proof. unfold wt_mutex_release_if_holder, hand_over. frame. Qed.
#[export] Hint Resolve remove_waiter_frame release_if_holder_frame : frame.
Lemma release_locks_frame `{CoArch} m co : fframes sc_memory (wt_hsm_release_locks m co).
Proof. unfold wt_hsm_release_locks. frame. Qed.
Lemma partition_restarted_frame `{PortOps} pid status : fframes memory (wt_ffm_partition_restarted pid status).
Proof.
  intros w. destruct (wt_ffm_partition_restarted pid status w) as [[w' r]|] eqn:E; [|done].
  apply (exec_memory (OpRestarted pid status) w w'); [done|]. simpl. unfold after. by rewrite E.
Qed.

(** A reset is about the runtime only. *)
Lemma reset_rt w w1 w' w1' pid k p : rt w1 = rt w → rt w1' = rt w' →
  partition_reset w pid k p w' → partition_reset w1 pid k p w1'.
Proof.
  intros E E' [P1 P2 P3 P4 P5 P6 P7]. constructor; rewrite ?E'; try done. intros cl Hcl. destruct (P2 cl Hcl) as [S1 S2 S3 S4].
  constructor; by rewrite ?E, ?E'.
Qed.

(** The runtime, the slots, the flags and the memory at [stk]. *)
Record kept (stk : Z → Prop) (s s' : spm) : Prop := {
  ke_rt : rt (sm_world s') = rt (sm_world s);
  ke_sp : g_spm_sp s' = g_spm_sp s;
  ke_failed : sm_failed s' = sm_failed s;
  ke_memory x : stk x → memory (sm_world s') x = memory (sm_world s) x;
}.
Definition quiet (stk : Z → Prop) (s s' : spm) : Prop := sm_sched s' = sm_sched s ∧ kept stk s s'.
#[export] Instance kept_preorder stk : PreOrder (kept stk).
Proof.
  split; [by intros s|]. intros s1 s2 s3 [A1 A2 A3 A4] [B1 B2 B3 B4]. constructor; [congruence..|].
  intros x Hx. rewrite B4 by done. auto.
Qed.
#[export] Instance quiet_preorder stk : PreOrder (quiet stk).
Proof. split; [by intros s|]. intros s1 s2 s3 [A1 A2] [B1 B2]. split; [congruence|by transitivity s2]. Qed.
Lemma kept_mono (stk stk' : Z → Prop) s s' : (∀ x, stk' x → stk x) → kept stk s s' → kept stk' s s'.
Proof. intros Hs [A1 A2 A3 A4]. constructor; auto. Qed.
Lemma quiet_mono (stk stk' : Z → Prop) s s' : (∀ x, stk' x → stk x) → quiet stk s s' → quiet stk' s s'.
Proof. intros Hs [A1 A2]. split; [done|by eapply kept_mono]. Qed.

Lemma quiet_all stk s s' : quiet (λ _, True) s s' → quiet stk s s'.
Proof. by apply quiet_mono. Qed.

Lemma sched_of_quiet stk s s' : quiet stk s s' → sched_of s' = (sched_of s) <| sc_memory := memory (sm_world s') |>.
Proof. intros [Hs _]. unfold sched_of. by rewrite Hs. Qed.
Lemma idle_quiet s s' a : idle (sched_of s) a → quiet (stack_byte a) s s' → idle (sched_of s') a.
Proof.
  intros Hi Hq. rewrite (sched_of_quiet _ _ _ Hq). apply idle_memory; [done|]. intros x Hx. by apply Hq.
Qed.

Section steps.
Context `{PortOps} `{CoArch, !CoArchSpec} `{SpmPlatform} `{FaultPlatform}.

Lemma wp_services {R A} stk (f : Z → (Z → Z) → Z * (Z → Z) * A) E (Q : A → spm → Prop) s :
  (∀ p mem x, stk x → (f p mem).1.2 x = mem x) → (∀ a s', quiet stk s s' → Q a s') →
  wp (R := R) (CState.call (in_services f)) E Q s.
Proof.
  intros Hf HQ. apply wp_call. unfold fwp, in_services. specialize (Hf (sm_platform s) (memory (sm_world s))).
  destruct (f _ _) as [[p mem] a]. apply HQ. split; [done|]. by constructor.
Qed.
Lemma wp_hook {R} stk f E (Q : unit → spm → Prop) s :
  (∀ p mem x, stk x → (f p mem).2 x = mem x) → (∀ s', quiet stk s s' → Q tt s') →
  wp (R := R) (CState.call (hook_of f)) E Q s.
Proof.
  intros Hf HQ. unfold hook_of. eapply wp_services; [|intros [] s' Hs'; by apply HQ]. intros p mem x Hx. simpl.
  by apply Hf.
Qed.
Lemma wp_plat {R A} stk (f : Z → Z * A) E (Q : A → spm → Prop) s :
  (∀ a s', quiet stk s s' → Q a s') → wp (R := R) (CState.call (in_platform f)) E Q s.
Proof.
  intros HQ. apply wp_call. unfold fwp, in_platform. destruct (f (sm_platform s)) as [p a]. apply HQ. split; [done|].
  by constructor.
Qed.

(** The hooks of the services change their own data [svc], which is apart from
    the stacks. *)
Context (svc : Z → Prop).
Record hooks_ok (stk : Z → Prop) : Prop := {
  ho_vault p mem x : ¬ svc x → (nvm_client_partition_vault_restarted p mem).2 x = mem x;
  ho_attest f p mem x : initial_attest_hsm_restarted = Some f → ¬ svc x → (f p mem).2 x = mem x;
  ho_restore f pid p mem x : ¬ svc x → (restore_call f pid p mem).1.2 x = mem x;
  ho_stacks x : stk x → ¬ svc x;
}.

Lemma wp_get_sp {R} s i sp E (Q : wt_spm_sp → spm → Prop) :
  g_spm_sp s !! i = Some sp → Q sp s → wp (R := R) (get_sp i) E Q s.
Proof. intros Hi HQ. apply wp_bind, wp_gets. by eapply wp_defined. Qed.
Lemma wp_mod_sp {R} s i sp f E (Q : unit → spm → Prop) :
  g_spm_sp s !! i = Some sp → Q tt (s <| g_spm_sp := <[i := f sp]> (g_spm_sp s) |>) → wp (R := R) (mod_sp i f) E Q s.
Proof. intros Hi HQ. apply wp_bind. by eapply wp_get_sp. Qed.

Lemma fault_release_ok s a x p sp i :
  nvm_lock = 0%nat → hooks_ok (stack_byte a) → idle (sched_of s) a → a_mutexes a = [x] →
  g_spm_sp s !! i = Some sp → sp_co sp = Some p →
  fwp (wt_spm_fault_release i) (λ _ s', idle (sched_of s') (a_release_locks 0 p a) ∧ kept (λ y, ¬ svc y) s s') s.
Proof.
  intros Hn Hh (Hr & W & Hc) Hm Hi Hp. apply fwp_fn, wp_bind. eapply wp_get_sp; [done|]. rewrite Hn, Hp.
  assert (a_mutex a 0 = Some x) as Hx by (unfold a_mutex; by rewrite Hm).
  apply wp_bind. eapply (wp_sched s).
  { eapply fframes_conj; [apply release_locks_frame|by eapply release_locks_refines]. }
  intros [] c [Hr1 Hmem]. simpl. set (s1 := _ <| sm_world := _ |>). set (a1 := a_release_locks 0 p a) in *.
  assert (idle (sched_of s1) a1) as Hi1.
  { replace (sched_of s1) with c by (unfold sched_of, s1; simpl; by destruct c). split; [done|].
    apply (spec_wf (SysReleaseLocks 0 p) a RetVoid a1 W Hc); [by exists x|done]. }
  assert (kept (λ y, ¬ svc y) s s1) as Hk1.
  { constructor; try done. intros y _. unfold s1. simpl. by rewrite Hmem. }
  assert (∀ s2, quiet (λ y, ¬ svc y) s1 s2 → idle (sched_of s2) a1 ∧ kept (λ y, ¬ svc y) s s2) as Hq.
  { intros s2 Hq. split; [|transitivity s1; [done|apply Hq]]. eapply idle_quiet; [done|].
    eapply quiet_mono; [|done]. intros y Hy. apply (ho_stacks _ Hh). revert Hy. apply same_byte, same_symm, same_release_locks. }
  apply wp_bind, wp_when; intros _; [eapply wp_hook; [apply Hh|]; intros s2 Hq2|]; apply wp_bind, wp_gets.
  - destruct initial_attest_hsm_restarted as [f|] eqn:Ef; [|by apply wp_ret, Hq]. apply wp_when; intros _; [|by apply Hq].
    eapply wp_hook; [intros pl mem y; by apply (ho_attest _ Hh)|]. intros s3 Hq3. apply Hq. by transitivity s2.
  - destruct initial_attest_hsm_restarted as [f|] eqn:Ef; [|by apply wp_ret]. apply wp_when; intros _; [|by split].
    eapply wp_hook; [intros pl mem y; by apply (ho_attest _ Hh)|]. intros s3 Hq3. by apply Hq.
Qed.

Lemma fault_messages_ok s a sp i k pr :
  idle (sched_of s) a → g_spm_sp s !! i = Some sp → wf (rt (sm_world s)) →
  wt_ffm_find_partition (rt (sm_world s)) (sp_partition_id sp) = Some (inr k) →
  r_partitions (rt (sm_world s)) !! k = Some pr →
  fwp (wt_spm_fault_messages i) (λ _ s', idle (sched_of s') a ∧ g_spm_sp s' = g_spm_sp s ∧ sm_failed s' = sm_failed s ∧
    (∀ x, memory (sm_world s') x = memory (sm_world s) x) ∧
    partition_reset (sm_world s) (sp_partition_id sp) k pr (sm_world s')) s.
Proof.
  intros Hi Hsp Hwf Hk Hpr. apply fwp_fn, wp_bind. eapply wp_get_sp; [done|]. apply wp_bind.
  eapply (wp_world s _ (λ _ w', memory w' = memory (sm_world s) ∧ partition_reset (sm_world s) (sp_partition_id sp) k pr w')).
  { eapply fwp_mono; [eapply (fframes_conj memory); [apply partition_restarted_frame|]|intros r w' [HQ Hm]; split; [exact Hm|exact HQ]].
    apply partition_restarted_spec; [done|intros Hno; by destruct (Hno k)|]. intros ret k' p' w' Hk' Hp' Hres. congruence. }
  intros ret w' [Hmem Hres]. set (s1 := s <| sm_world := w' |>).
  assert (∀ s2, quiet (λ _, True) s1 s2 → idle (sched_of s2) a ∧ g_spm_sp s2 = g_spm_sp s ∧ sm_failed s2 = sm_failed s ∧
    (∀ x, memory (sm_world s2) x = memory (sm_world s) x) ∧
    partition_reset (sm_world s) (sp_partition_id sp) k pr (sm_world s2)) as Hfin.
  { intros s2 Hq. assert (sched_of s1 = sched_of s) as Es by (unfold sched_of, s1; simpl; by rewrite Hmem).
    split_and!.
    - eapply (idle_quiet s1); [by rewrite Es|]. by apply quiet_all.
    - by rewrite (ke_sp _ _ _ (proj2 Hq)).
    - by rewrite (ke_failed _ _ _ (proj2 Hq)).
    - intros x. rewrite (ke_memory _ _ _ (proj2 Hq)) by done. unfold s1. simpl. by rewrite Hmem.
    - eapply reset_rt; [done| |exact Hres]. by apply Hq. }
  apply wp_bind, wp_gets. destruct (wt_spm_domain_for _ _) as [d|]; [|by apply wp_ret, Hfin].
  eapply (wp_for_inv _ _ (quiet (λ _, True) s1)); [done| |exact Hfin]. intros r s2 _ Hq2. eapply wp_plat.
  intros [] s3 Hq3. by transitivity s2.
Qed.

Lemma zero_guest_memory_ok s base size : 0 ≤ size →
  fwp (wt_arch_zero_guest_memory base size) (λ _ s', quiet (λ x, ¬ (base ≤ x < base + size)) s s' ∧
    ∀ x, base ≤ x < base + size → memory (sm_world s') x = 0) s.
Proof.
  intros Hs. apply fwp_fn, wp_bind, wp_gets, wp_bind.
  destruct (zero_memory_spec base size (memory (sm_world s)) Hs) as (mem & E & Hz). eapply wp_defined; [exact E|].
  apply wp_bind, wp_modify. set (s1 := s <| sm_world := _ |>).
  assert (∀ s2, quiet (λ _, True) s1 s2 → quiet (λ x, ¬ (base ≤ x < base + size)) s s2 ∧
    ∀ x, base ≤ x < base + size → memory (sm_world s2) x = 0) as Hq.
  { intros s2 Hq2. split.
    - transitivity s1; [|by apply quiet_all]. split; [done|]. constructor; try done. intros x Hx. unfold s1. simpl.
      by rewrite (proj2 Hz), decide_False by done.
    - intros x Hx. rewrite (ke_memory _ _ _ (proj2 Hq2)) by done. unfold s1. simpl. by rewrite (proj2 Hz), decide_True by done. }
  apply wp_if; intros _; [by eapply wp_plat; intros [] s2 Hq2; apply Hq|].
  apply wp_when; intros _; [|by apply Hq]. by eapply wp_plat; intros [] s2 Hq2; apply Hq.
Qed.

(** What the data band at [base] is reset to: the words of its load image in
    its data section, and zero elsewhere. *)
Definition band_byte (bands : list wt_band_image) (mem : Z → Z) (base x : Z) : Z :=
  match List.find (λ b, bi_data b =? base) bands with
  | Some b => if decide (bi_data b ≤ x < bi_data_end b) then word_byte mem (bi_load b) (x - bi_data b) else 0
  | None => 0
  end.
(** The bands at [base] are one, which lies in the range. *)
Definition band_known (base size : Z) : Prop :=
  (∀ b, b ∈ g_wt_bands → bi_data b = base → band_inside base (base + size) b) ∧
  ∀ b b', b ∈ g_wt_bands → b' ∈ g_wt_bands → bi_data b = base → bi_data b' = base → b = b'.

Lemma band_byte_same base size mem mem' x : band_known base size →
  (∀ b y, b ∈ g_wt_bands → bi_data b = base → bi_load b ≤ y < bi_load b + (bi_data_end b - bi_data b) → mem' y = mem y) →
  band_byte g_wt_bands mem' base x = band_byte g_wt_bands mem base x.
Proof.
  intros [Hin _] Hm. unfold band_byte. destruct (List.find _ g_wt_bands) as [b|] eqn:E; [|done].
  apply List.find_some in E as [Hb%list_elem_of_In Hd%Z.eqb_eq]. destruct (bd_data _ _ _ (Hin b Hb Hd)) as (_ & _ & Hmod).
  case_decide as Hx; [|done]. eapply (word_byte_local _ _ _ (bi_data_end b - bi_data b)); [lia|done|]. intros y Hy. by eapply Hm.
Qed.

Lemma find_snoc {A} (f : A → bool) l x :
  List.find f (l ++ [x]) = match List.find f l with Some y => Some y | None => if f x then Some x else None end.
Proof. induction l as [|y l IH]; simpl; [done|]. by destruct (f y). Qed.

Lemma band_reset_ok s base size : 0 ≤ size → band_known base size →
  fwp (wt_arch_sp_band_reset base size) (λ _ s', quiet (λ x, ¬ (base ≤ x < base + size)) s s' ∧
    ∀ x, base ≤ x < base + size → memory (sm_world s') x = band_byte g_wt_bands (memory (sm_world s)) base x) s.
Proof.
  intros Hs [Hin Hone]. apply fwp_fn, wp_bind, wp_call. eapply fwp_mono; [by apply zero_guest_memory_ok|]. intros [] s1 [Hq1 Hz1].
  apply (wp_for_each _ _ (λ l s', quiet (λ x, ¬ (base ≤ x < base + size)) s s' ∧
    ∀ x, base ≤ x < base + size → memory (sm_world s') x = band_byte l (memory (sm_world s)) base x)); [by split| |done].
  intros l1 b l2 s2 Hl [Hq2 Hm2]. assert (b ∈ g_wt_bands) as Hb by (rewrite Hl; set_solver).
  assert (∀ b', b' ∈ l1 → b' ∈ g_wt_bands) as Hpre by (rewrite Hl; set_solver).
  apply wp_when; intros E.
  - apply Z.eqb_eq in E. apply wp_bind, wp_gets, wp_bind.
    destruct (band_load_spec base (base + size) b (memory (sm_world s2)) (Hin b Hb E)) as (mem & El & Hm).
    eapply wp_defined; [exact El|]. apply wp_modify. pose proof (Hin b Hb E) as [(D1 & D2 & D3) (B1 & B2 & _) _ Hload].
    split.
    { transitivity s2; [done|]. split; [done|]. constructor; try done. intros x Hx. simpl. rewrite Hm. unfold loaded.
      by rewrite !decide_False by lia. }
    intros x Hx. simpl. rewrite Hm.
    assert (List.find (λ b, bi_data b =? base) (l1 ++ [b]) = Some b) as Hfind.
    { destruct (List.find (λ b, bi_data b =? base) l1) as [b0|] eqn:E0.
      - rewrite find_snoc, E0. apply List.find_some in E0 as [Hb0%list_elem_of_In Hd0%Z.eqb_eq]. f_equal. eauto.
      - rewrite find_snoc, E0. simpl. by rewrite (proj2 (Z.eqb_eq _ _) E). }
    unfold band_byte. rewrite Hfind. unfold loaded. case_decide as Hx1.
    + eapply (word_byte_local _ _ _ (bi_data_end b - bi_data b)); [lia|done|]. intros y Hy. apply Hq2. by apply Hload.
    + case_decide as Hx2; [done|]. rewrite Hm2 by done. unfold band_byte.
      destruct (List.find (λ b, bi_data b =? base) l1) as [b0|] eqn:E0; [|done].
      apply List.find_some in E0 as [Hb0%list_elem_of_In Hd0%Z.eqb_eq]. assert (b0 = b) as -> by eauto. by rewrite decide_False.
  - split; [done|]. intros x Hx. rewrite Hm2 by done. unfold band_byte. rewrite find_snoc. simpl. rewrite E.
    by destruct (List.find _ l1).
Qed.

(** What [wt_spm_sched_add] establishes for a slot: its scrub range is the
    stack of its coroutine, and its second band is apart from all stacks, with
    a load image that no partition and no hook writes. *)
Record slot_wf (a : asched) (sp : wt_spm_sp) (p : co_ref) : Prop := {
  sl_co : sp_co sp = Some p;
  sl_stack : stack_of a p = Some (sp_scrub_base sp, sp_scrub_size sp);
  sl_entry : sp_entry sp ≠ 0;
  sl_band : sp_scrub2_size sp ≠ 0 → 0 ≤ sp_scrub2_size sp ∧
    (∀ x, stack_byte a x → ¬ (sp_scrub2_base sp ≤ x < sp_scrub2_base sp + sp_scrub2_size sp)) ∧
    band_known (sp_scrub2_base sp) (sp_scrub2_size sp) ∧
    (∀ b x, b ∈ g_wt_bands → bi_data b = sp_scrub2_base sp →
       bi_load b ≤ x < bi_load b + (bi_data_end b - bi_data b) → ¬ stack_byte a x ∧ ¬ svc x);
}.
Lemma slot_wf_same a a' sp p : same_stacks a a' → slot_wf a sp p → slot_wf a' sp p.
Proof.
  intros Hs [S1 S2 S3 S4]. assert (∀ x, stack_byte a' x → stack_byte a x) as Hb by (intros x; by apply same_byte, same_symm).
  constructor; [done|by rewrite (Hs p)|done|]. intros Hn. destruct (S4 Hn) as (B0 & B1 & B2 & B3).
  split_and!; [done|by eauto|done|]. intros b x Hin Hd Hx. destruct (B3 b x Hin Hd Hx). split; [|done]. by intros ?%Hb.
Qed.

(** The partition's data band, and all memory its recovery has nothing to do
    with. *)
Definition in_band (sp : wt_spm_sp) (x : Z) : Prop :=
  sp_scrub2_size sp ≠ 0 ∧ sp_scrub2_base sp ≤ x < sp_scrub2_base sp + sp_scrub2_size sp.
Definition outside (k : aco) (sp : wt_spm_sp) (x : Z) : Prop := ¬ in_stack k x ∧ ¬ in_band sp x ∧ ¬ svc x.
Definition reset_byte (sp : wt_spm_sp) (mem : Z → Z) (x : Z) : Z := band_byte g_wt_bands mem (sp_scrub2_base sp) x.

(** The stacks of the others are outside. *)
Lemma others_outside a sp p k x : hooks_ok (stack_byte a) → slot_wf a sp p →
  stack_byte a x → ¬ in_stack k x → outside k sp x.
Proof.
  intros Hh Hsl Hx Hn. split_and!; [done| |by apply (ho_stacks _ Hh)]. intros [Hz Hb].
  destruct (sl_band _ _ _ Hsl Hz) as (_ & Hap & _). by apply (Hap x).
Qed.
Lemma in_stack_byte a p k x : a_co a p = Some k → in_stack k x → stack_byte a x.
Proof. intros Hk Hx. by exists p, k. Qed.
(** The image is read from memory that only the scrub of a stack changes. *)
Lemma reset_byte_same a sp p mem mem' x : slot_wf a sp p → in_band sp x →
  (∀ y, ¬ stack_byte a y → ¬ svc y → ¬ in_band sp y → mem' y = mem y) → reset_byte sp mem' x = reset_byte sp mem x.
Proof.
  intros Hsl [Hz Hx] Hm. destruct (sl_band _ _ _ Hsl Hz) as (_ & _ & Hk & Hload).
  apply (band_byte_same _ _ _ _ _ Hk). intros b y Hb Hd Hy. destruct (Hload b y Hb Hd Hy). apply Hm; [done..|].
  intros [_ Hin]. destruct Hk as [Hins _]. by apply (bd_load _ _ _ (Hins b Hb Hd) y).
Qed.

Lemma fault_scrub_ok s a sp p k i : awf a → g_spm_sp s !! i = Some sp → slot_wf a sp p → a_co a p = Some k →
  fwp (wt_spm_fault_scrub i) (λ _ s', quiet (λ x, ¬ in_stack k x ∧ ¬ in_band sp x) s s' ∧
    (∀ x, in_stack k x → memory (sm_world s') x = 0) ∧
    ∀ x, in_band sp x → memory (sm_world s') x = reset_byte sp (memory (sm_world s)) x) s.
Proof.
  intros W Hi Hsl Hk. pose proof Hsl as [S1 S2 S3 S4]. unfold stack_of in S2. rewrite Hk in S2. injection S2 as Eb Es.
  destruct (aw_stack a W p k Hk) as (_ & Hsz & _). unfold WT_CO_STACK_MIN in Hsz.
  apply fwp_fn, wp_bind. eapply wp_get_sp; [done|]. apply wp_bind, wp_call.
  eapply fwp_mono; [apply zero_guest_memory_ok; lia|]. intros [] s1 [Hq1 Hz1]. rewrite <-Eb, <-Es in Hq1, Hz1.
  assert (quiet (λ x, ¬ in_stack k x ∧ ¬ in_band sp x) s s1) as Hq1' by (eapply quiet_mono; [|done]; by intros x [Hx _]).
  apply wp_when; intros E.
  - apply negb_true_iff, Z.eqb_neq in E. destruct (S4 E) as (B0 & Hap & Hb & _).
    apply wp_call. eapply fwp_mono; [by apply band_reset_ok|]. intros [] s2 [Hq2 Hm2]. split_and!.
    + transitivity s1; [done|]. eapply quiet_mono; [|done]. intros x [_ Hx] Hin. by apply Hx.
    + intros x Hx. rewrite (ke_memory _ _ _ (proj2 Hq2)); [by apply Hz1|]. apply Hap. by eapply in_stack_byte.
    + intros x Hx. rewrite Hm2 by apply Hx. eapply reset_byte_same; [exact Hsl|done|]. intros y Hy _ _.
      apply (ke_memory _ _ _ (proj2 Hq1)). intros Hin. apply Hy. by eapply in_stack_byte.
  - apply negb_false_iff, Z.eqb_eq in E. split_and!; [done|done|]. intros x [Hz _]. by destruct Hz.
Qed.

Lemma claim_irqs_ok s idx : wf (rt (sm_world s)) → fwp (wt_spm_claim_irqs idx) (λ _ s', quiet (λ _, True) s s') s.
Proof.
  intros Hwf. apply fwp_fn, wp_bind, wp_gets. cbv zeta. apply wp_bind, wp_when; intros E; [by apply wp_early|].
  apply orb_false_iff in E as [_ E%Nat.leb_gt]. apply wp_bind.
  destruct (lookup_lt_is_Some_2 (r_partitions (rt (sm_world s))) idx) as [pr Hpr].
  { pose proof (inv_static _ _ _ Hwf) as St. rewrite (st_partitions _ St). pose proof (st_partition_count _ St). unfold id in E. lia. }
  eapply wp_defined; [exact Hpr|]. destruct (p_manifest pr) as [m|]; [|by apply wp_ret]. apply wp_bind.
  eapply (wp_for_inv _ _ (quiet (λ _, True) s)); [done| |intros s' Hs'; by apply wp_ret].
  intros r s1 _ Hq1. apply wp_bind. eapply wp_plat. intros ret s2 Hq2. assert (quiet (λ _, True) s s2) by by transitivity s1.
  by apply wp_when; intros _; [apply wp_early|].
Qed.

Lemma fwp_self {S A} (f : func S A) Q s : fwp f Q s → fwp f (λ a s', f s = Some (s', a) ∧ Q a s') s.
Proof. unfold fwp. by destruct (f s) as [[s' a]|]. Qed.

(** The new instance: [wt_co_reinit] built its first frame on a zeroed stack,
    and its data band holds its image, up to what the services' hooks put
    there. [mem] is the memory before the recovery. *)
Record reborn (k : aco) (sp : wt_spm_sp) (p : co_ref) (mem : Z → Z) (s' : spm) : Prop := {
  rb_stack : ∃ c1 c2, (∀ x, in_stack k x → sc_memory c1 x = 0) ∧
    wt_co_reinit (Some p) (sp_entry sp) (sp_arg sp) c1 = Some (c2, 0) ∧ memory (sm_world s') = sc_memory c2;
  rb_band x : in_band sp x → ¬ svc x → memory (sm_world s') x = reset_byte sp mem x;
}.

Lemma fault_restart_ok s0 s a sp p k i :
  hooks_ok (stack_byte a) → idle (sched_of s0) a → quiet (outside k sp) s0 s → wf (rt (sm_world s)) →
  g_spm_sp s !! i = Some sp → slot_wf a sp p → a_co a p = Some k → ¬ waits a p →
  (∀ x, in_stack k x → memory (sm_world s) x = 0) →
  (∀ x, in_band sp x → memory (sm_world s) x = reset_byte sp (memory (sm_world s0)) x) →
  fwp (wt_spm_fault_restart i) (λ r s',
    rt (sm_world s') = rt (sm_world s) ∧ sm_failed s' = sm_failed s ∧
    (∀ x, outside k sp x → memory (sm_world s') x = memory (sm_world s) x) ∧
    (if r =? 0 then idle (sched_of s') (a_reinit p a) ∧
       g_spm_sp s' = <[i := sp <| sp_wait_kind := WT_SPM_WAIT_NONE |>]> (g_spm_sp s) ∧
       reborn k sp p (memory (sm_world s0)) s'
     else g_spm_sp s' = g_spm_sp s)) s.
Proof.
  intros Hh Hi0 Hq0 Hwf Hi Hsl Hk Hw Hz Hb. pose proof Hi0 as (Hr0 & W & Hc).
  assert (∀ x, outside k sp x → ¬ svc x) as Hsv by by intros x (_ & _ & ?).
  assert (∀ s1, quiet (λ x, ¬ svc x) s s1 → rt (sm_world s1) = rt (sm_world s) ∧ sm_failed s1 = sm_failed s ∧
    (∀ x, outside k sp x → memory (sm_world s1) x = memory (sm_world s) x) ∧
    g_spm_sp s1 = g_spm_sp s) as Hfail.
  { intros s1 [_ [Q1 Q2 Q3 Q4]]. split_and!; [done|done| |done]. intros x Hx. apply Q4. by apply Hsv. }
  apply fwp_fn, wp_bind. eapply wp_get_sp; [done|]. apply wp_bind, wp_call.
  eapply fwp_mono; [by apply claim_irqs_ok|]. intros ret s1 Hq1. assert (quiet (λ x, ¬ svc x) s s1) as Hq1' by by apply quiet_all.
  apply wp_bind, wp_when; intros E1; [by apply wp_early, Hfail|]. apply wp_bind.
  set (Q := λ r s', _) at 1 2. match goal with |- wp _ ?E ?K s1 =>
    assert (∀ s2, quiet (λ x, ¬ svc x) s s2 → K tt s2) as Hrest end.
  { intros s2 Hq2. pose proof (Hfail s2 Hq2) as (F1 & F2 & F3 & F4).
    assert (quiet (outside k sp) s0 s2) as Hq02 by (transitivity s; [done|]; eapply quiet_mono; [exact Hsv|done]).
    destruct (rep_but_memory (sched_of s0) a p k (memory (sm_world s2)) Hr0 W Hk) as (mem & Hrb).
    { intros x Hx Hnx. apply (proj2 Hq02). by eapply others_outside. }
    rewrite <-(sched_of_quiet _ _ _ Hq02) in Hrb. rewrite (sl_co _ _ _ Hsl).
    apply wp_bind. eapply (wp_sched s2); [eapply fwp_self, reinit_scrubbed; [done|done|done|done|apply Hsl]|].
    intros r c (Erun & -> & Hr' & Hmem). set (s3 := _ <| sm_world := _ |>). apply wp_bind. simpl. apply wp_ret, wp_bind.
    eapply wp_mod_sp; [unfold s3; simpl; by rewrite F4|]. apply wp_ret. simpl.
    split_and!; [done|done| | |by rewrite F4|].
    - intros x Hx. unfold s3. simpl. rewrite Hmem by apply Hx. simpl. by apply F3.
    - match goal with |- idle ?c' _ => replace c' with c by (unfold sched_of, s3; simpl; by destruct c) end.
      assert (is_Some (a_co a p)) as Hp by by exists k.
      split; [done|]. apply (spec_wf (SysReinit p (sp_entry sp) 0) a (RetInt 0) _ W Hc); [|done]. split_and!; [done|done|apply Hsl].
    - split.
      + exists (sched_of s2), c. split_and!; [|done|done]. intros x Hx. change (sc_memory (sched_of s2)) with (memory (sm_world s2)).
        rewrite (ke_memory _ _ _ (proj2 Hq2)); [by apply Hz|]. apply (ho_stacks _ Hh). by eapply in_stack_byte.
      + intros x Hx Hns. unfold s3. simpl. rewrite Hmem; [|intros Hin; destruct Hx as [Hz2 Hx]].
        * change (sc_memory (sched_of s2)) with (memory (sm_world s2)). rewrite (ke_memory _ _ _ (proj2 Hq2)) by done. by apply Hb.
        * destruct (sl_band _ _ _ Hsl Hz2) as (_ & Hap & _). apply (Hap x); [|done]. by eapply in_stack_byte. }
  destruct (sp_restore sp) as [f|]; [|by apply wp_ret, Hrest].
  apply wp_bind. eapply (wp_services (λ x, ¬ svc x)); [intros pl mem x Hx; by apply Hh|]. intros ret2 s2 Hq2.
  assert (quiet (λ x, ¬ svc x) s s2) as Hq2' by by transitivity s1.
  apply wp_when; intros E2; [by apply wp_early, Hfail|by apply Hrest].
Qed.

(** ** A slot *)

Definition decision (d : wt_domain_descriptor) (ticks : Z) (st : restart_state) :
    wt_sp_recovery_decision * option restart_state :=
  wt_sp_recovery_decide (rp_action (d_restart_policy d)) (rp_restart_limit (d_restart_policy d))
    (rp_restart_window_ticks (d_restart_policy d)) ticks (Some st).

(** The state in which a partition is recovered: the bootstrap context runs,
    the store lock is the one mutex, and the slot is as it was added. *)
Record recoverable (s : spm) (a : asched) (x : amutex) (i : nat) (sp : wt_spm_sp) (p : co_ref) : Prop := {
  rc_idle : idle (sched_of s) a;
  rc_wf : wf (rt (sm_world s));
  rc_lock : nvm_lock = 0%nat ∧ a_mutexes a = [x];
  rc_hooks : hooks_ok (stack_byte a);
  rc_slot : g_spm_sp s !! i = Some sp;
  rc_added : slot_wf a sp p;
  rc_running : sm_failed s = false;
}.

(** [s'] after the recovery of a slot in [s]: the platform was reset, or the
    partition waits for work in its new instance. *)
Record restarted (s s' : spm) (a a' : asched) (x : amutex) (sp' : wt_spm_sp) (p : co_ref) : Prop := {
  re_idle : idle (sched_of s') a';
  re_stacks : same_stacks a a';
  re_lock : a_mutexes a' = [cleared p x];
  re_holder : a_holder (cleared p x) ≠ Some p;
  re_waiter : p ∉ a_waiters (cleared p x);
  re_blocked : a_state a' p = Some WT_CO_BLOCKED;
  re_runq : p ∉ a_runq a';
  re_wait : sp_wait_kind sp' = WT_SPM_WAIT_NONE;
  re_failed : sm_failed s' = false;
}.


(** Up to the decision: locks and clients. *)
Lemma recovery_prefix {R} (E : R → spm → Prop) s a x i sp p k kp pr :
  recoverable s a x i sp p → a_co a p = Some k →
  wt_ffm_find_partition (rt (sm_world s)) (sp_partition_id sp) = Some (inr kp) →
  r_partitions (rt (sm_world s)) !! kp = Some pr →
  wp (R := R) (CState.call (wt_spm_fault_release i);; CState.call (wt_spm_fault_messages i)) E (λ _ s',
    idle (sched_of s') (a_release_locks 0 p a) ∧ g_spm_sp s' = g_spm_sp s ∧ sm_failed s' = false ∧
    (∀ y, ¬ svc y → memory (sm_world s') y = memory (sm_world s) y) ∧
    partition_reset (sm_world s) (sp_partition_id sp) kp pr (sm_world s')) s.
Proof.
  intros [Hi Hwf [Hn Hm] Hh Hsp Hsl Hf] Hk Hfind Hpr. apply wp_bind, wp_call.
  eapply fwp_mono; [by eapply (fault_release_ok s a x p sp i); [..|apply Hsl]|]. intros [] s2 [Hi2 [Er2 Eg2 Ef2 Em2]].
  apply wp_call.
  eapply fwp_mono; [eapply (fault_messages_ok s2 _ sp i kp pr); [done|by rewrite Eg2|by rewrite Er2..]|].
  intros [] s3 (Hi3 & Eg3 & Ef3 & Em3 & Hres3). split_and!; [done|congruence|congruence| |by eapply reset_rt].
  intros y Hy. rewrite Em3. by apply Em2.
Qed.

Definition outcome (s s' : spm) (a : asched) (x : amutex) (i : nat) (sp : wt_spm_sp) (p : co_ref) (k : aco)
    (dec : wt_sp_recovery_decision) : Prop :=
  rt (sm_world s') = rt (sm_world s) ∧ (∀ y, outside k sp y → memory (sm_world s') y = memory (sm_world s) y) ∧
  (sm_failed s' = true ∧ g_spm_sp s' = g_spm_sp s ∨
   dec = WT_SP_RECOVERY_RESTART ∧
   g_spm_sp s' = <[i := sp <| sp_wait_kind := WT_SPM_WAIT_NONE |>]> (g_spm_sp s) ∧
   reborn k sp p (memory (sm_world s)) s' ∧
   ∃ a', restarted s s' a a' x (sp <| sp_wait_kind := WT_SPM_WAIT_NONE |>) p).

(** Scrubbing and restarting, once [p] is cleared from the lock: [a1] is the
    scheduler then. *)
Lemma recovery_restart {R} (E : R → spm → Prop) s a x i sp p k k1 :
  let a1 := a_release_locks 0 p a in
  awf a → a_current a = CoBootstrap → a_mutexes a = [x] → hooks_ok (stack_byte a) →
  idle (sched_of s) a1 → wf (rt (sm_world s)) → sm_failed s = false →
  g_spm_sp s !! i = Some sp → slot_wf a sp p → a_co a p = Some k → a_co a1 p = Some k1 →
  wp (R := R) (CState.call (wt_spm_fault_scrub i);; CState.call (wt_spm_fault_restart i)) E
    (λ r s', if r =? 0 then outcome s s' a x i sp p k WT_SP_RECOVERY_RESTART
             else rt (sm_world s') = rt (sm_world s) ∧ g_spm_sp s' = g_spm_sp s ∧
                  ∀ y, outside k sp y → memory (sm_world s') y = memory (sm_world s) y) s.
Proof.
  intros a1 W Hc Hm Hh Hi Hwf Hf Hsp Hsl Hk Hk1. destruct (locks_cleared a x p W Hc Hm ltac:(by exists k)) as (W1 & Hc1 & Hm1 & Hp1 & Hw1 & Hnh & Hnw).
  fold a1 in W1, Hc1, Hm1, Hp1, Hw1. assert (same_stacks a a1) as Hss by apply same_release_locks.
  destruct (same_co a a1 p k Hss Hk) as (k1' & Hk1' & Eb & Es). assert (k1' = k1) as -> by congruence.
  assert (∀ y, in_stack k1 y ↔ in_stack k y) as Hst by (intros y; unfold in_stack; rewrite Eb, Es; done).
  assert (∀ y, outside k sp y ↔ outside k1 sp y) as Hout by (intros y; unfold outside; rewrite Hst; done).
  assert (slot_wf a1 sp p) as Hsl1 by by eapply slot_wf_same.
  assert (hooks_ok (stack_byte a1)) as Hh1.
  { assert (∀ y, stack_byte a1 y → stack_byte a y) by (intros y; apply same_byte; by apply same_symm).
    destruct Hh. constructor; eauto. }
  apply wp_bind, wp_call. eapply fwp_mono; [by eapply (fault_scrub_ok s a1 sp p k1 i)|]. intros [] s4 (Hq4' & Hz4 & Hb4).
  assert (quiet (outside k1 sp) s s4) as Hq4 by (eapply quiet_mono; [|exact Hq4']; by intros y (? & ? & _)).
  pose proof (proj2 Hq4) as [Er4 Eg4 Ef4 Em4]. apply wp_call.
  eapply fwp_mono; [by eapply (fault_restart_ok s s4 a1 sp p k1 i); rewrite ?Er4, ?Eg4|].
  intros r s5 (Er5 & Ef5 & Em5 & Hr5).
  assert (∀ y, outside k sp y → memory (sm_world s5) y = memory (sm_world s) y) as Em.
  { intros y Hy%Hout. by rewrite Em5, Em4 by done. }
  destruct (r =? 0); [|by split_and!; [congruence|congruence|]]. destruct Hr5 as (Hi5 & Eg5 & [(c1 & c2 & Hz & Hrun & Emem) Hband]).
  split_and!; [congruence|done|]. right. split; [done|]. split; [by rewrite Eg5, Eg4|].
  split; [split; [exists c1, c2; split_and!; [intros y Hy; by apply Hz, Hst|done|done]|done]|]. exists (a_reinit p a1).
  destruct (state_reinit p a1 Hp1) as (R1 & R2 & R3); [by intros ->|]. constructor; try done.
  - transitivity a1; [done|apply same_reinit].
  - by rewrite R3.
  - congruence.
Qed.

Lemma recovery_run_ok s a x i sp p k kp pr d ticks :
  recoverable s a x i sp p → a_co a p = Some k →
  wt_ffm_find_partition (rt (sm_world s)) (sp_partition_id sp) = Some (inr kp) →
  r_partitions (rt (sm_world s)) !! kp = Some pr →
  fwp (wt_sp_recovery_run (Some (g_spm_fault_ops i)) (rp_action (d_restart_policy d)) (rp_restart_limit (d_restart_policy d))
         (rp_restart_window_ticks (d_restart_policy d)) ticks (Some (sp_restart sp)))
    (λ r s', snd r = snd (decision d ticks (sp_restart sp)) ∧
       ∃ s1, partition_reset (sm_world s) (sp_partition_id sp) kp pr (sm_world s1) ∧ g_spm_sp s1 = g_spm_sp s ∧
         (∀ y, ¬ svc y → memory (sm_world s1) y = memory (sm_world s) y) ∧
         outcome s1 s' a x i sp p k (fst (decision d ticks (sp_restart sp)))) s.
Proof.
  intros Hrec Hk Hfind Hpr. pose proof Hrec as [Hi Hwf [Hn Hm] Hh Hsp Hsl Hf]. pose proof Hi as (_ & W & Hc).
  apply fwp_fn, wp_assoc, wp_bind. eapply wp_mono; [by apply (recovery_prefix _ s a x i sp p k kp pr)|exact (λ _ _ H, H)|].
  intros [] s1 (Hi1 & Eg1 & Ef1 & Em1 & Hres). fold (decision d ticks (sp_restart sp)).
  destruct (decision d ticks (sp_restart sp)) as [dec st] eqn:Edec.
  destruct (same_co a _ p k (same_release_locks a 0 p) Hk) as (k1 & Hk1 & _).
  assert (∀ s2 dc, rt (sm_world s2) = rt (sm_world s1) → g_spm_sp s2 = g_spm_sp s1 →
    (∀ y, outside k sp y → memory (sm_world s2) y = memory (sm_world s1) y) →
    outcome s1 (s2 <| sm_failed := true |>) a x i sp p k dc) as Hesc.
  { intros s2 dc Er2 Eg2 Em2. split_and!; [done|done|by left]. }
  apply wp_bind. destruct dec; cycle 1.
  { apply wp_ret, wp_bind, wp_call, fwp_fn, wp_modify, wp_ret. split; [done|]. exists s1. do 3 (split; [done|]). by apply Hesc. }
  apply wp_assoc, wp_bind. eapply wp_mono; [|exact (λ _ _ H, H)|].
  { apply (recovery_restart _ s1 a x i sp p k k1); try done; [apply Hres|by rewrite Eg1]. }
  intros r s2 Hr2. cbv beta in Hr2. apply wp_ret. destruct (r =? 0); apply wp_bind.
  - apply wp_ret, wp_ret. split; [done|]. exists s1. do 3 (split; [done|]). exact Hr2.
  - destruct Hr2 as (Er2 & Eg2 & Em2). apply wp_call, fwp_fn, wp_modify, wp_ret. split; [done|]. exists s1.
    do 3 (split; [done|]). by apply Hesc.
Qed.

(** The slot after its recovery: the platform was reset, or the partition
    restarted in a fresh instance. *)
Definition slot_left (s s' : spm) (a : asched) (x : amutex) (i : nat) (sp sp' : wt_spm_sp) (p : co_ref) (k : aco)
    (dec : wt_sp_recovery_decision) : Prop :=
  g_spm_sp s' = <[i := sp']> (g_spm_sp s) ∧
  (sp_fault_pending sp' = false ∧ sp_partition_id sp' = sp_partition_id sp) ∧
  (∀ a', slot_wf a' sp p → slot_wf a' sp' p) ∧
  (sm_failed s' = true ∨ dec = WT_SP_RECOVERY_RESTART ∧ reborn k sp p (memory (sm_world s)) s' ∧
     ∃ a', restarted s s' a a' x sp' p).
(** The whole system after the recovery of a slot: the runtime without the old
    instance, all memory but that of the partition and of the hooks as it was,
    and the slot table changed in this slot only. *)
Record slot_recovered (ticks : Z) (s : spm) (a : asched) (x : amutex) (i : nat) (sp : wt_spm_sp) (p : co_ref) (k : aco)
    (kp : nat) (pr : wt_ffm_partition_runtime) (d : wt_domain_descriptor) (s' : spm) : Prop := {
  sv_reset : partition_reset (sm_world s) (sp_partition_id sp) kp pr (sm_world s');
  sv_memory y : outside k sp y → memory (sm_world s') y = memory (sm_world s) y;
  sv_slot : ∃ sp', slot_left s s' a x i sp sp' p k (fst (decision d ticks (sp_restart sp))) ∧
    Some (sp_restart sp') = snd (decision d ticks (sp_restart sp));
}.

Lemma slot_wf_fields a sp sp' p :
  (sp_co sp', sp_scrub_base sp', sp_scrub_size sp', sp_entry sp', sp_scrub2_base sp', sp_scrub2_size sp') =
  (sp_co sp, sp_scrub_base sp, sp_scrub_size sp, sp_entry sp, sp_scrub2_base sp, sp_scrub2_size sp) →
  slot_wf a sp p → slot_wf a sp' p.
Proof. intros [= E1 E2 E3 E4 E5 E6] [S1 S2 S3 S4]. constructor; rewrite ?E1, ?E2, ?E3, ?E4, ?E5, ?E6; done. Qed.

Lemma recover_slot_ok E ticks s a x i sp p k kp pr d :
  recoverable s a x i sp p → a_co a p = Some k → sp_in_use sp = true → sp_fault_pending sp = true →
  wt_spm_domain_for s (sp_partition_id sp) = Some d →
  wt_ffm_find_partition (rt (sm_world s)) (sp_partition_id sp) = Some (inr kp) →
  r_partitions (rt (sm_world s)) !! kp = Some pr →
  wp (recover_slot ticks i) E (λ _, slot_recovered ticks s a x i sp p k kp pr d) s.
Proof.
  intros Hrec Hk Hu Hp Hd Hfind Hpr. unfold recover_slot. apply wp_bind.
  eapply wp_get_sp; [apply Hrec|]. rewrite Hu, Hp. simpl. apply wp_bind. eapply wp_mod_sp; [apply Hrec|].
  set (sp1 := sp <| sp_fault_pending := false |>). set (s0 := s <| g_spm_sp := _ |>).
  assert (∀ l sp2, g_spm_sp l = <[i := sp2]> (g_spm_sp s) → g_spm_sp l !! i = Some sp2) as Hat.
  { intros l sp2 ->. eapply list_lookup_insert_eq, lookup_lt_Some, Hrec. }
  assert (recoverable s0 a x i sp1 p) as Hrec0.
  { destruct Hrec as [? ? ? ? ? [] ?]. constructor; try done; by first [apply Hat|constructor]. }
  apply wp_bind, wp_gets. change (wt_spm_domain_for (id s0) (sp_partition_id sp)) with (wt_spm_domain_for s (sp_partition_id sp)).
  rewrite Hd. cbv zeta. apply wp_bind, wp_call.
  eapply fwp_mono; [by apply (recovery_run_ok s0 a x i sp1 p k kp pr d ticks)|].
  intros [dec st] s2 (Est & s1 & Hres & Eg1 & Em1 & Er2 & Em2 & Hout). simpl in Est. subst st.
  change (sp_restart sp1) with (sp_restart sp) in *. set (dc := decision d ticks (sp_restart sp)) in *.
  assert (∃ st0, snd dc = Some st0) as [st0 Est].
  { unfold dc, decision, wt_sp_recovery_decide. destruct (negb _); [eauto|].
    destruct (wt_restart_policy_evaluate _ _ _ _) as [[] ?]; eauto. }
  assert (reborn k sp1 p (memory (sm_world s1)) s2 → reborn k sp p (memory (sm_world s)) s2) as Hnew.
  { intros [B1 B2]. split; [exact B1|]. intros y Hy Hns. rewrite (B2 y Hy Hns). change (reset_byte sp1) with (reset_byte sp).
    eapply reset_byte_same; [apply Hrec|done|]. intros z _ Hz _. by apply Em1. }
  assert (∃ sp2, slot_left s s2 a x i sp sp2 p k (fst dc)) as (sp2 & Eg2 & Hf2 & Hw2 & Ho2).
  { destruct Hout as [[Hf Eg2]|(Hdec & Eg2 & Hnew1 & a' & [])].
    - exists sp1. split_and!; [by rewrite Eg2, Eg1|done|done|intros a'; by apply slot_wf_fields|by left].
    - exists (sp1 <| sp_wait_kind := WT_SPM_WAIT_NONE |>). split_and!; [|done|done|intros a0; by apply slot_wf_fields|right].
      + rewrite Eg2, Eg1. apply list_insert_insert_eq.
      + split; [done|]. split; [by apply Hnew|]. exists a'. by constructor. }
  rewrite Est. eapply wp_mod_sp; [by apply Hat|]. simpl default. constructor.
  - by eapply reset_rt, Hres.
  - intros y Hy. simpl. rewrite Em2 by done. apply Em1, Hy.
  - exists (sp2 <| sp_restart := st0 |>). split; [|done]. split_and!; [|apply Hf2|apply Hf2| |].
    + simpl. rewrite Eg2. apply list_insert_insert_eq.
    + intros a' Ha'. eapply slot_wf_fields; [|by apply Hw2]. done.
    + destruct Ho2 as [?|(? & [] & a' & [])]; [by left|right]. split; [done|]. split; [by constructor|]. exists a'. by constructor.
Qed.

(** ** Every slot *)

Lemma find_partition_stable cl w w' pid : stable cl w w' →
  wt_ffm_find_partition (rt w') pid = wt_ffm_find_partition (rt w) pid.
Proof.
  intros [[_ Ec] _ Em _]. unfold wt_ffm_find_partition. rewrite Ec. destruct (pid <=? 0); [done|].
  assert (∀ l, search l (λ i, p ← r_partitions (rt w') !! i; m ← p_manifest p; Some (pm_domain_id m =? u32 pid)) =
               search l (λ i, p ← r_partitions (rt w) !! i; m ← p_manifest p; Some (pm_domain_id m =? u32 pid))) as ->; [|done].
  induction l as [|i l IH]; [done|]. simpl. rewrite <-IH.
  pose proof (Em i) as E. unfold manifest_of in E.
  destruct (r_partitions (rt w') !! i), (r_partitions (rt w) !! i); simpl in E |- *; [by rewrite E..|by rewrite <-E|done].
Qed.

(** A slot in use belongs to a partition of the manifest. *)
Definition registered (s : spm) (sp : wt_spm_sp) : Prop :=
  ∃ kp, wt_ffm_find_partition (rt (sm_world s)) (sp_partition_id sp) = Some (inr kp).
(** The scheduler's state between slices, with a given set of stacks. *)
Record settled (a0 : asched) (s : spm) : Prop := {
  se_sched : ∃ a x, idle (sched_of s) a ∧ same_stacks a0 a ∧ a_mutexes a = [x];
  se_wf : wf (rt (sm_world s));
  se_slots i sp : g_spm_sp s !! i = Some sp → sp_in_use sp = true →
    (∃ p, slot_wf a0 sp p) ∧ registered s sp;
}.
(** No slot before [n] waits for recovery. *)
Definition recovered_to (n : nat) (s : spm) : Prop :=
  ∀ i sp, (i < n)%nat → g_spm_sp s !! i = Some sp → sp_in_use sp = true → sp_fault_pending sp = false.

Lemma slots_insert (l : list wt_spm_sp) i sp' j spj : <[i := sp']> l !! j = Some spj →
  j = i ∧ spj = sp' ∨ j ≠ i ∧ l !! j = Some spj.
Proof. intros [(-> & -> & _)|[Hne Hj]]%list_lookup_insert_Some; [by left|right]. by split. Qed.

Lemma settled_round s i sp ticks a0 : settled a0 s → nvm_lock = 0%nat → hooks_ok (stack_byte a0) → sm_failed s = false →
  g_spm_sp s !! i = Some sp → recovered_to i s →
  wp (R := unit) (recover_slot ticks i) (λ _ _, False)
    (λ _ s', sm_failed s' = true ∨ settled a0 s' ∧ sm_failed s' = false ∧ recovered_to (S i) s' ∧
       length (g_spm_sp s') = length (g_spm_sp s)) s.
Proof.
  intros Hset Hn Hh Hf Hsp Hto. pose proof Hset as [(a & x & Hi & Hss & Hm) Hwf Hsl].
  destruct (sp_in_use sp && sp_fault_pending sp) eqn:Hact; cycle 1.
  { unfold recover_slot. apply wp_bind. eapply wp_get_sp; [done|].
    replace (negb (sp_in_use sp) || negb (sp_fault_pending sp)) with true
      by (by destruct (sp_in_use sp), (sp_fault_pending sp)).
    apply wp_ret. right. split_and!; try done. intros j spj Hj Hlj Hu. destruct (decide (j = i)) as [->|]; [|by apply (Hto j); [lia|..]].
    assert (spj = sp) as -> by congruence. by rewrite Hu in Hact. }
  apply andb_true_iff in Hact as [Hu Hp]. destruct (Hsl i sp Hsp Hu) as [(p & Hslw) (kp & Hfind)].
  assert (slot_wf a sp p) as Hslw' by by eapply slot_wf_same.
  destruct (wt_spm_domain_for s (sp_partition_id sp)) as [d|] eqn:Hd; cycle 1.
  { unfold recover_slot. apply wp_bind. eapply wp_get_sp; [done|]. rewrite Hu, Hp. simpl. apply wp_bind.
    eapply wp_mod_sp; [done|]. apply wp_bind, wp_gets. unfold id. simpl.
    match goal with |- context [wt_spm_domain_for ?t ?pid] => change (wt_spm_domain_for t pid) with (wt_spm_domain_for s pid) end.
    rewrite Hd. apply wp_ret. right. split_and!; [|done| |apply length_insert].
    - constructor; [by exists a, x|done|]. intros j spj Hj Huj. simpl in Hj.
      destruct (slots_insert _ i _ j spj Hj) as [[-> ->]|[Hne Hj']]; [|by apply Hsl in Hj'].
      split; [|by exists kp]. exists p. by apply (slot_wf_fields a0 sp).
    - intros j spj Hlt Hj Huj. simpl in Hj. destruct (slots_insert _ i _ j spj Hj) as [[-> ->]|[Hne Hj']]; [done|].
      by apply (Hto j); [lia|..]. }
  assert (∃ k, a_co a p = Some k) as [k Hk].
  { pose proof (sl_stack _ _ _ Hslw') as E. unfold stack_of in E. destruct (a_co a p) as [k|]; [eauto|done]. }
  destruct (find_partition_spec Hwf (sp_partition_id sp)) as (r & Hr & Hspec). rewrite Hfind in Hr. injection Hr as <-.
  destruct Hspec as (_ & _ & pr & _ & Hpr & _).
  assert (hooks_ok (stack_byte a)) as Hh'.
  { assert (∀ y, stack_byte a y → stack_byte a0 y) by (intros y; apply same_byte; by apply same_symm).
    destruct Hh. constructor; eauto. }
  eapply wp_mono; [apply (recover_slot_ok _ ticks s a x i sp p k kp pr d)|exact (λ _ _ H, H)|]; [by constructor|done..|].
  intros [] s' [Hres _ (sp' & (Eg & [Hf' Eid] & Hsw & Hout) & _)].
  destruct Hout as [?|(_ & _ & a' & Hre)]; [by left|right]. split_and!; [|apply Hre| |by rewrite Eg, length_insert].
  - assert (∃ cl, cl ≠ sp_partition_id sp) as [cl Hcl] by (exists (sp_partition_id sp + 1); lia).
    pose proof (ps_stable _ _ _ _ _ Hres cl Hcl) as Hst.
    constructor; [|apply Hres|].
    + exists a', (cleared p x). split_and!; [apply Hre|transitivity a; [done|apply Hre]|apply Hre].
    + intros j spj Hj Huj. unfold registered. rewrite (find_partition_stable _ _ _ _ Hst). rewrite Eg in Hj.
      destruct (slots_insert _ i _ j spj Hj) as [[-> ->]|[Hne Hj']]; [|by apply Hsl in Hj'].
      split; [exists p; by apply Hsw|]. exists kp. by rewrite Eid.
  - intros j spj Hlt Hj Huj. rewrite Eg in Hj. destruct (slots_insert _ i _ j spj Hj) as [[-> ->]|[Hne Hj']]; [done|].
    by apply (Hto j); [lia|..].
Qed.

Lemma seq_app_cons n l1 i l2 : seq 0 n = l1 ++ i :: l2 → i = length l1 ∧ (i < n)%nat.
Proof.
  intros Hl. assert (seq 0 n !! length l1 = Some i) as Hi by (rewrite Hl; by apply list_lookup_middle).
  apply lookup_seq in Hi as [-> Hlt]. simpl. lia.
Qed.

Lemma recover_faulted_ok s a0 : settled a0 s → nvm_lock = 0%nat → hooks_ok (stack_byte a0) → sm_failed s = false →
  fwp wt_spm_recover_faulted (λ _ s', sm_failed s' = true ∨
    settled a0 s' ∧ ∀ i sp, g_spm_sp s' !! i = Some sp → sp_in_use sp = true → sp_fault_pending sp = false) s.
Proof.
  intros Hset Hn Hh Hf. apply fwp_fn, wp_bind. eapply (wp_plat (λ _, True)). intros [] s1 Hq1.
  assert (settled a0 s1) as Hset1.
  { destruct Hset as [(a & x & Hi & Hss & Hm) Hwf Hsl], (proj2 Hq1) as [E1 E2 E3 E4]. constructor.
    - exists a, x. split; [|done]. eapply idle_quiet; [done|by apply quiet_all].
    - by rewrite E1.
    - intros i sp. unfold registered. rewrite E1, E2. apply Hsl. }
  pose proof (ke_failed _ _ _ (proj2 Hq1)) as Ef1. rewrite Hf in Ef1. apply wp_bind, wp_gets. unfold id. clear Hset Hf.
  apply (wp_for_each _ _ (λ l s', sm_failed s' = true ∨ settled a0 s' ∧ sm_failed s' = false ∧ recovered_to (length l) s' ∧
    length (g_spm_sp s') = length (g_spm_sp s1))).
  - right. split_and!; try done. intros j sp Hj. simpl in Hj. lia.
  - intros l1 i l2 s2 Hl Hinv. apply seq_app_cons in Hl as [Ei Hlt]. apply wp_bind, wp_gets. apply wp_when; intros Ht.
    + apply negb_true_iff in Ht. destruct Hinv as [?|(Hs2 & Hf2 & Hto & Hlen)]; [congruence|].
      destruct (lookup_lt_is_Some_2 (g_spm_sp s2) i) as [sp Hsp]; [simpl in *; lia|].
      eapply wp_mono; [apply (settled_round s2 i sp _ a0); try done; by rewrite Ei|done|].
      intros [] s3 [?|(? & ? & ? & ?)]; [by left|right]. rewrite length_app. simpl.
      replace (length l1 + 1)%nat with (S i) by lia. split_and!; [done..|congruence].
    + apply negb_false_iff in Ht. by left.
  - intros s2 [?|(Hs2 & _ & Hto & Hlen)]; [by left|right]. split; [done|]. intros i sp Hsp. apply (Hto i); [|done].
    rewrite length_seq, <-Hlen. by eapply lookup_lt_Some.
Qed.

(** C5: Recovering a partition that faulted is defined and contained. Its
    clients get their requests completed and its own requests and connections
    are gone, while the live requests of every other client keep their slots;
    no other entry of the slot table changes, and no byte of memory outside
    the partition's own stack, its own data band and the data of the services'
    restart hooks. It ends in a reset of the platform, or with the partition
    restarted as its policy allows: its first frame is built on a stack that
    was zeroed, its data band is zero but for the data section, which is
    loaded from its image again (up to what the hooks store there), it is
    blocked until its next message, its lock is free or with the next waiter
    and it waits for none. *)
Theorem recovery_contains ticks s a x i sp p k kp pr d :
  recoverable s a x i sp p → a_co a p = Some k → sp_in_use sp = true → sp_fault_pending sp = true →
  wt_spm_domain_for s (sp_partition_id sp) = Some d →
  wt_ffm_find_partition (rt (sm_world s)) (sp_partition_id sp) = Some (inr kp) →
  r_partitions (rt (sm_world s)) !! kp = Some pr →
  fwp (fn (recover_slot ticks i)) (λ _, slot_recovered ticks s a x i sp p k kp pr d) s.
Proof. intros Hrec Hk Hu Hp Hd Hfind Hpr. by apply fwp_fn, recover_slot_ok. Qed.

(** one run of the recovery loop is defined and leaves no partition marked
    as faulted, or the platform was reset. The runtime stays well-formed, the
    coroutines keep their stacks, and every slot can be recovered again. *)
Theorem recover_faulted_complete s a0 :
  settled a0 s → nvm_lock = 0%nat → hooks_ok (stack_byte a0) → sm_failed s = false →
  ∃ s', wt_spm_recover_faulted s = Some (s', tt) ∧
    (sm_failed s' = true ∨
     settled a0 s' ∧ ∀ i sp, g_spm_sp s' !! i = Some sp → sp_in_use sp = true → sp_fault_pending sp = false).
Proof. intros Hs Hn Hh Hf. destruct (fwp_run _ _ _ (recover_faulted_ok s a0 Hs Hn Hh Hf)) as (s' & [] & E & HQ). eauto. Qed.
End steps.

Module RecoverExample.
Import FfmExample DispatchExample.
#[local] Existing Instances DispatchExample.platform DispatchExample.dispatch_ports
  SchedProps.SchedExample.arch SchedProps.SchedExample.arch_ok.
#[local] Instance set_sp_scrub2_base : Setter sp_scrub2_base. Proof. derive_setter. Defined.
#[local] Instance set_sp_scrub2_size : Setter sp_scrub2_size. Proof. derive_setter. Defined.

(** Hooks without effect, and the storage partition's data band. *)
Definition storage_band : wt_band_image :=
  {| bi_load := 0x0C008000; bi_data := 0x30008000; bi_data_end := 0x30008010; bi_bss := 0x30008010; bi_end := 0x30008040 |}.
#[local] Instance fault_platform : FaultPlatform := {|
  nvm_client_partition_vault_restarted := λ p mem, (p, mem); initial_attest_hsm_restarted := None;
  restore_call := λ _ _ p mem, (p, mem, 0); arch_secure_irq_disable := λ _ p, p; arch_secure_irq_claim := λ _ p, (p, 0);
  arch_assert_privileged_thread := λ p, p; virtual_systick_reset := λ _ p, p;
  WT_GUEST0_RAM_BASE := 0x20000000; WT_GUEST1_RAM_BASE := 0x20010000; WT_GUEST_RAM_SIZE := 0x10000; g_wt_bands := [storage_band];
|}.

(** The storage partition faulted while it held the store lock. *)
Definition faulted_slot : wt_spm_sp :=
  storage_slot <| sp_fault_pending := true |> <| sp_scrub2_base := 0x30008000 |> <| sp_scrub2_size := 0x100 |>.
Definition faulted_on (w : world) (c : sched) : spm := running_on w c <| g_spm_sp := [faulted_slot] |>.
Definition faulted : spm := faulted_on call_taken (SchedProps.SchedExample.after SchedProps.SchedExample.contended).
Definition idle_now : asched :=
  SchedProps.SchedExample.two WT_CO_RUNNABLE WT_CO_BLOCKED [CoSlot 0] CoBootstrap SchedProps.SchedExample.held.

(** The hooks have no data. *)
Definition hook_data (x : Z) : Prop := False.
Lemma harmless stk : hooks_ok hook_data stk.
Proof. constructor; [done..|]. by intros x _ []. Qed.
Lemma faulted_slot_wf : slot_wf hook_data idle_now faulted_slot (CoSlot 0).
Proof.
  assert (∀ x, stack_byte idle_now x → 0x30000000 ≤ x < 0x30003000) as Hst.
  { intros x ([|[|[|i]]] & k & Hk & Hx); simpl in Hk; try done; injection Hk as <-; unfold in_stack in Hx; simpl in Hx; lia. }
  assert (∀ b, b ∈ [storage_band] → b = storage_band) as Hone by (intros b Hb; by apply list_elem_of_singleton in Hb).
  constructor; [done..|]. intros _. simpl. split_and!; [done|intros x Hx%Hst; lia| |].
  - split; [intros b ->%Hone _|intros b b' ->%Hone ->%Hone; done]. constructor; simpl; split_and?; lia || done.
  - intros b x ->%Hone _ Hx. simpl in Hx. split; [intros ?%Hst; lia|by intros []].
Qed.
Lemma sched_of_faulted w c : sched_of (faulted_on w c) = c.
Proof. by destruct c. Qed.
Lemma faulted_recoverable w c : idle c idle_now → wf (rt w) →
  recoverable hook_data (faulted_on w c) idle_now SchedProps.SchedExample.held 0 faulted_slot (CoSlot 0).
Proof.
  intros Hi Hwf. constructor; [by rewrite sched_of_faulted|done|done|apply harmless|done|exact faulted_slot_wf|done].
Qed.
Lemma faulted_settled w c kp : idle c idle_now → wf (rt w) → wt_ffm_find_partition (rt w) 1 = Some (inr kp) →
  settled hook_data idle_now (faulted_on w c).
Proof.
  intros Hi Hwf Hk. constructor; [|done|].
  - exists idle_now, SchedProps.SchedExample.held. split; [by rewrite sched_of_faulted|done].
  - intros [|i] sp Hsp _; [|done]. injection Hsp as <-. split; [exists (CoSlot 0); exact faulted_slot_wf|by exists kp].
Qed.

Definition storage_runtime : wt_ffm_partition_runtime := default partition_zero (r_partitions (rt call_taken) !! 0%nat).
Definition storage_domain : wt_domain_descriptor :=
  Domain.Example.domain 1 1 2 0 1 0x0C000200 0x30001000
    [Domain.Example.code; Domain.Example.ram 0x30001000; Domain.Example.mailbox].
Lemma faulted_domain w c : r_manifest (rt w) = Some ManifestExample.manifest →
  wt_spm_domain_for (faulted_on w c) 1 = Some storage_domain.
Proof. intros E. unfold wt_spm_domain_for. simpl. by rewrite E. Qed.
Lemma faulted_find w c k : wt_ffm_find_partition (rt w) 1 = Some (inr k) →
  wt_ffm_find_partition (rt (sm_world (faulted_on w c))) (sp_partition_id faulted_slot) = Some (inr k).
Proof. done. Qed.
Lemma faulted_runtime w c k pr : r_partitions (rt w) !! k = Some pr →
  r_partitions (rt (sm_world (faulted_on w c))) !! k = Some pr.
Proof. done. Qed.
Lemma call_taken_manifest : r_manifest (rt call_taken) = Some ManifestExample.manifest.
Proof. vm_compute. reflexivity. Qed.
Lemma call_taken_wf : wf (rt call_taken).
Proof. exact (reachable_example_wf _ call_taken_reachable). Qed.

Lemma recovery_contains_witness :
  fwp (fn (recover_slot 7 0)) (λ _, slot_recovered hook_data 7 faulted idle_now SchedProps.SchedExample.held 0 faulted_slot (CoSlot 0)
    (SchedProps.SchedExample.k0 WT_CO_RUNNABLE) 0 storage_runtime storage_domain) faulted ∧
  fst (decision storage_domain 7 (sp_restart faulted_slot)) = WT_SP_RECOVERY_RESTART.
Proof.
  split; [|reflexivity]. apply (recovery_contains hook_data).
  - apply faulted_recoverable; [exact SchedProps.SchedExample.after_contended|exact call_taken_wf].
  - reflexivity.
  - reflexivity.
  - reflexivity.
  - exact (faulted_domain call_taken _ call_taken_manifest).
  - exact (faulted_find call_taken _ 0 (proj1 call_taken_storage)).
  - exact (faulted_runtime call_taken _ 0 _ (proj2 call_taken_storage)).
Defined.

Lemma recover_faulted_complete_witness :
  ∃ s', wt_spm_recover_faulted faulted = Some (s', tt) ∧
    (sm_failed s' = true ∨ settled hook_data idle_now s' ∧
     ∀ i sp, g_spm_sp s' !! i = Some sp → sp_in_use sp = true → sp_fault_pending sp = false).
Proof.
  apply (recover_faulted_complete hook_data faulted idle_now).
  - exact (faulted_settled call_taken _ 0 SchedProps.SchedExample.after_contended call_taken_wf (proj1 call_taken_storage)).
  - reflexivity.
  - apply harmless.
  - reflexivity.
Defined.
End RecoverExample.
