(* ===== verification/Service.v ===== *)
(** * Shared by the flash drivers of the ports: [port/*/hsm_flash.c]

    The geometry of a flash context, the error codes of wolfHSM, and the check of
    a staged image's header, which the staging backends of the ports share. *)

From Stdlib Require Import ZArith Lia.
From stdpp Require Import base list numbers option sets.
From S2P Require Import Prelude Buffers CState FfmTypes.

Record wt_hsm_flash_config := { cf_base : Z; cf_size : Z; cf_sector_size : Z; cf_program_unit : Z }.
(** The context pointer a caller passes: one of the driver's, or any other. *)
Inductive flash_ctx := CtxHsm | CtxFwu | CtxOther (p : Z).
#[export] Instance flash_ctx_eq_dec : EqDecision flash_ctx.
Proof. solve_decision. Defined.

(** The codes are those of an external library, which distinguishes them. *)
Class WhErrors := {
  WH_ERROR_OK : Z;
  WH_ERROR_BADARGS : Z;
  WH_ERROR_ABORTED : Z;
  WH_ERROR_LOCKED : Z;
  WH_ERROR_NOTVERIFIED : Z;
  WH_ERROR_NOTBLANK : Z;
}.
Class WhErrorsOk `{WhErrors} : Prop := {
  codes_differ : WH_ERROR_BADARGS ≠ WH_ERROR_OK ∧ WH_ERROR_ABORTED ≠ WH_ERROR_OK ∧ WH_ERROR_LOCKED ≠ WH_ERROR_OK ∧
    WH_ERROR_NOTVERIFIED ≠ WH_ERROR_OK ∧ WH_ERROR_NOTBLANK ≠ WH_ERROR_OK;
}.

Definition WT_FWU_IMAGE_HEADER_SIZE : Z := 0x400.
Definition WT_FWU_IMAGE_MAGIC : Z := 0x464C4F57.
Definition WT_FWU_HDR_TAG_VERSION : Z := 0x0001.

(** ** The image header *)

(** The header's tag-length-value records from [offset], with [hdr] the bytes of
    the header: the last version found, or [None] for a malformed record. *)
Fixpoint header_loop (fuel : nat) (hdr : Z → Z) (offset : Z) (version : option Z) : option (option Z) :=
  match fuel with
  | O => None
  | S fuel' =>
    if negb (offset + 4 <=? WT_FWU_IMAGE_HEADER_SIZE) then Some version else
    if hdr offset =? 0xFF then header_loop fuel' hdr (offset + 1) version else
    let tag := hdr offset .| (hdr (offset + 1) .<< 8) in
    let len := hdr (offset + 2) .| (hdr (offset + 3) .<< 8) in
    if tag =? 0 then Some version else
    if WT_FWU_IMAGE_HEADER_SIZE <? offset + 4 + len then None else
    let version := if (tag =? WT_FWU_HDR_TAG_VERSION) && (len =? 4)
                   then Some (of_le (mem_read hdr (offset + 4) 4)) else version in
    header_loop fuel' hdr (offset + 4 + len) version
  end.
(** [verify] on the bytes of the update partition: the version, or a refusal. *)
Definition header_version (hdr : Z → Z) (staged_size : Z) : option Z :=
  if staged_size <? WT_FWU_IMAGE_HEADER_SIZE then None else
  if negb (of_le (mem_read hdr 0 4) =? WT_FWU_IMAGE_MAGIC) then None else
  if staged_size - WT_FWU_IMAGE_HEADER_SIZE <? of_le (mem_read hdr 4 4) then None else
  match header_loop (Z.to_nat WT_FWU_IMAGE_HEADER_SIZE) hdr 8 None with
  | Some version => version
  | None => None
  end.

(** * Service loops: [spm_gate.h], [services/*.c]

    A service partition reaches the gate through a transport: it fills a call
    block, traps, and reads the results from the block. Here a request holds
    the fields a service sets for its operation (the block is zeroed before),
    buffers are passed by value, and the transport is a function on the rest of
    the system [W]. The front half of every service loop, the copying of input
    vectors and the writing of output vectors are shared by the services. *)

Definition PSA_ERROR_NOT_PERMITTED : Z := -133.
Definition PSA_ERROR_BAD_STATE : Z := -137.
Definition PSA_ERROR_BUFFER_TOO_SMALL : Z := -138.
Definition PSA_ERROR_INSUFFICIENT_STORAGE : Z := -142.
Definition PSA_ERROR_STORAGE_FAILURE : Z := -146.
Definition PSA_SUCCESS_REBOOT : Z := 1.

Definition PSA_WAIT_ANY : Z := 0xFFFFFFFF.

(** ** Requests *)

Inductive svc_op :=
| SvcWait (signal_mask : Z)
| SvcClear
| SvcGet (signal : Z)
| SvcRead (msg_handle : Z) (vec_idx : nat) (num_bytes : Z)
| SvcWrite (msg_handle : Z) (vec_idx : nat) (buffer : list Z)
| SvcReply (msg_handle status : Z)
| SvcConnect (sid version : Z)
| SvcCall (msg_handle call_type : Z) (sp_in : list (list Z)) (sp_out : list Z)   (** output lengths *)
| SvcClose (msg_handle : Z)
| SvcFwu (call_type offset : Z) (buffer : list Z) (num_bytes version : Z).
Record svc_request := { rq_partition_id : Z; rq_op : svc_op }.

(** The [ret_*] fields of the block after the call, and what the gate stored
    through its pointers: [sr_data] is the [ret_size] bytes of a read, [sr_out]
    the contents of the output vectors of a call. *)
Record svc_result := {
  sr_return : Z;
  sr_int : Z;
  sr_status : Z;
  sr_tick : Z;
  sr_handle : Z;
  sr_version : Z;
  sr_asserted : Z;
  sr_msg : psa_msg;
  sr_data : list Z;
  sr_out : list (list Z);
}.
Definition transport_fn (W : Type) : Type := svc_request → W → W * svc_result.

Definition in_size (msg : psa_msg) (i : nat) : Z := default 0 (pm_in_size msg !! i).
Definition out_size (msg : psa_msg) (i : nat) : Z := default 0 (pm_out_size msg !! i).

Section service.
Context {W : Type} (transport : transport_fn W).

(** [transport(runtime, &call)] *)
Definition xfer (partition_id : Z) (op : svc_op) : func W svc_result := λ w,
  Some (transport {| rq_partition_id := partition_id; rq_op := op |} w).

(** The result and [*signal]. The lowest asserted bit is
    [asserted & (0 - asserted)]. *)
Definition wt_spm_wait_service_signal (partition_id : Z) : func W (Z * Z) := fn (
  r ← call (xfer partition_id (SvcWait PSA_WAIT_ANY));
  if negb (sr_return r =? WT_FFM_SUCCESS) || negb (sr_int r =? WT_FFM_SUCCESS) then mret (WT_FFM_ERROR_STATE, 0) else
  let asserted := sr_asserted r in
  if has_any asserted PSA_DOORBELL then
    c ← call (xfer partition_id SvcClear);
    if negb (sr_return c =? WT_FFM_SUCCESS) || negb (sr_int c =? WT_FFM_SUCCESS) then mret (WT_FFM_ERROR_STATE, 0) else
    let asserted := asserted .&~ PSA_DOORBELL in
    mret (WT_FFM_SUCCESS, asserted .& u32 (0 - asserted))
  else mret (WT_FFM_SUCCESS, asserted .& u32 (0 - asserted))).

(** Drain input vector [idx] into a buffer of [capacity] bytes: the bytes read,
    or an error. A read that stored more than it was asked for would leave the
    buffer. *)
Fixpoint drain_loop (fuel : nat) (partition_id msg_handle : Z) (idx : nat) (capacity : Z) (buffer : list Z) :
    prog W (Z + list Z) (Z + list Z) :=
  match fuel with
  | O => defined None
  | S fuel' =>
    r ← call (xfer partition_id (SvcRead msg_handle idx (capacity - Z.of_nat (length buffer))));
    if negb (sr_return r =? WT_FFM_SUCCESS) then mret (inl WT_FFM_ERROR_STATE) else
    if (length (sr_data r) =? 0)%nat then mret (inr buffer) else
    let buffer := buffer ++ sr_data r in
    defined (if Z.of_nat (length buffer) <=? capacity then Some tt else None);;
    if capacity <=? Z.of_nat (length buffer) then mret (inr buffer)
    else drain_loop fuel' partition_id msg_handle idx capacity buffer
  end.
Definition read_vec (partition_id msg_handle : Z) (idx : nat) (capacity : Z) : func W (Z + list Z) :=
  fn (drain_loop (S (Z.to_nat capacity)) partition_id msg_handle idx capacity []).

Definition write_vec (partition_id msg_handle : Z) (idx : nat) (data : list Z) : func W Z := fn (
  r ← call (xfer partition_id (SvcWrite msg_handle idx data));
  if negb (sr_return r =? WT_FFM_SUCCESS) || negb (sr_int r =? WT_FFM_SUCCESS) then mret WT_FFM_ERROR_STATE
  else mret WT_FFM_SUCCESS).
End service.

(** ** What the services rely on *)

(** A read stores bytes, and no more than it was asked for. *)
Class TransportOk {W : Type} (transport : transport_fn W) : Prop :=
  read_bounded pid h idx n w : 0 ≤ n →
    let r := (transport {| rq_partition_id := pid; rq_op := SvcRead h idx n |} w).2 in
    Z.of_nat (length (sr_data r)) ≤ n ∧ Forall is_byte (sr_data r).

(** The operations of the front half, with respect to a relation that every
    request of theirs keeps. *)
Section front.
Context {W : Type} (transport : transport_fn W) `{!TransportOk transport}.
Context (R : W → W → Prop) `{!PreOrder R}.
Hypothesis steps : ∀ pid op w, (∀ ct off buf n v, op ≠ SvcFwu ct off buf n v) →
  R w (transport {| rq_partition_id := pid; rq_op := op |} w).1.

Lemma xfer_ok pid op w : (∀ ct off buf n v, op ≠ SvcFwu ct off buf n v) →
  fwp (xfer transport pid op) (λ r w', R w w' ∧ r = (transport {| rq_partition_id := pid; rq_op := op |} w).2) w.
Proof.
  intros Hop. unfold fwp, xfer. pose proof (steps pid op w Hop) as Hs.
  by destruct (transport _ w) as [w' r].
Qed.

Lemma drain_loop_ok fuel pid h idx cap buf w0 w :
  R w0 w → Z.of_nat (length buf) < cap → Forall is_byte buf → cap - Z.of_nat (length buf) < Z.of_nat fuel →
  wp (drain_loop transport fuel pid h idx cap buf) (λ _ _, False)
    (λ r w', R w0 w' ∧ match r with inl e => e = WT_FFM_ERROR_STATE | inr l => Z.of_nat (length l) ≤ cap ∧ Forall is_byte l end) w.
Proof.
  revert buf w. induction fuel as [|fuel IH]; intros buf w Hr Hl Hb Hf; simpl; [lia|].
  apply wp_bind, wp_call. eapply fwp_mono; [by apply xfer_ok|]. intros r w1 [Hr1 ->].
  destruct (read_bounded pid h idx (cap - Z.of_nat (length buf)) w) as [Hn Hd]; [lia|].
  assert (R w0 w1) as Hr01 by by transitivity w.
  apply wp_if; intros _; [done|]. apply wp_if; intros E; [apply wp_ret; split; [done|split; [lia|done]]|].
  apply Nat.eqb_neq in E. apply wp_bind. rewrite length_app.
  rewrite (proj2 (Z.leb_le _ _)) by lia. eapply wp_defined; [done|].
  apply wp_if; intros E2; bool_hyps.
  - apply wp_ret. split; [done|]. rewrite length_app. split; [lia|]. by apply Forall_app.
  - apply IH; [done|rewrite length_app; lia|by apply Forall_app|rewrite length_app; lia].
Qed.
Lemma read_vec_ok pid h idx cap w : 0 < cap →
  fwp (read_vec transport pid h idx cap) (λ r w', R w w' ∧
    match r with inl e => e = WT_FFM_ERROR_STATE | inr l => Z.of_nat (length l) ≤ cap ∧ Forall is_byte l end) w.
Proof.
  intros Hc. apply fwp_fn. eapply wp_mono; [apply (drain_loop_ok _ _ _ _ _ _ w)|done|done]; [done|simpl; lia|done|simpl; lia].
Qed.
Lemma write_vec_ok pid h idx data w :
  fwp (write_vec transport pid h idx data) (λ _ w', R w w') w.
Proof.
  apply fwp_fn, wp_bind, wp_call. eapply fwp_mono; [by apply xfer_ok|]. intros r w1 [Hr _].
  by apply wp_if; intros _; apply wp_ret.
Qed.
Lemma wait_service_signal_ok pid w :
  fwp (wt_spm_wait_service_signal transport pid) (λ _ w', R w w') w.
Proof.
  apply fwp_fn, wp_bind, wp_call. eapply fwp_mono; [by apply xfer_ok|]. intros r w1 [Hr _].
  apply wp_if; intros _; [by apply wp_ret|]. cbv zeta. apply wp_if; intros _; [|by apply wp_ret].
  apply wp_bind, wp_call. eapply fwp_mono; [by apply xfer_ok|]. intros c w2 [Hr2 _].
  assert (R w w2) by by transitivity w1. by apply wp_if; intros _; apply wp_ret.
Qed.
End front.
