(* ===== verification/Fwu.v ===== *)
(** * The firmware update service: [services/fwu_service.c], [fwu_service.h]

    The PSA firmware update state machine for the one component, the staging
    backend it drives, the service that runs a client's requests on it, and the
    gate backend of the update partition ([spm_partitions.c]). [W] is the
    system behind the transport and the backend. *)

From Stdlib Require Import ZArith Lia.
From stdpp Require Import base list numbers option sets.
From S2P Require Import Prelude Buffers CState FfmTypes SpmGate Service.

(** ** Data *)

Definition PSA_FWU_READY : Z := 0.
Definition PSA_FWU_WRITING : Z := 1.
Definition PSA_FWU_CANDIDATE : Z := 2.
Definition PSA_FWU_STAGED : Z := 3.
Definition PSA_FWU_FAILED : Z := 4.
Definition PSA_FWU_UPDATED : Z := 7.

Definition WT_FWU_OP_QUERY : Z := 1.
Definition WT_FWU_OP_START : Z := 2.
Definition WT_FWU_OP_WRITE : Z := 3.
Definition WT_FWU_OP_FINISH : Z := 4.
Definition WT_FWU_OP_INSTALL : Z := 5.
Definition WT_FWU_OP_CANCEL : Z := 6.
Definition WT_FWU_OP_CLEAN : Z := 7.
Definition WT_FWU_OP_REJECT : Z := 8.
Definition WT_FWU_OP_REBOOT : Z := 9.
Definition WT_FWU_OP_ACCEPT : Z := 10.

Definition WT_FWU_COMPONENT_PRIMARY : Z := 0.
Definition WT_WOLFBOOT_MAGIC_TRAIL : Z := 0x544F4F42.
Definition WT_WOLFBOOT_IMG_STATE_UPDATING : Z := 0x70.
Definition WT_FWU_VERSION_UNDECLARED : Z := 0xFFFFFFFF.
Definition WT_FWU_OWNER_IDLE_TIMEOUT_TICKS : Z := 30000.
Definition WT_FWU_BLOCK_MAX : Z := 1024.

Record wt_fwu_req := { fr_component : Z; fr_offset : Z; fr_size : Z; fr_version : Z }.
Definition sizeof_req : Z := 16.
(** [memcpy(&req, buffer, sizeof(req))] *)
Definition req_of_bytes (buf : list Z) : wt_fwu_req :=
  {| fr_component := field buf 0 4; fr_offset := field buf 4 4; fr_size := field buf 8 4; fr_version := field buf 12 4 |}.

Record psa_fwu_component_info := {
  ci_state : Z;
  ci_error : Z;
  ci_build : Z;   (** the [build] of [version]; its other fields are 0 *)
  ci_max_size : Z;
  ci_staged_size : Z;
}.
Definition sizeof_info : Z := 32.
Definition bytes_of_info (i : psa_fwu_component_info) : list Z :=
  [ci_state i .& 0xFF; 0; 0; 0] ++ to_le 4 (u32 (ci_error i)) ++ [0; 0; 0; 0] ++ to_le 4 (ci_build i) ++
  to_le 4 (ci_max_size i) ++ to_le 4 0 ++ to_le 4 0 ++ to_le 4 (ci_staged_size i).

(** The operations return 0 for success; [verify] also gives the version of
    the staged image's header. *)
Record wt_fwu_backend (W : Type) := {
  fb_begin : option (W → W * Z);
  fb_write : option (Z → list Z → W → W * Z);
  fb_arm : option (Z → Z → W → W * Z);
  fb_disarm : option (W → W * Z);
  fb_capacity : Z;
  fb_align : Z;
  fb_verify : option (Z → W → W * (Z * Z));
}.
Arguments fb_begin {W}. Arguments fb_write {W}. Arguments fb_arm {W}. Arguments fb_disarm {W}.
Arguments fb_capacity {W}. Arguments fb_align {W}. Arguments fb_verify {W}.

Record wt_fwu_service_ctx (W : Type) := {
  fc_transport : option (transport_fn W);
  fc_backend : option (wt_fwu_backend W);
  fc_version_floor : Z;
  fc_state : Z;
  fc_write_high : Z;
  fc_candidate_version : Z;
  fc_armed : Z;
  fc_error : Z;
  fc_active_version : Z;
  fc_owner : Z;
  fc_owner_tick : Z;
}.
Arguments fc_transport {W}. Arguments fc_backend {W}. Arguments fc_version_floor {W}. Arguments fc_state {W}.
Arguments fc_write_high {W}. Arguments fc_candidate_version {W}. Arguments fc_armed {W}. Arguments fc_error {W}.
Arguments fc_active_version {W}. Arguments fc_owner {W}. Arguments fc_owner_tick {W}.

(** The context and the system behind it. *)
Record fwu_sys (W : Type) := { fs_ctx : wt_fwu_service_ctx W; fs_world : W }.
Arguments fs_ctx {W}. Arguments fs_world {W}.

Section setters.
Context {W : Type}.
#[export] Instance ctx_eta : Settable (wt_fwu_service_ctx W) := λ c,
  {| fc_transport := fc_transport c; fc_backend := fc_backend c; fc_version_floor := fc_version_floor c;
     fc_state := fc_state c; fc_write_high := fc_write_high c; fc_candidate_version := fc_candidate_version c;
     fc_armed := fc_armed c; fc_error := fc_error c; fc_active_version := fc_active_version c;
     fc_owner := fc_owner c; fc_owner_tick := fc_owner_tick c |}.
#[export] Instance set_fc_state : Setter (@fc_state W). Proof. derive_setter. Defined.
#[export] Instance set_fc_write_high : Setter (@fc_write_high W). Proof. derive_setter. Defined.
#[export] Instance set_fc_candidate : Setter (@fc_candidate_version W). Proof. derive_setter. Defined.
#[export] Instance set_fc_armed : Setter (@fc_armed W). Proof. derive_setter. Defined.
#[export] Instance set_fc_error : Setter (@fc_error W). Proof. derive_setter. Defined.
#[export] Instance set_fc_owner : Setter (@fc_owner W). Proof. derive_setter. Defined.
#[export] Instance set_fc_owner_tick : Setter (@fc_owner_tick W). Proof. derive_setter. Defined.
#[export] Instance sys_eta : Settable (fwu_sys W) := λ s, {| fs_ctx := fs_ctx s; fs_world := fs_world s |}.
#[export] Instance set_fs_ctx : Setter (@fs_ctx W). Proof. derive_setter. Defined.
#[export] Instance set_fs_world : Setter (@fs_world W). Proof. derive_setter. Defined.
End setters.

(** ** The update trigger of the boot loader *)

(** The block after the call, or [None] for the refusal. [len] is the length of
    [block]. *)
Definition wt_fwu_wolfboot_arm_trailer (block : list Z) : option (list Z) :=
  let len := length block in
  if (len <? 5)%nat then None else
  let block := replicate len 0xFF in
  let block := <[(len - 5)%nat := WT_WOLFBOOT_IMG_STATE_UPDATING]> block in
  let block := <[(len - 4)%nat := WT_WOLFBOOT_MAGIC_TRAIL .& 0xFF]> block in
  let block := <[(len - 3)%nat := (WT_WOLFBOOT_MAGIC_TRAIL .>> 8) .& 0xFF]> block in
  let block := <[(len - 2)%nat := (WT_WOLFBOOT_MAGIC_TRAIL .>> 16) .& 0xFF]> block in
  let block := <[(len - 1)%nat := (WT_WOLFBOOT_MAGIC_TRAIL .>> 24) .& 0xFF]> block in
  Some block.

(** ** The state machine *)

Section fwu.
Context {W : Type}.
Definition in_backend {A} (f : W → W * A) : func (fwu_sys W) A := λ s,
  let '(w, a) := f (fs_world s) in Some (s <| fs_world := w |>, a).
Definition on_world {A} (f : func W A) : func (fwu_sys W) A := λ s,
  '(w, a) ← f (fs_world s); Some (s <| fs_world := w |>, a).
Definition mod_ctx {R} (f : wt_fwu_service_ctx W → wt_fwu_service_ctx W) : prog (fwu_sys W) R unit :=
  modify (λ s, s <| fs_ctx := f (fs_ctx s) |>).
(** A call through a function pointer that may be null: 0 when it is. *)
Definition opt_op {R} (f : option (W → W * Z)) : prog (fwu_sys W) R Z :=
  match f with None => mret 0 | Some f => call (in_backend f) end.

Definition wt_fwu_component_ok (component : Z) : bool := component =? WT_FWU_COMPONENT_PRIMARY.

Definition fail_with (error : Z) : wt_fwu_service_ctx W → wt_fwu_service_ctx W := λ c,
  c <| fc_state := PSA_FWU_FAILED |> <| fc_error := error |>.

Definition wt_fwu_start (component version : Z) : func (fwu_sys W) Z := fn (
  c ← gets fs_ctx;
  match fc_backend c with
  | None => mret PSA_ERROR_BAD_STATE
  | Some b =>
    if negb (wt_fwu_component_ok component) then mret PSA_ERROR_INVALID_ARGUMENT else
    if negb (fc_state c =? PSA_FWU_READY) then mret PSA_ERROR_BAD_STATE else
    if negb (version =? WT_FWU_VERSION_UNDECLARED) && (version <? fc_version_floor c)
    then mret PSA_ERROR_NOT_PERMITTED else
    ret ← opt_op (fb_begin b);
    if negb (ret =? 0) then mret PSA_ERROR_STORAGE_FAILURE else
    mod_ctx (λ c, c <| fc_state := PSA_FWU_WRITING |> <| fc_write_high := 0 |>
                    <| fc_candidate_version := version |> <| fc_armed := 0 |>);;
    mret PSA_SUCCESS
  end).

Definition put {R} (b : wt_fwu_backend W) (offset : Z) (data : list Z) : prog (fwu_sys W) R Z :=
  opt_op ((λ f, f offset data) <$> fb_write b).

(** The programming of a block whose range was checked: [end_] is the end of the
    data, and a block that is not a multiple of the write granularity is
    completed with erased bytes. *)
Definition fwu_program (b : wt_fwu_backend W) (offset : Z) (data : list Z) (align end_ : Z) : prog (fwu_sys W) Z Z :=
  let size := Z.of_nat (length data) in
  let remainder := size mod align in
  if negb (remainder =? 0) then
    let padding := align - remainder in
    let prefix := size - remainder in
    if (WT_FWU_BLOCK_MAX <? align) || (0xFFFFFFFF - padding <? end_) || (fb_capacity b <? end_ + padding)
    then mret PSA_ERROR_INVALID_ARGUMENT else
    ret ← (if negb (prefix =? 0) then put b offset (take (Z.to_nat prefix) data) else mret 0);
    if negb (ret =? 0) then mret PSA_ERROR_STORAGE_FAILURE else
    ret ← put b (u32 (offset + prefix)) (drop (Z.to_nat prefix) data ++ replicate (Z.to_nat padding) 0xFF);
    if negb (ret =? 0) then mret PSA_ERROR_STORAGE_FAILURE else mret PSA_SUCCESS
  else
    ret ← put b offset data;
    if negb (ret =? 0) then mret PSA_ERROR_STORAGE_FAILURE else mret PSA_SUCCESS.

Definition wt_fwu_write (component offset : Z) (data : list Z) : func (fwu_sys W) Z := fn (
  c ← gets fs_ctx;
  match fc_backend c with
  | None => mret PSA_ERROR_BAD_STATE
  | Some b =>
    let size := Z.of_nat (length data) in
    if negb (wt_fwu_component_ok component) || (size =? 0) then mret PSA_ERROR_INVALID_ARGUMENT else
    if negb (fc_state c =? PSA_FWU_WRITING) then mret PSA_ERROR_BAD_STATE else
    let align := if fb_align b =? 0 then 1 else fb_align b in
    let end_ := u32 (offset + size) in
    if (end_ <? offset) || (fb_capacity b <? end_) || negb (offset mod align =? 0) then mret PSA_ERROR_INVALID_ARGUMENT else
    status ← fwu_program b offset data align end_;
    (if status =? PSA_ERROR_STORAGE_FAILURE then mod_ctx (fail_with PSA_ERROR_STORAGE_FAILURE)
     else when ((status =? PSA_SUCCESS) && (fc_write_high c <? end_)) (mod_ctx (λ c, c <| fc_write_high := end_ |>)));;
    mret status
  end).

(** The staged image's header version against the declared one. *)
Definition fwu_bind_version (b : wt_fwu_backend W) : prog (fwu_sys W) Z unit :=
  match fb_verify b with
  | None => mret tt
  | Some verify =>
    c ← gets fs_ctx;
    '(ret, header_version) ← call (in_backend (verify (fc_write_high c)));
    if negb (ret =? 0) then mod_ctx (fail_with PSA_ERROR_INVALID_ARGUMENT);; early PSA_ERROR_INVALID_ARGUMENT else
    if fc_candidate_version c =? WT_FWU_VERSION_UNDECLARED
    then mod_ctx (λ c, c <| fc_candidate_version := header_version |>) else
    when (negb (header_version =? fc_candidate_version c))
      (mod_ctx (fail_with PSA_ERROR_NOT_PERMITTED);; early PSA_ERROR_NOT_PERMITTED)
  end.
Definition wt_fwu_finish (component : Z) : func (fwu_sys W) Z := fn (
  c ← gets fs_ctx;
  match fc_backend c with
  | None => mret PSA_ERROR_BAD_STATE
  | Some b =>
    if negb (wt_fwu_component_ok component) then mret PSA_ERROR_INVALID_ARGUMENT else
    if negb (fc_state c =? PSA_FWU_WRITING) then mret PSA_ERROR_BAD_STATE else
    if fc_write_high c =? 0 then mret PSA_ERROR_INVALID_ARGUMENT else
    fwu_bind_version b;;
    c ← gets fs_ctx;
    if (fc_candidate_version c =? WT_FWU_VERSION_UNDECLARED) || (fc_candidate_version c <? fc_version_floor c)
    then mod_ctx (fail_with PSA_ERROR_NOT_PERMITTED);; mret PSA_ERROR_NOT_PERMITTED else
    mod_ctx (λ c, c <| fc_state := PSA_FWU_CANDIDATE |>);;
    mret PSA_SUCCESS
  end).

Definition wt_fwu_install : func (fwu_sys W) Z := fn (
  c ← gets fs_ctx;
  match fc_backend c with
  | None => mret PSA_ERROR_BAD_STATE
  | Some b =>
    if negb (fc_state c =? PSA_FWU_CANDIDATE) then mret PSA_ERROR_BAD_STATE else
    match fb_arm b, fb_disarm b with
    | Some arm, Some _ =>
      if fc_candidate_version c <? fc_version_floor c
      then mod_ctx (fail_with PSA_ERROR_NOT_PERMITTED);; mret PSA_ERROR_NOT_PERMITTED else
      ret ← call (in_backend (arm (fc_write_high c) (fc_candidate_version c)));
      if negb (ret =? 0) then mret PSA_ERROR_STORAGE_FAILURE else
      mod_ctx (λ c, c <| fc_state := PSA_FWU_STAGED |> <| fc_armed := 1 |>);;
      mret PSA_SUCCESS_REBOOT
    | _, _ => mret PSA_ERROR_BAD_STATE
    end
  end).

Definition wt_fwu_cancel (component : Z) : func (fwu_sys W) Z := fn (
  c ← gets fs_ctx;
  match fc_backend c with
  | None => mret PSA_ERROR_BAD_STATE
  | Some _ =>
    if negb (wt_fwu_component_ok component) then mret PSA_ERROR_INVALID_ARGUMENT else
    if negb (fc_state c =? PSA_FWU_WRITING) && negb (fc_state c =? PSA_FWU_CANDIDATE) then mret PSA_ERROR_BAD_STATE else
    mod_ctx (fail_with PSA_SUCCESS);;
    mret PSA_SUCCESS
  end).

(** [if (armed != 0 && disarm != NULL) disarm()]: 0 when it is not called. *)
Definition disarm_armed {R} (c : wt_fwu_service_ctx W) (b : wt_fwu_backend W) : prog (fwu_sys W) R Z :=
  if negb (fc_armed c =? 0) then opt_op (fb_disarm b) else mret 0.
Definition cleaned (c : wt_fwu_service_ctx W) : wt_fwu_service_ctx W :=
  c <| fc_state := PSA_FWU_READY |> <| fc_write_high := 0 |> <| fc_candidate_version := 0 |> <| fc_armed := 0 |>
    <| fc_error := PSA_SUCCESS |>.

Definition wt_fwu_clean (component : Z) : func (fwu_sys W) Z := fn (
  c ← gets fs_ctx;
  match fc_backend c with
  | None => mret PSA_ERROR_BAD_STATE
  | Some b =>
    if negb (wt_fwu_component_ok component) then mret PSA_ERROR_INVALID_ARGUMENT else
    if negb (fc_state c =? PSA_FWU_FAILED) && negb (fc_state c =? PSA_FWU_UPDATED) then mret PSA_ERROR_BAD_STATE else
    ret ← disarm_armed c b;
    if negb (ret =? 0) then mret PSA_ERROR_STORAGE_FAILURE else
    mod_ctx cleaned;;
    mret PSA_SUCCESS
  end).

Definition wt_fwu_reject (error : Z) : func (fwu_sys W) Z := fn (
  c ← gets fs_ctx;
  match fc_backend c with
  | None => mret PSA_ERROR_BAD_STATE
  | Some b =>
    if negb (fc_state c =? PSA_FWU_STAGED) then mret PSA_ERROR_BAD_STATE else
    ret ← disarm_armed c b;
    if negb (ret =? 0) then mret PSA_ERROR_STORAGE_FAILURE else
    mod_ctx (λ c, fail_with error (c <| fc_armed := 0 |>));;
    mret PSA_SUCCESS
  end).

(** The call block of the request is zeroed, its partition included. *)
Definition wt_fwu_request_reboot : func (fwu_sys W) Z := fn (
  c ← gets fs_ctx;
  match fc_transport c with
  | None => mret PSA_ERROR_BAD_STATE
  | Some transport =>
    if negb (fc_state c =? PSA_FWU_STAGED) || (fc_armed c =? 0) then mret PSA_ERROR_BAD_STATE else
    r ← call (on_world (xfer transport 0 (SvcFwu WT_SPM_FWU_REBOOT 0 [] 0 0)));
    if negb (sr_return r =? WT_FFM_SUCCESS) || negb (sr_int r =? 0) then mret PSA_ERROR_NOT_SUPPORTED
    else mret PSA_SUCCESS_REBOOT
  end).

(** The status and [*info]. *)
Definition wt_fwu_query (component : Z) : func (fwu_sys W) (Z * option psa_fwu_component_info) := fn (
  c ← gets fs_ctx;
  match fc_backend c with
  | None => mret (PSA_ERROR_BAD_STATE, None)
  | Some b =>
    if negb (wt_fwu_component_ok component) then mret (PSA_ERROR_INVALID_ARGUMENT, None) else
    mret (PSA_SUCCESS, Some
      {| ci_state := fc_state c; ci_error := if fc_state c =? PSA_FWU_FAILED then fc_error c else PSA_SUCCESS;
         ci_build := fc_active_version c; ci_max_size := fb_capacity b; ci_staged_size := fc_write_high c |})
  end).

(** ** The service *)

Definition wt_fwu_owner_expired (owner owner_tick now_tick caller : Z) : bool :=
  if (owner =? 0) || (caller =? owner) then false
  else WT_FWU_OWNER_IDLE_TIMEOUT_TICKS <=? u32 (now_tick - owner_tick).

Definition wt_fwu_force_reset : func (fwu_sys W) Z := fn (
  c ← gets fs_ctx;
  ret ← (if negb (fc_armed c =? 0) then
           match fc_backend c with
           | Some b => match fb_disarm b with Some f => call (in_backend f) | None => mret (-1) end
           | None => mret (-1)
           end
         else mret 0);
  if negb (ret =? 0) then mret PSA_ERROR_STORAGE_FAILURE else
  mod_ctx (λ c, cleaned c <| fc_owner := 0 |>);;
  mret PSA_SUCCESS).

(** The request of a client that may make it. *)
Definition fwu_serve (transport : transport_fn W) (partition_id now_tick : Z) (msg : psa_msg) (req : wt_fwu_req)
    (buffer : list Z) : prog (fwu_sys W) Z Z :=
  let type := pm_type msg in
  if type =? WT_FWU_OP_QUERY then
    if out_size msg 0 <? sizeof_info then early PSA_ERROR_INVALID_ARGUMENT else
    '(status, info) ← call (wt_fwu_query (fr_component req));
    match info with
    | Some info =>
      ret ← call (on_world (write_vec transport partition_id (pm_handle msg) 0 (bytes_of_info info)));
      mret (if negb (ret =? WT_FFM_SUCCESS) then PSA_ERROR_GENERIC_ERROR else status)
    | None => mret status
    end else
  if type =? WT_FWU_OP_START then
    status ← call (wt_fwu_start (fr_component req) (fr_version req));
    when (status =? PSA_SUCCESS) (mod_ctx (λ c, c <| fc_owner := pm_client_id msg |> <| fc_owner_tick := now_tick |>));;
    mret status else
  if type =? WT_FWU_OP_WRITE then
    if negb (fr_size req =? Z.of_nat (length buffer) - sizeof_req) then mret PSA_ERROR_INVALID_ARGUMENT else
    call (wt_fwu_write (fr_component req) (fr_offset req) (drop (Z.to_nat sizeof_req) buffer)) else
  if type =? WT_FWU_OP_FINISH then call (wt_fwu_finish (fr_component req)) else
  if type =? WT_FWU_OP_INSTALL then call wt_fwu_install else
  if type =? WT_FWU_OP_CANCEL then call (wt_fwu_cancel (fr_component req)) else
  if type =? WT_FWU_OP_CLEAN then call (wt_fwu_clean (fr_component req)) else
  if type =? WT_FWU_OP_REJECT then call (wt_fwu_reject (i32_of_u32 (fr_version req))) else
  if type =? WT_FWU_OP_REBOOT then call wt_fwu_request_reboot
  else mret PSA_ERROR_NOT_SUPPORTED.

(** The owner and its clock after a request. *)
Definition fwu_settle (now_tick : Z) (msg : psa_msg) (c : wt_fwu_service_ctx W) : wt_fwu_service_ctx W :=
  if fc_state c =? PSA_FWU_READY then c <| fc_owner := 0 |> else
  if negb (fc_owner c =? 0) && (pm_client_id msg =? fc_owner c) && negb (pm_type msg =? WT_FWU_OP_QUERY) &&
     negb (pm_type msg =? WT_FWU_OP_START)
  then c <| fc_owner_tick := now_tick |> else c.

Definition wt_fwu_read_in (transport : transport_fn W) (partition_id msg_handle capacity : Z) : func W (Z + list Z) :=
  read_vec transport partition_id msg_handle 0 capacity.

Definition wt_fwu_service_call (transport : transport_fn W) (partition_id : Z) (msg : psa_msg) (now_tick : Z) :
    func (fwu_sys W) Z := fn (
  let capacity := sizeof_req + WT_FWU_BLOCK_MAX in
  when (in_size msg 0 <? sizeof_req) (early PSA_ERROR_INVALID_ARGUMENT);;
  when (capacity <? in_size msg 0) (early PSA_ERROR_INVALID_ARGUMENT);;
  r ← call (on_world (wt_fwu_read_in transport partition_id (pm_handle msg) capacity));
  match r with
  | inl _ => mret PSA_ERROR_INVALID_ARGUMENT
  | inr buffer =>
    when (Z.of_nat (length buffer) <? sizeof_req) (early PSA_ERROR_INVALID_ARGUMENT);;
    let req := req_of_bytes buffer in
    c ← gets fs_ctx;
    when (wt_fwu_owner_expired (fc_owner c) (fc_owner_tick c) now_tick (pm_client_id msg))
      (status ← call wt_fwu_force_reset;
       when (negb (status =? PSA_SUCCESS)) (early status));;
    c ← gets fs_ctx;
    when (negb (pm_type msg =? WT_FWU_OP_QUERY) && negb (pm_type msg =? WT_FWU_OP_START) && negb (fc_owner c =? 0) &&
          negb (pm_client_id msg =? fc_owner c)) (early PSA_ERROR_NOT_PERMITTED);;
    status ← fwu_serve transport partition_id now_tick msg req buffer;
    mod_ctx (fwu_settle now_tick msg);;
    mret status
  end).

Definition wt_fwu_service_dispatch (partition_id : Z) : func (fwu_sys W) Z := fn (
  c ← gets fs_ctx;
  match fc_transport c with
  | None => mret WT_FFM_ERROR_STATE
  | Some transport =>
    '(ret, asserted) ← call (on_world (wt_spm_wait_service_signal transport partition_id));
    if negb (ret =? WT_FFM_SUCCESS) then mret WT_FFM_ERROR_STATE else
    if asserted =? 0 then mret WT_FFM_SUCCESS else
    r ← call (on_world (xfer transport partition_id (SvcGet asserted)));
    if negb (sr_return r =? WT_FFM_SUCCESS) || negb (sr_status r =? PSA_SUCCESS) then mret WT_FFM_ERROR_STATE else
    let msg := sr_msg r in
    reply_status ←
      (if (pm_type msg =? PSA_IPC_CONNECT) || (pm_type msg =? PSA_IPC_DISCONNECT) then mret PSA_SUCCESS else
       if (WT_FWU_OP_QUERY <=? pm_type msg) && (pm_type msg <=? WT_FWU_OP_ACCEPT)
       then call (wt_fwu_service_call transport partition_id msg (sr_tick r))
       else mret PSA_ERROR_NOT_SUPPORTED);
    r ← call (on_world (xfer transport partition_id (SvcReply (pm_handle msg) reply_status)));
    if negb (sr_return r =? WT_FFM_SUCCESS) || negb (sr_int r =? WT_FFM_SUCCESS) then mret WT_FFM_ERROR_STATE
    else mret WT_FFM_SUCCESS
  end).
End fwu.

(** ** The update partition: [spm_partitions.c] *)

Section partition.
Context {W : Type} (transport : transport_fn W).

Definition wt_spm_fwu_gate_call (op : svc_op) (w : W) : W * svc_result :=
  transport {| rq_partition_id := 0; rq_op := op |} w.
Definition wt_spm_fwu_gate_op (sub_op offset : Z) (data : list Z) (size version : Z) (w : W) : W * Z :=
  let '(w, r) := wt_spm_fwu_gate_call (SvcFwu sub_op offset data size version) w in
  (w, if negb (sr_return r =? WT_FFM_SUCCESS) then -1 else sr_int r).
Definition wt_spm_fwu_gate_begin : W → W * Z := wt_spm_fwu_gate_op WT_SPM_FWU_BEGIN 0 [] 0 0.
Definition wt_spm_fwu_gate_write (offset : Z) (data : list Z) : W → W * Z :=
  wt_spm_fwu_gate_op WT_SPM_FWU_WRITE offset data (Z.of_nat (length data)) 0.
Definition wt_spm_fwu_gate_arm (image_size version : Z) : W → W * Z :=
  wt_spm_fwu_gate_op WT_SPM_FWU_ARM 0 [] image_size version.
Definition wt_spm_fwu_gate_disarm : W → W * Z := wt_spm_fwu_gate_op WT_SPM_FWU_DISARM 0 [] 0 0.
(** The result and [*floor]. *)
Definition wt_spm_fwu_gate_floor (w : W) : W * (Z * Z) :=
  let '(w, r) := wt_spm_fwu_gate_call (SvcFwu WT_SPM_FWU_FLOOR 0 [] 0 0) w in
  (w, if negb (sr_return r =? WT_FFM_SUCCESS) || negb (sr_int r =? 0) then (-1, 0) else (0, sr_version r)).
Definition wt_spm_fwu_gate_verify (staged_size : Z) (w : W) : W * (Z * Z) :=
  let '(w, r) := wt_spm_fwu_gate_call (SvcFwu WT_SPM_FWU_VERIFY 0 [] staged_size 0) w in
  (w, if negb (sr_return r =? WT_FFM_SUCCESS) || negb (sr_int r =? 0) then (-1, 0) else (0, sr_version r)).
Definition wt_spm_fwu_gate_active (w : W) : W * Z :=
  let '(w, r) := wt_spm_fwu_gate_call (SvcFwu WT_SPM_FWU_ACTIVE 0 [] 0 0) w in
  (w, if negb (sr_return r =? WT_FFM_SUCCESS) || negb (sr_int r =? 0) then 0 else sr_version r).

Definition gate_backend (capacity align : Z) : wt_fwu_backend W :=
  {| fb_begin := Some wt_spm_fwu_gate_begin; fb_write := Some wt_spm_fwu_gate_write; fb_arm := Some wt_spm_fwu_gate_arm;
     fb_disarm := Some wt_spm_fwu_gate_disarm; fb_capacity := capacity; fb_align := align;
     fb_verify := Some wt_spm_fwu_gate_verify |}.

(** The entry of the partition up to its loop over [wt_fwu_service_dispatch];
    [capacity] and [align] are those of the port's flash backend. *)
Definition wt_spm_fwu_entry (capacity align : Z) (w : W) : fwu_sys W :=
  let '(w, (ret, floor)) := wt_spm_fwu_gate_floor w in
  let version_floor := if negb (ret =? 0) then 0xFFFFFFFF else floor in
  let '(w, active) := wt_spm_fwu_gate_active w in
  {| fs_ctx := {| fc_transport := Some transport; fc_backend := Some (gate_backend capacity align);
                  fc_version_floor := version_floor; fc_state := PSA_FWU_READY; fc_write_high := 0;
                  fc_candidate_version := 0; fc_armed := 0; fc_error := 0; fc_active_version := active;
                  fc_owner := 0; fc_owner_tick := 0 |};
     fs_world := w |}.
End partition.
