(* ===== verification/FwuProps.v ===== *)
(** * The firmware update service follows the update protocol

    [update_step] is the protocol between the service and the staging flash:
    what the flash holds as verified and as armed, and which operation the
    service may perform then. The service refines it: every request is a
    sequence of such steps, and the state it keeps agrees with the flash. *)

From Stdlib Require Import ZArith Lia.
From stdpp Require Import base list numbers option sets relations.
From S2P Require Import Prelude Buffers CState FfmTypes SpmGate Service Fwu.

Lemma u32_no_wrap a n : 0 ≤ a < 2 ^ 32 → 0 ≤ n < 2 ^ 32 → a ≤ u32 (a + n) → u32 (a + n) = a + n.
Proof. intros Ha Hn Hle. unfold u32 in *. Z.div_mod_to_equations. nia. Qed.

(** ** The protocol *)

(** The image the boot loader's header check accepted (size and version), and
    the one armed for the next boot. *)
Record update_view := { uv_verified : option (Z * Z); uv_armed : option (Z * Z) }.

Section protocol.
Context {W : Type} (b : wt_fwu_backend W) (transport : transport_fn W) (floor : Z).

Definition granule : Z := if fb_align b =? 0 then 1 else fb_align b.
Definition reboot : svc_op := SvcFwu WT_SPM_FWU_REBOOT 0 [] 0 0.
(** A request other than the backend services of the gate. *)
Definition not_backend (op : svc_op) : Prop := ∀ ct off buf n ver, op ≠ SvcFwu ct off buf n ver.
(** A non-empty block of whole granules inside the update partition. *)
Definition block_ok (offset : Z) (data : list Z) : Prop :=
  0 < Z.of_nat (length data) ∧ 0 ≤ offset ∧ offset + Z.of_nat (length data) ≤ fb_capacity b ∧ offset mod granule = 0 ∧
  Z.of_nat (length data) mod granule = 0.
(** An image that may be armed: not rolled back, and accepted by the header
    check if the backend has one. *)
Definition image_ok (verified : option (Z * Z)) (size version : Z) : Prop :=
  floor ≤ version ∧ version ≠ WT_FWU_VERSION_UNDECLARED ∧ 0 < size ≤ fb_capacity b ∧
  (fb_verify b = None ∨ verified = Some (size, version)).

Inductive update_step : update_view * W → update_view * W → Prop :=
| us_call pid op v w : not_backend op ∨ (op = reboot ∧ is_Some (uv_armed v)) →
    update_step (v, w) (v, (transport {| rq_partition_id := pid; rq_op := op |} w).1)
| us_begin f v w : fb_begin b = Some f → uv_armed v = None →
    update_step (v, w) ({| uv_verified := None; uv_armed := None |}, (f w).1)
| us_write f offset data v w : fb_write b = Some f → uv_armed v = None → block_ok offset data →
    update_step (v, w) ({| uv_verified := None; uv_armed := None |}, (f offset data w).1)
| us_verify f size v w w' ret version : fb_verify b = Some f → f size w = (w', (ret, version)) →
    update_step (v, w) ({| uv_verified := if ret =? 0 then Some (size, version) else None; uv_armed := uv_armed v |}, w')
| us_arm f size version v w w' ret : fb_arm b = Some f → uv_armed v = None → image_ok (uv_verified v) size version →
    f size version w = (w', ret) →
    update_step (v, w) ({| uv_verified := uv_verified v; uv_armed := if ret =? 0 then Some (size, version) else None |}, w')
| us_disarm f v w w' ret : fb_disarm b = Some f → f w = (w', ret) →
    update_step (v, w) ({| uv_verified := uv_verified v; uv_armed := if ret =? 0 then None else uv_armed v |}, w').

(** What the context knows of the flash. *)
Record agrees (c : wt_fwu_service_ctx W) (v : update_view) : Prop := {
  ag_backend : fc_backend c = Some b;
  ag_transport : fc_transport c = Some transport;
  ag_floor : fc_version_floor c = floor;
  ag_state : fc_state c = PSA_FWU_READY ∨ fc_state c = PSA_FWU_WRITING ∨ fc_state c = PSA_FWU_CANDIDATE ∨
             fc_state c = PSA_FWU_STAGED ∨ fc_state c = PSA_FWU_FAILED;
  ag_high : 0 ≤ fc_write_high c ≤ fb_capacity b;
  ag_candidate : fc_state c = PSA_FWU_CANDIDATE →
    image_ok (uv_verified v) (fc_write_high c) (fc_candidate_version c);
  ag_staged : fc_state c = PSA_FWU_STAGED →
    fc_armed c = 1 ∧ uv_armed v = Some (fc_write_high c, fc_candidate_version c) ∧ is_Some (fb_disarm b);
  ag_unarmed : fc_state c ≠ PSA_FWU_STAGED → fc_armed c = 0 ∧ uv_armed v = None;
}.
(** The state of the service and the flash after some steps. *)
Definition follows (v : update_view) (w : W) (s' : fwu_sys W) : Prop :=
  ∃ v', rtc update_step (v, w) (v', fs_world s') ∧ agrees (fs_ctx s') v'.

(** ** Every operation follows it *)

Lemma wp_backend {R A} (f : W → W * A) E (Q : A → fwu_sys W → Prop) s :
  (∀ w' a, f (fs_world s) = (w', a) → Q a (s <| fs_world := w' |>)) →
  wp (R := R) (call (in_backend f)) E Q s.
Proof. intros HQ. apply wp_call. unfold fwp, in_backend. destruct (f _) as [w' a] eqn:E1. by apply HQ. Qed.
Lemma wp_opt_op {R} (f : option (W → W * Z)) E (Q : Z → fwu_sys W → Prop) s :
  (f = None → Q 0 s) → (∀ g w' r, f = Some g → g (fs_world s) = (w', r) → Q r (s <| fs_world := w' |>)) →
  wp (R := R) (opt_op f) E Q s.
Proof. intros H0 H1. destruct f as [g|]; [|by apply wp_ret, H0]. apply wp_backend. eauto. Qed.

Definition keeps {A} (f : func (fwu_sys W) A) : Prop :=
  ∀ s v, agrees (fs_ctx s) v → fwp f (λ _ s', follows v (fs_world s) s') s.

Lemma follows_refl v s : agrees (fs_ctx s) v → follows v (fs_world s) s.
Proof. by exists v. Qed.
Lemma follows_ctx v w s c : (∀ v', agrees (fs_ctx s) v' → agrees c v') → follows v w s → follows v w (s <| fs_ctx := c |>).
Proof. intros Hc (v' & Hr & Ha). exists v'. split; [done|]. by apply Hc. Qed.
Lemma follows_step v w s v1 w1 : rtc update_step (v, w) (v1, w1) → agrees (fs_ctx s) v1 → fs_world s = w1 → follows v w s.
Proof. intros Hr Ha <-. by exists v1. Qed.

Lemma agrees_fail c v e : agrees c v → fc_state c ≠ PSA_FWU_STAGED → agrees (fail_with e c) v.
Proof. intros [] Hne. constructor; try done; simpl; auto. Qed.
Lemma agrees_world v s w : agrees (fs_ctx s) v → agrees (fs_ctx (s <| fs_world := w |>)) v.
Proof. done. Qed.

Lemma start_keeps component version : keeps (wt_fwu_start component version).
Proof.
  intros s v Ha. apply fwp_fn, wp_bind, wp_gets. rewrite (ag_backend _ _ Ha). cbv beta iota.
  pose proof (follows_refl v s Ha) as Hf.
  apply wp_if; intros _; [done|]. apply wp_if; intros E1; [done|]. apply wp_if; intros E2; [done|].
  apply negb_false_iff, Z.eqb_eq in E1.
  destruct (ag_unarmed _ _ Ha) as [Har Hva]; [by rewrite E1|].
  assert (∀ v1, uv_armed v1 = None → agrees (fs_ctx s <| fc_state := PSA_FWU_WRITING |> <| fc_write_high := 0 |>
    <| fc_candidate_version := version |> <| fc_armed := 0 |>) v1) as Hnew.
  { intros v1 Hv1. destruct Ha. constructor; try done; simpl; auto; lia. }
  apply wp_bind, wp_opt_op; [intros _; exists v; split; [done|by apply Hnew]|]. intros f w' r Ef Ew.
  assert (rtc update_step (v, fs_world s) ({| uv_verified := None; uv_armed := None |}, w')) as Hst.
  { apply rtc_once. replace w' with (f (fs_world s)).1 by by rewrite Ew. by constructor. }
  apply wp_if; intros E3.
  - apply wp_ret. eexists. split; [exact Hst|]. simpl. destruct Ha. constructor; try done; simpl; rewrite E1; done.
  - eexists. split; [exact Hst|]. simpl. by apply Hnew.
Qed.

Lemma cancel_keeps component : keeps (wt_fwu_cancel component).
Proof.
  intros s v Ha. apply fwp_fn, wp_bind, wp_gets. rewrite (ag_backend _ _ Ha). cbv beta iota.
  pose proof (follows_refl v s Ha) as Hf.
  apply wp_if; intros _; [done|]. apply wp_if; intros E1; [done|]. simpl. exists v. split; [done|].
  apply agrees_fail; [done|]. apply andb_false_iff in E1 as [E1|E1]; apply negb_false_iff, Z.eqb_eq in E1; by rewrite E1.
Qed.

(** Disarming what is armed. *)
Lemma disarm_ok {R} s v E (Q : Z → fwu_sys W → Prop) : agrees (fs_ctx s) v →
  (∀ r s' v', fs_ctx s' = fs_ctx s → rtc update_step (v, fs_world s) (v', fs_world s') →
     (if r =? 0 then uv_armed v' = None else agrees (fs_ctx s) v') → Q r s') →
  wp (R := R) (disarm_armed (fs_ctx s) b) E Q s.
Proof.
  intros Ha HQ. unfold disarm_armed. apply wp_if; intros E1.
  - assert (fc_state (fs_ctx s) = PSA_FWU_STAGED) as Hs.
    { destruct (decide (fc_state (fs_ctx s) = PSA_FWU_STAGED)) as [|Hn]; [done|].
      destruct (ag_unarmed _ _ Ha Hn) as [Hz _]. by rewrite Hz in E1. }
    destruct (ag_staged _ _ Ha Hs) as (_ & _ & [f Hf]). rewrite Hf. apply wp_backend. intros w' r Er.
    eapply HQ; [done|apply rtc_once; by eapply us_disarm|]. simpl. destruct (r =? 0); [done|]. by destruct v, Ha.
  - apply wp_ret. apply negb_false_iff, Z.eqb_eq in E1. apply (HQ 0 s v); [done|done|]. simpl.
    destruct (decide (fc_state (fs_ctx s) = PSA_FWU_STAGED)) as [Hs|Hn]; [|by apply (ag_unarmed _ _ Ha)].
    destruct (ag_staged _ _ Ha Hs) as [Hz _]. by rewrite Hz in E1.
Qed.
Lemma agrees_cleaned c v v' : agrees c v → uv_armed v' = None → agrees (cleaned c) v'.
Proof. intros [] Hv. constructor; try done; simpl; auto; lia. Qed.

Lemma clean_keeps component : keeps (wt_fwu_clean component).
Proof.
  intros s v Ha. apply fwp_fn, wp_bind, wp_gets. rewrite (ag_backend _ _ Ha). cbv beta iota.
  pose proof (follows_refl v s Ha) as Hf.
  apply wp_if; intros _; [done|]. apply wp_if; intros E1; [done|]. apply wp_bind. eapply disarm_ok; [done|].
  intros r s' v' Ec Hst Hr. destruct (r =? 0); cycle 1.
  - apply wp_ret. exists v'. split; [done|]. by rewrite Ec.
  - exists v'. split; [done|]. simpl. rewrite Ec. by eapply agrees_cleaned.
Qed.

Lemma reject_keeps error : keeps (wt_fwu_reject error).
Proof.
  intros s v Ha. apply fwp_fn, wp_bind, wp_gets. rewrite (ag_backend _ _ Ha). cbv beta iota.
  pose proof (follows_refl v s Ha) as Hf.
  apply wp_if; intros E1; [done|]. apply wp_bind. eapply disarm_ok; [done|].
  intros r s' v' Ec Hst Hr. destruct (r =? 0); cycle 1.
  - apply wp_ret. exists v'. split; [done|]. by rewrite Ec.
  - exists v'. split; [done|]. simpl. rewrite Ec. destruct Ha. constructor; try done; simpl; auto.
Qed.

Lemma force_reset_keeps : keeps wt_fwu_force_reset.
Proof.
  intros s v Ha. apply fwp_fn, wp_bind, wp_gets, wp_bind. rewrite (ag_backend _ _ Ha).
  match goal with |- wp ?m ?E ?Q s => assert (wp (disarm_armed (fs_ctx s) b) E Q s) as Hd end; cycle 1.
  { unfold disarm_armed in Hd. destruct (negb (fc_armed (fs_ctx s) =? 0)) eqn:E1; [|exact Hd].
    destruct (decide (fc_state (fs_ctx s) = PSA_FWU_STAGED)) as [Hs|Hn].
    - destruct (ag_staged _ _ Ha Hs) as (_ & _ & [f Hf]). rewrite Hf in Hd |- *. exact Hd.
    - destruct (ag_unarmed _ _ Ha Hn) as [Hz _]. by rewrite Hz in E1. }
  eapply disarm_ok; [done|]. intros r s' v' Ec Hst Hr. destruct (r =? 0); cycle 1.
  - apply wp_ret. exists v'. split; [done|]. by rewrite Ec.
  - exists v'. split; [done|]. simpl. rewrite Ec. destruct (agrees_cleaned _ _ v' Ha Hr). by constructor.
Qed.

Lemma install_keeps : keeps wt_fwu_install.
Proof.
  intros s v Ha. apply fwp_fn, wp_bind, wp_gets. rewrite (ag_backend _ _ Ha). cbv beta iota.
  pose proof (follows_refl v s Ha) as Hf. apply wp_if; intros E1; [done|]. apply negb_false_iff, Z.eqb_eq in E1.
  destruct (fb_arm b) as [arm|] eqn:Earm; [|done]. destruct (fb_disarm b) as [dis|] eqn:Edis; [|done].
  apply wp_if; intros E2.
  { exists v. split; [done|]. apply agrees_fail; [done|]. by rewrite E1. }
  apply wp_bind, wp_backend. intros w' r Er.
  assert (rtc update_step (v, fs_world s) ({| uv_verified := uv_verified v;
    uv_armed := if r =? 0 then Some (fc_write_high (fs_ctx s), fc_candidate_version (fs_ctx s)) else None |}, w')) as Hst.
  { apply rtc_once. eapply us_arm; [done|apply (ag_unarmed _ _ Ha); by rewrite E1|by apply (ag_candidate _ _ Ha)|done]. }
  destruct (r =? 0); simpl negb; cbv iota.
  - apply wp_bind, wp_modify, wp_ret. eexists. split; [exact Hst|]. simpl. destruct Ha. constructor; try done; simpl; eauto.
  - apply wp_ret. eexists. split; [exact Hst|]. simpl. destruct Ha. constructor; try done; simpl; rewrite E1; try done.
    intros _. split; [|done]. by apply ag_unarmed0; rewrite E1.
Qed.

(** Steps of the flash while no image is armed. *)
Lemma agrees_unarmed c v v' : agrees c v → fc_state c = PSA_FWU_WRITING → uv_armed v' = None → agrees c v'.
Proof.
  intros Ha Hs Hv. destruct (ag_unarmed _ _ Ha) as [Hz _]; [by rewrite Hs|].
  destruct Ha. constructor; try done; rewrite Hs; try done.
Qed.

Lemma finish_keeps component : keeps (wt_fwu_finish component).
Proof.
  intros s v Ha. apply fwp_fn, wp_bind, wp_gets. rewrite (ag_backend _ _ Ha). cbv beta iota.
  pose proof (follows_refl v s Ha) as Hf. apply wp_if; intros _; [done|]. apply wp_if; intros E1; [done|].
  apply negb_false_iff, Z.eqb_eq in E1. apply wp_if; intros E2; [done|]. apply Z.eqb_neq in E2.
  assert (∀ s1 v1, fc_state (fs_ctx s1) = PSA_FWU_WRITING → fc_write_high (fs_ctx s1) = fc_write_high (fs_ctx s) →
    fc_version_floor (fs_ctx s1) = floor →
    agrees (fs_ctx s1) v1 → rtc update_step (v, fs_world s) (v1, fs_world s1) →
    (fb_verify b = None ∨ uv_verified v1 = Some (fc_write_high (fs_ctx s), fc_candidate_version (fs_ctx s1))) →
    wp (R := Z) (c ← gets fs_ctx;
        if (fc_candidate_version c =? WT_FWU_VERSION_UNDECLARED) || (fc_candidate_version c <? fc_version_floor c)
        then mod_ctx (fail_with PSA_ERROR_NOT_PERMITTED);; mret PSA_ERROR_NOT_PERMITTED else
        mod_ctx (λ c, c <| fc_state := PSA_FWU_CANDIDATE |>);; mret PSA_SUCCESS)
      (λ _ s', follows v (fs_world s) s') (λ _ s', follows v (fs_world s) s') s1) as Hrest.
  { intros s1 v1 Hs1 Hh1 Hfl1 Ha1 Hr1 Hver. apply wp_bind, wp_gets, wp_if; intros E3.
    - exists v1. split; [done|]. apply agrees_fail; [done|]. by rewrite Hs1.
    - bool_hyps. exists v1. split; [done|]. simpl. pose proof (ag_unarmed _ _ Ha1) as Hun. rewrite Hs1 in Hun.
      destruct Ha1. constructor; try done; simpl; auto. intros _. split_and!; [congruence|done|lia|lia|]. by rewrite Hh1. }
  apply wp_bind. unfold fwu_bind_version. destruct (fb_verify b) as [f|] eqn:Ef.
  2:{ apply wp_ret. eapply (Hrest s v); try done; [apply Ha|by left]. }
  apply wp_bind, wp_gets, wp_bind, wp_backend. intros w' [ret ver] Er.
  set (v1 := {| uv_verified := if ret =? 0 then Some (fc_write_high (fs_ctx s), ver) else None; uv_armed := uv_armed v |}).
  assert (rtc update_step (v, fs_world s) (v1, w')) as Hst by (apply rtc_once; by econstructor).
  assert (agrees (fs_ctx s) v1) as Ha1.
  { eapply agrees_unarmed; [done|done|]. apply (ag_unarmed _ _ Ha). by rewrite E1. }
  apply wp_if; intros E3.
  { exists v1. split; [done|]. apply agrees_fail; [done|]. simpl. by rewrite E1. }
  apply negb_false_iff, Z.eqb_eq in E3. subst ret. apply wp_if; intros E4.
  - apply wp_modify. eapply (Hrest _ v1); try done; [apply Ha| |by right]. simpl. destruct Ha1. constructor; try done;
    simpl; by rewrite E1.
  - apply wp_when; intros E5; [|].
    + exists v1. split; [done|]. apply agrees_fail; [done|]. simpl. by rewrite E1.
    + apply negb_false_iff, Z.eqb_eq in E5. subst ver. eapply (Hrest _ v1); try done; [apply Ha|by right].
Qed.

Lemma put_ok {R} s v offset data E (Q : Z → fwu_sys W → Prop) :
  agrees (fs_ctx s) v → fc_state (fs_ctx s) = PSA_FWU_WRITING → block_ok offset data →
  (∀ r s' v', fs_ctx s' = fs_ctx s → agrees (fs_ctx s) v' → rtc update_step (v, fs_world s) (v', fs_world s') → Q r s') →
  wp (R := R) (put b offset data) E Q s.
Proof.
  intros Ha Hs Hb HQ. unfold put. destruct (fb_write b) as [f|] eqn:Ef; simpl; [|by apply (HQ 0 s v)].
  apply wp_backend. intros w' r Er. destruct (ag_unarmed _ _ Ha) as [Hz Hv]; [by rewrite Hs|].
  apply (HQ r _ {| uv_verified := None; uv_armed := None |}); [done|by eapply agrees_unarmed|].
  apply rtc_once. simpl. replace w' with (f offset data (fs_world s)).1 by by rewrite Er. by constructor.
Qed.

Hypothesis Hcap : 0 ≤ fb_capacity b < 2 ^ 32.
Hypothesis Halign : 0 ≤ fb_align b.

Lemma granule_pos : 0 < granule.
Proof. unfold granule. destruct (Z.eqb_spec (fb_align b) 0); lia. Qed.

(** The blocks a request programs. *)
Lemma program_ok s v offset data E Q :
  agrees (fs_ctx s) v → fc_state (fs_ctx s) = PSA_FWU_WRITING → 0 ≤ offset → 0 < Z.of_nat (length data) →
  offset + Z.of_nat (length data) ≤ fb_capacity b → offset mod granule = 0 →
  (∀ r s' v', fs_ctx s' = fs_ctx s → agrees (fs_ctx s) v' → rtc update_step (v, fs_world s) (v', fs_world s') → Q r s') →
  wp (fwu_program b offset data granule (offset + Z.of_nat (length data))) E Q s.
Proof.
  intros Ha Hs Ho Hpos Hend Hmod HQ. pose proof granule_pos as Hg. unfold fwu_program. cbv zeta.
  set (size := Z.of_nat (length data)) in *. pose proof (Z.mod_pos_bound size granule Hg) as Hrem.
  pose proof (Z.mod_le size granule ltac:(lia) Hg) as Hle.
  assert ((size - size mod granule) mod granule = 0) as Hpre.
  { rewrite Zminus_mod, Z.mod_mod, Z.sub_diag by lia. by apply Z.mod_0_l; lia. }
  apply wp_if; intros E1; cycle 1.
  { apply negb_false_iff, Z.eqb_eq in E1. apply wp_bind. eapply put_ok; [done|done|by split_and!|].
    intros r s1 v1 Ec Ha1 Hst. apply wp_if; intros _; by eapply HQ. }
  apply wp_if; intros E2; [by apply (HQ _ s v)|]. bool_hyps. apply wp_bind.
  assert (∀ s1 v1, fs_ctx s1 = fs_ctx s → agrees (fs_ctx s) v1 → rtc update_step (v, fs_world s) (v1, fs_world s1) →
    wp (ret ← put b (u32 (offset + (size - size mod granule)))
          (drop (Z.to_nat (size - size mod granule)) data ++ replicate (Z.to_nat (granule - size mod granule)) 0xFF);
        if negb (ret =? 0) then mret PSA_ERROR_STORAGE_FAILURE else mret PSA_SUCCESS) E Q s1) as Htail.
  { intros s1 v1 Ec Ha1 Hst. apply wp_bind. eapply (put_ok s1 v1); [by rewrite Ec|by rewrite Ec| |].
    - unfold block_ok. rewrite u32_small by lia. rewrite length_app, length_drop, length_replicate.
      replace (Z.of_nat _) with granule by lia. split_and!; [lia|lia|lia| |by rewrite Z.mod_same by lia].
      rewrite Zplus_mod, Hmod, Hpre. by apply Z.mod_0_l; lia.
    - intros r s2 v2 Ec2 Ha2 Hst2. rewrite Ec in Ec2, Ha2. apply wp_if; intros _; (eapply HQ; [done|done|by etrans]). }
  apply wp_if; intros E3.
  - eapply put_ok; [done|done| |].
    + unfold block_ok. rewrite length_take. replace (Z.of_nat _) with (size - size mod granule) by lia.
      apply negb_true_iff, Z.eqb_neq in E3. split_and!; [lia|lia|lia|done|done].
    + intros r s1 v1 Ec Ha1 Hst. apply wp_if; intros _; [by eapply HQ|by eapply Htail].
  - apply wp_ret. by apply (Htail s v).
Qed.

Lemma fwu_write_keeps component offset data : 0 ≤ offset < 2 ^ 32 → Z.of_nat (length data) < 2 ^ 32 →
  keeps (wt_fwu_write component offset data).
Proof.
  intros Ho Hd s v Ha. apply fwp_fn, wp_bind, wp_gets. rewrite (ag_backend _ _ Ha). cbv beta iota zeta.
  pose proof (follows_refl v s Ha) as Hf. apply wp_if; intros E0; [done|]. apply wp_if; intros E1; [done|].
  apply orb_false_iff in E0 as [_ E0%Z.eqb_neq]. apply negb_false_iff, Z.eqb_eq in E1. fold granule. apply wp_if; intros E2; [done|]. bool_hyps.
  rewrite u32_no_wrap in * by lia.
  apply wp_bind. eapply program_ok; [done|done|lia|lia|lia|done|].
  intros r s1 v1 Ec Ha1 Hst. apply wp_bind, wp_if; intros E3.
  - exists v1. split; [done|]. simpl. rewrite Ec. apply agrees_fail; [done|]. by rewrite E1.
  - apply wp_when; intros E4; [|exists v1; split; [done|]; by rewrite Ec].
    exists v1. split; [done|]. simpl. rewrite Ec. destruct Ha1. constructor; try done; simpl; try (by rewrite E1). lia.
Qed.

(** ** The service *)

Context `{!TransportOk transport}.

Lemma wp_on_world {R A} (f : func W A) E (Q : A → fwu_sys W → Prop) s :
  fwp f (λ a w', Q a (s <| fs_world := w' |>)) (fs_world s) → wp (R := R) (call (on_world f)) E Q s.
Proof. intros Hf. apply wp_call. unfold fwp, on_world in *. by destruct (f _) as [[w' a]|]. Qed.

Definition calls (v : update_view) (w w' : W) : Prop := rtc update_step (v, w) (v, w').
#[local] Instance calls_preorder v : PreOrder (calls v).
Proof. unfold calls. split; [by intros w|]. intros w1 w2 w3 H1 H2. by etrans. Qed.
Lemma calls_steps v pid op w : not_backend op →
  calls v w (transport {| rq_partition_id := pid; rq_op := op |} w).1.
Proof. intros Hop. apply rtc_once. constructor. by left. Qed.

Lemma reboot_keeps : keeps wt_fwu_request_reboot.
Proof.
  intros s v Ha. apply fwp_fn, wp_bind, wp_gets. rewrite (ag_transport _ _ Ha). cbv beta iota.
  pose proof (follows_refl v s Ha) as Hf. apply wp_if; intros E1; [done|]. bool_hyps.
  apply wp_bind, wp_on_world. unfold fwp, xfer. destruct (transport _ (fs_world s)) as [w' r] eqn:Et.
  assert (follows v (fs_world s) (s <| fs_world := w' |>)) as Hf'.
  { exists v. split; [|done]. apply rtc_once. simpl. change w' with (w', r).1. rewrite <-Et. constructor.
    right. split; [done|]. destruct (ag_staged _ _ Ha) as (_ & -> & _); [done|by eexists]. }
  by apply wp_if; intros _; apply wp_ret.
Qed.

Definition owned (c : wt_fwu_service_ctx W) : Prop := fc_state c = PSA_FWU_READY → fc_owner c = 0.

Lemma agrees_owner c v o : agrees c v → agrees (c <| fc_owner := o |>) v.
Proof. intros []. by constructor. Qed.
Lemma agrees_tick c v t : agrees c v → agrees (c <| fc_owner_tick := t |>) v.
Proof. intros []. by constructor. Qed.
Lemma agrees_settle c v now msg : agrees c v → agrees (fwu_settle now msg c) v.
Proof.
  intros Ha. unfold fwu_settle. destruct (_ =? _); [by apply agrees_owner|]. destruct (_ && _); [by apply agrees_tick|done].
Qed.
Lemma owned_settle c now msg : owned (fwu_settle now msg c).
Proof.
  unfold owned, fwu_settle. destruct (fc_state c =? PSA_FWU_READY) eqn:E; [done|]. apply Z.eqb_neq in E.
  by destruct (_ && _).
Qed.

(** A request of the service. *)
Lemma serve_ok s v now pid msg req buffer :
  agrees (fs_ctx s) v → 0 ≤ fr_offset req < 2 ^ 32 → Z.of_nat (length buffer) < 2 ^ 32 →
  wp (fwu_serve transport pid now msg req buffer) (λ _ s', follows v (fs_world s) s' ∧ fs_ctx s' = fs_ctx s)
    (λ _ s', follows v (fs_world s) s') s.
Proof.
  intros Ha Ho Hb. unfold fwu_serve. cbv zeta.
  assert (∀ A (f : func (fwu_sys W) A) E, keeps f → wp (R := Z) (call f) E (λ _ s', follows v (fs_world s) s') s) as Hop.
  { intros A f E Hk. by apply wp_call, Hk. }
  apply wp_if; intros _; [apply wp_if; intros _|].
  { split; [by apply follows_refl|done]. }
  { apply wp_bind, wp_call. unfold wt_fwu_query. apply fwp_fn, wp_bind, wp_gets. rewrite (ag_backend _ _ Ha).
    apply wp_if; intros _; apply wp_ret; [by apply wp_ret, follows_refl|]. apply wp_bind, wp_on_world.
    eapply fwp_mono; [apply (write_vec_ok transport (calls v)), calls_steps|]. intros ret w1 Hw1.
    apply wp_ret. by exists v. }
  apply wp_if; intros _.
  { apply wp_bind, wp_call. eapply fwp_mono; [by apply start_keeps|]. intros st s1 Hf1. apply wp_bind, wp_when; intros _; [|done].
    apply wp_modify, wp_ret. apply follows_ctx; [|done]. intros v' Ha'. by apply agrees_tick, agrees_owner. }
  apply wp_if; intros _; [apply wp_if; intros _; [by apply wp_ret, follows_refl|]|].
  { apply Hop, fwu_write_keeps; [done|]. rewrite length_drop. lia. }
  apply wp_if; intros _; [by apply Hop, finish_keeps|]. apply wp_if; intros _; [by apply Hop, install_keeps|].
  apply wp_if; intros _; [by apply Hop, cancel_keeps|]. apply wp_if; intros _; [by apply Hop, clean_keeps|].
  apply wp_if; intros _; [by apply Hop, reject_keeps|]. apply wp_if; intros _; [by apply Hop, reboot_keeps|].
  by apply wp_ret, follows_refl.
Qed.
Lemma follows_trans v w s s' : rtc update_step (v, w) (v, fs_world s) → follows v (fs_world s) s' → follows v w s'.
Proof. intros Hr (v' & Hr' & Ha). exists v'. split; [by etrans|done]. Qed.

Lemma force_reset_ok s v : agrees (fs_ctx s) v → owned (fs_ctx s) →
  fwp wt_fwu_force_reset (λ _ s', follows v (fs_world s) s' ∧ owned (fs_ctx s')) s.
Proof.
  intros Ha Ho. apply fwp_conj; [by apply force_reset_keeps|].
  apply fwp_fn, wp_bind, wp_gets, wp_bind. rewrite (ag_backend _ _ Ha).
  match goal with |- wp ?m ?E ?Q s => assert (∀ r s1, fs_ctx s1 = fs_ctx s → Q r s1) as HQ end.
  { intros r s1 Ec. apply wp_if; intros _; [by apply wp_ret; rewrite Ec|]. apply wp_bind, wp_modify, wp_ret. by intros _. }
  destruct (negb (fc_armed (fs_ctx s) =? 0)); [|by apply wp_ret, HQ].
  destruct (fb_disarm b) as [f|]; [|by apply wp_ret, HQ]. apply wp_backend. intros w' r _. by apply HQ.
Qed.

Lemma service_call_ok s v pid msg now : agrees (fs_ctx s) v → owned (fs_ctx s) →
  fwp (wt_fwu_service_call transport pid msg now) (λ _ s', follows v (fs_world s) s' ∧ owned (fs_ctx s')) s.
Proof.
  intros Ha Ho. pose proof (follows_refl v s Ha) as Hf. apply fwp_fn. unfold wt_fwu_service_call. cbv zeta.
  apply wp_bind, wp_when; intros _; [done|]. apply wp_bind, wp_when; intros _; [done|].
  apply wp_bind, wp_on_world. eapply fwp_mono; [apply (read_vec_ok transport (calls v)); [apply calls_steps|done]|].
  intros r w1 [Hw1 Hr]. set (s1 := s <| fs_world := w1 |>).
  assert (follows v (fs_world s) s1) as Hf1 by by exists v.
  destruct r as [e|buffer]; [by apply wp_ret|]. destruct Hr as [Hlen Hbytes].
  apply wp_bind, wp_when; intros _; [done|]. apply wp_bind, wp_gets, wp_bind.
  match goal with |- wp _ ?E ?Q s1 => assert (∀ s2, follows v (fs_world s) s2 → owned (fs_ctx s2) → Q tt s2) as Hrest end.
  { intros s2 (v2 & Hst2 & Ha2) Ho2. apply wp_bind, wp_gets, wp_bind, wp_when; intros _; [by split; [exists v2|]|].
    apply wp_bind. eapply wp_mono; [apply (serve_ok s2 v2); [done| |]| |].
    - change (2 ^ 32) with (256 ^ Z.of_nat 4). by apply field_range.
    - unfold sizeof_req, WT_FWU_BLOCK_MAX in Hlen. lia.
    - intros st s3 [(v3 & Hst3 & Ha3) Ec]. split; [exists v3; split; [by etrans|done]|by rewrite Ec].
    - intros st s3 (v3 & Hst3 & Ha3). apply wp_bind, wp_modify, wp_ret. split; [|apply owned_settle].
      exists v3. split; [by etrans|]. by apply agrees_settle. }
  apply wp_when; intros _; [|by apply Hrest]. apply wp_bind, wp_call.
  eapply fwp_mono; [by apply (force_reset_ok s1 v)|]. intros st s2 [(v2 & Hst2 & Ha2) Ho2].
  assert (follows v (fs_world s) s2) as Hf2 by (exists v2; split; [by etrans|done]).
  apply wp_when; intros _; [by apply wp_early|by apply Hrest].
Qed.

Lemma dispatch_ok s v pid : agrees (fs_ctx s) v → owned (fs_ctx s) →
  fwp (wt_fwu_service_dispatch pid) (λ _ s', follows v (fs_world s) s' ∧ owned (fs_ctx s')) s.
Proof.
  intros Ha Ho. apply fwp_fn, wp_bind, wp_gets. rewrite (ag_transport _ _ Ha). cbv beta iota.
  apply wp_bind, wp_on_world. eapply fwp_mono; [apply (wait_service_signal_ok transport (calls v)), calls_steps|].
  intros [ret sig] w1 Hw1. set (s1 := s <| fs_world := w1 |>).
  assert (follows v (fs_world s) s1 ∧ owned (fs_ctx s1)) as Hf1 by (split; [by exists v|done]).
  apply wp_if; intros _; [done|]. apply wp_if; intros _; [done|].
  apply wp_bind, wp_on_world. eapply fwp_mono; [apply (xfer_ok transport (calls v)); [apply calls_steps|done]|].
  intros r w2 [Hw2 _]. set (s2 := s1 <| fs_world := w2 |>).
  assert (calls v (fs_world s) w2) as Hw02 by by transitivity w1.
  assert (follows v (fs_world s) s2 ∧ owned (fs_ctx s2)) as Hf2 by (split; [by exists v|done]).
  apply wp_if; intros _; [done|]. cbv zeta. apply wp_bind.
  match goal with |- wp _ ?E ?Q s2 => assert (∀ st s3, follows v (fs_world s) s3 ∧ owned (fs_ctx s3) → Q st s3) as Hrest end.
  { intros st s3 [(v3 & Hst3 & Ha3) Ho3]. apply wp_bind, wp_on_world.
    eapply fwp_mono; [apply (xfer_ok transport (calls v3)); [apply calls_steps|done]|]. intros r3 w4 [Hw4 _].
    assert (follows v (fs_world s) (s3 <| fs_world := w4 |>)) by (exists v3; split; [by etrans|done]).
    by apply wp_if; intros _; apply wp_ret. }
  apply wp_if; intros _; [by apply wp_ret, Hrest|]. apply wp_if; intros _; [|by apply wp_ret, Hrest].
  apply wp_call. eapply fwp_mono; [by apply (service_call_ok s2 v)|].
  intros st s3 [(v3 & Hst3 & Ha3) Ho3]. apply Hrest. split; [exists v3; split; [by etrans|done]|done].
Qed.

(** The loop of the update partition, for [n] rounds. *)
Fixpoint serve_rounds (n : nat) (pid : Z) : func (fwu_sys W) unit :=
  match n with
  | O => λ s, Some (s, tt)
  | S n' => fn (call (wt_fwu_service_dispatch pid);; call (serve_rounds n' pid))
  end.

(** C9: however long it runs and whatever its clients ask for, the update
    service drives the staging flash by the update protocol and keeps a state
    that agrees with it. In particular it arms an image for the next boot only
    after the header check accepted that very size and version, with nothing
    programmed since, and only if the version is not below the anti-rollback
    floor; it programs whole granules inside the update partition and never
    under an armed image; and it asks for a reset only while an image is
    armed. *)
Theorem fwu_follows_protocol n pid s v :
  agrees (fs_ctx s) v → owned (fs_ctx s) →
  ∃ s', serve_rounds n pid s = Some (s', tt) ∧ follows v (fs_world s) s' ∧ owned (fs_ctx s').
Proof.
  intros Ha Ho. enough (fwp (serve_rounds n pid) (λ _ s', follows v (fs_world s) s' ∧ owned (fs_ctx s')) s) as Hf.
  { apply fwp_run in Hf as (s' & [] & E & HQ). eauto. }
  revert s v Ha Ho. induction n as [|n IH]; intros s v Ha Ho; [by split; [apply follows_refl|]|].
  apply fwp_fn, wp_bind, wp_call. eapply fwp_mono; [by apply dispatch_ok|]. intros r s1 [(v1 & Hst1 & Ha1) Ho1].
  apply wp_call. eapply fwp_mono; [by apply (IH s1 v1)|]. intros [] s2 [(v2 & Hst2 & Ha2) Ho2].
  split; [exists v2; split; [by etrans|done]|done].
Qed.

(** ** Owners *)

(** The conversation with the gate other than the backend services. *)
Definition talks : W → W → Prop :=
  rtc (λ w w', ∃ pid op, not_backend op ∧ w' = (transport {| rq_partition_id := pid; rq_op := op |} w).1).
#[local] Instance talks_preorder : PreOrder talks.
Proof. unfold talks. split; [by intros w|]. intros w1 w2 w3 H1 H2. by etrans. Qed.
Lemma talks_steps pid op w : not_backend op → talks w (transport {| rq_partition_id := pid; rq_op := op |} w).1.
Proof. intros Hop. apply rtc_once. eauto. Qed.

(** A clock that has not wrapped past the timeout. *)
Lemma not_expired owner t0 t1 caller : t0 ≤ t1 < t0 + WT_FWU_OWNER_IDLE_TIMEOUT_TICKS →
  wt_fwu_owner_expired owner (u32 t0) (u32 t1) caller = false.
Proof.
  unfold wt_fwu_owner_expired, WT_FWU_OWNER_IDLE_TIMEOUT_TICKS. intros Ht. destruct (_ || _); [done|]. apply Z.leb_gt.
  replace (u32 (u32 t1 - u32 t0)) with (t1 - t0); [lia|]. unfold u32.
  rewrite <-Zminus_mod. rewrite Z.mod_small; lia.
Qed.

(** C10: while an update is open, a request of any other client leaves the
    update as it is and performs no backend operation, unless the owner was
    idle for the whole timeout (in ticks of a counter that may wrap): queries
    are answered, everything else is refused. *)
Theorem fwu_owner_exclusive s v pid msg t0 t1 :
  agrees (fs_ctx s) v → owned (fs_ctx s) → fc_owner (fs_ctx s) ≠ 0 → pm_client_id msg ≠ fc_owner (fs_ctx s) →
  fc_owner_tick (fs_ctx s) = u32 t0 → t0 ≤ t1 < t0 + WT_FWU_OWNER_IDLE_TIMEOUT_TICKS →
  fwp (wt_fwu_service_call transport pid msg (u32 t1)) (λ st s',
    fs_ctx s' = fs_ctx s ∧ talks (fs_world s) (fs_world s') ∧ (pm_type msg ≠ WT_FWU_OP_QUERY → st < 0)) s.
Proof.
  intros Ha Ho Hown Hcl Htick Ht. apply fwp_fn. unfold wt_fwu_service_call. cbv zeta.
  apply wp_bind, wp_when; intros _; [done|]. apply wp_bind, wp_when; intros _; [done|].
  apply wp_bind, wp_on_world. eapply fwp_mono; [apply (read_vec_ok transport talks); [apply talks_steps|done]|].
  intros r w1 [Hw1 Hr]. set (s1 := s <| fs_world := w1 |>). destruct r as [e|buffer]; [by apply wp_ret|].
  apply wp_bind, wp_when; intros _; [done|]. apply wp_bind, wp_gets, wp_bind. change (fs_ctx s1) with (fs_ctx s).
  rewrite Htick, not_expired by done. apply wp_ret, wp_bind, wp_gets. change (fs_ctx s1) with (fs_ctx s).
  apply wp_bind, wp_when; intros E; [done|].
  assert (fc_state (fs_ctx s) ≠ PSA_FWU_READY) as Hnr by auto.
  assert (fwu_settle (u32 t1) msg (fs_ctx s) = fs_ctx s) as Hset.
  { unfold fwu_settle. rewrite (proj2 (Z.eqb_neq _ _) Hnr), (proj2 (Z.eqb_neq _ _) Hcl). by rewrite andb_false_r. }
  rewrite (proj2 (Z.eqb_neq _ _) Hown), (proj2 (Z.eqb_neq _ _) Hcl) in E. simpl in E.
  rewrite !andb_true_r in E. apply andb_false_iff in E.
  assert (∀ st s2, fs_ctx s2 = fs_ctx s → talks (fs_world s) (fs_world s2) → (pm_type msg ≠ WT_FWU_OP_QUERY → st < 0) →
    wp (mod_ctx (fwu_settle (u32 t1) msg);; mret st) (λ st s', fs_ctx s' = fs_ctx s ∧ talks (fs_world s) (fs_world s') ∧
      (pm_type msg ≠ WT_FWU_OP_QUERY → st < 0)) (λ st s', fs_ctx s' = fs_ctx s ∧ talks (fs_world s) (fs_world s') ∧
      (pm_type msg ≠ WT_FWU_OP_QUERY → st < 0)) s2) as Hend.
  { intros st s2 Ec Hw2 Hst. apply wp_bind, wp_modify, wp_ret. split; [simpl; by rewrite Ec|done]. }
  apply wp_bind. unfold fwu_serve. cbv zeta. apply wp_if; intros Eq.
  - apply Z.eqb_eq in Eq. apply wp_if; intros _; [done|]. apply wp_bind, wp_call. unfold wt_fwu_query.
    apply fwp_fn, wp_bind, wp_gets. change (fs_ctx s1) with (fs_ctx s). rewrite (ag_backend _ _ Ha).
    apply wp_if; intros _; apply wp_ret; [by apply wp_ret, Hend|]. apply wp_bind, wp_on_world.
    eapply fwp_mono; [apply (write_vec_ok transport talks), talks_steps|]. intros ret w2 Hw2.
    apply wp_ret, Hend; [done|by transitivity w1|done].
  - destruct E as [E|E]; [by rewrite Eq in E|]. apply negb_false_iff in E. rewrite E. apply wp_bind, wp_call.
    apply fwp_fn, wp_bind, wp_gets. change (fs_ctx s1) with (fs_ctx s). rewrite (ag_backend _ _ Ha). cbv beta iota.
    apply wp_if; intros _; [by apply wp_ret, wp_bind, wp_ret, wp_ret, Hend|].
    rewrite (proj2 (Z.eqb_neq _ _) Hnr). by apply wp_ret, wp_bind, wp_ret, wp_ret, Hend.
Qed.
End protocol.
