(* ===== verification/FwuStage.v ===== *)
(** * What the update service stages

    [StagingFlash] is what the service relies on from a staging backend: its
    successful operations erase, store, arm and disarm. With it, an update that
    ran to its end leaves in flash exactly the bytes the client sent, armed for
    the next boot. The backends of the ports are instances. *)

From Stdlib Require Import ZArith Lia.
From stdpp Require Import base list numbers option sets relations.
From S2P Require Import Prelude Buffers CState FfmTypes Service Fwu FwuProps.

(** ** Partial contents *)

(** The bytes known at some offsets of the update partition. *)
Definition content : Type := Z → option Z.
Definition blank : content := λ _, None.
Definition store (m : content) (off : Z) (data : list Z) : content := λ x,
  if decide (off ≤ x < off + Z.of_nat (length data)) then data !! Z.to_nat (x - off) else m x.
#[export] Instance content_equiv : Equiv content := λ m m', ∀ x, m x = m' x.

Lemma store_nil m off : store m off [] ≡ m.
Proof. intros x. unfold store. simpl. rewrite decide_False by lia. done. Qed.
Lemma store_app m off l1 l2 : store (store m off l1) (off + Z.of_nat (length l1)) l2 ≡ store m off (l1 ++ l2).
Proof.
  intros x. unfold store. rewrite length_app. repeat case_decide; try lia; try done.
  - rewrite lookup_app_r by lia. f_equal. lia.
  - by rewrite lookup_app_l by lia.
Qed.
#[export] Instance content_equivalence : Equivalence (≡@{content}).
Proof. split; [by intros m x|by intros m m' H x|]. intros m1 m2 m3 H1 H2 x. by rewrite H1. Qed.
#[export] Instance store_proper : Proper ((≡) ==> eq ==> eq ==> (≡)) store.
Proof. intros m m' Hm off ? <- l ? <- x. unfold store. by case_decide. Qed.

(** ** Backends *)

Class StagingFlash {W : Type} (b : wt_fwu_backend W) := {
  holds : W → content → Prop;
  triggered : W → bool;   (** the boot loader will swap *)
  holds_proper w : Proper ((≡) ==> iff) (holds w);
  sf_begin f w w' m : fb_begin b = Some f → holds w m → f w = (w', 0) → holds w' blank;
  sf_write f off data w w' m : fb_write b = Some f → block_ok b off data → holds w m → f off data w = (w', 0) →
    holds w' (store m off data);
  sf_verify f size w w' ret ver m : fb_verify b = Some f → holds w m → f size w = (w', (ret, ver)) → holds w' m;
  sf_arm f size ver w w' m : fb_arm b = Some f → holds w m → f size ver w = (w', 0) → holds w' m ∧ triggered w' = true;
  sf_disarm f w w' m : fb_disarm b = Some f → holds w m → f w = (w', 0) → holds w' m ∧ triggered w' = false;
  sf_complete : is_Some (fb_begin b) ∧ is_Some (fb_write b);
}.
#[export] Existing Instance holds_proper.

(** ** Programming *)

Section staging.
Context {W : Type} (b : wt_fwu_backend W) `{!StagingFlash b} (transport : transport_fn W) (floor : Z).
Hypothesis Hcap : 0 ≤ fb_capacity b < 2 ^ 32.
Hypothesis Halign : 0 ≤ fb_align b.

(** The erased bytes that complete a block to the write granularity. *)
Definition padding (data : list Z) : list Z :=
  replicate (Z.to_nat (- Z.of_nat (length data) mod granule b)) 0xFF.

Lemma put_stores {R} s offset data m E (Q : Z → fwu_sys W → Prop) :
  holds (fs_world s) m → block_ok b offset data →
  (∀ r s', fs_ctx s' = fs_ctx s → (r = 0 → holds (fs_world s') (store m offset data)) → Q r s') →
  wp (R := R) (put b offset data) E Q s.
Proof.
  intros Hm Hb HQ. unfold put. destruct sf_complete as [_ [f Hf]]. rewrite Hf. simpl. apply wp_backend.
  intros w' r Er. apply HQ; [done|]. intros ->. simpl. by eapply sf_write.
Qed.

(** The result of programming a block at a checked offset. *)
Definition programmed (s : fwu_sys W) (m : content) (offset : Z) (data : list Z) (st : Z) (s' : fwu_sys W) : Prop :=
  fs_ctx s' = fs_ctx s ∧
  (st = PSA_SUCCESS ∧ holds (fs_world s') (store m offset (data ++ padding data)) ∨
   st = PSA_ERROR_STORAGE_FAILURE ∨ st = PSA_ERROR_INVALID_ARGUMENT ∧ s' = s).

Lemma program_stores s m offset data E :
  holds (fs_world s) m →
  0 ≤ offset → 0 < Z.of_nat (length data) → offset + Z.of_nat (length data) ≤ fb_capacity b →
  offset mod granule b = 0 →
  wp (R := Z) (fwu_program b offset data (granule b) (offset + Z.of_nat (length data))) E (programmed s m offset data) s.
Proof.
  intros Hm Ho Hpos Hend Hmod. pose proof (granule_pos b Halign) as Hg. unfold fwu_program. cbv zeta.
  set (size := Z.of_nat (length data)) in *. pose proof (Z.mod_pos_bound size (granule b) Hg) as Hrem.
  pose proof (Z.mod_le size (granule b) ltac:(lia) Hg) as Hle.
  assert ((size - size mod granule b) mod granule b = 0) as Hpre.
  { rewrite Zminus_mod, Z.mod_mod, Z.sub_diag by lia. by apply Z.mod_0_l; lia. }
  assert (∀ r s1, fs_ctx s1 = fs_ctx s → (r = 0 → holds (fs_world s1) (store m offset (data ++ padding data))) →
    wp (R := Z) (if negb (r =? 0) then mret PSA_ERROR_STORAGE_FAILURE else mret PSA_SUCCESS) E
      (programmed s m offset data) s1) as Hend1.
  { intros r s1 Ec Hs. apply wp_if; intros E1; apply wp_ret; (split; [done|]); [by right; left|left]. split; [done|].
    apply Hs. by apply negb_false_iff, Z.eqb_eq in E1. }
  apply wp_if; intros E1; cycle 1.
  { apply negb_false_iff, Z.eqb_eq in E1. apply wp_bind. eapply put_stores; [done|by split_and!|].
    intros r s1 Ec Hs. apply Hend1; [done|]. intros Hr. unfold padding. fold size. rewrite Z.mod_opp_l_z by lia. simpl.
    rewrite app_nil_r. by apply Hs. }
  apply negb_true_iff, Z.eqb_neq in E1.
  apply wp_if; intros E2; [apply wp_ret; by split; [|right; right]|]. bool_hyps.
  set (pre := size - size mod granule b) in *.
  assert (padding data = replicate (Z.to_nat (granule b - size mod granule b)) 0xFF) as Epad.
  { unfold padding. fold size. by rewrite Z.mod_opp_l_nz by lia. }
  assert (∀ s1, fs_ctx s1 = fs_ctx s → holds (fs_world s1) (store m offset (take (Z.to_nat pre) data)) →
    wp (R := Z) (ret ← put b (u32 (offset + pre))
          (drop (Z.to_nat pre) data ++ replicate (Z.to_nat (granule b - size mod granule b)) 0xFF);
        if negb (ret =? 0) then mret PSA_ERROR_STORAGE_FAILURE else mret PSA_SUCCESS) E (programmed s m offset data) s1) as Htail.
  { intros s1 Ec1 Hf1. rewrite u32_small by lia. rewrite <-Epad. apply wp_bind. eapply put_stores; [done| |].
    { unfold block_ok. rewrite Epad, length_app, length_drop, length_replicate. replace (Z.of_nat _) with (granule b) by lia.
      split_and!; [lia|lia|lia| |by rewrite Z.mod_same by lia]. rewrite Zplus_mod, Hmod, Hpre. by apply Z.mod_0_l; lia. }
    intros r s2 Ec2 Hf2. apply Hend1; [congruence|]. intros Hr. specialize (Hf2 Hr).
    replace (data ++ padding data) with (take (Z.to_nat pre) data ++ drop (Z.to_nat pre) data ++ padding data)
      by (by rewrite app_assoc, take_drop).
    rewrite <-store_app. replace (offset + Z.of_nat (length (take (Z.to_nat pre) data))) with (offset + pre); [done|].
    rewrite length_take. lia. }
  apply wp_bind, wp_if; intros E3.
  - eapply put_stores; [done| |].
    { unfold block_ok. rewrite length_take. replace (Z.of_nat _) with pre by lia.
      apply negb_true_iff, Z.eqb_neq in E3. split_and!; [lia|lia|lia|done|done]. }
    intros r s1 Ec Hs. apply wp_if; intros E4; [apply wp_ret; by split; [|right; left]|].
    apply negb_false_iff, Z.eqb_eq in E4. by apply Htail; [|apply Hs].
  - apply wp_ret, Htail; [done|]. apply negb_false_iff, Z.eqb_eq in E3. rewrite E3. by rewrite store_nil.
Qed.

(** A write stores the block and extends the image; gives the update up, when
    the flash fails; or is refused. *)
Lemma write_stores component offset data s v m :
  agrees b transport floor (fs_ctx s) v → holds (fs_world s) m → 0 ≤ offset < 2 ^ 32 → Z.of_nat (length data) < 2 ^ 32 →
  fwp (wt_fwu_write component offset data) (λ st s',
    (st = PSA_SUCCESS ∧ fc_state (fs_ctx s) = PSA_FWU_WRITING ∧ holds (fs_world s') (store m offset (data ++ padding data)) ∧
     fs_ctx s' = fs_ctx s <| fc_write_high := fc_write_high (fs_ctx s) `max` (offset + Z.of_nat (length data)) |>) ∨
    (st = PSA_ERROR_STORAGE_FAILURE ∧ fs_ctx s' = fail_with PSA_ERROR_STORAGE_FAILURE (fs_ctx s)) ∨
    (st < 0 ∧ s' = s)) s.
Proof.
  intros Ha Hm Ho Hd. apply fwp_fn, wp_bind, wp_gets. rewrite (ag_backend _ _ _ _ _ Ha). cbv beta iota zeta.
  apply wp_if; intros E0; [by apply wp_ret; right; right|]. apply wp_if; intros E1; [by apply wp_ret; right; right|].
  apply orb_false_iff in E0 as [_ E0%Z.eqb_neq]. apply negb_false_iff, Z.eqb_eq in E1. fold (granule b). apply wp_if; intros E2; [by apply wp_ret; right; right|]. bool_hyps.
  rewrite u32_no_wrap in * by lia. apply wp_bind.
  eapply wp_mono; [apply (program_stores s m); [done|lia|lia|lia|done]|exact (λ _ _ H, H)|].
  intros st s1 [Ec Hst]. apply wp_bind. destruct Hst as [[-> Hfl]|[->|[-> ->]]]; [|simpl; right; left; by rewrite Ec|by right; right].
  change (PSA_SUCCESS =? PSA_ERROR_STORAGE_FAILURE) with false. apply wp_when; intros E3; simpl in E3; left.
  - apply Z.ltb_lt in E3. split_and!; [done|done|done|]. simpl. by rewrite Ec, Z.max_r by lia.
  - apply Z.ltb_ge in E3. split_and!; [done|done|done|]. rewrite Ec, Z.max_l by lia. by destruct (fs_ctx s).
Qed.

(** ** A whole update *)

Lemma start_erases component version s m : fc_backend (fs_ctx s) = Some b → holds (fs_world s) m →
  fwp (wt_fwu_start component version) (λ st s', st = PSA_SUCCESS → holds (fs_world s') blank) s.
Proof.
  intros Hb Hm. apply fwp_fn, wp_bind, wp_gets. rewrite Hb. cbv beta iota. repeat (apply wp_if; intros _; [done|]).
  destruct sf_complete as [[f Hf] _]. rewrite Hf. apply wp_bind, wp_backend. intros w' r Er.
  apply wp_if; intros E; [done|]. apply negb_false_iff, Z.eqb_eq in E. subst r.
  apply wp_bind, wp_modify, wp_ret. intros _. simpl. by eapply sf_begin.
Qed.
Lemma finish_holds component s m : fc_backend (fs_ctx s) = Some b → holds (fs_world s) m →
  fwp (wt_fwu_finish component) (λ _ s', holds (fs_world s') m) s.
Proof.
  intros Hb Hm. apply fwp_fn, wp_bind, wp_gets. rewrite Hb. cbv beta iota. repeat (apply wp_if; intros _; [done|]).
  assert (∀ s1, holds (fs_world s1) m → wp (R := Z) (c ← gets fs_ctx;
      if (fc_candidate_version c =? WT_FWU_VERSION_UNDECLARED) || (fc_candidate_version c <? fc_version_floor c)
      then mod_ctx (fail_with PSA_ERROR_NOT_PERMITTED);; mret PSA_ERROR_NOT_PERMITTED else
      mod_ctx (λ c, c <| fc_state := PSA_FWU_CANDIDATE |>);; mret PSA_SUCCESS)
      (λ _ s', holds (fs_world s') m) (λ _ s', holds (fs_world s') m) s1) as Hrest.
  { intros s1 H1. apply wp_bind, wp_gets. by apply wp_if; intros _; apply wp_bind, wp_modify, wp_ret. }
  apply wp_bind. unfold fwu_bind_version. destruct (fb_verify b) as [f|] eqn:Ef; [|by apply wp_ret, Hrest].
  apply wp_bind, wp_gets, wp_bind, wp_backend. intros w' [ret ver] Er.
  assert (holds w' m) by by eapply sf_verify. apply wp_if; intros _; [by apply wp_bind, wp_modify, wp_early|].
  apply wp_if; intros _; [by apply wp_modify, Hrest|].
  apply wp_when; intros _; [by apply wp_bind, wp_modify, wp_early|by apply Hrest].
Qed.
Lemma install_triggers s m : fc_backend (fs_ctx s) = Some b → holds (fs_world s) m →
  fwp wt_fwu_install (λ st s', st = PSA_SUCCESS_REBOOT →
    holds (fs_world s') m ∧ triggered (fs_world s') = true ∧
    fs_ctx s' = fs_ctx s <| fc_state := PSA_FWU_STAGED |> <| fc_armed := 1 |>) s.
Proof.
  intros Hb Hm. apply fwp_fn, wp_bind, wp_gets. rewrite Hb. cbv beta iota. apply wp_if; intros _; [done|].
  destruct (fb_arm b) as [f|] eqn:Ef; [|done]. destruct (fb_disarm b); [|done].
  apply wp_if; intros _; [by apply wp_bind, wp_modify, wp_ret|]. apply wp_bind, wp_backend. intros w' r Er.
  apply wp_if; intros E; [done|]. apply negb_false_iff, Z.eqb_eq in E. subst r.
  apply wp_bind, wp_modify, wp_ret. intros _. simpl. by destruct (sf_arm f _ _ _ _ m Ef Hm Er).
Qed.

Definition expect (op : func (fwu_sys W) Z) (ok : Z) : prog (fwu_sys W) bool unit :=
  st ← call op; when (negb (st =? ok)) (early false).
(** A client's update, given up at the first error. *)
Definition update (component version : Z) (blocks : list (Z * list Z)) : func (fwu_sys W) bool := fn (
  expect (wt_fwu_start component version) PSA_SUCCESS;;
  for_each blocks (λ '(offset, data), expect (wt_fwu_write component offset data) PSA_SUCCESS);;
  expect (wt_fwu_finish component) PSA_SUCCESS;;
  expect wt_fwu_install PSA_SUCCESS_REBOOT;;
  mret true).

(** The image of a list of blocks, the later ones over the earlier. *)
Definition image (blocks : list (Z * list Z)) : content :=
  foldl (λ m '(offset, data), store m offset (data ++ padding data)) blank blocks.

Lemma wp_expect op ok (E : bool → fwu_sys W → Prop) (Q : unit → fwu_sys W → Prop) s :
  (∀ s', E false s') → fwp op (λ st s', st = ok → Q tt s') s → wp (expect op ok) E Q s.
Proof.
  intros HE Hop. apply wp_bind, wp_call. eapply fwp_mono; [exact Hop|]. intros st s' Hs.
  apply wp_when; intros Hst; [by apply wp_early|]. apply negb_false_iff, Z.eqb_eq in Hst. auto.
Qed.
(** A step of the state machine that stages [m]. *)
Definition staging (m : content) (s : fwu_sys W) : Prop :=
  (∃ v, agrees b transport floor (fs_ctx s) v) ∧ holds (fs_world s) m.
Lemma wp_stage op ok (E : bool → fwu_sys W → Prop) m m' (Q : unit → fwu_sys W → Prop) s :
  (∀ s', E false s') → staging m s → keeps b transport floor op →
  fwp op (λ st s', st = ok → holds (fs_world s') m') s → (∀ s', staging m' s' → Q tt s') → wp (expect op ok) E Q s.
Proof.
  intros HE [[v Ha] _] Hk Hop HQ. apply wp_expect; [done|].
  eapply fwp_mono; [apply fwp_conj; [by apply (Hk s v)|exact Hop]|].
  intros st s' [(v' & _ & Ha') Hs] Hst. apply HQ. split; [by exists v'|auto].
Qed.

(** An update that a client carried to its end has put exactly the bytes of its
    blocks into the update partition, in their order, and armed it. *)
Lemma update_complete component version blocks s v m :
  agrees b transport floor (fs_ctx s) v → holds (fs_world s) m →
  Forall (λ '(offset, data), 0 ≤ offset < 2 ^ 32 ∧ Z.of_nat (length data) < 2 ^ 32) blocks →
  fwp (update component version blocks) (λ done s', done = true →
    holds (fs_world s') (image blocks) ∧ triggered (fs_world s') = true ∧ fc_state (fs_ctx s') = PSA_FWU_STAGED) s.
Proof.
  intros Ha Hm Hbl. rewrite Forall_forall in Hbl. apply fwp_fn. unfold update. apply wp_bind.
  eapply (wp_stage _ _ _ m blank); [done|by split; [exists v|]|by apply start_keeps|by eapply start_erases; [apply Ha|]|].
  intros s1 Hs1. apply wp_bind. apply (wp_for_each blocks _ (λ l, staging (image l))); [done| |].
  { intros l1 [offset data] l2 s2 Hl Hs2. pose proof Hs2 as [[v2 Ha2] Hh2].
    destruct (Hbl (offset, data)) as [Ho Hd]; [rewrite Hl; set_solver|].
    eapply wp_stage; [done|done|by apply fwu_write_keeps| |by intros s3 Hs3; exact Hs3].
    eapply fwp_mono; [by apply (write_stores component offset data s2 v2)|]. intros st s3 Hst ->.
    unfold image. rewrite foldl_app. simpl. by destruct Hst as [(_ & _ & Hh & _)|[[? _]|[? _]]]. }
  intros s2 Hs2. pose proof Hs2 as [[v2 Ha2] Hh2]. apply wp_bind.
  eapply (wp_stage _ _ _ _ (image blocks)); [done|done|by apply finish_keeps| |].
  { eapply fwp_mono; [by eapply finish_holds; [apply Ha2|]|done]. }
  intros s3 [[v3 Ha3] Hh3]. apply wp_bind, wp_expect; [done|].
  eapply fwp_mono; [by eapply install_triggers; [apply Ha3|]|]. intros st s4 Hst E. apply wp_ret. intros _.
  by destruct (Hst E) as (Hh4 & Ht & ->).
Qed.
End staging.
