(* ===== verification/FlashStm32.v ===== *)
(** * Flash driver of the STM32H563 port: [port/stm32h563/hsm_flash.c]

    The primitives of the key store and update partitions in the internal
    flash, and the staging backend of the firmware update service on them. The
    flash controller is a parameter: what a quad-word programming or a sector
    erase started through [FLASH_CR] does to the array, and the error flags it
    leaves in [FLASH_SR]. Waiting for the controller, its lock and the cache
    are part of its operations. *)

From Stdlib Require Import ZArith Lia.
From stdpp Require Import base list numbers option sets.
From S2P Require Import Prelude Buffers CState Service FfmTypes Fwu.

(** ** Memory map and registers *)

Definition WT_FLASH_NS_BASE : Z := 0x08000000.
Definition WT_FLASH_S_ALIAS_BASE : Z := 0x0C000000.
Definition WT_FLASH_SECTOR_SIZE : Z := 0x2000.
Definition WT_HSM_NVM_FLASH_BASE_S : Z := 0x0C1FC000.
Definition WT_HSM_NVM_FLASH_SIZE : Z := 0x4000.
Definition WT_FWU_UPDATE_FLASH_BASE_S : Z := 0x0C100000.
Definition WT_FWU_UPDATE_FLASH_SIZE : Z := 0x40000.
Definition WT_FLASH_BANK2_BASE_NS : Z := 0x08100000.
Definition WT_FLASH_TOP_NS : Z := 0x081FFFFF.
Definition WT_FLASH_BANK_SECTORS : Z := 128.

Definition WT_FLASH_SR_ALL_ERR : Z :=
  (1 .<< 17) .| (1 .<< 18) .| (1 .<< 19) .| (1 .<< 20) .| (1 .<< 21) .| (1 .<< 22).
Definition WT_FLASH_CR_PG : Z := 1 .<< 1.
Definition WT_FLASH_CR_SER : Z := 1 .<< 2.
Definition WT_FLASH_CR_BER : Z := 1 .<< 3.
Definition WT_FLASH_CR_STRT : Z := 1 .<< 5.
Definition WT_FLASH_CR_PNB_SHIFT : Z := 6.
Definition WT_FLASH_CR_PNB_MASK : Z := 0x7F.
Definition WT_FLASH_CR_MER : Z := 1 .<< 15.
Definition WT_FLASH_CR_BKSEL : Z := 1 .<< 31.

Record wt_hsm_flash_context := {
  fx_base : Z;
  fx_size : Z;
  fx_sector_size : Z;
  fx_program_unit : Z;
  fx_write_locked : bool;
}.
Definition g_hsm_flash_cfg : wt_hsm_flash_config :=
  {| cf_base := WT_HSM_NVM_FLASH_BASE_S; cf_size := WT_HSM_NVM_FLASH_SIZE; cf_sector_size := WT_FLASH_SECTOR_SIZE;
     cf_program_unit := 16 |}.
Definition g_fwu_flash_cfg : wt_hsm_flash_config :=
  {| cf_base := WT_FWU_UPDATE_FLASH_BASE_S; cf_size := WT_FWU_UPDATE_FLASH_SIZE; cf_sector_size := WT_FLASH_SECTOR_SIZE;
     cf_program_unit := 16 |}.

Record flash := {
  fl_array : Z → Z;        (** by address of the Secure alias *)
  fl_cr : Z;               (** [FLASH_CR] *)
  fl_hw : Z;               (** the rest of the controller *)
  fl_hsm_ctx : wt_hsm_flash_context;
  fl_fwu_ctx : wt_hsm_flash_context;
  g_fwu_erased_sectors : Z;
  g_wt_flash_prog_calls : Z;
  g_wt_flash_erase_calls : Z;
  g_wt_flash_first_err : Z * Z * Z;   (** code, [_off] and [_sr] *)
  g_wt_flash_gate_aborts : Z * Z;     (** count and [_abort_info] *)
}.
#[export] Instance flash_eta : Settable flash := λ s,
  {| fl_array := fl_array s; fl_cr := fl_cr s; fl_hw := fl_hw s; fl_hsm_ctx := fl_hsm_ctx s; fl_fwu_ctx := fl_fwu_ctx s;
     g_fwu_erased_sectors := g_fwu_erased_sectors s; g_wt_flash_prog_calls := g_wt_flash_prog_calls s;
     g_wt_flash_erase_calls := g_wt_flash_erase_calls s; g_wt_flash_first_err := g_wt_flash_first_err s;
     g_wt_flash_gate_aborts := g_wt_flash_gate_aborts s |}.
#[export] Instance set_fl_array : Setter fl_array. Proof. derive_setter. Defined.
#[export] Instance set_fl_cr : Setter fl_cr. Proof. derive_setter. Defined.
#[export] Instance set_fl_hw : Setter fl_hw. Proof. derive_setter. Defined.
#[export] Instance set_fl_hsm_ctx : Setter fl_hsm_ctx. Proof. derive_setter. Defined.
#[export] Instance set_fl_fwu_ctx : Setter fl_fwu_ctx. Proof. derive_setter. Defined.
#[export] Instance set_erased_sectors : Setter g_fwu_erased_sectors. Proof. derive_setter. Defined.
#[export] Instance set_prog_calls : Setter g_wt_flash_prog_calls. Proof. derive_setter. Defined.
#[export] Instance set_erase_calls : Setter g_wt_flash_erase_calls. Proof. derive_setter. Defined.
#[export] Instance set_first_err : Setter g_wt_flash_first_err. Proof. derive_setter. Defined.
#[export] Instance set_gate_aborts : Setter g_wt_flash_gate_aborts. Proof. derive_setter. Defined.

(** The controller, the privilege of the running thread and the gate an
    unprivileged thread goes through: its result, [ret_int] and the bytes stored
    in the buffer. *)
Class FlashHw := {
  flash_errors :: WhErrors;
  controller_unlock : flash → flash;
  controller_lock : flash → flash;       (** with the cache invalidation *)
  controller_program : Z → list Z → Z → (Z → Z) → Z * (Z → Z) * Z;   (** last: [FLASH_SR] *)
  controller_erase : Z → Z → (Z → Z) → Z * (Z → Z) * Z;              (** first: [FLASH_CR] with [STRT] *)
  controller_ecc : Z → Z → Z → Z * bool;                             (** a read: double-bit error found *)
  swap_bank : Z → bool;
  wt_arch_thread_unprivileged : bool;
  spm_sp_call : Z → Z → Z → list Z → flash → flash * (Z * Z * list Z);
}.

Section driver.
Context `{FlashHw}.

Definition wt_flash_geometry (context : flash_ctx) : option wt_hsm_flash_config :=
  match context with CtxHsm => Some g_hsm_flash_cfg | CtxFwu => Some g_fwu_flash_cfg | CtxOther _ => None end.
(** [write_locked] of the context, read only for one with a geometry. *)
Definition write_locked (s : flash) (context : flash_ctx) : bool :=
  match context with
  | CtxHsm => fx_write_locked (fl_hsm_ctx s)
  | CtxFwu => fx_write_locked (fl_fwu_ctx s)
  | CtxOther _ => false
  end.

Definition wt_flash_ns_addr (addr : Z) : Z := addr .&~ 0x04000000.

Definition wt_flash_range_ok (geom : option wt_hsm_flash_config) (offset size : Z) : bool :=
  match geom with
  | None => false
  | Some g =>
    if (cf_sector_size g =? 0) || (cf_program_unit g =? 0) then false else
    if cf_size g <? offset then false else
    if cf_size g - offset <? size then false else true
  end.

(** The result and [data]. *)
Definition wt_flash_read_checked (source size : Z) : func flash (Z * list Z) := λ s,
  let data := mem_read (fl_array s) source size in
  let '(hw, ecc) := controller_ecc source size (fl_hw s) in
  Some (s <| fl_hw := hw |>, if ecc then (WH_ERROR_ABORTED, zeros (Z.to_nat size)) else (WH_ERROR_OK, data)).

(** [if (g_wt_flash_first_err == 0u) g_wt_flash_first_err = ...] *)
Definition latch {R} (code off : Z) (sr : option Z) : prog flash R unit :=
  modify (λ s, let '(c, o, r) := g_wt_flash_first_err s in
    if c =? 0 then s <| g_wt_flash_first_err := (code, off, default r sr) |> else s).

Definition wt_hsm_flash_gate (context : flash_ctx) (sub_op offset size : Z) (data : list Z) : func flash (Z * list Z) := fn (
  if negb (bool_decide (context = CtxHsm)) then mret (WH_ERROR_BADARGS, data) else
  '(rc, ret_int, data) ← (λ s, let '(s', r) := spm_sp_call sub_op offset size data s in Some (s', inr r));
  if negb (rc =? WT_FFM_SUCCESS) then
    modify (λ s, let '(n, info) := g_wt_flash_gate_aborts s in
      s <| g_wt_flash_gate_aborts := (u32 (n + 1),
             if info =? 0 then u32 (sub_op .<< 24) .| (u32 rc .& 0x00FFFFFF) else info) |>);;
    mret (WH_ERROR_ABORTED, data)
  else mret (ret_int, data)).

(** [config] is one of the driver's constants, and never null. *)
Definition wt_hsm_flash_init (context : flash_ctx) (cfg : wt_hsm_flash_config) : func flash Z := fn (
  if (cf_base cfg =? 0) || (cf_size cfg =? 0) || (cf_sector_size cfg =? 0) || (cf_program_unit cfg =? 0) ||
     negb (cf_size cfg mod cf_sector_size cfg =? 0) || negb (cf_sector_size cfg mod cf_program_unit cfg =? 0)
  then mret WH_ERROR_BADARGS else
  let ctx := {| fx_base := cf_base cfg; fx_size := cf_size cfg; fx_sector_size := cf_sector_size cfg;
                fx_program_unit := cf_program_unit cfg; fx_write_locked := false |} in
  modify (λ s, match context with CtxHsm => s <| fl_hsm_ctx := ctx |> | CtxFwu => s <| fl_fwu_ctx := ctx |>
               | CtxOther _ => s end);;
  mret WH_ERROR_OK).

Definition wt_hsm_flash_cleanup (context : flash_ctx) : func flash Z := fn (
  if wt_arch_thread_unprivileged then r ← call (wt_hsm_flash_gate context 5 0 0 []); mret (fst r) else
  modify controller_lock;; mret WH_ERROR_OK).

Definition wt_hsm_flash_partition_size (context : flash_ctx) : Z :=
  match wt_flash_geometry context with None => 0 | Some g => cf_sector_size g end.

Definition set_write_locked (context : flash_ctx) (b : bool) : func flash Z := λ s,
  let upd x := {| fx_base := fx_base x; fx_size := fx_size x; fx_sector_size := fx_sector_size x;
                  fx_program_unit := fx_program_unit x; fx_write_locked := b |} in
  Some (match context with
        | CtxHsm => s <| fl_hsm_ctx := upd (fl_hsm_ctx s) |>
        | CtxFwu => s <| fl_fwu_ctx := upd (fl_fwu_ctx s) |>
        | CtxOther _ => s
        end, WH_ERROR_OK).
Definition wt_hsm_flash_write_lock (context : flash_ctx) : func flash Z := set_write_locked context true.
Definition wt_hsm_flash_write_unlock (context : flash_ctx) : func flash Z := set_write_locked context false.

Definition wt_hsm_flash_read (context : flash_ctx) (offset size : Z) (buffer : list Z) : func flash (Z * list Z) := fn (
  if wt_arch_thread_unprivileged then call (wt_hsm_flash_gate context 0 offset size buffer) else
  let geom := wt_flash_geometry context in
  if negb (wt_flash_range_ok geom offset size) then mret (WH_ERROR_BADARGS, buffer) else
  g ← defined geom;
  if negb (size =? 0) then call (wt_flash_read_checked (cf_base g + offset) size)
  else mret (WH_ERROR_OK, buffer)).

(** One quad-word: [CR.PG] set, four word stores, and the flags checked. *)
Definition program_unit (geom : wt_hsm_flash_config) (offset written : Z) (word : list Z) : prog flash Z Z :=
  modify (λ s, s <| fl_cr := fl_cr s .| WT_FLASH_CR_PG |>);;
  s ← gets id;
  let '(hw, array, sr) := controller_program (cf_base geom + offset + written) word (fl_hw s) (fl_array s) in
  modify (λ s, s <| fl_hw := hw |> <| fl_array := array |> <| fl_cr := fl_cr s .&~ WT_FLASH_CR_PG |>);;
  if has_any sr WT_FLASH_SR_ALL_ERR then
    latch 0x04000000 (u32 (offset + written)) (Some sr);; mret WH_ERROR_ABORTED
  else mret WH_ERROR_OK.
Fixpoint program_loop (fuel : nat) (geom : wt_hsm_flash_config) (offset : Z) (data : list Z) (written : Z) :
    prog flash Z Z :=
  match fuel with
  | O => defined None
  | S fuel' =>
    if negb (written <? Z.of_nat (length data)) then mret WH_ERROR_OK else
    word ← defined (buf_read data written 16);
    ret ← program_unit geom offset written word;
    if negb (ret =? WH_ERROR_OK) then mret ret
    else program_loop fuel' geom offset data (written + cf_program_unit geom)
  end.
Definition wt_hsm_flash_program (context : flash_ctx) (offset : Z) (data : list Z) : func flash Z := fn (
  let size := Z.of_nat (length data) in
  let geom := wt_flash_geometry context in
  if wt_arch_thread_unprivileged then r ← call (wt_hsm_flash_gate context 1 offset size data); mret (fst r) else
  when (bool_decide (context = CtxHsm)) (modify (λ s, s <| g_wt_flash_prog_calls := u32 (g_wt_flash_prog_calls s + 1) |>));;
  if negb (wt_flash_range_ok geom offset size) then
    latch (0x01000000 .| u32 (- WH_ERROR_BADARGS)) offset None;; mret WH_ERROR_BADARGS else
  g ← defined geom;
  if negb (offset mod cf_program_unit g =? 0) || negb (size mod cf_program_unit g =? 0) then
    latch (0x02000000 .| u32 (- WH_ERROR_BADARGS)) offset None;; mret WH_ERROR_BADARGS else
  s ← gets id;
  if negb (size =? 0) && write_locked s context then
    latch (0x03000000 .| u32 (- WH_ERROR_LOCKED)) offset None;; mret WH_ERROR_LOCKED else
  modify controller_unlock;;
  ret ← program_loop (S (Z.to_nat size)) g offset data 0;
  modify (λ s, s <| fl_cr := fl_cr s .&~ WT_FLASH_CR_PG |>);;
  modify controller_lock;;
  mret ret).

(** The sector number within its bank, the bank and [FLASH_CR] for the sector
    at [addr]. *)
Definition erase_cr (s : flash) (geom : wt_hsm_flash_config) (addr : Z) : Z :=
  let ns_addr := wt_flash_ns_addr addr in
  let sector := (ns_addr - WT_FLASH_NS_BASE) / cf_sector_size geom in
  let upper := (WT_FLASH_BANK2_BASE_NS <=? ns_addr) && (ns_addr <=? WT_FLASH_TOP_NS) in
  let sector_in_bank := if upper then sector - WT_FLASH_BANK_SECTORS else sector in
  let bank := xorb upper (swap_bank (fl_hw s)) in
  let cr := fl_cr s .&~ ((WT_FLASH_CR_PNB_MASK .<< WT_FLASH_CR_PNB_SHIFT) .| WT_FLASH_CR_SER .| WT_FLASH_CR_BER .|
                         WT_FLASH_CR_PG .| WT_FLASH_CR_MER .| WT_FLASH_CR_BKSEL) in
  cr .| ((sector_in_bank .<< WT_FLASH_CR_PNB_SHIFT) .| WT_FLASH_CR_SER .| (if bank then WT_FLASH_CR_BKSEL else 0)).
Definition erase_sector (geom : wt_hsm_flash_config) (start : Z) : prog flash Z Z :=
  modify (λ s, s <| fl_cr := erase_cr s geom (cf_base geom + start) |>);;
  s ← gets id;
  let '(hw, array, sr) := controller_erase (fl_cr s .| WT_FLASH_CR_STRT) (fl_hw s) (fl_array s) in
  modify (λ s, s <| fl_hw := hw |> <| fl_array := array |>);;
  if has_any sr WT_FLASH_SR_ALL_ERR then
    latch 0x05000000 start (Some sr);; mret WH_ERROR_ABORTED
  else mret WH_ERROR_OK.
Fixpoint erase_loop (fuel : nat) (geom : wt_hsm_flash_config) (start end_ : Z) : prog flash Z Z :=
  match fuel with
  | O => defined None
  | S fuel' =>
    if negb (start <? end_) then mret WH_ERROR_OK else
    ret ← erase_sector geom start;
    if negb (ret =? WH_ERROR_OK) then mret WH_ERROR_ABORTED
    else erase_loop fuel' geom (start + cf_sector_size geom) end_
  end.
Definition wt_hsm_flash_erase (context : flash_ctx) (offset size : Z) : func flash Z := fn (
  let geom := wt_flash_geometry context in
  if wt_arch_thread_unprivileged then r ← call (wt_hsm_flash_gate context 2 offset size []); mret (fst r) else
  when (bool_decide (context = CtxHsm)) (modify (λ s, s <| g_wt_flash_erase_calls := u32 (g_wt_flash_erase_calls s + 1) |>));;
  if negb (wt_flash_range_ok geom offset size) then mret WH_ERROR_BADARGS else
  g ← defined geom;
  if negb (offset mod cf_sector_size g =? 0) || negb (size mod cf_sector_size g =? 0) then mret WH_ERROR_BADARGS else
  s ← gets id;
  if negb (size =? 0) && write_locked s context then mret WH_ERROR_LOCKED else
  if size =? 0 then mret WH_ERROR_OK else
  modify controller_unlock;;
  ret ← erase_loop (S (Z.to_nat size)) g offset (offset + size);
  modify (λ s, s <| fl_cr := fl_cr s .&~ WT_FLASH_CR_SER |>);;
  modify controller_lock;;
  mret ret).

(** The loop of the verify and blank check: chunks of at most 16 bytes, each
    read and tested. *)
Fixpoint check_loop (fuel : nat) (base size checked : Z) (test : Z → list Z → Z) : prog flash Z Z :=
  match fuel with
  | O => defined None
  | S fuel' =>
    if negb (checked <? size) then mret WH_ERROR_OK else
    let chunk := if 16 <? size - checked then 16 else size - checked in
    '(ret, data) ← call (wt_flash_read_checked (base + checked) chunk);
    let ret := if ret =? WH_ERROR_OK then test checked data else ret in
    if negb (ret =? WH_ERROR_OK) then mret ret else check_loop fuel' base size (checked + chunk) test
  end.
Definition wt_hsm_flash_verify (context : flash_ctx) (offset : Z) (data : list Z) : func flash Z := fn (
  let size := Z.of_nat (length data) in
  if wt_arch_thread_unprivileged then r ← call (wt_hsm_flash_gate context 3 offset size data); mret (fst r) else
  let geom := wt_flash_geometry context in
  if negb (wt_flash_range_ok geom offset size) then mret WH_ERROR_BADARGS else
  g ← defined geom;
  check_loop (S (Z.to_nat size)) (cf_base g + offset) size 0 (λ checked chunk,
    if bool_decide (chunk = take (length chunk) (drop (Z.to_nat checked) data)) then WH_ERROR_OK
    else WH_ERROR_NOTVERIFIED)).
Definition wt_hsm_flash_blank_check (context : flash_ctx) (offset size : Z) : func flash Z := fn (
  if wt_arch_thread_unprivileged then r ← call (wt_hsm_flash_gate context 4 offset size []); mret (fst r) else
  let geom := wt_flash_geometry context in
  if negb (wt_flash_range_ok geom offset size) then mret WH_ERROR_BADARGS else
  g ← defined geom;
  check_loop (S (Z.to_nat size)) (cf_base g + offset) size 0 (λ _ chunk,
    if forallb (λ x, x =? 0xFF) chunk then WH_ERROR_OK else WH_ERROR_NOTBLANK)).

Definition wt_hsm_flash_format : func flash Z := wt_hsm_flash_erase CtxHsm 0 (cf_size g_hsm_flash_cfg).
End driver.

(** * Staging backend of the STM32H563 port: [port/stm32h563/hsm_flash.c]

    The staging operations behind the update service on this port: sectors of
    the update partition are erased at the first write to them, every block is
    read back, and the boot loader's trigger is the topmost program unit of the
    last sector. *)

(** ** The backend *)

Section backend.
Context `{FlashHw}.

(** [memcmp(base + offset, data, length data) == 0] *)
Definition reads_back (s : flash) (offset : Z) (data : list Z) : bool :=
  bool_decide (mem_read (fl_array s) (cf_base g_fwu_flash_cfg + offset) (Z.of_nat (length data)) = data).

Definition wt_fwu_ensure_erased (offset size : Z) : func flash Z := fn (
  let sector_size := cf_sector_size g_fwu_flash_cfg in
  let first := offset / sector_size in
  let last := u32 (offset + size - 1) / sector_size in
  for_each (seqZ first (last - first + 1)) (λ n,
    s ← gets id;
    if (n <? 32) && has_any (g_fwu_erased_sectors s) (1 .<< n) then mret tt else
    ret ← call (wt_hsm_flash_erase CtxFwu (u32 (n * sector_size)) sector_size);
    when (negb (ret =? WH_ERROR_OK)) (early (-1));;
    when (n <? 32) (modify (λ s, s <| g_fwu_erased_sectors := g_fwu_erased_sectors s .| (1 .<< n) |>)));;
  mret 0).

Definition wt_fwu_backend_begin : func flash Z := fn (
  ret ← call (wt_hsm_flash_init CtxFwu g_fwu_flash_cfg);
  if negb (ret =? WH_ERROR_OK) then mret (-1) else
  modify (λ s, s <| g_fwu_erased_sectors := 0 |>);;
  mret 0).

Definition wt_fwu_backend_write (offset : Z) (data : list Z) : func flash Z := fn (
  let size := Z.of_nat (length data) in
  let reserved := cf_size g_fwu_flash_cfg - cf_sector_size g_fwu_flash_cfg in
  if (reserved <=? offset) || (reserved - offset <? size) then mret (-1) else
  ret ← call (wt_fwu_ensure_erased offset size);
  if negb (ret =? 0) then mret (-1) else
  ret ← call (wt_hsm_flash_program CtxFwu offset data);
  if negb (ret =? WH_ERROR_OK) then mret (-1) else
  s ← gets id;
  if negb (reads_back s offset data) then mret (-1) else mret 0).

Definition wt_fwu_backend_disarm : func flash Z := fn (
  let trailer := cf_size g_fwu_flash_cfg - cf_sector_size g_fwu_flash_cfg in
  ret ← call (wt_hsm_flash_erase CtxFwu trailer (cf_sector_size g_fwu_flash_cfg));
  if negb (ret =? WH_ERROR_OK) then mret (-1) else mret 0).

Definition wt_fwu_backend_arm (image_size version : Z) : func flash Z := fn (
  let block_off := cf_size g_fwu_flash_cfg - cf_program_unit g_fwu_flash_cfg in
  match wt_fwu_wolfboot_arm_trailer (zeros 16) with
  | None => mret (-1)
  | Some block =>
    ret ← call (wt_fwu_ensure_erased block_off (Z.of_nat (length block)));
    if negb (ret =? 0) then mret (-1) else
    ret ← call (wt_hsm_flash_program CtxFwu block_off block);
    s ← gets id;
    if negb (ret =? WH_ERROR_OK) || negb (reads_back s block_off block)
    then call wt_fwu_backend_disarm;; mret (-1) else mret 0
  end).

(** The result and [*header_version]. *)
Definition wt_fwu_backend_verify (staged_size : Z) : func flash (Z * Z) := λ s,
  Some (s, match header_version (λ x, fl_array s (cf_base g_fwu_flash_cfg + x)) staged_size with
           | Some version => (0, version)
           | None => (-1, 0)
           end).

(** The operations are defined for what the service passes to them (their
    specifications in [FwuStm32Props]), so that the value where they are not
    does not matter. *)
Definition total {A} (f : func flash A) (a : A) (s : flash) : flash * A := default (s, a) (f s).
Definition wt_fwu_flash_backend : wt_fwu_backend flash :=
  {| fb_begin := Some (total wt_fwu_backend_begin (-1));
     fb_write := Some (λ offset data, total (wt_fwu_backend_write offset data) (-1));
     fb_arm := Some (λ image_size version, total (wt_fwu_backend_arm image_size version) (-1));
     fb_disarm := Some (total wt_fwu_backend_disarm (-1));
     fb_capacity := WT_FWU_UPDATE_FLASH_SIZE - WT_FLASH_SECTOR_SIZE;
     fb_align := 16;
     fb_verify := Some (λ staged_size, total (wt_fwu_backend_verify staged_size) (-1, 0)) |}.
End backend.
