(* ===== verification/FlashProps.v ===== *)
(** * The flash primitives stay inside their partition

    What the flash controller is relied on for ([FlashHwOk]), and the effect of
    the primitives on the array: a program or an erase changes no byte outside
    the range it was given, which lies in the partition of its context whatever
    the context's own fields say; a successful one has stored the data or left
    the range erased. *)

From Stdlib Require Import ZArith Lia.
From stdpp Require Import base list numbers option sets.
From S2P Require Import Prelude Buffers CState Service FfmTypes Fwu FlashStm32.

(** ** The controller *)

(** The sector [FLASH_CR] selects: bank and page number. *)
Definition selected `{FlashHw} (cr hw : Z) : Z :=
  WT_FLASH_S_ALIAS_BASE + (if xorb (Z.testbit cr 31) (swap_bank hw) then 0x100000 else 0) +
  ((cr .>> WT_FLASH_CR_PNB_SHIFT) .& WT_FLASH_CR_PNB_MASK) * WT_FLASH_SECTOR_SIZE.
(** A start of a sector erase, and not of a bank or mass erase. *)
Definition sector_erase (cr : Z) : Prop :=
  Z.testbit cr 2 = true ∧ Z.testbit cr 5 = true ∧ Z.testbit cr 1 = false ∧ Z.testbit cr 3 = false ∧ Z.testbit cr 15 = false.

Class FlashHwOk `{FlashHw} : Prop := {
  flash_codes :: WhErrorsOk;
  unlock_frame s : ∃ cr hw, controller_unlock s = s <| fl_cr := cr |> <| fl_hw := hw |>;
  lock_frame s : ∃ cr hw, controller_lock s = s <| fl_cr := cr |> <| fl_hw := hw |>;
  program_frame addr word hw array x : ¬ (addr ≤ x < addr + 16) →
    (controller_program addr word hw array).1.2 x = array x;
  program_done addr word hw array i v :
    has_any (controller_program addr word hw array).2 WT_FLASH_SR_ALL_ERR = false → length word = 16%nat →
    (∀ x, addr ≤ x < addr + 16 → array x = 0xFF) → word !! i = Some v →
    (controller_program addr word hw array).1.2 (addr + Z.of_nat i) = v;
  erase_frame cr hw array x : sector_erase cr → ¬ (selected cr hw ≤ x < selected cr hw + WT_FLASH_SECTOR_SIZE) →
    (controller_erase cr hw array).1.2 x = array x;
  erase_done cr hw array x : sector_erase cr → has_any (controller_erase cr hw array).2 WT_FLASH_SR_ALL_ERR = false →
    selected cr hw ≤ x < selected cr hw + WT_FLASH_SECTOR_SIZE → (controller_erase cr hw array).1.2 x = 0xFF;
}.

(** ** Selecting a sector *)

Lemma ns_addr_alias y : 0 ≤ y < 0x200000 → wt_flash_ns_addr (WT_FLASH_S_ALIAS_BASE + y) = WT_FLASH_NS_BASE + y.
Proof.
  intros Hy. unfold wt_flash_ns_addr, WT_FLASH_S_ALIAS_BASE, WT_FLASH_NS_BASE.
  rewrite <-Z.sub_nocarry_ldiff; [lia|]. apply Z.bits_inj'. intros n Hn. rewrite Z.ldiff_spec, Z.bits_0.
  destruct (decide (n = 26)) as [->|Hne]; [|change 0x4000000 with (2 ^ 26); rewrite Z.pow2_bits_false by lia; done].
  rewrite andb_comm. replace (Z.testbit (0xC000000 + y) 26) with true; [done|].
  rewrite Z.testbit_eqb by lia. symmetry. apply Z.eqb_eq.
  replace ((0xC000000 + y) / 2 ^ 26) with 3; [done|]. apply (Z.div_unique_pos _ _ _ y); lia.
Qed.

Lemma field_bits n s : 0 ≤ s < 128 → 0 ≤ n → Z.testbit (s .<< 6) n = (6 <=? n) && (n <? 13) && Z.testbit s (n - 6).
Proof.
  intros Hs Hn. destruct (Z.leb_spec 6 n).
  - rewrite Z.shiftl_spec by lia. destruct (Z.ltb_spec n 13); simpl; [done|].
    destruct (decide (s = 0)) as [->|]; [apply Z.bits_0|]. apply Z.bits_above_log2; [lia|].
    assert (Z.log2 s < 7) by (apply Z.log2_lt_pow2; lia). lia.
  - simpl. by rewrite Z.shiftl_spec_low by lia.
Qed.

(** Bits of the register written before an erase: [c] is its old value, [s] the
    page, [k] the bank bit. *)
Definition erase_word (c s : Z) (k : bool) : Z :=
  (c .&~ ((WT_FLASH_CR_PNB_MASK .<< WT_FLASH_CR_PNB_SHIFT) .| WT_FLASH_CR_SER .| WT_FLASH_CR_BER .|
          WT_FLASH_CR_PG .| WT_FLASH_CR_MER .| WT_FLASH_CR_BKSEL)) .|
  ((s .<< WT_FLASH_CR_PNB_SHIFT) .| WT_FLASH_CR_SER .| (if k then WT_FLASH_CR_BKSEL else 0)) .| WT_FLASH_CR_STRT.
Lemma erase_word_bits c s k n : 0 ≤ s < 128 → 0 ≤ n →
  Z.testbit (erase_word c s k) n =
    if (6 <=? n) && (n <? 13) then Z.testbit s (n - 6) else
    if (n =? 2) || (n =? 5) then true else
    if (n =? 1) || (n =? 3) || (n =? 15) then false else
    if n =? 31 then k else Z.testbit c n.
Proof.
  intros Hs Hn. unfold erase_word, WT_FLASH_CR_PNB_SHIFT.
  rewrite !Z.lor_spec, Z.ldiff_spec, field_bits by lia.
  change ((WT_FLASH_CR_PNB_MASK .<< 6) .| WT_FLASH_CR_SER .| WT_FLASH_CR_BER .| WT_FLASH_CR_PG .| WT_FLASH_CR_MER .| WT_FLASH_CR_BKSEL)
    with (0x7F .<< 6 .| (1 .<< 2) .| (1 .<< 3) .| (1 .<< 1) .| (1 .<< 15) .| (1 .<< 31)).
  rewrite !Z.lor_spec. rewrite (field_bits n 0x7F) by lia.
  replace (Z.testbit (if k then WT_FLASH_CR_BKSEL else 0) n) with (k && Z.testbit (1 .<< 31) n)
    by (destruct k; [done|by rewrite Z.bits_0]).
  unfold WT_FLASH_CR_SER, WT_FLASH_CR_STRT.
  rewrite !Z.shiftl_1_l.
  assert (∀ m, 0 ≤ m → Z.testbit (2 ^ m) n = (n =? m)) as Hp.
  { intros m Hm. rewrite Z.pow2_bits_eqb by lia. apply Z.eqb_sym. }
  rewrite !Hp by lia.
  assert ((6 <=? n) && (n <? 13) = true → Z.testbit 0x7F (n - 6) = true) as H7.
  { intros Hr. bool_hyps. change 0x7F with (Z.ones 7). apply Z.ones_spec_low. lia. }
  destruct ((6 <=? n) && (n <? 13)) eqn:Er.
  - rewrite H7 by done. bool_hyps.
    rewrite !(proj2 (Z.eqb_neq n _)) by lia. by destruct (Z.testbit c n), (Z.testbit s (n - 6)), k.
  - simpl. destruct (Z.eqb_spec n 2) as [->|]; [by destruct (Z.testbit c 2), k|].
    destruct (Z.eqb_spec n 5) as [->|]; [by rewrite !orb_true_r|].
    destruct (Z.eqb_spec n 1) as [->|]; [by destruct (Z.testbit c 1), k|].
    destruct (Z.eqb_spec n 3) as [->|]; [by destruct (Z.testbit c 3), k|].
    destruct (Z.eqb_spec n 15) as [->|]; [by destruct (Z.testbit c 15), k|].
    destruct (Z.eqb_spec n 31) as [->|]; [by destruct (Z.testbit c 31), k|].
    by destruct (Z.testbit c n), k.
Qed.
Lemma erase_word_erases c s k : 0 ≤ s < 128 → sector_erase (erase_word c s k).
Proof. intros Hs. unfold sector_erase. by rewrite !erase_word_bits by lia. Qed.
Lemma erase_word_page c s k : 0 ≤ s < 128 →
  (erase_word c s k .>> WT_FLASH_CR_PNB_SHIFT) .& WT_FLASH_CR_PNB_MASK = s.
Proof.
  intros Hs. apply Z.bits_inj'. intros n Hn. change WT_FLASH_CR_PNB_MASK with (Z.ones 7).
  rewrite Z.land_spec, Z.shiftr_spec by lia. unfold WT_FLASH_CR_PNB_SHIFT. rewrite erase_word_bits by lia.
  destruct (Z.ltb_spec n 7).
  - rewrite Z.ones_spec_low, andb_true_r by lia. rewrite (proj2 (Z.leb_le _ _)), (proj2 (Z.ltb_lt _ _)) by lia. simpl.
    f_equal. lia.
  - rewrite Z.ones_spec_high, andb_false_r by lia. symmetry.
    destruct (decide (s = 0)) as [->|]; [apply Z.bits_0|]. apply Z.bits_above_log2; [lia|].
    assert (Z.log2 s < 7) by (apply Z.log2_lt_pow2; lia). lia.
Qed.
Lemma erase_selects `{FlashHw} s geom y :
  cf_sector_size geom = WT_FLASH_SECTOR_SIZE → 0 ≤ y < 0x200000 → y mod WT_FLASH_SECTOR_SIZE = 0 →
  sector_erase (erase_cr s geom (WT_FLASH_S_ALIAS_BASE + y) .| WT_FLASH_CR_STRT) ∧
  selected (erase_cr s geom (WT_FLASH_S_ALIAS_BASE + y) .| WT_FLASH_CR_STRT) (fl_hw s) = WT_FLASH_S_ALIAS_BASE + y.
Proof.
  intros Hg Hy Hm. unfold erase_cr. cbv zeta. rewrite ns_addr_alias, Hg by done.
  replace (WT_FLASH_NS_BASE + y - WT_FLASH_NS_BASE) with y by lia.
  set (upper := (WT_FLASH_BANK2_BASE_NS <=? WT_FLASH_NS_BASE + y) && (WT_FLASH_NS_BASE + y <=? WT_FLASH_TOP_NS)).
  set (sect := if upper then y / WT_FLASH_SECTOR_SIZE - WT_FLASH_BANK_SECTORS else y / WT_FLASH_SECTOR_SIZE).
  assert (0 ≤ sect < 128 ∧ y = (if upper then 0x100000 else 0) + sect * WT_FLASH_SECTOR_SIZE) as [Hs Hyy].
  { unfold sect, upper, WT_FLASH_BANK2_BASE_NS, WT_FLASH_NS_BASE, WT_FLASH_TOP_NS, WT_FLASH_BANK_SECTORS, WT_FLASH_SECTOR_SIZE in *.
    destruct (Z.leb_spec 0x8100000 (0x8000000 + y)), (Z.leb_spec (0x8000000 + y) 0x81FFFFF); simpl;
      Z.div_mod_to_equations; lia. }
  set (k := xorb upper (swap_bank (fl_hw s))).
  match goal with |- sector_erase ?w ∧ _ => change w with (erase_word (fl_cr s) sect k) end.
  split; [by apply erase_word_erases|]. unfold selected. rewrite erase_word_page, erase_word_bits by lia. simpl.
  replace (xorb k (swap_bank (fl_hw s))) with upper by (unfold k; by destruct upper, (swap_bank _)). lia.
Qed.

(** ** The primitives *)

Section primitives.
Context `{FlashHwOk}.
(** The SPM runs privileged. *)
Hypothesis privileged : wt_arch_thread_unprivileged = false.

(** Only the bytes of [lo, hi) and the driver's counters changed. *)
Record within (lo hi : Z) (s s' : flash) : Prop := {
  wi_array x : ¬ (lo ≤ x < hi) → fl_array s' x = fl_array s x;
  wi_hsm : fl_hsm_ctx s' = fl_hsm_ctx s;
  wi_fwu : fl_fwu_ctx s' = fl_fwu_ctx s;
  wi_erased : g_fwu_erased_sectors s' = g_fwu_erased_sectors s;
}.
#[export] Instance within_preorder lo hi : PreOrder (within lo hi).
Proof.
  split; [by constructor|]. intros s1 s2 s3 [A1 A2 A3 A4] [B1 B2 B3 B4]. constructor; [|congruence..].
  intros x Hx. rewrite B1, A1; done.
Qed.
Lemma within_mono lo hi lo' hi' s s' : lo' ≤ lo → hi ≤ hi' → within lo hi s s' → within lo' hi' s s'.
Proof. intros H1 H2 [A1 A2 A3 A4]. constructor; [|done..]. intros x Hx. apply A1. lia. Qed.
Lemma within_none lo hi s s' : within 0 0 s s' → within lo hi s s'.
Proof. intros [A1 A2 A3 A4]. constructor; [|done..]. intros x _. apply A1. lia. Qed.
Lemma within_cr lo hi s cr : within lo hi s (s <| fl_cr := cr |>).
Proof. by constructor. Qed.
Lemma unlock_within lo hi s : within lo hi s (controller_unlock s) ∧ fl_array (controller_unlock s) = fl_array s.
Proof. destruct (unlock_frame s) as (cr & hw & ->). split; [by constructor|done]. Qed.
Lemma lock_within lo hi s : within lo hi s (controller_lock s) ∧ fl_array (controller_lock s) = fl_array s.
Proof. destruct (lock_frame s) as (cr & hw & ->). split; [by constructor|done]. Qed.
Lemma wp_latch {R} code off sr E (Q : unit → flash → Prop) s lo hi :
  (∀ s', within lo hi s s' → fl_array s' = fl_array s → Q tt s') → wp (R := R) (latch code off sr) E Q s.
Proof.
  intros HQ. apply wp_modify. destruct (g_wt_flash_first_err s) as [[c o] r]. destruct (c =? 0); by apply HQ.
Qed.

Record geom_ok (g : wt_hsm_flash_config) : Prop := {
  go_base : WT_FLASH_S_ALIAS_BASE ≤ cf_base g;
  go_top : cf_base g + cf_size g ≤ WT_FLASH_S_ALIAS_BASE + 0x200000;
  go_align : (cf_base g - WT_FLASH_S_ALIAS_BASE) mod WT_FLASH_SECTOR_SIZE = 0;
  go_sector : cf_sector_size g = WT_FLASH_SECTOR_SIZE;
  go_unit : cf_program_unit g = 16;
}.
Lemma geometry_ok context g : wt_flash_geometry context = Some g → geom_ok g.
Proof. destruct context; simpl; intros [= <-]; by constructor. Qed.
Lemma range_ok g offset size : wt_flash_range_ok (Some g) offset size = true →
  offset ≤ cf_size g ∧ size ≤ cf_size g - offset.
Proof.
  simpl. destruct (_ || _); [done|]. destruct (cf_size g <? offset) eqn:E1; [done|].
  destruct (cf_size g - offset <? size) eqn:E2; [done|]. by bool_hyps.
Qed.

(** *** Erasing *)

Definition erased (s : flash) (lo hi : Z) : Prop := ∀ x, lo ≤ x < hi → fl_array s x = 0xFF.

Lemma erase_sector_ok g start E s :
  geom_ok g → 0 ≤ start → start + WT_FLASH_SECTOR_SIZE ≤ cf_size g → start mod WT_FLASH_SECTOR_SIZE = 0 →
  wp (erase_sector g start) E (λ r s',
    within (cf_base g + start) (cf_base g + start + WT_FLASH_SECTOR_SIZE) s s' ∧
    (r = WH_ERROR_OK → erased s' (cf_base g + start) (cf_base g + start + WT_FLASH_SECTOR_SIZE))) s.
Proof.
  intros [G1 G2 G3 G4 G5] Hs Hend Hm. apply wp_bind, wp_modify. set (s1 := s <| fl_cr := _ |>). apply wp_bind, wp_gets.
  destruct (erase_selects s g (cf_base g - WT_FLASH_S_ALIAS_BASE + start) G4) as [He Hsel].
  { unfold WT_FLASH_SECTOR_SIZE in *. lia. }
  { rewrite Zplus_mod, G3, Hm. by vm_compute. }
  replace (WT_FLASH_S_ALIAS_BASE + (cf_base g - WT_FLASH_S_ALIAS_BASE + start)) with (cf_base g + start) in He, Hsel by lia.
  pose proof (λ x, erase_frame _ (fl_hw s) (fl_array s) x He) as Hfr.
  pose proof (λ x, erase_done _ (fl_hw s) (fl_array s) x He) as Hdo. rewrite Hsel in Hfr, Hdo.
  unfold id. simpl in Hfr, Hdo |- *.
  destruct (controller_erase _ _ _) as [[hw array] sr]. simpl in Hfr, Hdo. apply wp_bind, wp_modify.
  set (s2 := s1 <| fl_hw := hw |> <| fl_array := array |>).
  assert (within (cf_base g + start) (cf_base g + start + WT_FLASH_SECTOR_SIZE) s s2) as Hw by by constructor.
  apply wp_if; intros E1.
  - apply wp_bind. eapply wp_latch. intros s3 Hw3 _. apply wp_ret. split; [by transitivity s2|].
    intros Hr. by destruct codes_differ as (_ & ? & _).
  - apply wp_ret. split; [done|]. intros _ x Hx. by apply Hdo.
Qed.

Lemma erase_loop_ok fuel g start end_ lo E s0 s :
  geom_ok g → lo ≤ start ≤ end_ → 0 ≤ lo → end_ ≤ cf_size g → start mod WT_FLASH_SECTOR_SIZE = 0 →
  end_ mod WT_FLASH_SECTOR_SIZE = 0 → end_ - start < Z.of_nat fuel →
  within (cf_base g + lo) (cf_base g + end_) s0 s → erased s (cf_base g + lo) (cf_base g + start) →
  wp (erase_loop fuel g start end_) E (λ r s',
    within (cf_base g + lo) (cf_base g + end_) s0 s' ∧ (r = WH_ERROR_OK → erased s' (cf_base g + lo) (cf_base g + end_))) s.
Proof.
  revert start s. induction fuel as [|fuel IH]; intros start s Hg Hle Hlo Hend Hm1 Hm2 Hf Hw He; [lia|]. simpl.
  apply wp_if; intros E1; bool_hyps.
  { apply wp_ret. split; [done|]. intros _. by replace end_ with start by lia. }
  assert (start + WT_FLASH_SECTOR_SIZE ≤ end_) as Hfit.
  { unfold WT_FLASH_SECTOR_SIZE in *. Z.div_mod_to_equations. lia. }
  apply wp_bind. eapply wp_mono; [apply (erase_sector_ok g start); [done|lia|lia|done]|exact (λ _ _ H, H)|].
  intros r s1 [Hw1 He1].
  assert (within (cf_base g + lo) (cf_base g + end_) s0 s1) as Hw01.
  { transitivity s; [done|]. eapply within_mono; [| |done]; lia. }
  apply wp_if; intros E2.
  { apply wp_ret. split; [done|]. intros Hr. by destruct codes_differ as (_ & ? & _). }
  apply negb_false_iff, Z.eqb_eq in E2. rewrite (go_sector g Hg). apply IH; try done.
  - unfold WT_FLASH_SECTOR_SIZE in *. lia.
  - unfold WT_FLASH_SECTOR_SIZE in *. Z.div_mod_to_equations. lia.
  - unfold WT_FLASH_SECTOR_SIZE in *. lia.
  - intros x Hx. destruct (decide (x < cf_base g + start)); [|apply (He1 E2); lia].
    rewrite (wi_array _ _ _ _ Hw1) by lia. apply He. lia.
Qed.

(** The effect of a primitive on [size] bytes at [offset]: nothing at all, or
    changes inside the range, which is in the partition. *)
Definition confined (context : flash_ctx) (offset size : Z) (s s' : flash) : Prop :=
  within 0 0 s s' ∨ ∃ g, wt_flash_geometry context = Some g ∧ 0 ≤ size ∧ offset + size ≤ cf_size g ∧
    within (cf_base g + offset) (cf_base g + offset + size) s s'.

Definition erase_post (context : flash_ctx) (offset size : Z) (s : flash) (r : Z) (s' : flash) : Prop :=
  confined context offset size s s' ∧
  (r = WH_ERROR_OK → ∃ g, wt_flash_geometry context = Some g ∧ offset + size ≤ cf_size g ∧
     erased s' (cf_base g + offset) (cf_base g + offset + size)).

Lemma erase_ok context offset size s : 0 ≤ offset → 0 ≤ size →
  fwp (wt_hsm_flash_erase context offset size) (erase_post context offset size s) s.
Proof.
  intros Ho Hs. apply fwp_fn. unfold wt_hsm_flash_erase. cbv zeta. rewrite privileged. apply wp_bind.
  destruct codes_differ as (Hba & Hab & Hlo & _).
  match goal with |- wp _ _ ?K s => assert (∀ s1, within 0 0 s s1 → K tt s1) as Hbody end;
    [|by apply wp_when; intros _; [apply wp_modify|]; apply Hbody; constructor].
  intros s1 Hw1. assert (∀ e, e ≠ WH_ERROR_OK → erase_post context offset size s e s1) as Hfail by by split; [left|].
  apply wp_if; intros E1; [by apply wp_ret, Hfail|]. apply negb_false_iff in E1.
  destruct (wt_flash_geometry context) as [g|] eqn:Eg; [|done]. pose proof (geometry_ok _ _ Eg) as Hg.
  destruct (range_ok g offset size E1) as [R1 R2]. apply wp_bind. eapply wp_defined; [done|].
  apply wp_if; intros E2; [by apply wp_ret, Hfail|]. apply orb_false_iff in E2 as [E2 E3].
  apply negb_false_iff, Z.eqb_eq in E2, E3. rewrite (go_sector g Hg) in E2, E3.
  apply wp_bind, wp_gets. apply wp_if; intros E4; [by apply wp_ret, Hfail|].
  apply wp_if; intros E5.
  { apply Z.eqb_eq in E5. subst size. apply wp_ret. split; [by left|]. intros _. exists g. split_and!; [done|lia|]. intros x Hx. lia. }
  destruct (unlock_within 0 0 s1) as [Hwu _]. apply wp_bind, wp_modify, wp_bind.
  eapply wp_mono; [apply (erase_loop_ok _ g offset (offset + size) offset _ s)|exact (λ _ _ H, H)|]; try done; try lia.
  { rewrite Zplus_mod, E2, E3. by vm_compute. }
  { apply within_none. by transitivity s1. }
  { intros x Hx. lia. }
  intros r s2 [Hw2 He2]. apply wp_bind, wp_modify, wp_bind, wp_modify, wp_ret.
  set (s3 := s2 <| fl_cr := _ |>). destruct (lock_within 0 0 s3) as [Hwl Hal]. rewrite !Z.add_assoc in *. split.
  - right. exists g. split_and!; [done|lia|lia|]. transitivity s2; [done|]. apply within_none. by transitivity s3; [by constructor|].
  - intros Hr. exists g. split_and!; [done|lia|]. intros x Hx. rewrite Hal. by apply He2.
Qed.

(** *** Programming *)

Definition stored (s : flash) (lo : Z) (data : list Z) : Prop :=
  ∀ i v, data !! i = Some v → fl_array s (lo + Z.of_nat i) = v.

Lemma program_unit_ok g offset written word E s :
  geom_ok g → length word = 16%nat →
  wp (program_unit g offset written word) E (λ r s',
    within (cf_base g + offset + written) (cf_base g + offset + written + 16) s s' ∧
    (r = WH_ERROR_OK → erased s (cf_base g + offset + written) (cf_base g + offset + written + 16) →
       stored s' (cf_base g + offset + written) word)) s.
Proof.
  intros Hg Hl. apply wp_bind, wp_modify, wp_bind, wp_gets. unfold id. set (s1 := s <| fl_cr := _ |>).
  set (addr := cf_base g + offset + written).
  pose proof (λ x, program_frame addr word (fl_hw s1) (fl_array s1) x) as Hfr.
  pose proof (λ i v, program_done addr word (fl_hw s1) (fl_array s1) i v) as Hdo.
  destruct (controller_program _ _ _ _) as [[hw array] sr]. simpl in Hfr, Hdo. apply wp_bind, wp_modify.
  set (s2 := s1 <| fl_hw := hw |> <| fl_array := array |> <| fl_cr := _ |>).
  assert (within addr (addr + 16) s s2) as Hw by by constructor.
  apply wp_if; intros E1.
  - apply wp_bind. eapply wp_latch. intros s3 Hw3 _. apply wp_ret. split; [by transitivity s2|].
    intros Hr. by destruct codes_differ as (_ & ? & _).
  - apply wp_ret. split; [done|]. intros _ He i v Hi. by apply Hdo.
Qed.

Lemma program_loop_ok fuel g offset data written E s0 s :
  geom_ok g → 0 ≤ written ≤ Z.of_nat (length data) → written mod 16 = 0 → Z.of_nat (length data) mod 16 = 0 →
  Z.of_nat (length data) - written < Z.of_nat fuel →
  within (cf_base g + offset) (cf_base g + offset + written) s0 s →
  (erased s0 (cf_base g + offset) (cf_base g + offset + Z.of_nat (length data)) →
     stored s (cf_base g + offset) (take (Z.to_nat written) data)) →
  wp (program_loop fuel g offset data written) E (λ r s',
    within (cf_base g + offset) (cf_base g + offset + Z.of_nat (length data)) s0 s' ∧
    (r = WH_ERROR_OK → erased s0 (cf_base g + offset) (cf_base g + offset + Z.of_nat (length data)) →
       stored s' (cf_base g + offset) data)) s.
Proof.
  set (base := cf_base g + offset). revert written s.
  induction fuel as [|fuel IH]; intros written s Hg Hw Hm1 Hm2 Hf Hwi Hst; [lia|]. simpl.
  apply wp_if; intros E1; bool_hyps.
  { assert (written = Z.of_nat (length data)) as -> by lia. apply wp_ret. split; [done|]. intros _ He.
    specialize (Hst He). by rewrite take_ge in Hst by lia. }
  assert (written + 16 ≤ Z.of_nat (length data)) as Hfit by (Z.div_mod_to_equations; lia).
  destruct (buf_read_spec data written 16) as (word & Ew & Hl); [lia..|]. apply wp_bind. eapply wp_defined; [done|].
  apply wp_bind. eapply wp_mono; [apply (program_unit_ok g offset written word); [done|lia]|exact (λ _ _ H, H)|].
  intros r s1 [Hw1 Hst1]. fold base in Hw1, Hst1.
  assert (within base (base + (written + 16)) s0 s1) as Hw01.
  { transitivity s; [eapply within_mono; [| |exact Hwi]; lia|eapply within_mono; [| |exact Hw1]; lia]. }
  apply wp_if; intros E2.
  { apply wp_ret. split; [eapply within_mono; [| |exact Hw01]; lia|]. intros Hr. apply negb_true_iff, Z.eqb_neq in E2. done. }
  apply negb_false_iff, Z.eqb_eq in E2. rewrite (go_unit g Hg). apply IH; try done; try lia.
  { rewrite Zplus_mod, Hm1. by vm_compute. }
  intros He. specialize (Hst He). specialize (Hst1 E2).
  assert (stored s1 (base + written) word) as Hst1'.
  { apply Hst1. intros x Hx. rewrite (wi_array _ _ _ _ Hwi) by lia. apply He. lia. }
  intros i v Hi. apply lookup_take_Some in Hi as [Hi Hlt]. destruct (decide (Z.of_nat i < written)).
  - rewrite (wi_array _ _ _ _ Hw1) by lia. apply Hst. rewrite lookup_take_lt by lia. done.
  - replace (base + Z.of_nat i) with (base + written + Z.of_nat (i - Z.to_nat written)) by lia. apply Hst1'.
    rewrite (buf_read_lookup _ _ _ _ _ Ew) by lia. rewrite <-Hi. f_equal. lia.
Qed.

Definition program_post (context : flash_ctx) (offset : Z) (data : list Z) (s : flash) (r : Z) (s' : flash) : Prop :=
  confined context offset (Z.of_nat (length data)) s s' ∧
  (r = WH_ERROR_OK → ∃ g, wt_flash_geometry context = Some g ∧ offset + Z.of_nat (length data) ≤ cf_size g ∧
     (erased s (cf_base g + offset) (cf_base g + offset + Z.of_nat (length data)) → stored s' (cf_base g + offset) data)).

Lemma hsm_program_ok context offset data s : 0 ≤ offset →
  fwp (wt_hsm_flash_program context offset data) (program_post context offset data s) s.
Proof.
  intros Ho. apply fwp_fn. unfold wt_hsm_flash_program. cbv zeta. rewrite privileged. apply wp_bind.
  destruct codes_differ as (Hba & Hab & Hlo & _). set (size := Z.of_nat (length data)).
  match goal with |- wp _ _ ?K s => assert (∀ s1, within 0 0 s s1 → fl_array s1 = fl_array s → K tt s1) as Hbody end;
    [|by apply wp_when; intros _; [apply wp_modify|]; (apply Hbody; [by constructor|])].
  intros s1 Hw1 Ha1.
  assert (∀ e c o, e ≠ WH_ERROR_OK → wp (R := Z) (latch c o None;; mret e) (program_post context offset data s)
    (program_post context offset data s) s1) as Hfail.
  { intros e c o He. apply wp_bind. apply (wp_latch _ _ _ _ _ _ 0 0). intros s2 Hw2 _. apply wp_ret.
    by split; [left; transitivity s1|]. }
  apply wp_if; intros E1; [by apply Hfail|]. apply negb_false_iff in E1.
  destruct (wt_flash_geometry context) as [g|] eqn:Eg; [|done]. pose proof (geometry_ok _ _ Eg) as Hg.
  destruct (range_ok g offset size E1) as [R1 R2]. apply wp_bind. eapply wp_defined; [done|].
  apply wp_if; intros E2; [by apply Hfail|]. apply orb_false_iff in E2 as [E2 E3].
  apply negb_false_iff, Z.eqb_eq in E2, E3. rewrite (go_unit g Hg) in E2, E3.
  apply wp_bind, wp_gets. apply wp_if; intros E4; [by apply Hfail|].
  destruct (unlock_within 0 0 s1) as [Hwu Hau]. apply wp_bind, wp_modify, wp_bind.
  eapply wp_mono; [apply (program_loop_ok _ g offset data 0 _ (controller_unlock s1))|exact (λ _ _ H, H)|]; try done; try lia.
  intros r s2 [Hw2 He2]. apply wp_bind, wp_modify, wp_bind, wp_modify, wp_ret.
  set (s3 := s2 <| fl_cr := _ |>). destruct (lock_within 0 0 s3) as [Hwl Hal]. fold size in Hw2, He2 |- *.
  assert (within 0 0 s (controller_unlock s1)) as Hwsu by by transitivity s1. split.
  - right. exists g. split_and!; [done|lia|lia|]. transitivity (controller_unlock s1); [by apply within_none|].
    transitivity s2; [done|]. apply within_none. by transitivity s3; [by constructor|].
  - intros Hr. exists g. split_and!; [done|fold size; lia|]. intros He i v Hi. rewrite Hal. apply (He2 Hr); [|done].
    intros x Hx. rewrite Hau, Ha1. by apply He.
Qed.

(** *** Reading *)

Lemma check_loop_ok fuel base size checked test (P : Z → Prop) E s0 s :
  0 ≤ checked ≤ size → size - checked < Z.of_nat fuel → within 0 0 s0 s → fl_array s = fl_array s0 →
  (∀ c data, 0 ≤ c → test c data = WH_ERROR_OK → data = mem_read (fl_array s0) (base + c) (Z.of_nat (length data)) →
     ∀ x, c ≤ x < c + Z.of_nat (length data) → P x) →
  (∀ x, 0 ≤ x < checked → P x) →
  wp (check_loop fuel base size checked test) E (λ r s', within 0 0 s0 s' ∧ fl_array s' = fl_array s0 ∧
    (r = WH_ERROR_OK → ∀ x, 0 ≤ x < size → P x)) s.
Proof.
  revert checked s. induction fuel as [|fuel IH]; intros checked s Hc Hf Hw Ha Ht HP; [lia|]. simpl.
  apply wp_if; intros E1; bool_hyps.
  { apply wp_ret. split_and!; [done|done|]. intros _ x Hx. apply HP. lia. }
  set (chunk := if 16 <? size - checked then 16 else size - checked).
  assert (0 < chunk ≤ size - checked) as Hch by (unfold chunk; destruct (Z.ltb_spec 16 (size - checked)); lia).
  apply wp_bind, wp_call. unfold fwp, wt_flash_read_checked. destruct (controller_ecc _ _ _) as [hw ecc].
  set (s1 := s <| fl_hw := hw |>). assert (within 0 0 s0 s1) as Hw1 by (transitivity s; [done|by constructor]).
  destruct ecc; simpl.
  { rewrite (proj2 (Z.eqb_neq WH_ERROR_ABORTED WH_ERROR_OK)) by apply codes_differ. simpl.
    rewrite (proj2 (Z.eqb_neq WH_ERROR_ABORTED WH_ERROR_OK)) by apply codes_differ. simpl. apply wp_ret.
    split_and!; [done|done|]. intros Hr. by destruct codes_differ as (_ & ? & _). }
  rewrite Z.eqb_refl. apply wp_if; intros E2.
  { apply wp_ret. split_and!; [done|done|]. intros Hr. apply negb_true_iff, Z.eqb_neq in E2. done. }
  apply negb_false_iff, Z.eqb_eq in E2. apply IH; try done; try lia. intros x Hx.
  destruct (decide (x < checked)); [apply HP; lia|].
  eapply (Ht checked); [lia|exact E2| |].
  - rewrite length_mem_read by lia. by rewrite Ha.
  - rewrite length_mem_read by lia. lia.
Qed.

Lemma verify_ok context offset data s : 0 ≤ offset →
  fwp (wt_hsm_flash_verify context offset data) (λ r s', within 0 0 s s' ∧ fl_array s' = fl_array s ∧
    (r = WH_ERROR_OK → ∃ g, wt_flash_geometry context = Some g ∧ stored s (cf_base g + offset) data)) s.
Proof.
  intros Ho. apply fwp_fn. unfold wt_hsm_flash_verify. cbv zeta. rewrite privileged.
  destruct codes_differ as (Hba & Hab & Hlo & Hnv & _).
  apply wp_if; intros E1; [by apply wp_ret|]. apply negb_false_iff in E1.
  destruct (wt_flash_geometry context) as [g|] eqn:Eg; [|done]. apply wp_bind. eapply wp_defined; [done|].
  eapply wp_mono; [apply (check_loop_ok _ _ _ _ _ (λ x, data !! Z.to_nat x = Some (fl_array s (cf_base g + offset + x))) _ s)
    |exact (λ _ _ H, H)|]; try done; try lia.
  - intros c chunk Hc Ht Hch x Hx. case_bool_decide as Hd; [|done].
    assert (chunk !! Z.to_nat (x - c) = Some (fl_array s (cf_base g + offset + x))) as Hl.
    { rewrite Hch. rewrite mem_read_at by lia. do 2 f_equal. lia. }
    rewrite Hd, lookup_take_lt, lookup_drop in Hl by lia. rewrite <-Hl. f_equal. lia.
  - intros r s' (Hw & Ha & Hr). split_and!; [done|done|]. intros E. exists g. split; [done|]. intros j v Hj.
    pose proof (lookup_lt_Some _ _ _ Hj). specialize (Hr E (Z.of_nat j) ltac:(lia)). rewrite Nat2Z.id in Hr. congruence.
Qed.

Lemma blank_check_ok context offset size s : 0 ≤ offset → 0 ≤ size →
  fwp (wt_hsm_flash_blank_check context offset size) (λ r s', within 0 0 s s' ∧ fl_array s' = fl_array s ∧
    (r = WH_ERROR_OK → ∃ g, wt_flash_geometry context = Some g ∧
       erased s (cf_base g + offset) (cf_base g + offset + size))) s.
Proof.
  intros Ho Hs. apply fwp_fn. unfold wt_hsm_flash_blank_check. cbv zeta. rewrite privileged.
  destruct codes_differ as (Hba & Hab & Hlo & Hnv & Hnb).
  apply wp_if; intros E1; [by apply wp_ret|]. apply negb_false_iff in E1.
  destruct (wt_flash_geometry context) as [g|] eqn:Eg; [|done]. apply wp_bind. eapply wp_defined; [done|].
  eapply wp_mono; [apply (check_loop_ok _ _ _ _ _ (λ x, fl_array s (cf_base g + offset + x) = 0xFF) _ s)
    |exact (λ _ _ H, H)|]; try done; try lia.
  - intros c chunk Hc Ht Hch x Hx. destruct (forallb _ chunk) eqn:Ef; [|done].
    rewrite forallb_forall in Ef. apply Z.eqb_eq, Ef, list_elem_of_In. rewrite Hch. apply list_elem_of_lookup.
    exists (Z.to_nat (x - c)). rewrite mem_read_at by lia. do 2 f_equal. lia.
  - intros r s' (Hw & Ha & Hr). split_and!; [done|done|]. intros E. exists g. split; [done|]. intros x Hx.
    specialize (Hr E (x - (cf_base g + offset))). rewrite Z.add_sub_assoc in Hr.
    replace (cf_base g + offset + x - (cf_base g + offset)) with x in Hr by lia. apply Hr. lia.
Qed.

Lemma read_ok context offset size buffer s : 0 ≤ offset → 0 ≤ size →
  fwp (wt_hsm_flash_read context offset size buffer) (λ r s', within 0 0 s s' ∧ fl_array s' = fl_array s ∧
    (r.1 = WH_ERROR_OK → 0 < size → ∃ g, wt_flash_geometry context = Some g ∧ offset + size ≤ cf_size g ∧
       r.2 = mem_read (fl_array s) (cf_base g + offset) size)) s.
Proof.
  intros Ho Hs. apply fwp_fn. unfold wt_hsm_flash_read. cbv zeta. rewrite privileged.
  destruct codes_differ as (Hba & Hab & _).
  apply wp_if; intros E1; [by apply wp_ret|]. apply negb_false_iff in E1.
  destruct (wt_flash_geometry context) as [g|] eqn:Eg; [|done]. destruct (range_ok g offset size E1) as [R1 R2].
  apply wp_bind. eapply wp_defined; [done|]. apply wp_if; intros E2; [|apply Z.eqb_eq in E2 || apply negb_false_iff, Z.eqb_eq in E2].
  - apply wp_call. unfold fwp, wt_flash_read_checked. destruct (controller_ecc _ _ _) as [hw [|]]; simpl.
    + split_and!; [by constructor|done|done].
    + split_and!; [by constructor|done|]. intros _ _. exists g. split_and!; [done|lia|done].
  - apply wp_ret. split_and!; [done|done|]. intros _ Hpos. lia.
Qed.

(** *** All of them *)

Inductive flash_prim :=
| PrRead (offset size : Z) (buffer : list Z)
| PrProgram (offset : Z) (data : list Z)
| PrErase (offset size : Z)
| PrVerify (offset : Z) (data : list Z)
| PrBlankCheck (offset size : Z).
Definition prim_run (context : flash_ctx) (p : flash_prim) : func flash Z :=
  match p with
  | PrRead offset size buffer => fn (r ← call (wt_hsm_flash_read context offset size buffer); mret (fst r))
  | PrProgram offset data => wt_hsm_flash_program context offset data
  | PrErase offset size => wt_hsm_flash_erase context offset size
  | PrVerify offset data => wt_hsm_flash_verify context offset data
  | PrBlankCheck offset size => wt_hsm_flash_blank_check context offset size
  end.
(** Arguments are 32-bit unsigned. *)
Definition prim_typed (p : flash_prim) : Prop :=
  match p with
  | PrRead offset size _ | PrErase offset size | PrBlankCheck offset size => 0 ≤ offset ∧ 0 ≤ size
  | PrProgram offset _ | PrVerify offset _ => 0 ≤ offset
  end.
(** The bytes a primitive may change. *)
Definition touches (p : flash_prim) : Z * Z :=
  match p with
  | PrErase offset size => (offset, size)
  | PrProgram offset data => (offset, Z.of_nat (length data))
  | _ => (0, 0)
  end.
(** What a success means. *)
Definition succeeded (base : Z) (p : flash_prim) (s s' : flash) : Prop :=
  match p with
  | PrRead _ _ _ => True
  | PrProgram offset data =>
    erased s (base + offset) (base + offset + Z.of_nat (length data)) → stored s' (base + offset) data
  | PrErase offset size => erased s' (base + offset) (base + offset + size)
  | PrVerify offset data => stored s (base + offset) data
  | PrBlankCheck offset size => erased s (base + offset) (base + offset + size)
  end.

(** whatever a context's own fields hold, a flash primitive is defined and
    changes no byte outside the range it was given, which lies in the fixed
    partition of that context; for any context the driver does not know it
    changes nothing. A successful erase leaves the range blank, a successful
    program of a blank range leaves the data there, and a successful verify or
    blank check means what it says. *)
Theorem flash_primitives_confined context p s : prim_typed p →
  ∃ s' r, prim_run context p s = Some (s', r) ∧ confined context (touches p).1 (touches p).2 s s' ∧
    (r = WH_ERROR_OK → ∀ g, wt_flash_geometry context = Some g → succeeded (cf_base g) p s s').
Proof.
  intros Ht.
  enough (fwp (prim_run context p) (λ r s', confined context (touches p).1 (touches p).2 s s' ∧
    (r = WH_ERROR_OK → ∀ g, wt_flash_geometry context = Some g → succeeded (cf_base g) p s s')) s) as Hf.
  { apply fwp_run in Hf as (s' & r & E & HQ). eauto. }
  destruct p as [o n buf|o d|o n|o d|o n]; simpl in Ht |- *.
  - apply fwp_fn, wp_bind, wp_call. eapply fwp_mono; [apply read_ok; apply Ht|]. intros r s' (Hw & _). apply wp_ret.
    by split; [left|].
  - eapply fwp_mono; [by apply hsm_program_ok|]. intros r s' [Hc Hr]. split; [done|]. intros Er g Hg.
    destruct (Hr Er) as (g' & Hg' & _ & Hs). by assert (g' = g) as -> by congruence.
  - eapply fwp_mono; [apply erase_ok; apply Ht|]. intros r s' [Hc Hr]. split; [done|]. intros Er g Hg.
    destruct (Hr Er) as (g' & Hg' & _ & Hs). by assert (g' = g) as -> by congruence.
  - eapply fwp_mono; [by apply verify_ok|]. intros r s' (Hw & _ & Hr). split; [by left|]. intros Er g Hg.
    destruct (Hr Er) as (g' & Hg' & Hs). by assert (g' = g) as -> by congruence.
  - eapply fwp_mono; [apply blank_check_ok; apply Ht|]. intros r s' (Hw & _ & Hr). split; [by left|]. intros Er g Hg.
    destruct (Hr Er) as (g' & Hg' & Hs). by assert (g' = g) as -> by congruence.
Qed.
End primitives.
