(* ===== verification/FwuStm32Props.v ===== *)
(** * The STM32H563 staging backend stages what it is given

    The lazily erased update partition implements [StagingFlash]: a sector is
    erased at most once in an update, before the first block in it, so that no
    staged byte is lost; the trigger is found by the boot loader exactly between
    a successful arm and the next disarm. *)

From Stdlib Require Import ZArith Lia.
From stdpp Require Import base list numbers option sets.
From S2P Require Import Prelude Buffers CState Service FfmTypes Fwu FwuProps FwuStage FlashStm32 FlashProps.

Section stm32.
Context `{FlashHwOk}.
Hypothesis privileged : wt_arch_thread_unprivileged = false.

Definition base : Z := cf_base g_fwu_flash_cfg.
Definition capacity : Z := WT_FWU_UPDATE_FLASH_SIZE - WT_FLASH_SECTOR_SIZE.
Definition marked (s : flash) (n : Z) : bool := has_any (g_fwu_erased_sectors s) (1 .<< n).
Definition sector (x : Z) : Z := x / WT_FLASH_SECTOR_SIZE.

(** Staged bytes are in marked sectors, and the rest of a marked sector is
    blank. *)
Definition stm_holds (s : flash) (m : content) : Prop :=
  ∀ x, match m x with
       | Some v => 0 ≤ x < capacity ∧ fl_array s (base + x) = v ∧ marked s (sector x) = true
       | None => 0 ≤ x < capacity → marked s (sector x) = true → fl_array s (base + x) = 0xFF
       end.
(** What the boot loader reads at the end of the partition: the state byte and
    the magic. *)
Definition stm_triggered (s : flash) : bool :=
  (fl_array s (base + WT_FWU_UPDATE_FLASH_SIZE - 5) =? WT_WOLFBOOT_IMG_STATE_UPDATING) &&
  (of_le (mem_read (fl_array s) (base + WT_FWU_UPDATE_FLASH_SIZE - 4) 4) =? WT_WOLFBOOT_MAGIC_TRAIL).

Lemma stm_holds_ext s m m' : m ≡ m' → stm_holds s m → stm_holds s m'.
Proof. intros Hm Hs x. rewrite <-(Hm x). apply Hs. Qed.

(** Changes outside the staged range do not matter. *)
Lemma stm_holds_outside s s' m lo : capacity ≤ lo → within (base + lo) (base + WT_FWU_UPDATE_FLASH_SIZE) s s' →
  stm_holds s m → stm_holds s' m.
Proof.
  intros Hlo Hw Hs x. specialize (Hs x). unfold marked in *. rewrite (wi_erased _ _ _ _ Hw).
  destruct (m x) as [v|].
  - destruct Hs as (H1 & H2 & H3). rewrite (wi_array _ _ _ _ Hw) by lia. done.
  - intros H1 H2. rewrite (wi_array _ _ _ _ Hw) by lia. by apply Hs.
Qed.

Lemma marked_lor s n k : 0 ≤ n → 0 ≤ k →
  marked (s <| g_fwu_erased_sectors := g_fwu_erased_sectors s .| (1 .<< n) |>) k = marked s k || (n =? k).
Proof.
  intros Hn Hk. unfold marked. simpl. rewrite !has_any_bit by done. rewrite Z.lor_spec. f_equal.
  by rewrite Z.shiftl_1_l, Z.pow2_bits_eqb.
Qed.
Lemma marked_within lo hi s s' n : within lo hi s s' → marked s' n = marked s n.
Proof. intros Hw. unfold marked. by rewrite (wi_erased _ _ _ _ Hw). Qed.

(** One sector. *)
Definition ensured (s : flash) (m : content) (l : list Z) (s' : flash) : Prop :=
  stm_holds s' m ∧ (∀ n, n ∈ l → marked s' n = true).

Lemma sector_bounds x n : sector x = n ↔ n * WT_FLASH_SECTOR_SIZE ≤ x < (n + 1) * WT_FLASH_SECTOR_SIZE.
Proof. unfold sector, WT_FLASH_SECTOR_SIZE. Z.div_mod_to_equations. lia. Qed.

(** Erasing an unmarked sector and marking it. *)
Lemma erase_marks s s' m n r :
  0 ≤ n < 32 → marked s n = false → stm_holds s m →
  erase_post CtxFwu (n * WT_FLASH_SECTOR_SIZE) WT_FLASH_SECTOR_SIZE s r s' → r = WH_ERROR_OK →
  stm_holds (s' <| g_fwu_erased_sectors := g_fwu_erased_sectors s' .| (1 .<< n) |>) m ∧
  ∀ k, 0 ≤ k → marked (s' <| g_fwu_erased_sectors := g_fwu_erased_sectors s' .| (1 .<< n) |>) k = marked s k || (n =? k).
Proof.
  intros Hn Hun Hs [Hc Hr] Er. destruct (Hr Er) as (g & Hg & _ & He). injection Hg as <-.
  assert (within (base + n * WT_FLASH_SECTOR_SIZE) (base + n * WT_FLASH_SECTOR_SIZE + WT_FLASH_SECTOR_SIZE) s s') as Hw.
  { destruct Hc as [Hc|(g' & [= <-] & _ & _ & Hc)]; [by apply within_none|done]. }
  assert (∀ k, 0 ≤ k → marked (s' <| g_fwu_erased_sectors := g_fwu_erased_sectors s' .| (1 .<< n) |>) k =
    marked s k || (n =? k)) as Hmk.
  { intros k Hk. rewrite marked_lor by lia. by rewrite (marked_within _ _ _ _ _ Hw). }
  split; [|done]. intros x. specialize (Hs x). destruct (m x) as [v|].
  - destruct Hs as (Hx & Hv & Hm). assert (0 ≤ sector x) by (unfold sector, WT_FLASH_SECTOR_SIZE; apply Z.div_pos; lia).
    rewrite Hmk, Hm by done. split_and!; [lia|lia| |done].
    simpl. rewrite (wi_array _ _ _ _ Hw); [done|]. intros Hin. assert (sector x = n) as E by (apply sector_bounds; lia).
    rewrite E in Hm. congruence.
  - intros Hx Hm. assert (0 ≤ sector x) by (unfold sector, WT_FLASH_SECTOR_SIZE; apply Z.div_pos; lia).
    rewrite Hmk in Hm by done. destruct (decide (sector x = n)) as [E|E].
    + apply sector_bounds in E. apply He. fold base. lia.
    + rewrite (proj2 (Z.eqb_neq n (sector x))), orb_false_r in Hm by lia. simpl. rewrite (wi_array _ _ _ _ Hw); [by apply Hs|].
      intros Hin. apply E, sector_bounds. lia.
Qed.

Lemma sector_ok n : 0 ≤ n < 32 → u32 (n * WT_FLASH_SECTOR_SIZE) = n * WT_FLASH_SECTOR_SIZE.
Proof. intros Hn. apply u32_small. unfold WT_FLASH_SECTOR_SIZE. lia. Qed.

(** The sectors of a range: staged content is kept, and all are marked when it
    succeeds. Marks are never taken back. *)
Lemma ensure_erased_ok offset size m s :
  0 ≤ offset → 0 < size → offset + size ≤ WT_FWU_UPDATE_FLASH_SIZE → stm_holds s m →
  fwp (wt_fwu_ensure_erased offset size) (λ r s', r = 0 → stm_holds s' m ∧
    ∀ x, offset ≤ x < offset + size → marked s' (sector x) = true) s.
Proof.
  intros Ho Hs Hend Hm. apply fwp_fn. unfold wt_fwu_ensure_erased. cbv zeta.
  change (cf_sector_size g_fwu_flash_cfg) with WT_FLASH_SECTOR_SIZE.
  rewrite u32_small by (unfold WT_FWU_UPDATE_FLASH_SIZE in *; lia).
  set (first := offset / WT_FLASH_SECTOR_SIZE). set (last := (offset + size - 1) / WT_FLASH_SECTOR_SIZE).
  assert (0 ≤ first ≤ last ∧ last < 32) as Hfl.
  { unfold first, last, WT_FWU_UPDATE_FLASH_SIZE, WT_FLASH_SECTOR_SIZE in *. Z.div_mod_to_equations. lia. }
  apply wp_bind. apply (wp_for_each _ _ (λ l s', stm_holds s' m ∧ ∀ n, n ∈ l → marked s' n = true)).
  - split; [done|]. by intros n Hn%elem_of_nil.
  - intros l1 n l2 s1 Hl [Hs1 Hmk].
    assert (first ≤ n < 32) as Hn.
    { assert (n ∈ seqZ first (last - first + 1)) as Hin by (rewrite Hl; set_solver). apply elem_of_seqZ in Hin. lia. }
    apply wp_bind, wp_gets. unfold id. apply wp_if; intros E1.
    { apply andb_true_iff in E1 as [_ E1]. apply wp_ret. split; [done|]. intros k [Hk|Hk%list_elem_of_singleton]%elem_of_app;
        [auto|by subst]. }
    rewrite (proj2 (Z.ltb_lt n 32)) in E1 by lia. simpl in E1. rewrite sector_ok by lia.
    apply wp_bind, wp_call. eapply fwp_mono; [apply (erase_ok privileged); unfold WT_FLASH_SECTOR_SIZE; lia|].
    intros r s2 Hpost. apply wp_bind, wp_when; intros E2.
    { by apply wp_early. }
    apply negb_false_iff, Z.eqb_eq in E2. rewrite (proj2 (Z.ltb_lt n 32)) by lia.
    destruct (erase_marks s1 s2 m n r) as [Hh Hk]; [lia|done|done|done|done|].
    apply wp_modify. split; [done|]. intros k [Hin|Hin%list_elem_of_singleton]%elem_of_app.
    + assert (k ∈ seqZ first (last - first + 1)) as Hi%elem_of_seqZ by (rewrite Hl; set_solver).
      rewrite Hk by lia. by rewrite Hmk.
    + subst k. rewrite Hk by lia. by rewrite Z.eqb_refl, orb_true_r.
  - intros s1 [Hs1 Hmk]. apply wp_ret. intros _. split; [done|]. intros x Hx. apply Hmk, elem_of_seqZ.
    unfold sector, first, last, WT_FLASH_SECTOR_SIZE in *. Z.div_mod_to_equations. lia.
Qed.

(** Programming a block in marked sectors whose content then reads back. *)
Lemma program_stages s s' m off data r :
  0 ≤ off → off + Z.of_nat (length data) ≤ capacity → stm_holds s m →
  (∀ x, off ≤ x < off + Z.of_nat (length data) → marked s (sector x) = true) →
  confined CtxFwu off (Z.of_nat (length data)) s s' → reads_back s' off data = true → r = WH_ERROR_OK →
  stm_holds s' (store m off data).
Proof.
  intros Ho Hend Hs Hmk Hc Hrb _. unfold reads_back in Hrb. apply bool_decide_eq_true in Hrb. fold base in Hrb.
  assert (within (base + off) (base + off + Z.of_nat (length data)) s s') as Hw.
  { destruct Hc as [Hc|(g & [= <-] & _ & _ & Hc)]; [by apply within_none|done]. }
  intros x. unfold store. case_decide as Hx.
  - destruct (lookup_lt_is_Some_2 data (Z.to_nat (x - off))) as [v Hv]; [lia|]. rewrite Hv.
    rewrite (marked_within _ _ _ _ _ Hw). split_and!; [lia|lia| |by apply Hmk].
    rewrite <-Hrb in Hv. rewrite mem_read_at in Hv by lia. injection Hv as <-. f_equal. lia.
  - specialize (Hs x). rewrite (marked_within _ _ _ _ _ Hw). destruct (m x) as [v|].
    + rewrite (wi_array _ _ _ _ Hw) by lia. done.
    + intros H1 H2. rewrite (wi_array _ _ _ _ Hw) by lia. by apply Hs.
Qed.

(** ** The operations *)

Lemma begin_ok s : fwp wt_fwu_backend_begin (λ r s', r = 0 → stm_holds s' blank) s.
Proof.
  apply fwp_fn, wp_bind, wp_call, fwp_fn. simpl. apply wp_bind, wp_modify, wp_ret. rewrite Z.eqb_refl. simpl.
  intros _ x. simpl. intros _ Hm. by unfold marked, has_any in Hm; simpl in Hm.
Qed.

Lemma write_ok off data m s : 0 ≤ off → 0 < Z.of_nat (length data) → stm_holds s m →
  fwp (wt_fwu_backend_write off data) (λ r s', r = 0 → stm_holds s' (store m off data)) s.
Proof.
  intros Ho Hlen Hm. apply fwp_fn. unfold wt_fwu_backend_write. cbv zeta.
  change (cf_size g_fwu_flash_cfg - cf_sector_size g_fwu_flash_cfg) with capacity.
  apply wp_if; intros E1; [by apply wp_ret|]. bool_hyps.
  apply wp_bind, wp_call. eapply fwp_mono; [apply (ensure_erased_ok off (Z.of_nat (length data)) m)|]; try done; try lia.
  { unfold capacity, WT_FLASH_SECTOR_SIZE in *. lia. }
  intros r s1 Hr1. apply wp_if; intros E2; [by apply wp_ret|]. apply negb_false_iff, Z.eqb_eq in E2.
  destruct (Hr1 E2) as [Hs1 Hmk]. apply wp_bind, wp_call. eapply fwp_mono; [by apply (hsm_program_ok privileged)|].
  intros r2 s2 [Hc _]. apply wp_if; intros E3; [by apply wp_ret|]. apply negb_false_iff, Z.eqb_eq in E3.
  apply wp_bind, wp_gets. apply wp_if; intros E4; [by apply wp_ret|]. apply negb_false_iff in E4.
  apply wp_ret. intros _. eapply program_stages; try done. lia.
Qed.

Definition trailer : Z := WT_FWU_UPDATE_FLASH_SIZE - WT_FLASH_SECTOR_SIZE.
Lemma backend_disarm_ok m s : stm_holds s m →
  fwp wt_fwu_backend_disarm (λ r s', r = 0 → stm_holds s' m ∧ stm_triggered s' = false) s.
Proof.
  intros Hm. apply fwp_fn. unfold wt_fwu_backend_disarm. cbv zeta. apply wp_bind, wp_call.
  eapply fwp_mono; [by apply (erase_ok privileged)|]. intros r s1 [Hc Hr].
  apply wp_if; intros E; [by apply wp_ret|]. apply negb_false_iff, Z.eqb_eq in E. apply wp_ret. intros _.
  destruct (Hr E) as (g & [= <-] & _ & He). split.
  - eapply (stm_holds_outside s s1 m trailer); [done| |done].
    destruct Hc as [Hc|(g & [= <-] & _ & _ & Hc)]; [by apply within_none|].
    eapply within_mono; [| |exact Hc]; by vm_compute.
  - unfold stm_triggered. rewrite He; [done|]. by vm_compute.
Qed.

Definition trailer_block : list Z := default [] (wt_fwu_wolfboot_arm_trailer (zeros 16)).
Lemma trailer_triggers s : reads_back s (WT_FWU_UPDATE_FLASH_SIZE - 16) trailer_block = true → stm_triggered s = true.
Proof.
  unfold reads_back. intros Hrb%bool_decide_eq_true. unfold stm_triggered.
  assert (∀ i v, trailer_block !! i = Some v → fl_array s (base + (WT_FWU_UPDATE_FLASH_SIZE - 16) + Z.of_nat i) = v) as Hb.
  { intros i v Hi. pose proof (lookup_lt_Some _ _ _ Hi) as Hlt. rewrite <-Hrb in Hi.
    rewrite mem_read_at in Hi by (by rewrite Nat2Z.id). by injection Hi. }
  apply andb_true_iff. split; apply Z.eqb_eq.
  - exact (Hb 11%nat _ eq_refl).
  - unfold mem_read. change (Z.to_nat 4) with 4%nat. cbn [seq fmap list_fmap of_le].
    assert (∀ k v, trailer_block !! (12 + k)%nat = Some v →
      fl_array s (base + WT_FWU_UPDATE_FLASH_SIZE - 4 + Z.of_nat k) = v) as Hk.
    { intros k v Hv. rewrite <-(Hb _ v Hv). f_equal. lia. }
    by rewrite (Hk 0%nat _ eq_refl), (Hk 1%nat _ eq_refl), (Hk 2%nat _ eq_refl), (Hk 3%nat _ eq_refl).
Qed.

Lemma arm_ok size version m s : stm_holds s m →
  fwp (wt_fwu_backend_arm size version) (λ r s', r = 0 → stm_holds s' m ∧ stm_triggered s' = true) s.
Proof.
  intros Hm. apply fwp_fn. unfold wt_fwu_backend_arm. cbv zeta.
  change (wt_fwu_wolfboot_arm_trailer (zeros 16)) with (Some trailer_block). cbv beta iota.
  change (cf_size g_fwu_flash_cfg - cf_program_unit g_fwu_flash_cfg) with (WT_FWU_UPDATE_FLASH_SIZE - 16).
  change (Z.of_nat (length trailer_block)) with 16.
  apply wp_bind, wp_call. eapply fwp_mono; [by apply (ensure_erased_ok _ 16 m)|]. intros r s1 Hr1.
  apply wp_if; intros E1; [by apply wp_ret|]. apply negb_false_iff, Z.eqb_eq in E1. destruct (Hr1 E1) as [Hs1 _].
  apply wp_bind, wp_call. eapply fwp_mono; [by apply (hsm_program_ok privileged)|]. intros r2 s2 [Hc _].
  apply wp_bind, wp_gets. unfold id. apply wp_if; intros E2.
  { apply wp_bind, wp_call. unfold fwp.
    assert (∃ s3 r3, wt_fwu_backend_disarm s2 = Some (s3, r3)) as (s3 & r3 & ->); [|by apply wp_ret].
    assert (fwp wt_fwu_backend_disarm (λ _ _, True) s2) as Hd.
    { apply fwp_fn. unfold wt_fwu_backend_disarm. cbv zeta. apply wp_bind, wp_call.
      eapply fwp_mono; [by apply (erase_ok privileged)|]. intros r3 s3 _. by apply wp_if; intros _; apply wp_ret. }
    apply fwp_run in Hd as (s3 & r3 & E & _). eauto. }
  apply orb_false_iff in E2 as [_ E2]. apply negb_false_iff in E2. apply wp_ret. intros _. split; [|by apply trailer_triggers].
  eapply (stm_holds_outside s1 s2 m trailer); [done| |done].
  destruct Hc as [Hc|(g & [= <-] & _ & _ & Hc)]; [by apply within_none|].
  eapply within_mono; [| |exact Hc]; by vm_compute.
Qed.

(** ** The instance *)

Lemma total_ok {A} (f : func flash A) a s s' r (Q : A → flash → Prop) :
  fwp f Q s → total f a s = (s', r) → Q r s'.
Proof. intros Hf. unfold total. apply fwp_run in Hf as (s1 & a1 & -> & HQ). by intros [= <- <-]. Qed.

#[export] Instance stm32_staging : StagingFlash wt_fwu_flash_backend.
Proof.
  refine {| holds := stm_holds; triggered := stm_triggered |}.
  - intros w m m' Hm. split; by apply stm_holds_ext.
  - intros f w w' m [= <-] _ E. by apply (total_ok _ _ _ _ _ _ (begin_ok w) E).
  - intros f off data w w' m [= <-] (Hpos & Hoff & _) Hm E.
    by apply (total_ok _ _ _ _ _ _ (write_ok off data m w Hoff Hpos Hm) E).
  - intros f size w w' ret ver m [= <-] Hm. by intros [= <-].
  - intros f size ver w w' m [= <-] Hm E. by apply (total_ok _ _ _ _ _ _ (arm_ok size ver m w Hm) E).
  - intros f w w' m [= <-] Hm E. by apply (total_ok _ _ _ _ _ _ (backend_disarm_ok m w Hm) E).
  - split; by eexists.
Defined.

(** C20: on this port, an update that a client carried to its end (started,
    written block by block, finished and installed without an error) has left
    exactly the bytes of its blocks in the update partition, later blocks over
    earlier ones, although the sectors are erased lazily; the boot loader finds
    its trigger in the trailer, and the service is in the staged state. *)
Theorem stm32_update_installed (transport : transport_fn flash) floor component version blocks s v m :
  agrees wt_fwu_flash_backend transport floor (fs_ctx s) v → stm_holds (fs_world s) m →
  Forall (λ '(offset, data), 0 ≤ offset < 2 ^ 32 ∧ Z.of_nat (length data) < 2 ^ 32) blocks →
  fwp (update component version blocks) (λ done s', done = true →
    (∀ x y, image wt_fwu_flash_backend blocks x = Some y → fl_array (fs_world s') (base + x) = y) ∧
    stm_triggered (fs_world s') = true ∧ fc_state (fs_ctx s') = PSA_FWU_STAGED) s.
Proof.
  intros Ha Hm Hbl. eapply fwp_mono; [by eapply (update_complete wt_fwu_flash_backend transport floor)|].
  intros done s' Hd E. destruct (Hd E) as (Hh & Ht & Hst). split_and!; [|done|done]. intros x y Hx.
  specialize (Hh x). rewrite Hx in Hh. apply Hh.
Qed.
End stm32.

(** * The image header check accepts well-formed headers

    The parser of the boot loader's image header in the staging backend always
    ends within its bound, and finds in a header built from records the version
    of the last version record. *)

(** ** The bound *)

Lemma shift_byte x y : is_byte x → x .| (y .<< 8) = x + 256 * y.
Proof. unfold is_byte. intros Hx. rewrite Z.lor_comm, lor_shiftl_add by lia. lia. Qed.

Lemma header_loop_more fuel k hdr offset version :
  (∀ x, is_byte (hdr x)) → WT_FWU_IMAGE_HEADER_SIZE - offset ≤ Z.of_nat fuel → (0 < fuel)%nat →
  header_loop (fuel + k) hdr offset version = header_loop fuel hdr offset version.
Proof.
  intros Hb. revert offset version. induction fuel as [|fuel IH]; intros offset version Hf Hpos; [lia|]. simpl.
  destruct (Z.leb_spec (offset + 4) WT_FWU_IMAGE_HEADER_SIZE) as [Hle|]; [|done]. simpl.
  assert (0 < fuel)%nat by lia.
  destruct (hdr offset =? 0xFF); [apply IH; lia|]. destruct (_ =? 0); [done|].
  assert (0 ≤ hdr (offset + 2) .| (hdr (offset + 3) .<< 8)) as Hl.
  { apply Z.lor_nonneg. split; [apply Hb|]. apply Z.shiftl_nonneg, Hb. }
  destruct (_ <? _); [done|]. apply IH; lia.
Qed.

(** ** Headers *)

(** A record: its tag and its value. *)
Definition record_bytes (r : Z * list Z) : list Z := to_le 2 r.1 ++ to_le 2 (Z.of_nat (length r.2)) ++ r.2.
(** A tag is not zero, and its first byte is not the filler. *)
Definition record_ok (r : Z * list Z) : Prop :=
  0 < r.1 < 2 ^ 16 ∧ r.1 mod 256 ≠ 0xFF ∧ Z.of_nat (length r.2) < 2 ^ 16 ∧ Forall is_byte r.2.
Definition header_bytes (fw_size : Z) (l : list (Z * list Z)) : list Z :=
  to_le 4 WT_FWU_IMAGE_MAGIC ++ to_le 4 fw_size ++ concat (record_bytes <$> l).
(** The flash at a header: the rest is erased. *)
Definition header_at (fw_size : Z) (l : list (Z * list Z)) : Z → Z := λ x,
  default 0xFF (header_bytes fw_size l !! Z.to_nat x).
(** The version a header carries: that of its last version record. *)
Definition version_of (r : Z * list Z) (before : option Z) : option Z :=
  if (r.1 =? WT_FWU_HDR_TAG_VERSION) && (length r.2 =? 4)%nat then Some (of_le r.2) else before.
Definition last_version (l : list (Z * list Z)) : option Z := foldl (λ v r, version_of r v) None l.

Lemma filler_loop fuel hdr offset version :
  (∀ x, offset ≤ x → hdr x = 0xFF) → WT_FWU_IMAGE_HEADER_SIZE - offset ≤ Z.of_nat fuel → (0 < fuel)%nat →
  header_loop fuel hdr offset version = Some version.
Proof.
  revert offset. induction fuel as [|fuel IH]; intros offset Hh Hf Hpos; [lia|]. simpl.
  destruct (Z.leb_spec (offset + 4) WT_FWU_IMAGE_HEADER_SIZE); [|done]. simpl. rewrite Hh by lia. simpl.
  apply IH; [intros x Hx; apply Hh; lia|lia|lia].
Qed.

(** [hdr] holds [bytes] from [offset] on. *)
Definition bytes_at (hdr : Z → Z) (offset : Z) (bytes : list Z) : Prop :=
  ∀ i v, bytes !! i = Some v → hdr (offset + Z.of_nat i) = v.
Lemma bytes_at_app hdr offset l1 l2 :
  bytes_at hdr offset (l1 ++ l2) → bytes_at hdr offset l1 ∧ bytes_at hdr (offset + Z.of_nat (length l1)) l2.
Proof.
  intros Hb. split; intros i v Hi.
  - apply Hb. by apply lookup_app_l_Some.
  - rewrite <-Z.add_assoc, <-Nat2Z.inj_add. apply Hb. rewrite lookup_app_r by lia. by rewrite Nat.add_comm, Nat.add_sub.
Qed.
Lemma bytes_at_read hdr offset bytes : bytes_at hdr offset bytes → mem_read hdr offset (Z.of_nat (length bytes)) = bytes.
Proof.
  intros Hb. apply list_eq. intros i. destruct (decide (i < length bytes)%nat) as [Hi|Hi].
  - rewrite mem_read_at by (by rewrite Nat2Z.id). destruct (lookup_lt_is_Some_2 bytes i Hi) as [v Hv]. rewrite Hv. f_equal. by apply Hb.
  - rewrite (proj2 (lookup_ge_None bytes i)) by lia. apply lookup_ge_None. unfold mem_read. rewrite length_fmap, length_seq. lia.
Qed.
(** A two-byte field. *)
Lemma bytes_at_half hdr offset v : 0 ≤ v < 2 ^ 16 → bytes_at hdr offset (to_le 2 v) →
  hdr offset = v mod 256 ∧ hdr offset .| (hdr (offset + 1) .<< 8) = v.
Proof.
  intros Hv Hb. pose proof (Hb 0%nat (v mod 256) eq_refl) as H0. pose proof (Hb 1%nat ((v / 256) mod 256) eq_refl) as H1.
  rewrite Z.add_0_r in H0. change (Z.of_nat 1) with 1 in H1. rewrite H0, H1. split; [done|].
  rewrite shift_byte by (apply Z.mod_pos_bound; lia). rewrite (Z.mod_small (v / 256)); [pose proof (Z.div_mod v 256); lia|].
  split; [apply Z.div_pos; lia|apply Z.div_lt_upper_bound; lia].
Qed.

Lemma length_record r : length (record_bytes r) = (4 + length r.2)%nat.
Proof. unfold record_bytes. rewrite !length_app, !length_to_le. lia. Qed.

Lemma records_loop l fuel hdr offset version :
  Forall record_ok l → bytes_at hdr offset (concat (record_bytes <$> l)) →
  offset + Z.of_nat (length (concat (record_bytes <$> l))) ≤ WT_FWU_IMAGE_HEADER_SIZE →
  (∀ x, offset + Z.of_nat (length (concat (record_bytes <$> l))) ≤ x → hdr x = 0xFF) →
  WT_FWU_IMAGE_HEADER_SIZE - offset ≤ Z.of_nat fuel → (0 < fuel)%nat →
  header_loop fuel hdr offset version = Some (foldl (λ v r, version_of r v) version l).
Proof.
  intros Hl. revert fuel offset version. induction Hl as [|r l (Ht & Hff & Hlen & Hby) Hl IH]; intros fuel offset version Hb Hfit Hfill Hf Hpos.
  { apply filler_loop; [intros x Hx; apply Hfill; simpl; lia|done|done]. }
  cbn [fmap list_fmap concat] in Hb, Hfit, Hfill. rewrite length_app, length_record in Hfit, Hfill.
  apply bytes_at_app in Hb as [Hb Hrest]. rewrite length_record in Hrest. unfold record_bytes in Hb.
  apply bytes_at_app in Hb as [Htag Hb]. apply bytes_at_app in Hb as [Hln Hval]. rewrite !length_to_le in *.
  destruct fuel as [|fuel]; [lia|]. simpl.
  rewrite (proj2 (Z.leb_le _ _)) by lia. simpl.
  destruct (bytes_at_half hdr offset r.1) as [E0 E1]; [lia|done|]. rewrite E0 at 1.
  rewrite (proj2 (Z.eqb_neq _ _) Hff), E1, (proj2 (Z.eqb_neq r.1 0)) by lia.
  destruct (bytes_at_half hdr (offset + Z.of_nat 2) (Z.of_nat (length r.2))) as [_ E2]; [lia|done|].
  change (Z.of_nat 2) with 2 in E2. replace (offset + 2 + 1) with (offset + 3) in E2 by lia. rewrite E2.
  rewrite (proj2 (Z.ltb_ge _ _)) by lia. simpl foldl. rewrite IH; try done.
  - f_equal. f_equal. unfold version_of. replace (Z.of_nat (length r.2) =? 4) with (length r.2 =? 4)%nat by
      (destruct (Nat.eqb_spec (length r.2) 4), (Z.eqb_spec (Z.of_nat (length r.2)) 4); lia || done).
    destruct (r.1 =? WT_FWU_HDR_TAG_VERSION); [|done]. destruct (Nat.eqb_spec (length r.2) 4) as [E4|]; [|done]. simpl.
    f_equal.
    pose proof (bytes_at_read _ _ _ Hval) as Ev. rewrite E4 in Ev. do 2 f_equal.
    rewrite <-Ev. by replace (offset + Z.of_nat 2 + Z.of_nat 2) with (offset + 4) by lia.
  - by replace (offset + 4 + Z.of_nat (length r.2)) with (offset + Z.of_nat (4 + length r.2)) by lia.
  - lia.
  - intros x Hx. apply Hfill. lia.
  - lia.
  - lia.
Qed.

(** the staged image check finds, in every well-formed header, the version
    of its last version record, provided the image is staged to its declared
    length; it never reads a version out of a header whose payload is not
    fully staged. *)
Theorem header_check_finds_version fw_size l staged :
  Forall record_ok l → 0 ≤ fw_size < 2 ^ 32 →
  Z.of_nat (length (header_bytes fw_size l)) ≤ WT_FWU_IMAGE_HEADER_SIZE → WT_FWU_IMAGE_HEADER_SIZE ≤ staged →
  header_version (header_at fw_size l) staged =
    if decide (fw_size ≤ staged - WT_FWU_IMAGE_HEADER_SIZE) then last_version l else None.
Proof.
  intros Hl Hfw Hfit Hst. unfold header_version. rewrite (proj2 (Z.ltb_ge _ _)) by lia.
  assert (bytes_at (header_at fw_size l) 0 (header_bytes fw_size l)) as Hb.
  { intros i v Hi. unfold header_at. by rewrite Z.add_0_l, Nat2Z.id, Hi. }
  unfold header_bytes in Hb, Hfit. apply bytes_at_app in Hb as [Hm Hb]. apply bytes_at_app in Hb as [Hs Hr].
  rewrite !length_app, !length_to_le in Hfit. rewrite !length_to_le in *.
  apply bytes_at_read in Hm, Hs. rewrite !length_to_le in Hm, Hs.
  change (0 + Z.of_nat 4) with 4 in Hs, Hr. change (4 + Z.of_nat 4) with 8 in Hr. change (Z.of_nat 4) with 4 in Hm, Hs.
  rewrite Hm, Hs. change (of_le (to_le 4 WT_FWU_IMAGE_MAGIC) =? WT_FWU_IMAGE_MAGIC) with true. simpl negb. cbv iota.
  rewrite (of_to_le 4 fw_size) by done. case_decide as Hfs.
  - rewrite (proj2 (Z.ltb_ge _ _)) by lia. rewrite (records_loop l); [done|done|done|lia| |vm_compute; discriminate|vm_compute; lia].
    intros x Hx. unfold header_at. rewrite (proj2 (lookup_ge_None _ _)); [done|]. unfold header_bytes.
    rewrite !length_app, !length_to_le. lia.
  - by rewrite (proj2 (Z.ltb_lt _ _)) by lia.
Qed.

(** A header with a filler byte, a timestamp record and a version. *)
Lemma header_check_finds_version_witness :
  header_version (header_at 0x2000 [(0x0002, [1; 2; 3; 4; 5; 6; 7; 8]); (0x0001, [7; 0; 0; 0])]) 0x2400 = Some 7.
Proof.
  rewrite header_check_finds_version; [reflexivity|..].
  - apply Forall_cons_2; [|apply Forall_cons_2; [|apply Forall_nil_2]]; (split; [simpl; lia|]); (split; [by vm_compute|]);
      (split; [simpl; lia|]); simpl; repeat (apply Forall_cons_2; [unfold is_byte; lia|]); apply Forall_nil_2.
  - lia.
  - vm_compute. discriminate.
  - vm_compute. discriminate.
Defined.
