(* ===== verification/FwuExample.v ===== *)
(** * Concrete updates

    A flash controller that never fails, on which an image is updated from a
    blank update partition, and an update service that talks to a gate with a
    script of requests. *)

From Stdlib Require Import ZArith Lia.
From stdpp Require Import base list numbers option sets.
From S2P Require Import Prelude Buffers CState Service FfmTypes Fwu FwuProps FwuStage FlashStm32 FlashProps FwuStm32Props.

Module FwuExample.

(** ** The controller *)

Definition fill (array : Z → Z) (lo n v : Z) : Z → Z := λ x, if (lo <=? x) && (x <? lo + n) then v else array x.
Definition wh_codes : WhErrors := {|
  WH_ERROR_OK := 0; WH_ERROR_BADARGS := -2000; WH_ERROR_ABORTED := -2002; WH_ERROR_LOCKED := -2010;
  WH_ERROR_NOTVERIFIED := -2013; WH_ERROR_NOTBLANK := -2014;
|}.
Lemma wh_codes_ok : @WhErrorsOk wh_codes.
Proof. constructor. simpl. lia. Qed.
#[export] Instance good_flash : FlashHw := {|
  flash_errors := wh_codes;
  controller_unlock := id; controller_lock := id;
  controller_program := λ addr word hw array, (hw, mem_write array addr (take 16 word), 0);
  controller_erase := λ cr hw array,
    (hw, fill array (WT_FLASH_S_ALIAS_BASE + (if Z.testbit cr 31 then 0x100000 else 0) +
                     ((cr .>> WT_FLASH_CR_PNB_SHIFT) .& WT_FLASH_CR_PNB_MASK) * WT_FLASH_SECTOR_SIZE)
           WT_FLASH_SECTOR_SIZE 0xFF, 0);
  controller_ecc := λ _ _ hw, (hw, false);
  swap_bank := λ _, false;
  wt_arch_thread_unprivileged := false;
  spm_sp_call := λ _ _ _ _ s, (s, (0, 0, []));
|}.
#[export] Instance good_flash_ok : FlashHwOk.
Proof.
  constructor; simpl.
  - apply wh_codes_ok.
  - intros s. exists (fl_cr s), (fl_hw s). by destruct s.
  - intros s. exists (fl_cr s), (fl_hw s). by destruct s.
  - intros addr word hw array x Hx. unfold mem_write. rewrite length_take.
    destruct (Z.leb_spec addr x), (Z.ltb_spec x (addr + Z.of_nat (16 `min` length word))); simpl; try done. lia.
  - intros addr word hw array i v _ Hl _ Hv. unfold mem_write. pose proof (lookup_lt_Some _ _ _ Hv) as Hi.
    rewrite (take_ge word 16) by lia. rewrite (proj2 (Z.leb_le _ _)), (proj2 (Z.ltb_lt _ _)) by lia. simpl.
    replace (addr + Z.of_nat i - addr) with (Z.of_nat i) by lia. by rewrite Nat2Z.id, Hv.
  - intros cr hw array x _. unfold selected, fill. simpl. rewrite xorb_false_r. intros Hx.
    match goal with |- context [?l <=? x] => destruct (Z.leb_spec l x), (Z.ltb_spec x (l + WT_FLASH_SECTOR_SIZE)) end; simpl; try done.
    lia.
  - intros cr hw array x _ _. unfold selected, fill. simpl. rewrite xorb_false_r. intros Hx.
    by rewrite (proj2 (Z.leb_le _ _)), (proj2 (Z.ltb_lt _ _)) by lia.
Qed.

Definition no_ctx : wt_hsm_flash_context :=
  {| fx_base := 0; fx_size := 0; fx_sector_size := 0; fx_program_unit := 0; fx_write_locked := false |}.
Definition flash0 : flash :=
  {| fl_array := λ _, 0; fl_cr := 1; fl_hw := 0; fl_hsm_ctx := no_ctx; fl_fwu_ctx := no_ctx; g_fwu_erased_sectors := 0;
     g_wt_flash_prog_calls := 0; g_wt_flash_erase_calls := 0; g_wt_flash_first_err := (0, 0, 0);
     g_wt_flash_gate_aborts := (0, 0) |}.

(** A forged context changes nothing; the key store's range is confined. *)
Lemma flash_primitives_confined_witness :
  (∃ s' r, prim_run CtxHsm (PrErase 0x2000 0x2000) flash0 = Some (s', r) ∧ confined CtxHsm 0x2000 0x2000 flash0 s' ∧
    (r = WH_ERROR_OK → ∀ g, wt_flash_geometry CtxHsm = Some g → succeeded (cf_base g) (PrErase 0x2000 0x2000) flash0 s')) ∧
  snd <$> prim_run CtxHsm (PrErase 0x2000 0x2000) flash0 = Some 0 ∧
  snd <$> prim_run (CtxOther 7) (PrErase 0x2000 0x2000) flash0 = Some (-2000).
Proof.
  split; [|split; vm_compute; reflexivity].
  apply (flash_primitives_confined (H := good_flash) eq_refl CtxHsm (PrErase 0x2000 0x2000) flash0). simpl. lia.
Defined.

(** ** An image *)

Definition image_header : list Z :=
  let bytes := header_bytes 0 [(0x0001, [7; 0; 0; 0])] in bytes ++ replicate (1024 - length bytes) 0xFF.
Definition flash_service {W} (b : wt_fwu_backend W) (t : transport_fn W) (w : W) : fwu_sys W :=
  {| fs_ctx := {| fc_transport := Some t; fc_backend := Some b; fc_version_floor := 3; fc_state := PSA_FWU_READY;
                  fc_write_high := 0; fc_candidate_version := 0; fc_armed := 0; fc_error := 0; fc_active_version := 3;
                  fc_owner := 0; fc_owner_tick := 0 |};
     fs_world := w |}.
Definition nothing : update_view := {| uv_verified := None; uv_armed := None |}.
Lemma service_agrees {W} (b : wt_fwu_backend W) t w : 0 ≤ fb_capacity b → agrees b t 3 (fs_ctx (flash_service b t w)) nothing.
Proof. intros Hc. constructor; simpl; try done; by left. Qed.

Definition silent : svc_result :=
  {| sr_return := 0; sr_int := 0; sr_status := 0; sr_tick := 0; sr_handle := 0; sr_version := 3; sr_asserted := 0;
     sr_msg := {| pm_type := 0; pm_handle := 0; pm_client_id := 0; pm_rhandle := 0; pm_in_size := []; pm_out_size := [] |};
     sr_data := []; sr_out := [] |}.
Definition blocks : list (Z * list Z) := [(0, take 512 image_header); (512, drop 512 image_header); (1024, [1; 2; 3])].
Definition port_service : fwu_sys flash := flash_service wt_fwu_flash_backend (λ _ w, (w, silent)) flash0.

Lemma stm32_update_installed_witness :
  fwp (update 0 7 blocks) (λ done s', done = true →
    (∀ x y, image wt_fwu_flash_backend blocks x = Some y → fl_array (fs_world s') (base + x) = y) ∧
    stm_triggered (fs_world s') = true ∧ fc_state (fs_ctx s') = PSA_FWU_STAGED) port_service ∧
  snd <$> update 0 7 blocks port_service = Some true.
Proof.
  split; [|vm_compute; reflexivity].
  apply (stm32_update_installed (H := good_flash) eq_refl (λ _ w, (w, silent)) 3 0 7 blocks port_service nothing FwuStage.blank).
  - apply service_agrees. by vm_compute.
  - intros x. simpl. intros _ Hm. by unfold marked, has_any in Hm; simpl in Hm.
  - unfold blocks. repeat apply Forall_cons_2; [..|apply Forall_nil_2]; split; lia || (vm_compute; reflexivity).
Defined.

(** ** A conversation *)

(** The requests to come (client, type, bytes) and the unread bytes of the one in
    progress. *)
Record script := { to_come : list (Z * Z * list Z); unread : list Z }.
Definition say (rq : svc_request) (w : script) : script * svc_result :=
  match rq_op rq with
  | SvcWait _ =>
    (w, {| sr_return := 0; sr_int := 0; sr_status := 0; sr_tick := 9; sr_handle := 0; sr_version := 3;
           sr_asserted := match to_come w with [] => 0 | _ => 0x30 end; sr_msg := sr_msg silent; sr_data := []; sr_out := [] |})
  | SvcGet _ =>
    match to_come w with
    | [] => (w, silent)
    | (client, type, bytes) :: l =>
      ({| to_come := l; unread := bytes |},
       {| sr_return := 0; sr_int := 0; sr_status := 0; sr_tick := 9; sr_handle := 0; sr_version := 3; sr_asserted := 0;
          sr_msg := {| pm_type := type; pm_handle := 33; pm_client_id := client; pm_rhandle := 0;
                       pm_in_size := [Z.of_nat (length bytes); 0; 0; 0]; pm_out_size := [32; 0; 0; 0] |};
          sr_data := []; sr_out := [] |})
    end
  | SvcRead _ _ n =>
    ({| to_come := to_come w; unread := drop (Z.to_nat n) (unread w) |},
     {| sr_return := 0; sr_int := 0; sr_status := 0; sr_tick := 9; sr_handle := 0; sr_version := 3; sr_asserted := 0;
        sr_msg := sr_msg silent; sr_data := (λ x, x mod 256) <$> take (Z.to_nat n) (unread w); sr_out := [] |})
  | _ => (w, silent)
  end.
#[export] Instance say_ok : TransportOk say.
Proof.
  intros pid h idx n w Hn. simpl. rewrite length_fmap, length_take. split; [lia|].
  apply Forall_fmap, Forall_true. intros x. by apply Z.mod_pos_bound.
Qed.

Definition request (version offset : Z) (data : list Z) : list Z :=
  to_le 4 0 ++ to_le 4 offset ++ to_le 4 (Z.of_nat (length data)) ++ to_le 4 version ++ data.
Definition conversation : script :=
  {| to_come := [(1, WT_FWU_OP_START, request 7 0 []); (1, WT_FWU_OP_WRITE, request 0 0 [1; 2; 3]);
                 (2, WT_FWU_OP_INSTALL, request 0 0 []); (1, WT_FWU_OP_FINISH, request 0 0 [])];
     unread := [] |}.
Definition served : fwu_sys script := wt_spm_fwu_entry say 0x3E000 16 conversation.
Lemma served_agrees : agrees (gate_backend say 0x3E000 16) say 3 (fs_ctx served) nothing.
Proof. constructor; simpl; try done; by left. Qed.

(** After the four requests the image waits with the header's version, which the
    gate gave as 3: it contradicts the declared 7. *)
Lemma fwu_follows_protocol_witness :
  (∃ s', serve_rounds 4 5 served = Some (s', tt) ∧
     follows (gate_backend say 0x3E000 16) say 3 nothing (fs_world served) s' ∧ owned (fs_ctx s')) ∧
  (λ r, (fc_state (fs_ctx (fst r)), fc_error (fs_ctx (fst r)), fc_write_high (fs_ctx (fst r)))) <$> serve_rounds 4 5 served =
    Some (PSA_FWU_FAILED, PSA_ERROR_NOT_PERMITTED, 3).
Proof.
  split; [|vm_compute; reflexivity].
  apply (fwu_follows_protocol (gate_backend say 0x3E000 16) say 3).
  - simpl; lia.
  - exact say_ok.
  - exact served_agrees.
  - intros _; reflexivity.
Defined.

(** The first client opened an update at tick 2^32 - 5; the second asks to
    install it ten ticks later. *)
Definition opened : fwu_sys script :=
  {| fs_ctx := fs_ctx served <| fc_state := PSA_FWU_WRITING |> <| fc_owner := 1 |> <| fc_owner_tick := 0xFFFFFFFB |>;
     fs_world := {| to_come := []; unread := request 0 0 [] |} |}.
Lemma opened_agrees : agrees (gate_backend say 0x3E000 16) say 3 (fs_ctx opened) nothing.
Proof. constructor; simpl; try done. right; by left. Qed.
Definition intruder : psa_msg :=
  {| pm_type := WT_FWU_OP_INSTALL; pm_handle := 33; pm_client_id := 2; pm_rhandle := 0; pm_in_size := [16; 0; 0; 0];
     pm_out_size := [0; 0; 0; 0] |}.
Lemma fwu_owner_exclusive_witness :
  fwp (wt_fwu_service_call say 5 intruder (u32 (0xFFFFFFFB + 10))) (λ st s',
    fs_ctx s' = fs_ctx opened ∧ talks say (fs_world opened) (fs_world s') ∧ (pm_type intruder ≠ WT_FWU_OP_QUERY → st < 0)) opened.
Proof.
  apply (fwu_owner_exclusive (gate_backend say 0x3E000 16) say 3 opened nothing 5 intruder 0xFFFFFFFB (0xFFFFFFFB + 10)).
  - exact opened_agrees.
  - intros E; discriminate E.
  - simpl; lia.
  - simpl; lia.
  - vm_compute; reflexivity.
  - unfold WT_FWU_OWNER_IDLE_TIMEOUT_TICKS; lia.
Defined.
End FwuExample.
