(* ===== verification/XspiNor.v ===== *)
(** * NOR driver of the MIMXRT700 port: [port/mimxrt700/xspi_nor.c]

    Program and erase commands to the octal flash behind the XSPI0 controller.
    The driver sees the hardware through registers only, so its state is the
    history of its register accesses, the newest first, and the page buffer. The
    hardware is a parameter: what a read returns after a given history. Interrupt
    masking, barriers and the settle delay have no effect here. *)

From Stdlib Require Import ZArith Lia.
From stdpp Require Import base list numbers option sets.
From S2P Require Import Prelude Buffers CState.

(** ** Registers *)

Inductive xspi_reg :=
| WT_XSPI0_MCR | WT_XSPI0_RBSR | WT_XSPI0_RBCT | WT_XSPI0_TBDR | WT_XSPI0_TBCT | WT_XSPI0_SR | WT_XSPI0_FR
| WT_XSPI0_SPTRCLR | WT_XSPI0_RBDR0 | WT_XSPI0_LUTKEY | WT_XSPI0_LCKCR | WT_XSPI0_LUT (index : Z) | WT_XSPI0_TG0MDAD
| WT_XSPI0_TGSFARS | WT_XSPI0_TGIPCRS | WT_XSPI0_MGC | WT_XSPI0_FSMSTAT | WT_XSPI0_ERRSTAT | WT_XSPI0_SFP_TG_IPCR
| WT_XSPI0_SFP_TG_SFAR | WT_CACHE64_CTRL0_CCR.
#[export] Instance xspi_reg_eq_dec : EqDecision xspi_reg.
Proof. solve_decision. Defined.

Definition WT_XSPI_MCR_SWRSTSD : Z := 0x1.
Definition WT_XSPI_MCR_SWRSTHD : Z := 0x2.
Definition WT_XSPI_MCR_IPS_TG_RST : Z := 0x200.
Definition WT_XSPI_MCR_CLR_RXF : Z := 0x400.
Definition WT_XSPI_MCR_CLR_TXF : Z := 0x800.
Definition WT_XSPI_MCR_MDIS : Z := 0x4000.
Definition WT_XSPI_SR_BUSY : Z := 0x1.
Definition WT_XSPI_SR_IP_ACC : Z := 0x2.
Definition WT_XSPI_SR_RXWE : Z := 0x10000.
Definition WT_XSPI_SR_TXFULL : Z := 0x8000000.
Definition WT_XSPI_FR_TBFF : Z := 0x8000000.
Definition WT_XSPI_SPTRCLR_ABRT_CLR : Z := 0x10000.
Definition WT_XSPI_TGSFARS_CLR : Z := 0x20000000.
Definition WT_XSPI_TGSFARS_ERR : Z := 0x40000000.
Definition WT_XSPI_TGSFARS_VLD : Z := 0x80000000.
Definition WT_XSPI_TGIPCRS_CLR : Z := 0x10000000.
Definition WT_XSPI_MGC_GVLDMDAD : Z := 0x20000000.
Definition WT_XSPI_TG0MDAD_VLD : Z := 0x80000000.
Definition WT_XSPI_FSMSTAT_STATE : Z := 0x3.
Definition WT_XSPI_FSMSTAT_VLD : Z := 0x80000000.
Definition WT_XSPI_RBSR_RDBFL : Z := 0xFF.
Definition WT_XSPI_ERRSTAT_TG0SFAR : Z := 0x400.
Definition WT_XSPI_ERRSTAT_TG0IPCR : Z := 0x1000.
Definition WT_XSPI_ERRSTAT_TO_ERR : Z := 0x4000.
Definition WT_XSPI_ERRSTAT_ERRORS : Z := 0x7FFF.
Definition WT_XSPI_ERRSTAT_ARB_WIN : Z := 0x10000000.
Definition WT_XSPI_IPCR_SEQID (seq : Z) : Z := (seq .& 0xF) .<< 24.
Definition WT_XSPI_IPCR_IDATSZ (sz : Z) : Z := sz .& 0xFFFF.
Definition WT_XSPI_LUT_KEY : Z := 0x5AF05AF0.
Definition WT_XSPI_LCKCR_LOCK : Z := 0x1.
Definition WT_XSPI_LCKCR_UNLOCK : Z := 0x2.
Definition WT_CACHE64_CCR_INVW0 : Z := 0x1000000.
Definition WT_CACHE64_CCR_INVW1 : Z := 0x4000000.
Definition WT_CACHE64_CCR_GO : Z := 0x80000000.

Definition WT_XSPI_CMD_STOP : Z := 0x00.
Definition WT_XSPI_CMD_DUMMY_SDR : Z := 0x03.
Definition WT_XSPI_CMD_RADDR_DDR : Z := 0x0A.
Definition WT_XSPI_CMD_READ_DDR : Z := 0x0E.
Definition WT_XSPI_CMD_WRITE_DDR : Z := 0x0F.
Definition WT_XSPI_CMD_DDR : Z := 0x11.
Definition WT_XSPI_PAD_8 : Z := 0x03.
Definition WT_XSPI_LUT_SEQ (cmd0 pad0 op0 cmd1 pad1 op1 : Z) : Z :=
  (op0 .& 0xFF) .| ((pad0 .& 0x3) .<< 8) .| ((cmd0 .& 0x3F) .<< 10) .| ((op1 .& 0xFF) .<< 16) .| ((pad1 .& 0x3) .<< 24)
  .| ((cmd1 .& 0x3F) .<< 26).

(** ** Constants of the driver *)

Definition WT_XSPI_NOR_OK : Z := 0.
Definition WT_XSPI_NOR_TIMEOUT : Z := -1.
Definition WT_XSPI_NOR_BUS : Z := -2.
Definition WT_XSPI_NOR_DEVICE : Z := -3.
Definition WT_XSPI_NOR_ARGUMENT : Z := -4.
Definition WT_XSPI_NOR_SECTOR : Z := 0x1000.
Definition WT_XSPI_NOR_UNIT : Z := 16.
Definition WT_XSPI_POLL_LIMIT : nat := Z.to_nat 100000.
Definition WT_XSPI_BUSY_LIMIT : nat := Z.to_nat 1000000.
#[global] Opaque WT_XSPI_POLL_LIMIT WT_XSPI_BUSY_LIMIT.
Definition WT_XSPI_NOR_PAGE : Z := 256.
Definition WT_XSPI_TX_DEPTH_WORDS : Z := 256.
Definition WT_NOR_SEQ_RDSR : Z := 2.
Definition WT_NOR_SEQ_WREN : Z := 4.
Definition WT_NOR_SEQ_RDSCUR : Z := 6.
Definition WT_NOR_SEQ_PP : Z := 7.
Definition WT_NOR_SEQ_SE : Z := 8.
Definition WT_NOR_SEQ_WORDS : Z := 5.
Definition WT_NOR_SR_WIP : Z := 0x01.
Definition WT_NOR_SR_WEL : Z := 0x02.
Definition WT_NOR_SCUR_PFAIL : Z := 0x20.
Definition WT_NOR_SCUR_EFAIL : Z := 0x40.

Definition WT_FLASH_NS_BASE : Z := 0x28000000.
Definition WT_FLASH_S_ALIAS_BASE : Z := 0x38000000.
Definition WT_FLASH_SECTOR_SIZE : Z := 0x1000.
Definition WT_HSM_NVM_FLASH_BASE_NS : Z := 0x281E0000.
Definition WT_HSM_NVM_FLASH_BASE_S : Z := 0x381E0000.
Definition WT_HSM_NVM_FLASH_SIZE : Z := 0x2000.
Definition WT_CONF_NVM_FLASH_BASE_NS : Z := 0x281E8000.
Definition WT_CONF_NVM_FLASH_SIZE : Z := 0x1000.
Definition WT_FWU_UPDATE_FLASH_BASE_S : Z := 0x38180000.
Definition WT_FWU_UPDATE_FLASH_SIZE : Z := 0x40000.
Definition WT_XSPI_NOR_BASE : Z := WT_FLASH_NS_BASE.

Record wt_xspi_nor_window := { nw_base : Z; nw_size : Z }.
Definition g_wt_xspi_nor_writable : list wt_xspi_nor_window :=
  [ {| nw_base := WT_FWU_UPDATE_FLASH_BASE_S - WT_FLASH_S_ALIAS_BASE + WT_FLASH_NS_BASE; nw_size := WT_FWU_UPDATE_FLASH_SIZE |};
    {| nw_base := WT_HSM_NVM_FLASH_BASE_NS; nw_size := WT_HSM_NVM_FLASH_SIZE |};
    {| nw_base := WT_CONF_NVM_FLASH_BASE_NS; nw_size := WT_CONF_NVM_FLASH_SIZE |} ].

Record wt_xspi_lut_seq := { ls_seq : Z; ls_words : list Z }.
Definition WT_LUT (c0 o0 c1 o1 : Z) : Z := WT_XSPI_LUT_SEQ c0 WT_XSPI_PAD_8 o0 c1 WT_XSPI_PAD_8 o1.
Definition g_wt_xspi_lut : list wt_xspi_lut_seq :=
  [ {| ls_seq := WT_NOR_SEQ_RDSR; ls_words := [
         WT_LUT WT_XSPI_CMD_DDR 0x05 WT_XSPI_CMD_DDR 0xFA; WT_LUT WT_XSPI_CMD_RADDR_DDR 0x20 WT_XSPI_CMD_DUMMY_SDR 0x04;
         WT_LUT WT_XSPI_CMD_READ_DDR 0x08 WT_XSPI_CMD_STOP 0x00; 0; 0] |};
    {| ls_seq := WT_NOR_SEQ_WREN; ls_words := [WT_LUT WT_XSPI_CMD_DDR 0x06 WT_XSPI_CMD_DDR 0xF9; 0; 0; 0; 0] |};
    {| ls_seq := WT_NOR_SEQ_RDSCUR; ls_words := [
         WT_LUT WT_XSPI_CMD_DDR 0x2B WT_XSPI_CMD_DDR 0xD4; WT_LUT WT_XSPI_CMD_RADDR_DDR 0x20 WT_XSPI_CMD_DUMMY_SDR 0x04;
         WT_LUT WT_XSPI_CMD_READ_DDR 0x08 WT_XSPI_CMD_STOP 0x00; 0; 0] |};
    {| ls_seq := WT_NOR_SEQ_PP; ls_words := [
         WT_LUT WT_XSPI_CMD_DDR 0x12 WT_XSPI_CMD_DDR 0xED; WT_LUT WT_XSPI_CMD_RADDR_DDR 0x20 WT_XSPI_CMD_WRITE_DDR 0x08;
         0; 0; 0] |};
    {| ls_seq := WT_NOR_SEQ_SE; ls_words := [
         WT_LUT WT_XSPI_CMD_DDR 0x21 WT_XSPI_CMD_DDR 0xDE; WT_LUT WT_XSPI_CMD_RADDR_DDR 0x20 WT_XSPI_CMD_STOP 0x00;
         0; 0; 0] |} ].
(** The register index and the word of every entry, in the order of the loops. *)
Definition lut_entries : list (Z * Z) :=
  g_wt_xspi_lut ≫= λ s, imap (λ i w, (WT_NOR_SEQ_WORDS * ls_seq s + Z.of_nat i, w)) (ls_words s).

(** ** State *)

Inductive xspi_event := XRead (r : xspi_reg) (v : Z) | XWrite (r : xspi_reg) (v : Z).
Record xspi := { xs_history : list xspi_event; g_wt_xspi_page : list Z }.
#[export] Instance xspi_eta : Settable xspi := λ s, {| xs_history := xs_history s; g_wt_xspi_page := g_wt_xspi_page s |}.
#[export] Instance set_xs_history : Setter xs_history. Proof. derive_setter. Defined.
#[export] Instance set_xspi_page : Setter g_wt_xspi_page. Proof. derive_setter. Defined.

(** What a register read returns, and the byte the processor reads at an address
    of the Non-secure aperture. *)
Class XspiDevice := {
  xspi_value : list xspi_event → xspi_reg → Z;
  nor_array : list xspi_event → Z → Z;
}.

Section driver.
Context `{XspiDevice}.

Definition WT_XSPI_RD {R} (reg : xspi_reg) : prog xspi R Z :=
  s ← gets id;
  let v := xspi_value (xs_history s) reg in
  modify (λ s, s <| xs_history := XRead reg v :: xs_history s |>);; mret v.
Definition WT_XSPI_WR {R} (reg : xspi_reg) (value : Z) : prog xspi R unit :=
  modify (λ s, s <| xs_history := XWrite reg value :: xs_history s |>).
Definition WT_XSPI_SET {R} (reg : xspi_reg) (bits : Z) : prog xspi R unit := v ← WT_XSPI_RD reg; WT_XSPI_WR reg (v .| bits).
Definition WT_XSPI_CLR {R} (reg : xspi_reg) (bits : Z) : prog xspi R unit := v ← WT_XSPI_RD reg; WT_XSPI_WR reg (v .&~ bits).

(** [while (busy() && (t > 0u)) t--;]: the final [t]. *)
Fixpoint poll {R} (t : nat) (busy : prog xspi R bool) : prog xspi R nat :=
  b ← busy;
  if b : bool then match t with O => mret O | S t' => poll t' busy end else mret t.
Definition bits_set {R} (reg : xspi_reg) (bits : Z) : prog xspi R bool := v ← WT_XSPI_RD reg; mret (has_any v bits).

(** ** Transactions *)

Definition wt_xspi_recover : func xspi Z := fn (
  WT_XSPI_SET WT_XSPI0_MCR WT_XSPI_MCR_IPS_TG_RST;;
  WT_XSPI_CLR WT_XSPI0_MCR WT_XSPI_MCR_MDIS;;
  WT_XSPI_SET WT_XSPI0_MCR (WT_XSPI_MCR_SWRSTSD .| WT_XSPI_MCR_SWRSTHD);;
  WT_XSPI_SET WT_XSPI0_MCR WT_XSPI_MCR_MDIS;;
  WT_XSPI_CLR WT_XSPI0_MCR (WT_XSPI_MCR_SWRSTSD .| WT_XSPI_MCR_SWRSTHD);;
  WT_XSPI_CLR WT_XSPI0_MCR WT_XSPI_MCR_MDIS;;
  err ← WT_XSPI_RD WT_XSPI0_ERRSTAT;
  WT_XSPI_WR WT_XSPI0_ERRSTAT err;;
  mret WT_XSPI_NOR_TIMEOUT).

Definition wt_xspi_check_error (err : Z) : func xspi Z := fn (
  let err := err .& WT_XSPI_ERRSTAT_ERRORS in
  if err =? 0 then mret WT_XSPI_NOR_OK else
  when (has_any err WT_XSPI_ERRSTAT_TG0SFAR) (WT_XSPI_SET WT_XSPI0_TGSFARS WT_XSPI_TGSFARS_CLR);;
  when (has_any err WT_XSPI_ERRSTAT_TG0IPCR) (WT_XSPI_SET WT_XSPI0_TGIPCRS WT_XSPI_TGIPCRS_CLR);;
  WT_XSPI_SET WT_XSPI0_MCR (WT_XSPI_MCR_CLR_TXF .| WT_XSPI_MCR_CLR_RXF);;
  WT_XSPI_WR WT_XSPI0_ERRSTAT err;;
  mret WT_XSPI_NOR_BUS).

(** The loop that waits for the address to be accepted. *)
Fixpoint claim_loop (t : nat) : prog xspi Z nat :=
  v ← WT_XSPI_RD WT_XSPI0_TGSFARS;
  let err := v .& (WT_XSPI_TGSFARS_VLD .| WT_XSPI_TGSFARS_ERR) in
  if err =? WT_XSPI_TGSFARS_ERR then
    WT_XSPI_SET WT_XSPI0_TGSFARS WT_XSPI_TGSFARS_CLR;; early WT_XSPI_NOR_BUS
  else
  match t with
  | O => mret O   (** not reached: [t] is positive *)
  | S t' => if negb (err =? WT_XSPI_TGSFARS_VLD) && (0 <? t')%nat then claim_loop t' else mret t'
  end.
(** The loop that waits for the command to win arbitration. *)
Fixpoint arbitrate_loop (t : nat) : prog xspi Z nat :=
  match t with
  | O => mret O
  | S t' =>
    err ← WT_XSPI_RD WT_XSPI0_ERRSTAT;
    if has_any err WT_XSPI_ERRSTAT_ARB_WIN then mret t else
    if has_any err WT_XSPI_ERRSTAT_ERRORS then
      call (wt_xspi_check_error err);;
      WT_XSPI_SET WT_XSPI0_TGIPCRS WT_XSPI_TGIPCRS_CLR;;
      WT_XSPI_SET WT_XSPI0_TGSFARS WT_XSPI_TGSFARS_CLR;;
      early WT_XSPI_NOR_BUS
    else arbitrate_loop t'
  end.
(** [if (t == 0u) return wt_xspi_recover();] *)
Definition expired (t : nat) : prog xspi Z unit :=
  when (t =? 0)%nat (ret ← call wt_xspi_recover; early ret).

Definition wt_xspi_ip_start (address seqid size : Z) : func xspi Z := fn (
  err ← WT_XSPI_RD WT_XSPI0_ERRSTAT;
  WT_XSPI_WR WT_XSPI0_ERRSTAT err;;
  t ← poll WT_XSPI_POLL_LIMIT (bits_set WT_XSPI0_TGSFARS WT_XSPI_TGSFARS_VLD);
  expired t;;
  WT_XSPI_WR WT_XSPI0_SFP_TG_SFAR address;;
  armed ← bits_set WT_XSPI0_MGC WT_XSPI_MGC_GVLDMDAD;
  armed ← (if armed : bool then bits_set WT_XSPI0_TG0MDAD WT_XSPI_TG0MDAD_VLD else mret false);
  when armed (t ← claim_loop WT_XSPI_POLL_LIMIT; expired t);;
  WT_XSPI_WR WT_XSPI0_SFP_TG_IPCR (WT_XSPI_IPCR_IDATSZ size .| WT_XSPI_IPCR_SEQID seqid);;
  t ← arbitrate_loop WT_XSPI_POLL_LIMIT;
  expired t;;
  WT_XSPI_WR WT_XSPI0_ERRSTAT WT_XSPI_ERRSTAT_ARB_WIN;;
  mret WT_XSPI_NOR_OK).

Definition wt_xspi_ip_idle : func xspi Z := fn (
  t ← poll WT_XSPI_POLL_LIMIT (bits_set WT_XSPI0_SR WT_XSPI_SR_BUSY);
  expired t;; mret WT_XSPI_NOR_OK).
Definition wt_xspi_ip_released : func xspi Z := fn (
  t ← poll WT_XSPI_POLL_LIMIT (bits_set WT_XSPI0_SR WT_XSPI_SR_IP_ACC);
  expired t;; mret WT_XSPI_NOR_OK).

(** [if (rc == WT_XSPI_NOR_OK) rc = f();] *)
Definition and_then {R} (rc : Z) (f : func xspi Z) : prog xspi R Z := if rc =? WT_XSPI_NOR_OK then call f else mret rc.
Definition check_errstat : func xspi Z := fn (err ← WT_XSPI_RD WT_XSPI0_ERRSTAT; call (wt_xspi_check_error err)).

Definition wt_xspi_ip_command (address seqid : Z) : func xspi Z := fn (
  rc ← call (wt_xspi_ip_start address seqid 0);
  rc ← and_then rc wt_xspi_ip_idle;
  rc ← and_then rc check_errstat;
  and_then rc wt_xspi_ip_released).

(** The words sent are those of the page buffer: the callers pass no other. *)
Definition wt_xspi_ip_write (address seqid size : Z) : func xspi Z := fn (
  let count := size / 4 in
  rc ← call (wt_xspi_ip_start address seqid size);
  if negb (rc =? WT_XSPI_NOR_OK) then mret rc else
  WT_XSPI_SET WT_XSPI0_MCR WT_XSPI_MCR_CLR_TXF;;
  t ← poll WT_XSPI_POLL_LIMIT (v ← WT_XSPI_RD WT_XSPI0_FSMSTAT; mret (negb (v .& WT_XSPI_FSMSTAT_STATE =? 1)));
  expired t;;
  WT_XSPI_WR WT_XSPI0_TBCT (u32 (WT_XSPI_TX_DEPTH_WORDS + 1 - count));;
  rc ← call check_errstat;
  when (rc =? WT_XSPI_NOR_OK) (
    for_each (seq 0 (Z.to_nat count)) (λ i,
      t ← poll WT_XSPI_POLL_LIMIT (bits_set WT_XSPI0_SR WT_XSPI_SR_TXFULL);
      expired t;;
      page ← gets g_wt_xspi_page;
      word ← defined (buf_read page (4 * Z.of_nat i) 4);
      WT_XSPI_WR WT_XSPI0_TBDR (of_le word)));;
  if negb (rc =? WT_XSPI_NOR_OK) then mret rc else
  WT_XSPI_WR WT_XSPI0_FR WT_XSPI_FR_TBFF;;
  rc ← call wt_xspi_ip_released;
  rc ← and_then rc wt_xspi_ip_idle;
  and_then rc check_errstat).

(** The loop that waits for the receive buffer; a bus timeout ends it. *)
Fixpoint fill_loop (t : nat) : prog xspi (Z * Z) nat :=
  ready ← bits_set WT_XSPI0_SR WT_XSPI_SR_RXWE;
  if negb ready then
    match t with
    | O => mret O
    | S t' =>
      timeout ← bits_set WT_XSPI0_ERRSTAT WT_XSPI_ERRSTAT_TO_ERR;
      if timeout : bool then
        WT_XSPI_SET WT_XSPI0_MCR WT_XSPI_MCR_CLR_RXF;;
        WT_XSPI_WR WT_XSPI0_ERRSTAT WT_XSPI_ERRSTAT_TO_ERR;;
        rc ← call wt_xspi_recover; early (rc, 0)
      else fill_loop t'
    end
  else mret t.
(** The result and [*word]. *)
Definition wt_xspi_ip_read_word (address seqid size : Z) : func xspi (Z * Z) := fn (
  WT_XSPI_SET WT_XSPI0_MCR WT_XSPI_MCR_CLR_RXF;;
  acc ← bits_set WT_XSPI0_SR WT_XSPI_SR_IP_ACC;
  if acc : bool then mret (WT_XSPI_NOR_BUS, 0) else
  WT_XSPI_WR WT_XSPI0_RBCT 0;;
  rc ← call (wt_xspi_ip_start address seqid size);
  if negb (rc =? WT_XSPI_NOR_OK) then mret (rc, 0) else
  valid ← bits_set WT_XSPI0_FSMSTAT WT_XSPI_FSMSTAT_VLD;
  if negb valid then WT_XSPI_SET WT_XSPI0_MCR WT_XSPI_MCR_CLR_RXF;; mret (WT_XSPI_NOR_BUS, 0) else
  t ← poll WT_XSPI_POLL_LIMIT (
    busy ← bits_set WT_XSPI0_SR WT_XSPI_SR_BUSY;
    if busy : bool then mret false else bits_set WT_XSPI0_SR WT_XSPI_SR_IP_ACC);
  if (t =? 0)%nat then rc ← call wt_xspi_recover; mret (rc, 0) else
  t ← fill_loop WT_XSPI_POLL_LIMIT;
  if (t =? 0)%nat then rc ← call wt_xspi_recover; mret (rc, 0) else
  filled ← WT_XSPI_RD WT_XSPI0_RBSR;
  if negb (filled .& WT_XSPI_RBSR_RDBFL =? 1) then
    WT_XSPI_SET WT_XSPI0_MCR WT_XSPI_MCR_CLR_RXF;; mret (WT_XSPI_NOR_BUS, 0)
  else
  rc ← call check_errstat;
  if negb (rc =? WT_XSPI_NOR_OK) then WT_XSPI_SET WT_XSPI0_MCR WT_XSPI_MCR_CLR_RXF;; mret (rc, 0) else
  word ← WT_XSPI_RD WT_XSPI0_RBDR0;
  WT_XSPI_SET WT_XSPI0_MCR WT_XSPI_MCR_CLR_RXF;;
  rc ← call wt_xspi_ip_idle;
  mret (rc, word)).

(** ** Device commands *)

(** The result and [*value]. *)
Definition wt_nor_read_reg (seqid : Z) : func xspi (Z * Z) := fn (
  '(rc, word) ← call (wt_xspi_ip_read_word WT_XSPI_NOR_BASE seqid 2);
  mret (rc, word .& 0xFF)).

Fixpoint ready_loop (t : nat) : prog xspi Z Z :=
  match t with
  | O => mret WT_XSPI_NOR_TIMEOUT
  | S t' =>
    '(rc, sr) ← call (wt_nor_read_reg WT_NOR_SEQ_RDSR);
    if negb (rc =? WT_XSPI_NOR_OK) then mret rc else
    if has_any sr WT_NOR_SR_WIP then ready_loop t' else mret WT_XSPI_NOR_OK
  end.
Definition wt_nor_wait_ready : func xspi Z := fn (ready_loop WT_XSPI_BUSY_LIMIT).

Definition wt_nor_write_enable (address : Z) : func xspi Z := fn (
  rc ← call (wt_xspi_ip_command address WT_NOR_SEQ_WREN);
  if negb (rc =? WT_XSPI_NOR_OK) then mret rc else
  '(rc, sr) ← call (wt_nor_read_reg WT_NOR_SEQ_RDSR);
  mret (if (rc =? WT_XSPI_NOR_OK) && negb (has_any sr WT_NOR_SR_WEL) then WT_XSPI_NOR_DEVICE else rc)).

Definition wt_nor_check_fail (mask : Z) : func xspi Z := fn (
  '(rc, scur) ← call (wt_nor_read_reg WT_NOR_SEQ_RDSCUR);
  mret (if (rc =? WT_XSPI_NOR_OK) && has_any scur mask then WT_XSPI_NOR_DEVICE else rc)).

Definition wt_xspi_lut_install : func xspi Z := fn (
  differ ← for_acc lut_entries (λ '(i, w) differ,
    v ← WT_XSPI_RD (WT_XSPI0_LUT i); mret (if v =? w then differ else true)) false;
  if negb differ then mret WT_XSPI_NOR_OK else
  rc ← call wt_xspi_ip_idle;
  if negb (rc =? WT_XSPI_NOR_OK) then mret rc else
  WT_XSPI_WR WT_XSPI0_LUTKEY WT_XSPI_LUT_KEY;;
  WT_XSPI_WR WT_XSPI0_LCKCR WT_XSPI_LCKCR_UNLOCK;;
  for_each lut_entries (λ '(i, w), WT_XSPI_WR (WT_XSPI0_LUT i) w);;
  WT_XSPI_WR WT_XSPI0_LUTKEY WT_XSPI_LUT_KEY;;
  WT_XSPI_WR WT_XSPI0_LCKCR WT_XSPI_LCKCR_LOCK;;
  mret rc).

Definition wt_xspi_read_path_flush : func xspi Z := fn (
  WT_XSPI_SET WT_XSPI0_SPTRCLR WT_XSPI_SPTRCLR_ABRT_CLR;;
  t ← poll WT_XSPI_POLL_LIMIT (bits_set WT_XSPI0_SPTRCLR WT_XSPI_SPTRCLR_ABRT_CLR);
  let rc := if (t =? 0)%nat then WT_XSPI_NOR_TIMEOUT else WT_XSPI_NOR_OK in
  WT_XSPI_SET WT_CACHE64_CTRL0_CCR (WT_CACHE64_CCR_INVW0 .| WT_CACHE64_CCR_INVW1 .| WT_CACHE64_CCR_GO);;
  t ← poll WT_XSPI_POLL_LIMIT (bits_set WT_CACHE64_CTRL0_CCR WT_CACHE64_CCR_GO);
  WT_XSPI_CLR WT_CACHE64_CTRL0_CCR (WT_CACHE64_CCR_INVW0 .| WT_CACHE64_CCR_INVW1);;
  mret (if (rc =? WT_XSPI_NOR_OK) && (t =? 0)%nat then WT_XSPI_NOR_TIMEOUT else rc)).

(** ** Program and erase *)

(** [flush_rc = wt_xspi_read_path_flush(); if (rc == OK) rc = flush_rc;] *)
Definition flushed {R} (rc : Z) : prog xspi R Z :=
  flush_rc ← call wt_xspi_read_path_flush; mret (if rc =? WT_XSPI_NOR_OK then flush_rc else rc).

Definition wt_xspi_nor_erase_sector_ram (address : Z) : func xspi Z := fn (
  rc ← call wt_xspi_lut_install;
  rc ← and_then rc wt_nor_wait_ready;
  rc ← and_then rc (wt_nor_write_enable address);
  rc ← and_then rc (wt_xspi_ip_command address WT_NOR_SEQ_SE);
  rc ← and_then rc wt_nor_wait_ready;
  rc ← and_then rc (wt_nor_check_fail WT_NOR_SCUR_EFAIL);
  flushed rc).
Definition wt_xspi_nor_program_ram (address size : Z) : func xspi Z := fn (
  rc ← call wt_xspi_lut_install;
  rc ← and_then rc wt_nor_wait_ready;
  rc ← and_then rc (wt_nor_write_enable address);
  rc ← and_then rc (wt_xspi_ip_write address WT_NOR_SEQ_PP size);
  rc ← and_then rc wt_nor_wait_ready;
  rc ← and_then rc (wt_nor_check_fail WT_NOR_SCUR_PFAIL);
  flushed rc).

Definition wt_xspi_nor_range_ok (address size : Z) : bool :=
  existsb (λ win,
    let offset := u32 (address - nw_base win) in
    (nw_base win <=? address) && (offset <? nw_size win) && (size <=? nw_size win - offset)) g_wt_xspi_nor_writable.

Fixpoint nor_erase_loop (fuel : nat) (address size done : Z) : prog xspi Z Z :=
  if done <? size then
    match fuel with
    | O => defined None
    | S fuel =>
      rc ← call (wt_xspi_nor_erase_sector_ram (u32 (address + done)));
      if rc =? WT_XSPI_NOR_OK then nor_erase_loop fuel address size (u32 (done + WT_XSPI_NOR_SECTOR)) else mret rc
    end
  else mret WT_XSPI_NOR_OK.
Definition wt_xspi_nor_erase (address size : Z) : func xspi Z := fn (
  if negb (address .& (WT_XSPI_NOR_SECTOR - 1) =? 0) || negb (size .& (WT_XSPI_NOR_SECTOR - 1) =? 0) ||
     negb (wt_xspi_nor_range_ok address size)
  then mret WT_XSPI_NOR_ARGUMENT else
  nor_erase_loop (Z.to_nat size) address size 0).

Fixpoint nor_program_loop (fuel : nat) (address : Z) (data : list Z) (done : Z) : prog xspi Z Z :=
  let size := Z.of_nat (length data) in
  if done <? size then
    match fuel with
    | O => defined None
    | S fuel =>
      let chunk := WT_XSPI_NOR_PAGE - (u32 (address + done) .& (WT_XSPI_NOR_PAGE - 1)) in
      let chunk := if size - done <? chunk then size - done else chunk in
      bytes ← defined (buf_read data done chunk);
      page ← gets g_wt_xspi_page;
      page ← defined (buf_write page 0 bytes);
      modify (λ s, s <| g_wt_xspi_page := page |>);;
      rc ← call (wt_xspi_nor_program_ram (u32 (address + done)) chunk);
      if rc =? WT_XSPI_NOR_OK then nor_program_loop fuel address data (u32 (done + chunk)) else mret rc
    end
  else mret WT_XSPI_NOR_OK.
Definition wt_xspi_nor_program (address : Z) (data : list Z) : func xspi Z := fn (
  let size := Z.of_nat (length data) in
  if negb (address .& (WT_XSPI_NOR_UNIT - 1) =? 0) || negb (size .& (WT_XSPI_NOR_UNIT - 1) =? 0) ||
     negb (wt_xspi_nor_range_ok address size)
  then mret WT_XSPI_NOR_ARGUMENT else
  rc ← nor_program_loop (Z.to_nat size) address data 0;
  modify (λ s, s <| g_wt_xspi_page := zeros (Z.to_nat WT_XSPI_NOR_PAGE) |>);;
  mret rc).
End driver.
