(* ===== verification/XspiProps.v ===== *)
(** * What the NOR driver does to the device

    A monitor follows the register history: which change commands (sector erase,
    page program) were issued, and how far the newest one was seen to have gone.
    [NorDevice] states what the flash does in terms of it: bytes outside the
    changes that are still open do not change, and an erase that was accepted,
    completed and reported no failure has erased its sector. The driver's
    operations are specified by the changes they issue. *)

From Stdlib Require Import ZArith Lia.
From stdpp Require Import base list numbers option sets.
From S2P Require Import Prelude Buffers CState XspiNor.

(** ** The monitor *)

Inductive nor_change := NorErase (a : Z) | NorProgram (a n : Z).
(** The bytes a command can change. A page program that runs over the end of its
    page wraps around in it. *)
Definition extent (c : nor_change) : Z * Z :=
  match c with
  | NorErase a => let lo := a - a mod WT_XSPI_NOR_SECTOR in (lo, lo + WT_XSPI_NOR_SECTOR)
  | NorProgram a n =>
    if a mod WT_XSPI_NOR_PAGE + n <=? WT_XSPI_NOR_PAGE then (a, a + n) else
    let lo := a - a mod WT_XSPI_NOR_PAGE in (lo, lo + WT_XSPI_NOR_PAGE)
  end.
Definition covers (c : nor_change) (x : Z) : Prop := (extent c).1 ≤ x < (extent c).2.

Record nor_mon := {
  nm_sfar : Z;                    (** the address of the next command *)
  nm_seq : Z;                     (** the sequence of the last command *)
  nm_wel : bool;                  (** the write enable latch was last seen set *)
  nm_lut : Z → option Z;          (** the sequence words seen in the controller *)
  nm_changes : list nor_change;   (** the change commands issued, newest first *)
  nm_accepted : bool;             (** the newest was enabled and had its sequence *)
  nm_stage : nat;                 (** 1 won arbitration, 2 no bus error, 3 device idle, 4 cache flush started, 5 and ended *)
  nm_clean : bool;                (** its failure flag was seen clear *)
  nm_open : list nor_change;      (** those whose effect may still become visible *)
}.
#[export] Instance nor_mon_eta : Settable nor_mon := λ m,
  {| nm_sfar := nm_sfar m; nm_seq := nm_seq m; nm_wel := nm_wel m; nm_lut := nm_lut m; nm_changes := nm_changes m;
     nm_accepted := nm_accepted m; nm_stage := nm_stage m; nm_clean := nm_clean m; nm_open := nm_open m |}.
#[export] Instance set_nm_sfar : Setter nm_sfar. Proof. derive_setter. Defined.
#[export] Instance set_nm_seq : Setter nm_seq. Proof. derive_setter. Defined.
#[export] Instance set_nm_wel : Setter nm_wel. Proof. derive_setter. Defined.
#[export] Instance set_nm_lut : Setter nm_lut. Proof. derive_setter. Defined.
#[export] Instance set_nm_stage : Setter nm_stage. Proof. derive_setter. Defined.
#[export] Instance set_nm_clean : Setter nm_clean. Proof. derive_setter. Defined.
#[export] Instance set_nm_open : Setter nm_open. Proof. derive_setter. Defined.

Definition lut_ok (lut : Z → option Z) : bool := forallb (λ '(i, w), bool_decide (lut i = Some w)) lut_entries.
Arguments lut_ok : simpl never.
Definition issue (c : nor_change) (m : nor_mon) : nor_mon :=
  {| nm_sfar := nm_sfar m; nm_seq := nm_seq m; nm_wel := false; nm_lut := nm_lut m; nm_changes := c :: nm_changes m;
     nm_accepted := nm_wel m && lut_ok (nm_lut m); nm_stage := 0; nm_clean := false; nm_open := c :: nm_open m |}.
Definition advance (from : nat) (seen : bool) (m : nor_mon) : nor_mon :=
  if (nm_stage m =? from)%nat && seen then m <| nm_stage := S from |> else m.

Definition see_lut (i v : Z) (m : nor_mon) : nor_mon :=
  m <| nm_lut := λ j, if j =? i then Some v else nm_lut m j |>.
Definition see_command (v : Z) (m : nor_mon) : nor_mon :=
  let m := m <| nm_seq := (v .>> 24) .& 0xF |> in
  if nm_seq m =? WT_NOR_SEQ_SE then issue (NorErase (nm_sfar m)) m else
  if nm_seq m =? WT_NOR_SEQ_PP then issue (NorProgram (nm_sfar m) (v .& 0xFFFF)) m else m.
Definition see_data (v : Z) (m : nor_mon) : nor_mon :=
  if nm_seq m =? WT_NOR_SEQ_RDSR then
    advance 2 (negb (has_any v WT_NOR_SR_WIP)) (m <| nm_wel := has_any v WT_NOR_SR_WEL |>)
  else if (nm_seq m =? WT_NOR_SEQ_RDSCUR) && (3 <=? nm_stage m)%nat && negb (has_any v WT_NOR_SCUR_EFAIL)
  then m <| nm_clean := true |> else m.
Definition see_errstat (v : Z) (m : nor_mon) : nor_mon :=
  if (nm_stage m =? 0)%nat then advance 0 (has_any v WT_XSPI_ERRSTAT_ARB_WIN) m
  else advance 1 (negb (has_any v WT_XSPI_ERRSTAT_ERRORS)) m.
Definition see_flushed (v : Z) (m : nor_mon) : nor_mon :=
  if (nm_stage m =? 4)%nat && negb (has_any v WT_CACHE64_CCR_GO) then m <| nm_stage := 5%nat |> <| nm_open := [] |> else m.
Definition mon_step (e : xspi_event) (m : nor_mon) : nor_mon :=
  match e with
  | XWrite WT_XSPI0_SFP_TG_SFAR a => m <| nm_sfar := a |>
  | XWrite WT_XSPI0_SFP_TG_IPCR v => see_command v m
  | XWrite (WT_XSPI0_LUT i) v | XRead (WT_XSPI0_LUT i) v => see_lut i v m
  | XRead WT_XSPI0_ERRSTAT v => see_errstat v m
  | XRead WT_XSPI0_RBDR0 v => see_data v m
  | XWrite WT_CACHE64_CTRL0_CCR v => advance 3 (has_any v WT_CACHE64_CCR_GO) m
  | XRead WT_CACHE64_CTRL0_CCR v => see_flushed v m
  | _ => m
  end.
Definition mon0 : nor_mon :=
  {| nm_sfar := 0; nm_seq := 0; nm_wel := false; nm_lut := λ _, None; nm_changes := []; nm_accepted := false; nm_stage := 5;
     nm_clean := false; nm_open := [] |}.
Definition mon (t : list xspi_event) : nor_mon := foldr mon_step mon0 t.

(** ** The device *)

Class NorDevice `{XspiDevice} : Prop := {
  nor_frame e t x :
    (∀ c, c ∈ nm_open (mon t) ∨ c ∈ nm_open (mon (e :: t)) → ¬ covers c x) → nor_array (e :: t) x = nor_array t x;
  nor_erased t a cs x :
    nm_changes (mon t) = NorErase a :: cs → nm_accepted (mon t) = true → nm_stage (mon t) = 5%nat → nm_clean (mon t) = true →
    covers (NorErase a) x → nor_array t x = 0xFF;
}.

Definition settled (m : nor_mon) : Prop := nm_stage m = 5%nat → nm_open m = [].
Lemma advance_settled k b m : (k < 4)%nat → settled m → settled (advance k b m).
Proof. intros Hk Hm. unfold advance. destruct (_ && _); [|done]. unfold settled. simpl. lia. Qed.
Lemma settled_open t : settled (mon t).
Proof.
  induction t as [|e t IH]; [done|]. cbn [mon foldr]. fold (mon t). set (m := mon t) in *. clearbody m.
  destruct e as [r v|r v]; destruct r; cbn [mon_step]; try exact IH.
  - unfold see_data. case_match; [apply advance_settled; [lia|exact IH]|]. case_match; exact IH.
  - unfold see_errstat. case_match; apply advance_settled; auto; lia.
  - unfold see_flushed. by case_match.
  - unfold see_command, settled. cbv zeta. repeat (case_match; [done|]). exact IH.
  - apply advance_settled; [lia|done].
Qed.

(** How the newest change advances. *)
Lemma advance_stage k b m : (k < nm_stage m)%nat ∨ b = true ∧ (k ≤ nm_stage m)%nat → (S k ≤ nm_stage (advance k b m))%nat.
Proof.
  intros Hk. unfold advance. destruct (_ && _) eqn:E; simpl; [lia|].
  apply andb_false_iff in E as [E%Nat.eqb_neq|E]; destruct Hk as [Hk|[-> Hk]]; try done; lia.
Qed.
Lemma won_stage v m : has_any v WT_XSPI_ERRSTAT_ARB_WIN = true → (1 ≤ nm_stage (see_errstat v m))%nat.
Proof.
  intros Hv. unfold see_errstat. destruct (_ =? 0)%nat eqn:E; [apply advance_stage; right; split; [done|lia]|].
  apply Nat.eqb_neq in E. unfold advance. destruct (_ && _); simpl; lia.
Qed.
Lemma clear_stage v m : has_any v WT_XSPI_ERRSTAT_ERRORS = false → (1 ≤ nm_stage m)%nat → (2 ≤ nm_stage (see_errstat v m))%nat.
Proof.
  intros Hv Hm. unfold see_errstat. destruct (_ =? 0)%nat eqn:E; [apply Nat.eqb_eq in E; lia|]. apply advance_stage. rewrite Hv. auto.
Qed.
Lemma idle_stage v m : nm_seq m = WT_NOR_SEQ_RDSR → has_any v WT_NOR_SR_WIP = false → (2 ≤ nm_stage m)%nat →
  (3 ≤ nm_stage (see_data v m))%nat.
Proof. intros Hs Hv Hm. unfold see_data. rewrite Hs, Hv. apply advance_stage. auto. Qed.
Lemma clean_seen v m : nm_seq m = WT_NOR_SEQ_RDSCUR → has_any v WT_NOR_SCUR_EFAIL = false → (3 ≤ nm_stage m)%nat →
  nm_clean (see_data v m) = true.
Proof. intros Hs Hv Hm. unfold see_data. rewrite Hs, Hv, (proj2 (Nat.leb_le _ _) Hm). done. Qed.
Lemma wel_seen v m : nm_seq m = WT_NOR_SEQ_RDSR → nm_wel (see_data v m) = has_any v WT_NOR_SR_WEL.
Proof. intros Hs. unfold see_data, advance. rewrite Hs. simpl. by destruct (_ && _). Qed.
Lemma flushed_stage v m : has_any v WT_CACHE64_CCR_GO = false → (4 ≤ nm_stage m)%nat → (5 ≤ nm_stage (see_flushed v m))%nat.
Proof.
  intros Hv Hm. unfold see_flushed. rewrite Hv. destruct (_ && _) eqn:E; simpl; [lia|].
  rewrite andb_true_r in E. apply Nat.eqb_neq in E. lia.
Qed.
Lemma stage_max t : (nm_stage (mon t) ≤ 5)%nat.
Proof.
  assert (∀ k b m, (k < 5)%nat → (nm_stage m ≤ 5)%nat → (nm_stage (advance k b m) ≤ 5)%nat) as Ha.
  { intros k b m Hk Hm. unfold advance. destruct (_ && _); simpl; lia. }
  induction t as [|e t IH]; [done|]. cbn [mon foldr]. fold (mon t). set (m := mon t) in *. clearbody m.
  destruct e as [r v|r v]; destruct r; cbn [mon_step]; try exact IH.
  - unfold see_data. destruct (_ =? _); [apply Ha; [lia|exact IH]|]. destruct (_ && _ && _); exact IH.
  - unfold see_errstat. destruct (_ =? 0)%nat; apply Ha; auto; lia.
  - unfold see_flushed. destruct (_ && _); simpl; lia.
  - unfold see_command. cbv zeta. destruct (_ =? _); [simpl; lia|]. destruct (_ =? _); [simpl; lia|exact IH].
  - apply Ha; [lia|done].
Qed.

(** ** Quiet steps *)

Definition mon_of (s : xspi) : nor_mon := mon (xs_history s).

(** The history grew, and no change outside [A] was open on the way. *)
Inductive ext (A : nor_change → Prop) (t : list xspi_event) : list xspi_event → Prop :=
| ext_nil : ext A t t
| ext_cons e t' : ext A t t' → (∀ c, c ∈ nm_open (mon (e :: t')) → A c) → ext A t (e :: t').
Lemma ext_trans A t1 t2 t3 : ext A t1 t2 → ext A t2 t3 → ext A t1 t3.
Proof. intros H1. induction 1; [done|by constructor]. Qed.
Lemma ext_weaken (A B : nor_change → Prop) t t' : (∀ c, A c → B c) → ext A t t' → ext B t t'.
Proof. intros HAB. induction 1; constructor; auto. Qed.

(** No change was issued; at level 1, no command sequence was touched either,
    and at level 2, no command was prepared and no device register read. *)
Record calm (b : nat) (s s' : xspi) : Prop := {
  ca_page : g_wt_xspi_page s' = g_wt_xspi_page s;
  ca_changes : nm_changes (mon_of s') = nm_changes (mon_of s);
  ca_accepted : nm_accepted (mon_of s') = nm_accepted (mon_of s);
  ca_lut : (1 ≤ b)%nat → nm_lut (mon_of s') = nm_lut (mon_of s);
  ca_stage : (nm_stage (mon_of s) ≤ nm_stage (mon_of s'))%nat;
  ca_clean : nm_clean (mon_of s) = true → nm_clean (mon_of s') = true;
  ca_open c : c ∈ nm_open (mon_of s') → c ∈ nm_open (mon_of s);
  ca_ext (A : nor_change → Prop) : (∀ c, c ∈ nm_open (mon_of s) → A c) → ext A (xs_history s) (xs_history s');
  ca_still : (2 ≤ b)%nat → nm_wel (mon_of s') = nm_wel (mon_of s) ∧ nm_seq (mon_of s') = nm_seq (mon_of s) ∧
    nm_sfar (mon_of s') = nm_sfar (mon_of s);
}.
#[export] Instance calm_preorder b : PreOrder (calm b).
Proof.
  split; [by intros s; split; auto; constructor|].
  intros s1 s2 s3 [] []. split; try congruence; auto; try lia.
  - intros Hb. rewrite ca_lut1; auto.
  - intros A HA. eapply ext_trans; eauto.
  - intros Hb. destruct ca_still0 as (?&?&?), ca_still1 as (?&?&?); [done..|]. split_and!; congruence.
Qed.
Lemma calm_level b b' s s' : (b' ≤ b)%nat → calm b s s' → calm b' s s'.
Proof. intros Hb []. split; auto; intros; [apply ca_lut0|apply ca_still0]; lia. Qed.

Section calm.
Context `{XspiDevice} (b : nat).

Class Calmly {R A} (p : prog xspi R A) : Prop := calmly s : wp p (λ _, calm b s) (λ _, calm b s) s.
Class CalmFn {A} (f : func xspi A) : Prop := calm_fn s : fwp f (λ _, calm b s) s.

Lemma calmly_after {R A} (p : prog xspi R A) s0 s (E : R → xspi → Prop) (Q : A → xspi → Prop) :
  Calmly p → calm b s0 s → (∀ r s', calm b s0 s' → E r s') → (∀ a s', calm b s0 s' → Q a s') → wp p E Q s.
Proof. intros Hp Hs HE HQ. eapply wp_mono; [apply Hp| |]; intros; [apply HE|apply HQ]; by etrans. Qed.
#[global] Instance calmly_ret {R A} (a : A) : Calmly (R := R) (mret a).
Proof. intros s. by apply wp_ret. Qed.
#[global] Instance calmly_early {R A} (r : R) : Calmly (A := A) (early r).
Proof. intros s. by apply wp_early. Qed.
#[global] Instance calmly_bind {R A B} (p : prog xspi R A) (k : A → prog xspi R B) :
  Calmly p → (∀ a, Calmly (k a)) → Calmly (p ≫= k).
Proof.
  intros Hp Hk s. apply wp_bind. eapply wp_mono; [apply Hp|done|]. intros a s1 H1. by eapply (calmly_after _ s); [apply Hk| | |].
Qed.
#[global] Instance calmly_if {R A} (c : bool) (p q : prog xspi R A) : Calmly p → Calmly q → Calmly (if c then p else q).
Proof. by destruct c. Qed.
#[global] Instance calmly_when {R} (c : bool) (p : prog xspi R unit) : Calmly p → Calmly (when c p).
Proof. intros Hp. destruct c; [done|apply _]. Qed.
#[global] Instance calmly_gets {R A} (f : xspi → A) : Calmly (R := R) (gets f).
Proof. intros s. by apply wp_gets. Qed.
#[global] Instance calmly_call {R A} (f : func xspi A) : CalmFn f → Calmly (R := R) (call f).
Proof. intros Hf s. by apply wp_call. Qed.
#[global] Instance calm_fn_fn {A} (p : prog xspi A A) : Calmly p → CalmFn (fn p).
Proof. intros Hp s. apply fwp_fn. eapply wp_mono; [apply Hp|done|done]. Qed.
#[global] Instance calmly_for_each {R I} (l : list I) (body : I → prog xspi R unit) :
  (∀ i, Calmly (body i)) → Calmly (for_each l body).
Proof. intros Hb. induction l; simpl; apply _. Qed.

(** *** Register accesses *)

Definition rd_calm (r : xspi_reg) : bool :=
  match r with WT_XSPI0_LUT _ => (b <? 1)%nat | WT_XSPI0_RBDR0 => (b <? 2)%nat | _ => true end.
Definition wr_calm (r : xspi_reg) : bool :=
  match r with
  | WT_XSPI0_LUT _ => (b <? 1)%nat | WT_XSPI0_SFP_TG_IPCR => false | WT_XSPI0_SFP_TG_SFAR => (b <? 2)%nat | _ => true
  end.

Lemma calm_event s e : let m' := mon_step e (mon_of s) in
  nm_changes m' = nm_changes (mon_of s) → nm_accepted m' = nm_accepted (mon_of s) →
  ((1 ≤ b)%nat → nm_lut m' = nm_lut (mon_of s)) →
  (nm_stage (mon_of s) ≤ nm_stage m')%nat → (nm_clean (mon_of s) = true → nm_clean m' = true) →
  (nm_open m' = nm_open (mon_of s) ∨ nm_open m' = []) →
  ((2 ≤ b)%nat → nm_wel m' = nm_wel (mon_of s) ∧ nm_seq m' = nm_seq (mon_of s) ∧ nm_sfar m' = nm_sfar (mon_of s)) →
  calm b s (s <| xs_history := e :: xs_history s |>).
Proof.
  intros m' Hc Ha Hl Hs Hcl Ho Hst. subst m'.
  assert (∀ c, c ∈ nm_open (mon_step e (mon_of s)) → c ∈ nm_open (mon_of s)) as Hsub.
  { intros c Hin. destruct Ho as [<-|E]; [done|]. rewrite E in Hin. by apply elem_of_nil in Hin. }
  split; try done. intros A HA. constructor; [constructor|]. intros c Hin. by apply HA, Hsub.
Qed.
Lemma calm_advance s e k seen : mon_step e (mon_of s) = advance k seen (mon_of s) →
  calm b s (s <| xs_history := e :: xs_history s |>).
Proof.
  intros E. apply calm_event; rewrite E; unfold advance; destruct (_ && _) eqn:Ek; simpl; auto.
  apply andb_true_iff in Ek as [Ek%Nat.eqb_eq _]. lia.
Qed.
Lemma calm_read s r v : rd_calm r = true → calm b s (s <| xs_history := XRead r v :: xs_history s |>).
Proof.
  intros Hr. destruct r; try (apply calm_event; simpl; auto; done).
  - simpl in Hr. apply Nat.ltb_lt in Hr.
    apply calm_event; simpl; unfold see_data; (destruct (nm_seq (mon_of s) =? WT_NOR_SEQ_RDSR);
      [unfold advance; destruct ((_ =? _)%nat && _) eqn:E|destruct (_ && _ && _)]); simpl; auto; try lia.
    apply andb_true_iff in E as [E%Nat.eqb_eq _]. simpl in E. lia.
  - simpl in Hr. apply Nat.ltb_lt in Hr. apply calm_event; simpl; auto; lia.
  - unfold see_errstat in *. destruct (nm_stage (mon_of s) =? 0)%nat eqn:E; eapply calm_advance; simpl; unfold see_errstat; by rewrite E.
  - apply calm_event; simpl; unfold see_flushed; destruct (_ && _) eqn:E; simpl; auto.
    apply andb_true_iff in E as [E%Nat.eqb_eq _]. lia.
Qed.
Lemma calm_write s r v : wr_calm r = true → calm b s (s <| xs_history := XWrite r v :: xs_history s |>).
Proof.
  intros Hr. destruct r; try done; try (apply calm_event; simpl; auto; done); [| |by eapply calm_advance];
    simpl in Hr; apply Nat.ltb_lt in Hr; apply calm_event; simpl; auto; lia.
Qed.

#[global] Instance calmly_rd {R} r : TCEq (rd_calm r) true → Calmly (R := R) (WT_XSPI_RD r).
Proof. intros Hr%TCEq_eq s. by apply wp_bind, wp_gets, wp_bind, wp_modify, wp_ret, calm_read. Qed.
#[global] Instance calmly_wr {R} r v : TCEq (wr_calm r) true → Calmly (R := R) (WT_XSPI_WR r v).
Proof. intros Hr%TCEq_eq s. by apply wp_modify, calm_write. Qed.
#[global] Instance calmly_set {R} r bits : TCEq (rd_calm r) true → TCEq (wr_calm r) true → Calmly (R := R) (WT_XSPI_SET r bits).
Proof. intros ??. unfold WT_XSPI_SET. apply _. Qed.
#[global] Instance calmly_clr {R} r bits : TCEq (rd_calm r) true → TCEq (wr_calm r) true → Calmly (R := R) (WT_XSPI_CLR r bits).
Proof. intros ??. unfold WT_XSPI_CLR. apply _. Qed.
#[global] Instance calmly_bits {R} r bits : TCEq (rd_calm r) true → Calmly (R := R) (bits_set r bits).
Proof. intros ?. unfold bits_set. apply _. Qed.
#[global] Instance calmly_poll {R} t (busy : prog xspi R bool) : Calmly busy → Calmly (poll t busy).
Proof. intros Hb. induction t; simpl; apply _. Qed.
End calm.

#[export] Typeclasses Opaque WT_XSPI_RD WT_XSPI_WR WT_XSPI_SET WT_XSPI_CLR bits_set poll expired claim_loop arbitrate_loop fill_loop and_then
  call fn gets early when for_each wt_xspi_recover wt_xspi_check_error wt_xspi_ip_idle wt_xspi_ip_released check_errstat
  WT_XSPI_POLL_LIMIT WT_XSPI_BUSY_LIMIT.

(** ** Transactions *)

Section transactions.
Context `{XspiDevice}.

#[local] Instance recover_calm b : CalmFn b wt_xspi_recover.
Proof. unfold wt_xspi_recover. apply _. Qed.
#[local] Instance check_error_calm b err : CalmFn b (wt_xspi_check_error err).
Proof. unfold wt_xspi_check_error. cbv zeta. apply _. Qed.
#[local] Instance expired_calm b t : Calmly b (expired t).
Proof. unfold expired. apply _. Qed.
#[local] Instance claim_calm b t : Calmly b (claim_loop t).
Proof. induction t; cbn [claim_loop]; apply _. Qed.
#[local] Instance arbitrate_calm b t : Calmly b (arbitrate_loop t).
Proof. induction t; cbn [arbitrate_loop]; apply _. Qed.
#[local] Instance ip_idle_calm b : CalmFn b wt_xspi_ip_idle.
Proof. unfold wt_xspi_ip_idle. apply _. Qed.
#[local] Instance ip_released_calm b : CalmFn b wt_xspi_ip_released.
Proof. unfold wt_xspi_ip_released. apply _. Qed.
#[local] Instance check_errstat_calm b : CalmFn b check_errstat.
Proof. unfold check_errstat. apply _. Qed.
#[local] Instance and_then_calm {R} b rc f : CalmFn b f → Calmly (R := R) b (and_then rc f).
Proof. intros Hf. unfold and_then. apply _. Qed.
#[local] Instance fill_calm b t : Calmly b (fill_loop t).
Proof. induction t; cbn [fill_loop]; apply _. Qed.

(** *** Starting a command *)

Lemma wp_rd {R} r (E : R → xspi → Prop) (Q : Z → xspi → Prop) s :
  (∀ v, Q v (s <| xs_history := XRead r v :: xs_history s |>)) → wp (WT_XSPI_RD r) E Q s.
Proof. intros HQ. apply wp_bind, wp_gets, wp_bind, wp_modify, wp_ret, HQ. Qed.
Lemma wp_set {R} r bits (E : R → xspi → Prop) (Q : unit → xspi → Prop) s : (∀ s', Q tt s') → wp (WT_XSPI_SET r bits) E Q s.
Proof. intros HQ. apply wp_bind, wp_rd. intros v. apply wp_modify, HQ. Qed.
Lemma wp_clr {R} r bits (E : R → xspi → Prop) (Q : unit → xspi → Prop) s : (∀ s', Q tt s') → wp (WT_XSPI_CLR r bits) E Q s.
Proof. intros HQ. apply wp_bind, wp_rd. intros v. apply wp_modify, HQ. Qed.
Lemma wp_conj {S R A} (p : prog S R A) (E1 E2 : R → S → Prop) (Q1 Q2 : A → S → Prop) s :
  wp p E1 Q1 s → wp p E2 Q2 s → wp p (λ r s', E1 r s' ∧ E2 r s') (λ a s', Q1 a s' ∧ Q2 a s') s.
Proof. unfold wp. destruct (p s) as [[s' [?|?]]|]; auto. Qed.
Lemma wp_calm b {R A} (p : prog xspi R A) (E : R → xspi → Prop) (Q : A → xspi → Prop) s : Calmly b p →
  wp p (λ r s', calm b s s' → E r s') (λ a s', calm b s s' → Q a s') s → wp p E Q s.
Proof.
  intros Hp Hw. eapply wp_mono; [apply (wp_conj p); [apply (Hp s)|exact Hw]| |]; intros ?? []; auto.
Qed.
Lemma fwp_calm b {A} (f : func xspi A) (Q : A → xspi → Prop) s : CalmFn b f →
  fwp f (λ a s', calm b s s' → Q a s') s → fwp f Q s.
Proof. intros Hf Hw. eapply fwp_mono; [apply fwp_conj; [apply (Hf s)|exact Hw]|]. intros ?? []; auto. Qed.

(** A body without an early return. *)
Class Straight {R A} (p : prog xspi R A) : Prop := straight s : wp p (λ _ _, False) (λ _ _, True) s.
#[local] Instance straight_ret {R A} (a : A) : Straight (R := R) (mret a).
Proof. by intros s. Qed.
#[local] Instance straight_bind {R A B} (p : prog xspi R A) (k : A → prog xspi R B) :
  Straight p → (∀ a, Straight (k a)) → Straight (p ≫= k).
Proof. intros Hp Hk s. apply wp_bind. eapply wp_mono; [apply Hp|done|]. intros a s' _. apply Hk. Qed.
#[local] Instance straight_if {R A} (c : bool) (p q : prog xspi R A) : Straight p → Straight q → Straight (if c then p else q).
Proof. by destruct c. Qed.
#[local] Instance straight_when {R} (c : bool) (p : prog xspi R unit) : Straight p → Straight (when c p).
Proof. intros Hp. destruct c; [done|apply straight_ret]. Qed.
#[local] Instance straight_rd {R} r : Straight (R := R) (WT_XSPI_RD r).
Proof. intros s. by apply wp_rd. Qed.
#[local] Instance straight_wr {R} r v : Straight (R := R) (WT_XSPI_WR r v).
Proof. by intros s. Qed.
#[local] Instance straight_set {R} r v : Straight (R := R) (WT_XSPI_SET r v).
Proof. intros s. by apply wp_set. Qed.
#[local] Instance straight_clr {R} r v : Straight (R := R) (WT_XSPI_CLR r v).
Proof. intros s. by apply wp_clr. Qed.
#[local] Instance straight_bits {R} r bits : Straight (R := R) (bits_set r bits).
Proof. unfold bits_set. apply _. Qed.
#[local] Instance straight_poll {R} t (busy : prog xspi R bool) : Straight busy → Straight (poll t busy).
Proof. intros Hb. induction t; cbn [poll]; apply _. Qed.
#[local] Instance straight_call {R A} (f : func xspi A) : CalmFn 0 f → Straight (R := R) (call f).
Proof. intros Hf s. apply wp_call. eapply fwp_mono; [apply Hf|done]. Qed.
Lemma wp_quiet b {R A} (p : prog xspi R A) s0 s (E : R → xspi → Prop) (Q : A → xspi → Prop) :
  Calmly b p → Straight p → calm b s0 s → (∀ a s', calm b s0 s' → Q a s') → wp p E Q s.
Proof.
  intros Hc Hp Hs HQ. eapply wp_mono; [apply (wp_conj p); [apply Hp|apply (Hc s)]|by intros ?? []|].
  intros a s' [_ Hs']. apply HQ. by etrans.
Qed.

Lemma recover_fails s : fwp wt_xspi_recover (λ rc _, rc ≠ WT_XSPI_NOR_OK) s.
Proof.
  apply fwp_fn. unfold wt_xspi_recover. do 6 (apply wp_bind; first [apply wp_set|apply wp_clr]; intros ?).
  apply wp_bind, wp_rd. intros v. by apply wp_bind, wp_modify, wp_ret.
Qed.
Lemma expired_ok t s (E : Z → xspi → Prop) (Q : unit → xspi → Prop) :
  (∀ rc s', rc ≠ WT_XSPI_NOR_OK → calm 2 s s' → E rc s') → ((t ≠ 0)%nat → Q tt s) → wp (expired t) E Q s.
Proof.
  intros HE HQ. apply (wp_calm 2); [apply _|]. apply wp_when; intros Et.
  - apply wp_bind, wp_call. eapply fwp_mono; [apply recover_fails|]. intros rc s' Hrc. apply wp_early. auto.
  - apply Nat.eqb_neq in Et. auto.
Qed.
Lemma arbitrate_ok t s : wp (arbitrate_loop t) (λ rc _, rc ≠ WT_XSPI_NOR_OK)
  (λ t' s', (t' ≠ 0)%nat → (1 ≤ nm_stage (mon_of s'))%nat) s.
Proof.
  revert s. induction t as [|t IH]; intros s; cbn [arbitrate_loop]; [by apply wp_ret|].
  apply wp_bind, wp_rd. intros v. apply wp_if; intros Ev.
  - apply wp_ret. intros _. by apply won_stage.
  - apply wp_if; intros _; [|apply IH]. apply wp_bind, wp_call. eapply fwp_mono; [apply (calm_fn 2)|]. intros ? s1 _.
    apply wp_bind, wp_set. intros s2. apply wp_bind, wp_set. intros s3. by apply wp_early.
Qed.
Lemma claim_ok t s : wp (claim_loop t) (λ rc _, rc ≠ WT_XSPI_NOR_OK) (λ _ _, True) s.
Proof.
  revert s. induction t as [|t IH]; intros s; cbn [claim_loop]; apply wp_bind, wp_rd; intros v; cbv zeta;
    (apply wp_if; intros _; [apply wp_bind, wp_set; intros s1; by apply wp_early|]); [done|]. by apply wp_if; intros _; [apply IH|].
Qed.

Definition ipcr (seqid size : Z) : Z := WT_XSPI_IPCR_IDATSZ size .| WT_XSPI_IPCR_SEQID seqid.
Definition command (v : Z) (s : xspi) : xspi := s <| xs_history := XWrite WT_XSPI0_SFP_TG_IPCR v :: xs_history s |>.
Definition prepared (address : Z) (s s1 : xspi) : Prop :=
  calm 1 s s1 ∧ nm_wel (mon_of s1) = nm_wel (mon_of s) ∧ nm_sfar (mon_of s1) = address.
(** The command was not issued, or it was, and has won arbitration if the call
    succeeds. *)
Definition started (address seqid size : Z) (s : xspi) (rc : Z) (s' : xspi) : Prop :=
  (rc ≠ WT_XSPI_NOR_OK ∧ calm 1 s s') ∨
  ∃ s1, prepared address s s1 ∧ calm 2 (command (ipcr seqid size) s1) s' ∧
        (rc = WT_XSPI_NOR_OK → (1 ≤ nm_stage (mon_of s'))%nat).

Lemma ip_start_ok address seqid size s :
  fwp (wt_xspi_ip_start address seqid size) (started address seqid size s) s.
Proof.
  apply fwp_fn. unfold wt_xspi_ip_start.
  assert (∀ rc s', rc ≠ WT_XSPI_NOR_OK → calm 2 s s' → started address seqid size s rc s') as Hleave.
  { intros rc s' Hrc Hs'. left. split; [done|by eapply (calm_level 2); [lia|]]. }
  apply wp_bind. eapply (wp_quiet 2 _ s); [apply _..|done|]. intros err s1 H1.
  apply wp_bind. eapply (wp_quiet 2 _ s); [apply _..|done|]. intros ? s2 H2.
  apply wp_bind. eapply (wp_quiet 2 _ s); [apply _..|done|]. intros t s3 H3.
  apply wp_bind, expired_ok; [intros rc s' Hrc Hs'; apply Hleave; [done|by etrans]|]. intros _.
  apply wp_bind, wp_modify. set (s4 := s3 <| xs_history := _ |>).
  assert (prepared address s s4) as (Hc4 & Hw4 & Ha4).
  { split_and!; [etrans; [by eapply (calm_level 2); [lia|]|by apply calm_write]| |done].
    destruct (ca_still _ _ _ H3 (le_n 2)) as [Hw _]. exact Hw. }
  assert (∀ s5, calm 2 s4 s5 → prepared address s s5) as Hprep.
  { intros s5 H5. destruct (ca_still _ _ _ H5 (le_n 2)) as (Hw & _ & Ha). split_and!; [|congruence..].
    etrans; [exact Hc4|by eapply (calm_level 2); [lia|]]. }
  assert (∀ rc s', rc ≠ WT_XSPI_NOR_OK → calm 2 s4 s' → started address seqid size s rc s') as Hleave4.
  { intros rc s' Hrc Hs'. left. split; [done|apply Hprep, Hs']. }
  apply wp_bind. eapply (wp_quiet 2 _ s4); [apply _..|done|]. intros armed s5 H5.
  apply wp_bind. eapply (wp_quiet 2 _ s4); [apply _..|done|]. intros armed' s6 H6.
  apply wp_bind. eapply (wp_mono _ (λ rc s', rc ≠ WT_XSPI_NOR_OK ∧ calm 2 s4 s') _ (λ _, calm 2 s4)).
  { apply wp_when; intros _; [|done]. apply wp_bind, (wp_calm 2); [apply _|].
    eapply wp_mono; [apply claim_ok|intros rc s' Hrc Hs'; split; [done|by etrans]|]. intros t' s7 _ H7.
    apply expired_ok; [intros rc s' Hrc Hs'; split; [done|etrans; [exact H6|by etrans]]|]. intros _. by etrans. }
  { intros rc s' [Hrc Hs']. by apply Hleave4. }
  intros _ s7 H7. apply wp_bind, wp_modify. fold (ipcr seqid size). fold (command (ipcr seqid size) s7).
  assert (∀ rc s', rc ≠ WT_XSPI_NOR_OK → calm 2 (command (ipcr seqid size) s7) s' → started address seqid size s rc s') as Hleave8.
  { intros rc s' Hrc Hs'. right. exists s7. split_and!; [by apply Hprep|done|done]. }
  apply wp_bind, (wp_calm 2); [apply _|]. eapply wp_mono; [apply arbitrate_ok|by intros rc s' ? ?; apply Hleave8|].
  intros t' s9 Ht H9. apply wp_bind, expired_ok; [intros rc s' Hrc Hs'; apply Hleave8; [done|by etrans]|]. intros Ht'.
  apply wp_bind, wp_modify, wp_ret. right. exists s7. split_and!; [by apply Hprep|etrans; [exact H9|by apply calm_write]|].
  intros _. exact (Ht Ht').
Qed.

(** *** Commands that change nothing *)

Lemma ipcr_seq seqid size : 0 ≤ seqid < 16 → (ipcr seqid size .>> 24) .& 0xF = seqid.
Proof.
  intros Hq. unfold ipcr, WT_XSPI_IPCR_IDATSZ, WT_XSPI_IPCR_SEQID. change 0xF with (Z.ones 4). change 0xFFFF with (Z.ones 16).
  rewrite !Z.land_ones by lia. rewrite Z.lor_comm, (Z.mod_small seqid) by lia.
  pose proof (Z.mod_pos_bound size (2 ^ 16) ltac:(lia)).
  rewrite lor_shiftl_add by lia. rewrite Z.shiftr_div_pow2 by lia. rewrite Z.div_add_l by lia.
  rewrite (Z.div_small (size mod _)) by lia. rewrite Z.add_0_r. by apply Z.mod_small.
Qed.
Lemma ipcr_size seqid size : 0 ≤ seqid < 16 → 0 ≤ size < 65536 → ipcr seqid size .& 0xFFFF = size.
Proof.
  intros Hq Hn. unfold ipcr, WT_XSPI_IPCR_IDATSZ, WT_XSPI_IPCR_SEQID. change 0xF with (Z.ones 4). change 0xFFFF with (Z.ones 16).
  rewrite !Z.land_ones by lia. rewrite Z.lor_comm, (Z.mod_small seqid), (Z.mod_small size) by lia.
  rewrite lor_shiftl_add by lia. change (2 ^ 24) with (2 ^ 8 * 2 ^ 16). rewrite Z.mul_assoc, Z.add_comm, Z.mod_add by lia. by apply Z.mod_small.
Qed.
Definition harmless (seqid : Z) : Prop := 0 ≤ seqid < 16 ∧ seqid ≠ WT_NOR_SEQ_SE ∧ seqid ≠ WT_NOR_SEQ_PP.
Lemma command_calm seqid size s : harmless seqid →
  calm 1 s (command (ipcr seqid size) s) ∧ nm_seq (mon_of (command (ipcr seqid size) s)) = seqid.
Proof.
  intros (Hq & Hse & Hpp).
  assert (mon_step (XWrite WT_XSPI0_SFP_TG_IPCR (ipcr seqid size)) (mon_of s) = mon_of s <| nm_seq := seqid |>) as E.
  { cbn [mon_step]. unfold see_command. cbv zeta. rewrite ipcr_seq by done. simpl.
    rewrite (proj2 (Z.eqb_neq _ _) Hse), (proj2 (Z.eqb_neq _ _) Hpp). done. }
  split; [apply calm_event; rewrite E; simpl; auto; lia|].
  change (mon_of (command (ipcr seqid size) s)) with (mon_step (XWrite WT_XSPI0_SFP_TG_IPCR (ipcr seqid size)) (mon_of s)).
  by rewrite E.
Qed.
Lemma harmless_start address seqid size s : harmless seqid →
  fwp (wt_xspi_ip_start address seqid size) (λ rc s', calm 1 s s' ∧ (rc = WT_XSPI_NOR_OK → nm_seq (mon_of s') = seqid)) s.
Proof.
  intros Hq. eapply fwp_mono; [apply ip_start_ok|]. intros rc s' [[Hrc Hs']|(s1 & (Hs1 & _) & Hs' & _)]; [done|].
  destruct (command_calm seqid size s1 Hq) as [Hc Hseq]. split.
  - etrans; [exact Hs1|]. etrans; [exact Hc|]. by eapply (calm_level 2); [lia|].
  - intros _. by rewrite (proj1 (proj2 (ca_still _ _ _ Hs' (le_n 2)))).
Qed.

(** *** Device registers *)

(** A register was read: the events end with its data, and what follows prepares
    nothing. *)
Definition read_done (seqid : Z) (s : xspi) (word : Z) (s' : xspi) : Prop :=
  ∃ s1, calm 1 s s1 ∧ nm_seq (mon_of s1) = seqid ∧
        calm 2 (s1 <| xs_history := XRead WT_XSPI0_RBDR0 word :: xs_history s1 |>) s'.
Definition read_post (seqid : Z) (s : xspi) (r : Z * Z) (s' : xspi) : Prop :=
  calm 1 s s' ∧ (r.1 = WT_XSPI_NOR_OK → read_done seqid s r.2 s').
Lemma fill_ok t s : wp (fill_loop t) (λ r _, r.1 ≠ WT_XSPI_NOR_OK) (λ _ _, True) s.
Proof.
  revert s. induction t as [|t IH]; intros s; cbn [fill_loop];
    (apply wp_bind; eapply (wp_quiet 2 _ s); [apply _..|done|]; intros ready s1 _; apply wp_if; intros _; [|done]); [done|].
  apply wp_bind; eapply (wp_quiet 2 _ s1); [apply _..|done|]. intros timeout s2 _. apply wp_if; intros _; [|apply IH].
  apply wp_bind, wp_set. intros s3. apply wp_bind, wp_modify, wp_bind, wp_call. eapply fwp_mono; [apply recover_fails|].
  intros rc s4 Hrc. by apply wp_early.
Qed.

Lemma read_word_ok address seqid size s : harmless seqid →
  fwp (wt_xspi_ip_read_word address seqid size) (read_post seqid s) s.
Proof.
  intros Hq. apply fwp_fn. unfold wt_xspi_ip_read_word.
  apply wp_bind. eapply (wp_quiet 1 _ s); [apply _..|done|]. intros _ s1 H1.
  apply wp_bind. eapply (wp_quiet 1 _ s); [apply _..|done|]. intros acc s2 H2. apply wp_if; intros _; [by apply wp_ret|].
  apply wp_bind. eapply (wp_quiet 1 _ s); [apply _..|done|]. intros _ s3 H3.
  apply wp_bind, wp_call. eapply fwp_mono; [by apply harmless_start|]. intros rc s4 [H4 Hseq4].
  assert (calm 1 s s4) as H4' by (by etrans). apply wp_if; intros E4; [apply negb_true_iff, Z.eqb_neq in E4; by apply wp_ret|].
  apply negb_false_iff, Z.eqb_eq in E4. specialize (Hseq4 E4). clear rc E4 H4.
  assert (∀ s5, calm 2 s4 s5 → calm 1 s s5) as Hto.
  { intros s5 H5. etrans; [exact H4'|]. by eapply (calm_level 2); [lia|]. }
  assert (∀ (s5 : xspi) (rc : Z), calm 2 s4 s5 → rc ≠ WT_XSPI_NOR_OK →
    wp (WT_XSPI_SET WT_XSPI0_MCR WT_XSPI_MCR_CLR_RXF;; mret (rc, 0)) (read_post seqid s) (read_post seqid s) s5) as Hclear.
  { intros s5 rc H5 Hrc. apply wp_bind. eapply (wp_quiet 2 _ s4); [apply _..|done|]. intros _ s6 H6. apply wp_ret. split; [auto|done]. }
  assert (∀ s5, calm 2 s4 s5 → wp (rc ← call wt_xspi_recover; mret (rc, 0)) (read_post seqid s) (read_post seqid s) s5) as Hrecover.
  { intros s5 H5. apply wp_bind, wp_call, (fwp_calm 2); [apply _|]. eapply fwp_mono; [apply recover_fails|].
    intros rc s6 Hrc H6. apply wp_ret. split; [apply Hto; by etrans|done]. }
  apply wp_bind. eapply (wp_quiet 2 _ s4); [apply _..|done|]. intros valid s5 H5. apply wp_if; intros _; [by apply Hclear|].
  apply wp_bind. eapply (wp_quiet 2 _ s4); [apply _..|done|]. intros t s6 H6. apply wp_if; intros _; [by apply Hrecover|].
  apply wp_bind, (wp_calm 2); [apply _|]. eapply wp_mono; [apply fill_ok| |].
  { intros r s7 Hrc H7. split; [apply Hto; exact (transitivity H6 H7)|intros Hr; by destruct (Hrc Hr)]. }
  intros t' s7 _ H7'. assert (calm 2 s4 s7) as H7 by (by etrans). clear H7'. apply wp_if; intros _; [by apply Hrecover|].
  apply wp_bind. eapply (wp_quiet 2 _ s4); [apply _..|done|]. intros filled s8 H8. apply wp_if; intros _; [by apply Hclear|].
  apply wp_bind. eapply (wp_quiet 2 _ s4); [apply _..|done|]. intros rc s9 H9.
  apply wp_if; intros E9; [apply negb_true_iff, Z.eqb_neq in E9; by apply Hclear|].
  apply wp_bind, wp_rd. intros word. set (s10 := s9 <| xs_history := _ |>).
  apply wp_bind. eapply (wp_quiet 2 _ s10); [apply _..|done|]. intros _ s11 H11.
  apply wp_bind. eapply (wp_quiet 2 _ s10); [apply _..|done|]. intros rc' s12 H12. apply wp_ret.
  assert (calm 1 s s10) as H10 by (etrans; [by apply Hto|by apply calm_read]). split.
  - etrans; [exact H10|]. by eapply (calm_level 2); [lia|].
  - intros _. exists s9. split_and!; [by apply Hto| |done]. by rewrite (proj1 (proj2 (ca_still _ _ _ H9 (le_n 2)))).
Qed.

Lemma read_reg_ok seqid s : harmless seqid →
  fwp (wt_nor_read_reg seqid) (λ r s',
    calm 1 s s' ∧ (r.1 = WT_XSPI_NOR_OK → ∃ word, r.2 = word .& 0xFF ∧ read_done seqid s word s')) s.
Proof.
  intros Hq. apply fwp_fn, wp_bind, wp_call. eapply fwp_mono; [by apply read_word_ok|]. intros [rc word] s' [Hs' Hr].
  apply wp_ret. split; [done|]. intros E. exists word. auto.
Qed.
Lemma has_any_low a bits : bits .& 0xFF = bits → has_any (a .& 0xFF) bits = has_any a bits.
Proof. intros Hb. unfold has_any. by rewrite <-Z.land_assoc, (Z.land_comm 0xFF), Hb. Qed.

(** What a status read shows of the newest change. *)
Lemma status_seen s word s' : read_done WT_NOR_SEQ_RDSR s word s' →
  nm_wel (mon_of s') = has_any word WT_NOR_SR_WEL ∧
  (has_any word WT_NOR_SR_WIP = false → (2 ≤ nm_stage (mon_of s))%nat → (3 ≤ nm_stage (mon_of s'))%nat).
Proof.
  intros (s1 & H1 & Hseq & H2). pose proof (ca_stage _ _ _ H1) as Hst1. pose proof (ca_stage _ _ _ H2) as Hst2. split.
  - rewrite (proj1 (ca_still _ _ _ H2 (le_n 2))). by apply wel_seen.
  - intros Hw Hs. pose proof (idle_stage word (mon_of s1) Hseq Hw ltac:(lia)) as Hi. etrans; [exact Hi|exact Hst2].
Qed.
Lemma failure_seen s word s' : read_done WT_NOR_SEQ_RDSCUR s word s' →
  has_any word WT_NOR_SCUR_EFAIL = false → (3 ≤ nm_stage (mon_of s))%nat → nm_clean (mon_of s') = true.
Proof.
  intros (s1 & H1 & Hseq & H2) Hw Hs. pose proof (ca_stage _ _ _ H1). apply (ca_clean _ _ _ H2). apply (clean_seen word (mon_of s1)); [done|done|lia].
Qed.

Lemma rdsr_harmless : harmless WT_NOR_SEQ_RDSR. Proof. by split. Qed.
Lemma wren_harmless : harmless WT_NOR_SEQ_WREN. Proof. by split. Qed.
Lemma rdscur_harmless : harmless WT_NOR_SEQ_RDSCUR. Proof. by split. Qed.

(** [rc]: what holds anyway, and what holds after a success. *)
Definition linked (D F : xspi → Prop) (rc : Z) (s : xspi) : Prop := D s ∧ (rc = WT_XSPI_NOR_OK → F s).
Lemma wp_link {R} (D F F' : xspi → Prop) rc f (E : R → xspi → Prop) Q s :
  linked D F rc s → (D s → F s → fwp f (linked D F') s) → (∀ rc' s', linked D F' rc' s' → Q rc' s') → wp (and_then rc f) E Q s.
Proof.
  intros [HD HF] Hf HQ. unfold and_then. apply wp_if; intros E1.
  - apply Z.eqb_eq in E1. apply wp_call. eapply fwp_mono; [by apply Hf; auto|done].
  - apply Z.eqb_neq in E1. apply wp_ret, HQ. by split.
Qed.

Lemma wait_ready_ok s : fwp wt_nor_wait_ready
  (linked (calm 1 s) (λ s', (2 ≤ nm_stage (mon_of s))%nat → (3 ≤ nm_stage (mon_of s'))%nat)) s.
Proof.
  apply fwp_fn. unfold wt_nor_wait_ready. generalize WT_XSPI_BUSY_LIMIT. intros t.
  assert (∀ s0, calm 1 s s0 → wp (ready_loop t)
    (linked (calm 1 s) (λ s', (2 ≤ nm_stage (mon_of s))%nat → (3 ≤ nm_stage (mon_of s'))%nat))
    (linked (calm 1 s) (λ s', (2 ≤ nm_stage (mon_of s))%nat → (3 ≤ nm_stage (mon_of s'))%nat)) s0) as Hl; [|by apply Hl].
  induction t as [|t IH]; intros s0 H0; cbn [ready_loop]; [by apply wp_ret; split|].
  apply wp_bind, wp_call. eapply fwp_mono; [apply read_reg_ok, rdsr_harmless|]. intros [rc sr] s1 [H1 Hr].
  assert (calm 1 s s1) by (by etrans). apply wp_if; intros E1; [apply negb_true_iff, Z.eqb_neq in E1; by apply wp_ret; split|].
  apply negb_false_iff, Z.eqb_eq in E1. destruct (Hr E1) as (word & Hsr & Hd). simpl in Hsr. subst sr.
  apply wp_if; intros E2; [by apply IH|]. rewrite has_any_low in E2 by done. apply wp_ret. split; [done|]. intros _ Hs.
  apply (proj2 (status_seen _ _ _ Hd)); [done|]. pose proof (ca_stage _ _ _ H0). lia.
Qed.
Lemma command_harmless address seqid s : harmless seqid → fwp (wt_xspi_ip_command address seqid) (λ _, calm 1 s) s.
Proof.
  intros Hq. apply fwp_fn, wp_bind, wp_call. eapply fwp_mono; [by apply harmless_start|]. intros rc s1 [H1 _].
  eapply (calmly_after 1); [apply _|exact H1|done|done].
Qed.
Lemma write_enable_ok address s : fwp (wt_nor_write_enable address) (linked (calm 1 s) (λ s', nm_wel (mon_of s') = true)) s.
Proof.
  apply fwp_fn, wp_bind, wp_call. eapply fwp_mono; [apply command_harmless, wren_harmless|]. intros rc s1 H1.
  apply wp_if; intros E1; [apply negb_true_iff, Z.eqb_neq in E1; by apply wp_ret; split|].
  apply wp_bind, wp_call. eapply fwp_mono; [apply read_reg_ok, rdsr_harmless|]. intros [rc' sr] s2 [H2 Hr]. apply wp_ret.
  split; [exact (transitivity H1 H2)|]. destruct (rc' =? WT_XSPI_NOR_OK) eqn:E2; [|by intros Hrc; apply Z.eqb_neq in E2]. apply Z.eqb_eq in E2. subst rc'.
  destruct (Hr eq_refl) as (word & Hsr & Hd). simpl in Hsr. subst sr. rewrite has_any_low by done.
  rewrite (proj1 (status_seen _ _ _ Hd)). by destruct (has_any word WT_NOR_SR_WEL).
Qed.
Lemma check_fail_ok mask s : fwp (wt_nor_check_fail mask)
  (linked (calm 1 s) (λ s', mask = WT_NOR_SCUR_EFAIL → (3 ≤ nm_stage (mon_of s))%nat → nm_clean (mon_of s') = true)) s.
Proof.
  apply fwp_fn, wp_bind, wp_call. eapply fwp_mono; [apply read_reg_ok, rdscur_harmless|]. intros [rc scur] s1 [H1 Hr].
  apply wp_ret. split; [done|]. destruct (rc =? WT_XSPI_NOR_OK) eqn:E2; [|by intros Hrc; apply Z.eqb_neq in E2]. apply Z.eqb_eq in E2. subst rc.
  destruct (Hr eq_refl) as (word & Hsr & Hd). simpl in Hsr. subst scur. intros Hm ->. rewrite has_any_low in Hm by done.
  destruct (has_any word WT_NOR_SCUR_EFAIL) eqn:Ew; [done|]. by eapply failure_seen.
Qed.

(** *** Commands that change the array *)

(** At most the change [c] was issued. *)
Record did (c : nor_change) (s s' : xspi) : Prop := {
  di_page : g_wt_xspi_page s' = g_wt_xspi_page s;
  di_changes : nm_changes (mon_of s') = nm_changes (mon_of s) ∨ nm_changes (mon_of s') = c :: nm_changes (mon_of s);
  di_open x : x ∈ nm_open (mon_of s') → x = c ∨ x ∈ nm_open (mon_of s);
  di_ext (A : nor_change → Prop) : A c → (∀ x, x ∈ nm_open (mon_of s) → A x) → ext A (xs_history s) (xs_history s');
}.
Lemma calm_did b c s s' : calm b s s' → did c s s'.
Proof. intros []. split; auto. Qed.
Lemma did_calm b c s s1 s2 : did c s s1 → calm b s1 s2 → did c s s2.
Proof.
  intros [] []. split; [congruence|rewrite ca_changes0; auto|auto|]. intros A Hc HA. eapply ext_trans; [by apply di_ext0|].
  apply ca_ext0. intros x Hx. destruct (di_open0 x Hx) as [->|?]; auto.
Qed.
Lemma calm_then_did b c s s1 s2 : calm b s s1 → did c s1 s2 → did c s s2.
Proof.
  intros [] []. split; [congruence|rewrite <-ca_changes0; auto|intros x Hx; destruct (di_open0 x Hx); auto|].
  intros A Hc HA. eapply ext_trans; [by apply ca_ext0|]. apply di_ext0; auto.
Qed.

(** The command [c] as the controller sees it. *)
Definition starts (seqid size address : Z) (c : nor_change) : Prop :=
  seqid = WT_NOR_SEQ_SE ∧ c = NorErase address ∨
  seqid = WT_NOR_SEQ_PP ∧ c = NorProgram address size ∧ 0 ≤ size < 65536.
Lemma starts_issue seqid size address c m : starts seqid size address c → nm_sfar m = address →
  see_command (ipcr seqid size) m = issue c (m <| nm_seq := seqid |>).
Proof.
  intros [[-> ->]|(-> & -> & Hn)] <-; unfold see_command; cbv zeta; rewrite ipcr_seq by done; [done|].
  simpl. rewrite ipcr_size by done. done.
Qed.
Definition pending_change (c : nor_change) (s s' : xspi) : Prop :=
  nm_changes (mon_of s') = c :: nm_changes (mon_of s) ∧
  nm_accepted (mon_of s') = nm_wel (mon_of s) && lut_ok (nm_lut (mon_of s)).
Lemma pending_calm b c s s1 s2 : pending_change c s s1 → calm b s1 s2 → pending_change c s s2.
Proof. intros [H1 H2] []. split; congruence. Qed.

Lemma start_change address seqid size c s : starts seqid size address c →
  fwp (wt_xspi_ip_start address seqid size)
    (linked (did c s) (λ s', pending_change c s s' ∧ (1 ≤ nm_stage (mon_of s'))%nat)) s.
Proof.
  intros Hc. eapply fwp_mono; [apply ip_start_ok|].
  intros rc s' [[Hrc Hs']|(s1 & (H1 & Hw & Ha) & H2 & Hst)]; [by split; [eapply calm_did|]|].
  set (s2 := command (ipcr seqid size) s1) in *.
  assert (mon_of s2 = issue c (mon_of s1 <| nm_seq := seqid |>)) as E by by apply (starts_issue _ _ address).
  assert (did c s s2) as Hd.
  { eapply calm_then_did; [exact H1|]. split; [done|rewrite E; by right|rewrite E; simpl; set_solver|].
    intros A HA Ho. constructor; [constructor|]. change (mon (_ :: xs_history s1)) with (mon_of s2). rewrite E. simpl. set_solver. }
  assert (pending_change c s s2) as Hp.
  { split; rewrite E; simpl; [by rewrite (ca_changes _ _ _ H1)|]. by rewrite Hw, (ca_lut _ _ _ H1). }
  split; [by eapply did_calm|]. intros Hrc. split; [by eapply pending_calm|auto].
Qed.

Lemma check_errstat_ok s : fwp check_errstat
  (linked (calm 2 s) (λ s', (1 ≤ nm_stage (mon_of s))%nat → (2 ≤ nm_stage (mon_of s'))%nat)) s.
Proof.
  apply (fwp_calm 2); [apply _|]. apply fwp_fn, wp_bind, wp_rd. intros v. apply wp_call, fwp_fn. unfold wt_xspi_check_error. cbv zeta.
  apply wp_if; intros Ev.
  - apply wp_ret. intros Hc. split; [done|]. intros _ Hs. apply (clear_stage v (mon_of s)); [|done].
    unfold has_any. by rewrite Ev.
  - set (s1 := s <| xs_history := _ |>).
    apply wp_bind. eapply (wp_quiet 2 _ s1); [apply _..|done|]. intros _ s2 _.
    apply wp_bind. eapply (wp_quiet 2 _ s2); [apply _..|done|]. intros _ s3 _.
    apply wp_bind, wp_set. intros s4. apply wp_bind, wp_modify, wp_ret. intros Hc. by split.
Qed.

(** The change is under way, at stage [k] or later. *)
Definition pend (c : nor_change) (s : xspi) (k : nat) (s' : xspi) : Prop :=
  pending_change c s s' ∧ (k ≤ nm_stage (mon_of s'))%nat.
Lemma pend_step b c s k k' f s1 : did c s s1 → pend c s k s1 →
  fwp f (linked (calm b s1) (λ s', (k ≤ nm_stage (mon_of s1))%nat → (k' ≤ nm_stage (mon_of s'))%nat)) s1 →
  fwp f (linked (did c s) (pend c s k')) s1.
Proof.
  intros Hd [Hp Hk] Hf. eapply fwp_mono; [exact Hf|]. intros rc s2 [H2 Hs]. split; [exact (did_calm _ _ _ _ _ Hd H2)|].
  intros Hrc. split; [exact (pending_calm _ _ _ _ _ Hp H2)|auto].
Qed.
Lemma pend_keep b c s k f s1 : CalmFn b f → did c s s1 → pend c s k s1 → fwp f (linked (did c s) (pend c s k)) s1.
Proof.
  intros Hf Hd Hp. apply (pend_step b _ _ k); [done|done|]. eapply fwp_mono; [apply Hf|]. intros rc s2 H2. split; [done|].
  intros _ Hk. etrans; [exact Hk|exact (ca_stage _ _ _ H2)].
Qed.

Lemma erase_command_ok address s :
  fwp (wt_xspi_ip_command address WT_NOR_SEQ_SE)
    (linked (did (NorErase address) s) (pend (NorErase address) s 2)) s.
Proof.
  set (c := NorErase address). apply fwp_fn, wp_bind, wp_call. eapply fwp_mono; [by apply (start_change _ _ _ c); left|].
  intros rc1 s1 H1. apply wp_bind. eapply (wp_link _ _ (pend c s 1)); [exact H1|by intros; apply (pend_keep 2); [apply _|..]|].
  intros rc2 s2 H2. apply wp_bind. eapply (wp_link _ _ (pend c s 2)); [exact H2| |].
  { intros Hd Hp. by eapply pend_step; [..|apply check_errstat_ok]. }
  intros rc3 s3 H3. eapply wp_link; [exact H3| |by auto]. intros. by apply (pend_keep 2); [apply _|..].
Qed.

(** The loop that fills the transmit buffer. *)
Lemma send_words_ok size s : size ≤ Z.of_nat (length (g_wt_xspi_page s)) →
  wp (for_each (seq 0 (Z.to_nat (size / 4))) (λ i,
      t ← poll WT_XSPI_POLL_LIMIT (bits_set WT_XSPI0_SR WT_XSPI_SR_TXFULL);
      expired t;;
      page ← gets g_wt_xspi_page;
      word ← defined (buf_read page (4 * Z.of_nat i) 4);
      WT_XSPI_WR WT_XSPI0_TBDR (of_le word)))
    (λ rc s', rc ≠ WT_XSPI_NOR_OK ∧ calm 2 s s') (λ _, calm 2 s) s.
Proof.
  intros Hpage. apply (wp_for_inv _ _ (calm 2 s)); [done| |done]. intros i s6 Hi H6.
  apply elem_of_seq in Hi. apply wp_bind. eapply (wp_quiet 2 _ s); [apply _..|done|]. intros t' s7 H7.
  apply wp_bind, expired_ok; [intros rc s' Hrc Hs'; split; [done|exact (transitivity H7 Hs')]|]. intros _.
  apply wp_bind, wp_gets, wp_bind. rewrite (ca_page _ _ _ H7).
  destruct (buf_read_spec (g_wt_xspi_page s) (4 * Z.of_nat i) 4) as (word & Ew & _); [lia|lia| |].
  { pose proof (Z.mul_div_le size 4). lia. }
  apply (wp_defined _ word); [done|]. eapply (wp_quiet 2 _ s); [apply _..|exact H7|]. by intros _ s8 H8.
Qed.
Lemma page_write_ok address size s :
  0 ≤ size < 65536 → size ≤ Z.of_nat (length (g_wt_xspi_page s)) →
  fwp (wt_xspi_ip_write address WT_NOR_SEQ_PP size)
    (linked (did (NorProgram address size) s) (pend (NorProgram address size) s 2)) s.
Proof.
  intros Hn Hpage. set (c := NorProgram address size). apply fwp_fn. unfold wt_xspi_ip_write. cbv zeta.
  apply wp_bind, wp_call. eapply fwp_mono; [by apply (start_change _ _ _ c); right|].
  intros rc1 s1 [Hd1 Hp1]. apply wp_if; intros E1; [apply negb_true_iff, Z.eqb_neq in E1; by apply wp_ret; split|].
  apply negb_false_iff, Z.eqb_eq in E1. specialize (Hp1 E1).
  assert (∀ rc s', rc ≠ WT_XSPI_NOR_OK → calm 2 s1 s' → linked (did c s) (pend c s 2) rc s') as Hleave.
  { intros rc s' Hrc Hs'. split; [by eapply did_calm|done]. }
  apply wp_bind. eapply (wp_quiet 2 _ s1); [apply _..|done|]. intros _ s2 H2.
  apply wp_bind. eapply (wp_quiet 2 _ s1); [apply _..|done|]. intros t s3 H3.
  apply wp_bind, expired_ok; [intros rc s' Hrc Hs'; apply Hleave; [done|by etrans]|]. intros _.
  apply wp_bind. eapply (wp_quiet 2 _ s1); [apply _..|done|]. intros _ s4 H4.
  apply wp_bind, wp_call. eapply fwp_mono; [apply check_errstat_ok|]. intros rc5 s5 [H5 Hst5].
  assert (calm 2 s1 s5) as Hc5 by (exact (transitivity H4 H5)).
  apply wp_bind. eapply (wp_mono _ (λ rc s', rc ≠ WT_XSPI_NOR_OK ∧ calm 2 s5 s') _ (λ _, calm 2 s5)).
  { apply wp_when; intros _; [|done]. apply send_words_ok. by rewrite (ca_page _ _ _ Hc5), (di_page _ _ _ Hd1). }
  { intros rc s' [Hrc Hs']. apply Hleave; [done|exact (transitivity Hc5 Hs')]. }
  intros _ s6 H6. assert (calm 2 s1 s6) as Hc6 by exact (transitivity Hc5 H6).
  apply wp_if; intros E5; [apply negb_true_iff, Z.eqb_neq in E5; by apply wp_ret, Hleave|].
  apply negb_false_iff, Z.eqb_eq in E5.
  assert (linked (did c s) (pend c s 2) rc5 s6) as H6'.
  { split; [exact (did_calm _ _ _ _ _ Hd1 Hc6)|]. intros _. split; [exact (pending_calm _ _ _ _ _ (proj1 Hp1) Hc6)|].
    pose proof (ca_stage _ _ _ H6). pose proof (ca_stage _ _ _ H4). specialize (Hst5 E5). destruct Hp1 as [_ Hst1]. lia. }
  destruct H6' as [Hd6 Hp6]. specialize (Hp6 E5). apply wp_bind, wp_modify.
  set (s7 := s6 <| xs_history := _ |>). assert (calm 2 s6 s7) as H7 by by apply calm_write.
  assert (pend c s 2 s7) as Hp7.
  { split; [exact (pending_calm _ _ _ _ _ (proj1 Hp6) H7)|]. pose proof (ca_stage _ _ _ H7). destruct Hp6. lia. }
  pose proof (did_calm _ _ _ _ _ Hd6 H7) as Hd7.
  apply wp_bind, wp_call. eapply fwp_mono; [by apply (pend_keep 2 c s 2); [apply _|..]|]. intros rc8 s8 H8.
  apply wp_bind. eapply (wp_link _ _ (pend c s 2)); [exact H8|by intros; apply (pend_keep 2); [apply _|..]|].
  intros rc9 s9 H9. eapply (wp_link _ _ (pend c s 2)); [exact H9|by intros; apply (pend_keep 2); [apply _|..]|by auto].
Qed.

(** *** The read path and the sequences *)

Lemma poll_ok {R} (busy : prog xspi R bool) (Q : xspi → Prop) (P : xspi → Prop) t s (E : R → xspi → Prop) : P s →
  (∀ s, P s → wp busy E (λ b s', P s' ∧ (b = false → Q s')) s) →
  wp (poll t busy) E (λ t' s', P s' ∧ ((t' ≠ 0)%nat → Q s')) s.
Proof.
  intros HP Hb. revert s HP. induction t as [|t IH]; intros s HP; cbn [poll]; apply wp_bind;
    (eapply wp_mono; [by apply Hb|done|]); intros b s' [HP' HQ]; (apply wp_if; intros ->; [|by apply wp_ret; auto]).
  - by apply wp_ret.
  - by apply IH.
Qed.
Lemma go_set v : has_any (v .| (WT_CACHE64_CCR_INVW0 .| WT_CACHE64_CCR_INVW1 .| WT_CACHE64_CCR_GO)) WT_CACHE64_CCR_GO = true.
Proof.
  change WT_CACHE64_CCR_GO with (1 .<< 31). rewrite has_any_bit by lia. rewrite Z.lor_spec. apply orb_true_iff. by right.
Qed.
Lemma flush_ok s : fwp wt_xspi_read_path_flush
  (linked (calm 2 s) (λ s', (3 ≤ nm_stage (mon_of s))%nat → (5 ≤ nm_stage (mon_of s'))%nat)) s.
Proof.
  apply fwp_fn. unfold wt_xspi_read_path_flush. cbv zeta.
  apply wp_bind. eapply (wp_quiet 2 _ s); [apply _..|done|]. intros _ s1 H1.
  apply wp_bind. eapply (wp_quiet 2 _ s); [apply _..|done|]. intros t s2 H2.
  apply wp_bind, wp_bind, wp_rd. intros v. set (s3 := s2 <| xs_history := _ |>). assert (calm 2 s2 s3) as H3 by by apply calm_read.
  apply wp_modify. set (s4 := s3 <| xs_history := _ |>). assert (calm 2 s3 s4) as H4 by by apply calm_write.
  assert ((3 ≤ nm_stage (mon_of s))%nat → (4 ≤ nm_stage (mon_of s4))%nat) as Hs4.
  { intros Hs. pose proof (ca_stage _ _ _ H2). pose proof (ca_stage _ _ _ H3). apply (advance_stage 3 _ (mon_of s3)). right.
    split; [apply go_set|lia]. }
  assert (calm 2 s s4) as Hc4 by exact (transitivity H2 (transitivity H3 H4)).
  apply wp_bind. eapply wp_mono; [apply (poll_ok _ (λ s', (4 ≤ nm_stage (mon_of s4))%nat → (5 ≤ nm_stage (mon_of s'))%nat) (calm 2 s4))|..].
  { done. }
  { intros s5 H5. apply wp_bind, wp_rd. intros v'. apply wp_ret. split; [etrans; [exact H5|by apply calm_read]|].
    intros Hv Hs. apply (flushed_stage v' (mon_of s5)); [done|]. pose proof (ca_stage _ _ _ H5). lia. }
  { done. }
  intros t' s5 [H5 Hst]. apply wp_bind. eapply (wp_quiet 2 _ s5); [apply _..|done|]. intros _ s6 H6. apply wp_ret.
  split; [exact (transitivity Hc4 (transitivity H5 H6))|]. intros Hrc Hs. pose proof (ca_stage _ _ _ H6).
  assert (5 ≤ nm_stage (mon_of s5))%nat; [|lia]. apply Hst; [|auto]. intros ->. by destruct (t =? 0)%nat.
Qed.

(** The entries seen in the controller so far. *)
Definition seen_lut (l : list (Z * Z)) (s : xspi) : Prop := ∀ i w, (i, w) ∈ l → nm_lut (mon_of s) i = Some w.
Lemma lut_entries_nodup : NoDup lut_entries.*1.
Proof. apply (bool_decide_unpack _). vm_compute. exact I. Qed.
Lemma lut_ok_seen s : seen_lut lut_entries s → lut_ok (nm_lut (mon_of s)) = true.
Proof.
  intros Hs. apply forallb_forall. intros [i w] Hin. apply bool_decide_eq_true, Hs. by apply list_elem_of_In.
Qed.
Lemma seen_lut_calm l s s' : calm 1 s s' → seen_lut l s → seen_lut l s'.
Proof. intros Hc Hs i w Hin. rewrite (ca_lut _ _ _ Hc) by lia. by apply Hs. Qed.
Lemma seen_lut_snoc l i w l2 s s' : lut_entries = l ++ (i, w) :: l2 → mon_of s' = see_lut i w (mon_of s) →
  seen_lut l s → seen_lut (l ++ [(i, w)]) s'.
Proof.
  intros Hl E Hs j u Hin. rewrite E. simpl. pose proof lut_entries_nodup as Hnd. rewrite Hl, fmap_app in Hnd. simpl in Hnd.
  apply NoDup_app in Hnd as (_ & Hnd & _). apply elem_of_app in Hin as [Hin|Hin%list_elem_of_singleton].
  - assert (j ≠ i) as Hne; [|by rewrite (proj2 (Z.eqb_neq _ _) Hne); apply Hs].
    intros ->. apply (Hnd i); [|by left]. apply list_elem_of_fmap. by exists (i, u).
  - injection Hin as -> ->. by rewrite Z.eqb_refl.
Qed.

Lemma lut_install_ok s : fwp wt_xspi_lut_install (linked (calm 0 s) (λ s', lut_ok (nm_lut (mon_of s')) = true)) s.
Proof.
  apply fwp_fn. unfold wt_xspi_lut_install. apply wp_bind.
  apply (wp_for_acc _ _ (λ l differ s', calm 0 s s' ∧ (differ = false → seen_lut l s'))).
  { split; [done|]. by intros _ i w Hin%elem_of_nil. }
  { intros l1 [i w] l2 differ s1 Hl [H1 Hseen]. apply wp_bind, wp_rd. intros v. apply wp_ret. split.
    - etrans; [exact H1|by apply calm_read].
    - destruct (v =? w) eqn:Ev; [|done]. apply Z.eqb_eq in Ev. subst v. intros Hd.
      eapply seen_lut_snoc; [exact Hl|reflexivity|auto]. }
  intros differ s1 [H1 Hseen]. apply wp_if; intros E1.
  { apply negb_true_iff in E1. apply wp_ret. split; [done|]. intros _. by apply lut_ok_seen, Hseen. }
  apply wp_bind, wp_call. eapply fwp_mono; [apply (calm_fn 2)|]. intros rc s2 H2.
  assert (calm 0 s s2) as Hc2 by (etrans; [exact H1|by eapply (calm_level 2); [lia|exact H2]]).
  apply wp_if; intros E2; [apply negb_true_iff, Z.eqb_neq in E2; by apply wp_ret|].
  apply wp_bind. eapply (wp_quiet 0 _ s); [apply _..|done|]. intros _ s3 H3.
  apply wp_bind. eapply (wp_quiet 0 _ s); [apply _..|done|]. intros _ s4 H4.
  apply wp_bind, (wp_for_each _ _ (λ l s', calm 0 s s' ∧ seen_lut l s')).
  { split; [done|]. by intros i w Hin%elem_of_nil. }
  { intros l1 [i w] l2 s5 Hl [H5 Hs5]. apply wp_modify. split; [etrans; [exact H5|by apply calm_write]|].
    eapply seen_lut_snoc; [exact Hl|reflexivity|auto]. }
  intros s5 [H5 Hs5]. apply wp_bind. eapply (wp_quiet 1 _ s5); [apply _..|done|]. intros _ s6 H6.
  apply wp_bind. eapply (wp_quiet 1 _ s5); [apply _..|done|]. intros _ s7 H7. apply wp_ret.
  split; [etrans; [exact H5|by eapply (calm_level 1); [lia|]]|]. intros _. apply lut_ok_seen. by eapply seen_lut_calm.
Qed.

(** *** One sector, one page *)

(** What the front part of both operations establishes. *)
Definition enabled (s : xspi) : Prop := nm_wel (mon_of s) && lut_ok (nm_lut (mon_of s)) = true.
Lemma enable_ok {R A} address s (k : Z → prog xspi R A) (E : R → xspi → Prop) (Q : A → xspi → Prop) :
  (∀ rc s', linked (calm 0 s) enabled rc s' → wp (k rc) E Q s') →
  wp (rc ← call wt_xspi_lut_install;
      rc ← and_then rc wt_nor_wait_ready;
      rc ← and_then rc (wt_nor_write_enable address); k rc) E Q s.
Proof.
  intros HQ. apply wp_bind, wp_call. eapply fwp_mono; [apply lut_install_ok|]. intros rc1 s1 H1.
  apply wp_bind. eapply (wp_link _ _ (λ s', lut_ok (nm_lut (mon_of s')) = true)); [exact H1| |].
  { intros Hc Hl. eapply fwp_mono; [apply wait_ready_ok|]. intros rc2 s2 [H2 _].
    split; [etrans; [exact Hc|by eapply (calm_level 1); [lia|]]|]. intros _. by rewrite (ca_lut _ _ _ H2). }
  intros rc2 s2 H2. apply wp_bind. eapply (wp_link _ _ enabled); [exact H2| |done].
  intros Hc Hl. eapply fwp_mono; [apply write_enable_ok|]. intros rc3 s3 [H3 Hw].
  split; [etrans; [exact Hc|by eapply (calm_level 1); [lia|]]|]. intros Hrc. unfold enabled.
  by rewrite (Hw Hrc), (ca_lut _ _ _ H3).
Qed.

(** The change [c] was made: issued, accepted, and its effect is visible. *)
Definition made (c : nor_change) (s s' : xspi) : Prop :=
  nm_changes (mon_of s') = c :: nm_changes (mon_of s) ∧ nm_accepted (mon_of s') = true ∧ nm_stage (mon_of s') = 5%nat.
(** The back part of both operations: [clean] when it checks the erase flag. *)
Lemma complete_ok mask c s0 s rc (Q : Z → xspi → Prop) :
  linked (did c s0) (λ s1, nm_changes (mon_of s1) = c :: nm_changes (mon_of s0) ∧ nm_accepted (mon_of s1) = true ∧
                           (2 ≤ nm_stage (mon_of s1))%nat) rc s →
  (∀ rc' s', linked (did c s0) (λ s1, made c s0 s1 ∧ (mask = WT_NOR_SCUR_EFAIL → nm_clean (mon_of s1) = true)) rc' s' → Q rc' s') →
  wp (rc ← and_then rc wt_nor_wait_ready; rc ← and_then rc (wt_nor_check_fail mask); flushed rc) Q Q s.
Proof.
  intros H0 HQ. set (I (k : nat) (cl : bool) s1 := nm_changes (mon_of s1) = c :: nm_changes (mon_of s0) ∧ nm_accepted (mon_of s1) = true ∧
                           (k ≤ nm_stage (mon_of s1))%nat ∧ (cl = true → mask = WT_NOR_SCUR_EFAIL → nm_clean (mon_of s1) = true)).
  apply wp_bind. eapply (wp_link _ _ (I 3%nat false)); [exact H0| |].
  { intros Hd (Hc & Ha & Hs). eapply fwp_mono; [apply wait_ready_ok|]. intros rc1 s1 [H1 Hst].
    split; [exact (did_calm _ _ _ _ _ Hd H1)|]. intros Hrc. split_and!; [by rewrite (ca_changes _ _ _ H1)|by rewrite (ca_accepted _ _ _ H1)|auto|done]. }
  intros rc1 s1 H1. apply wp_bind. eapply (wp_link _ _ (I 3%nat true)); [exact H1| |].
  { intros Hd (Hc & Ha & Hs & _). eapply fwp_mono; [apply check_fail_ok|]. intros rc2 s2 [H2 Hcl].
    split; [exact (did_calm _ _ _ _ _ Hd H2)|]. intros Hrc. pose proof (ca_stage _ _ _ H2).
    split_and!; [by rewrite (ca_changes _ _ _ H2)|by rewrite (ca_accepted _ _ _ H2)|lia|auto]. }
  intros rc2 s2 [Hd2 H2]. unfold flushed. apply wp_bind, wp_call. eapply fwp_mono; [apply flush_ok|]. intros rc3 s3 [H3 Hst].
  apply wp_ret, HQ. split; [exact (did_calm _ _ _ _ _ Hd2 H3)|]. destruct (rc2 =? WT_XSPI_NOR_OK) eqn:E; [|by apply Z.eqb_neq in E].
  intros Hrc. apply Z.eqb_eq in E. destruct (H2 E) as (Hc & Ha & Hs & Hcl). pose proof (stage_max (xs_history s3)) as Hmax.
  split; [split_and!; [by rewrite (ca_changes _ _ _ H3)|by rewrite (ca_accepted _ _ _ H3)|]|].
  - specialize (Hst Hrc Hs). unfold mon_of in *. lia.
  - intros Hm. apply (ca_clean _ _ _ H3). auto.
Qed.

Lemma change_ok mask c s f address (Q : Z → xspi → Prop) :
  (∀ s1, g_wt_xspi_page s1 = g_wt_xspi_page s → fwp f (linked (did c s1) (pend c s1 2)) s1) →
  (∀ rc' s', linked (did c s) (λ s1, made c s s1 ∧ (mask = WT_NOR_SCUR_EFAIL → nm_clean (mon_of s1) = true)) rc' s' → Q rc' s') →
  wp (rc ← call wt_xspi_lut_install;
      rc ← and_then rc wt_nor_wait_ready;
      rc ← and_then rc (wt_nor_write_enable address);
      rc ← and_then rc f;
      rc ← and_then rc wt_nor_wait_ready; rc ← and_then rc (wt_nor_check_fail mask); flushed rc) Q Q s.
Proof.
  intros Hf HQ. apply enable_ok. intros rc1 s1 [H1 Hen]. apply wp_bind.
  eapply (wp_link (did c s) enabled); [split; [by eapply calm_did|done]| |].
  { intros _ He. eapply fwp_mono; [apply Hf, H1|]. intros rc2 s2 [H2 Hp].
    split; [exact (calm_then_did _ _ _ _ _ H1 H2)|]. intros Hrc. exact (conj He (Hp Hrc)). }
  intros rc2 s2 [Hd2 H2]. eapply (complete_ok mask c s); [|done]. split; [done|]. intros Hrc.
  destruct (H2 Hrc) as (He & (Hc & Ha) & Hs). split_and!; [by rewrite Hc, (ca_changes _ _ _ H1)|by rewrite Ha|done].
Qed.
Lemma erase_sector_ram_ok address s :
  fwp (wt_xspi_nor_erase_sector_ram address)
    (linked (did (NorErase address) s) (λ s', made (NorErase address) s s' ∧ nm_clean (mon_of s') = true)) s.
Proof.
  apply fwp_fn, (change_ok WT_NOR_SCUR_EFAIL (NorErase address)); [intros; apply erase_command_ok|].
  intros rc s' [Hd Hm]. split; [done|]. intros Hrc. destruct (Hm Hrc) as [? Hcl]. auto.
Qed.
Lemma program_page_ok address size s : 0 ≤ size ≤ WT_XSPI_NOR_PAGE → size ≤ Z.of_nat (length (g_wt_xspi_page s)) →
  fwp (wt_xspi_nor_program_ram address size)
    (linked (did (NorProgram address size) s) (made (NorProgram address size) s)) s.
Proof.
  intros Hn Hp. apply fwp_fn, (change_ok WT_NOR_SCUR_PFAIL (NorProgram address size)).
  - intros s1 Hs1. apply page_write_ok; [unfold WT_XSPI_NOR_PAGE in Hn; lia|by rewrite Hs1].
  - intros rc s' [Hd Hm]. split; [done|]. intros Hrc. by apply Hm.
Qed.
End transactions.
