(* ===== verification/NorProps.v ===== *)
(** * Ranges of the NOR flash

    The program and erase operations of [XspiNor] on a range: whatever the
    hardware answers, they issue change commands inside the range only, and only
    if the range lies in a writable window; with a device that obeys
    [NorDevice], an erase that succeeds has erased its range, and all other bytes
    are kept. *)

From Stdlib Require Import ZArith Lia.
From stdpp Require Import base list numbers option sets.
From S2P Require Import Prelude Buffers CState XspiNor XspiProps.

Definition inside (lo hi : Z) (c : nor_change) : Prop := lo ≤ (extent c).1 ∧ (extent c).2 ≤ hi.
(** Only changes inside a range were issued. *)
Record confines (lo hi : Z) (s s' : xspi) : Prop := {
  co_changes : ∃ cs, nm_changes (mon_of s') = cs ++ nm_changes (mon_of s) ∧ Forall (inside lo hi) cs;
  co_open c : c ∈ nm_open (mon_of s') → inside lo hi c ∨ c ∈ nm_open (mon_of s);
  co_ext (A : nor_change → Prop) :
    (∀ c, inside lo hi c → A c) → (∀ c, c ∈ nm_open (mon_of s) → A c) → ext A (xs_history s) (xs_history s');
}.
#[export] Instance confines_preorder lo hi : PreOrder (confines lo hi).
Proof.
  split; [intros s; split; [by exists []|auto|by constructor]|].
  intros s1 s2 s3 [(cs1 & E1 & F1) O1 X1] [(cs2 & E2 & F2) O2 X2]. split.
  - exists (cs2 ++ cs1). split; [by rewrite E2, E1, app_assoc|by apply Forall_app].
  - intros c Hc. destruct (O2 c Hc); auto.
  - intros A HA Ho. eapply ext_trans; [by apply X1|]. apply X2; [done|]. intros c Hc. destruct (O1 c Hc); auto.
Qed.
Lemma did_confines lo hi c s s' : inside lo hi c → did c s s' → confines lo hi s s'.
Proof.
  intros Hc [_ Hd Ho Hx]. split; [|intros x Hin; destruct (Ho x Hin) as [->|]; auto|auto].
  destruct Hd as [->| ->]; [by exists []|]. exists [c]. by split; [|constructor].
Qed.
Lemma confines_page lo hi s s' page : confines lo hi s s' → confines lo hi s (s' <| g_wt_xspi_page := page |>).
Proof. by intros []. Qed.

Lemma confines_page_before lo hi s s' page : confines lo hi (s <| g_wt_xspi_page := page |>) s' → confines lo hi s s'.
Proof. by intros []. Qed.

Lemma erase_inside lo hi a : lo mod WT_XSPI_NOR_SECTOR = 0 → a mod WT_XSPI_NOR_SECTOR = 0 → lo ≤ a →
  a + WT_XSPI_NOR_SECTOR ≤ hi → inside lo hi (NorErase a).
Proof. intros Hlo Ha H1 H2. unfold inside. simpl. rewrite Ha. lia. Qed.
Lemma program_inside lo hi a n : lo ≤ a → a + n ≤ hi → a mod WT_XSPI_NOR_PAGE + n ≤ WT_XSPI_NOR_PAGE → inside lo hi (NorProgram a n).
Proof. intros Hlo Hhi Hp. unfold inside. simpl. rewrite (proj2 (Z.leb_le _ _) Hp). simpl. lia. Qed.

(** ** The writable windows *)

Definition in_window (address size : Z) : Prop :=
  ∃ w, w ∈ g_wt_xspi_nor_writable ∧ nw_base w ≤ address ∧ address + size ≤ nw_base w + nw_size w.
Lemma windows_bound w : w ∈ g_wt_xspi_nor_writable → 0 ≤ nw_base w ∧ nw_base w + nw_size w < 2 ^ 32.
Proof. revert w. apply Forall_forall. repeat (constructor; [by vm_compute|]). constructor. Qed.
Lemma range_ok_window address size : 0 ≤ address < 2 ^ 32 → wt_xspi_nor_range_ok address size = true → in_window address size.
Proof.
  intros Ha Hr. apply existsb_exists in Hr as (w & Hw%list_elem_of_In & Hr). cbv zeta in Hr. bool_hyps.
  pose proof (windows_bound w Hw).
  rewrite u32_small in * by lia. exists w. split_and!; [done|done|lia].
Qed.
Lemma window_bound address size : in_window address size → 0 ≤ address ∧ address + size < 2 ^ 32.
Proof.
  intros (w & Hw & H1 & H2). pose proof (windows_bound w Hw). lia.
Qed.

(** ** Loops *)

Section loops.
Context `{XspiDevice}.

Lemma erase_loop_rule address size (P : Z → xspi → Prop) (Q : Z → xspi → Prop) s :
  0 ≤ address → 0 ≤ size → address + size < 2 ^ 32 → size mod WT_XSPI_NOR_SECTOR = 0 → P 0 s →
  (∀ done s, 0 ≤ done → done + WT_XSPI_NOR_SECTOR ≤ size → done mod WT_XSPI_NOR_SECTOR = 0 → P done s →
    fwp (wt_xspi_nor_erase_sector_ram (address + done))
      (λ rc s', if rc =? WT_XSPI_NOR_OK then P (done + WT_XSPI_NOR_SECTOR) s' else Q rc s') s) →
  (∀ s, P size s → Q WT_XSPI_NOR_OK s) →
  wp (nor_erase_loop (Z.to_nat size) address size 0) Q Q s.
Proof.
  intros Ha Hs Hend Hmod HP Hstep Hfin.
  assert (∀ fuel done s, 0 ≤ done ≤ size → size - done ≤ Z.of_nat fuel → done mod WT_XSPI_NOR_SECTOR = 0 → P done s →
    wp (nor_erase_loop fuel address size done) Q Q s) as Hl; [|apply Hl; auto; lia].
  clear HP s. induction fuel as [|fuel IH]; intros done s Hd Hf Hdm HP; cbn [nor_erase_loop]; (apply wp_if; intros E;
    [apply Z.ltb_lt in E|apply Z.ltb_ge in E; apply wp_ret, Hfin; by replace size with done by lia]); [lia|].
  assert (done + WT_XSPI_NOR_SECTOR ≤ size) as Hn by (unfold WT_XSPI_NOR_SECTOR in *; Z.div_mod_to_equations; lia).
  rewrite (u32_small (address + done)) by (unfold WT_XSPI_NOR_SECTOR in *; lia).
  apply wp_bind, wp_call. eapply fwp_mono; [exact (Hstep done s (proj1 Hd) Hn Hdm HP)|].
  intros rc s1 Hrc. cbv beta in Hrc. destruct (rc =? WT_XSPI_NOR_OK); [|apply wp_ret; exact Hrc].
  unfold WT_XSPI_NOR_SECTOR in *. rewrite u32_small by lia. apply IH; [lia|lia| |exact Hrc]. Z.div_mod_to_equations; lia.
Qed.

Lemma program_loop_rule address data (P : Z → xspi → Prop) (E Q : Z → xspi → Prop) s :
  let size := Z.of_nat (length data) in
  0 ≤ address → address + size < 2 ^ 32 → P 0 s →
  (∀ done s, P done s → length (g_wt_xspi_page s) = Z.to_nat WT_XSPI_NOR_PAGE) →
  (∀ done n page s, 0 ≤ done → 0 < n ≤ WT_XSPI_NOR_PAGE → done + n ≤ size →
    (address + done) mod WT_XSPI_NOR_PAGE + n ≤ WT_XSPI_NOR_PAGE → P done s → length page = Z.to_nat WT_XSPI_NOR_PAGE →
    fwp (wt_xspi_nor_program_ram (address + done) n)
      (λ rc s', if rc =? WT_XSPI_NOR_OK then P (done + n) s' else Q rc s') (s <| g_wt_xspi_page := page |>)) →
  (∀ s, P size s → Q WT_XSPI_NOR_OK s) →
  wp (nor_program_loop (length data) address data 0) E Q s.
Proof.
  intros size Ha Hend HP Hpage Hstep Hfin.
  assert (∀ fuel done s, 0 ≤ done ≤ size → size - done ≤ Z.of_nat fuel → P done s →
    wp (nor_program_loop fuel address data done) E Q s) as Hl; [|apply Hl; auto; unfold size; lia].
  clear HP s. induction fuel as [|fuel IH]; intros done s Hd Hf HP; cbn [nor_program_loop]; fold size; (apply wp_if; intros Ed;
    [apply Z.ltb_lt in Ed|apply Z.ltb_ge in Ed; apply wp_ret, Hfin; by replace size with done by lia]); [lia|].
  rewrite (u32_small (address + done)) by lia. set (a := address + done).
  change (WT_XSPI_NOR_PAGE - 1) with (Z.ones 8). rewrite Z.land_ones by lia. change (2 ^ 8) with WT_XSPI_NOR_PAGE.
  pose proof (Z.mod_pos_bound a WT_XSPI_NOR_PAGE ltac:(done)) as Hm.
  set (n := if size - done <? WT_XSPI_NOR_PAGE - a mod WT_XSPI_NOR_PAGE then size - done else WT_XSPI_NOR_PAGE - a mod WT_XSPI_NOR_PAGE).
  assert (0 < n ≤ size - done ∧ n ≤ WT_XSPI_NOR_PAGE - a mod WT_XSPI_NOR_PAGE) as Hn.
  { unfold n. destruct (_ <? _) eqn:E1; [apply Z.ltb_lt in E1|apply Z.ltb_ge in E1]; lia. }
  destruct (buf_read_spec data done n) as (bytes & Eb & Hb); [lia..|]. apply wp_bind, (wp_defined _ bytes); [done|].
  destruct (buf_write_spec (g_wt_xspi_page s) 0 bytes) as (page & Ep & Hpl); [lia|rewrite (Hpage done s HP); lia|].
  apply wp_bind, wp_gets, wp_bind, (wp_defined _ page); [done|].
  apply wp_bind, wp_modify, wp_bind, wp_call. 
  eapply fwp_mono; [apply (Hstep done n page s); [lia|lia|lia|fold a; lia|exact HP|rewrite Hpl; exact (Hpage done s HP)]|].
  intros rc s1 Hrc. cbv beta in Hrc. destruct (rc =? WT_XSPI_NOR_OK); [|apply wp_ret; exact Hrc]. rewrite u32_small by lia. apply IH; [lia|lia|exact Hrc].
Qed.
End loops.

(** ** The operations *)

Section operations.
Context `{XspiDevice}.

Lemma sector_mask a : 0 ≤ a → (a .& (WT_XSPI_NOR_SECTOR - 1) =? 0) = true → a mod WT_XSPI_NOR_SECTOR = 0.
Proof.
  intros Ha E%Z.eqb_eq. change (WT_XSPI_NOR_SECTOR - 1) with (Z.ones 12) in E. rewrite Z.land_ones in E by lia. exact E.
Qed.
Definition erase_post (a : Z) (s : xspi) : Z → xspi → Prop :=
  linked (did (NorErase a) s) (λ s', made (NorErase a) s s' ∧ nm_clean (mon_of s') = true).
Lemma nor_erase_rule address size (P : Z → xspi → Prop) (Q : Z → xspi → Prop) s :
  0 ≤ address < 2 ^ 32 → 0 ≤ size → Q WT_XSPI_NOR_ARGUMENT s → P 0 s →
  (in_window address size → address mod WT_XSPI_NOR_SECTOR = 0 → size mod WT_XSPI_NOR_SECTOR = 0 →
    (∀ done s rc s', 0 ≤ done → done + WT_XSPI_NOR_SECTOR ≤ size → (address + done) mod WT_XSPI_NOR_SECTOR = 0 → P done s →
      erase_post (address + done) s rc s' → if rc =? WT_XSPI_NOR_OK then P (done + WT_XSPI_NOR_SECTOR) s' else Q rc s') ∧
    (∀ s, P size s → Q WT_XSPI_NOR_OK s)) →
  fwp (wt_xspi_nor_erase address size) Q s.
Proof.
  intros Ha Hs HQ HP Hstep. apply fwp_fn. unfold wt_xspi_nor_erase. apply wp_if; intros E; [by apply wp_ret|].
  apply orb_false_iff in E as [[E1 E2]%orb_false_iff E3]. apply negb_false_iff in E1, E2, E3.
  apply range_ok_window in E3; [|done]. apply sector_mask in E1, E2; [|lia..].
  destruct (Hstep E3 E1 E2) as [Hst Hfin]. pose proof (window_bound _ _ E3).
  apply (erase_loop_rule address size P); [lia|lia|lia|exact E2|exact HP| |exact Hfin].
  intros done s1 Hd1 Hd2 Hd3 HP1. eapply fwp_mono; [apply erase_sector_ram_ok|]. intros rc s2 Hpost. cbv beta.
  apply (Hst done s1); [done|done| |done|exact Hpost]. rewrite Zplus_mod, E1, Hd3. done.
Qed.

Definition program_post (a n : Z) (s : xspi) : Z → xspi → Prop := linked (did (NorProgram a n) s) (made (NorProgram a n) s).
Definition page_ok (s : xspi) : Prop := length (g_wt_xspi_page s) = Z.to_nat WT_XSPI_NOR_PAGE.
Lemma nor_program_rule address data (P : Z → xspi → Prop) (Q : Z → xspi → Prop) s :
  let size := Z.of_nat (length data) in
  0 ≤ address < 2 ^ 32 → Q WT_XSPI_NOR_ARGUMENT s → P 0 s → (∀ done s, P done s → page_ok s) →
  (in_window address size →
    (∀ done n page s rc s', 0 ≤ done → 0 < n → done + n ≤ size →
      (address + done) mod WT_XSPI_NOR_PAGE + n ≤ WT_XSPI_NOR_PAGE → P done s → length page = Z.to_nat WT_XSPI_NOR_PAGE →
      program_post (address + done) n (s <| g_wt_xspi_page := page |>) rc s' →
      if rc =? WT_XSPI_NOR_OK then P (done + n) s' else Q rc (s' <| g_wt_xspi_page := zeros (Z.to_nat WT_XSPI_NOR_PAGE) |>)) ∧
    (∀ s, P size s → Q WT_XSPI_NOR_OK (s <| g_wt_xspi_page := zeros (Z.to_nat WT_XSPI_NOR_PAGE) |>))) →
  fwp (wt_xspi_nor_program address data) Q s.
Proof.
  intros size Ha HQ HP Hpage Hstep. apply fwp_fn. unfold wt_xspi_nor_program. fold size. cbv zeta.
  apply wp_if; intros E; [by apply wp_ret|]. apply orb_false_iff in E as [_ E3]. apply negb_false_iff in E3.
  apply range_ok_window in E3; [|done]. destruct (Hstep E3) as [Hst Hfin]. pose proof (window_bound _ _ E3).
  apply wp_bind. unfold size at 1. rewrite Nat2Z.id.
  set (Q' rc s' := Q rc (s' <| g_wt_xspi_page := zeros (Z.to_nat WT_XSPI_NOR_PAGE) |>)).
  eapply wp_mono; [apply (program_loop_rule address data P Q Q'); [lia|fold size; lia|exact HP|exact Hpage| |exact Hfin]|auto|].
  - intros done n page s1 Hd Hn Hend Hpg HP1 Hlen. eapply fwp_mono; [apply program_page_ok; [lia|simpl; lia]|].
    intros rc s2 Hpost. cbv beta. apply (Hst done n page s1); try done. lia.
  - intros rc s' Hq. apply wp_bind, wp_modify, wp_ret. exact Hq.
Qed.

(** ** Confinement *)

Definition writes_only (address size : Z) (s s' : xspi) : Prop :=
  ∃ cs, nm_changes (mon_of s') = cs ++ nm_changes (mon_of s) ∧
        (cs = [] ∨ in_window address size ∧ Forall (inside address (address + size)) cs).
Lemma confines_writes address size s s' : in_window address size → confines address (address + size) s s' → writes_only address size s s'.
Proof. intros Hw [(cs & Hcs & Hf) _ _]. exists cs. auto. Qed.

Lemma nor_erase_confines address size s : 0 ≤ address < 2 ^ 32 → 0 ≤ size →
  fwp (wt_xspi_nor_erase address size) (λ rc s', confines address (address + size) s s' ∧
    g_wt_xspi_page s' = g_wt_xspi_page s ∧ (s' = s ∨ in_window address size)) s.
Proof.
  intros Ha Hs. apply (nor_erase_rule _ _ (λ _ s', confines address (address + size) s s' ∧ g_wt_xspi_page s' = g_wt_xspi_page s));
    [done|done|split_and!; [reflexivity|done|by left]|by split|].
  intros Hw Hal _. split; [|by intros s1 []; auto].
  intros done s1 rc s2 Hd Hend Hmod [Hc1 Hp1] [Hdid _].
  assert (confines address (address + size) s s2 ∧ g_wt_xspi_page s2 = g_wt_xspi_page s) as [? ?]; [|destruct (_ =? _); auto].
  split; [|by rewrite (di_page _ _ _ Hdid)]. etrans; [exact Hc1|]. eapply did_confines; [|exact Hdid]. apply erase_inside; [done|done|lia|lia].
Qed.
Lemma nor_program_confines address data s : 0 ≤ address < 2 ^ 32 → page_ok s →
  let size := Z.of_nat (length data) in
  fwp (wt_xspi_nor_program address data) (λ rc s', confines address (address + size) s s' ∧ page_ok s' ∧
    (s' = s ∨ in_window address size ∧ g_wt_xspi_page s' = zeros (Z.to_nat WT_XSPI_NOR_PAGE))) s.
Proof.
  intros Ha Hpage size. apply (nor_program_rule _ _ (λ _ s', confines address (address + size) s s' ∧ page_ok s'));
    [done|split_and!; [reflexivity|done|by left]|by split|by intros ?? []|].
  intros Hw. split; [|intros s1 [Hc1 _]; split_and!; [by apply confines_page|done|by right]].
  intros done n page s1 rc s2 Hd Hn Hend Hpg [Hc1 Hp1] Hlen [Hdid _].
  assert (confines address (address + size) s s2) as Hc2.
  { etrans; [exact Hc1|]. eapply confines_page_before, did_confines; [|exact Hdid]. apply program_inside; [lia|fold size in Hend; lia|done]. }
  destruct (_ =? _); [split; [done|]|split_and!; [by apply confines_page|done|by right]].
  unfold page_ok. by rewrite (di_page _ _ _ Hdid).
Qed.

(** C22: whatever the hardware answers, a NOR program or erase call is defined and
    ends, and every change command it issues lies inside the requested range (a
    page program never runs over its page), which itself lies in one of the
    writable windows; a request outside them issues none. After a program call
    no key store data is left in the page buffer. *)
Theorem nor_confined address size data s :
  0 ≤ address < 2 ^ 32 → 0 ≤ size < 2 ^ 32 → page_ok s →
  fwp (wt_xspi_nor_erase address size) (λ _ s', writes_only address size s s') s ∧
  fwp (wt_xspi_nor_program address data) (λ rc s', writes_only address (Z.of_nat (length data)) s s' ∧
    (s' = s ∨ g_wt_xspi_page s' = zeros (Z.to_nat WT_XSPI_NOR_PAGE))) s.
Proof.
  intros Ha Hs Hp. split.
  - eapply fwp_mono; [by apply nor_erase_confines; [|lia]|]. intros rc s' (Hc & _ & [->|Hw]); [|by apply confines_writes].
    exists []. auto.
  - eapply fwp_mono; [by apply nor_program_confines|]. intros rc s' (Hc & _ & [->|[Hw Hz]]); [|by split; [apply confines_writes|right]].
    split; [exists []|]; auto.
Qed.
End operations.

(** ** The array *)

Section array.
Context `{NorDevice}.

Definition array (s : xspi) : Z → Z := nor_array (xs_history s).
Definition quiet_at (s : xspi) (x : Z) : Prop := ∀ c, c ∈ nm_open (mon_of s) → ¬ covers c x.

Lemma ext_array A t t' x : ext A t t' → (∀ c, c ∈ nm_open (mon t) → A c) → (∀ c, A c → ¬ covers c x) →
  nor_array t' x = nor_array t x.
Proof.
  intros Hx Hst HA. assert (nor_array t' x = nor_array t x ∧ ∀ c, c ∈ nm_open (mon t') → A c) as [? _]; [|done].
  induction Hx as [|e t' Hx [IH Ho] He]; [done|]. split; [|done]. rewrite nor_frame; [done|]. intros c [Hc|Hc]; apply HA; auto.
Qed.
Lemma confines_array lo hi s s' x : confines lo hi s s' → quiet_at s x → ¬ (lo ≤ x < hi) → array s' x = array s x.
Proof.
  intros Hc Hq Hx. apply (ext_array (λ c, ¬ covers c x)); [apply Hc; [|done]|done|done].
  intros c [H1 H2] Hcov. unfold covers in Hcov. lia.
Qed.
Lemma confines_quiet lo hi s s' x : confines lo hi s s' → quiet_at s x → ¬ (lo ≤ x < hi) → quiet_at s' x.
Proof.
  intros Hc Hq Hx c Hin. destruct (co_open _ _ _ _ Hc c Hin) as [[H1 H2]|]; [|by apply Hq]. unfold covers. lia.
Qed.
Lemma made_open c s s' : made c s s' → nm_open (mon_of s') = [].
Proof. intros (_ & _ & Hs). by apply settled_open. Qed.

Lemma nor_erase_erases address size s : 0 ≤ address < 2 ^ 32 → 0 < size →
  fwp (wt_xspi_nor_erase address size) (λ rc s', rc = WT_XSPI_NOR_OK →
    nm_open (mon_of s') = [] ∧ ∀ x, address ≤ x < address + size → array s' x = 0xFF) s.
Proof.
  intros Ha Hs.
  apply (nor_erase_rule _ _ (λ done s', (0 < done → nm_open (mon_of s') = []) ∧ ∀ x, address ≤ x < address + done → array s' x = 0xFF));
    [done|lia|done|split; intros; lia|].
  intros Hw Hal _. split; [|by intros s1 [Ho Hx] _; auto].
  intros done s1 rc s2 Hd Hend Hmod [Ho1 Hx1] [Hdid Hm]. destruct (rc =? WT_XSPI_NOR_OK) eqn:E; [|by apply Z.eqb_neq in E].
  apply Z.eqb_eq in E. destruct (Hm E) as [Hmade Hcl]. split; [intros _; by eapply made_open|]. intros x Hx.
  destruct (decide (x < address + done)) as [Hlt|Hge].
  - rewrite <-(Hx1 x) by lia. apply (ext_array (λ c, ¬ covers c x)); [apply (di_ext _ _ _ Hdid)| |done].
    + unfold covers. simpl. rewrite Hmod. lia.
    + rewrite Ho1 by lia. by intros c Hc%elem_of_nil.
    + change (mon (xs_history s1)) with (mon_of s1). rewrite Ho1 by lia. by intros c Hc%elem_of_nil.
  - destruct Hmade as (Hc & Hacc & Hst). eapply nor_erased; [exact Hc|exact Hacc|exact Hst|exact Hcl|].
    unfold covers. simpl. rewrite Hmod. lia.
Qed.
Lemma nor_program_closes address data s : 0 ≤ address < 2 ^ 32 → page_ok s → data ≠ [] →
  fwp (wt_xspi_nor_program address data) (λ rc s', rc = WT_XSPI_NOR_OK → nm_open (mon_of s') = []) s.
Proof.
  intros Ha Hp Hne.
  apply (nor_program_rule _ _ (λ done s', (0 < done → nm_open (mon_of s') = []) ∧ page_ok s'));
    [done|done|split; [intros; lia|done]|by intros ?? []|].
  intros Hw. split.
  - intros done n page s1 rc s2 Hd Hn Hend Hpg [Ho1 Hp1] Hlen [Hdid Hm].
    destruct (rc =? WT_XSPI_NOR_OK) eqn:E; [|by apply Z.eqb_neq in E]. apply Z.eqb_eq in E.
    split; [intros _; by eapply made_open, Hm|]. unfold page_ok. by rewrite (di_page _ _ _ Hdid).
  - intros s1 [Ho _] _. apply Ho. destruct data; [done|simpl; lia].
Qed.
End array.
