(* ===== verification/FlashRt700.v ===== *)
(** * Flash driver of the MIMXRT700 port: [port/mimxrt700/hsm_flash.c]

    The primitives of the key store and update partitions in the octal flash,
    on the NOR driver, and the staging backend of the update service on them. *)

From Stdlib Require Import ZArith Lia.
From stdpp Require Import base list numbers option sets.
From S2P Require Import Prelude Buffers CState FfmTypes Service Fwu XspiNor.

Definition g_hsm_flash_cfg : wt_hsm_flash_config :=
  {| cf_base := WT_HSM_NVM_FLASH_BASE_S; cf_size := WT_HSM_NVM_FLASH_SIZE; cf_sector_size := WT_FLASH_SECTOR_SIZE;
     cf_program_unit := 16 |}.
Definition g_fwu_flash_cfg : wt_hsm_flash_config :=
  {| cf_base := WT_FWU_UPDATE_FLASH_BASE_S; cf_size := WT_FWU_UPDATE_FLASH_SIZE; cf_sector_size := WT_FLASH_SECTOR_SIZE;
     cf_program_unit := 16 |}.
#[export] Instance wt_hsm_flash_config_eq_dec : EqDecision wt_hsm_flash_config.
Proof. solve_decision. Defined.

Record rt_flash := {
  rf_nor : xspi;
  rf_hsm_locked : bool;               (** [g_hsm_flash_ctx.write_locked] *)
  rf_fwu_locked : bool;               (** [g_fwu_flash_ctx.write_locked] *)
  g_fwu_erased_end : Z;
  g_fwu_written_end : Z;
  g_wt_nor_last_error : Z;
  g_wt_flash_gate_aborts : Z * Z;     (** count and [_abort_info] *)
}.
#[export] Instance rt_flash_eta : Settable rt_flash := λ s,
  {| rf_nor := rf_nor s; rf_hsm_locked := rf_hsm_locked s; rf_fwu_locked := rf_fwu_locked s;
     g_fwu_erased_end := g_fwu_erased_end s; g_fwu_written_end := g_fwu_written_end s;
     g_wt_nor_last_error := g_wt_nor_last_error s; g_wt_flash_gate_aborts := g_wt_flash_gate_aborts s |}.
#[export] Instance set_rf_nor : Setter rf_nor. Proof. derive_setter. Defined.
#[export] Instance set_rf_hsm_locked : Setter rf_hsm_locked. Proof. derive_setter. Defined.
#[export] Instance set_rf_fwu_locked : Setter rf_fwu_locked. Proof. derive_setter. Defined.
#[export] Instance set_erased_end : Setter g_fwu_erased_end. Proof. derive_setter. Defined.
#[export] Instance set_written_end : Setter g_fwu_written_end. Proof. derive_setter. Defined.
#[export] Instance set_nor_last_error : Setter g_wt_nor_last_error. Proof. derive_setter. Defined.
#[export] Instance set_rt_gate_aborts : Setter g_wt_flash_gate_aborts. Proof. derive_setter. Defined.

(** The error codes, the flash, the privilege of the running thread, and the gate
    an unprivileged thread goes through: its result, [ret_int] and the bytes
    stored in the buffer. *)
Class RtPlatform := {
  rt_errors :: WhErrors;
  rt_device :: XspiDevice;
  wt_arch_thread_unprivileged : bool;
  spm_sp_call : Z → Z → Z → list Z → rt_flash → rt_flash * (Z * Z * list Z);
}.

Section driver.
Context `{RtPlatform}.

(** The byte read at an address of the Secure alias. *)
Definition flash_byte (s : rt_flash) (address : Z) : Z :=
  nor_array (xs_history (rf_nor s)) (address - WT_FLASH_S_ALIAS_BASE + WT_FLASH_NS_BASE).
Definition in_nor {A} (f : func xspi A) : func rt_flash A := λ s,
  '(n, a) ← f (rf_nor s); Some (s <| rf_nor := n |>, a).

Definition wt_hsm_flash_cfg_of (context : flash_ctx) : option wt_hsm_flash_config :=
  match context with CtxHsm => Some g_hsm_flash_cfg | CtxFwu => Some g_fwu_flash_cfg | CtxOther _ => None end.
(** [write_locked] of the context, read only for one with a configuration. *)
Definition write_locked (s : rt_flash) (context : flash_ctx) : bool :=
  match context with CtxHsm => rf_hsm_locked s | CtxFwu => rf_fwu_locked s | CtxOther _ => false end.

Definition wt_hsm_flash_device_address (cfg : wt_hsm_flash_config) (offset : Z) : Z :=
  u32 (u32 (cf_base cfg - WT_FLASH_S_ALIAS_BASE + WT_FLASH_NS_BASE) + offset).
Definition wt_hsm_flash_nor_result (rc : Z) : func rt_flash Z := fn (
  if negb (rc =? WT_XSPI_NOR_OK) then modify (λ s, s <| g_wt_nor_last_error := rc |>);; mret WH_ERROR_ABORTED
  else mret WH_ERROR_OK).
Definition wt_flash_range_ok (cfg : option wt_hsm_flash_config) (offset size : Z) : bool :=
  match cfg with
  | None => false
  | Some g =>
    if (cf_sector_size g =? 0) || (cf_program_unit g =? 0) then false else
    if cf_size g <? offset then false else
    if cf_size g - offset <? size then false else true
  end.

Definition wt_hsm_flash_gate (context : flash_ctx) (sub_op offset size : Z) (data : list Z) : func rt_flash (Z * list Z) := fn (
  if negb (bool_decide (context = CtxHsm)) then mret (WH_ERROR_BADARGS, data) else
  '(rc, ret_int, data) ← (λ s, let '(s', r) := spm_sp_call sub_op offset size data s in Some (s', inr r));
  if negb (rc =? WT_FFM_SUCCESS) then
    modify (λ s, let '(n, info) := g_wt_flash_gate_aborts s in
      s <| g_wt_flash_gate_aborts := (u32 (n + 1),
             if info =? 0 then u32 (sub_op .<< 24) .| (u32 rc .& 0x00FFFFFF) else info) |>);;
    mret (WH_ERROR_ABORTED, data)
  else mret (ret_int, data)).

Definition set_write_locked (context : flash_ctx) (b : bool) (s : rt_flash) : rt_flash :=
  match context with
  | CtxHsm => s <| rf_hsm_locked := b |>
  | CtxFwu => s <| rf_fwu_locked := b |>
  | CtxOther _ => s
  end.
(** [config] is one of the driver's constants. *)
Definition wt_hsm_flash_init (context : flash_ctx) (cfg : wt_hsm_flash_config) : func rt_flash Z := fn (
  if negb (bool_decide (wt_hsm_flash_cfg_of context = Some cfg)) ||
     (cf_base cfg =? 0) || (cf_size cfg =? 0) || (cf_sector_size cfg =? 0) || (cf_program_unit cfg =? 0) ||
     negb (cf_size cfg mod cf_sector_size cfg =? 0) || negb (cf_sector_size cfg mod cf_program_unit cfg =? 0)
  then mret WH_ERROR_BADARGS else
  modify (set_write_locked context false);;
  mret WH_ERROR_OK).
Definition wt_hsm_flash_cleanup (context : flash_ctx) : func rt_flash Z := fn (
  if wt_arch_thread_unprivileged then r ← call (wt_hsm_flash_gate context 5 0 0 []); mret (fst r) else
  mret WH_ERROR_OK).
Definition wt_hsm_flash_partition_size (context : flash_ctx) : Z :=
  match wt_hsm_flash_cfg_of context with None => 0 | Some g => cf_sector_size g end.
Definition wt_hsm_flash_write_lock (context : flash_ctx) : func rt_flash Z := fn (
  modify (set_write_locked context true);; mret WH_ERROR_OK).
Definition wt_hsm_flash_write_unlock (context : flash_ctx) : func rt_flash Z := fn (
  modify (set_write_locked context false);; mret WH_ERROR_OK).

(** The result and the buffer. *)
Definition wt_hsm_flash_read (context : flash_ctx) (offset size : Z) (buffer : list Z) : func rt_flash (Z * list Z) := fn (
  if wt_arch_thread_unprivileged then call (wt_hsm_flash_gate context 0 offset size buffer) else
  let cfg := wt_hsm_flash_cfg_of context in
  if negb (wt_flash_range_ok cfg offset size) then mret (WH_ERROR_BADARGS, buffer) else
  g ← defined cfg;
  s ← gets id;
  mret (WH_ERROR_OK, if negb (size =? 0) then mem_read (flash_byte s) (cf_base g + offset) size else buffer)).

Definition wt_hsm_flash_program (context : flash_ctx) (offset : Z) (data : list Z) : func rt_flash Z := fn (
  let size := Z.of_nat (length data) in
  if wt_arch_thread_unprivileged then r ← call (wt_hsm_flash_gate context 1 offset size data); mret (fst r) else
  let cfg := wt_hsm_flash_cfg_of context in
  if negb (wt_flash_range_ok cfg offset size) then mret WH_ERROR_BADARGS else
  g ← defined cfg;
  if negb (offset mod cf_program_unit g =? 0) || negb (size mod cf_program_unit g =? 0) then mret WH_ERROR_BADARGS else
  s ← gets id;
  if negb (size =? 0) && write_locked s context then mret WH_ERROR_LOCKED else
  if size =? 0 then mret WH_ERROR_OK else
  rc ← call (in_nor (wt_xspi_nor_program (wt_hsm_flash_device_address g offset) data));
  call (wt_hsm_flash_nor_result rc)).

Definition wt_hsm_flash_erase (context : flash_ctx) (offset size : Z) : func rt_flash Z := fn (
  if wt_arch_thread_unprivileged then r ← call (wt_hsm_flash_gate context 2 offset size []); mret (fst r) else
  let cfg := wt_hsm_flash_cfg_of context in
  if negb (wt_flash_range_ok cfg offset size) then mret WH_ERROR_BADARGS else
  g ← defined cfg;
  if negb (offset mod cf_sector_size g =? 0) || negb (size mod cf_sector_size g =? 0) then mret WH_ERROR_BADARGS else
  s ← gets id;
  if negb (size =? 0) && write_locked s context then mret WH_ERROR_LOCKED else
  if size =? 0 then mret WH_ERROR_OK else
  rc ← call (in_nor (wt_xspi_nor_erase (wt_hsm_flash_device_address g offset) size));
  call (wt_hsm_flash_nor_result rc)).

Definition wt_hsm_flash_verify (context : flash_ctx) (offset : Z) (data : list Z) : func rt_flash Z := fn (
  let size := Z.of_nat (length data) in
  if wt_arch_thread_unprivileged then r ← call (wt_hsm_flash_gate context 3 offset size data); mret (fst r) else
  let cfg := wt_hsm_flash_cfg_of context in
  if negb (wt_flash_range_ok cfg offset size) then mret WH_ERROR_BADARGS else
  g ← defined cfg;
  s ← gets id;
  if negb (size =? 0) && negb (bool_decide (mem_read (flash_byte s) (cf_base g + offset) size = data))
  then mret WH_ERROR_NOTVERIFIED else mret WH_ERROR_OK).
Definition wt_hsm_flash_blank_check (context : flash_ctx) (offset size : Z) : func rt_flash Z := fn (
  if wt_arch_thread_unprivileged then r ← call (wt_hsm_flash_gate context 4 offset size []); mret (fst r) else
  let cfg := wt_hsm_flash_cfg_of context in
  if negb (wt_flash_range_ok cfg offset size) then mret WH_ERROR_BADARGS else
  g ← defined cfg;
  s ← gets id;
  if forallb (λ b, b =? 0xFF) (mem_read (flash_byte s) (cf_base g + offset) size) then mret WH_ERROR_OK
  else mret WH_ERROR_NOTBLANK).
Definition wt_hsm_flash_format : func rt_flash Z := wt_hsm_flash_erase CtxHsm 0 (cf_size g_hsm_flash_cfg).

(** ** The staging backend *)

(** [memcmp(base + offset, data, length data) == 0] *)
Definition reads_back (s : rt_flash) (offset : Z) (data : list Z) : bool :=
  bool_decide (mem_read (flash_byte s) (cf_base g_fwu_flash_cfg + offset) (Z.of_nat (length data)) = data).

Fixpoint ensure_loop (fuel : nat) (sec end_ : Z) : prog rt_flash Z unit :=
  if sec <? end_ then
    match fuel with
    | O => defined None
    | S fuel =>
      let sector_size := cf_sector_size g_fwu_flash_cfg in
      ret ← call (wt_hsm_flash_erase CtxFwu sec sector_size);
      when (negb (ret =? WH_ERROR_OK)) (early (-1));;
      modify (λ s, s <| g_fwu_erased_end := u32 (sec + sector_size) |>);;
      ensure_loop fuel (u32 (sec + sector_size)) end_
    end
  else mret tt.
Definition wt_fwu_ensure_erased (offset size : Z) : func rt_flash Z := fn (
  let sector_size := cf_sector_size g_fwu_flash_cfg in
  let end_ := u32 (offset + size) in
  let end_ := u32 (u32 (end_ + sector_size - 1) / sector_size * sector_size) in
  s ← gets id;
  ensure_loop (Z.to_nat (end_ - g_fwu_erased_end s)) (g_fwu_erased_end s) end_;;
  mret 0).

Definition wt_fwu_backend_begin : func rt_flash Z := fn (
  ret ← call (wt_hsm_flash_init CtxFwu g_fwu_flash_cfg);
  if negb (ret =? WH_ERROR_OK) then mret (-1) else
  modify (λ s, s <| g_fwu_erased_end := 0 |> <| g_fwu_written_end := 0 |>);;
  mret 0).

Definition wt_fwu_backend_write (offset : Z) (data : list Z) : func rt_flash Z := fn (
  let size := Z.of_nat (length data) in
  let reserved := cf_size g_fwu_flash_cfg - cf_sector_size g_fwu_flash_cfg in
  s ← gets id;
  if (reserved <=? offset) || (reserved - offset <? size) || negb (offset =? g_fwu_written_end s) then mret (-1) else
  ret ← call (wt_fwu_ensure_erased offset size);
  if negb (ret =? 0) then mret (-1) else
  ret ← call (wt_hsm_flash_program CtxFwu offset data);
  if negb (ret =? WH_ERROR_OK) then mret (-1) else
  s ← gets id;
  if negb (reads_back s offset data) then mret (-1) else
  modify (λ s, s <| g_fwu_written_end := u32 (offset + size) |>);;
  mret 0).

Definition wt_fwu_backend_disarm : func rt_flash Z := fn (
  let trailer := cf_size g_fwu_flash_cfg - cf_sector_size g_fwu_flash_cfg in
  ret ← call (wt_hsm_flash_erase CtxFwu trailer (cf_sector_size g_fwu_flash_cfg));
  if negb (ret =? WH_ERROR_OK) then mret (-1) else mret 0).
Definition wt_fwu_backend_arm (image_size version : Z) : func rt_flash Z := fn (
  let block_off := cf_size g_fwu_flash_cfg - cf_program_unit g_fwu_flash_cfg in
  match wt_fwu_wolfboot_arm_trailer (zeros 16) with
  | None => mret (-1)
  | Some block =>
    ret ← call wt_fwu_backend_disarm;
    if negb (ret =? 0) then mret (-1) else
    ret ← call (wt_hsm_flash_program CtxFwu block_off block);
    s ← gets id;
    if negb (ret =? WH_ERROR_OK) || negb (reads_back s block_off block)
    then call wt_fwu_backend_disarm;; mret (-1) else mret 0
  end).

(** The result and [*header_version]. The checks after the first are those of
    the other port. *)
Definition wt_fwu_backend_verify (staged_size : Z) : func rt_flash (Z * Z) := λ s,
  Some (s, if negb (staged_size =? g_fwu_written_end s) then (-1, 0) else
           match header_version (λ x, flash_byte s (cf_base g_fwu_flash_cfg + x)) staged_size with
           | Some version => (0, version)
           | None => (-1, 0)
           end).

(** The operations are defined for what the service passes to them (their
    specifications in [FwuRt700Props]), so that the value where they are not
    does not matter. *)
Definition total {A} (f : func rt_flash A) (a : A) (s : rt_flash) : rt_flash * A := default (s, a) (f s).
Definition wt_fwu_flash_backend : wt_fwu_backend rt_flash :=
  {| fb_begin := Some (total wt_fwu_backend_begin (-1));
     fb_write := Some (λ offset data, total (wt_fwu_backend_write offset data) (-1));
     fb_arm := Some (λ image_size version, total (wt_fwu_backend_arm image_size version) (-1));
     fb_disarm := Some (total wt_fwu_backend_disarm (-1));
     fb_capacity := WT_FWU_UPDATE_FLASH_SIZE - WT_FLASH_SECTOR_SIZE;
     fb_align := 16;
     fb_verify := Some (λ staged_size, total (wt_fwu_backend_verify staged_size) (-1, 0)) |}.
End driver.
