(* ===== verification/FwuRt700Props.v ===== *)
(** * The MIMXRT700 staging backend

    The update partition in the octal flash implements [StagingFlash] too: its
    sectors are erased in order ahead of the data, so that no staged byte is
    lost. The backend also refuses to finish an image whose size is not a
    multiple of the programming unit, which the service pads. *)

From Stdlib Require Import ZArith Lia.
From stdpp Require Import base list numbers option sets.
From S2P Require Import Prelude Buffers CState FfmTypes Service Fwu FwuProps FwuStage XspiNor XspiProps NorProps FlashRt700.

Section rt700.
Context `{Hp : RtPlatform} `{!WhErrorsOk} `{!NorDevice}.
Hypothesis privileged : wt_arch_thread_unprivileged = false.

(** ** The update partition *)

Definition sbase : Z := cf_base g_fwu_flash_cfg.
Definition nbase : Z := sbase - WT_FLASH_S_ALIAS_BASE + WT_FLASH_NS_BASE.
Definition staging_size : Z := WT_FWU_UPDATE_FLASH_SIZE - WT_FLASH_SECTOR_SIZE.
Lemma flash_byte_array s x : flash_byte s (sbase + x) = array (rf_nor s) (nbase + x).
Proof. unfold flash_byte, array, nbase. f_equal. lia. Qed.

(** Only changes in a range of the update partition were issued. *)
Record touched (lo hi : Z) (s s' : rt_flash) : Prop := {
  to_confines : confines (nbase + lo) (nbase + hi) (rf_nor s) (rf_nor s');
  to_page : page_ok (rf_nor s) → page_ok (rf_nor s');
  to_erased : g_fwu_erased_end s' = g_fwu_erased_end s;
  to_written : g_fwu_written_end s' = g_fwu_written_end s;
}.
Lemma touched_refl lo hi s : touched lo hi s s.
Proof. by split. Qed.
Lemma touched_error lo hi s s' v : touched lo hi s s' → touched lo hi s (s' <| g_wt_nor_last_error := v |>).
Proof. by intros []. Qed.

Definition quiet_byte (s : rt_flash) (x : Z) : Prop := quiet_at (rf_nor s) (nbase + x).
Lemma touched_byte lo hi s s' x : touched lo hi s s' → quiet_byte s x → ¬ (lo ≤ x < hi) →
  flash_byte s' (sbase + x) = flash_byte s (sbase + x) ∧ quiet_byte s' x.
Proof.
  intros Ht Hq Hx. rewrite !flash_byte_array. split.
  - eapply confines_array; [apply Ht|exact Hq|lia].
  - eapply confines_quiet; [apply Ht|exact Hq|lia].
Qed.
Definition all_quiet (s : rt_flash) : Prop := nm_open (mon_of (rf_nor s)) = [].
Lemma all_quiet_byte s x : all_quiet s → quiet_byte s x.
Proof. intros Hs c Hc. rewrite Hs in Hc. by apply elem_of_nil in Hc. Qed.

Lemma device_address off : 0 ≤ off → off ≤ WT_FWU_UPDATE_FLASH_SIZE → wt_hsm_flash_device_address g_fwu_flash_cfg off = nbase + off.
Proof.
  intros H1 H2. unfold wt_hsm_flash_device_address. fold sbase. fold nbase. change (u32 nbase) with nbase.
  apply u32_small. unfold WT_FWU_UPDATE_FLASH_SIZE in *. change nbase with 0x28180000. lia.
Qed.
Lemma in_nor_ok {A} (f : func xspi A) (Q : A → xspi → Prop) (Q' : A → rt_flash → Prop) s :
  fwp f Q (rf_nor s) → (∀ a n, Q a n → Q' a (s <| rf_nor := n |>)) → fwp (in_nor f) Q' s.
Proof. unfold fwp, in_nor. destruct (f (rf_nor s)) as [[n a]|]; simpl; auto. Qed.
Lemma nor_result_ok rc s (Q : Z → rt_flash → Prop) :
  (rc = WT_XSPI_NOR_OK → Q WH_ERROR_OK s) →
  (∀ r, r ≠ WH_ERROR_OK → Q r (s <| g_wt_nor_last_error := rc |>)) → fwp (wt_hsm_flash_nor_result rc) Q s.
Proof.
  intros H1 H2. apply fwp_fn. apply wp_if; intros E.
  - apply wp_bind, wp_modify, wp_ret, H2. by destruct codes_differ as (_ & ? & _).
  - apply negb_false_iff, Z.eqb_eq in E. by apply wp_ret, H1.
Qed.
Lemma range_ok_bounds off size : wt_flash_range_ok (Some g_fwu_flash_cfg) off size = true →
  off ≤ WT_FWU_UPDATE_FLASH_SIZE ∧ off + size ≤ WT_FWU_UPDATE_FLASH_SIZE.
Proof.
  unfold wt_flash_range_ok. simpl. destruct (_ <? _) eqn:E1; [done|]. destruct (_ <? size) eqn:E2; [done|]. intros _.
  apply Z.ltb_ge in E1, E2. lia.
Qed.

Lemma erase_spec off size s : 0 ≤ off → 0 ≤ size →
  fwp (wt_hsm_flash_erase CtxFwu off size) (λ r s', touched off (off + size) s s' ∧
    (r = WH_ERROR_OK → 0 < size → all_quiet s' ∧ ∀ x, off ≤ x < off + size → flash_byte s' (sbase + x) = 0xFF)) s.
Proof.
  intros Ho Hs. pose proof codes_differ as (Hbad & _ & Hlock & _). apply fwp_fn. unfold wt_hsm_flash_erase. rewrite privileged. simpl.
  apply wp_if; intros E1; [apply wp_ret; split; [apply touched_refl|done]|]. apply negb_false_iff, range_ok_bounds in E1 as [E1 E1'].
  apply wp_bind, (wp_defined _ g_fwu_flash_cfg); [done|].
  apply wp_if; intros E2; [apply wp_ret; split; [apply touched_refl|done]|]. apply wp_bind, wp_gets.
  apply wp_if; intros E3; [apply wp_ret; split; [apply touched_refl|done]|].
  apply wp_if; intros E4; [apply Z.eqb_eq in E4; apply wp_ret; split; [apply touched_refl|lia]|]. apply Z.eqb_neq in E4.
  rewrite device_address by lia.
  assert (0 ≤ nbase + off < 2 ^ 32) as Hr.
  { unfold WT_FWU_UPDATE_FLASH_SIZE in *. change nbase with 0x28180000. lia. }
  apply wp_bind, wp_call. eapply in_nor_ok; [apply fwp_conj; [apply nor_erase_confines; [exact Hr|lia]|apply nor_erase_erases; [exact Hr|lia]]|].
  intros rc n [(Hc & Hpg & _) Hok]. apply wp_call.
  assert (touched off (off + size) s (s <| rf_nor := n |>)) as Ht.
  { split; [|intros Hp'; unfold page_ok; simpl; by rewrite Hpg|done|done]. simpl. by replace (nbase + (off + size)) with (nbase + off + size) by lia. }
  apply nor_result_ok.
  - intros Hrc. split; [exact Ht|]. intros _ _. destruct (Hok Hrc) as [Hop Hx]. split; [done|]. intros x Hin.
    rewrite flash_byte_array. apply Hx. lia.
  - intros r Hne. split; [by apply touched_error|done].
Qed.
Lemma program_spec off data s : 0 ≤ off → page_ok (rf_nor s) →
  fwp (wt_hsm_flash_program CtxFwu off data) (λ r s', touched off (off + Z.of_nat (length data)) s s' ∧
    (r = WH_ERROR_OK → data ≠ [] → all_quiet s' ∧ off mod 16 = 0 ∧ Z.of_nat (length data) mod 16 = 0)) s.
Proof.
  intros Ho Hpage. pose proof codes_differ as (Hbad & _ & Hlock & _). apply fwp_fn. unfold wt_hsm_flash_program. cbv zeta. rewrite privileged.
  apply wp_if; intros E1; [apply wp_ret; split; [apply touched_refl|done]|]. apply negb_false_iff, range_ok_bounds in E1 as [E1 E1'].
  apply wp_bind, (wp_defined _ g_fwu_flash_cfg); [done|].
  apply wp_if; intros E2; [apply wp_ret; split; [apply touched_refl|done]|]. apply wp_bind, wp_gets.
  apply wp_if; intros E3; [apply wp_ret; split; [apply touched_refl|done]|].
  apply wp_if; intros E4; [apply Z.eqb_eq in E4; apply wp_ret; split; [apply touched_refl|by destruct data]|]. apply Z.eqb_neq in E4.
  rewrite device_address by lia.
  assert (0 ≤ nbase + off < 2 ^ 32) as Hr.
  { unfold WT_FWU_UPDATE_FLASH_SIZE in *. change nbase with 0x28180000. lia. }
  assert (data ≠ []) as Hne by by destruct data.
  apply wp_bind, wp_call. eapply in_nor_ok; [apply fwp_conj; [by apply nor_program_confines|by apply nor_program_closes]|].
  intros rc n [(Hc & Hpg & _) Hok]. apply wp_call.
  assert (touched off (off + Z.of_nat (length data)) s (s <| rf_nor := n |>)) as Ht.
  { split; [|done|done|done]. simpl. by replace (nbase + (off + Z.of_nat (length data))) with (nbase + off + Z.of_nat (length data)) by lia. }
  apply nor_result_ok.
  - intros Hrc. split; [exact Ht|]. intros _ _. split; [exact (Hok Hrc)|]. apply orb_false_iff in E2 as [E2 E2'].
    by apply negb_false_iff, Z.eqb_eq in E2, E2'.
  - intros r Hner. split; [by apply touched_error|done].
Qed.

(** ** What is staged *)

(** Staged bytes lie below the erased mark, and no open command can change
    them. *)
Record rt_holds (s : rt_flash) (m : content) : Prop := {
  rh_page : page_ok (rf_nor s);
  rh_mark : 0 ≤ g_fwu_erased_end s ≤ staging_size ∧ g_fwu_erased_end s mod WT_FLASH_SECTOR_SIZE = 0;
  rh_written : g_fwu_written_end s mod 16 = 0;
  rh_staged x v : m x = Some v → 0 ≤ x < g_fwu_erased_end s ∧ flash_byte s (sbase + x) = v ∧ quiet_byte s x;
}.
Definition rt_triggered (s : rt_flash) : bool :=
  (flash_byte s (sbase + WT_FWU_UPDATE_FLASH_SIZE - 5) =? WT_WOLFBOOT_IMG_STATE_UPDATING) &&
  (of_le (mem_read (flash_byte s) (sbase + WT_FWU_UPDATE_FLASH_SIZE - 4) 4) =? WT_WOLFBOOT_MAGIC_TRAIL).

Lemma rt_holds_ext s m m' : m ≡ m' → rt_holds s m → rt_holds s m'.
Proof. intros Hm [H1 H2 H4 H3]. split; [done|done|done|]. intros x v Hx. apply H3. by rewrite (Hm x). Qed.
(** Changes above the erased mark keep what is staged. *)
Lemma touched_holds lo hi s s' m : g_fwu_erased_end s ≤ lo → touched lo hi s s' → rt_holds s m → rt_holds s' m.
Proof.
  intros Hlo Ht [H1 H2 H4 H3]. split; [by apply Ht|by rewrite (to_erased _ _ _ _ Ht)|by rewrite (to_written _ _ _ _ Ht)|]. intros x v Hx.
  destruct (H3 x v Hx) as (Hb & Hv & Hq). destruct (touched_byte lo hi s s' x Ht Hq) as [-> Hq']; [lia|].
  by rewrite (to_erased _ _ _ _ Ht).
Qed.
Lemma mark_holds s m e : rt_holds s m → g_fwu_erased_end s ≤ e ≤ staging_size → e mod WT_FLASH_SECTOR_SIZE = 0 →
  rt_holds (s <| g_fwu_erased_end := e |>) m.
Proof.
  intros [H1 H2 H4 H3] He Hm. split; [done|simpl; split; [lia|done]|done|]. intros x v Hx. destruct (H3 x v Hx) as (? & ? & ?).
  simpl. split_and!; [lia|lia|done|done].
Qed.

Lemma ensure_erased_spec off size m s : 0 ≤ off → 0 < size → off + size ≤ staging_size → rt_holds s m →
  fwp (wt_fwu_ensure_erased off size) (λ r s', r = 0 → rt_holds s' m ∧ off + size ≤ g_fwu_erased_end s') s.
Proof.
  intros Ho Hs Hend Hm. apply fwp_fn. unfold wt_fwu_ensure_erased. cbv zeta.
  change (cf_sector_size g_fwu_flash_cfg) with 4096. assert (staging_size = 258048) as Ec by done.
  rewrite (u32_small (off + size)) by lia. rewrite (u32_small (off + size + 4096 - 1)) by lia.
  set (e := (off + size + 4096 - 1) / 4096 * 4096). assert (off + size ≤ e ≤ staging_size ∧ e mod 4096 = 0) as [He Hez].
  { unfold e. rewrite Z.mod_mul by lia. Z.div_mod_to_equations. lia. }
  rewrite (u32_small e) by lia. apply wp_bind, wp_gets. unfold id.
  assert (∀ fuel s1, rt_holds s1 m → e - g_fwu_erased_end s1 ≤ Z.of_nat fuel →
    wp (ensure_loop fuel (g_fwu_erased_end s1) e) (λ r s', r = 0 → rt_holds s' m ∧ off + size ≤ g_fwu_erased_end s')
      (λ _ s', rt_holds s' m ∧ off + size ≤ g_fwu_erased_end s') s1) as Hl.
  { induction fuel as [|fuel IH]; intros s1 H1 Hf; cbn [ensure_loop]; (apply wp_if; intros E;
      [apply Z.ltb_lt in E|apply Z.ltb_ge in E; apply wp_ret; split; [done|lia]]); [lia|]. cbv zeta.
    pose proof (rh_mark _ _ H1) as [Hmk Hmod]. change WT_FLASH_SECTOR_SIZE with 4096 in Hmod.
    assert (g_fwu_erased_end s1 + 4096 ≤ e) as Hn by (Z.div_mod_to_equations; lia).
    change (cf_sector_size g_fwu_flash_cfg) with 4096. apply wp_bind, wp_call.
    eapply fwp_mono; [apply erase_spec; lia|]. intros r s2 [Ht _]. apply wp_bind, wp_when; intros E2; [by apply wp_early|].
    rewrite (u32_small (g_fwu_erased_end s1 + 4096)) by lia.
    apply wp_bind, wp_modify. set (s3 := s2 <| g_fwu_erased_end := g_fwu_erased_end s1 + 4096 |>).
    change (g_fwu_erased_end s1 + 4096) with (g_fwu_erased_end s3). apply IH; [|simpl; lia].
    apply mark_holds; [|rewrite (to_erased _ _ _ _ Ht); lia|].
    - eapply (touched_holds (g_fwu_erased_end s1)); [|exact Ht|exact H1]; lia.
    - change WT_FLASH_SECTOR_SIZE with 4096. Z.div_mod_to_equations. lia. }
  apply wp_bind. eapply wp_mono; [apply Hl; [exact Hm|]|done|].
  - lia.
  - intros [] s1 H1. by apply wp_ret.
Qed.

Lemma reads_back_byte s off data i v : reads_back s off data = true → data !! i = Some v →
  flash_byte s (sbase + off + Z.of_nat i) = v.
Proof.
  unfold reads_back. fold sbase. intros Hrb%bool_decide_eq_true Hi. pose proof (lookup_lt_Some _ _ _ Hi).
  rewrite <-Hrb in Hi. rewrite mem_read_at in Hi by (by rewrite Nat2Z.id). by injection Hi.
Qed.
Lemma program_holds off data s s' m : 0 ≤ off → off + Z.of_nat (length data) ≤ g_fwu_erased_end s → rt_holds s m →
  touched off (off + Z.of_nat (length data)) s s' → all_quiet s' → reads_back s' off data = true → rt_holds s' (store m off data).
Proof.
  intros Ho Hend Hm Ht Hq Hrb. split; [apply Ht, Hm|rewrite (to_erased _ _ _ _ Ht); apply Hm|rewrite (to_written _ _ _ _ Ht); apply Hm|].
  intros x v. unfold store. rewrite (to_erased _ _ _ _ Ht). case_decide as Hx.
  - intros Hv. split_and!; [lia|lia| |by apply all_quiet_byte]. rewrite <-(reads_back_byte _ _ _ _ _ Hrb Hv). f_equal. lia.
  - intros Hv. destruct (rh_staged _ _ Hm x v Hv) as (Hb & Hf & Hqx).
    destruct (touched_byte _ _ s s' x Ht Hqx) as [-> _]; [lia|]. split_and!; [lia|lia|done|by apply all_quiet_byte].
Qed.

(** ** The operations *)

Lemma rt_begin_ok m s : rt_holds s m → fwp wt_fwu_backend_begin (λ r s', r = 0 → rt_holds s' blank) s.
Proof.
  intros Hm. apply fwp_fn, wp_bind, wp_call, fwp_fn. simpl. apply wp_bind, wp_modify, wp_ret. rewrite Z.eqb_refl. simpl.
  intros _. by split; [apply Hm|..].
Qed.
Lemma rt_write_ok off data m s : 0 ≤ off → 0 < Z.of_nat (length data) → rt_holds s m →
  fwp (wt_fwu_backend_write off data) (λ r s', r = 0 → rt_holds s' (store m off data)) s.
Proof.
  intros Ho Hlen Hm. apply fwp_fn. unfold wt_fwu_backend_write. cbv zeta.
  change (cf_size g_fwu_flash_cfg - cf_sector_size g_fwu_flash_cfg) with staging_size.
  apply wp_bind, wp_gets. apply wp_if; intros E1; [by apply wp_ret|]. bool_hyps.
  apply wp_bind, wp_call. eapply fwp_mono; [by apply (ensure_erased_spec off (Z.of_nat (length data)) m); try lia|].
  intros r s1 Hr1. apply wp_if; intros E2; [by apply wp_ret|]. apply negb_false_iff, Z.eqb_eq in E2.
  destruct (Hr1 E2) as [Hs1 Hmk]. apply wp_bind, wp_call. eapply fwp_mono; [by apply program_spec; [|apply Hs1]|].
  intros r2 s2 [Ht Hq]. apply wp_if; intros E3; [by apply wp_ret|]. apply negb_false_iff, Z.eqb_eq in E3.
  apply wp_bind, wp_gets. apply wp_if; intros E4; [by apply wp_ret|]. apply negb_false_iff in E4.
  apply wp_bind, wp_modify, wp_ret. intros _. simpl. change staging_size with 258048 in *. rewrite u32_small by lia.
  destruct Hq as (Hq & Hm1 & Hm2); [done|by destruct data|].
  assert (rt_holds s2 (store m off data)) as [Hx1 Hx2 _ Hx3] by by apply (program_holds off data s1).
  split; [done|done| |done]. simpl. by rewrite Zplus_mod, Hm1, Hm2.
Qed.

Definition trailer_block : list Z := default [] (wt_fwu_wolfboot_arm_trailer (zeros 16)).
Lemma rt_disarm_ok m s : rt_holds s m →
  fwp wt_fwu_backend_disarm (λ r s', r = 0 → rt_holds s' m ∧ rt_triggered s' = false) s.
Proof.
  intros Hm. apply fwp_fn. unfold wt_fwu_backend_disarm. cbv zeta.
  change (cf_size g_fwu_flash_cfg - cf_sector_size g_fwu_flash_cfg) with staging_size. apply wp_bind, wp_call.
  eapply fwp_mono; [by apply erase_spec|]. intros r s1 [Ht Hr].
  apply wp_if; intros E; [by apply wp_ret|]. apply negb_false_iff, Z.eqb_eq in E. apply wp_ret. intros _.
  destruct (Hr E) as [_ Hff]; [done|]. split.
  - eapply touched_holds; [|exact Ht|exact Hm]. apply Hm.
  - unfold rt_triggered. replace (sbase + WT_FWU_UPDATE_FLASH_SIZE - 5) with (sbase + (WT_FWU_UPDATE_FLASH_SIZE - 5)) by lia.
    rewrite Hff; [done|]. by vm_compute.
Qed.
Lemma rt_trailer_triggers s : reads_back s (WT_FWU_UPDATE_FLASH_SIZE - 16) trailer_block = true → rt_triggered s = true.
Proof.
  intros Hrb. unfold rt_triggered.
  assert (∀ i v, trailer_block !! i = Some v → flash_byte s (sbase + WT_FWU_UPDATE_FLASH_SIZE - 16 + Z.of_nat i) = v) as Hb.
  { intros i v Hi. rewrite <-(reads_back_byte _ _ _ _ _ Hrb Hi). done. }
  apply andb_true_iff. split; apply Z.eqb_eq.
  - rewrite <-(Hb 11%nat _ eq_refl). f_equal; lia.
  - unfold mem_read. change (Z.to_nat 4) with 4%nat. cbn [seq fmap list_fmap of_le].
    assert (∀ k v, trailer_block !! (12 + k)%nat = Some v →
      flash_byte s (sbase + WT_FWU_UPDATE_FLASH_SIZE - 4 + Z.of_nat k) = v) as Hk.
    { intros k v Hv. rewrite <-(Hb _ v Hv). f_equal; lia. }
    by rewrite (Hk 0%nat _ eq_refl), (Hk 1%nat _ eq_refl), (Hk 2%nat _ eq_refl), (Hk 3%nat _ eq_refl).
Qed.
Lemma disarm_defined s : fwp wt_fwu_backend_disarm (λ _ _, True) s.
Proof.
  apply fwp_fn. unfold wt_fwu_backend_disarm. cbv zeta. apply wp_bind, wp_call.
  eapply fwp_mono; [by apply erase_spec|]. intros r s1 _. by apply wp_if; intros _; apply wp_ret.
Qed.
Lemma rt_arm_ok size version m s : rt_holds s m →
  fwp (wt_fwu_backend_arm size version) (λ r s', r = 0 → rt_holds s' m ∧ rt_triggered s' = true) s.
Proof.
  intros Hm. apply fwp_fn. unfold wt_fwu_backend_arm. cbv zeta.
  change (wt_fwu_wolfboot_arm_trailer (zeros 16)) with (Some trailer_block). cbv beta iota.
  change (cf_size g_fwu_flash_cfg - cf_program_unit g_fwu_flash_cfg) with (WT_FWU_UPDATE_FLASH_SIZE - 16).
  apply wp_bind, wp_call. eapply fwp_mono; [by apply rt_disarm_ok|]. intros r s1 Hr1.
  apply wp_if; intros E1; [by apply wp_ret|]. apply negb_false_iff, Z.eqb_eq in E1. destruct (Hr1 E1) as [Hs1 _].
  apply wp_bind, wp_call. eapply fwp_mono; [by apply program_spec; [|apply Hs1]|]. intros r2 s2 [Ht Hq].
  apply wp_bind, wp_gets. unfold id. apply wp_if; intros E2.
  { apply wp_bind, wp_call. eapply fwp_mono; [apply disarm_defined|]. intros r3 s3 _. by apply wp_ret. }
  apply orb_false_iff in E2 as [_ E2]. apply negb_false_iff in E2. apply wp_ret. intros _. split; [|by apply rt_trailer_triggers].
  eapply touched_holds; [|exact Ht|exact Hs1]. etrans; [apply Hs1|]. by vm_compute.
Qed.

Lemma rt_total_ok {A} (f : func rt_flash A) a s s' r (Q : A → rt_flash → Prop) :
  fwp f Q s → total f a s = (s', r) → Q r s'.
Proof. intros Hf. unfold total. apply fwp_run in Hf as (s1 & a1 & -> & HQ). by intros [= <- <-]. Qed.

#[export] Instance rt700_staging : StagingFlash wt_fwu_flash_backend.
Proof.
  refine {| holds := rt_holds; triggered := rt_triggered |}.
  - intros w m m' Hm. split; by apply rt_holds_ext.
  - intros f w w' m [= <-] Hm E. by apply (rt_total_ok _ _ _ _ _ _ (rt_begin_ok m w Hm) E).
  - intros f off data w w' m [= <-] (Hpos & Hoff & _) Hm E.
    by apply (rt_total_ok _ _ _ _ _ _ (rt_write_ok off data m w Hoff Hpos Hm) E).
  - intros f size w w' ret ver m [= <-] Hm. by intros [= <-].
  - intros f size ver w w' m [= <-] Hm E. by apply (rt_total_ok _ _ _ _ _ _ (rt_arm_ok size ver m w Hm) E).
  - intros f w w' m [= <-] Hm E. by apply (rt_total_ok _ _ _ _ _ _ (rt_disarm_ok m w Hm) E).
  - split; by eexists.
Defined.

(** C21: on this port too, an update that a client carried to its end has left
    exactly the bytes of its blocks in the update partition and the boot loader's
    trigger in its trailer, whatever registers the flash controller returned on
    the way; the flash device is relied on only for keeping the bytes outside the
    commands issued to it, and for erasing a sector when it reports so. *)
Theorem rt700_update_installed (transport : transport_fn rt_flash) floor component version blocks s v m :
  agrees wt_fwu_flash_backend transport floor (fs_ctx s) v → rt_holds (fs_world s) m →
  Forall (λ '(offset, data), 0 ≤ offset < 2 ^ 32 ∧ Z.of_nat (length data) < 2 ^ 32) blocks →
  fwp (update component version blocks) (λ done s', done = true →
    (∀ x y, image wt_fwu_flash_backend blocks x = Some y → flash_byte (fs_world s') (sbase + x) = y) ∧
    rt_triggered (fs_world s') = true ∧ fc_state (fs_ctx s') = PSA_FWU_STAGED) s.
Proof.
  intros Ha Hm Hbl. eapply fwp_mono; [by eapply (update_complete wt_fwu_flash_backend transport floor)|].
  intros done s' Hd E. destruct (Hd E) as (Hh & Ht & Hst). split_and!; [|done|done]. intros x y Hx.
  by apply (rh_staged _ _ Hh x y).
Qed.

(** ** Images that are not a multiple of the programming unit *)

Definition image_size (blocks : list (Z * list Z)) : Z :=
  foldl (λ n '(offset, data), n `max` (offset + Z.of_nat (length data))) 0 blocks.

Lemma finish_refused component s m : fc_backend (fs_ctx s) = Some wt_fwu_flash_backend → rt_holds (fs_world s) m →
  fc_write_high (fs_ctx s) mod 16 ≠ 0 → fwp (wt_fwu_finish component) (λ st _, st ≠ PSA_SUCCESS) s.
Proof.
  intros Hb Hm Hw. apply fwp_fn, wp_bind, wp_gets. rewrite Hb. cbv beta iota. repeat (apply wp_if; intros _; [done|]).
  apply wp_bind. unfold fwu_bind_version. simpl. apply wp_bind, wp_gets, wp_bind, wp_backend.
  intros w' [ret ver] Er. unfold total in Er. simpl in Er. rewrite (proj2 (Z.eqb_neq _ _)) in Er.
  - injection Er as <- <- <-. simpl. by apply wp_bind, wp_modify, wp_early.
  - intros E. apply Hw. rewrite E. apply Hm.
Qed.
Lemma start_resets component version s : fwp (wt_fwu_start (W := rt_flash) component version)
  (λ st s', st = PSA_SUCCESS → fc_write_high (fs_ctx s') = 0) s.
Proof.
  apply fwp_fn, wp_bind, wp_gets. destruct (fc_backend _); [|by apply wp_ret]. repeat (apply wp_if; intros _; [by apply wp_ret|]).
  apply wp_bind. destruct (fb_begin w) as [f|]; simpl; [apply wp_backend; intros w' r _|];
    (apply wp_if; intros _; [by apply wp_ret|]); by apply wp_bind, wp_modify, wp_ret.
Qed.

(** C23: on this port no update of an image whose size is not a multiple of the
    programming unit of 16 bytes can be completed, although the service pads its
    last block and keeps the size without the padding: the backend compares that
    size with the end of the padded data, and refuses to finish. *)
Theorem rt700_unaligned_refused (transport : transport_fn rt_flash) floor component version blocks s v m :
  agrees wt_fwu_flash_backend transport floor (fs_ctx s) v → rt_holds (fs_world s) m →
  Forall (λ '(offset, data), 0 ≤ offset < 2 ^ 32 ∧ Z.of_nat (length data) < 2 ^ 32) blocks →
  image_size blocks mod 16 ≠ 0 →
  fwp (update component version blocks) (λ done _, done = false) s.
Proof.
  intros Ha Hm Hbl Hmod. rewrite Forall_forall in Hbl. apply fwp_fn. unfold update.
  set (b := wt_fwu_flash_backend) in *. assert (0 ≤ fb_align b) as Hal by done.
  set (I (l : list (Z * list Z)) (s' : fwu_sys rt_flash) := (∃ m', staging b transport floor m' s') ∧ fc_write_high (fs_ctx s') = image_size l).
  apply wp_bind, wp_expect; [done|]. eapply fwp_mono.
  { apply fwp_conj; [apply (start_keeps b transport floor component version s v Ha)|].
    apply fwp_conj; [by apply (start_erases b component version s m); [apply Ha|]|apply start_resets]. }
  intros st s1 ((v1 & _ & Ha1) & Her & Hz) Est. apply wp_bind, (wp_for_each blocks _ I).
  { split; [|auto]. exists blank. split; [by exists v1|auto]. }
  { intros l1 [offset data] l2 s2 Hl [(m2 & (v2 & Ha2) & Hh2) Hw2].
    destruct (Hbl (offset, data)) as [Ho Hd]; [rewrite Hl; set_solver|]. apply wp_expect; [done|]. eapply fwp_mono.
    { apply fwp_conj; [by apply (fwu_write_keeps b transport floor Hal component offset data Ho Hd s2 v2)|].
      by apply (write_stores b transport floor Hal component offset data s2 v2 m2). }
    intros st2 s3 ((v3 & _ & Ha3) & Hst) ->. destruct Hst as [(_ & _ & Hh & Hc)|[[? _]|[? _]]]; [|done|done].
    split; [eexists; split; [by exists v3|exact Hh]|]. rewrite Hc. simpl. unfold image_size. rewrite foldl_app. simpl.
    f_equal. exact Hw2. }
  intros s2 [(m2 & (v2 & Ha2) & Hh2) Hw2]. apply wp_bind, wp_expect; [done|].
  eapply fwp_mono; [apply (finish_refused component s2 m2); [apply Ha2|done|by rewrite Hw2]|]. by intros st2 s3 ?.
Qed.
End rt700.
