(* ===== verification/Rt700Example.v ===== *)
(** * Concrete updates on the MIMXRT700 port

    A flash that never fails, with its array computed from the register history,
    on which an image is updated; the same image with three bytes more is
    refused. *)

From Stdlib Require Import ZArith Lia.
From stdpp Require Import base list numbers option sets.
From S2P Require Import Prelude Buffers CState FfmTypes Service Fwu FwuProps FwuStage XspiNor XspiProps NorProps FlashRt700 FwuRt700Props.

Module Rt700Example.

(** ** The device *)

(** The registers of a controller that is always ready and a device that is
    never busy. *)
Definition reg_value (r : xspi_reg) : Z :=
  match r with
  | WT_XSPI0_ERRSTAT => WT_XSPI_ERRSTAT_ARB_WIN
  | WT_XSPI0_SR => WT_XSPI_SR_RXWE
  | WT_XSPI0_FSMSTAT => WT_XSPI_FSMSTAT_VLD .| 1
  | WT_XSPI0_RBSR => 1
  | WT_XSPI0_RBDR0 => WT_NOR_SR_WEL
  | _ => 0
  end.

(** The address register, the page program under way (address, size and words
    received) and the array. *)
Record dev := { dv_sfar : Z; dv_cur : option (Z * Z * Z); dv_array : Z → Z }.
Definition dev_step (e : xspi_event) (d : dev) : dev :=
  match e with
  | XWrite WT_XSPI0_SFP_TG_SFAR a => {| dv_sfar := a; dv_cur := dv_cur d; dv_array := dv_array d |}
  | XWrite WT_XSPI0_SFP_TG_IPCR v =>
    let q := (v .>> 24) .& 0xF in
    if q =? WT_NOR_SEQ_SE then
      let lo := dv_sfar d - dv_sfar d mod WT_XSPI_NOR_SECTOR in
      {| dv_sfar := dv_sfar d; dv_cur := None;
         dv_array := λ x, if (lo <=? x) && (x <? lo + WT_XSPI_NOR_SECTOR) then 0xFF else dv_array d x |}
    else if q =? WT_NOR_SEQ_PP then
      let n := v .& 0xFFFF in
      {| dv_sfar := dv_sfar d; dv_array := dv_array d;
         dv_cur := if dv_sfar d mod WT_XSPI_NOR_PAGE + n <=? WT_XSPI_NOR_PAGE then Some (dv_sfar d, n, 0) else None |}
    else d
  | XWrite WT_XSPI0_TBDR w =>
    match dv_cur d with
    | Some (a, n, k) =>
      if (0 <=? k) && (4 * k + 4 <=? n) then
        let p := a + 4 * k in
        {| dv_sfar := dv_sfar d; dv_cur := Some (a, n, k + 1);
           dv_array := λ x, if (p <=? x) && (x <? p + 4) then (w .>> (8 * (x - p))) .& 0xFF else dv_array d x |}
      else d
    | None => d
    end
  | XRead WT_CACHE64_CTRL0_CCR _ => {| dv_sfar := dv_sfar d; dv_cur := None; dv_array := dv_array d |}
  | _ => d
  end.
Definition dev_of (t : list xspi_event) : dev := foldr dev_step {| dv_sfar := 0; dv_cur := None; dv_array := λ _, 0 |} t.

Definition device : XspiDevice := {| xspi_value := λ _, reg_value; nor_array := λ t, dv_array (dev_of t) |}.
#[export] Instance platform : RtPlatform := {|
  rt_errors := {| WH_ERROR_OK := 0; WH_ERROR_BADARGS := -2000; WH_ERROR_ABORTED := -2002; WH_ERROR_LOCKED := -2010;
                  WH_ERROR_NOTVERIFIED := -2013; WH_ERROR_NOTBLANK := -2014 |};
  rt_device := device;
  wt_arch_thread_unprivileged := false;
  spm_sp_call := λ _ _ _ _ s, (s, (0, 0, []));
|}.

(** ** It obeys the law *)

Record dev_inv (t : list xspi_event) : Prop := {
  dn_sfar : nm_sfar (mon t) = dv_sfar (dev_of t);
  dn_cur a n k : dv_cur (dev_of t) = Some (a, n, k) →
    a mod WT_XSPI_NOR_PAGE + n ≤ WT_XSPI_NOR_PAGE ∧ (nm_stage (mon t) < 5)%nat ∧ ∃ cs, nm_changes (mon t) = NorProgram a n :: cs;
  dn_head c cs : nm_changes (mon t) = c :: cs → (nm_stage (mon t) < 5)%nat → c ∈ nm_open (mon t);
  dn_erased a cs x : nm_changes (mon t) = NorErase a :: cs → covers (NorErase a) x → dv_array (dev_of t) x = 0xFF;
}.
Lemma advance_same k b m : nm_sfar (advance k b m) = nm_sfar m ∧ nm_changes (advance k b m) = nm_changes m ∧
  nm_open (advance k b m) = nm_open m ∧ ((k < 4)%nat → (nm_stage m < 5)%nat → (nm_stage (advance k b m) < 5)%nat) ∧
  (nm_stage m ≤ nm_stage (advance k b m))%nat.
Proof.
  unfold advance. destruct (_ && _) eqn:E; simpl; [|split_and!; auto; lia]. apply andb_true_iff in E as [E%Nat.eqb_eq _].
  split_and!; auto; lia.
Qed.
(** An event that changes neither the device nor the changes known. *)
Lemma dev_inv_keep e t : dev_step e (dev_of t) = dev_of t →
  nm_sfar (mon_step e (mon t)) = nm_sfar (mon t) → nm_changes (mon_step e (mon t)) = nm_changes (mon t) →
  nm_open (mon_step e (mon t)) = nm_open (mon t) → ((nm_stage (mon t) < 5)%nat → (nm_stage (mon_step e (mon t)) < 5)%nat) →
  (nm_stage (mon t) ≤ nm_stage (mon_step e (mon t)))%nat → dev_inv t → dev_inv (e :: t).
Proof.
  intros Ed Es Ec Eo Hlt Hle [H1 H2 H3 H4].
  split; change (dev_of (e :: t)) with (dev_step e (dev_of t)); change (mon (e :: t)) with (mon_step e (mon t)); rewrite ?Ed, ?Es, ?Ec, ?Eo.
  - done.
  - intros a n k Hc. destruct (H2 a n k Hc) as (? & ? & ?). auto.
  - intros c cs Hc Hs. apply (H3 c cs); [done|lia].
  - done.
Qed.
Lemma dev_inv_program w t : dev_inv t → dev_inv (XWrite WT_XSPI0_TBDR w :: t).
Proof.
  intros [H1 H2 H3 H4]. change (mon (XWrite WT_XSPI0_TBDR w :: t)) with (mon t).
  assert (∀ a cs, nm_changes (mon t) = NorErase a :: cs → dv_cur (dev_of t) = None) as Hcur.
  { intros a cs Hc. destruct (dv_cur (dev_of t)) as [[[a' n] k]|]; [|done]. destruct (H2 _ _ _ eq_refl) as (_ & _ & cs' & Hc'). congruence. }
  split; change (mon (XWrite WT_XSPI0_TBDR w :: t)) with (mon t); simpl; fold (dev_of t).
  - destruct (dv_cur (dev_of t)) as [[[a n] k]|]; [|done]. by destruct (_ && _).
  - intros a n k. destruct (dv_cur (dev_of t)) as [[[a' n'] k']|] eqn:Ec; [|by rewrite Ec]. destruct (_ && _); simpl.
    + intros [= <- <- <-]. by eapply H2.
    + rewrite Ec. by apply H2.
  - done.
  - intros a cs x Hc Hx. rewrite (Hcur a cs Hc). by eapply H4.
Qed.
Lemma dev_inv_command v t : dev_inv t → dev_inv (XWrite WT_XSPI0_SFP_TG_IPCR v :: t).
Proof.
  intros Hi. pose proof Hi as [H1 H2 H3 H4]. set (e := XWrite WT_XSPI0_SFP_TG_IPCR v).
  assert (mon_step e (mon t) = see_command v (mon t)) as Em by done. unfold see_command in Em. cbv zeta in Em.
  assert (∀ m', nm_seq (m' <| nm_seq := (v .>> 24) .& 0xF |>) = (v .>> 24) .& 0xF) as Eseq by done. rewrite !Eseq in Em.
  assert (dev_step e (dev_of t) = dev_step e (dev_of t)) as Ed by done. unfold dev_step at 2 in Ed. unfold e at 2 in Ed. cbv zeta in Ed.
  destruct ((v .>> 24) .& 0xF =? WT_NOR_SEQ_SE) eqn:E1; [|destruct ((v .>> 24) .& 0xF =? WT_NOR_SEQ_PP) eqn:E2].
  - split; change (mon (e :: t)) with (mon_step e (mon t)); change (dev_of (e :: t)) with (dev_step e (dev_of t)); rewrite ?Em, ?Ed;
      cbn [issue nm_sfar nm_changes nm_open nm_stage dv_sfar dv_cur dv_array].
    + done.
    + done.
    + intros c cs [= <- _] _. left.
    + intros a cs x [= <- _]. change (nm_sfar (mon t <| nm_seq := _ |>)) with (nm_sfar (mon t)). rewrite H1. unfold covers.
      cbn [extent fst snd]. intros Hx. by rewrite (proj2 (Z.leb_le _ _)), (proj2 (Z.ltb_lt _ _)) by lia.
  - split; change (mon (e :: t)) with (mon_step e (mon t)); change (dev_of (e :: t)) with (dev_step e (dev_of t)); rewrite ?Em, ?Ed;
      cbn [issue nm_sfar nm_changes nm_open nm_stage dv_sfar dv_cur dv_array].
    + done.
    + intros a n k. destruct (_ <=? _) eqn:E3; [|done]. apply Z.leb_le in E3. intros [= <- <- <-].
      change (nm_sfar (mon t <| nm_seq := _ |>)) with (nm_sfar (mon t)). rewrite H1. split_and!; [done|lia|]. by eexists.
    + intros c cs [= <- _] _. left.
    + done.
  - apply dev_inv_keep; rewrite ?Em; done.
Qed.
Lemma dev_inv_flush v t : dev_inv t → dev_inv (XRead WT_CACHE64_CTRL0_CCR v :: t).
Proof.
  intros [H1 H2 H3 H4]. set (e := XRead WT_CACHE64_CTRL0_CCR v).
  split; change (mon (e :: t)) with (see_flushed v (mon t)); change (dev_of (e :: t)) with (dev_step e (dev_of t));
    unfold see_flushed; destruct (_ && _); try done.
  intros c cs _ Hs. exfalso. simpl in Hs. lia.
Qed.
Lemma dev_inv_all t : dev_inv t.
Proof.
  induction t as [|e t IH]; [by split|].
  assert (∀ m k b, (k < 4)%nat → nm_sfar m = nm_sfar (mon t) → nm_changes m = nm_changes (mon t) → nm_open m = nm_open (mon t) →
    nm_stage m = nm_stage (mon t) → mon_step e (mon t) = advance k b m → dev_step e (dev_of t) = dev_of t → dev_inv (e :: t)) as Hadv.
  { intros m k b Hk M1 M2 M3 M4 E Ed. destruct (advance_same k b m) as (H1 & H2 & H3 & H4 & H5). rewrite <-E in *.
    apply dev_inv_keep; try congruence; try done; rewrite <-M4; auto. }
  assert (∀ m, nm_sfar m = nm_sfar (mon t) → nm_changes m = nm_changes (mon t) → nm_open m = nm_open (mon t) →
    nm_stage m = nm_stage (mon t) → mon_step e (mon t) = m → dev_step e (dev_of t) = dev_of t → dev_inv (e :: t)) as Hsame.
  { intros m M1 M2 M3 M4 E Ed. apply dev_inv_keep; rewrite ?E, ?M4; auto. }
  destruct e as [r v|r v]; destruct r; try (apply (Hsame (mon t)); reflexivity).
  - cbn [mon_step] in *. unfold see_data in *. destruct (_ =? WT_NOR_SEQ_RDSR);
      [eapply (Hadv (mon t <| nm_wel := has_any v WT_NOR_SR_WEL |>) 2%nat); (reflexivity || lia)|].
    destruct (_ && _ && _); [apply (Hsame (mon t <| nm_clean := true |>))|apply (Hsame (mon t))]; reflexivity.
  - apply (Hsame (see_lut index v (mon t))); reflexivity.
  - cbn [mon_step] in *. unfold see_errstat in *. destruct (nm_stage (mon t) =? 0)%nat;
      [eapply (Hadv (mon t) 0%nat)|eapply (Hadv (mon t) 1%nat)]; (reflexivity || lia).
  - by apply dev_inv_flush.
  - by apply dev_inv_program.
  - apply (Hsame (see_lut index v (mon t))); reflexivity.
  - by apply dev_inv_command.
  - destruct IH as [H1 H2 H3 H4]. by split.
  - eapply (Hadv (mon t) 3%nat); (reflexivity || lia).
Qed.

#[export] Instance device_ok : NorDevice (H := device).
Proof.
  split.
  - intros e t x Hx. change (dv_array (dev_step e (dev_of t)) x = dv_array (dev_of t) x).
    destruct (dev_inv_all t) as [H1 H2 H3 H4]. destruct e as [r v|r v]; destruct r; try reflexivity; cbn [dev_step].
    + destruct (dv_cur (dev_of t)) as [[[a n] k]|] eqn:Ec; [|done]. destruct (_ && _) eqn:E; [|done]. bool_hyps. cbv zeta. cbn [dv_array].
      destruct (H2 a n k eq_refl) as (Hpg & Hst & cs & Hcs). specialize (Hx _ (or_introl (H3 _ _ Hcs Hst))).
      unfold covers in Hx. simpl in Hx. rewrite (proj2 (Z.leb_le _ _)) in Hx by done. simpl in Hx.
      destruct (Z.leb_spec (a + 4 * k) x), (Z.ltb_spec x (a + 4 * k + 4)); simpl; try done. exfalso. apply Hx. lia.
    + cbv zeta. destruct (_ =? WT_NOR_SEQ_SE) eqn:E1; [|destruct (_ =? WT_NOR_SEQ_PP); reflexivity]. cbn [dv_array].
      assert (¬ covers (NorErase (dv_sfar (dev_of t))) x) as Hn.
      { rewrite <-H1. apply Hx. right. change (mon (_ :: t)) with (see_command v (mon t)). unfold see_command. cbv zeta.
        change (nm_seq (mon t <| nm_seq := ?q |>)) with q. rewrite E1. left. }
      unfold covers in Hn. simpl in Hn.
      match goal with |- context [?l <=? x] => destruct (Z.leb_spec l x), (Z.ltb_spec x (l + WT_XSPI_NOR_SECTOR)) end; simpl; try done.
      exfalso. apply Hn. lia.
  - intros t a cs x Hc _ _ _ Hx. exact (dn_erased _ (dev_inv_all t) a cs x Hc Hx).
Qed.
#[export] Instance codes_ok : WhErrorsOk.
Proof. split. simpl. lia. Qed.

(** ** The updates *)

Definition nor0 : xspi := {| xs_history := []; g_wt_xspi_page := zeros 256 |}.
Definition flash0 : rt_flash :=
  {| rf_nor := nor0; rf_hsm_locked := false; rf_fwu_locked := false; g_fwu_erased_end := 0; g_fwu_written_end := 0;
     g_wt_nor_last_error := 0; g_wt_flash_gate_aborts := (0, 0) |}.

Lemma nor_confined_witness :
  (fwp (wt_xspi_nor_erase 0x28180000 0x1000) (λ _ s', writes_only 0x28180000 0x1000 nor0 s') nor0 ∧
   fwp (wt_xspi_nor_program 0x28180000 (replicate 16 7)) (λ rc s', writes_only 0x28180000 16 nor0 s' ∧
     (s' = nor0 ∨ g_wt_xspi_page s' = zeros 256)) nor0) ∧
  snd <$> wt_xspi_nor_erase 0x28180000 0x1000 nor0 = Some WT_XSPI_NOR_OK ∧
  snd <$> wt_xspi_nor_program 0x28180000 (replicate 16 7) nor0 = Some WT_XSPI_NOR_OK ∧
  snd <$> wt_xspi_nor_program 0x28080000 (replicate 16 7) nor0 = Some WT_XSPI_NOR_ARGUMENT.
Proof.
  split; [|split_and!; vm_compute; reflexivity].
  apply (nor_confined (H := device) 0x28180000 0x1000 (replicate 16 7) nor0); [lia|lia|reflexivity].
Defined.

(** An image header with version 7; a zero tag ends its records. *)
Definition image_header : list Z :=
  to_le 4 WT_FWU_IMAGE_MAGIC ++ to_le 4 0 ++ [1; 0; 4; 0; 7; 0; 0; 0] ++ replicate 1008 0.
Definition silent : svc_result :=
  {| sr_return := 0; sr_int := 0; sr_status := 0; sr_tick := 0; sr_handle := 0; sr_version := 3; sr_asserted := 0;
     sr_msg := {| pm_type := 0; pm_handle := 0; pm_client_id := 0; pm_rhandle := 0; pm_in_size := []; pm_out_size := [] |};
     sr_data := []; sr_out := [] |}.
Definition service (w : rt_flash) : fwu_sys rt_flash :=
  {| fs_ctx := {| fc_transport := Some (λ _ w, (w, silent)); fc_backend := Some wt_fwu_flash_backend; fc_version_floor := 3;
                  fc_state := PSA_FWU_READY; fc_write_high := 0; fc_candidate_version := 0; fc_armed := 0; fc_error := 0;
                  fc_active_version := 3; fc_owner := 0; fc_owner_tick := 0 |};
     fs_world := w |}.
Definition nothing : update_view := {| uv_verified := None; uv_armed := None |}.
Lemma rt_service_agrees w : agrees wt_fwu_flash_backend (λ _ w, (w, silent)) 3 (fs_ctx (service w)) nothing.
Proof. constructor; simpl; try done; by left. Qed.
Lemma flash0_holds : rt_holds flash0 blank.
Proof. split; simpl; [reflexivity|by split|done|done]. Qed.

Definition blocks : list (Z * list Z) := [(0, take 512 image_header); (512, drop 512 image_header); (1024, replicate 16 9)].
Lemma rt700_update_installed_witness :
  fwp (update 0 7 blocks) (λ done s', done = true →
    (∀ x y, image wt_fwu_flash_backend blocks x = Some y → flash_byte (fs_world s') (sbase + x) = y) ∧
    rt_triggered (fs_world s') = true ∧ fc_state (fs_ctx s') = PSA_FWU_STAGED) (service flash0) ∧
  snd <$> update 0 7 blocks (service flash0) = Some true.
Proof.
  split; [|vm_compute; reflexivity].
  apply (rt700_update_installed (Hp := platform) eq_refl (λ _ w, (w, silent)) 3 0 7 blocks (service flash0) nothing blank).
  - apply rt_service_agrees.
  - apply flash0_holds.
  - repeat constructor; simpl; lia.
Defined.

Definition long_blocks : list (Z * list Z) := [(0, take 512 image_header); (512, drop 512 image_header); (1024, [1; 2; 3])].
Lemma rt700_unaligned_refused_witness :
  fwp (update 0 7 long_blocks) (λ done _, done = false) (service flash0) ∧ image_size long_blocks = 1027.
Proof.
  split; [|vm_compute; reflexivity].
  apply (rt700_unaligned_refused (Hp := platform) eq_refl (λ _ w, (w, silent)) 3 0 7 long_blocks (service flash0) nothing blank).
  - apply rt_service_agrees.
  - apply flash0_holds.
  - repeat constructor; simpl; lia.
  - vm_compute. discriminate.
Defined.
End Rt700Example.
