(* ===== verification/VaultStore.v ===== *)
(** * The object store of the vault: [services/wolfhsm/wt_hsm_vault.c]

    Storage objects live as objects of wolfHSM's non-volatile store, addressed
    by a label that holds the owner, the delegated client and the caller's uid.
    Sealed objects are authenticated against a counter per slot, and their
    replacement and removal are transactions that the next operation finishes
    or rolls back. The non-volatile store and the cipher are parameters. *)

From Stdlib Require Import ZArith Lia.
From stdpp Require Import base list numbers option sets gmap.
From S2P Require Import Prelude Buffers CState FfmTypes Service.

Definition PSA_ERROR_INVALID_SIGNATURE : Z := -149.
Definition PSA_ERROR_ALREADY_EXISTS : Z := -139.

Definition WT_VAULT_FLAG_WRITE_ONCE : Z := 0x1.
Definition WT_VAULT_FLAG_NO_CONFIDENTIALITY : Z := 0x2.
Definition WT_VAULT_FLAG_NO_REPLAY : Z := 0x4.
Definition WT_VAULT_FLAG_SEALED : Z := 0x10000.
Definition WT_VAULT_FLAG_KEY : Z := 0x20000.
Definition WT_VAULT_OBJECT_MAX : Z := 1024.
Definition WT_VAULT_NVM_LABEL_LEN : Z := 24.
Definition WT_VAULT_NVM_DESTROY_MAX : Z := 8.
Definition WT_VAULT_SEAL_TAG_LEN : Z := 16.

Definition WT_HSM_VAULT_ID_BASE : Z := 0x0100.
Definition WT_HSM_VAULT_ID_COUNT : Z := 32.
Definition WT_HSM_VAULT_LABEL_MAGIC : Z := 0x31565457.
Definition WT_HSM_VAULT_TABLE_MAGIC : Z := 0x43565457.
Definition WT_HSM_VAULT_STAGE_ID : Z := 0x0123.
Definition WT_HSM_VAULT_TABLE_ID : Z := 0x0121.
Definition WT_HSM_VAULT_DELETE_MARKER_BASE : Z := WT_HSM_VAULT_ID_COUNT.
Definition WT_HSM_VAULT_FLAG_MASK : Z :=
  WT_VAULT_FLAG_WRITE_ONCE .| WT_VAULT_FLAG_NO_CONFIDENTIALITY .| WT_VAULT_FLAG_NO_REPLAY .| WT_VAULT_FLAG_SEALED.

(** ** The non-volatile store *)

Record whNvmMetadata := { md_id : Z; md_access : Z; md_flags : Z; md_len : Z; md_label : list Z }.
(** [memset(&meta, 0, sizeof(meta))] *)
Definition zero_meta : whNvmMetadata :=
  {| md_id := 0; md_access := 0; md_flags := 0; md_len := 0; md_label := zeros (Z.to_nat WT_VAULT_NVM_LABEL_LEN) |}.

(** The constants and functions of wolfHSM's NVM interface on a store [N]. A
    label has 24 bytes. *)
Class WhNvm (N : Type) := {
  nvm_errors :: WhErrors;
  WH_ERROR_NOTFOUND : Z;
  WH_ERROR_ACCESS : Z;
  WH_ERROR_NOSPACE : Z;
  WH_NVM_ACCESS_ANY : Z;
  WH_NVM_FLAGS_SENSITIVE : Z;
  WH_NVM_FLAGS_NONMODIFIABLE : Z;
  WH_NVM_FLAGS_NONDESTROYABLE : Z;
  WH_NVM_FLAGS_NONEXPORTABLE : Z;
  WH_NVM_ID_INVALID : Z;
  WH_KEYTYPE_MASK : Z;
  WHFU_BYTES_PER_UNIT : Z;
  WHFU_BYTES2UNITS : Z → Z;
  wh_Nvm_GetMetadata : Z → N → N * (Z * whNvmMetadata);
  wh_Nvm_Read : Z → Z → Z → N → N * (Z * list Z);
  wh_Nvm_ReadChecked : Z → Z → Z → N → N * (Z * list Z);
  wh_Nvm_AddObject : whNvmMetadata → list Z → N → N * Z;
  wh_Nvm_AddObjectChecked : whNvmMetadata → list Z → N → N * Z;
  wh_Nvm_DestroyObjects : list Z → N → N * Z;
  wh_Nvm_DestroyObjectsChecked : list Z → N → N * Z;
  wh_Nvm_GetAvailable : N → N * (Z * (Z * Z * Z * Z));   (** sizes and objects: available, reclaimable *)
}.

(** The status and what was written to the output buffer. *)
Record wt_vault_sealer := {
  sl_seal : list Z → Z → list Z → Z * list Z;
  sl_unseal : list Z → Z → list Z → Z * list Z;
}.

Record wt_hsm_vault_table := { vt_magic : Z; vt_reserved : Z; vt_global : Z; vt_slot : list Z }.
#[export] Instance table_eta : Settable wt_hsm_vault_table := λ t,
  {| vt_magic := vt_magic t; vt_reserved := vt_reserved t; vt_global := vt_global t; vt_slot := vt_slot t |}.
#[export] Instance set_vt_reserved : Setter vt_reserved. Proof. derive_setter. Defined.
#[export] Instance set_vt_global : Setter vt_global. Proof. derive_setter. Defined.
#[export] Instance set_vt_slot : Setter vt_slot. Proof. derive_setter. Defined.
Definition sizeof_table : Z := 272.
Definition bytes_of_table (t : wt_hsm_vault_table) : list Z :=
  to_le 4 (vt_magic t) ++ to_le 4 (vt_reserved t) ++ to_le 8 (vt_global t) ++ concat (to_le 8 <$> vt_slot t).
Definition table_of_bytes (buf : list Z) : wt_hsm_vault_table :=
  {| vt_magic := field buf 0 4; vt_reserved := field buf 4 4; vt_global := field buf 8 8;
     vt_slot := (λ i, field buf (16 + 8 * i) 8) <$> seq 0 (Z.to_nat WT_HSM_VAULT_ID_COUNT) |}.
Definition fresh_table : wt_hsm_vault_table :=
  {| vt_magic := WT_HSM_VAULT_TABLE_MAGIC; vt_reserved := 0; vt_global := 0;
     vt_slot := replicate (Z.to_nat WT_HSM_VAULT_ID_COUNT) 0 |}.

(** The statics of the file, with the store behind [g_vault_nvm] (which is bound
    or null) and a history, the newest first: the store after each operation on
    it, and the counters that ciphertexts were made with. *)
Inductive vault_event (N : Type) := EvStore (n : N) | EvSeal (counter : Z).
Arguments EvStore {N}. Arguments EvSeal {N}.
Record vault (N : Type) := {
  vl_nvm : N;
  g_vault_nvm : bool;
  g_vault_sealer : option wt_vault_sealer;
  g_vault_ct : list Z;
  g_vault_pt : list Z;
  vl_log : list (vault_event N);
}.
Arguments vl_nvm {N}. Arguments g_vault_nvm {N}. Arguments g_vault_sealer {N}. Arguments g_vault_ct {N}.
Arguments g_vault_pt {N}. Arguments vl_log {N}.
Section setters.
Context {N : Type}.
#[export] Instance vault_eta : Settable (vault N) := λ s,
  {| vl_nvm := vl_nvm s; g_vault_nvm := g_vault_nvm s; g_vault_sealer := g_vault_sealer s;
     g_vault_ct := g_vault_ct s; g_vault_pt := g_vault_pt s; vl_log := vl_log s |}.
#[export] Instance set_vl_nvm : Setter (@vl_nvm N). Proof. derive_setter. Defined.
#[export] Instance set_g_vault_nvm : Setter (@g_vault_nvm N). Proof. derive_setter. Defined.
#[export] Instance set_g_vault_sealer : Setter (@g_vault_sealer N). Proof. derive_setter. Defined.
#[export] Instance set_g_vault_ct : Setter (@g_vault_ct N). Proof. derive_setter. Defined.
#[export] Instance set_g_vault_pt : Setter (@g_vault_pt N). Proof. derive_setter. Defined.
#[export] Instance set_vl_log : Setter (@vl_log N). Proof. derive_setter. Defined.
End setters.

(** ** Labels *)

Definition wt_hsm_vault_make_label (owner sub uid flags : Z) : list Z :=
  to_le 4 WT_HSM_VAULT_LABEL_MAGIC ++ to_le 4 (u32 owner) ++ to_le 8 uid ++ to_le 4 flags ++ to_le 4 (u32 sub).
Definition wt_hsm_vault_label_match (label : list Z) (owner sub uid : Z) : bool :=
  (field label 0 4 =? WT_HSM_VAULT_LABEL_MAGIC) && (i32_of_u32 (field label 4 4) =? owner) &&
  (i32_of_u32 (field label 20 4) =? sub) && (field label 8 8 =? uid).
Definition wt_hsm_vault_flags_of (label : list Z) : Z := field label 16 4.

Section vault.
Context {N : Type} `{!WhNvm N}.

Definition nvm {A} (f : N → N * A) : func (vault N) A := λ s,
  let '(n, a) := f (vl_nvm s) in Some (s <| vl_nvm := n |> <| vl_log := EvStore n :: vl_log s |>, a).

(** [nvm]: [None] for null, else whether its callbacks are those of the flash
    store. *)
Definition wt_hsm_vault_init (nvm : option bool) : func (vault N) Z := fn (
  if negb (default false nvm) then modify (λ s, s <| g_vault_nvm := false |>);; mret (-1) else
  modify (λ s, s <| g_vault_nvm := true |>);; mret 0).
Definition wt_hsm_vault_set_sealer (sealer : option wt_vault_sealer) : func (vault N) unit := fn (
  modify (λ s, s <| g_vault_sealer := sealer |>)).

(** On [g_vault_pt], the only buffer it is called for. *)
Definition wt_hsm_vault_zeroize (len : Z) : func (vault N) unit := fn (
  pt ← gets g_vault_pt;
  pt ← defined (buf_write pt 0 (zeros (Z.to_nat len)));
  modify (λ s, s <| g_vault_pt := pt |>)).

Definition wt_hsm_vault_map_err (rc : Z) : Z :=
  if rc =? WH_ERROR_OK then PSA_SUCCESS
  else if rc =? WH_ERROR_ACCESS then PSA_ERROR_NOT_PERMITTED
  else if rc =? WH_ERROR_NOSPACE then PSA_ERROR_INSUFFICIENT_STORAGE
  else if rc =? WH_ERROR_NOTFOUND then PSA_ERROR_DOES_NOT_EXIST
  else PSA_ERROR_STORAGE_FAILURE.

(** ** Space *)

Definition wt_hsm_vault_storage_size (len : Z) : Z := u32 (WHFU_BYTES2UNITS len * WHFU_BYTES_PER_UNIT).

Definition wt_hsm_vault_reserve (need_size need_objects : Z) : func (vault N) Z := fn (
  '(rc, (avail_size, avail_objects, reclaim_size, reclaim_objects)) ← call (nvm wh_Nvm_GetAvailable);
  if negb (rc =? WH_ERROR_OK) then mret (wt_hsm_vault_map_err rc) else
  if (avail_size <? need_size) || (avail_objects <? need_objects) then
    if (need_size <=? u32 (avail_size + reclaim_size)) && (need_objects <=? u32 (avail_objects + reclaim_objects)) then
      rc ← call (nvm (wh_Nvm_DestroyObjects []));
      if negb (rc =? WH_ERROR_OK) then mret (wt_hsm_vault_map_err rc) else mret PSA_SUCCESS
    else mret PSA_ERROR_INSUFFICIENT_STORAGE
  else mret PSA_SUCCESS).
Definition wt_hsm_vault_reserve_object (len : Z) : func (vault N) Z := fn (
  bound ← gets g_vault_nvm;
  if negb bound then mret PSA_ERROR_NOT_SUPPORTED else
  call (wt_hsm_vault_reserve (u32 (wt_hsm_vault_storage_size len + wt_hsm_vault_storage_size sizeof_table)) 2)).

Definition wt_hsm_vault_table_store (table : wt_hsm_vault_table) : func (vault N) Z := fn (
  status ← call (wt_hsm_vault_reserve (wt_hsm_vault_storage_size sizeof_table) 1);
  if negb (status =? PSA_SUCCESS) then mret status else
  let meta := {| md_id := WT_HSM_VAULT_TABLE_ID; md_access := WH_NVM_ACCESS_ANY; md_flags := 0; md_len := sizeof_table;
                 md_label := md_label zero_meta |} in
  rc ← call (nvm (wh_Nvm_AddObject meta (bytes_of_table table)));
  mret (if rc =? WH_ERROR_OK then PSA_SUCCESS else PSA_ERROR_STORAGE_FAILURE)).

(** ** Sealed objects *)

Definition wt_hsm_vault_read_sealed (id : Z) (meta : whNvmMetadata) (counter : Z) : func (vault N) Z := fn (
  s ← gets (λ s, s);
  match g_vault_sealer s with
  | None => mret PSA_ERROR_NOT_SUPPORTED
  | Some sealer =>
    if (counter =? 0) || negb (has_any (wt_hsm_vault_flags_of (md_label meta)) WT_VAULT_FLAG_SEALED) ||
       (md_len meta <? WT_VAULT_SEAL_TAG_LEN) || (WT_VAULT_OBJECT_MAX + WT_VAULT_SEAL_TAG_LEN <? md_len meta)
    then mret PSA_ERROR_INVALID_SIGNATURE else
    '(rc, bytes) ← call (nvm (wh_Nvm_ReadChecked id 0 (md_len meta)));
    ct ← defined (buf_write (g_vault_ct s) 0 bytes);
    modify (λ s, s <| g_vault_ct := ct |>);;
    let status := wt_hsm_vault_map_err rc in
    if negb (status =? PSA_SUCCESS) then mret status else
    let pt_len := md_len meta - WT_VAULT_SEAL_TAG_LEN in
    ct ← defined (buf_read ct 0 (md_len meta));
    let '(status, bytes) := sl_unseal sealer (md_label meta) counter ct in
    pt ← defined (buf_write (g_vault_pt s) 0 bytes);
    modify (λ s, s <| g_vault_pt := pt |>);;
    when (negb (status =? PSA_SUCCESS)) (call (wt_hsm_vault_zeroize pt_len));;
    mret status
  end).

(** ** Recovery of an unfinished transaction *)

Definition wt_hsm_vault_destroy_stage : func (vault N) Z := fn (
  '(rc, _) ← call (nvm (wh_Nvm_GetMetadata WT_HSM_VAULT_STAGE_ID));
  if rc =? WH_ERROR_NOTFOUND then mret PSA_SUCCESS else
  if negb (rc =? WH_ERROR_OK) then mret PSA_ERROR_STORAGE_FAILURE else
  rc ← call (nvm (wh_Nvm_DestroyObjects [WT_HSM_VAULT_STAGE_ID]));
  mret (wt_hsm_vault_map_err rc)).

(** [table->slot[slot]] *)
Definition slot_get {R} (table : wt_hsm_vault_table) (slot : Z) : prog (vault N) R Z :=
  defined (arr_get (vt_slot table) (Z.to_nat slot)).
Definition slot_set {R} (table : wt_hsm_vault_table) (slot v : Z) : prog (vault N) R wt_hsm_vault_table :=
  a ← defined (arr_set (vt_slot table) (Z.to_nat slot) v); mret (table <| vt_slot := a |>).

(** The end of both recoveries: the table without its marker, and no stage. *)
Definition settle (table : wt_hsm_vault_table) : func (vault N) (Z * wt_hsm_vault_table) := fn (
  let table := table <| vt_reserved := 0 |> in
  status ← call (wt_hsm_vault_table_store table);
  if negb (status =? PSA_SUCCESS) then mret (status, table) else
  status ← call wt_hsm_vault_destroy_stage;
  mret (status, table)).

Definition wt_hsm_vault_recover_live (table : wt_hsm_vault_table) : func (vault N) (Z * wt_hsm_vault_table) := fn (
  let slot := u32 (vt_reserved table - 1) in
  let id := u16 (WT_HSM_VAULT_ID_BASE + slot) in
  '(rc, meta) ← call (nvm (wh_Nvm_GetMetadata id));
  status ← (if rc =? WH_ERROR_OK then c ← slot_get table slot; call (wt_hsm_vault_read_sealed id meta c)
            else if negb (rc =? WH_ERROR_NOTFOUND) then early (PSA_ERROR_STORAGE_FAILURE, table)
            else mret PSA_ERROR_DOES_NOT_EXIST);
  table ← (
    if status =? PSA_SUCCESS then
      call (wt_hsm_vault_zeroize (md_len meta - WT_VAULT_SEAL_TAG_LEN));; mret table
    else if (status =? PSA_ERROR_INVALID_SIGNATURE) || (status =? PSA_ERROR_NOT_PERMITTED) ||
            (status =? PSA_ERROR_DOES_NOT_EXIST) then
      when (rc =? WH_ERROR_OK) (
        drc ← call (nvm (wh_Nvm_DestroyObjects [id]));
        let status := wt_hsm_vault_map_err drc in
        when (negb (status =? PSA_SUCCESS)) (early (status, table)));;
      slot_set table slot 0
    else early (status, table));
  call (settle table)).

(** The key writer alone leaves such objects, see [keyvault.c]. *)
Definition is_key_object (meta : whNvmMetadata) : bool :=
  (field (md_label meta) 0 4 =? WT_HSM_VAULT_LABEL_MAGIC) &&
  has_any (wt_hsm_vault_flags_of (md_label meta)) WT_VAULT_FLAG_KEY &&
  negb (has_any (wt_hsm_vault_flags_of (md_label meta)) WT_VAULT_FLAG_SEALED) &&
  has_any (md_flags meta) WH_NVM_FLAGS_NONEXPORTABLE.

(** The marker of an unfinished removal. *)
Definition recover_delete (table : wt_hsm_vault_table) : func (vault N) (Z * wt_hsm_vault_table) := fn (
  let slot := u32 (vt_reserved table - WT_HSM_VAULT_DELETE_MARKER_BASE - 1) in
  let id := u16 (WT_HSM_VAULT_ID_BASE + slot) in
  '(rc, meta) ← call (nvm (wh_Nvm_GetMetadata id));
  let status := wt_hsm_vault_map_err rc in
  (if status =? PSA_SUCCESS then
     when (negb (is_key_object meta)) (
       rc ← call (nvm (wh_Nvm_DestroyObjectsChecked [id]));
       let status := wt_hsm_vault_map_err rc in
       when (negb (status =? PSA_SUCCESS) && negb (status =? PSA_ERROR_DOES_NOT_EXIST)) (early (status, table)))
   else when (negb (status =? PSA_ERROR_DOES_NOT_EXIST)) (early (status, table)));;
  table ← slot_set table slot 0;
  let table := table <| vt_reserved := 0 |> in
  status ← call (wt_hsm_vault_table_store table);
  mret (status, table)).

Definition wt_hsm_vault_recover (table : wt_hsm_vault_table) : func (vault N) (Z * wt_hsm_vault_table) := fn (
  if WT_HSM_VAULT_DELETE_MARKER_BASE <? vt_reserved table then call (recover_delete table) else
  if vt_reserved table =? 0 then status ← call wt_hsm_vault_destroy_stage; mret (status, table) else
  let slot := u32 (vt_reserved table - 1) in
  let id := u16 (WT_HSM_VAULT_ID_BASE + slot) in
  '(rc, stage_meta) ← call (nvm (wh_Nvm_GetMetadata WT_HSM_VAULT_STAGE_ID));
  let status := wt_hsm_vault_map_err rc in
  status ← (if status =? PSA_SUCCESS then
              c ← slot_get table slot; call (wt_hsm_vault_read_sealed WT_HSM_VAULT_STAGE_ID stage_meta c)
            else mret status);
  if (status =? PSA_ERROR_DOES_NOT_EXIST) || (status =? PSA_ERROR_NOT_PERMITTED) || (status =? PSA_ERROR_INVALID_SIGNATURE)
  then call (wt_hsm_vault_recover_live table) else
  if negb (status =? PSA_SUCCESS) then mret (status, table) else
  call (wt_hsm_vault_zeroize (md_len stage_meta - WT_VAULT_SEAL_TAG_LEN));;
  let meta := {| md_id := id; md_access := md_access stage_meta; md_flags := WH_NVM_FLAGS_SENSITIVE;
                 md_len := md_len stage_meta; md_label := md_label stage_meta |} in
  status ← call (wt_hsm_vault_reserve
                   (u32 (wt_hsm_vault_storage_size (md_len meta) + wt_hsm_vault_storage_size sizeof_table)) 2);
  if negb (status =? PSA_SUCCESS) then mret (status, table) else
  ct ← gets g_vault_ct;
  ct ← defined (buf_read ct 0 (md_len meta));
  rc ← call (nvm (wh_Nvm_AddObject meta ct));
  let status := wt_hsm_vault_map_err rc in
  if negb (status =? PSA_SUCCESS) then mret (status, table) else
  call (settle table)).

(** The status, and the table if it is [PSA_SUCCESS]. *)
Definition wt_hsm_vault_table_load : func (vault N) (Z * wt_hsm_vault_table) := fn (
  '(rc, meta) ← call (nvm (wh_Nvm_GetMetadata WT_HSM_VAULT_TABLE_ID));
  if rc =? WH_ERROR_NOTFOUND then call (wt_hsm_vault_recover fresh_table) else
  if negb (rc =? WH_ERROR_OK) || negb (md_len meta =? sizeof_table) then mret (PSA_ERROR_STORAGE_FAILURE, fresh_table) else
  '(rc, bytes) ← call (nvm (wh_Nvm_Read WT_HSM_VAULT_TABLE_ID 0 sizeof_table));
  let table := table_of_bytes bytes in
  if negb (rc =? WH_ERROR_OK) || negb (vt_magic table =? WT_HSM_VAULT_TABLE_MAGIC) ||
     (WT_HSM_VAULT_DELETE_MARKER_BASE + WT_HSM_VAULT_ID_COUNT <? vt_reserved table)
  then mret (PSA_ERROR_STORAGE_FAILURE, table) else
  call (wt_hsm_vault_recover table)).

(** ** The directory *)

Definition window_ids : list Z :=
  (λ i, u16 (WT_HSM_VAULT_ID_BASE + Z.of_nat i)) <$> seq 0 (Z.to_nat WT_HSM_VAULT_ID_COUNT).
(** The status, the id and metadata found, and the lowest free id. *)
Fixpoint lookup_loop {R} (ids : list Z) (owner sub uid free_id : Z) : prog (vault N) R (Z * (Z * whNvmMetadata) * Z) :=
  match ids with
  | [] => mret (PSA_ERROR_DOES_NOT_EXIST, (WH_NVM_ID_INVALID, zero_meta), free_id)
  | id :: ids' =>
    '(rc, meta) ← call (nvm (wh_Nvm_GetMetadata id));
    if rc =? WH_ERROR_NOTFOUND then
      lookup_loop ids' owner sub uid (if free_id =? WH_NVM_ID_INVALID then id else free_id)
    else if rc =? WH_ERROR_OK then
      if wt_hsm_vault_label_match (md_label meta) owner sub uid then mret (PSA_SUCCESS, (id, meta), free_id)
      else lookup_loop ids' owner sub uid free_id
    else mret (PSA_ERROR_STORAGE_FAILURE, (WH_NVM_ID_INVALID, zero_meta), free_id)
  end.
Definition wt_hsm_vault_lookup (owner sub uid : Z) : func (vault N) (Z * (Z * whNvmMetadata) * Z) := fn (
  bound ← gets g_vault_nvm;
  if negb bound then mret (PSA_ERROR_NOT_SUPPORTED, (WH_NVM_ID_INVALID, zero_meta), WH_NVM_ID_INVALID) else
  lookup_loop window_ids owner sub uid WH_NVM_ID_INVALID).

(** ** Storage operations *)

(** The old object's ciphertext is read back, so that it can be staged: whether
    the write is a replacement that has to be protected. *)
Definition check_replaced (id : Z) (meta : whNvmMetadata) (counter : Z) : prog (vault N) Z bool :=
  status ← call (wt_hsm_vault_read_sealed id meta counter);
  if status =? PSA_ERROR_INVALID_SIGNATURE then mret false else
  if negb (status =? PSA_SUCCESS) then early status else
  call (wt_hsm_vault_zeroize (md_len meta - WT_VAULT_SEAL_TAG_LEN));; mret true.

Definition set_need (replacement : bool) (store_len old_len : Z) : Z :=
  let need := u32 (wt_hsm_vault_storage_size store_len + wt_hsm_vault_storage_size sizeof_table) in
  if replacement
  then u32 (need + u32 (u32 (2 * wt_hsm_vault_storage_size old_len) + wt_hsm_vault_storage_size sizeof_table))
  else need.

(** The table that is stored before the object: with the mark of a replacement,
    or with the counter of the new object. *)
Definition mark_slot (replacement sealed : bool) (table : wt_hsm_vault_table) (slot counter : Z) :
    prog (vault N) Z wt_hsm_vault_table :=
  c0 ← slot_get table slot;
  if replacement || sealed || negb (c0 =? 0) then
    table ← (if replacement then mret (table <| vt_reserved := u32 (slot + 1) |>) else slot_set table slot counter);
    status ← call (wt_hsm_vault_table_store table);
    if negb (status =? PSA_SUCCESS) then early status else mret table
  else mret table.
(** The old ciphertext is still in [g_vault_ct]. *)
Definition stage_object (meta : whNvmMetadata) : prog (vault N) Z unit :=
  let stage_meta := {| md_id := WT_HSM_VAULT_STAGE_ID; md_access := md_access meta; md_flags := WH_NVM_FLAGS_SENSITIVE;
                       md_len := md_len meta; md_label := md_label meta |} in
  ct ← gets g_vault_ct;
  ct ← defined (buf_read ct 0 (md_len stage_meta));
  rc ← call (nvm (wh_Nvm_AddObject stage_meta ct));
  let status := wt_hsm_vault_map_err rc in
  when (negb (status =? PSA_SUCCESS)) (early status).
(** The ciphertext of [data], through [g_vault_ct]. *)
Definition seal_object (sealer : wt_vault_sealer) (label : list Z) (counter : Z) (data : list Z) (store_len : Z) :
    prog (vault N) Z (list Z) :=
  modify (λ s, s <| vl_log := EvSeal counter :: vl_log s |>);;
  let '(status, bytes) := sl_seal sealer label counter data in
  ct ← gets g_vault_ct;
  ct ← defined (buf_write ct 0 bytes);
  modify (λ s, s <| g_vault_ct := ct |>);;
  when (negb (status =? PSA_SUCCESS)) (early status);;
  defined (buf_read ct 0 store_len).
Definition commit_replacement (table : wt_hsm_vault_table) (slot counter : Z) : prog (vault N) Z Z :=
  table ← slot_set table slot counter;
  status ← call (wt_hsm_vault_table_store (table <| vt_reserved := 0 |>));
  if negb (status =? PSA_SUCCESS) then mret status else
  call wt_hsm_vault_destroy_stage.

(** The write of the object itself, and the commit of a replacement. *)
Definition put_object (replacement : bool) (meta : whNvmMetadata) (store_data : list Z) (table : wt_hsm_vault_table)
    (slot counter : Z) : prog (vault N) Z Z :=
  rc ← call (nvm (wh_Nvm_AddObjectChecked meta store_data));
  let status := wt_hsm_vault_map_err rc in
  if negb (status =? PSA_SUCCESS) || negb replacement then mret status else
  commit_replacement table slot counter.
Definition set_object (sealer : option wt_vault_sealer) (owner sub uid flags : Z) (data : list Z) (table : wt_hsm_vault_table)
    (replacement : bool) (id slot store_len : Z) (meta : whNvmMetadata) : prog (vault N) Z Z :=
  let sealed := has_any flags WT_VAULT_FLAG_SEALED in
  let label := wt_hsm_vault_make_label owner sub uid flags in
  let meta_flags := WH_NVM_FLAGS_SENSITIVE .|
    (if has_any flags WT_VAULT_FLAG_WRITE_ONCE then WH_NVM_FLAGS_NONMODIFIABLE .| WH_NVM_FLAGS_NONDESTROYABLE else 0) in
  let table := if sealed then table <| vt_global := (vt_global table + 1) mod 2 ^ 64 |> else table in
  let counter := if sealed then vt_global table else 0 in
  table ← mark_slot replacement sealed table slot counter;
  when replacement (stage_object meta);;
  store_data ← (if sealed then sealer ← defined sealer; seal_object sealer label counter data store_len else mret data);
  put_object replacement {| md_id := id; md_access := WH_NVM_ACCESS_ANY; md_flags := meta_flags;
                            md_len := store_len; md_label := label |} store_data table slot counter.

Definition wt_hsm_vault_set (owner sub uid flags : Z) (data : list Z) : func (vault N) Z := fn (
  s ← gets (λ s, s);
  let len := Z.of_nat (length data) in
  if negb (g_vault_nvm s) then mret PSA_ERROR_NOT_SUPPORTED else
  if (WT_VAULT_OBJECT_MAX <? len) || negb (flags .&~ WT_HSM_VAULT_FLAG_MASK =? 0) then mret PSA_ERROR_INVALID_ARGUMENT else
  let sealed := has_any flags WT_VAULT_FLAG_SEALED in
  if sealed && negb (bool_decide (is_Some (g_vault_sealer s))) then mret PSA_ERROR_NOT_SUPPORTED else
  '(status, table) ← call wt_hsm_vault_table_load;
  if negb (status =? PSA_SUCCESS) then mret status else
  '(status, (id, meta), free_id) ← call (wt_hsm_vault_lookup owner sub uid);
  '(id, replacement) ← (
    if status =? PSA_SUCCESS then
      let f := wt_hsm_vault_flags_of (md_label meta) in
      if has_any f (WT_VAULT_FLAG_KEY .| WT_VAULT_FLAG_WRITE_ONCE) then early PSA_ERROR_NOT_PERMITTED
      else mret (id, has_any f WT_VAULT_FLAG_SEALED)
    else if status =? PSA_ERROR_DOES_NOT_EXIST then
      if free_id =? WH_NVM_ID_INVALID then early PSA_ERROR_INSUFFICIENT_STORAGE else mret (free_id, false)
    else early status);
  let slot := u32 (id - WT_HSM_VAULT_ID_BASE) in
  let store_len := if sealed then u16 (len + WT_VAULT_SEAL_TAG_LEN) else u16 len in
  c0 ← slot_get table slot;
  replacement ← (if replacement : bool then check_replaced id meta c0 else mret false);
  status ← call (wt_hsm_vault_reserve (set_need replacement store_len (md_len meta))
                   (if replacement then 4 else if sealed || negb (c0 =? 0) then 2 else 1));
  if negb (status =? PSA_SUCCESS) then mret status else
  set_object (g_vault_sealer s) owner sub uid flags data table replacement id slot store_len meta).

(** The status, and the [*out_len] bytes stored in [data] if it is
    [PSA_SUCCESS]. *)
Definition wt_hsm_vault_get (owner sub uid offset size : Z) : func (vault N) (Z * list Z) := fn (
  bound ← gets g_vault_nvm;
  if negb bound then mret (PSA_ERROR_NOT_SUPPORTED, []) else
  '(status, table) ← call wt_hsm_vault_table_load;
  if negb (status =? PSA_SUCCESS) then mret (status, []) else
  '(status, (id, meta), _) ← call (wt_hsm_vault_lookup owner sub uid);
  if negb (status =? PSA_SUCCESS) then mret (status, []) else
  let f := wt_hsm_vault_flags_of (md_label meta) in
  if has_any f WT_VAULT_FLAG_KEY then mret (PSA_ERROR_NOT_PERMITTED, []) else
  if has_any f WT_VAULT_FLAG_SEALED then
    c ← slot_get table (u32 (id - WT_HSM_VAULT_ID_BASE));
    if c =? 0 then mret (PSA_ERROR_INVALID_SIGNATURE, []) else
    status ← call (wt_hsm_vault_read_sealed id meta c);
    if negb (status =? PSA_SUCCESS) then mret (status, []) else
    let pt_len := md_len meta - WT_VAULT_SEAL_TAG_LEN in
    if pt_len <? offset then call (wt_hsm_vault_zeroize pt_len);; mret (PSA_ERROR_INVALID_ARGUMENT, []) else
    let n := Z.min (pt_len - offset) size in
    pt ← gets g_vault_pt;
    data ← defined (buf_read pt offset n);
    call (wt_hsm_vault_zeroize pt_len);;
    mret (PSA_SUCCESS, data)
  else
    if md_len meta <? offset then mret (PSA_ERROR_INVALID_ARGUMENT, []) else
    let n := Z.min (md_len meta - offset) size in
    if 0 <? n then
      '(rc, data) ← call (nvm (wh_Nvm_ReadChecked id (u16 offset) (u16 n)));
      let status := wt_hsm_vault_map_err rc in
      if negb (status =? PSA_SUCCESS) then mret (status, []) else mret (PSA_SUCCESS, data)
    else mret (PSA_SUCCESS, [])).

Record wt_vault_info := { vi_capacity : Z; vi_size : Z; vi_flags : Z; vi_reserved : Z }.
Definition zero_info : wt_vault_info := {| vi_capacity := 0; vi_size := 0; vi_flags := 0; vi_reserved := 0 |}.

(** [*info] is written when the status is [PSA_SUCCESS]. *)
Definition wt_hsm_vault_get_info (owner sub uid : Z) : func (vault N) (Z * wt_vault_info) := fn (
  bound ← gets g_vault_nvm;
  if negb bound then mret (PSA_ERROR_NOT_SUPPORTED, zero_info) else
  '(status, _) ← call wt_hsm_vault_table_load;
  if negb (status =? PSA_SUCCESS) then mret (status, zero_info) else
  '(status, (_, meta), _) ← call (wt_hsm_vault_lookup owner sub uid);
  if negb (status =? PSA_SUCCESS) then mret (status, zero_info) else
  let f := wt_hsm_vault_flags_of (md_label meta) in
  if has_any f WT_VAULT_FLAG_SEALED then
    if md_len meta <? WT_VAULT_SEAL_TAG_LEN then mret (PSA_ERROR_STORAGE_FAILURE, zero_info) else
    let n := md_len meta - WT_VAULT_SEAL_TAG_LEN in
    mret (PSA_SUCCESS, {| vi_capacity := n; vi_size := n; vi_flags := f; vi_reserved := 0 |})
  else mret (PSA_SUCCESS, {| vi_capacity := md_len meta; vi_size := md_len meta; vi_flags := f; vi_reserved := 0 |})).

(** A removal that failed: the marker is taken back if the object survived. *)
Definition cancel_delete (owner sub uid id : Z) (table : wt_hsm_vault_table) : prog (vault N) Z unit :=
  '(rc, meta) ← call (nvm (wh_Nvm_GetMetadata id));
  if (rc =? WH_ERROR_OK) && wt_hsm_vault_label_match (md_label meta) owner sub uid then
    c ← slot_get table (u32 (id - WT_HSM_VAULT_ID_BASE));
    status ← call (wt_hsm_vault_read_sealed id meta c);
    when (status =? PSA_SUCCESS) (
      call (wt_hsm_vault_zeroize (md_len meta - WT_VAULT_SEAL_TAG_LEN));;
      status ← call (wt_hsm_vault_table_store (table <| vt_reserved := 0 |>));
      when (negb (status =? PSA_SUCCESS)) (early PSA_ERROR_STORAGE_FAILURE))
  else mret tt.

Definition wt_hsm_vault_remove (owner sub uid : Z) : func (vault N) Z := fn (
  bound ← gets g_vault_nvm;
  if negb bound then mret PSA_ERROR_NOT_SUPPORTED else
  '(status, table) ← call wt_hsm_vault_table_load;
  if negb (status =? PSA_SUCCESS) then mret status else
  '(status, (id, meta), _) ← call (wt_hsm_vault_lookup owner sub uid);
  if negb (status =? PSA_SUCCESS) then mret status else
  let f := wt_hsm_vault_flags_of (md_label meta) in
  let slot := u32 (id - WT_HSM_VAULT_ID_BASE) in
  if has_any f WT_VAULT_FLAG_KEY || has_any f WT_VAULT_FLAG_WRITE_ONCE then mret PSA_ERROR_NOT_PERMITTED else
  let sealed := has_any f WT_VAULT_FLAG_SEALED in
  let table := if sealed then table <| vt_reserved := u32 (WT_HSM_VAULT_DELETE_MARKER_BASE + slot + 1) |> else table in
  when sealed (
    status ← call (wt_hsm_vault_table_store table);
    when (negb (status =? PSA_SUCCESS)) (early status));;
  rc ← call (nvm (wh_Nvm_DestroyObjectsChecked [id]));
  let status := wt_hsm_vault_map_err rc in
  if negb (status =? PSA_SUCCESS) then
    when sealed (cancel_delete owner sub uid id table);; mret status
  else if sealed then
    table ← slot_set table slot 0;
    call (wt_hsm_vault_table_store (table <| vt_reserved := 0 |>))
  else mret PSA_SUCCESS).
End vault.

(** * The keystore door of the vault: [services/wolfhsm/wt_hsm_vault.c]

    The operations on the non-volatile store that the crypto partition's
    keystore needs. Objects of other owners are not reachable through them. *)

Record wt_vault_nvm_meta := { nm_id : Z; nm_access : Z; nm_flags : Z; nm_len : Z; nm_label : list Z }.
Definition zero_nvm_meta : wt_vault_nvm_meta :=
  {| nm_id := 0; nm_access := 0; nm_flags := 0; nm_len := 0; nm_label := zeros (Z.to_nat WT_VAULT_NVM_LABEL_LEN) |}.
Record wt_vault_nvm_avail := { na_avail_size : Z; na_reclaim_size : Z; na_avail_objects : Z; na_reclaim_objects : Z }.

Definition wt_hsm_vault_nvm_label_is_key (label : list Z) : bool :=
  (field label 0 4 =? WT_HSM_VAULT_LABEL_MAGIC) && has_any (wt_hsm_vault_flags_of label) WT_VAULT_FLAG_KEY.

Section door.
Context {N : Type} `{!WhNvm N}.

Definition wt_hsm_vault_nvm_id_class (id : Z) : Z :=
  if has_any id WH_KEYTYPE_MASK then 2 else
  if (WT_HSM_VAULT_ID_BASE <=? id) && (id <? u16 (WT_HSM_VAULT_ID_BASE + WT_HSM_VAULT_ID_COUNT)) then 1 else 0.

Definition wt_hsm_vault_nvm_meta_out (meta : whNvmMetadata) : wt_vault_nvm_meta :=
  {| nm_id := md_id meta; nm_access := md_access meta; nm_flags := md_flags meta; nm_len := md_len meta;
     nm_label := md_label meta |}.

(** The status, and the metadata if it is [PSA_SUCCESS]. *)
Definition wt_hsm_vault_nvm_visible (id : Z) : func (vault N) (Z * whNvmMetadata) := fn (
  let cls := wt_hsm_vault_nvm_id_class id in
  bound ← gets g_vault_nvm;
  if negb bound then mret (PSA_ERROR_NOT_SUPPORTED, zero_meta) else
  if cls =? 0 then mret (PSA_ERROR_NOT_PERMITTED, zero_meta) else
  '(rc, meta) ← call (nvm (wh_Nvm_GetMetadata id));
  if negb (rc =? WH_ERROR_OK) then mret (wt_hsm_vault_map_err rc, zero_meta) else
  if (cls =? 1) && negb (wt_hsm_vault_nvm_label_is_key (md_label meta)) then mret (PSA_ERROR_NOT_PERMITTED, zero_meta) else
  mret (PSA_SUCCESS, meta)).

Definition wt_hsm_vault_nvm_get_available : func (vault N) (Z * wt_vault_nvm_avail) := fn (
  bound ← gets g_vault_nvm;
  if negb bound then mret (PSA_ERROR_NOT_SUPPORTED, Build_wt_vault_nvm_avail 0 0 0 0) else
  '(rc, (avail_size, avail_objects, reclaim_size, reclaim_objects)) ← call (nvm wh_Nvm_GetAvailable);
  mret (wt_hsm_vault_map_err rc,
        {| na_avail_size := avail_size; na_reclaim_size := reclaim_size; na_avail_objects := avail_objects;
           na_reclaim_objects := reclaim_objects |})).

Definition wt_hsm_vault_nvm_get_metadata (id : Z) : func (vault N) (Z * wt_vault_nvm_meta) := fn (
  '(status, meta) ← call (wt_hsm_vault_nvm_visible id);
  if (status =? PSA_ERROR_NOT_PERMITTED) && (wt_hsm_vault_nvm_id_class id =? 1) then
    mret (PSA_SUCCESS, {| nm_id := id; nm_access := 0; nm_flags := 0; nm_len := 0; nm_label := nm_label zero_nvm_meta |})
  else if negb (status =? PSA_SUCCESS) then mret (status, zero_nvm_meta) else
  mret (PSA_SUCCESS, wt_hsm_vault_nvm_meta_out meta)).

Definition wt_hsm_vault_nvm_add_object (meta : wt_vault_nvm_meta) (data : list Z) : func (vault N) Z := fn (
  let len := Z.of_nat (length data) in
  let cls := wt_hsm_vault_nvm_id_class (nm_id meta) in
  bound ← gets g_vault_nvm;
  if negb bound then mret PSA_ERROR_NOT_SUPPORTED else
  if (cls =? 0) || ((cls =? 1) && negb (wt_hsm_vault_nvm_label_is_key (nm_label meta))) then mret PSA_ERROR_NOT_PERMITTED else
  if (WT_VAULT_OBJECT_MAX <? len) || negb (nm_len meta =? len) then mret PSA_ERROR_INVALID_ARGUMENT else
  '(status, _) ← call (wt_hsm_vault_nvm_visible (nm_id meta));
  if negb (status =? PSA_SUCCESS) && negb (status =? PSA_ERROR_DOES_NOT_EXIST) then mret status else
  status ← call (wt_hsm_vault_reserve_object (u16 len));
  if negb (status =? PSA_SUCCESS) then mret status else
  rc ← call (nvm (wh_Nvm_AddObject {| md_id := nm_id meta; md_access := nm_access meta; md_flags := nm_flags meta;
                                      md_len := u16 len; md_label := nm_label meta |} data));
  mret (wt_hsm_vault_map_err rc)).

Definition wt_hsm_vault_nvm_destroy (ids : list Z) : func (vault N) Z := fn (
  bound ← gets g_vault_nvm;
  if negb bound then mret PSA_ERROR_NOT_SUPPORTED else
  if WT_VAULT_NVM_DESTROY_MAX <? Z.of_nat (length ids) then mret PSA_ERROR_INVALID_ARGUMENT else
  for_each ids (λ id,
    '(status, _) ← call (wt_hsm_vault_nvm_visible id);
    when (negb (status =? PSA_SUCCESS) && negb (status =? PSA_ERROR_DOES_NOT_EXIST)) (early status));;
  rc ← call (nvm (wh_Nvm_DestroyObjectsChecked ids));
  mret (wt_hsm_vault_map_err rc)).

Definition wt_hsm_vault_nvm_read (id offset len : Z) : func (vault N) (Z * list Z) := fn (
  '(status, meta) ← call (wt_hsm_vault_nvm_visible id);
  if negb (status =? PSA_SUCCESS) then mret (status, []) else
  if (WT_VAULT_OBJECT_MAX <? len) || (md_len meta <=? offset) || (md_len meta - offset <? len)
  then mret (PSA_ERROR_INVALID_ARGUMENT, []) else
  '(rc, data) ← call (nvm (wh_Nvm_Read id (u16 offset) (u16 len)));
  mret (wt_hsm_vault_map_err rc, data)).
End door.
