(* ===== verification/VaultSpec.v ===== *)
(** * What the vault's object store promises

    [NvmOk] is what is relied on from wolfHSM's non-volatile store: its
    operations are atomic on a map of objects, and their results say what they
    did. [SealerOk] is what is relied on from the cipher. Over them, [dir] is the
    directory of storage objects that a state of the store stands for, with an
    unfinished transaction taken back or carried through, and [vinv] the
    invariant of the store. *)

From Stdlib Require Import ZArith Lia.
From stdpp Require Import base list numbers option sets gmap.
From S2P Require Import Prelude Buffers CState FfmTypes Service VaultStore.

Abbreviation object := (whNvmMetadata * list Z)%type.
Abbreviation store := (gmap Z object).
(** Owner, delegated client and uid. *)
Definition vkey : Type := Z * Z * Z.
(** Flags, and the bytes of an object that can be read. *)
Definition vobj : Type := Z * option (list Z).

Class NvmOk {N : Type} `{!WhNvm N} := {
  objects : N → store;
  codes_distinct : NoDup [WH_ERROR_OK; WH_ERROR_NOTFOUND; WH_ERROR_ACCESS; WH_ERROR_NOSPACE];
  (** The policy bits are independent of each other. *)
  flags_apart (once : bool) :
    let f := WH_NVM_FLAGS_SENSITIVE .| (if once then WH_NVM_FLAGS_NONMODIFIABLE .| WH_NVM_FLAGS_NONDESTROYABLE else 0) in
    has_any f WH_NVM_FLAGS_NONEXPORTABLE = false ∧
    (once = false → has_any f WH_NVM_FLAGS_NONMODIFIABLE = false ∧ has_any f WH_NVM_FLAGS_NONDESTROYABLE = false);
  id_invalid : WH_NVM_ID_INVALID < WT_HSM_VAULT_ID_BASE;
  metadata_ok id n n' rc m : wh_Nvm_GetMetadata id n = (n', (rc, m)) →
    objects n' = objects n ∧ (rc = WH_ERROR_OK → ∃ d, objects n !! id = Some (m, d)) ∧
    (rc = WH_ERROR_NOTFOUND → objects n !! id = None) ∧ rc ≠ WH_ERROR_ACCESS;
  read_ok id off len n n' rc bytes : 0 ≤ off → 0 ≤ len → wh_Nvm_Read id off len n = (n', (rc, bytes)) →
    objects n' = objects n ∧ Z.of_nat (length bytes) ≤ len ∧
    (rc = WH_ERROR_OK → ∃ m d, objects n !! id = Some (m, d) ∧ buf_read d off len = Some bytes);
  read_checked_ok id off len n n' rc bytes : 0 ≤ off → 0 ≤ len → wh_Nvm_ReadChecked id off len n = (n', (rc, bytes)) →
    objects n' = objects n ∧ Z.of_nat (length bytes) ≤ len ∧
    (rc = WH_ERROR_OK → ∃ m d, objects n !! id = Some (m, d) ∧ buf_read d off len = Some bytes ∧
                               has_any (md_flags m) WH_NVM_FLAGS_NONEXPORTABLE = false) ∧
    (rc = WH_ERROR_NOTFOUND → objects n !! id = None) ∧
    (rc = WH_ERROR_ACCESS → ∃ m d, objects n !! id = Some (m, d) ∧ has_any (md_flags m) WH_NVM_FLAGS_NONEXPORTABLE = true);
  add_ok m d n n' rc : wh_Nvm_AddObject m d n = (n', rc) →
    (objects n' = objects n ∧ rc ≠ WH_ERROR_OK) ∨ objects n' = <[md_id m := (m, d)]> (objects n);
  add_checked_ok m d n n' rc : wh_Nvm_AddObjectChecked m d n = (n', rc) →
    (objects n' = objects n ∧ rc ≠ WH_ERROR_OK) ∨ objects n' = <[md_id m := (m, d)]> (objects n);
  destroy_ok ids n n' rc : wh_Nvm_DestroyObjects ids n = (n', rc) →
    (objects n' = objects n ∧ rc ≠ WH_ERROR_OK) ∨ objects n' = foldr delete (objects n) ids;
  destroy_checked_ok ids n n' rc : wh_Nvm_DestroyObjectsChecked ids n = (n', rc) →
    (objects n' = objects n ∧ rc ≠ WH_ERROR_OK ∧ (rc = WH_ERROR_NOTFOUND → ∃ id, id ∈ ids ∧ objects n !! id = None)) ∨
    objects n' = foldr delete (objects n) ids;
  available_ok n n' r : wh_Nvm_GetAvailable n = (n', r) → objects n' = objects n;
}.
Arguments NvmOk N {_}.

(** [opens l c ct] is the plaintext of [ct] if it is authentic for label [l] and
    counter [c]. *)
Class SealerOk (S : wt_vault_sealer) := {
  opens : list Z → Z → list Z → option (list Z);
  opens_length l c ct d : opens l c ct = Some d → Z.of_nat (length ct) = Z.of_nat (length d) + WT_VAULT_SEAL_TAG_LEN;
  seal_ok l c d st ct : sl_seal S l c d = (st, ct) →
    Z.of_nat (length ct) ≤ Z.of_nat (length d) + WT_VAULT_SEAL_TAG_LEN ∧
    (st = PSA_SUCCESS → Z.of_nat (length ct) = Z.of_nat (length d) + WT_VAULT_SEAL_TAG_LEN ∧ opens l c ct = Some d);
  unseal_ok l c ct st pt : WT_VAULT_SEAL_TAG_LEN ≤ Z.of_nat (length ct) → sl_unseal S l c ct = (st, pt) →
    Z.of_nat (length pt) ≤ Z.of_nat (length ct) - WT_VAULT_SEAL_TAG_LEN ∧
    (st = PSA_SUCCESS → Z.of_nat (length pt) = Z.of_nat (length ct) - WT_VAULT_SEAL_TAG_LEN ∧ opens l c ct = Some pt) ∧
    (st = PSA_ERROR_INVALID_SIGNATURE → opens l c ct = None) ∧
    st ≠ PSA_ERROR_NOT_PERMITTED ∧ st ≠ PSA_ERROR_DOES_NOT_EXIST;
}.

(** A cipher that does not fail. *)
Class CipherWorks (S : wt_vault_sealer) `{!SealerOk S} : Prop := {
  seal_works l c d : (sl_seal S l c d).1 = PSA_SUCCESS;
  unseal_works l c ct :
    (sl_unseal S l c ct).1 = match opens l c ct with Some _ => PSA_SUCCESS | None => PSA_ERROR_INVALID_SIGNATURE end;
}.

(** The length of a new object of the vault, or of one that is in the store. *)
Definition fits (V : store) (len : Z) : Prop :=
  0 ≤ len ≤ WT_VAULT_OBJECT_MAX + WT_VAULT_SEAL_TAG_LEN ∨ ∃ id m d, V !! id = Some (m, d) ∧ md_len m = len.
(** In the state [n] the store does not fail and has room: it reports the room
    that replacing an object takes, and accepts one more object. *)
Record works_at {N : Type} `{!WhNvm N, !NvmOk N} (n : N) : Prop := {
  metadata_works id : let rc := (wh_Nvm_GetMetadata id n).2.1 in rc = WH_ERROR_OK ∨ rc = WH_ERROR_NOTFOUND;
  read_works id off len m d bytes : objects n !! id = Some (m, d) → buf_read d off len = Some bytes →
    (wh_Nvm_Read id off len n).2.1 = WH_ERROR_OK;
  read_checked_works id off len m d bytes : objects n !! id = Some (m, d) → buf_read d off len = Some bytes →
    (wh_Nvm_ReadChecked id off len n).2.1 =
      if has_any (md_flags m) WH_NVM_FLAGS_NONEXPORTABLE then WH_ERROR_ACCESS else WH_ERROR_OK;
  add_works m d : fits (objects n) (md_len m) → (wh_Nvm_AddObject m d n).2 = WH_ERROR_OK;
  add_checked_works m d : fits (objects n) (md_len m) →
    (∀ m' d', objects n !! md_id m = Some (m', d') → has_any (md_flags m') WH_NVM_FLAGS_NONMODIFIABLE = false) →
    (wh_Nvm_AddObjectChecked m d n).2 = WH_ERROR_OK;
  destroy_works ids : (wh_Nvm_DestroyObjects ids n).2 = WH_ERROR_OK;
  destroy_checked_works id m d : objects n !! id = Some (m, d) →
    has_any (md_flags m) WH_NVM_FLAGS_NONDESTROYABLE = false → (wh_Nvm_DestroyObjectsChecked [id] n).2 = WH_ERROR_OK;
  available_works : let '(rc, (size, count, _, _)) := (wh_Nvm_GetAvailable n).2 in
    rc = WH_ERROR_OK ∧ 4 ≤ count ∧ wt_hsm_vault_storage_size sizeof_table ≤ size ∧
    ∀ repl len old, fits (objects n) len → fits (objects n) old → set_need repl len old ≤ size;
}.
Arguments metadata_works {N _ _ n} _.
Arguments read_works {N _ _ n} _.
Arguments read_checked_works {N _ _ n} _.
Arguments add_works {N _ _ n} _.
Arguments add_checked_works {N _ _ n} _.
Arguments destroy_works {N _ _ n} _.
Arguments destroy_checked_works {N _ _ n} _.
Arguments available_works {N _ _ n} _.

Definition slot_id (i : nat) : Z := WT_HSM_VAULT_ID_BASE + Z.of_nat i.
Definition slots : nat := 32.

Definition label_key (l : list Z) : option vkey :=
  if field l 0 4 =? WT_HSM_VAULT_LABEL_MAGIC
  then Some (i32_of_u32 (field l 4 4), i32_of_u32 (field l 20 4), field l 8 8) else None.
Definition is_key (m : whNvmMetadata) : bool := has_any (wt_hsm_vault_flags_of (md_label m)) WT_VAULT_FLAG_KEY.
Definition is_sealed (m : whNvmMetadata) : bool := has_any (wt_hsm_vault_flags_of (md_label m)) WT_VAULT_FLAG_SEALED.
Definition is_once (m : whNvmMetadata) : bool := has_any (wt_hsm_vault_flags_of (md_label m)) WT_VAULT_FLAG_WRITE_ONCE.

Definition table_in (V : store) : wt_hsm_vault_table :=
  match V !! WT_HSM_VAULT_TABLE_ID with None => fresh_table | Some (_, d) => table_of_bytes d end.
Definition counter_of (t : wt_hsm_vault_table) (i : nat) : Z := default 0 (vt_slot t !! i).

Section spec.
Context {N : Type} `{!WhNvm N, !NvmOk N} (S : wt_vault_sealer) `{!SealerOk S}.

(** The conditions under which a sealed object is readable. *)
Definition authentic (c : Z) (o : object) : bool :=
  negb (c =? 0) && is_sealed o.1 && (WT_VAULT_SEAL_TAG_LEN <=? md_len o.1) &&
  (md_len o.1 <=? WT_VAULT_OBJECT_MAX + WT_VAULT_SEAL_TAG_LEN) && bool_decide (is_Some (opens (md_label o.1) c o.2)).

(** The object in slot [i] once the transaction that the table marks is
    recovered. *)
Definition current (t : wt_hsm_vault_table) (V : store) (i : nat) : option object :=
  if vt_reserved t =? Z.of_nat i + 1 then
    match V !! WT_HSM_VAULT_STAGE_ID with
    | Some o => if authentic (counter_of t i) o then Some o else V !! slot_id i
    | None => V !! slot_id i
    end
  else if vt_reserved t =? WT_HSM_VAULT_DELETE_MARKER_BASE + Z.of_nat i + 1 then
    match V !! slot_id i with
    | Some o => if is_key_object o.1 then Some o else None
    | None => None
    end
  else V !! slot_id i.

Definition contents (c : Z) (o : object) : option (list Z) :=
  if is_key o.1 then None else if is_sealed o.1 then opens (md_label o.1) c o.2 else Some o.2.
Definition entry_of (c : Z) (o : object) : option (vkey * vobj) :=
  (λ k, (k, (wt_hsm_vault_flags_of (md_label o.1), contents c o))) <$> label_key (md_label o.1).
Definition entry (t : wt_hsm_vault_table) (V : store) (i : nat) : option (vkey * vobj) :=
  current t V i ≫= entry_of (counter_of t i).
Definition dir_at (t : wt_hsm_vault_table) (V : store) : list (option (vkey * vobj)) := entry t V <$> seq 0 slots.
Definition dir (V : store) : list (option (vkey * vobj)) := dir_at (table_in V) V.

(** The object with key [k] in a directory. *)
Definition find_in (l : list (option (vkey * vobj))) (k : vkey) : option vobj :=
  foldr (λ e r, match e with Some (k', o) => if bool_decide (k' = k) then Some o else r | None => r end) None l.
Definition content (V : store) : vkey → option vobj := find_in (dir V).

(** ** The invariant *)

Record table_wf (t : wt_hsm_vault_table) : Prop := {
  tw_magic : vt_magic t = WT_HSM_VAULT_TABLE_MAGIC;
  tw_reserved : 0 ≤ vt_reserved t ≤ 64;
  tw_global : 0 ≤ vt_global t < 2 ^ 64;
  tw_length : length (vt_slot t) = slots;
  tw_slot : Forall (λ c, 0 ≤ c < 2 ^ 64) (vt_slot t);
}.
(** The policy bits of an object in the store fit its label. *)
Definition policy_fits (m : whNvmMetadata) : Prop :=
  is_key m = false →
  has_any (md_flags m) WH_NVM_FLAGS_NONEXPORTABLE = false ∧
  (is_once m = false → has_any (md_flags m) WH_NVM_FLAGS_NONMODIFIABLE = false ∧
                       has_any (md_flags m) WH_NVM_FLAGS_NONDESTROYABLE = false).
Definition object_wf (o : object) : Prop :=
  md_len o.1 = Z.of_nat (length o.2) ∧ md_len o.1 < 2 ^ 16 ∧ policy_fits o.1.

(** What a mark of removal may be on: an object that a client may remove, or a
    key that took the slot of one. *)
Definition removable (o : object) : Prop := is_key_object o.1 = true ∨ is_key o.1 = false ∧ is_once o.1 = false.

Record vinv_at (t : wt_hsm_vault_table) (V : store) : Prop := {
  vi_table : table_wf t;
  vi_objects i o : (i < slots)%nat → V !! slot_id i = Some o → object_wf o;
  vi_stage o : V !! WT_HSM_VAULT_STAGE_ID = Some o → object_wf o;
  vi_unique i j k o o' : entry t V i = Some (k, o) → entry t V j = Some (k, o') → (i < slots)%nat → (j < slots)%nat → i = j;
  vi_sealed i o : (i < slots)%nat → current t V i = Some o → is_key o.1 = false → is_sealed o.1 = true →
    is_Some (label_key (md_label o.1)) → authentic (counter_of t i) o = true;
  vi_replace i : vt_reserved t = Z.of_nat i + 1 → (i < slots)%nat → ∃ o, current t V i = Some o ∧ authentic (counter_of t i) o = true ∧
    is_key o.1 = false;
  vi_delete i : vt_reserved t = WT_HSM_VAULT_DELETE_MARKER_BASE + Z.of_nat i + 1 → V !! WT_HSM_VAULT_STAGE_ID = None;
  vi_removed i o : vt_reserved t = WT_HSM_VAULT_DELETE_MARKER_BASE + Z.of_nat i + 1 → (i < slots)%nat → V !! slot_id i = Some o →
    removable o;
}.
(** The table object, where there is one. *)
Definition table_object_wf (V : store) : Prop :=
  ∀ m d, V !! WT_HSM_VAULT_TABLE_ID = Some (m, d) → md_len m = sizeof_table ∧ Z.of_nat (length d) = sizeof_table.
Definition vinv (V : store) : Prop := table_object_wf V ∧ vinv_at (table_in V) V.
End spec.
