(* ===== verification/VaultFacts.v ===== *)
(** * Facts about the vault's directory

    Reading back labels and tables, lookups in a directory, and the effect on
    directory and invariant of a change to one slot ([touch]). *)

From Stdlib Require Import ZArith Lia.
From stdpp Require Import base list numbers option sets gmap.
From S2P Require Import Prelude Buffers CState FfmTypes Service VaultStore VaultSpec.

(** ** Encoded structures *)

Lemma i32_roundtrip z : - 2 ^ 31 ≤ z < 2 ^ 31 → i32_of_u32 (u32 z) = z.
Proof.
  intros Hz. unfold i32_of_u32, u32, INT32_MAX.
  destruct (Z_le_gt_dec 0 z).
  - rewrite Z.mod_small by lia. destruct (Z.leb_spec z 0x7FFFFFFF); lia.
  - replace (z mod 2 ^ 32) with (z + 2 ^ 32); [destruct (Z.leb_spec (z + 2 ^ 32) 0x7FFFFFFF); lia|].
    apply (Z.mod_unique_pos _ _ (-1)); lia.
Qed.

(** A field that follows fixed-size fields. *)
Lemma field_at off pre v n post : length pre = off → 0 ≤ v < 256 ^ Z.of_nat n → field (pre ++ to_le n v ++ post) off n = v.
Proof. intros <- Hv. by apply field_app. Qed.
Lemma field_last off pre v n : length pre = off → 0 ≤ v < 256 ^ Z.of_nat n → field (pre ++ to_le n v) off n = v.
Proof. intros Hl Hv. rewrite <-(app_nil_r (to_le n v)). by apply field_at. Qed.

Record label_ranges (owner sub uid flags : Z) : Prop := {
  lr_owner : - 2 ^ 31 ≤ owner < 2 ^ 31;
  lr_sub : - 2 ^ 31 ≤ sub < 2 ^ 31;
  lr_uid : 0 ≤ uid < 2 ^ 64;
  lr_flags : 0 ≤ flags < 2 ^ 32;
}.
Section label.
Context (owner sub uid flags : Z) (H : label_ranges owner sub uid flags).
Let l := wt_hsm_vault_make_label owner sub uid flags.
Lemma label_magic : field l 0 4 = WT_HSM_VAULT_LABEL_MAGIC.
Proof. apply (field_at 0 []); [done|]. by vm_compute. Qed.
Lemma label_owner : i32_of_u32 (field l 4 4) = owner.
Proof.
  unfold l, wt_hsm_vault_make_label. rewrite (field_at 4); [apply i32_roundtrip, H|by rewrite length_to_le|].
  apply u32_range.
Qed.
Lemma label_uid : field l 8 8 = uid.
Proof.
  unfold l, wt_hsm_vault_make_label. rewrite !(app_assoc (to_le 4 WT_HSM_VAULT_LABEL_MAGIC)).
  apply field_at; [by rewrite length_app, !length_to_le|]. apply H.
Qed.
Lemma label_flags : wt_hsm_vault_flags_of l = flags.
Proof.
  unfold l, wt_hsm_vault_make_label, wt_hsm_vault_flags_of.
  rewrite (app_assoc (to_le 4 WT_HSM_VAULT_LABEL_MAGIC)), (app_assoc (_ ++ _) (to_le 8 uid)).
  apply field_at; [by rewrite !length_app, !length_to_le|]. apply H.
Qed.
Lemma label_sub : i32_of_u32 (field l 20 4) = sub.
Proof.
  unfold l, wt_hsm_vault_make_label.
  rewrite (app_assoc (to_le 4 WT_HSM_VAULT_LABEL_MAGIC)), (app_assoc (_ ++ _) (to_le 8 uid)), (app_assoc (_ ++ _) (to_le 4 flags)).
  rewrite (field_last 20 _ (u32 sub)); [apply i32_roundtrip, H|by rewrite !length_app, !length_to_le|apply u32_range].
Qed.
Lemma label_key_made : label_key l = Some (owner, sub, uid).
Proof. unfold label_key. by rewrite label_magic, Z.eqb_refl, label_owner, label_sub, label_uid. Qed.
End label.

Lemma label_match_key l owner sub uid : wt_hsm_vault_label_match l owner sub uid = bool_decide (label_key l = Some (owner, sub, uid)).
Proof.
  unfold wt_hsm_vault_label_match, label_key. destruct (field l 0 4 =? _); [|by rewrite bool_decide_false].
  simpl. symmetry. destruct (i32_of_u32 (field l 4 4) =? owner) eqn:E1, (i32_of_u32 (field l 20 4) =? sub) eqn:E2, (field l 8 8 =? uid) eqn:E3; bool_hyps;
    first [by apply bool_decide_true; subst | apply bool_decide_false; intros [= ]; congruence].
Qed.

Lemma length_le8 l : length (concat (to_le 8 <$> l)) = (8 * length l)%nat.
Proof. induction l as [|c l IH]; [done|]. rewrite fmap_cons. cbn [concat length]. rewrite length_app, length_to_le, IH. simpl. lia. Qed.
Lemma field_slots pre l i c : l !! i = Some c → 0 ≤ c < 2 ^ 64 →
  field (pre ++ concat (to_le 8 <$> l)) (length pre + 8 * i) 8 = c.
Proof.
  intros Hi Hc. rewrite <-(take_drop_middle l i c Hi), fmap_app, concat_app. cbn [fmap list_fmap concat].
  rewrite (app_assoc pre). apply field_at; [|done].
  rewrite length_app, length_le8, length_take. apply lookup_lt_Some in Hi. lia.
Qed.
Lemma length_table t : length (vt_slot t) = slots → Z.of_nat (length (bytes_of_table t)) = sizeof_table.
Proof. intros Hl. unfold bytes_of_table. rewrite !length_app, !length_to_le, length_le8, Hl. done. Qed.
Lemma table_roundtrip t : table_wf t → table_of_bytes (bytes_of_table t) = t.
Proof.
  intros [Hm Hr Hg Hl Hs]. destruct t as [magic res glob sl]. unfold table_of_bytes, bytes_of_table. cbn [vt_magic vt_reserved vt_global vt_slot] in *. f_equal.
  - apply (field_at 0 []); [done|]. rewrite Hm. by vm_compute.
  - apply field_at; [by rewrite length_to_le|]. split; [lia|]. change (256 ^ Z.of_nat 4) with 4294967296. lia.
  - rewrite (app_assoc (to_le 4 magic)). apply field_at; [by rewrite length_app, !length_to_le|]. done.
  - apply list_eq. intros i. rewrite list_lookup_fmap.
    destruct (decide (i < slots)%nat) as [Hi|Hi].
    + rewrite lookup_seq_lt by (change (Z.to_nat WT_HSM_VAULT_ID_COUNT) with slots; lia). cbn [fmap option_fmap option_map].
      destruct (lookup_lt_is_Some_2 sl i) as [c Hc]; [lia|]. rewrite Hc. f_equal.
      rewrite (app_assoc (to_le 4 magic)), (app_assoc (_ ++ _) (to_le 8 glob)).
      replace (16 + 8 * (0 + i))%nat with (length ((to_le 4 magic ++ to_le 4 res) ++ to_le 8 glob) + 8 * i)%nat
        by (rewrite !length_app, !length_to_le; lia).
      apply field_slots; [done|]. by apply (Forall_lookup_1 _ _ _ _ Hs Hc).
    + rewrite (proj2 (lookup_ge_None sl i)) by lia. rewrite (proj2 (lookup_ge_None (seq _ _) i)); [done|].
      rewrite length_seq. change (Z.to_nat WT_HSM_VAULT_ID_COUNT) with slots. lia.
Qed.

(** ** Flags *)

Lemma has_any_either f a b : has_any f (a .| b) = has_any f a || has_any f b.
Proof.
  unfold has_any. destruct (Z.eqb_spec (f .& (a .| b)) 0) as [E|E].
  - apply land_lor_zero in E as [-> ->]. done.
  - destruct (Z.eqb_spec (f .& a) 0) as [E1|], (Z.eqb_spec (f .& b) 0) as [E2|]; [|done..].
    exfalso. by apply E, land_lor_zero.
Qed.
(** Flags a storage client may set have no key bit. *)
Lemma storage_flags_no_key flags : flags .&~ WT_HSM_VAULT_FLAG_MASK = 0 → has_any flags WT_VAULT_FLAG_KEY = false.
Proof.
  intros Hm. unfold has_any. apply negb_false_iff, Z.eqb_eq.
  replace (flags .& WT_VAULT_FLAG_KEY) with ((flags .&~ WT_HSM_VAULT_FLAG_MASK) .& WT_VAULT_FLAG_KEY); [by rewrite Hm|].
  apply Z.bits_inj'. intros n Hn. rewrite !Z.land_spec, Z.ldiff_spec.
  change WT_VAULT_FLAG_KEY with (1 .<< 17). destruct (Z.eq_dec n 17) as [->|Hne].
  - change (Z.testbit WT_HSM_VAULT_FLAG_MASK 17) with false. by rewrite andb_true_r.
  - rewrite Z.shiftl_1_l, Z.pow2_bits_false by done. by rewrite !andb_false_r.
Qed.

(** ** Lookups in a directory *)

Definition keys_apart (l : list (option (vkey * vobj))) : Prop :=
  ∀ i j k o o', l !! i = Some (Some (k, o)) → l !! j = Some (Some (k, o')) → i = j.

Lemma find_in_Some l k o : find_in l k = Some o → ∃ i, l !! i = Some (Some (k, o)).
Proof.
  induction l as [|e l IH]; [done|]. simpl. destruct e as [[k' o']|].
  - destruct (decide (k' = k)) as [->|Hne].
    + rewrite bool_decide_true by done. intros [= <-]. by exists 0%nat.
    + rewrite bool_decide_false by done. intros Hf. destruct (IH Hf) as [i Hi]. by exists (Datatypes.S i).
  - intros Hf. destruct (IH Hf) as [i Hi]. by exists (Datatypes.S i).
Qed.
Lemma find_in_lookup l i k o : keys_apart l → l !! i = Some (Some (k, o)) → find_in l k = Some o.
Proof.
  revert i. induction l as [|e l IH]; intros i Hu Hi; [done|]. simpl.
  assert (keys_apart l) as Hu'.
  { intros a b k' o1 o2 H1 H2. specialize (Hu (Datatypes.S a) (Datatypes.S b) k' o1 o2 H1 H2). congruence. }
  destruct i as [|i]; simpl in Hi.
  - injection Hi as ->. by rewrite bool_decide_true.
  - destruct e as [[k' o']|]; [|by eapply IH].
    rewrite bool_decide_false; [by eapply IH|]. intros ->.
    by specialize (Hu 0%nat (Datatypes.S i) k o' o eq_refl Hi).
Qed.
Lemma find_in_None l k : (∀ i o, l !! i ≠ Some (Some (k, o))) → find_in l k = None.
Proof. intros Hn. destruct (find_in l k) eqn:E; [|done]. apply find_in_Some in E as [i Hi]. by destruct (Hn i v). Qed.
Lemma find_in_None_inv l i k o : find_in l k = None → l !! i ≠ Some (Some (k, o)).
Proof.
  revert i. induction l as [|e l IH]; intros i Hf; [done|]. simpl in Hf. destruct i as [|i]; simpl.
  - intros [= ->]. by rewrite bool_decide_true in Hf.
  - destruct e as [[k' o']|]; [|by apply IH]. destruct (bool_decide _); [done|by apply IH].
Qed.

(** Writing the object [k] in slot [i], which held it or nothing. *)
Lemma find_in_insert l i k o : keys_apart (<[i := Some (k, o)]> l) → (i < length l)%nat →
  (∀ k' o', l !! i = Some (Some (k', o')) → k' = k) →
  ∀ k', find_in (<[i := Some (k, o)]> l) k' = if bool_decide (k' = k) then Some o else find_in l k'.
Proof.
  intros Hu Hi Hold k'. case_bool_decide as E.
  - subst k'. eapply find_in_lookup; [done|]. by apply list_lookup_insert_eq.
  - destruct (find_in (<[i:=_]> l) k') as [o'|] eqn:Ef.
    + apply find_in_Some in Ef as [j Hj]. apply list_lookup_insert_Some in Hj as [(-> & [= <- <-] & _)|[Hne Hj]]; [done|].
      symmetry. destruct (find_in l k') as [o''|] eqn:Ef2.
      * apply find_in_Some in Ef2 as [j' Hj']. destruct (decide (j' = i)) as [->|Hne'].
        { by apply Hold in Hj'. }
        assert (j = j') as ->; [|congruence].
        eapply (Hu j j' k' o' o''); by rewrite list_lookup_insert_ne.
      * by destruct (find_in_None_inv _ j k' o' Ef2).
    + symmetry. apply find_in_None. intros j o' Hj.
      destruct (decide (j = i)) as [->|Hne']; [by apply Hold in Hj|].
      apply (find_in_None_inv _ j k' o' Ef). by rewrite list_lookup_insert_ne.
Qed.
(** Removing the object [k] of slot [i]. *)
Lemma find_in_remove l i k o : keys_apart l → l !! i = Some (Some (k, o)) →
  ∀ k', find_in (<[i := None]> l) k' = if bool_decide (k' = k) then None else find_in l k'.
Proof.
  intros Hu Hi k'. pose proof (lookup_lt_Some _ _ _ Hi) as Hlt. case_bool_decide as E.
  - subst k'. apply find_in_None. intros j o' Hj. apply list_lookup_insert_Some in Hj as [(_ & [=] & _)|[Hne Hj]].
    by apply Hne, (Hu i j k o o').
  - destruct (find_in (<[i:=_]> l) k') as [o'|] eqn:Ef.
    + apply find_in_Some in Ef as [j Hj]. apply list_lookup_insert_Some in Hj as [(_ & [=] & _)|[Hne Hj]].
      symmetry. by eapply find_in_lookup.
    + symmetry. apply find_in_None. intros j o' Hj. destruct (decide (j = i)) as [->|Hne']; [congruence|].
      apply (find_in_None_inv _ j k' o' Ef). by rewrite list_lookup_insert_ne.
Qed.

(** ** Changes of one slot *)

Lemma slot_not_table i : (i < slots)%nat → slot_id i ≠ WT_HSM_VAULT_TABLE_ID.
Proof. unfold slot_id, slots, WT_HSM_VAULT_ID_BASE, WT_HSM_VAULT_TABLE_ID. lia. Qed.
Lemma slot_not_stage i : (i < slots)%nat → slot_id i ≠ WT_HSM_VAULT_STAGE_ID.
Proof. unfold slot_id, slots, WT_HSM_VAULT_ID_BASE, WT_HSM_VAULT_STAGE_ID. lia. Qed.
Lemma slot_id_inj i j : slot_id i = slot_id j → i = j.
Proof. unfold slot_id. lia. Qed.
#[export] Hint Resolve slot_not_table slot_not_stage : wt.

Section change.
Context {N : Type} `{!WhNvm N, !NvmOk N} (S : wt_vault_sealer) `{!SealerOk S}.
Implicit Types V : store.

(** The table marks slot [s] or none. *)
Definition marks (s : nat) (t : wt_hsm_vault_table) : Prop :=
  vt_reserved t = 0 ∨ vt_reserved t = Z.of_nat s + 1 ∨ vt_reserved t = WT_HSM_VAULT_DELETE_MARKER_BASE + Z.of_nat s + 1.

Lemma current_unmarked s t V j : marks s t → j ≠ s → (j < slots)%nat → (s < slots)%nat → current S t V j = V !! slot_id j.
Proof.
  intros Hm Hne Hj Hs. unfold current, marks, WT_HSM_VAULT_DELETE_MARKER_BASE, WT_HSM_VAULT_ID_COUNT, slots in *.
  destruct (Z.eqb_spec (vt_reserved t) (Z.of_nat j + 1)); [lia|].
  destruct (Z.eqb_spec (vt_reserved t) (32 + Z.of_nat j + 1)); [lia|]. done.
Qed.

Record change (s : nat) (V V' : store) (cur : option object) : Prop := {
  ch_slot : (s < slots)%nat;
  ch_marks : marks s (table_in V);
  ch_marks' : marks s (table_in V');
  ch_table_object : table_object_wf V';
  ch_table : table_wf (table_in V');
  ch_objects j : (j < slots)%nat → j ≠ s → V' !! slot_id j = V !! slot_id j;
  ch_counters j : j ≠ s → counter_of (table_in V') j = counter_of (table_in V) j;
  ch_object o : V' !! slot_id s = Some o → object_wf o;
  ch_stage o : V' !! WT_HSM_VAULT_STAGE_ID = Some o → object_wf o;
  ch_current : current S (table_in V') V' s = cur;
  ch_key k o : cur ≫= entry_of S (counter_of (table_in V') s) = Some (k, o) →
    (∃ o', entry S (table_in V) V s = Some (k, o')) ∨ (∀ j o', (j < slots)%nat → entry S (table_in V) V j ≠ Some (k, o'));
  ch_sealed o : cur = Some o → is_key o.1 = false → is_sealed o.1 = true → is_Some (label_key (md_label o.1)) →
    authentic S (counter_of (table_in V') s) o = true;
  ch_replace : vt_reserved (table_in V') = Z.of_nat s + 1 →
    ∃ o, cur = Some o ∧ authentic S (counter_of (table_in V') s) o = true ∧ is_key o.1 = false;
  ch_delete : vt_reserved (table_in V') = WT_HSM_VAULT_DELETE_MARKER_BASE + Z.of_nat s + 1 →
    V' !! WT_HSM_VAULT_STAGE_ID = None;
  ch_removed o : vt_reserved (table_in V') = WT_HSM_VAULT_DELETE_MARKER_BASE + Z.of_nat s + 1 → V' !! slot_id s = Some o →
    removable o;
}.

Section one.
Context (s : nat) (V V' : store) (cur : option object) (C : change s V V' cur).
Lemma change_entry_other j : (j < slots)%nat → j ≠ s → entry S (table_in V') V' j = entry S (table_in V) V j.
Proof.
  intros Hj Hne. destruct C. unfold entry. rewrite !(current_unmarked s) by done. by rewrite ch_objects0, ch_counters0.
Qed.
Lemma change_entry : entry S (table_in V') V' s = cur ≫= entry_of S (counter_of (table_in V') s).
Proof. unfold entry. by rewrite (ch_current _ _ _ _ C). Qed.
Lemma change_dir : dir S V' = <[s := cur ≫= entry_of S (counter_of (table_in V') s)]> (dir S V).
Proof.
  unfold dir, dir_at. apply list_eq. intros j. destruct (decide (j = s)) as [->|Hne].
  - rewrite list_lookup_insert_eq by (rewrite length_fmap, length_seq; apply C).
    rewrite list_lookup_fmap, lookup_seq_lt by apply C. cbn [fmap option_fmap option_map Nat.add]. f_equal. apply change_entry.
  - rewrite list_lookup_insert_ne by done. rewrite !list_lookup_fmap.
    destruct (decide (j < slots)%nat) as [Hj|Hj].
    + rewrite lookup_seq_lt by done. cbn [fmap option_fmap option_map Nat.add]. f_equal. by apply change_entry_other.
    + rewrite (proj2 (lookup_ge_None (seq 0 slots) j)); [done|]. rewrite length_seq. lia.
Qed.
Lemma change_vinv : vinv S V → vinv S V'.
Proof.
  intros [_ I]. split; [apply C|]. constructor.
  - apply C.
  - intros i o Hi Ho. destruct (decide (i = s)) as [->|Hne]; [by apply (ch_object _ _ _ _ C)|].
    apply (vi_objects _ _ _ I i); [done|]. by rewrite <-(ch_objects _ _ _ _ C).
  - apply C.
  - intros i j k o o' Hi Hj Hli Hlj.
    destruct (decide (i = s)) as [->|Hni], (decide (j = s)) as [->|Hnj]; [done| | |].
    + rewrite change_entry_other in Hj by done. rewrite change_entry in Hi.
      destruct (ch_key _ _ _ _ C _ _ Hi) as [[o2 H2]|H2]; [|by destruct (H2 j o')].
      by apply (vi_unique _ _ _ I _ _ _ _ _ H2 Hj).
    + rewrite change_entry_other in Hi by done. rewrite change_entry in Hj.
      destruct (ch_key _ _ _ _ C _ _ Hj) as [[o2 H2]|H2]; [|by destruct (H2 i o)].
      by apply (vi_unique _ _ _ I _ _ _ _ _ Hi H2).
    + rewrite change_entry_other in Hi, Hj by done. by apply (vi_unique _ _ _ I _ _ _ _ _ Hi Hj).
  - intros i o Hi. destruct (decide (i = s)) as [->|Hne].
    + rewrite (ch_current _ _ _ _ C). by apply (ch_sealed _ _ _ _ C).
    + rewrite (current_unmarked s) by (done || apply C). rewrite (ch_objects _ _ _ _ C), (ch_counters _ _ _ _ C) by done.
      intros Ho. apply (vi_sealed _ _ _ I); [done|]. by rewrite (current_unmarked s) by (done || apply C).
  - intros i Hr Hi. assert (i = s) as ->.
    { destruct (ch_marks' _ _ _ _ C) as [E|[E|E]]; unfold WT_HSM_VAULT_DELETE_MARKER_BASE, WT_HSM_VAULT_ID_COUNT, slots in *; lia. }
    rewrite (ch_current _ _ _ _ C). by apply (ch_replace _ _ _ _ C).
  - intros i Hr. apply (ch_delete _ _ _ _ C). rewrite Hr. pose proof (ch_slot _ _ _ _ C).
    destruct (ch_marks' _ _ _ _ C) as [E|[E|E]]; unfold WT_HSM_VAULT_DELETE_MARKER_BASE, WT_HSM_VAULT_ID_COUNT, slots in *; lia.
  - intros i o Hr Hi. assert (i = s) as ->; [|by apply (ch_removed _ _ _ _ C)]. pose proof (ch_slot _ _ _ _ C).
    destruct (ch_marks' _ _ _ _ C) as [E|[E|E]]; unfold WT_HSM_VAULT_DELETE_MARKER_BASE, WT_HSM_VAULT_ID_COUNT, slots in *; lia.
Qed.
End one.

(** ** Tables in the store *)

Definition table_meta : whNvmMetadata :=
  {| md_id := WT_HSM_VAULT_TABLE_ID; md_access := WH_NVM_ACCESS_ANY; md_flags := 0; md_len := sizeof_table;
     md_label := md_label zero_meta |}.
Definition table_put (t : wt_hsm_vault_table) (V : store) : store :=
  <[WT_HSM_VAULT_TABLE_ID := (table_meta, bytes_of_table t)]> V.
Lemma table_put_in t V : table_wf t → table_in (table_put t V) = t.
Proof. intros Ht. unfold table_in, table_put. rewrite lookup_insert_eq. by apply table_roundtrip. Qed.
Lemma table_put_slot t V i : (i < slots)%nat → table_put t V !! slot_id i = V !! slot_id i.
Proof. intros Hi. apply lookup_insert_ne. by apply not_eq_sym, slot_not_table. Qed.
Lemma table_put_stage t V : table_put t V !! WT_HSM_VAULT_STAGE_ID = V !! WT_HSM_VAULT_STAGE_ID.
Proof. by apply lookup_insert_ne. Qed.
Lemma table_put_object t V : table_wf t → table_object_wf (table_put t V).
Proof.
  intros Ht m d. unfold table_put. rewrite lookup_insert_eq. intros [= <- <-]. split; [done|]. apply length_table, Ht.
Qed.

Lemma table_in_insert V id o : id ≠ WT_HSM_VAULT_TABLE_ID → table_in (<[id := o]> V) = table_in V.
Proof. intros Hid. unfold table_in. by rewrite lookup_insert_ne. Qed.
Lemma table_in_delete V id : id ≠ WT_HSM_VAULT_TABLE_ID → table_in (delete id V) = table_in V.
Proof. intros Hid. unfold table_in. by rewrite lookup_delete_ne. Qed.
Lemma table_object_insert V id o : id ≠ WT_HSM_VAULT_TABLE_ID → table_object_wf V → table_object_wf (<[id := o]> V).
Proof. intros Hid HV m d. rewrite lookup_insert_ne by done. apply HV. Qed.
Lemma table_object_delete V id : id ≠ WT_HSM_VAULT_TABLE_ID → table_object_wf V → table_object_wf (delete id V).
Proof. intros Hid HV m d. rewrite lookup_delete_ne by done. apply HV. Qed.

Lemma table_wf_reserved t r : table_wf t → 0 ≤ r ≤ 64 → table_wf (t <| vt_reserved := r |>).
Proof. intros [] Hr. by constructor. Qed.
Lemma table_wf_global t g : table_wf t → 0 ≤ g < 2 ^ 64 → table_wf (t <| vt_global := g |>).
Proof. intros [] Hr. by constructor. Qed.
Lemma table_wf_slot t i c : table_wf t → 0 ≤ c < 2 ^ 64 → table_wf (t <| vt_slot := <[i := c]> (vt_slot t) |>).
Proof. intros [] Hr. constructor; [done..| |]; simpl; [by rewrite length_insert|by apply Forall_insert]. Qed.
Lemma counter_slot_eq t t' i c : vt_slot t' = <[i := c]> (vt_slot t) → (i < length (vt_slot t))%nat → counter_of t' i = c.
Proof. intros E Hi. unfold counter_of. by rewrite E, list_lookup_insert_eq. Qed.
Lemma counter_slot_ne t t' i j c : vt_slot t' = <[i := c]> (vt_slot t) → j ≠ i → counter_of t' j = counter_of t j.
Proof. intros E Hi. unfold counter_of. by rewrite E, list_lookup_insert_ne. Qed.
Lemma fresh_table_wf : table_wf fresh_table.
Proof. constructor; [done|by vm_compute|by vm_compute|done|]. by apply Forall_replicate. Qed.
End change.

(** * Steps of the vault's transactions

    What each write of the storage operations does to the directory: marking a
    slot, staging, replacing and dropping an object, and committing. *)

Section trans.
Context {N : Type} `{!WhNvm N, !NvmOk N} (S : wt_vault_sealer) `{!SealerOk S}.
Implicit Types V : store.

(** The step keeps the directory, or writes [e] in slot [s]. *)
Definition keeps_dir V V' : Prop := vinv S V' ∧ dir S V' = dir S V.
Definition writes_dir (s : nat) (e : option (vkey * vobj)) V V' : Prop := vinv S V' ∧ dir S V' = <[s := e]> (dir S V).

Lemma dir_lookup V s : (s < slots)%nat → dir S V !! s = Some (entry S (table_in V) V s).
Proof. intros Hs. unfold dir, dir_at. rewrite list_lookup_fmap, lookup_seq_lt by done. done. Qed.
Lemma length_dir V : length (dir S V) = slots.
Proof. unfold dir, dir_at. by rewrite length_fmap, length_seq. Qed.
Lemma change_writes s V V' cur : vinv S V → change S s V V' cur →
  writes_dir s (cur ≫= entry_of S (counter_of (table_in V') s)) V V'.
Proof. intros I C. split; [by eapply change_vinv|by eapply change_dir]. Qed.
Lemma writes_keeps s V V' : (s < slots)%nat → writes_dir s (entry S (table_in V) V s) V V' → keeps_dir V V'.
Proof. intros Hs [I E]. split; [done|]. rewrite E. apply list_insert_id. by apply dir_lookup. Qed.
Lemma vi_holds V : vinv S V → table_object_wf V.
Proof. by intros []. Qed.
Lemma vinv_keys_apart V : vinv S V → keys_apart (dir S V).
Proof.
  intros [_ I] i j k o o' Hi Hj.
  pose proof (lookup_lt_Some _ _ _ Hi) as Li. pose proof (lookup_lt_Some _ _ _ Hj) as Lj. rewrite length_dir in Li, Lj.
  rewrite dir_lookup in Hi, Hj by done. injection Hi as Hi. injection Hj as Hj. by apply (vi_unique _ _ _ I _ _ _ _ _ Hi Hj).
Qed.

Lemma current_free t V i : vt_reserved t = 0 → (i < slots)%nat → current S t V i = V !! slot_id i.
Proof.
  intros Hr Hi. unfold current. rewrite Hr. unfold WT_HSM_VAULT_DELETE_MARKER_BASE, WT_HSM_VAULT_ID_COUNT.
  destruct (Z.eqb_spec 0 (Z.of_nat i + 1)); [lia|]. destruct (Z.eqb_spec 0 (32 + Z.of_nat i + 1)); [lia|done].
Qed.
Lemma current_replace t V i : vt_reserved t = Z.of_nat i + 1 →
  current S t V i = match V !! WT_HSM_VAULT_STAGE_ID with
                    | Some o => if authentic S (counter_of t i) o then Some o else V !! slot_id i
                    | None => V !! slot_id i
                    end.
Proof. intros Hr. unfold current. by rewrite Hr, Z.eqb_refl. Qed.
Lemma current_delete t V i : vt_reserved t = WT_HSM_VAULT_DELETE_MARKER_BASE + Z.of_nat i + 1 → (i < slots)%nat →
  current S t V i = match V !! slot_id i with Some o => if is_key_object o.1 then Some o else None | None => None end.
Proof.
  intros Hr Hi. unfold current. rewrite Hr, Z.eqb_refl. unfold WT_HSM_VAULT_DELETE_MARKER_BASE, WT_HSM_VAULT_ID_COUNT.
  destruct (Z.eqb_spec (32 + Z.of_nat i + 1) (Z.of_nat i + 1)); [lia|done].
Qed.
Lemma current_table_put t t' V i : (i < slots)%nat → current S t (table_put t' V) i = current S t V i.
Proof. intros Hi. unfold current. rewrite table_put_slot by done. by rewrite table_put_stage. Qed.

(** An entry depends on the label and the data only, and on the counter if the
    object is sealed. *)
Lemma entry_of_same c o o' : md_label o.1 = md_label o'.1 → o.2 = o'.2 → entry_of S c o = entry_of S c o'.
Proof. intros Hl Hd. unfold entry_of, contents, is_key, is_sealed. by rewrite Hl, Hd. Qed.
Lemma entry_of_plain c c' o : is_sealed o.1 = false → entry_of S c o = entry_of S c' o.
Proof. intros Hp. unfold entry_of, contents. by rewrite Hp. Qed.
Lemma entry_of_key c o : entry_of S c o = None ∨ ∃ k v, label_key (md_label o.1) = Some k ∧ entry_of S c o = Some (k, v).
Proof. unfold entry_of. destruct (label_key _) as [k|]; [right; eauto|by left]. Qed.
Lemma entry_of_label c o k v : entry_of S c o = Some (k, v) → label_key (md_label o.1) = Some k.
Proof. unfold entry_of. destruct (label_key _) as [k'|]; [|done]. by intros [= -> _]. Qed.
Lemma authentic_alike c o o' : md_label o.1 = md_label o'.1 → md_len o.1 = md_len o'.1 → o.2 = o'.2 →
  authentic S c o = authentic S c o'.
Proof. intros Hl Hn Hd. unfold authentic, is_sealed. by rewrite Hl, Hn, Hd. Qed.
Lemma authentic_sealed c o : authentic S c o = true → is_sealed o.1 = true.
Proof. unfold authentic. intros H. by repeat (apply andb_true_iff in H as [H ?]). Qed.

(** Storing a table that changes no counter but that of [s]. *)
Lemma table_change s V t' cur e : vinv S V → e = cur ≫= entry_of S (counter_of t' s) → (s < slots)%nat → marks s (table_in V) → marks s t' → table_wf t' →
  (∀ j, j ≠ s → counter_of t' j = counter_of (table_in V) j) →
  current S t' V s = cur →
  (∀ k o, cur ≫= entry_of S (counter_of t' s) = Some (k, o) →
     (∃ o', entry S (table_in V) V s = Some (k, o')) ∨ (∀ j o', (j < slots)%nat → entry S (table_in V) V j ≠ Some (k, o'))) →
  (∀ o, cur = Some o → is_key o.1 = false → is_sealed o.1 = true → is_Some (label_key (md_label o.1)) →
     authentic S (counter_of t' s) o = true) →
  (vt_reserved t' = Z.of_nat s + 1 → ∃ o, cur = Some o ∧ authentic S (counter_of t' s) o = true ∧ is_key o.1 = false) →
  (vt_reserved t' = WT_HSM_VAULT_DELETE_MARKER_BASE + Z.of_nat s + 1 → V !! WT_HSM_VAULT_STAGE_ID = None ∧
     ∀ o, V !! slot_id s = Some o → removable o) →
  writes_dir s e V (table_put t' V).
Proof.
  intros I -> Hs Hm Hm' Ht Hc Hcur Hk He Hr Hd. destruct I as [Io I].
  pose proof (table_put_in t' V Ht) as Et. rewrite <-Et at 1. apply change_writes; [done|]. constructor; rewrite ?Et; try done.
  - by apply table_put_object.
  - intros j Hj _. by apply table_put_slot.
  - intros o. rewrite table_put_slot by done. by apply (vi_objects _ _ _ I).
  - intros o. rewrite table_put_stage. by apply (vi_stage _ _ _ I).
  - by rewrite current_table_put.
  - rewrite table_put_stage. intros E. by apply Hd.
  - intros o E. rewrite table_put_slot by done. by apply Hd.
Qed.

(** A change of the objects of slot [s] and of the stage, under the same table. *)
Lemma object_change s V V' cur e : vinv S V → e = cur ≫= entry_of S (counter_of (table_in V) s) → (s < slots)%nat → marks s (table_in V) → table_in V' = table_in V →
  table_object_wf V' → (∀ j, (j < slots)%nat → j ≠ s → V' !! slot_id j = V !! slot_id j) →
  (∀ o, V' !! slot_id s = Some o → object_wf o) → (∀ o, V' !! WT_HSM_VAULT_STAGE_ID = Some o → object_wf o) →
  current S (table_in V) V' s = cur →
  (∀ k o, cur ≫= entry_of S (counter_of (table_in V) s) = Some (k, o) →
     (∃ o', entry S (table_in V) V s = Some (k, o')) ∨ (∀ j o', (j < slots)%nat → entry S (table_in V) V j ≠ Some (k, o'))) →
  (∀ o, cur = Some o → is_key o.1 = false → is_sealed o.1 = true → is_Some (label_key (md_label o.1)) →
     authentic S (counter_of (table_in V) s) o = true) →
  (vt_reserved (table_in V) = Z.of_nat s + 1 →
     ∃ o, cur = Some o ∧ authentic S (counter_of (table_in V) s) o = true ∧ is_key o.1 = false) →
  (vt_reserved (table_in V) = WT_HSM_VAULT_DELETE_MARKER_BASE + Z.of_nat s + 1 → V' !! WT_HSM_VAULT_STAGE_ID = None ∧
     ∀ o, V' !! slot_id s = Some o → removable o) →
  writes_dir s e V V'.
Proof.
  intros I -> Hs Hm Et Ho Hj Hw Hst Hcur Hk He Hr Hd. rewrite <-Et at 1. apply change_writes; [done|].
  constructor; rewrite ?Et; try done; [apply I|by intros E; apply Hd|]. intros o E. by apply Hd.
Qed.

(** ** The steps *)

(** The marks of the tables before and after a step, and the table of a store in
    which another object changed. *)
Ltac marked := solve [
  apply table_in_insert; by auto with wt | apply table_in_delete; by auto with wt
| apply table_object_insert; [by auto with wt|by apply vi_holds] | apply table_object_delete; [by auto with wt|by apply vi_holds]
| by left | by right; left | by right; right
| let E := fresh in intros E; simpl in E; try match goal with x := table_in ?V |- _ => change (table_in V) with x in E end;
  unfold WT_HSM_VAULT_DELETE_MARKER_BASE, WT_HSM_VAULT_ID_COUNT, slots in *; lia ].

Section steps.
Context (V : store) (I : vinv S V).
Let t := table_in V.
Let wf : table_wf t := vi_table _ _ _ (proj2 I).

Lemma entry_free s o : vt_reserved t = 0 → (s < slots)%nat → V !! slot_id s = Some o →
  entry S t V s = entry_of S (counter_of t s) o.
Proof. intros Hr Hs Ho. unfold entry. by rewrite current_free, Ho. Qed.
Lemma entry_current s o : current S t V s = Some o → entry S t V s = entry_of S (counter_of t s) o.
Proof. intros Ho. unfold entry. by rewrite Ho. Qed.
(** The condition on keys when the entry of the slot stays what it is. *)
Lemma key_kept s e : e = entry S t V s → ∀ k o, e = Some (k, o) →
  (∃ o', entry S t V s = Some (k, o')) ∨ (∀ j o', (j < slots)%nat → entry S t V j ≠ Some (k, o')).
Proof. intros -> k o Ho. left. eauto. Qed.
Lemma marks_free s : vt_reserved t = 0 → marks s t.
Proof. by left. Qed.

Lemma mark_replace s g o : vt_reserved t = 0 → V !! WT_HSM_VAULT_STAGE_ID = None → (s < slots)%nat → V !! slot_id s = Some o →
  authentic S (counter_of t s) o = true → is_key o.1 = false → 0 ≤ g < 2 ^ 64 →
  keeps_dir V (table_put (t <| vt_global := g |> <| vt_reserved := Z.of_nat s + 1 |>) V).
Proof.
  intros Hr Hst Hs Ho Ha Hk Hg. apply (writes_keeps s); [done|]. fold t. rewrite (entry_free s o) by done.
  apply (table_change s V (t <| vt_global := g |> <| vt_reserved := Z.of_nat s + 1 |>) (Some o));
    try done; try marked.
  - apply table_wf_reserved; [by apply table_wf_global|]. unfold slots in Hs. lia.
  - rewrite current_replace by done. by rewrite Hst.
  - apply key_kept. by rewrite (entry_free s o).
  - by intros o' [= <-] _ _ _.
  - by exists o.
Qed.

Lemma counter_put s g c : vt_reserved t = 0 → (s < slots)%nat → (∀ o, V !! slot_id s = Some o → is_sealed o.1 = false) →
  0 ≤ g < 2 ^ 64 → 0 ≤ c < 2 ^ 64 →
  keeps_dir V (table_put (t <| vt_global := g |> <| vt_slot := <[s := c]> (vt_slot t) |>) V).
Proof.
  intros Hr Hs Hp Hg Hc. set (t' := _ <| vt_slot := _ |>).
  assert (table_wf t') as Ht'. { exact (table_wf_slot (t <| vt_global := g |>) s c (table_wf_global t g wf Hg) Hc). }
  assert (V !! slot_id s ≫= entry_of S (counter_of t' s) = entry S t V s) as He.
  { unfold entry. rewrite current_free by done. destruct (V !! slot_id s) as [o|] eqn:Ho; [|done]. by apply entry_of_plain, Hp. }
  apply (writes_keeps s); [done|]. fold t. rewrite <-He.
  apply (table_change s V t' (V !! slot_id s)); try done; try marked.
  - intros j Hj. by apply (counter_slot_ne t t' s j c).
  - by apply current_free.
  - by apply key_kept.
  - intros o Ho Hk Hse. by rewrite Hp in Hse.
Qed.

Lemma stage_put s o m : vt_reserved t = Z.of_nat s + 1 → V !! WT_HSM_VAULT_STAGE_ID = None → (s < slots)%nat →
  V !! slot_id s = Some o → md_label m = md_label o.1 → md_len m = md_len o.1 → object_wf (m, o.2) →
  keeps_dir V (<[WT_HSM_VAULT_STAGE_ID := (m, o.2)]> V).
Proof.
  intros Hr Hst Hs Ho Hl Hn Hw. assert (current S t V s = Some o) as Hcur. { rewrite current_replace, Hst by done. done. }
  destruct (vi_replace _ _ _ (proj2 I) s Hr Hs) as (o1 & Ho1 & Ha & Hk). fold t in Ho1, Ha. assert (o1 = o) as -> by congruence.
  assert (authentic S (counter_of t s) (m, o.2) = true) as Ha' by by rewrite (authentic_alike _ _ o).
  apply (writes_keeps s); [done|]. fold t. rewrite (entry_current s o), <-(entry_of_same _ (m, o.2)) by done.
  apply (object_change s V _ (Some (m, o.2))); try done; try marked.
  - intros j Hj _. rewrite lookup_insert_ne; [done|]. by apply not_eq_sym, slot_not_stage.
  - intros o'. rewrite lookup_insert_ne by (by apply not_eq_sym, slot_not_stage). by apply (vi_objects _ _ _ (proj2 I)).
  - intros o'. rewrite lookup_insert_eq. by intros [= <-].
  - rewrite current_replace by done. rewrite lookup_insert_eq. fold t. by rewrite Ha'.
  - apply key_kept. rewrite (entry_current s o) by done. by apply entry_of_same.
  - by intros o' [= <-] _ _ _.
  - intros _. exists (m, o.2). split_and!; [done..|]. unfold is_key in *. simpl. by rewrite Hl.
Qed.

(** Under a staged copy, the live object does not count. *)
Lemma live_put s so new : vt_reserved t = Z.of_nat s + 1 → V !! WT_HSM_VAULT_STAGE_ID = Some so → (s < slots)%nat →
  authentic S (counter_of t s) so = true → object_wf new → keeps_dir V (<[slot_id s := new]> V).
Proof.
  intros Hr Hst Hs Ha Hw. assert (current S t V s = Some so) as Hcur. { rewrite current_replace, Hst by done. by rewrite Ha. }
  destruct (vi_replace _ _ _ (proj2 I) s Hr Hs) as (o1 & Ho1 & _ & Hk). fold t in Ho1. assert (o1 = so) as -> by congruence.
  apply (writes_keeps s); [done|]. fold t. rewrite (entry_current s so) by done.
  apply (object_change s V _ (Some so)); try done; try marked.
  - intros j Hj Hne. rewrite lookup_insert_ne; [done|]. intros E%slot_id_inj. by apply Hne.
  - intros o'. rewrite lookup_insert_eq. by intros [= <-].
  - intros o'. rewrite lookup_insert_ne by (by apply slot_not_stage). apply (vi_stage _ _ _ (proj2 I)).
  - rewrite current_replace by done. rewrite lookup_insert_ne by (by apply slot_not_stage). fold t. by rewrite Hst, Ha.
  - apply key_kept. by rewrite (entry_current s so).
  - by intros o' [= <-] _ _ _.
  - by exists so.
Qed.

Lemma commit s c new k v : vt_reserved t = Z.of_nat s + 1 → (s < slots)%nat → V !! slot_id s = Some new →
  label_key (md_label new.1) = Some k → entry S t V s = Some (k, v) → 0 ≤ c < 2 ^ 64 →
  (is_sealed new.1 = true → authentic S c new = true) →
  writes_dir s (entry_of S c new) V (table_put (t <| vt_slot := <[s := c]> (vt_slot t) |> <| vt_reserved := 0 |>) V).
Proof.
  intros Hr Hs Ho Hl Hv Hc Ha. set (t' := _ <| vt_reserved := 0 |>).
  assert (table_wf t') as Ht'. { apply table_wf_reserved; [by apply table_wf_slot|lia]. }
  assert (counter_of t' s = c) as Ec. { apply (counter_slot_eq t t' s c); [done|]. by rewrite (tw_length _ wf). }
  rewrite <-Ec. apply (table_change s V t' (Some new)); rewrite ?Ec; try done; try marked.
  - intros j Hj. by eapply (counter_slot_ne t t' s j).
  - by rewrite current_free.
  - intros k' o' E. apply entry_of_label in E. assert (k' = k) as -> by congruence. left. by exists v.
  - intros o [= <-] _ Hse _. by apply Ha.
Qed.

Lemma stage_drop : vt_reserved t = 0 → keeps_dir V (delete WT_HSM_VAULT_STAGE_ID V).
Proof.
  intros Hr. assert (0 < slots)%nat as Hs by (unfold slots; lia). apply (writes_keeps 0); [done|]. fold t.
  unfold entry. rewrite current_free by done.
  assert (∀ j, (j < slots)%nat → delete WT_HSM_VAULT_STAGE_ID V !! slot_id j = V !! slot_id j) as Hd.
  { intros j Hj. rewrite lookup_delete_ne; [done|]. by apply not_eq_sym, slot_not_stage. }
  apply (object_change 0 V _ (V !! slot_id 0)); try done; try marked.
  - intros j Hj _. by apply Hd.
  - intros o. rewrite Hd by done. by apply (vi_objects _ _ _ (proj2 I)).
  - intros o. by rewrite lookup_delete_eq.
  - rewrite current_free by done. by apply Hd.
  - apply key_kept. unfold entry. by rewrite current_free.
  - intros o Ho. apply (vi_sealed _ _ _ (proj2 I)); [done|]. fold t. by rewrite current_free.
Qed.

Lemma fresh_put s new k : vt_reserved t = 0 → (s < slots)%nat → object_wf new → label_key (md_label new.1) = Some k →
  (is_sealed new.1 = true → authentic S (counter_of t s) new = true) →
  (∃ o', entry S t V s = Some (k, o')) ∨ (∀ j o', (j < slots)%nat → entry S t V j ≠ Some (k, o')) →
  writes_dir s (entry_of S (counter_of t s) new) V (<[slot_id s := new]> V).
Proof.
  intros Hr Hs Hw Hl Ha Hk. apply (object_change s V _ (Some new)); try done; try marked.
  - intros j Hj Hne. rewrite lookup_insert_ne; [done|]. intros E%slot_id_inj. by apply Hne.
  - intros o'. rewrite lookup_insert_eq. by intros [= <-].
  - intros o'. rewrite lookup_insert_ne by (by apply slot_not_stage). apply (vi_stage _ _ _ (proj2 I)).
  - rewrite current_free by done. by rewrite lookup_insert_eq.
  - intros k' o' E. apply entry_of_label in E. assert (k' = k) as -> by congruence. done.
  - intros o [= <-] _ Hse _. by apply Ha.
Qed.

Lemma mark_delete s o : vt_reserved t = 0 → V !! WT_HSM_VAULT_STAGE_ID = None → (s < slots)%nat → V !! slot_id s = Some o →
  is_key_object o.1 = false → removable o →
  writes_dir s None V (table_put (t <| vt_reserved := WT_HSM_VAULT_DELETE_MARKER_BASE + Z.of_nat s + 1 |>) V).
Proof.
  intros Hr Hst Hs Ho Hk Hrm. apply (table_change s V (t <| vt_reserved := WT_HSM_VAULT_DELETE_MARKER_BASE + Z.of_nat s + 1 |>) None);
    try done; try marked.
  - apply table_wf_reserved; [done|]. unfold WT_HSM_VAULT_DELETE_MARKER_BASE, WT_HSM_VAULT_ID_COUNT, slots in *. lia.
  - rewrite current_delete by done. by rewrite Ho, Hk.
  - intros _. split; [done|]. intros o'. rewrite Ho. by intros [= <-].
Qed.

Lemma object_drop s : vt_reserved t = 0 ∨ vt_reserved t = WT_HSM_VAULT_DELETE_MARKER_BASE + Z.of_nat s + 1 → (s < slots)%nat →
  writes_dir s None V (delete (slot_id s) V).
Proof.
  intros Hr Hs. apply (object_change s V _ None); try done; try marked.
  { destruct Hr; [by left|by right; right]. }
  - intros j Hj Hne. rewrite lookup_delete_ne; [done|]. intros E%slot_id_inj. by apply Hne.
  - intros o'. by rewrite lookup_delete_eq.
  - intros o'. rewrite lookup_delete_ne by (by apply slot_not_stage). apply (vi_stage _ _ _ (proj2 I)).
  - destruct Hr as [Hr|Hr]; [rewrite current_free by done|rewrite current_delete by done]; by rewrite lookup_delete_eq.
  - intros E. rewrite lookup_delete_ne by (by apply slot_not_stage). split; [by apply (vi_delete _ _ _ (proj2 I) s)|].
    intros o. by rewrite lookup_delete_eq.
Qed.

Lemma unmark s : vt_reserved t = WT_HSM_VAULT_DELETE_MARKER_BASE + Z.of_nat s + 1 → (s < slots)%nat →
  (∀ o, V !! slot_id s = Some o → is_key_object o.1 = true) →
  keeps_dir V (table_put (t <| vt_slot := <[s := 0]> (vt_slot t) |> <| vt_reserved := 0 |>) V).
Proof.
  intros Hr Hs Hk. set (t' := _ <| vt_reserved := 0 |>).
  assert (table_wf t') as Ht'. { apply table_wf_reserved; [by apply table_wf_slot|lia]. }
  assert (∀ o, V !! slot_id s = Some o → is_sealed o.1 = false) as Hp.
  { intros o Ho%Hk. unfold is_key_object in Ho. by bool_hyps. }
  assert (V !! slot_id s ≫= entry_of S (counter_of t' s) = entry S t V s) as He.
  { unfold entry. rewrite current_delete by done. destruct (V !! slot_id s) as [o|] eqn:Ho; [|done].
    rewrite (Hk o) by done. by apply entry_of_plain, Hp. }
  apply (writes_keeps s); [done|]. fold t. rewrite <-He.
  apply (table_change s V t' (V !! slot_id s)); try done; try marked.
  - intros j Hj. by eapply (counter_slot_ne t t' s j).
  - by apply current_free.
  - by apply key_kept.
  - intros o Ho _ Hse. by rewrite Hp in Hse.
Qed.

(** Storing the table again, or the table without its mark when the slot holds
    what counts. *)
Lemma settle_put s o o' : vt_reserved t = Z.of_nat s + 1 → (s < slots)%nat → current S t V s = Some o →
  V !! slot_id s = Some o' → md_label o'.1 = md_label o.1 → md_len o'.1 = md_len o.1 → o'.2 = o.2 →
  keeps_dir V (table_put (t <| vt_reserved := 0 |>) V).
Proof.
  intros Hr Hs Hcur Ho Hl Hn Hd.
  destruct (vi_replace _ _ _ (proj2 I) s Hr Hs) as (o1 & Ho1 & Ha & _). fold t in Ho1, Ha. assert (o1 = o) as -> by congruence.
  apply (writes_keeps s); [done|]. fold t. rewrite (entry_current s o), <-(entry_of_same _ o') by done.
  apply (table_change s V (t <| vt_reserved := 0 |>) (Some o')); try done; try marked.
  - apply table_wf_reserved; [done|lia].
  - by rewrite current_free.
  - apply key_kept. rewrite (entry_current s o) by done. by apply entry_of_same.
  - intros o2 [= <-] _ _ _. change (authentic S (counter_of t s) o' = true). by rewrite (authentic_alike _ _ o).
Qed.
Lemma table_again : vt_reserved t = 0 → keeps_dir V (table_put t V).
Proof.
  intros Hr. assert (0 < slots)%nat as Hs by (unfold slots; lia). apply (writes_keeps 0); [done|]. fold t.
  unfold entry. rewrite current_free by done. apply (table_change 0 V t (V !! slot_id 0)); try done; try marked.
  - by apply current_free.
  - apply key_kept. unfold entry. by rewrite current_free.
  - intros o Ho. apply (vi_sealed _ _ _ (proj2 I)); [done|]. fold t. by rewrite current_free.
Qed.
End steps.
End trans.
