(* ===== verification/VaultRun.v ===== *)
(** * Running the vault's operations

    [ran P s s']: an execution from [s] to [s'] in which the store satisfied [P]
    after each operation on it, so that [P] is what a power failure finds. The
    shared parts of the storage operations are specified with it, down to the
    recovery of an unfinished transaction. *)

From Stdlib Require Import ZArith Lia.
From stdpp Require Import base list numbers option sets gmap.
From S2P Require Import Prelude Buffers CState FfmTypes Service VaultStore VaultSpec VaultFacts.

(** Bind the result of a call whose specification is [lem]. *)
Tactic Notation "wp_do" uconstr(lem) := apply wp_bind, wp_call; eapply fwp_mono; [eapply lem|].

Section run.
Context {N : Type} `{!WhNvm N, !NvmOk N} (S : wt_vault_sealer) `{!SealerOk S}.
Implicit Types (V : store) (s : vault N) (P : store → Prop).

Definition obs s : store := objects (vl_nvm s).

(** The newest store of a history. *)
Definition last_store (log : list (vault_event N)) : option N :=
  head (omap (λ e, match e with EvStore n => Some n | EvSeal _ => None end) log).
Record env s : Prop := {
  env_log : last_store (vl_log s) = Some (vl_nvm s);
  env_ct : Z.of_nat (length (g_vault_ct s)) = WT_VAULT_OBJECT_MAX + WT_VAULT_SEAL_TAG_LEN;
  env_pt : g_vault_pt s = zeros (Z.to_nat WT_VAULT_OBJECT_MAX);   (** no plaintext is left behind *)
  env_sealer : g_vault_sealer s = None ∨ g_vault_sealer s = Some S;
}.
Definition store_event P (e : vault_event N) : Prop := match e with EvStore n => P (objects n) | EvSeal _ => False end.
Record ran P s s' : Prop := {
  ran_env : env s';
  ran_bound : g_vault_nvm s' = g_vault_nvm s;
  ran_sealer : g_vault_sealer s' = g_vault_sealer s;
  ran_log : ∃ evs, vl_log s' = evs ++ vl_log s ∧ Forall (store_event P) evs;
}.

Lemma ran_refl P s : env s → ran P s s.
Proof. intros He. constructor; [done..|]. by exists []. Qed.
Lemma ran_trans P s1 s2 s3 : ran P s1 s2 → ran P s2 s3 → ran P s1 s3.
Proof.
  intros [? ? ? (e1 & E1 & F1)] [? ? ? (e2 & E2 & F2)]. constructor; [done|congruence..|].
  exists (e2 ++ e1). rewrite E2, E1, app_assoc. split; [done|by apply Forall_app].
Qed.
Lemma ran_mono P P' s s' : (∀ V, P V → P' V) → ran P s s' → ran P' s s'.
Proof.
  intros HP [? ? ? (evs & E & F)]. constructor; [done..|]. exists evs. split; [done|].
  eapply Forall_impl; [exact F|]. intros [n|c]; [apply HP|done].
Qed.
Lemma run_nvm {A} (f : N → N * A) P s (Q : A → vault N → Prop) : env s →
  (∀ n' a, f (vl_nvm s) = (n', a) → P (objects n') ∧
     (∀ s', ran P s s' → obs s' = objects n' → g_vault_ct s' = g_vault_ct s → Q a s')) →
  fwp (nvm f) Q s.
Proof.
  intros [He0 He1 He2 He3] H. unfold fwp, nvm. destruct (f (vl_nvm s)) as [n' a] eqn:E. destruct (H n' a eq_refl) as [HP HQ].
  apply HQ; [|done|done]. constructor; [by constructor|done|done|]. exists [EvStore n']. split; [done|]. by constructor.
Qed.

(** No state of the store in the history of [s] had a failure or lacked room. *)
Record smooth s : Prop := {
  smooth_cipher : CipherWorks S;
  smooth_store n : EvStore n ∈ vl_log s → works_at n;
}.
Lemma smooth_log s s' evs : vl_log s' = evs ++ vl_log s → smooth s' → smooth s.
Proof. intros E [Hc Hs]. constructor; [done|]. intros n Hn. apply Hs. rewrite E. apply elem_of_app. by right. Qed.
Lemma smooth_ran P s s' : ran P s s' → smooth s' → smooth s.
Proof. intros [_ _ _ (evs & E & _)]. by apply (smooth_log s s' evs). Qed.
Lemma smooth_at s : env s → smooth s → works_at (vl_nvm s).
Proof.
  intros [Hl _ _ _] [_ Hs]. apply Hs. unfold last_store in Hl.
  induction (vl_log s) as [|[n|c] log IH]; simpl in Hl; [done|injection Hl as <-; by left|]. right. apply IH; [done|].
  intros n Hn. apply Hs. by right.
Qed.
Lemma works_before P s s' : env s → ran P s s' → smooth s' → works_at (vl_nvm s).
Proof. intros He Hr Hs. apply smooth_at; [done|]. by eapply smooth_ran. Qed.

Lemma metadata_run id P s : env s → P (obs s) →
  fwp (nvm (wh_Nvm_GetMetadata id)) (λ r s', ran P s s' ∧ obs s' = obs s ∧ g_vault_ct s' = g_vault_ct s ∧
    (r.1 = WH_ERROR_OK → ∃ d, obs s !! id = Some (r.2, d)) ∧ (r.1 = WH_ERROR_NOTFOUND → obs s !! id = None) ∧
    r.1 ≠ WH_ERROR_ACCESS ∧ (smooth s' → r.1 = WH_ERROR_OK ∨ r.1 = WH_ERROR_NOTFOUND)) s.
Proof.
  intros He HP. apply (run_nvm _ P); [done|]. intros n' [rc m] E. destruct (metadata_ok _ _ _ _ _ E) as (Eo & H1 & H2 & H3).
  split; [by rewrite Eo|]. intros s' Hr Ho Hc. split_and!; [done|by rewrite Ho, Eo|done|done|done|done|].
  intros HR. pose proof (metadata_works (works_before _ _ _ He Hr HR) id) as Hw. by rewrite E in Hw.
Qed.

(** The room the vault asks for. *)
Definition asks V (size count : Z) : Prop :=
  count ≤ 4 ∧ (size = wt_hsm_vault_storage_size sizeof_table ∨
               ∃ repl len old, fits V len ∧ fits V old ∧ size = set_need repl len old).
Lemma reserve_run size count P s : env s → P (obs s) →
  fwp (wt_hsm_vault_reserve size count) (λ st s', ran P s s' ∧ obs s' = obs s ∧ g_vault_ct s' = g_vault_ct s ∧
    (smooth s' → asks (obs s) size count → st = PSA_SUCCESS)) s.
Proof.
  intros He HP. apply fwp_fn, wp_bind, wp_call. apply (run_nvm _ P); [done|]. intros n' [rc [[[a b] c] d]] E.
  pose proof (available_ok _ _ _ E) as Eo. split; [by rewrite Eo|]. intros s1 Hr1 Ho1 Hc1.
  assert (smooth s1 → rc = WH_ERROR_OK ∧ (asks (obs s) size count → size ≤ a ∧ count ≤ b)) as HR.
  { intros Hsm. pose proof (available_works (works_before _ _ _ He Hr1 Hsm)) as Hw. rewrite E in Hw.
    destruct Hw as (H1 & H2 & H3 & H4). split; [done|]. intros [Hc [->|(r & l & o & ? & ? & ->)]]; (split; [|lia]); auto. }
  assert (obs s1 = obs s) as Hs1 by (rewrite Ho1; exact Eo).
  apply wp_if; intros E1; bool_hyps.
  { apply wp_ret. split_and!; [done..|]. intros Hsm _. by destruct (HR Hsm). }
  apply wp_if; intros E2; [|by apply wp_ret].
  assert (smooth s1 → asks (obs s) size count → False) as HF.
  { intros Hsm Ha. destruct (proj2 (HR Hsm) Ha). apply orb_true_iff in E2 as [E2|E2]; bool_hyps; lia. }
  apply wp_if; intros E3; [|by apply wp_ret; split_and!; [done..|]; intros ? ?; destruct HF].
  apply wp_bind, wp_call. apply (run_nvm _ P); [apply Hr1|]. intros n2 rc2 E4.
  assert (objects n2 = objects (vl_nvm s1)) as Eo2 by (by destruct (destroy_ok _ _ _ _ E4) as [[? _]|?]).
  fold (obs s1) in Eo2. split; [by rewrite Eo2, Hs1|]. intros s2 Hr2 Ho2 Hc2.
  assert (ran P s s2) by by eapply ran_trans. assert (obs s2 = obs s) by congruence. assert (g_vault_ct s2 = g_vault_ct s) by congruence.
  apply wp_if; intros _; apply wp_ret; (split_and!; [done..|]); intros Hsm Ha; (destruct HF; [by eapply smooth_ran|done]).
Qed.

Lemma table_store_run t P s : env s → P (obs s) → P (table_put t (obs s)) →
  fwp (wt_hsm_vault_table_store t) (λ st s', ran P s s' ∧ g_vault_ct s' = g_vault_ct s ∧
    (obs s' = obs s ∨ obs s' = table_put t (obs s)) ∧ (st = PSA_SUCCESS → obs s' = table_put t (obs s)) ∧
    (smooth s' → st = PSA_SUCCESS)) s.
Proof.
  intros He HP HP'. apply fwp_fn. wp_do (reserve_run _ _ P); [done|done|]. intros st s1 (Hr1 & Ho1 & Hc1 & HR1).
  assert (smooth s1 → st = PSA_SUCCESS) as HR by (intros Hsm; apply HR1; [done|]; by split; [|left]).
  apply wp_if; intros E1; bool_hyps. { apply wp_ret. split_and!; [done|done|by left|done|done]. }
  apply wp_bind, wp_call. apply (run_nvm _ P); [apply Hr1|]. intros n2 rc E2. fold table_meta in E2.
  assert (works_at (vl_nvm s1) → rc = WH_ERROR_OK) as HR2.
  { intros Hwk. pose proof (add_works Hwk table_meta (bytes_of_table t)) as Hw. rewrite E2 in Hw. apply Hw. by left. }
  pose proof (ran_env _ _ _ Hr1) as He1.
  destruct (add_ok _ _ _ _ _ E2) as [[Eo Hrc]|Eo]; fold (obs s1) in Eo; rewrite Ho1 in Eo; (split; [by rewrite Eo|]); intros s2 Hr2 Ho2 Hc2;
    apply wp_ret; (split; [by eapply ran_trans|]); (split; [congruence|]); rewrite Ho2, Eo.
  - split; [by left|]. destruct (Z.eqb_spec rc WH_ERROR_OK); [done|]. split; [done|]. intros Hsm. destruct Hrc. by eapply HR2, works_before.
  - split; [by right|]. split; [done|]. intros Hsm. rewrite HR2 by (by eapply works_before). by rewrite Z.eqb_refl.
Qed.

Lemma map_err_ok rc : wt_hsm_vault_map_err rc = PSA_SUCCESS → rc = WH_ERROR_OK.
Proof.
  unfold wt_hsm_vault_map_err. destruct (Z.eqb_spec rc WH_ERROR_OK); [done|].
  by repeat destruct (_ =? _).
Qed.
Lemma map_ok : wt_hsm_vault_map_err WH_ERROR_OK = PSA_SUCCESS.
Proof. unfold wt_hsm_vault_map_err. by rewrite Z.eqb_refl. Qed.
Lemma map_notfound rc : wt_hsm_vault_map_err rc = PSA_ERROR_DOES_NOT_EXIST → rc = WH_ERROR_NOTFOUND.
Proof.
  unfold wt_hsm_vault_map_err. destruct (_ =? _); [done|]. destruct (_ =? _); [done|]. destruct (_ =? _); [done|].
  by destruct (Z.eqb_spec rc WH_ERROR_NOTFOUND).
Qed.
Lemma map_access rc : wt_hsm_vault_map_err rc = PSA_ERROR_NOT_PERMITTED → rc = WH_ERROR_ACCESS.
Proof.
  unfold wt_hsm_vault_map_err. destruct (Z.eqb_spec rc WH_ERROR_OK); [done|]. destruct (Z.eqb_spec rc WH_ERROR_ACCESS); [done|].
  by repeat destruct (_ =? _).
Qed.
Lemma map_not_signature rc : wt_hsm_vault_map_err rc ≠ PSA_ERROR_INVALID_SIGNATURE.
Proof. unfold wt_hsm_vault_map_err. by repeat destruct (_ =? _). Qed.
Lemma map_of_access : wt_hsm_vault_map_err WH_ERROR_ACCESS = PSA_ERROR_NOT_PERMITTED.
Proof.
  pose proof codes_distinct as Hd. unfold wt_hsm_vault_map_err. rewrite !NoDup_cons in Hd.
  destruct (Z.eqb_spec WH_ERROR_ACCESS WH_ERROR_OK); [set_solver|]. by rewrite Z.eqb_refl.
Qed.
Lemma map_of_notfound : wt_hsm_vault_map_err WH_ERROR_NOTFOUND = PSA_ERROR_DOES_NOT_EXIST.
Proof.
  pose proof codes_distinct as Hd. unfold wt_hsm_vault_map_err. rewrite !NoDup_cons in Hd.
  destruct (Z.eqb_spec WH_ERROR_NOTFOUND WH_ERROR_OK); [set_solver|].
  destruct (Z.eqb_spec WH_ERROR_NOTFOUND WH_ERROR_ACCESS); [set_solver|].
  destruct (Z.eqb_spec WH_ERROR_NOTFOUND WH_ERROR_NOSPACE); [set_solver|]. by rewrite Z.eqb_refl.
Qed.
Lemma notfound_not_ok : WH_ERROR_NOTFOUND ≠ WH_ERROR_OK.
Proof. pose proof codes_distinct as Hd. rewrite !NoDup_cons in Hd. set_solver. Qed.

Lemma destroy_stage_run P s : env s → P (obs s) → P (delete WT_HSM_VAULT_STAGE_ID (obs s)) →
  fwp wt_hsm_vault_destroy_stage (λ st s', ran P s s' ∧
    (obs s' = obs s ∨ obs s' = delete WT_HSM_VAULT_STAGE_ID (obs s)) ∧
    (st = PSA_SUCCESS → obs s' = delete WT_HSM_VAULT_STAGE_ID (obs s)) ∧ (smooth s' → st = PSA_SUCCESS)) s.
Proof.
  intros He HP HP'. apply fwp_fn. wp_do (metadata_run WT_HSM_VAULT_STAGE_ID P); [done|done|].
  intros [rc m] s1 (Hr1 & Ho1 & _ & Hok & Hnf & _ & HR). simpl in *.
  apply wp_if; intros E1; bool_hyps.
  { apply wp_ret. split_and!; [done|by left| |done]. intros _. rewrite delete_id; [done|]. by apply Hnf. }
  apply wp_if; intros E2; bool_hyps. { apply wp_ret. split_and!; [done|by left|done|]. intros Hsm. by destruct (HR Hsm). }
  apply wp_bind, wp_call. apply (run_nvm _ P); [apply Hr1|]. intros n2 rc2 E3.
  assert (works_at (vl_nvm s1) → rc2 = WH_ERROR_OK) as HR2.
  { intros Hwk. pose proof (destroy_works Hwk [WT_HSM_VAULT_STAGE_ID]) as Hw. by rewrite E3 in Hw. }
  pose proof (ran_env _ _ _ Hr1) as He1.
  destruct (destroy_ok _ _ _ _ E3) as [[Eo Hrc]|Eo]; simpl in Eo; fold (obs s1) in Eo; rewrite Ho1 in Eo; (split; [by rewrite Eo|]);
    intros s2 Hr2 Ho2 Hc2; apply wp_ret; (split; [by eapply ran_trans|]); rewrite Ho2, Eo.
  - split_and!; [by left| |]; [by intros ?%map_err_ok|]. intros Hsm. destruct Hrc. by eapply HR2, works_before.
  - split_and!; [by right|done|]. intros Hsm. rewrite HR2 by (by eapply works_before). apply map_ok.
Qed.

(** ** Sealed objects *)

(** A state in which the plaintext buffer holds [pt]. *)
Definition opened (pt : list Z) s : vault N := s <| g_vault_pt := pt ++ zeros (Z.to_nat WT_VAULT_OBJECT_MAX - length pt) |>.
Lemma buf_write_start buf bytes : (length bytes ≤ length buf)%nat → buf_write buf 0 bytes = Some (bytes ++ drop (length bytes) buf).
Proof.
  intros Hl. unfold buf_write. rewrite bool_decide_true by done.
  destruct (Z.leb_spec (0 + Z.of_nat (length bytes)) (Z.of_nat (length buf))); [done|lia].
Qed.
Lemma buf_read_start bytes rest n : n = Z.of_nat (length bytes) → buf_read (bytes ++ rest) 0 n = Some bytes.
Proof.
  intros ->. unfold buf_read. rewrite bool_decide_true by lia.
  destruct (Z.leb_spec (0 + Z.of_nat (length bytes)) (Z.of_nat (length (bytes ++ rest)))) as [_|E]; [|rewrite length_app in E; lia].
  simpl. rewrite drop_0, Nat2Z.id. by rewrite take_app_length.
Qed.
Lemma length_zeros n : length (zeros n) = n.
Proof. apply length_replicate. Qed.
Lemma drop_zeros n m : drop n (zeros m) = zeros (m - n).
Proof. apply drop_replicate. Qed.
Lemma zeros_app n m : zeros n ++ zeros m = zeros (n + m).
Proof. symmetry. apply replicate_add. Qed.

Lemma zeroize_run pt s n : env s → n = Z.of_nat (length pt) → n ≤ WT_VAULT_OBJECT_MAX →
  fwp (wt_hsm_vault_zeroize n) (λ _ s', s' = s) (opened pt s).
Proof.
  intros [_ _ Hp _] -> Hn. unfold fwp. simpl.
  assert (buf_write (g_vault_pt (opened pt s)) 0 (zeros (Z.to_nat (Z.of_nat (length pt)))) = Some (zeros (Z.to_nat WT_VAULT_OBJECT_MAX))) as E.
  { rewrite Nat2Z.id. simpl. rewrite buf_write_start.
    - rewrite length_zeros. rewrite (drop_app_length pt), zeros_app. do 2 f_equal. lia.
    - rewrite length_app, !length_zeros. lia. }
  unfold wt_hsm_vault_zeroize, fn, gets, modify, defined. cbv [mbind prog_bind].
  rewrite E. simpl. destruct s; simpl in *. by subst.
Qed.

Lemma read_sealed_run id m d c P s : env s → P (obs s) → obs s !! id = Some (m, d) → object_wf (m, d) →
  fwp (wt_hsm_vault_read_sealed id m c) (λ st s',
    (st = PSA_SUCCESS → ∃ pt s1, s' = opened pt s1 ∧ ran P s s1 ∧ obs s1 = obs s ∧ buf_read (g_vault_ct s1) 0 (md_len m) = Some d ∧
       authentic S c (m, d) = true ∧ has_any (md_flags m) WH_NVM_FLAGS_NONEXPORTABLE = false ∧
       opens (md_label m) c d = Some pt ∧ Z.of_nat (length pt) = md_len m - WT_VAULT_SEAL_TAG_LEN) ∧
    (st ≠ PSA_SUCCESS → ran P s s' ∧ obs s' = obs s) ∧
    (st = PSA_ERROR_INVALID_SIGNATURE → authentic S c (m, d) = false) ∧
    (st = PSA_ERROR_NOT_PERMITTED → has_any (md_flags m) WH_NVM_FLAGS_NONEXPORTABLE = true) ∧ st ≠ PSA_ERROR_DOES_NOT_EXIST ∧
    (smooth s' → g_vault_sealer s = Some S →
       st = PSA_SUCCESS ∨ st = PSA_ERROR_INVALID_SIGNATURE ∨ st = PSA_ERROR_NOT_PERMITTED)) s.
Proof.
  intros He HP Hd (Hlen & _ & _). simpl in Hlen. apply fwp_fn, wp_bind, wp_gets. pose proof He as [_ Hct Hpt [Hse|Hse]]; rewrite Hse.
  { apply wp_ret. split_and!; try done. intros _. split; [by apply ran_refl|done]. }
  apply wp_if; intros E1.
  { assert (authentic S c (m, d) = false) as Ha.
    { unfold authentic, is_sealed. simpl. repeat (apply orb_true_iff in E1 as [E1|E1]).
      - by rewrite E1.
      - apply negb_true_iff in E1. rewrite E1. by rewrite andb_false_r.
      - bool_hyps. rewrite (proj2 (Z.leb_gt _ _)) by done. by rewrite andb_false_r.
      - bool_hyps. rewrite (proj2 (Z.leb_gt (md_len m) _)) by done. by rewrite andb_false_r. }
    apply wp_ret. split_and!; try done; [|by right; left]. intros _. split; [by apply ran_refl|done]. }
  apply orb_false_iff in E1 as [E1 E4]. apply orb_false_iff in E1 as [E1 E3]. apply orb_false_iff in E1 as [E1 E2].
  assert (authentic S c (m, d) = bool_decide (is_Some (opens (md_label m) c d))) as Ha.
  { unfold authentic, is_sealed. simpl. apply negb_false_iff in E2. rewrite E1, E2. bool_hyps.
    rewrite (proj2 (Z.leb_le _ _)) by done. by rewrite (proj2 (Z.leb_le (md_len m) _)). }
  bool_hyps. unfold WT_VAULT_SEAL_TAG_LEN, WT_VAULT_OBJECT_MAX in *.
  apply wp_bind, wp_call. apply (run_nvm _ P); [done|]. intros n2 [rc bytes] E5.
  destruct (read_checked_ok id 0 (md_len m) (vl_nvm s) n2 rc bytes) as (Eo & Hb & Hok & Hnf & Hac); [lia|lia|done|].
  fold (obs s) in Eo, Hok, Hnf, Hac. split; [by rewrite Eo|]. intros s2 Hr2 Ho2 Hc2. rewrite Eo in Ho2.
  apply wp_bind. eapply wp_defined; [apply buf_write_start; lia|].
  apply wp_bind, wp_modify. set (ct := bytes ++ _). set (s3 := s2 <| g_vault_ct := ct |>).
  assert (ran P s s3) as Hr3.
  { destruct Hr2 as [[] ? ? ?]. constructor; [|done..]. constructor; [done| |done|done]. simpl. unfold ct.
    rewrite length_app, length_drop. unfold WT_VAULT_SEAL_TAG_LEN, WT_VAULT_OBJECT_MAX. lia. }
  cbv zeta. apply wp_if; intros E6; bool_hyps.
  { apply wp_ret. split_and!; try done.
    - intros E7. by destruct (map_not_signature rc).
    - intros E7%map_access%Hac. destruct E7 as (m' & d' & E7 & ?). congruence.
    - intros E7%map_notfound%Hnf. congruence.
    - intros HR _. right; right.
      pose proof (read_checked_works (works_before _ _ s3 He Hr3 HR) id 0 (md_len m) m d d Hd) as Hw. rewrite E5 in Hw. simpl in Hw.
      rewrite Hw in E6 |- * by (rewrite <-(app_nil_r d) at 1; by apply buf_read_start).
      destruct (has_any (md_flags m) _); [apply map_of_access|by destruct E6; apply map_ok]. }
  apply map_err_ok in E6. destruct (Hok E6) as (m' & d' & Hd' & Hbr & Hx). assert (m' = m ∧ d' = d) as [-> ->] by (split; congruence).
  assert (bytes = d) as ->.
  { rewrite <-(app_nil_r d) in Hbr at 1. rewrite buf_read_start in Hbr by done. congruence. }
  apply wp_bind. eapply wp_defined; [by apply buf_read_start|].
  destruct (sl_unseal S (md_label m) c d) as [st pt] eqn:E7.
  destruct (unseal_ok (md_label m) c d st pt) as (Hpl & Hs & Hi & Hn1 & Hn2); [unfold WT_VAULT_SEAL_TAG_LEN; lia|done|].
  unfold WT_VAULT_SEAL_TAG_LEN in *.
  apply wp_bind. eapply wp_defined; [apply buf_write_start; rewrite Hpt; rewrite length_zeros; lia|].
  apply wp_bind, wp_modify. rewrite Hpt, drop_zeros. change (set_field g_vault_pt _ s3) with (opened pt s3).
  apply wp_bind, wp_when; intros E8; bool_hyps.
  - apply wp_call.
    assert (opened pt s3 = opened (pt ++ zeros (Z.to_nat (md_len m - 16) - length pt)) s3) as ->.
    { unfold opened. rewrite <-app_assoc, zeros_app, length_app, length_zeros.
      assert (∀ a b, a = b → pt ++ zeros a = pt ++ zeros b) as Hz by (by intros ?? ->).
      erewrite Hz; [done|]. unfold WT_VAULT_OBJECT_MAX. lia. }
    eapply fwp_mono; [apply zeroize_run; [apply Hr3| |unfold WT_VAULT_OBJECT_MAX; lia]|].
    { rewrite length_app, length_zeros. lia. }
    intros [] s4 ->. apply wp_ret. split_and!; try done.
    + intros E9%Hi. rewrite Ha. apply bool_decide_false. rewrite E9. by intros [? [=]].
    + intros [HR _] _. pose proof (unseal_works (md_label m) c d) as Hw. rewrite E7 in Hw. simpl in Hw.
      destruct (opens _ _ _); [by left|by right; left].
  - apply wp_ret. subst st. destruct (Hs eq_refl) as [Hl Ho]. split_and!; try done; [|by left].
    intros _. exists pt, s3. split_and!; try done.
    + by apply buf_read_start.
    + rewrite Ha. apply bool_decide_true. by eexists.
    + lia.
Qed.

(** ** Recovery *)

(** The store stands for the same directory, and no counter was lost. *)
Record same V V' : Prop := {
  sm_inv : vinv S V';
  sm_dir : dir S V' = dir S V;
  sm_global : vt_global (table_in V') = vt_global (table_in V);
}.
Lemma same_refl V : vinv S V → same V V.
Proof. by constructor. Qed.
Lemma same_trans V1 V2 V3 : same V1 V2 → same V2 V3 → same V1 V3.
Proof. intros [] []. constructor; congruence. Qed.
Lemma same_keeps V V' : keeps_dir S V V' → vt_global (table_in V') = vt_global (table_in V) → same V V'.
Proof. intros [] ?. by constructor. Qed.
Lemma vinv_table V : vinv S V → table_wf (table_in V).
Proof. intros [_ []]. done. Qed.
Lemma keeps_put_global V t V0 : keeps_dir S V (table_put t V) → same V0 V → table_wf t → vt_global t = vt_global (table_in V) →
  same V0 (table_put t V).
Proof. intros Hk Hs Ht Hg. eapply same_trans; [done|]. apply same_keeps; [done|]. by rewrite table_put_in. Qed.

(** The slot a mark names. *)
Lemma slot_of_mark r base : 0 ≤ base → base < r ≤ base + 32 → base ≤ 32 →
  ∃ i, (i < slots)%nat ∧ r = base + Z.of_nat i + 1 ∧ u32 (r - base - 1) = Z.of_nat i ∧ u16 (WT_HSM_VAULT_ID_BASE + Z.of_nat i) = slot_id i.
Proof.
  intros Hb Hr Hb'. exists (Z.to_nat (r - base - 1)). unfold slots, slot_id, WT_HSM_VAULT_ID_BASE. split_and!; [lia|lia| |].
  - rewrite Z2Nat.id by lia. apply u32_small. lia.
  - apply u16_small. lia.
Qed.
Lemma slot_value t i : table_wf t → (i < slots)%nat → arr_get (vt_slot t) (Z.to_nat (Z.of_nat i)) = Some (counter_of t i).
Proof.
  intros Ht Hi. unfold arr_get, counter_of. rewrite Nat2Z.id.
  destruct (lookup_lt_is_Some_2 (vt_slot t) i) as [c Hc]; [by rewrite (tw_length _ Ht)|]. by rewrite Hc.
Qed.
Lemma wp_slot_get {R} t i E (Q : Z → vault N → Prop) s : table_wf t → (i < slots)%nat → Q (counter_of t i) s →
  wp (R := R) (slot_get t (Z.of_nat i)) E Q s.
Proof. intros Ht Hi HQ. eapply wp_defined; [by apply slot_value|done]. Qed.
Lemma wp_slot_set {R} t i c E (Q : wt_hsm_vault_table → vault N → Prop) s : table_wf t → (i < slots)%nat →
  Q (t <| vt_slot := <[i := c]> (vt_slot t) |>) s → wp (R := R) (slot_set t (Z.of_nat i) c) E Q s.
Proof.
  intros Ht Hi HQ. unfold slot_set. apply wp_bind. eapply wp_defined.
  - rewrite Nat2Z.id. apply arr_set_spec. by rewrite (tw_length _ Ht).
  - by apply wp_ret.
Qed.

(** What a successful load and recovery leaves: the table of the store, with no
    mark, and no staged object. *)
Definition clean t s : Prop := table_in (obs s) = t ∧ vt_reserved t = 0 ∧ obs s !! WT_HSM_VAULT_STAGE_ID = None.
(** The outcome of a recovery of [V0]. *)
Definition recovered V0 s (r : Z * wt_hsm_vault_table) s' : Prop :=
  ran (same V0) s s' ∧ same V0 (obs s') ∧ (r.1 = PSA_SUCCESS → clean r.2 s').

Lemma settle_run V0 t s : env s → same V0 (obs s) → table_wf t → vt_global t = vt_global (table_in (obs s)) →
  keeps_dir S (obs s) (table_put (t <| vt_reserved := 0 |>) (obs s)) →
  fwp (settle t) (λ r s', recovered V0 s r s' ∧ (smooth s' → r.1 = PSA_SUCCESS)) s.
Proof.
  intros He Hs Ht Hg Hk. set (t' := t <| vt_reserved := 0 |>).
  assert (table_wf t') as Ht'. { apply table_wf_reserved; [done|lia]. }
  assert (same V0 (table_put t' (obs s))) as Hs' by by apply keeps_put_global.
  apply fwp_fn. wp_do (table_store_run t' (same V0)); [done..|]. intros st s1 (Hr1 & _ & Ho1 & Hok1 & HR1).
  assert (same V0 (obs s1)) as Hs1 by (by destruct Ho1 as [->| ->]).
  apply wp_if; intros E1; bool_hyps. { apply wp_ret. split; [|done]. split_and!; [done|done|]. simpl. congruence. }
  specialize (Hok1 E1). assert (table_in (obs s1) = t') as Et1. { rewrite Hok1. by apply table_put_in. }
  assert (same V0 (delete WT_HSM_VAULT_STAGE_ID (obs s1))) as Hs2.
  { eapply same_trans; [done|]. apply same_keeps; [apply stage_drop; [apply Hs1|by rewrite Et1]|]. by rewrite table_in_delete. }
  wp_do (destroy_stage_run (same V0)); [apply Hr1|done|done|]. intros st2 s2 (Hr2 & Ho2 & Hok2 & HR2). apply wp_ret. split; [|by intros ?; apply HR2].
  split_and!; [by eapply ran_trans|by destruct Ho2 as [->| ->]|]. simpl. intros E2. specialize (Hok2 E2).
  split_and!; rewrite ?Hok2; [by rewrite table_in_delete|done|apply lookup_delete_eq].
Qed.

Lemma recovered_trans V0 s s1 r s2 : ran (same V0) s s1 → recovered V0 s1 r s2 → recovered V0 s r s2.
Proof. intros Hr (Hr2 & Hs & Hc). split_and!; [by eapply ran_trans|done|done]. Qed.
Lemma recovered_failed V0 s s1 st t : ran (same V0) s s1 → same V0 (obs s1) → st ≠ PSA_SUCCESS → recovered V0 s (st, t) s1.
Proof. intros Hr Hs Hn. by split_and!. Qed.
End run.

(** * Recovery keeps the directory

    Loading the table finishes or takes back an unfinished transaction. Whatever
    the store answers and wherever it is interrupted, the directory the store
    stands for does not change; with a store that works it succeeds. *)

Section recover.
Context {N : Type} `{!WhNvm N, !NvmOk N} (S : wt_vault_sealer) `{!SealerOk S}.
Implicit Types (V : store) (s : vault N) (P : store → Prop).

Lemma same_inv V V' : same S V V' → vinv_at S (table_in V') V'.
Proof. intros [[_ I] _ _]. exact I. Qed.

Lemma recover_live_run V0 s i : env S s → same S V0 (obs s) → (i < slots)%nat →
  vt_reserved (table_in (obs s)) = Z.of_nat i + 1 → current S (table_in (obs s)) (obs s) i = obs s !! slot_id i →
  fwp (wt_hsm_vault_recover_live (table_in (obs s)))
    (λ r s', recovered S V0 s r s' ∧ (smooth S s' → g_vault_sealer s = Some S → r.1 = PSA_SUCCESS)) s.
Proof.
  intros He Hs Hi Hr Hcur. pose proof (same_inv _ _ Hs) as I. set (t := table_in (obs s)) in *. set (V := obs s) in *.
  destruct (vi_replace _ _ _ I i Hr Hi) as ([m d] & Ho & Ha & Hk). rewrite Hcur in Ho. simpl in Hk.
  pose proof (vi_objects _ _ _ I i _ Hi Ho) as Hw. destruct (proj2 (proj2 Hw) Hk) as [Hx _]. simpl in Hx.
  apply fwp_fn. unfold wt_hsm_vault_recover_live.
  destruct (slot_of_mark (vt_reserved t) 0) as (i' & _ & Hr' & Eu & Ei); [lia|unfold slots in Hi; lia|lia|].
  assert (i' = i) as -> by lia. rewrite Z.sub_0_r in Eu. rewrite Eu, Ei.
  wp_do (metadata_run S (slot_id i) (same S V0)); [done|done|].
  intros [rc m'] s1 (Hr1 & Ho1 & _ & Hok & Hnf & _ & HR). fold V in Ho1, Hok, Hnf. simpl in Hok, Hnf, HR.
  apply wp_bind. destruct (Z.eqb_spec rc WH_ERROR_OK) as [E1|E1].
  2:{ apply wp_if; intros E2; bool_hyps; [|by specialize (Hnf E2); congruence].
      apply wp_early. split; [apply recovered_failed; [done|by rewrite Ho1|done]|]. intros Hsm _. simpl. by destruct (HR Hsm). }
  destruct (Hok E1) as [d' Hd']. assert (m' = m ∧ d' = d) as [-> ->] by (split; congruence).
  apply wp_bind, wp_slot_get; [apply I|done|].
  apply wp_call. eapply fwp_mono; [apply (read_sealed_run S _ _ d _ (same S V0)); [apply Hr1|by rewrite Ho1|by rewrite Ho1|done]|].
  intros st s2 (Hsu & Hne & Hsig & Hper & Hnex & HR2).
  apply wp_bind. destruct (Z.eqb_spec st PSA_SUCCESS) as [E3|E3].
  2:{ destruct (Hne E3) as [Hr2 Ho2].
      destruct (Z.eqb_spec st PSA_ERROR_INVALID_SIGNATURE) as [E4|_]; [by rewrite Hsig in Ha|].
      destruct (Z.eqb_spec st PSA_ERROR_NOT_PERMITTED) as [E4|_]; [by rewrite Hper in Hx|].
      destruct (Z.eqb_spec st PSA_ERROR_DOES_NOT_EXIST) as [E4|_]; [done|].
      apply wp_early. split; [apply recovered_failed; [by eapply ran_trans|by rewrite Ho2, Ho1|done]|].
      intros Hsm Hse. simpl. destruct HR2 as [?|[?|?]]; [done|by rewrite (ran_sealer _ _ _ _ Hr1)|done| |]; exfalso;
        [by rewrite Hsig in Ha|by rewrite Hper in Hx]. }
  destruct (Hsu E3) as (pt & s3 & -> & Hr3 & Ho3 & _ & _ & _ & _ & Hpl).
  assert (md_len m - WT_VAULT_SEAL_TAG_LEN ≤ WT_VAULT_OBJECT_MAX) as Hn.
  { unfold authentic in Ha. simpl in Ha. bool_hyps. lia. }
  wp_do (zeroize_run S pt s3); [apply Hr3|done|done|]. intros [] s4 ->. apply wp_ret.
  assert (obs s3 = V) as Ho3' by congruence. assert (ran S (same S V0) s s3) as Hr13 by by eapply ran_trans.
  apply wp_call. eapply fwp_mono; [apply (settle_run S V0 t)|].
  - apply Hr3.
  - by rewrite Ho3'.
  - apply I.
  - by rewrite Ho3'.
  - rewrite Ho3'. apply (settle_put S V (sm_inv _ _ _ Hs) i (m, d) (m, d)); try done. exact (eq_trans Hcur Ho).
  - intros r s5 [Hrec HR5]. split; [by eapply recovered_trans|by intros ? _; apply HR5].
Qed.

Lemma insert_same_dir V i : (i < slots)%nat → entry S (table_in V) V i = None → <[i := None]> (dir S V) = dir S V.
Proof. intros Hi He. apply list_insert_id. rewrite dir_lookup by done. by rewrite He. Qed.

(** Taking the mark of a removal off the table. *)
Lemma unmark_run V0 s i : env S s → same S V0 (obs s) → (i < slots)%nat →
  vt_reserved (table_in (obs s)) = WT_HSM_VAULT_DELETE_MARKER_BASE + Z.of_nat i + 1 →
  (∀ o, obs s !! slot_id i = Some o → is_key_object o.1 = true) →
  let t' := table_in (obs s) <| vt_slot := <[i := 0]> (vt_slot (table_in (obs s))) |> <| vt_reserved := 0 |> in
  fwp (wt_hsm_vault_table_store t') (λ st s', recovered S V0 s (st, t') s' ∧ (smooth S s' → st = PSA_SUCCESS)) s.
Proof.
  intros He Hs Hi Hr Hko t'. pose proof (same_inv _ _ Hs) as I.
  assert (table_wf t') as Ht'. { apply table_wf_reserved; [apply table_wf_slot; [apply I|done]|lia]. }
  assert (same S V0 (table_put t' (obs s))) as Hs2.
  { apply keeps_put_global; [|done|done|done]. by apply unmark; [apply Hs|..]. }
  eapply fwp_mono; [by apply (table_store_run S t' (same S V0))|]. intros st s2 (Hr2 & _ & Ho2 & Hok2 & HR2).
  split; [|done]. split_and!; [done|by destruct Ho2 as [->| ->]|].
  intros E%Hok2. split_and!; rewrite ?E; [by apply table_put_in|done|]. rewrite table_put_stage. by apply (vi_delete _ _ _ I i).
Qed.

(** An object marked for removal, that is no key, is destroyed when the store
    works. *)
Lemma removable_destroyed V0 s i o n rc : same S V0 (obs s) → (i < slots)%nat →
  vt_reserved (table_in (obs s)) = WT_HSM_VAULT_DELETE_MARKER_BASE + Z.of_nat i + 1 → obs s !! slot_id i = Some o →
  is_key_object o.1 = false → wh_Nvm_DestroyObjectsChecked [slot_id i] (vl_nvm s) = (n, rc) → works_at (vl_nvm s) → rc = WH_ERROR_OK.
Proof.
  intros Hs Hi Hr Ho Hk E HR. pose proof (same_inv _ _ Hs) as I.
  destruct (vi_removed _ _ _ I i _ Hr Hi Ho) as [Hk'|[Hk' Honce]]; [by rewrite Hk in Hk'|].
  destruct (proj2 (proj2 (vi_objects _ _ _ I i _ Hi Ho)) Hk') as [_ Hp]. destruct (Hp Honce) as [_ Hp'].
  destruct o as [m d]. pose proof (destroy_checked_works HR (slot_id i) m d Ho Hp') as Hdw. by rewrite E in Hdw.
Qed.

(** The object under the mark does not count any more. *)
Lemma marked_drop V0 V i o : same S V0 V → (i < slots)%nat →
  vt_reserved (table_in V) = WT_HSM_VAULT_DELETE_MARKER_BASE + Z.of_nat i + 1 → V !! slot_id i = Some o → is_key_object o.1 = false →
  same S V0 (delete (slot_id i) V).
Proof.
  intros Hs Hi Hr Ho Hk. eapply same_trans; [done|]. apply same_keeps.
  - destruct (object_drop S V (sm_inv _ _ _ Hs) i) as [I2 E4]; [by right|done|]. split; [done|]. rewrite E4.
    apply insert_same_dir; [done|]. unfold entry. rewrite current_delete by done. by rewrite Ho, Hk.
  - by rewrite table_in_delete by (by apply slot_not_table).
Qed.

Lemma recover_delete_run V0 s i : env S s → same S V0 (obs s) → (i < slots)%nat →
  vt_reserved (table_in (obs s)) = WT_HSM_VAULT_DELETE_MARKER_BASE + Z.of_nat i + 1 →
  fwp (recover_delete (table_in (obs s))) (λ r s', recovered S V0 s r s' ∧ (smooth S s' → r.1 = PSA_SUCCESS)) s.
Proof.
  intros He Hs Hi Hr. pose proof (same_inv _ _ Hs) as I. assert (table_wf (table_in (obs s))) as Ht by apply I.
  apply fwp_fn. unfold recover_delete.
  destruct (slot_of_mark (vt_reserved (table_in (obs s))) WT_HSM_VAULT_DELETE_MARKER_BASE) as (i' & _ & Hr' & Eu & Ei);
    [done|rewrite Hr; unfold slots, WT_HSM_VAULT_DELETE_MARKER_BASE, WT_HSM_VAULT_ID_COUNT in *; lia|done|].
  assert (i' = i) as -> by lia. rewrite Eu, Ei.
  wp_do (metadata_run S (slot_id i) (same S V0)); [done|done|].
  intros [rc m] s1 (Hr1 & Ho1 & _ & Hok & Hnf & Hac & HR). simpl in Hok, Hnf, HR, Hac. cbv zeta.
  rewrite <-Ho1 in *. set (Q := λ r s', recovered S V0 s1 r s' ∧ (smooth S s' → r.1 = PSA_SUCCESS)).
  eapply (wp_mono _ Q _ Q); [|by intros r s' [? ?]; split; [by eapply recovered_trans|]..].
  apply wp_bind. eapply (wp_mono _ Q _ (λ _ s2, table_in (obs s2) = table_in (obs s1) ∧ ran S (same S V0) s1 s2 ∧ same S V0 (obs s2) ∧
    ∀ o, obs s2 !! slot_id i = Some o → is_key_object o.1 = true)); [|done|].
  2:{ intros [] s2 (Et & Hr2 & Hs2 & Hko). apply wp_bind, wp_slot_set; [done|done|]. rewrite <-Et.
      wp_do (unmark_run V0 s2 i); [apply Hr2|done|done|by rewrite Et|done|]. intros st s3 [Hrec HR3]. apply wp_ret.
      split; [by eapply recovered_trans|done]. }
  apply wp_if; intros E1; bool_hyps.
  - apply map_err_ok in E1. destruct (Hok E1) as [d Hd]. apply wp_when; intros E2; bool_hyps.
    2:{ split_and!; [done|by apply ran_refl, Hr1|done|]. intros o Ho. by assert (o = (m, d)) as -> by congruence. }
    apply wp_bind, wp_call. apply (run_nvm S _ (same S V0)); [apply Hr1|]. intros n2 rc2 E3.
    pose proof (removable_destroyed V0 s1 i (m, d) n2 rc2 Hs Hi Hr Hd E2 E3) as HR2.
    pose proof (marked_drop V0 (obs s1) i (m, d) Hs Hi Hr Hd E2) as Hs2.
    destruct (destroy_checked_ok _ _ _ _ E3) as [(Eo & Hrc & Hn)|Eo]; simpl in Eo; fold (obs s1) in Eo;
      (split; [by rewrite Eo|]); intros s2 Hr2 Ho2 _; rewrite Eo in Ho2; cbv zeta; (apply wp_when; intros E4;
      [apply wp_early; bool_hyps; split; [apply recovered_failed; [done|by rewrite Ho2|done]|];
       intros HRel; simpl; rewrite HR2 by (by eapply works_before, HRel; [apply Hr1|]); apply map_ok|]).
    + apply andb_false_iff in E4 as [E4|E4]; bool_hyps; [by apply map_err_ok in E4|].
      apply map_notfound in E4. destruct (Hn E4) as (id & Hin & Hnone). apply list_elem_of_singleton in Hin as ->.
      fold (obs s1) in Hnone. congruence.
    + rewrite Ho2. split_and!; [by rewrite table_in_delete by (by apply slot_not_table)|done|done|]. intros o. by rewrite lookup_delete_eq.
  - apply wp_when; intros E2; bool_hyps.
    + apply wp_early. split; [apply recovered_failed; [by apply ran_refl, Hr1|done|done]|]. intros HR2. simpl.
      destruct (HR HR2) as [->| ->]; [apply map_ok|by destruct E2; apply map_of_notfound].
    + apply map_notfound in E2. specialize (Hnf E2). split_and!; [done|by apply ran_refl, Hr1|done|]. intros o Ho. congruence.
Qed.

(** The staged copy written back over the live object. *)
Definition restored (id : Z) (m : whNvmMetadata) : whNvmMetadata :=
  {| md_id := id; md_access := md_access m; md_flags := WH_NVM_FLAGS_SENSITIVE; md_len := md_len m; md_label := md_label m |}.
Lemma sensitive_fits (m : whNvmMetadata) : md_flags m = WH_NVM_FLAGS_SENSITIVE → policy_fits m.
Proof.
  intros E _. pose proof (flags_apart false) as [H1 H2]. rewrite Z.lor_0_r in H1, H2. rewrite E.
  split; [done|]. intros _. by apply H2.
Qed.

Lemma restore_run V0 s i m d : env S s → same S V0 (obs s) → (i < slots)%nat →
  vt_reserved (table_in (obs s)) = Z.of_nat i + 1 → obs s !! WT_HSM_VAULT_STAGE_ID = Some (m, d) →
  authentic S (counter_of (table_in (obs s)) i) (m, d) = true → buf_read (g_vault_ct s) 0 (md_len m) = Some d →
  wp (R := Z * wt_hsm_vault_table)
     (status ← call (wt_hsm_vault_reserve
                (u32 (wt_hsm_vault_storage_size (md_len m) + wt_hsm_vault_storage_size sizeof_table)) 2);
      if negb (status =? PSA_SUCCESS) then mret (status, table_in (obs s)) else
      ct ← gets g_vault_ct;
      ct ← defined (buf_read ct 0 (md_len m));
      rc ← call (nvm (wh_Nvm_AddObject (restored (slot_id i) m) ct));
      let status := wt_hsm_vault_map_err rc in
      if negb (status =? PSA_SUCCESS) then mret (status, table_in (obs s)) else
      call (settle (table_in (obs s)))) (λ _ _, False)
    (λ r s', recovered S V0 s r s' ∧ (smooth S s' → r.1 = PSA_SUCCESS)) s.
Proof.
  intros He Hs Hi Hr Hst Ha Hct. pose proof (same_inv _ _ Hs) as I.
  assert (object_wf (restored (slot_id i) m, d)) as Hw.
  { destruct (vi_stage _ _ _ I _ Hst) as (H1 & H2 & _). split_and!; [done|done|by apply sensitive_fits]. }
  destruct (live_put S (obs s) (sm_inv _ _ _ Hs) i (m, d) (restored (slot_id i) m, d)) as [I2 E2]; [done..|].
  set (V2 := <[slot_id i := _]> (obs s)) in *.
  assert (table_in V2 = table_in (obs s)) as Et2. { apply table_in_insert. by apply slot_not_table. }
  assert (same S V0 V2) as Hs2. { eapply same_trans; [done|]. constructor; [done|done|by rewrite Et2]. }
  wp_do (reserve_run S _ _ (same S V0)); [done|done|]. intros st s1 (Hr1 & Ho1 & Hc1 & HR1).
  assert (fits (obs s) (md_len m)) as Hfit by (right; by exists WT_HSM_VAULT_STAGE_ID, m, d).
  assert (smooth S s1 → st = PSA_SUCCESS) as HR.
  { intros ?. apply HR1; [done|]. split; [done|right]. by exists false, (md_len m), (md_len m). }
  apply wp_if; intros E1; bool_hyps. { apply wp_ret. split; [apply recovered_failed; [done|by rewrite Ho1|done]|]. simpl. auto. }
  apply wp_bind, wp_gets, wp_bind. eapply wp_defined; [by rewrite Hc1|].
  apply wp_bind, wp_call. apply (run_nvm S _ (same S V0)); [apply Hr1|]. intros n2 rc E3.
  assert (works_at (vl_nvm s1) → rc = WH_ERROR_OK) as HR3.
  { intros Hwk. pose proof (add_works Hwk (restored (slot_id i) m) d) as Hw'. rewrite E3 in Hw'. apply Hw'. fold (obs s1). by rewrite Ho1. }
  pose proof (ran_env _ _ _ _ Hr1) as He1.
  destruct (add_ok _ _ _ _ _ E3) as [[Eo Hrc]|Eo]; fold (obs s1) in Eo; rewrite Ho1 in Eo; (split; [by rewrite Eo|]); intros s2 Hr2 Ho2 _;
    rewrite Eo in Ho2; cbv zeta; (apply wp_if; intros E4; bool_hyps;
      [apply wp_ret; split; [apply recovered_failed; [by eapply ran_trans|by rewrite Ho2|done]|]; intros HRel; simpl; rewrite HR3 by (by eapply works_before); apply map_ok|]).
  - by apply map_err_ok in E4.
  - change (<[_ := _]> (obs s)) with V2 in Ho2. apply wp_call. eapply fwp_mono; [apply (settle_run S V0 (table_in (obs s)) s2)|].
    + apply Hr2.
    + by rewrite Ho2.
    + apply I.
    + by rewrite Ho2, Et2.
    + rewrite Ho2, <-Et2. apply (settle_put S V2 I2 i (m, d) (restored (slot_id i) m, d)); rewrite ?Et2; try done.
      * rewrite current_replace by done. unfold V2. rewrite lookup_insert_ne by (by apply slot_not_stage). by rewrite Hst, Ha.
      * unfold V2. by rewrite lookup_insert_eq.
    + intros r s3 [Hrec HR4]. split; [|done]. eapply recovered_trans; [|done]. by eapply ran_trans.
Qed.

Lemma recover_run V0 s : env S s → same S V0 (obs s) →
  fwp (wt_hsm_vault_recover (table_in (obs s)))
    (λ r s', recovered S V0 s r s' ∧ (smooth S s' → g_vault_sealer s = Some S → r.1 = PSA_SUCCESS)) s.
Proof.
  intros He Hs. pose proof (same_inv _ _ Hs) as I. pose proof (vi_table _ _ _ I) as Ht. pose proof (tw_reserved _ Ht) as Hres.
  apply fwp_fn. unfold wt_hsm_vault_recover. apply wp_if; intros E1; bool_hyps.
  { destruct (slot_of_mark (vt_reserved (table_in (obs s))) WT_HSM_VAULT_DELETE_MARKER_BASE) as (i & Hi & Hr & _ & _);
      [done|unfold WT_HSM_VAULT_DELETE_MARKER_BASE, WT_HSM_VAULT_ID_COUNT in *; lia|done|].
    apply wp_call. eapply fwp_mono; [by apply (recover_delete_run V0 s i)|]. intros r s' [? HR]. split; [done|]. auto. }
  apply wp_if; intros E2; bool_hyps.
  { assert (same S V0 (delete WT_HSM_VAULT_STAGE_ID (obs s))) as Hs2.
    { eapply same_trans; [done|]. apply same_keeps; [by apply stage_drop; [apply Hs|]|]. by rewrite table_in_delete. }
    wp_do (destroy_stage_run S (same S V0)); [done|done|done|]. intros st s1 (Hr1 & Ho1 & Hok1 & HR1). apply wp_ret.
    split; [|by intros ? _; apply HR1]. split_and!; [done|by destruct Ho1 as [->| ->]|]. intros E%Hok1.
    split_and!; rewrite ?E; [by apply table_in_delete|done|apply lookup_delete_eq]. }
  destruct (slot_of_mark (vt_reserved (table_in (obs s))) 0) as (i & Hi & Hr & Eu & Ei); [lia|unfold WT_HSM_VAULT_DELETE_MARKER_BASE, WT_HSM_VAULT_ID_COUNT in *; lia|lia|].
  rewrite Z.sub_0_r in Eu. rewrite Eu, Ei. rewrite Z.add_0_l in Hr.
  pose proof (current_replace S (table_in (obs s)) (obs s) i Hr) as Hcur.
  wp_do (metadata_run S WT_HSM_VAULT_STAGE_ID (same S V0)); [done|done|].
  intros [rc m] s1 (Hr1 & Ho1 & _ & Hok & Hnf & Hac & HR). simpl in Hok, Hnf, HR, Hac. cbv zeta.
  rewrite <-Ho1 in *. set (Q := λ (r : Z * wt_hsm_vault_table) s', recovered S V0 s1 r s' ∧ (smooth S s' → g_vault_sealer s1 = Some S → r.1 = PSA_SUCCESS)).
  eapply (wp_mono _ Q _ Q); [|by intros r s' [? HRf]; split; [by eapply recovered_trans|]; rewrite <-(ran_sealer _ _ _ _ Hr1)..].
  assert (∀ s2, ran S (same S V0) s1 s2 → obs s2 = obs s1 → current S (table_in (obs s1)) (obs s1) i = obs s1 !! slot_id i →
    fwp (wt_hsm_vault_recover_live (table_in (obs s1))) Q s2) as Hlive.
  { intros s2 Hr2 Ho2 Hc. rewrite <-Ho2 in *. eapply fwp_mono; [by apply (recover_live_run V0 s2 i); [apply Hr2|..]|].
    intros r s3 [Hrec HR3]. split; [by eapply recovered_trans|]. by rewrite <-(ran_sealer _ _ _ _ Hr2). }
  apply wp_bind. destruct (Z.eqb_spec (wt_hsm_vault_map_err rc) PSA_SUCCESS) as [E3|E3].
  - apply map_err_ok in E3. destruct (Hok E3) as [d Hd]. rewrite Hd in Hcur.
    apply wp_bind, wp_slot_get; [done|done|]. apply wp_call.
    eapply fwp_mono; [by apply (read_sealed_run S _ _ d _ (same S V0)); [apply Hr1| | |apply (vi_stage _ _ _ I)]|].
    intros st s2 (Hsu & Hne & Hsig & Hper & Hnex & HR2).
    assert (authentic S (counter_of (table_in (obs s1)) i) (m, d) = true → has_any (md_flags m) WH_NVM_FLAGS_NONEXPORTABLE = false) as Hx.
    { intros Ha. destruct (vi_replace _ _ _ I i Hr Hi) as (o & Ho & _ & Hk). rewrite Hcur, Ha in Ho. injection Ho as <-.
      by apply (vi_stage _ _ _ I _ Hd). }
    apply wp_if; intros E4.
    { assert (authentic S (counter_of (table_in (obs s1)) i) (m, d) = false ∧ st ≠ PSA_SUCCESS) as [Ha Hst].
      { repeat (apply orb_true_iff in E4 as [E4|E4]); bool_hyps; [done| |by split; [apply Hsig|rewrite E4]].
        split; [|by rewrite E4]. destruct (authentic S _ _) eqn:Ha; [|done]. rewrite Hper in Hx by done. by specialize (Hx eq_refl). }
      destruct (Hne Hst) as [Hr2 Ho2]. rewrite Ha in Hcur. apply wp_call. by apply Hlive. }
    apply wp_if; intros E5; bool_hyps.
    { destruct (Hne E5) as [Hr2 Ho2]. apply wp_ret. split; [apply recovered_failed; [done|by rewrite Ho2|done]|]. intros HRel Hse. simpl.
      by destruct (HR2 HRel Hse) as [?|[?|?]]. }
    destruct (Hsu E5) as (pt & s3 & -> & Hr3 & Ho3 & Hct & Ha & _ & _ & Hpl).
    assert (md_len m - WT_VAULT_SEAL_TAG_LEN ≤ WT_VAULT_OBJECT_MAX) as Hn. { unfold authentic in Ha. simpl in Ha. bool_hyps. lia. }
    wp_do (zeroize_run S pt s3); [apply Hr3|done|done|]. intros [] s4 ->. rewrite <-Ho3 in *.
    eapply wp_mono; [by apply (restore_run V0 s3 i m d); [apply Hr3|..]|done|].
    intros r s4 [Hrec HR4]. split; [by eapply recovered_trans|]. auto.
  - apply wp_ret. apply wp_if; intros E4.
    { assert (wt_hsm_vault_map_err rc = PSA_ERROR_DOES_NOT_EXIST) as E5.
      { repeat (apply orb_true_iff in E4 as [E4|E4]); bool_hyps; [done|by apply map_access in E4|by apply map_not_signature in E4]. }
      apply map_notfound in E5. rewrite (Hnf E5) in Hcur. apply wp_call. apply Hlive; [by apply ran_refl, Hr1|done|done]. }
    apply wp_if; intros E5; bool_hyps; [|done]. apply wp_ret. split; [apply recovered_failed; [by apply ran_refl, Hr1|done|done]|].
    intros HRel _. exfalso. destruct (HR HRel) as [->| ->]; [by destruct E3; apply map_ok|]. by pose proof map_of_notfound.
Qed.

Lemma table_load_run V0 s : env S s → same S V0 (obs s) →
  fwp wt_hsm_vault_table_load
    (λ r s', recovered S V0 s r s' ∧ (smooth S s' → g_vault_sealer s = Some S → r.1 = PSA_SUCCESS)) s.
Proof.
  intros He Hs. pose proof (same_inv _ _ Hs) as I. pose proof (vi_table _ _ _ I) as Ht.
  assert (∀ s1, ran S (same S V0) s s1 → obs s1 = obs s → fwp (wt_hsm_vault_recover (table_in (obs s)))
    (λ r s', recovered S V0 s r s' ∧ (smooth S s' → g_vault_sealer s = Some S → r.1 = PSA_SUCCESS)) s1) as Hrec.
  { intros s1 Hr1 Ho1. rewrite <-Ho1 in *. eapply fwp_mono; [by apply (recover_run V0 s1); [apply Hr1|]|].
    intros r s2 [? HR]. split; [by eapply recovered_trans|]. by rewrite <-(ran_sealer _ _ _ _ Hr1). }
  apply fwp_fn. wp_do (metadata_run S WT_HSM_VAULT_TABLE_ID (same S V0)); [done|done|].
  intros [rc m] s1 (Hr1 & Ho1 & _ & Hok & Hnf & Hac & HR). simpl in Hok, Hnf, HR, Hac.
  apply wp_if; intros E1; bool_hyps.
  { apply wp_call. specialize (Hnf E1). specialize (Hrec s1 Hr1 Ho1). unfold table_in in Hrec. by rewrite Hnf in Hrec. }
  destruct (Z.eqb_spec rc WH_ERROR_OK) as [E2|E2].
  2:{ apply wp_ret. split; [apply recovered_failed; [done|by rewrite Ho1|done]|]. intros Hsm _. by destruct (HR Hsm). }
  destruct (Hok E2) as [d Hd]. destruct (proj1 (sm_inv _ _ _ Hs) m d Hd) as [Hml Hdl]. rewrite Hml, Z.eqb_refl. simpl.
  apply wp_bind, wp_call. apply (run_nvm S _ (same S V0)); [apply Hr1|]. intros n2 [rc2 bytes] E3.
  destruct (read_ok WT_HSM_VAULT_TABLE_ID 0 sizeof_table (vl_nvm s1) n2 rc2 bytes) as (Eo & _ & Hok2); [done|done|done|].
  fold (obs s1) in Eo, Hok2. rewrite Ho1 in Eo, Hok2. split; [by rewrite Eo|]. intros s2 Hr2 Ho2 _. rewrite Eo in Ho2.
  assert (buf_read d 0 sizeof_table = Some d) as Hbr. { rewrite <-(app_nil_r d) at 1. by apply buf_read_start. }
  assert (ran S (same S V0) s s2) as Hr12 by by eapply ran_trans. cbv zeta.
  destruct (Z.eqb_spec rc2 WH_ERROR_OK) as [E4|E4].
  2:{ apply wp_ret. split; [apply recovered_failed; [done|by rewrite Ho2|done]|]. intros Hsm _. destruct E4.
      pose proof (read_works (works_before _ _ _ _ (ran_env _ _ _ _ Hr1) Hr2 Hsm) WT_HSM_VAULT_TABLE_ID 0 sizeof_table m d d) as Hw.
      fold (obs s1) in Hw. rewrite Ho1, E3 in Hw. by apply Hw. }
  destruct (Hok2 E4) as (m' & d' & Hd' & Hb'). assert (d' = d) as -> by congruence. assert (bytes = d) as -> by congruence.
  assert (table_of_bytes d = table_in (obs s)) as Et. { unfold table_in. by rewrite Hd. }
  change (field d 0 4) with (vt_magic (table_of_bytes d)). change (field d 4 4) with (vt_reserved (table_of_bytes d)).
  rewrite Et, (tw_magic _ Ht), Z.eqb_refl. simpl. rewrite (proj2 (Z.ltb_ge _ _)) by apply (tw_reserved _ Ht).
  apply wp_call. by apply Hrec.
Qed.

(** ** The directory lookup *)

Record looked_up V (k : vkey) (r : Z * (Z * whNvmMetadata) * Z) : Prop := {
  lu_found : r.1.1 = PSA_SUCCESS → ∃ i d, (i < slots)%nat ∧ r.1.2.1 = slot_id i ∧ V !! slot_id i = Some (r.1.2.2, d) ∧
    label_key (md_label r.1.2.2) = Some k;
  lu_absent : r.1.1 = PSA_ERROR_DOES_NOT_EXIST → ∀ i o, (i < slots)%nat → V !! slot_id i = Some o → label_key (md_label o.1) ≠ Some k;
  lu_free : r.2 = WH_NVM_ID_INVALID ∨ ∃ i, (i < slots)%nat ∧ r.2 = slot_id i ∧ V !! slot_id i = None;
  lu_full : r.1.1 = PSA_ERROR_DOES_NOT_EXIST → r.2 = WH_NVM_ID_INVALID → ∀ i, (i < slots)%nat → V !! slot_id i ≠ None;
}.

Lemma window_seq : window_ids = slot_id <$> seq 0 slots.
Proof. by vm_compute. Qed.
Lemma slot_valid i : slot_id i ≠ WH_NVM_ID_INVALID.
Proof. pose proof id_invalid. unfold slot_id. lia. Qed.

Lemma lookup_loop_run {R} n : ∀ a owner sub uid free P s E, env S s → P (obs s) → (a + n = slots)%nat →
  (∀ i o, (i < a)%nat → obs s !! slot_id i = Some o → label_key (md_label o.1) ≠ Some (owner, sub, uid)) →
  (free = WH_NVM_ID_INVALID ∨ ∃ i, (i < slots)%nat ∧ free = slot_id i ∧ obs s !! slot_id i = None) →
  (free = WH_NVM_ID_INVALID → ∀ i, (i < a)%nat → obs s !! slot_id i ≠ None) →
  wp (R := R) (lookup_loop (slot_id <$> seq a n) owner sub uid free) E
    (λ r s', ran S P s s' ∧ obs s' = obs s ∧ looked_up (obs s) (owner, sub, uid) r ∧
      (smooth S s' → r.1.1 = PSA_SUCCESS ∨ r.1.1 = PSA_ERROR_DOES_NOT_EXIST)) s.
Proof.
  induction n as [|n IH]; intros a owner sub uid free P s E He HP Ha Hno Hf Hfull.
  { apply wp_ret. split_and!; [by apply ran_refl|done| |by right]. replace a with slots in * by lia. by constructor. }
  cbn [seq fmap list_fmap lookup_loop]. wp_do (metadata_run S (slot_id a) P); [done|done|].
  intros [rc m] s1 (Hr1 & Ho1 & _ & Hok & Hnf & _ & HR). simpl in Hok, Hnf, HR. rewrite <-Ho1 in *.
  assert (∀ free', (free' = WH_NVM_ID_INVALID ∨ ∃ i, (i < slots)%nat ∧ free' = slot_id i ∧ obs s1 !! slot_id i = None) →
    (∀ i o, (i < Datatypes.S a)%nat → obs s1 !! slot_id i = Some o → label_key (md_label o.1) ≠ Some (owner, sub, uid)) →
    (free' = WH_NVM_ID_INVALID → ∀ i, (i < Datatypes.S a)%nat → obs s1 !! slot_id i ≠ None) →
    wp (R := R) (lookup_loop (slot_id <$> seq (Datatypes.S a) n) owner sub uid free') E
      (λ r s', ran S P s s' ∧ obs s' = obs s1 ∧ looked_up (obs s1) (owner, sub, uid) r ∧
        (smooth S s' → r.1.1 = PSA_SUCCESS ∨ r.1.1 = PSA_ERROR_DOES_NOT_EXIST)) s1) as Hnext.
  { intros free' H1 H2 H3. eapply wp_mono; [by apply IH; [apply Hr1|done|lia|..]|done|].
    intros r s2 (Hr2 & Ho2 & Hl & HR2). split_and!; [by eapply ran_trans|done|done|done]. }
  apply wp_if; intros E1; bool_hyps.
  { specialize (Hnf E1). apply Hnext.
    - destruct (Z.eqb_spec free WH_NVM_ID_INVALID); [|done]. right. exists a. split_and!; [unfold slots in *; lia|done|done].
    - intros i o Hi Ho. destruct (decide (i = a)) as [->|Hne]; [congruence|]. apply (Hno i); [lia|done].
    - destruct (Z.eqb_spec free WH_NVM_ID_INVALID); [|done]. intros Hx. by destruct (slot_valid a). }
  apply wp_if; intros E2; bool_hyps.
  2:{ apply wp_ret. split_and!; [done|done|by constructor|]. intros HRel. by destruct (HR HRel). }
  destruct (Hok E2) as [d Hd]. rewrite label_match_key. case_bool_decide as E3.
  { apply wp_ret. split_and!; [done|done| |by left]. constructor; simpl; try done.
    intros _. exists a, d. split_and!; [unfold slots in *; lia|done..]. }
  apply Hnext; [done| |].
  - intros i o Hi Ho. destruct (decide (i = a)) as [->|Hne]; [|apply (Hno i); [lia|done]].
    by assert (o = (m, d)) as -> by congruence.
  - intros Hx i Hi. destruct (decide (i = a)) as [->|Hne]; [congruence|]. apply Hfull; [done|lia].
Qed.
Lemma lookup_run owner sub uid P s : env S s → P (obs s) → g_vault_nvm s = true →
  fwp (wt_hsm_vault_lookup owner sub uid) (λ r s', ran S P s s' ∧ obs s' = obs s ∧ looked_up (obs s) (owner, sub, uid) r ∧
      (smooth S s' → r.1.1 = PSA_SUCCESS ∨ r.1.1 = PSA_ERROR_DOES_NOT_EXIST)) s.
Proof.
  intros He HP Hb. apply fwp_fn, wp_bind, wp_gets. rewrite Hb. cbn [negb]. rewrite window_seq.
  apply lookup_loop_run; try done; [intros i o Hi; lia|by left|intros _ i Hi; lia].
Qed.
End recover.
