(* ===== verification/VaultSet.v ===== *)
(** * The writes of a storage operation

    The steps of [wt_hsm_vault_set] after the directory lookup, and the counters
    its ciphertexts are made with. *)

From Stdlib Require Import ZArith Lia.
From stdpp Require Import base list numbers option sets gmap.
From S2P Require Import Prelude Buffers CState FfmTypes Service VaultStore VaultSpec VaultFacts VaultRun.

Section write.
Context {N : Type} `{!WhNvm N, !NvmOk N} (S : wt_vault_sealer) `{!SealerOk S}.
Implicit Types (V : store) (s : vault N) (P : store → Prop).

Definition global V : Z := vt_global (table_in V).

(** ** Counters *)

Definition seals (log : list (vault_event N)) : list Z :=
  omap (λ e, match e with EvStore _ => None | EvSeal c => Some c end) log.
(** The highest counter used. *)
Definition used (log : list (vault_event N)) : Z := foldr Z.max 0 (seals log).
(** Every counter is new when it is used, the store has it recorded by then, and
    every later store has. *)
Fixpoint nonce_ok (log : list (vault_event N)) : Prop :=
  match log with
  | [] => True
  | EvStore n :: log' => used log' ≤ global (objects n) ∧ nonce_ok log'
  | EvSeal c :: log' => used log' < c ∧ (∀ n, last_store log' = Some n → c ≤ global (objects n)) ∧ nonce_ok log'
  end.
Definition nonces s : Prop := nonce_ok (vl_log s) ∧ used (vl_log s) ≤ global (obs s).

Definition event_ok P (e : vault_event N) : Prop := match e with EvStore n => P (objects n) | EvSeal _ => True end.
(** An execution that may make ciphertexts. *)
Record went P s s' : Prop := {
  went_env : env S s';
  went_bound : g_vault_nvm s' = g_vault_nvm s;
  went_sealer : g_vault_sealer s' = g_vault_sealer s;
  went_log : ∃ evs, vl_log s' = evs ++ vl_log s ∧ Forall (event_ok P) evs;
  went_nonces : nonces s → nonces s';
}.
Lemma ran_used P s s' : ran S P s s' → used (vl_log s') = used (vl_log s).
Proof.
  intros [_ _ _ (evs & -> & Hf)]. unfold used. f_equal. unfold seals. rewrite omap_app.
  induction Hf as [|e evs He Hf IH]; [done|]. destruct e as [n|c]; [|done]. simpl. done.
Qed.
Lemma ran_nonce_ok P s s' : ran S P s s' → (∀ V, P V → used (vl_log s) ≤ global V) → nonce_ok (vl_log s) → nonce_ok (vl_log s').
Proof.
  intros [_ _ _ (evs & -> & Hf)] HP Hn.
  assert (used (evs ++ vl_log s) = used (vl_log s) ∧ nonce_ok (evs ++ vl_log s)) as [_ H]; [|done].
  induction Hf as [|e evs He Hf [IH1 IH2]]; [done|]. destruct e as [n|c]; [|done]. simpl. split; [by rewrite <-IH1|].
  split; [|done]. rewrite IH1. by apply HP.
Qed.
Lemma ran_went P s s' : ran S P s s' → (∀ V, P V → global (obs s) ≤ global V) → global (obs s) ≤ global (obs s') → went P s s'.
Proof.
  intros Hr HP Hle. pose proof Hr as [? ? ? (evs & E & Hf)]. constructor; [done..| |].
  - exists evs. split; [done|]. eapply Forall_impl; [done|]. intros [n|c]; done.
  - intros [H1 H2]. split.
    + eapply ran_nonce_ok; [done| |done]. intros V HV. specialize (HP V HV). lia.
    + rewrite (ran_used _ _ _ Hr). lia.
Qed.
Lemma went_trans P s1 s2 s3 : went P s1 s2 → went P s2 s3 → went P s1 s3.
Proof.
  intros [? ? ? (e1 & E1 & F1) Hn1] [? ? ? (e2 & E2 & F2) Hn2]. constructor; [done|congruence|congruence| |auto].
  exists (e2 ++ e1). rewrite E2, E1, app_assoc. split; [done|by apply Forall_app].
Qed.
Lemma smooth_went P s s' : went P s s' → smooth S s' → smooth S s.
Proof. intros [_ _ _ (evs & E & _) _]. by apply (smooth_log S s s' evs). Qed.
Lemma went_mono P P' s s' : (∀ V, P V → P' V) → went P s s' → went P' s s'.
Proof.
  intros HP [? ? ? (evs & E & Hf) ?]. constructor; [done..| |done]. exists evs. split; [done|].
  eapply Forall_impl; [done|]. intros [n|c]; [apply HP|done].
Qed.

(** ** Marking the slot *)

(** The store stands for the directory [D], and has recorded the counter [g]. *)
Record holding (D : list (option (vkey * vobj))) (g : Z) V : Prop := {
  ho_inv : vinv S V;
  ho_dir : dir S V = D;
  ho_global : g ≤ global V;
}.
Lemma holding_mono D g g' V : g' ≤ g → holding D g V → holding D g' V.
Proof. intros Hg []. constructor; [done|done|lia]. Qed.

(** The state between mark and object. *)
Record marked (repl : bool) (i : nat) (g c : Z) V (t' : wt_hsm_vault_table) (V' : store) : Prop := {
  mk_table : table_in V' = t';
  mk_wf : table_wf t';
  mk_global : vt_global t' = g;
  mk_holding : holding (dir S V) g V';
  mk_slot j : (j < slots)%nat → V' !! slot_id j = V !! slot_id j;
  mk_stage : V' !! WT_HSM_VAULT_STAGE_ID = None;
  mk_reserved : vt_reserved t' = if repl then Z.of_nat i + 1 else 0;
  mk_counter : counter_of t' i = if repl then counter_of (table_in V) i else c;
}.

Lemma put_marked (repl : bool) i g c V t' : table_wf t' → keeps_dir S V (table_put t' V) → vt_global t' = g →
  V !! WT_HSM_VAULT_STAGE_ID = None → vt_reserved t' = (if repl then Z.of_nat i + 1 else 0) →
  counter_of t' i = (if repl then counter_of (table_in V) i else c) → marked repl i g c V t' (table_put t' V).
Proof.
  intros Ht [HI HD] Hg Hst Hr Hc. assert (table_in (table_put t' V) = t') as Et by by apply table_put_in.
  constructor; try done.
  - constructor; [done|done|]. unfold global. rewrite Et. lia.
  - intros j Hj. by apply table_put_slot.
  - by rewrite table_put_stage.
Qed.

Lemma mark_slot_run (repl sealed : bool) i g c s E Q :
  let V := obs s in let t := table_in V in
  env S s → vinv S V → vt_reserved t = 0 → V !! WT_HSM_VAULT_STAGE_ID = None → (i < slots)%nat →
  0 ≤ g < 2 ^ 64 → vt_global t ≤ g → 0 ≤ c < 2 ^ 64 → (sealed = false → g = vt_global t ∧ c = 0) →
  (if repl then ∃ o, V !! slot_id i = Some o ∧ authentic S (counter_of t i) o = true ∧ is_key o.1 = false
   else ∀ o, V !! slot_id i = Some o → is_sealed o.1 = false) →
  let P := holding (dir S V) (vt_global t) in
  (∀ st s', st ≠ PSA_SUCCESS → ran S P s s' → P (obs s') → ¬ smooth S s' → E st s') →
  (∀ t' s', ran S P s s' → g_vault_ct s' = g_vault_ct s → marked repl i g c V t' (obs s') → Q t' s') →
  wp (mark_slot repl sealed (if sealed then t <| vt_global := g |> else t) (Z.of_nat i) c) E Q s.
Proof.
  intros V t He HI Hr Hst Hi Hg Hgt Hc Hns Hobj P HE HQ. pose proof (vinv_table _ _ HI) as Ht. fold t in Ht.
  set (tg := if sealed then _ else _).
  assert (table_wf tg) as Htg by (unfold tg; destruct sealed; [by apply table_wf_global|done]).
  assert (tg = t <| vt_global := g |>) as Etg.
  { unfold tg. destruct sealed; [done|]. destruct Hns as [-> _]; [done|]. by destruct t. }
  assert (counter_of tg i = counter_of t i) as Ec by by rewrite Etg.
  assert (P V) as HPV by by constructor.
  apply wp_bind, wp_slot_get; [done|done|]. rewrite Ec. apply wp_if; intros E1.
  2:{ apply wp_ret. apply orb_false_iff in E1 as [E1 E2]. apply orb_false_iff in E1 as [-> ->]. bool_hyps.
      destruct Hns as [-> ->]; [done|]. apply HQ; [by apply ran_refl|done|]. constructor; try done. }
  set (t' := if repl then tg <| vt_reserved := u32 (Z.of_nat i + 1) |> else tg <| vt_slot := <[i := c]> (vt_slot tg) |>).
  assert (u32 (Z.of_nat i + 1) = Z.of_nat i + 1) as Eu by (apply u32_small; unfold slots in Hi; lia).
  assert (marked repl i g c V t' (table_put t' V)) as Hm.
  { unfold t'. rewrite Eu, Etg. destruct repl.
    - destruct Hobj as (o & Ho & Ha & Hk). apply put_marked; try done.
      + apply table_wf_reserved; [by apply table_wf_global|unfold slots in Hi; lia].
      + by apply (mark_replace S V HI i g o).
    - apply put_marked; try done.
      + by apply (table_wf_slot (t <| vt_global := g |>) i c); [apply table_wf_global|].
      + by apply (counter_put S V HI i g c).
      + apply (counter_slot_eq t _ i c); [done|]. by rewrite (tw_length _ Ht). }
  apply wp_bind. eapply (wp_mono _ E _ (λ tt s1, tt = t' ∧ s1 = s)); [|done|].
  { unfold t'. destruct repl; [by apply wp_ret|]. by apply wp_slot_set. }
  intros ? ? [-> ->].
  assert (P (table_put t' V)) as HP'. { eapply holding_mono; [|apply Hm]. done. }
  wp_do (table_store_run S t' P); [done|done|done|]. intros st s1 (Hr1 & Hc1 & Ho1 & Hok1 & HR1).
  apply wp_if; intros E2; bool_hyps.
  - apply wp_early, HE; [done|done| |by intros HR; apply E2, HR1]. by destruct Ho1 as [->| ->].
  - apply wp_ret, HQ; [done|done|]. by rewrite (Hok1 E2).
Qed.

(** ** Staging the old object *)

Definition stage_of (m : whNvmMetadata) : whNvmMetadata :=
  {| md_id := WT_HSM_VAULT_STAGE_ID; md_access := md_access m; md_flags := WH_NVM_FLAGS_SENSITIVE; md_len := md_len m;
     md_label := md_label m |}.
Lemma stage_run i m d s E Q :
  let V := obs s in
  env S s → vinv S V → vt_reserved (table_in V) = Z.of_nat i + 1 → V !! WT_HSM_VAULT_STAGE_ID = None → (i < slots)%nat →
  V !! slot_id i = Some (m, d) → buf_read (g_vault_ct s) 0 (md_len m) = Some d →
  let P := holding (dir S V) (global V) in let V' := <[WT_HSM_VAULT_STAGE_ID := (stage_of m, d)]> V in
  (∀ st s', st ≠ PSA_SUCCESS → ran S P s s' → P (obs s') → ¬ smooth S s' → E st s') →
  (∀ s', ran S P s s' → obs s' = V' → P V' → Q tt s') →
  wp (stage_object m) E Q s.
Proof.
  intros V He HI Hr Hst Hi Ho Hct P V' HE HQ. destruct (vi_objects _ _ _ (proj2 HI) i _ Hi Ho) as (Hl & Hb & _).
  destruct (stage_put S V HI i (m, d) (stage_of m)) as [HI' HD']; [done..|by split_and!; [..|apply sensitive_fits]|].
  assert (P V') as HP'. { constructor; [done|done|]. unfold global, V'. by rewrite table_in_insert by done. }
  assert (P V) as HP by by constructor.
  apply wp_bind, wp_gets, wp_bind. eapply wp_defined; [done|].
  apply wp_bind, wp_call. apply (run_nvm S _ P); [done|]. intros n rc E1.
  assert (works_at (vl_nvm s) → rc = WH_ERROR_OK) as HR.
  { intros Hwk. pose proof (add_works Hwk (stage_of m) d) as Hw. unfold stage_of in Hw. rewrite E1 in Hw. apply Hw.
    right. by exists (slot_id i), m, d. }
  destruct (add_ok _ _ _ _ _ E1) as [[Eo Hrc]|Eo]; fold (obs s) in Eo; fold V in Eo;
    [|change (objects n = V') in Eo]; (split; [by rewrite Eo|]); intros s1 Hr1 Ho1 _; rewrite Eo in Ho1; cbv zeta;
    (apply wp_when; intros E2; bool_hyps;
      [apply wp_early, HE; [done|done|by rewrite Ho1|intros HRel; apply E2; rewrite HR by (by eapply works_before); apply map_ok]|]).
  - by apply map_err_ok in E2.
  - by apply HQ.
Qed.

(** ** Sealing *)

Lemma seal_run label c data len s E Q :
  env S s → Z.of_nat (length data) ≤ WT_VAULT_OBJECT_MAX → len = Z.of_nat (length data) + WT_VAULT_SEAL_TAG_LEN →
  (∀ bytes st s', vl_nvm s' = vl_nvm s → vl_log s' = EvSeal c :: vl_log s → env S s' → g_vault_nvm s' = g_vault_nvm s →
     g_vault_sealer s' = g_vault_sealer s → sl_seal S label c data = (st, bytes) →
     if st =? PSA_SUCCESS then Q bytes s' else E st s') →
  wp (seal_object S label c data len) E Q s.
Proof.
  intros He Hl -> HQ. unfold seal_object. apply wp_bind, wp_modify.
  destruct (sl_seal S label c data) as [st bytes] eqn:Es. destruct (seal_ok label c data st bytes Es) as [Hle Hok].
  destruct He as [Hlog Hct Hpt Hse]. unfold WT_VAULT_SEAL_TAG_LEN, WT_VAULT_OBJECT_MAX in *.
  apply wp_bind, wp_gets, wp_bind. eapply wp_defined; [apply buf_write_start; simpl; lia|].
  apply wp_bind, wp_modify. set (s1 := set_field g_vault_ct _ _).
  specialize (HQ bytes st s1 eq_refl eq_refl).
  assert (env S s1) as He1.
  { constructor; [done| |done|done]. simpl. rewrite length_app, length_drop. unfold WT_VAULT_SEAL_TAG_LEN, WT_VAULT_OBJECT_MAX. lia. }
  specialize (HQ He1 eq_refl eq_refl eq_refl). destruct (Z.eqb_spec st PSA_SUCCESS) as [E1|E1].
  - apply wp_bind, wp_when; [done|]. intros _. eapply wp_defined; [|done]. apply buf_read_start. by destruct (Hok E1).
  - apply wp_bind, wp_when; [|done]. intros _. by apply wp_early.
Qed.
End write.

(** * Storing an object

    [wt_hsm_vault_set]: after each of its writes the store stands for the old
    objects or for the new ones, and no counter is used for two ciphertexts. *)

(** The objects with [k] replaced, or removed. *)
Definition updated (k : vkey) (v : option vobj) (C : vkey → option vobj) : vkey → option vobj :=
  λ k', if bool_decide (k' = k) then v else C k'.

Section set.
Context {N : Type} `{!WhNvm N, !NvmOk N} (S : wt_vault_sealer) `{!SealerOk S}.
Implicit Types (V : store) (s : vault N) (P : store → Prop).

(** What a power failure may find during an operation that sets [k] to [v]. *)
Record allowed (C : vkey → option vobj) (k : vkey) (v : option vobj) (g : Z) V : Prop := {
  al_inv : vinv S V;
  al_global : g ≤ global V;
  al_content : (∀ k', content S V k' = C k') ∨ (∀ k', content S V k' = updated k v C k');
}.
Definition outcome (k : vkey) (v : option vobj) s (st : Z) s' : Prop :=
  let P := allowed (content S (obs s)) k v (global (obs s)) in
  went S P s s' ∧ P (obs s') ∧ (st = PSA_SUCCESS → ∀ k', content S (obs s') k' = updated k v (content S (obs s)) k').

Lemma allowed_mono C k v g g' V : g' ≤ g → allowed C k v g V → allowed C k v g' V.
Proof. intros Hg []. constructor; [done|lia|done]. Qed.
Lemma holding_allowed V k v g V' : holding S (dir S V) g V' → allowed (content S V) k v g V'.
Proof. intros [HI HD Hg]. constructor; [done|done|]. left. intros k'. unfold content. by rewrite HD. Qed.
Lemma same_allowed V k v V' : same S V V' → allowed (content S V) k v (global V) V'.
Proof. intros [HI HD Hg]. apply holding_allowed. constructor; [done|done|]. unfold global. lia. Qed.

(** A ciphertext is made after its counter is in the store. *)
Lemma seal_went P s0 s c s' : ran S P s0 s → (∀ V, P V → global (obs s0) ≤ global V) → global (obs s0) < c ≤ global (obs s) →
  vl_nvm s' = vl_nvm s → vl_log s' = EvSeal c :: vl_log s → env S s' → g_vault_nvm s' = g_vault_nvm s →
  g_vault_sealer s' = g_vault_sealer s → went S P s0 s'.
Proof.
  intros Hr HP Hc Hn Hl He Hb Hs. pose proof Hr as [Hre ? ? (evs & El & Hf)]. constructor; [done|congruence|congruence| |].
  - exists (EvSeal c :: evs). rewrite Hl, El. split; [done|]. constructor; [done|]. eapply Forall_impl; [done|]. by intros [].
  - intros [H1 H2]. assert (used (vl_log s) = used (vl_log s0)) as Eu by by eapply ran_used.
    assert (obs s' = obs s) as Eo by (unfold obs; by rewrite Hn). unfold nonces. rewrite Hl, Eo. cbn [nonce_ok]. split.
    + split; [lia|]. split.
      * intros n. rewrite (env_log _ _ Hre). intros [= <-]. apply Hc.
      * eapply ran_nonce_ok; [done| |done]. intros V HV%HP. lia.
    + change (Z.max c (used (vl_log s)) ≤ global (obs s)). lia.
Qed.

(** ** The slot that is written *)

Record target (k : vkey) (i : nat) V : Prop := {
  tg_inv : vinv S V;
  tg_slot : (i < slots)%nat;
  tg_unmarked : vt_reserved (table_in V) = 0;
  tg_unstaged : V !! WT_HSM_VAULT_STAGE_ID = None;
  tg_key : (∃ o, entry S (table_in V) V i = Some (k, o)) ∨
    (V !! slot_id i = None ∧ ∀ j o, (j < slots)%nat → entry S (table_in V) V j ≠ Some (k, o));
  tg_open o : V !! slot_id i = Some o → is_key o.1 = false ∧ is_once o.1 = false;
}.
Lemma target_modifiable k i V m d : target k i V → V !! slot_id i = Some (m, d) → has_any (md_flags m) WH_NVM_FLAGS_NONMODIFIABLE = false.
Proof.
  intros T Ho. destruct (tg_open _ _ _ T _ Ho) as [Hk Hw]. destruct (vi_objects _ _ _ (proj2 (tg_inv _ _ _ T)) i _ (tg_slot _ _ _ T) Ho) as (_ & _ & Hp).
  by apply Hp.
Qed.
Lemma written_content k i V v V1 V' : target k i V → dir S V1 = dir S V → writes_dir S i (Some (k, v)) V1 V' →
  ∀ k', content S V' k' = updated k (Some v) (content S V) k'.
Proof.
  intros T E1 [HI HD]. rewrite E1 in HD. unfold content, updated. rewrite HD. apply find_in_insert.
  - rewrite <-HD. by apply vinv_keys_apart.
  - rewrite length_dir. apply T.
  - intros k' o'. rewrite dir_lookup by apply T. intros [= Ho]. destruct (tg_key _ _ _ T) as [[o Ho2]|[Hn _]]; [congruence|].
    unfold entry in Ho. rewrite current_free in Ho by apply T. by rewrite Hn in Ho.
Qed.

Lemma add_checked_run m d P s : env S s → fits (obs s) (md_len m) → P (obs s) → P (<[md_id m := (m, d)]> (obs s)) →
  fwp (nvm (wh_Nvm_AddObjectChecked m d)) (λ rc s', ran S P s s' ∧
    (obs s' = obs s ∧ rc ≠ WH_ERROR_OK ∨ obs s' = <[md_id m := (m, d)]> (obs s)) ∧
    (smooth S s' → (∀ m' d', obs s !! md_id m = Some (m', d') → has_any (md_flags m') WH_NVM_FLAGS_NONMODIFIABLE = false) →
       rc = WH_ERROR_OK)) s.
Proof.
  intros He Hfit HP HP'. apply (run_nvm S _ P); [done|]. intros n rc E.
  assert (works_at (vl_nvm s) → (∀ m' d', obs s !! md_id m = Some (m', d') → has_any (md_flags m') WH_NVM_FLAGS_NONMODIFIABLE = false) →
    rc = WH_ERROR_OK) as HR.
  { intros Hwk Hm. pose proof (add_checked_works Hwk m d Hfit Hm) as Hw. by rewrite E in Hw. }
  destruct (add_checked_ok _ _ _ _ _ E) as [[Eo Hrc]|Eo]; fold (obs s) in Eo; (split; [by rewrite Eo|]); intros s' Hr Ho _;
    (split_and!; [done| |intros Hsm; by eapply HR, works_before]).
  - left. split; [congruence|done].
  - right. congruence.
Qed.

(** ** The commit of a replacement *)

Lemma commit_run k i V v t c new s P :
  let V1 := obs s in
  target k i V → env S s → holding S (dir S V) (vt_global t) V1 → table_in V1 = t → vt_reserved t = Z.of_nat i + 1 → 0 ≤ c < 2 ^ 64 →
  V1 !! slot_id i = Some new → label_key (md_label new.1) = Some k → entry_of S c new = Some (k, v) →
  (is_sealed new.1 = true → authentic S c new = true) → is_Some (V !! slot_id i) →
  (∀ V', allowed (content S V) k (Some v) (vt_global t) V' → P V') →
  let Q st s' := ran S P s s' ∧ P (obs s') ∧
    (st = PSA_SUCCESS → ∀ k', content S (obs s') k' = updated k (Some v) (content S V) k') ∧ (smooth S s' → st = PSA_SUCCESS) in
  wp (commit_replacement t (Z.of_nat i) c) Q Q s.
Proof.
  intros V1 T He [HI HD Hg] Et Hr Hc Ho Hl Hv Ha [o0 Ho0] HP Q. pose proof (tg_slot _ _ _ T) as Hi.
  assert (table_wf t) as Ht. { rewrite <-Et. by eapply vinv_table. }
  assert (∃ o, entry S (table_in V1) V1 i = Some (k, o)) as [o He1].
  { pose proof (dir_lookup S V1 i Hi) as E1. rewrite HD, dir_lookup in E1 by done. injection E1 as E1.
    destruct (tg_key _ _ _ T) as [[o Hk]|[Hn _]]; [|congruence]. exists o. congruence. }
  set (t2 := t <| vt_slot := <[i := c]> (vt_slot t) |> <| vt_reserved := 0 |>).
  assert (table_wf t2) as Ht2. { apply table_wf_reserved; [by apply table_wf_slot|lia]. }
  assert (writes_dir S i (Some (k, v)) V1 (table_put t2 V1)) as Hw.
  { rewrite <-Hv. unfold t2. rewrite <-Et. by apply (commit S V1 HI i c new k o); rewrite ?Et in *. }
  assert (P V1) as HP1. { by apply HP, holding_allowed. }
  assert (∀ k', content S (table_put t2 V1) k' = updated k (Some v) (content S V) k') as Hupd by by eapply written_content.
  assert (P (table_put t2 V1)) as HP2.
  { apply HP. constructor; [apply Hw| |by right]. unfold global. by rewrite table_put_in. }
  apply wp_bind, wp_slot_set; [done|done|]. fold t2. wp_do (table_store_run S t2 P); [done..|].
  intros st s1 (Hr1 & _ & Ho1 & Hok1 & HR1).
  apply wp_if; intros E1; bool_hyps.
  { apply wp_ret. split_and!; [done|by destruct Ho1 as [->| ->]|done|done]. }
  specialize (Hok1 E1). assert (keeps_dir S (table_put t2 V1) (delete WT_HSM_VAULT_STAGE_ID (table_put t2 V1))) as [HI3 HD3].
  { apply stage_drop; [apply Hw|by rewrite table_put_in]. }
  assert (∀ k', content S (delete WT_HSM_VAULT_STAGE_ID (table_put t2 V1)) k' = updated k (Some v) (content S V) k') as Hupd3.
  { intros k'. rewrite <-Hupd. unfold content. by rewrite HD3. }
  apply wp_call. eapply fwp_mono; [apply (destroy_stage_run S P s1); [apply Hr1|by rewrite Hok1|]|].
  { rewrite Hok1. apply HP. constructor; [done| |by right]. unfold global. by rewrite table_in_delete, table_put_in. }
  rewrite Hok1. intros st2 s2 (Hr2 & Ho2 & _ & HR2). split_and!; [by eapply ran_trans| |intros _|done].
  - destruct Ho2 as [->| ->]; [done|]. apply HP. constructor; [done| |by right]. unfold global. by rewrite table_in_delete, table_put_in.
  - by destruct Ho2 as [->| ->].
Qed.

(** ** The object that is written *)

Section object.
Context (owner sub uid flags : Z) (data : list Z) (L : label_ranges owner sub uid flags).
Context (Hmask : flags .&~ WT_HSM_VAULT_FLAG_MASK = 0) (Hlen : Z.of_nat (length data) ≤ WT_VAULT_OBJECT_MAX).
Let sealed := has_any flags WT_VAULT_FLAG_SEALED.
Let label := wt_hsm_vault_make_label owner sub uid flags.
Let len := Z.of_nat (length data).
Let store_len := if sealed then u16 (len + WT_VAULT_SEAL_TAG_LEN) else u16 len.
Let k : vkey := (owner, sub, uid).
Let v : vobj := (flags, Some data).
Let meta_flags := WH_NVM_FLAGS_SENSITIVE .|
  (if has_any flags WT_VAULT_FLAG_WRITE_ONCE then WH_NVM_FLAGS_NONMODIFIABLE .| WH_NVM_FLAGS_NONDESTROYABLE else 0).
Let meta (id : Z) : whNvmMetadata :=
  {| md_id := id; md_access := WH_NVM_ACCESS_ANY; md_flags := meta_flags; md_len := store_len; md_label := label |}.

(** The bytes stored for [data]. *)
Definition stored (c : Z) (d : list Z) : Prop :=
  if sealed then c ≠ 0 ∧ Z.of_nat (length d) = len + WT_VAULT_SEAL_TAG_LEN ∧ opens label c d = Some data else d = data.

Lemma store_len_small : store_len = if sealed then len + WT_VAULT_SEAL_TAG_LEN else len.
Proof.
  unfold store_len, len, WT_VAULT_SEAL_TAG_LEN, WT_VAULT_OBJECT_MAX in *. destruct sealed; apply u16_small; lia.
Qed.
Lemma new_sealed id : is_sealed (meta id) = sealed.
Proof. unfold is_sealed. simpl. unfold label. by rewrite (label_flags _ _ _ _ L). Qed.
Lemma new_key id : is_key (meta id) = false.
Proof. unfold is_key. simpl. unfold label. rewrite (label_flags _ _ _ _ L). by apply storage_flags_no_key. Qed.
Lemma new_label id : label_key (md_label (meta id)) = Some k.
Proof. apply (label_key_made _ _ _ _ L). Qed.
Lemma new_wf id c d : stored c d → object_wf (meta id, d).
Proof.
  intros Hd. unfold object_wf. simpl. rewrite store_len_small. unfold stored in Hd. split_and!.
  - destruct sealed; [by destruct Hd as (_ & -> & _)|by subst].
  - unfold WT_VAULT_SEAL_TAG_LEN, WT_VAULT_OBJECT_MAX, len in *. destruct sealed; lia.
  - intros _. unfold is_once. simpl. unfold label. rewrite (label_flags _ _ _ _ L).
    destruct (flags_apart (has_any flags WT_VAULT_FLAG_WRITE_ONCE)) as [H1 H2]. done.
Qed.
Lemma new_fits id V' : fits V' (md_len (meta id)).
Proof.
  left. cbn [md_len meta]. fold store_len. rewrite store_len_small. unfold len, WT_VAULT_SEAL_TAG_LEN, WT_VAULT_OBJECT_MAX in *.
  destruct sealed; lia.
Qed.
Lemma new_authentic id c d : stored c d → is_sealed (meta id) = true → authentic S c (meta id, d) = true.
Proof.
  intros Hd Hse. unfold authentic. cbn [fst snd]. rewrite Hse. rewrite new_sealed in Hse. cbn [md_len md_label meta].
  pose proof store_len_small as Esl. unfold stored in Hd. rewrite Hse in Esl, Hd. destruct Hd as (Hc & Hl & Ho). fold store_len. rewrite Esl, Ho.
  rewrite (proj2 (Z.eqb_neq c 0) Hc), bool_decide_true by done.
  unfold WT_VAULT_SEAL_TAG_LEN, WT_VAULT_OBJECT_MAX, len in *.
  by rewrite (proj2 (Z.leb_le 16 _)), (proj2 (Z.leb_le (_ + _) _)) by lia.
Qed.
Lemma new_entry id c d : stored c d → entry_of S c (meta id, d) = Some (k, v).
Proof.
  intros Hd. unfold entry_of, contents. cbn [fst snd]. rewrite new_label, new_key, new_sealed. cbn [fmap option_fmap option_map md_label meta].
  unfold label at 1. rewrite (label_flags _ _ _ _ L). unfold stored in Hd. destruct sealed; [|by subst].
  by destruct Hd as (_ & _ & ->).
Qed.

Context (i : nat) (V : store) (T : target k i V).

(** The store before the object is written, with the old object staged. *)
Definition ready (repl : bool) (m : whNvmMetadata) (d0 : list Z) V1 : store :=
  if repl then <[WT_HSM_VAULT_STAGE_ID := (stage_of m, d0)]> V1 else V1.
Lemma put_run (repl : bool) m d0 g c t V1 d s :
  env S s → obs s = ready repl m d0 V1 → marked S repl i g c V t V1 → holding S (dir S V) g (obs s) → stored c d → 0 ≤ c < 2 ^ 64 →
  (if repl then V !! slot_id i = Some (m, d0) ∧ authentic S (counter_of (table_in V) i) (m, d0) = true else True) →
  let P := allowed (content S V) k (Some v) g in
  let Q st s' := ran S P s s' ∧ P (obs s') ∧
    (st = PSA_SUCCESS → ∀ k', content S (obs s') k' = updated k (Some v) (content S V) k') ∧ (smooth S s' → st = PSA_SUCCESS) in
  wp (put_object repl (meta (slot_id i)) d t (Z.of_nat i) c) Q Q s.
Proof.
  intros He Hob M Hh Hd Hc Hold P Q. pose proof (tg_slot _ _ _ T) as Hi. set (new := (meta (slot_id i), d)).
  pose proof (new_wf (slot_id i) c d Hd) as Hw. pose proof (new_entry (slot_id i) c d Hd) as Hv.
  pose proof (new_authentic (slot_id i) c d Hd) as Ha. pose proof (new_label (slot_id i)) as Hl.
  assert (table_in (obs s) = t) as Et.
  { rewrite Hob. unfold ready. destruct repl; [rewrite table_in_insert by done|]; apply M. }
  assert (P (obs s)) as HP0 by by apply holding_allowed.
  set (V2 := <[slot_id i := new]> (obs s)).
  assert (table_in V2 = t) as Et2. { unfold V2. rewrite table_in_insert; [done|]. by apply slot_not_table. }
  assert (global V2 = g) as Eg. { unfold global. rewrite Et2. apply M. }
  assert (if repl then keeps_dir S (obs s) V2 else writes_dir S i (Some (k, v)) (obs s) V2) as Hstep.
  { pose proof (mk_reserved _ _ _ _ _ _ _ _ M) as Hr. pose proof (mk_counter _ _ _ _ _ _ _ _ M) as Hct. destruct repl.
    - apply (live_put S (obs s) (ho_inv _ _ _ _ Hh) i (stage_of m, d0)); rewrite ?Et; try done.
      + rewrite Hob. apply lookup_insert_eq.
      + rewrite Hct. destruct Hold as [_ Hold]. by rewrite (authentic_alike S _ (stage_of m, d0) (m, d0)).
    - rewrite <-Hv, <-Hct, <-Et. apply (fresh_put S (obs s) (ho_inv _ _ _ _ Hh) i new k); rewrite ?Et; try done; [by rewrite Hct|].
      assert (∀ j, (j < slots)%nat → entry S t (obs s) j = entry S (table_in V) V j) as Hj.
      { intros j Hj. pose proof (dir_lookup S (obs s) j Hj) as E1. rewrite (ho_dir _ _ _ _ Hh), dir_lookup in E1 by done. congruence. }
      destruct (tg_key _ _ _ T) as [[o Ho]|[_ Hn]]; [left; exists o; by rewrite Hj|right]. intros j o Hlj. rewrite Hj by done. by apply Hn. }
  assert (P V2) as HP2.
  { constructor; [destruct repl; apply Hstep|lia|]. destruct repl.
    - left. intros k'. unfold content. by rewrite (proj2 Hstep), (ho_dir _ _ _ _ Hh).
    - right. eapply written_content; [done|apply Hh|done]. }
  wp_do (add_checked_run (meta (slot_id i)) d P); [done|by apply new_fits|done|done|]. intros rc s1 (Hr1 & Ho1 & HR1). cbv zeta.
  assert (smooth S s1 → wt_hsm_vault_map_err rc = PSA_SUCCESS) as HR.
  { intros HRel. rewrite HR1; [apply map_ok|done|]. intros m' d' Ho. simpl in Ho. eapply (target_modifiable k i V m' d' T).
    rewrite <-(mk_slot _ _ _ _ _ _ _ _ M i Hi), <-Ho, Hob. unfold ready. destruct repl; [|done].
    rewrite lookup_insert_ne; [done|]. by apply not_eq_sym, slot_not_stage. }
  apply wp_if; intros E1.
  - apply wp_ret. split_and!; [done|by destruct Ho1 as [[-> _]| ->]| |done].
    intros E2. destruct Ho1 as [[_ Hrc]|Ho1]; [by apply map_err_ok in E2|]. rewrite E2 in E1. destruct repl; [done|].
    rewrite Ho1. eapply written_content; [done|apply Hh|done].
  - apply orb_false_iff in E1 as [E1 E2]. destruct repl; [|done]. bool_hyps. apply map_err_ok in E1.
    destruct Ho1 as [[_ Hrc]|Ho1]; [done|]. change (obs s1 = V2) in Ho1.
    assert (vt_global t = g) as Egt by apply M. rewrite <-Egt in *.
    eapply wp_mono; [apply (commit_run k i V v t c new s1 P)|..].
    + done.
    + apply Hr1.
    + rewrite Ho1. constructor; [apply Hstep| |unfold global; rewrite Et2; lia]. by rewrite (proj2 Hstep), (ho_dir _ _ _ _ Hh).
    + by rewrite Ho1.
    + apply (mk_reserved _ _ _ _ _ _ _ _ M).
    + done.
    + rewrite Ho1. apply lookup_insert_eq.
    + apply Hl.
    + apply Hv.
    + apply Ha.
    + destruct Hold as [-> _]. by eexists.
    + intros V' HV'. unfold P. by rewrite <-Egt.
    + intros st s2 (Hr2 & HP & Hs & HR2). split_and!; [by eapply ran_trans|done|done|done].
    + intros st s2 (Hr2 & HP & Hs & HR2). split_and!; [by eapply ran_trans|done|done|done].
Qed.

(** The result of the operation that began in [s0], where the store was [V]. *)
Definition stores s0 (st : Z) s' : Prop :=
  let P := allowed (content S V) k (Some v) (global V) in
  went S P s0 s' ∧ P (obs s') ∧ (st = PSA_SUCCESS → ∀ k', content S (obs s') k' = updated k (Some v) (content S V) k') ∧
  (smooth S s' → st = PSA_SUCCESS).
Lemma stores_failed s0 st s' : obs s0 = V → st ≠ PSA_SUCCESS → ran S (holding S (dir S V) (global V)) s0 s' →
  holding S (dir S V) (global V) (obs s') → ¬ smooth S s' → stores s0 st s'.
Proof.
  intros Ho Hst Hr Hh HR. split_and!; [|by apply holding_allowed|done|done].
  eapply went_mono; [intros V'; apply holding_allowed|]. apply ran_went; [done| |].
  - intros V' HV'. rewrite Ho. apply HV'.
  - rewrite Ho. apply Hh.
Qed.

Lemma fill_run (repl : bool) m d0 g c t V1 s0 s :
  let P := holding S (dir S V) (global V) in
  ran S P s0 s → obs s0 = V → obs s = ready repl m d0 V1 → marked S repl i g c V t V1 → holding S (dir S V) g (obs s) →
  (if sealed then c = g ∧ global V < g < 2 ^ 64 else c = 0 ∧ g = global V) → (sealed = true → g_vault_sealer s0 = Some S) →
  (if repl then V !! slot_id i = Some (m, d0) ∧ authentic S (counter_of (table_in V) i) (m, d0) = true else True) →
  wp (store_data ← (if sealed then sealer ← defined (g_vault_sealer s0); seal_object sealer label c data store_len else mret data);
      put_object repl (meta (slot_id i)) store_data t (Z.of_nat i) c)
    (stores s0) (stores s0) s.
Proof.
  intros P Hr Ho0 Hob M Hh Hc Hse Hold. pose proof (tg_inv _ _ _ T) as HI. pose proof (vinv_table _ _ HI) as Ht.
  pose proof (tw_global _ Ht) as Hgl. change (vt_global (table_in V)) with (global V) in Hgl.
  assert (global (obs s) = g) as Eg.
  { unfold global. rewrite Hob. unfold ready. destruct repl; [rewrite table_in_insert by done|]; rewrite (mk_table _ _ _ _ _ _ _ _ M); apply M. }
  assert (global V ≤ g) as Hle by (destruct sealed; lia).
  assert (∀ d s1, went S (allowed (content S V) k (Some v) (global V)) s0 s1 → obs s1 = obs s → stored c d →
    wp (put_object repl (meta (slot_id i)) d t (Z.of_nat i) c) (stores s0) (stores s0) s1) as Hput.
  { intros d s1 Hw1 Ho1 Hd. assert (∀ st s', ran S (allowed (content S V) k (Some v) g) s1 s' ∧ allowed (content S V) k (Some v) g (obs s') ∧
      (st = PSA_SUCCESS → ∀ k', content S (obs s') k' = updated k (Some v) (content S V) k') ∧ (smooth S s' → st = PSA_SUCCESS) →
      stores s0 st s') as Hq.
    { intros st s' (Hr1 & Ha & Hs & HR). split_and!; [|by eapply allowed_mono|done|done]. eapply went_trans; [done|].
      eapply went_mono; [intros V'; by apply allowed_mono|]. apply ran_went; [done| |].
      - intros V' HV'. rewrite Ho1, Eg. apply HV'.
      - rewrite Ho1, Eg. apply Ha. }
    eapply wp_mono; [apply (put_run repl m d0 g c t V1 d s1); rewrite ?Ho1; try assumption|apply Hq|apply Hq].
    - apply Hw1.
    - destruct sealed; lia. }
  apply wp_bind. destruct (Bool.bool_dec sealed true) as [Es|Es%Bool.not_true_is_false]; rewrite Es in Hc, Hse |- *.
  - destruct Hc as [-> Hg]. rewrite Hse by done. apply wp_bind. eapply wp_defined; [done|].
    apply (seal_run S); [apply Hr|done|rewrite store_len_small; by rewrite Es|].
    intros bytes st s' Hn Hl He' Hb Hs Esl. assert (obs s' = obs s) as Ho' by (unfold obs; by rewrite Hn).
    assert (went S (allowed (content S V) k (Some v) (global V)) s0 s') as Hw.
    { eapply went_mono; [intros V'; apply holding_allowed|]. eapply (seal_went _ s0 s g); try done.
      - intros V' HV'. rewrite Ho0. apply HV'.
      - rewrite Ho0, Eg. lia. }
    destruct (seal_ok label g data st bytes Esl) as [_ Hok]. destruct (Z.eqb_spec st PSA_SUCCESS) as [E1|E1].
    + apply Hput; [done|done|]. unfold stored. rewrite Es. destruct (Hok E1) as [Hlb Hop]. split_and!; [lia|done|done].
    + split_and!; [done| |done|]. { rewrite Ho'. eapply allowed_mono; [exact Hle|]. by apply holding_allowed. }
      intros [HR _]. pose proof (seal_works label g data) as Hw'. by rewrite Esl in Hw'.
  - destruct Hc as [-> ->]. apply wp_ret, Hput; [|done|unfold stored; by rewrite Es].
    eapply went_mono; [intros V'; apply holding_allowed|]. apply ran_went; [done| |].
    + intros V' HV'. rewrite Ho0. apply HV'.
    + rewrite Ho0. lia.
Qed.

Lemma write_run (repl : bool) m d0 s0 s :
  let P := holding S (dir S V) (global V) in
  ran S P s0 s → obs s0 = V → obs s = V → (sealed = true → g_vault_sealer s0 = Some S ∧ global V < 2 ^ 64 - 1) →
  (if repl then V !! slot_id i = Some (m, d0) ∧ authentic S (counter_of (table_in V) i) (m, d0) = true ∧
                buf_read (g_vault_ct s) 0 (md_len m) = Some d0
   else ∀ o, V !! slot_id i = Some o → is_sealed o.1 = false) →
  wp (set_object (g_vault_sealer s0) owner sub uid flags data (table_in V) repl (slot_id i) (Z.of_nat i) store_len m)
    (stores s0) (stores s0) s.
Proof.
  intros P Hr Ho0 Ho Hse Hrepl.
  set (tg := if sealed then table_in V <| vt_global := (vt_global (table_in V) + 1) mod 2 ^ 64 |> else table_in V).
  set (c := if sealed then vt_global tg else 0).
  change (wp (mark_slot repl sealed tg (Z.of_nat i) c ≫= λ t1, when repl (stage_object m) ;;
    (if sealed then defined (g_vault_sealer s0) ≫= λ sealer, seal_object sealer label c data store_len else mret data) ≫= λ store_data,
    put_object repl (meta (slot_id i)) store_data t1 (Z.of_nat i) c) (stores s0) (stores s0) s).
  pose proof T as [HI Hi Hun Hst _ Hop]. pose proof (tw_global _ (vinv_table _ _ HI)) as Hgl.
  set (g := if sealed then vt_global (table_in V) + 1 else vt_global (table_in V)).
  assert (tg = (if sealed then table_in V <| vt_global := g |> else table_in V) ∧
          (if sealed then c = g ∧ global V < g < 2 ^ 64 else c = 0 ∧ g = global V)) as [Etg Hcg].
  { unfold c, tg, g, global in *. destruct (Bool.bool_dec sealed true) as [Es|Es%Bool.not_true_is_false]; rewrite Es; [|done].
    destruct (Hse Es). rewrite Z.mod_small by lia. split_and!; [done|done|lia|lia]. }
  assert (0 ≤ c < 2 ^ 64 ∧ 0 ≤ g < 2 ^ 64 ∧ vt_global (table_in V) ≤ g) as (Hc & Hg & Hle).
  { unfold global in Hcg. revert Hcg. destruct (Bool.bool_dec sealed true) as [Es|Es%Bool.not_true_is_false]; rewrite Es; lia. }
  assert (holding S (dir S V) (global V) V) as HhV by by constructor.
  rewrite Etg. apply wp_bind. rewrite <-Ho. apply (mark_slot_run S repl sealed i g c s); rewrite ?Ho; try assumption.
  - apply Hr.
  - intros Es. rewrite Es in Hcg. unfold global in Hcg. tauto.
  - destruct repl; [|done]. destruct Hrepl as (H1 & H2 & _). exists (m, d0). split_and!; [done|done|]. by apply (Hop _ H1).
  - intros st s1 Hn Hr1 Hh1 HR1. apply stores_failed; [done|done|by eapply ran_trans|done|done].
  - intros t1 s1 Hr1 Hc1 M. assert (ran S P s0 s1) as Hr01 by by eapply ran_trans.
    assert (sealed = true → g_vault_sealer s0 = Some S) as Hse' by (intros Es; by apply Hse).
    pose proof (mk_holding _ _ _ _ _ _ _ _ M) as Hh1.
    apply wp_bind, wp_when; intros Er.
    + destruct repl; [|done]. destruct Hrepl as (H1 & H2 & H3).
      assert (table_in (obs s1) = t1) as Et1 by apply M.
      apply (stage_run S i m d0 s1); try assumption.
      * apply Hr1.
      * apply M.
      * rewrite Et1. apply M.
      * apply M.
      * by rewrite (mk_slot _ _ _ _ _ _ _ _ M).
      * by rewrite Hc1.
      * intros st s2 Hn Hr2 Hh2 HR2. rewrite (ho_dir _ _ _ _ Hh1) in Hr2, Hh2. assert (global V ≤ global (obs s1)) as Hgle.
        { unfold global at 2. rewrite Et1, (mk_global _ _ _ _ _ _ _ _ M). done. }
        apply stores_failed; [done|done| |by eapply holding_mono|done].
        eapply ran_trans; [done|]. eapply ran_mono; [|done]. intros V'. by apply holding_mono.
      * intros s2 Hr2 Ho2 Hh2. rewrite (ho_dir _ _ _ _ Hh1) in Hr2, Hh2. rewrite <-Ho2 in Hh2.
        assert (global (obs s1) = g) as Eg1. { unfold global. rewrite Et1. apply M. }
        rewrite Eg1 in Hr2, Hh2. eapply (fill_run true m d0 g c t1 (obs s1) s0 s2); try assumption; [|done].
        eapply ran_trans; [done|]. eapply ran_mono; [|done]. intros V'. by apply holding_mono.
    + subst repl. by eapply (fill_run false m d0 g c t1 (obs s1) s0 s1).
Qed.
End object.

(** ** The operation *)

Lemma check_replaced_run id m d c P s E Q : env S s → P (obs s) → obs s !! id = Some (m, d) → object_wf (m, d) →
  (∀ st s', ran S P s s' → obs s' = obs s → st ≠ PSA_SUCCESS →
     (smooth S s' → g_vault_sealer s = Some S → has_any (md_flags m) WH_NVM_FLAGS_NONEXPORTABLE = true) → E st s') →
  (∀ b s', ran S P s s' → obs s' = obs s → b = authentic S c (m, d) →
     (b = true → buf_read (g_vault_ct s') 0 (md_len m) = Some d) → Q b s') →
  wp (check_replaced id m c) E Q s.
Proof.
  intros He HP Hd Hw HE HQ. unfold check_replaced. wp_do (read_sealed_run S id m d c P); [done..|].
  intros st s1 (Hok & Hne & Hsig & Hper & _ & HR). apply wp_if; intros E1; bool_hyps.
  { rewrite E1 in *. destruct Hne as [Hr1 Ho1]; [done|]. apply wp_ret, HQ; [done|done|by rewrite Hsig|done]. }
  apply wp_if; intros E2; bool_hyps.
  { destruct (Hne E2) as [Hr1 Ho1]. apply wp_early, HE; [done|done|done|]. intros HRel Hs.
    destruct (HR HRel Hs) as [?|[?|?]]; [done|done|by apply Hper]. }
  destruct (Hok E2) as (pt & s2 & -> & Hr2 & Ho2 & Hct & Ha & _ & _ & Hl).
  assert (md_len m - WT_VAULT_SEAL_TAG_LEN ≤ WT_VAULT_OBJECT_MAX) as Hn. { unfold authentic in Ha. simpl in Ha. bool_hyps. lia. }
  wp_do (zeroize_run S pt s2); [apply Hr2|done|done|]. intros [] s3 ->. by apply wp_ret, HQ.
Qed.

Lemma slot_of_id i : (i < slots)%nat → u32 (slot_id i - WT_HSM_VAULT_ID_BASE) = Z.of_nat i.
Proof. intros Hi. unfold slot_id, slots in *. replace (WT_HSM_VAULT_ID_BASE + Z.of_nat i - WT_HSM_VAULT_ID_BASE) with (Z.of_nat i) by lia. apply u32_small. lia. Qed.

Section operation.
Context (owner sub uid flags : Z) (data : list Z) (L : label_ranges owner sub uid flags).
Let k : vkey := (owner, sub, uid).
Let v : vobj := (flags, Some data).
(** The object may not be overwritten. *)
Definition protected (C : vkey → option vobj) (k : vkey) : Prop :=
  ∃ o, C k = Some o ∧ has_any o.1 (WT_VAULT_FLAG_KEY .| WT_VAULT_FLAG_WRITE_ONCE) = true.
Definition valid_set : Prop := Z.of_nat (length data) ≤ WT_VAULT_OBJECT_MAX ∧ flags .&~ WT_HSM_VAULT_FLAG_MASK = 0.
Record set_post s (st : Z) s' : Prop := {
  sp_outcome : outcome k (Some v) s st s';
  sp_protected : protected (content S (obs s)) k → ran S (same S (obs s)) s s' ∧ same S (obs s) (obs s') ∧ st ≠ PSA_SUCCESS;
  sp_works : smooth S s' → g_vault_nvm s = true → g_vault_sealer s = Some S → valid_set → st = PSA_SUCCESS ∨
    (st = PSA_ERROR_NOT_PERMITTED ∧ protected (content S (obs s)) k) ∨
    (st = PSA_ERROR_INSUFFICIENT_STORAGE ∧ content S (obs s) k = None ∧ ∀ i, (i < slots)%nat → obs s' !! slot_id i ≠ None);
}.
Lemma same_went s s' k' v' : ran S (same S (obs s)) s s' → same S (obs s) (obs s') →
  went S (allowed (content S (obs s)) k' v' (global (obs s))) s s'.
Proof.
  intros Hr Hs. eapply went_mono; [intros V; apply same_allowed|]. apply ran_went; [done| |].
  - intros V HV. unfold global. rewrite (sm_global _ _ _ HV). lia.
  - unfold global. rewrite (sm_global _ _ _ Hs). lia.
Qed.
Lemma same_outcome s s' st k' v' : ran S (same S (obs s)) s s' → same S (obs s) (obs s') → st ≠ PSA_SUCCESS → outcome k' v' s st s'.
Proof. intros Hr Hs Hn. split_and!; [by apply same_went|by apply same_allowed|done]. Qed.
Lemma set_failed s st s' : ran S (same S (obs s)) s s' → same S (obs s) (obs s') → st ≠ PSA_SUCCESS →
  (smooth S s' → g_vault_nvm s = true → g_vault_sealer s = Some S → valid_set →
    (st = PSA_ERROR_NOT_PERMITTED ∧ protected (content S (obs s)) k) ∨
    (st = PSA_ERROR_INSUFFICIENT_STORAGE ∧ content S (obs s) k = None ∧ ∀ i, (i < slots)%nat → obs s' !! slot_id i ≠ None)) →
  set_post s st s'.
Proof. intros Hr Hs Hn HR. constructor; [by apply same_outcome|done|]. intros. right. by apply HR. Qed.
Lemma same_content V V' : same S V V' → content S V' = content S V.
Proof. intros Hs. unfold content. by rewrite (sm_dir _ _ _ Hs). Qed.

(** The entry of an object that the lookup found, and what it means that it
    found none. *)
Lemma found_entry V i m d k' : vinv S V → vt_reserved (table_in V) = 0 → (i < slots)%nat → V !! slot_id i = Some (m, d) →
  label_key (md_label m) = Some k' → ∃ b, entry S (table_in V) V i = Some (k', (wt_hsm_vault_flags_of (md_label m), b)).
Proof. intros HI Hr Hi Ho Hl. rewrite (entry_free S V i (m, d)) by done. unfold entry_of. simpl. rewrite Hl. simpl. eauto. Qed.
Lemma entry_content V i k' o : vinv S V → (i < slots)%nat → entry S (table_in V) V i = Some (k', o) → content S V k' = Some o.
Proof. intros HI Hi He. eapply find_in_lookup; [by apply vinv_keys_apart|]. by rewrite dir_lookup, He. Qed.
Lemma absent_entry V k' : vt_reserved (table_in V) = 0 →
  (∀ i o, (i < slots)%nat → V !! slot_id i = Some o → label_key (md_label o.1) ≠ Some k') →
  ∀ j o, (j < slots)%nat → entry S (table_in V) V j ≠ Some (k', o).
Proof.
  intros Hr Hn j o Hj He. unfold entry in He. rewrite current_free in He by done.
  destruct (V !! slot_id j) as [o'|] eqn:Ho; [|done]. simpl in He. apply entry_of_label in He. by apply (Hn j o').
Qed.
Lemma absent_content V k' : (∀ j o, (j < slots)%nat → entry S (table_in V) V j ≠ Some (k', o)) → content S V k' = None.
Proof.
  intros Hn. apply find_in_None. intros j o Hj. pose proof (lookup_lt_Some _ _ _ Hj) as Hlt. rewrite length_dir in Hlt.
  rewrite dir_lookup in Hj by done. injection Hj as Hj. by apply (Hn j o).
Qed.

Lemma stores_post s s1 i st s' : ran S (same S (obs s)) s s1 → same S (obs s) (obs s1) → target k i (obs s1) →
  stores owner sub uid flags data (obs s1) s1 st s' → ¬ protected (content S (obs s)) k → set_post s st s'.
Proof.
  intros Hr Hs T (Hw & Ha & Hok & HR) Hp. unfold global in Hw, Ha. rewrite (same_content _ _ Hs), (sm_global _ _ _ Hs) in Hw, Ha.
  rewrite (same_content _ _ Hs) in Hok. constructor; [|done|].
  - split_and!; [|done|done]. eapply went_trans; [by apply same_went|done].
  - intros. left. by apply HR.
Qed.

(** From the choice of the slot: [rb] tells whether it holds a sealed object. *)
Lemma set_slot_run (rb : bool) s s1 i m : ran S (same S (obs s)) s s1 → same S (obs s) (obs s1) → target k i (obs s1) → valid_set →
  ¬ protected (content S (obs s)) k →
  (has_any flags WT_VAULT_FLAG_SEALED = true → g_vault_sealer s = Some S ∧ global (obs s) < 2 ^ 64 - 1) →
  (if rb then ∃ d, obs s1 !! slot_id i = Some (m, d) ∧ label_key (md_label m) = Some k ∧ is_sealed m = true
   else ∀ o, obs s1 !! slot_id i = Some o → is_sealed o.1 = false) →
  let sealed := has_any flags WT_VAULT_FLAG_SEALED in
  let len := Z.of_nat (length data) in
  let store_len := if sealed then u16 (len + WT_VAULT_SEAL_TAG_LEN) else u16 len in
  wp (c0 ← slot_get (table_in (obs s1)) (Z.of_nat i);
      replacement ← (if rb then check_replaced (slot_id i) m c0 else mret false);
      status ← call (wt_hsm_vault_reserve (set_need replacement store_len (md_len m))
                       (if replacement then 4 else if sealed || negb (c0 =? 0) then 2 else 1));
      if negb (status =? PSA_SUCCESS) then mret status else
      set_object (g_vault_sealer s) owner sub uid flags data (table_in (obs s1)) replacement (slot_id i) (Z.of_nat i) store_len m)
    (set_post s) (set_post s) s1.
Proof.
  intros Hr Hs T [Hlen Hmask] Hp Hse Hrb sealed len store_len. set (table := table_in (obs s1)).
  pose proof (tg_slot _ _ _ T) as Hi. pose proof (tg_inv _ _ _ T) as HI. assert (table_wf table) as Ht by (by eapply vinv_table).
  set (P V := same S (obs s) V ∧ holding S (dir S (obs s1)) (global (obs s1)) V).
  assert (P (obs s1)) as HP by (split; [done|by constructor]).
  assert (∀ s2, ran S P s1 s2 → ran S (same S (obs s)) s s2) as Hto.
  { intros s2 Hr2. eapply ran_trans; [done|]. eapply ran_mono; [|done]. by intros V []. }
  apply wp_bind, wp_slot_get; [done|done|]. set (c0 := counter_of table i).
  apply wp_bind.
  eapply (wp_mono _ (set_post s) _ (λ repl s2, ran S P s1 s2 ∧ obs s2 = obs s1 ∧ ∃ d,
    if repl : bool then obs s1 !! slot_id i = Some (m, d) ∧ authentic S c0 (m, d) = true ∧ buf_read (g_vault_ct s2) 0 (md_len m) = Some d
    else ∀ o, obs s1 !! slot_id i = Some o → is_sealed o.1 = false)); [|done|].
  - destruct rb; [|apply wp_ret; split_and!; [apply ran_refl, Hr|done|by exists []]]. destruct Hrb as (d & Hd & Hl & Hsl).
    apply (check_replaced_run (slot_id i) m d c0 P); [apply Hr|done|done|by apply (vi_objects _ _ _ (proj2 HI) i)| |].
    + intros st s2 Hr2 Ho2 Hn HR2. apply set_failed; [by apply Hto|by rewrite Ho2|done|].
      intros HRel _ Hsl' _. exfalso. rewrite <-(ran_sealer _ _ _ _ Hr) in Hsl'. specialize (HR2 HRel Hsl').
      destruct (vi_objects _ _ _ (proj2 HI) i _ Hi Hd) as (_ & _ & Hpol). destruct (tg_open _ _ _ T _ Hd) as [Hk _].
      destruct (Hpol Hk) as [Hx _]. simpl in Hx. congruence.
    + intros b s2 Hr2 Ho2 Hb Hct. assert (authentic S c0 (m, d) = true) as Ha.
      { apply (vi_sealed _ _ _ (proj2 HI) i); [done| |by apply (tg_open _ _ _ T _ Hd)|done|by eexists].
        rewrite current_free; [done|apply T|done]. }
      rewrite Ha in Hb. subst b. split_and!; [done|done|]. exists d. by split_and!; [..|apply Hct].
  - intros repl s2 (Hr2 & Ho2 & d & Hrepl).
    wp_do (reserve_run S _ _ P); [apply Hr2|by rewrite Ho2|].
    intros st s3 (Hr3 & Ho3 & Hc3 & HR3). assert (ran S P s1 s3) as Hr13 by by eapply ran_trans.
    assert (obs s3 = obs s1) as Ho13 by congruence.
    apply wp_if; intros E1; bool_hyps.
    { apply wp_ret, set_failed; [by apply Hto|by rewrite Ho13|done|].
      intros HRel _ _ _. destruct E1. apply HR3; [done|]. rewrite Ho2. split; [by destruct repl, (sealed || negb (c0 =? 0))|right].
      assert (fits (obs s1) store_len) as Hfit by exact (new_fits owner sub uid flags data Hlen 0 (obs s1)).
      destruct repl; [|by exists false, store_len, store_len]. destruct Hrepl as [Hd _].
      exists true, store_len, (md_len m). split_and!; [done| |done]. right. by exists (slot_id i), m, d. }
    eapply wp_mono; [|by intros st' s' Hst; eapply stores_post..].
    rewrite <-(ran_sealer _ _ _ _ Hr). apply (write_run owner sub uid flags data L Hmask Hlen i (obs s1) T repl m d s1 s3); try done.
    + eapply ran_mono; [|done]. by intros V [].
    + intros Es. destruct (Hse Es). rewrite (ran_sealer _ _ _ _ Hr). unfold global. rewrite (sm_global _ _ _ Hs). done.
    + by rewrite Hc3.
Qed.

(** The slot chosen from a lookup. *)
Lemma lookup_target s s1 r : same S (obs s) (obs s1) → clean (table_in (obs s1)) s1 → looked_up (obs s1) k r →
  let '(st, (id, m), free) := r in
  (st = PSA_SUCCESS → ∃ i d b, id = slot_id i ∧ obs s1 !! slot_id i = Some (m, d) ∧ label_key (md_label m) = Some k ∧
     content S (obs s) k = Some (wt_hsm_vault_flags_of (md_label m), b) ∧
     (is_key m = false → is_once m = false → target k i (obs s1))) ∧
  (st = PSA_ERROR_DOES_NOT_EXIST → content S (obs s) k = None ∧
     (free ≠ WH_NVM_ID_INVALID → ∃ i, free = slot_id i ∧ obs s1 !! slot_id i = None ∧ target k i (obs s1))).
Proof.
  destruct r as [[st [id m]] free]. intros Hs (_ & Hun & Hst) [Hf Ha Hfree _]. simpl in *. rewrite <-(same_content _ _ Hs).
  pose proof (sm_inv _ _ _ Hs) as HI. split; intros E.
  - destruct (Hf E) as (i & d & Hi & -> & Ho & Hl). destruct (found_entry (obs s1) i m d k HI Hun Hi Ho Hl) as [b Hb].
    exists i, d, b. split_and!; [done..|by eapply entry_content|]. intros Hk Hw. constructor; try done; [by left; eexists|].
    intros o. rewrite Ho. by intros [= <-].
  - specialize (Ha E). pose proof (absent_entry (obs s1) k Hun Ha) as Hn. split; [by apply absent_content|]. intros Hv.
    destruct Hfree as [?|(i & Hi & -> & Ho)]; [done|]. exists i. split_and!; [done|done|]. constructor; try done; [by right|].
    intros o. by rewrite Ho.
Qed.

Lemma set_run s : env S s → vinv S (obs s) → (has_any flags WT_VAULT_FLAG_SEALED = true → global (obs s) < 2 ^ 64 - 1) →
  fwp (wt_hsm_vault_set owner sub uid flags data) (set_post s) s.
Proof.
  intros He HI Hg. pose proof (same_refl _ _ HI) as Hs0. apply fwp_fn, wp_bind, wp_gets.
  destruct (g_vault_nvm s) eqn:Hb; [|apply wp_ret, set_failed; [by apply ran_refl|done|done|congruence]].
  cbn [negb]. apply wp_if; intros E1.
  { apply wp_ret, set_failed; [by apply ran_refl|done|done|]. intros _ _ _ [H1 H2]. rewrite H2 in E1.
    apply orb_true_iff in E1 as [E1|E1]; [|done]. bool_hyps. lia. }
  apply orb_false_iff in E1 as [E1 E2]. bool_hyps. assert (valid_set) as Hval by done.
  apply wp_if; intros E3.
  { apply wp_ret, set_failed; [by apply ran_refl|done|done|]. intros _ _ Hse. rewrite Hse in E3. by rewrite andb_false_r in E3. }
  assert (has_any flags WT_VAULT_FLAG_SEALED = true → g_vault_sealer s = Some S ∧ global (obs s) < 2 ^ 64 - 1) as Hse.
  { intros Es. split; [|by apply Hg]. rewrite Es in E3. destruct (env_sealer _ _ He) as [Hn|]; [|done]. by rewrite Hn in E3. }
  wp_do (table_load_run S (obs s)); [done|done|]. intros [st t] s1 [(Hr1 & Hs1 & Hc1) HR1]. simpl in Hc1, HR1.
  apply wp_if; intros E4; bool_hyps; [apply wp_ret, set_failed; [done|done|done|intros; by destruct E4; apply HR1]|].
  specialize (Hc1 E4). pose proof Hc1 as [<- [Hun Hst]].
  wp_do (lookup_run S owner sub uid (same S (obs s)) s1); [apply Hr1|done|by rewrite (ran_bound _ _ _ _ Hr1)|].
  intros [[st2 [id m]] free] s2 (Hr2 & Ho2 & Hl & HRl). rewrite <-Ho2 in *.
  assert (clean (table_in (obs s2)) s2) as Hc2 by done.
  assert (ran S (same S (obs s)) s s2) as Hr02 by by eapply ran_trans.
  pose proof (lookup_target s s2 _ Hs1 Hc2 Hl) as [Hfound Habsent].
  apply wp_bind. apply wp_if; intros E5; bool_hyps.
  { destruct (Hfound E5) as (i & d & b & -> & Ho & Hlk & Hct & Ht). cbv zeta. apply wp_if; intros E6.
    { apply wp_early, set_failed; [done|done|done|]. intros _ _ _ _. left. split; [done|]. by eexists. }
    pose proof E6 as E6'. rewrite has_any_either in E6'. apply orb_false_iff in E6' as [Hk Hw]. specialize (Ht Hk Hw).
    apply wp_ret. cbv zeta. rewrite slot_of_id by apply Ht. apply set_slot_run; try done.
    - intros (o & Ho' & Hf). rewrite Hct in Ho'. injection Ho' as <-. simpl in Hf. congruence.
    - change (has_any (wt_hsm_vault_flags_of (md_label m)) WT_VAULT_FLAG_SEALED) with (is_sealed m).
      destruct (is_sealed m) eqn:Esl; [by exists d|]. intros o. rewrite Ho. by intros [= <-]. }
  apply wp_if; intros E6; bool_hyps.
  - destruct (Habsent E6) as [Hct Hfree]. apply wp_if; intros E7; bool_hyps.
    { apply wp_early, set_failed; [done|done|done|]. intros _ _ _ _. right. split_and!; [done|done|]. by apply (lu_full _ _ _ Hl). }
    destruct (Hfree E7) as (i & -> & Ho & Ht). apply wp_ret. cbv zeta. rewrite slot_of_id by apply Ht. apply (set_slot_run false s s2 i m); try done.
    + intros (o & Ho' & _). congruence.
    + intros o. by rewrite Ho.
  - apply wp_early, set_failed; [done|done|done|]. intros HRel _ _ _. by destruct (HRl HRel).
Qed.
End operation.
End set.
