(* ===== verification/VaultOps.v ===== *)
(** * Reading and removing objects

    [wt_hsm_vault_get] and [wt_hsm_vault_get_info] answer from the directory and
    leave it as it is; [wt_hsm_vault_remove] takes the object out in one step, or
    not at all. *)

From Stdlib Require Import ZArith Lia.
From stdpp Require Import base list numbers option sets gmap.
From S2P Require Import Prelude Buffers CState FfmTypes Service VaultStore VaultSpec VaultFacts VaultRun VaultSet.

Section ops.
Context {N : Type} `{!WhNvm N, !NvmOk N} (S : wt_vault_sealer) `{!SealerOk S}.
Implicit Types (V : store) (s : vault N) (P : store → Prop).
Context (owner sub uid : Z).
Let k : vkey := (owner, sub, uid).

(** An operation that found the store in state [s], left it in [s'], and wrote
    nothing that counts. *)
Definition observed s s' : Prop := ran S (same S (obs s)) s s' ∧ same S (obs s) (obs s').
Lemma observed_trans s s1 s2 : observed s s1 → ran S (same S (obs s)) s1 s2 → obs s2 = obs s1 → observed s s2.
Proof. intros [Hr Hs] Hr2 Ho. split; [by eapply ran_trans|by rewrite Ho]. Qed.

(** The directory is loaded, and the object is looked up. *)
Definition found (s s1 : vault N) (i : nat) (m : whNvmMetadata) (d : list Z) (b : option (list Z)) : Prop :=
  (i < slots)%nat ∧ obs s1 !! slot_id i = Some (m, d) ∧ label_key (md_label m) = Some k ∧ object_wf (m, d) ∧
  content S (obs s) k = Some (wt_hsm_vault_flags_of (md_label m), b) ∧ b = contents S (counter_of (table_in (obs s1)) i) (m, d) ∧
  (is_key m = false → is_sealed m = true → authentic S (counter_of (table_in (obs s1)) i) (m, d) = true).
Lemma lookup_found s s1 st id m free : same S (obs s) (obs s1) → clean (table_in (obs s1)) s1 →
  looked_up (obs s1) k (st, (id, m), free) →
  (st = PSA_SUCCESS → ∃ i d b, id = slot_id i ∧ found s s1 i m d b) ∧ (st = PSA_ERROR_DOES_NOT_EXIST → content S (obs s) k = None).
Proof.
  intros Hs Hc Hl. pose proof (lookup_target S owner sub uid s s1 _ Hs Hc Hl) as [_ Ha]. split; [|by (intros E; apply Ha)].
  intros E. destruct (lu_found _ _ _ Hl E) as (i & d & Hi & Eid & Ho & Hlk). simpl in *. destruct Hc as (_ & Hun & _).
  pose proof (sm_inv _ _ _ Hs) as HI. exists i, d, (contents S (counter_of (table_in (obs s1)) i) (m, d)).
  split; [done|]. split_and!; try done.
  - by apply (vi_objects _ _ _ (proj2 HI) i).
  - rewrite <-(same_content S _ _ Hs). eapply entry_content; [done|exact Hi|]. rewrite (entry_free S _ i (m, d)) by done.
    unfold entry_of. cbn [fst]. by rewrite Hlk.
  - intros Hk Hse. apply (vi_sealed _ _ _ (proj2 HI) i); [done| |done|done|by eexists]. by rewrite current_free.
Qed.

Lemma find_run {A} (fail : Z → A) s (body : wt_hsm_vault_table → Z → whNvmMetadata → prog (vault N) A A) (Q : A → vault N → Prop) :
  env S s → vinv S (obs s) → g_vault_nvm s = true →
  (∀ st s1, observed s s1 → st ≠ PSA_SUCCESS →
     (smooth S s1 → g_vault_sealer s = Some S → st = PSA_ERROR_DOES_NOT_EXIST ∧ content S (obs s) k = None) → Q (fail st) s1) →
  (∀ i m d b s1, observed s s1 → clean (table_in (obs s1)) s1 → found s s1 i m d b → wp (body (table_in (obs s1)) (slot_id i) m) Q Q s1) →
  wp ('(status, table) ← call wt_hsm_vault_table_load;
      if negb (status =? PSA_SUCCESS) then mret (fail status) else
      '(status, (id, meta), _) ← call (wt_hsm_vault_lookup owner sub uid);
      if negb (status =? PSA_SUCCESS) then mret (fail status) else body table id meta) Q Q s.
Proof.
  intros He HI Hb Hfail Hbody. pose proof (same_refl _ _ HI) as Hs0.
  wp_do (table_load_run S (obs s)); [done|done|]. intros [st t] s1 [(Hr1 & Hs1 & Hc1) HR1]. simpl in Hc1, HR1.
  apply wp_if; intros E1; bool_hyps; [apply wp_ret, Hfail; [done|done|intros; by destruct E1; apply HR1]|].
  specialize (Hc1 E1). pose proof Hc1 as [<- _].
  wp_do (lookup_run S owner sub uid (same S (obs s)) s1); [apply Hr1|done|by rewrite (ran_bound _ _ _ _ Hr1)|].
  intros [[st2 [id m]] free] s2 (Hr2 & Ho2 & Hl & HR). rewrite <-Ho2 in *.
  assert (observed s s2) as Ho by (split; [by eapply ran_trans|done]).
  assert (clean (table_in (obs s2)) s2) as Hc2 by (destruct Hc1 as (_ & H1 & H2); rewrite <-Ho2 in H2; done).
  destruct (lookup_found s s2 st2 id m free Hs1 Hc2 Hl) as (Hfo & Hab).
  apply wp_if; intros E2; bool_hyps.
  - apply wp_ret, Hfail; [done|done|]. intros HRel _. destruct (HR HRel) as [?|Ed]; [done|]. split; [done|by apply Hab].
  - destruct (Hfo E2) as (i & d & b & -> & Hf). by eapply Hbody.
Qed.

(** ** Reading *)

(** The bytes of [d] that a read at [offset] into a buffer of [size] returns. *)
Definition part (offset size : Z) (d : list Z) : list Z := take (Z.to_nat size) (drop (Z.to_nat offset) d).
Record get_post (offset size : Z) s (r : Z * list Z) s' : Prop := {
  gp_observed : observed s s';
  gp_bytes : r.1 = PSA_SUCCESS → ∃ f d, content S (obs s) k = Some (f, Some d) ∧ offset ≤ Z.of_nat (length d) ∧ r.2 = part offset size d;
  gp_works : smooth S s' → g_vault_nvm s = true → g_vault_sealer s = Some S →
    r.1 = match content S (obs s) k with
          | None => PSA_ERROR_DOES_NOT_EXIST
          | Some (f, b) =>
            if has_any f WT_VAULT_FLAG_KEY then PSA_ERROR_NOT_PERMITTED
            else if Z.of_nat (length (default [] b)) <? offset then PSA_ERROR_INVALID_ARGUMENT else PSA_SUCCESS
          end;
}.

Lemma buf_read_part (d rest : list Z) offset size : 0 ≤ offset ≤ Z.of_nat (length d) → 0 ≤ size →
  buf_read (d ++ rest) offset (Z.min (Z.of_nat (length d) - offset) size) = Some (part offset size d).
Proof.
  intros Ho Hs. unfold buf_read. rewrite bool_decide_true by lia. rewrite length_app.
  rewrite (proj2 (Z.leb_le _ _)) by lia. simpl. f_equal. unfold part. rewrite drop_app_le by lia. rewrite take_app_le by (rewrite length_drop; lia).
  destruct (Z.le_ge_cases (Z.of_nat (length d) - offset) size).
  - rewrite Z.min_l by lia. by rewrite !take_ge by (rewrite length_drop; lia).
  - by rewrite Z.min_r by lia.
Qed.

(** The part of a read after the lookup: the answers that follow from the
    contents [b] of the object. *)
Lemma get_failed offset size s st s1 : observed s s1 → st ≠ PSA_SUCCESS →
  (smooth S s1 → g_vault_sealer s = Some S → st = PSA_ERROR_DOES_NOT_EXIST ∧ content S (obs s) k = None) →
  get_post offset size s (st, []) s1.
Proof. intros Ho Hn HR. constructor; [done|done|]. intros HRel _ Hse. by destruct (HR HRel Hse) as [-> ->]. Qed.
Lemma get_answer offset size s r s1 f b : observed s s1 → content S (obs s) k = Some (f, b) →
  (r.1 = PSA_SUCCESS → ∃ d, b = Some d ∧ offset ≤ Z.of_nat (length d) ∧ r.2 = part offset size d) →
  (smooth S s1 → g_vault_sealer s = Some S → r.1 = if has_any f WT_VAULT_FLAG_KEY then PSA_ERROR_NOT_PERMITTED
     else if Z.of_nat (length (default [] b)) <? offset then PSA_ERROR_INVALID_ARGUMENT else PSA_SUCCESS) →
  get_post offset size s r s1.
Proof.
  intros Ho Hc Hok HR. constructor; [done| |].
  - intros E. destruct (Hok E) as (d & -> & Hl & Hp). by exists f, d.
  - intros HRel _ Hse. rewrite Hc. by apply HR.
Qed.

Lemma get_run offset size s : env S s → vinv S (obs s) → 0 ≤ offset → 0 ≤ size →
  fwp (wt_hsm_vault_get owner sub uid offset size) (get_post offset size s) s.
Proof.
  intros He HI Hoff Hsz. pose proof (same_refl _ _ HI) as Hs0. apply fwp_fn, wp_bind, wp_gets.
  destruct (g_vault_nvm s) eqn:Hb; cbn [negb].
  2:{ apply wp_ret. constructor; [split; [by apply ran_refl|done]|done|congruence]. }
  apply (find_run (λ st, (st, []))); try done. { intros st s1 Ho Hn HR. by apply get_failed. }
  intros i m d b s1 Ho Hc (Hi & Hd & Hlk & Hw & Hct & Eb & Hau). pose proof Hw as (Hlen & Hl16 & Hpol). simpl in Hlen, Hl16, Hpol.
  destruct Hc as (_ & Hun & _). pose proof (proj2 Ho) as Hs1. pose proof (vinv_table _ _ (sm_inv _ _ _ Hs1)) as Ht.
  cbv zeta. apply wp_if; intros Ek.
  { apply wp_ret. eapply get_answer; [done|done|done|]. intros _ _. by rewrite Ek. }
  destruct (Hpol Ek) as [Hexp _]. unfold contents in Eb. cbn [fst snd] in Eb. unfold is_key, is_sealed in Eb. rewrite Ek in Eb.
  apply wp_if; intros Es; rewrite Es in Eb.
  - specialize (Hau Ek Es). rewrite slot_of_id by done. apply wp_bind, wp_slot_get; [done|done|].
    set (c := counter_of _ i) in *. apply wp_if; intros E1; bool_hyps. { unfold authentic in Hau. by rewrite E1 in Hau. }
    wp_do (read_sealed_run S (slot_id i) m d c (same S (obs s))); [apply Ho|done|done|done|].
    intros st s2 (Hok & Hne & Hsig & Hper & _ & HR). apply wp_if; intros E2; bool_hyps.
    + destruct (Hne E2) as [Hr2 Ho2]. apply wp_ret. eapply get_answer; [by eapply observed_trans|done|done|]. intros HRel Hse.
      rewrite <-(ran_sealer _ _ _ _ (proj1 Ho)) in Hse. destruct (HR HRel Hse) as [?|[E3|E3]]; [done| |].
      * rewrite Hsig in Hau by done. done.
      * rewrite Hper in Hexp by done. done.
    + destruct (Hok E2) as (pt & s3 & -> & Hr3 & Ho3 & _ & _ & _ & Hop & Hl).
      assert (md_len m - WT_VAULT_SEAL_TAG_LEN ≤ WT_VAULT_OBJECT_MAX) as Hn. { unfold authentic in Hau. simpl in Hau. bool_hyps. lia. }
      assert (observed s s3) as Ho03 by by eapply observed_trans. rewrite Hop in Eb.
      apply wp_if; intros E3; bool_hyps.
      * wp_do (zeroize_run S pt s3); [apply Hr3|done|done|]. intros [] ? ->. apply wp_ret.
        eapply get_answer; [done|done|done|]. intros _ _. rewrite Ek, Eb. simpl. by rewrite (proj2 (Z.ltb_lt _ _)) by lia.
      * apply wp_bind, wp_gets, wp_bind. eapply wp_defined.
        { cbn [opened g_vault_pt set_field]. rewrite <-Hl. apply buf_read_part; lia. }
        wp_do (zeroize_run S pt s3); [apply Hr3|done|done|]. intros [] ? ->. apply wp_ret.
        eapply get_answer; [done|done|intros _; exists pt; split_and!; [done|lia|done]|]. intros _ _. rewrite Ek, Eb. simpl.
        by rewrite (proj2 (Z.ltb_ge _ _)) by lia.
  - rewrite Hlen. apply wp_if; intros E1; bool_hyps.
    { apply wp_ret. eapply get_answer; [done|done|done|]. intros _ _. rewrite Ek, Eb. simpl. by rewrite (proj2 (Z.ltb_lt _ _)) by lia. }
    pose proof (buf_read_part d [] offset size) as Hbr. rewrite app_nil_r in Hbr. specialize (Hbr ltac:(lia) Hsz).
    apply wp_if; intros E2; bool_hyps.
    + rewrite !u16_small by lia. apply wp_bind, wp_call. apply (run_nvm S _ (same S (obs s))); [apply Ho|]. intros n2 [rc bytes] E3.
      destruct (read_checked_ok (slot_id i) offset (Z.min (Z.of_nat (length d) - offset) size) (vl_nvm s1) n2 rc bytes) as (Eo & _ & Hok & _ & Hac); [lia|lia|done|].
      fold (obs s1) in Eo, Hok, Hac. split; [by rewrite Eo|]. intros s2 Hr2 Ho2 _. rewrite Eo in Ho2.
      assert (observed s s2) as Ho02 by by eapply observed_trans. cbv zeta. apply wp_if; intros E4; bool_hyps; apply wp_ret.
      * eapply get_answer; [done|done|done|]. intros HRel _. destruct E4.
        pose proof (read_checked_works (works_before _ _ _ _ (ran_env _ _ _ _ (proj1 Ho)) Hr2 HRel) _ _ _ m d _ Hd Hbr) as Hwk. rewrite E3 in Hwk. simpl in Hwk.
        rewrite Hexp in Hwk. rewrite Hwk. apply map_ok.
      * apply map_err_ok in E4. destruct (Hok E4) as (m' & d' & Hd' & Hb' & _). assert (d' = d) as -> by congruence.
        eapply get_answer; [done|done|intros _; exists d; split_and!; [done|lia|simpl; congruence]|]. intros _ _. rewrite Ek, Eb. simpl.
        by rewrite (proj2 (Z.ltb_ge _ _)) by lia.
    + apply wp_ret. eapply get_answer; [done|done| |].
      * intros _. exists d. split_and!; [done|lia|]. unfold part. simpl. symmetry. apply nil_length_inv. rewrite length_take, length_drop. lia.
      * intros _ _. rewrite Ek, Eb. simpl. by rewrite (proj2 (Z.ltb_ge _ _)) by lia.
Qed.

(** The size of an object is that of its contents. *)
Record info_post s (r : Z * wt_vault_info) s' : Prop := {
  ip_observed : observed s s';
  ip_info : r.1 = PSA_SUCCESS → ∃ f b, content S (obs s) k = Some (f, b) ∧ vi_flags r.2 = f ∧
    vi_capacity r.2 = vi_size r.2 ∧ (∀ d, b = Some d → vi_size r.2 = Z.of_nat (length d));
  ip_absent : smooth S s' → g_vault_nvm s = true → g_vault_sealer s = Some S → content S (obs s) k = None → r.1 = PSA_ERROR_DOES_NOT_EXIST;
}.
Lemma get_info_run s : env S s → vinv S (obs s) → fwp (wt_hsm_vault_get_info owner sub uid) (info_post s) s.
Proof.
  intros He HI. pose proof (same_refl _ _ HI) as Hs0. apply fwp_fn, wp_bind, wp_gets.
  destruct (g_vault_nvm s) eqn:Hb; cbn [negb].
  2:{ apply wp_ret. constructor; [split; [by apply ran_refl|done]|done|congruence]. }
  apply (find_run (λ st, (st, zero_info)) s (λ _ _ m, _)); try done.
  { intros st s1 Ho Hn HR. constructor; [done|done|]. intros HRel _ Hse _. by apply HR. }
  intros i m d b s1 Ho Hc (Hi & Hd & Hlk & (Hlen & _ & _) & Hct & Eb & Hau). simpl in Hlen. cbv zeta.
  assert (∀ r, (r.1 = PSA_SUCCESS → vi_flags r.2 = wt_hsm_vault_flags_of (md_label m) ∧ vi_capacity r.2 = vi_size r.2 ∧
    (∀ d, b = Some d → vi_size r.2 = Z.of_nat (length d))) → info_post s r s1) as Hans.
  { intros r Hr. constructor; [done| |congruence]. intros E. destruct (Hr E) as (H1 & H2 & H3). by eexists _, b. }
  unfold contents in Eb. cbn [fst snd] in Eb. unfold is_key, is_sealed in *. apply wp_if; intros Es; rewrite Es in Eb.
  - apply wp_if; intros E1; bool_hyps; apply wp_ret, Hans; [done|]. intros _. split_and!; [done|done|]. simpl. intros d' Ed.
    destruct (has_any _ WT_VAULT_FLAG_KEY) eqn:Ek; [congruence|]. rewrite Ed in Eb. symmetry in Eb. apply opens_length in Eb. lia.
  - apply wp_ret, Hans. intros _. split_and!; [done|done|]. simpl. intros d' Ed.
    destruct (has_any _ WT_VAULT_FLAG_KEY) eqn:Ek; [congruence|]. congruence.
Qed.

(** ** Removing *)

Record remove_post s (st : Z) s' : Prop := {
  rp_outcome : outcome S k None s st s';
  rp_protected : protected (content S (obs s)) k → observed s s' ∧ st ≠ PSA_SUCCESS;
  rp_works : smooth S s' → g_vault_nvm s = true → g_vault_sealer s = Some S →
    st = match content S (obs s) k with
         | None => PSA_ERROR_DOES_NOT_EXIST
         | Some (f, _) => if has_any f (WT_VAULT_FLAG_KEY .| WT_VAULT_FLAG_WRITE_ONCE) then PSA_ERROR_NOT_PERMITTED else PSA_SUCCESS
         end;
}.
Lemma remove_failed s st s' : observed s s' → st ≠ PSA_SUCCESS →
  (smooth S s' → g_vault_nvm s = true → g_vault_sealer s = Some S →
    st = match content S (obs s) k with
         | None => PSA_ERROR_DOES_NOT_EXIST
         | Some (f, _) => if has_any f (WT_VAULT_FLAG_KEY .| WT_VAULT_FLAG_WRITE_ONCE) then PSA_ERROR_NOT_PERMITTED else PSA_SUCCESS
         end) → remove_post s st s'.
Proof. intros [Hr Hs] Hn HR. constructor; [by apply same_outcome|done|done]. Qed.

(** The object [(m, d)] of slot [i] is to be removed, in state [s1]. *)
Record removing (s s1 : vault N) (i : nat) (m : whNvmMetadata) (d : list Z) : Prop := {
  rm_observed : observed s s1;
  rm_slot : (i < slots)%nat;
  rm_object : obs s1 !! slot_id i = Some (m, d);
  rm_label : label_key (md_label m) = Some k;
  rm_wf : object_wf (m, d);
  rm_unmarked : vt_reserved (table_in (obs s1)) = 0;
  rm_unstaged : obs s1 !! WT_HSM_VAULT_STAGE_ID = None;
  rm_key : is_key m = false;
  rm_once : is_once m = false;
  rm_content : ∃ b, content S (obs s) k = Some (wt_hsm_vault_flags_of (md_label m), b);
}.
Section removal.
Context (s s1 : vault N) (i : nat) (m : whNvmMetadata) (d : list Z) (R : removing s s1 i m d).
Let V := obs s1.
Let t := table_in V.
Let P := allowed S (content S (obs s)) k None (global (obs s)).
Let I : vinv S V := sm_inv _ _ _ (proj2 (rm_observed _ _ _ _ _ R)).
Let global_same : global V = global (obs s) := sm_global _ _ _ (proj2 (rm_observed _ _ _ _ _ R)).

Lemma removing_kept V' : vinv S V' → dir S V' = dir S V → global V' = global V → P V'.
Proof.
  intros HI HD Hg. constructor; [done|rewrite Hg, global_same; lia|]. left. intros k'.
  rewrite <-(same_content S _ _ (proj2 (rm_observed _ _ _ _ _ R))). unfold content. by rewrite HD.
Qed.
Lemma removed_content V' : dir S V' = <[i := None]> (dir S V) → ∀ k', content S V' k' = updated k None (content S (obs s)) k'.
Proof.
  intros HD k'. rewrite <-(same_content S _ _ (proj2 (rm_observed _ _ _ _ _ R))). unfold content, updated. rewrite HD.
  destruct (found_entry S V i m d k I) as [b Hb]; try apply R.
  eapply find_in_remove; [by apply vinv_keys_apart|]. rewrite dir_lookup by apply R. f_equal. exact Hb.
Qed.
Lemma removed_allowed V' : vinv S V' → dir S V' = <[i := None]> (dir S V) → global V' = global V → P V'.
Proof. intros HI HD Hg. constructor; [done|rewrite Hg, global_same; lia|]. right. by apply removed_content. Qed.

Lemma removal_post st s' : ran S P s1 s' → P (obs s') →
  (st = PSA_SUCCESS → ∀ k', content S (obs s') k' = updated k None (content S (obs s)) k') →
  (smooth S s' → g_vault_sealer s = Some S → st = PSA_SUCCESS) → remove_post s st s'.
Proof.
  intros Hr HP Hok HR. pose proof R as [[Hr1 Hs1] Hi Ho Hl Hw Hun Hst Hk Hon [b Hb]].
  assert (has_any (wt_hsm_vault_flags_of (md_label m)) (WT_VAULT_FLAG_KEY .| WT_VAULT_FLAG_WRITE_ONCE) = false) as Hf.
  { rewrite has_any_either. unfold is_key, is_once in Hk, Hon. by rewrite Hk, Hon. }
  constructor.
  - split_and!; [|done|done]. eapply went_trans; [by apply same_went|]. apply ran_went; [done| |].
    + intros V' HV'. fold V. rewrite global_same. apply HV'.
    + fold V. rewrite global_same. apply HP.
  - intros (o & Ho' & Hf'). rewrite Hb in Ho'. injection Ho' as <-. simpl in Hf'. congruence.
  - intros HRel _ Hse. rewrite Hb, Hf. by apply HR.
Qed.

(** Destroying the live object, in a state where the store is [V1]. *)
Lemma destroy_checked_run s2 P' : env S s2 → P' (obs s2) → P' (delete (slot_id i) (obs s2)) → obs s2 !! slot_id i = Some (m, d) →
  fwp (nvm (wh_Nvm_DestroyObjectsChecked [slot_id i])) (λ rc s', ran S P' s2 s' ∧
    (obs s' = obs s2 ∧ rc ≠ WH_ERROR_OK ∨ obs s' = delete (slot_id i) (obs s2)) ∧ (smooth S s' → rc = WH_ERROR_OK)) s2.
Proof.
  intros He HP HP' Ho. apply (run_nvm S _ P'); [done|]. intros n rc E.
  assert (works_at (vl_nvm s2) → rc = WH_ERROR_OK) as HR.
  { intros Hwk. pose proof (destroy_checked_works Hwk (slot_id i) m d Ho) as Hw. rewrite E in Hw. apply Hw.
    destruct (rm_wf _ _ _ _ _ R) as (_ & _ & Hp). by apply Hp; apply R. }
  destruct (destroy_checked_ok _ _ _ _ E) as [(Eo & Hrc & _)|Eo]; simpl in Eo; fold (obs s2) in Eo; (split; [by rewrite Eo|]); intros s' Hr Ho' _;
    (split_and!; [done| |intros Hsm; by eapply HR, works_before]).
  - left. split; [congruence|done].
  - right. congruence.
Qed.

Lemma remove_plain_run : is_sealed m = false →
  wp (rc ← call (nvm (wh_Nvm_DestroyObjectsChecked [slot_id i]));
      let status := wt_hsm_vault_map_err rc in
      if negb (status =? PSA_SUCCESS) then mret tt;; mret status else mret PSA_SUCCESS) (remove_post s) (remove_post s) s1.
Proof.
  intros Hse. destruct (object_drop S V I i) as [I2 D2]; [left; apply R|apply R|].
  assert (global (delete (slot_id i) V) = global V) as Eg. { unfold global. by rewrite table_in_delete by (by apply slot_not_table; apply R). }
  assert (P V) as HPV by by apply removing_kept. assert (P (delete (slot_id i) V)) as HP2 by by apply removed_allowed.
  wp_do (destroy_checked_run s1 P); [apply R|done|done|apply R|]. intros rc s2 (Hr2 & Ho2 & HR2). cbv zeta.
  apply wp_if; intros E1; bool_hyps.
  - apply wp_bind, wp_ret, wp_ret, removal_post; [done|by destruct Ho2 as [[-> _]| ->]|done|].
    intros HRel _. rewrite HR2 by done. apply map_ok.
  - apply map_err_ok in E1. destruct Ho2 as [[_ ?]|Ho2]; [done|]. apply wp_ret, removal_post; [done|by rewrite Ho2| |done].
    intros _. rewrite Ho2. by apply removed_content.
Qed.

(** With the mark, the object is out of the directory. *)
Let t' := t <| vt_reserved := WT_HSM_VAULT_DELETE_MARKER_BASE + Z.of_nat i + 1 |>.
Let V1 := table_put t' V.
Lemma removal_marked : table_wf t' ∧ table_in V1 = t' ∧ writes_dir S i None V V1 ∧ global V1 = global V ∧ P V1 ∧
  V1 !! slot_id i = Some (m, d) ∧ u32 (WT_HSM_VAULT_DELETE_MARKER_BASE + Z.of_nat i + 1) = WT_HSM_VAULT_DELETE_MARKER_BASE + Z.of_nat i + 1.
Proof.
  pose proof (rm_slot _ _ _ _ _ R) as Hi. pose proof (vinv_table _ _ I) as Ht.
  assert (table_wf t') as Ht'.
  { apply table_wf_reserved; [done|]. unfold WT_HSM_VAULT_DELETE_MARKER_BASE, WT_HSM_VAULT_ID_COUNT, slots in *. lia. }
  assert (table_in V1 = t') as Et by by apply table_put_in.
  assert (writes_dir S i None V V1) as Hw.
  { apply (mark_delete S V I i (m, d)); try apply R.
    - unfold is_key_object. pose proof (rm_key _ _ _ _ _ R) as Hk. unfold is_key in Hk. cbn [fst]. rewrite Hk. by rewrite andb_false_r.
    - right. split; apply R. }
  assert (global V1 = global V) as Eg by (unfold global; by rewrite Et).
  split_and!; [done|done|done|done|by apply removed_allowed; [apply Hw|apply Hw|]|unfold V1; rewrite table_put_slot by done; apply R|].
  apply u32_small. unfold WT_HSM_VAULT_DELETE_MARKER_BASE, WT_HSM_VAULT_ID_COUNT, slots in *. lia.
Qed.

(** Taking the mark back. *)
Lemma cancel_run s2 st : ran S P s1 s2 → obs s2 = V1 ∨ obs s2 = delete (slot_id i) V1 → P (obs s2) → st ≠ PSA_SUCCESS → ¬ smooth S s2 →
  wp (cancel_delete owner sub uid (slot_id i) t';; mret st) (remove_post s) (remove_post s) s2.
Proof.
  intros Hr2 Ho2 HP2 Hst HnR. destruct removal_marked as (Ht' & Et & _ & _ & HP1 & Hd1 & _). pose proof (rm_slot _ _ _ _ _ R) as Hi.
  assert (∀ st' s', ran S P s2 s' → P (obs s') → st' ≠ PSA_SUCCESS → remove_post s st' s') as Hpost.
  { intros st' s' Hr' HP' Hn'. apply removal_post; [by eapply ran_trans|done|done|]. intros Hsm. destruct HnR. by eapply smooth_ran. }
  apply wp_bind. wp_do (metadata_run S (slot_id i) P); [apply Hr2|done|]. intros [rc m'] s3 (Hr3 & Ho3 & _ & Hok & _). simpl in Hok.
  rewrite <-Ho3 in *.
  apply wp_if; intros E1; [|by apply wp_ret, wp_ret, Hpost]. apply andb_true_iff in E1 as [E1 _]. bool_hyps.
  destruct (Hok E1) as [d' Hd']. destruct Ho2 as [Ho2|Ho2]; [|rewrite Ho2, lookup_delete_eq in Hd'; done].
  assert (m' = m ∧ d' = d) as [-> ->] by (split; congruence).
  rewrite slot_of_id by done. apply wp_bind, wp_slot_get; [done|done|].
  wp_do (read_sealed_run S (slot_id i) m d (counter_of t' i) P); [apply Hr3|done|done|exact (rm_wf _ _ _ _ _ R)|].
  intros st4 s4 (Hok4 & Hne4 & _). apply wp_when; intros E4; bool_hyps.
  2:{ destruct (Hne4 E4) as [Hr4 Ho4]. apply wp_ret, Hpost; [by eapply ran_trans|by rewrite Ho4|done]. }
  destruct (Hok4 E4) as (pt & s5 & -> & Hr5 & Ho5 & _ & Ha & _ & _ & Hl).
  assert (md_len m - WT_VAULT_SEAL_TAG_LEN ≤ WT_VAULT_OBJECT_MAX) as Hn. { unfold authentic in Ha. simpl in Ha. bool_hyps. lia. }
  wp_do (zeroize_run S pt s5); [apply Hr5|done|done|]. intros [] ? ->.
  assert (t' <| vt_reserved := 0 |> = t) as Et0. { pose proof (rm_unmarked _ _ _ _ _ R) as Hun. fold V t in Hun. rewrite <-Hun. by destruct t. }
  rewrite Et0. assert (table_put t (obs s5) = table_put t V) as Epp. { rewrite Ho5, Ho2. apply insert_insert_eq. }
  destruct (table_again S V I (rm_unmarked _ _ _ _ _ R)) as [I6 D6].
  assert (P (table_put t V)) as HP6. { apply removing_kept; [done|done|]. unfold global. fold t. by rewrite table_put_in by apply (vinv_table _ _ I). }
  wp_do (table_store_run S t P s5); [apply Hr5|by rewrite Ho5|by rewrite Epp|]. intros st6 s6 (Hr6 & _ & Ho6 & _).
  assert (ran S P s2 s6) as Hr16 by (eapply ran_trans; [done|by eapply ran_trans]).
  assert (P (obs s6)) as HP16. { destruct Ho6 as [->| ->]; [by rewrite Ho5|by rewrite Epp]. }
  by apply wp_when; intros E6; bool_hyps; [apply wp_early|apply wp_ret]; apply Hpost.
Qed.

Lemma remove_sealed_run : is_sealed m = true →
  wp ((status ← call (wt_hsm_vault_table_store t'); when (negb (status =? PSA_SUCCESS)) (early status));;
      rc ← call (nvm (wh_Nvm_DestroyObjectsChecked [slot_id i]));
      let status := wt_hsm_vault_map_err rc in
      if negb (status =? PSA_SUCCESS) then cancel_delete owner sub uid (slot_id i) t';; mret status else
      table ← slot_set t' (Z.of_nat i) 0;
      call (wt_hsm_vault_table_store (table <| vt_reserved := 0 |>))) (remove_post s) (remove_post s) s1.
Proof.
  intros Hse. destruct removal_marked as (Ht' & Et & [I1 D1] & Eg1 & HP1 & Hd1 & _). pose proof (rm_slot _ _ _ _ _ R) as Hi.
  assert (P V) as HPV by by apply removing_kept.
  apply wp_bind. wp_do (table_store_run S t' P s1); [apply R|done|done|]. intros st s2 (Hr2 & _ & Ho2 & Hok2 & HR2).
  apply wp_when; intros E1; bool_hyps.
  { apply wp_early, removal_post; [done|by destruct Ho2 as [->| ->]|done|by intros ? _; apply HR2]. }
  specialize (Hok2 E1). fold V in Hok2. fold V1 in Hok2.
  destruct (object_drop S V1 I1 i) as [I3 D3]; [by right; rewrite Et|done|]. rewrite D1, list_insert_insert_eq in D3.
  set (V3 := delete (slot_id i) V1) in *. assert (table_in V3 = t') as Et3. { unfold V3. by rewrite table_in_delete by (by apply slot_not_table). }
  assert (P V3) as HP3. { apply removed_allowed; [done|done|]. unfold global. by rewrite Et3. }
  wp_do (destroy_checked_run s2 P); [apply Hr2|by rewrite Hok2|by rewrite Hok2|by rewrite Hok2|]. rewrite Hok2.
  intros rc s3 (Hr3 & Ho3 & HR3). change (delete (slot_id i) V1) with V3 in Ho3. cbv zeta.
  assert (ran S P s1 s3) as Hr13 by by eapply ran_trans.
  apply wp_if; intros E3; bool_hyps.
  { apply cancel_run; [done|destruct Ho3 as [[? _]|?]; [by left|by right]|by destruct Ho3 as [[-> _]| ->]|done|].
    intros HRel. apply E3. rewrite HR3 by done. apply map_ok. }
  apply map_err_ok in E3. destruct Ho3 as [[_ ?]|Ho3]; [done|].
  apply wp_bind, wp_slot_set; [done|done|].
  set (t4 := t' <| vt_slot := <[i := 0]> (vt_slot t') |> <| vt_reserved := 0 |>).
  assert (table_wf t4) as Ht4. { apply table_wf_reserved; [by apply table_wf_slot|lia]. }
  assert (keeps_dir S V3 (table_put t4 V3)) as [I4 D4].
  { unfold t4. rewrite <-Et3. apply (unmark S V3 I3 i); [by rewrite Et3|done|]. intros o. unfold V3. by rewrite lookup_delete_eq. }
  rewrite D3 in D4. assert (P (table_put t4 V3)) as HP4. { apply removed_allowed; [done|done|]. unfold global. by rewrite table_put_in. }
  apply wp_call. eapply fwp_mono; [apply (table_store_run S t4 P s3); [apply Hr3|by rewrite Ho3|by rewrite Ho3]|].
  rewrite Ho3. intros st5 s5 (Hr5 & _ & Ho5 & _ & HR5). apply removal_post; [by eapply ran_trans|by destruct Ho5 as [->| ->]| |by intros ? _; apply HR5].
  intros _. by destruct Ho5 as [->| ->]; apply removed_content.
Qed.
End removal.

Lemma remove_run s : env S s → vinv S (obs s) → fwp (wt_hsm_vault_remove owner sub uid) (remove_post s) s.
Proof.
  intros He HI. pose proof (same_refl _ _ HI) as Hs0. apply fwp_fn, wp_bind, wp_gets.
  destruct (g_vault_nvm s) eqn:Hb; cbn [negb].
  2:{ apply wp_ret, remove_failed; [split; [by apply ran_refl|done]|done|congruence]. }
  apply (find_run (λ st, st)); try done.
  { intros st s1 Ho Hn HR. apply remove_failed; [done|done|]. intros HRel _ Hse. by destruct (HR HRel Hse) as [-> ->]. }
  intros i m d b s1 Ho Hc (Hi & Hd & Hlk & Hw & Hct & Eb & Hau). destruct Hc as (_ & Hun & Hst).
  cbv zeta. apply wp_if; intros Ek.
  { apply wp_ret, remove_failed; [done|done|]. intros _ _ _. by rewrite Hct, has_any_either, Ek. }
  apply orb_false_iff in Ek as [Ek Eo]. assert (removing s s1 i m d) as R by (constructor; try done; by eexists).
  rewrite slot_of_id by done. destruct (has_any (wt_hsm_vault_flags_of (md_label m)) WT_VAULT_FLAG_SEALED) eqn:Es.
  - destruct (removal_marked s s1 i m d R) as (_ & _ & _ & _ & _ & _ & Eu). rewrite Eu. by apply (remove_sealed_run s s1 i m d R).
  - apply wp_bind, wp_ret. by apply (remove_plain_run s s1 i m d R).
Qed.
End ops.
