(* ===== verification/VaultProps.v ===== *)
(** * The vault as an atomic map

    Sequences of storage operations, any of which may be cut short by a loss of
    power at any point, refine a map of objects with atomic operations. Objects
    that are write-once, and keys, survive all of them, and no counter is used
    for two ciphertexts. *)

From Stdlib Require Import ZArith Lia.
From stdpp Require Import base list numbers option sets gmap.
From S2P Require Import Prelude Buffers CState FfmTypes Service VaultStore VaultSpec VaultFacts VaultRun VaultSet VaultOps.

(** ** The specification *)

Definition catalog : Type := vkey → option vobj.
#[export] Instance catalog_equiv : Equiv catalog := λ C C', ∀ k, C k = C' k.
#[export] Instance catalog_equivalence : Equivalence (≡@{catalog}).
Proof. split; [done|by intros C C' E k|]. intros C1 C2 C3 E1 E2 k. by rewrite (E1 k). Qed.

Inductive vault_op :=
  | OpSet (k : vkey) (flags : Z) (data : list Z)
  | OpGet (k : vkey) (offset size : Z)
  | OpInfo (k : vkey)
  | OpRemove (k : vkey).
Inductive answer := Status (st : Z) | Bytes (st : Z) (bytes : list Z) | Info (st : Z) (info : wt_vault_info).
Definition op_key (op : vault_op) : vkey :=
  match op with OpSet k _ _ | OpGet k _ _ | OpInfo k | OpRemove k => k end.

(** What an operation does to the objects when it is carried out. *)
Definition effect (op : vault_op) (C : catalog) : catalog :=
  match op with
  | OpSet k flags data => updated k (Some (flags, Some data)) C
  | OpRemove k => updated k None C
  | OpGet _ _ _ | OpInfo _ => C
  end.
Definition applies (op : vault_op) (C C' : catalog) : Prop := ¬ protected C (op_key op) ∧ C' ≡ effect op C.
(** The answer [r] of [op] on the objects [C], and the objects after it. *)
Definition answers (op : vault_op) (C : catalog) (r : answer) (C' : catalog) : Prop :=
  match op, r with
  | (OpSet _ _ _ | OpRemove _), Status st => if st =? PSA_SUCCESS then applies op C C' else C' ≡ C ∨ applies op C C'
  | OpGet k offset size, Bytes st bytes => C' ≡ C ∧
    (st = PSA_SUCCESS → ∃ f d, C k = Some (f, Some d) ∧ offset ≤ Z.of_nat (length d) ∧ bytes = part offset size d)
  | OpInfo k, Info st i => C' ≡ C ∧
    (st = PSA_SUCCESS → ∃ f b, C k = Some (f, b) ∧ vi_flags i = f ∧ vi_capacity i = vi_size i ∧
                               (∀ d, b = Some d → vi_size i = Z.of_nat (length d)))
  | _, _ => False
  end.

(** An operation is answered, or lost with the power. *)
Inductive vault_ev := Answered (op : vault_op) (r : answer) | Lost (op : vault_op).
Inductive spec_run : catalog → list vault_ev → catalog → Prop :=
  | spec_nil C C' : C' ≡ C → spec_run C [] C'
  | spec_answered C op r C1 tr C' : answers op C r C1 → spec_run C1 tr C' → spec_run C (Answered op r :: tr) C'
  | spec_lost C op C1 tr C' : C1 ≡ C ∨ applies op C C1 → spec_run C1 tr C' → spec_run C (Lost op :: tr) C'.

#[export] Instance protected_proper : Proper ((≡) ==> (=) ==> iff) protected.
Proof. intros C C' E k ? <-. unfold protected. by rewrite (E k). Qed.
#[export] Instance effect_proper op : Proper ((≡) ==> (≡)) (effect op).
Proof. intros C C' E. destruct op; simpl; try done; intros k'; unfold updated; by case_bool_decide. Qed.
#[export] Instance applies_proper op : Proper ((≡) ==> (≡) ==> iff) (applies op).
Proof. intros C1 C1' E1 C2 C2' E2. unfold applies. by rewrite E1, E2. Qed.
Lemma protected_dec (C : catalog) k : protected C k ∨ ¬ protected C k.
Proof.
  unfold protected. destruct (C k) as [o|]; [|right; by intros (? & ? & _)].
  destruct (has_any o.1 (WT_VAULT_FLAG_KEY .| WT_VAULT_FLAG_WRITE_ONCE)) eqn:E; [left; by exists o|right]. intros (o' & [= <-] & ?). congruence.
Qed.

Lemma applies_other op C C' k : applies op C C' → k ≠ op_key op → C' k = C k.
Proof. intros [_ E] Hk. rewrite (E k). destruct op; simpl in *; try done; unfold updated; by rewrite bool_decide_false. Qed.
Lemma applies_protected op C C' k : applies op C C' → protected C k → C' k = C k.
Proof.
  intros Ha Hp. destruct (decide (k = op_key op)) as [->|Hne]; [by destruct Ha|by eapply applies_other].
Qed.
(** A step takes the operation's effect, or none. *)
Lemma answers_applies op C r C' : answers op C r C' → C' ≡ C ∨ applies op C C'.
Proof. destruct op, r; simpl; try done; try (destruct (_ =? _)); intuition. Qed.
Lemma spec_run_protected C tr C' k : spec_run C tr C' → protected C k → C' k = C k.
Proof.
  intros Hr. assert (∀ op C1 C2, C2 ≡ C1 ∨ applies op C1 C2 → protected C1 k → C2 k = C1 k) as Hs.
  { intros op C1 C2 [E|Ha] Hp; [by rewrite (E k)|by eapply applies_protected]. }
  assert (∀ C1 C2 : catalog, protected C1 k → C2 k = C1 k → protected C2 k) as Hp2 by (intros C1 C2 (o & ? & ?) E; exists o; by rewrite E).
  induction Hr as [C C' E|C op r C1 tr C' Ha Hr IH|C op C1 tr C' Ha Hr IH]; intros Hp; [by rewrite (E k)|..].
  - apply answers_applies in Ha. rewrite IH; [by eapply Hs|]. eapply Hp2; [done|by eapply Hs].
  - rewrite IH; [by eapply Hs|]. eapply Hp2; [done|by eapply Hs].
Qed.
Definition ev_op (e : vault_ev) : vault_op := match e with Answered op _ | Lost op => op end.
Lemma spec_run_other C tr C' k : spec_run C tr C' → Forall (λ e, op_key (ev_op e) ≠ k) tr → C' k = C k.
Proof.
  intros Hr. assert (∀ op C1 C2, C2 ≡ C1 ∨ applies op C1 C2 → op_key op ≠ k → C2 k = C1 k) as Hs.
  { intros op C1 C2 [E|Ha] Hp; [by rewrite (E k)|eapply applies_other; [done|congruence]]. }
  induction Hr as [C C' E|C op r C1 tr C' Ha Hr IH|C op C1 tr C' Ha Hr IH]; intros Hf; [by rewrite (E k)|..];
    apply Forall_cons in Hf as [Hk Hf]; rewrite IH by done; [|by eapply Hs]. apply answers_applies in Ha. by eapply Hs.
Qed.

(** ** Runs of the vault *)

Section runs.
Context {N : Type} `{!WhNvm N, !NvmOk N} (S : wt_vault_sealer) `{!SealerOk S}.
Implicit Types (V : store) (s : vault N).

Definition run_op (op : vault_op) : func (vault N) answer := fn (
  match op with
  | OpSet (owner, sub, uid) flags data => st ← call (wt_hsm_vault_set owner sub uid flags data); mret (Status st)
  | OpGet (owner, sub, uid) offset size => '(st, bytes) ← call (wt_hsm_vault_get owner sub uid offset size); mret (Bytes st bytes)
  | OpInfo (owner, sub, uid) => '(st, i) ← call (wt_hsm_vault_get_info owner sub uid); mret (Info st i)
  | OpRemove (owner, sub, uid) => st ← call (wt_hsm_vault_remove owner sub uid); mret (Status st)
  end).
(** The types of the arguments, and a counter that has not run out. *)
Definition op_ok (op : vault_op) V : Prop :=
  match op with
  | OpSet (owner, sub, uid) flags _ => label_ranges owner sub uid flags ∧ global V < 2 ^ 64 - 1
  | OpGet _ offset size => 0 ≤ offset ∧ 0 ≤ size
  | OpInfo _ | OpRemove _ => True
  end.
(** The vault after a restart on the store [n]. *)
Definition restarted (n : N) (log : list (vault_event N)) : vault N :=
  {| vl_nvm := n; g_vault_nvm := true; g_vault_sealer := Some S;
     g_vault_ct := zeros (Z.to_nat (WT_VAULT_OBJECT_MAX + WT_VAULT_SEAL_TAG_LEN)); g_vault_pt := zeros (Z.to_nat WT_VAULT_OBJECT_MAX);
     vl_log := log |}.
(** The power may fail after any of the store's operations. *)
Inductive vault_run : vault N → list vault_ev → vault N → Prop :=
  | run_nil s : vault_run s [] s
  | run_answered s op r s1 tr s' : op_ok op (obs s) → run_op op s = Some (s1, r) → vault_run s1 tr s' →
      vault_run s (Answered op r :: tr) s'
  | run_lost s op r s1 later log n tr s' : op_ok op (obs s) → run_op op s = Some (s1, r) → vl_log s1 = later ++ log →
      (∃ done, log = done ++ vl_log s) → last_store log = Some n →
      vault_run (restarted n log) tr s' → vault_run s (Lost op :: tr) s'.

Record vault_ok s : Prop := { vo_env : env S s; vo_inv : vinv S (obs s); vo_nonces : nonces s }.

(** What the store may be while [op] runs. *)
Record during (op : vault_op) (C : catalog) (g : Z) V : Prop := {
  du_inv : vinv S V;
  du_global : g ≤ global V;
  du_content : content S V ≡ C ∨ applies op C (content S V);
}.
Lemma allowed_during op C k v g V : allowed S C k v g V → op_key op = k → ¬ protected C k → effect op C ≡ updated k v C → during op C g V.
Proof.
  intros [HI Hg [E|E]] Hk Hp Hf; (constructor; [done|done|]); [by left|right]. split; [by rewrite Hk|]. rewrite Hf. exact E.
Qed.
Lemma same_during op s V : same S (obs s) V → during op (content S (obs s)) (global (obs s)) V.
Proof. intros Hs. constructor; [apply Hs|unfold global; rewrite (sm_global _ _ _ Hs); lia|]. left. by rewrite (same_content _ _ _ Hs). Qed.

Definition ran_op op s (r : answer) s' : Prop :=
  let P := during op (content S (obs s)) (global (obs s)) in
  went S P s s' ∧ P (obs s') ∧ answers op (content S (obs s)) r (content S (obs s')).
Lemma observed_op op s r s' : observed S s s' → (content S (obs s') ≡ content S (obs s) → answers op (content S (obs s)) r (content S (obs s'))) →
  ran_op op s r s'.
Proof.
  intros [Hr Hs] Ha. split_and!; [|by apply same_during|apply Ha; by rewrite (same_content _ _ _ Hs)].
  eapply went_mono; [intros V; apply same_during|]. apply ran_went; [done| |].
  - intros V HV. unfold global. rewrite (sm_global _ _ _ HV). lia.
  - unfold global. rewrite (sm_global _ _ _ Hs). lia.
Qed.
(** A write that is carried out, or refused because the object is protected. *)
Lemma write_op op k v s st s' : op_key op = k → (∀ C, effect op C ≡ updated k v C) →
  (∀ C C', answers op C (Status st) C' ↔ if st =? PSA_SUCCESS then applies op C C' else C' ≡ C ∨ applies op C C') →
  outcome S k v s st s' → (protected (content S (obs s)) k → observed S s s' ∧ st ≠ PSA_SUCCESS) → ran_op op s (Status st) s'.
Proof.
  intros Hk Hf Ha (Hw & HP & Hok) Hpr. destruct (protected_dec (content S (obs s)) k) as [Hp|Hp].
  - destruct (Hpr Hp) as [Ho Hn]. apply observed_op; [done|]. intros E. rewrite Ha, (proj2 (Z.eqb_neq _ _) Hn). by left.
  - assert (∀ V, allowed S (content S (obs s)) k v (global (obs s)) V → during op (content S (obs s)) (global (obs s)) V) as Hd.
    { intros V HV. by eapply allowed_during. }
    split_and!; [by eapply went_mono|by apply Hd|]. rewrite Ha. destruct (Z.eqb_spec st PSA_SUCCESS) as [E|E]; [|by apply Hd].
    split; [by rewrite Hk|]. rewrite Hf. exact (Hok E).
Qed.

(** Every operation is defined, and answers as specified. *)
Lemma op_run op s : env S s → vinv S (obs s) → op_ok op (obs s) → fwp (run_op op) (ran_op op s) s.
Proof.
  intros He HI Hok. apply fwp_fn. destruct op as [[[owner sub] uid] flags data|[[owner sub] uid] offset size|[[owner sub] uid]|[[owner sub] uid]].
  - destruct Hok as [L Hg]. wp_do (set_run S owner sub uid flags data); [done|done|done|by intros _|].
    intros st s' [Ho Hp _]. apply wp_ret. eapply (write_op (OpSet _ _ _)); try done. intros (Hr & Hs & Hn)%Hp. by split.
  - destruct Hok. wp_do (get_run S owner sub uid offset size); [done..|]. intros [st b] s' [Ho Hb _]. apply wp_ret.
    apply observed_op; [done|]. by intros E.
  - wp_do (get_info_run S owner sub uid); [done..|]. intros [st b] s' [Ho Hb _]. apply wp_ret.
    apply observed_op; [done|]. by intros E.
  - wp_do (remove_run S owner sub uid); [done..|].
    intros st s' [Ho Hp _]. apply wp_ret. by eapply (write_op (OpRemove _)).
Qed.

(** ** Power failures *)

Lemma nonce_last (log : list (vault_event N)) n : nonce_ok log → last_store log = Some n → used log ≤ global (objects n).
Proof.
  induction log as [|[m|c] log IH]; [done|..]; simpl.
  - intros [Hu _] [= <-]. exact Hu.
  - intros (Hu & Hg & Hn) Hl. specialize (IH Hn Hl). specialize (Hg n Hl). change (Z.max c (used log) ≤ global (objects n)). lia.
Qed.
Lemma nonce_suffix (evs log : list (vault_event N)) : nonce_ok (evs ++ log) → nonce_ok log.
Proof. induction evs as [|[m|c] evs IH]; [done|..]; simpl; intuition. Qed.
Lemma last_store_in (evs log : list (vault_event N)) n : last_store (evs ++ log) = Some n → EvStore n ∈ evs ∨ last_store log = Some n.
Proof.
  induction evs as [|[m|c] evs IH]; simpl; [by right|..].
  - intros [= <-]. left. by left.
  - intros Hl. destruct (IH Hl); [left; by right|by right].
Qed.
Lemma restart_ok op s r s1 later log n : vault_ok s → ran_op op s r s1 → vl_log s1 = later ++ log → (∃ evs, log = evs ++ vl_log s) →
  last_store log = Some n → vault_ok (restarted n log) ∧ during op (content S (obs s)) (global (obs s)) (objects n).
Proof.
  intros [He HI Hn] (Hw & _ & _) Hlog [evs ->] Hl.
  assert (during op (content S (obs s)) (global (obs s)) (objects n)) as Hd.
  { destruct (last_store_in _ _ _ Hl) as [Hin|Hls].
    - destruct (went_log _ _ _ _ Hw) as (all & Hall & Hf). rewrite Hlog, app_assoc in Hall. apply app_inv_tail in Hall as <-.
      apply (proj1 (Forall_forall _ _) (proj2 (proj1 (Forall_app _ _ _) Hf)) (EvStore n)). done.
    - rewrite (env_log _ _ He) in Hls. injection Hls as <-. apply same_during. by apply same_refl. }
  split; [|done]. assert (nonce_ok (evs ++ vl_log s)) as Hok.
  { eapply nonce_suffix. rewrite <-Hlog. by apply (went_nonces _ _ _ _ Hw). }
  constructor; [|apply Hd|].
  - constructor; [done|by vm_compute|done|by right].
  - split; [done|]. by apply nonce_last.
Qed.

Lemma run_ok s tr s' : vault_run s tr s' → vault_ok s → vault_ok s' ∧ spec_run (content S (obs s)) tr (content S (obs s')).
Proof.
  induction 1 as [s|s op r s1 tr s' Hop Hrun _ IH|s op r s1 later log n tr s' Hop Hrun Hlog Hdone Hlast _ IH]; intros Hok.
  - split; [done|by apply spec_nil].
  - pose proof Hok as [He HI Hn]. pose proof (fwp_elim _ _ _ _ _ (op_run op s He HI Hop) Hrun) as (Hw & Hd & Ha).
    destruct IH as [Hok' Hs']; [|split; [done|by eapply spec_answered]].
    constructor; [apply Hw|apply Hd|by apply (went_nonces _ _ _ _ Hw)].
  - pose proof Hok as [He HI Hn]. pose proof (fwp_elim _ _ _ _ _ (op_run op s He HI Hop) Hrun) as Hran.
    destruct (restart_ok op s r s1 later log n Hok Hran Hlog Hdone Hlast) as [Hok1 Hd].
    destruct (IH Hok1) as [Hok' Hs']. split; [done|]. eapply spec_lost; [apply Hd|exact Hs'].
Qed.
Lemma nonce_nodup (log : list (vault_event N)) : nonce_ok log → NoDup (seals log) ∧ ∀ c, c ∈ seals log → c ≤ used log.
Proof.
  induction log as [|[m|c] log IH]; simpl.
  - intros _. split; [constructor|]. intros c Hc. by apply elem_of_nil in Hc.
  - intros [_ Hn]. by apply IH.
  - intros (Hu & _ & Hn). destruct (IH Hn) as [Hd Hle]. split.
    + constructor; [|done]. intros Hin%Hle. lia.
    + change (used (EvSeal c :: log)) with (Z.max c (used log)). intros c' [->|Hc]%elem_of_cons; [lia|]. specialize (Hle c' Hc). lia.
Qed.

(** A vault on an empty store. *)
Lemma empty_vault_ok n : objects n = ∅ → vault_ok (restarted n [EvStore n]).
Proof.
  intros Hn. assert (obs (restarted n [EvStore n]) = ∅) as Ho by done. assert (table_in ∅ = fresh_table) as Et by done.
  constructor.
  - constructor; [done|by vm_compute|done|by right].
  - rewrite Ho. assert (∀ i, (i < slots)%nat → current S fresh_table ∅ i = None) as Hc by (intros i Hi; by rewrite current_free).
    split; [by intros m d|]. rewrite Et. constructor; try (by intros; simplify_map_eq).
    + apply fresh_table_wf.
    + intros i j k o o' Hi _ Hli _. unfold entry in Hi. by rewrite Hc in Hi.
    + intros i o Hi. by rewrite Hc.
    + intros i Hr. exfalso. simpl in Hr. lia.
  - split; [|rewrite Ho; done]. simpl. split; [|done]. by rewrite Hn.
Qed.

(** ** Theorems *)

(** C11: the vault refines an atomic map of objects. In every well-formed state
    every operation is defined; and any sequence of storage operations, each
    answered or cut short by a loss of power after any write to the store and
    followed by a restart, is a sequence of the same operations on the map: an
    operation that returns success has its full effect, one that fails or is
    lost has its full effect or none, a read returns the bytes of the map. *)
Theorem vault_refines s : vault_ok s →
  (∀ op, op_ok op (obs s) → ∃ s1 r, run_op op s = Some (s1, r)) ∧
  (∀ tr s', vault_run s tr s' → spec_run (content S (obs s)) tr (content S (obs s'))).
Proof.
  intros Hok. split; [|intros tr s' Hr; by apply run_ok].
  intros op Hop. destruct (fwp_run _ _ _ (op_run op s (vo_env _ Hok) (vo_inv _ Hok) Hop)) as (s1 & r & E & _). eauto.
Qed.

(** C12: no counter is used for two ciphertexts: over any sequence of storage
    operations, failed, lost and repeated ones included, all ciphertexts are
    made with different counters, so no nonce of the cipher is used twice. *)
Theorem vault_nonces_fresh s tr s' : vault_ok s → vault_run s tr s' → NoDup (seals (vl_log s')).
Proof. intros Hok Hr. apply nonce_nodup, (vo_nonces _ (proj1 (run_ok s tr s' Hr Hok))). Qed.

(** C13: objects that are write-once, and keys, survive any sequence of storage
    operations and losses of power with their contents, and an operation on one
    object leaves the objects with other owners, clients or uids as they are. *)
Theorem vault_protects s tr s' k : vault_ok s → vault_run s tr s' →
  protected (content S (obs s)) k ∨ Forall (λ e, op_key (ev_op e) ≠ k) tr → content S (obs s') k = content S (obs s) k.
Proof. intros Hok Hr [Hp|Hf]; [eapply spec_run_protected|eapply spec_run_other]; try done; by apply run_ok. Qed.

(** C14: the store keeps its invariant over any sequence of storage operations
    and losses of power: the table and the objects are well formed, no two slots
    stand for the same object, every sealed object is authentic under the counter
    of its slot; and no plaintext is left in the vault's buffer. *)
Theorem vault_wellformed s tr s' : vault_ok s → vault_run s tr s' →
  vinv S (obs s') ∧ g_vault_pt s' = zeros (Z.to_nat WT_VAULT_OBJECT_MAX).
Proof. intros Hok Hr. destruct (run_ok s tr s' Hr Hok) as [[He HI _] _]. split; [done|apply He]. Qed.

(** C15: what is stored is read back. On a well-formed vault with its store and
    its cipher bound and the 64-bit counter not used up, storing an object that
    is not protected, with arguments in range, is defined, and so is a read of
    it from any offset within it into a buffer of any size. If both answer success the read gives
    exactly the stored bytes, on any store. And unless the store has failed or
    lacked room in one of the states it went through ([smooth]: in each of them
    its calls succeed, and it reports room for replacing an object and takes one
    more), the write succeeds if a slot is free or holds the object already, and
    after a write that succeeded the read succeeds. *)
Theorem vault_roundtrip s owner sub uid flags data offset size : vault_ok s →
  g_vault_nvm s = true → g_vault_sealer s = Some S → label_ranges owner sub uid flags → valid_set flags data →
  global (obs s) < 2 ^ 64 - 1 → ¬ protected (content S (obs s)) (owner, sub, uid) → 0 ≤ offset ≤ Z.of_nat (length data) → 0 ≤ size →
  ∃ st s1 st' bytes s2, wt_hsm_vault_set owner sub uid flags data s = Some (s1, st) ∧
    wt_hsm_vault_get owner sub uid offset size s1 = Some (s2, (st', bytes)) ∧
    (st = PSA_SUCCESS → st' = PSA_SUCCESS → bytes = part offset size data) ∧
    (smooth S s1 → st = PSA_SUCCESS ∨
      st = PSA_ERROR_INSUFFICIENT_STORAGE ∧ content S (obs s) (owner, sub, uid) = None ∧ ∀ i, (i < slots)%nat → obs s1 !! slot_id i ≠ None) ∧
    (smooth S s2 → st = PSA_SUCCESS → st' = PSA_SUCCESS).
Proof.
  intros [He HI _] Hb Hse L [Hv1 Hv2] Hg Hp Ho Hsz.
  destruct (fwp_run _ _ _ (set_run S owner sub uid flags data L s He HI (λ _, Hg))) as (s1 & st & E1 & [(Hw & Ha & Hok) _ Hwk]).
  destruct (fwp_run _ _ _ (get_run S owner sub uid offset size s1 (went_env _ _ _ _ Hw) (al_inv _ _ _ _ _ _ Ha) (proj1 Ho) Hsz)) as (s2 & [st' b] & E2 & [_ Hby Hwk2]).
  exists st, s1, st', b, s2. assert (st = PSA_SUCCESS → content S (obs s1) (owner, sub, uid) = Some (flags, Some data)) as Hnew.
  { intros Est. rewrite (Hok Est). unfold updated. by rewrite bool_decide_true. }
  split_and!; [done|done| | |].
  - intros Est Est'. destruct (Hby Est') as (f & d & Hc & _ & E). rewrite (Hnew Est) in Hc. by injection Hc as _ <-.
  - intros Hsm. destruct (Hwk Hsm Hb Hse) as [?|[[_ ?]|?]]; [done|by left|done|by right].
  - intros Hsm Est. rewrite (went_bound _ _ _ _ Hw), (went_sealer _ _ _ _ Hw), (Hnew Est) in Hwk2. simpl in Hwk2.
    rewrite (storage_flags_no_key flags Hv2), (proj2 (Z.ltb_ge _ _)) in Hwk2 by lia. by apply Hwk2.
Qed.
End runs.
