(* ===== verification/VaultDoorProps.v ===== *)
(** * The keystore door is confined

    Whatever the keystore's partition asks of the door, the objects of the
    storage clients, the counter table, the staged object and everything else
    outside the keystore's ids stay as they are, and the content and metadata of
    none of them is read. *)

From Stdlib Require Import ZArith Lia.
From stdpp Require Import base list numbers option sets gmap.
From S2P Require Import Prelude Buffers CState FfmTypes Service VaultStore VaultSpec VaultFacts VaultRun.

Inductive door_op :=
  | DoorAvailable | DoorMetadata (id : Z) | DoorAdd (meta : wt_vault_nvm_meta) (data : list Z)
  | DoorDestroy (ids : list Z) | DoorRead (id offset len : Z).
Inductive door_answer :=
  | DoorSpace (st : Z) (space : wt_vault_nvm_avail) | DoorStatus (st : Z) | DoorMeta (st : Z) (meta : wt_vault_nvm_meta) | DoorData (st : Z) (data : list Z).

Section door.
Context {N : Type} `{!WhNvm N, !NvmOk N} (S : wt_vault_sealer) `{!SealerOk S}.
Implicit Types (V : store) (s : vault N).

Definition run_door (op : door_op) : func (vault N) door_answer := fn (
  match op with
  | DoorAvailable => '(st, a) ← call wt_hsm_vault_nvm_get_available; mret (DoorSpace st a)
  | DoorMetadata id => '(st, m) ← call (wt_hsm_vault_nvm_get_metadata id); mret (DoorMeta st m)
  | DoorAdd meta data => st ← call (wt_hsm_vault_nvm_add_object meta data); mret (DoorStatus st)
  | DoorDestroy ids => st ← call (wt_hsm_vault_nvm_destroy ids); mret (DoorStatus st)
  | DoorRead id offset len => '(st, d) ← call (wt_hsm_vault_nvm_read id offset len); mret (DoorData st d)
  end).

(** The objects that do not belong to the keystore. *)
Definition hidden V (id : Z) : bool :=
  (wt_hsm_vault_nvm_id_class id =? 0) ||
  (wt_hsm_vault_nvm_id_class id =? 1) && match V !! id with Some (m, _) => negb (wt_hsm_vault_nvm_label_is_key (md_label m)) | None => false end.
Definition untouched V V' : Prop := ∀ id, hidden V id = true → V' !! id = V !! id.
(** What the door says of an object that is not the keystore's. *)
Definition placeholder (id : Z) : wt_vault_nvm_meta :=
  {| nm_id := id; nm_access := 0; nm_flags := 0; nm_len := 0; nm_label := nm_label zero_nvm_meta |}.
(** The space counts are those of the device for the whole store. *)
Definition space_of s (st : Z) (a : wt_vault_nvm_avail) : Prop :=
  let '(rc, (size, count, reclaim_size, reclaim_count)) := (wh_Nvm_GetAvailable (vl_nvm s)).2 in
  st = wt_hsm_vault_map_err rc ∧
  a = {| na_avail_size := size; na_reclaim_size := reclaim_size; na_avail_objects := count; na_reclaim_objects := reclaim_count |}.
(** What each answer may tell: of a hidden object, that its slot is taken, by a
    placeholder or a refusal; of the store, how much room is left. *)
Definition discreet s (op : door_op) (r : door_answer) : Prop :=
  match op, r with
  | DoorAvailable, DoorSpace st a => g_vault_nvm s = true → space_of s st a
  | DoorMetadata id, DoorMeta st m => hidden (obs s) id = true →
    st = PSA_SUCCESS ∧ m = placeholder id ∨ st ≠ PSA_SUCCESS ∧ m = zero_nvm_meta
  | DoorAdd meta _, DoorStatus st => st = PSA_SUCCESS → hidden (obs s) (nm_id meta) = false
  | DoorDestroy ids, DoorStatus st => st = PSA_SUCCESS → Forall (λ id, hidden (obs s) id = false) ids
  | DoorRead id offset len, DoorData st d =>
    (hidden (obs s) id = true → st ≠ PSA_SUCCESS ∧ d = []) ∧
    (st = PSA_SUCCESS → ∃ m d', obs s !! id = Some (m, d') ∧ buf_read d' (u16 offset) (u16 len) = Some d)
  | _, _ => False
  end.

Lemma hidden_not V id : wt_hsm_vault_nvm_id_class id ≠ 0 →
  (∀ m d, V !! id = Some (m, d) → wt_hsm_vault_nvm_id_class id = 1 → wt_hsm_vault_nvm_label_is_key (md_label m) = true) → hidden V id = false.
Proof.
  intros H0 H1. unfold hidden. rewrite (proj2 (Z.eqb_neq _ _) H0). simpl. destruct (Z.eqb_spec (wt_hsm_vault_nvm_id_class id) 1) as [E|]; [|done].
  destruct (V !! id) as [[m d]|]; [|done]. simpl. by rewrite (H1 m d).
Qed.
Lemma visible_run id P s : env S s → P (obs s) →
  fwp (wt_hsm_vault_nvm_visible id) (λ r s', ran S P s s' ∧ obs s' = obs s ∧
    (r.1 = PSA_SUCCESS → hidden (obs s) id = false ∧ ∃ d, obs s !! id = Some (r.2, d)) ∧
    (r.1 = PSA_ERROR_DOES_NOT_EXIST → hidden (obs s) id = false)) s.
Proof.
  intros He HP. apply fwp_fn. unfold wt_hsm_vault_nvm_visible. cbv zeta. apply wp_bind, wp_gets.
  apply wp_if; intros E1; [apply wp_ret; split_and!; [by apply ran_refl|done..]|].
  apply wp_if; intros E2; bool_hyps; [apply wp_ret; split_and!; [by apply ran_refl|done..]|].
  wp_do (metadata_run S id P); [done|done|]. intros [rc m] s1 (Hr & Ho & _ & Hok & Hnf & _). simpl in Hok, Hnf.
  apply wp_if; intros E3; bool_hyps.
  { apply wp_ret. split_and!; [done|done|by intros ?%map_err_ok|]. simpl. intros E4%map_notfound%Hnf.
    apply hidden_not; [done|]. rewrite E4. by intros m' d'. }
  destruct (Hok E3) as [d Hd]. apply wp_if; intros E4; apply wp_ret; (split_and!; [done|done| |done]); [done|].
  intros _. split; [|by eexists]. apply hidden_not; [done|]. rewrite Hd. intros m' d' [= <- <-] Ec. rewrite Ec in E4.
  by apply negb_false_iff in E4.
Qed.

(** Adding or destroying an object that is not hidden. *)
Lemma untouched_insert V id o : hidden V id = false → untouched V (<[id := o]> V).
Proof. intros Hh id' Hh'. rewrite lookup_insert_ne; [done|]. intros <-. congruence. Qed.
Lemma untouched_destroy V ids : Forall (λ id, hidden V id = false) ids → untouched V (foldr delete V ids).
Proof.
  induction 1 as [|id ids Hid _ IH]; [done|]. intros id' Hh'. simpl. rewrite lookup_delete_ne; [by apply IH|]. intros <-. congruence.
Qed.

Lemma reserve_object_run len P s : env S s → P (obs s) →
  fwp (wt_hsm_vault_reserve_object len) (λ st s', ran S P s s' ∧ obs s' = obs s) s.
Proof.
  intros He HP. apply fwp_fn, wp_bind, wp_gets. apply wp_if; intros _; [apply wp_ret; split; [by apply ran_refl|done]|].
  apply wp_call. eapply fwp_mono; [by apply (reserve_run S _ _ P)|]. by intros st s' (? & ? & _).
Qed.
(** A request confined to what is not hidden, with a discreet answer. *)
Definition confined (op : door_op) s (r : door_answer) s' : Prop :=
  (ran S (untouched (obs s)) s s' ∧ untouched (obs s) (obs s')) ∧ discreet s op r.

Lemma add_object_run meta data s : env S s →
  fwp (wt_hsm_vault_nvm_add_object meta data) (λ st s', confined (DoorAdd meta data) s (DoorStatus st) s') s.
Proof.
  intros He. set (P := untouched (obs s)). assert (P (obs s)) as HP by done.
  apply fwp_fn. unfold wt_hsm_vault_nvm_add_object. cbv zeta. apply wp_bind, wp_gets.
  apply wp_if; intros _; [apply wp_ret; split; [split; [by apply ran_refl|done]|done]|].
  apply wp_if; intros _; [apply wp_ret; split; [split; [by apply ran_refl|done]|done]|].
  apply wp_if; intros _; [apply wp_ret; split; [split; [by apply ran_refl|done]|done]|].
  wp_do (visible_run (nm_id meta) P); [done|done|]. intros [st m] s1 (Hr1 & Ho1 & Hok1 & Hne1). simpl in Hok1.
  apply wp_if; intros E1; [apply wp_ret; split; [split; [done|by rewrite Ho1]|]; simpl; intros ->; by apply Hok1|].
  assert (hidden (obs s) (nm_id meta) = false) as Hh.
  { apply andb_false_iff in E1 as [E1|E1]; bool_hyps; [by apply Hok1|by apply Hne1]. }
  wp_do (reserve_object_run _ P); [apply Hr1|by rewrite Ho1|]. intros st2 s2 [Hr2 Ho2].
  assert (ran S P s s2) as Hr12 by by eapply ran_trans. assert (obs s2 = obs s) as Ho12 by congruence.
  apply wp_if; intros _; [apply wp_ret; split; [split; [done|by rewrite Ho12]|by intros _]|].
  apply wp_bind, wp_call. apply (run_nvm S _ P); [apply Hr2|]. intros n rc E2.
  assert (P (objects n)) as Hn.
  { destruct (add_ok _ _ _ _ _ E2) as [[Eo _]|Eo]; fold (obs s2) in Eo; rewrite Ho12 in Eo; rewrite Eo; [done|]. by apply untouched_insert. }
  split; [done|]. intros s3 Hr3 Ho3 _. apply wp_ret. split; [split; [by eapply ran_trans|by rewrite Ho3]|by intros _].
Qed.
Lemma destroy_run ids s : env S s →
  fwp (wt_hsm_vault_nvm_destroy ids) (λ st s', confined (DoorDestroy ids) s (DoorStatus st) s') s.
Proof.
  intros He. set (P := untouched (obs s)). assert (P (obs s)) as HP by done.
  apply fwp_fn. unfold wt_hsm_vault_nvm_destroy. apply wp_bind, wp_gets.
  apply wp_if; intros _; [apply wp_ret; split; [split; [by apply ran_refl|done]|done]|].
  apply wp_if; intros _; [apply wp_ret; split; [split; [by apply ran_refl|done]|done]|].
  apply wp_bind.
  apply (wp_for_each _ _ (λ l s', ran S P s s' ∧ obs s' = obs s ∧ Forall (λ id, hidden (obs s) id = false) l)).
  - split_and!; [by apply ran_refl|done|done].
  - intros l1 id l2 s1 _ (Hr1 & Ho1 & Hf1). wp_do (visible_run id P); [apply Hr1|by rewrite Ho1|].
    intros [st m] s2 (Hr2 & Ho2 & Hok2 & Hne2). rewrite Ho1 in *. assert (ran S P s s2) as Hr12 by by eapply ran_trans.
    apply wp_when; intros E1.
    { apply wp_early. split; [split; [done|by rewrite Ho2]|]. simpl. by intros ->. }
    split_and!; [done|done|]. apply Forall_app. split; [done|]. apply Forall_singleton.
    apply andb_false_iff in E1 as [E1|E1]; bool_hyps; [by apply Hok2|by apply Hne2].
  - intros s1 (Hr1 & Ho1 & Hf1). apply wp_bind, wp_call. apply (run_nvm S _ P); [apply Hr1|]. intros n rc E2.
    assert (P (objects n)) as Hn.
    { destruct (destroy_checked_ok _ _ _ _ E2) as [(Eo & _)|Eo]; fold (obs s1) in Eo; rewrite Ho1 in Eo; rewrite Eo; [done|]. by apply untouched_destroy. }
    split; [done|]. intros s3 Hr3 Ho3 _. apply wp_ret. split; [split; [by eapply ran_trans|by rewrite Ho3]|by intros _].
Qed.

Lemma get_available_run s : env S s →
  fwp wt_hsm_vault_nvm_get_available (λ r s', confined DoorAvailable s (DoorSpace r.1 r.2) s') s.
Proof.
  intros He. apply fwp_fn, wp_bind, wp_gets.
  apply wp_if; intros Eb; [apply wp_ret; split; [split; [by apply ran_refl|done]|]; simpl; intros Hb; by rewrite Hb in Eb|].
  apply wp_bind, wp_call. apply (run_nvm S _ (untouched (obs s))); [done|]. intros n [rc [[[a b] c] d]] E. rewrite (available_ok _ _ _ E).
  split; [done|]. intros s1 Hr Ho _. apply wp_ret. split; [split; [done|by rewrite Ho]|]. simpl. intros _. unfold space_of. by rewrite E.
Qed.
Lemma get_metadata_run id s : env S s →
  fwp (wt_hsm_vault_nvm_get_metadata id) (λ r s', confined (DoorMetadata id) s (DoorMeta r.1 r.2) s') s.
Proof.
  intros He. apply fwp_fn. wp_do (visible_run id (untouched (obs s))); [done|done|]. intros [st m] s1 (Hr & Ho & Hok & _). simpl in Hok.
  apply wp_if; intros E1; [apply wp_ret; split; [split; [done|by rewrite Ho]|by left]|].
  apply wp_if; intros E2; bool_hyps; apply wp_ret; (split; [split; [done|by rewrite Ho]|]); simpl; intros Hh; [by right|].
  destruct (Hok E2). congruence.
Qed.
Lemma nvm_read_run id offset len s : env S s →
  fwp (wt_hsm_vault_nvm_read id offset len) (λ r s', confined (DoorRead id offset len) s (DoorData r.1 r.2) s') s.
Proof.
  intros He. apply fwp_fn. wp_do (visible_run id (untouched (obs s))); [done|done|]. intros [st m] s1 (Hr & Ho & Hok & _). simpl in Hok.
  apply wp_if; intros E1; bool_hyps; [apply wp_ret; split; [split; [done|by rewrite Ho]|done]|].
  destruct (Hok E1) as (Hh & d & Hd).
  apply wp_if; intros E2; [apply wp_ret; split; [split; [done|by rewrite Ho]|done]|].
  apply wp_bind, wp_call. apply (run_nvm S _ (untouched (obs s))); [apply Hr|]. intros n [rc b] E3.
  destruct (read_ok id (u16 offset) (u16 len) (vl_nvm s1) n rc b) as (Eo & _ & Hb); [by apply Z.mod_pos_bound..|done|].
  fold (obs s1) in Eo, Hb. rewrite Ho in Eo, Hb. split; [by rewrite Eo|]. intros s2 Hr2 Ho2 _. apply wp_ret.
  split; [split; [by eapply ran_trans|by rewrite Ho2, Eo]|]. simpl. split; [congruence|]. by intros E4%map_err_ok%Hb.
Qed.
Lemma door_run op s : env S s → fwp (run_door op) (λ r s', confined op s r s') s.
Proof.
  intros He. apply fwp_fn. destruct op as [|id|meta data|ids|id offset len].
  - wp_do (get_available_run s); [done|]. intros [st a] s1 Hc. by apply wp_ret.
  - wp_do (get_metadata_run id s); [done|]. intros [st m] s1 Hc. by apply wp_ret.
  - wp_do (add_object_run meta data s); [done|]. intros st s1 Hc. by apply wp_ret.
  - wp_do (destroy_run ids s); [done|]. intros st s1 Hc. by apply wp_ret.
  - wp_do (nvm_read_run id offset len s); [done|]. intros [st m] s1 Hc. by apply wp_ret.
Qed.

(** C16: the keystore door is confined to the keystore's objects. Whatever its
    client asks for, the operation is defined; the storage objects, the counter
    table, the staged object and every other object that is not the keystore's
    are unchanged after each of its writes to the store; the bytes it returns are
    those of a keystore object; a request that names a hidden object gets a
    placeholder for its metadata or fails, without data. The space counts it
    reports, and so a refusal for want of room, are the device's for the whole
    store: how much room hidden objects take is not concealed. *)
Theorem door_confined op s : env S s →
  ∃ s' r, run_door op s = Some (s', r) ∧ ran S (untouched (obs s)) s s' ∧ untouched (obs s) (obs s') ∧ discreet s op r.
Proof. intros He. destruct (fwp_run _ _ _ (door_run op s He)) as (s' & r & E & [[] ?]). by exists s', r. Qed.
End door.
