(* ===== verification/VaultExample.v ===== *)
(** * A vault on a store in memory

    An object store and a cipher that meet the assumptions of the vault's
    theorems, and runs of the vault on them. *)

From Stdlib Require Import ZArith Lia.
From stdpp Require Import base list numbers option sets gmap.
From S2P Require Import Prelude Buffers CState FfmTypes Service VaultStore VaultSpec VaultFacts VaultRun VaultSet VaultOps VaultProps VaultDoorProps.

Definition mem_flag (f : Z) (o : object) : bool := has_any (md_flags o.1) f.
Definition mem_object_read (checked : bool) (id off len : Z) (n : store) : store * (Z * list Z) :=
  match n !! id with
  | None => (n, (-2104, []))
  | Some o =>
    if checked && mem_flag 4 o then (n, (-2109, [])) else
    if decide (0 ≤ off) then
      match buf_read o.2 off len with Some b => (n, (0, b)) | None => (n, (-2000, [])) end
    else (n, (-2000, []))
  end.
#[export] Instance mem_errors : WhErrors := {| WH_ERROR_OK := 0; WH_ERROR_BADARGS := -2000; WH_ERROR_ABORTED := -2005; WH_ERROR_LOCKED := -2100; WH_ERROR_NOTVERIFIED := -2102;
  WH_ERROR_NOTBLANK := -2103 |}.
(** 16 KiB and 64 objects; an object takes whole units of eight bytes. *)
Definition mem_storage (len : Z) : Z := (len + 7) / 8 * 8.
Definition mem_used (n : store) : Z := foldr (λ e a, mem_storage (md_len e.2.1) + a) 0 (map_to_list n).
Definition mem_has_room (len : Z) (n : store) : bool := (mem_used n + mem_storage len <=? 16384) && (Z.of_nat (size n) <? 64).
Definition mem_add (m : whNvmMetadata) (d : list Z) (n : store) : store * Z :=
  if mem_has_room (md_len m) n then (<[md_id m := (m, d)]> n, 0) else (n, -2108).
#[export] Instance mem_nvm : WhNvm store := {|
  WH_ERROR_NOTFOUND := -2104; WH_ERROR_ACCESS := -2109; WH_ERROR_NOSPACE := -2108; WH_NVM_ACCESS_ANY := 0xFFFF;
  WH_NVM_FLAGS_SENSITIVE := 2; WH_NVM_FLAGS_NONMODIFIABLE := 1; WH_NVM_FLAGS_NONDESTROYABLE := 8; WH_NVM_FLAGS_NONEXPORTABLE := 4;
  WH_NVM_ID_INVALID := 0; WH_KEYTYPE_MASK := 0xF000; WHFU_BYTES_PER_UNIT := 8; WHFU_BYTES2UNITS len := (len + 7) / 8;
  wh_Nvm_GetMetadata id n := (n, match n !! id with Some o => (0, o.1) | None => (-2104, zero_meta) end);
  wh_Nvm_Read := mem_object_read false;
  wh_Nvm_ReadChecked := mem_object_read true;
  wh_Nvm_AddObject := mem_add;
  wh_Nvm_AddObjectChecked m d n :=
    match n !! md_id m with
    | Some o => if mem_flag 1 o then (n, -2109) else mem_add m d n
    | None => mem_add m d n
    end;
  wh_Nvm_DestroyObjects ids n := (foldr delete n ids, 0);
  wh_Nvm_DestroyObjectsChecked ids n :=
    if existsb (λ id, match n !! id with Some _ => false | None => true end) ids then (n, -2104) else
    if existsb (λ id, match n !! id with Some o => mem_flag 8 o | None => false end) ids then (n, -2109)
    else (foldr delete n ids, 0);
  wh_Nvm_GetAvailable n := (n, (0, (16384 - mem_used n, 64 - Z.of_nat (size n), 0, 0)));
|}.

Lemma mem_object_read_ok checked id off len n n' rc bytes : 0 ≤ off → 0 ≤ len → mem_object_read checked id off len n = (n', (rc, bytes)) →
  n' = n ∧ Z.of_nat (length bytes) ≤ len ∧
  (rc = 0 → ∃ m d, n !! id = Some (m, d) ∧ buf_read d off len = Some bytes ∧ (checked = true → has_any (md_flags m) 4 = false)) ∧
  (rc = -2104 → n !! id = None) ∧
  (rc = -2109 → ∃ m d, n !! id = Some (m, d) ∧ has_any (md_flags m) 4 = true).
Proof.
  intros Ho Hl. unfold mem_object_read. destruct (n !! id) as [[m d]|] eqn:E; [|by intros [= <- <- <-]].
  destruct (checked && mem_flag 4 (m, d)) eqn:Ec.
  { intros [= <- <- <-]. apply andb_true_iff in Ec as [_ Ec]. split_and!; try done. intros _. by exists m, d. }
  rewrite decide_True by done. cbn [snd]. destruct (buf_read d off len) as [b|] eqn:Eb; intros [= <- <- <-]; split_and!; try done.
  - apply buf_read_length in Eb. lia.
  - intros _. exists m, d. split_and!; [done|done|]. intros ->. exact Ec.
Qed.
Lemma mem_add_ok m d n n' rc : mem_add m d n = (n', rc) → (n' = n ∧ rc ≠ 0) ∨ n' = <[md_id m := (m, d)]> n.
Proof. unfold mem_add. destruct (mem_has_room _ n); intros [= <- <-]; [by right|by left]. Qed.
#[export] Instance mem_nvm_ok : NvmOk store.
Proof.
  refine {| objects := (λ n : store, n) |}; cbn -[has_any].
  - repeat (constructor; [set_solver by lia|]). constructor.
  - by intros [].
  - done.
  - intros id n n' rc m. destruct (n !! id) as [[m' d]|] eqn:E; intros [= <- <- <-]; split_and!; try done. by exists d.
  - intros id off len n n' rc bytes Ho Hl E. destruct (mem_object_read_ok _ _ _ _ _ _ _ _ Ho Hl E) as (H1 & H2 & H3 & _).
    split_and!; [done|done|]. intros (m & d & ? & ? & _)%H3. eauto.
  - intros id off len n n' rc bytes Ho Hl E. destruct (mem_object_read_ok _ _ _ _ _ _ _ _ Ho Hl E) as (H1 & H2 & H3 & H4 & H5).
    split_and!; [done|done| |done|done]. intros (m & d & ? & ? & Hx)%H3. exists m, d. split_and!; [done|done|by apply Hx].
  - exact mem_add_ok.
  - intros m d n n' rc. destruct (n !! md_id m) as [o|]; [destruct (mem_flag 1 o)|]; [intros [= <- <-]; by left|apply mem_add_ok..].
  - intros ids n n' rc [= <- <-]. by right.
  - intros ids n n' rc. case_match eqn:E1; [|case_match]; intros E; simplify_eq; [left|left; by split_and!|by right].
    split_and!; [done|done|]. intros _. apply existsb_exists in E1 as (id & Hin & Hm). exists id. split; [by apply list_elem_of_In|].
    by destruct (_ !! id).
  - by intros n n' r [= <- <-].
Defined.

Definition toy_tag (l : list Z) (c : Z) : list Z := to_le 8 c ++ to_le 8 (foldr Z.add 0 l).
Definition toy_opens (l : list Z) (c : Z) (ct : list Z) : option (list Z) :=
  if bool_decide (16 ≤ length ct)%nat && bool_decide (drop (length ct - 16) ct = toy_tag l c) then Some (take (length ct - 16) ct) else None.
Definition toy_sealer : wt_vault_sealer := {|
  sl_seal l c d := (PSA_SUCCESS, d ++ toy_tag l c);
  sl_unseal l c ct := match toy_opens l c ct with Some d => (PSA_SUCCESS, d) | None => (PSA_ERROR_INVALID_SIGNATURE, []) end;
|}.
Lemma length_tag l c : length (toy_tag l c) = 16%nat.
Proof. unfold toy_tag. by rewrite length_app, !length_to_le. Qed.
Lemma toy_opens_length l c ct d : toy_opens l c ct = Some d → Z.of_nat (length ct) = Z.of_nat (length d) + WT_VAULT_SEAL_TAG_LEN.
Proof.
  unfold toy_opens. case_bool_decide; [|done]. case_bool_decide; [|done]. intros [= <-]. rewrite length_take.
  unfold WT_VAULT_SEAL_TAG_LEN. lia.
Qed.
#[export] Instance toy_sealer_ok : SealerOk toy_sealer.
Proof.
  refine {| opens := toy_opens |}.
  - apply toy_opens_length.
  - intros l c d st ct [= <- <-]. unfold WT_VAULT_SEAL_TAG_LEN. rewrite length_app, length_tag. split; [lia|]. intros _. split; [lia|].
    unfold toy_opens. rewrite length_app, length_tag. rewrite Nat.add_sub. rewrite drop_app_length, take_app_length.
    by rewrite !bool_decide_true by (done || lia).
  - intros l c ct st pt Hl. simpl. destruct (toy_opens l c ct) as [d|] eqn:E; intros [= <- <-].
    + pose proof (toy_opens_length _ _ _ _ E). split_and!; try done; [lia|]. intros _. split; [lia|done].
    + split_and!; try done. simpl. unfold WT_VAULT_SEAL_TAG_LEN in *. lia.
Defined.
#[export] Instance toy_sealer_works : CipherWorks toy_sealer.
Proof. constructor; [done|]. intros l c ct. simpl. by destruct (toy_opens l c ct). Qed.

(** Half of the store is free, and its objects are the vault's. *)
Definition roomy (n : store) : bool :=
  (mem_used n <=? 8192) && (Z.of_nat (size n) <=? 60) &&
  forallb (λ e, (0 <=? md_len e.2.1) && (md_len e.2.1 <=? WT_VAULT_OBJECT_MAX + WT_VAULT_SEAL_TAG_LEN)) (map_to_list n).
Lemma roomy_fits n len : roomy n = true → fits n len → 0 ≤ len ≤ WT_VAULT_OBJECT_MAX + WT_VAULT_SEAL_TAG_LEN.
Proof.
  intros Hr [?|(id & m & d & Hid & <-)]; [done|]. apply andb_true_iff in Hr as [_ Hr]. apply elem_of_map_to_list in Hid.
  apply list_elem_of_In in Hid. pose proof (proj1 (forallb_forall _ _) Hr _ Hid) as He. simpl in He. bool_hyps. lia.
Qed.
Lemma storage_bounds len : 0 ≤ len ≤ WT_VAULT_OBJECT_MAX + WT_VAULT_SEAL_TAG_LEN → 0 ≤ mem_storage len ≤ 1047 ∧ wt_hsm_vault_storage_size len = mem_storage len.
Proof.
  unfold WT_VAULT_OBJECT_MAX, WT_VAULT_SEAL_TAG_LEN. intros Hl. pose proof (Z.div_mod (len + 7) 8). pose proof (Z.mod_pos_bound (len + 7) 8).
  assert (0 ≤ mem_storage len ≤ 1047) as Hb by (unfold mem_storage; lia). split; [done|]. apply u32_small. fold (mem_storage len). lia.
Qed.
Lemma need_bound repl len old : 0 ≤ len ≤ WT_VAULT_OBJECT_MAX + WT_VAULT_SEAL_TAG_LEN → 0 ≤ old ≤ WT_VAULT_OBJECT_MAX + WT_VAULT_SEAL_TAG_LEN →
  set_need repl len old ≤ 8192.
Proof.
  intros Hl Ho. destruct (storage_bounds len Hl) as [H1 E1]. destruct (storage_bounds old Ho) as [H2 E2].
  destruct (storage_bounds sizeof_table) as [H3 E3]; [done|]. unfold set_need. rewrite E1, E2, E3.
  rewrite (u32_small (mem_storage len + _)) by lia. destruct repl; [|lia].
  rewrite (u32_small (2 * _)) by lia. rewrite (u32_small (_ + mem_storage sizeof_table)) by lia. rewrite u32_small by lia. lia.
Qed.
Lemma roomy_works n : roomy n = true → works_at n.
Proof.
  intros Hr. pose proof (roomy_fits n) as Hf. pose proof Hr as Hr'. apply andb_true_iff in Hr' as [Hu _]. apply andb_true_iff in Hu as [Hu Hs].
  bool_hyps.
  assert (∀ m d, fits n (md_len m) → (mem_add m d n).2 = 0) as Hadd.
  { intros m d Hm%Hf; [|done]. destruct (storage_bounds _ Hm) as [Hb _]. unfold mem_add, mem_has_room.
    rewrite (proj2 (Z.leb_le _ _)), (proj2 (Z.ltb_lt _ _)) by lia. done. }
  assert (∀ off len d bytes, buf_read d off len = Some bytes → 0 ≤ off) as Hoff.
  { intros off len d bytes Hb. destruct (decide (0 ≤ off)); [done|]. unfold buf_read in Hb. by rewrite bool_decide_false in Hb by lia. }
  constructor; cbn -[has_any mem_add mem_used size set_need].
  - intros id. destruct (n !! id); [by left|by right].
  - intros id off len m d bytes Ho Hb. unfold mem_object_read. rewrite Ho. simpl. rewrite decide_True by (by eapply Hoff). by rewrite Hb.
  - intros id off len m d bytes Ho Hb. unfold mem_object_read. rewrite Ho. unfold mem_flag. cbn -[has_any]. destruct (has_any (md_flags m) 4); [done|].
    rewrite decide_True by (by eapply Hoff). by rewrite Hb.
  - exact Hadd.
  - intros m d Hm Hmod. destruct (n !! md_id m) as [[m' d']|] eqn:E; [|by apply Hadd]. unfold mem_flag. cbn -[has_any mem_add].
    rewrite (Hmod m' d') by done. by apply Hadd.
  - done.
  - intros id m d Ho Hfl. rewrite Ho. unfold mem_flag. cbn -[has_any]. by rewrite Hfl.
  - split_and!; [done|lia| |].
    + destruct (storage_bounds sizeof_table) as [? ->]; [done|]. lia.
    + intros repl len old Hl%Hf Ho%Hf; [|done..]. pose proof (need_bound repl len old Hl Ho). lia.
Qed.

(** ** A run *)

Definition after (op : vault_op) (s : vault store) : vault store := match run_op op s with Some (s', _) => s' | None => s end.
Definition reply (op : vault_op) (s : vault store) : option answer := match run_op op s with Some (_, r) => Some r | None => None end.
(** The power fails before the last [n] events of [op]. *)
Definition cut (op : vault_op) (n : nat) (s : vault store) : vault store :=
  let log := drop n (vl_log (after op s)) in restarted toy_sealer (default ∅ (last_store log)) log.

Lemma step_answered op r s tr s' : op_ok op (obs s) → reply op s = Some r → vault_run toy_sealer (after op s) tr s' →
  vault_run toy_sealer s (Answered op r :: tr) s'.
Proof.
  unfold reply, after. destruct (run_op op s) as [[s1 r1]|] eqn:E; [|done]. intros Hok [= <-] Hr. by eapply run_answered.
Qed.
Lemma step_cut op n s tr s' : env toy_sealer s → vinv toy_sealer (obs s) → op_ok op (obs s) →
  (n + length (vl_log s) <=? length (vl_log (after op s)))%nat = true →
  vault_run toy_sealer (cut op n s) tr s' → vault_run toy_sealer s (Lost op :: tr) s'.
Proof.
  unfold cut, after. intros He HI Hok Hn Hr.
  destruct (fwp_run _ _ _ (op_run toy_sealer op s He HI Hok)) as (s1 & r & E & (Hw & _)). rewrite E in Hn, Hr.
  destruct (went_log _ _ _ _ Hw) as (evs & Hl & _). apply Nat.leb_le in Hn. rewrite Hl, length_app in Hn.
  rewrite Hl, drop_app_le in Hr by lia.
  assert (is_Some (last_store (drop n evs ++ vl_log s))) as [n' Hls].
  { unfold last_store. rewrite omap_app. destruct (omap _ (drop n evs)); [|by eexists]. simpl. pose proof (env_log _ _ He) as He'.
    unfold last_store in He'. rewrite He'. by eexists. }
  rewrite Hls in Hr. eapply (run_lost _ s op r s1 (take n evs) (drop n evs ++ vl_log s)); try done; [|by eexists].
  by rewrite Hl, app_assoc, take_drop.
Qed.

Definition demo_start : vault store := restarted toy_sealer ∅ [EvStore ∅].
Definition once : vault_op := OpSet (1, 0, 5) WT_VAULT_FLAG_WRITE_ONCE [1; 2; 3].
Definition first : vault_op := OpSet (1, 0, 6) WT_VAULT_FLAG_SEALED [7; 8].
Definition second : vault_op := OpSet (1, 0, 6) WT_VAULT_FLAG_SEALED [9].
Definition read : vault_op := OpGet (1, 0, 6) 0 10.
Definition demo1 : vault store := after once demo_start.
Definition demo2 : vault store := after first demo1.
(** The new object is in its slot, and its counter is not yet in the table. *)
Definition demo3 : vault store := cut second 4 demo2.
Definition demo4 : vault store := after read demo3.
Definition demo_trace : list vault_ev :=
  [Answered once (Status PSA_SUCCESS); Answered first (Status PSA_SUCCESS); Lost second; Answered read (Bytes PSA_SUCCESS [7; 8])].

Lemma demo_ok : vault_ok toy_sealer demo_start.
Proof. by apply empty_vault_ok. Qed.
Lemma demo_run : vault_run toy_sealer demo_start demo_trace demo4.
Proof.
  assert (vault_run toy_sealer demo_start [Answered once (Status PSA_SUCCESS); Answered first (Status PSA_SUCCESS)] demo2) as H12.
  { apply step_answered; [by vm_compute|by vm_compute|]. apply step_answered; [by vm_compute|by vm_compute|]. apply run_nil. }
  destruct (run_ok _ _ _ _ H12 demo_ok) as [[He HI _] _].
  apply step_answered; [by vm_compute|by vm_compute|]. apply step_answered; [by vm_compute|by vm_compute|].
  apply (step_cut second 4); [done|done|by vm_compute|by vm_compute|]. apply step_answered; [done|by vm_compute|]. apply run_nil.
Qed.

(** The lost write left the new object in its slot, and both objects have been
    written with different counters; the read finds the old one. *)
Lemma vault_refines_witness : vault_ok toy_sealer demo_start ∧ seals (vl_log demo4) = [2; 1] ∧
  spec_run (content toy_sealer (obs demo_start)) demo_trace (content toy_sealer (obs demo4)).
Proof.
  split; [apply demo_ok|]. split; [by vm_compute|]. apply (vault_refines toy_sealer demo_start demo_ok), demo_run.
Defined.
Lemma vault_nonces_fresh_witness : seals (vl_log demo4) = [2; 1] ∧ NoDup (seals (vl_log demo4)).
Proof. split; [by vm_compute|]. apply (vault_nonces_fresh toy_sealer demo_start demo_trace demo4 demo_ok demo_run). Defined.
Lemma vault_wellformed_witness : vinv toy_sealer (obs demo4) ∧ g_vault_pt demo4 = zeros (Z.to_nat WT_VAULT_OBJECT_MAX).
Proof. apply (vault_wellformed toy_sealer demo_start demo_trace demo4 demo_ok demo_run). Defined.

(** A write-once object is stored; a write and a removal of it are refused. *)
Definition over : vault_op := OpSet (1, 0, 5) 0 [9].
Definition drop_it : vault_op := OpRemove (1, 0, 5).
Definition refused : list vault_ev := [Answered over (Status PSA_ERROR_NOT_PERMITTED); Answered drop_it (Status PSA_ERROR_NOT_PERMITTED)].
Definition demo_kept : vault store := after drop_it (after over demo1).
Lemma demo1_ok : vault_ok toy_sealer demo1.
Proof.
  refine (proj1 (run_ok toy_sealer demo_start [Answered once (Status PSA_SUCCESS)] demo1 _ demo_ok)).
  apply step_answered; [by vm_compute|by vm_compute|]. apply run_nil.
Qed.
Lemma demo1_sealer : g_vault_sealer demo1 = Some toy_sealer.
Proof.
  destruct (fwp_run _ _ _ (op_run toy_sealer once demo_start (vo_env _ _ demo_ok) (vo_inv _ _ demo_ok) ltac:(by vm_compute))) as (s1 & r & E & (Hw & _)).
  unfold demo1, after. rewrite E. by rewrite (went_sealer _ _ _ _ Hw).
Qed.
Lemma refused_run : vault_run toy_sealer demo1 refused demo_kept.
Proof. apply step_answered; [by vm_compute|by vm_compute|]. apply step_answered; [done|by vm_compute|]. apply run_nil. Qed.
Lemma vault_protects_witness : content toy_sealer (obs demo1) (1, 0, 5) = Some (WT_VAULT_FLAG_WRITE_ONCE, Some [1; 2; 3]) ∧
  content toy_sealer (obs demo_kept) (1, 0, 5) = content toy_sealer (obs demo1) (1, 0, 5).
Proof.
  split; [by vm_compute|]. apply (vault_protects toy_sealer demo1 refused demo_kept (1, 0, 5) demo1_ok refused_run).
  left. exists (WT_VAULT_FLAG_WRITE_ONCE, Some [1; 2; 3]). split; by vm_compute.
Defined.
(** A sealed object is stored, and read from its second byte; the store had room
    in every state it went through. *)
Definition roomy_event (e : vault_event store) : bool := match e with EvStore n => roomy n | EvSeal _ => true end.
Lemma roomy_smooth s : forallb roomy_event (vl_log s) = true → smooth toy_sealer s.
Proof.
  intros Hf. constructor; [apply toy_sealer_works|]. intros n Hn%list_elem_of_In. by apply roomy_works, (proj1 (forallb_forall _ _) Hf (EvStore n)).
Qed.
Lemma roundtrip_roomy : match wt_hsm_vault_set 1 0 6 WT_VAULT_FLAG_SEALED [7; 8; 9] demo1 with
  | Some (s1, st) => forallb roomy_event (vl_log s1) && (st =? PSA_SUCCESS) &&
    match wt_hsm_vault_get 1 0 6 1 10 s1 with Some (s2, _) => forallb roomy_event (vl_log s2) | None => false end
  | None => false end = true.
Proof. by vm_compute. Qed.
Lemma vault_roundtrip_witness : ∃ s1 s2, wt_hsm_vault_set 1 0 6 WT_VAULT_FLAG_SEALED [7; 8; 9] demo1 = Some (s1, PSA_SUCCESS) ∧
  wt_hsm_vault_get 1 0 6 1 10 s1 = Some (s2, (PSA_SUCCESS, [8; 9])) ∧ smooth toy_sealer s2.
Proof.
  destruct (vault_roundtrip toy_sealer demo1 1 0 6 WT_VAULT_FLAG_SEALED [7; 8; 9] 1 10) as (st & s1 & st' & b & s2 & E1 & E2 & Hb & Hst & Hst').
  - apply demo1_ok.
  - by vm_compute.
  - apply demo1_sealer.
  - by vm_compute.
  - by vm_compute.
  - by vm_compute.
  - intros (o & Ho & _). by vm_compute in Ho.
  - by vm_compute.
  - done.
  - pose proof roundtrip_roomy as Hr. rewrite E1, E2 in Hr. apply andb_true_iff in Hr as [Hr1 Hr2]. apply andb_true_iff in Hr1 as [_ Hr1].
    apply Z.eqb_eq in Hr1 as ->. pose proof (roomy_smooth s2 Hr2) as Hsm. rewrite (Hst' Hsm eq_refl) in *. rewrite (Hb eq_refl eq_refl) in E2.
    exists s1, s2. split; [exact E1|]. split; [exact E2|exact Hsm].
Defined.

(** ** The keystore door *)

(** Destroying the write-once storage object is refused. *)
Lemma door_confined_witness : hidden (obs demo1) (slot_id 0) = true ∧
  ∃ s' r, run_door (DoorDestroy [slot_id 0]) demo1 = Some (s', r) ∧ ran toy_sealer (untouched (obs demo1)) demo1 s' ∧
    untouched (obs demo1) (obs s') ∧ discreet demo1 (DoorDestroy [slot_id 0]) r.
Proof. split; [by vm_compute|]. apply (door_confined toy_sealer (DoorDestroy [slot_id 0]) demo1 (vo_env _ _ demo1_ok)). Defined.

(** The door takes a key under the name of a storage object, and from then on the
    client that stored the object is refused: the door does not compare the owner
    in the label of a key with anything. *)
Definition demo_gap : vault store := after (OpRemove (1, 0, 4)) (after first (after (OpSet (1, 0, 4) 0 [1]) demo_start)).
Definition shadow : wt_vault_nvm_meta :=
  {| nm_id := slot_id 0; nm_access := 0; nm_flags := 4; nm_len := 2; nm_label := wt_hsm_vault_make_label 1 0 6 WT_VAULT_FLAG_KEY |}.
Definition after_door (op : door_op) (s : vault store) : vault store := match run_door op s with Some (s', _) => s' | None => s end.
Example door_key_shadows_object :
  reply read demo_gap = Some (Bytes PSA_SUCCESS [7; 8]) ∧
  snd <$> run_door (DoorAdd shadow [5; 5]) demo_gap = Some (DoorStatus PSA_SUCCESS) ∧
  reply read (after_door (DoorAdd shadow [5; 5]) demo_gap) = Some (Bytes PSA_ERROR_NOT_PERMITTED []).
Proof. split_and!; by vm_compute. Qed.
