(* ===== verification/Vault.v ===== *)
(** * The vault service: [services/vault_service.c]

    The FF-M service in front of the object store. A request names its operation
    in the message type and carries a header in its first input vector; the owner
    of the object is the client that the gate named in the message. The storage,
    key and door backends are records of functions on the state [B] of the store,
    as in the source, and randomness comes from the rest of the system [W]. The
    local transfer buffers are values here: wiping them when the frame is released
    has no effect that outlives it. A backend that stores more than its buffer
    holds is undefined. *)

From Stdlib Require Import ZArith Lia.
From stdpp Require Import base list numbers option sets gmap.
From S2P Require Import Prelude Buffers CState FfmTypes Service VaultStore.

Definition WT_VAULT_OP_SET : Z := 1.
Definition WT_VAULT_OP_GET : Z := 2.
Definition WT_VAULT_OP_GET_INFO : Z := 3.
Definition WT_VAULT_OP_REMOVE : Z := 4.
Definition WT_VAULT_OP_KEY_GENERATE : Z := 5.
Definition WT_VAULT_OP_KEY_IMPORT : Z := 6.
Definition WT_VAULT_OP_KEY_EXPORT_PUBLIC : Z := 7.
Definition WT_VAULT_OP_KEY_SIGN : Z := 8.
Definition WT_VAULT_OP_KEY_VERIFY : Z := 9.
Definition WT_VAULT_OP_KEY_ENCRYPT : Z := 10.
Definition WT_VAULT_OP_KEY_DECRYPT : Z := 11.
Definition WT_VAULT_OP_RANDOM : Z := 12.
Definition WT_VAULT_OP_NVM_GET_AVAILABLE : Z := 13.
Definition WT_VAULT_OP_NVM_GET_METADATA : Z := 14.
Definition WT_VAULT_OP_NVM_ADD_OBJECT : Z := 15.
Definition WT_VAULT_OP_NVM_DESTROY : Z := 16.
Definition WT_VAULT_OP_NVM_READ : Z := 17.
Definition WT_VAULT_RANDOM_MAX : Z := 256.
Definition WT_VAULT_KEY_SIG_LEN : Z := 64.

(** ** Requests and replies on the wire *)

Record wt_vault_req := { vr_uid : Z; vr_flags : Z; vr_offset : Z; vr_sub_owner : Z; vr_reserved : Z }.
Definition sizeof_vault_req : Z := 24.
Definition vault_req_of_bytes (buf : list Z) : wt_vault_req :=
  {| vr_uid := field buf 0 8; vr_flags := field buf 8 4; vr_offset := field buf 12 4;
     vr_sub_owner := i32_of_u32 (field buf 16 4); vr_reserved := field buf 20 4 |}.
Definition bytes_of_vault_req (r : wt_vault_req) : list Z :=
  to_le 8 (vr_uid r) ++ to_le 4 (vr_flags r) ++ to_le 4 (vr_offset r) ++ to_le 4 (u32 (vr_sub_owner r)) ++ to_le 4 (vr_reserved r).
Definition sizeof_vault_info : Z := 16.
Definition bytes_of_vault_info (i : wt_vault_info) : list Z :=
  to_le 4 (vi_capacity i) ++ to_le 4 (vi_size i) ++ to_le 4 (vi_flags i) ++ to_le 4 (vi_reserved i).

Record wt_vault_nvm_req := {
  nq_offset : Z; nq_len : Z; nq_id : Z; nq_count : Z; nq_access : Z; nq_flags : Z; nq_label : list Z }.
Definition sizeof_nvm_req : Z := 40.
Definition nvm_req_of_bytes (buf : list Z) : wt_vault_nvm_req :=
  {| nq_offset := field buf 0 4; nq_len := field buf 4 4; nq_id := field buf 8 2; nq_count := field buf 10 2;
     nq_access := field buf 12 2; nq_flags := field buf 14 2; nq_label := take 24 (drop 16 buf) |}.
Definition sizeof_nvm_avail : Z := 12.
Definition bytes_of_nvm_avail (a : wt_vault_nvm_avail) : list Z :=
  to_le 4 (na_avail_size a) ++ to_le 4 (na_reclaim_size a) ++ to_le 2 (na_avail_objects a) ++ to_le 2 (na_reclaim_objects a).
Definition sizeof_nvm_meta : Z := 32.
Definition bytes_of_nvm_meta (m : wt_vault_nvm_meta) : list Z :=
  to_le 2 (nm_id m) ++ to_le 2 (nm_access m) ++ to_le 2 (nm_flags m) ++ to_le 2 (nm_len m) ++ nm_label m.
(** [uint16_t ids[count]] *)
Definition ids_of_bytes (count : Z) (buf : list Z) : list Z := (λ i, field buf (2 * i) 2) <$> seq 0 (Z.to_nat count).

(** ** Backends *)

(** An operation returns its status, and what it stored in its output buffer. *)
Record wt_vault_backend (B : Type) := {
  vb_set : Z → Z → Z → Z → list Z → func B Z;
  vb_get : Z → Z → Z → Z → Z → func B (Z * list Z);
  vb_get_info : Z → Z → Z → func B (Z * wt_vault_info);
  vb_remove : Z → Z → Z → func B Z;
}.
Record wt_vault_key_backend (B : Type) := {
  vk_generate : Z → Z → Z → Z → Z → func B Z;
  vk_import : Z → Z → Z → Z → Z → list Z → func B Z;
  vk_export_public : Z → Z → Z → Z → func B (Z * list Z);
  vk_sign : Z → Z → Z → list Z → Z → func B (Z * list Z);
  vk_verify : Z → Z → Z → list Z → list Z → func B Z;
  vk_encrypt : Z → Z → Z → list Z → Z → func B (Z * list Z);
  vk_decrypt : Z → Z → Z → list Z → Z → func B (Z * list Z);
}.
Record wt_vault_nvm_backend (B : Type) := {
  vn_get_available : func B (Z * wt_vault_nvm_avail);
  vn_get_metadata : Z → func B (Z * wt_vault_nvm_meta);
  vn_add_object : wt_vault_nvm_meta → list Z → func B Z;
  vn_destroy : list Z → func B Z;
  vn_read : Z → Z → Z → func B (Z * list Z);
}.
Arguments vb_set {B}. Arguments vb_get {B}. Arguments vb_get_info {B}. Arguments vb_remove {B}.
Arguments vk_generate {B}. Arguments vk_import {B}. Arguments vk_export_public {B}. Arguments vk_sign {B}.
Arguments vk_verify {B}. Arguments vk_encrypt {B}. Arguments vk_decrypt {B}.
Arguments vn_get_available {B}. Arguments vn_get_metadata {B}. Arguments vn_add_object {B}. Arguments vn_destroy {B}.
Arguments vn_read {B}.

(** The fail-closed defaults. *)
Definition refuse {B} : func B Z := fn (mret PSA_ERROR_NOT_SUPPORTED).
Definition refuse_out {B A} (a : A) : func B (Z * A) := fn (mret (PSA_ERROR_NOT_SUPPORTED, a)).
Definition g_vault_default_backend {B} : wt_vault_backend B :=
  {| vb_set _ _ _ _ _ := refuse; vb_get _ _ _ _ _ := refuse_out []; vb_get_info _ _ _ := refuse_out zero_info;
     vb_remove _ _ _ := refuse |}.
Definition g_vault_default_key_backend {B} : wt_vault_key_backend B :=
  {| vk_generate _ _ _ _ _ := refuse; vk_import _ _ _ _ _ _ := refuse; vk_export_public _ _ _ _ := refuse_out [];
     vk_sign _ _ _ _ _ := refuse_out []; vk_verify _ _ _ _ _ := refuse; vk_encrypt _ _ _ _ _ := refuse_out [];
     vk_decrypt _ _ _ _ _ := refuse_out [] |}.
Definition g_vault_default_nvm_backend {B} : wt_vault_nvm_backend B :=
  {| vn_get_available := refuse_out (Build_wt_vault_nvm_avail 0 0 0 0); vn_get_metadata _ := refuse_out zero_nvm_meta;
     vn_add_object _ _ := refuse; vn_destroy _ := refuse; vn_read _ _ _ := refuse_out [] |}.
Definition wt_vault_default_rng {W} (len : Z) : func W (Z * list Z) := refuse_out [].

(** [wt_hsm_vault_backend] and [wt_hsm_vault_nvm_backend] of [wt_hsm_vault.c]. *)
Definition wt_hsm_vault_backend {N} `{!WhNvm N} : wt_vault_backend (vault N) :=
  {| vb_set := wt_hsm_vault_set; vb_get := wt_hsm_vault_get; vb_get_info := wt_hsm_vault_get_info;
     vb_remove := wt_hsm_vault_remove |}.
Definition wt_hsm_vault_nvm_backend {N} `{!WhNvm N} : wt_vault_nvm_backend (vault N) :=
  {| vn_get_available := wt_hsm_vault_nvm_get_available; vn_get_metadata := wt_hsm_vault_nvm_get_metadata;
     vn_add_object := wt_hsm_vault_nvm_add_object; vn_destroy := wt_hsm_vault_nvm_destroy; vn_read := wt_hsm_vault_nvm_read |}.

(** ** The service's state *)

Record vault_service (W B : Type) := {
  vs_world : W;
  vs_store : B;
  g_vault_backend : wt_vault_backend B;
  g_vault_key_backend : wt_vault_key_backend B;
  g_vault_nvm_backend : wt_vault_nvm_backend B;
  g_vault_keystore_client : Z;
  g_vault_rng : Z → func W (Z * list Z);
  g_vault_transport : transport_fn W;
}.
Arguments vs_world {W B}. Arguments vs_store {W B}. Arguments g_vault_backend {W B}. Arguments g_vault_key_backend {W B}.
Arguments g_vault_nvm_backend {W B}. Arguments g_vault_keystore_client {W B}. Arguments g_vault_rng {W B}.
Arguments g_vault_transport {W B}.

Section service.
Context {W B : Type}.
#[export] Instance vault_service_eta : Settable (vault_service W B) := λ s,
  {| vs_world := vs_world s; vs_store := vs_store s; g_vault_backend := g_vault_backend s;
     g_vault_key_backend := g_vault_key_backend s; g_vault_nvm_backend := g_vault_nvm_backend s;
     g_vault_keystore_client := g_vault_keystore_client s; g_vault_rng := g_vault_rng s;
     g_vault_transport := g_vault_transport s |}.
#[export] Instance set_vs_world : Setter (@vs_world W B). Proof. derive_setter. Defined.
#[export] Instance set_vs_store : Setter (@vs_store W B). Proof. derive_setter. Defined.
#[export] Instance set_g_vault_backend : Setter (@g_vault_backend W B). Proof. derive_setter. Defined.
#[export] Instance set_g_vault_key_backend : Setter (@g_vault_key_backend W B). Proof. derive_setter. Defined.
#[export] Instance set_g_vault_nvm_backend : Setter (@g_vault_nvm_backend W B). Proof. derive_setter. Defined.
#[export] Instance set_g_vault_keystore_client : Setter (@g_vault_keystore_client W B). Proof. derive_setter. Defined.
#[export] Instance set_g_vault_rng : Setter (@g_vault_rng W B). Proof. derive_setter. Defined.
#[export] Instance set_g_vault_transport : Setter (@g_vault_transport W B). Proof. derive_setter. Defined.

Definition wt_vault_service_set_backend (backend : option (wt_vault_backend B)) (s : vault_service W B) : vault_service W B :=
  s <| g_vault_backend := default g_vault_default_backend backend |>.
Definition wt_vault_service_set_key_backend (backend : option (wt_vault_key_backend B)) (s : vault_service W B) : vault_service W B :=
  s <| g_vault_key_backend := default g_vault_default_key_backend backend |>.
Definition wt_vault_service_set_rng (f : option (Z → func W (Z * list Z))) (s : vault_service W B) : vault_service W B :=
  s <| g_vault_rng := default wt_vault_default_rng f |>.
(** [direct]: [wt_spm_transport_direct]. *)
Definition wt_vault_service_set_transport (direct : transport_fn W) (f : option (transport_fn W)) (s : vault_service W B) :
    vault_service W B := s <| g_vault_transport := default direct f |>.
Definition wt_vault_service_set_keystore_client (partition_id : Z) (s : vault_service W B) : vault_service W B :=
  s <| g_vault_keystore_client := if 0 <? partition_id then partition_id else 0 |>.
Definition wt_vault_service_set_nvm_backend (backend : option (wt_vault_nvm_backend B)) (s : vault_service W B) : vault_service W B :=
  s <| g_vault_nvm_backend := default g_vault_default_nvm_backend backend |>.

Definition in_world {A} (f : func W A) : func (vault_service W B) A := λ s,
  match f (vs_world s) with Some (w, a) => Some (s <| vs_world := w |>, a) | None => None end.
Definition in_store {A} (f : func B A) : func (vault_service W B) A := λ s,
  match f (vs_store s) with Some (b, a) => Some (s <| vs_store := b |>, a) | None => None end.
Abbreviation vprog := (prog (vault_service W B) Z).

Definition wt_vault_read_vec (partition_id msg_handle : Z) (idx : nat) (capacity : Z) : vprog (Z + list Z) :=
  transport ← gets g_vault_transport; call (in_world (read_vec transport partition_id msg_handle idx capacity)).
Definition wt_vault_write_vec (partition_id msg_handle : Z) (idx : nat) (data : list Z) : vprog Z :=
  transport ← gets g_vault_transport; call (in_world (write_vec transport partition_id msg_handle idx data)).

(** The bytes a backend stored fit the buffer of [cap] bytes it was given. *)
Definition fits (bytes : list Z) (cap : Z) : vprog unit := defined (if Z.of_nat (length bytes) <=? cap then Some tt else None).
(** The data in input vector 1; [over] is the answer when it is too long. *)
Definition read_data (partition_id : Z) (msg : psa_msg) (over : Z) : vprog (list Z) :=
  when (WT_VAULT_OBJECT_MAX <? in_size msg 1) (early over);;
  r ← wt_vault_read_vec partition_id (pm_handle msg) 1 WT_VAULT_OBJECT_MAX;
  match r with inl _ => early PSA_ERROR_INVALID_ARGUMENT | inr data => mret data end.
(** The answer of a backend, with its output in output vector 0. *)
Definition answer_with (partition_id : Z) (msg : psa_msg) (status : Z) (data : list Z) : vprog Z :=
  if status =? PSA_SUCCESS then
    ret ← wt_vault_write_vec partition_id (pm_handle msg) 0 data;
    mret (if negb (ret =? WT_FFM_SUCCESS) then PSA_ERROR_GENERIC_ERROR else status)
  else mret status.
(** The same, with an output that the backend stored in a buffer of [cap] bytes. *)
Definition write_data (partition_id : Z) (msg : psa_msg) (status : Z) (data : list Z) (cap : Z) : vprog Z :=
  when (status =? PSA_SUCCESS) (fits data cap);;
  answer_with partition_id msg status data.
Definition out_cap (msg : psa_msg) : Z := Z.min (out_size msg 0) WT_VAULT_OBJECT_MAX.

(** The request header, in input vector 0. *)
Definition read_header (partition_id : Z) (msg : psa_msg) (size : Z) : vprog (list Z) :=
  when (negb (in_size msg 0 =? size)) (early PSA_ERROR_INVALID_ARGUMENT);;
  r ← wt_vault_read_vec partition_id (pm_handle msg) 0 size;
  match r with
  | inl _ => early PSA_ERROR_INVALID_ARGUMENT
  | inr buf => when (negb (Z.of_nat (length buf) =? size)) (early PSA_ERROR_INVALID_ARGUMENT);; mret buf
  end.

(** The storage operations. *)
Definition serve_storage (partition_id : Z) (msg : psa_msg) (req : wt_vault_req) : vprog Z :=
  let type := pm_type msg in
  let owner := pm_client_id msg in
  backend ← gets g_vault_backend;
  if type =? WT_VAULT_OP_SET then
    data ← read_data partition_id msg PSA_ERROR_INSUFFICIENT_STORAGE;
    call (in_store (vb_set backend owner (vr_sub_owner req) (vr_uid req) (vr_flags req) data))
  else if type =? WT_VAULT_OP_GET then
    '(status, data) ← call (in_store (vb_get backend owner (vr_sub_owner req) (vr_uid req) (vr_offset req) (out_cap msg)));
    write_data partition_id msg status data (out_cap msg)
  else if type =? WT_VAULT_OP_GET_INFO then
    if out_size msg 0 <? sizeof_vault_info then mret PSA_ERROR_INVALID_ARGUMENT else
    '(status, info) ← call (in_store (vb_get_info backend owner (vr_sub_owner req) (vr_uid req)));
    answer_with partition_id msg status (bytes_of_vault_info info)
  else call (in_store (vb_remove backend owner (vr_sub_owner req) (vr_uid req))).

(** The key operations carry the type in [reserved] and the usage in [flags]. *)
Definition serve_key (partition_id : Z) (msg : psa_msg) (req : wt_vault_req) : vprog Z :=
  let type := pm_type msg in
  let owner := pm_client_id msg in
  let sub := vr_sub_owner req in
  let uid := vr_uid req in
  backend ← gets g_vault_key_backend;
  if type =? WT_VAULT_OP_KEY_GENERATE then
    call (in_store (vk_generate backend owner sub uid (vr_reserved req) (vr_flags req)))
  else if type =? WT_VAULT_OP_KEY_IMPORT then
    data ← read_data partition_id msg PSA_ERROR_INVALID_ARGUMENT;
    call (in_store (vk_import backend owner sub uid (vr_reserved req) (vr_flags req) data))
  else if type =? WT_VAULT_OP_KEY_EXPORT_PUBLIC then
    '(status, out) ← call (in_store (vk_export_public backend owner sub uid (out_cap msg)));
    write_data partition_id msg status out (out_cap msg)
  else if type =? WT_VAULT_OP_KEY_SIGN then
    data ← read_data partition_id msg PSA_ERROR_INVALID_ARGUMENT;
    '(status, out) ← call (in_store (vk_sign backend owner sub uid data (out_cap msg)));
    write_data partition_id msg status out (out_cap msg)
  else if type =? WT_VAULT_OP_KEY_VERIFY then
    data ← read_data partition_id msg PSA_ERROR_INVALID_ARGUMENT;
    let n := Z.of_nat (length data) - WT_VAULT_KEY_SIG_LEN in
    if n <=? 0 then mret PSA_ERROR_INVALID_ARGUMENT else
    call (in_store (vk_verify backend owner sub uid (take (Z.to_nat n) data) (drop (Z.to_nat n) data)))
  else
    data ← read_data partition_id msg PSA_ERROR_INVALID_ARGUMENT;
    '(status, out) ← call (in_store ((if type =? WT_VAULT_OP_KEY_ENCRYPT then vk_encrypt backend else vk_decrypt backend)
                                       owner sub uid data (out_cap msg)));
    write_data partition_id msg status out (out_cap msg).

Definition serve_random (partition_id : Z) (msg : psa_msg) : vprog Z :=
  let cap := out_size msg 0 in
  if (cap =? 0) || (WT_VAULT_RANDOM_MAX <? cap) then mret PSA_ERROR_INVALID_ARGUMENT else
  rng ← gets g_vault_rng;
  '(status, out) ← call (in_world (rng cap));
  if status =? PSA_SUCCESS then
    out ← defined (buf_read out 0 cap);
    answer_with partition_id msg status out
  else mret status.

Definition wt_vault_service_serve (partition_id : Z) (msg : psa_msg) : func (vault_service W B) Z := fn (
  buf ← read_header partition_id msg sizeof_vault_req;
  let req := vault_req_of_bytes buf in
  let type := pm_type msg in
  if (WT_VAULT_OP_SET <=? type) && (type <=? WT_VAULT_OP_REMOVE) then serve_storage partition_id msg req
  else if (WT_VAULT_OP_KEY_GENERATE <=? type) && (type <=? WT_VAULT_OP_KEY_DECRYPT) then serve_key partition_id msg req
  else if type =? WT_VAULT_OP_RANDOM then serve_random partition_id msg
  else mret PSA_ERROR_NOT_SUPPORTED).
Definition wt_vault_service_call := wt_vault_service_serve.

(** ** The keystore door *)

Definition wt_vault_nvm_serve (partition_id : Z) (msg : psa_msg) : func (vault_service W B) Z := fn (
  client ← gets g_vault_keystore_client;
  if (client =? 0) || negb (pm_client_id msg =? client) then mret PSA_ERROR_NOT_PERMITTED else
  buf ← read_header partition_id msg sizeof_nvm_req;
  let req := nvm_req_of_bytes buf in
  let type := pm_type msg in
  backend ← gets g_vault_nvm_backend;
  if type =? WT_VAULT_OP_NVM_GET_AVAILABLE then
    if out_size msg 0 <? sizeof_nvm_avail then mret PSA_ERROR_INVALID_ARGUMENT else
    '(status, avail) ← call (in_store (vn_get_available backend));
    answer_with partition_id msg status (bytes_of_nvm_avail avail)
  else if type =? WT_VAULT_OP_NVM_GET_METADATA then
    if out_size msg 0 <? sizeof_nvm_meta then mret PSA_ERROR_INVALID_ARGUMENT else
    '(status, meta) ← call (in_store (vn_get_metadata backend (nq_id req)));
    answer_with partition_id msg status (bytes_of_nvm_meta meta)
  else if type =? WT_VAULT_OP_NVM_ADD_OBJECT then
    if (WT_VAULT_OBJECT_MAX <? in_size msg 1) || negb (nq_len req =? in_size msg 1) then mret PSA_ERROR_INVALID_ARGUMENT else
    data ← read_data partition_id msg PSA_ERROR_INVALID_ARGUMENT;
    call (in_store (vn_add_object backend {| nm_id := nq_id req; nm_access := nq_access req; nm_flags := nq_flags req;
                                             nm_len := u16 (Z.of_nat (length data)); nm_label := nq_label req |} data))
  else if type =? WT_VAULT_OP_NVM_DESTROY then
    let count := nq_count req in
    if (WT_VAULT_NVM_DESTROY_MAX <? count) || negb (in_size msg 1 =? count * 2) then mret PSA_ERROR_INVALID_ARGUMENT else
    if negb (count =? 0) then
      r ← wt_vault_read_vec partition_id (pm_handle msg) 1 (count * 2);
      match r with
      | inl _ => mret PSA_ERROR_INVALID_ARGUMENT
      | inr ids =>
        if negb (Z.of_nat (length ids) =? count * 2) then mret PSA_ERROR_INVALID_ARGUMENT else
        call (in_store (vn_destroy backend (ids_of_bytes count ids)))
      end
    else call (in_store (vn_destroy backend []))
  else if type =? WT_VAULT_OP_NVM_READ then
    if (WT_VAULT_OBJECT_MAX <? nq_len req) || (out_size msg 0 <? nq_len req) then mret PSA_ERROR_INVALID_ARGUMENT else
    '(status, data) ← call (in_store (vn_read backend (nq_id req) (nq_offset req) (nq_len req)));
    if status =? PSA_SUCCESS then
      data ← defined (buf_read data 0 (nq_len req));
      answer_with partition_id msg status data
    else mret status
  else mret PSA_ERROR_NOT_SUPPORTED).
Definition wt_vault_nvm_call := wt_vault_nvm_serve.

(** ** The service loop *)

Definition wt_vault_service_dispatch (partition_id : Z) : func (vault_service W B) Z := fn (
  transport ← gets g_vault_transport;
  '(ret, asserted) ← call (in_world (wt_spm_wait_service_signal transport partition_id));
  if negb (ret =? WT_FFM_SUCCESS) then mret WT_FFM_ERROR_STATE else
  if asserted =? 0 then mret WT_FFM_SUCCESS else
  r ← call (in_world (xfer transport partition_id (SvcGet asserted)));
  if negb (sr_return r =? WT_FFM_SUCCESS) || negb (sr_status r =? PSA_SUCCESS) then mret WT_FFM_ERROR_STATE else
  let msg := sr_msg r in
  let type := pm_type msg in
  keystore ← gets g_vault_keystore_client;
  reply_status ←
    (if type =? PSA_IPC_CONNECT then mret (if 0 <? pm_client_id msg then PSA_SUCCESS else PSA_ERROR_CONNECTION_REFUSED)
     else if type =? PSA_IPC_DISCONNECT then mret PSA_SUCCESS
     else if (WT_VAULT_OP_SET <=? type) && (type <=? WT_VAULT_OP_RANDOM) then
       if negb (keystore =? 0) && (pm_client_id msg =? keystore) then mret PSA_ERROR_NOT_PERMITTED
       else call (wt_vault_service_call partition_id msg)
     else if (WT_VAULT_OP_NVM_GET_AVAILABLE <=? type) && (type <=? WT_VAULT_OP_NVM_READ) then
       call (wt_vault_nvm_call partition_id msg)
     else mret PSA_ERROR_NOT_SUPPORTED);
  r ← call (in_world (xfer transport partition_id (SvcReply (pm_handle msg) reply_status)));
  if negb (sr_return r =? WT_FFM_SUCCESS) || negb (sr_int r =? WT_FFM_SUCCESS) then mret WT_FFM_ERROR_STATE
  else mret WT_FFM_SUCCESS).
End service.
