(* ===== verification/VaultServiceProps.v ===== *)
(** * The vault service on the object store

    The service and the store composed: a message is served in the name of the
    client that the gate stamped on it, and changes objects of that client only;
    the keystore's partition reaches the store through the door and in no other
    way. *)

From Stdlib Require Import ZArith Lia.
From stdpp Require Import base list numbers option sets gmap.
From S2P Require Import Prelude Buffers CState FfmTypes Service VaultStore VaultSpec VaultFacts VaultRun VaultSet VaultOps VaultProps VaultDoorProps VaultExample Vault.

(** The ranges of the fields of a message. *)
Class MessagesOk {W} (transport : transport_fn W) : Prop :=
  message_ranges pid sig w : let msg := sr_msg (transport {| rq_partition_id := pid; rq_op := SvcGet sig |} w).2 in
    - 2 ^ 31 ≤ pm_client_id msg < 2 ^ 31 ∧ Forall (λ n, 0 ≤ n) (pm_out_size msg).

Lemma buf_read_all l n : Z.of_nat (length l) = n → buf_read l 0 n = Some l.
Proof. intros E. pose proof (buf_read_start l [] n (eq_sym E)) as H. by rewrite app_nil_r in H. Qed.

Section service.
Context {W N : Type} `{!WhNvm N, !NvmOk N} (S : wt_vault_sealer) `{!SealerOk S}.
Context (transport : transport_fn W) `{!TransportOk transport, !MessagesOk transport}.
Abbreviation sys := (vault_service W (vault N)).
Implicit Types (s : sys) (V : store) (v : vault N).

(** The service as the boot code binds it. *)
Record bound s : Prop := {
  bd_transport : g_vault_transport s = transport;
  bd_backend : g_vault_backend s = wt_hsm_vault_backend;
  bd_key : g_vault_key_backend s = g_vault_default_key_backend;
  bd_nvm : g_vault_nvm_backend s = wt_hsm_vault_nvm_backend;
  bd_rng len w : fwp (g_vault_rng s len) (λ r _, r.1 = PSA_SUCCESS → Z.of_nat (length r.2) = len) w;
}.

#[local] Instance any_preorder : PreOrder (λ _ _ : W, True).
Proof. by split. Qed.

(** ** Effects on the store *)

(** The objects of other owners are kept after each write to the store. *)
Definition others_kept (owner : Z) v V : Prop := vinv S V ∧ ∀ k : vkey, k.1.1 ≠ owner → content S V k = content S (obs v) k.
Definition owned (owner : Z) v v' : Prop := went S (others_kept owner v) v v' ∧ others_kept owner v (obs v').
Definition through_door v v' : Prop := ran S (untouched (obs v)) v v' ∧ untouched (obs v) (obs v').

Lemma outcome_owned k o v st v' : outcome S k o v st v' → owned k.1.1 v v'.
Proof.
  intros (Hw & Ha & _). assert (∀ V, allowed S (content S (obs v)) k o (global (obs v)) V → others_kept k.1.1 v V) as H.
  { intros V [HI _ Hc]. split; [done|]. intros k' Hk. destruct Hc as [E|E]; rewrite (E k'); [done|]. unfold updated.
    rewrite bool_decide_false; [done|]. congruence. }
  split; [by eapply went_mono|by apply H].
Qed.
Lemma observed_owned c v v' : observed S v v' → owned c v v'.
Proof.
  intros [Hr Hs]. assert (∀ V, same S (obs v) V → others_kept c v V) as H.
  { intros V HV. split; [apply HV|]. intros k _. by rewrite (same_content _ _ _ HV). }
  split; [|by apply H]. eapply went_mono; [exact H|]. apply ran_went; [done| |].
  - intros V HV. unfold global. rewrite (sm_global _ _ _ HV). lia.
  - unfold global. rewrite (sm_global _ _ _ Hs). lia.
Qed.

(** ** The state of the service *)

(** Only the rest of the system changed, or the store too, as [X] says. *)
Definition kept s s' : Prop := s' = s <| vs_world := vs_world s' |>.
Definition reached (X : vault N → vault N → Prop) s s' : Prop :=
  s' = s <| vs_world := vs_world s' |> <| vs_store := vs_store s' |> ∧ (vs_store s' = vs_store s ∨ X (vs_store s) (vs_store s')).
Lemma kept_refl s : kept s s.
Proof. by destruct s. Qed.
Lemma kept_trans s1 s2 s3 : kept s1 s2 → kept s2 s3 → kept s1 s3.
Proof. unfold kept. intros -> ->. by destruct s1. Qed.
Lemma kept_reached X s s' : kept s s' → reached X s s'.
Proof. unfold kept. intros ->. split; [by destruct s|by left]. Qed.
Lemma kept_bound s s' : kept s s' → bound s → bound s'.
Proof. unfold kept. intros -> []. by constructor. Qed.
Lemma kept_store s s' : kept s s' → vs_store s' = vs_store s.
Proof. unfold kept. by intros ->. Qed.
Lemma kept_keystore s s' : kept s s' → g_vault_keystore_client s' = g_vault_keystore_client s.
Proof. unfold kept. by intros ->. Qed.
Lemma reached_kept X s s1 s2 : reached X s s1 → kept s1 s2 → reached X s s2.
Proof. unfold kept. intros [E H] ->. split; [rewrite E; by destruct s|done]. Qed.
Lemma kept_then X s s1 s2 : kept s s1 → reached X s1 s2 → reached X s s2.
Proof. unfold kept. intros -> [E H]. split; [rewrite E; by destruct s|done]. Qed.
Lemma reached_bound X s s' : reached X s s' → bound s → bound s'.
Proof. intros [-> _] []. by constructor. Qed.

Lemma in_world_run {A} (f : func W A) (Q : A → W → Prop) s : fwp f Q (vs_world s) →
  fwp (in_world f) (λ a s', kept s s' ∧ Q a (vs_world s')) s.
Proof. unfold fwp, in_world. by destruct (f (vs_world s)) as [[w a]|]. Qed.
Lemma in_store_run {A} (f : func (vault N) A) X (Q : A → Prop) s : fwp f (λ a v', X (vs_store s) v' ∧ Q a) (vs_store s) →
  fwp (in_store f) (λ a s', reached X s s' ∧ Q a) s.
Proof.
  unfold fwp, in_store. destruct (f (vs_store s)) as [[v a]|]; [|done]. intros [HX HQ]. split; [|done]. split; [by destruct s|by right].
Qed.
Lemma xfer_run pid op s : fwp (in_world (xfer transport pid op))
  (λ r s', kept s s' ∧ r = (transport {| rq_partition_id := pid; rq_op := op |} (vs_world s)).2) s.
Proof. unfold fwp, in_world, xfer. by destruct (transport _ (vs_world s)). Qed.
Lemma read_vec_run pid h idx cap s (E : Z → sys → Prop) Q : bound s → 0 < cap →
  (∀ r s', kept s s' → match r with inl _ => True | inr l => Z.of_nat (length l) ≤ cap ∧ Forall is_byte l end → Q r s') →
  wp (wt_vault_read_vec pid h idx cap) E Q s.
Proof.
  intros Hb Hc HQ. apply wp_bind, wp_gets. rewrite (bd_transport _ Hb). apply wp_call.
  eapply fwp_mono; [apply in_world_run, (read_vec_ok transport (λ _ _, True)); done|]. intros r s' [Hk [_ Hr]]. apply HQ; [done|]. by destruct r.
Qed.
Lemma write_vec_run pid h idx data s (E : Z → sys → Prop) Q : bound s → (∀ r s', kept s s' → Q r s') →
  wp (wt_vault_write_vec pid h idx data) E Q s.
Proof.
  intros Hb HQ. apply wp_bind, wp_gets. rewrite (bd_transport _ Hb). apply wp_call.
  eapply fwp_mono; [apply in_world_run, (write_vec_ok transport (λ _ _, True)); done|]. intros r s' [Hk _]. by apply HQ.
Qed.

(** ** Requests *)

Section request.
Context (X : vault N → vault N → Prop) (s0 : sys).
(** The postcondition of a request that began in [s0]. *)
Let Q (_ : Z) (s' : sys) : Prop := reached X s0 s'.

Lemma answer_run pid msg st data s : bound s → reached X s0 s → wp (answer_with pid msg st data) Q Q s.
Proof.
  intros Hb Hr. apply wp_if; intros _; [|by apply wp_ret]. apply wp_bind. apply write_vec_run; [done|]. intros r s' Hk.
  apply wp_ret. by eapply reached_kept.
Qed.
Lemma write_data_run pid msg st data cap s : bound s → reached X s0 s → (st = PSA_SUCCESS → Z.of_nat (length data) ≤ cap) →
  wp (write_data pid msg st data cap) Q Q s.
Proof.
  intros Hb Hr Hl. apply wp_bind, wp_when; intros E; bool_hyps; [|by apply answer_run].
  eapply wp_defined; [|by apply answer_run]. by rewrite (proj2 (Z.leb_le _ _) (Hl E)).
Qed.
Lemma read_data_run pid msg over s (Q' : list Z → sys → Prop) : bound s → kept s0 s →
  (∀ data s', kept s0 s' → Z.of_nat (length data) ≤ WT_VAULT_OBJECT_MAX → Forall is_byte data → Q' data s') →
  wp (read_data pid msg over) Q Q' s.
Proof.
  intros Hb Hk HQ. apply wp_bind, wp_when; intros _; [by apply wp_early, kept_reached|]. apply wp_bind, read_vec_run; [done|done|].
  intros r s' Hk' Hr. assert (kept s0 s') by by eapply kept_trans. destruct r as [e|data]; [by apply wp_early, kept_reached|].
  destruct Hr. by apply wp_ret, HQ.
Qed.
Lemma read_header_run pid msg size s (Q' : list Z → sys → Prop) : bound s → kept s0 s → 0 < size →
  (∀ buf s', kept s0 s' → Z.of_nat (length buf) = size → Forall is_byte buf → Q' buf s') →
  wp (read_header pid msg size) Q Q' s.
Proof.
  intros Hb Hk Hs HQ. apply wp_bind, wp_when; intros _; [by apply wp_early, kept_reached|]. apply wp_bind, read_vec_run; [done|done|].
  intros r s' Hk' Hr. assert (kept s0 s') by by eapply kept_trans. destruct r as [e|buf]; [by apply wp_early, kept_reached|].
  apply wp_bind, wp_when; intros E; bool_hyps; [by apply wp_early, kept_reached|]. destruct Hr. by apply wp_ret, HQ.
Qed.
(** A call of the store from a state in which the store is that of [s0]. *)
Lemma store_run {A} (f : func (vault N) A) (R : A → Prop) s (E : Z → sys → Prop) (Q' : A → sys → Prop) : kept s0 s →
  fwp f (λ a v', X (vs_store s0) v' ∧ R a) (vs_store s0) → (∀ a s', reached X s0 s' → R a → Q' a s') →
  wp (call (in_store f)) E Q' s.
Proof.
  intros Hk Hf HQ. apply wp_call. eapply fwp_mono; [apply (in_store_run f X R); by rewrite (kept_store _ _ Hk)|].
  intros a s' [Hr HR]. apply HQ; [by eapply kept_then|done].
Qed.
End request.

Lemma out_cap_pos msg : Forall (λ n, 0 ≤ n) (pm_out_size msg) → 0 ≤ out_cap msg.
Proof.
  intros Hf. unfold out_cap, out_size, WT_VAULT_OBJECT_MAX. destruct (pm_out_size msg !! 0%nat) as [n|] eqn:E; simpl; [|lia].
  pose proof (Forall_lookup_1 _ _ _ _ Hf E). simpl in *. lia.
Qed.

Section storage.
Context (pid : Z) (msg : psa_msg).
Context (Hcl : - 2 ^ 31 ≤ pm_client_id msg < 2 ^ 31) (Hout : Forall (λ n, 0 ≤ n) (pm_out_size msg)).
Let X := owned (pm_client_id msg).

Lemma req_ranges buf : Forall is_byte buf → let r := vault_req_of_bytes buf in
  label_ranges (pm_client_id msg) (vr_sub_owner r) (vr_uid r) (vr_flags r) ∧ 0 ≤ vr_offset r.
Proof.
  intros Hb. simpl. pose proof (field_range buf 0 8 Hb). pose proof (field_range buf 8 4 Hb).
  pose proof (field_range buf 12 4 Hb). pose proof (field_range buf 16 4 Hb) as Hs.
  split; [|lia]. constructor; [done| |simpl in *; lia|simpl in *; lia]. unfold i32_of_u32, INT32_MAX. simpl in Hs.
  destruct (Z.leb_spec (field buf 16 4) 0x7FFFFFFF); lia.
Qed.

Lemma serve_storage_run req s0 s : bound s0 → kept s0 s → env S (vs_store s0) → vinv S (obs (vs_store s0)) →
  label_ranges (pm_client_id msg) (vr_sub_owner req) (vr_uid req) (vr_flags req) → 0 ≤ vr_offset req →
  global (obs (vs_store s0)) < 2 ^ 64 - 1 →
  wp (serve_storage pid msg req) (λ _, reached X s0) (λ _, reached X s0) s.
Proof.
  intros Hb0 Hk He HI Hl Hoff Hg. pose proof (kept_bound _ _ Hk Hb0) as Hb. pose proof (out_cap_pos _ Hout) as Hcap.
  apply wp_bind, wp_gets. rewrite (bd_backend _ Hb). cbv zeta.
  assert (∀ s1, reached X s0 s1 → bound s1) as Hb1 by by (intros; eapply reached_bound).
  apply wp_if; intros _; [|apply wp_if; intros _; [|apply wp_if; intros _]].
  - apply wp_bind. apply (read_data_run X s0); [done|done|]. intros data s1 Hk1 _ _.
    eapply (store_run X s0 _ (λ _, True)); [done| |done].
    eapply fwp_mono; [by apply (set_run S)|]. intros r v' [Ho _ _]. split; [|done]. exact (outcome_owned _ _ _ _ _ Ho).
  - apply wp_bind. eapply (store_run X s0 _ (λ r, r.1 = PSA_SUCCESS → Z.of_nat (length r.2) ≤ out_cap msg)); [done| |].
    + eapply fwp_mono; [by apply (get_run S)|]. intros r v' [Ho Hby _]. split; [by apply observed_owned|].
      intros E. destruct (Hby E) as (f & d & _ & _ & ->). unfold part. rewrite length_take. lia.
    + intros [st data] s1 Hr Hd. apply write_data_run; [by apply Hb1|done|done].
  - apply wp_if; intros _; [by apply wp_ret, kept_reached|]. apply wp_bind. eapply (store_run X s0 _ (λ _, True)); [done| |].
    + eapply fwp_mono; [by apply (get_info_run S)|]. intros r v' [Ho _ _]. split; [by apply observed_owned|done].
    + intros [st i] s1 Hr _. apply answer_run; [by apply Hb1|done].
  - eapply (store_run X s0 _ (λ _, True)); [done| |done].
    eapply fwp_mono; [by apply (remove_run S)|]. intros r v' [Ho _ _]. split; [|done]. exact (outcome_owned _ _ _ _ _ Ho).
Qed.

(** No key backend is bound, and randomness does not touch the store. *)
Lemma serve_key_run req s0 s : bound s0 → kept s0 s → wp (serve_key pid msg req) (λ _, reached X s0) (λ _, reached X s0) s.
Proof.
  intros Hb0 Hk. pose proof (kept_bound _ _ Hk Hb0) as Hb. apply wp_bind, wp_gets. rewrite (bd_key _ Hb). cbv zeta.
  assert (∀ s1, kept s0 s1 → wp (call (in_store refuse)) (λ _ : Z, reached X s0) (λ _, reached X s0) s1) as Href.
  { intros s1 Hk1. unfold wp, call, in_store. cbv [mbind prog_bind]. simpl. apply kept_reached. unfold kept in *. rewrite Hk1. by destruct s0. }
  assert (∀ s1, kept s0 s1 → wp ('(status, out) ← call (in_store (refuse_out [])); write_data pid msg status out (out_cap msg))
    (λ _, reached X s0) (λ _, reached X s0) s1) as Hout'.
  { intros s1 Hk1. apply wp_bind. unfold wp, call, in_store. cbv [mbind prog_bind]. simpl. apply kept_reached. unfold kept in *. rewrite Hk1. by destruct s0. }
  assert (∀ over (k : list Z → prog sys Z Z), (∀ data s1, kept s0 s1 → wp (k data) (λ _, reached X s0) (λ _, reached X s0) s1) →
    wp (data ← read_data pid msg over; k data) (λ _, reached X s0) (λ _, reached X s0) s) as Hrd.
  { intros over k Hkk. apply wp_bind, (read_data_run X s0); [done|done|]. intros data s1 Hk1 _ _. by apply Hkk. }
  apply wp_if; intros _; [by apply Href|]. apply wp_if; intros _; [by apply Hrd; intros; apply Href|].
  apply wp_if; intros _; [by apply Hout'|]. apply wp_if; intros _; [by apply Hrd; intros; apply Hout'|].
  apply wp_if; intros _; apply Hrd; intros data s1 Hk1; [|destruct (_ =? _); by apply Hout'].
  cbv zeta. apply wp_if; intros _; [by apply wp_ret, kept_reached|]. by apply Href.
Qed.
Lemma serve_random_run s0 s : bound s0 → kept s0 s → Forall (λ n, 0 ≤ n) (pm_out_size msg) →
  wp (serve_random pid msg) (λ _, reached X s0) (λ _, reached X s0) s.
Proof.
  intros Hb0 Hk _. pose proof (kept_bound _ _ Hk Hb0) as Hb. unfold serve_random. cbv zeta.
  apply wp_if; intros E; [by apply wp_ret, kept_reached|]. apply wp_bind, wp_gets, wp_bind, wp_call.
  eapply fwp_mono; [apply in_world_run, (bd_rng _ Hb)|]. intros [st out] s1 [Hk1 Hl]. simpl in Hl.
  assert (kept s0 s1) as Hk01 by by eapply kept_trans. apply wp_if; intros E1; bool_hyps; [|by apply wp_ret, kept_reached].
  apply wp_bind. eapply wp_defined; [by apply buf_read_all, Hl|].
  apply answer_run; [by eapply kept_bound|by apply kept_reached].
Qed.

Lemma service_serve_run s0 s : bound s0 → kept s0 s → env S (vs_store s0) → vinv S (obs (vs_store s0)) →
  global (obs (vs_store s0)) < 2 ^ 64 - 1 → fwp (wt_vault_service_serve pid msg) (λ _, reached X s0) s.
Proof.
  intros Hb0 Hk He HI Hg. pose proof (kept_bound _ _ Hk Hb0) as Hb. apply fwp_fn, wp_bind, (read_header_run X s0); [done|done|done|].
  intros buf s1 Hk1 _ Hby. destruct (req_ranges buf Hby) as [Hl Ho]. cbv zeta.
  apply wp_if; intros _; [by apply serve_storage_run|]. apply wp_if; intros _; [by apply serve_key_run|].
  apply wp_if; intros _; [by apply serve_random_run|by apply wp_ret, kept_reached].
Qed.
End storage.

(** ** The door *)

Lemma door_serve_run pid msg s : bound s → env S (vs_store s) →
  fwp (wt_vault_nvm_serve pid msg) (λ _ s', reached through_door s s' ∧
    (vs_store s' = vs_store s ∨ g_vault_keystore_client s ≠ 0 ∧ pm_client_id msg = g_vault_keystore_client s)) s.
Proof.
  intros Hb He. set (X v v' := through_door v v' ∧ g_vault_keystore_client s ≠ 0 ∧ pm_client_id msg = g_vault_keystore_client s).
  eapply (fwp_mono _ (λ _, reached X s)).
  2:{ intros _ s' [E Hs]. split; [split; [done|]|]; destruct Hs as [?|(? & ? & ?)]; auto. }
  apply fwp_fn, wp_bind, wp_gets. apply wp_if; intros E0; [by apply wp_ret, kept_reached, kept_refl|].
  apply orb_false_iff in E0 as [E0 E1]. bool_hyps.
  apply wp_bind, (read_header_run X s); [done|apply kept_refl|done|]. intros buf s1 Hk1 _ Hby. cbv zeta.
  assert (∀ s2, reached X s s2 → bound s2) as Hb2 by by (intros; eapply reached_bound).
  pose proof (kept_bound _ _ Hk1 Hb) as Hb1. apply wp_bind, wp_gets. rewrite (bd_nvm _ Hb1).
  set (v0 := vs_store s) in *. assert (∀ v', through_door v0 v' → X v0 v') as HX by by intros v' Hv'.
  apply wp_if; intros _; [|apply wp_if; intros _; [|apply wp_if; intros _; [|apply wp_if; intros _; [|apply wp_if; intros _]]]].
  - apply wp_if; intros _; [by apply wp_ret, kept_reached|]. apply wp_bind. eapply (store_run X s _ (λ _, True)); [done| |].
    + eapply fwp_mono; [by apply (get_available_run S)|]. intros r v' [Hd _]. split; [by apply HX|done].
    + intros [st a] s2 Hr2 _. apply answer_run; [by apply Hb2|done].
  - apply wp_if; intros _; [by apply wp_ret, kept_reached|]. apply wp_bind. eapply (store_run X s _ (λ _, True)); [done| |].
    + eapply fwp_mono; [by apply (get_metadata_run S)|]. intros r v' [Hd _]. split; [by apply HX|done].
    + intros [st a] s2 Hr2 _. apply answer_run; [by apply Hb2|done].
  - apply wp_if; intros _; [by apply wp_ret, kept_reached|]. apply wp_bind, (read_data_run X s); [done|done|]. intros data s2 Hk2 _ _.
    eapply (store_run X s _ (λ _, True)); [done| |done].
    eapply fwp_mono; [by apply (add_object_run S)|]. intros r v' [Hd _]. split; [by apply HX|done].
  - assert (∀ ids s2, kept s s2 → wp (call (in_store (wt_hsm_vault_nvm_destroy ids))) (λ _ : Z, reached X s) (λ _, reached X s) s2) as Hdes.
    { intros ids s2 Hk2. eapply (store_run X s _ (λ _, True)); [done| |done].
      eapply fwp_mono; [by apply (destroy_run S)|]. intros r v' [Hd _]. split; [by apply HX|done]. }
    apply wp_if; intros E2; [by apply wp_ret, kept_reached|]. apply wp_if; intros E3; [|by apply Hdes].
    apply wp_bind, read_vec_run; [done| |].
    + pose proof (field_range buf 10 2 Hby). bool_hyps. cbn [nq_count nvm_req_of_bytes] in *. lia.
    + intros r s2 Hk2 _. assert (kept s s2) by by eapply kept_trans. destruct r as [e|ids]; [by apply wp_ret, kept_reached|].
      apply wp_if; intros _; [by apply wp_ret, kept_reached|by apply Hdes].
  - apply wp_if; intros E2; [by apply wp_ret, kept_reached|]. apply orb_false_iff in E2 as [E2 _]. bool_hyps. apply wp_bind.
    set (req := nvm_req_of_bytes buf) in *. assert (0 ≤ nq_len req) as Hl0 by apply (field_range buf 4 4 Hby).
    eapply (store_run X s _ (λ r, r.1 = PSA_SUCCESS → Z.of_nat (length r.2) = nq_len req)); [done| |].
    + eapply fwp_mono; [by apply (nvm_read_run S)|]. intros r v' [Hd Hdis]. split; [by apply HX|]. intros E3.
      destruct (proj2 Hdis E3) as (m & d & _ & Hr). apply buf_read_length in Hr as [-> _]. apply u16_small. unfold WT_VAULT_OBJECT_MAX in E2. lia.
    + intros [st d] s2 Hr2 Hl. apply wp_if; intros E3; bool_hyps; [|by apply wp_ret].
      apply wp_bind. eapply wp_defined; [by apply buf_read_all, Hl|]. apply answer_run; [by apply Hb2|done].
  - by apply wp_ret, kept_reached.
Qed.

(** ** The service loop *)

(** The gate named client [c] in the answer to a [psa_get] of the partition. *)
Definition delivered (pid c : Z) : Prop :=
  ∃ sig w, c = pm_client_id (sr_msg (transport {| rq_partition_id := pid; rq_op := SvcGet sig |} w).2).
(** What one round of the service does to the store. *)
Definition served (pid keystore : Z) v v' : Prop :=
  v' = v ∨ ∃ c, delivered pid c ∧
    (((keystore = 0 ∨ c ≠ keystore) ∧ owned c v v') ∨ (keystore ≠ 0 ∧ c = keystore ∧ through_door v v')).

Lemma dispatch_run pid s : bound s → env S (vs_store s) → vinv S (obs (vs_store s)) → global (obs (vs_store s)) < 2 ^ 64 - 1 →
  fwp (wt_vault_service_dispatch pid) (λ _, reached (served pid (g_vault_keystore_client s)) s) s.
Proof.
  intros Hb He HI Hg. set (X := served pid (g_vault_keystore_client s)). pose proof (bd_transport _ Hb) as Et.
  apply fwp_fn, wp_bind, wp_gets. rewrite Et. apply wp_bind, wp_call.
  eapply fwp_mono; [apply in_world_run, (wait_service_signal_ok transport (λ _ _, True)); done|]. intros [ret sig] s1 [Hk1 _].
  assert (reached X s s1) as Hr1 by by apply kept_reached.
  apply wp_if; intros _; [by apply wp_ret|]. apply wp_if; intros _; [by apply wp_ret|].
  apply wp_bind, wp_call. eapply fwp_mono; [apply xfer_run|]. intros r s2 [Hk2 Er]. assert (kept s s2) as Hk by by eapply kept_trans.
  apply wp_if; intros _; [by apply wp_ret, kept_reached|]. cbv zeta. set (msg := sr_msg r). apply wp_bind, wp_gets.
  rewrite (kept_keystore _ _ Hk). destruct (message_ranges pid sig (vs_world s1)) as [Hcl Hout]. rewrite <-Er in Hcl, Hout. fold msg in Hcl, Hout.
  assert (delivered pid (pm_client_id msg)) as Hdel by (exists sig, (vs_world s1); by rewrite <-Er).
  apply wp_bind. eapply (wp_mono _ (λ _, reached X s) _ (λ _, reached X s)); [|done|].
  - apply wp_if; intros _; [by apply wp_ret, kept_reached|]. apply wp_if; intros _; [by apply wp_ret, kept_reached|].
    apply wp_if; intros _; [|apply wp_if; intros _; [|by apply wp_ret, kept_reached]].
    + apply wp_if; intros E1; [by apply wp_ret, kept_reached|]. apply wp_call.
      eapply fwp_mono; [by apply (service_serve_run pid msg Hcl Hout s s2)|]. intros _ s3 [E Hs]. split; [done|]. right.
      destruct Hs as [->|Ho]; [by left|]. right. exists (pm_client_id msg). split; [done|]. left. split; [|done].
      apply andb_false_iff in E1 as [E1|E1]; bool_hyps; [by left|by right].
    + apply wp_call. eapply fwp_mono; [apply (door_serve_run pid msg s2); [by eapply kept_bound|by rewrite (kept_store _ _ Hk)]|].
      intros _ s3 [Hr3 Hs3]. apply (kept_then _ _ _ _ Hk) in Hr3. rewrite (kept_store _ _ Hk), (kept_keystore _ _ Hk) in Hs3.
      destruct Hr3 as [E Hd]. split; [done|]. destruct Hd as [->|Hd]; [by left|]. destruct Hs3 as [->|[Hn Hc]]; [by left|].
      right. right. exists (pm_client_id msg). split; [done|]. right. done.
  - intros st s3 Hr3. apply wp_bind, wp_call. eapply fwp_mono; [apply xfer_run|]. intros r' s4 [Hk4 _].
    assert (reached X s s4) by by eapply reached_kept. by apply wp_if; intros _; apply wp_ret.
Qed.

(** C17: the vault service serves each client on its own objects. One round of the
    service is defined, whatever the gate delivers; it leaves the store as it is,
    or it acts for the client that the gate stamped on the message: a client
    other than the keystore's changes no object of another owner, after any write
    to the store, and keeps the store's invariant; the keystore's client acts
    through the door, where objects that are not the keystore's stay as they
    are. *)
Theorem vault_service_isolates pid s : bound s → env S (vs_store s) → vinv S (obs (vs_store s)) →
  global (obs (vs_store s)) < 2 ^ 64 - 1 →
  ∃ s' r, wt_vault_service_dispatch pid s = Some (s', r) ∧ served pid (g_vault_keystore_client s) (vs_store s) (vs_store s').
Proof.
  intros Hb He HI Hg. destruct (fwp_run _ _ _ (dispatch_run pid s Hb He HI Hg)) as (s' & r & E & [_ Hs]).
  exists s', r. split; [done|]. destruct Hs as [->|Hs]; [by left|done].
Qed.
End service.

(** ** A round of the service *)

(** A gate that delivers one message with the input vectors it holds. *)
Definition toy_message (client type : Z) (ins : list (list Z)) : psa_msg :=
  {| pm_type := type; pm_handle := 1; pm_client_id := client; pm_rhandle := 0;
     pm_in_size := (λ l, Z.of_nat (length l)) <$> ins; pm_out_size := [0; 0; 0; 0] |}.
Definition toy_result (msg : psa_msg) (data : list Z) : svc_result :=
  {| sr_return := 0; sr_int := 0; sr_status := 0; sr_tick := 0; sr_handle := 0; sr_version := 0; sr_asserted := 0x10;
     sr_msg := msg; sr_data := data; sr_out := [] |}.
Definition toy_transport (client type : Z) : transport_fn (list (list Z)) := λ rq ins,
  let msg := toy_message client type ins in
  match rq_op rq with
  | SvcRead _ idx n =>
    let bytes := filter is_byte (take (Z.to_nat n) (default [] (ins !! idx))) in
    (<[idx := drop (Z.to_nat n) (default [] (ins !! idx))]> ins, toy_result msg bytes)
  | _ => (ins, toy_result msg [])
  end.
#[export] Instance toy_transport_ok client type : TransportOk (toy_transport client type).
Proof.
  intros pid h idx n w Hn. simpl. split.
  - pose proof (length_filter is_byte (take (Z.to_nat n) (default [] (w !! idx)))) as Hf. rewrite length_take in Hf. lia.
  - apply Forall_forall. intros x Hx. by apply list_elem_of_filter in Hx as [? _].
Qed.
#[export] Instance toy_messages_ok client type : - 2 ^ 31 ≤ client < 2 ^ 31 → MessagesOk (toy_transport client type).
Proof. intros Hc pid sig w. simpl. split; [done|]. by repeat constructor. Qed.

Definition toy_header : list Z :=
  bytes_of_vault_req {| vr_uid := 9; vr_flags := WT_VAULT_FLAG_SEALED; vr_offset := 0; vr_sub_owner := -7; vr_reserved := 0 |}.
Definition toy_service : vault_service (list (list Z)) (vault store) :=
  {| vs_world := [toy_header; [3; 1; 4]]; vs_store := demo1; g_vault_backend := wt_hsm_vault_backend;
     g_vault_key_backend := g_vault_default_key_backend; g_vault_nvm_backend := wt_hsm_vault_nvm_backend;
     g_vault_keystore_client := 5; g_vault_rng := wt_vault_default_rng; g_vault_transport := toy_transport 2 WT_VAULT_OP_SET |}.
Definition served_service : vault_service (list (list Z)) (vault store) :=
  match wt_vault_service_dispatch 3 toy_service with Some (s, _) => s | None => toy_service end.
(** Partition 2 stores an object for its client -7. *)
Lemma vault_service_isolates_witness :
  content toy_sealer (obs (vs_store served_service)) (2, -7, 9) = Some (WT_VAULT_FLAG_SEALED, Some [3; 1; 4]) ∧
  ∃ s' r, wt_vault_service_dispatch 3 toy_service = Some (s', r) ∧
    served toy_sealer (toy_transport 2 WT_VAULT_OP_SET) 3 5 (vs_store toy_service) (vs_store s').
Proof.
  split; [by vm_compute|].
  apply (vault_service_isolates toy_sealer (toy_transport 2 WT_VAULT_OP_SET) (MessagesOk0 := toy_messages_ok 2 _ ltac:(done)) 3 toy_service).
  - by constructor.
  - apply demo1_ok.
  - apply demo1_ok.
  - by vm_compute.
Defined.
