(* ===== verification/Storage.v ===== *)
(** * The storage front ends: [services/storage_service.c]

    Internal trusted storage and protected storage are two instances of one
    service loop, which keeps no object itself: a request of a client is forwarded
    to the vault, over a connection that lasts for the request. The context lives
    on the stack of the partition; here it is part of the state, with the rest of
    the system in [ss_world]. Local structures that the vault fills are values;
    reading one that the vault left partly unset is undefined, as is a reply that
    is longer than its buffer.

    The second half specifies the conversation of the service with the gate as an
    automaton over the requests it makes and the results it sees, and shows that
    the loop follows it. *)

From Stdlib Require Import ZArith Lia.
From stdpp Require Import base list numbers option sets gmap.
From S2P Require Import Prelude Buffers CState FfmTypes Service VaultStore VaultFacts Vault VaultServiceProps.

Definition WT_ITS_OP_SET : Z := 1.
Definition WT_ITS_OP_GET : Z := 2.
Definition WT_ITS_OP_GET_INFO : Z := 3.
Definition WT_ITS_OP_REMOVE : Z := 4.
Definition WT_PS_OP_CREATE : Z := 5.
Definition WT_PS_OP_SET_EXTENDED : Z := 6.
Definition WT_PS_OP_GET_SUPPORT : Z := 7.

Record wt_its_req := { ir_uid : Z; ir_flags : Z; ir_offset : Z }.
Definition sizeof_its_req : Z := 16.
Definition its_req_of_bytes (buf : list Z) : wt_its_req :=
  {| ir_uid := field buf 0 8; ir_flags := field buf 8 4; ir_offset := field buf 12 4 |}.
Definition vault_info_of_bytes (buf : list Z) : wt_vault_info :=
  {| vi_capacity := field buf 0 4; vi_size := field buf 4 4; vi_flags := field buf 8 4; vi_reserved := field buf 12 4 |}.

Record wt_storage_service_ctx (W : Type) := {
  ss_world : W;
  ctx_transport : option (transport_fn W);
  ctx_vault_sid : Z;
  ctx_vault_handle : Z;
  ctx_client_flags_mask : Z;
  ctx_vault_flags : Z;
  ctx_caps : Z;
}.
Arguments ss_world {W}. Arguments ctx_transport {W}. Arguments ctx_vault_sid {W}. Arguments ctx_vault_handle {W}.
Arguments ctx_client_flags_mask {W}. Arguments ctx_vault_flags {W}. Arguments ctx_caps {W}.

Section service.
Context {W : Type}.
Abbreviation ctx := (wt_storage_service_ctx W).
#[export] Instance storage_ctx_eta : Settable ctx := λ s,
  {| ss_world := ss_world s; ctx_transport := ctx_transport s; ctx_vault_sid := ctx_vault_sid s;
     ctx_vault_handle := ctx_vault_handle s; ctx_client_flags_mask := ctx_client_flags_mask s;
     ctx_vault_flags := ctx_vault_flags s; ctx_caps := ctx_caps s |}.
#[export] Instance set_ss_world : Setter (@ss_world W). Proof. derive_setter. Defined.
#[export] Instance set_ctx_vault_handle : Setter (@ctx_vault_handle W). Proof. derive_setter. Defined.

(** An operation of the transport of the context, which is not null here. *)
Definition via {A} (f : transport_fn W → func W A) : func ctx A := λ s,
  match ctx_transport s with
  | None => None
  | Some transport => '(w, a) ← f transport (ss_world s); Some (s <| ss_world := w |>, a)
  end.
Definition request (partition_id : Z) (op : svc_op) : func ctx svc_result := via (λ transport, xfer transport partition_id op).

(** The result, and the block after the call. *)
Definition wt_storage_xfer (partition_id : Z) (op : svc_op) : func ctx (Z * svc_result) := fn (
  r ← call (request partition_id op);
  if negb (sr_return r =? WT_FFM_SUCCESS) || (sr_int r =? WT_FFM_ERROR_NOT_READY) then mret (WT_FFM_ERROR_STATE, r)
  else mret (WT_FFM_SUCCESS, r)).

Definition wt_storage_vault_handle (partition_id : Z) : func ctx Z := fn (
  h ← gets ctx_vault_handle;
  if 0 <? h then mret PSA_SUCCESS else
  sid ← gets ctx_vault_sid;
  '(ret, r) ← call (wt_storage_xfer partition_id (SvcConnect sid 1));
  if negb (ret =? WT_FFM_SUCCESS) || negb (sr_int r =? WT_FFM_SUCCESS) || (sr_handle r <=? 0) then mret PSA_ERROR_GENERIC_ERROR else
  modify (λ s, s <| ctx_vault_handle := sr_handle r |>);;
  mret PSA_SUCCESS).

Definition wt_storage_vault_close (partition_id : Z) : func ctx unit := fn (
  h ← gets ctx_vault_handle;
  when (0 <? h) (_ ← call (wt_storage_xfer partition_id (SvcClose h)); mret tt);;
  modify (λ s, s <| ctx_vault_handle := 0 |>)).

(** The status, and what the vault stored in the output vector, which has
    [sp_out[0].len] bytes after the call. [data] and [out_cap] are absent where
    the source passes a null pointer. *)
Definition wt_storage_vault_call (partition_id type : Z) (vreq : wt_vault_req) (data : option (list Z)) (out_cap : option Z) :
    func ctx (Z * list Z) := fn (
  h ← gets ctx_vault_handle;
  '(ret, r) ← call (wt_storage_xfer partition_id
    (SvcCall h type (bytes_of_vault_req vreq :: option_list data) (option_list out_cap)));
  if negb (ret =? WT_FFM_SUCCESS) || negb (sr_int r =? WT_FFM_SUCCESS) then mret (PSA_ERROR_GENERIC_ERROR, []) else
  let out := default [] (sr_out r !! 0%nat) in
  defined (if Z.of_nat (length out) <=? default 0 out_cap then Some tt else None);;
  mret (sr_status r, out)).

Definition wt_storage_read_req (partition_id msg_handle capacity : Z) : func ctx (Z + list Z) :=
  via (λ transport, read_vec transport partition_id msg_handle 0 capacity).
Definition wt_storage_write_reply (partition_id msg_handle : Z) (data : list Z) : func ctx Z :=
  via (λ transport, write_vec transport partition_id msg_handle 0 data).

(** The checks of a request: the bytes read, and the status so far. *)
Definition accept_request (partition_id : Z) (msg : psa_msg) : func ctx (Z * list Z) := fn (
  let capacity := sizeof_its_req + WT_VAULT_OBJECT_MAX in
  if negb (sizeof_its_req <=? in_size msg 0) then mret (PSA_ERROR_INVALID_ARGUMENT, []) else
  if capacity <? in_size msg 0 then mret (PSA_ERROR_INSUFFICIENT_STORAGE, []) else
  r ← call (wt_storage_read_req partition_id (pm_handle msg) capacity);
  match r with
  | inl _ => mret (PSA_ERROR_INVALID_ARGUMENT, [])
  | inr buf =>
    if Z.of_nat (length buf) <? sizeof_its_req then mret (PSA_ERROR_INVALID_ARGUMENT, buf) else
    if ir_uid (its_req_of_bytes buf) =? 0 then mret (PSA_ERROR_INVALID_ARGUMENT, buf) else
    if (pm_type msg =? WT_PS_OP_CREATE) || (pm_type msg =? WT_PS_OP_SET_EXTENDED) then mret (PSA_ERROR_NOT_SUPPORTED, buf) else
    status ← call (wt_storage_vault_handle partition_id);
    mret (status, buf)
  end).
(** The bytes of a reply that succeeded so far. *)
Definition reply_with (partition_id : Z) (msg : psa_msg) (status : Z) (data : list Z) : prog ctx Z Z :=
  if status =? PSA_SUCCESS then
    ret ← call (wt_storage_write_reply partition_id (pm_handle msg) data);
    mret (if negb (ret =? WT_FFM_SUCCESS) then PSA_ERROR_GENERIC_ERROR else status)
  else mret status.
(** The accepted request, forwarded to the vault. *)
Definition forward_request (partition_id : Z) (msg : psa_msg) (buf : list Z) : func ctx Z := fn (
  let req := its_req_of_bytes buf in
  let vreq := {| vr_uid := ir_uid req; vr_flags := ir_flags req; vr_offset := ir_offset req;
                 vr_sub_owner := pm_client_id msg; vr_reserved := 0 |} in
  let type := pm_type msg in
  vault_flags ← gets ctx_vault_flags;
  if type =? WT_ITS_OP_SET then
    mask ← gets ctx_client_flags_mask;
    if negb (ir_flags req .&~ mask =? 0) then mret PSA_ERROR_NOT_SUPPORTED else
    '(status, _) ← call (wt_storage_vault_call partition_id WT_VAULT_OP_SET
      {| vr_uid := ir_uid req; vr_flags := ir_flags req .| vault_flags; vr_offset := ir_offset req;
         vr_sub_owner := pm_client_id msg; vr_reserved := 0 |}
      (Some (drop (Z.to_nat sizeof_its_req) buf)) None);
    mret status
  else if type =? WT_ITS_OP_GET then
    let cap := out_size msg 0 in
    let cap := if WT_VAULT_OBJECT_MAX <? cap then WT_VAULT_OBJECT_MAX else cap in
    let cap := if WT_FFM_TRANSFER_BYTES - sizeof_vault_req <? cap then WT_FFM_TRANSFER_BYTES - sizeof_vault_req else cap in
    '(status, out) ← call (wt_storage_vault_call partition_id WT_VAULT_OP_GET vreq None (Some cap));
    reply_with partition_id msg status out
  else if type =? WT_ITS_OP_GET_INFO then
    if out_size msg 0 <? sizeof_vault_info then mret PSA_ERROR_INVALID_ARGUMENT else
    '(status, out) ← call (wt_storage_vault_call partition_id WT_VAULT_OP_GET_INFO vreq None (Some sizeof_vault_info));
    if status =? PSA_SUCCESS then
      info ← defined (if Z.of_nat (length out) =? sizeof_vault_info then Some (vault_info_of_bytes out) else None);
      let info := {| vi_capacity := vi_capacity info; vi_size := vi_size info; vi_flags := vi_flags info .&~ vault_flags;
                     vi_reserved := vi_reserved info |} in
      reply_with partition_id msg status (bytes_of_vault_info info)
    else mret status
  else if type =? WT_ITS_OP_REMOVE then
    '(status, _) ← call (wt_storage_vault_call partition_id WT_VAULT_OP_REMOVE vreq None None);
    mret status
  else mret PSA_ERROR_NOT_SUPPORTED).

Definition wt_storage_service_call (partition_id : Z) (msg : psa_msg) : func ctx Z := fn (
  '(status, buf) ← call (accept_request partition_id msg);
  status ← (if status =? PSA_SUCCESS then call (forward_request partition_id msg buf) else mret status);
  call (wt_storage_vault_close partition_id);;
  mret status).

(** The status of the reply to a message. *)
Definition serve_message (partition_id : Z) (msg : psa_msg) : func ctx Z := fn (
  let type := pm_type msg in
  if (type =? PSA_IPC_CONNECT) || (type =? PSA_IPC_DISCONNECT) then mret PSA_SUCCESS else
  if type =? WT_PS_OP_GET_SUPPORT then
    caps ← gets ctx_caps;
    if out_size msg 0 <? 4 then mret PSA_ERROR_INVALID_ARGUMENT else
    reply_with partition_id msg PSA_SUCCESS (to_le 4 caps)
  else if (WT_ITS_OP_SET <=? type) && (type <=? WT_PS_OP_SET_EXTENDED) then call (wt_storage_service_call partition_id msg)
  else mret PSA_ERROR_NOT_SUPPORTED).
Definition serve_round (partition_id : Z) : func ctx Z := fn (
  '(ret, asserted) ← call (via (λ transport, wt_spm_wait_service_signal transport partition_id));
  if negb (ret =? WT_FFM_SUCCESS) then mret WT_FFM_ERROR_STATE else
  if asserted =? 0 then mret WT_FFM_SUCCESS else
  r ← call (request partition_id (SvcGet asserted));
  if negb (sr_return r =? WT_FFM_SUCCESS) || negb (sr_status r =? PSA_SUCCESS) then mret WT_FFM_ERROR_STATE else
  reply_status ← call (serve_message partition_id (sr_msg r));
  r' ← call (request partition_id (SvcReply (pm_handle (sr_msg r)) reply_status));
  if negb (sr_return r' =? WT_FFM_SUCCESS) || negb (sr_int r' =? WT_FFM_SUCCESS) then mret WT_FFM_ERROR_STATE
  else mret WT_FFM_SUCCESS).
(** A null context, or a null transport, fails closed. *)
Definition wt_storage_service_dispatch (context : option ctx) (partition_id : Z) : option (option ctx * Z) :=
  match context with
  | None => Some (None, WT_FFM_ERROR_STATE)
  | Some s =>
    match ctx_transport s with
    | None => Some (context, WT_FFM_ERROR_STATE)
    | Some _ => '(s', r) ← serve_round partition_id s; Some (Some s', r)
    end
  end.

(** ** The partitions: [spm_partitions.c] *)

(** [for (;;) { (void)wt_storage_service_dispatch(&ctx, NULL, partition_id); }],
    for its first [rounds] iterations. *)
Fixpoint service_rounds (rounds : nat) (partition_id : Z) (context : option ctx) : option (option ctx) :=
  match rounds with
  | O => Some context
  | S rounds' => '(context', _) ← wt_storage_service_dispatch context partition_id; service_rounds rounds' partition_id context'
  end.
(** [SERVICE_VAULT_SID] is in a file that the build generates. *)
Definition its_context (SERVICE_VAULT_SID : Z) (svc_transport : transport_fn W) (w : W) : ctx :=
  {| ss_world := w; ctx_transport := Some svc_transport; ctx_vault_sid := SERVICE_VAULT_SID; ctx_vault_handle := 0;
     ctx_client_flags_mask := WT_VAULT_FLAG_WRITE_ONCE; ctx_vault_flags := 0; ctx_caps := 0 |}.
Definition ps_context (SERVICE_VAULT_SID : Z) (svc_transport : transport_fn W) (w : W) : ctx :=
  {| ss_world := w; ctx_transport := Some svc_transport; ctx_vault_sid := SERVICE_VAULT_SID; ctx_vault_handle := 0;
     ctx_client_flags_mask := WT_VAULT_FLAG_WRITE_ONCE .| WT_VAULT_FLAG_NO_CONFIDENTIALITY .| WT_VAULT_FLAG_NO_REPLAY;
     ctx_vault_flags := WT_VAULT_FLAG_SEALED; ctx_caps := 0 |}.
Definition wt_spm_its_entry (SERVICE_VAULT_SID : Z) (svc_transport : transport_fn W) (rounds : nat) (partition_id : Z) (w : W) :
    option (option ctx) := service_rounds rounds partition_id (Some (its_context SERVICE_VAULT_SID svc_transport w)).
Definition wt_spm_ps_entry (SERVICE_VAULT_SID : Z) (svc_transport : transport_fn W) (rounds : nat) (partition_id : Z) (w : W) :
    option (option ctx) := service_rounds rounds partition_id (Some (ps_context SERVICE_VAULT_SID svc_transport w)).
End service.

(** ** The conversation with the gate *)

(** What the loop is bound to: its partition, the vault, and its face. *)
Record face := { fc_pid : Z; fc_sid : Z; fc_mask : Z; fc_flags : Z; fc_caps : Z }.
Definition face_of {W} (pid : Z) (c : wt_storage_service_ctx W) : face :=
  {| fc_pid := pid; fc_sid := ctx_vault_sid c; fc_mask := ctx_client_flags_mask c; fc_flags := ctx_vault_flags c; fc_caps := ctx_caps c |}.

(** A request with the block after it. *)
Definition entry : Type := svc_request * svc_result.

(** Where the loop is: between messages; with a message and the bytes of it read
    so far; with a connection [h] to the vault; with the vault's answer, and the
    bytes that the client is still owed; with the status for the client. *)
Inductive phase :=
| Idle
| Got (m : psa_msg) (buf : list Z)
| Opened (m : psa_msg) (buf : list Z) (h : Z)
| Called (m : psa_msg) (h : Z) (owed : option (list Z)) (status : Z)
| Answered (m : psa_msg) (status : Z).

Definition completed (r : svc_result) : bool := (sr_return r =? WT_FFM_SUCCESS) && (sr_int r =? WT_FFM_SUCCESS).
(** The requests that may reach the vault. *)
Definition well_formed (m : psa_msg) (buf : list Z) : bool :=
  (WT_ITS_OP_SET <=? pm_type m) && (pm_type m <=? WT_ITS_OP_REMOVE) && (sizeof_its_req <=? Z.of_nat (length buf)) &&
  negb (field buf 0 8 =? 0).
(** What the vault is asked, in the name of the client; or the refusal. *)
Definition vault_header (m : psa_msg) (buf : list Z) (flags : Z) : list Z :=
  bytes_of_vault_req {| vr_uid := field buf 0 8; vr_flags := flags; vr_offset := field buf 12 4;
                        vr_sub_owner := pm_client_id m; vr_reserved := 0 |}.
Definition forwarded (fc : face) (m : psa_msg) (buf : list Z) : Z + list (list Z) * list Z :=
  let flags := field buf 8 4 in
  if pm_type m =? WT_ITS_OP_SET then
    if flags .&~ fc_mask fc =? 0 then inr ([vault_header m buf (flags .| fc_flags fc); drop 16 buf], [])
    else inl PSA_ERROR_NOT_SUPPORTED
  else if pm_type m =? WT_ITS_OP_GET then inr ([vault_header m buf flags], [Z.min (out_size m 0) (WT_FFM_TRANSFER_BYTES - sizeof_vault_req)])
  else if pm_type m =? WT_ITS_OP_GET_INFO then
    if out_size m 0 <? sizeof_vault_info then inl PSA_ERROR_INVALID_ARGUMENT
    else inr ([vault_header m buf flags], [sizeof_vault_info])
  else inr ([vault_header m buf flags], []).
(** What a client is owed of the vault's output. *)
Definition owed_data (fc : face) (m : psa_msg) (out : list Z) : option (list Z) :=
  if pm_type m =? WT_ITS_OP_GET then Some out
  else if pm_type m =? WT_ITS_OP_GET_INFO then
    Some (to_le 4 (field out 0 4) ++ to_le 4 (field out 4 4) ++ to_le 4 (field out 8 4 .&~ fc_flags fc) ++ to_le 4 (field out 12 4))
  else None.
Definition after_call (fc : face) (m : psa_msg) (h : Z) (r : svc_result) : phase :=
  let status := if completed r then sr_status r else PSA_ERROR_GENERIC_ERROR in
  Called m h (if status =? PSA_SUCCESS then owed_data fc m (default [] (sr_out r !! 0%nat)) else None) status.
(** A message that is answered without the vault: connections succeed. *)
Definition own_answer (m : psa_msg) (status : Z) : bool :=
  if (pm_type m =? PSA_IPC_CONNECT) || (pm_type m =? PSA_IPC_DISCONNECT) then status =? PSA_SUCCESS else status <? 0.
Definition write_status (r : svc_result) : Z := if completed r then PSA_SUCCESS else PSA_ERROR_GENERIC_ERROR.

Definition check {A} (b : bool) (o : A) : option A := if b then Some o else None.
Definition advance (fc : face) (p : phase) (e : entry) : option phase :=
  let r := e.2 in
  if negb (rq_partition_id e.1 =? fc_pid fc) then None else
  match p, rq_op e.1 with
  | Idle, SvcWait _ => Some Idle
  | Idle, SvcClear => Some Idle
  | Idle, SvcGet _ =>
    Some (if (sr_return r =? WT_FFM_SUCCESS) && (sr_status r =? PSA_SUCCESS) then Got (sr_msg r) [] else Idle)
  | Got m buf, SvcRead h O n =>
    check ((h =? pm_handle m) && (0 <=? n)) (Got m (if sr_return r =? WT_FFM_SUCCESS then buf ++ sr_data r else buf))
  | Got m buf, SvcWrite h O data =>
    check ((h =? pm_handle m) && (pm_type m =? WT_PS_OP_GET_SUPPORT) && bool_decide (data = to_le 4 (fc_caps fc)))
      (Answered m (write_status r))
  | Got m buf, SvcConnect sid 1 =>
    check ((sid =? fc_sid fc) && well_formed m buf)
      (if completed r && (0 <? sr_handle r) then Opened m buf (sr_handle r) else Answered m PSA_ERROR_GENERIC_ERROR)
  | Got m buf, SvcReply h status => check ((h =? pm_handle m) && own_answer m status) Idle
  | Opened m buf h, SvcCall h' type ins outs =>
    check ((h' =? h) && (type =? pm_type m) && bool_decide (forwarded fc m buf = inr (ins, outs))) (after_call fc m h r)
  | Opened m buf h, SvcClose h' =>
    match forwarded fc m buf with inl status => check (h' =? h) (Answered m status) | inr _ => None end
  | Called m h (Some data) status, SvcWrite h' O data' =>
    check ((h' =? pm_handle m) && bool_decide (data' = data)) (Called m h None (write_status r))
  | Called m h None status, SvcClose h' => check (h' =? h) (Answered m status)
  | Answered m status, SvcReply h status' => check ((h =? pm_handle m) && (status' =? status)) Idle
  | _, _ => None
  end.
Fixpoint converse (fc : face) (p : phase) (log : list entry) : option phase :=
  match log with [] => Some p | e :: log' => p' ← advance fc p e; converse fc p' log' end.

Lemma converse_snoc fc p log e p' p'' : converse fc p log = Some p' → advance fc p' e = Some p'' →
  converse fc p (log ++ [e]) = Some p''.
Proof.
  revert p. induction log as [|e' log IH]; intros p; simpl.
  - intros [= ->] ->. done.
  - destruct (advance fc p e') as [q|]; [|done]. simpl. apply IH.
Qed.
Lemma converse_snoc_inv fc p log e p'' : converse fc p (log ++ [e]) = Some p'' →
  ∃ p', converse fc p log = Some p' ∧ advance fc p' e = Some p''.
Proof.
  revert p. induction log as [|e' log IH]; intros p; simpl.
  - destruct (advance fc p e) as [q|] eqn:E; [|done]. simpl. intros [= ->]. eauto.
  - destruct (advance fc p e') as [q|]; [|done]. simpl. apply IH.
Qed.

(** ** What the loop relies on *)

(** A completed call filled no more of its output vector than there is, and the
    vault's answer to a query for information is a whole structure. *)
Class VaultReplies {W} (transport : transport_fn W) : Prop :=
  call_outputs pid h type ins outs w :
    let r := (transport {| rq_partition_id := pid; rq_op := SvcCall h type ins outs |} w).2 in
    let n := Z.of_nat (length (default [] (sr_out r !! 0%nat))) in
    completed r = true → (0 ≤ default 0 (outs !! 0%nat) → n ≤ default 0 (outs !! 0%nat)) ∧ (type = WT_VAULT_OP_GET_INFO → sr_status r = PSA_SUCCESS → n = sizeof_vault_info).
(** What the gate promises of each request and its block. *)
Definition entry_ok (e : entry) : Prop :=
  match rq_op e.1 with
  | SvcRead _ _ n => 0 ≤ n → Z.of_nat (length (sr_data e.2)) ≤ n ∧ Forall is_byte (sr_data e.2)
  | SvcGet _ => - 2 ^ 31 ≤ pm_client_id (sr_msg e.2) < 2 ^ 31 ∧ Forall (λ n, 0 ≤ n) (pm_out_size (sr_msg e.2))
  | SvcCall _ type _ outs =>
    let n := Z.of_nat (length (default [] (sr_out e.2 !! 0%nat))) in
    completed e.2 = true → (0 ≤ default 0 (outs !! 0%nat) → n ≤ default 0 (outs !! 0%nat)) ∧ (type = WT_VAULT_OP_GET_INFO → sr_status e.2 = PSA_SUCCESS → n = sizeof_vault_info)
  | _ => True
  end.

(** A transport that keeps a log. *)
Definition logged {W} (transport : transport_fn W) : transport_fn (W * list entry) := λ rq '(w, log),
  let '(w', r) := transport rq w in ((w', log ++ [(rq, r)]), r).

Section conversation.
Context {W : Type} (transport : transport_fn W) `{!TransportOk transport, !MessagesOk transport, !VaultReplies transport}.
Context (fc : face).
Abbreviation pid := (fc_pid fc).
Implicit Types (p : phase) (m : psa_msg) (x : W * list entry).

Lemma logged_entry_ok rq w : entry_ok (rq, (transport rq w).2).
Proof.
  destruct rq as [q op]. unfold entry_ok. simpl.
  destruct op; first [exact I|by apply message_ranges|by intros; apply read_bounded|by apply call_outputs].
Qed.

Definition talking p x : Prop := converse fc Idle x.2 = Some p ∧ Forall entry_ok x.2.
Lemma xfer_talking p (p' : svc_result → phase) op x : talking p x →
  (∀ r, advance fc p ({| rq_partition_id := pid; rq_op := op |}, r) = Some (p' r)) →
  fwp (xfer (logged transport) pid op)
    (λ r x', talking (p' r) x' ∧ entry_ok ({| rq_partition_id := pid; rq_op := op |}, r)) x.
Proof.
  intros [Hc Hl] Ha. unfold fwp, xfer, logged. destruct x as [w log].
  pose proof (logged_entry_ok {| rq_partition_id := pid; rq_op := op |} w) as Hok. destruct (transport _ w) as [w' r].
  split; [|done]. split; [by eapply converse_snoc|]. apply Forall_app; auto.
Qed.

Lemma drain_talking fuel m cap buf x : talking (Got m buf) x → Z.of_nat (length buf) < cap →
  cap - Z.of_nat (length buf) < Z.of_nat fuel →
  wp (drain_loop (logged transport) fuel pid (pm_handle m) 0 cap buf) (λ _ _, False)
    (λ r x', match r with inl _ => ∃ b, talking (Got m b) x' | inr l => talking (Got m l) x' end) x.
Proof.
  revert buf x. induction fuel as [|fuel IH]; intros buf x Ht Hl Hf; simpl; [lia|].
  apply wp_bind, wp_call. eapply fwp_mono; [eapply (xfer_talking _ (λ r, Got m (if sr_return r =? WT_FFM_SUCCESS then buf ++ sr_data r else buf))); [done|]|].
  { intros r. unfold advance. simpl. rewrite !Z.eqb_refl. simpl. by rewrite (proj2 (Z.leb_le _ _)) by lia. }
  cbv beta. intros r x1 [Ht1 Hok]. apply wp_if; intros E; bool_hyps; [apply wp_ret; eauto|].
  rewrite E in Ht1. simpl in Ht1. apply wp_if; intros E1.
  { apply wp_ret. apply Nat.eqb_eq, length_zero_iff_nil in E1. by rewrite E1, app_nil_r in Ht1. }
  apply Nat.eqb_neq in E1. destruct Hok as [Hn _]; [lia|]. simpl in Hn. apply wp_bind.
  rewrite length_app, (proj2 (Z.leb_le _ _)) by lia. eapply wp_defined; [done|].
  apply wp_if; intros E2; bool_hyps; [by apply wp_ret|]. apply IH; [done|rewrite length_app; lia..].
Qed.
Lemma wait_talking x : talking Idle x → fwp (wt_spm_wait_service_signal (logged transport) pid) (λ _ x', talking Idle x') x.
Proof.
  intros Ht. apply fwp_fn, wp_bind, wp_call. eapply fwp_mono; [eapply (xfer_talking _ (λ _, Idle)); [done|]|].
  { intros r. unfold advance. simpl. by rewrite Z.eqb_refl. }
  cbv beta. intros r x1 [Ht1 _]. apply wp_if; intros _; [by apply wp_ret|]. cbv zeta. apply wp_if; intros _; [|by apply wp_ret].
  apply wp_bind, wp_call. eapply fwp_mono; [eapply (xfer_talking _ (λ _, Idle)); [done|]|].
  { intros c. unfold advance. simpl. by rewrite Z.eqb_refl. }
  cbv beta. intros c x2 [Ht2 _]. by apply wp_if; intros _; apply wp_ret.
Qed.
Lemma write_talking p (p' : svc_result → phase) h data x : talking p x →
  (∀ r, advance fc p ({| rq_partition_id := pid; rq_op := SvcWrite h 0 data |}, r) = Some (p' r)) →
  fwp (write_vec (logged transport) pid h 0 data)
    (λ ret x', ∃ r, talking (p' r) x' ∧ ret = if completed r then WT_FFM_SUCCESS else WT_FFM_ERROR_STATE) x.
Proof.
  intros Ht Ha. apply fwp_fn, wp_bind, wp_call. eapply fwp_mono; [by eapply xfer_talking|].
  cbv beta. intros r x1 [Ht1 _]. unfold completed.
  destruct (sr_return r =? _) eqn:E1, (sr_int r =? _) eqn:E2; simpl; apply wp_ret; exists r; by rewrite E1, E2.
Qed.
End conversation.

Section rounds.
Context {W : Type} (transport : transport_fn W) `{!TransportOk transport, !MessagesOk transport, !VaultReplies transport}.
Context (pid : Z) (c : wt_storage_service_ctx (W * list entry)).
Hypothesis bound_transport : ctx_transport c = Some (logged transport).
Abbreviation fc := (face_of pid c).
Abbreviation ctx := (wt_storage_service_ctx (W * list entry)).
Implicit Types (s : ctx) (p : phase) (m : psa_msg).

(** The loop is in phase [p], with the connection [h]. *)
Definition in_phase (h : Z) p s : Prop :=
  s = c <| ctx_vault_handle := h |> <| ss_world := ss_world s |> ∧ talking fc p (ss_world s).
Lemma in_phase_fields h p s : in_phase h p s → ctx_transport s = Some (logged transport) ∧ ctx_vault_handle s = h ∧
  ctx_vault_sid s = fc_sid fc ∧ ctx_client_flags_mask s = fc_mask fc ∧ ctx_vault_flags s = fc_flags fc ∧ ctx_caps s = fc_caps fc.
Proof using bound_transport. intros [-> _]. simpl. auto 10. Qed.
Lemma in_phase_handle h h' p s : in_phase h p s → in_phase h' p (s <| ctx_vault_handle := h' |>).
Proof using bound_transport. intros [E Ht]. split; [|done]. rewrite E. by destruct c. Qed.

Lemma via_run {A} (f : transport_fn (W * list entry) → func (W * list entry) A) (Q : A → phase → Prop) h p s : in_phase h p s →
  fwp (f (logged transport)) (λ a x, ∃ p', talking fc p' x ∧ Q a p') (ss_world s) →
  fwp (via f) (λ a s', ∃ p', in_phase h p' s' ∧ Q a p') s.
Proof using bound_transport.
  intros Hp. destruct (in_phase_fields _ _ _ Hp) as [E _]. destruct Hp as [Es _]. unfold fwp, via. rewrite E.
  destruct (f _ _) as [[x a]|]; [|done]. intros (p' & Ht & HQ). exists p'. split; [|done]. split; [|done].
  rewrite Es. by destruct c.
Qed.
Lemma request_run op (p' : svc_result → phase) h p s : in_phase h p s →
  (∀ r, advance fc p ({| rq_partition_id := pid; rq_op := op |}, r) = Some (p' r)) →
  fwp (request pid op) (λ r s', in_phase h (p' r) s' ∧ entry_ok ({| rq_partition_id := pid; rq_op := op |}, r)) s.
Proof using All.
  intros Hp Ha. eapply fwp_mono; [eapply (via_run _ (λ r q, q = p' r ∧ entry_ok ({| rq_partition_id := pid; rq_op := op |}, r))); [done|]|].
  - eapply fwp_mono; [eapply (xfer_talking transport fc); [apply Hp|done]|]. cbv beta. intros r x [Ht Hok]. eauto.
  - cbv beta. intros r s' (q & Hq & -> & Hok). done.
Qed.
(** The block of a completed request; otherwise the function fails. *)
Lemma storage_xfer_run op (p' : svc_result → phase) h p s : in_phase h p s →
  (∀ r, advance fc p ({| rq_partition_id := pid; rq_op := op |}, r) = Some (p' r)) →
  fwp (wt_storage_xfer pid op) (λ '(ret, r) s', in_phase h (p' r) s' ∧
    entry_ok ({| rq_partition_id := pid; rq_op := op |}, r) ∧
    (ret =? WT_FFM_SUCCESS) && (sr_int r =? WT_FFM_SUCCESS) = completed r) s.
Proof using All.
  intros Hp Ha. apply fwp_fn, wp_bind, wp_call. eapply fwp_mono; [by eapply request_run|]. cbv beta. intros r s' [Hp' Hok].
  apply wp_if; intros E; apply wp_ret; split; [done|split; [done|]| done|split; [done|]]; unfold completed; revert E;
    destruct (sr_return r =? _); simpl; try done. by intros ->%Z.eqb_eq.
Qed.

Lemma reply_run m data h p (p' : svc_result → phase) s : in_phase h p s →
  (∀ r, advance fc p ({| rq_partition_id := pid; rq_op := SvcWrite (pm_handle m) 0 data |}, r) = Some (p' r)) →
  wp (reply_with pid m PSA_SUCCESS data) (λ _ _, False) (λ st s', ∃ r, in_phase h (p' r) s' ∧ st = write_status r) s.
Proof using All.
  intros Hp Ha. unfold reply_with. simpl. apply wp_bind, wp_call.
  eapply fwp_mono; [eapply (via_run _ (λ ret q, ∃ r, q = p' r ∧ ret = if completed r then WT_FFM_SUCCESS else WT_FFM_ERROR_STATE)); [done|]|].
  - eapply fwp_mono; [eapply (write_talking transport fc); [apply Hp|done]|]. cbv beta. intros ret x (r & Ht & ->). eauto.
  - cbv beta. intros ret s' (q & Hq & r & -> & ->). apply wp_ret. exists r. split; [done|]. unfold write_status. by destruct (completed r).
Qed.
Lemma connect_run m buf s : in_phase 0 (Got m buf) s → well_formed m buf = true →
  fwp (wt_storage_vault_handle pid) (λ st s',
    if st =? PSA_SUCCESS then ∃ h, 0 < h ∧ in_phase h (Opened m buf h) s'
    else st = PSA_ERROR_GENERIC_ERROR ∧ in_phase 0 (Answered m st) s') s.
Proof using All.
  intros Hp Hw. destruct (in_phase_fields _ _ _ Hp) as (_ & Eh & Es & _). apply fwp_fn, wp_bind, wp_gets. rewrite Eh. simpl.
  apply wp_bind, wp_gets. rewrite Es. apply wp_bind, wp_call.
  eapply fwp_mono; [eapply (storage_xfer_run _ (λ r, if completed r && (0 <? sr_handle r) then Opened m buf (sr_handle r)
                                                     else Answered m PSA_ERROR_GENERIC_ERROR)); [done|]|].
  { intros r. unfold advance. simpl. by rewrite !Z.eqb_refl, Hw. }
  cbv beta. intros [ret r] s' (Hp' & _ & Ec). rewrite <-negb_andb, Ec. rewrite Z.ltb_antisym in Hp'.
  destruct (completed r); simpl in *; [|by apply wp_ret]. destruct (Z.leb_spec (sr_handle r) 0); simpl in *; [by apply wp_ret|].
  apply wp_bind, wp_modify, wp_ret. simpl. exists (sr_handle r). split; [done|]. by eapply in_phase_handle.
Qed.

Lemma vault_call_run m buf h v data cap s : in_phase h (Opened m buf h) s →
  forwarded fc m buf = inr (bytes_of_vault_req v :: option_list data, option_list cap) → 0 ≤ default 0 cap →
  fwp (wt_storage_vault_call pid (pm_type m) v data cap) (λ '(st, out) s',
    in_phase h (Called m h (if st =? PSA_SUCCESS then owed_data fc m out else None) st) s' ∧
    (pm_type m = WT_VAULT_OP_GET_INFO → st = PSA_SUCCESS → Z.of_nat (length out) = sizeof_vault_info)) s.
Proof using All.
  intros Hp Hf Hc. destruct (in_phase_fields _ _ _ Hp) as (_ & Eh & _). apply fwp_fn, wp_bind, wp_gets. rewrite Eh.
  apply wp_bind, wp_call. eapply fwp_mono; [eapply (storage_xfer_run _ (after_call fc m h)); [done|]|].
  { intros r. unfold advance. simpl. rewrite !Z.eqb_refl. simpl. by rewrite bool_decide_true. }
  cbv beta. intros [ret r] s' (Hp' & Hok & Ec). rewrite <-negb_andb, Ec. unfold after_call in Hp'. unfold entry_ok in Hok. simpl in Hok.
  destruct (completed r) eqn:E; simpl; [|by apply wp_ret]. destruct (Hok eq_refl) as [Hn Hi].
  apply wp_bind. eapply wp_defined; [|by apply wp_ret].
  rewrite (proj2 (Z.leb_le _ _)); [done|]. destruct cap; by apply Hn.
Qed.
Lemma accept_run m s : in_phase 0 (Got m []) s → WT_ITS_OP_SET ≤ pm_type m ≤ WT_PS_OP_SET_EXTENDED →
  fwp (accept_request pid m) (λ '(st, buf) s',
    if st =? PSA_SUCCESS then ∃ h, 0 < h ∧ well_formed m buf = true ∧ in_phase h (Opened m buf h) s'
    else st < 0 ∧ ∃ p, in_phase 0 p s' ∧ ∀ r, advance fc p ({| rq_partition_id := pid; rq_op := SvcReply (pm_handle m) st |}, r) = Some Idle) s.
Proof using All.
  intros Hp Ht. assert (∀ st b s', in_phase 0 (Got m b) s' → st < 0 →
    st < 0 ∧ ∃ p, in_phase 0 p s' ∧ ∀ r, advance fc p ({| rq_partition_id := pid; rq_op := SvcReply (pm_handle m) st |}, r) = Some Idle) as Hr.
  { intros st b s' Hs Hst. split; [done|]. exists (Got m b). split; [done|]. intros r. unfold advance, own_answer. simpl. rewrite !Z.eqb_refl. unfold WT_ITS_OP_SET in Ht.
    rewrite (proj2 (Z.eqb_neq (pm_type m) PSA_IPC_CONNECT)), (proj2 (Z.eqb_neq (pm_type m) PSA_IPC_DISCONNECT))
      by (unfold PSA_IPC_CONNECT, PSA_IPC_DISCONNECT; lia).
    simpl. by rewrite (proj2 (Z.ltb_lt _ _)). }
  apply fwp_fn. cbv zeta. apply wp_if; intros _; [apply wp_ret; by eapply Hr|]. apply wp_if; intros _; [apply wp_ret; by eapply Hr|].
  apply wp_bind, wp_call.
  eapply fwp_mono; [eapply (via_run _ (λ r q, match r with inl _ => ∃ b, q = Got m b | inr l => q = Got m l end)); [done|]|].
  { apply fwp_fn. eapply wp_mono; [apply (drain_talking transport fc); [apply Hp|by vm_compute..]|done|].
    cbv beta. intros [e|l] x; [intros [b Hb]; eauto|eauto]. }
  cbv beta. intros [e|buf] s1 (q & Hq & Eq); [destruct Eq as [b ->]; apply wp_ret; by eapply Hr|subst q].
  apply wp_if; intros El; bool_hyps; [apply wp_ret; by eapply Hr|]. apply wp_if; intros Eu; [apply wp_ret; by eapply Hr|].
  apply wp_if; intros Ety; [apply wp_ret; by eapply Hr|]. apply orb_false_iff in Ety as [Et1 Et2].
  assert (well_formed m buf = true) as Hw.
  { unfold well_formed. simpl in Eu. rewrite Eu. rewrite andb_true_r. apply Z.eqb_neq in Et1, Et2.
    unfold WT_ITS_OP_SET, WT_ITS_OP_REMOVE, WT_PS_OP_SET_EXTENDED, WT_PS_OP_CREATE in *.
    rewrite !andb_true_iff, !Z.leb_le. lia. }
  apply wp_bind, wp_call. eapply fwp_mono; [by eapply connect_run|]. cbv beta. intros st s2 H2. apply wp_ret.
  destruct (st =? PSA_SUCCESS); [destruct H2 as (h & ? & ?); eauto|]. destruct H2 as [-> H2]. split; [done|].
  exists (Answered m PSA_ERROR_GENERIC_ERROR). split; [done|]. intros r. unfold advance. simpl. by rewrite !Z.eqb_refl.
Qed.

(** The connection can be closed, and the client is then answered [st]. *)
Definition closing (m : psa_msg) (h st : Z) (s : ctx) : Prop := ∃ p, in_phase h p s ∧
  ∀ r, advance fc p ({| rq_partition_id := pid; rq_op := SvcClose h |}, r) = Some (Answered m st).
Lemma called_closing m h st s : in_phase h (Called m h None st) s → closing m h st s.
Proof using. intros Hp. exists (Called m h None st). split; [done|]. intros r. unfold advance. simpl. by rewrite !Z.eqb_refl. Qed.
Lemma refused_closing m buf h st s : in_phase h (Opened m buf h) s → forwarded fc m buf = inl st → closing m h st s.
Proof using. intros Hp E. exists (Opened m buf h). split; [done|]. intros r. unfold advance. simpl. by rewrite !Z.eqb_refl, E. Qed.
(** The data of a reply that the client is owed. *)
Lemma owed_run m h data s : in_phase h (Called m h (Some data) PSA_SUCCESS) s →
  wp (reply_with pid m PSA_SUCCESS data) (closing m h) (closing m h) s.
Proof using All.
  intros Hp. eapply wp_mono; [eapply (reply_run _ _ _ _ (λ r, Called m h None (write_status r))); [done|]|done|].
  - intros r. unfold advance. simpl. rewrite !Z.eqb_refl. simpl. by rewrite bool_decide_true.
  - cbv beta. intros st s' (r & Hp' & ->). by apply called_closing.
Qed.
Lemma get_capacity n : (let n := if WT_VAULT_OBJECT_MAX <? n then WT_VAULT_OBJECT_MAX else n in
  if WT_FFM_TRANSFER_BYTES - sizeof_vault_req <? n then WT_FFM_TRANSFER_BYTES - sizeof_vault_req else n) =
  Z.min n (WT_FFM_TRANSFER_BYTES - sizeof_vault_req).
Proof using.
  unfold WT_VAULT_OBJECT_MAX, WT_FFM_TRANSFER_BYTES, sizeof_vault_req. destruct (Z.ltb_spec 1024 n); [simpl; lia|].
  cbv zeta. destruct (Z.ltb_spec (1024 - 24) n); lia.
Qed.

Lemma forward_set m buf h s : in_phase h (Opened m buf h) s → pm_type m = WT_ITS_OP_SET →
  fwp (forward_request pid m buf) (closing m h) s.
Proof using All.
  intros Hp Et. destruct (in_phase_fields _ _ _ Hp) as (_ & _ & _ & Em & Ef & _).
  apply fwp_fn. cbv zeta. rewrite Et. apply wp_bind, wp_gets. rewrite Ef. apply wp_if; intros E; [clear E|done].
  apply wp_bind, wp_gets. rewrite Em. apply wp_if; intros E1; bool_hyps.
  { apply wp_ret. apply (refused_closing _ buf); [done|]. unfold forwarded. rewrite Et, Z.eqb_refl. simpl in E1. simpl fc_mask. by rewrite (proj2 (Z.eqb_neq _ _) E1). }
  apply wp_bind, wp_call. change WT_VAULT_OP_SET with WT_ITS_OP_SET. rewrite <-Et. eapply fwp_mono; [eapply vault_call_run; [done| |]|].
  { unfold forwarded. rewrite Et, Z.eqb_refl. simpl in E1. simpl fc_mask. by rewrite (proj2 (Z.eqb_eq _ _) E1). }
  { done. }
  cbv beta. intros [st out] s' [Hp' _]. apply wp_ret, called_closing. unfold owed_data in Hp'. rewrite Et in Hp'. simpl in Hp'. by destruct (st =? _).
Qed.
Lemma forward_remove m buf h s : in_phase h (Opened m buf h) s → pm_type m = WT_ITS_OP_REMOVE →
  fwp (forward_request pid m buf) (closing m h) s.
Proof using All.
  intros Hp Et. apply fwp_fn. cbv zeta. rewrite Et. apply wp_bind, wp_gets.
  do 3 (apply wp_if; intros E; [done|clear E]). apply wp_if; intros E; [|done].
  apply wp_bind, wp_call. change WT_VAULT_OP_REMOVE with WT_ITS_OP_REMOVE. rewrite <-Et. eapply fwp_mono; [eapply vault_call_run; [done| |]|].
  { unfold forwarded. by rewrite Et. }
  { done. }
  cbv beta. intros [st out] s' [Hp' _]. apply wp_ret, called_closing. unfold owed_data in Hp'. rewrite Et in Hp'. simpl in Hp'. by destruct (st =? _).
Qed.
Lemma forward_get m buf h s : in_phase h (Opened m buf h) s → pm_type m = WT_ITS_OP_GET → 0 ≤ out_size m 0 →
  fwp (forward_request pid m buf) (closing m h) s.
Proof using All.
  intros Hp Et Ho. apply fwp_fn. cbv zeta. rewrite Et. apply wp_bind, wp_gets.
  apply wp_if; intros E; [done|clear E]. apply wp_if; intros E; [|done].
  apply wp_bind, wp_call. change WT_VAULT_OP_GET with WT_ITS_OP_GET. rewrite <-Et. eapply fwp_mono; [eapply vault_call_run; [done| |]|].
  { unfold forwarded. rewrite Et. simpl. do 3 f_equal. symmetry. apply get_capacity. }
  { pose proof (get_capacity (out_size m 0)) as Ec. cbv zeta in Ec. simpl. rewrite Ec. unfold WT_FFM_TRANSFER_BYTES, sizeof_vault_req. lia. }
  cbv beta. intros [st out] s' [Hp' _]. unfold owed_data in Hp'. rewrite Et in Hp'. simpl in Hp'. unfold reply_with at 1.
  destruct (Z.eqb_spec st PSA_SUCCESS) as [->|]; [by apply (owed_run m h)|by apply wp_ret, called_closing].
Qed.
Lemma forward_info m buf h s : in_phase h (Opened m buf h) s → pm_type m = WT_ITS_OP_GET_INFO →
  fwp (forward_request pid m buf) (closing m h) s.
Proof using All.
  intros Hp Et. destruct (in_phase_fields _ _ _ Hp) as (_ & _ & _ & _ & Ef & _).
  apply fwp_fn. cbv zeta. rewrite Et. apply wp_bind, wp_gets. rewrite Ef.
  do 2 (apply wp_if; intros E; [done|clear E]). apply wp_if; intros E; [|done]. apply wp_if; intros E1.
  { apply wp_ret. apply (refused_closing _ buf); [done|]. unfold forwarded. by rewrite Et, E1. }
  apply wp_bind, wp_call. change WT_VAULT_OP_GET_INFO with WT_ITS_OP_GET_INFO. rewrite <-Et. eapply fwp_mono; [eapply vault_call_run; [done| |]|].
  { unfold forwarded. by rewrite Et, E1. }
  { done. }
  cbv beta. intros [st out] s' [Hp' Hl]. unfold owed_data in Hp'. rewrite Et in Hp'. simpl in Hp'.
  destruct (Z.eqb_spec st PSA_SUCCESS) as [->|]; [|by apply wp_ret, called_closing].
  apply wp_bind. rewrite (Hl Et eq_refl). eapply wp_defined; [done|]. by apply (owed_run m h).
Qed.

Lemma service_call_run m s : in_phase 0 (Got m []) s → WT_ITS_OP_SET ≤ pm_type m ≤ WT_PS_OP_SET_EXTENDED → 0 ≤ out_size m 0 →
  fwp (wt_storage_service_call pid m) (λ st s', ∃ p, in_phase 0 p s' ∧
    ∀ r, advance fc p ({| rq_partition_id := pid; rq_op := SvcReply (pm_handle m) st |}, r) = Some Idle) s.
Proof using All.
  intros Hp Ht Hos. apply fwp_fn, wp_bind, wp_call. eapply fwp_mono; [by eapply accept_run|]. cbv beta. intros [st buf] s1 H1.
  apply wp_bind. destruct (st =? PSA_SUCCESS).
  - destruct H1 as (h & Hh & Hw & Hp1). apply wp_call. eapply fwp_mono.
    { assert (pm_type m = WT_ITS_OP_SET ∨ pm_type m = WT_ITS_OP_GET ∨ pm_type m = WT_ITS_OP_GET_INFO ∨ pm_type m = WT_ITS_OP_REMOVE) as Ho.
      { unfold well_formed in Hw. unfold WT_ITS_OP_SET, WT_ITS_OP_REMOVE, WT_ITS_OP_GET, WT_ITS_OP_GET_INFO in *.
        rewrite !andb_true_iff, !Z.leb_le in Hw. lia. }
      destruct Ho as [?|[?|[?|?]]]; [by eapply forward_set|by eapply forward_get|by eapply forward_info|by eapply forward_remove]. }
    cbv beta. intros st' s2 (p & Hp2 & Ha). destruct (in_phase_fields _ _ _ Hp2) as (_ & Eh & _).
    apply wp_bind, wp_call, fwp_fn, wp_bind, wp_gets. rewrite Eh, (proj2 (Z.ltb_lt _ _) Hh). simpl.
    apply wp_bind, wp_bind, wp_call. eapply fwp_mono; [by eapply (storage_xfer_run _ (λ _, Answered m st'))|].
    cbv beta. intros [ret r] s3 [Hp3 _]. apply wp_ret, wp_modify, wp_ret. exists (Answered m st'). split; [by eapply in_phase_handle|].
    intros r'. unfold advance. simpl. by rewrite !Z.eqb_refl.
  - destruct H1 as (_ & p & Hp1 & Ha). destruct (in_phase_fields _ _ _ Hp1) as (_ & Eh & _).
    apply wp_ret, wp_bind, wp_call, fwp_fn, wp_bind, wp_gets. rewrite Eh. simpl.
    apply wp_bind, wp_ret, wp_modify, wp_ret. exists p. split; [by eapply in_phase_handle|done].
Qed.

Lemma serve_run m s : in_phase 0 (Got m []) s → 0 ≤ out_size m 0 →
  fwp (serve_message pid m) (λ st s', ∃ p, in_phase 0 p s' ∧
    ∀ r, advance fc p ({| rq_partition_id := pid; rq_op := SvcReply (pm_handle m) st |}, r) = Some Idle) s.
Proof using All.
  intros Hp Hos. assert (∀ st, own_answer m st = true → ∃ p, in_phase 0 p s ∧
    ∀ r, advance fc p ({| rq_partition_id := pid; rq_op := SvcReply (pm_handle m) st |}, r) = Some Idle) as Hr.
  { intros st Hs. exists (Got m []). split; [done|]. intros r. unfold advance. simpl. by rewrite !Z.eqb_refl, Hs. }
  apply fwp_fn. cbv zeta. unfold own_answer in Hr. destruct (_ || _); [by apply wp_ret, Hr|].
  apply wp_if; intros E.
  { destruct (in_phase_fields _ _ _ Hp) as (_ & _ & _ & _ & _ & Ec). apply wp_bind, wp_gets. rewrite Ec.
    apply wp_if; intros _; [by apply wp_ret, Hr|].
    eapply wp_mono; [eapply (reply_run _ _ _ _ (λ r, Answered m (write_status r))); [done|]|done|].
    - intros r. unfold advance. simpl. rewrite !Z.eqb_refl, E. simpl. by rewrite bool_decide_true.
    - cbv beta. intros st s' (r & Hp' & ->). exists (Answered m (write_status r)). split; [done|].
      intros r'. unfold advance. simpl. by rewrite !Z.eqb_refl. }
  apply wp_if; intros E1; [|by apply wp_ret, Hr]. apply wp_call, service_call_run; [done| |done].
  by rewrite andb_true_iff, !Z.leb_le in E1.
Qed.
Lemma round_run s : in_phase 0 Idle s → fwp (serve_round pid) (λ _ s', in_phase 0 Idle s') s.
Proof using All.
  intros Hp. apply fwp_fn, wp_bind, wp_call.
  eapply fwp_mono; [eapply (via_run _ (λ _ q, q = Idle)); [done|]|].
  { eapply fwp_mono; [apply (wait_talking transport fc), Hp|]. cbv beta. intros a x Hx. by exists Idle. }
  cbv beta. intros [ret sig] s1 (q & Hp1 & ->). apply wp_if; intros _; [by apply wp_ret|]. apply wp_if; intros _; [by apply wp_ret|].
  apply wp_bind, wp_call. eapply fwp_mono; [eapply (request_run _ (λ r, if (sr_return r =? WT_FFM_SUCCESS) && (sr_status r =? PSA_SUCCESS)
                                                                        then Got (sr_msg r) [] else Idle)); [done|]|].
  { intros r. unfold advance. simpl. by rewrite Z.eqb_refl. }
  cbv beta. intros r s2 [Hp2 [_ Ho]]. rewrite <-negb_andb. destruct (_ && _); simpl; [|by apply wp_ret].
  apply wp_bind, wp_call. eapply fwp_mono; [eapply serve_run; [done|]|].
  { unfold out_size. destruct (pm_out_size (sr_msg r) !! 0%nat) as [z|] eqn:Ez; [|done]. by eapply (Forall_lookup_1 _ _ _ _ Ho). }
  cbv beta. intros st s3 (p & Hp3 & Ha).
  apply wp_bind, wp_call. eapply fwp_mono; [by eapply (request_run _ (λ _, Idle))|]. cbv beta. intros r' s4 [Hp4 _].
  by apply wp_if; intros _; apply wp_ret.
Qed.
Lemma rounds_run n s : in_phase 0 Idle s → ∃ s', service_rounds n pid (Some s) = Some (Some s') ∧ in_phase 0 Idle s'.
Proof using All.
  revert s. induction n as [|n IH]; intros s Hp; [eauto|]. simpl. destruct (in_phase_fields _ _ _ Hp) as [-> _].
  destruct (fwp_run _ _ _ (round_run s Hp)) as (s1 & r & -> & Hp1). simpl. by apply IH.
Qed.
End rounds.

(** ** Delegation *)

Lemma vault_req_roundtrip r : 0 ≤ vr_uid r < 2 ^ 64 → 0 ≤ vr_flags r < 2 ^ 32 → 0 ≤ vr_offset r < 2 ^ 32 →
  - 2 ^ 31 ≤ vr_sub_owner r < 2 ^ 31 → 0 ≤ vr_reserved r < 2 ^ 32 → vault_req_of_bytes (bytes_of_vault_req r) = r.
Proof.
  intros Hu Hf Ho Hs Hr. destruct r as [u f o s v]. simpl in *. unfold vault_req_of_bytes, bytes_of_vault_req. simpl.
  pose proof (u32_range s) as Hs'.
  pose proof (field_app [] u 8 (to_le 4 f ++ to_le 4 o ++ to_le 4 (u32 s) ++ to_le 4 v) Hu) as E1.
  pose proof (field_app (to_le 8 u) f 4 (to_le 4 o ++ to_le 4 (u32 s) ++ to_le 4 v) Hf) as E2.
  pose proof (field_app (to_le 8 u ++ to_le 4 f) o 4 (to_le 4 (u32 s) ++ to_le 4 v) Ho) as E3.
  pose proof (field_app (to_le 8 u ++ to_le 4 f ++ to_le 4 o) (u32 s) 4 (to_le 4 v) Hs') as E4.
  pose proof (field_app (to_le 8 u ++ to_le 4 f ++ to_le 4 o ++ to_le 4 (u32 s)) v 4 [] Hr) as E5.
  rewrite app_nil_r in E5. rewrite <-!app_assoc in E3, E4, E5. rewrite !length_app, !length_to_le in *. simpl in E1, E2, E3, E4, E5.
  f_equal; try done. etransitivity; [apply f_equal, E4|]. by apply i32_roundtrip.
Qed.

Lemma lor_range n a b : 0 ≤ n → 0 ≤ a < 2 ^ n → 0 ≤ b < 2 ^ n → 0 ≤ a .| b < 2 ^ n.
Proof.
  intros Hn [Ha Ha'] [Hb Hb']. assert (0 ≤ a .| b) as H0 by by apply Z.lor_nonneg. split; [done|].
  apply Z.bounded_iff_bits_nonneg; [done..|]. intros l Hl. rewrite Z.lor_spec.
  apply Z.bounded_iff_bits_nonneg with (k := n) (l := l) in Ha', Hb'; [|done..]. by rewrite Ha', Hb'.
Qed.

Section delegation.
Context (fc : face).
Hypothesis flags_range : 0 ≤ fc_flags fc < 2 ^ 32.
Implicit Types (log : list entry) (e : entry) (m : psa_msg).

(** The gate delivered the message [m]. *)
Definition delivered log m : Prop := ∃ sig r, ({| rq_partition_id := fc_pid fc; rq_op := SvcGet sig |}, r) ∈ log ∧ sr_msg r = m.
(** A call to the vault is made for a client that sent a message, and carries what
    the vault reads as a request in that client's name. *)
Definition delegated log e : Prop :=
  match rq_op e.1 with
  | SvcCall _ type ins _ => ∃ m header data,
    delivered log m ∧ ins = header :: data ∧ type = pm_type m ∧ WT_ITS_OP_SET ≤ type ≤ WT_ITS_OP_REMOVE ∧
    let v := vault_req_of_bytes header in
    vr_sub_owner v = pm_client_id m ∧ vr_uid v ≠ 0 ∧
    (type = WT_ITS_OP_SET → vr_flags v .&~ (fc_mask fc .| fc_flags fc) = 0 ∧ fc_flags fc .&~ vr_flags v = 0)
  | _ => True
  end.
Definition phase_ok log (p : phase) : Prop :=
  let received m buf := delivered log m ∧ - 2 ^ 31 ≤ pm_client_id m < 2 ^ 31 ∧ Forall is_byte buf in
  match p with
  | Got m buf => received m buf
  | Opened m buf _ => received m buf ∧ well_formed m buf = true
  | _ => True
  end.

Lemma delivered_snoc log e m : delivered log m → delivered (log ++ [e]) m.
Proof using. intros (sig & r & He & Em). exists sig, r. split; [apply elem_of_app; by left|done]. Qed.
Lemma delegated_snoc log e e' : delegated log e' → delegated (log ++ [e]) e'.
Proof using.
  unfold delegated. destruct (rq_op e'.1); try done. intros (m & hd & data & Hm & H). exists m, hd, data. split; [by apply delivered_snoc|done].
Qed.

Lemma header_delegates m buf flags : - 2 ^ 31 ≤ pm_client_id m < 2 ^ 31 → Forall is_byte buf → 0 ≤ flags < 2 ^ 32 →
  let v := vault_req_of_bytes (vault_header m buf flags) in
  vr_sub_owner v = pm_client_id m ∧ vr_uid v = field buf 0 8 ∧ vr_flags v = flags.
Proof using.
  intros Hc Hb Hf v. unfold v, vault_header. rewrite vault_req_roundtrip; simpl; [done| |done| |done|done].
  - by apply (field_range buf 0 8).
  - by apply (field_range buf 12 4).
Qed.
Lemma forwarded_delegates m buf ins outs : - 2 ^ 31 ≤ pm_client_id m < 2 ^ 31 → Forall is_byte buf →
  forwarded fc m buf = inr (ins, outs) → ∃ header data, ins = header :: data ∧
    let v := vault_req_of_bytes header in vr_sub_owner v = pm_client_id m ∧ vr_uid v = field buf 0 8 ∧
    (pm_type m = WT_ITS_OP_SET → vr_flags v .&~ (fc_mask fc .| fc_flags fc) = 0 ∧ fc_flags fc .&~ vr_flags v = 0).
Proof using flags_range.
  intros Hc Hb E. pose proof (field_range buf 8 4 Hb) as Hf. change (256 ^ Z.of_nat 4) with (2 ^ 32) in Hf.
  assert (∀ flags data, 0 ≤ flags < 2 ^ 32 → (pm_type m = WT_ITS_OP_SET → flags .&~ (fc_mask fc .| fc_flags fc) = 0 ∧ fc_flags fc .&~ flags = 0) →
    ins = vault_header m buf flags :: data → ∃ header data, ins = header :: data ∧
    let v := vault_req_of_bytes header in vr_sub_owner v = pm_client_id m ∧ vr_uid v = field buf 0 8 ∧
    (pm_type m = WT_ITS_OP_SET → vr_flags v .&~ (fc_mask fc .| fc_flags fc) = 0 ∧ fc_flags fc .&~ vr_flags v = 0)) as H.
  { intros flags data Hr Hs ->. destruct (header_delegates m buf flags Hc Hb Hr) as (E1 & E2 & E3).
    eexists _, _. split; [done|]. cbv zeta. by rewrite E1, E2, E3. }
  unfold forwarded in E. destruct (Z.eqb_spec (pm_type m) WT_ITS_OP_SET) as [Et|Et].
  - destruct (Z.eqb_spec (field buf 8 4 .&~ fc_mask fc) 0) as [Em|]; [|done]. injection E as <- <-. eapply H; [|intros _|done].
    + by apply lor_range.
    + split; apply Z.bits_inj'; intros i Hi; rewrite Z.ldiff_spec, ?Z.lor_spec, Z.bits_0.
      * pose proof (f_equal (λ z, Z.testbit z i) Em) as Eb. cbv beta in Eb. rewrite Z.ldiff_spec, Z.bits_0 in Eb.
        destruct (Z.testbit (field buf 8 4) i), (Z.testbit (fc_mask fc) i), (Z.testbit (fc_flags fc) i); done.
      * by destruct (Z.testbit (fc_flags fc) i), (Z.testbit (field buf 8 4) i).
  - repeat case_match; simplify_eq; by eapply H.
Qed.
Lemma advance_ok log p e p' : phase_ok log p → entry_ok e → advance fc p e = Some p' →
  phase_ok (log ++ [e]) p' ∧ delegated (log ++ [e]) e.
Proof using flags_range.
  intros Hp He Ha. destruct e as [[q op] r]. unfold advance in Ha. simpl in Ha.
  destruct (Z.eqb_spec q (fc_pid fc)) as [->|]; [simpl in Ha|done].
  destruct p as [|m buf|m buf h|m h [data|] st|m st]; destruct op as [| |sig|h1 [|] n|h1 [|] d|h1 st1|sid vn|h1 ty ins outs|h1|]; try done;
    unfold check in Ha; cbv beta in Ha; simplify_eq; try (split; [|done]; done).
  - split; [|done]. destruct (_ && _); simplify_eq; [|done]. destruct He as [Hc _]. split; [|by split].
    eexists _, _. split; [apply elem_of_app; right; by apply list_elem_of_singleton|done].
  - destruct (_ && _) eqn:E; simplify_eq. split; [|done]. destruct Hp as (Hm & Hc & Hb). simpl.
    split; [by apply delivered_snoc|split; [done|]]. destruct (sr_return r =? _); [|done]. apply Forall_app. split; [done|].
    apply He. by apply andb_true_iff in E as [_ E%Z.leb_le].
  - by destruct (_ && _); simplify_eq.
  - by destruct (_ && _); simplify_eq.
  - destruct vn as [|[]|]; try done. destruct (_ && _) eqn:E; simplify_eq. apply andb_true_iff in E as [_ E].
    destruct (_ && _); (split; [|done]); [|done]. destruct Hp as (Hm & Hc & Hb). split; [|done]. split; [by apply delivered_snoc|done].
  - destruct (_ && _) eqn:E; simplify_eq. split; [done|]. destruct Hp as ((Hm & Hc & Hb) & Hw).
    rewrite !andb_true_iff in E. destruct E as [[_ ->%Z.eqb_eq] E]. apply bool_decide_eq_true in E.
    destruct (forwarded_delegates m buf ins outs Hc Hb E) as (hd & data & -> & Hs & Hu & Hf). exists m, hd, data.
    split; [by apply delivered_snoc|]. split; [done|]. split; [done|]. unfold well_formed in Hw.
    rewrite !andb_true_iff, !Z.leb_le, negb_true_iff, Z.eqb_neq in Hw. cbv zeta. rewrite Hu. naive_solver.
  - by destruct (forwarded fc m buf); [destruct (_ =? _); simplify_eq|].
  - by destruct (_ && _); simplify_eq.
  - by destruct (_ =? _); simplify_eq.
  - by destruct (_ && _); simplify_eq.
Qed.
Lemma converse_delegates log p : converse fc Idle log = Some p → Forall entry_ok log →
  phase_ok log p ∧ Forall (delegated log) log.
Proof using flags_range.
  revert p. induction log as [|e log IH] using rev_ind; intros p Hc Hl; [simpl in Hc; by simplify_eq|].
  apply converse_snoc_inv in Hc as (p' & Hc & Ha). apply Forall_app in Hl as [Hl He]. apply Forall_cons in He as [He _].
  destruct (IH p' Hc Hl) as [Hp Hd]. destruct (advance_ok log p' e p Hp He Ha) as [Hp' He']. split; [done|].
  apply Forall_app. split; [|by constructor]. eapply Forall_impl; [exact Hd|]. intros e'. apply delegated_snoc.
Qed.
End delegation.

(** ** The front ends *)

Section front_ends.
Context {W : Type} (transport : transport_fn W) `{!TransportOk transport, !MessagesOk transport, !VaultReplies transport}.
Context (pid : Z) (w : W).
(** A context as a partition sets it up, with a transport that logs. *)
Definition fresh (c : wt_storage_service_ctx (W * list entry)) : Prop :=
  ctx_transport c = Some (logged transport) ∧ ctx_vault_handle c = 0 ∧ ss_world c = (w, []).
Lemma fresh_rounds c n : fresh c → ∃ s, service_rounds n pid (Some c) = Some (Some s) ∧ ctx_vault_handle s = 0 ∧
  talking (face_of pid c) Idle (ss_world s).
Proof using All.
  intros (Et & Eh & Ew). destruct (rounds_run transport pid c Et n c) as (s & E & Hp).
  { split; [|by rewrite Ew]. destruct c. simpl in *. by subst. }
  exists s. split; [done|]. split; [|apply Hp]. by destruct (in_phase_fields transport pid c Et 0 Idle s Hp) as (_ & ? & _).
Qed.

(** C18: the storage front ends speak a fixed protocol with the gate. Any number of
    rounds of a front end is defined, whatever the gate and the vault answer; the
    requests it made and the results it saw are a conversation of the automaton
    [advance] that ends between messages, and no connection to the vault is left
    open. So a message is answered once; the vault is asked once for it, on a
    connection to the vault that is closed before the answer; success is answered
    to a storage request only if the vault answered success and its data, with the
    front end's own flags hidden, was delivered. *)
Theorem storage_conversation c n : fresh c →
  ∃ s, service_rounds n pid (Some c) = Some (Some s) ∧ ctx_vault_handle s = 0 ∧
    converse (face_of pid c) Idle (ss_world s).2 = Some Idle.
Proof using All. intros Hf. destruct (fresh_rounds c n Hf) as (s & E & Hh & Ht & _). eauto. Qed.

(** C19: each call that a front end makes to the vault is for a client whose message
    the gate delivered. The vault reads from its header that client as the
    delegated owner, a uid that is not zero, and for a store only the flags that
    the front end accepts, together with its own: whatever the client asks,
    protected storage stores sealed objects. *)
Theorem storage_delegates c n : fresh c → 0 ≤ ctx_vault_flags c < 2 ^ 32 →
  ∃ s, service_rounds n pid (Some c) = Some (Some s) ∧ Forall (delegated (face_of pid c) (ss_world s).2) (ss_world s).2.
Proof using All.
  intros Hf Hr. destruct (fresh_rounds c n Hf) as (s & E & _ & Hc & Hl). exists s. split; [done|].
  by eapply (converse_delegates (face_of pid c)).
Qed.
End front_ends.

(** ** A request to protected storage *)

(** A gate that delivers one request, [ps_input], and a vault that accepts. *)
Definition ps_message (type : Z) (input : list Z) : psa_msg :=
  {| pm_type := type; pm_handle := 6; pm_client_id := -4; pm_rhandle := 0; pm_in_size := [Z.of_nat (length input); 0; 0; 0];
     pm_out_size := [0; 0; 0; 0] |}.
Definition ps_transport (type : Z) : transport_fn (list Z) := λ rq input,
  let answer status handle data := {| sr_return := 0; sr_int := 0; sr_status := status; sr_tick := 0; sr_handle := handle; sr_version := 1;
                               sr_asserted := 0x10; sr_msg := ps_message type input; sr_data := data; sr_out := [] |} in
  match rq_op rq with
  | SvcRead _ _ n => (drop (Z.to_nat n) input, answer 0 0 (filter is_byte (take (Z.to_nat n) input)))
  | SvcConnect _ _ => (input, answer 0 9 [])
  | SvcCall _ ty _ _ => (input, if ty =? WT_VAULT_OP_GET_INFO then answer PSA_ERROR_DOES_NOT_EXIST 0 [] else answer 0 0 [])
  | _ => (input, answer 0 0 [])
  end.
#[export] Instance ps_transport_ok type : TransportOk (ps_transport type).
Proof.
  intros pid h idx n w Hn. simpl. split.
  - pose proof (length_filter is_byte (take (Z.to_nat n) w)) as Hf. rewrite length_take in Hf. lia.
  - apply Forall_forall. intros x Hx. by apply list_elem_of_filter in Hx as [? _].
Qed.
#[export] Instance ps_messages_ok type : MessagesOk (ps_transport type).
Proof. intros pid sig w. simpl. split; [done|]. by repeat constructor. Qed.
#[export] Instance ps_replies_ok type : VaultReplies (ps_transport type).
Proof.
  intros pid h ty ins outs w. simpl. destruct (Z.eqb_spec ty WT_VAULT_OP_GET_INFO); simpl; intros _; (split; [|done]).
  all: intros; lia.
Qed.
(** A client asks to store the bytes 1, 2 once only, as object 7. *)
Definition ps_input : list Z := to_le 8 7 ++ to_le 4 WT_VAULT_FLAG_WRITE_ONCE ++ to_le 4 0 ++ [1; 2].
Definition ps_start : wt_storage_service_ctx (list Z * list entry) :=
  ps_context 40 (logged (ps_transport WT_ITS_OP_SET)) (ps_input, []).
Definition ps_end : wt_storage_service_ctx (list Z * list entry) :=
  match service_rounds 1 3 (Some ps_start) with Some (Some s) => s | _ => ps_start end.
Lemma ps_start_fresh : fresh (ps_transport WT_ITS_OP_SET) ps_input ps_start.
Proof. by repeat split. Qed.
Lemma storage_conversation_witness :
  converse (face_of 3 ps_start) Idle (ss_world ps_end).2 = Some Idle ∧ length (ss_world ps_end).2 = 8%nat ∧
  ∃ s, service_rounds 1 3 (Some ps_start) = Some (Some s) ∧ ctx_vault_handle s = 0 ∧
    converse (face_of 3 ps_start) Idle (ss_world s).2 = Some Idle.
Proof.
  split; [by vm_compute|]. split; [by vm_compute|].
  apply (storage_conversation (ps_transport WT_ITS_OP_SET) 3 ps_input ps_start 1), ps_start_fresh.
Defined.
(** The vault is asked to store the object sealed, for client -4. *)
Lemma storage_delegates_witness :
  (∃ e, (ss_world ps_end).2 !! 5%nat = Some e ∧ rq_op e.1 = SvcCall 9 WT_VAULT_OP_SET
    [bytes_of_vault_req {| vr_uid := 7; vr_flags := WT_VAULT_FLAG_WRITE_ONCE .| WT_VAULT_FLAG_SEALED; vr_offset := 0;
                           vr_sub_owner := -4; vr_reserved := 0 |}; [1; 2]] []) ∧
  ∃ s, service_rounds 1 3 (Some ps_start) = Some (Some s) ∧
    Forall (delegated (face_of 3 ps_start) (ss_world s).2) (ss_world s).2.
Proof.
  split; [eexists; split; by vm_compute|].
  apply (storage_delegates (ps_transport WT_ITS_OP_SET) 3 ps_input ps_start 1); [apply ps_start_fresh|done].
Defined.
